(* ===== verification/_CoqProject ===== *)
-Q . S2P
Prelude.v
Endian.v
Intset.v
NumConv.v
Objects.v
Sds.v
Glob.v
SdsText.v
Strto.v
SdsFmt.v
SdsSpec.v
Dict.v
DictFacts.v
DictScan.v
DictHash.v
DictIter.v
SetType.v
SetSpec.v
SetOps.v
Adlist.v
Lzf.v
Crc.v
Rio.v
Rdb.v
Bitops.v
Zipmap.v
Ziplist.v
ZiplistFacts.v
ZiplistOps.v
ZiplistSpec.v
ZiplistTexts.v
HashType.v
ListType.v
Skiplist.v
SkiplistFacts.v
SkiplistSpec.v
Zset.v
Proto.v
ProtoSpec.v
Keyspace.v
Commands.v
HashCommands.v
ListCommands.v
HashSpec.v
HashCmdSpec.v
ListSpec.v
ListCmdSpec.v
Multi.v
KeyspaceFacts.v
CommandsSafe.v
MultiSpec.v
ServerSpec.v
ExpireSpec.v
MrgTable.v
Mrg.v
Mod32.v
MrgSpec.v
Kronecker.v
KroneckerSpec.v
Csr.v
CsrSpec.v
Bfs.v
BfsSpec.v
Validate.v
ValidateSpec.v
ValidateResults.v
