(* ===== verification/Prelude.v ===== *)
(** * Redis 3.0 and Graph500: a key-value server and a graph benchmark

    The repository collects benchmark applications.  Two of them, written in C, are
    modelled here: the Redis server, [src/redis-3.0.0/src] (the data structures that
    hold the keyspace, the formats in which it is stored and sent, and the commands),
    and Graph500, [src/graph500] (the generator of graphs, the distributed graph, the
    breadth-first search and its validation).  The other applications (graphchi, Metis,
    gtc, stream, the older copies under archive/) are left aside.

    ** How the parts fit together

    A database is a hash table ([dict.c]) from strings ([sds.c]) to objects
    ([object.c]).  A list is a linked list ([adlist.c]) or a compressed list
    ([ziplist.c]); a hash is a hash table or a compressed list (a string map,
    [zipmap.c], in old dumps); a set is a hash table or a sorted array of
    integers ([intset.c]); a sorted set is a skip list with a hash table
    ([t_zset.c]) or a compressed list.  Bit operations ([bitops.c]) work on
    strings.  A dump ([rdb.c]) is written to a stream ([rio.c]) with a checksum
    ([crc64.c]); its strings are integers in binary, compressed ([lzf_c.c],
    [lzf_d.c]) or verbatim.  The hash slot of a key in a cluster is a checksum
    ([crc16.c]).

    ** How C is modelled

    Integers are elements of [Z] kept in the range of their C type by [wrapu] and
    [wraps]; where the code relies on wrap-around the model computes it.  Memory
    is a list of bytes (blocks), or a finite map from locations (heaps of nodes).
    [None] (or [Undef]) is undefined behaviour or a failed assertion: an access
    outside of a block, a freed node, an overflow of a signed integer.  A theorem
    that a function returns [Some _] therefore includes memory safety.  Loops
    that do not recurse on data take fuel; the fuel written in a definition is a
    bound from the data (the length of the block, the number of nodes), and the
    theorems state that the result is reached, so that the bound is enough.
    Indeterminate bytes (fresh memory, local arrays), the byte order of the host,
    random numbers, [memcmp], allocation addresses are parameters that the
    theorems quantify over; what is known about them is a hypothesis or a class
    ([Memcmp], [Stream]).

    ** The files

    - [Prelude]: machine integers, byte memory, tactics and hint databases.
    - [Endian]: endianconv.c, for both byte orders.
    - [Intset]: intset.c on the block of bytes.  The operations refine a finite set
      of integers, also across the upgrades of the encoding.
    - [NumConv]: [ll2string], [string2ll], [string2l] of util.c; they are exact
      inverses on the decimal strings of 64-bit integers.
    - [Objects]: string objects of object.c in both encodings, their comparison.
    - [Sds], [SdsText], [SdsFmt], [SdsSpec]: sds.c.  [Sds] has the operations on the
      buffer and the invariant [sds_rep]; [SdsSpec] shows that every sequence of
      calls refines byte strings; [SdsText] has numbers, splitting, quoting and
      parsing of lines, with the round trip of quoting; [SdsFmt] has [sdscatfmt].
    - [Dict], [DictFacts], [DictScan], [DictHash]: dict.c.  Tables, incremental
      rehashing and the operations refine a finite map; [dictScan] visits every
      element that stays, over calls between which the table may be resized
      (with the one exception that is stated); the hash functions and the
      comparison functions of redis.c agree.
    - [Adlist]: adlist.c on a shared heap of nodes, refining lists.
    - [Lzf]: lzf_c.c and lzf_d.c; round trip, and safety of the decompressor on
      arbitrary input.
    - [Crc]: crc16.c, crc64.c and [keyHashSlot] of cluster.c; the tables against
      the bitwise definition of the checksums.
    - [Rio]: rio.c.  [Backend] is the table of functions of a stream, [Stream] its
      contract; the memory buffer and the file are instances.
    - [Rdb]: the lengths, integers and strings of rdb.c, over any [Stream]; what is
      saved is loaded again, with the same checksum.
    - [Bitops]: the computations of bitops.c, by words, against their definition on
      single bits.
    - [Zipmap]: zipmap.c on the block of bytes, refining an association list.
    - [Ziplist], [ZiplistFacts], [ZiplistOps], [ZiplistSpec]: ziplist.c on the block
      of bytes: layout, cascades of updates, and the refinement of lists of
      strings.
    - [Skiplist], [SkiplistFacts], [SkiplistSpec], [Zset]: the skip list of t_zset.c
      on a heap of nodes with levels and spans; it refines a sorted sequence, and
      the deletions of ranges keep the dictionary of the sorted set in step.
    - [Glob]: the glob matcher [stringmatchlen] of util.c against the meaning of
      patterns.
    - [Proto], [ProtoSpec]: the parser of requests of networking.c: query buffer,
      inline and multi bulk requests, reads of any sizes.
    - [Keyspace], [Commands], [Multi]: the server that executes commands: databases,
      expires and watched keys (db.c, multi.c), the commands on strings and keys
      (t_string.c, db.c), transactions and [processCommand] (multi.c, redis.c), as
      functions on the state of the server, with the readings of the clock as a
      parameter.  [Strto]: [strtoll] and integers of objects.
    - [KeyspaceFacts], [CommandsSafe], [MultiSpec], [ServerSpec]: the invariant of that
      state, every command keeps it, and the properties of the server: no assertion
      fails, and EXEC executes only if the watched keys are unchanged.
    - [ExpireSpec]: lazy expiration against a server without expired keys: the
      specification of the commands on finite maps, and the simulation; it leaves out
      PERSIST and DBSIZE, which see expired keys, and transactions.
    - [DictIter]: iterators and random entries of dictionaries.
    - [SetType], [SetSpec], [SetOps]: set objects in two encodings (t_set.c) against
      sets of strings; intersection, union and difference on a store of set objects.
    - [ZiplistTexts]: ziplists as lists of strings, the interface for their clients.
    - [HashType], [HashCommands], [HashSpec], [HashCmdSpec]: hash objects in two
      encodings and their commands (t_hash.c) against finite maps.
    - [ListType], [ListCommands], [ListSpec], [ListCmdSpec]: list objects in two
      encodings, ziplists and linked lists in a heap, and their commands (t_list.c)
      against lists of strings.
    - [MrgTable], [Mrg], [Mod32], [MrgSpec]: the random number generator of graph500
      (generator/splittable_mrg.c, mod_arith_64bit.h, mod_arith_32bit.h) with its table
      of matrices (mrg_transitions.c), as machine integers of the kernel; skipping ahead
      against single steps, and the table against the program that writes it.
    - [Kronecker], [KroneckerSpec]: the generator of edges (graph_generator.c).
    - [Csr], [CsrSpec]: the distributed graph (csr_reference.c), built by active messages
      that arrive in any order, against the neighbours in the list of edges.  Vertices
      are distributed cyclically over any number of processes, as the Makefile builds it
      (PROCS_PER_NODE_NOT_POWER_OF_TWO).
    - [Bfs], [BfsSpec]: the breadth-first search (bfs_reference.c) as a transition system
      with any interleaving of sends and handlers, against shortest paths.  The layer of
      messages (aml.c over MPI) is not modelled: it is taken to deliver each message once
      before the barrier.
    - [Validate], [ValidateSpec], [ValidateResults]: the validation of a search
      (validate.c) for any predecessors and any order of messages: it ends, accepts every
      result of a search, and what it accepts.  Floats hold integers below 2^24 or
      FLT_MAX; the fuel of the loop over the levels is a bound on the number of vertices.

    ** What the theorems show

    Each component has an invariant (the layout of a block, the shape of a heap,
    the counters of a header), that every operation preserves, and a refinement
    theorem: a sequence of calls on the concrete state gives the results of the
    same calls on an abstract value (set, map, list, sorted sequence, byte string)
    and never reaches undefined behaviour, within the stated limits.  Round trips
    are proved for the encodings (lzf, decimal numbers, quoting, dump strings),
    equivalences for the optimised computations (checksums, bit counts, word-wise
    bit operations), liveness and termination for the rehashing and the scan.
    Where the code does not do what it should, a theorem shows an execution:
    [dictScan_shrink_misses], [lzf_compress_overrun], [zsl_lex_clash],
    [ziplist_insert_loses_bytes], [inline_lf_eats_byte], [stringmatchlen_overreads],
    [watch_missed], [persist_resurrects], [integer_overflows], [hincrby_long_field],
    [lindex_truncates], [linsert_loses_bytes].

    ** Not modelled

    System calls, sockets, the event loop and child processes (ae.c, anet.c, most of
    networking.c, replication.c, sentinel.c, the protocol of cluster.c, bio.c);
    floating point input and output (snprintf, strtod: [zslParseRange],
    [rdbSaveDoubleValue]); the Lua interpreter (scripting.c); command line tools;
    the composite objects and whole files of rdb.c, RPOPLPUSH and the blocking
    operations on lists, HINCRBYFLOAT, the SCAN family, the replies of the commands
    on sets, SORT, HyperLogLog, publish/subscribe.  Of Graph500: the layer of messages
    (aml.c, over MPI), reading edges from files, the driver with its statistics, and the
    shortest paths with floating-point weights (sssp_reference.c). *)

From stdpp Require Export base tactics list list_numbers numbers gmap sorting strings.
From Stdlib Require Export ZArith Lia.

#[global] Open Scope Z_scope.
#[export] Set Default Goal Selector "!".
#[export] Set Default Proof Using "Type".

(** ** Machine integers

    A [w]-bit C integer is an element of [Z]; [wrapu] and [wraps] are the
    conversions to an unsigned and to a signed (two's complement) [w]-bit
    type. *)

Definition wrapu (w x : Z) : Z := x mod 2 ^ w.
Definition wraps (w x : Z) : Z := (x + 2 ^ (w - 1)) mod 2 ^ w - 2 ^ (w - 1).

Declare Scope cint_scope.
Delimit Scope cint_scope with cint.
Abbreviation u8 := (wrapu 8).
Abbreviation u16 := (wrapu 16).
Abbreviation u32 := (wrapu 32).
Abbreviation u64 := (wrapu 64).
Abbreviation i16 := (wraps 16).
Abbreviation i32 := (wraps 32).
Abbreviation i64 := (wraps 64).
Notation "a +u32 b" := (wrapu 32 (a + b)) (at level 50, left associativity) : cint_scope.
Notation "a -u32 b" := (wrapu 32 (a - b)) (at level 50, left associativity) : cint_scope.
Notation "a *u32 b" := (wrapu 32 (a * b)) (at level 40, left associativity) : cint_scope.
Notation "a <<u32 b" := (wrapu 32 (Z.shiftl a b)) (at level 45, left associativity) : cint_scope.
#[global] Open Scope cint_scope.

Definition in_u (w x : Z) : Prop := 0 ≤ x < 2 ^ w.
Definition in_s (w x : Z) : Prop := - 2 ^ (w - 1) ≤ x < 2 ^ (w - 1).

#[global] Instance in_u_dec w x : Decision (in_u w x).
Proof. unfold in_u. apply _. Defined.
#[global] Instance in_s_dec w x : Decision (in_s w x).
Proof. unfold in_s. apply _. Defined.

Lemma wrapu_small w x : in_u w x → wrapu w x = x.
Proof. intros H. by apply Z.mod_small. Qed.

Lemma wrapu_range w x : 0 ≤ w → in_u w (wrapu w x).
Proof. intros. apply Z.mod_pos_bound. by apply Z.pow_pos_nonneg. Qed.

Lemma pow2_half w : 0 < w → 2 ^ w = 2 * 2 ^ (w - 1).
Proof. intros. rewrite <- Z.pow_succ_r by lia. f_equal; lia. Qed.

Lemma wraps_small w x : 0 < w → in_s w x → wraps w x = x.
Proof.
  unfold in_s, wraps. intros Hw H. pose proof (pow2_half w Hw).
  rewrite Z.mod_small; lia.
Qed.

Lemma wraps_range w x : 0 < w → in_s w (wraps w x).
Proof.
  unfold in_s, wraps. intros Hw. pose proof (pow2_half w Hw).
  assert (0 < 2 ^ (w - 1)) by (apply Z.pow_pos_nonneg; lia).
  pose proof (Z.mod_pos_bound (x + 2 ^ (w - 1)) (2 ^ w)). lia.
Qed.

Lemma wraps_wrapu w x : 0 < w → wraps w (wrapu w x) = wraps w x.
Proof.
  intros. unfold wraps, wrapu. by rewrite Zplus_mod_idemp_l.
Qed.

(** Reading back the bits of a signed value gives the value. *)
Lemma wraps_wrapu_id w x : 0 < w → in_s w x → wraps w (wrapu w x) = x.
Proof. intros. rewrite wraps_wrapu by done. by apply wraps_small. Qed.

(** So does a truncation through a wider unsigned type. *)
Lemma wraps_wrapu_le w w' x : 0 < w ≤ w' → wraps w (wrapu w' x) = wraps w x.
Proof.
  intros Hw. unfold wraps, wrapu. rewrite <- (Zplus_mod_idemp_l (x mod _)), <- (Zplus_mod_idemp_l x).
  do 3 f_equal. replace w' with (w + (w' - w)) by lia. rewrite Z.pow_add_r by lia.
  assert (0 < 2 ^ w ∧ 0 < 2 ^ (w' - w)) as [] by (split; apply Z.pow_pos_nonneg; lia).
  rewrite Z.rem_mul_r by lia.
  rewrite Z.mul_comm, Z_mod_plus_full. apply Zmod_mod.
Qed.

(** *** Bits of machine integers *)

Lemma wrapu_testbit w x j : 0 ≤ w → Z.testbit (wrapu w x) j = (j <? w) && Z.testbit x j.
Proof.
  intros Hw. unfold wrapu. destruct (Z.ltb_spec j w).
  - by rewrite Z.mod_pow2_bits_low.
  - rewrite Z.mod_pow2_bits_high by lia. done.
Qed.

Lemma in_u_testbit w x j : in_u w x → 0 ≤ w ≤ j → Z.testbit x j = false.
Proof.
  intros Hx Hj. rewrite <- (wrapu_small w x Hx), wrapu_testbit by lia.
  by destruct (Z.ltb_spec j w); [lia|].
Qed.

Lemma in_u_bits w x : 0 ≤ w → (∀ j, w ≤ j → Z.testbit x j = false) → in_u w x.
Proof.
  intros Hw Hb. assert (wrapu w x = x) as <-; [|by apply wrapu_range].
  apply Z.bits_inj'. intros j Hj. rewrite wrapu_testbit by done.
  destruct (Z.ltb_spec j w); [done|]. by rewrite Hb.
Qed.

Lemma lor_disjoint_add a b : Z.land a b = 0 → Z.lor a b = a + b.
Proof. intros E. pose proof (Z.add_lor_land a b). lia. Qed.

Lemma lor_shift k a b : 0 ≤ k → in_u k a → Z.lor a (Z.shiftl b k) = a + b * 2 ^ k.
Proof.
  intros Hk Ha. rewrite lor_disjoint_add; [by rewrite Z.shiftl_mul_pow2|]. apply Z.bits_inj'. intros j Hj. rewrite Z.land_spec, Z.bits_0.
  destruct (decide (j < k)); [rewrite Z.shiftl_spec_low by lia; apply andb_false_r|]. by rewrite (in_u_testbit k a j) by (done || lia).
Qed.

(** ** Byte memory

    A block of memory is a list of bytes; [None] stands for an access
    outside of the block, which is undefined behaviour in C.  A function of
    the model that returns [Some _] has made no such access. *)

Definition byte_ok (b : Z) : Prop := 0 ≤ b < 256.
Definition bytes_ok (m : list Z) : Prop := Forall byte_ok m.

#[global] Instance byte_ok_dec b : Decision (byte_ok b).
Proof. unfold byte_ok. apply _. Defined.
#[global] Instance bytes_ok_dec m : Decision (bytes_ok m).
Proof. unfold bytes_ok. apply _. Defined.

(** The bytes of a string literal of the source, without its null term. *)
Definition str (s : string) : list Z :=
  map (λ a, Z.of_N (Ascii.N_of_ascii a)) (String.list_ascii_of_string s).

Definition zlen {A} (l : list A) : Z := Z.of_nat (length l).

Definition load (m : list Z) (off n : Z) : option (list Z) :=
  if bool_decide (0 ≤ off ∧ 0 ≤ n ∧ off + n ≤ zlen m)
  then Some (take (Z.to_nat n) (drop (Z.to_nat off) m)) else None.

Definition store (m : list Z) (off : Z) (bs : list Z) : option (list Z) :=
  if bool_decide (0 ≤ off ∧ off + zlen bs ≤ zlen m)
  then Some (take (Z.to_nat off) m ++ bs ++ drop (Z.to_nat off + length bs) m)
  else None.

(** [memmove(m+dst, m+src, n)]: the source is read in full first. *)
Definition memmove (m : list Z) (dst src n : Z) : option (list Z) :=
  bs ← load m src n; store m dst bs.

(** [realloc]: the old bytes up to the new size; the bytes past the old size
    are indeterminate, [junk] gives them. *)
Definition realloc (junk : nat → Z) (m : list Z) (n : Z) : list Z :=
  take (Z.to_nat n) m ++ (junk <$> seq (length m) (Z.to_nat n - length m)).

Lemma length_realloc junk m n : 0 ≤ n → zlen (realloc junk m n) = n.
Proof.
  intros. unfold zlen, realloc.
  rewrite length_app, length_take, length_fmap, length_seq. lia.
Qed.

(** A load or a store at the middle block of a three-part memory. *)
Lemma load_app m1 m2 m3 off n :
  off = zlen m1 → n = zlen m2 → load (m1 ++ m2 ++ m3) off n = Some m2.
Proof.
  unfold load, zlen. intros -> ->. rewrite bool_decide_true.
  - by rewrite !Nat2Z.id, drop_app_length, take_app_length.
  - rewrite !length_app. lia.
Qed.

Lemma store_app m1 m2 m3 off bs :
  off = zlen m1 → length bs = length m2 →
  store (m1 ++ m2 ++ m3) off bs = Some (m1 ++ bs ++ m3).
Proof.
  unfold store, zlen. intros -> E. rewrite bool_decide_true.
  - rewrite !Nat2Z.id, take_app_length, E. do 3 f_equal.
    rewrite <- drop_drop, drop_app_length. apply drop_app_length.
  - rewrite !length_app, E. lia.
Qed.

Lemma load_app_0 m2 m3 n : n = zlen m2 → load (m2 ++ m3) 0 n = Some m2.
Proof. exact (load_app [] m2 m3 0 n eq_refl). Qed.
Lemma store_app_0 m2 m3 bs : length bs = length m2 → store (m2 ++ m3) 0 bs = Some (bs ++ m3).
Proof. exact (store_app [] m2 m3 0 bs eq_refl). Qed.

Lemma load_length m off n bs : load m off n = Some bs → zlen bs = n.
Proof.
  unfold load, zlen. case_bool_decide; [|done]. intros [= <-].
  rewrite length_take, length_drop. lia.
Qed.

Lemma store_length m off bs m' : store m off bs = Some m' → length m' = length m.
Proof.
  unfold store, zlen. case_bool_decide; [|done]. intros [= <-].
  rewrite !length_app, length_take, length_drop. lia.
Qed.

Lemma load_is_Some m off n :
  0 ≤ off → 0 ≤ n → off + n ≤ zlen m → is_Some (load m off n).
Proof. intros. unfold load. rewrite bool_decide_true; [eauto | lia]. Qed.

Lemma store_is_Some m off bs :
  0 ≤ off → off + zlen bs ≤ zlen m → is_Some (store m off bs).
Proof. intros. unfold store. rewrite bool_decide_true; [eauto | lia]. Qed.

(** ** Automation *)

Create HintDb cint.
Create Rewrite HintDb len.
#[export] Hint Resolve wrapu_range wraps_range : cint.
#[export] Hint Rewrite @length_app @length_take @length_drop @length_fmap
  @length_seq @length_replicate @length_cons @length_insert @length_nil : len.

(** Length goals: unfold [zlen], push [length] inward, call [lia]. *)
Ltac len := unfold zlen in *; autorewrite with len in *; simpl length in *; lia.

(** [lia] with division and modulo by constants. *)
Ltac divlia := Z.to_euclidean_division_equations; lia.

(** Split the boolean tests of the goal and of the hypotheses. *)
Ltac bool_tests :=
  repeat match goal with
  | H : (_ && _)%bool = true |- _ => apply andb_true_iff in H as [? ?]
  | H : (_ || _)%bool = false |- _ => apply orb_false_iff in H as [? ?]
  | H : (_ =? _) = true |- _ => apply Z.eqb_eq in H
  | H : (_ =? _) = false |- _ => apply Z.eqb_neq in H
  | H : (_ <? _) = true |- _ => apply Z.ltb_lt in H
  | H : (_ <? _) = false |- _ => apply Z.ltb_ge in H
  | H : (_ <=? _) = true |- _ => apply Z.leb_le in H
  | H : (_ <=? _) = false |- _ => apply Z.leb_gt in H
  end.

(** Case analysis on the leftmost [if] of the goal, with the test as a
    proposition. *)
Ltac case_if :=
  match goal with
  | |- context [if ?b then _ else _] =>
      lazymatch type of b with
      | bool => destruct b eqn:?; bool_tests
      end
  end.

(** Invert an option computation that returned [Some]. *)
Ltac invert_some :=
  repeat match goal with
  | H : Some _ = Some _ |- _ => injection H as H; subst
  | H : None = Some _ |- _ => discriminate H
  | H : mbind _ ?o = Some _ |- _ =>
      let E := fresh "E" in
      destruct o eqn:E; simpl in H; [|discriminate H]
  end.

(** Prove a closed decidable proposition by evaluating its decision. *)
Ltac by_decision := apply (bool_decide_unpack _); vm_compute; exact I.

(** [Forall] on a list written out. *)
Ltac forall_list := repeat (apply Forall_cons_2; [first [done | lia]|]); apply Forall_nil_2.

(** Evaluate the powers of closed exponents. *)
Ltac pow_compute :=
  repeat match goal with
  | |- context [?b ^ ?e] =>
      let v := eval vm_compute in (b ^ e) in
      lazymatch v with Zpos _ => change (b ^ e) with v | 0 => change (b ^ e) with v end
  | H : context [?b ^ ?e] |- _ =>
      let v := eval vm_compute in (b ^ e) in
      lazymatch v with Zpos _ => change (b ^ e) with v in H | 0 => change (b ^ e) with v in H end
  end.

(** ** Single bytes *)

(** [p[0]] and [p[0] = c] *)
Definition get8 (m : list Z) (p : Z) : option Z := v ← load m p 1; v !! 0%nat.
Definition put8 (m : list Z) (p c : Z) : option (list Z) := store m p [u8 c].

Lemma zlen_app {X} (a b : list X) : zlen (a ++ b) = zlen a + zlen b.
Proof. len. Qed.
Lemma zlen_cons {A} (x : A) l : zlen (x :: l) = 1 + zlen l.
Proof. len. Qed.
Lemma zlen_nil {A} : zlen (@nil A) = 0.
Proof. done. Qed.
Lemma zlen_nonneg {X} (a : list X) : 0 ≤ zlen a.
Proof. unfold zlen. lia. Qed.

Lemma get8_app A c B p : p = zlen A → get8 (A ++ c :: B) p = Some c.
Proof.
  intros ->. unfold get8. change (A ++ c :: B) with (A ++ [c] ++ B). by rewrite load_app.
Qed.
Lemma put8_app A x B p c : p = zlen A → byte_ok c → put8 (A ++ x :: B) p c = Some (A ++ c :: B).
Proof.
  intros -> Hc. unfold put8. change (A ++ x :: B) with (A ++ [x] ++ B). rewrite store_app by done.
  by rewrite (wrapu_small 8).
Qed.

Lemma get8_0 n m : get8 (n :: m) 0 = Some n.
Proof. exact (get8_app [] n m 0 eq_refl). Qed.
Lemma put8_0 x m c : byte_ok c → put8 (x :: m) 0 c = Some (c :: m).
Proof. exact (put8_app [] x m 0 c eq_refl). Qed.
Lemma get8_lookup m p : 0 ≤ p → get8 m p = m !! Z.to_nat p.
Proof.
  intros Hp. unfold get8, load. case_bool_decide as Hb; cbn [mbind option_bind].
  - rewrite lookup_take_lt, lookup_drop by (cbn; lia). f_equal. lia.
  - symmetry. apply lookup_ge_None. unfold zlen in Hb. lia.
Qed.

(** The source and the destination of a move, as two views of one block. *)
Lemma memmove_views m S M S' D O K dst src n :
  m = S ++ M ++ S' → m = D ++ O ++ K → src = zlen S → dst = zlen D → n = zlen M → length O = length M →
  memmove m dst src n = Some (D ++ M ++ K).
Proof.
  intros E1 E2 Hsrc Hdst Hn Hl. unfold memmove. rewrite E1 at 1. rewrite load_app by done. cbn [mbind option_bind].
  rewrite E2. by apply store_app.
Qed.

(** A block cut after [k] elements. *)
Lemma cut_at {A} (m : list A) k : 0 ≤ k ≤ zlen m → ∃ m1 m2, m = m1 ++ m2 ∧ zlen m1 = k ∧ zlen m2 = zlen m - k.
Proof.
  intros Hk. exists (take (Z.to_nat k) m), (drop (Z.to_nat k) m). rewrite take_drop. split; [done|]. split; len.
Qed.

(** Filters that keep all or nothing *)
Lemma filter_all {A} (P : A → Prop) `{∀ x, Decision (P x)} l : Forall P l → filter P l = l.
Proof. induction 1 as [|x l Hx _ IH]; [done|]. by rewrite filter_cons_True, IH. Qed.
Lemma filter_none {A} (P : A → Prop) `{∀ x, Decision (P x)} l : Forall (λ x, ¬ P x) l → filter P l = [].
Proof. induction 1 as [|x l Hx _ IH]; [done|]. by rewrite filter_cons_False. Qed.
