(* ===== verification/Endian.v ===== *)
(** * Endian: byte order conversion (redis-3.0.0/src/endianconv.c)

    [memrev16], [memrev32] and [memrev64] reverse the bytes of an object in
    place; the [..ifbe] macros of endianconv.h do so on a big endian host
    only.  The host's byte order is a parameter of the model, so the theorems
    hold for both. *)

From S2P Require Import Prelude.

(** ** The host's representation of integers *)

(** [true]: the host is big endian ([BYTE_ORDER != LITTLE_ENDIAN]). *)
Abbreviation host := bool.

(** The object representation of the [n]-byte unsigned integer [v]. *)
Definition to_mem (be : host) (n v : Z) : list Z :=
  let le := Z_to_little_endian n 8 v in if be then rev le else le.

(** The unsigned integer an object representation stands for. *)
Definition of_mem (be : host) (bs : list Z) : Z :=
  little_endian_to_Z 8 (if be then rev bs else bs).

(** ** endianconv.c *)

(** Swap the bytes at the indices [i] and [j]:
    [t = x[i]; x[i] = x[j]; x[j] = t;]. *)
Definition swap_bytes (i j : nat) (x : list Z) : option (list Z) :=
  t ← x !! i; y ← x !! j; Some (<[j:=t]> (<[i:=y]> x)).

Definition memrev16 (x : list Z) : option (list Z) := swap_bytes 0 1 x.

Definition memrev32 (x : list Z) : option (list Z) :=
  x ← swap_bytes 0 3 x; swap_bytes 1 2 x.

Definition memrev64 (x : list Z) : option (list Z) :=
  x ← swap_bytes 0 7 x; x ← swap_bytes 1 6 x; x ← swap_bytes 2 5 x;
  swap_bytes 3 4 x.

Definition intrev16 (be : host) (v : Z) : option Z :=
  of_mem be <$> memrev16 (to_mem be 2 v).
Definition intrev32 (be : host) (v : Z) : option Z :=
  of_mem be <$> memrev32 (to_mem be 4 v).
Definition intrev64 (be : host) (v : Z) : option Z :=
  of_mem be <$> memrev64 (to_mem be 8 v).

Definition memrev16ifbe (be : host) (x : list Z) : option (list Z) :=
  if be then memrev16 x else Some x.
Definition memrev32ifbe (be : host) (x : list Z) : option (list Z) :=
  if be then memrev32 x else Some x.
Definition memrev64ifbe (be : host) (x : list Z) : option (list Z) :=
  if be then memrev64 x else Some x.
Definition intrev16ifbe (be : host) (v : Z) : option Z :=
  if be then intrev16 be v else Some v.
Definition intrev32ifbe (be : host) (v : Z) : option Z :=
  if be then intrev32 be v else Some v.

(** ** Properties *)

(** The in-place swaps reverse an object of the expected size. *)
Lemma memrev16_rev x : length x = 2%nat → memrev16 x = Some (rev x).
Proof. by destruct x as [|? [|? [|? ?]]]. Qed.

Lemma memrev32_rev x : length x = 4%nat → memrev32 x = Some (rev x).
Proof. by destruct x as [|? [|? [|? [|? [|? ?]]]]]. Qed.

Lemma memrev64_rev x : length x = 8%nat → memrev64 x = Some (rev x).
Proof.
  by destruct x as [|? [|? [|? [|? [|? [|? [|? [|? [|? ?]]]]]]]]].
Qed.

Lemma length_to_mem be n v : 0 ≤ n → zlen (to_mem be n v) = n.
Proof.
  intros. unfold to_mem, zlen.
  destruct be; rewrite ?length_rev; by apply length_Z_to_little_endian.
Qed.

Lemma of_to_mem be n v : 0 ≤ n → of_mem be (to_mem be n v) = wrapu (n * 8) v.
Proof.
  intros. unfold of_mem, to_mem.
  destruct be; rewrite ?rev_involutive;
    by apply little_endian_to_Z_to_little_endian.
Qed.

(** The bytes of an integer after conversion are its little endian bytes,
    whatever the host. *)
Lemma to_mem_ifbe (be : host) n v :
  (if be then rev (to_mem be n v) else to_mem be n v) = Z_to_little_endian n 8 v.
Proof. destruct be; simpl; [apply rev_involutive | done]. Qed.

(** On either host [intrev32] exchanges the two byte orders of a value:
    it is an involution on 32-bit integers. *)
Lemma of_mem_rev be bs : of_mem be (rev bs) = of_mem (negb be) bs.
Proof. unfold of_mem. destruct be; simpl; by rewrite ?rev_involutive. Qed.

Lemma intrev32_eq be v :
  intrev32 be v = Some (little_endian_to_Z 8 (rev (Z_to_little_endian 4 8 v))).
Proof.
  unfold intrev32. pose proof (length_to_mem be 4 v ltac:(lia)) as L.
  unfold zlen in L. rewrite memrev32_rev by lia. simpl. f_equal.
  unfold of_mem, to_mem. by destruct be; rewrite ?rev_involutive.
Qed.

Lemma intrev32ifbe_involutive be v :
  in_u 32 v → intrev32ifbe be v ≫= intrev32ifbe be = Some v.
Proof.
  intros Hv. unfold intrev32ifbe. destruct be; [|done].
  rewrite intrev32_eq. cbn [mbind option_bind]. rewrite intrev32_eq. f_equal.
  pose proof (length_Z_to_little_endian 4 8 v ltac:(lia)) as L.
  rewrite Z_to_little_endian_to_Z.
  - rewrite rev_involutive, little_endian_to_Z_to_little_endian by lia.
    by apply Z.mod_small.
  - rewrite length_rev. lia.
  - lia.
  - apply Forall_rev. by apply Z_to_little_endian_bound.
Qed.

Lemma intrev32ifbe_is_Some be v : is_Some (intrev32ifbe be v).
Proof. unfold intrev32ifbe. destruct be; [rewrite intrev32_eq|]; eauto. Qed.

(** The integer determines the bytes. *)
Lemma to_of_mem be bs : bytes_ok bs → to_mem be (zlen bs) (of_mem be bs) = bs.
Proof.
  intros Hb. unfold to_mem, of_mem. destruct be; cbn zeta.
  - rewrite Z_to_little_endian_to_Z; [apply rev_involutive|by rewrite length_rev|lia|by apply Forall_rev].
  - by apply Z_to_little_endian_to_Z; [|lia|].
Qed.

Lemma of_mem_inj be bs1 bs2 :
  bytes_ok bs1 → bytes_ok bs2 → length bs1 = length bs2 → of_mem be bs1 = of_mem be bs2 → bs1 = bs2.
Proof.
  intros H1 H2 Hl E. rewrite <- (to_of_mem be bs1), <- (to_of_mem be bs2) by done.
  unfold zlen. by rewrite E, Hl.
Qed.

(** A [uint32_t] through memory in little endian order. *)
Lemma le4 be l : in_u 32 l → ∃ bs, memrev32ifbe be (to_mem be 4 l) = Some (Z_to_little_endian 4 8 l) ∧
  memrev32ifbe be (Z_to_little_endian 4 8 l) = Some bs ∧ of_mem be bs = l ∧
  length (to_mem be 4 l) = 4%nat.
Proof.
  intros Hl. pose proof (length_Z_to_little_endian 4 8 l ltac:(lia)) as L.
  pose proof (length_to_mem be 4 l ltac:(lia)) as Lt. unfold zlen in Lt.
  assert (little_endian_to_Z 8 (Z_to_little_endian 4 8 l) = l) as Ele.
  { rewrite little_endian_to_Z_to_little_endian by lia. by apply wrapu_small. }
  unfold memrev32ifbe. destruct be.
  - rewrite !memrev32_rev by lia. eexists. split; [unfold to_mem; by rewrite rev_involutive|].
    split; [done|]. split; [|lia]. unfold of_mem. by rewrite rev_involutive.
  - eexists. split; [done|]. split; [done|]. split; [|lia]. done.
Qed.

(** Conversions of objects of 2, 4 and 8 bytes, in both directions. *)
Lemma memrev_to (be : host) n v f :
  0 ≤ n → (∀ x, zlen x = n → f x = Some (rev x)) →
  (if be then f (to_mem be n v) else Some (to_mem be n v)) = Some (Z_to_little_endian n 8 v).
Proof.
  intros Hn Hf. destruct be; [rewrite Hf by by apply length_to_mem|].
  - f_equal. exact (to_mem_ifbe true n v).
  - done.
Qed.
Lemma memrev_of (be : host) n v f :
  0 ≤ n → (∀ x, zlen x = n → f x = Some (rev x)) →
  (if be then f (Z_to_little_endian n 8 v) else Some (Z_to_little_endian n 8 v)) = Some (to_mem be n v).
Proof. intros Hn Hf. destruct be; [|done]. rewrite Hf; [done|]. by apply length_Z_to_little_endian. Qed.

Lemma rev_zlen {f : list Z → option (list Z)} {n : nat} :
  (∀ x, length x = n → f x = Some (rev x)) → ∀ x, zlen x = Z.of_nat n → f x = Some (rev x).
Proof. intros Hf x Hx. apply Hf. unfold zlen in Hx. lia. Qed.

Lemma memrev16_to be v : memrev16ifbe be (to_mem be 2 v) = Some (Z_to_little_endian 2 8 v).
Proof. by apply memrev_to; [|exact (rev_zlen memrev16_rev)]. Qed.
Lemma memrev32_to be v : memrev32ifbe be (to_mem be 4 v) = Some (Z_to_little_endian 4 8 v).
Proof. by apply memrev_to; [|exact (rev_zlen memrev32_rev)]. Qed.
Lemma memrev64_to be v : memrev64ifbe be (to_mem be 8 v) = Some (Z_to_little_endian 8 8 v).
Proof. by apply memrev_to; [|exact (rev_zlen memrev64_rev)]. Qed.
Lemma memrev16_of be v : memrev16ifbe be (Z_to_little_endian 2 8 v) = Some (to_mem be 2 v).
Proof. by apply memrev_of; [|exact (rev_zlen memrev16_rev)]. Qed.
Lemma memrev32_of be v : memrev32ifbe be (Z_to_little_endian 4 8 v) = Some (to_mem be 4 v).
Proof. by apply memrev_of; [|exact (rev_zlen memrev32_rev)]. Qed.
Lemma memrev64_of be v : memrev64ifbe be (Z_to_little_endian 8 8 v) = Some (to_mem be 8 v).
Proof. by apply memrev_of; [|exact (rev_zlen memrev64_rev)]. Qed.

Lemma le_bytes_ok n v : 0 ≤ n → bytes_ok (Z_to_little_endian n 8 v).
Proof. intros. by apply (Z_to_little_endian_bound n 8). Qed.

(** An integer of the host's byte order read from little endian bytes. *)
Lemma intrev32_of_le be v : in_u 32 v → intrev32ifbe be (of_mem be (Z_to_little_endian 4 8 v)) = Some v.
Proof.
  intros Hv. assert (of_mem be (to_mem be 4 v) = v) as E by (rewrite of_to_mem by lia; by apply (wrapu_small 32)).
  assert (bytes_ok (Z_to_little_endian 4 8 v)) as Hb by by apply le_bytes_ok.
  assert (zlen (Z_to_little_endian 4 8 v) = 4) as Hl by by apply length_Z_to_little_endian.
  unfold intrev32ifbe. destruct be; [|f_equal; exact E]. unfold intrev32.
  assert (to_mem true 4 (of_mem true (Z_to_little_endian 4 8 v)) = Z_to_little_endian 4 8 v) as ->.
  { rewrite <- Hl at 1. by apply to_of_mem. }
  rewrite (rev_zlen memrev32_rev) by done. cbn [fmap option_fmap option_map]. f_equal. exact E.
Qed.
Lemma intrev16_of_le be v : in_u 16 v → intrev16ifbe be (of_mem be (Z_to_little_endian 2 8 v)) = Some v.
Proof.
  intros Hv. assert (of_mem be (to_mem be 2 v) = v) as E by (rewrite of_to_mem by lia; by apply (wrapu_small 16)).
  assert (bytes_ok (Z_to_little_endian 2 8 v)) as Hb by by apply le_bytes_ok.
  assert (zlen (Z_to_little_endian 2 8 v) = 2) as Hl by by apply length_Z_to_little_endian.
  unfold intrev16ifbe. destruct be; [|f_equal; exact E]. unfold intrev16.
  assert (to_mem true 2 (of_mem true (Z_to_little_endian 2 8 v)) = Z_to_little_endian 2 8 v) as ->.
  { rewrite <- Hl at 1. by apply to_of_mem. }
  rewrite (rev_zlen memrev16_rev) by done. cbn [fmap option_fmap option_map]. f_equal. exact E.
Qed.

(** And written back. *)
Lemma intrev32_to_le be v : ∃ w, intrev32ifbe be v = Some w ∧ to_mem be 4 w = Z_to_little_endian 4 8 v.
Proof.
  unfold intrev32ifbe. destruct be; [|by exists v]. unfold intrev32.
  rewrite (rev_zlen memrev32_rev) by by apply length_to_mem. eexists. split; [done|].
  assert (zlen (rev (to_mem true 4 v)) = 4) as Hl by (unfold zlen; rewrite length_rev; by apply length_to_mem).
  rewrite <- Hl at 1. rewrite to_of_mem; [exact (to_mem_ifbe true 4 v)|].
  rewrite (to_mem_ifbe true 4 v). by apply le_bytes_ok.
Qed.
Lemma intrev16_to_le be v : ∃ w, intrev16ifbe be v = Some w ∧ to_mem be 2 w = Z_to_little_endian 2 8 v.
Proof.
  unfold intrev16ifbe. destruct be; [|by exists v]. unfold intrev16.
  rewrite (rev_zlen memrev16_rev) by by apply length_to_mem. eexists. split; [done|].
  assert (zlen (rev (to_mem true 2 v)) = 2) as Hl by (unfold zlen; rewrite length_rev; by apply length_to_mem).
  rewrite <- Hl at 1. rewrite to_of_mem; [exact (to_mem_ifbe true 2 v)|].
  rewrite (to_mem_ifbe true 2 v). by apply le_bytes_ok.
Qed.
