(* ===== verification/Intset.v ===== *)
(** * Intset: sorted sets of integers (redis-3.0.0/src/intset.c)

    The set is one memory block: a header with the encoding (2, 4 or 8 bytes
    per element) and the length, both stored little endian, followed by the
    elements in increasing order.  The model keeps the contents as bytes, so
    that the in-place widening of [intsetUpgradeAndAdd] and the overlapping
    moves of [intsetMoveTail] are the ones of the code. *)

From S2P Require Import Prelude Endian.

(** ** Data *)

Record intset := mkIntset {
  encoding : Z;          (* uint32_t, in little endian byte order *)
  ilength : Z;           (* uint32_t, in little endian byte order *)
  contents : list Z      (* int8_t contents[] *)
}.

Definition set_encoding (e : Z) (s : intset) := mkIntset e (ilength s) (contents s).
Definition set_length (n : Z) (s : intset) := mkIntset (encoding s) n (contents s).
Definition set_contents (m : list Z) (s : intset) := mkIntset (encoding s) (ilength s) m.

Definition INTSET_ENC_INT16 : Z := 2.
Definition INTSET_ENC_INT32 : Z := 4.
Definition INTSET_ENC_INT64 : Z := 8.
Definition sizeof_intset : Z := 8.

Definition INT16_MIN : Z := - 2 ^ 15.
Definition INT16_MAX : Z := 2 ^ 15 - 1.
Definition INT32_MIN : Z := - 2 ^ 31.
Definition INT32_MAX : Z := 2 ^ 31 - 1.

Definition _intsetValueEncoding (v : Z) : Z :=
  if (v <? INT32_MIN) || (INT32_MAX <? v) then INTSET_ENC_INT64
  else if (v <? INT16_MIN) || (INT16_MAX <? v) then INTSET_ENC_INT32
  else INTSET_ENC_INT16.

(** ** Operations *)

Section operations.
Context (be : host) (junk : nat → Z).

Definition _intsetGetEncoded (s : intset) (pos enc : Z) : option Z :=
  if enc =? INTSET_ENC_INT64 then
    b ← load (contents s) (8 * pos) 8; b ← memrev64ifbe be b; Some (i64 (of_mem be b))
  else if enc =? INTSET_ENC_INT32 then
    b ← load (contents s) (4 * pos) 4; b ← memrev32ifbe be b; Some (i32 (of_mem be b))
  else
    b ← load (contents s) (2 * pos) 2; b ← memrev16ifbe be b; Some (i16 (of_mem be b)).

Definition _intsetGet (s : intset) (pos : Z) : option Z :=
  enc ← intrev32ifbe be (encoding s); _intsetGetEncoded s pos (u8 enc).

(** The assignment writes the host's representation of the value, which is
    then reversed in place on a big endian host. *)
Definition _intsetSet (s : intset) (pos value : Z) : option intset :=
  enc ← intrev32ifbe be (encoding s);
  if enc =? INTSET_ENC_INT64 then
    m ← store (contents s) (8 * pos) (to_mem be 8 value);
    b ← load m (8 * pos) 8; b ← memrev64ifbe be b;
    m ← store m (8 * pos) b; Some (set_contents m s)
  else if enc =? INTSET_ENC_INT32 then
    m ← store (contents s) (4 * pos) (to_mem be 4 value);
    b ← load m (4 * pos) 4; b ← memrev32ifbe be b;
    m ← store m (4 * pos) b; Some (set_contents m s)
  else
    m ← store (contents s) (2 * pos) (to_mem be 2 value);
    b ← load m (2 * pos) 2; b ← memrev16ifbe be b;
    m ← store m (2 * pos) b; Some (set_contents m s).

Definition intsetNew : option intset :=
  e ← intrev32ifbe be INTSET_ENC_INT16; Some (mkIntset e 0 []).

Definition intsetResize (s : intset) (len : Z) : option intset :=
  e ← intrev32ifbe be (encoding s);
  Some (set_contents (realloc junk (contents s) (len *u32 e)) s).

(** The [while(max >= min)] loop of [intsetSearch]: the final values of
    [min], [mid] and [cur]. *)
Fixpoint search_loop (fuel : nat) (s : intset) (value min max mid cur : Z)
    : option (Z * Z * Z) :=
  match fuel with
  | O => None
  | S fuel =>
      if min <=? max then
        let mid := i32 (Z.shiftr (u32 min +u32 u32 max) 1) in
        cur ← _intsetGet s mid;
        if cur <? value then search_loop fuel s value (i32 (mid + 1)) max mid cur
        else if value <? cur then search_loop fuel s value min (i32 (mid - 1)) mid cur
        else Some (min, mid, cur)
      else Some (min, mid, cur)
  end.

Definition intsetSearch (s : intset) (value : Z) : option (bool * Z) :=
  len ← intrev32ifbe be (ilength s);
  if len =? 0 then Some (false, 0) else
  last ← _intsetGet s (i32 (len -u32 1));
  if last <? value then Some (false, len) else
  first ← _intsetGet s 0;
  if value <? first then Some (false, 0) else
  '(min, mid, cur) ← search_loop (S (Z.to_nat len)) s value 0 (i32 (len -u32 1)) (-1) (-1);
  if value =? cur then Some (true, u32 mid) else Some (false, u32 min).

(** [while(length--) _intsetSet(is,length+prepend,_intsetGetEncoded(is,length,curenc))] *)
Fixpoint upgrade_loop (length : nat) (s : intset) (prepend curenc : Z) : option intset :=
  match length with
  | O => Some s
  | S length =>
      v ← _intsetGetEncoded s (Z.of_nat length) curenc;
      s ← _intsetSet s (Z.of_nat length + prepend) v;
      upgrade_loop length s prepend curenc
  end.

Definition intsetUpgradeAndAdd (s : intset) (value : Z) : option intset :=
  e ← intrev32ifbe be (encoding s);
  let curenc := u8 e in
  let newenc := _intsetValueEncoding value in
  len ← intrev32ifbe be (ilength s);
  let length := i32 len in
  let prepend := if value <? 0 then 1 else 0 in
  e ← intrev32ifbe be newenc;
  s ← intsetResize (set_encoding e s) (len +u32 1);
  if length <? 0 then None else   (* while(length--) on a negative int *)
  s ← upgrade_loop (Z.to_nat length) s prepend curenc;
  s ← (if prepend =? 0 then _intsetSet s len value else _intsetSet s 0 value);
  n ← intrev32ifbe be (len +u32 1);
  Some (set_length n s).

Definition intsetMoveTail (s : intset) (from to : Z) : option intset :=
  len ← intrev32ifbe be (ilength s);
  enc ← intrev32ifbe be (encoding s);
  let width := if enc =? INTSET_ENC_INT64 then 8
               else if enc =? INTSET_ENC_INT32 then 4 else 2 in
  m ← memmove (contents s) (width * to) (width * from) ((len -u32 from) *u32 width);
  Some (set_contents m s).

Definition intsetAdd (s : intset) (value : Z) : option (intset * bool) :=
  enc ← intrev32ifbe be (encoding s);
  if enc <? _intsetValueEncoding value then
    s ← intsetUpgradeAndAdd s value; Some (s, true)
  else
    '(found, pos) ← intsetSearch s value;
    if (found : bool) then Some (s, false) else
    len ← intrev32ifbe be (ilength s);
    s ← intsetResize s (len +u32 1);
    s ← (if pos <? len then intsetMoveTail s pos (pos +u32 1) else Some s);
    s ← _intsetSet s pos value;
    n ← intrev32ifbe be (len +u32 1);
    Some (set_length n s, true).

Definition intsetRemove (s : intset) (value : Z) : option (intset * bool) :=
  enc ← intrev32ifbe be (encoding s);
  if enc <? _intsetValueEncoding value then Some (s, false) else
  '(found, pos) ← intsetSearch s value;
  if negb found then Some (s, false) else
  len ← intrev32ifbe be (ilength s);
  s ← (if pos <? (len -u32 1) then intsetMoveTail s (pos +u32 1) pos else Some s);
  s ← intsetResize s (len -u32 1);
  n ← intrev32ifbe be (len -u32 1);
  Some (set_length n s, true).

Definition intsetFind (s : intset) (value : Z) : option bool :=
  enc ← intrev32ifbe be (encoding s);
  if enc <? _intsetValueEncoding value then Some false
  else fst <$> intsetSearch s value.

(** [r] is the value returned by [rand()]. *)
Definition intsetRandom (s : intset) (r : Z) : option Z :=
  len ← intrev32ifbe be (ilength s);
  if len =? 0 then None (* division by zero *) else _intsetGet s (i32 (u32 r mod len)).

Definition intsetGet (s : intset) (pos : Z) : option (option Z) :=
  len ← intrev32ifbe be (ilength s);
  if pos <? len then Some <$> _intsetGet s (i32 pos) else Some None.

Definition intsetLen (s : intset) : option Z := intrev32ifbe be (ilength s).

Definition intsetBlobLen (s : intset) : option Z :=
  len ← intrev32ifbe be (ilength s);
  enc ← intrev32ifbe be (encoding s);
  Some (sizeof_intset + (len *u32 enc)).

End operations.

(** ** Representation

    [rep be s e vs]: the block [s] holds the elements [vs] with [e] bytes
    each. *)

Definition enc_ok (e : Z) : Prop := e = 2 ∨ e = 4 ∨ e = 8.
Definition enc_all (e : Z) (vs : list Z) : list Z := vs ≫= Z_to_little_endian e 8.

Record rep (be : host) (s : intset) (e : Z) (vs : list Z) : Prop := {
  rep_enc : enc_ok e;
  rep_encoding : intrev32ifbe be (encoding s) = Some e;
  rep_length : intrev32ifbe be (ilength s) = Some (zlen vs);
  rep_contents : contents s = enc_all e vs;
  rep_range : Forall (in_s (8 * e)) vs
}.

(** A well-formed set: sorted without duplicates, and small enough for the
    sizes computed in [uint32_t]. *)
Definition wf (be : host) (s : intset) (vs : list Z) : Prop :=
  (∃ e, rep be s e vs) ∧ StronglySorted Z.lt vs ∧ zlen vs < 2 ^ 29.

(** ** Encodings *)

Lemma enc_ok_pos e : enc_ok e → 0 < e ≤ 8.
Proof. unfold enc_ok. lia. Qed.

Lemma enc_ok_u8 e : enc_ok e → u8 e = e.
Proof. intros He. apply wrapu_small. unfold in_u, enc_ok in *. lia. Qed.

Lemma enc_ok_u32 e : enc_ok e → in_u 32 e.
Proof. unfold in_u, enc_ok. lia. Qed.

Lemma length_enc1 e v : enc_ok e → zlen (Z_to_little_endian e 8 v) = e.
Proof. intros ?%enc_ok_pos. apply length_Z_to_little_endian. lia. Qed.

Lemma enc_all_app e vs1 vs2 : enc_all e (vs1 ++ vs2) = enc_all e vs1 ++ enc_all e vs2.
Proof. apply bind_app. Qed.

Lemma enc_all_cons e v vs : enc_all e (v :: vs) = Z_to_little_endian e 8 v ++ enc_all e vs.
Proof. done. Qed.

Lemma length_enc_all e vs : enc_ok e → zlen (enc_all e vs) = e * zlen vs.
Proof.
  intros He. induction vs as [|v vs IH]; [unfold zlen; simpl; lia|].
  rewrite enc_all_cons. pose proof (length_enc1 e v He). len.
Qed.

Lemma value_encoding_ok v : enc_ok (_intsetValueEncoding v).
Proof.
  unfold _intsetValueEncoding, enc_ok, INTSET_ENC_INT16, INTSET_ENC_INT32, INTSET_ENC_INT64.
  repeat case_if; lia.
Qed.

Lemma value_encoding_range v :
  in_s 64 v → in_s (8 * _intsetValueEncoding v) v.
Proof.
  unfold _intsetValueEncoding, INT16_MIN, INT16_MAX, INT32_MIN, INT32_MAX,
    INTSET_ENC_INT16, INTSET_ENC_INT32, INTSET_ENC_INT64, in_s.
  intros. repeat case_if; lia.
Qed.

(** The encoding of a value is the least one whose range contains it. *)
Lemma value_encoding_le v e :
  enc_ok e → in_s 64 v → (_intsetValueEncoding v ≤ e ↔ in_s (8 * e) v).
Proof.
  unfold _intsetValueEncoding, INT16_MIN, INT16_MAX, INT32_MIN, INT32_MAX,
    INTSET_ENC_INT16, INTSET_ENC_INT32, INTSET_ENC_INT64, in_s.
  intros [-> | [-> | ->]] ?; repeat case_if; simpl; lia.
Qed.

Lemma in_s_mono e1 e2 v : enc_ok e1 → enc_ok e2 → e1 ≤ e2 → in_s (8 * e1) v → in_s (8 * e2) v.
Proof.
  unfold in_s. intros [-> | [-> | ->]] [-> | [-> | ->]] ? ?; simpl in *; lia.
Qed.

(** A value outside the range of the encoding is below or above every value
    in range, according to its sign. *)
Lemma out_of_range e v w :
  enc_ok e → in_s 64 v → e < _intsetValueEncoding v → in_s (8 * e) w →
  if v <? 0 then v < w else w < v.
Proof.
  intros He Hv Hlt Hw. assert (¬ in_s (8 * e) v) as Hn.
  { rewrite <- value_encoding_le by done. lia. }
  unfold in_s in *. destruct He as [-> | [-> | ->]]; case_if; simpl in *; lia.
Qed.

(** ** Reading and writing one element *)

Lemma get_encoded_app be s e pos A v C :
  enc_ok e → in_s (8 * e) v → contents s = A ++ Z_to_little_endian e 8 v ++ C →
  zlen A = e * pos → _intsetGetEncoded be s pos e = Some v.
Proof.
  intros He Hv HC HA. unfold _intsetGetEncoded, memrev64ifbe, memrev32ifbe, memrev16ifbe.
  pose proof (length_enc1 e v He) as L.
  assert (of_mem be (if be then rev (Z_to_little_endian e 8 v)
                     else Z_to_little_endian e 8 v) = wrapu (8 * e) v) as R.
  { unfold of_mem. pose proof (enc_ok_pos e He). unfold wrapu.
    rewrite (Z.mul_comm 8), <- little_endian_to_Z_to_little_endian by lia.
    destruct be; by rewrite ?rev_involutive. }
  rewrite HC. unfold zlen in L.
  destruct He as [-> | [-> | ->]];
    cbn [Z.eqb Pos.eqb INTSET_ENC_INT64 INTSET_ENC_INT32];
    rewrite load_app by (unfold zlen in *; lia);
    cbn [mbind option_bind]; destruct be;
    rewrite ?memrev64_rev, ?memrev32_rev, ?memrev16_rev by lia; cbn [mbind option_bind];
    rewrite R; f_equal; by apply wraps_wrapu_id.
Qed.

Lemma set_app be s e pos A B C v :
  enc_ok e → intrev32ifbe be (encoding s) = Some e → contents s = A ++ B ++ C →
  zlen A = e * pos → zlen B = e →
  _intsetSet be s pos v = Some (set_contents (A ++ Z_to_little_endian e 8 v ++ C) s).
Proof.
  intros He HE HC HA HB. unfold _intsetSet, memrev64ifbe, memrev32ifbe, memrev16ifbe.
  rewrite HE, HC. cbn [mbind option_bind].
  pose proof (length_to_mem be e v) as L. pose proof (to_mem_ifbe be e v) as T.
  pose proof (length_enc1 e v He) as L1. unfold zlen in L, L1, HB.
  destruct He as [-> | [-> | ->]];
    cbn [Z.eqb Pos.eqb INTSET_ENC_INT64 INTSET_ENC_INT32];
    rewrite (store_app A B C) by (unfold zlen in *; lia); cbn [mbind option_bind];
    rewrite load_app by (unfold zlen in *; lia); cbn [mbind option_bind];
    destruct be; rewrite ?memrev64_rev, ?memrev32_rev, ?memrev16_rev by lia;
    cbn [mbind option_bind]; rewrite T;
    rewrite store_app by (unfold zlen in *; lia); done.
Qed.

(** ** Sorted lists *)

(** Position [i] splits [vs] into the elements below and above [v]. *)
Definition splits (vs : list Z) (v : Z) (i : nat) : Prop :=
  (i ≤ length vs)%nat ∧ Forall (λ w, w < v) (take i vs) ∧ Forall (λ w, v < w) (drop i vs).

Lemma sorted_lookup_lt vs i j v w :
  StronglySorted Z.lt vs → vs !! i = Some v → vs !! j = Some w → (i < j)%nat → v < w.
Proof.
  intros HS Hi Hj Hij. revert i j Hi Hj Hij.
  induction HS as [|x l HS IH HF]; intros [|i] [|j] Hi Hj Hij; simplify_eq/=; try lia.
  - by eapply Forall_lookup_1 in HF.
  - eapply (IH i j); [done|done|lia].
Qed.

(** The midpoint computed in [unsigned int]. *)
Lemma midpoint a b :
  0 ≤ a ≤ b → b < 2 ^ 30 → i32 (Z.shiftr (u32 a +u32 u32 b) 1) = (a + b) / 2.
Proof.
  intros. rewrite (wrapu_small 32 a), (wrapu_small 32 b) by (unfold in_u; lia).
  rewrite wrapu_small by (unfold in_u; lia).
  rewrite Z.shiftr_div_pow2 by lia. change (2 ^ 1) with 2.
  apply wraps_small; [lia|]. unfold in_s. divlia.
Qed.

Lemma splits_app vs1 vs2 v :
  Forall (λ w, w < v) vs1 → Forall (λ w, v < w) vs2 →
  splits (vs1 ++ vs2) v (length vs1).
Proof.
  intros. unfold splits. rewrite length_app, take_app_length, drop_app_length.
  split; [lia|done].
Qed.

Lemma splits_not_elem vs v i : splits vs v i → v ∉ vs.
Proof.
  intros (_ & H1 & H2) Hin. rewrite <- (take_drop i vs) in Hin.
  apply elem_of_app in Hin as [Hin|Hin].
  - rewrite Forall_forall in H1. apply H1 in Hin. lia.
  - rewrite Forall_forall in H2. apply H2 in Hin. lia.
Qed.

Lemma sorted_last_ge vs x v :
  StronglySorted Z.lt vs → vs !! pred (length vs) = Some x → x < v →
  Forall (λ w, w < v) vs.
Proof.
  intros HS Hx Hv. apply Forall_lookup. intros i w Hw.
  pose proof (lookup_lt_Some _ _ _ Hw).
  destruct (decide (i = pred (length vs))) as [->|]; [by simplify_eq|].
  assert (w < x); [|lia]. eapply (sorted_lookup_lt vs i (pred (length vs))); [done..|lia].
Qed.

Lemma sorted_first_le vs x v :
  StronglySorted Z.lt vs → vs !! 0%nat = Some x → v < x → Forall (λ w, v < w) vs.
Proof.
  intros HS Hx Hv. apply Forall_lookup. intros [|i] w Hw; [by simplify_eq|].
  assert (x < w); [|lia]. eapply (sorted_lookup_lt vs 0 (S i)); [done..|lia].
Qed.

(** ** The set abstraction *)

Lemma sorted_insert vs v i :
  StronglySorted Z.lt vs → splits vs v i → StronglySorted Z.lt (take i vs ++ v :: drop i vs).
Proof.
  intros HS (Hi & H1 & H2). rewrite <- (take_drop i vs) in HS.
  apply StronglySorted_app in HS as (HA & HB & HC). apply StronglySorted_app_2; [| done |].
  - intros x y Hx [-> | Hy]%elem_of_cons; [by rewrite Forall_forall in H1; apply H1 | by apply HA].
  - by constructor.
Qed.

Lemma sorted_delete vs v i :
  StronglySorted Z.lt vs → vs !! i = Some v →
  StronglySorted Z.lt (take i vs ++ drop (S i) vs) ∧ v ∉ take i vs ++ drop (S i) vs.
Proof.
  intros HS Hi. rewrite <- (take_drop_middle vs i v Hi) in HS.
  apply StronglySorted_app in HS as (HA & HB & [HF HC]%StronglySorted_cons).
  split; [apply StronglySorted_app_2; try done; intros x y ? ?; apply HA; set_solver|].
  rewrite Forall_forall in HF. intros [Hv|Hv]%elem_of_app.
  - apply (HA v v) in Hv; [lia|set_solver].
  - apply HF in Hv. lia.
Qed.

(** The abstract operations on the sorted list of the elements. *)
Definition sadd (v : Z) (vs : list Z) : list Z :=
  if decide (v ∈ vs) then vs
  else filter (λ w, w < v) vs ++ v :: filter (λ w, v < w) vs.
Definition srem (v : Z) (vs : list Z) : list Z := filter (λ w, w ≠ v) vs.

Lemma filter_keep {A} (P : A → Prop) `{∀ x, Decision (P x)} l : Forall P l → filter P l = l.
Proof. induction 1 as [|x l Hx Hl IH]; [done|]. rewrite filter_cons_True by done. by f_equal. Qed.

Lemma filter_drop {A} (P : A → Prop) `{∀ x, Decision (P x)} l :
  Forall (λ x, ¬ P x) l → filter P l = [].
Proof. induction 1 as [|x l Hx Hl IH]; [done|]. by rewrite filter_cons_False. Qed.

Lemma sadd_splits vs v i : splits vs v i → sadd v vs = take i vs ++ v :: drop i vs.
Proof.
  intros Hs. unfold sadd. rewrite decide_False by by eapply splits_not_elem.
  destruct Hs as (_ & H1 & H2). rewrite <- (take_drop i vs) at 1 2. rewrite !filter_app.
  rewrite (filter_keep (λ w, w < v) _ H1), (filter_keep (λ w, v < w) _ H2).
  rewrite (filter_drop (λ w, w < v) (drop i vs)), (filter_drop (λ w, v < w) (take i vs));
    [by rewrite app_nil_r|..].
  - eapply Forall_impl; [exact H1|]. simpl. lia.
  - eapply Forall_impl; [exact H2|]. simpl. lia.
Qed.

Lemma srem_lookup vs v i :
  StronglySorted Z.lt vs → vs !! i = Some v → srem v vs = take i vs ++ drop (S i) vs.
Proof.
  intros HS Hi. destruct (sorted_delete vs v i HS Hi) as [_ Hn].
  unfold srem. rewrite <- (take_drop_middle vs i v Hi) at 1.
  rewrite filter_app, filter_cons_False by (intros E; by apply E).
  rewrite !filter_keep; [done|..]; apply Forall_forall; intros x Hx ->; set_solver.
Qed.

Lemma srem_not_elem vs v : v ∉ vs → srem v vs = vs.
Proof. intros Hn. apply filter_keep, Forall_forall. by intros x Hx ->. Qed.

Lemma sadd_sorted vs v i : StronglySorted Z.lt vs → splits vs v i → StronglySorted Z.lt (sadd v vs).
Proof. intros. erewrite sadd_splits by done. by apply sorted_insert. Qed.

Lemma elem_of_sadd v w vs : w ∈ sadd v vs ↔ w = v ∨ w ∈ vs.
Proof.
  unfold sadd. case_decide; [naive_solver|].
  rewrite elem_of_app, elem_of_cons, !list_elem_of_filter.
  destruct (Z.lt_total w v) as [|[|]]; naive_solver lia.
Qed.

Lemma elem_of_srem v w vs : w ∈ srem v vs ↔ w ≠ v ∧ w ∈ vs.
Proof. unfold srem. by rewrite list_elem_of_filter. Qed.

Lemma length_sadd v vs : (length (sadd v vs) ≤ S (length vs))%nat.
Proof.
  unfold sadd. case_decide; [lia|]. rewrite length_app. simpl.
  rewrite Nat.add_succ_r. apply le_n_S. clear. induction vs as [|x vs IH]; [done|].
  rewrite !filter_cons. repeat case_decide; simpl; lia.
Qed.

Lemma length_srem v vs : (length (srem v vs) ≤ length vs)%nat.
Proof. apply length_filter. Qed.

Section proofs.
Context (be : host).

Lemma rep_get s e vs i v :
  rep be s e vs → vs !! i = Some v → _intsetGet be s (Z.of_nat i) = Some v.
Proof.
  intros [He HE HL HC HR] Hi. unfold _intsetGet. rewrite HE. cbn [mbind option_bind].
  rewrite enc_ok_u8 by done.
  pose proof (Forall_lookup_1 _ _ _ _ HR Hi) as Hv.
  rewrite <- (take_drop_middle vs i v Hi), enc_all_app, enc_all_cons in HC.
  eapply get_encoded_app; [done..|].
  rewrite length_enc_all by done. apply lookup_lt_Some in Hi. len.
Qed.

Lemma rep_get_Z s e vs i :
  rep be s e vs → 0 ≤ i < zlen vs →
  ∃ v, vs !! Z.to_nat i = Some v ∧ _intsetGet be s i = Some v.
Proof.
  intros HR Hi. destruct (lookup_lt_is_Some_2 vs (Z.to_nat i)) as [v Hv].
  { unfold zlen in *. lia. }
  exists v. split; [done|]. rewrite <- (Z2Nat.id i) by lia. by eapply rep_get.
Qed.

(** ** Binary search *)

Lemma search_loop_spec s e vs v fuel : ∀ min max mid cur,
  rep be s e vs → StronglySorted Z.lt vs → zlen vs < 2 ^ 29 →
  0 ≤ min → max < zlen vs → min ≤ max + 1 → max - min + 1 < Z.of_nat fuel →
  (∀ j w, vs !! j = Some w → Z.of_nat j < min → w < v) →
  (∀ j w, vs !! j = Some w → max < Z.of_nat j → v < w) →
  (min ≤ max ∨ cur ≠ v) →
  ∃ min' mid' cur', search_loop be fuel s v min max mid cur = Some (min', mid', cur') ∧
    (if v =? cur' then 0 ≤ mid' ∧ vs !! Z.to_nat mid' = Some v
     else 0 ≤ min' ∧ splits vs v (Z.to_nat min')).
Proof.
  induction fuel as [|fuel IH];
    intros min max mid cur HR HS Hsz Hmin Hmax Hmm Hf Hlo Hhi Hcur; [lia|].
  cbn [search_loop]. destruct (Z.leb_spec min max) as [Hle|Hgt].
  - rewrite midpoint by lia. set (m := (min + max) / 2).
    assert (min ≤ m ≤ max) as Hm by (subst m; divlia).
    destruct (rep_get_Z s e vs m HR ltac:(lia)) as (w & Hw & Hget).
    rewrite Hget. cbn [mbind option_bind].
    destruct (Z.ltb_spec w v); [|destruct (Z.ltb_spec v w)].
    + rewrite wraps_small by (unfold in_s; lia). apply IH; try done; try lia.
      intros j x Hj Hlt. destruct (decide (j = Z.to_nat m)) as [->|]; [congruence|].
      destruct (decide (Z.of_nat j < m)); [|lia].
      assert (x < w); [|lia]. eapply (sorted_lookup_lt vs j (Z.to_nat m)); try done. lia.
    + rewrite wraps_small by (unfold in_s; lia). apply IH; try done; try lia.
      intros j x Hj Hlt. destruct (decide (j = Z.to_nat m)) as [->|]; [congruence|].
      assert (w < x); [|lia]. eapply (sorted_lookup_lt vs (Z.to_nat m) j); try done. lia.
    + do 3 eexists. split; [done|]. assert (v = w) as -> by lia.
      rewrite Z.eqb_refl. split; [lia|done].
  - do 3 eexists. split; [done|]. destruct (Z.eqb_spec v cur); [lia|]. split; [done|].
    unfold zlen in *. split; [lia|]. rewrite !Forall_lookup. split; intros i x Hx.
    + apply lookup_take_Some in Hx as [? ?]. eapply Hlo; [done|lia].
    + rewrite lookup_drop in Hx. eapply Hhi; [done|lia].
Qed.

Lemma intsetSearch_spec s e vs v :
  rep be s e vs → StronglySorted Z.lt vs → zlen vs < 2 ^ 29 →
  ∃ (found : bool) (i : nat), intsetSearch be s v = Some (found, Z.of_nat i) ∧
    if found then vs !! i = Some v else splits vs v i.
Proof.
  intros HR HS Hsz. unfold intsetSearch. rewrite (rep_length _ _ _ _ HR).
  cbn [mbind option_bind]. destruct (Z.eqb_spec (zlen vs) 0) as [H0|H0].
  { exists false, 0%nat. split; [done|]. destruct vs; [by apply (splits_app [] [])|].
    unfold zlen in H0. simpl in H0. lia. }
  assert (0 < zlen vs) as Hpos by (unfold zlen in *; lia).
  rewrite (wrapu_small 32 (zlen vs - 1)), wraps_small by (unfold in_u, in_s; lia).
  destruct (rep_get_Z s e vs (zlen vs - 1) HR) as (x & Hx & ->); [lia|].
  cbn [mbind option_bind]. replace (Z.to_nat (zlen vs - 1)) with (pred (length vs)) in Hx
    by (unfold zlen in *; lia).
  destruct (Z.ltb_spec x v) as [Hlast|Hlast].
  { exists false, (length vs). split; [done|]. rewrite <- (app_nil_r vs) at 1.
    apply splits_app; [by eapply sorted_last_ge|done]. }
  destruct (rep_get_Z s e vs 0 HR) as (y & Hy & ->); [lia|]. cbn [mbind option_bind].
  destruct (Z.ltb_spec v y) as [Hfirst|Hfirst].
  { exists false, 0%nat. split; [done|]. apply (splits_app []); [done|].
    by eapply sorted_first_le. }
  destruct (search_loop_spec s e vs v (S (Z.to_nat (zlen vs))) 0 (zlen vs - 1) (-1) (-1))
    as (min' & mid' & cur' & -> & Hres); try done; try lia.
  { intros j w Hj%lookup_lt_Some ?. unfold zlen in *. lia. }
  cbn [mbind option_bind]. destruct (v =? cur'); destruct Hres as [Hpos' Hres].
  - exists true, (Z.to_nat mid'). split; [|done].
    pose proof (lookup_lt_Some _ _ _ Hres).
    rewrite wrapu_small by (unfold in_u, zlen in *; lia). by rewrite Z2Nat.id.
  - exists false, (Z.to_nat min'). split; [|done]. pose proof (proj1 Hres).
    rewrite wrapu_small by (unfold in_u, zlen in *; lia). by rewrite Z2Nat.id.
Qed.

(** ** Widening the elements in place *)

(** [vs1] is still in the old encoding at the front of the block, [vs2] is
    already in its final place; the gap [X] between them is at least as large
    as needed, so that the back-to-front copy never overwrites an element it
    has not read. *)
Lemma upgrade_loop_spec e e' p vs1 : ∀ s X vs2 T,
  enc_ok e → enc_ok e' → e < e' → 0 ≤ p →
  intrev32ifbe be (encoding s) = Some e' → Forall (in_s (8 * e)) vs1 →
  contents s = enc_all e vs1 ++ X ++ enc_all e' vs2 ++ T →
  zlen X = e' * (zlen vs1 + p) - e * zlen vs1 →
  ∃ Y, zlen Y = e' * p ∧
    upgrade_loop be (length vs1) s p e
    = Some (set_contents (Y ++ enc_all e' (vs1 ++ vs2) ++ T) s).
Proof.
  induction vs1 as [|v vs1 IH] using rev_ind;
    intros s X vs2 T He He' Hlt Hp HE HF HC HX.
  { exists X. split; [unfold zlen in *; simpl in *; lia|]. simpl. f_equal.
    destruct s; unfold set_contents; simpl in *. by rewrite HC. }
  apply Forall_app in HF as [HF Hv]. apply Forall_inv in Hv.
  pose proof (length_enc1 e v He) as Lv. pose proof (length_enc_all e vs1 He) as L1.
  rewrite length_app, Nat.add_comm. cbn [length Nat.add upgrade_loop].
  rewrite enc_all_app, <- app_assoc in HC.
  change (enc_all e [v]) with (Z_to_little_endian e 8 v ++ []) in HC.
  rewrite app_nil_r in HC.
  rewrite (get_encoded_app be s e (Z.of_nat (length vs1)) _ v _ He Hv HC L1). cbn [mbind option_bind].
  (* split the old bytes of [v] and the gap at the place of the new bytes *)
  set (G := Z_to_little_endian e 8 v ++ X) in *.
  assert (zlen G = e' * (zlen vs1 + 1 + p) - e * zlen vs1) as LG.
  { subst G. unfold zlen in *. autorewrite with len in *. simpl in *. lia. }
  set (k := Z.to_nat (zlen G - e')).
  assert (0 ≤ zlen G - e') by (unfold zlen in *; nia).
  rewrite (app_assoc _ X) in HC. fold G in HC. rewrite <- (take_drop k G) in HC.
  rewrite (set_app be s e' _ (enc_all e vs1 ++ take k G) (drop k G)
             (enc_all e' vs2 ++ T) v He' HE).
  2: { by rewrite HC, <- !app_assoc. }
  2: { unfold zlen in *. autorewrite with len. lia. }
  2: { unfold zlen in *. autorewrite with len. lia. }
  cbn [mbind option_bind].
  destruct (IH (set_contents ((enc_all e vs1 ++ take k G) ++
              Z_to_little_endian e' 8 v ++ enc_all e' vs2 ++ T) s) (take k G) (v :: vs2) T)
    as (Y & HY & ->); try done.
  { cbn [contents set_contents]. rewrite enc_all_cons. by rewrite <- !app_assoc. }
  { unfold zlen in *. autorewrite with len. lia. }
  exists Y. split; [done|]. by rewrite <- (app_assoc vs1).
Qed.

Section resizing.
Context (junk : nat → Z).

Lemma realloc_grow m k : 0 ≤ k → ∃ J, realloc junk m (zlen m + k) = m ++ J ∧ zlen J = k.
Proof.
  intros Hk. unfold realloc. rewrite take_ge by (unfold zlen; lia).
  eexists. split; [done|]. unfold zlen. autorewrite with len. lia.
Qed.

Lemma intrev32ifbe_inv n : in_u 32 n →
  ∃ m, intrev32ifbe be n = Some m ∧ intrev32ifbe be m = Some n.
Proof.
  intros Hn. destruct (intrev32ifbe_is_Some be n) as [m Hm]. exists m. split; [done|].
  pose proof (intrev32ifbe_involutive be n Hn) as E. by rewrite Hm in E.
Qed.

Lemma enc_size e n : enc_ok e → 0 ≤ n < 2 ^ 29 → u32 (n * e) = n * e.
Proof. intros He ?. apply wrapu_small. unfold in_u, enc_ok in *. lia. Qed.

Lemma upgrade_rep s e vs v :
  rep be s e vs → in_s 64 v → e < _intsetValueEncoding v → zlen vs + 1 < 2 ^ 29 →
  ∃ s', intsetUpgradeAndAdd be junk s v = Some s' ∧
    rep be s' (_intsetValueEncoding v) (if v <? 0 then v :: vs else vs ++ [v]).
Proof.
  intros HR Hv Hlt Hsz. destruct (HR) as [He HE HL HC HF].
  set (e' := _intsetValueEncoding v) in *.
  assert (enc_ok e') as He' by apply value_encoding_ok.
  assert (0 ≤ zlen vs) by (unfold zlen; lia).
  pose proof (enc_ok_pos e He). pose proof (enc_ok_pos e' He').
  unfold intsetUpgradeAndAdd. rewrite HE, HL. cbn [mbind option_bind]. fold e'.
  rewrite enc_ok_u8, (wraps_small 32) by (done || unfold in_s; lia).
  destruct (intrev32ifbe_inv e') as (ee & -> & Hee); [by apply enc_ok_u32|].
  rewrite (wrapu_small 32 (zlen vs + 1)) by (unfold in_u; lia).
  destruct (intrev32ifbe_inv (zlen vs + 1)) as (nn & Hnn1 & Hnn2); [unfold in_u; lia|].
  cbn [mbind option_bind]. unfold intsetResize. cbn [encoding set_encoding contents].
  rewrite Hee. cbn [mbind option_bind]. rewrite enc_size by (done || lia).
  pose proof (length_enc_all e vs He) as L.
  destruct (realloc_grow (contents s) ((zlen vs + 1) * e' - zlen (contents s))) as (J & HJ & LJ).
  { rewrite HC, L. nia. }
  replace (zlen (contents s) + _) with ((zlen vs + 1) * e') in HJ by lia. rewrite HJ.
  destruct (Z.ltb_spec (zlen vs) 0); [lia|].
  replace (Z.to_nat (zlen vs)) with (length vs) by (unfold zlen; lia).
  assert (Forall (in_s (8 * e')) vs) as HF'.
  { eapply Forall_impl; [done|]. intros w Hw. eapply (in_s_mono e); try done; lia. }
  assert (in_s (8 * e') v) as Hv' by by apply value_encoding_range.
  destruct (v <? 0) eqn:Hneg.
  - destruct (upgrade_loop_spec e e' 1 vs (set_contents (contents s ++ J) (set_encoding ee s))
                J [] []) as (Y & HY & HU); try done; try lia.
    { simpl. by rewrite HC, app_nil_r. }
    { rewrite LJ, HC, L. lia. }
    rewrite HU. cbn [mbind option_bind]. rewrite !app_nil_r.
    rewrite (set_app be _ e' 0 [] Y (enc_all e' vs)) by (done || unfold zlen in *; simpl; lia).
    cbn [mbind option_bind]. rewrite Hnn1. cbn [mbind option_bind].
    eexists. split; [done|]. split; try done; simpl.
    { rewrite Hnn2. f_equal. unfold zlen. simpl. lia. }
    { by constructor. }
  - destruct (upgrade_loop_spec e e' 0 vs (set_contents (contents s ++ J) (set_encoding ee s))
                (take (Z.to_nat (zlen J - e')) J) [] (drop (Z.to_nat (zlen J - e')) J))
      as (Y & HY & HU); try done; try lia.
    { simpl. by rewrite HC, take_drop. }
    { rewrite HC, L in LJ. unfold zlen in *. autorewrite with len. nia. }
    rewrite HU. cbn [mbind option_bind]. rewrite app_nil_r.
    destruct Y; [|unfold zlen in HY; simpl in HY; lia].
    rewrite (set_app be _ e' (zlen vs) (enc_all e' vs) (drop (Z.to_nat (zlen J - e')) J) []).
    2-3: done. 2: by rewrite app_nil_r. 2: by apply length_enc_all.
    2: { rewrite HC, L in LJ. unfold zlen in *. autorewrite with len. nia. }
    cbn [mbind option_bind]. rewrite Hnn1. cbn [mbind option_bind].
    eexists. split; [done|]. split; try done; simpl.
    { rewrite Hnn2. f_equal. unfold zlen. autorewrite with len. simpl. lia. }
    { rewrite enc_all_app. cbn. by rewrite app_nil_r. }
    { by apply Forall_app_2, Forall_singleton. }
Qed.

(** ** Moving the tail *)

Lemma move_tail_width e :
  enc_ok e → (if e =? INTSET_ENC_INT64 then 8 else if e =? INTSET_ENC_INT32 then 4 else 2) = e.
Proof. by intros [-> | [-> | ->]]. Qed.

(** The general move: the bytes of the elements [from..len) go to [to]. *)
Lemma move_tail_store s e len from to A B C :
  enc_ok e → intrev32ifbe be (encoding s) = Some e → intrev32ifbe be (ilength s) = Some len →
  0 ≤ from ≤ len → len < 2 ^ 29 → contents s = A ++ B ++ C →
  zlen A = e * from → zlen B = (len - from) * e →
  intsetMoveTail be s from to = m ← store (contents s) (e * to) B; Some (set_contents m s).
Proof.
  intros He HE HL Hf Hlen HC HA HB. unfold intsetMoveTail. rewrite HL, HE.
  cbn [mbind option_bind]. rewrite move_tail_width by done.
  rewrite (wrapu_small 32 (len - from)) by (unfold in_u; lia).
  rewrite enc_size by (done || lia). unfold memmove.
  rewrite HC, load_app by done. done.
Qed.

Lemma length_enc_take e vs i :
  enc_ok e → (i ≤ length vs)%nat → zlen (enc_all e (take i vs)) = e * Z.of_nat i.
Proof. intros. rewrite length_enc_all by done. f_equal. len. Qed.

Lemma length_enc_drop e vs i :
  enc_ok e → (i ≤ length vs)%nat →
  zlen (enc_all e (drop i vs)) = (zlen vs - Z.of_nat i) * e.
Proof. intros. rewrite length_enc_all, Z.mul_comm by done. f_equal. len. Qed.

Lemma add_shift s e vs i J :
  rep be (set_contents (enc_all e vs) s) e vs → zlen vs + 1 < 2 ^ 29 →
  contents s = enc_all e vs ++ J → zlen J = e → (i ≤ length vs)%nat →
  ∃ B, zlen B = e ∧
    (if Z.of_nat i <? zlen vs then intsetMoveTail be s (Z.of_nat i) (Z.of_nat i +u32 1) else Some s)
    = Some (set_contents (enc_all e (take i vs) ++ B ++ enc_all e (drop i vs)) s).
Proof.
  intros [He HE HL _ _] Hsz HC HJ Hi. cbn in HE, HL.
  pose proof (length_enc_take e vs i He Hi) as L1.
  pose proof (length_enc_drop e vs i He Hi) as L2.
  rewrite <- (take_drop i vs), enc_all_app, <- app_assoc in HC.
  destruct (Z.ltb_spec (Z.of_nat i) (zlen vs)).
  - rewrite (wrapu_small 32) by (unfold in_u, zlen in *; lia).
    rewrite (move_tail_store s e (zlen vs) (Z.of_nat i) (Z.of_nat i + 1) _ _ _ He HE HL
               ltac:(lia) ltac:(lia) HC).
    2-3: done.
    set (T := enc_all e (drop i vs) ++ J) in *.
    rewrite HC, <- (take_drop (Z.to_nat e) T).
    pose proof (enc_ok_pos e He).
    rewrite (app_assoc (enc_all e (take i vs))).
    rewrite <- (app_nil_r (drop (Z.to_nat e) T)).
    assert (zlen T = zlen (enc_all e (drop i vs)) + e) as LT.
    { subst T. unfold zlen in *. autorewrite with len. lia. }
    rewrite store_app.
    + cbn [mbind option_bind]. exists (take (Z.to_nat e) T).
      split; [unfold zlen in *; autorewrite with len; lia|].
      by rewrite app_nil_r, <- app_assoc.
    + unfold zlen in *. autorewrite with len in *. lia.
    + unfold zlen in *. autorewrite with len in *. lia.
  - exists J. split; [done|]. rewrite drop_ge by (unfold zlen in *; lia).
    rewrite take_ge, drop_ge in HC by (unfold zlen in *; lia).
    rewrite take_ge by (unfold zlen in *; lia).
    rewrite app_nil_r. simpl in HC. rewrite <- HC. by destruct s.
Qed.

Lemma add_rep s e vs v i :
  rep be s e vs → in_s (8 * e) v → zlen vs + 1 < 2 ^ 29 →
  intsetSearch be s v = Some (false, Z.of_nat i) → (i ≤ length vs)%nat → in_s 64 v →
  ∃ s', intsetAdd be junk s v = Some (s', true) ∧ rep be s' e (take i vs ++ v :: drop i vs).
Proof.
  intros HR Hv Hsz Hsearch Hi Hv64. destruct (HR) as [He HE HL HC HF].
  assert (0 ≤ zlen vs) by (unfold zlen; lia).
  unfold intsetAdd. rewrite HE. cbn [mbind option_bind].
  apply value_encoding_le in Hv as Hle; [|done..].
  destruct (Z.ltb_spec e (_intsetValueEncoding v)); [lia|].
  rewrite Hsearch, HL. cbn [mbind option_bind].
  rewrite (wrapu_small 32 (zlen vs + 1)) by (unfold in_u; lia).
  unfold intsetResize. rewrite HE. cbn [mbind option_bind]. rewrite enc_size by (done || lia).
  pose proof (length_enc_all e vs He) as L. pose proof (enc_ok_pos e He).
  destruct (realloc_grow (contents s) e) as (J & HJ & LJ); [lia|].
  replace ((zlen vs + 1) * e) with (zlen (contents s) + e) by (rewrite HC, L; lia). rewrite HJ.
  destruct (add_shift (set_contents (contents s ++ J) s) e vs i J) as (B & HB & ->); try done.
  { cbn. by rewrite HC. }
  cbn [mbind option_bind].
  pose proof (length_enc_take e vs i He Hi) as L1.
  rewrite (set_app be _ e _ (enc_all e (take i vs)) B (enc_all e (drop i vs)) v He);
    [|done..].
  cbn [mbind option_bind].
  destruct (intrev32ifbe_inv (zlen vs + 1)) as (nn & Hnn1 & Hnn2); [unfold in_u; lia|].
  rewrite Hnn1. cbn [mbind option_bind]. eexists. split; [done|]. split; cbn; try done.
  - rewrite Hnn2. f_equal. unfold zlen in *. autorewrite with len. lia.
  - by rewrite enc_all_app, enc_all_cons.
  - rewrite <- (take_drop i vs) in HF. apply Forall_app in HF as [? ?].
    apply Forall_app_2; [done|]. by constructor.
Qed.

Lemma remove_shift s e vs v i :
  rep be s e vs → zlen vs < 2 ^ 29 → vs !! i = Some v →
  ∃ T, zlen T = e ∧
    (if Z.of_nat i <? zlen vs - 1
     then intsetMoveTail be s (Z.of_nat i +u32 1) (Z.of_nat i) else Some s)
    = Some (set_contents (enc_all e (take i vs ++ drop (S i) vs) ++ T) s).
Proof.
  intros [He HE HL HC _] Hsz Hi. pose proof (lookup_lt_Some _ _ _ Hi) as Hlt.
  pose proof (enc_ok_pos e He). pose proof (length_enc1 e v He) as L3.
  pose proof (length_enc_take e vs i He ltac:(lia)) as L1.
  pose proof (length_enc_drop e vs (S i) He ltac:(lia)) as L2.
  rewrite <- (take_drop_middle vs i v Hi), enc_all_app, enc_all_cons in HC.
  destruct (Z.ltb_spec (Z.of_nat i) (zlen vs - 1)).
  - rewrite (wrapu_small 32) by (unfold in_u, zlen in *; lia).
    pose proof HC as HC'. rewrite app_assoc in HC'.
    rewrite <- (app_nil_r (enc_all e (drop (S i) vs))) in HC' at 1.
    rewrite (move_tail_store s e (zlen vs) (Z.of_nat i + 1) (Z.of_nat i) _ _ _ He HE HL
               ltac:(lia) ltac:(lia) HC').
    2-3: unfold zlen in *; autorewrite with len in *; lia.
    rewrite HC. set (T := Z_to_little_endian e 8 v ++ enc_all e (drop (S i) vs)).
    rewrite <- (take_drop (length (enc_all e (drop (S i) vs))) T).
    exists (drop (length (enc_all e (drop (S i) vs))) T). split.
    { subst T. unfold zlen in *. autorewrite with len in *. lia. }
    rewrite enc_all_app, <- app_assoc.
    rewrite store_app; [done|..]; unfold zlen in *; [|subst T]; autorewrite with len in *; lia.
  - assert (drop (S i) vs = []) as Hd by (apply drop_ge; unfold zlen in *; lia).
    rewrite Hd in HC |- *. change (enc_all e []) with (@nil Z) in *.
    rewrite app_nil_r in HC. exists (Z_to_little_endian e 8 v). split; [done|].
    rewrite app_nil_r, <- HC. by destruct s.
Qed.

Lemma remove_rep s e vs v i :
  rep be s e vs → zlen vs < 2 ^ 29 → in_s 64 v → vs !! i = Some v →
  intsetSearch be s v = Some (true, Z.of_nat i) →
  ∃ s', intsetRemove be junk s v = Some (s', true) ∧
    rep be s' e (take i vs ++ drop (S i) vs).
Proof.
  intros HR Hsz Hv64 Hi Hsearch. destruct (HR) as [He HE HL HC HF].
  pose proof (lookup_lt_Some _ _ _ Hi) as Hlt. pose proof (enc_ok_pos e He).
  pose proof (Forall_lookup_1 _ _ _ _ HF Hi) as Hv.
  unfold intsetRemove. rewrite HE. cbn [mbind option_bind].
  apply value_encoding_le in Hv as Hle; [|done..].
  destruct (Z.ltb_spec e (_intsetValueEncoding v)); [lia|].
  rewrite Hsearch, HL. cbn [mbind option_bind negb].
  rewrite (wrapu_small 32 (zlen vs - 1)) by (unfold in_u, zlen in *; lia).
  destruct (remove_shift s e vs v i HR Hsz Hi) as (T & HT & ->).
  set (vs' := take i vs ++ drop (S i) vs).
  assert (zlen vs' = zlen vs - 1) as Hvs' by (subst vs'; len).
  pose proof (length_enc_all e vs' He) as L.
  cbn [mbind option_bind]. unfold intsetResize. cbn [encoding set_contents contents].
  rewrite HE. cbn [mbind option_bind]. rewrite enc_size by (done || unfold zlen in *; lia).
  destruct (intrev32ifbe_inv (zlen vs - 1)) as (nn & Hnn1 & Hnn2); [unfold in_u, zlen in *; lia|].
  rewrite Hnn1. cbn [mbind option_bind]. eexists. split; [done|]. split; cbn; try done.
  - by rewrite Hnn2, Hvs'.
  - unfold realloc. rewrite (proj2 (Nat.sub_0_le _ _)).
    2: { unfold zlen in *. autorewrite with len in *. nia. }
    rewrite app_nil_r. apply take_app_length'. unfold zlen in *. nia.
  - subst vs'. rewrite <- (take_drop_middle vs i v Hi) in HF.
    apply Forall_app in HF as [? [? ?]%Forall_cons]. by apply Forall_app_2.
Qed.

(** ** The operations against their abstract counterparts *)

Lemma add_spec s e vs v :
  rep be s e vs → StronglySorted Z.lt vs → zlen vs + 1 < 2 ^ 29 → in_s 64 v →
  ∃ s', intsetAdd be junk s v = Some (s', bool_decide (v ∉ vs)) ∧
    rep be s' (e `max` _intsetValueEncoding v) (sadd v vs) ∧
    StronglySorted Z.lt (sadd v vs).
Proof.
  intros HR HS Hsz Hv. destruct (HR) as [He HE HL HC HF].
  destruct (decide (_intsetValueEncoding v ≤ e)) as [Hle|Hgt].
  - rewrite Z.max_l by done.
    destruct (intsetSearch_spec s e vs v HR HS ltac:(lia)) as ([] & i & Hsearch & Hres).
    + assert (v ∈ vs) by by eapply list_elem_of_lookup_2.
      exists s. unfold sadd. rewrite decide_True by done. split; [|done].
      unfold intsetAdd. rewrite HE. cbn [mbind option_bind].
      destruct (Z.ltb_spec e (_intsetValueEncoding v)); [lia|]. rewrite Hsearch.
      rewrite bool_decide_false by naive_solver. done.
    + destruct (add_rep s e vs v i) as (s' & -> & HR'); try done.
      { by apply value_encoding_le. }
      { apply Hres. }
      exists s'. rewrite bool_decide_true by by eapply splits_not_elem.
      rewrite <- (sadd_splits vs v i Hres) in HR'. split; [done|]. split; [done|].
      by eapply sadd_sorted.
  - rewrite Z.max_r by lia.
    destruct (upgrade_rep s e vs v HR Hv ltac:(lia) Hsz) as (s' & Hup & HR').
    assert (∃ i, splits vs v i ∧ (if v <? 0 then v :: vs else vs ++ [v]) =
      take i vs ++ v :: drop i vs) as (i & Hsp & Hi).
    { assert (∀ w, w ∈ vs → if v <? 0 then v < w else w < v) as Hout.
      { intros w Hw. eapply out_of_range; try done; [lia|]. rewrite Forall_forall in HF. auto. }
      destruct (v <? 0).
      - exists 0%nat. split; [|done]. apply (splits_app []); [done|by apply Forall_forall].
      - exists (length vs). rewrite firstn_all, drop_all. split; [|done].
        rewrite <- (app_nil_r vs) at 1. apply splits_app; [by apply Forall_forall|done]. }
    exists s'. unfold intsetAdd. rewrite HE. cbn [mbind option_bind].
    destruct (Z.ltb_spec e (_intsetValueEncoding v)); [|lia]. rewrite Hup.
    rewrite bool_decide_true by by eapply splits_not_elem.
    rewrite Hi, <- (sadd_splits vs v i Hsp) in HR'. split; [done|]. split; [done|].
    by eapply sadd_sorted.
Qed.

Lemma not_in_range_not_elem s e vs v :
  rep be s e vs → in_s 64 v → e < _intsetValueEncoding v → v ∉ vs.
Proof.
  intros [He _ _ _ HF] Hv Hlt Hin. rewrite Forall_forall in HF.
  apply HF, value_encoding_le in Hin; [lia|done..].
Qed.

Lemma remove_spec s e vs v :
  rep be s e vs → StronglySorted Z.lt vs → zlen vs < 2 ^ 29 → in_s 64 v →
  ∃ s', intsetRemove be junk s v = Some (s', bool_decide (v ∈ vs)) ∧
    rep be s' e (srem v vs) ∧ StronglySorted Z.lt (srem v vs).
Proof.
  intros HR HS Hsz Hv. pose proof (rep_encoding _ _ _ _ HR) as HE.
  destruct (intsetSearch_spec s e vs v HR HS ltac:(lia)) as (found & i & Hsearch & Hres).
  destruct (decide (v ∈ vs)) as [Hin|Hnin].
  - destruct found; [|by apply splits_not_elem in Hres].
    destruct (remove_rep s e vs v i) as (s' & -> & HR'); try done.
    exists s'. rewrite bool_decide_true by done. rewrite (srem_lookup vs v i) by done.
    split; [done|]. split; [done|]. by eapply sorted_delete.
  - exists s. rewrite srem_not_elem, bool_decide_false by done. split; [|done].
    unfold intsetRemove. rewrite HE. cbn [mbind option_bind].
    destruct (Z.ltb_spec e (_intsetValueEncoding v)); [done|]. rewrite Hsearch.
    destruct found; [by apply list_elem_of_lookup_2 in Hres|done].
Qed.

End resizing.

Lemma find_spec s e vs v :
  rep be s e vs → StronglySorted Z.lt vs → zlen vs < 2 ^ 29 → in_s 64 v →
  intsetFind be s v = Some (bool_decide (v ∈ vs)).
Proof.
  intros HR HS Hsz Hv. unfold intsetFind. rewrite (rep_encoding _ _ _ _ HR).
  cbn [mbind option_bind]. destruct (Z.ltb_spec e (_intsetValueEncoding v)) as [Hlt|Hge].
  - rewrite bool_decide_false; [done|]. by eapply not_in_range_not_elem.
  - destruct (intsetSearch_spec s e vs v HR HS Hsz) as ([] & i & -> & Hres); cbn; f_equal;
      symmetry; [apply bool_decide_true | apply bool_decide_false].
    + by eapply list_elem_of_lookup_2.
    + by eapply splits_not_elem.
Qed.

Lemma new_rep : ∃ s, intsetNew be = Some s ∧ rep be s 2 [].
Proof.
  unfold intsetNew. destruct (intrev32ifbe_inv INTSET_ENC_INT16) as (n & -> & Hn).
  { by unfold in_u, INTSET_ENC_INT16. }
  eexists. split; [done|]. split; try done; [by left|]. by destruct be.
Qed.

End proofs.

(** ** Sequences of operations *)

Inductive op := OpAdd (v : Z) | OpRemove (v : Z) | OpFind (v : Z).
Definition op_arg (o : op) : Z := match o with OpAdd v | OpRemove v | OpFind v => v end.

Definition run_op (be : host) (junk : nat → Z) (s : intset) (o : op) : option (intset * bool) :=
  match o with
  | OpAdd v => intsetAdd be junk s v
  | OpRemove v => intsetRemove be junk s v
  | OpFind v => b ← intsetFind be s v; Some (s, b)
  end.

Fixpoint run (be : host) (junk : nat → Z) (s : intset) (ops : list op)
    : option (intset * list bool) :=
  match ops with
  | [] => Some (s, [])
  | o :: ops => '(s, b) ← run_op be junk s o; '(s, bs) ← run be junk s ops; Some (s, b :: bs)
  end.

(** The specification: a finite set of integers. *)
Definition spec_op (X : gset Z) (o : op) : gset Z * bool :=
  match o with
  | OpAdd v => ({[v]} ∪ X, bool_decide (v ∉ X))
  | OpRemove v => (X ∖ {[v]}, bool_decide (v ∈ X))
  | OpFind v => (X, bool_decide (v ∈ X))
  end.

Fixpoint spec_run (X : gset Z) (ops : list op) : gset Z * list bool :=
  match ops with
  | [] => (X, [])
  | o :: ops => let '(X, b) := spec_op X o in
                let '(X, bs) := spec_run X ops in (X, b :: bs)
  end.

(** The sorted list and the width of the elements after one operation. *)
Definition list_op (vs : list Z) (o : op) : list Z :=
  match o with OpAdd v => sadd v vs | OpRemove v => srem v vs | OpFind _ => vs end.
Definition enc_op (e : Z) (o : op) : Z :=
  match o with OpAdd v => e `max` _intsetValueEncoding v | _ => e end.

Lemma run_op_rep be junk s e vs o :
  rep be s e vs → StronglySorted Z.lt vs → zlen vs + 1 < 2 ^ 29 → in_s 64 (op_arg o) →
  ∃ s' b, run_op be junk s o = Some (s', b) ∧ rep be s' (enc_op e o) (list_op vs o) ∧
    StronglySorted Z.lt (list_op vs o) ∧ zlen (list_op vs o) ≤ zlen vs + 1 ∧
    spec_op (list_to_set vs) o = (list_to_set (list_op vs o), b).
Proof.
  intros HR HS Hsz Ho. destruct o as [v|v|v]; simpl in *.
  - destruct (add_spec be junk s e vs v) as (s' & -> & ? & ?); try done.
    do 2 eexists. split; [done|]. pose proof (length_sadd v vs).
    split_and!; [done..|unfold zlen in *; lia|]. f_equal.
    + apply set_eq. intros w. rewrite elem_of_union, elem_of_singleton.
      by rewrite !elem_of_list_to_set, elem_of_sadd.
    + apply bool_decide_ext. by rewrite elem_of_list_to_set.
  - destruct (remove_spec be junk s e vs v) as (s' & -> & ? & ?); try done; try lia.
    do 2 eexists. split; [done|]. pose proof (length_srem v vs).
    split_and!; [done..|unfold zlen in *; lia|]. f_equal.
    + apply set_eq. intros w. rewrite elem_of_difference, elem_of_singleton.
      rewrite !elem_of_list_to_set, elem_of_srem. naive_solver.
    + apply bool_decide_ext. by rewrite elem_of_list_to_set.
  - rewrite (find_spec be s e vs v) by (done || lia). cbn.
    do 2 eexists. split; [done|]. split_and!; [done..|lia|]. f_equal.
    apply bool_decide_ext. by rewrite elem_of_list_to_set.
Qed.

Lemma run_rep be junk ops : ∀ s e vs,
  rep be s e vs → StronglySorted Z.lt vs → zlen vs + zlen ops < 2 ^ 29 →
  Forall (λ o, in_s 64 (op_arg o)) ops →
  ∃ s' bs, run be junk s ops = Some (s', bs) ∧
    rep be s' (foldl enc_op e ops) (foldl list_op vs ops) ∧
    StronglySorted Z.lt (foldl list_op vs ops) ∧
    zlen (foldl list_op vs ops) ≤ zlen vs + zlen ops ∧
    spec_run (list_to_set vs) ops = (list_to_set (foldl list_op vs ops), bs).
Proof.
  induction ops as [|o ops IH]; intros s e vs HR HS Hsz HF; simpl.
  - do 2 eexists. split; [done|]. split_and!; [done..|unfold zlen; simpl; lia|done].
  - apply Forall_cons in HF as [Ho HF]. assert (zlen (o :: ops) = zlen ops + 1) as Hc by len.
    rewrite Hc in Hsz. assert (0 ≤ zlen ops) by (unfold zlen; lia).
    destruct (run_op_rep be junk s e vs o) as (s1 & b & -> & HR1 & HS1 & Hlen & Hspec);
      try done; try lia. cbn [mbind option_bind].
    destruct (IH s1 (enc_op e o) (list_op vs o)) as (s2 & bs & -> & HR2 & HS2 & Hlen2 & Hspec2);
      try done; try lia. cbn [mbind option_bind].
    do 2 eexists. split; [done|]. rewrite Hspec, Hspec2. split_and!; [done..|lia|done].
Qed.

(** ** The block on two hosts *)

(** The bytes of the whole block, header included: what is written to disk. *)
Definition blob (be : host) (s : intset) : list Z :=
  to_mem be 4 (encoding s) ++ to_mem be 4 (ilength s) ++ contents s.

Lemma header_bytes be n m :
  intrev32ifbe be n = Some m → to_mem be 4 n = Z_to_little_endian 4 8 m.
Proof.
  unfold intrev32ifbe, to_mem. destruct be; [|by intros [= ->]].
  rewrite intrev32_eq. intros E. apply (inj Some) in E. rewrite <- E.
  pose proof (length_Z_to_little_endian 4 8 n ltac:(lia)).
  rewrite Z_to_little_endian_to_Z; [done|rewrite length_rev; lia|lia|].
  by apply Forall_rev, Z_to_little_endian_bound.
Qed.

Lemma blob_rep be s e vs :
  rep be s e vs →
  blob be s = Z_to_little_endian 4 8 e ++ Z_to_little_endian 4 8 (zlen vs) ++ enc_all e vs.
Proof.
  intros [_ HE HL HC _]. unfold blob.
  by rewrite (header_bytes _ _ _ HE), (header_bytes _ _ _ HL), HC.
Qed.

(** ** Properties *)

(** C2. Any sequence of additions, removals and lookups of 64-bit integers,
    started from [intsetNew] and shorter than 2^29, runs without an access
    outside of the block, returns the answers of a mathematical set, and ends
    in a well-formed block (strictly sorted elements in one encoding) that
    holds exactly the elements of that set. *)
Theorem intset_refines_set be junk ops :
  Forall (λ o, in_s 64 (op_arg o)) ops → zlen ops < 2 ^ 29 →
  ∃ s bs vs, (s ← intsetNew be; run be junk s ops) = Some (s, bs) ∧
    wf be s vs ∧ spec_run ∅ ops = (list_to_set vs, bs).
Proof.
  intros HF Hlen. destruct (new_rep be) as (s0 & -> & HR). cbn [mbind option_bind].
  destruct (run_rep be junk ops s0 2 [] HR) as (s & bs & -> & HR' & HS & Hl & Hspec);
    [constructor|done|done|].
  do 3 eexists. split; [done|]. split; [|exact Hspec].
  split_and!; [eauto|done|unfold zlen in *; simpl in *; lia].
Qed.

Lemma intset_refines_set_witness :
  ∃ s bs vs, (s ← intsetNew true; run true (λ _, 0) s [OpAdd 5; OpAdd (-70000); OpFind 5; OpRemove 5])
      = Some (s, bs) ∧
    wf true s vs ∧ spec_run ∅ [OpAdd 5; OpAdd (-70000); OpFind 5; OpRemove 5] = (list_to_set vs, bs).
Proof.
  apply (intset_refines_set true (λ _, 0)).
  - by_decision.
  - vm_compute. reflexivity.
Defined.

(** The block is portable: the same operations performed on a little
    endian and on a big endian host end in byte-identical blocks, header
    included, and give the same answers. *)
Theorem intset_portable junk1 junk2 ops s1 bs1 s2 bs2 :
  Forall (λ o, in_s 64 (op_arg o)) ops → zlen ops < 2 ^ 29 →
  (s ← intsetNew false; run false junk1 s ops) = Some (s1, bs1) →
  (s ← intsetNew true; run true junk2 s ops) = Some (s2, bs2) →
  blob false s1 = blob true s2 ∧ bs1 = bs2.
Proof.
  intros HF Hlen. destruct (new_rep false) as (s01 & -> & HR1).
  destruct (new_rep true) as (s02 & -> & HR2). cbn [mbind option_bind].
  destruct (run_rep false junk1 ops s01 2 [] HR1) as (t1 & cs1 & -> & HR1' & _ & _ & Hs1);
    [constructor|done|done|].
  destruct (run_rep true junk2 ops s02 2 [] HR2) as (t2 & cs2 & -> & HR2' & _ & _ & Hs2);
    [constructor|done|done|].
  intros [= -> ->] [= -> ->]. split; [|congruence].
  by rewrite (blob_rep _ _ _ _ HR1'), (blob_rep _ _ _ _ HR2').
Qed.

Lemma intset_portable_witness :
  ∃ s1 bs1 s2 bs2,
    (s ← intsetNew false; run false (λ _, 1) s [OpAdd 5; OpAdd 40000]) = Some (s1, bs1) ∧
    (s ← intsetNew true; run true (λ _, 2) s [OpAdd 5; OpAdd 40000]) = Some (s2, bs2) ∧
    blob false s1 = blob true s2 ∧ bs1 = bs2.
Proof.
  do 4 eexists. split; [vm_compute; reflexivity|]. split; [vm_compute; reflexivity|].
  apply (intset_portable (λ _, 1) (λ _, 2) [OpAdd 5; OpAdd 40000]).
  - by_decision.
  - vm_compute. reflexivity.
  - vm_compute. reflexivity.
  - vm_compute. reflexivity.
Defined.

(** Positional access: on a well-formed set [intsetGet] returns the
    element of that rank and reports a position past the end, and
    [intsetRandom] returns a member whatever [rand()] gives. *)
Theorem intset_positional be s vs pos r :
  wf be s vs → in_u 32 pos →
  intsetGet be s pos = Some (vs !! Z.to_nat pos) ∧
  (vs ≠ [] → ∃ v, intsetRandom be s r = Some v ∧ v ∈ vs).
Proof.
  intros ([e HR] & HS & Hsz) Hpos. unfold intsetGet, intsetRandom.
  rewrite (rep_length _ _ _ _ HR). cbn [mbind option_bind]. split.
  - destruct (Z.ltb_spec pos (zlen vs)).
    + destruct (rep_get_Z be s e vs pos HR) as (v & -> & Hg); [unfold in_u in *; lia|].
      rewrite wraps_small by (unfold in_s, in_u in *; lia). by rewrite Hg.
    + rewrite lookup_ge_None_2; [done|]. unfold zlen in *. lia.
  - intros Hne. assert (0 < zlen vs) by (destruct vs; [done|unfold zlen; simpl; lia]).
    destruct (Z.eqb_spec (zlen vs) 0); [lia|].
    pose proof (Z.mod_pos_bound (u32 r) (zlen vs)).
    destruct (rep_get_Z be s e vs (u32 r mod zlen vs) HR) as (v & Hv & Hg); [lia|].
    rewrite wraps_small by (unfold in_s; lia). exists v. split; [done|].
    by eapply list_elem_of_lookup_2.
Qed.

Lemma intset_positional_witness :
  intsetGet false (mkIntset 2 2 [3; 0; 9; 0]) 1 = Some (Some 9) ∧
  (∃ v, intsetRandom false (mkIntset 2 2 [3; 0; 9; 0]) 7 = Some v ∧ v ∈ [3; 9]).
Proof.
  destruct (intset_positional false (mkIntset 2 2 [3; 0; 9; 0]) [3; 9] 1 7) as [H1 H2].
  - split_and!; [|by_decision|reflexivity].
    exists 2. split; [by left|reflexivity|reflexivity|reflexivity|].
    by_decision.
  - vm_compute. split; [discriminate|reflexivity].
  - split; [exact H1|apply H2; discriminate].
Defined.
