(* ===== verification/NumConv.v ===== *)
(** * NumConv: integers and their decimal strings (redis-3.0.0/src/util.c)

    [digits10], [ll2string], [string2ll] and [string2l].  Characters are byte
    values; the comparisons of the code with ['0']..['9'] give the same result
    whether [char] is signed or not. *)

From S2P Require Import Prelude.

Definition LLONG_MAX : Z := 2 ^ 63 - 1.
Definition LLONG_MIN : Z := - 2 ^ 63.
Definition ULLONG_MAX : Z := 2 ^ 64 - 1.
Definition LONG_MAX : Z := LLONG_MAX.   (* LP64 *)
Definition LONG_MIN : Z := LLONG_MIN.

Definition c0 : Z := 48.      (* '0' *)
Definition c9 : Z := 57.      (* '9' *)
Definition cminus : Z := 45.  (* '-' *)

(** ** Printing *)

(** [digits10]; the recursive call is the last line of the function. *)
Fixpoint digits10_rec (fuel : nat) (v : Z) : option Z :=
  match fuel with
  | O => None
  | S fuel =>
      if v <? 10 then Some 1 else
      if v <? 100 then Some 2 else
      if v <? 1000 then Some 3 else
      if v <? 1000000000000 then
        if v <? 100000000 then
          if v <? 1000000 then
            if v <? 10000 then Some 4
            else Some (5 + (if 100000 <=? v then 1 else 0))
          else Some (7 + (if 10000000 <=? v then 1 else 0))
        else if v <? 10000000000 then Some (9 + (if 1000000000 <=? v then 1 else 0))
        else Some (11 + (if 100000000000 <=? v then 1 else 0))
      else d ← digits10_rec fuel (v / 1000000000000); Some (u32 (12 + d))
  end.
Definition digits10 (v : Z) : option Z := digits10_rec 2 v.

(** The table of the two-digit numbers. *)
Definition digits : list Z :=
  str ("0001020304050607080910111213141516171819" ++
       "2021222324252627282930313233343536373839" ++
       "4041424344454647484950515253545556575859" ++
       "6061626364656667686970717273747576777879" ++
       "8081828384858687888990919293949596979899").

(** [dst[next] = digits[i + 1]; dst[next - 1] = digits[i];] *)
Definition put2 (dst : list Z) (next i : Z) : option (list Z) :=
  hi ← digits !! Z.to_nat (i + 1);
  dst ← store dst next [hi];
  lo ← digits !! Z.to_nat i;
  store dst (next -u32 1) [lo].

(** The loop on the pairs of digits, from the right, and the last one or two
    digits. *)
Fixpoint put_digits (fuel : nat) (dst : list Z) (next value : Z) : option (list Z) :=
  match fuel with
  | O => None
  | S fuel =>
      if 100 <=? value then
        let i := i32 ((value mod 100) * 2) in
        dst ← put2 dst next i;
        put_digits fuel dst (next -u32 2) (value / 100)
      else if value <? 10 then store dst next [u8 (c0 + u32 value)]
      else put2 dst next (i32 (u32 value * 2))
  end.

(** Returns the buffer and the returned length. *)
Definition ll2string (dst : list Z) (dstlen svalue : Z) : option (list Z * Z) :=
  let '(value, negative) :=
    if svalue <? 0 then
      (if svalue =? LLONG_MIN then u64 (LLONG_MAX + 1) else u64 (- svalue), 1)
    else (svalue, 0) in
  d ← digits10 value;
  let length := d +u32 negative in
  if dstlen <=? length then Some (dst, 0) else
  dst ← store dst length [0];
  dst ← put_digits 20 dst (length -u32 1) value;
  dst ← (if negative =? 0 then Some dst else store dst 0 [cminus]);
  Some (dst, i32 length).

(** ** Parsing *)

Definition isdigit (c : Z) : bool := (c0 <=? c) && (c <=? c9).

(** The loop on the digits that follow the first one; [p] is the rest of the
    string.  [None]: the conversion overflows. *)
Fixpoint string2ll_loop (p : list Z) (v : Z) : option (Z * list Z) :=
  match p with
  | c :: p' =>
      if isdigit c then
        if ULLONG_MAX / 10 <? v then None else
        let v := u64 (v * 10) in
        if ULLONG_MAX - (c - c0) <? v then None else
        string2ll_loop p' (u64 (v + (c - c0)))
      else Some (v, p)
  | [] => Some (v, [])
  end.

(** From the first digit [c], 1 to 9, to the end of [string2ll]. *)
Definition finish (negative : bool) (c : Z) (p' : list Z) : option Z :=
  '(v, rest) ← string2ll_loop p' (c - c0);
  match rest with
  | _ :: _ => None
  | [] =>
      if negative then
        if u64 (- (LLONG_MIN + 1)) + 1 <? v then None else Some (i64 (u64 (- v)))
      else if LLONG_MAX <? v then None else Some v
  end.

(** [None] is the return value 0, [Some v] is 1 with [*value = v]. *)
Definition string2ll (s : list Z) : option Z :=
  match s with
  | [] => None
  | c :: t =>
      if (zlen s =? 1) && (c =? c0) then Some 0 else
      let '(negative, p) := if c =? cminus then (true, t) else (false, s) in
      match p with
      | [] => None
      | c :: p' =>
          if (c0 + 1 <=? c) && (c <=? c9) then
            finish negative c p'
          else if (c =? c0) && (zlen s =? 1) then Some 0
          else None
      end
  end.

Definition string2l (s : list Z) : option Z :=
  llval ← string2ll s;
  if (llval <? LONG_MIN) || (LONG_MAX <? llval) then None else Some (i64 llval).

(** ** Decimal representation: the specification *)

Definition dval_from (a : Z) (ds : list Z) : Z := foldl (λ a c, a * 10 + (c - c0)) a ds.
Definition dval (ds : list Z) : Z := dval_from 0 ds.
Definition digs (ds : list Z) : Prop := Forall (λ c, isdigit c = true) ds.

(** Digits without a leading zero, or the single digit 0. *)
Definition canon (ds : list Z) : Prop :=
  ds ≠ [] ∧ digs ds ∧ (head ds ≠ Some c0 ∨ ds = [c0]).

(** [s] is the decimal string of the integer [v]. *)
Definition decimal (s : list Z) (v : Z) : Prop :=
  (canon s ∧ v = dval s) ∨ (∃ ds, canon ds ∧ s = cminus :: ds ∧ v = - dval ds ∧ v ≠ 0).

Lemma isdigit_spec c : isdigit c = true ↔ c0 ≤ c ≤ c9.
Proof. unfold isdigit. rewrite andb_true_iff, !Z.leb_le. done. Qed.

Lemma digs_app ds1 ds2 : digs (ds1 ++ ds2) ↔ digs ds1 ∧ digs ds2.
Proof. apply Forall_app. Qed.

Lemma dval_snoc a ds c : dval_from a (ds ++ [c]) = dval_from a ds * 10 + (c - c0).
Proof. unfold dval_from. by rewrite foldl_app. Qed.

Lemma dval_from_bounds ds : ∀ a,
  digs ds → a * 10 ^ zlen ds ≤ dval_from a ds < (a + 1) * 10 ^ zlen ds.
Proof.
  induction ds as [|c ds IH] using rev_ind; intros a HD.
  - unfold zlen. simpl. lia.
  - apply digs_app in HD as [HD Hc]. apply Forall_inv, isdigit_spec in Hc.
    specialize (IH a HD). rewrite dval_snoc.
    replace (zlen (ds ++ [c])) with (Z.succ (zlen ds)) by len.
    rewrite Z.pow_succ_r by (unfold zlen; lia). unfold c0, c9 in *. lia.
Qed.

Lemma canon_bounds ds : canon ds → ds ≠ [c0] → 10 ^ (zlen ds - 1) ≤ dval ds < 10 ^ zlen ds.
Proof.
  intros (Hne & HD & Hh) H0. destruct ds as [|c ds]; [done|].
  destruct Hh as [Hh|]; [|done]. apply Forall_cons in HD as [Hc HD].
  apply isdigit_spec in Hc. assert (c ≠ c0) by (intros ->; by apply Hh).
  pose proof (dval_from_bounds ds (c - c0) HD) as Hb. unfold dval.
  change (dval_from 0 (c :: ds)) with (dval_from (0 * 10 + (c - c0)) ds).
  rewrite Z.mul_0_l, Z.add_0_l.
  replace (zlen (c :: ds)) with (Z.succ (zlen ds)) by len.
  rewrite Z.pow_succ_r by (unfold zlen; lia). replace (Z.succ (zlen ds) - 1) with (zlen ds) by lia.
  assert (0 < 10 ^ zlen ds) by (apply Z.pow_pos_nonneg; unfold zlen; lia).
  unfold c0, c9 in *. nia.
Qed.

Lemma canon_0 ds : canon ds → dval ds = 0 → ds = [c0].
Proof.
  intros Hc H0. destruct (decide (ds = [c0])) as [|Hn]; [done|].
  pose proof (canon_bounds ds Hc Hn). destruct Hc as (Hne & _).
  assert (0 < 10 ^ (zlen ds - 1)); [|lia].
  apply Z.pow_pos_nonneg; [lia|]. destruct ds; [done|]. len.
Qed.

Lemma dval_nonneg ds : digs ds → 0 ≤ dval ds.
Proof. intros HD. pose proof (dval_from_bounds ds 0 HD). unfold dval. lia. Qed.

Lemma pow10_unique n a b :
  1 ≤ a → 1 ≤ b → 10 ^ (a - 1) ≤ n < 10 ^ a → 10 ^ (b - 1) ≤ n < 10 ^ b → a = b.
Proof.
  intros Ha Hb HA HB. destruct (Z.lt_total a b) as [|[|]]; [|done|].
  - assert (10 ^ a ≤ 10 ^ (b - 1)) by (apply Z.pow_le_mono_r; lia). lia.
  - assert (10 ^ b ≤ 10 ^ (a - 1)) by (apply Z.pow_le_mono_r; lia). lia.
Qed.

Lemma digs_inj ds1 : ∀ ds2,
  digs ds1 → digs ds2 → length ds1 = length ds2 → dval ds1 = dval ds2 → ds1 = ds2.
Proof.
  induction ds1 as [|c ds1 IH] using rev_ind; intros ds2 H1 H2 HL HV.
  { by destruct ds2. }
  destruct ds2 as [|d ds2 _] using rev_ind; [rewrite length_app in HL; simpl in HL; lia|].
  apply digs_app in H1 as [H1 Hc%Forall_inv%isdigit_spec].
  apply digs_app in H2 as [H2 Hd%Forall_inv%isdigit_spec].
  unfold dval in HV. rewrite !dval_snoc in HV. unfold c0, c9 in *.
  assert (c = d) as -> by lia. f_equal. apply IH; try done.
  - autorewrite with len in HL. simpl in HL. lia.
  - unfold dval. lia.
Qed.

Lemma canon_inj ds1 ds2 : canon ds1 → canon ds2 → dval ds1 = dval ds2 → ds1 = ds2.
Proof.
  intros H1 H2 HV. destruct (decide (dval ds1 = 0)) as [H0|H0].
  { rewrite (canon_0 ds1), (canon_0 ds2); congruence. }
  assert (ds1 ≠ [c0] ∧ ds2 ≠ [c0]) as [Hn1 Hn2] by (split; intros ->; done).
  pose proof (canon_bounds _ H1 Hn1). pose proof (canon_bounds _ H2 Hn2).
  destruct (H1) as (Hne1 & HD1 & _), (H2) as (Hne2 & HD2 & _).
  apply digs_inj; try done. apply Nat2Z.inj. apply (pow10_unique (dval ds1)).
  - destruct ds1; [done|simpl; lia].
  - destruct ds2; [done|simpl; lia].
  - done.
  - by rewrite HV.
Qed.

Lemma canon_snoc ds c : canon ds → dval ds ≠ 0 → isdigit c = true → canon (ds ++ [c]).
Proof.
  intros (Hne & HD & Hh) H0 Hc. split_and!.
  - by destruct ds.
  - apply digs_app. split; [done|]. by repeat constructor.
  - left. destruct ds as [|d ds]; [done|]. simpl. destruct Hh as [Hh|[= -> ->]]; done.
Qed.

Lemma canon_digit n : 0 ≤ n < 10 → canon [c0 + n] ∧ dval [c0 + n] = n.
Proof.
  intros Hn. split; [split_and!; [done|..]|unfold dval, dval_from; simpl; lia].
  - repeat constructor. apply isdigit_spec. unfold c0, c9. lia.
  - destruct (decide (n = 0)) as [->|]; [by right|]. left. simpl. intros [= ?].
    unfold c0 in *. lia.
Qed.

Lemma canon_exists n : 0 ≤ n → ∃ ds, canon ds ∧ dval ds = n.
Proof.
  intros Hn. induction (Z.lt_wf 0 n) as [n _ IH].
  destruct (decide (n < 10)) as [|Hge].
  { exists [c0 + n]. by apply canon_digit. }
  destruct (IH (n / 10)) as (ds & Hc & HV); [divlia|divlia|].
  exists (ds ++ [c0 + n mod 10]). split.
  - apply canon_snoc; [done|rewrite HV; divlia|]. apply isdigit_spec. unfold c0, c9. divlia.
  - unfold dval in *. rewrite dval_snoc, HV. divlia.
Qed.

(** ** Parsing accepts exactly the decimal strings of the type *)

Lemma dval_from_ge a ds : 0 ≤ a → digs ds → a ≤ dval_from a ds.
Proof.
  intros Ha HD. pose proof (dval_from_bounds ds a HD).
  assert (0 < 10 ^ zlen ds) by (apply Z.pow_pos_nonneg; unfold zlen; lia). nia.
Qed.

Lemma string2ll_loop_spec p : ∀ v w,
  0 ≤ v ≤ ULLONG_MAX →
  string2ll_loop p v = Some (w, []) ↔ digs p ∧ w = dval_from v p ∧ w ≤ ULLONG_MAX.
Proof.
  induction p as [|c p IH]; intros v w Hv; cbn [string2ll_loop].
  { split; [intros [= ->]; split_and!; [constructor|done|lia]|intros (_ & -> & _); done]. }
  change (dval_from v (c :: p)) with (dval_from (v * 10 + (c - c0)) p).
  destruct (isdigit c) eqn:Hc.
  - pose proof Hc as Hc'. apply isdigit_spec in Hc'.
    assert (∀ P, digs (c :: p) ∧ P ↔ digs p ∧ P) as Hdigs.
    { intros P. unfold digs. rewrite Forall_cons, Hc. naive_solver. }
    rewrite Hdigs. unfold ULLONG_MAX in *. set (M := 2 ^ 64 - 1) in *.
    assert (c - c0 ≤ 9 ∧ 0 ≤ c - c0) by (unfold c0, c9 in *; lia).
    assert (∀ x, M < x → 0 ≤ x → ¬ (digs p ∧ w = dval_from x p ∧ w ≤ M)) as Hov.
    { intros x Hx Hx0 (HD & -> & Hle). pose proof (dval_from_ge x p Hx0 HD). lia. }
    destruct (Z.ltb_spec (M / 10) v) as [H1|H1].
    { split; [done|]. intros HH. exfalso. revert HH. apply Hov; unfold M in *; [divlia|lia]. }
    assert (v * 10 ≤ M) by (unfold M in *; divlia).
    rewrite (wrapu_small 64 (v * 10)) by (unfold in_u, M in *; lia).
    destruct (Z.ltb_spec (M - (c - c0)) (v * 10)) as [H2|H2].
    { split; [done|]. intros HH. exfalso. revert HH. apply Hov; lia. }
    rewrite wrapu_small by (unfold in_u, M in *; lia). apply IH. lia.
  - split; [done|]. intros ([Hd _]%Forall_cons & _). congruence.
Qed.

Lemma canon_cons c p :
  canon (c :: p) ↔ digs (c :: p) ∧ (c ≠ c0 ∨ p = []).
Proof.
  unfold canon. simpl. split.
  - intros (_ & HD & [Hh|[= -> ->]]); split; auto. left. intros ->. by apply Hh.
  - intros (HD & Hh). split_and!; [done..|]. destruct (decide (c = c0)) as [->|]; [|left; congruence].
    destruct Hh as [| ->]; [done|by right].
Qed.

(** The body after the sign, for a first digit 1 to 9. *)
Lemma string2ll_body c p' w :
  (c0 + 1 <=? c) && (c <=? c9) = true →
  string2ll_loop p' (c - c0) = Some (w, []) ↔
  canon (c :: p') ∧ w = dval (c :: p') ∧ w ≤ ULLONG_MAX.
Proof.
  intros Hc. bool_tests. assert (isdigit c = true) as Hd by (apply isdigit_spec; unfold c0 in *; lia).
  rewrite string2ll_loop_spec by (unfold c0, c9, ULLONG_MAX in *; lia).
  rewrite canon_cons. unfold digs. rewrite Forall_cons.
  change (dval (c :: p')) with (dval_from (0 * 10 + (c - c0)) p').
  rewrite Z.mul_0_l, Z.add_0_l. intuition (auto; lia).
Qed.

Lemma canon_first c p : canon (c :: p) → c :: p ≠ [c0] → (c0 + 1 <=? c) && (c <=? c9) = true.
Proof.
  intros [[Hd%isdigit_spec _]%Forall_cons Hh]%canon_cons Hn.
  apply andb_true_iff. rewrite !Z.leb_le. unfold c0, c9 in *.
  destruct (decide (c = 48)) as [->|]; [|lia]. destruct Hh as [| ->]; done.
Qed.

Lemma canon_pos ds : canon ds → ds ≠ [c0] → 0 < dval ds.
Proof.
  intros Hc Hn. pose proof (canon_0 ds Hc). pose proof (dval_nonneg ds (proj1 (proj2 Hc))).
  destruct (decide (dval ds = 0)); [tauto|lia].
Qed.

Lemma finish_spec (negative : bool) c p' v :
  (c0 + 1 <=? c) && (c <=? c9) = true →
  finish negative c p' = Some v ↔
  canon (c :: p') ∧ in_s 64 v ∧ v = (if negative then - dval (c :: p') else dval (c :: p')).
Proof.
  intros Hc. unfold finish.
  assert (canon (c :: p') → 0 < dval (c :: p')) as Hpos.
  { intros HC. apply canon_pos; [done|]. intros [= -> _]. by vm_compute in Hc. }
  change (u64 (- (LLONG_MIN + 1)) + 1) with (2 ^ 63).
  unfold LLONG_MAX, in_s. change (2 ^ (64 - 1)) with (2 ^ 63).
  assert (∀ w, 0 < w ≤ 2 ^ 63 → i64 (u64 (- w)) = - w) as Hneg.
  { intros w Hw. apply wraps_wrapu_id; [lia|]. unfold in_s. lia. }
  pose proof (λ w, string2ll_body c p' w Hc) as Hbody. unfold ULLONG_MAX in Hbody.
  destruct (string2ll_loop p' (c - c0)) as [[w [|r rest]]|]; cbn [mbind option_bind].
  - destruct (proj1 (Hbody w) eq_refl) as (HC & Hw & Hle). specialize (Hpos HC).
    rewrite <- Hw in *. destruct negative.
    + destruct (Z.ltb_spec (2 ^ 63) w); [naive_solver lia|].
      rewrite Hneg by lia. naive_solver lia.
    + destruct (Z.ltb_spec (2 ^ 63 - 1) w); naive_solver lia.
  - split; [done|]. intros (HC & Hr & ->). specialize (Hpos HC).
    assert (Some (w, r :: rest) = Some (dval (c :: p'), [])); [|done].
    apply Hbody. split_and!; [done..|destruct negative; lia].
  - split; [done|]. intros (HC & Hr & ->). specialize (Hpos HC).
    assert (@None (Z * list Z) = Some (dval (c :: p'), [])); [|done].
    apply Hbody. split_and!; [done..|destruct negative; lia].
Qed.

Lemma decimal_minus p v : decimal (cminus :: p) v ↔ canon p ∧ v = - dval p ∧ v ≠ 0.
Proof.
  split.
  - intros [[[[Hd _]%Forall_cons _]%canon_cons _]|(ds & HC & [= ->] & ? & ?)]; [done|done].
  - intros (HC & -> & H0). right. eauto 10.
Qed.

Lemma decimal_plain c p v :
  c ≠ cminus → decimal (c :: p) v ↔ canon (c :: p) ∧ v = dval (c :: p).
Proof.
  intros Hc. split; [|by left]. intros [|(ds & HC & [= ->] & _)]; done.
Qed.

(** No leading digit 1 to 9 and not "0": not a decimal string. *)
Lemma not_canon c p :
  (c0 + 1 <=? c) && (c <=? c9) = false → c :: p ≠ [c0] → ¬ canon (c :: p).
Proof. intros Hc Hn HC. apply canon_first in HC; [congruence|done]. Qed.

Lemma string2ll_spec s v : string2ll s = Some v ↔ decimal s v ∧ in_s 64 v.
Proof.
  destruct s as [|c p].
  { split; [done|]. intros ([[HC _]|(? & _ & ? & _)] & _); [by destruct HC|done]. }
  unfold string2ll. destruct ((zlen (c :: p) =? 1) && (c =? c0)) eqn:H0.
  { bool_tests. assert (p = []) as -> by (destruct p; [done|unfold zlen in *; simpl in *; lia]).
    subst c. rewrite decimal_plain by done. split.
    - intros [= <-]. repeat split; try done; [by repeat constructor|by right].
    - by intros ((_ & ->) & _). }
  assert (c :: p ≠ [c0]) as Hn by (by intros [= -> ->]).
  destruct (Z.eqb_spec c cminus) as [->|Hm].
  - rewrite decimal_minus. destruct p as [|c p].
    { split; [done|]. by intros ((HC & _) & _); destruct HC. }
    assert (zlen (cminus :: c :: p) =? 1 = false) as -> by (apply Z.eqb_neq; len).
    destruct ((c0 + 1 <=? c) && (c <=? c9)) eqn:Hc.
    + rewrite finish_spec by done. split; [|naive_solver].
      intros (HC & Hr & ->). split_and!; try done.
      pose proof (canon_pos _ HC). assert (c :: p ≠ [c0]) by (intros [= -> _]; by vm_compute in Hc).
      assert (0 < dval (c :: p)) by auto. lia.
    + rewrite andb_false_r. split; [done|]. intros ((HC & -> & Hv) & _).
      destruct (decide (c :: p = [c0])) as [[= -> ->]|Hn']; [done|].
      by apply not_canon in HC.
  - rewrite decimal_plain by done. destruct ((c0 + 1 <=? c) && (c <=? c9)) eqn:Hc.
    + rewrite finish_spec by done. naive_solver.
    + rewrite andb_comm, H0. split; [done|]. intros ((HC & _) & _). by apply not_canon in HC.
Qed.

(** ** Printing *)

(** [d] is the number of decimal digits of [v]. *)
Definition ndigits (v d : Z) : Prop :=
  1 ≤ d ≤ 20 ∧ (v < 10 ∧ d = 1 ∨ 10 ^ (d - 1) ≤ v < 10 ^ d).

Lemma digits10_small fuel v :
  0 ≤ v < 1000000000000 → ∃ d, digits10_rec (S fuel) v = Some d ∧ ndigits v d.
Proof.
  intros Hv. unfold ndigits. cbn [digits10_rec].
  repeat case_if; try (exfalso; lia); eexists; (split; [reflexivity|]); (split; [lia|]);
    ((left; lia) || (right; pow_compute; lia)).
Qed.

Lemma digits10_ndigits v : in_u 64 v → ∃ d, digits10 v = Some d ∧ ndigits v d.
Proof.
  intros Hv. unfold in_u in Hv. unfold digits10.
  destruct (decide (v < 1000000000000)) as [|Hge]; [apply digits10_small; lia|].
  destruct (digits10_small 0 (v / 1000000000000)) as (d & Hd & Hn & Hb); [divlia|].
  change (digits10_rec 2 v) with
    (if v <? 10 then Some 1 else if v <? 100 then Some 2 else if v <? 1000 then Some 3 else
     if v <? 1000000000000 then
        if v <? 100000000 then
          if v <? 1000000 then
            if v <? 10000 then Some 4
            else Some (5 + (if 100000 <=? v then 1 else 0))
          else Some (7 + (if 10000000 <=? v then 1 else 0))
        else if v <? 10000000000 then Some (9 + (if 1000000000 <=? v then 1 else 0))
        else Some (11 + (if 100000000000 <=? v then 1 else 0))
     else d ← digits10_rec 1 (v / 1000000000000); Some (u32 (12 + d))).
  destruct (Z.ltb_spec v 10), (Z.ltb_spec v 100), (Z.ltb_spec v 1000),
    (Z.ltb_spec v 1000000000000); try lia.
  rewrite Hd. cbn [mbind option_bind]. rewrite wrapu_small by (unfold in_u; lia).
  assert (v / 1000000000000 < 10 ^ 8) by divlia.
  assert (d ≤ 8).
  { destruct (decide (d ≤ 8)); [done|]. destruct Hb as [[? ->]|Hb]; [lia|].
    assert (10 ^ 8 ≤ 10 ^ (d - 1)) by (apply Z.pow_le_mono_r; lia). lia. }
  eexists. split; [done|]. split; [lia|]. right.
  replace (12 + d - 1) with (12 + (d - 1)) by lia. rewrite !Z.pow_add_r by lia.
  change (10 ^ 12) with 1000000000000.
  destruct Hb as [[? ->]|Hb]; [pow_compute; divlia|].
  split; divlia.
Qed.

Lemma digits10_spec v ds :
  in_u 64 v → canon ds → dval ds = v → digits10 v = Some (zlen ds).
Proof.
  intros Hv HC HV. destruct (digits10_ndigits v Hv) as (d & -> & Hd & Hb). f_equal.
  destruct (decide (ds = [c0])) as [->|Hn].
  { destruct Hb as [[_ ->]|Hb]; [done|]. change (dval [c0]) with 0 in HV. subst v.
    assert (0 < 10 ^ (d - 1)) by (apply Z.pow_pos_nonneg; lia). lia. }
  pose proof (canon_bounds ds HC Hn) as Hb2. rewrite HV in Hb2.
  assert (1 ≤ zlen ds) by (destruct ds; [by destruct HC|len]).
  apply (pow10_unique v); try lia. destruct Hb as [[Hlt ->]|Hb]; [|lia].
  pose proof (canon_pos ds HC Hn). pow_compute. lia.
Qed.

Lemma digits_table r :
  0 ≤ r < 100 →
  digits !! Z.to_nat (r * 2) = Some (c0 + r / 10) ∧
  digits !! Z.to_nat (r * 2 + 1) = Some (c0 + r mod 10).
Proof.
  intros Hr. assert (Forall (λ r, digits !! Z.to_nat (r * 2) = Some (c0 + r / 10) ∧
    digits !! Z.to_nat (r * 2 + 1) = Some (c0 + r mod 10)) (seqZ 0 100)) as HF by by_decision.
  rewrite Forall_forall in HF. apply HF. apply elem_of_seqZ. lia.
Qed.

Lemma put2_spec A x y C r :
  0 ≤ r < 100 → zlen A + 1 < 2 ^ 32 →
  put2 (A ++ [x; y] ++ C) (zlen A + 1) (r * 2) =
  Some (A ++ [c0 + r / 10; c0 + r mod 10] ++ C).
Proof.
  intros Hr HA. destruct (digits_table r Hr) as [H1 H2]. unfold put2.
  rewrite H2. cbn [mbind option_bind].
  replace (A ++ [x; y] ++ C) with ((A ++ [x]) ++ [y] ++ C) by by rewrite <- app_assoc.
  rewrite store_app by (try done; len). cbn [mbind option_bind]. rewrite H1.
  cbn [mbind option_bind]. rewrite wrapu_small by (unfold in_u, zlen in *; lia).
  replace (zlen A + 1 - 1) with (zlen A) by lia. rewrite <- app_assoc.
  by rewrite (store_app A [x] ([c0 + r mod 10] ++ C)).
Qed.

Lemma canon_split2 ds :
  canon ds → 100 ≤ dval ds → ∃ ds', canon ds' ∧ dval ds' = dval ds / 100 ∧
    ds = ds' ++ [c0 + dval ds mod 100 / 10; c0 + dval ds mod 100 mod 10].
Proof.
  intros HC H100. set (n := dval ds) in *. destruct (canon_exists (n / 100)) as (ds' & HC' & HV').
  { divlia. }
  exists ds'. split_and!; [done..|].
  assert (canon (ds' ++ [c0 + n mod 100 / 10])) as HC1.
  { apply canon_snoc; [done|rewrite HV'; divlia|]. apply isdigit_spec. unfold c0, c9. divlia. }
  change [?a; ?b] with ([a] ++ [b]). rewrite app_assoc.
  assert (dval (ds' ++ [c0 + n mod 100 / 10]) = n / 10) as HV1.
  { unfold dval in *. rewrite dval_snoc, HV'. divlia. }
  apply canon_inj; [done|..].
  - apply canon_snoc; [done|rewrite HV1; divlia|]. apply isdigit_spec. unfold c0, c9. divlia.
  - unfold dval in *. rewrite dval_snoc, HV1. fold n. divlia.
Qed.

Lemma canon_small ds : canon ds → dval ds < 10 → ds = [c0 + dval ds].
Proof.
  intros HC HV. pose proof (dval_nonneg ds (proj1 (proj2 HC))).
  destruct (canon_digit (dval ds)) as [HC' HV']; [lia|]. by apply canon_inj.
Qed.

Lemma canon_two ds :
  canon ds → 10 ≤ dval ds < 100 → ds = [c0 + dval ds / 10; c0 + dval ds mod 10].
Proof.
  intros HC HV. destruct (canon_digit (dval ds / 10)) as [HC' HV']; [divlia|].
  apply canon_inj; [done|..].
  - apply (canon_snoc [_]); [done|rewrite HV'; divlia|]. apply isdigit_spec. unfold c0, c9. divlia.
  - unfold dval, dval_from. simpl. fold (dval ds). fold (dval_from 0 ds).
    change (dval_from 0 ds) with (dval ds). divlia.
Qed.

Lemma put_digits_last fuel ds A B C :
  canon ds → length B = length ds → dval ds < 100 → zlen A + zlen ds < 2 ^ 32 →
  put_digits (S fuel) (A ++ B ++ C) (zlen A + zlen ds - 1) (dval ds) = Some (A ++ ds ++ C).
Proof.
  intros HC HB H100 HA. pose proof (dval_nonneg ds (proj1 (proj2 HC))) as Hnn.
  cbn [put_digits]. destruct (Z.leb_spec 100 (dval ds)); [lia|].
  rewrite (wrapu_small 32 (dval ds)) by (unfold in_u; lia).
  destruct (Z.ltb_spec (dval ds) 10).
  - rewrite wrapu_small by (unfold in_u, c0; lia). pose proof (canon_small ds HC ltac:(done)) as E.
    remember (dval ds) as v eqn:Hv. clear Hv. subst ds.
    rewrite store_app; [done|unfold zlen; simpl; lia|done].
  - pose proof (canon_two ds HC ltac:(lia)) as E. remember (dval ds) as v eqn:Hv. clear Hv. subst ds.
    destruct B as [|x [|y [|? ?]]]; try done. rewrite wraps_small by (unfold in_s; lia).
    replace (zlen A + zlen _ - 1) with (zlen A + 1) by (unfold zlen; simpl; lia).
    rewrite put2_spec by (unfold zlen in *; simpl in *; lia). done.
Qed.

Lemma put_digits_spec fuel : ∀ ds A B C,
  canon ds → length B = length ds → dval ds < 100 ^ Z.of_nat (S fuel) →
  zlen A + zlen ds < 2 ^ 32 →
  put_digits (S fuel) (A ++ B ++ C) (zlen A + zlen ds - 1) (dval ds) = Some (A ++ ds ++ C).
Proof.
  induction fuel as [|fuel IH]; intros ds A B C HC HB Hf HA.
  { apply put_digits_last; try done; lia. }
  destruct (decide (dval ds < 100)) as [|Hge]; [by apply put_digits_last|].
  change (put_digits (S (S fuel))) with (λ dst next value,
    if 100 <=? value then
      let i := i32 ((value mod 100) * 2) in
      dst ← put2 dst next i; put_digits (S fuel) dst (next -u32 2) (value / 100)
    else if value <? 10 then store dst next [u8 (c0 + u32 value)]
    else put2 dst next (i32 (u32 value * 2))).
  cbv beta zeta. destruct (Z.leb_spec 100 (dval ds)); [|lia].
  destruct (canon_split2 ds HC) as (ds' & HC' & HV' & E); [lia|].
  remember (dval ds) as v eqn:Hv. clear Hv. subst ds. autorewrite with len in HB. cbn [length] in HB.
  assert (∃ B' x y, B = B' ++ [x; y] ∧ length B' = length ds') as (B' & x & y & -> & HB').
  { destruct B as [|y B _] using rev_ind; [simpl in HB; lia|].
    destruct B as [|x B _] using rev_ind; [simpl in HB; lia|].
    exists B, x, y. autorewrite with len in HB. cbn [length] in HB. rewrite <- app_assoc.
    split; [done|lia]. }
  assert (zlen (ds' ++ [c0 + v mod 100 / 10; c0 + v mod 100 mod 10]) = zlen ds' + 2) as Hl by len.
  assert (0 < zlen ds') by (destruct ds'; [by destruct HC'|len]).
  rewrite Hl in HA |- *. rewrite wraps_small by (unfold in_s; divlia).
  replace (A ++ (B' ++ [x; y]) ++ C) with ((A ++ B') ++ [x; y] ++ C) by by rewrite !app_assoc.
  replace (zlen A + (zlen ds' + 2) - 1) with (zlen (A ++ B') + 1) by len.
  rewrite put2_spec by (divlia || len). cbn [mbind option_bind].
  rewrite wrapu_small by (unfold in_u; len).
  replace (zlen (A ++ B') + 1 - 2) with (zlen A + zlen ds' - 1) by len.
  rewrite <- app_assoc, <- HV', IH; [by rewrite <- app_assoc|done|done|..|lia].
  rewrite HV'. rewrite (Nat2Z.inj_succ (S fuel)), Z.pow_succ_r in Hf by lia. divlia.
Qed.

Lemma ll2string_spec dst dstlen v ds :
  in_s 64 v → canon ds → dval ds = Z.abs v → 0 ≤ dstlen ≤ zlen dst →
  let s := if v <? 0 then cminus :: ds else ds in
  ll2string dst dstlen v =
    if dstlen <=? zlen s then Some (dst, 0)
    else Some (s ++ 0 :: drop (S (length s)) dst, zlen s).
Proof.
  intros Hv HC HV Hd s. unfold ll2string.
  assert ((if v <? 0 then (if v =? LLONG_MIN then u64 (LLONG_MAX + 1) else u64 (- v), 1)
           else (v, 0)) = (dval ds, if v <? 0 then 1 else 0)) as ->.
  { unfold in_s in Hv. rewrite HV. destruct (Z.ltb_spec v 0); f_equal; [|lia].
    destruct (Z.eqb_spec v LLONG_MIN) as [->|]; [done|]. unfold LLONG_MIN in *.
    rewrite wrapu_small by (unfold in_u; lia). lia. }
  assert (in_u 64 (dval ds)) as Hu by (rewrite HV; unfold in_u, in_s in *; lia).
  rewrite (digits10_spec _ ds) by done. cbn [mbind option_bind].
  assert (zlen ds ≤ 20) as H20.
  { destruct (digits10_ndigits _ Hu) as (d & E & Hn & _).
    rewrite (digits10_spec _ ds) in E by done. injection E as <-. lia. }
  assert (1 ≤ zlen ds) as H1 by (destruct ds; [by destruct HC|len]).
  set (neg := if v <? 0 then 1 else 0).
  assert (0 ≤ neg ≤ 1) as Hneg by (subst neg; destruct (v <? 0); lia).
  assert (zlen ds + neg = zlen s) as Hls by (subst neg s; destruct (v <? 0); len).
  rewrite wrapu_small, Hls by (unfold in_u; subst neg; destruct (v <? 0); lia).
  destruct (Z.leb_spec dstlen (zlen s)) as [|Hlt]; [done|].
  (* the buffer: room for the sign, for the digits, and the null term *)
  set (A := take (Z.to_nat neg) dst). set (B := take (length ds) (drop (Z.to_nat neg) dst)).
  assert (dst = A ++ B ++ drop (length s) dst) as Hdst.
  { rewrite <- (take_drop (Z.to_nat neg) dst) at 1. f_equal.
    rewrite <- (take_drop (length ds) (drop (Z.to_nat neg) dst)) at 1. f_equal.
    rewrite drop_drop. f_equal. subst neg. unfold zlen in *. destruct (v <? 0); lia. }
  assert (zlen A = neg) as LA.
  { subst A neg. unfold zlen in *. autorewrite with len. destruct (v <? 0); lia. }
  assert (length B = length ds) as LB.
  { subst B neg. unfold zlen in *. autorewrite with len. destruct (v <? 0); lia. }
  destruct (drop (length s) dst) as [|x T] eqn:ET.
  { apply (f_equal length) in ET. rewrite length_drop in ET. unfold zlen in *. simpl in ET. lia. }
  assert (drop (S (length s)) dst = T) as ->.
  { change (S (length s)) with (1 + length s)%nat. rewrite Nat.add_comm, <- drop_drop, ET. done. }
  rewrite Hdst, app_assoc. change (x :: T) with ([x] ++ T).
  rewrite store_app; [|unfold zlen in *; autorewrite with len; lia|done].
  cbn [mbind option_bind]. rewrite wrapu_small by (unfold in_u; unfold zlen in *; lia).
  replace (zlen s - 1) with (zlen A + zlen ds - 1) by lia. rewrite <- app_assoc.
  rewrite (put_digits_spec 19); [|done|done|unfold in_u in *; pow_compute; lia|lia].
  cbn [mbind option_bind]. rewrite wraps_small by (unfold in_s; lia).
  clearbody A. subst s neg. destruct (v <? 0); simpl (_ =? _).
  - change (A ++ ?m) with ([] ++ A ++ m). rewrite (store_app [] A) by (done || unfold zlen in *; simpl; lia). done.
  - destruct A; [done|unfold zlen in LA; simpl in LA; lia].
Qed.

(** ** Properties *)

(** [string2ll] accepts exactly the canonical decimal strings (an optional
    minus sign, digits without a leading zero, no "-0", nothing else) of the
    integers of type [long long], and returns the integer; in particular it
    rejects every overflowing string. *)
Theorem string2ll_correct s v : string2ll s = Some v ↔ decimal s v ∧ in_s 64 v.
Proof. apply string2ll_spec. Qed.

(** [ll2string] on any [long long] and any buffer of at least [dstlen]
    bytes stays inside the buffer; it writes the decimal string of the value
    followed by a null byte, leaves the rest of the buffer alone and returns
    the length, or returns 0 with the buffer unchanged when the string and its
    null term need more than [dstlen] bytes. *)
Theorem ll2string_correct dst dstlen v :
  in_s 64 v → 0 ≤ dstlen ≤ zlen dst →
  ∃ s, decimal s v ∧
    ll2string dst dstlen v =
      if dstlen <=? zlen s then Some (dst, 0)
      else Some (s ++ 0 :: drop (S (length s)) dst, zlen s).
Proof.
  intros Hv Hd. destruct (canon_exists (Z.abs v)) as (ds & HC & HV); [lia|].
  exists (if v <? 0 then cminus :: ds else ds). split; [|by apply ll2string_spec].
  destruct (Z.ltb_spec v 0); [right; exists ds; split_and!; try done; lia|].
  left. split; [done|lia].
Qed.

Lemma ll2string_correct_witness :
  ∃ s, decimal s (-120) ∧
    ll2string (replicate 8 7) 8 (-120) =
      if 8 <=? zlen s then Some (replicate 8 7, 0)
      else Some (s ++ 0 :: drop (S (length s)) (replicate 8 7), zlen s).
Proof.
  apply (ll2string_correct (replicate 8 7) 8 (-120)); [|vm_compute; split; discriminate].
  vm_compute. split; [discriminate|reflexivity].
Defined.

(** Round trip: with room for 21 bytes, parsing the bytes printed by
    [ll2string] gives back the integer, for every [long long]. *)
Theorem ll2string_string2ll dst dstlen v :
  in_s 64 v → 21 ≤ dstlen ≤ zlen dst →
  ∃ dst' len, ll2string dst dstlen v = Some (dst', len) ∧
    string2ll (take (Z.to_nat len) dst') = Some v.
Proof.
  intros Hv Hd. destruct (canon_exists (Z.abs v)) as (ds & HC & HV); [lia|].
  pose proof (ll2string_spec dst dstlen v ds Hv HC HV ltac:(lia)) as HP. cbv zeta in HP.
  set (s := if v <? 0 then cminus :: ds else ds) in *.
  assert (zlen s ≤ 20) as Hlen.
  { assert (in_u 64 (dval ds)) as Hu by (rewrite HV; unfold in_u, in_s in *; lia).
    destruct (digits10_ndigits _ Hu) as (d & E & Hn & Hb).
    rewrite (digits10_spec _ ds) in E by done. injection E as E.
    assert (zlen s ≤ zlen ds + 1) by (subst s; destruct (v <? 0); len).
    destruct (decide (zlen ds ≤ 19)) as [|Hgt]; [lia|].
    replace d with 20 in Hb by lia. unfold in_s in Hv. pow_compute. lia. }
  destruct (Z.leb_spec dstlen (zlen s)); [lia|]. do 2 eexists. split; [exact HP|].
  unfold zlen. rewrite Nat2Z.id, take_app_length. apply string2ll_spec. split; [|done].
  subst s. destruct (Z.ltb_spec v 0); [right; exists ds; split_and!; try done; lia|].
  left. split; [done|lia].
Qed.

Lemma ll2string_string2ll_witness :
  ∃ dst' len, ll2string (replicate 21 0) 21 (-9223372036854775808) = Some (dst', len) ∧
    string2ll (take (Z.to_nat len) dst') = Some (-9223372036854775808).
Proof.
  apply (ll2string_string2ll (replicate 21 0) 21 (-9223372036854775808)).
  - vm_compute. split; [discriminate|reflexivity].
  - vm_compute. split; discriminate.
Defined.
