(* ===== verification/Objects.v ===== *)
(** * Objects: string objects and their comparison (redis-3.0.0/src/object.c)

    A string object holds its bytes, or a [long] in place of the pointer; the
    functions of object.c see the decimal string of the integer.  [memcmp] is
    the one of the C library: a parameter of which only the sign of the result
    is known. *)

From S2P Require Import Prelude NumConv.

(** ** The model *)

(** A string object: raw or embedded bytes, or a [long] in the pointer. *)
Inductive enc_obj := ObjStr (s : list Z) | ObjInt (v : Z).
#[global] Instance enc_obj_eq_dec : EqDecision enc_obj.
Proof. solve_decision. Defined.

(** The C string in a buffer: the bytes before the first null byte. *)
Fixpoint cstr (m : list Z) : option (list Z) :=
  match m with
  | [] => None
  | c :: m => if c =? 0 then Some [] else cons c <$> cstr m
  end.

(** [char buf[32]], whose bytes are indeterminate, is an argument. *)
Definition getDecodedObject (buf : list Z) (o : enc_obj) : option (list Z) :=
  match o with
  | ObjStr s => Some s
  | ObjInt v => '(buf, _) ← ll2string buf 32 v; cstr buf
  end.

(** The bytes [astr], [alen] that [compareStringObjectsWithFlags] compares;
    [buf] is [char bufa[128]]. *)
Definition object_bytes (buf : list Z) (o : enc_obj) : option (list Z) :=
  match o with
  | ObjStr s => Some s
  | ObjInt v => '(buf, alen) ← ll2string buf 128 v; load buf 0 alen
  end.

(** [memcmp] on blocks of one size, and the order it computes: the first
    different bytes decide. *)
Fixpoint lexcmp (a b : list Z) : comparison :=
  match a, b with
  | [], [] => Eq
  | [], _ :: _ => Lt
  | _ :: _, [] => Gt
  | c :: a, d :: b => match c ?= d with Eq => lexcmp a b | r => r end
  end.

Class Memcmp (memcmp : list Z → list Z → Z) := {
  memcmp_sign : ∀ a b, length a = length b → (memcmp a b ?= 0) = lexcmp a b
}.

Section compare.
Context (memcmp : list Z → list Z → Z) (buf : list Z).

(** With [REDIS_COMPARE_BINARY].  The test [a == b] on the pointers only saves
    the comparison of an object with itself. *)
Definition compareStringObjects (a b : enc_obj) : option Z :=
  astr ← object_bytes buf a;
  bstr ← object_bytes buf b;
  let minlen := if zlen astr <? zlen bstr then zlen astr else zlen bstr in
  let cmp := memcmp (take (Z.to_nat minlen) astr) (take (Z.to_nat minlen) bstr) in
  Some (if cmp =? 0 then i32 (u64 (zlen astr - zlen bstr)) else cmp).

Definition equalStringObjects (a b : enc_obj) : option bool :=
  match a, b with
  | ObjInt v, ObjInt w => Some (v =? w)
  | _, _ => c ← compareStringObjects a b; Some (c =? 0)
  end.

End compare.

Definition stringObjectLen (buf : list Z) (o : enc_obj) : option Z :=
  match o with
  | ObjStr s => Some (zlen s)
  | ObjInt v => '(_, n) ← ll2string buf 32 v; Some n
  end.

(** [tryObjectEncoding] of a string: integers are encoded. *)
Definition tryObjectEncoding (s : list Z) : enc_obj :=
  if zlen s <=? 21 then match string2l s with Some v => ObjInt v | None => ObjStr s end else ObjStr s.

(** ** Integer objects *)

(** The integers are [long]s and the strings have at most 512 MB. *)
Definition obj_ok (o : enc_obj) : Prop :=
  match o with ObjStr s => zlen s ≤ 512 * 1024 * 1024 | ObjInt v => in_s 64 v end.

#[global] Instance obj_ok_dec o : Decision (obj_ok o).
Proof. destruct o; cbn; apply _. Defined.

(** The string an object stands for. *)
Definition obj_bytes (o : enc_obj) (s : list Z) : Prop :=
  match o with ObjStr s' => s = s' | ObjInt v => decimal s v end.
Definition obj_string (o : enc_obj) : list Z := default [] (getDecodedObject (replicate 32 0) o).

Lemma decimal_nonzero s v : decimal s v → Forall (λ c, c =? 0 = false) s.
Proof.
  assert (∀ ds, canon ds → Forall (λ c, c =? 0 = false) ds) as Hc.
  { intros ds (_ & HD & _). eapply Forall_impl; [exact HD|]. intros c Hc%isdigit_spec.
    unfold c0 in Hc. apply Z.eqb_neq. lia. }
  intros [[HC _]|(ds & HC & -> & _)]; [by apply Hc|]. constructor; [done|by apply Hc].
Qed.

Lemma cstr_app s m : Forall (λ c, c =? 0 = false) s → cstr (s ++ 0 :: m) = Some s.
Proof. induction 1 as [|c s Hc _ IH]; [done|]. cbn. by rewrite Hc, IH. Qed.

Lemma decimal_inj s v1 v2 : in_s 64 v1 → in_s 64 v2 → decimal s v1 → decimal s v2 → v1 = v2.
Proof.
  intros H1 H2 D1 D2. assert (string2ll s = Some v1 ∧ string2ll s = Some v2) as [E1 E2].
  { split; by apply string2ll_spec. }
  congruence.
Qed.

(** A buffer of 32 bytes has room for every [long]. *)
Lemma ll2string_room buf n v :
  in_s 64 v → 32 ≤ n ≤ zlen buf →
  ∃ s, decimal s v ∧ zlen s < 32 ∧ ll2string buf n v = Some (s ++ 0 :: drop (S (length s)) buf, zlen s).
Proof.
  intros Hv Hb. destruct (canon_exists (Z.abs v)) as (ds & HC & HV); [lia|].
  assert (zlen ds < 30) as Hl.
  { destruct (decide (ds = [c0])) as [->|Hn]; [done|]. pose proof (canon_bounds ds HC Hn) as Hbd.
    unfold in_s in Hv. assert (10 ^ (zlen ds - 1) < 10 ^ 20) as Hp by (pow_compute; lia).
    apply Z.pow_lt_mono_r_iff in Hp; lia. }
  exists (if v <? 0 then cminus :: ds else ds). split.
  { destruct (Z.ltb_spec v 0); [right; exists ds; split_and!; try done; lia|].
    left. split; [done|lia]. }
  assert (zlen (if v <? 0 then cminus :: ds else ds) < 32) as Hs by (destruct (v <? 0); len).
  split; [done|]. rewrite (ll2string_spec buf n v ds) by (done || lia).
  by destruct (Z.leb_spec n (zlen (if v <? 0 then cminus :: ds else ds))); [lia|].
Qed.

Lemma getDecodedObject_spec buf o :
  obj_ok o → zlen buf = 32 → ∃ s, getDecodedObject buf o = Some s ∧ obj_bytes o s.
Proof.
  intros Ho Hb. destruct o as [s|v]; [by exists s|].
  destruct (ll2string_room buf 32 v Ho ltac:(lia)) as (s & Hd & _ & Hr). exists s. cbn. rewrite Hr. cbn.
  split; [|done]. by eapply cstr_app, decimal_nonzero.
Qed.

(** ** The order of strings *)

Lemma lexcmp_refl a : lexcmp a a = Eq.
Proof. induction a as [|c a IH]; [done|]. cbn. by rewrite Z.compare_refl. Qed.
Lemma lexcmp_eq a b : lexcmp a b = Eq ↔ a = b.
Proof.
  split; [|intros ->; apply lexcmp_refl]. revert b.
  induction a as [|c a IH]; intros [|d b]; [done..|]. cbn.
  destruct (Z.compare_spec c d) as [-> | |]; [|done..]. intros H. f_equal. by apply IH.
Qed.
Lemma lexcmp_antisym a b : lexcmp b a = CompOpp (lexcmp a b).
Proof.
  revert b. induction a as [|c a IH]; intros [|d b]; [done..|]. cbn.
  rewrite (Z.compare_antisym c d). destruct (c ?= d); [apply IH|done..].
Qed.
Lemma lexcmp_lt_trans a b c : lexcmp a b = Lt → lexcmp b c = Lt → lexcmp a c = Lt.
Proof.
  revert b c. induction a as [|x a IH]; intros [|y b] [|z c]; try done. cbn.
  destruct (Z.compare_spec x y) as [-> |Hxy|]; try done;
    destruct (Z.compare_spec y z) as [-> |Hyz|]; try done; cbn.
  - apply IH.
  - intros _ _. destruct (Z.compare_spec x z); [lia|done|lia].
  - intros _ _. destruct (Z.compare_spec x z); [lia|done|lia].
Qed.

(** Comparing the common prefix and then the lengths. *)
Lemma lexcmp_prefix a b :
  lexcmp a b =
    match lexcmp (take (length a `min` length b) a) (take (length a `min` length b) b) with
    | Eq => (zlen a ?= zlen b)
    | r => r
    end.
Proof.
  revert b. induction a as [|c a IH]; intros [|d b]; try done.
  cbn [length Nat.min take lexcmp]. destruct (c ?= d); [|done..]. rewrite IH.
  destruct (lexcmp _ _); [|done..]. unfold zlen. cbn [length]. rewrite !Nat2Z.inj_succ.
  destruct (Z.compare_spec (Z.of_nat (length a)) (Z.of_nat (length b)));
    destruct (Z.compare_spec (Z.succ (Z.of_nat (length a))) (Z.succ (Z.of_nat (length b)))); done || lia.
Qed.

Lemma obj_string_decimal v : in_s 64 v → decimal (obj_string (ObjInt v)) v.
Proof.
  intros Hv. destruct (getDecodedObject_spec (replicate 32 0) (ObjInt v) Hv eq_refl) as (s & Hs & Hd).
  unfold obj_string. by rewrite Hs.
Qed.

Lemma decimal_unique s1 s2 v : decimal s1 v → decimal s2 v → s1 = s2.
Proof.
  intros [[H1 V1]|(d1 & H1 & -> & V1 & N1)] [[H2 V2]|(d2 & H2 & -> & V2 & N2)].
  - apply canon_inj; [done..|]. congruence.
  - pose proof (dval_nonneg s1 (proj1 (proj2 H1))). pose proof (dval_nonneg d2 (proj1 (proj2 H2))). lia.
  - pose proof (dval_nonneg s2 (proj1 (proj2 H2))). pose proof (dval_nonneg d1 (proj1 (proj2 H1))). lia.
  - f_equal. apply canon_inj; [done..|lia].
Qed.

Lemma object_bytes_spec buf o :
  obj_ok o → 128 ≤ zlen buf → object_bytes buf o = Some (obj_string o) ∧ zlen (obj_string o) ≤ 512 * 1024 * 1024.
Proof.
  intros Ho Hb. destruct o as [s|v]; [done|]. cbn [object_bytes].
  destruct (ll2string_room buf 128 v Ho ltac:(lia)) as (s & Hd & Hs & ->). cbn [mbind option_bind].
  rewrite (decimal_unique (obj_string (ObjInt v)) s v) by (done || by apply obj_string_decimal).
  split; [|lia]. exact (load_app [] s _ 0 (zlen s) eq_refl eq_refl).
Qed.

Section compare_spec.
Context (memcmp : list Z → list Z → Z) `{!Memcmp memcmp} (buf : list Z).
Context (Hbuf : 128 ≤ zlen buf).

Lemma compareStringObjects_spec a b :
  obj_ok a → obj_ok b →
  ∃ c, compareStringObjects memcmp buf a b = Some c ∧ (c ?= 0) = lexcmp (obj_string a) (obj_string b).
Proof using All.
  intros Ha Hb. unfold compareStringObjects.
  destruct (object_bytes_spec buf a Ha Hbuf) as [-> La]. destruct (object_bytes_spec buf b Hb Hbuf) as [-> Lb].
  cbn [mbind option_bind]. eexists. split; [done|]. set (x := obj_string a) in *. set (y := obj_string b) in *.
  assert (Z.to_nat (if zlen x <? zlen y then zlen x else zlen y) = (length x `min` length y)%nat) as ->.
  { destruct (Z.ltb_spec (zlen x) (zlen y)); unfold zlen in *; lia. }
  rewrite (lexcmp_prefix x y). set (n := (length x `min` length y)%nat).
  rewrite <- (memcmp_sign (take n x) (take n y)) by (rewrite !length_take; lia).
  destruct (Z.eqb_spec (memcmp (take n x) (take n y)) 0) as [-> |Hn].
  - cbn. rewrite wraps_wrapu_le by lia. rewrite wraps_small by (unfold in_s, zlen in *; lia).
    destruct (Z.compare_spec (zlen x - zlen y) 0); destruct (Z.compare_spec (zlen x) (zlen y)); (done || lia).
  - by destruct (Z.compare_spec (memcmp (take n x) (take n y)) 0).
Qed.

Lemma equalStringObjects_spec a b :
  obj_ok a → obj_ok b →
  equalStringObjects memcmp buf a b = Some (bool_decide (obj_string a = obj_string b)).
Proof using All.
  intros Ha Hb.
  assert ((c ← compareStringObjects memcmp buf a b; Some (c =? 0)) =
    Some (bool_decide (obj_string a = obj_string b))) as Hc.
  { destruct (compareStringObjects_spec a b Ha Hb) as (c & -> & Hs). cbn. f_equal.
    destruct (Z.eqb_spec c 0) as [-> |Hn].
    - cbn in Hs. symmetry in Hs. apply lexcmp_eq in Hs. by rewrite bool_decide_true.
    - rewrite bool_decide_false; [done|]. intros E. rewrite E, lexcmp_refl in Hs.
      by apply Z.compare_eq in Hs. }
  destruct a as [s|v], b as [t|w]; [done..|]. cbn [equalStringObjects]. f_equal.
  destruct (Z.eqb_spec v w) as [-> |Hn]; [by rewrite bool_decide_true|].
  rewrite bool_decide_false; [done|]. intros E. apply Hn, (decimal_inj (obj_string (ObjInt v))); [done..| |].
  - by apply obj_string_decimal.
  - rewrite E. by apply obj_string_decimal.
Qed.

End compare_spec.
