(* ===== verification/Sds.v ===== *)
(** * Sds: dynamic strings (redis-3.0.0/src/sds.c, sds.h)

    A string is its header ([len] and [free], [unsigned int]) and the bytes of
    [buf], the null term and the free space included.  [junk] gives the
    indeterminate bytes of a reallocation.  [None]: an access outside of the
    buffer, a failed assertion or undefined behaviour.  [zmalloc] aborts the
    process rather than return NULL, so the NULL branches after it have no
    counterpart. *)

From S2P Require Import Prelude Objects.

Definition SDS_MAX_PREALLOC : Z := 1024 * 1024.

Record sdshdr := mkSds { slen : Z; sfree : Z; sbuf : list Z }.

Definition sdslen (s : sdshdr) : Z := slen s.
Definition sdsavail (s : sdshdr) : Z := sfree s.

(** [init]: NULL or [initlen] readable bytes. *)
Definition sdsnewlen (init : option (list Z)) (initlen : Z) : option sdshdr :=
  match init with
  | Some t => bs ← load t 0 initlen; Some (mkSds (u32 initlen) 0 (bs ++ [0]))
  | None => Some (mkSds (u32 initlen) 0 (replicate (Z.to_nat (initlen + 1)) 0))
  end.
Definition sdsempty : option sdshdr := sdsnewlen (Some []) 0.
(** [t]: the bytes of a C string, without the null term. *)
Definition sdsnew (t : option (list Z)) : option sdshdr :=
  match t with None => sdsnewlen None 0 | Some t => sdsnewlen (Some t) (zlen t) end.
Definition sdsdup (s : sdshdr) : option sdshdr := sdsnewlen (Some (sbuf s)) (sdslen s).

(** [strlen] of the buffer *)
Definition sdsupdatelen (s : sdshdr) : option sdshdr :=
  c ← cstr (sbuf s);
  let reallen := i32 (zlen c) in
  Some (mkSds (u32 reallen) (u32 (sfree s + (slen s - reallen))) (sbuf s)).

Definition sdsclear (s : sdshdr) : option sdshdr :=
  buf ← store (sbuf s) 0 [0]; Some (mkSds 0 (u32 (sfree s + slen s)) buf).

Section sds.
Context (junk : nat → Z).

Definition sdsMakeRoomFor (s : sdshdr) (addlen : Z) : sdshdr :=
  if addlen <=? sdsavail s then s else
  let len := sdslen s in
  let newlen := u64 (len + addlen) in
  let newlen := if newlen <? SDS_MAX_PREALLOC then u64 (newlen * 2) else u64 (newlen + SDS_MAX_PREALLOC) in
  mkSds (slen s) (u32 (newlen - len)) (realloc junk (sbuf s) (newlen + 1)).

Definition sdsRemoveFreeSpace (s : sdshdr) : sdshdr :=
  mkSds (slen s) 0 (realloc junk (sbuf s) (slen s + 1)).

(** [sizeof( *sh)] is 8. *)
Definition sdsAllocSize (s : sdshdr) : Z := u64 (8 + slen s + sfree s + 1).

Definition sdsIncrLen (s : sdshdr) (incr : Z) : option sdshdr :=
  if (if 0 <=? incr then incr <=? sfree s else u32 (- incr) <=? slen s) then
    let len := u32 (slen s + incr) in
    buf ← store (sbuf s) len [0];
    Some (mkSds len (u32 (sfree s - incr)) buf)
  else None.

Definition sdsgrowzero (s : sdshdr) (len : Z) : option sdshdr :=
  let curlen := slen s in
  if len <=? curlen then Some s else
  let s := sdsMakeRoomFor s (len - curlen) in
  buf ← store (sbuf s) curlen (replicate (Z.to_nat (len - curlen + 1)) 0);
  let totlen := u32 (slen s + sfree s) in
  let len := u32 len in
  Some (mkSds len (u32 (totlen - len)) buf).

Definition sdscatlen (s : sdshdr) (t : list Z) : option sdshdr :=
  let len := zlen t in
  let curlen := sdslen s in
  let s := sdsMakeRoomFor s len in
  buf ← store (sbuf s) curlen t;
  buf ← store buf (curlen + len) [0];
  Some (mkSds (u32 (curlen + len)) (u32 (sfree s - len)) buf).
Definition sdscat (s : sdshdr) (t : list Z) : option sdshdr := sdscatlen s t.
Definition sdscatsds (s t : sdshdr) : option sdshdr := t ← load (sbuf t) 0 (sdslen t); sdscatlen s t.

Definition sdscpylen (s : sdshdr) (t : list Z) : option sdshdr :=
  let len := zlen t in
  let totlen := u32 (sfree s + slen s) in
  let '(s, totlen) :=
    if totlen <? len then let s := sdsMakeRoomFor s (u64 (len - slen s)) in (s, u32 (sfree s + slen s))
    else (s, totlen) in
  buf ← store (sbuf s) 0 t;
  buf ← store buf len [0];
  Some (mkSds (u32 len) (u32 (totlen - len)) buf).
Definition sdscpy (s : sdshdr) (t : list Z) : option sdshdr := sdscpylen s t.

(** [strchr(cset, c)]: the null term of [cset] is found as well. *)
Definition strchr (cset : list Z) (c : Z) : bool := bool_decide (c ∈ cset) || (c =? 0).

(** [while(sp <= end && strchr(cset, *sp)) sp++] *)
Fixpoint trim_left (fuel : nat) (buf cset : list Z) (sp end_ : Z) : option Z :=
  match fuel with
  | O => None
  | S fuel =>
      if sp <=? end_ then
        c ← get8 buf sp; if strchr cset c then trim_left fuel buf cset (sp + 1) end_ else Some sp
      else Some sp
  end.
(** [while(ep > start && strchr(cset, *ep)) ep--] *)
Fixpoint trim_right (fuel : nat) (buf cset : list Z) (ep : Z) : option Z :=
  match fuel with
  | O => None
  | S fuel =>
      if 0 <? ep then
        c ← get8 buf ep; if strchr cset c then trim_right fuel buf cset (ep - 1) else Some ep
      else Some ep
  end.

Definition sdstrim (s : sdshdr) (cset : list Z) : option sdshdr :=
  let end_ := sdslen s - 1 in
  sp ← trim_left (S (length (sbuf s))) (sbuf s) cset 0 end_;
  ep ← trim_right (S (length (sbuf s))) (sbuf s) cset end_;
  let len := if ep <? sp then 0 else ep - sp + 1 in
  buf ← (if negb (sp =? 0) then memmove (sbuf s) 0 sp len else Some (sbuf s));
  buf ← store buf len [0];
  Some (mkSds (u32 len) (u32 (sfree s + (slen s - len))) buf).

(** [start] and [end_] are of type [int]; [(end-start)+1] may overflow. *)
Definition sdsrange (s : sdshdr) (start end_ : Z) : option sdshdr :=
  let len := sdslen s in
  if len =? 0 then Some s else
  let start := if start <? 0 then let start := i32 (u64 (len + start)) in if start <? 0 then 0 else start else start in
  let end_ := if end_ <? 0 then let end_ := i32 (u64 (len + end_)) in if end_ <? 0 then 0 else end_ else end_ in
  if end_ - start =? 2 ^ 31 - 1 then None else
  let newlen := if end_ <? start then 0 else end_ - start + 1 in
  let '(start, newlen) :=
    if negb (newlen =? 0) then
      if i32 len <=? start then (start, 0)
      else if i32 len <=? end_ then
        let end_ := i32 (u64 (len - 1)) in (start, if end_ <? start then 0 else end_ - start + 1)
      else (start, newlen)
    else (0, newlen) in
  buf ← (if negb (start =? 0) && negb (newlen =? 0) then memmove (sbuf s) 0 start newlen else Some (sbuf s));
  buf ← store buf newlen [0];
  Some (mkSds (u32 newlen) (u32 (sfree s + (slen s - newlen))) buf).

(** [for (j = 0; j < len; j++) s[j] = f(s[j])] *)
Fixpoint map_loop (f : Z → Z) (n : nat) (buf : list Z) (j : Z) : option (list Z) :=
  match n with
  | O => Some buf
  | S n => c ← get8 buf j; buf ← put8 buf j (f c); map_loop f n buf (j + 1)
  end.
Definition tolower (c : Z) : Z := if (65 <=? c) && (c <=? 90) then c + 32 else c.
Definition toupper (c : Z) : Z := if (97 <=? c) && (c <=? 122) then c - 32 else c.
Definition sdstolower (s : sdshdr) : option sdshdr :=
  buf ← map_loop tolower (Z.to_nat (i32 (sdslen s))) (sbuf s) 0; Some (mkSds (slen s) (sfree s) buf).
Definition sdstoupper (s : sdshdr) : option sdshdr :=
  buf ← map_loop toupper (Z.to_nat (i32 (sdslen s))) (sbuf s) 0; Some (mkSds (slen s) (sfree s) buf).

(** The character [c] becomes: the first [from[i]] equal to it gives [to[i]]. *)
Fixpoint map_char (from to : list Z) (c : Z) : Z :=
  match from, to with
  | f :: from, t :: to => if c =? f then t else map_char from to c
  | _, _ => c
  end.
Definition sdsmapchars (s : sdshdr) (from to : list Z) : option sdshdr :=
  buf ← map_loop (map_char from to) (Z.to_nat (sdslen s)) (sbuf s) 0; Some (mkSds (slen s) (sfree s) buf).

(** [l1-l2] converted from [size_t] to [int] *)
Definition sdscmp (memcmp : list Z → list Z → Z) (s1 s2 : sdshdr) : option Z :=
  let l1 := sdslen s1 in
  let l2 := sdslen s2 in
  let minlen := if l1 <? l2 then l1 else l2 in
  a ← load (sbuf s1) 0 minlen; b ← load (sbuf s2) 0 minlen;
  let cmp := memcmp a b in
  Some (if cmp =? 0 then i32 (u64 (l1 - l2)) else cmp).

(** [sdsjoin]: the array is not empty at [j], the index of its first string. *)
Fixpoint join_loop (join : sdshdr) (argv : list (list Z)) (sep : list Z) : option sdshdr :=
  match argv with
  | [] => Some join
  | a :: argv =>
      join ← sdscat join a;
      join ← (match argv with [] => Some join | _ => sdscat join sep end);
      join_loop join argv sep
  end.
Definition sdsjoin (argv : list (list Z)) (sep : list Z) : option sdshdr :=
  join ← sdsempty; join_loop join argv sep.

End sds.

(** ** The invariant

    [s] holds the string [b]: the null term follows it, and [free] bytes of the
    buffer are not used. *)

Record sds_rep (s : sdshdr) (b : list Z) : Prop := {
  sr_len : slen s = zlen b;
  sr_buf : ∃ rest, sbuf s = b ++ 0 :: rest ∧ sfree s = zlen rest;
  sr_bytes : bytes_ok b;
  sr_bound : slen s + sfree s < 2 ^ 32
}.

Lemma sds_rep_intro b rest :
  bytes_ok b → zlen b + zlen rest < 2 ^ 32 → sds_rep (mkSds (zlen b) (zlen rest) (b ++ 0 :: rest)) b.
Proof. intros Hb Hl. split; [done|by exists rest|done|done]. Qed.

(** A header made of the length and what is left of the buffer. *)
Lemma sds_rep_make n f b rest buf :
  buf = b ++ 0 :: rest → n = zlen b → f = zlen rest → bytes_ok b → zlen b + zlen rest < 2 ^ 32 → sds_rep (mkSds n f buf) b.
Proof. intros -> -> -> Hb Hl. by apply sds_rep_intro. Qed.

Lemma sds_facts s b : sds_rep s b →
  ∃ rest, s = mkSds (zlen b) (zlen rest) (b ++ 0 :: rest) ∧ bytes_ok b ∧ zlen b + zlen rest < 2 ^ 32 ∧ 0 ≤ zlen b ∧ 0 ≤ zlen rest.
Proof.
  intros [Hl (rest & Hbuf & Hf) Hb Hbd]. exists rest. destruct s as [l f buf]. cbn in *. subst.
  pose proof (zlen_nonneg b). pose proof (zlen_nonneg rest). repeat split; try done; lia.
Qed.

Lemma sdsnewlen_spec t n : bytes_ok t → 0 ≤ n ≤ zlen t → n < 2 ^ 32 →
  ∃ s, sdsnewlen (Some t) n = Some s ∧ sds_rep s (take (Z.to_nat n) t).
Proof.
  intros Ht Hn Hb. unfold sdsnewlen, load. rewrite bool_decide_true by lia. cbn [mbind option_bind]. eexists. split; [done|].
  change (Z.to_nat 0) with 0%nat. rewrite drop_0, wrapu_small by (unfold in_u; lia).
  assert (zlen (take (Z.to_nat n) t) = n) as Hl by (unfold zlen in *; rewrite length_take; lia).
  apply (sds_rep_make _ _ _ []); [done|done|done|by apply Forall_take|rewrite Hl; change (zlen (@nil Z)) with 0; lia].
Qed.

Section facts.
Context (junk : nat → Z).

(** [sdsMakeRoomFor] keeps the bytes in use, whatever follows them, and leaves
    room for [addlen] bytes. *)
Lemma sdsMakeRoomFor_shape b x rest addlen :
  0 ≤ addlen → zlen b + addlen + SDS_MAX_PREALLOC < 2 ^ 32 → zlen b + zlen rest < 2 ^ 32 →
  ∃ rest', sdsMakeRoomFor junk (mkSds (zlen b) (zlen rest) (b ++ x :: rest)) addlen = mkSds (zlen b) (zlen rest') (b ++ x :: rest') ∧
    addlen ≤ zlen rest' ∧ zlen b + zlen rest' < 2 ^ 32.
Proof.
  intros Ha Hb Hbd. pose proof (zlen_nonneg b). unfold sdsMakeRoomFor. cbn [sdsavail sdslen slen sfree sbuf].
  unfold SDS_MAX_PREALLOC in *. destruct (Z.leb_spec addlen (zlen rest)) as [Hle|Hgt]; [by exists rest|].
  rewrite (wrapu_small 64 (zlen b + addlen)) by (unfold in_u; lia).
  set (n := if zlen b + addlen <? 1024 * 1024 then u64 ((zlen b + addlen) * 2) else u64 (zlen b + addlen + 1024 * 1024)).
  assert (zlen b + addlen ≤ n < 2 ^ 32) as Hn.
  { subst n. case_if; rewrite wrapu_small by (unfold in_u; lia); lia. }
  clearbody n. rewrite wrapu_small by (unfold in_u; lia).
  exists (rest ++ (junk <$> seq (length (b ++ x :: rest)) (Z.to_nat (n + 1) - length (b ++ x :: rest)))).
  set (R := rest ++ _). assert (zlen R = n - zlen b) as HR by (subst R; len). rewrite HR. split; [|lia].
  f_equal. unfold realloc. rewrite take_ge by len. unfold R. by rewrite <- app_assoc.
Qed.

Lemma sdsMakeRoomFor_spec s b addlen :
  sds_rep s b → 0 ≤ addlen → zlen b + addlen + SDS_MAX_PREALLOC < 2 ^ 32 →
  sds_rep (sdsMakeRoomFor junk s addlen) b ∧ addlen ≤ sfree (sdsMakeRoomFor junk s addlen).
Proof.
  intros Hs Ha Hb. destruct (sds_facts s b Hs) as (rest & -> & Hby & Hbd & H0 & H1).
  destruct (sdsMakeRoomFor_shape b 0 rest addlen Ha Hb Hbd) as (rest' & -> & Hr & Hbd'). split; [by apply sds_rep_intro|done].
Qed.

Lemma sdscatlen_spec s b t :
  sds_rep s b → bytes_ok t → zlen b + zlen t + SDS_MAX_PREALLOC < 2 ^ 32 →
  ∃ s', sdscatlen junk s t = Some s' ∧ sds_rep s' (b ++ t).
Proof.
  intros Hs Ht Hb. pose proof (zlen_nonneg t) as Ht0. pose proof (sr_len _ _ Hs) as El.
  destruct (sdsMakeRoomFor_spec s b (zlen t) Hs Ht0 Hb) as [Hs' Hr]. unfold sdscatlen, sdslen. rewrite El.
  destruct (sds_facts _ b Hs') as (rest & E & Hby & Hbd & H0 & H1). rewrite E in *. cbn [sbuf sfree slen] in *.
  unfold SDS_MAX_PREALLOC in *.
  destruct (cut_at (0 :: rest) (zlen t)) as (R1 & R2 & ER & HR1 & HR2); [len|].
  assert (∃ x rest', R2 = x :: rest' ∧ zlen rest' = zlen rest - zlen t) as (x & rest' & -> & Hrest').
  { destruct R2 as [|x rest']; [revert HR2; len|]. exists x, rest'. split; [done|]. revert HR2. len. }
  rewrite ER, store_app by (unfold zlen in *; lia). cbn [mbind option_bind].
  rewrite app_assoc. change (x :: rest') with ([x] ++ rest'). rewrite store_app by (rewrite ?zlen_app; done). cbn [mbind option_bind].
  rewrite !wrapu_small by (unfold in_u; lia). eexists. split; [done|].
  apply (sds_rep_make _ _ _ rest'); [done|by rewrite zlen_app|lia|by apply Forall_app|rewrite zlen_app; lia].
Qed.

Lemma sdscpylen_spec s b t :
  sds_rep s b → bytes_ok t → zlen b + zlen t + SDS_MAX_PREALLOC < 2 ^ 32 →
  ∃ s', sdscpylen junk s t = Some s' ∧ sds_rep s' t.
Proof.
  intros Hs Ht Hb. pose proof (zlen_nonneg t) as Ht0. pose proof (sr_len _ _ Hs) as El.
  destruct (sds_facts _ b Hs) as (rest0 & E0 & Hby & Hbd0 & H0 & H1). unfold SDS_MAX_PREALLOC in *.
  assert (∃ s', sds_rep s' b ∧ zlen t ≤ slen s' + sfree s' ∧
    (if u32 (sfree s + slen s) <? zlen t then let s := sdsMakeRoomFor junk s (u64 (zlen t - slen s)) in (s, u32 (sfree s + slen s))
     else (s, u32 (sfree s + slen s))) = (s', slen s' + sfree s')) as (s' & Hs' & Hr & Ee).
  { rewrite wrapu_small by (rewrite E0; unfold in_u; cbn; lia). destruct (Z.ltb_spec (sfree s + slen s) (zlen t)) as [Hlt|Hge].
    - cbv zeta. rewrite (wrapu_small 64) by (rewrite E0 in *; unfold in_u; cbn in *; lia).
      destruct (sdsMakeRoomFor_spec s b (zlen t - slen s) Hs) as [Hs' Hr]; [rewrite E0 in *; cbn in *; lia|unfold SDS_MAX_PREALLOC; lia|].
      pose proof (sr_len _ _ Hs') as El'. pose proof (sr_bound _ _ Hs') as Hb'.
      eexists. split; [exact Hs'|]. split; [lia|]. rewrite wrapu_small by (destruct (sds_facts _ b Hs') as (? & E' & _ & ? & ? & ?); rewrite E' in *; unfold in_u; cbn in *; lia).
      f_equal. lia.
    - exists s. split; [done|]. split; [lia|]. f_equal. lia. }
  unfold sdscpylen. cbv zeta in Ee |- *. rewrite Ee. clear E0 rest0 Hbd0 H1. destruct (sds_facts _ b Hs') as (rest & -> & _ & Hbd & _ & H1). cbn [sbuf slen sfree] in *.
  destruct (cut_at (b ++ 0 :: rest) (zlen t)) as (R1 & R2 & ER & HR1 & HR2); [len|].
  assert (∃ x rest', R2 = x :: rest' ∧ zlen rest' = zlen b + zlen rest - zlen t) as (x & rest' & -> & Hrest').
  { destruct R2 as [|x rest']; [revert HR2; len|]. exists x, rest'. split; [done|]. revert HR2. len. }
  rewrite ER, store_app_0 by (unfold zlen in *; lia). cbn [mbind option_bind].
  change (x :: rest') with ([x] ++ rest'). rewrite store_app by done. cbn [mbind option_bind].
  rewrite !wrapu_small by (unfold in_u; lia). eexists. split; [done|].
  apply (sds_rep_make _ _ _ rest'); [done|done|lia|done|lia].
Qed.


Lemma sdsgrowzero_spec s b len :
  sds_rep s b → zlen b + Z.max 0 len + SDS_MAX_PREALLOC < 2 ^ 32 →
  ∃ s', sdsgrowzero junk s len = Some s' ∧ sds_rep s' (b ++ replicate (Z.to_nat (len - zlen b)) 0).
Proof.
  intros Hs Hb. pose proof (sr_len _ _ Hs) as El. unfold sdsgrowzero. rewrite El. pose proof (zlen_nonneg b). unfold SDS_MAX_PREALLOC in *.
  destruct (Z.leb_spec len (zlen b)) as [Hle|Hgt].
  { exists s. split; [done|]. replace (Z.to_nat (len - zlen b)) with 0%nat by lia. by rewrite app_nil_r. }
  destruct (sdsMakeRoomFor_spec s b (len - zlen b) Hs) as [Hs' Hr]; [lia|unfold SDS_MAX_PREALLOC; lia|].
  destruct (sds_facts _ b Hs') as (rest & E & Hby & Hbd & _ & H1). rewrite E in *. cbn [sbuf sfree slen] in *.
  destruct (cut_at (0 :: rest) (len - zlen b + 1)) as (R1 & R2 & ER & HR1 & HR2); [len|].
  rewrite ER, store_app by (try done; unfold zlen in *; rewrite ?length_replicate; lia). cbn [mbind option_bind].
  rewrite (wrapu_small 32 (zlen b + zlen rest)), (wrapu_small 32 len), wrapu_small by (unfold in_u; lia). eexists. split; [done|].
  assert (zlen (b ++ replicate (Z.to_nat (len - zlen b)) 0) = len) as Hl by len.
  apply (sds_rep_make _ _ _ R2); [|done|revert HR2; len| |rewrite Hl; revert HR2; len].
  - replace (Z.to_nat (len - zlen b + 1)) with (Z.to_nat (len - zlen b) + 1)%nat by lia.
    rewrite replicate_add. cbn [replicate]. by rewrite <- !app_assoc.
  - apply Forall_app. split; [done|]. by apply Forall_replicate.
Qed.

Lemma sdsclear_spec s b : sds_rep s b → ∃ s', sdsclear s = Some s' ∧ sds_rep s' [].
Proof.
  intros Hs. destruct (sds_facts _ b Hs) as (rest & -> & Hby & Hbd & H0 & H1). unfold sdsclear. cbn [sbuf slen sfree].
  destruct (cut_at (b ++ 0 :: rest) 1) as (R1 & R2 & ER & HR1 & HR2); [len|].
  rewrite ER, store_app_0 by (unfold zlen in HR1; cbn; lia). cbn [mbind option_bind]. eexists. split; [done|].
  rewrite wrapu_small by (unfold in_u; lia).
  apply (sds_rep_make _ _ [] R2); [done|done|revert HR2; len|apply Forall_nil_2|revert HR2; len].
Qed.

Lemma sdsRemoveFreeSpace_spec s b : sds_rep s b →
  sds_rep (sdsRemoveFreeSpace junk s) b ∧ sfree (sdsRemoveFreeSpace junk s) = 0.
Proof.
  intros Hs. destruct (sds_facts _ b Hs) as (rest & -> & Hby & Hbd & H0 & H1). unfold sdsRemoveFreeSpace. cbn [sbuf slen sfree]. split; [|done].
  apply (sds_rep_make _ _ _ []); [|done|done|done|change (zlen (@nil Z)) with 0; lia].
  unfold realloc. replace (Z.to_nat (zlen b + 1) - length (b ++ 0%Z :: rest))%nat with 0%nat by len. cbn [seq fmap list_fmap]. rewrite app_nil_r.
  replace (Z.to_nat (zlen b + 1)) with (length b + 1)%nat by len. rewrite take_app_ge by lia. do 2 f_equal.
  replace (length b + 1 - length b)%nat with 1%nat by lia. done.
Qed.

(** The string cut after [n] bytes, the null term written there; [M] is at the
    start of the buffer. *)
Lemma cut_spec s b M R :
  sds_rep s b → bytes_ok M → zlen M ≤ zlen b → zlen (M ++ R) = zlen (sbuf s) →
  ∃ buf, store (M ++ R) (zlen M) [0] = Some buf ∧ sds_rep (mkSds (u32 (zlen M)) (u32 (sfree s + (slen s - zlen M))) buf) M.
Proof.
  intros Hs HM Hl HR. destruct (sds_facts _ b Hs) as (rest & -> & Hby & Hbd & H0 & H1). cbn [sbuf slen sfree] in *. pose proof (zlen_nonneg M).
  destruct R as [|x R]; [revert HR; len|]. change (x :: R) with ([x] ++ R). rewrite store_app by done. eexists. split; [done|].
  rewrite !wrapu_small by (unfold in_u; lia). apply (sds_rep_make _ _ _ R); [done|done|revert HR; len|done|revert HR; len].
Qed.

Lemma sdsIncrLen_shrink s b n :
  sds_rep s b → 0 < n ≤ zlen b → n < 2 ^ 31 →
  ∃ s', sdsIncrLen s (- n) = Some s' ∧ sds_rep s' (take (Z.to_nat (zlen b - n)) b).
Proof.
  intros Hs Hn Hn31. destruct (sds_facts _ b Hs) as (rest & E & Hby & Hbd & H0 & H1). unfold sdsIncrLen.
  rewrite (proj2 (Z.leb_gt 0 (- n))) by lia. rewrite Z.opp_involutive, (wrapu_small 32 n) by (unfold in_u; lia).
  rewrite (sr_len _ _ Hs), (proj2 (Z.leb_le n (zlen b))) by lia.
  destruct (cut_at b (zlen b - n)) as (M & C & Eb & HM & HC); [lia|].
  assert (take (Z.to_nat (zlen b - n)) b = M) as ->.
  { rewrite Eb at 2. apply take_app_length'. unfold zlen in *. lia. }
  destruct (cut_spec s b M (C ++ 0 :: rest) Hs) as (buf & Hst & Hr);
    [rewrite Eb in Hby; by apply Forall_app in Hby as [? _]|lia|rewrite E, Eb; cbn [sbuf]; by rewrite <- app_assoc|].
  rewrite (wrapu_small 32 (zlen b + - n)) by (unfold in_u; lia). replace (zlen b + - n) with (zlen M) by lia.
  assert (sbuf s = M ++ C ++ 0 :: rest) as -> by (rewrite E, Eb; cbn [sbuf]; by rewrite <- app_assoc). rewrite Hst. cbn [mbind option_bind].
  eexists. split; [done|]. rewrite wrapu_small in Hr by (unfold in_u; pose proof (zlen_nonneg M); lia).
  rewrite (sr_len _ _ Hs) in Hr. by replace (sfree s - - n) with (sfree s + (zlen b - zlen M)) by lia.
Qed.

(** *** Ranges *)

(** The position an index stands for. *)
Definition norm (n i : Z) : Z := if i <? 0 then Z.max 0 (n + i) else i.
Definition range_of (b : list Z) (start end_ : Z) : list Z :=
  let s := norm (zlen b) start in
  let e := Z.min (norm (zlen b) end_) (zlen b - 1) in
  take (Z.to_nat (e - s + 1)) (drop (Z.to_nat s) b).

Lemma sdsrange_spec s b start end_ :
  sds_rep s b → zlen b < 2 ^ 31 → in_s 32 start → in_s 32 end_ → norm (zlen b) end_ - norm (zlen b) start ≠ 2 ^ 31 - 1 →
  ∃ s', sdsrange s start end_ = Some s' ∧ sds_rep s' (range_of b start end_).
Proof.
  unfold in_s. intros Hs Hb Hst Hen Hov. destruct (sds_facts _ b Hs) as (rest & E & Hby & Hbd & H0 & H1). unfold sdsrange, sdslen.
  rewrite (sr_len _ _ Hs). destruct (Z.eqb_spec (zlen b) 0) as [Hz|Hnz].
  { exists s. split; [done|]. destruct b; [|revert Hz; len]. unfold range_of. by rewrite drop_nil, take_nil. }
  assert (∀ i, - 2 ^ 31 ≤ i < 2 ^ 31 → (if i <? 0 then let i := i32 (u64 (zlen b + i)) in if i <? 0 then 0 else i else i) = norm (zlen b) i) as Hnorm.
  { intros i Hi. unfold norm. destruct (Z.ltb_spec i 0); [|done]. rewrite wraps_wrapu_le by lia. rewrite wraps_small by (unfold in_s; lia).
    case_if; lia. }
  change (2 ^ (32 - 1)) with (2 ^ 31) in *. rewrite !Hnorm by lia. unfold range_of. cbv zeta.
  assert (0 ≤ norm (zlen b) start < 2 ^ 31) as Hs0 by (unfold norm; case_if; lia).
  assert (0 ≤ norm (zlen b) end_ < 2 ^ 31) as He0 by (unfold norm; case_if; lia).
  set (a := norm (zlen b) start) in *. set (e := norm (zlen b) end_) in *. clearbody a e.
  rewrite (proj2 (Z.eqb_neq (e - a) (2 ^ 31 - 1))) by done. rewrite (wraps_small 32 (zlen b)) by (unfold in_s; lia).
  rewrite (wraps_wrapu_le 32 64 (zlen b - 1)), (wraps_small 32 (zlen b - 1)) by (unfold in_s; lia).
  set (M := take (Z.to_nat (Z.min e (zlen b - 1) - a + 1)) (drop (Z.to_nat a) b)).
  assert (∃ a', (if negb ((if e <? a then 0 else e - a + 1) =? 0) then
      if zlen b <=? a then (a, 0) else if zlen b <=? e then (a, if zlen b - 1 <? a then 0 else zlen b - 1 - a + 1) else (a, if e <? a then 0 else e - a + 1)
    else (0, if e <? a then 0 else e - a + 1)) = (a', zlen M) ∧ (zlen M ≠ 0 → a' = a)) as (a' & -> & Ha').
  { assert (zlen M = Z.max 0 (Z.min (Z.min e (zlen b - 1) - a + 1) (zlen b - a))) as HM by (subst M; len).
    rewrite HM. destruct (Z.ltb_spec e a) as [Hlt|Hge]; cbn [Z.eqb negb]; [exists 0; split; [f_equal; lia|lia]|].
    rewrite (proj2 (Z.eqb_neq (e - a + 1) 0)) by lia. cbn [negb].
    repeat case_if; exists a; (split; [f_equal; lia|done]). }
  assert (bytes_ok M) as HMb by by apply Forall_take, Forall_drop.
  assert (zlen M ≤ zlen b) as HMl by (subst M; len).
  assert (∃ R, zlen (M ++ R) = zlen (sbuf s) ∧ (if negb (a' =? 0) && negb (zlen M =? 0) then memmove (sbuf s) 0 a' (zlen M) else Some (sbuf s)) = Some (M ++ R)) as (R & HR & ->).
  { destruct (Z.eqb_spec (zlen M) 0) as [HM0|HM0].
    { rewrite andb_false_r. assert (M = []) as -> by (destruct M; [done|]; revert HM0; len). by exists (sbuf s). }
    rewrite Ha' by done. assert (b = take (Z.to_nat a) b ++ M ++ drop (Z.to_nat (Z.min e (zlen b - 1) - a + 1)) (drop (Z.to_nat a) b)) as Eb.
    { unfold M. by rewrite take_drop, take_drop. }
    set (C := drop (Z.to_nat (Z.min e (zlen b - 1) - a + 1)) (drop (Z.to_nat a) b)) in Eb. set (A := take (Z.to_nat a) b) in Eb.
    assert (zlen A = a) as HA. { subst A. unfold zlen in *. rewrite length_take. assert (0 < zlen M) by (unfold zlen in *; lia). subst M. unfold zlen in *. rewrite length_take, length_drop in H. lia. }
    destruct (Z.eqb_spec a 0) as [Ha0|Ha0]; cbn [negb andb].
    - exists (C ++ 0 :: rest). assert (A = []) as EA by (destruct A; [done|]; revert HA; len). rewrite EA in Eb. cbn [app] in Eb. rewrite E. cbn [sbuf].
      assert (b ++ 0 :: rest = M ++ C ++ 0 :: rest) as -> by (rewrite Eb at 1; by rewrite <- app_assoc). done.
    - destruct (cut_at (sbuf s) (zlen M)) as (O & K & EO & HO & HK); [rewrite E; cbn [sbuf]; len|]. exists K. split; [rewrite EO; len|].
      apply (memmove_views _ A M (C ++ 0 :: rest) [] O K); [|done|done|done|done|unfold zlen in HO; lia].
      rewrite E. cbn [sbuf]. rewrite Eb at 1. by rewrite <- !app_assoc. }
  cbn [mbind option_bind]. destruct (cut_spec s b M R Hs HMb HMl HR) as (buf & -> & Hr). cbn [mbind option_bind].
  eexists. split; [done|]. rewrite <- (sr_len _ _ Hs). exact Hr.
Qed.

(** *** Trimming *)

Fixpoint drop_while (P : Z → bool) (l : list Z) : list Z :=
  match l with [] => [] | x :: l' => if P x then drop_while P l' else l end.
Definition trim_of (P : Z → bool) (b : list Z) : list Z := reverse (drop_while P (reverse (drop_while P b))).

Lemma drop_while_split P l : ∃ A, l = A ++ drop_while P l ∧ Forall (λ x, P x = true) A ∧
  (∀ x l', drop_while P l = x :: l' → P x = false).
Proof.
  induction l as [|x l (A & E & HA & Hh)]; [by exists []|]. cbn. destruct (P x) eqn:Px.
  - exists (x :: A). split; [cbn; by f_equal|]. split; [by apply Forall_cons_2|done].
  - exists []. split; [done|]. split; [apply Forall_nil_2|]. by intros ? ? [= <- _].
Qed.

Lemma trim_split P b : ∃ A C, b = A ++ trim_of P b ++ C ∧ Forall (λ x, P x = true) A ∧ Forall (λ x, P x = true) C ∧
  (trim_of P b = [] → C = []) ∧ (∀ x l, trim_of P b = x :: l → P x = false) ∧ (∀ x l, trim_of P b = l ++ [x] → P x = false).
Proof.
  unfold trim_of. destruct (drop_while_split P b) as (A & E & HA & Hh). set (D := drop_while P b) in *.
  destruct (drop_while_split P (reverse D)) as (C & EC & HC & HhC). set (M := drop_while P (reverse D)) in *.
  apply (f_equal reverse) in EC. rewrite reverse_involutive, reverse_app in EC.
  exists A, (reverse C). split; [by rewrite <- EC|]. split; [done|]. split; [by apply Forall_reverse|]. split; [|split].
  - intros EM. rewrite EM in EC. cbn in EC. destruct D as [|x D']; [by rewrite <- EC|]. specialize (Hh x D' eq_refl).
    assert (x ∈ C) as Hx by (rewrite <- elem_of_reverse, <- EC; by left). rewrite Forall_forall in HC. by rewrite HC in Hh.
  - intros x l EM. apply (Hh x (l ++ reverse C)). by rewrite EC, EM.
  - intros x l EM. apply (HhC x (reverse l)). rewrite <- (reverse_involutive M), EM, reverse_app. done.
Qed.

Lemma trim_left_spec cset buf A B : ∀ fuel pre end_,
  buf = pre ++ A ++ B → Forall (λ x, strchr cset x = true) A → (length A < fuel)%nat →
  (zlen pre + zlen A = end_ + 1 ∨ ∃ x B', B = x :: B' ∧ strchr cset x = false ∧ zlen pre + zlen A ≤ end_) →
  trim_left fuel buf cset (zlen pre) end_ = Some (zlen pre + zlen A).
Proof.
  induction A as [|x A IH]; intros fuel pre end_ Hb HA Hf Hend; (destruct fuel as [|fuel]; [lia|]); cbn [trim_left].
  - change (zlen (@nil Z)) with 0 in *. destruct Hend as [Hend|(x & B' & -> & Hx & Hend)].
    + rewrite (proj2 (Z.leb_gt _ _)) by lia. f_equal. lia.
    + rewrite (proj2 (Z.leb_le _ _)) by lia. rewrite Hb. cbn [app]. rewrite get8_app by done. cbn [mbind option_bind]. rewrite Hx. f_equal. lia.
  - apply Forall_cons in HA as [Hx HA]. rewrite zlen_cons in *. pose proof (zlen_nonneg A).
    rewrite (proj2 (Z.leb_le _ _)) by (destruct Hend as [|(? & ? & _ & _ & ?)]; lia).
    rewrite Hb at 1. cbn [app]. rewrite get8_app by done. cbn [mbind option_bind]. rewrite Hx.
    replace (zlen pre + 1) with (zlen (pre ++ [x])) by len.
    rewrite (IH fuel (pre ++ [x]) end_); [f_equal; len|rewrite Hb; by rewrite <- app_assoc|done|cbn in Hf; lia|].
    replace (zlen (pre ++ [x]) + zlen A) with (zlen pre + (1 + zlen A)) by len. done.
Qed.

Lemma trim_right_spec cset buf C : ∀ fuel A B,
  buf = A ++ C ++ B → Forall (λ x, strchr cset x = true) C → (length C < fuel)%nat →
  (∃ A' x, A = A' ++ [x] ∧ strchr cset x = false) → trim_right fuel buf cset (zlen A + zlen C - 1) = Some (zlen A - 1).
Proof.
  induction C as [|x C IH] using rev_ind; intros fuel A B Hb HC Hf HA; (destruct fuel as [|fuel]; [lia|]); cbn [trim_right].
  - change (zlen (@nil Z)) with 0. destruct HA as (A' & x & -> & Hx). cbn [app] in Hb. rewrite <- app_assoc in Hb. cbn [app] in Hb.
    replace (zlen (A' ++ [x]) + 0 - 1) with (zlen A') by len. replace (zlen (A' ++ [x]) - 1) with (zlen A') by len.
    case_if; [|done]. rewrite Hb, get8_app by done. cbn [mbind option_bind]. by rewrite Hx.
  - apply Forall_app in HC as [HC [Hx _]%Forall_cons]. rewrite length_app in Hf. cbn in Hf.
    assert (0 < zlen A) by (destruct HA as (A' & y & -> & _); len).
    replace (zlen A + zlen (C ++ [x]) - 1) with (zlen (A ++ C)) by len. rewrite (proj2 (Z.ltb_lt _ _)) by len.
    assert (buf = (A ++ C) ++ x :: B) as Hb' by (rewrite Hb; rewrite <- !app_assoc; done).
    rewrite Hb' at 1. rewrite get8_app by done. cbn [mbind option_bind]. rewrite Hx.
    replace (zlen (A ++ C) - 1) with (zlen A + zlen C - 1) by len.
    apply (IH fuel A ([x] ++ B)); [rewrite Hb; by rewrite <- !app_assoc|done|lia|done].
Qed.

Lemma trim_right_all cset buf C : ∀ fuel B,
  buf = C ++ B → Forall (λ x, strchr cset x = true) C → (length C < fuel)%nat → C ≠ [] →
  trim_right fuel buf cset (zlen C - 1) = Some 0.
Proof.
  induction C as [|x C IH] using rev_ind; intros fuel B Hb HC Hf Hne; [done|]. destruct fuel as [|fuel]; [lia|]. cbn [trim_right].
  apply Forall_app in HC as [HC [Hx _]%Forall_cons]. rewrite length_app in Hf. cbn in Hf.
  replace (zlen (C ++ [x]) - 1) with (zlen C) by len. destruct (decide (C = [])) as [-> |HCne]; [done|].
  rewrite (proj2 (Z.ltb_lt _ _)) by (destruct C; [done|]; len). rewrite <- app_assoc in Hb. cbn [app] in Hb.
  rewrite Hb at 1. rewrite get8_app by done. cbn [mbind option_bind]. rewrite Hx. apply (IH fuel (x :: B)); [done|done|lia|done].
Qed.

Lemma sdstrim_spec s b cset : sds_rep s b → ∃ s', sdstrim s cset = Some s' ∧ sds_rep s' (trim_of (strchr cset) b).
Proof.
  intros Hs. destruct (sds_facts _ b Hs) as (rest & E & Hby & Hbd & H0 & H1).
  destruct (trim_split (strchr cset) b) as (A & C & Eb & HA & HC & Hnil & Hh & Hl). set (M := trim_of (strchr cset) b) in *. clearbody M.
  unfold sdstrim, sdslen. cbv zeta. rewrite (sr_len _ _ Hs).
  assert (sbuf s = A ++ M ++ C ++ 0 :: rest) as Ebuf by (rewrite E; cbn [sbuf]; rewrite Eb; by rewrite <- !app_assoc).
  assert (zlen b = zlen A + zlen M + zlen C) as Elen by (rewrite Eb; len). pose proof (zlen_nonneg A). pose proof (zlen_nonneg M). pose proof (zlen_nonneg C).
  assert (length A + length C < S (length (sbuf s)))%nat as Hfuel by (rewrite Ebuf; len).
  rewrite (trim_left_spec cset (sbuf s) A (M ++ C ++ 0 :: rest) _ []); [|done|done|lia|].
  2: { change (zlen (@nil Z)) with 0. destruct M as [|x M'].
    - left. rewrite (Hnil eq_refl) in *. change (zlen (@nil Z)) with 0 in *. lia.
    - right. exists x, (M' ++ C ++ 0 :: rest). rewrite zlen_cons in *. pose proof (zlen_nonneg M'). split; [done|]. split; [by eapply Hh|lia]. }
  cbn [mbind option_bind]. change (zlen (@nil Z)) with 0. rewrite Z.add_0_l.
  assert (∃ ep, trim_right (S (length (sbuf s))) (sbuf s) cset (zlen b - 1) = Some ep ∧
    (if ep <? zlen A then 0 else ep - zlen A + 1) = zlen M) as (ep & -> & Eep).
  { destruct M as [|x M' _] using rev_ind.
    - rewrite (Hnil eq_refl) in *. change (zlen (@nil Z)) with 0 in *. rewrite Elen. destruct (decide (A = [])) as [-> |HAne].
      + exists (-1). done.
      + exists 0. replace (zlen A + 0 + 0) with (zlen A) by lia.
        rewrite (trim_right_all cset (sbuf s) A _ (0 :: rest)); [|done|done|lia|done]. split; [done|].
        by rewrite (proj2 (Z.ltb_lt 0 (zlen A))) by (destruct A; [done|]; len).
    - exists (zlen A + zlen (M' ++ [x]) - 1). rewrite Elen. split.
      + replace (zlen A + zlen (M' ++ [x]) + zlen C - 1) with (zlen (A ++ M' ++ [x]) + zlen C - 1) by len.
        rewrite (trim_right_spec cset (sbuf s) C _ (A ++ M' ++ [x]) (0 :: rest)); [f_equal; len|rewrite Ebuf; by rewrite <- !app_assoc|done|lia|].
        exists (A ++ M'), x. split; [by rewrite <- app_assoc|by eapply Hl].
      + rewrite (proj2 (Z.ltb_ge _ _)) by len. lia. }
  cbn [mbind option_bind]. rewrite Eep.
  assert (∃ R, zlen (M ++ R) = zlen (sbuf s) ∧ (if negb (zlen A =? 0) then memmove (sbuf s) 0 (zlen A) (zlen M) else Some (sbuf s)) = Some (M ++ R)) as (R & HR & ->).
  { destruct (Z.eqb_spec (zlen A) 0) as [HA0|HA0]; cbn [negb].
    - assert (A = []) as -> by (destruct A; [done|]; revert HA0; len). exists (C ++ 0 :: rest). by rewrite Ebuf.
    - destruct (cut_at (sbuf s) (zlen M)) as (O & K & EO & HO & HK); [rewrite Ebuf; len|]. exists K. split; [rewrite EO; len|].
      by apply (memmove_views _ A M (C ++ 0 :: rest) [] O K); [..|unfold zlen in HO; lia]. }
  cbn [mbind option_bind]. destruct (cut_spec s b M R Hs) as (buf & -> & Hr); [|lia|done|].
  - rewrite Eb in Hby. unfold bytes_ok in *. rewrite !Forall_app in Hby. tauto.
  - cbn [mbind option_bind]. eexists. split; [done|]. rewrite <- (sr_len _ _ Hs). exact Hr.
Qed.

(** *** Characters *)

Lemma map_loop_spec f b : ∀ pre R,
  (∀ c, c ∈ b → byte_ok (f c)) → map_loop f (length b) (pre ++ b ++ R) (zlen pre) = Some (pre ++ (f <$> b) ++ R).
Proof.
  induction b as [|x b IH]; intros pre R Hf; [done|]. cbn [length map_loop app]. rewrite get8_app by done. cbn [mbind option_bind].
  rewrite put8_app by (try done; apply Hf; by left). cbn [mbind option_bind].
  replace (zlen pre + 1) with (zlen (pre ++ [f x])) by len. replace (pre ++ f x :: b ++ R) with ((pre ++ [f x]) ++ b ++ R) by by rewrite <- app_assoc.
  rewrite IH by (intros; apply Hf; by right). rewrite fmap_cons. by rewrite <- app_assoc.
Qed.

Lemma map_sds s b f n :
  sds_rep s b → (∀ c, byte_ok c → byte_ok (f c)) → n = length b →
  ∃ s', (buf ← map_loop f n (sbuf s) 0; Some (mkSds (slen s) (sfree s) buf)) = Some s' ∧ sds_rep s' (f <$> b).
Proof.
  intros Hs Hf ->. destruct (sds_facts _ b Hs) as (rest & -> & Hby & Hbd & H0 & H1). cbn [sbuf slen sfree].
  assert (∀ c, c ∈ b → byte_ok (f c)) as Hfb by (intros c Hc; apply Hf; unfold bytes_ok in Hby; rewrite Forall_forall in Hby; by apply Hby).
  pose proof (map_loop_spec f b [] (0 :: rest) Hfb) as E. cbn [app] in E. change (zlen (@nil Z)) with 0 in E. rewrite E.
  cbn [mbind option_bind]. eexists. split; [done|].
  assert (zlen (f <$> b) = zlen b) as Hl by (unfold zlen; by rewrite length_fmap).
  apply (sds_rep_make _ _ _ rest); [done|by rewrite Hl|done| |by rewrite Hl].
  apply Forall_fmap. unfold bytes_ok in Hby. by eapply Forall_impl.
Qed.

Lemma byte_tolower c : byte_ok c → byte_ok (tolower c).
Proof. unfold byte_ok, tolower. intros. case_if; lia. Qed.
Lemma byte_toupper c : byte_ok c → byte_ok (toupper c).
Proof. unfold byte_ok, toupper. intros. case_if; lia. Qed.
Lemma byte_map_char from to c : bytes_ok to → byte_ok c → byte_ok (map_char from to c).
Proof.
  revert to. induction from as [|f from IH]; intros [|t to] Ht Hc; try done. apply Forall_cons in Ht as [? ?]. cbn. case_if; [done|]. by apply IH.
Qed.

Lemma sdsdup_spec s b : sds_rep s b → ∃ s', sdsdup s = Some s' ∧ sds_rep s' b ∧ sfree s' = 0.
Proof.
  intros Hs. destruct (sds_facts _ b Hs) as (rest & -> & Hby & Hbd & H0 & H1). unfold sdsdup, sdslen, sdsnewlen. cbn [sbuf slen].
  rewrite load_app_0 by done. cbn [mbind option_bind]. eexists. split; [done|]. split; [|done]. rewrite wrapu_small by (unfold in_u; lia).
  apply (sds_rep_make _ _ _ []); [done|done|done|done|change (zlen (@nil Z)) with 0; lia].
Qed.

Lemma sdscmp_spec memcmp `{!Memcmp memcmp} s1 s2 b1 b2 :
  sds_rep s1 b1 → sds_rep s2 b2 → zlen b1 < 2 ^ 31 → zlen b2 < 2 ^ 31 →
  ∃ c, sdscmp memcmp s1 s2 = Some c ∧ (c ?= 0) = lexcmp b1 b2.
Proof.
  intros Hs1 Hs2 Hl1 Hl2. destruct (sds_facts _ b1 Hs1) as (r1 & -> & _ & _ & H1 & _). destruct (sds_facts _ b2 Hs2) as (r2 & -> & _ & _ & H2 & _).
  unfold sdscmp, sdslen. cbn [slen sbuf].
  assert (∀ b r n, 0 ≤ n ≤ zlen b → load (b ++ 0 :: r) 0 n = Some (take (Z.to_nat n) b)) as Hload.
  { intros b r n Hn. rewrite <- (take_drop (Z.to_nat n) b) at 1. rewrite <- app_assoc. apply load_app_0. len. }
  rewrite !Hload by (case_if; lia). cbn [mbind option_bind].
  assert (Z.to_nat (if zlen b1 <? zlen b2 then zlen b1 else zlen b2) = (length b1 `min` length b2)%nat) as ->.
  { destruct (Z.ltb_spec (zlen b1) (zlen b2)); unfold zlen in *; lia. }
  eexists. split; [done|]. rewrite (lexcmp_prefix b1 b2). set (n := (length b1 `min` length b2)%nat).
  rewrite <- (memcmp_sign (take n b1) (take n b2)) by (rewrite !length_take; lia).
  destruct (Z.eqb_spec (memcmp (take n b1) (take n b2)) 0) as [-> |Hn].
  - cbn. rewrite wraps_wrapu_le by lia. rewrite wraps_small by (unfold in_s, zlen in *; lia).
    destruct (Z.compare_spec (zlen b1 - zlen b2) 0); destruct (Z.compare_spec (zlen b1) (zlen b2)); (done || lia).
  - by destruct (Z.compare_spec (memcmp (take n b1) (take n b2)) 0).
Qed.

End facts.
