(* ===== verification/Glob.v ===== *)
(** * Glob: pattern matching (redis-3.0.0/src/util.c, stringmatchlen)

    The glob-style matcher of KEYS, SCAN, PSUBSCRIBE and CONFIG.  The pattern and
    the string are blocks that end in a null byte, read by position; the two
    lengths are counted down separately, as in the code, and may become wrong: a
    read outside of a block is [None].  [char] is signed. *)

From S2P Require Import Prelude Sds.

Section model.
Context (pm sm : list Z) (nocase : bool).

(** [while (pattern[1] == '*')] *)
Fixpoint skip_stars (fuel : nat) (p plen : Z) : option (Z * Z) :=
  match fuel with
  | O => None
  | S fuel => c ← get8 pm (p + 1); if c =? 42 then skip_stars fuel (p + 1) (plen - 1) else Some (p, plen)
  end.
(** [while( *pattern == '*')] *)
Fixpoint trailing_stars (fuel : nat) (p plen : Z) : option (Z * Z) :=
  match fuel with
  | O => None
  | S fuel => c ← get8 pm p; if c =? 42 then trailing_stars fuel (p + 1) (plen - 1) else Some (p, plen)
  end.

(** [pattern[0] == string[0]], with the case or without *)
Definition same_char (c d : Z) : bool := if nocase then tolower (wraps 8 c) =? tolower (wraps 8 d) else c =? d.

(** [c >= start && c <= end] after the exchange *)
Definition in_range (start end_ c : Z) : bool :=
  let start := wraps 8 start in
  let end_ := wraps 8 end_ in
  let c := wraps 8 c in
  let '(start, end_) := if end_ <? start then (end_, start) else (start, end_) in
  let '(start, end_, c) := if nocase then (tolower start, tolower end_, tolower c) else (start, end_, c) in
  (start <=? c) && (c <=? end_).

(** [while(1)] of the class: whether a member matched, and where it stopped. *)
Fixpoint class_loop (fuel : nat) (p plen s : Z) (found : bool) : option (bool * Z * Z) :=
  match fuel with
  | O => None
  | S fuel =>
      c ← get8 pm p;
      if c =? 92 then
        c ← get8 pm (p + 1); d ← get8 sm s;
        class_loop fuel (p + 2) (plen - 2) s (found || (c =? d))
      else if c =? 93 then Some (found, p, plen)
      else if plen =? 0 then Some (found, p - 1, plen + 1)
      else
        c1 ← get8 pm (p + 1);
        if (c1 =? 45) && (3 <=? plen) then
          c2 ← get8 pm (p + 2); d ← get8 sm s;
          class_loop fuel (p + 3) (plen - 3) s (found || in_range c c2 d)
        else
          d ← get8 sm s;
          class_loop fuel (p + 1) (plen - 1) s (found || same_char c d)
  end.

(** One element of the pattern that is not a star; [None] inside: no match. *)
Definition match_one (c p plen s slen : Z) : option (option (Z * Z * Z * Z)) :=
  if c =? 63 then
    if slen =? 0 then Some None else Some (Some (p, plen, s + 1, slen - 1))
  else if c =? 91 then
    let '(p, plen) := (p + 1, plen - 1) in
    c ← get8 pm p;
    let not := c =? 94 in
    let '(p, plen) := if not then (p + 1, plen - 1) else (p, plen) in
    '(found, p, plen) ← class_loop (S (length pm)) p plen s false;
    let found := if not then negb found else found in
    if negb found then Some None else Some (Some (p, plen, s + 1, slen - 1))
  else
    let '(p, plen) := if (c =? 92) && (2 <=? plen) then (p + 1, plen - 1) else (p, plen) in
    c ← get8 pm p; d ← get8 sm s;
    if negb (same_char c d) then Some None else Some (Some (p, plen, s + 1, slen - 1)).

(** [while(stringLen)] after a star; [rec]: the recursive call. *)
Fixpoint star_loop (rec : Z → Z → option bool) (fuel : nat) (s slen : Z) : option bool :=
  if slen =? 0 then Some false else
  match fuel with
  | O => None
  | S fuel => b ← rec s slen; if (b : bool) then Some true else star_loop rec fuel (s + 1) (slen - 1)
  end.

Fixpoint match_loop (fuel : nat) (p plen s slen : Z) : option bool :=
  if plen =? 0 then Some (slen =? 0) else
  match fuel with
  | O => None
  | S fuel =>
      c ← get8 pm p;
      if c =? 42 then
        '(p, plen) ← skip_stars (S (length pm)) p plen;
        if plen =? 1 then Some true
        else star_loop (match_loop fuel (p + 1) (plen - 1)) (S (length sm)) s slen
      else
        r ← match_one c p plen s slen;
        match r with
        | None => Some false
        | Some (p, plen, s, slen) =>
            let '(p, plen) := (p + 1, plen - 1) in
            if slen =? 0 then
              '(p, plen) ← trailing_stars (S (length pm)) p plen;
              Some ((plen =? 0) && (slen =? 0))
            else match_loop fuel p plen s slen
        end
  end.

End model.

(** [pattern] and [string]: the bytes before the null terms. *)
Definition stringmatchlen (pattern string : list Z) (nocase : bool) : option bool :=
  match_loop (pattern ++ [0]) (string ++ [0]) nocase (S (length pattern)) 0 (zlen pattern) 0 (zlen string).

(** ** Patterns *)

Inductive citem := CChar (c : Z) | CRange (a b : Z).
Inductive pitem := PStar | PAny | PClass (neg : bool) (items : list citem) | PLit (c : Z).

#[global] Instance citem_eq_dec : EqDecision citem.
Proof. solve_decision. Defined.
#[global] Instance pitem_eq_dec : EqDecision pitem.
Proof. solve_decision. Defined.

Definition special (c : Z) : bool := (c =? 42) || (c =? 63) || (c =? 91) || (c =? 92).
Definition cspecial (c : Z) : bool := (c =? 92) || (c =? 93) || (c =? 94) || (c =? 45).

Definition print_citem (i : citem) : list Z :=
  match i with CChar c => if cspecial c then [92; c] else [c] | CRange a b => [a; 45; b] end.
Definition print_pitem (i : pitem) : list Z :=
  match i with
  | PStar => [42]
  | PAny => [63]
  | PClass neg items => 91 :: (if neg then [94] else []) ++ concat (print_citem <$> items) ++ [93]
  | PLit c => if special c then [92; c] else [c]
  end.
Definition print (ps : list pitem) : list Z := concat (print_pitem <$> ps).

(** The patterns hold no null bytes, and ranges are of ASCII characters. *)
Definition citem_ok (i : citem) : Prop :=
  match i with CChar c => 0 < c < 256 | CRange a b => 0 < a < 128 ∧ 0 < b < 128 ∧ cspecial a = false end.
Definition pitem_ok (i : pitem) : Prop :=
  match i with PClass _ items => Forall citem_ok items | PLit c => 0 < c < 256 | _ => True end.

#[global] Instance citem_ok_dec i : Decision (citem_ok i).
Proof. destruct i; cbn; apply _. Defined.
#[global] Instance pitem_ok_dec i : Decision (pitem_ok i).
Proof. destruct i; cbn; apply _. Defined.

(** ** What they match *)

Definition low (nocase : bool) (c : Z) : Z := if nocase then tolower c else c.
Definition citem_match (nocase : bool) (i : citem) (x : Z) : bool :=
  match i with
  | CChar c => low nocase c =? low nocase x
  | CRange a b => (low nocase (Z.min a b) <=? low nocase x) && (low nocase x <=? low nocase (Z.max a b))
  end.
Definition pitem_match (nocase : bool) (i : pitem) (x : Z) : bool :=
  match i with
  | PStar => false
  | PAny => true
  | PClass neg items => xorb neg (existsb (λ i, citem_match nocase i x) items)
  | PLit c => low nocase c =? low nocase x
  end.

(** A star stands for any string. *)
Fixpoint any_suffix (f : list Z → bool) (s : list Z) : bool :=
  f s || match s with [] => false | _ :: s => any_suffix f s end.
Fixpoint matchb (nocase : bool) (ps : list pitem) (s : list Z) : bool :=
  match ps with
  | [] => match s with [] => true | _ => false end
  | PStar :: ps => any_suffix (matchb nocase ps) s
  | i :: ps => match s with [] => false | x :: s => pitem_match nocase i x && matchb nocase ps s end
  end.

(** ** The block from a position on *)

Definition rest_at (m : list Z) (p : Z) (r : list Z) : Prop := 0 ≤ p ∧ drop (Z.to_nat p) m = r.

Lemma rest_at_get m p c r : rest_at m p (c :: r) → get8 m p = Some c.
Proof.
  intros [Hp Hd]. rewrite get8_lookup by done.
  by rewrite <- (Nat.add_0_r (Z.to_nat p)), <- lookup_drop, Hd.
Qed.
Lemma rest_at_app m p a r : rest_at m p (a ++ r) → rest_at m (p + zlen a) r.
Proof.
  intros [Hp Hd]. split; [len|].
  replace (Z.to_nat (p + zlen a)) with (Z.to_nat p + length a)%nat by len.
  by rewrite <- drop_drop, Hd, drop_app_length.
Qed.
Lemma rest_at_next m p c r : rest_at m p (c :: r) → rest_at m (p + 1) r.
Proof. apply (rest_at_app m p [c] r). Qed.

(** ** Stars *)

Definition stars (k : nat) : list pitem := replicate k PStar.
Definition starts_star (ps : list pitem) : bool := match ps with PStar :: _ => true | _ => false end.

Lemma print_cons i ps : print (i :: ps) = print_pitem i ++ print ps.
Proof. done. Qed.
Lemma print_app ps qs : print (ps ++ qs) = print ps ++ print qs.
Proof. unfold print. by rewrite fmap_app, concat_app. Qed.
Lemma print_stars k : print (stars k) = replicate k 42.
Proof. induction k as [|k IH]; [done|]. cbn [stars replicate]. rewrite print_cons. cbn. by f_equal. Qed.
Lemma split_stars ps : ∃ k qs, ps = stars k ++ qs ∧ starts_star qs = false.
Proof.
  induction ps as [|[] ps (k & qs & -> & Hq)]; [by exists 0%nat, []| |by exists 0%nat; eexists..].
  by exists (S k), qs.
Qed.

Lemma any_suffix_nil f : any_suffix f [] = f [].
Proof. cbn. by rewrite orb_false_r. Qed.
Lemma any_suffix_idem f s : any_suffix (any_suffix f) s = any_suffix f s.
Proof.
  induction s as [|x s IH]; cbn; [by rewrite !orb_false_r|]. rewrite IH.
  by destruct (f (x :: s)), (any_suffix f s).
Qed.
Lemma any_suffix_ext f g s : (∀ s, f s = g s) → any_suffix f s = any_suffix g s.
Proof. intros E. induction s as [|x s IH]; cbn; by rewrite E, ?IH. Qed.
Lemma any_suffix_end f s : f [] = true → any_suffix f s = true.
Proof. intros E. induction s as [|x s IH]; cbn; rewrite ?E, ?IH; [done|apply orb_true_r]. Qed.
Lemma matchb_stars nocase k ps s : matchb nocase (PStar :: stars k ++ ps) s = any_suffix (matchb nocase ps) s.
Proof.
  revert s. induction k as [|k IH]; intros s; [done|]. cbn [stars replicate app matchb].
  etransitivity; [apply any_suffix_ext, IH|]. apply any_suffix_idem.
Qed.
Lemma matchb_nil nocase k ps : starts_star ps = false →
  matchb nocase (stars k ++ ps) [] = bool_decide (ps = []).
Proof.
  intros Hs. assert (matchb nocase ps [] = bool_decide (ps = [])) as E by by destruct ps as [|[] ps].
  destruct k as [|k]; [done|]. change (stars (S k) ++ ps) with (PStar :: stars k ++ ps).
  by rewrite matchb_stars, any_suffix_nil.
Qed.

(** The first character tells the stars from the other elements. *)
Lemma print_head ps : Forall pitem_ok ps → starts_star ps = false →
  ∃ c r, print ps ++ [0] = c :: r ∧ (c =? 42) = false.
Proof.
  intros Hok Hs. destruct ps as [|[| |neg items|c] ps]; [by eexists _, _|done|by eexists _, _..|].
  rewrite print_cons. cbn [print_pitem]. destruct (special c) eqn:E; [by eexists _, _|].
  eexists c, _. split; [done|]. unfold special in E. by destruct (c =? 42).
Qed.
Lemma print_zero ps : starts_star ps = false → (zlen (print ps) =? 0) = bool_decide (ps = []).
Proof.
  intros Hs. destruct ps as [|i ps]; [done|]. rewrite print_cons, zlen_app.
  assert (0 < zlen (print_pitem i)) by (destruct i as [| |neg items|c]; cbn; [..|destruct (special c)]; len).
  pose proof (zlen_nonneg (print ps)). rewrite bool_decide_false by done. lia.
Qed.

Section loops.
Context (pm sm : list Z) (nocase : bool).

Lemma trailing_stars_spec fuel p plen k ps :
  (k < fuel)%nat → Forall pitem_ok ps → starts_star ps = false →
  rest_at pm p (print (stars k ++ ps) ++ [0]) →
  trailing_stars pm fuel p plen = Some (p + Z.of_nat k, plen - Z.of_nat k).
Proof.
  revert p plen k. induction fuel as [|fuel IH]; intros p plen k Hf Hok Hs Hp; [lia|]. cbn [trailing_stars].
  destruct k as [|k].
  - destruct (print_head ps Hok Hs) as (c & r & E & Hc). cbn [stars replicate app] in Hp. rewrite E in Hp.
    rewrite (rest_at_get _ _ _ _ Hp). cbn [mbind option_bind]. rewrite Hc. do 2 f_equal; lia.
  - change (print (stars (S k) ++ ps) ++ [0]) with (42 :: (print (stars k ++ ps) ++ [0])) in Hp.
    rewrite (rest_at_get _ _ _ _ Hp). cbn [mbind option_bind]. change (42 =? 42) with true. cbn iota.
    rewrite (IH _ _ k) by (lia || done || by eapply rest_at_next). do 2 f_equal; lia.
Qed.
Lemma skip_trailing fuel p plen :
  skip_stars pm fuel p plen = '(p, plen) ← trailing_stars pm fuel (p + 1) plen; Some (p - 1, plen).
Proof.
  revert p plen. induction fuel as [|fuel IH]; intros p plen; [done|]. cbn [skip_stars trailing_stars].
  destruct (get8 pm (p + 1)) as [c|]; [|done]. cbn [mbind option_bind].
  destruct (c =? 42); [by rewrite IH|]. cbn. do 2 f_equal. lia.
Qed.

Lemma star_loop_spec rec f fuel t s :
  (∀ t s, s ≠ [] → bytes_ok s → rest_at sm t (s ++ [0]) → rec t (zlen s) = Some (f s)) → f [] = false →
  (length s ≤ fuel)%nat → bytes_ok s → rest_at sm t (s ++ [0]) → star_loop rec fuel t (zlen s) = Some (any_suffix f s).
Proof.
  intros Hrec Hnil. revert t s. induction fuel as [|fuel IH]; intros t s Hf Hs Ht.
  all: destruct s as [|x s]; [by rewrite any_suffix_nil, Hnil|cbn in Hf].
  1: lia.
  cbn [star_loop any_suffix]. rewrite zlen_cons. pose proof (zlen_nonneg s).
  replace (1 + zlen s =? 0) with false by lia. rewrite <- zlen_cons with (x := x), Hrec by done.
  cbn [mbind option_bind]. destruct (f (x :: s)); [done|].
  rewrite zlen_cons. replace (1 + zlen s - 1) with (zlen s) by lia.
  apply Forall_cons in Hs as [_ Hs]. rewrite IH; [done|lia|done|by eapply rest_at_next].
Qed.

(** ** Characters *)

Lemma char_signed c : byte_ok c → wraps 8 c = if c <? 128 then c else c - 256.
Proof.
  unfold byte_ok, wraps. change (2 ^ (8 - 1)) with 128. change (2 ^ 8) with 256. intros.
  case_if; [rewrite Z.mod_small by lia|rewrite <- (Z.mod_unique (c + 128) 256 1 (c - 128)) by lia]; lia.
Qed.
Lemma same_char_low c d : byte_ok c → byte_ok d → same_char nocase c d = (low nocase c =? low nocase d).
Proof.
  intros Hc Hd. unfold same_char, low. destruct nocase; [|done]. rewrite !char_signed by done.
  unfold byte_ok, tolower in *. repeat case_if; lia.
Qed.
Lemma in_range_low a b d : 0 < a < 128 → 0 < b < 128 → byte_ok d →
  in_range nocase a b d = citem_match nocase (CRange a b) d.
Proof.
  intros Ha Hb Hd. unfold in_range, citem_match, low. rewrite !char_signed by (unfold byte_ok in *; lia).
  replace (a <? 128) with true by lia. replace (b <? 128) with true by lia.
  unfold byte_ok, tolower in *. destruct nocase; repeat case_if; lia.
Qed.
Lemma cspecial_low c d : cspecial c = true → byte_ok d → (c =? d) = (low nocase c =? low nocase d).
Proof.
  unfold cspecial, low, tolower, byte_ok. intros Hc Hd. destruct nocase; [|done]. repeat case_if; lia.
Qed.

Lemma cspecial_false c : cspecial c = false → (c =? 92) = false ∧ (c =? 93) = false ∧ (c =? 45) = false ∧ (c =? 94) = false.
Proof. unfold cspecial. repeat case_if; lia. Qed.
Lemma special_false c : special c = false →
  (c =? 42) = false ∧ (c =? 63) = false ∧ (c =? 91) = false ∧ (c =? 92) = false.
Proof. unfold special. repeat case_if; lia. Qed.

(** ** Classes *)

(** A list of members starts neither with a dash nor with a caret. *)
Lemma class_rest items r : Forall citem_ok items →
  ∃ c q, concat (print_citem <$> items) ++ 93 :: r = c :: q ∧ (c =? 45) = false ∧ (c =? 94) = false.
Proof.
  intros Hok. destruct items as [|[c|a b] items]; [by eexists _, _| |]; cbn [fmap list_fmap concat print_citem].
  - destruct (cspecial c) eqn:E; [by eexists _, _|]. eexists c, _. split; [done|].
    by apply cspecial_false in E as (_ & _ & -> & ->).
  - eexists a, _. split; [done|]. apply Forall_cons in Hok as [(_ & _ & E) _].
    by apply cspecial_false in E as (_ & _ & -> & ->).
Qed.

Lemma class_loop_spec fuel items p plen t d found r :
  (length items < fuel)%nat → Forall citem_ok items → byte_ok d → get8 sm t = Some d →
  rest_at pm p (concat (print_citem <$> items) ++ 93 :: r) →
  zlen (concat (print_citem <$> items)) < plen →
  class_loop pm sm nocase fuel p plen t found =
    Some (found || existsb (λ i, citem_match nocase i d) items,
          p + zlen (concat (print_citem <$> items)), plen - zlen (concat (print_citem <$> items))).
Proof.
  revert items p plen found. induction fuel as [|fuel IH]; intros items p plen found Hf Hok Hd Ht Hp Hl; [lia|].
  cbn [class_loop]. destruct items as [|i items].
  { cbn in Hp |- *. rewrite (rest_at_get _ _ _ _ Hp). cbn. rewrite orb_false_r, Z.add_0_r, Z.sub_0_r. done. }
  apply Forall_cons in Hok as [Hi Hok]. cbn [length] in Hf.
  cbn [fmap list_fmap concat] in Hp, Hl |- *. rewrite <- app_assoc in Hp. rewrite zlen_app in Hl |- *.
  pose proof (zlen_nonneg (concat (print_citem <$> items))) as Hn.
  change (list_fmap citem (list Z) print_citem items) with (print_citem <$> items) in *.
  pose proof (rest_at_app _ _ _ _ Hp) as Hp'.
  assert (∀ p' plen' b, p' = p + zlen (print_citem i) → plen' = plen - zlen (print_citem i) →
    b = citem_match nocase i d →
    class_loop pm sm nocase fuel p' plen' t (found || b) =
    Some (found || existsb (λ i, citem_match nocase i d) (i :: items),
      p + (zlen (print_citem i) + zlen (concat (print_citem <$> items))),
      plen - (zlen (print_citem i) + zlen (concat (print_citem <$> items))))) as Hnext.
  { intros p' plen' b -> -> ->. rewrite (IH items) by (lia || done). cbn [existsb].
    rewrite orb_assoc. do 2 f_equal; [f_equal|]; lia. }
  clear IH. destruct i as [c|a b]; cbn [print_citem citem_ok] in *.
  - destruct (cspecial c) eqn:E.
    + rewrite (rest_at_get _ _ _ _ Hp). cbn [mbind option_bind]. change (92 =? 92) with true. cbn iota.
      apply rest_at_next in Hp. rewrite (rest_at_get _ _ _ _ Hp), Ht. cbn [mbind option_bind].
      apply Hnext; [done..|]. by apply cspecial_low.
    + rewrite (rest_at_get _ _ _ _ Hp). cbn [mbind option_bind].
      apply cspecial_false in E as (-> & -> & _).
      change (zlen [c]) with 1 in *. replace (plen =? 0) with false by lia.
      destruct (class_rest items r Hok) as (c1 & q & Eq & Hc1 & _). rewrite Eq in Hp'.
      rewrite (rest_at_get _ _ _ _ Hp'), Ht. cbn [mbind option_bind]. rewrite Hc1. cbn [andb].
      apply Hnext; [done..|]. apply same_char_low; [unfold byte_ok; lia|done].
  - destruct Hi as (Ha & Hb & E). rewrite (rest_at_get _ _ _ _ Hp). cbn [mbind option_bind].
    apply cspecial_false in E as (-> & -> & _). change (zlen [a; 45; b]) with 3 in *.
    replace (plen =? 0) with false by lia. apply rest_at_next in Hp.
    rewrite (rest_at_get _ _ _ _ Hp). cbn [mbind option_bind].
    replace (3 <=? plen) with true by lia. change (45 =? 45) with true. cbn [andb].
    apply rest_at_next in Hp. replace (p + 1 + 1) with (p + 2) in Hp by lia.
    rewrite (rest_at_get _ _ _ _ Hp), Ht. cbn [mbind option_bind].
    apply Hnext; [done..|]. by apply in_range_low.
Qed.

(** ** One element *)

Lemma moved_eq (p plen t slen p' plen' t' slen' : Z) :
  p = p' → plen = plen' → t = t' → slen = slen' → Some (Some (p, plen, t, slen)) = Some (Some (p', plen', t', slen')).
Proof. by intros -> -> -> ->. Qed.

Lemma citems_length items : (length items ≤ length (concat (print_citem <$> items)))%nat.
Proof.
  induction items as [|i items IH]; [done|]. cbn. rewrite length_app.
  destruct i as [c|a b]; cbn; [destruct (cspecial c); cbn|]; lia.
Qed.

Lemma match_class_spec neg items p plen t d slen r :
  Forall citem_ok items → byte_ok d → get8 sm t = Some d →
  rest_at pm p (print_pitem (PClass neg items) ++ r) → zlen (print_pitem (PClass neg items)) ≤ plen →
  match_one pm sm nocase 91 p plen t slen =
    Some (if pitem_match nocase (PClass neg items) d
          then Some (p + zlen (print_pitem (PClass neg items)) - 1,
                     plen - zlen (print_pitem (PClass neg items)) + 1, t + 1, slen - 1)
          else None).
Proof.
  intros Hok Hd Ht Hp Hl. unfold match_one. change (91 =? 63) with false. change (91 =? 91) with true.
  cbn iota. cbn [print_pitem] in *. set (body := concat (print_citem <$> items)) in *.
  assert (rest_at pm (p + 1) ((if neg then [94] else []) ++ body ++ 93 :: r)) as Hp1.
  { rewrite <- app_comm_cons, <- !app_assoc in Hp. by apply rest_at_next in Hp. }
  assert (∃ c, get8 pm (p + 1) = Some c ∧ (c =? 94) = neg) as (c & Hc & Hneg).
  { destruct neg; [eexists; by rewrite (rest_at_get _ _ _ _ Hp1)|]. unfold body in Hp1.
    destruct (class_rest items r Hok) as (c & q' & E & _ & Hc'). rewrite E in Hp1.
    exists c. by rewrite (rest_at_get _ _ _ _ Hp1). }
  rewrite Hc. cbn [mbind option_bind]. rewrite Hneg. clear c Hc Hneg.
  rewrite zlen_cons, !zlen_app in Hl |- *. change (zlen [93]) with 1 in *.
  assert ((length items < S (length pm))%nat) as Hfuel.
  { pose proof (citems_length items). destruct Hp1 as [_ Hp1]. apply (f_equal length) in Hp1. fold body in H. len. }
  apply rest_at_app in Hp1.
  assert (∀ p' plen', p' = p + 1 + zlen (if neg then [94] else []) → zlen body < plen' →
    class_loop pm sm nocase (S (length pm)) p' plen' t false =
    Some (existsb (λ i, citem_match nocase i d) items, p' + zlen body, plen' - zlen body)) as Hcl.
  { intros p' plen' -> Hl'. by rewrite (class_loop_spec _ items _ _ _ d _ r). }
  cbn [pitem_match]. destruct neg.
  all: change (zlen [94]) with 1 in *; change (zlen (@nil Z)) with 0 in *; cbv zeta.
  all: rewrite Hcl by lia; cbn [mbind option_bind].
  all: destruct (existsb _ items); cbn [xorb negb]; try done; apply moved_eq; lia.
Qed.

Lemma match_one_spec i c q p plen t d slen r :
  i ≠ PStar → pitem_ok i → byte_ok d → get8 sm t = Some d → (i = PAny → slen ≠ 0) →
  print_pitem i = c :: q → rest_at pm p (print_pitem i ++ r) → zlen (print_pitem i) ≤ plen →
  match_one pm sm nocase c p plen t slen =
    Some (if pitem_match nocase i d
          then Some (p + zlen (print_pitem i) - 1, plen - zlen (print_pitem i) + 1, t + 1, slen - 1) else None).
Proof.
  intros Hns Hok Hd Ht Hany Hc Hp Hl. destruct i as [| |neg items|x].
  - done.
  - injection Hc as <- <-. unfold match_one. change (63 =? 63) with true. cbn iota. specialize (Hany eq_refl).
    replace (slen =? 0) with false by lia. change (zlen (print_pitem PAny)) with 1. apply moved_eq; lia.
  - injection Hc as <- _. by apply (match_class_spec neg items p plen t d slen r).
  - unfold match_one. cbn [print_pitem pitem_ok] in *. assert (byte_ok x) as Hx by (unfold byte_ok; lia).
    destruct (special x) eqn:E; injection Hc as <- <-.
    + change (92 =? 63) with false. change (92 =? 91) with false. change (92 =? 92) with true. cbn iota.
      change (zlen [92; x]) with 2 in *. replace (2 <=? plen) with true by lia. cbn [andb].
      apply rest_at_next in Hp. rewrite (rest_at_get _ _ _ _ Hp), Ht. cbn [mbind option_bind].
      rewrite same_char_low by done. cbn [pitem_match].
      destruct (low nocase x =? low nocase d); cbn [negb]; [|done]. apply moved_eq; lia.
    + apply special_false in E as (_ & -> & -> & ->). cbn [andb].
      rewrite (rest_at_get _ _ _ _ Hp), Ht. cbn [mbind option_bind].
      rewrite same_char_low by done. cbn [pitem_match]. change (zlen [x]) with 1.
      destruct (low nocase x =? low nocase d); cbn [negb]; [|done]. apply moved_eq; lia.
Qed.

(** ** The loop *)

(** On the empty string the first element must not be a class with a caret. *)
Definition starts_not (ps : list pitem) : bool := match ps with PClass true _ :: _ => true | _ => false end.

Lemma low_pos c : 0 < c → 0 < low nocase c.
Proof. intros Hc. unfold low, tolower. destruct nocase; repeat case_if; lia. Qed.
Lemma low_0 : low nocase 0 = 0.
Proof. by unfold low; destruct nocase. Qed.
Lemma pitem_match_nul i : i ≠ PStar → i ≠ PAny → pitem_ok i → starts_not [i] = false →
  pitem_match nocase i 0 = false.
Proof.
  intros Hs Ha Hok Hn.
  destruct i as [| |[] items|c]; try done; cbn [pitem_match pitem_ok xorb] in *; rewrite ?low_0.
  2: { pose proof (low_pos c). lia. }
  apply not_true_is_false. intros (x & Hx & Hm)%existsb_exists. rewrite list.Forall_forall in Hok.
  specialize (Hok x). rewrite list_elem_of_In in Hok. specialize (Hok Hx).
  destruct x as [c|a b]; cbn in Hok, Hm; rewrite low_0 in Hm.
  - pose proof (low_pos c). lia.
  - pose proof (low_pos (Z.min a b)). lia.
Qed.

Definition loop_ok (fuel : nat) : Prop :=
  ∀ ps s p t, (length ps ≤ fuel)%nat → Forall pitem_ok ps → bytes_ok s →
  rest_at pm p (print ps ++ [0]) → rest_at sm t (s ++ [0]) → (s = [] → starts_not ps = false) →
  match_loop pm sm nocase fuel p (zlen (print ps)) t (zlen s) = Some (matchb nocase ps s).

Lemma rest_at_length m p r : rest_at m p r → (length r ≤ length m)%nat.
Proof. intros [_ <-]. rewrite length_drop. lia. Qed.
Lemma rest_at_char m t s : bytes_ok s → rest_at m t (s ++ [0]) → ∃ d, get8 m t = Some d ∧ byte_ok d ∧ (s = [] → d = 0).
Proof.
  intros Hs Ht. destruct s as [|x s]; rewrite (rest_at_get _ _ _ _ Ht); eexists; split_and!; try done.
  by apply Forall_cons in Hs as [??].
Qed.

Lemma match_star_spec fuel ps s p t :
  loop_ok fuel → (length ps ≤ fuel)%nat → Forall pitem_ok ps → bytes_ok s →
  rest_at pm p (print (PStar :: ps) ++ [0]) → rest_at sm t (s ++ [0]) →
  match_loop pm sm nocase (S fuel) p (zlen (print (PStar :: ps))) t (zlen s) = Some (matchb nocase (PStar :: ps) s).
Proof.
  intros IH Hf Hok Hs Hp Ht. destruct (split_stars ps) as (k & qs & -> & Hq).
  rewrite matchb_stars. apply Forall_app in Hok as [_ Hok]. rewrite length_app in Hf.
  cbn [match_loop]. pose proof (zlen_nonneg (print qs)).
  rewrite print_cons, print_app, print_stars in *. change (print_pitem PStar) with [42] in *.
  rewrite !zlen_app. change (zlen [42]) with 1. replace (zlen (replicate k 42)) with (Z.of_nat k) by len.
  assert (0 ≤ Z.of_nat k) by lia. assert (1 + (Z.of_nat k + zlen (print qs)) ≠ 0) by lia.
  replace (1 + (Z.of_nat k + zlen (print qs)) =? 0) with false by lia.
  rewrite (rest_at_get _ _ _ _ Hp). cbn [mbind option_bind]. change (42 =? 42) with true. cbn iota.
  rewrite <- !app_assoc in Hp. apply (rest_at_app _ _ [42]) in Hp. change (zlen [42]) with 1 in Hp.
  rewrite skip_trailing, (trailing_stars_spec _ _ _ k qs);
    [|pose proof (rest_at_length _ _ _ Hp); len|done..|by rewrite print_app, print_stars, <- app_assoc].
  cbn [mbind option_bind].
  replace (1 + (Z.of_nat k + zlen (print qs)) - Z.of_nat k) with (1 + zlen (print qs)) by lia.
  pose proof (print_zero qs Hq) as Hz. destruct (decide (qs = [])) as [-> |Hqs].
  { change (1 + zlen (print []) =? 1) with true. cbn iota. f_equal. symmetry. by apply any_suffix_end. }
  rewrite bool_decide_false in Hz by done. replace (1 + zlen (print qs) =? 1) with false by lia.
  replace (1 + zlen (print qs) - 1) with (zlen (print qs)) by lia.
  replace (p + 1 + Z.of_nat k - 1 + 1) with (p + 1 + zlen (replicate k 42)) by len.
  apply star_loop_spec; [|etransitivity; [apply (matchb_nil nocase 0 qs Hq)|by apply bool_decide_false]|pose proof (rest_at_length _ _ _ Ht); len|done..].
  intros t' s' Hs' Hb Ht'. apply IH; [lia|done|done| |done..].
  by apply (rest_at_app _ _ (replicate k 42)).
Qed.

Lemma print_pitem_cons i : i ≠ PStar → pitem_ok i → ∃ c q, print_pitem i = c :: q ∧ (c =? 42) = false.
Proof.
  intros Hi Hok. destruct i as [| |neg items|c]; [done|by eexists _, _..|]. cbn [print_pitem].
  destruct (special c) eqn:E; [by eexists _, _|]. apply special_false in E as [E _]. by eexists c, _.
Qed.
Lemma matchb_item i ps s : i ≠ PStar →
  matchb nocase (i :: ps) s = match s with [] => false | x :: s => pitem_match nocase i x && matchb nocase ps s end.
Proof. by destruct i. Qed.

Lemma match_item_spec fuel i ps s p t :
  loop_ok fuel → i ≠ PStar → (length ps ≤ fuel)%nat → Forall pitem_ok (i :: ps) → bytes_ok s →
  rest_at pm p (print (i :: ps) ++ [0]) → rest_at sm t (s ++ [0]) → (s = [] → starts_not (i :: ps) = false) →
  match_loop pm sm nocase (S fuel) p (zlen (print (i :: ps))) t (zlen s) = Some (matchb nocase (i :: ps) s).
Proof.
  intros IH Hi Hf [Hoi Hok]%Forall_cons Hs Hp Ht Hne. rewrite matchb_item by done.
  destruct (print_pitem_cons i Hi Hoi) as (c & q & Ec & Hc).
  destruct (rest_at_char _ _ _ Hs Ht) as (d & Hd & Hbd & Hnul).
  rewrite print_cons, <- app_assoc in Hp. rewrite print_cons, zlen_app.
  pose proof (zlen_nonneg (print ps)) as Hn. pose proof (zlen_nonneg q) as Hq.
  assert (zlen (print_pitem i) = 1 + zlen q) as Hlen by by rewrite Ec, zlen_cons.
  cbn [match_loop]. replace (zlen (print_pitem i) + zlen (print ps) =? 0) with false by lia.
  assert (get8 pm p = Some c) as -> by (rewrite Ec in Hp; apply (rest_at_get _ _ _ _ Hp)).
  cbn [mbind option_bind]. rewrite Hc. destruct (decide (i = PAny ∧ s = [])) as [[-> ->]|Hany].
  { injection Ec as <- <-. done. }
  rewrite (match_one_spec i c q p _ t d _ (print ps ++ [0])); [|done..| |done|done|lia].
  2: { intros ->. destruct s; [by destruct Hany|]. rewrite zlen_cons. pose proof (zlen_nonneg s). lia. }
  cbn [mbind option_bind]. destruct s as [|x s].
  { rewrite (Hnul eq_refl), pitem_match_nul; try done; [by intros -> ; destruct Hany|].
    specialize (Hne eq_refl). by destruct i as [| |[]|]. }
  rewrite (rest_at_get _ _ _ _ Ht) in Hd. injection Hd as <-.
  destruct (pitem_match nocase i x); [|done]. cbn [andb]. cbv zeta.
  rewrite zlen_cons. replace (1 + zlen s - 1) with (zlen s) by lia.
  replace (zlen (print_pitem i) + zlen (print ps) - zlen (print_pitem i) + 1 - 1) with (zlen (print ps)) by lia.
  replace (p + zlen (print_pitem i) - 1 + 1) with (p + zlen (print_pitem i)) by lia.
  apply rest_at_app in Hp. apply rest_at_next in Ht. apply Forall_cons in Hs as [_ Hs].
  destruct s as [|y s]; [|rewrite zlen_cons; pose proof (zlen_nonneg s)].
  2: { replace (1 + zlen s =? 0) with false by lia. rewrite <- zlen_cons with (x := y). by apply IH. }
  change (zlen [] =? 0) with true. cbn iota. destruct (split_stars ps) as (k & qs & -> & Hqs).
  rewrite matchb_nil by done. apply Forall_app in Hok as [_ Hok].
  pose proof (rest_at_length _ _ _ Hp) as Hl. rewrite print_app, print_stars in Hl.
  rewrite (trailing_stars_spec _ _ _ k qs); [|len|done..].
  cbn [mbind option_bind]. rewrite andb_true_r, <- print_zero by done. f_equal.
  rewrite print_app, print_stars, zlen_app. replace (zlen (replicate k 42)) with (Z.of_nat k) by len.
  f_equal. lia.
Qed.

Lemma match_loop_spec fuel : loop_ok fuel.
Proof.
  induction fuel as [|fuel IH]; intros ps s p t Hf Hok Hs Hp Ht Hne.
  all: destruct ps as [|i ps]; [by destruct s|cbn in Hf].
  1: lia.
  destruct (decide (i = PStar)) as [-> |Hi].
  - apply match_star_spec; try done; [lia|]. by apply Forall_cons in Hok as [_ ?].
  - apply match_item_spec; try done. lia.
Qed.

End loops.

Lemma print_length ps : (length ps ≤ length (print ps))%nat.
Proof.
  induction ps as [|i ps IH]; [done|]. rewrite print_cons, length_app.
  assert (0 < length (print_pitem i))%nat; [|cbn; lia].
  destruct i as [| |neg items|c]; cbn; [..|destruct (special c); cbn]; lia.
Qed.

(** C24. For every pattern in canonical form, every string and both settings of the
    case, [stringmatchlen] stays inside of the two blocks, terminates and answers
    whether the pattern matches. A pattern in canonical form ([print]) is written with
    [*], [?], closed classes and literal characters, of which exactly those that have
    a meaning have a backslash; the characters of a pattern are not null, and ranges
    in classes are of ASCII characters and start with a character without a meaning.
    On the empty string the pattern must not start with a class that has a caret. For
    classes that are not closed and other uses of the backslash see
    [stringmatchlen_overreads]. *)
Theorem stringmatchlen_correct ps s nocase :
  Forall pitem_ok ps → bytes_ok s → (s = [] → starts_not ps = false) →
  stringmatchlen (print ps) s nocase = Some (matchb nocase ps s).
Proof.
  intros Hok Hs Hne. unfold stringmatchlen. apply match_loop_spec; try done.
  pose proof (print_length ps). lia.
Qed.
Lemma stringmatchlen_correct_witness :
  stringmatchlen (str "*[a-c^\]]?\*") (str "xxB]*") true = Some true.
Proof.
  exact (stringmatchlen_correct [PStar; PClass false [CRange 97 99; CChar 93]; PAny; PLit 42] (str "xxB]*") true
    ltac:(by_decision) ltac:(by_decision) ltac:(done)).
Defined.

(** C32. On the empty string a class with a caret matches, and takes a
    character that is not there: a pattern of such a class and a star, which
    needs at least one character, is reported to match; with one more character
    in the pattern the search runs beyond the end of the string.  A class that
    ends in a backslash is read beyond the end of the pattern, and an escaped
    letter of a class does not match in the other case. *)
Theorem stringmatchlen_overreads items nocase : Forall citem_ok items →
  stringmatchlen (print [PClass true items; PStar]) [] nocase = Some true ∧
  matchb nocase [PClass true items; PStar] [] = false ∧
  stringmatchlen (str "[^a]*b") [] nocase = None ∧
  stringmatchlen (str "[\") (str "x") nocase = None ∧
  stringmatchlen (str "[\a]") (str "A") true = Some false.
Proof.
  intros Hok. split; [|by destruct nocase].
  set (pat := print [PClass true items; PStar]). unfold stringmatchlen.
  set (pm := pat ++ [0]).
  assert (rest_at pm 0 (print_pitem (PClass true items) ++ print [PStar] ++ [0])) as Hp.
  { unfold pm, pat. rewrite print_cons, <- app_assoc. done. }
  pose proof (rest_at_app _ _ _ _ Hp) as Hp'.
  assert (zlen pat = zlen (print_pitem (PClass true items)) + 1) as -> by (unfold pat; rewrite print_cons; len).
  assert (0 < zlen (print_pitem (PClass true items))) as Hl by (cbn; len).
  replace (length pat) with (S (pred (length pat))) by (unfold pat; rewrite print_cons; cbn; lia).
  cbn [match_loop]. replace (zlen (print_pitem (PClass true items)) + 1 =? 0) with false by lia.
  assert (get8 pm 0 = Some 91) as -> by apply (rest_at_get _ _ _ _ Hp).
  cbn [mbind option_bind]. change (91 =? 42) with false. cbn iota.
  rewrite (match_class_spec _ _ _ true items 0 _ 0 0 0 (print [PStar] ++ [0])); [|done..|lia].
  assert (pitem_match nocase (PClass true items) 0 = true) as ->.
  { pose proof (pitem_match_nul nocase (PClass false items)) as H. cbn in H |- *. by rewrite H. }
  cbn [mbind option_bind]. cbv zeta. change (0 - 1 =? 0) with false. cbn iota.
  replace (zlen (print_pitem (PClass true items)) + 1 - zlen (print_pitem (PClass true items)) + 1 - 1) with 1 by lia.
  replace (0 + zlen (print_pitem (PClass true items)) - 1 + 1) with (0 + zlen (print_pitem (PClass true items))) by lia.
  change (1 =? 0) with false. cbn iota. change (print [PStar] ++ [0]) with [42; 0] in Hp'.
  rewrite (rest_at_get _ _ _ _ Hp'). cbn [mbind option_bind]. change (42 =? 42) with true. cbn iota.
  cbn [skip_stars]. apply rest_at_next in Hp'. rewrite (rest_at_get _ _ _ _ Hp'). done.
Qed.
Lemma stringmatchlen_overreads_witness :
  stringmatchlen (str "[^a]*") [] false = Some true.
Proof. exact (proj1 (stringmatchlen_overreads [CChar 97] false ltac:(by_decision))). Defined.
