(* ===== verification/SdsText.v ===== *)
(** * SdsText: numbers, splitting and quoting (redis-3.0.0/src/sds.c)

    [sdsll2str] and [sdsull2str] work on a buffer of bytes.  The strings that
    [sdscatrepr] and [sdssplitargs] build with [sdscatlen] are given by their
    bytes ([sdscatlen_spec]).  The characters are those of the "C" locale. *)

From S2P Require Import Prelude NumConv Objects Sds.

(** ** Numbers *)

Definition SDS_LLSTR_SIZE : Z := 21.

(** [do { *p++ = '0'+(v%10); v /= 10; } while(v)] *)
Fixpoint digit_loop (fuel : nat) (s : list Z) (p v : Z) : option (list Z * Z) :=
  match fuel with
  | O => None
  | S fuel =>
      s ← put8 s p (c0 + v mod 10);
      let v := v / 10 in
      if v =? 0 then Some (s, p + 1) else digit_loop fuel s (p + 1) v
  end.

(** [while(s < p)]: exchange the bytes at [i] and [j]. *)
Fixpoint rev_loop (fuel : nat) (s : list Z) (i j : Z) : option (list Z) :=
  match fuel with
  | O => None
  | S fuel =>
      if i <? j then
        a ← get8 s i; b ← get8 s j; s ← put8 s i b; s ← put8 s j a; rev_loop fuel s (i + 1) (j - 1)
      else Some s
  end.

(** The buffer and the length.  [-value] overflows for [LLONG_MIN]. *)
Definition sdsll2str (s : list Z) (value : Z) : option (list Z * Z) :=
  if value =? LLONG_MIN then None else
  let v := if value <? 0 then - value else value in
  '(s, p) ← digit_loop 20 s 0 v;
  '(s, p) ← (if value <? 0 then s ← put8 s p cminus; Some (s, p + 1) else Some (s, p));
  let l := p in
  s ← put8 s p 0;
  s ← rev_loop (S (length s)) s 0 (p - 1);
  Some (s, l).

Definition sdsull2str (s : list Z) (v : Z) : option (list Z * Z) :=
  '(s, p) ← digit_loop 20 s 0 v;
  let l := p in
  s ← put8 s p 0;
  s ← rev_loop (S (length s)) s 0 (p - 1);
  Some (s, l).

(** [buf]: the indeterminate bytes of the local array. *)
Definition sdsfromlonglong (buf : list Z) (value : Z) : option sdshdr :=
  '(buf, len) ← sdsll2str buf value; sdsnewlen (Some buf) len.

(** ** Splitting *)

(** The loop on [j]; [tokens] has [slots] places, [elements] of them in use; the
    tokens so far, last one first. *)
Fixpoint split_loop (fuel : nat) (s sep : list Z) (j start slots elements : Z) (tokens : list (list Z)) : option (list (list Z)) :=
  match fuel with
  | O => None
  | S fuel =>
      let len := zlen s in
      let seplen := zlen sep in
      if j <? len - (seplen - 1) then
        let slots := if slots <? elements + 2 then slots * 2 else slots in
        c ← get8 s j; d ← get8 sep 0;
        hit ← (if (seplen =? 1) && (c =? d) then Some true
               else bs ← load s j seplen; Some (bool_decide (bs = sep)));
        if (hit : bool) then
          t ← load s start (j - start);
          if elements <? slots then split_loop fuel s sep (j + seplen) (j + seplen) slots (elements + 1) (t :: tokens) else None
        else split_loop fuel s sep (j + 1) start slots elements tokens
      else
        t ← load s start (len - start);
        if elements <? slots then Some (rev (t :: tokens)) else None
  end.

(** [None] inside: NULL. *)
Definition sdssplitlen (s sep : list Z) : option (option (list (list Z))) :=
  if zlen sep <? 1 then Some None else
  if zlen s =? 0 then Some (Some []) else
  Some <$> split_loop (S (length s)) s sep 0 0 5 0 [].

(** ** Quoting *)

Definition isprint (c : Z) : bool := (32 <=? c) && (c <=? 126).
Definition isspace (c : Z) : bool := (c =? 32) || ((9 <=? c) && (c <=? 13)).

(** The digit of ["%02x"] *)
Definition hexdigit (n : Z) : Z := if n <? 10 then 48 + n else 97 + (n - 10).

(** What one byte adds. *)
Definition repr_char (c : Z) : list Z :=
  if (c =? 92) || (c =? 34) then [92; c]
  else if c =? 10 then [92; 110]
  else if c =? 13 then [92; 114]
  else if c =? 9 then [92; 116]
  else if c =? 7 then [92; 97]
  else if c =? 8 then [92; 98]
  else if isprint c then [c]
  else [92; 120; hexdigit (c / 16); hexdigit (c mod 16)].

(** [while(len--)] *)
Fixpoint repr_loop (s p : list Z) : list Z :=
  match p with [] => s | c :: p => repr_loop (s ++ repr_char c) p end.
Definition sdscatrepr (s p : list Z) : list Z := repr_loop (s ++ [34]) p ++ [34].

Definition is_hex_digit (c : Z) : bool :=
  ((48 <=? c) && (c <=? 57)) || ((97 <=? c) && (c <=? 102)) || ((65 <=? c) && (c <=? 70)).
Definition hex_digit_to_int (c : Z) : Z :=
  if (48 <=? c) && (c <=? 57) then c - 48
  else if (97 <=? c) && (c <=? 102) then c - 97 + 10
  else if (65 <=? c) && (c <=? 70) then c - 65 + 10
  else 0.

(** [ *(p+i)], for a position up to the null term; [p] is what is left of the
    line. *)
Definition at_ (p : list Z) (i : nat) : Z := default 0 (p !! i).

(** The character a backslash and [c] stand for. *)
Definition unescape (c : Z) : Z :=
  if c =? 110 then 10 else if c =? 114 then 13 else if c =? 116 then 9 else if c =? 98 then 8 else if c =? 97 then 7 else c.

(** [while(!done)]: the token and what is left of the line; [None]: [goto err]. *)
Fixpoint get_token (fuel : nat) (inq insq : bool) (current p : list Z) : option (list Z * list Z) :=
  match fuel with
  | O => None
  | S fuel =>
      let c := at_ p 0 in
      let next := at_ p 1 in
      if inq then
        if (c =? 92) && (next =? 120) && is_hex_digit (at_ p 2) && is_hex_digit (at_ p 3) then
          let byte := u8 (hex_digit_to_int (at_ p 2) * 16 + hex_digit_to_int (at_ p 3)) in
          get_token fuel inq insq (current ++ [byte]) (drop 4 p)
        else if (c =? 92) && negb (next =? 0) then get_token fuel inq insq (current ++ [unescape next]) (drop 2 p)
        else if c =? 34 then
          if negb (next =? 0) && negb (isspace next) then None else Some (current, drop 1 p)
        else if c =? 0 then None
        else get_token fuel inq insq (current ++ [c]) (drop 1 p)
      else if insq then
        if (c =? 92) && (next =? 39) then get_token fuel inq insq (current ++ [39]) (drop 2 p)
        else if c =? 39 then
          if negb (next =? 0) && negb (isspace next) then None else Some (current, drop 1 p)
        else if c =? 0 then None
        else get_token fuel inq insq (current ++ [c]) (drop 1 p)
      else if (c =? 32) || (c =? 10) || (c =? 13) || (c =? 9) || (c =? 0) then Some (current, drop 1 p)
      else if c =? 34 then get_token fuel true insq current (drop 1 p)
      else if c =? 39 then get_token fuel inq true current (drop 1 p)
      else get_token fuel inq insq (current ++ [c]) (drop 1 p)
  end.

(** [while( *p && isspace( *p)) p++] *)
Fixpoint skip_blanks (p : list Z) : list Z :=
  match p with c :: p' => if isspace c then skip_blanks p' else p | [] => [] end.

(** [while(1)]; the line holds no null byte. *)
Fixpoint args_loop (fuel : nat) (p : list Z) (vector : list (list Z)) : option (list (list Z)) :=
  match fuel with
  | O => None
  | S fuel =>
      let p := skip_blanks p in
      if at_ p 0 =? 0 then Some (rev vector) else
      '(current, p) ← get_token (S (length p)) false false [] p;
      args_loop fuel p (current :: vector)
  end.
(** [None]: NULL. *)
Definition sdssplitargs (line : list Z) : option (list (list Z)) := args_loop (S (length line)) line [].

(** ** Numbers: facts *)

Lemma isdigit_mod v : isdigit (c0 + v mod 10) = true.
Proof. apply isdigit_spec. unfold c0, c9. pose proof (Z.mod_pos_bound v 10). lia. Qed.

Lemma digit_loop_spec fuel : ∀ A R v,
  0 ≤ v < 10 ^ Z.of_nat fuel → (0 < fuel)%nat → (fuel ≤ length R)%nat →
  ∃ ds R1 R2, canon ds ∧ dval ds = v ∧ R = R1 ++ R2 ∧ length R1 = length ds ∧ (length ds ≤ fuel)%nat ∧
    digit_loop fuel (A ++ R) (zlen A) v = Some (A ++ reverse ds ++ R2, zlen A + zlen ds).
Proof.
  induction fuel as [|fuel IH]; intros A R v Hv Hf HR; [lia|]. destruct R as [|x R]; [cbn in HR; lia|]. cbn [digit_loop].
  assert (byte_ok (c0 + v mod 10)) as Hbyte by (unfold byte_ok, c0; pose proof (Z.mod_pos_bound v 10); lia).
  rewrite put8_app by done. cbn [mbind option_bind]. destruct (Z.eqb_spec (v / 10) 0) as [Hz|Hnz].
  - destruct (canon_digit v) as [Hc Hd]; [divlia|]. exists [c0 + v], [x], R. split; [done|]. split; [done|]. split; [done|]. split; [done|].
    split; [cbn; lia|]. rewrite Z.mod_small by divlia. done.
  - rewrite Nat2Z.inj_succ, Z.pow_succ_r in Hv by lia.
    assert (0 < fuel)%nat by (destruct fuel; [|lia]; cbn in Hv; divlia).
    destruct (IH (A ++ [c0 + v mod 10]) R (v / 10)) as (ds & R1 & R2 & Hc & Hd & -> & Hl & Hlf & E); [split; divlia|done|cbn in HR; lia|].
    exists (ds ++ [c0 + v mod 10]), (x :: R1), R2. split; [apply canon_snoc; [done|lia|apply isdigit_mod]|].
    split; [unfold dval in *; rewrite dval_snoc, Hd; divlia|]. split; [done|]. split; [rewrite length_app; cbn; lia|]. split; [rewrite length_app; cbn; lia|].
    replace (zlen A + 1) with (zlen (A ++ [c0 + v mod 10])) by len.
    replace (A ++ c0 + v mod 10 :: R1 ++ R2) with ((A ++ [c0 + v mod 10]) ++ R1 ++ R2) by by rewrite <- app_assoc.
    rewrite E. do 2 f_equal; [rewrite reverse_app; by rewrite <- app_assoc|len].
Qed.

Lemma rev_loop_spec n : ∀ M A B fuel, (∀ c, c ∈ M → byte_ok c) → (length M ≤ n)%nat → (n < fuel)%nat →
  rev_loop fuel (A ++ M ++ B) (zlen A) (zlen A + zlen M - 1) = Some (A ++ reverse M ++ B).
Proof.
  induction n as [n IH] using lt_wf_ind. intros M A B fuel HM Hn Hf. destruct fuel as [|fuel]; [lia|]. cbn [rev_loop].
  destruct M as [|x M]. { change (zlen (@nil Z)) with 0. by rewrite (proj2 (Z.ltb_ge _ _)) by lia. }
  destruct M as [|y M _] using rev_ind. { change (zlen [x]) with 1. by rewrite (proj2 (Z.ltb_ge _ _)) by lia. }
  rewrite (proj2 (Z.ltb_lt _ _)) by len. cbn [app]. rewrite (get8_app A x _ (zlen A)) by done. cbn [mbind option_bind].
  assert (∀ u v, A ++ u :: (M ++ [v]) ++ B = (A ++ u :: M) ++ v :: B) as Ev by (intros; rewrite <- !app_assoc; done).
  assert (∀ u, zlen A + zlen (x :: M ++ [y]) - 1 = zlen (A ++ u :: M)) as Ej by (intros; len).
  rewrite Ev, (get8_app (A ++ x :: M)) by apply Ej. cbn [mbind option_bind]. rewrite <- Ev.
  assert (byte_ok x ∧ byte_ok y) as [Hx Hy] by (split; apply HM; [by left|right; apply elem_of_app; right; by left]).
  rewrite put8_app by done. cbn [mbind option_bind]. rewrite Ev, put8_app by (try done; apply Ej). cbn [mbind option_bind].
  assert ((A ++ y :: M) ++ x :: B = (A ++ [y]) ++ M ++ (x :: B)) as -> by (by rewrite <- !app_assoc).
  rewrite length_cons, length_app in Hn. cbn in Hn.
  replace (zlen A + 1) with (zlen (A ++ [y])) by len. replace (zlen A + zlen (x :: M ++ [y]) - 1 - 1) with (zlen (A ++ [y]) + zlen M - 1) by len.
  rewrite (IH (n - 2)%nat); [|lia|intros; apply HM; right; apply elem_of_app; by left|lia|lia].
  f_equal. rewrite reverse_cons, reverse_app. cbn [reverse rev_append]. by rewrite <- !app_assoc.
Qed.

(** The digits of [v], reversed: the string and what follows. *)
Lemma ll2str_tail M R fuel :
  (∀ c, c ∈ M → byte_ok c) → (length M < fuel)%nat → R ≠ [] → ∃ R',
  (s ← put8 (M ++ R) (zlen M) 0; s ← rev_loop (S (length s)) s 0 (zlen M - 1); Some (s, zlen M)) = Some (reverse M ++ 0 :: R', zlen M) ∧
  length R = S (length R').
Proof.
  intros HM Hf HR. destruct R as [|x R]; [done|]. exists R. split; [|done]. rewrite put8_app by by try split. cbn [mbind option_bind].
  pose proof (rev_loop_spec (length M) M [] (0 :: R) (S (length (M ++ 0 :: R)))) as E. cbn [app] in E. change (zlen (@nil Z)) with 0 in E.
  rewrite Z.add_0_l in E. rewrite E; [done|done|done|rewrite length_app; lia].
Qed.

Lemma digs_byte ds c : digs ds → c ∈ ds → byte_ok c.
Proof. unfold digs. rewrite Forall_forall. intros H Hc. specialize (H c Hc). apply isdigit_spec in H. unfold c0, c9, byte_ok in *. lia. Qed.

Lemma sdsull2str_spec s v :
  in_u 64 v → SDS_LLSTR_SIZE ≤ zlen s →
  ∃ ds R, canon ds ∧ dval ds = v ∧ sdsull2str s v = Some (ds ++ 0 :: R, zlen ds) ∧ length s = length (ds ++ 0 :: R).
Proof.
  unfold in_u, SDS_LLSTR_SIZE. intros Hv Hl. unfold sdsull2str.
  destruct (digit_loop_spec 20 [] s v) as (ds & R1 & R2 & Hc & Hd & -> & Hl1 & Hl2 & E); [split; [lia|]; pow_compute; lia|lia|unfold zlen in Hl; lia|].
  cbn [app] in E. change (zlen (@nil Z)) with 0 in E. rewrite E. cbn [mbind option_bind]. rewrite Z.add_0_l.
  rewrite zlen_app in Hl. assert (R2 ≠ []) as HR by (intros ->; revert Hl; len).
  assert (zlen ds = zlen (reverse ds)) as Er by (unfold zlen; by rewrite length_reverse).
  destruct (ll2str_tail (reverse ds) R2 (S (length ds))) as (R' & E' & HR'); [|rewrite length_reverse; lia|done|].
  { intros c. rewrite elem_of_reverse. destruct Hc as (_ & Hc & _). by apply digs_byte. }
  exists ds, R'. split; [done|]. split; [done|]. rewrite reverse_involutive in E'. rewrite Er. split; [exact E'|].
  rewrite !length_app. cbn. lia.
Qed.

Lemma sdsll2str_spec s value :
  in_s 64 value → value ≠ LLONG_MIN → SDS_LLSTR_SIZE ≤ zlen s →
  ∃ ds R, decimal ds value ∧ sdsll2str s value = Some (ds ++ 0 :: R, zlen ds) ∧ length s = length (ds ++ 0 :: R).
Proof.
  unfold in_s, SDS_LLSTR_SIZE, LLONG_MIN. intros Hv Hm Hl. unfold sdsll2str, LLONG_MIN. rewrite (proj2 (Z.eqb_neq _ _)) by done.
  set (v := if value <? 0 then - value else value). assert (0 ≤ v < 10 ^ 19) as Hb by (subst v; revert Hv Hm; pow_compute; case_if; lia).
  destruct (digit_loop_spec 20 [] s v) as (ds & R1 & R2 & Hc & Hd & -> & Hl1 & Hl2 & E); [split; [lia|]; revert Hb; pow_compute; lia|lia|unfold zlen in Hl; lia|].
  cbn [app] in E. change (zlen (@nil Z)) with 0 in E. rewrite E. cbn [mbind option_bind]. rewrite Z.add_0_l.
  assert (zlen ds ≤ 19) as Hl19.
  { destruct (decide (ds = [c0])) as [-> |Hne]; [done|]. pose proof (canon_bounds ds Hc Hne) as [Hlo _].
    destruct (decide (zlen ds ≤ 19)); [done|]. assert (10 ^ 19 ≤ 10 ^ (zlen ds - 1)) by (apply Z.pow_le_mono_r; lia). lia. }
  rewrite zlen_app in Hl. assert (zlen R1 = zlen ds) as EzR by (unfold zlen; by rewrite Hl1).
  assert (zlen ds = zlen (reverse ds)) as Er by (unfold zlen; by rewrite length_reverse).
  assert (∀ c, c ∈ reverse ds → byte_ok c) as Hbyte.
  { intros c. rewrite elem_of_reverse. destruct Hc as (_ & Hc & _). by apply digs_byte. }
  destruct (Z.ltb_spec value 0) as [Hneg|Hpos]; subst v; cbn [mbind option_bind].
  - destruct R2 as [|x R2]; [revert Hl; len|]. rewrite Er, put8_app by by try split. cbn [mbind option_bind].
    replace (reverse ds ++ cminus :: R2) with ((reverse ds ++ [cminus]) ++ R2) by by rewrite <- app_assoc.
    replace (zlen (reverse ds) + 1) with (zlen (reverse ds ++ [cminus])) by len.
    destruct (ll2str_tail (reverse ds ++ [cminus]) R2 (S (S (length ds)))) as (R' & E' & HR'); [|rewrite length_app, length_reverse; cbn; lia|intros ->; revert Hl; len|].
    { intros c [Hin|Hin]%elem_of_app; [by apply Hbyte|]. apply list_elem_of_singleton in Hin as ->. done. }
    rewrite reverse_app, reverse_involutive in E'. cbn [reverse rev_append app] in E'.
    exists (cminus :: ds), R'. split; [right; exists ds; split; [done|]; split; [done|lia]|]. split; [|rewrite !length_app; cbn; lia].
    replace (zlen (cminus :: ds)) with (zlen (reverse ds ++ [cminus])) by len. exact E'.
  - destruct (ll2str_tail (reverse ds) R2 (S (length ds))) as (R' & E' & HR'); [done|rewrite length_reverse; lia|intros ->; revert Hl; len|].
    exists ds, R'. split; [left; by split|]. rewrite reverse_involutive in E'. rewrite Er. split; [exact E'|].
    rewrite !length_app. cbn. lia.
Qed.

Lemma decimal_bytes ds v : decimal ds v → bytes_ok ds.
Proof.
  assert (∀ ds, canon ds → bytes_ok ds) as Hc by (intros d (_ & Hd & _); apply Forall_forall; intros c; by apply digs_byte).
  intros [[H _]|(d & H & -> & _)]; [by apply Hc|]. apply Forall_cons_2; [done|by apply Hc].
Qed.

(** [sdsfromlonglong] gives the decimal digits of a value. *)
Lemma sdsfromlonglong_spec buf value :
  in_s 64 value → value ≠ LLONG_MIN → SDS_LLSTR_SIZE ≤ zlen buf < 2 ^ 32 →
  ∃ s ds, sdsfromlonglong buf value = Some s ∧ sds_rep s ds ∧ decimal ds value.
Proof.
  intros Hv Hm Hl. destruct (sdsll2str_spec buf value Hv Hm) as (ds & R & Hd & E & Hlen); [lia|].
  unfold sdsfromlonglong. rewrite E. cbn [mbind option_bind]. assert (zlen ds < 2 ^ 32) by (unfold zlen in *; rewrite Hlen, length_app in Hl; lia).
  unfold sdsnewlen. rewrite load_app_0 by done. cbn [mbind option_bind]. rewrite wrapu_small by (unfold in_u; pose proof (zlen_nonneg ds); lia).
  eexists _, ds. split; [done|]. split; [|done]. apply (sds_rep_make _ _ _ []); [done|done|done|by eapply decimal_bytes|change (zlen (@nil Z)) with 0; lia].
Qed.

(** ** Splitting: facts *)

(** The leftmost split: a token ends where the separator first occurs. *)
Inductive splits (sep : list Z) : list Z → list (list Z) → Prop :=
  | splits_last t : (∀ j, ¬ sep `prefix_of` drop j t) → splits sep t [t]
  | splits_cons t s ts :
      (∀ j, (j < length t)%nat → ¬ sep `prefix_of` drop j (t ++ sep ++ s)) →
      splits sep s ts → splits sep (t ++ sep ++ s) (t :: ts).

(** The tokens with the separator between them. *)
Fixpoint join (sep : list Z) (ts : list (list Z)) : list Z :=
  match ts with [] => [] | [t] => t | t :: ts => t ++ sep ++ join sep ts end.

Lemma splits_join sep s ts : splits sep s ts → join sep ts = s.
Proof. induction 1 as [|t s ts _ H IH]; [done|]. cbn. destruct ts; [inversion H|]. by rewrite IH. Qed.

Lemma splits_free sep s ts t : sep ≠ [] → splits sep s ts → t ∈ ts → ∀ j, ¬ sep `prefix_of` drop j t.
Proof.
  intros Hsep. induction 1 as [t' Hno|t' s ts Hno Hs IH]; intros Hin j.
  - apply list_elem_of_singleton in Hin as ->. apply Hno.
  - apply elem_of_cons in Hin as [-> |Hin]; [|by apply IH]. destruct (decide (j < length t')%nat) as [Hj|Hj].
    + intros [k Hk]. apply (Hno j Hj). exists (k ++ sep ++ s). rewrite drop_app_le by lia. rewrite Hk. by rewrite <- app_assoc.
    + rewrite drop_ge by lia. intros [k Hk]. destruct sep; [done|]. done.
Qed.

Lemma take_prefix_iff (sep s : list Z) : take (length sep) s = sep ↔ sep `prefix_of` s.
Proof.
  split.
  - intros E. exists (drop (length sep) s). by rewrite <- E at 1; rewrite take_drop.
  - intros [k ->]. by rewrite take_app_length.
Qed.

(** The test at position [j] *)
Lemma split_test s sep j : sep ≠ [] → 0 ≤ j → j + zlen sep ≤ zlen s → ∃ c d,
  get8 s j = Some c ∧ get8 sep 0 = Some d ∧
  (if (zlen sep =? 1) && (c =? d) then Some true else bs ← load s j (zlen sep); Some (bool_decide (bs = sep)))
  = Some (bool_decide (sep `prefix_of` drop (Z.to_nat j) s)).
Proof.
  intros Hsep Hj Hl. destruct (cut_at s j) as (A & B & -> & HA & HB); [pose proof (zlen_nonneg sep); lia|].
  destruct sep as [|d sep]; [done|]. rewrite zlen_app in Hl.
  destruct B as [|c B]; [revert HB Hl; len|]. exists c, d. rewrite get8_app, get8_0 by done. split; [done|]. split; [done|].
  rewrite drop_app_length' by (unfold zlen in HA; lia). destruct ((zlen (d :: sep) =? 1) && (c =? d)) eqn:E.
  - bool_tests. destruct sep; [|revert H; len]. subst d. rewrite bool_decide_true; [done|]. by exists B.
  - destruct (cut_at (c :: B) (zlen (d :: sep))) as (M & B' & EB & HM & _); [split; [apply zlen_nonneg|lia]|].
    rewrite EB, load_app by done. cbn [mbind option_bind]. f_equal. apply bool_decide_ext.
    rewrite <- take_prefix_iff, take_app_length' by (unfold zlen in HM; lia). done.
Qed.

(** The loop: [start] is after [A], and no separator starts in [B] before [j]. *)
Lemma split_loop_spec s sep : sep ≠ [] → ∀ fuel A B k slots tokens,
  s = A ++ B → (k ≤ length B)%nat → (length B - k < fuel)%nat → zlen tokens + 1 ≤ slots → 2 ≤ slots →
  (∀ i, (i < k)%nat → ¬ sep `prefix_of` drop i B) →
  ∃ ts, split_loop fuel s sep (zlen A + Z.of_nat k) (zlen A) slots (zlen tokens) tokens = Some (rev tokens ++ ts) ∧ splits sep B ts.
Proof.
  intros Hsep. induction fuel as [|fuel IH]; intros A B k slots tokens Es Hk Hf Hsl Hsl2 Hno; [lia|]. cbn [split_loop]. cbv zeta.
  pose proof (zlen_nonneg tokens). destruct (Z.ltb_spec (zlen A + Z.of_nat k) (zlen s - (zlen sep - 1))) as [Hlt|Hge].
  - destruct (split_test s sep (zlen A + Z.of_nat k)) as (c & d & -> & -> & Et); [done|pose proof (zlen_nonneg A); lia|lia|].
    cbn [mbind option_bind] in Et |- *. rewrite Et. clear Et c d.
    set (slots' := if slots <? zlen tokens + 2 then slots * 2 else slots).
    assert (zlen tokens + 2 ≤ slots') as Hsl' by (subst slots'; case_if; lia).
    replace (drop (Z.to_nat (zlen A + Z.of_nat k)) s) with (drop k B).
    2: { rewrite Es. replace (Z.to_nat (zlen A + Z.of_nat k)) with (length A + k)%nat by (unfold zlen; lia). by rewrite drop_app_add. }
    case_bool_decide as Hp.
    + destruct Hp as [s' Hp].
      assert (∃ T, B = T ++ sep ++ s' ∧ length T = k) as (T & EB & Hlk) by (exists (take k B); rewrite <- Hp, take_drop; split; [done|rewrite length_take; lia]).
      assert (s = A ++ T ++ sep ++ s') as Es' by by rewrite Es, EB.
      assert (load s (zlen A) (zlen A + Z.of_nat k - zlen A) = Some T) as -> by (rewrite Es'; apply load_app; unfold zlen; lia). cbn [mbind option_bind].
      rewrite (proj2 (Z.ltb_lt (zlen tokens) slots')) by lia.
      destruct (IH (A ++ T ++ sep) s' 0%nat slots' (T :: tokens)) as (ts & E & Hs); [rewrite Es'; by rewrite <- !app_assoc|lia| |rewrite zlen_cons; lia|lia|lia|].
      { apply (f_equal length) in EB. rewrite !length_app, Hlk in EB. destruct sep; [done|]. cbn in EB. lia. }
      exists (T :: ts). split.
      * replace (zlen (A ++ T ++ sep) + Z.of_nat 0) with (zlen (A ++ T ++ sep)) in E by lia.
        replace (zlen A + Z.of_nat k + zlen sep) with (zlen (A ++ T ++ sep)) by (rewrite !zlen_app; unfold zlen; lia).
        replace (zlen tokens + 1) with (zlen (T :: tokens)) by len. rewrite E. cbn. by rewrite <- app_assoc.
      * rewrite EB. apply splits_cons; [|done]. intros j Hj. rewrite <- EB. apply Hno. lia.
    + assert (S k ≤ length B)%nat as Hk'.
      { destruct (decide (k = length B)); [|lia]. rewrite Es in Hlt. destruct sep; [done|]. revert Hlt. len. }
      destruct (IH A B (S k) slots' tokens) as (ts & E & Hs); [done|lia|lia|lia|lia| |].
      { intros i Hi. destruct (decide (i = k)) as [-> |]; [done|]. apply Hno. lia. }
      exists ts. split; [|done]. by replace (zlen A + Z.of_nat k + 1) with (zlen A + Z.of_nat (S k)) by lia.
  - assert (load s (zlen A) (zlen s - zlen A) = Some B) as -> by (rewrite Es, <- (app_nil_r B) at 1; apply load_app; rewrite ?Es; len). cbn [mbind option_bind].
    rewrite (proj2 (Z.ltb_lt (zlen tokens) slots)) by lia. exists [B]. split; [done|]. apply splits_last. intros j [r Hr].
    destruct (decide (j < k)%nat) as [Hj|Hj]; [apply (Hno j Hj); by exists r|].
    apply (f_equal length) in Hr. rewrite length_drop, length_app in Hr. rewrite Es in Hge. destruct sep; [done|]. revert Hge Hr. len.
Qed.

Lemma sdssplitlen_spec s sep : s ≠ [] → sep ≠ [] → ∃ ts, sdssplitlen s sep = Some (Some ts) ∧ splits sep s ts.
Proof.
  intros Hs Hsep. unfold sdssplitlen. rewrite (proj2 (Z.ltb_ge _ _)) by (destruct sep; [done|]; len).
  rewrite (proj2 (Z.eqb_neq _ _)) by (destruct s; [done|]; len).
  destruct (split_loop_spec s sep Hsep (S (length s)) [] s 0%nat 5 []) as (ts & E & Hsp); [done|lia|lia|done|lia|lia|].
  exists ts. split; [|done]. change (zlen (@nil Z) + Z.of_nat 0) with 0 in E. change (zlen (@nil Z)) with 0 in E. change (zlen (@nil (list Z))) with 0 in E.
  by rewrite E.
Qed.

(** ** Quoting: facts *)

Definition quoted (b : list Z) : list Z := 34 :: concat (repr_char <$> b) ++ [34].

Lemma repr_loop_eq p : ∀ s, repr_loop s p = s ++ concat (repr_char <$> p).
Proof. induction p as [|c p IH]; intros s; [by rewrite app_nil_r|]. cbn. rewrite IH. by rewrite <- app_assoc. Qed.
Lemma sdscatrepr_quoted s p : sdscatrepr s p = s ++ quoted p.
Proof. unfold sdscatrepr, quoted. rewrite repr_loop_eq. by rewrite <- !app_assoc. Qed.

Lemma hexdigit_ok n : 0 ≤ n < 16 → is_hex_digit (hexdigit n) = true ∧ hex_digit_to_int (hexdigit n) = n.
Proof.
  intros Hn. assert (Forall (λ n, is_hex_digit (hexdigit n) = true ∧ hex_digit_to_int (hexdigit n) = n) (seqZ 0 16)) as H by by_decision.
  rewrite Forall_forall in H. apply H, elem_of_seqZ. lia.
Qed.

(** Inside of the quotes, one round of the loop reads back what one byte wrote. *)
Lemma get_token_char fuel insq current c p :
  byte_ok c → get_token (S fuel) true insq current (repr_char c ++ p) = get_token fuel true insq (current ++ [c]) p.
Proof.
  intros Hc. unfold repr_char.
  destruct (Z.eqb_spec c 92) as [-> |H92]; [done|]. destruct (Z.eqb_spec c 34) as [-> |H34]; [done|]. cbn [orb].
  destruct (Z.eqb_spec c 10) as [-> |H10]; [done|]. destruct (Z.eqb_spec c 13) as [-> |H13]; [done|].
  destruct (Z.eqb_spec c 9) as [-> |H9]; [done|]. destruct (Z.eqb_spec c 7) as [-> |H7]; [done|].
  destruct (Z.eqb_spec c 8) as [-> |H8]; [done|]. destruct (isprint c) eqn:Ep.
  - unfold isprint in Ep. bool_tests. cbn [app get_token]. change (at_ (c :: p) 0) with c.
    rewrite !(proj2 (Z.eqb_neq c _)) by lia. done.
  - unfold byte_ok in Hc. destruct (hexdigit_ok (c / 16)) as [Hh1 Hv1]; [divlia|]. destruct (hexdigit_ok (c mod 16)) as [Hh2 Hv2]; [divlia|].
    cbn [app get_token]. set (h1 := hexdigit (c / 16)) in *. set (h2 := hexdigit (c mod 16)) in *.
    change (at_ (92 :: 120 :: h1 :: h2 :: p) 0) with 92. change (at_ (92 :: 120 :: h1 :: h2 :: p) 1) with 120.
    change (at_ (92 :: 120 :: h1 :: h2 :: p) 2) with h1. change (at_ (92 :: 120 :: h1 :: h2 :: p) 3) with h2.
    rewrite Hh1, Hh2, Hv1, Hv2. cbn [Z.eqb Pos.eqb andb drop]. replace (c / 16 * 16 + c mod 16) with c by divlia.
    by rewrite wrapu_small.
Qed.

(** What follows a token: nothing or a blank. *)
Definition ends (p : list Z) : bool := (at_ p 0 =? 0) || isspace (at_ p 0).

Lemma get_token_quoted b : ∀ fuel insq current p,
  bytes_ok b → (length b < fuel)%nat → ends p = true →
  get_token fuel true insq current (concat (repr_char <$> b) ++ 34 :: p) = Some (current ++ b, p).
Proof.
  induction b as [|c b IH]; intros fuel insq current p Hb Hf Hp; (destruct fuel as [|fuel]; [cbn in Hf; lia|]).
  - cbn [fmap list_fmap concat app get_token]. change (at_ (34 :: p) 1) with (at_ p 0). change (at_ (34 :: p) 0) with 34. cbn [Z.eqb Pos.eqb andb drop]. unfold ends in Hp. rewrite app_nil_r, drop_0.
    destruct (at_ p 0 =? 0) eqn:E0, (isspace (at_ p 0)) eqn:E1; try done; cbn; by rewrite ?E0, ?E1.
  - apply Forall_cons in Hb as [Hc Hb]. rewrite fmap_cons. cbn [concat]. rewrite <- app_assoc, get_token_char by done.
    rewrite IH by (try done; cbn in Hf; lia). by rewrite <- app_assoc.
Qed.

Lemma length_quoted b : (length b < length (quoted b))%nat.
Proof.
  unfold quoted. rewrite length_cons, length_app. enough (length b ≤ length (concat (repr_char <$> b)))%nat by lia.
  induction b as [|c b IH]; [done|]. rewrite fmap_cons. cbn [concat]. rewrite length_app, length_cons.
  enough (1 ≤ length (repr_char c))%nat by lia. unfold repr_char. repeat case_if; cbn; lia.
Qed.

(** A round of [args_loop] *)
Lemma args_loop_quoted fuel b p vector :
  bytes_ok b → ends p = true → args_loop (S fuel) (quoted b ++ p) vector = args_loop fuel p (b :: vector).
Proof.
  intros Hb Hp. assert (quoted b ++ p = 34 :: concat (repr_char <$> b) ++ 34 :: p) as -> by (unfold quoted; cbn [app]; by rewrite <- app_assoc).
  set (q := concat (repr_char <$> b) ++ 34 :: p).
  assert (get_token (S (length (34 :: q))) false false [] (34 :: q) = Some (b, p)) as E; [|cbn [args_loop]; change (skip_blanks (34 :: q)) with (34 :: q); by rewrite E].
  cbn [get_token]. change (at_ (34 :: _) 0) with 34. cbn [Z.eqb Pos.eqb orb drop]. subst q. rewrite drop_0, get_token_quoted; [done|done| |done].
  pose proof (length_quoted b) as Hl. unfold quoted in Hl. rewrite !length_cons, !length_app in *. cbn in *. lia.
Qed.

Lemma args_loop_join args : ∀ fuel vector,
  Forall bytes_ok args → (length args < fuel)%nat → args_loop fuel (join [32] (quoted <$> args)) vector = Some (rev vector ++ args).
Proof.
  induction args as [|a args IH]; intros fuel vector Ha Hf; (destruct fuel as [|fuel]; [lia|]).
  { cbn. by rewrite app_nil_r. }
  apply Forall_cons in Ha as [Hb Ha]. cbn in Hf. rewrite !fmap_cons. destruct args as [|a' args].
  - cbn [fmap list_fmap join]. rewrite <- (app_nil_r (quoted a)), args_loop_quoted by done. destruct fuel; [lia|]. done.
  - change (join [32] (quoted a :: (quoted <$> a' :: args))) with (quoted a ++ 32 :: join [32] (quoted <$> a' :: args)).
    rewrite args_loop_quoted by done.
    assert (args_loop fuel (32 :: join [32] (quoted <$> a' :: args)) (a :: vector) = args_loop fuel (join [32] (quoted <$> a' :: args)) (a :: vector)) as ->.
    { destruct fuel; [done|]. done. }
    rewrite IH by (done || lia). cbn. by rewrite <- app_assoc.
Qed.

(** The fuel of [sdssplitargs] is enough: [None] always is an error of the line,
    since more rounds give the same result. *)
Ltac token_cases :=
  repeat match goal with
  | |- context [match ?b with true => _ | false => _ end] => destruct b eqn:?; cbn [andb negb]
  end.

Lemma get_token_stable fuel : ∀ fuel' inq insq current p,
  (length p < fuel)%nat → (length p < fuel')%nat → get_token fuel inq insq current p = get_token fuel' inq insq current p.
Proof.
  induction fuel as [|fuel IH]; intros fuel' inq insq current p Hf Hf'; [lia|]. destruct fuel' as [|fuel']; [lia|].
  destruct p as [|x p]; [by destruct inq, insq|]. cbn in Hf, Hf'. cbn [get_token].
  assert (∀ n inq insq current, get_token fuel inq insq current (drop (S n) (x :: p)) = get_token fuel' inq insq current (drop (S n) (x :: p))) as Hn
    by (intros; apply IH; cbn [drop]; rewrite length_drop; lia).
  rewrite !Hn. done.
Qed.

Lemma get_token_shorter fuel : ∀ inq insq current x p r q,
  get_token fuel inq insq current (x :: p) = Some (r, q) → (length q < length (x :: p))%nat.
Proof.
  assert (∀ inq insq current r q, get_token fuel inq insq current [] = Some (r, q) → q = []) as Hnil.
  { destruct fuel; [done|]. intros [] [] current r q; cbn; congruence. }
  revert Hnil. induction fuel as [|fuel IH]; intros Hnil inq insq current x p r q; [done|]. cbn [get_token].
  assert (∀ inq insq current r q, get_token fuel inq insq current [] = Some (r, q) → q = []) as Hnil'.
  { destruct fuel; [done|]. intros [] [] ? ? ?; cbn; congruence. }
  assert (∀ n inq insq current, get_token fuel inq insq current (drop (S n) (x :: p)) = Some (r, q) → (length q < length (x :: p))%nat) as Hn.
  { intros n inq' insq' current' E. cbn [drop] in E. destruct (drop n p) as [|y p'] eqn:Ep; [apply Hnil' in E as ->; cbn; lia|].
    apply (IH Hnil') in E. apply (f_equal length) in Ep. rewrite length_drop in Ep. cbn in *. lia. }
  assert (Some (current, drop 1 (x :: p)) = Some (r, q) → (length q < length (x :: p))%nat) as Hd by (intros [= _ <-]; cbn; rewrite drop_0; lia).
  token_cases; first [done|exact Hd|apply Hn].
Qed.

Lemma skip_blanks_shorter p : (length (skip_blanks p) ≤ length p)%nat.
Proof. induction p as [|c p IH]; [done|]. cbn. case_if; cbn; lia. Qed.

Lemma args_loop_stable fuel : ∀ fuel' p vector,
  (length p < fuel)%nat → (length p < fuel')%nat → args_loop fuel p vector = args_loop fuel' p vector.
Proof.
  induction fuel as [|fuel IH]; intros fuel' p vector Hf Hf'; [lia|]. destruct fuel' as [|fuel']; [lia|]. cbn [args_loop].
  pose proof (skip_blanks_shorter p). destruct (skip_blanks p) as [|x q]; [done|]. cbn [length] in *. case_if; [done|].
  destruct (get_token (S (S (length q))) false false [] (x :: q)) as [[current r]|] eqn:E; [|done]. cbn [mbind option_bind].
  apply get_token_shorter in E. cbn in E. apply IH; lia.
Qed.

Lemma sdssplitargs_fuel line fuel : (length line < fuel)%nat → args_loop fuel line [] = sdssplitargs line.
Proof. intros Hf. apply args_loop_stable; lia. Qed.

(** ** Correctness *)

(** Quoting and parsing: a line of arguments written by [sdscatrepr] with
    spaces in between is split back by [sdssplitargs] into the same arguments,
    whatever bytes they hold. *)
Theorem sdssplitargs_sdscatrepr args :
  Forall bytes_ok args → sdssplitargs (join [32] (sdscatrepr [] <$> args)) = Some args.
Proof.
  intros Ha. assert (sdscatrepr [] <$> args = quoted <$> args) as -> by (apply list_fmap_ext; intros; apply sdscatrepr_quoted).
  unfold sdssplitargs. rewrite args_loop_join; [done|done|].
  clear Ha. induction args as [|a [|a' args] IH]; [cbn; lia|pose proof (length_quoted a); cbn in *; lia|].
  rewrite fmap_cons in *. cbn [join]. pose proof (length_quoted a). rewrite fmap_cons in *. rewrite !length_app. cbn [length] in *. lia.
Qed.

Lemma sdssplitargs_sdscatrepr_witness :
  Forall bytes_ok [str "set"; [0; 10; 34; 92; 200]; []] ∧
  sdssplitargs (join [32] (sdscatrepr [] <$> [str "set"; [0; 10; 34; 92; 200]; []])) = Some [str "set"; [0; 10; 34; 92; 200]; []].
Proof. split; [by_decision|]. apply (sdssplitargs_sdscatrepr [str "set"; [0; 10; 34; 92; 200]; []]). by_decision. Defined.

(** Splitting: for a string and a separator that are not empty,
    [sdssplitlen] stays inside of the string and of the array of tokens it
    grows, and returns the leftmost split; the tokens joined by the separator
    are the string again and none of them holds the separator. *)
Theorem sdssplitlen_correct s sep :
  s ≠ [] → sep ≠ [] →
  ∃ ts, sdssplitlen s sep = Some (Some ts) ∧ splits sep s ts ∧ join sep ts = s ∧ ∀ t j, t ∈ ts → ¬ sep `prefix_of` drop j t.
Proof.
  intros Hs Hsep. destruct (sdssplitlen_spec s sep Hs Hsep) as (ts & E & Hsp). exists ts. split; [done|]. split; [done|].
  split; [by apply splits_join|]. intros t j Ht. by apply (splits_free sep s ts).
Qed.

Lemma sdssplitlen_correct_witness :
  ∃ ts, sdssplitlen (str "foo_-_bar_-_") (str "_-_") = Some (Some ts) ∧ splits (str "_-_") (str "foo_-_bar_-_") ts ∧
    join (str "_-_") ts = str "foo_-_bar_-_" ∧ ∀ t j, t ∈ ts → ¬ str "_-_" `prefix_of` drop j t.
Proof. by apply (sdssplitlen_correct (str "foo_-_bar_-_") (str "_-_")). Defined.
