(* ===== verification/Strto.v ===== *)
(** * Strto: [strtoll] of the C library and the conversion of objects to integers
    (redis-3.0.0/src/object.c) *)

From S2P Require Import Prelude NumConv Objects SdsText.

(** ** strtoll *)

Fixpoint strto_digits (acc : Z) (s : list Z) : Z * list Z :=
  match s with
  | c :: s' => if isdigit c then strto_digits (acc * 10 + (c - c0)) s' else (acc, s)
  | [] => (acc, [])
  end.
(** The exact value, and what is left of the string, from [*endptr] on; [s] is a
    block that ends in a null byte. *)
Definition strto (s : list Z) : Z * list Z :=
  let p := skip_blanks s in
  let '(neg, q) := match p with
    | c :: q => if c =? cminus then (true, q) else if c =? 43 then (false, q) else (false, p)
    | [] => (false, p)
    end in
  match q with
  | c :: _ => if isdigit c then let '(v, r) := strto_digits 0 q in (if (neg : bool) then - v else v, r) else (0, s)
  | [] => (0, s)
  end.
(** The value is clamped; [errno] is [ERANGE] if that changes it. *)
Definition strtoll (s : list Z) : Z * list Z :=
  let '(v, r) := strto s in (Z.max LLONG_MIN (Z.min LLONG_MAX v), r).
Definition strtoll_erange (s : list Z) : bool := negb (bool_decide (in_s 64 (fst (strto s)))).

(** ** Integers of objects *)

(** [None]: [REDIS_ERR]; a NULL object counts as 0. *)
Definition getLongLongFromObject (o : option enc_obj) : option Z :=
  match o with
  | None => Some 0
  | Some (ObjInt v) => Some v
  | Some (ObjStr s) =>
      let '(value, eptr) := strtoll (s ++ [0]) in
      if isspace (hd 0 (s ++ [0])) || negb (hd 0 eptr =? 0) || strtoll_erange (s ++ [0]) then None else Some value
  end.

(** ** Facts *)

Lemma strto_digits_rest acc q : ∃ v r, strto_digits acc (q ++ [0]) = (v, r ++ [0]).
Proof.
  revert acc. induction q as [|c q IH]; intros acc; [by exists acc, []|]. cbn [app strto_digits]. destruct (isdigit c); [apply IH|].
  by exists acc, (c :: q).
Qed.
Lemma skip_blanks_rest q : ∃ r, skip_blanks (q ++ [0]) = r ++ [0].
Proof. induction q as [|c q IH]; [by exists []|]. cbn. destruct (isspace c); [done|]. by exists (c :: q). Qed.

(** [strtoll] of a null-terminated string: a [long long], and [endptr] points
    into the string. *)
Lemma strtoll_total s : ∃ v c r, strtoll (s ++ [0]) = (v, c :: r) ∧ in_s 64 v.
Proof.
  assert (∃ v r, strto (s ++ [0]) = (v, r ++ [0])) as (v & r & E).
  { unfold strto. destruct (skip_blanks_rest s) as (p & ->). cbv zeta.
    assert (∃ (neg : bool) q, match p ++ [0] with
      | c :: q => if c =? cminus then (true, q) else if c =? 43 then (false, q) else (false, p ++ [0])
      | [] => (false, p ++ [0]) end = (neg, q ++ [0])) as (neg & q & ->).
    { destruct p as [|c p]; [by exists false, []|]. cbn [app]. repeat case_if; eexists _, _; (done || by rewrite app_comm_cons). }
    destruct (q ++ [0]) as [|c q'] eqn:Eq; [by destruct q|]. destruct (isdigit c); [|by exists 0, s].
    rewrite <- Eq. destruct (strto_digits_rest 0 q) as (v & r & ->). by eexists _, r. }
  unfold strtoll. rewrite E. destruct (r ++ [0]) as [|c r'] eqn:Er; [by destruct r|].
  eexists _, c, r'. split; [done|]. unfold in_s, LLONG_MIN, LLONG_MAX. lia.
Qed.

Lemma getLongLongFromObject_range o v : from_option obj_ok True o → getLongLongFromObject o = Some v → in_s 64 v.
Proof.
  destruct o as [[s|w]|]; cbn [from_option obj_ok getLongLongFromObject].
  - intros _. destruct (strtoll_total s) as (w & c & r & -> & Hw). by case_if; [|intros [= <-]].
  - by intros Hw [= <-].
  - by intros _ [= <-].
Qed.

(** The decimal string of an integer is converted back. *)
Lemma strto_digits_canon ds acc : Forall (λ c, isdigit c = true) ds → strto_digits acc (ds ++ [0]) = (dval_from acc ds, [0]).
Proof. intros H. revert acc. induction H as [|c ds Hc _ IH]; intros acc; [done|]. cbn [app strto_digits]. rewrite Hc. apply IH. Qed.
Lemma strto_first ds : canon ds → ∃ c ds', ds = c :: ds' ∧ isdigit c = true ∧ isspace c = false ∧ (c =? cminus) = false ∧ (c =? 43) = false.
Proof.
  intros (Hne & Hd & _). destruct ds as [|c ds]; [done|]. apply Forall_cons in Hd as [Hc _]. exists c, ds. pose proof Hc as Hr%isdigit_spec. unfold c0 in Hr.
  split_and!; try done; [unfold isspace; lia|unfold cminus; lia|lia].
Qed.
Lemma decimal_int s v : decimal s v → in_s 64 v → getLongLongFromObject (Some (ObjStr s)) = Some v.
Proof.
  intros Hd Hv. assert (strto (s ++ [0]) = (v, [0]) ∧ isspace (hd 0 (s ++ [0])) = false) as [E Hs].
  { destruct Hd as [[HC ->]|(ds & HC & -> & HV & _)].
    - destruct (strto_first s HC) as (c & ds & -> & Hc & Hsp & Hm & Hp). split; [|done]. unfold strto. cbn [app skip_blanks]. rewrite Hsp, Hm, Hp, Hc.
      pose proof (strto_digits_canon (c :: ds) 0 ltac:(apply HC)) as E. cbn [app] in E. by rewrite E.
    - destruct (strto_first ds HC) as (c & ds' & -> & Hc & Hsp & Hm & Hp). split; [|done]. unfold strto. cbn [app skip_blanks]. change (isspace cminus) with false. cbv iota zeta. rewrite Z.eqb_refl, Hc.
      pose proof (strto_digits_canon (c :: ds') 0 ltac:(apply HC)) as E. cbn [app] in E. rewrite E. by rewrite HV. }
  cbn [getLongLongFromObject]. unfold strtoll, strtoll_erange. rewrite E, Hs. cbn. rewrite bool_decide_true by done. cbn. f_equal. unfold in_s, LLONG_MIN, LLONG_MAX in *. lia.
Qed.
Lemma object_int o : obj_ok o → getLongLongFromObject (Some (ObjStr (obj_string o))) = getLongLongFromObject (Some o).
Proof. destruct o as [s|v]; [done|]. intros Hv. apply decimal_int; [by apply obj_string_decimal|done]. Qed.
