(* ===== verification/SdsFmt.v ===== *)
(** * SdsFmt: formatting without printf (redis-3.0.0/src/sds.c, sdscatfmt)

    The arguments after the format are a list of typed values, as [va_arg]
    would read them; a value of another type than the format asks for is
    undefined behaviour ([None]).  While the format is read the null term is
    missing: the lemmas work on the shape of the buffer. *)

From S2P Require Import Prelude NumConv Objects Sds SdsText.

Inductive fmtarg :=
  | AStr (s : list Z)        (* char *: the bytes before the null term *)
  | ASds (s : sdshdr)
  | AInt (v : Z) | ALong (v : Z) | AUInt (v : Z) | AULong (v : Z).

Section fmt.
(** [lbuf]: the indeterminate bytes of [char buf[SDS_LLSTR_SIZE]]. *)
Context (junk : nat → Z) (lbuf : list Z).

(** Room for [l] bytes, [memcpy(s+i,str,l)], and the counters. *)
Definition fmt_append (s : sdshdr) (i : Z) (str : list Z) (l : Z) : option (sdshdr * Z) :=
  let s := if sfree s <? l then sdsMakeRoomFor junk s l else s in
  bs ← load str 0 l;
  buf ← store (sbuf s) i bs;
  Some (mkSds (u32 (slen s + l)) (u32 (sfree s - l)) buf, i32 (i + l)).

(** [s[i++] = c] *)
Definition fmt_putc (s : sdshdr) (i c : Z) : option (sdshdr * Z) :=
  buf ← put8 (sbuf s) i c;
  Some (mkSds (u32 (slen s + 1)) (u32 (sfree s - 1)) buf, i32 (i + 1)).

(** [f] is what is left of the format, without its null term.  A format that
    ends in a percent sign makes the loop step over the null term. *)
Fixpoint fmt_loop (s : sdshdr) (i : Z) (f : list Z) (ap : list fmtarg) : option (sdshdr * Z) :=
  match f with
  | [] => Some (s, i)
  | c :: f =>
      let s := if sfree s =? 0 then sdsMakeRoomFor junk s 1 else s in
      if c =? 37 then
        match f with
        | [] => None
        | next :: f =>
            if (next =? 115) || (next =? 83) then
              match ap with
              | AStr str :: ap => if next =? 115 then '(s, i) ← fmt_append s i str (u32 (zlen str)); fmt_loop s i f ap else None
              | ASds str :: ap => if next =? 83 then '(s, i) ← fmt_append s i (sbuf str) (sdslen str); fmt_loop s i f ap else None
              | _ => None
              end
            else if (next =? 105) || (next =? 73) then
              match ap with
              | AInt num :: ap =>
                  if next =? 105 then '(buf, l) ← sdsll2str lbuf num; '(s, i) ← fmt_append s i buf l; fmt_loop s i f ap else None
              | ALong num :: ap =>
                  if next =? 73 then '(buf, l) ← sdsll2str lbuf num; '(s, i) ← fmt_append s i buf l; fmt_loop s i f ap else None
              | _ => None
              end
            else if (next =? 117) || (next =? 85) then
              match ap with
              | AUInt unum :: ap =>
                  if next =? 117 then '(buf, l) ← sdsull2str lbuf unum; '(s, i) ← fmt_append s i buf l; fmt_loop s i f ap else None
              | AULong unum :: ap =>
                  if next =? 85 then '(buf, l) ← sdsull2str lbuf unum; '(s, i) ← fmt_append s i buf l; fmt_loop s i f ap else None
              | _ => None
              end
            else '(s, i) ← fmt_putc s i next; fmt_loop s i f ap
        end
      else '(s, i) ← fmt_putc s i c; fmt_loop s i f ap
  end.

Definition sdscatfmt (s : sdshdr) (fmt : list Z) (ap : list fmtarg) : option sdshdr :=
  '(s, i) ← fmt_loop s (i32 (sdslen s)) fmt ap;
  buf ← put8 (sbuf s) i 0;
  Some (mkSds (slen s) (sfree s) buf).

End fmt.

(** ** What a format stands for *)

Definition conversion (c : Z) : bool :=
  (c =? 115) || (c =? 83) || (c =? 105) || (c =? 73) || (c =? 117) || (c =? 85).

Inductive renders : list Z → list fmtarg → list Z → Prop :=
  | r_nil ap : renders [] ap []
  | r_lit c f ap t : byte_ok c → c ≠ 37 → renders f ap t → renders (c :: f) ap (c :: t)
  | r_esc c f ap t : byte_ok c → conversion c = false → renders f ap t → renders (37 :: c :: f) ap (c :: t)
  | r_str b f ap t : bytes_ok b → renders f ap t → renders (37 :: 115 :: f) (AStr b :: ap) (b ++ t)
  | r_sds s b f ap t : sds_rep s b → renders f ap t → renders (37 :: 83 :: f) (ASds s :: ap) (b ++ t)
  | r_int v ds f ap t : in_s 32 v → decimal ds v → renders f ap t → renders (37 :: 105 :: f) (AInt v :: ap) (ds ++ t)
  | r_long v ds f ap t : in_s 64 v → v ≠ LLONG_MIN → decimal ds v → renders f ap t → renders (37 :: 73 :: f) (ALong v :: ap) (ds ++ t)
  | r_uint v ds f ap t : in_u 32 v → decimal ds v → renders f ap t → renders (37 :: 117 :: f) (AUInt v :: ap) (ds ++ t)
  | r_ulong v ds f ap t : in_u 64 v → decimal ds v → renders f ap t → renders (37 :: 85 :: f) (AULong v :: ap) (ds ++ t).

Lemma sdsll2str_decimal s v ds : in_s 64 v → v ≠ LLONG_MIN → SDS_LLSTR_SIZE ≤ zlen s → decimal ds v →
  ∃ buf, sdsll2str s v = Some (buf, zlen ds) ∧ load buf 0 (zlen ds) = Some ds.
Proof.
  intros Hv Hm Hl Hd. destruct (sdsll2str_spec s v Hv Hm Hl) as (ds' & R & Hd' & E & _). rewrite (decimal_unique ds' ds v Hd' Hd) in E.
  eexists. split; [exact E|]. by apply load_app_0.
Qed.
Lemma sdsull2str_decimal s v ds : in_u 64 v → SDS_LLSTR_SIZE ≤ zlen s → decimal ds v →
  ∃ buf, sdsull2str s v = Some (buf, zlen ds) ∧ load buf 0 (zlen ds) = Some ds.
Proof.
  intros Hv Hl Hd. destruct (sdsull2str_spec s v Hv Hl) as (ds' & R & Hc & Hdv & E & _).
  rewrite (decimal_unique ds' ds v) in E; [|left; by split|done]. eexists. split; [exact E|]. by apply load_app_0.
Qed.
Lemma renders_bytes f ap t : renders f ap t → bytes_ok t.
Proof.
  induction 1; [apply Forall_nil_2|..];
    first [by apply Forall_cons_2 | apply Forall_app; split; [first [done | by eapply sr_bytes | by eapply decimal_bytes]|done]].
Qed.

Section facts.
Context (junk : nat → Z).

(** The buffer while the format is read: [b] is written, [x] stands where the
    null term will be. *)
Abbreviation open b x rest := (mkSds (zlen b) (zlen rest) (b ++ x :: rest)).

(** [b] is written, and the position is after it. *)
Definition writes (r : option (sdshdr * Z)) (b : list Z) : Prop :=
  ∃ x rest, r = Some (open b x rest, zlen b) ∧ zlen b + zlen rest < 2 ^ 32.

Lemma fmt_append_open b x rest str t :
  load str 0 (zlen t) = Some t → zlen b + zlen rest < 2 ^ 32 → zlen b + zlen t + SDS_MAX_PREALLOC < 2 ^ 31 →
  writes (fmt_append junk (open b x rest) (zlen b) str (zlen t)) (b ++ t).
Proof.
  intros Hload Hbd Hb. unfold fmt_append. pose proof (zlen_nonneg b). pose proof (zlen_nonneg t). unfold SDS_MAX_PREALLOC in *.
  assert (∃ r, (if sfree (open b x rest) <? zlen t then sdsMakeRoomFor junk (open b x rest) (zlen t) else open b x rest) = open b x r ∧
    zlen t ≤ zlen r ∧ zlen b + zlen r < 2 ^ 32) as (r & -> & Hr & Hbr).
  { cbn [sfree]. destruct (Z.ltb_spec (zlen rest) (zlen t)); [|by exists rest].
    apply sdsMakeRoomFor_shape; unfold SDS_MAX_PREALLOC; lia. }
  rewrite Hload. cbn [mbind option_bind sbuf slen sfree].
  destruct (cut_at (x :: r) (zlen t)) as (R1 & R2 & ER & HR1 & HR2); [len|].
  destruct R2 as [|x' rest']; [revert HR2; len|]. rewrite zlen_cons in HR2. rewrite zlen_cons in HR2.
  rewrite ER, store_app by (unfold zlen in *; lia). cbn [mbind option_bind].
  rewrite !wrapu_small by (unfold in_u; lia). rewrite wraps_small by (unfold in_s; lia). exists x', rest'. rewrite zlen_app. split; [|lia].
  rewrite <- app_assoc. do 3 f_equal. lia.
Qed.

Lemma fmt_putc_open b x rest c :
  byte_ok c → 1 ≤ zlen rest → zlen b + zlen rest < 2 ^ 32 → zlen b + 1 < 2 ^ 31 →
  writes (fmt_putc (open b x rest) (zlen b) c) (b ++ [c]).
Proof.
  intros Hc Hr Hbd Hb. unfold fmt_putc. cbn [sbuf slen sfree]. rewrite put8_app by done. cbn [mbind option_bind]. pose proof (zlen_nonneg b).
  destruct rest as [|x' rest']; [revert Hr; len|]. rewrite zlen_cons in *.
  rewrite !wrapu_small by (unfold in_u; pose proof (zlen_nonneg rest'); lia). rewrite wraps_small by (unfold in_s; lia).
  exists x', rest'. replace (zlen (b ++ [c])) with (zlen b + 1) by len. split; [|lia].
  rewrite <- app_assoc. cbn [app]. do 3 f_equal. lia.
Qed.

Lemma fmt_room b x rest : zlen b + zlen rest < 2 ^ 32 → zlen b + 1 + SDS_MAX_PREALLOC < 2 ^ 32 →
  ∃ r, (if sfree (open b x rest) =? 0 then sdsMakeRoomFor junk (open b x rest) 1 else open b x rest) = open b x r ∧
    1 ≤ zlen r ∧ zlen b + zlen r < 2 ^ 32.
Proof.
  intros Hbd Hb. cbn [sfree]. destruct (Z.eqb_spec (zlen rest) 0).
  - apply sdsMakeRoomFor_shape; lia.
  - exists rest. pose proof (zlen_nonneg rest). split; [done|]. lia.
Qed.

Context (lbuf : list Z) (Hlbuf : SDS_LLSTR_SIZE ≤ zlen lbuf).

(** The rest of the format after a piece of text *)
Lemma fmt_seq r b u t f ap :
  writes r (b ++ u) → zlen b + zlen (u ++ t) + 1 + SDS_MAX_PREALLOC < 2 ^ 31 →
  (∀ b x rest, zlen b + zlen rest < 2 ^ 32 → zlen b + zlen t + 1 + SDS_MAX_PREALLOC < 2 ^ 31 →
    writes (fmt_loop junk lbuf (open b x rest) (zlen b) f ap) (b ++ t)) →
  writes ('(s, i) ← r; fmt_loop junk lbuf s i f ap) (b ++ u ++ t).
Proof.
  intros (x & rest & -> & Hbd) Hb IH. cbn [mbind option_bind]. rewrite app_assoc. apply IH; [done|]. rewrite !zlen_app in *. lia.
Qed.

Lemma fmt_loop_spec f ap t : renders f ap t → ∀ b x rest,
  zlen b + zlen rest < 2 ^ 32 → zlen b + zlen t + 1 + SDS_MAX_PREALLOC < 2 ^ 31 →
  writes (fmt_loop junk lbuf (open b x rest) (zlen b) f ap) (b ++ t).
Proof using Hlbuf.
  assert (∀ v, in_s 32 v → in_s 64 v ∧ v ≠ LLONG_MIN) as Hint by (unfold in_s, LLONG_MIN; intros; lia).
  assert (∀ v, in_u 32 v → in_u 64 v) as Huint by (unfold in_u; intros; lia).
  assert (∀ u v : list Z, 0 ≤ zlen u ∧ 0 ≤ zlen v ∧ zlen (u ++ v) = zlen u + zlen v) as Hl by (intros u v; rewrite zlen_app; pose proof (zlen_nonneg u); pose proof (zlen_nonneg v); lia).
  assert (∀ (c : Z) v, zlen (c :: v) = 1 + zlen v) as Hl1 by (intros; apply zlen_cons).
  induction 1 as [ap|c f ap t Hc Hn H IH|c f ap t Hc Hn H IH|u f ap t Hu H IH|s u f ap t Hs H IH|v u f ap t Hv Hd H IH|v u f ap t Hv Hm Hd H IH|v u f ap t Hv Hd H IH|v u f ap t Hv Hd H IH];
    intros b x rest Hbd Hb; [exists x, rest; by rewrite app_nil_r|..]; pose proof (zlen_nonneg b);
    (destruct (fmt_room b x rest Hbd) as (r & Er & Hr1 & Hr2); [first [specialize (Hl u t)|specialize (Hl [] t)]; rewrite ?Hl1 in Hb; lia|]);
    cbn [fmt_loop]; rewrite Er; cbn [Z.eqb Pos.eqb orb];
    first [ change (c :: t) with ([c] ++ t) in Hb |- * | specialize (Hl u t) ];
    repeat match goal with
    | Hv : in_s 32 _ |- _ => apply Hint in Hv as [Hv ?]
    | Hv : in_u 32 _ |- _ => apply Huint in Hv
    end.
  - rewrite (proj2 (Z.eqb_neq c 37)) by done. apply fmt_seq; [|done|done]. apply fmt_putc_open; [done|done|done|specialize (Hl [c] t); unfold SDS_MAX_PREALLOC in *; lia].
  - unfold conversion in Hn. rewrite !orb_false_iff in Hn. destruct Hn as [[[[[-> ->] ->] ->] ->] ->]. cbn [orb].
    apply fmt_seq; [|done|done]. apply fmt_putc_open; [done|done|done|specialize (Hl [c] t); unfold SDS_MAX_PREALLOC in *; lia].
  - rewrite wrapu_small by (unfold in_u, SDS_MAX_PREALLOC in *; lia). apply fmt_seq; [|done|done].
    apply fmt_append_open; [|done|unfold SDS_MAX_PREALLOC in *; lia]. rewrite <- (app_nil_r u) at 1. by apply load_app_0.
  - unfold sdslen. rewrite (sr_len _ _ Hs). apply fmt_seq; [|done|done]. apply fmt_append_open; [|done|unfold SDS_MAX_PREALLOC in *; lia].
    destruct (sds_facts _ _ Hs) as (rs & -> & _). by apply load_app_0.
  - destruct (sdsll2str_decimal lbuf v u) as (buf & -> & Hload); [done..|]. cbn [mbind option_bind].
    apply fmt_seq; [|done|done]. apply fmt_append_open; [done|done|unfold SDS_MAX_PREALLOC in *; lia].
  - destruct (sdsll2str_decimal lbuf v u) as (buf & -> & Hload); [done..|]. cbn [mbind option_bind].
    apply fmt_seq; [|done|done]. apply fmt_append_open; [done|done|unfold SDS_MAX_PREALLOC in *; lia].
  - destruct (sdsull2str_decimal lbuf v u) as (buf & -> & Hload); [done..|]. cbn [mbind option_bind].
    apply fmt_seq; [|done|done]. apply fmt_append_open; [done|done|unfold SDS_MAX_PREALLOC in *; lia].
  - destruct (sdsull2str_decimal lbuf v u) as (buf & -> & Hload); [done..|]. cbn [mbind option_bind].
    apply fmt_seq; [|done|done]. apply fmt_append_open; [done|done|unfold SDS_MAX_PREALLOC in *; lia].
Qed.

End facts.

(** [sdscatfmt] appends what its format stands for: literal characters,
    strings, dynamic strings and the decimal digits of its signed and unsigned
    arguments, at the end of the string and with the null term back in place. *)
Theorem sdscatfmt_correct junk lbuf s b fmt ap t :
  SDS_LLSTR_SIZE ≤ zlen lbuf → sds_rep s b → renders fmt ap t → zlen b + zlen t + 1 + SDS_MAX_PREALLOC < 2 ^ 31 →
  ∃ s', sdscatfmt junk lbuf s fmt ap = Some s' ∧ sds_rep s' (b ++ t).
Proof.
  intros Hl Hs Hr Hb. destruct (sds_facts s b Hs) as (rest & -> & Hby & Hbd & H0 & H1). pose proof (zlen_nonneg t).
  destruct (fmt_loop_spec junk lbuf Hl fmt ap t Hr b 0 rest Hbd Hb) as (x & rest' & E & Hbd'). unfold sdscatfmt, sdslen. cbn [slen].
  rewrite wraps_small by (unfold in_s, SDS_MAX_PREALLOC in *; lia). rewrite E. cbn [mbind option_bind sbuf slen sfree].
  rewrite put8_app by done. cbn [mbind option_bind]. eexists. split; [done|]. apply sds_rep_intro; [|done].
  apply Forall_app. split; [done|by eapply renders_bytes].
Qed.

Lemma sdscatfmt_correct_witness :
  ∃ s', sdscatfmt (λ _, 7) (replicate 21 9) (mkSds 1 0 [35; 0]) (str "a%i%%%s") [AInt (-42); AStr (str "xy")] = Some s' ∧
    sds_rep s' ([35] ++ str "a-42%xy").
Proof.
  apply (sdscatfmt_correct (λ _, 7) (replicate 21 9) (mkSds 1 0 [35; 0]) [35] (str "a%i%%%s") [AInt (-42); AStr (str "xy")] (str "a-42%xy")).
  - done.
  - apply (sds_rep_intro [35] []); [by_decision|done].
  - apply r_lit; [by_decision|done|]. apply (r_int (-42) (str "-42")); [by_decision| |].
    + apply (proj1 (string2ll_spec (str "-42") (-42))). done.
    + apply r_esc; [by_decision|done|]. apply (r_str (str "xy") [] [] []); [by_decision|apply r_nil].
  - done.
Defined.
