(* ===== verification/SdsSpec.v ===== *)
(** * SdsSpec: a dynamic string is its bytes

    The operations of sds.c on one string against operations on lists of
    bytes: a sequence of calls from [sdsempty] that stays below the limits
    makes no access outside of the buffer, keeps the invariant [sds_rep] and
    leaves the bytes of the specification. *)

From S2P Require Import Prelude Objects Sds.

(** ** Calls *)

(** [CRead n t] is the sequence the comment of [sdsIncrLen] describes: make room
    for [n] bytes, let the kernel write [t] after the string, add its length. *)
Inductive sds_call :=
  | CCat (t : list Z) | CCpy (t : list Z) | CGrow (n : Z) | CClear | CMakeRoom (n : Z) | CRemoveFree
  | CTrim (cset : list Z) | CRange (start end_ : Z) | CLower | CUpper | CMap (from to : list Z)
  | CCut (n : Z) | CRead (n : Z) (t : list Z) | CDup | CCatSelf | CUpdateLen.

Definition sds_step (junk : nat → Z) (s : sdshdr) (c : sds_call) : option sdshdr :=
  match c with
  | CCat t => sdscatlen junk s t
  | CCpy t => sdscpylen junk s t
  | CGrow n => sdsgrowzero junk s n
  | CClear => sdsclear s
  | CMakeRoom n => Some (sdsMakeRoomFor junk s n)
  | CRemoveFree => Some (sdsRemoveFreeSpace junk s)
  | CTrim cset => sdstrim s cset
  | CRange start end_ => sdsrange s start end_
  | CLower => sdstolower s
  | CUpper => sdstoupper s
  | CMap from to => sdsmapchars s from to
  | CCut n => sdsIncrLen s (- n)
  | CRead n t =>
      let s := sdsMakeRoomFor junk s n in
      buf ← store (sbuf s) (sdslen s) t;
      sdsIncrLen (mkSds (slen s) (sfree s) buf) (zlen t)
  | CDup => sdsdup s
  | CCatSelf => d ← sdsdup s; sdscatsds junk s d
  | CUpdateLen => sdsupdatelen s
  end.

Fixpoint sds_run (junk : nat → Z) (s : sdshdr) (cs : list sds_call) : option sdshdr :=
  match cs with [] => Some s | c :: cs => s ← sds_step junk s c; sds_run junk s cs end.

(** ** The specification *)

(** The bytes before the first null byte. *)
Fixpoint before_nul (b : list Z) : list Z :=
  match b with [] => [] | c :: b => if c =? 0 then [] else c :: before_nul b end.

Definition bytes_step (b : list Z) (c : sds_call) : list Z :=
  match c with
  | CCat t | CRead _ t => b ++ t
  | CCpy t => t
  | CGrow n => b ++ replicate (Z.to_nat (n - zlen b)) 0
  | CClear => []
  | CMakeRoom _ | CRemoveFree | CDup => b
  | CTrim cset => trim_of (strchr cset) b
  | CRange start end_ => range_of b start end_
  | CLower => tolower <$> b
  | CUpper => toupper <$> b
  | CMap from to => map_char from to <$> b
  | CCut n => take (Z.to_nat (zlen b - n)) b
  | CCatSelf => b ++ b
  | CUpdateLen => before_nul b
  end.

(** What the caller has to respect: the bytes are bytes, the lengths leave room
    for the preallocation in 32 bits, the indices are [int]s. *)
Definition call_ok (b : list Z) (c : sds_call) : Prop :=
  zlen b < 2 ^ 31 ∧
  match c with
  | CCat t | CCpy t => bytes_ok t ∧ zlen b + zlen t + SDS_MAX_PREALLOC < 2 ^ 32
  | CGrow n => zlen b + Z.max 0 n + SDS_MAX_PREALLOC < 2 ^ 32
  | CMakeRoom n => 0 ≤ n ∧ zlen b + n + SDS_MAX_PREALLOC < 2 ^ 32
  | CRange start end_ => in_s 32 start ∧ in_s 32 end_ ∧ norm (zlen b) end_ - norm (zlen b) start ≠ 2 ^ 31 - 1
  | CMap _ to => bytes_ok to
  | CCut n => 0 < n ≤ zlen b
  | CRead n t => bytes_ok t ∧ zlen t ≤ n ∧ zlen t < 2 ^ 31 ∧ zlen b + n + SDS_MAX_PREALLOC < 2 ^ 32
  | CCatSelf => zlen b + zlen b + SDS_MAX_PREALLOC < 2 ^ 32
  | _ => True
  end.
Fixpoint calls_ok (b : list Z) (cs : list sds_call) : Prop :=
  match cs with [] => True | c :: cs => call_ok b c ∧ calls_ok (bytes_step b c) cs end.

#[global] Instance call_ok_dec b c : Decision (call_ok b c).
Proof. unfold call_ok. destruct c; apply _. Defined.
#[global] Instance calls_ok_dec b cs : Decision (calls_ok b cs).
Proof. revert b. induction cs; intros b; cbn; apply _. Defined.

(** ** The remaining operations *)

Section calls.
Context (junk : nat → Z).

Lemma sdsIncrLen_grow s b n t :
  sds_rep s b → bytes_ok t → zlen t ≤ n → zlen t < 2 ^ 31 → zlen b + n + SDS_MAX_PREALLOC < 2 ^ 32 →
  ∃ s', sds_step junk s (CRead n t) = Some s' ∧ sds_rep s' (b ++ t).
Proof.
  intros Hs Ht Hn H31 Hb. pose proof (zlen_nonneg t). cbn [sds_step]. cbv zeta.
  destruct (sdsMakeRoomFor_spec junk s b n Hs) as [Hs' Hr]; [lia|done|].
  set (s1 := sdsMakeRoomFor junk s n) in *. clearbody s1. destruct (sds_facts _ b Hs') as (rest & -> & Hby & Hbd & H0 & H1).
  unfold sdslen. cbn [sbuf slen sfree] in *.
  destruct (cut_at (0 :: rest) (zlen t)) as (R1 & R2 & ER & HR1 & HR2); [len|].
  assert (∃ x rest', R2 = x :: rest' ∧ zlen rest' = zlen rest - zlen t) as (x & rest' & -> & Hrest').
  { destruct R2 as [|x rest']; [revert HR2; len|]. exists x, rest'. split; [done|]. revert HR2. len. }
  rewrite ER, store_app by (unfold zlen in *; lia). cbn [mbind option_bind]. unfold sdsIncrLen. cbn [slen sfree sbuf].
  rewrite (proj2 (Z.leb_le 0 (zlen t))), (proj2 (Z.leb_le (zlen t) (zlen rest))) by lia.
  rewrite (wrapu_small 32 (zlen b + zlen t)) by (unfold in_u; lia). rewrite app_assoc. change (x :: rest') with ([x] ++ rest').
  rewrite store_app by (rewrite ?zlen_app; done). cbn [mbind option_bind]. rewrite wrapu_small by (unfold in_u; lia). eexists. split; [done|].
  apply (sds_rep_make _ _ _ rest'); [done|by rewrite zlen_app|lia|by apply Forall_app|rewrite zlen_app; lia].
Qed.

Lemma cstr_before_nul b rest : ∃ R, cstr (b ++ 0 :: rest) = Some (before_nul b) ∧ b ++ 0 :: rest = before_nul b ++ 0 :: R.
Proof.
  induction b as [|c b (R & E & E')]; [by exists rest|]. cbn. destruct (Z.eqb_spec c 0) as [-> |Hc]; [by exists (b ++ 0 :: rest)|].
  exists R. rewrite E. cbn. split; [done|by f_equal].
Qed.

Lemma before_nul_bytes b : bytes_ok b → bytes_ok (before_nul b) ∧ zlen (before_nul b) ≤ zlen b.
Proof.
  induction 1 as [|c b Hc _ [IH IHl]]; [by split; [apply Forall_nil_2|]|]. cbn.
  case_if; rewrite ?zlen_cons in *; (split; [|change (zlen (@nil Z)) with 0; pose proof (zlen_nonneg b); lia]).
  - apply Forall_nil_2.
  - by apply Forall_cons_2.
Qed.

Lemma sdsupdatelen_spec s b : sds_rep s b → zlen b < 2 ^ 31 → ∃ s', sdsupdatelen s = Some s' ∧ sds_rep s' (before_nul b).
Proof.
  intros Hs Hb. destruct (sds_facts _ b Hs) as (rest & -> & Hby & Hbd & H0 & H1). unfold sdsupdatelen. cbn [sbuf slen sfree].
  destruct (cstr_before_nul b rest) as (R & -> & E). cbn [mbind option_bind]. destruct (before_nul_bytes b Hby) as [Hby' Hl].
  pose proof (zlen_nonneg (before_nul b)). rewrite (wraps_small 32 (zlen (before_nul b))) by (unfold in_s; lia). rewrite !wrapu_small by (unfold in_u; lia).
  assert (zlen rest + (zlen b - zlen (before_nul b)) = zlen R) as -> by (apply (f_equal zlen) in E; revert E; len).
  eexists. split; [done|]. apply (sds_rep_make _ _ _ R); [done|done|done|done|]. apply (f_equal zlen) in E. revert E. rewrite !zlen_app, !zlen_cons. lia.
Qed.

Lemma sds_step_spec s b c : sds_rep s b → call_ok b c → ∃ s', sds_step junk s c = Some s' ∧ sds_rep s' (bytes_step b c).
Proof.
  intros Hs [Hb Hc].
  assert (Z.to_nat (i32 (sdslen s)) = length b ∧ Z.to_nat (sdslen s) = length b) as [El El'].
  { unfold sdslen. rewrite (sr_len _ _ Hs). rewrite wraps_small by (unfold in_s; pose proof (zlen_nonneg b); lia). unfold zlen. lia. }
  destruct c; cbn [sds_step bytes_step] in *; destruct_and?.
  - by apply sdscatlen_spec.
  - by apply (sdscpylen_spec junk s b).
  - by apply sdsgrowzero_spec.
  - by apply (sdsclear_spec s b).
  - eexists. split; [done|]. by apply sdsMakeRoomFor_spec.
  - eexists. split; [done|]. by apply sdsRemoveFreeSpace_spec.
  - by apply sdstrim_spec.
  - by apply sdsrange_spec.
  - unfold sdstolower. rewrite El. by apply map_sds; [|apply byte_tolower|].
  - unfold sdstoupper. rewrite El. by apply map_sds; [|apply byte_toupper|].
  - unfold sdsmapchars. rewrite El'. apply map_sds; [done|intros; by apply byte_map_char|done].
  - apply sdsIncrLen_shrink; [done|lia|lia].
  - by apply sdsIncrLen_grow.
  - destruct (sdsdup_spec s b Hs) as (s' & E & Hs' & _). by exists s'.
  - destruct (sdsdup_spec s b Hs) as (d & -> & Hd & _). cbn [mbind option_bind]. unfold sdscatsds, sdslen.
    destruct (sds_facts _ b Hd) as (rest & -> & Hby & _). cbn [sbuf slen]. rewrite load_app_0 by done. cbn [mbind option_bind].
    by apply sdscatlen_spec.
  - by apply sdsupdatelen_spec.
Qed.

Lemma sds_run_spec cs : ∀ s b, sds_rep s b → calls_ok b cs →
  ∃ s', sds_run junk s cs = Some s' ∧ sds_rep s' (fold_left bytes_step cs b).
Proof.
  induction cs as [|c cs IH]; intros s b Hs Hok; [by exists s|]. destruct Hok as [Hc Hok]. cbn [sds_run fold_left].
  destruct (sds_step_spec s b c Hs Hc) as (s1 & -> & Hs1). cbn [mbind option_bind]. by apply IH.
Qed.

End calls.

(** C14. Dynamic strings implement byte strings: whatever sequence of calls a
    caller makes from the empty string within the documented limits, no call
    touches memory outside of the buffer, and the string it leaves has the
    bytes of the specification, followed by a null term, with [len] and [free]
    adding up to the buffer. *)
Theorem sds_refines_bytes junk cs :
  calls_ok [] cs →
  ∃ s0 s, sdsempty = Some s0 ∧ sds_run junk s0 cs = Some s ∧ sds_rep s (fold_left bytes_step cs []).
Proof.
  intros Hok. destruct (sdsnewlen_spec [] 0) as (s0 & E0 & Hs0); [apply Forall_nil_2|done|lia|]. exists s0.
  destruct (sds_run_spec junk cs s0 [] Hs0 Hok) as (s & E & Hs). by exists s.
Qed.

Definition sds_demo : list sds_call :=
  [CCat (str "  Hello\ "); CMakeRoom 100; CRead 60 (str "World "); CTrim (str " "); CDup; CCatSelf; CRange 2 (-3); CUpper; CMap (str "LO") (str "01");
   CGrow 24; CRemoveFree; CUpdateLen; CCut 2; CCpy (str "abc"); CLower; CClear; CCat [0; 255]].

Lemma sds_refines_bytes_witness :
  ∃ s0 s, sdsempty = Some s0 ∧ sds_run (λ _, 7) s0 sds_demo = Some s ∧ sds_rep s (fold_left bytes_step sds_demo []).
Proof. apply (sds_refines_bytes (λ _, 7) sds_demo). by_decision. Defined.
