(* ===== verification/Dict.v ===== *)
(** * Dict: hash tables with incremental rehashing (redis-3.0.0/src/dict.c)

    A dictionary has two tables; while it is rehashing, each operation moves
    a bucket of the first table to the second one.  The model is generic in
    the types of keys and values, as the code is through [dictType]: the hash
    function, the comparison and the duplication of keys and values are
    parameters.

    A chain of [dictEntry] is the list of its entries, first entry first; an
    entry's value is [None] between [dictAddRaw] and the assignment of the
    caller.  [None] as the result of an operation stands for undefined
    behaviour (an access outside of a table, a failed assertion). *)

From S2P Require Import Prelude.

(** ** Data *)

Record dictEntry (K V : Type) := mkEntry {
  de_key : K;
  de_val : option V
}.
Arguments mkEntry {K V} _ _.
Arguments de_key {K V} _.
Arguments de_val {K V} _.
Abbreviation bucket K V := (list (dictEntry K V)).

Section dict.
Context {K V : Type}.
Local Notation dictEntry := (dictEntry K V).
Local Notation bucket := (bucket K V).

Record dictht := mkHt {
  table : option (list bucket);  (* NULL or the array of the chains *)
  size : Z;                      (* unsigned long *)
  sizemask : Z;                  (* unsigned long *)
  used : Z                       (* unsigned long *)
}.

Record dict := mkDict {
  ht0 : dictht;                  (* ht[0] *)
  ht1 : dictht;                  (* ht[1] *)
  rehashidx : Z;                 (* long, -1 when not rehashing *)
  iterators : Z                  (* int *)
}.

Definition set_ht0 (h : dictht) (d : dict) := mkDict h (ht1 d) (rehashidx d) (iterators d).
Definition set_ht1 (h : dictht) (d : dict) := mkDict (ht0 d) h (rehashidx d) (iterators d).
Definition set_rehashidx (i : Z) (d : dict) := mkDict (ht0 d) (ht1 d) i (iterators d).
Definition set_iterators (n : Z) (d : dict) := mkDict (ht0 d) (ht1 d) (rehashidx d) n.

Inductive status := DICT_OK | DICT_ERR.
#[global] Instance status_eq_dec : EqDecision status.
Proof. solve_decision. Defined.

Definition DICT_HT_INITIAL_SIZE : Z := 4.
Definition dict_force_resize_ratio : Z := 5.
Definition LONG_MAX : Z := 2 ^ 63 - 1.

Definition dictSize (d : dict) : Z := u64 (used (ht0 d) + used (ht1 d)).
Definition dictIsRehashing (d : dict) : bool := negb (rehashidx d =? -1).

(** [ht->table[i]] and [ht->table[i] = b] *)
Definition get_bucket (h : dictht) (i : Z) : option bucket :=
  if i <? 0 then None else tb ← table h; tb !! Z.to_nat i.
Definition put_bucket (h : dictht) (i : Z) (b : bucket) : option dictht :=
  _ ← get_bucket h i; tb ← table h;
  Some (mkHt (Some (<[Z.to_nat i := b]> tb)) (size h) (sizemask h) (used h)).
Definition add_used (n : Z) (h : dictht) : dictht :=
  mkHt (table h) (size h) (sizemask h) (u64 (used h + n)).

(** An entry's address: its table ([false] for [ht[0]]), the index of its
    chain and its rank in it. *)
Record entry_ptr := mkPtr { p_table : bool; p_index : Z; p_rank : nat }.

Definition get_ht (d : dict) (t : bool) : dictht := if t then ht1 d else ht0 d.
Definition set_ht (d : dict) (t : bool) (h : dictht) : dict :=
  if t then set_ht1 h d else set_ht0 h d.

Definition get_entry (d : dict) (p : entry_ptr) : option dictEntry :=
  b ← get_bucket (get_ht d (p_table p)) (p_index p); b !! p_rank p.

(** ** Operations *)

(** *** Creation *)

Definition _dictReset : dictht := mkHt None 0 0 0.
Definition _dictInit : dict := mkDict _dictReset _dictReset (-1) 0.
Definition dictCreate : dict := _dictInit.

(** *** Sizes *)

(** The doubling loop of [_dictNextPower]; 62 doublings of 4 reach 2^64. *)
Fixpoint next_power_loop (fuel : nat) (i sz : Z) : option Z :=
  match fuel with
  | O => None
  | S fuel => if sz <=? i then Some i else next_power_loop fuel (u64 (i * 2)) sz
  end.
Definition _dictNextPower (sz : Z) : option Z :=
  if LONG_MAX <=? sz then Some LONG_MAX
  else next_power_loop 63 DICT_HT_INITIAL_SIZE sz.

Definition dictExpand (d : dict) (sz : Z) : option (dict * status) :=
  realsize ← _dictNextPower sz;
  if dictIsRehashing d || (sz <? used (ht0 d)) then Some (d, DICT_ERR) else
  if realsize =? size (ht0 d) then Some (d, DICT_ERR) else
  let n := mkHt (Some (replicate (Z.to_nat realsize) [])) realsize (u64 (realsize - 1)) 0 in
  match table (ht0 d) with
  | None => Some (set_ht0 n d, DICT_OK)
  | Some _ => Some (set_rehashidx 0 (set_ht1 n d), DICT_OK)
  end.

(** The global [dict_can_resize]. *)
Variable dict_can_resize : bool.

Definition dictResize (d : dict) : option (dict * status) :=
  if negb dict_can_resize || dictIsRehashing d then Some (d, DICT_ERR) else
  let minimal := i32 (used (ht0 d)) in
  let minimal := if minimal <? DICT_HT_INITIAL_SIZE then DICT_HT_INITIAL_SIZE else minimal in
  dictExpand d (u64 minimal).

Definition _dictExpandIfNeeded (d : dict) : option (dict * status) :=
  if dictIsRehashing d then Some (d, DICT_OK) else
  if size (ht0 d) =? 0 then dictExpand d DICT_HT_INITIAL_SIZE else
  if (size (ht0 d) <=? used (ht0 d)) &&
     (dict_can_resize || (dict_force_resize_ratio <? used (ht0 d) / size (ht0 d)))
  then dictExpand d (u64 (used (ht0 d) * 2))
  else Some (d, DICT_OK).

(** *** Incremental rehashing *)

(** The functions of the [dictType]. *)
Context (hashFunction : K → Z) (keyCompare : K → K → bool).
Context (keyDup : K → K) (valDup : V → V).

(** Move the entries of a chain, first to last, to the heads of their chains
    in [ht[1]]. *)
Fixpoint move_bucket (de : bucket) (d : dict) : option dict :=
  match de with
  | [] => Some d
  | e :: nextde =>
      let h := u32 (Z.land (hashFunction (de_key e)) (sizemask (ht1 d))) in
      b ← get_bucket (ht1 d) h;
      h1 ← put_bucket (ht1 d) h (e :: b);
      move_bucket nextde (set_ht1 (add_used 1 h1) (set_ht0 (add_used (-1) (ht0 d)) d))
  end.

(** [while(d->ht[0].table[d->rehashidx] == NULL)]: [inl] when the visits are
    used up ([return 1]), [inr] at a chain that is not empty. *)
Fixpoint skip_empty (fuel : nat) (d : dict) (empty_visits : Z) : option (dict + dict * Z) :=
  match fuel with
  | O => None
  | S fuel =>
      b ← get_bucket (ht0 d) (rehashidx d);
      match b with
      | [] => let d := set_rehashidx (i64 (rehashidx d + 1)) d in
              let empty_visits := i32 (empty_visits - 1) in
              if empty_visits =? 0 then Some (inl d) else skip_empty fuel d empty_visits
      | _ :: _ => Some (inr (d, empty_visits))
      end
  end.

(** The loop [while(n-- && d->ht[0].used != 0)]. *)
Fixpoint rehash_loop (n : nat) (d : dict) (empty_visits : Z) : option (dict + dict) :=
  match n with
  | O => Some (inr d)
  | S n =>
      if used (ht0 d) =? 0 then Some (inr d) else
      if size (ht0 d) <=? u64 (rehashidx d) then None (* assert *) else
      r ← skip_empty (S (Z.to_nat (size (ht0 d)))) d empty_visits;
      match r with
      | inl d => Some (inl d)
      | inr (d, empty_visits) =>
          de ← get_bucket (ht0 d) (rehashidx d);
          d ← move_bucket de d;
          h0 ← put_bucket (ht0 d) (rehashidx d) [];
          rehash_loop n (set_rehashidx (i64 (rehashidx d + 1)) (set_ht0 h0 d)) empty_visits
      end
  end.

(** Returns true when there is more to rehash.  The product [n*10] is an [int]; it is
    wrapped here, where the overflow of C (from [n*10] = 2^31 on) is undefined. *)
Definition dictRehash (d : dict) (n : nat) : option (dict * bool) :=
  let empty_visits := i32 (Z.of_nat n * 10) in
  if negb (dictIsRehashing d) then Some (d, false) else
  r ← rehash_loop n d empty_visits;
  match r with
  | inl d => Some (d, true)
  | inr d =>
      if used (ht0 d) =? 0 then
        Some (set_rehashidx (-1) (set_ht1 _dictReset (set_ht0 (ht1 d) d)), false)
      else Some (d, true)
  end.

Definition _dictRehashStep (d : dict) : option dict :=
  if iterators d =? 0 then fst <$> dictRehash d 1 else Some d.

(** [if (dictIsRehashing(d)) _dictRehashStep(d);], the first step of the
    lookups and updates. *)
Definition step_if_rehashing (d : dict) : option dict :=
  if dictIsRehashing d then _dictRehashStep d else Some d.

(** *** Lookup *)

(** [while(he)]: the rank of the first entry of the chain with the key. *)
Fixpoint chain_find (b : bucket) (key : K) : option nat :=
  match b with
  | [] => None
  | e :: b => if keyCompare key (de_key e) then Some 0%nat else S <$> chain_find b key
  end.

(** The chain of [key] in one table: [h & d->ht[table].sizemask]. *)
Definition chain_index (h : dictht) (key : K) : Z :=
  u32 (Z.land (hashFunction key) (sizemask h)).

Definition find_in (d : dict) (t : bool) (key : K) : option (option entry_ptr) :=
  let idx := chain_index (get_ht d t) key in
  b ← get_bucket (get_ht d t) idx;
  Some (mkPtr t idx <$> chain_find b key).

Definition find_tables (d : dict) (key : K) : option (option entry_ptr) :=
  r ← find_in d false key;
  match r with
  | Some p => Some (Some p)
  | None => if dictIsRehashing d then find_in d true key else Some None
  end.

Definition dictFind (d : dict) (key : K) : option (dict * option entry_ptr) :=
  if size (ht0 d) =? 0 then Some (d, None) else
  d ← step_if_rehashing d;
  r ← find_tables d key;
  Some (d, r).

Definition dictFetchValue (d : dict) (key : K) : option (dict * option (option V)) :=
  '(d, r) ← dictFind d key;
  match r with
  | None => Some (d, None)
  | Some p => e ← get_entry d p; Some (d, Some (de_val e))
  end.

(** *** Insertion *)

(** The index of the chain for a new key, or -1. *)
Definition _dictKeyIndex (d : dict) (key : K) : option (dict * Z) :=
  '(d, st) ← _dictExpandIfNeeded d;
  match st with
  | DICT_ERR => Some (d, -1)
  | DICT_OK =>
      r ← find_tables d key;
      match r with
      | Some _ => Some (d, -1)
      | None => Some (d, i32 (chain_index (get_ht d (dictIsRehashing d)) key))
      end
  end.

Definition dictAddRaw (d : dict) (key : K) : option (dict * option entry_ptr) :=
  d ← step_if_rehashing d;
  '(d, index) ← _dictKeyIndex d key;
  if index =? -1 then Some (d, None) else
  let t := dictIsRehashing d in
  b ← get_bucket (get_ht d t) index;
  h ← put_bucket (get_ht d t) index (mkEntry (keyDup key) None :: b);
  Some (set_ht d t (add_used 1 h), Some (mkPtr t index 0)).

(** [dictSetVal]: assign the value of an entry; the old value is returned. *)
Definition dictSetVal (d : dict) (p : entry_ptr) (val : V) : option (dict * option V) :=
  b ← get_bucket (get_ht d (p_table p)) (p_index p);
  e ← b !! p_rank p;
  h ← put_bucket (get_ht d (p_table p)) (p_index p)
        (<[p_rank p := mkEntry (de_key e) (Some (valDup val))]> b);
  Some (set_ht d (p_table p) h, de_val e).

Definition dictAdd (d : dict) (key : K) (val : V) : option (dict * status) :=
  '(d, entry) ← dictAddRaw d key;
  match entry with
  | None => Some (d, DICT_ERR)
  | Some p => '(d, _) ← dictSetVal d p val; Some (d, DICT_OK)
  end.

(** What the operations hand to the destructors of the [dictType]. *)
Inductive freed := FreeKey (k : K) | FreeVal (v : option V).

(** Returns true when the key was new, and what is freed. *)
Definition dictReplace (d : dict) (key : K) (val : V) : option (dict * bool * list freed) :=
  '(d, st) ← dictAdd d key val;
  match st with
  | DICT_OK => Some (d, true, [])
  | DICT_ERR =>
      '(d, r) ← dictFind d key;
      p ← r;
      '(d, old) ← dictSetVal d p val;
      Some (d, false, [FreeVal old])
  end.

Definition dictReplaceRaw (d : dict) (key : K) : option (dict * option entry_ptr) :=
  '(d, r) ← dictFind d key;
  match r with
  | Some p => Some (d, Some p)
  | None => dictAddRaw d key
  end.

(** *** Deletion *)

(** Unlink the entry with the key from the chain of one table. *)
Definition delete_in (d : dict) (t : bool) (key : K) (nofree : bool)
    : option (option (dict * list freed)) :=
  let idx := chain_index (get_ht d t) key in
  b ← get_bucket (get_ht d t) idx;
  match chain_find b key with
  | None => Some None
  | Some i =>
      he ← b !! i;
      h ← put_bucket (get_ht d t) idx (delete i b);
      Some (Some (set_ht d t (add_used (-1) h),
                  if nofree then [] else [FreeKey (de_key he); FreeVal (de_val he)]))
  end.

Definition dictGenericDelete (d : dict) (key : K) (nofree : bool)
    : option (dict * status * list freed) :=
  if size (ht0 d) =? 0 then Some (d, DICT_ERR, []) else
  d ← step_if_rehashing d;
  r ← delete_in d false key nofree;
  match r with
  | Some (d, fr) => Some (d, DICT_OK, fr)
  | None =>
      if dictIsRehashing d then
        r ← delete_in d true key nofree;
        match r with
        | Some (d, fr) => Some (d, DICT_OK, fr)
        | None => Some (d, DICT_ERR, [])
        end
      else Some (d, DICT_ERR, [])
  end.

Definition dictDelete (d : dict) (key : K) := dictGenericDelete d key false.
Definition dictDeleteNoFree (d : dict) (key : K) := dictGenericDelete d key true.

(** *** Clearing *)

Definition free_entry (e : dictEntry) : list freed := [FreeKey (de_key e); FreeVal (de_val e)].

(** The loop [for (i = 0; i < ht->size && ht->used > 0; i++)] over the chains
    [tb] not visited yet; [us] is [ht->used]. *)
Fixpoint clear_loop (tb : list bucket) (us : Z) : list freed * Z :=
  match tb with
  | [] => ([], us)
  | b :: tb =>
      if 0 <? us then
        let '(fr, us) := clear_loop tb (u64 (us - zlen b)) in
        ((b ≫= free_entry) ++ fr, us)
      else ([], us)
  end.

(** The callback only reports progress to the caller. *)
Definition _dictClear (h : dictht) : list freed * dictht :=
  ((clear_loop (default [] (table h)) (used h)).1, _dictReset).

Definition dictRelease (d : dict) : list freed :=
  (_dictClear (ht0 d)).1 ++ (_dictClear (ht1 d)).1.

Definition dictEmpty (d : dict) : dict * list freed :=
  let '(f0, h0) := _dictClear (ht0 d) in
  let '(f1, h1) := _dictClear (ht1 d) in
  (mkDict h0 h1 (-1) 0, f0 ++ f1).

End dict.

Arguments dictht : clear implicits.
Arguments dict : clear implicits.
Arguments freed : clear implicits.
