(* ===== verification/DictFacts.v ===== *)
(** * DictFacts: the dictionary implements a finite map

    The invariant of dict.c, its preservation by every operation, and the
    refinement of a finite map by sequences of operations. *)

From S2P Require Import Prelude Dict.

(** ** What the dictionary asks of a [dictType] *)

Class DictTypeLaws {K : Type} (hashFunction : K → Z) (keyCompare : K → K → bool)
    (keyDup : K → K) : Prop := {
  hash_range : ∀ k, in_u 32 (hashFunction k);
  compare_eq : ∀ k1 k2, keyCompare k1 k2 = true ↔ k1 = k2;
  dup_key : ∀ k, keyDup k = k
}.

(** ** Generic facts on tables of chains *)

Lemma land_mask a k : 0 ≤ k → Z.land a (2 ^ k - 1) = a mod 2 ^ k.
Proof. intros. by rewrite <- Z.land_ones, Z.ones_equiv, <- Z.sub_1_r. Qed.

Lemma mjoin_middle {A} (tb : list (list A)) i b :
  tb !! i = Some b → mjoin tb ≡ₚ b ++ mjoin (take i tb) ++ mjoin (drop (S i) tb).
Proof.
  intros Hi. rewrite <- (take_drop_middle tb i b Hi) at 1.
  rewrite join_app. simpl. by rewrite Permutation_app_swap_app.
Qed.

Lemma mjoin_insert {A} (tb : list (list A)) i b b' :
  tb !! i = Some b → ∃ rest, mjoin tb ≡ₚ b ++ rest ∧ mjoin (<[i:=b']> tb) ≡ₚ b' ++ rest.
Proof.
  intros Hi. exists (mjoin (take i tb) ++ mjoin (drop (S i) tb)). split; [by apply mjoin_middle|].
  rewrite insert_take_drop by by eapply lookup_lt_Some.
  rewrite join_app. simpl. by rewrite Permutation_app_swap_app.
Qed.

Lemma mjoin_replicate_nil {A} n : mjoin (replicate n (@nil A)) = [].
Proof. induction n; [done|]. simpl. done. Qed.

Lemma elem_of_mjoin_lookup {A} (tb : list (list A)) x :
  x ∈ mjoin tb ↔ ∃ i b, tb !! i = Some b ∧ x ∈ b.
Proof.
  rewrite list_elem_of_join. split.
  - intros (b & Hx & [i Hi]%list_elem_of_lookup). eauto.
  - intros (i & b & Hi & Hx). exists b. split; [done|]. by eapply list_elem_of_lookup_2.
Qed.

Section facts.
Context {K V : Type}.
Context (can_resize : bool) (hashF : K → Z) (cmp : K → K → bool) (kdup : K → K) (vdup : V → V).
Context `{!DictTypeLaws hashF cmp kdup}.
Local Notation dict := (dict K V).
Local Notation dictht := (dictht K V).
Local Notation bucket := (bucket K V).
Implicit Types (h : dictht) (d : dict) (b : bucket) (e : dictEntry K V) (key : K).

(** ** The invariant *)

Definition ents_ht (h : dictht) : list (dictEntry K V) := mjoin (default [] (table h)).
Definition ents (d : dict) : list (dictEntry K V) := ents_ht (ht0 d) ++ ents_ht (ht1 d).

(** A table: none at all, or a power of two of chains where every entry is
    in the chain its hash selects. *)
Definition shape (h : dictht) : Prop :=
  match table h with
  | None => size h = 0 ∧ sizemask h = 0
  | Some tb => ∃ k, 2 ≤ k ≤ 31 ∧ size h = 2 ^ k ∧ sizemask h = 2 ^ k - 1 ∧ zlen tb = 2 ^ k ∧
      ∀ i b e, tb !! i = Some b → e ∈ b → hashF (de_key e) mod 2 ^ k = Z.of_nat i
  end.

Definition no_rehash (d : dict) : Prop := rehashidx d = -1 ∧ table (ht1 d) = None.
Definition rehashing (d : dict) : Prop :=
  0 ≤ rehashidx d ≤ size (ht0 d) ∧ is_Some (table (ht0 d)) ∧ is_Some (table (ht1 d)) ∧
  ∀ i, 0 ≤ i < rehashidx d → get_bucket (ht0 d) i = Some [].

Definition max_used : Z := 2 ^ 30.

Record dict_wf (d : dict) : Prop := {
  wf_shape0 : shape (ht0 d);
  wf_shape1 : shape (ht1 d);
  wf_used0 : used (ht0 d) = zlen (ents_ht (ht0 d));
  wf_used1 : used (ht1 d) = zlen (ents_ht (ht1 d));
  wf_keys : NoDup (de_key <$> ents d);
  wf_bound : zlen (ents d) < max_used;
  wf_phase : no_rehash d ∨ rehashing d
}.

(** ** One table *)

Lemma shape_some h : shape h → is_Some (table h) → 4 ≤ size h ≤ 2 ^ 31.
Proof.
  unfold shape. intros Hs [tb Ht]. rewrite Ht in Hs. destruct Hs as (k & Hk & -> & _).
  assert (2 ^ 2 ≤ 2 ^ k ≤ 2 ^ 31) by (split; apply Z.pow_le_mono_r; lia). lia.
Qed.

Lemma get_bucket_lookup h tb i :
  table h = Some tb → 0 ≤ i → get_bucket h i = tb !! Z.to_nat i.
Proof. intros Ht Hi. unfold get_bucket. destruct (Z.ltb_spec i 0); [lia|]. by rewrite Ht. Qed.

Lemma get_bucket_range h i b : shape h → get_bucket h i = Some b → 0 ≤ i < size h.
Proof.
  unfold get_bucket, shape. destruct (Z.ltb_spec i 0); [done|]. destruct (table h) as [tb|]; [|done].
  simpl. intros (k & Hk & -> & _ & Hl & _) Hb%lookup_lt_Some. unfold zlen in Hl. lia.
Qed.

Lemma get_bucket_some h i :
  shape h → is_Some (table h) → 0 ≤ i < size h → ∃ b, get_bucket h i = Some b.
Proof.
  intros Hs [tb Ht] Hi. unfold shape in Hs. rewrite Ht in Hs. destruct Hs as (k & Hk & Hsz & _ & Hl & _).
  rewrite (get_bucket_lookup h tb) by (done || lia). apply lookup_lt_is_Some_2. unfold zlen in Hl. lia.
Qed.

Lemma chain_index_spec h key :
  shape h → is_Some (table h) →
  0 ≤ chain_index hashF h key < size h ∧
  ∀ k, size h = 2 ^ k → 0 ≤ k → chain_index hashF h key = hashF key mod 2 ^ k.
Proof.
  unfold shape, chain_index. intros Hs [tb Ht]. rewrite Ht in Hs.
  destruct Hs as (k & Hk & Hsz & Hm & _). rewrite Hm, land_mask by lia.
  pose proof (Z.mod_pos_bound (hashF key) (2 ^ k)) as Hb.
  assert (0 < 2 ^ k) by (apply Z.pow_pos_nonneg; lia).
  assert (2 ^ k ≤ 2 ^ 31) by (apply Z.pow_le_mono_r; lia).
  rewrite wrapu_small by (unfold in_u; lia). rewrite Hsz. split; [lia|].
  intros k' E ?. apply Z.pow_inj_r in E; [by subst|lia..].
Qed.

(** Every entry with the key [key] is in the chain of [key]. *)
Lemma ents_ht_chain h e b :
  shape h → e ∈ ents_ht h → get_bucket h (chain_index hashF h (de_key e)) = Some b → e ∈ b.
Proof.
  intros Hs He Hb. unfold ents_ht in He. destruct (table h) as [tb|] eqn:Ht; [|by apply not_elem_of_nil in He].
  simpl in He. apply elem_of_mjoin_lookup in He as (i & b' & Hi & He).
  assert (is_Some (table h)) as HS by eauto.
  destruct (chain_index_spec h (de_key e) Hs HS) as [Hr Hidx].
  unfold shape in Hs. rewrite Ht in Hs. destruct Hs as (k & Hk & Hsz & _ & Hl & Hp).
  specialize (Hidx k Hsz ltac:(lia)). rewrite (Hp i b' e Hi He) in Hidx. rewrite Hidx in Hb.
  rewrite (get_bucket_lookup h tb), Nat2Z.id in Hb by (done || lia). by simplify_eq.
Qed.

Lemma bucket_in_ents h i b e : get_bucket h i = Some b → e ∈ b → e ∈ ents_ht h.
Proof.
  unfold get_bucket, ents_ht. destruct (i <? 0); [done|]. destruct (table h); [|done].
  simpl. intros. apply elem_of_mjoin_lookup. eauto.
Qed.

Lemma chain_member h i b e :
  shape h → get_bucket h i = Some b → e ∈ b → chain_index hashF h (de_key e) = i.
Proof.
  intros Hs Hb He. pose proof (get_bucket_range h i b Hs Hb) as Hi.
  destruct (table h) as [tb|] eqn:Ht.
  2: { unfold get_bucket in Hb. rewrite Ht in Hb. by destruct (i <? 0). }
  destruct (chain_index_spec h (de_key e) Hs ltac:(eauto)) as [_ Hidx].
  unfold shape in Hs. rewrite Ht in Hs. destruct Hs as (k & Hk & Hsz & _ & _ & Hpl).
  rewrite (get_bucket_lookup h tb) in Hb by (done || lia).
  rewrite (Hidx k), (Hpl _ _ _ Hb He) by (done || lia). lia.
Qed.

(** Replacing a chain. *)
Lemma put_bucket_spec h i b b' :
  shape h → get_bucket h i = Some b →
  (∀ e, e ∈ b' → chain_index hashF h (de_key e) = i) →
  ∃ h' rest, put_bucket h i b' = Some h' ∧ shape h' ∧
    size h' = size h ∧ sizemask h' = sizemask h ∧ used h' = used h ∧ is_Some (table h') ∧
    ents_ht h ≡ₚ b ++ rest ∧ ents_ht h' ≡ₚ b' ++ rest ∧
    ∀ j, get_bucket h' j = if decide (j = i) then Some b' else get_bucket h j.
Proof.
  intros Hs Hb Hp. pose proof (get_bucket_range h i b Hs Hb) as Hi.
  unfold put_bucket. rewrite Hb. cbn [mbind option_bind].
  destruct (table h) as [tb|] eqn:Ht.
  2: { unfold get_bucket in Hb. rewrite Ht in Hb. by destruct (i <? 0). }
  cbn [mbind option_bind]. pose proof Hb as Hb'. rewrite (get_bucket_lookup h tb) in Hb' by (done || lia).
  destruct (mjoin_insert tb (Z.to_nat i) b b' Hb') as (rest & H1 & H2).
  eexists _, rest. split; [done|]. split_and!; try done.
  - pose proof (chain_index_spec h) as Hci. unfold shape in *. cbn. rewrite Ht in *.
    destruct Hs as (k & Hk & Hsz & Hm & Hl & Hpl). exists k. split_and!; try done; try lia.
    + unfold zlen in *. by rewrite length_insert.
    + intros j c e Hj He. destruct (decide (j = Z.to_nat i)) as [->|Hne].
      * rewrite list_lookup_insert_eq in Hj by by eapply lookup_lt_Some. simplify_eq.
        rewrite Z2Nat.id, <- (Hp e He) by lia. symmetry.
        apply Hci; [|by eauto|done|lia]. exists k. eauto 10.
      * rewrite list_lookup_insert_ne in Hj by done. by eapply Hpl.
  - unfold ents_ht. by rewrite Ht.
  - intros j. unfold get_bucket. destruct (Z.ltb_spec j 0).
    { destruct (decide _); [lia|done]. }
    cbn. rewrite Ht. cbn. destruct (decide (j = i)) as [->|Hne].
    + rewrite list_lookup_insert_eq; [done|by eapply lookup_lt_Some].
    + rewrite list_lookup_insert_ne by lia. done.
Qed.

(** ** Incremental rehashing *)

Lemma add_used_small n h : 0 ≤ used h + n < 2 ^ 64 →
  add_used n h = mkHt (table h) (size h) (sizemask h) (used h + n).
Proof. intros. unfold add_used. by rewrite wrapu_small. Qed.

Lemma shape_add_used n h : shape (add_used n h) ↔ shape h.
Proof. done. Qed.

Lemma move_bucket_spec (de : bucket) : ∀ d,
  shape (ht1 d) → is_Some (table (ht1 d)) → used (ht1 d) = zlen (ents_ht (ht1 d)) →
  zlen de ≤ used (ht0 d) < 2 ^ 31 → zlen de + zlen (ents_ht (ht1 d)) < 2 ^ 31 →
  ∃ h1, move_bucket hashF de d =
      Some (mkDict (add_used (- zlen de) (ht0 d)) h1 (rehashidx d) (iterators d)) ∧
    shape h1 ∧ is_Some (table h1) ∧ size h1 = size (ht1 d) ∧ used h1 = zlen (ents_ht h1) ∧
    ents_ht h1 ≡ₚ de ++ ents_ht (ht1 d).
Proof.
  induction de as [|e de IH]; intros d Hs HT Hu Hu0 Hb.
  { exists (ht1 d). split; [|done]. cbn. rewrite add_used_small; unfold zlen in *; simpl in *; [|lia].
    destruct d as [[] ? ? ?]; cbn. by rewrite Z.add_0_r. }
  cbn [move_bucket]. fold (chain_index hashF (ht1 d) (de_key e)).
  destruct (chain_index_spec (ht1 d) (de_key e) Hs HT) as [Hr _].
  destruct (get_bucket_some (ht1 d) _ Hs HT Hr) as [b Hgb]. rewrite Hgb. cbn [mbind option_bind].
  destruct (put_bucket_spec (ht1 d) _ b (e :: b) Hs Hgb)
    as (h1 & rest & -> & Hs1 & Hsz1 & _ & Hu1 & HT1 & HP & HP' & _).
  { intros e' [->|He']%elem_of_cons; [done|].
    by eapply chain_member. }
  cbn [mbind option_bind].
  assert (zlen (ents_ht h1) = zlen (ents_ht (ht1 d)) + 1) as Hl1.
  { apply Permutation_length in HP, HP'. unfold zlen. rewrite HP, HP'. simpl. lia. }
  assert (zlen (e :: de) = zlen de + 1) as Hl by len.
  assert (0 ≤ zlen (ents_ht (ht1 d)) ∧ 0 ≤ zlen de) as [Hp1 Hp2] by (unfold zlen; lia).
  rewrite (add_used_small 1 h1) by lia.
  rewrite (add_used_small (-1) (ht0 d)) by lia.
  set (h1' := mkHt _ _ _ (used h1 + 1)).
  destruct (IH (set_ht1 h1' (set_ht0 (mkHt (table (ht0 d)) (size (ht0 d)) (sizemask (ht0 d))
              (used (ht0 d) + -1)) d))) as (h2 & -> & Hs2 & HT2 & Hsz2 & Hu2 & HP2).
  { exact Hs1. } { exact HT1. } { change (used h1 + 1 = zlen (ents_ht h1)). lia. } { cbn. lia. }
  { change (zlen de + zlen (ents_ht h1) < 2 ^ 31). lia. }
  exists h2. split.
  { do 2 f_equal. rewrite !add_used_small by (cbn; lia). cbn. f_equal. lia. }
  split_and!; try done; [rewrite Hsz2; exact Hsz1|].
  rewrite HP2. transitivity (de ++ ents_ht h1); [done|]. rewrite HP', HP.
  by rewrite <- (Permutation_middle de (b ++ rest) e).
Qed.

(** A non-empty table has a non-empty chain that is not yet rehashed. *)
Lemma nonempty_chain d :
  dict_wf d → rehashing d → used (ht0 d) ≠ 0 →
  ∃ j b, rehashidx d ≤ j < size (ht0 d) ∧ get_bucket (ht0 d) j = Some b ∧ b ≠ [].
Proof.
  intros Hwf (Hri & [tb Ht] & _ & Hempty) Hu.
  rewrite (wf_used0 _ Hwf) in Hu. unfold ents_ht in Hu. rewrite Ht in Hu. simpl in Hu.
  destruct (mjoin tb) as [|e l] eqn:E; [done|].
  assert (e ∈ mjoin tb) as He by (rewrite E; left).
  apply elem_of_mjoin_lookup in He as (i & b & Hi & He).
  assert (get_bucket (ht0 d) (Z.of_nat i) = Some b) as Hb.
  { rewrite (get_bucket_lookup _ tb), Nat2Z.id by (done || lia). done. }
  exists (Z.of_nat i), b. pose proof (get_bucket_range _ _ _ (wf_shape0 _ Hwf) Hb).
  split_and!; [|lia|done|by intros ->; apply not_elem_of_nil in He].
  destruct (decide (rehashidx d ≤ Z.of_nat i)); [done|].
  rewrite Hempty in Hb by lia. simplify_eq. by apply not_elem_of_nil in He.
Qed.

Lemma skip_empty_spec fuel j bj : ∀ d ev,
  shape (ht0 d) → is_Some (table (ht0 d)) → 0 ≤ rehashidx d ≤ j → j < size (ht0 d) →
  get_bucket (ht0 d) j = Some bj → bj ≠ [] →
  (∀ i, 0 ≤ i < rehashidx d → get_bucket (ht0 d) i = Some []) →
  j - rehashidx d < Z.of_nat fuel →
  ∃ r ev', rehashidx d ≤ r ≤ j ∧ (∀ i, 0 ≤ i < r → get_bucket (ht0 d) i = Some []) ∧
    (skip_empty fuel d ev = Some (inl (set_rehashidx r d)) ∨
     skip_empty fuel d ev = Some (inr (set_rehashidx r d, ev')) ∧
     ∃ b, get_bucket (ht0 d) r = Some b ∧ b ≠ []) ∧
    (in_s 32 ev → j - rehashidx d < ev →
     skip_empty fuel d ev = Some (inr (set_rehashidx r d, ev')) ∧
     ev' = ev - (r - rehashidx d)).
Proof.
  induction fuel as [|fuel IH]; intros d ev Hs HT Hr Hj Hbj Hne Hempty Hf; [lia|].
  cbn [skip_empty].
  destruct (get_bucket_some (ht0 d) (rehashidx d) Hs HT ltac:(lia)) as [b Hb].
  rewrite Hb. cbn [mbind option_bind]. pose proof (shape_some _ Hs HT) as Hsz.
  destruct b as [|e b].
  - assert (rehashidx d ≠ j) by (intros <-; congruence).
    rewrite (wraps_small 64) by (unfold in_s; lia).
    set (d' := set_rehashidx (rehashidx d + 1) d).
    assert (∀ i, 0 ≤ i < rehashidx d + 1 → get_bucket (ht0 d) i = Some []) as Hempty'.
    { intros i Hi. destruct (decide (i = rehashidx d)) as [->|]; [done|]. apply Hempty. lia. }
    destruct (IH d' (i32 (ev - 1))) as (r & ev' & Hr' & He' & Hres & Hlong); try done; cbn in *; try lia.
    destruct (Z.eqb_spec (i32 (ev - 1)) 0) as [E0|E0].
    + exists (rehashidx d + 1), ev. split; [lia|]. split; [done|]. split; [by left|].
      intros Hev Hlt. rewrite wraps_small in E0 by (unfold in_s in *; lia). lia.
    + exists r, ev'. split; [lia|]. split; [done|]. split; [exact Hres|].
      intros Hev Hlt. rewrite wraps_small in * by (unfold in_s in *; lia).
      destruct Hlong as [Hl1 Hl2]; [unfold in_s in *; lia|lia|]. split; [exact Hl1|lia].
  - exists (rehashidx d), ev. split; [lia|]. split; [done|].
    assert (set_rehashidx (rehashidx d) d = d) as -> by by destruct d.
    split; [right; eauto|]. intros _ _. split; [done|lia].
Qed.

(** [d'] is a later state of the rehashing of [d]. *)
Definition later (d d' : dict) : Prop :=
  dict_wf d' ∧ rehashing d' ∧ ents d' ≡ₚ ents d ∧ iterators d' = iterators d ∧
  size (ht0 d') = size (ht0 d) ∧ size (ht1 d') = size (ht1 d) ∧ rehashidx d ≤ rehashidx d'.

Lemma later_trans d1 d2 d3 : later d1 d2 → later d2 d3 → later d1 d3.
Proof.
  intros (? & ? & HP & ? & ? & ? & ?) (? & ? & HP' & ? & ? & ? & ?).
  unfold later. split_and!; try done; try congruence; [by rewrite HP'|lia].
Qed.

Lemma later_refl d : dict_wf d → rehashing d → later d d.
Proof. unfold later. intros. split_and!; first [done | lia]. Qed.

(** A permutation of the entries keeps the parts of the invariant that only
    depend on them. *)
Lemma wf_perm d d' :
  dict_wf d → ents d' ≡ₚ ents d →
  NoDup (de_key <$> ents d') ∧ zlen (ents d') < max_used.
Proof.
  intros Hwf HP. split.
  - rewrite HP. exact (wf_keys _ Hwf).
  - pose proof (wf_bound _ Hwf). apply Permutation_length in HP. unfold zlen in *. lia.
Qed.

Lemma later_skip d r :
  dict_wf d → rehashing d → rehashidx d ≤ r ≤ size (ht0 d) →
  (∀ i, 0 ≤ i < r → get_bucket (ht0 d) i = Some []) → later d (set_rehashidx r d).
Proof.
  intros Hwf (Hri & HT0 & HT1 & _) Hr He.
  assert (rehashing (set_rehashidx r d)) by (split_and!; cbn; done || lia).
  split_and!; try done; [|cbn; lia]. destruct Hwf. split; try done. by right.
Qed.

(** Moving the chain at [rehashidx]. *)
Lemma later_move d b :
  dict_wf d → rehashing d → get_bucket (ht0 d) (rehashidx d) = Some b →
  ∃ d1 h0, move_bucket hashF b d = Some d1 ∧ put_bucket (ht0 d1) (rehashidx d1) [] = Some h0 ∧
    rehashidx d1 = rehashidx d ∧ rehashidx d + 1 < 2 ^ 63 ∧
    later d (set_rehashidx (rehashidx d + 1) (set_ht0 h0 d1)) ∧
    used h0 = used (ht0 d) - zlen b.
Proof.
  intros Hwf Hre Hb. destruct (Hwf) as [Hs0 Hs1 Hu0 Hu1 Hnd Hbd _].
  destruct Hre as (Hri & HT0 & HT1 & Hempty).
  pose proof (get_bucket_range _ _ _ Hs0 Hb) as Hrange. pose proof (shape_some _ Hs0 HT0) as Hsz0.
  destruct (put_bucket_spec (ht0 d) (rehashidx d) b [] Hs0 Hb)
    as (h0 & rest & Hput & Hsh0 & Hsz & Hmask & Hus & HTh & HP & HP' & Hget).
  { intros e He. by apply not_elem_of_nil in He. }
  assert (zlen (ents_ht (ht0 d)) = zlen b + zlen rest) as Hl0.
  { apply Permutation_length in HP. unfold zlen. rewrite HP, length_app. lia. }
  assert (zlen (ents d) = zlen (ents_ht (ht0 d)) + zlen (ents_ht (ht1 d))) as Hl.
  { unfold ents, zlen. rewrite length_app. lia. }
  unfold max_used in *.
  assert (0 ≤ zlen rest ∧ 0 ≤ zlen b ∧ 0 ≤ zlen (ents_ht (ht1 d))) as (? & ? & ?)
    by (unfold zlen; lia).
  destruct (move_bucket_spec b d Hs1 HT1 Hu1) as (h1 & Hmove & Hsh1 & HTh1 & Hszh1 & Hush1 & HP1);
    [lia..|].
  rewrite add_used_small in Hmove by lia. eexists _, _. split; [exact Hmove|].
  assert (∃ h0', put_bucket (mkHt (table (ht0 d)) (size (ht0 d)) (sizemask (ht0 d))
      (used (ht0 d) + - zlen b)) (rehashidx d) [] = Some h0' ∧
      h0' = mkHt (table h0) (size h0) (sizemask h0) (used (ht0 d) - zlen b)) as (h0' & Hput' & ->).
  { unfold put_bucket, get_bucket in *. cbn. destruct (rehashidx d <? 0); [done|].
    destruct (table (ht0 d)) as [tb|]; [|done]. cbn in *. destruct (tb !! _); [|done].
    cbn in *. injection Hput as <-. eauto. }
  cbn [ht0 rehashidx]. rewrite Hput'. split; [done|].
  set (d' := set_rehashidx _ _).
  assert (ents d' ≡ₚ ents d) as HPd.
  { unfold ents. transitivity (ents_ht h0 ++ ents_ht h1); [done|]. rewrite HP', HP1, HP.
    rewrite !(assoc_L (++)). simpl. apply Permutation_app_tail, Permutation_app_comm. }
  assert (rehashing d') as Hre'.
  { split_and!; try done; subst d'; cbn; [lia|rewrite Hsz; lia|].
    intros i Hi. change (get_bucket (mkHt _ _ _ _) i) with (get_bucket h0 i). rewrite Hget.
    destruct (decide (i = rehashidx d)); [done|]. apply Hempty. lia. }
  assert (dict_wf d') as Hwf'.
  { destruct (wf_perm d d' Hwf HPd). split; try done; [|by right].
    subst d'. cbn [ht0 set_rehashidx set_ht0 used]. change (ents_ht (mkHt _ _ _ _)) with (ents_ht h0).
    apply Permutation_length in HP'. simpl in HP'. unfold zlen in *. lia. }
  split_and!; try done; try lia. unfold later. split_and!; try done. subst d'. cbn. lia.
Qed.

Lemma rehash_loop_step n d ev :
  dict_wf d → rehashing d → used (ht0 d) ≠ 0 →
  ∃ d', later d d' ∧
    (rehash_loop hashF (S n) d ev = Some (inl d') ∨
     ∃ ev', rehash_loop hashF (S n) d ev = rehash_loop hashF n d' ev') ∧
    (in_s 32 ev → size (ht0 d) - rehashidx d < ev →
     ∃ ev', rehash_loop hashF (S n) d ev = rehash_loop hashF n d' ev' ∧ in_s 32 ev' ∧
       size (ht0 d') - rehashidx d' < ev' ∧ rehashidx d < rehashidx d').
Proof.
  intros Hwf Hre Hu. destruct (nonempty_chain d Hwf Hre Hu) as (j & bj & Hj & Hbj & Hne).
  destruct (Hre) as (Hri & HT0 & HT1 & Hempty). pose proof (wf_shape0 _ Hwf) as Hs0.
  pose proof (shape_some _ Hs0 HT0) as Hsz.
  cbn [rehash_loop]. destruct (Z.eqb_spec (used (ht0 d)) 0); [lia|].
  rewrite wrapu_small by (unfold in_u; lia).
  destruct (Z.leb_spec (size (ht0 d)) (rehashidx d)); [lia|].
  destruct (skip_empty_spec (S (Z.to_nat (size (ht0 d)))) j bj d ev)
    as (r & ev' & Hr & He & Hres & Hlong); try done; try lia.
  pose proof (later_skip d r Hwf Hre ltac:(lia) He) as Hskip.
  destruct (get_bucket_some (ht0 d) r Hs0 HT0 ltac:(lia)) as [b Hb].
  destruct (Hskip) as (Hwf1 & Hre1 & _).
  destruct (later_move (set_rehashidx r d) b Hwf1 Hre1) as (d1 & h0 & Hm & Hp & Hr1 & Hlt & Hlater & _);
    [done|]. cbn [rehashidx ht0 set_rehashidx] in Hlater, Hr1, Hlt.
  assert (∀ ev'', (de ← get_bucket (ht0 (set_rehashidx r d)) (rehashidx (set_rehashidx r d));
      d0 ← move_bucket hashF de (set_rehashidx r d);
      h1 ← put_bucket (ht0 d0) (rehashidx d0) [];
      rehash_loop hashF n (set_rehashidx (i64 (rehashidx d0 + 1)) (set_ht0 h1 d0)) ev'')
     = rehash_loop hashF n (set_rehashidx (r + 1) (set_ht0 h0 d1)) ev'') as Hstep.
  { intros ev''. cbn [rehashidx ht0 set_rehashidx]. rewrite Hb. cbn [mbind option_bind].
    rewrite Hm. cbn [mbind option_bind]. rewrite Hp. cbn [mbind option_bind].
    rewrite Hr1, wraps_small by (unfold in_s; lia). done. }
  pose proof (later_trans _ _ _ Hskip Hlater) as Hfull.
  destruct Hres as [Hinl|[Hinr _]].
  - exists (set_rehashidx r d). rewrite Hinl. cbn [mbind option_bind]. split; [done|].
    split; [by left|]. intros Hev Hlt'. destruct Hlong as [Hl _]; [done|lia|]. congruence.
  - exists (set_rehashidx (r + 1) (set_ht0 h0 d1)). rewrite Hinr. cbn [mbind option_bind].
    rewrite Hstep. split; [done|]. split; [eauto|]. intros Hev Hlt'.
    destruct Hlong as [Hl ->]; [done|lia|]. eexists. split; [rewrite Hinr in Hl; by simplify_eq|].
    destruct Hfull as (_ & _ & _ & _ & Hszeq & _). rewrite Hszeq. cbn.
    unfold in_s in *. lia.
Qed.

Lemma rehash_loop_spec n : ∀ d ev,
  dict_wf d → rehashing d →
  ∃ d', later d d' ∧ (rehash_loop hashF n d ev = Some (inl d') ∨ rehash_loop hashF n d ev = Some (inr d')).
Proof.
  induction n as [|n IH]; intros d ev Hwf Hre.
  { exists d. split; [by apply later_refl|by right]. }
  destruct (decide (used (ht0 d) = 0)) as [E|Hu].
  { exists d. cbn [rehash_loop]. rewrite E. split; [by apply later_refl|by right]. }
  destruct (rehash_loop_step n d ev Hwf Hre Hu) as (d1 & Hl1 & [-> | (ev' & ->)] & _); [eauto|].
  destruct (IH d1 ev' ltac:(apply Hl1) ltac:(apply Hl1)) as (d2 & Hl2 & Hres).
  exists d2. split; [by eapply later_trans|done].
Qed.

Lemma rehash_loop_done n : ∀ d ev,
  dict_wf d → rehashing d → in_s 32 ev → size (ht0 d) - rehashidx d < ev →
  size (ht0 d) - rehashidx d ≤ Z.of_nat n →
  ∃ d', later d d' ∧ rehash_loop hashF n d ev = Some (inr d') ∧ used (ht0 d') = 0.
Proof.
  induction n as [|n IH]; intros d ev Hwf Hre Hev Hlt Hn.
  all: destruct (decide (used (ht0 d) = 0)) as [E|Hu].
  1, 3: exists d; cbn [rehash_loop]; rewrite ?E; split; [by apply later_refl|done].
  - destruct (nonempty_chain d Hwf Hre Hu) as (j & ? & ? & _). lia.
  - destruct (rehash_loop_step n d ev Hwf Hre Hu) as (d1 & Hl1 & _ & Hlong).
    destruct (Hlong Hev Hlt) as (ev' & -> & Hev' & Hlt' & Hr).
    destruct (Hl1) as (Hwf1 & Hre1 & _ & _ & Hsz & _).
    destruct (IH d1 ev' Hwf1 Hre1 Hev' Hlt') as (d2 & Hl2 & Hres & Hu2); [lia|].
    exists d2. split; [by eapply later_trans|done].
Qed.

(** [d'] holds the same entries as [d]. *)
Definition same (d d' : dict) : Prop :=
  dict_wf d' ∧ ents d' ≡ₚ ents d ∧ iterators d' = iterators d ∧
  (is_Some (table (ht0 d)) → is_Some (table (ht0 d'))).

Lemma same_refl d : dict_wf d → same d d.
Proof. intros; by split_and!. Qed.

Lemma later_same d d' : later d d' → same d d'.
Proof. intros (? & (_ & ? & _) & ? & ? & _). by split_and!. Qed.

Lemma used_0_nil (h : dictht) : used h = zlen (ents_ht h) → used h = 0 → ents_ht h = [].
Proof. intros Hu H0. destruct (ents_ht h); [done|]. unfold zlen in Hu. simpl in Hu. lia. Qed.

(** The end of a rehashing: the second table becomes the first. *)
Lemma swap_same d :
  dict_wf d → rehashing d → used (ht0 d) = 0 →
  same d (set_rehashidx (-1) (set_ht1 _dictReset (set_ht0 (ht1 d) d))).
Proof.
  intros Hwf Hre H0. pose proof (used_0_nil _ (wf_used0 _ Hwf) H0) as E0.
  set (d' := set_rehashidx _ _).
  assert (ents d' = ents d) as HE.
  { unfold ents at 2. rewrite E0. unfold ents. cbn. by rewrite app_nil_r. }
  destruct (Hre) as (_ & _ & HT1 & _). split_and!; [|by rewrite HE|done|by intros _].
  destruct Hwf. split; try done; rewrite ?HE; try done. by left.
Qed.

Lemma dictRehash_spec d n :
  dict_wf d → ∃ d' more, dictRehash hashF d n = Some (d', more) ∧ same d d' ∧
    (more = true → rehashing d').
Proof.
  intros Hwf. unfold dictRehash. destruct (dictIsRehashing d) eqn:Hd; cbn [negb].
  2: { do 2 eexists. split; [done|]. split; [by apply same_refl|done]. }
  assert (rehashing d) as Hre.
  { destruct (wf_phase _ Hwf) as [[E _]|]; [|done]. unfold dictIsRehashing in Hd. by rewrite E in Hd. }
  destruct (rehash_loop_spec n d (i32 (Z.of_nat n * 10)) Hwf Hre) as (d' & Hl & [-> | ->]);
    cbn [mbind option_bind].
  - do 2 eexists. split; [done|]. split; [by apply later_same|]. intros _. apply Hl.
  - destruct (Hl) as (Hwf' & Hre' & _). pose proof (later_same _ _ Hl) as (_ & HP & Hit & _).
    destruct (Z.eqb_spec (used (ht0 d')) 0) as [H0|].
    + do 2 eexists. split; [done|]. split; [|done].
      destruct (swap_same d' Hwf' Hre' H0) as (? & HP' & ? & Hs).
      split_and!; [done|by rewrite HP'|congruence|]. intros _. apply Hs. by destruct Hre' as (_ & ? & _).
    + do 2 eexists. split; [done|]. split; [by apply later_same|done].
Qed.

Lemma step_if_rehashing_spec d :
  dict_wf d → ∃ d', step_if_rehashing hashF d = Some d' ∧ same d d'.
Proof.
  intros Hwf. unfold step_if_rehashing, _dictRehashStep.
  destruct (dictIsRehashing d); [|by eauto using same_refl].
  destruct (iterators d =? 0); [|by eauto using same_refl].
  destruct (dictRehash_spec d 1 Hwf) as (d' & more & -> & Hsame & _). eauto.
Qed.

(** ** Growing and shrinking *)

Lemma next_power_spec sz :
  0 ≤ sz ≤ 2 ^ 31 → ∃ k, 2 ≤ k ≤ 31 ∧ _dictNextPower sz = Some (2 ^ k) ∧ sz ≤ 2 ^ k.
Proof.
  intros Hsz. unfold _dictNextPower, LONG_MAX. destruct (Z.leb_spec (2 ^ 63 - 1) sz); [lia|].
  assert (∀ fuel k, 2 ≤ k ≤ 31 → 31 - k < Z.of_nat fuel →
    ∃ k', 2 ≤ k' ≤ 31 ∧ next_power_loop fuel (2 ^ k) sz = Some (2 ^ k') ∧ sz ≤ 2 ^ k') as Hloop.
  { induction fuel as [|fuel IH]; intros k Hk Hf; [lia|]. cbn [next_power_loop].
    destruct (Z.leb_spec sz (2 ^ k)) as [Hle|Hgt]; [eauto|].
    destruct (decide (k = 31)) as [->|]; [lia|].
    assert (2 ^ k * 2 = 2 ^ (k + 1)) as E by (rewrite Z.pow_add_r by lia; lia).
    rewrite E, wrapu_small; [apply IH; lia|]. unfold in_u.
    split; [apply Z.pow_nonneg; lia|]. apply Z.pow_lt_mono_r; lia. }
  destruct (Hloop 63%nat 2) as (k' & ? & ? & ?); [lia..|]. eauto.
Qed.

Lemma shape_new k :
  2 ≤ k ≤ 31 →
  shape (mkHt (Some (replicate (Z.to_nat (2 ^ k)) [])) (2 ^ k) (u64 (2 ^ k - 1)) 0).
Proof.
  intros Hk. exists k. cbn. assert (0 < 2 ^ k) by (apply Z.pow_pos_nonneg; lia).
  assert (2 ^ k ≤ 2 ^ 31) by (apply Z.pow_le_mono_r; lia).
  rewrite wrapu_small by (unfold in_u; lia). unfold zlen. rewrite length_replicate.
  split_and!; try lia. intros i b e [-> _]%lookup_replicate He. by apply not_elem_of_nil in He.
Qed.

Lemma dictExpand_spec d sz :
  dict_wf d → 0 ≤ sz ≤ 2 ^ 31 →
  ∃ k d' st, 2 ≤ k ≤ 31 ∧ _dictNextPower sz = Some (2 ^ k) ∧ sz ≤ 2 ^ k ∧
    dictExpand d sz = Some (d', st) ∧ same d d' ∧
    (st = DICT_OK ↔ ¬ rehashing d ∧ used (ht0 d) ≤ sz ∧ size (ht0 d) ≠ 2 ^ k) ∧
    (st = DICT_OK → is_Some (table (ht0 d')) ∧
       (if table (ht0 d) then size (ht1 d') else size (ht0 d')) = 2 ^ k).
Proof.
  intros Hwf Hsz. destruct (next_power_spec sz Hsz) as (k & Hk & Hp & Hle).
  unfold dictExpand. rewrite Hp. cbn [mbind option_bind]. exists k.
  assert (dictIsRehashing d = true ↔ rehashing d) as Hreh.
  { unfold dictIsRehashing. destruct (wf_phase _ Hwf) as [[E HT]|Hre].
    - rewrite E. split; [done|]. intros (? & _). lia.
    - destruct (Z.eqb_spec (rehashidx d) (-1)) as [E|]; [destruct Hre as (? & _); lia|]. done. }
  destruct (dictIsRehashing d) eqn:Hd; cbn [orb].
  { exists d, DICT_ERR. split_and!; try done; try (by apply same_refl); try lia. naive_solver. }
  assert (¬ rehashing d) as Hn by (rewrite <- Hreh; done).
  destruct (Z.ltb_spec sz (used (ht0 d))).
  { exists d, DICT_ERR. split_and!; try done; try (by apply same_refl); try lia. naive_solver lia. }
  destruct (Z.eqb_spec (2 ^ k) (size (ht0 d))).
  { exists d, DICT_ERR. split_and!; try done; try (by apply same_refl); try lia. naive_solver. }
  destruct (wf_phase _ Hwf) as [[Hri HT1]|]; [|done].
  pose proof (shape_new k Hk) as Hshape. set (nh := mkHt _ _ _ _) in *.
  assert (ents_ht nh = []) as En by (unfold ents_ht; cbn; apply mjoin_replicate_nil).
  assert (ents_ht (ht1 d) = []) as E1 by (unfold ents_ht; by rewrite HT1).
  destruct Hwf as [Hs0 Hs1 Hu0 Hu1 Hnd Hbd _]. destruct (table (ht0 d)) as [tb|] eqn:HT0.
  - exists (set_rehashidx 0 (set_ht1 nh d)), DICT_OK.
    assert (ents (set_rehashidx 0 (set_ht1 nh d)) = ents d) as E.
    { unfold ents. rewrite E1. cbn [ht0 ht1 set_rehashidx set_ht1]. by rewrite En. }
    split_and!; try done; try lia.
    split_and!; [|by rewrite E|done|done]. split; try done; rewrite ?E; try done.
      { change (0 = zlen (ents_ht nh)). by rewrite En. }
      right. split_and!; cbn; try done; try lia.
      pose proof (shape_some _ Hs0 ltac:(eauto)). lia.
  - exists (set_ht0 nh d), DICT_OK.
    assert (ents_ht (ht0 d) = []) as E0 by (unfold ents_ht; by rewrite HT0).
    assert (ents (set_ht0 nh d) = ents d) as E.
    { unfold ents. rewrite E0, E1. cbn [ht0 ht1 set_ht0]. by rewrite En, E1. }
    split_and!; try done; try lia.
    split_and!; [|by rewrite E|done|done]. split; try done; rewrite ?E; try done; [|by left].
    change (0 = zlen (ents_ht nh)). by rewrite En.
Qed.

Lemma expand_if_needed_spec d :
  dict_wf d →
  ∃ d', _dictExpandIfNeeded can_resize d = Some (d', DICT_OK) ∧ same d d' ∧
    is_Some (table (ht0 d')).
Proof.
  intros Hwf. unfold _dictExpandIfNeeded. destruct (dictIsRehashing d) eqn:Hd.
  { exists d. split_and!; [done|by apply same_refl|].
    destruct (wf_phase _ Hwf) as [[E _]|(_ & ? & _)]; [|done].
    unfold dictIsRehashing in Hd. by rewrite E in Hd. }
  assert (¬ rehashing d) as Hn.
  { intros (? & _). unfold dictIsRehashing in Hd. destruct (Z.eqb_spec (rehashidx d) (-1)); [lia|done]. }
  pose proof (wf_used0 _ Hwf) as Hu. pose proof (wf_bound _ Hwf) as Hb.
  assert (0 ≤ used (ht0 d) < 2 ^ 30) as Hub.
  { unfold max_used, ents, zlen in *. rewrite length_app in Hb. lia. }
  destruct (Z.eqb_spec (size (ht0 d)) 0) as [E0|Hne].
  - assert (table (ht0 d) = None) as HT0.
    { destruct (table (ht0 d)) eqn:HT; [|done].
      pose proof (shape_some _ (wf_shape0 _ Hwf) ltac:(eauto)). lia. }
    destruct (dictExpand_spec d DICT_HT_INITIAL_SIZE Hwf) as
      (k & d' & st & Hk & _ & _ & -> & Hsame & Hiff & HT); [unfold DICT_HT_INITIAL_SIZE; lia|].
    assert (st = DICT_OK) as ->.
    { apply Hiff. split_and!; [done| |].
      - rewrite Hu. unfold ents_ht. by rewrite HT0.
      - rewrite E0. assert (0 < 2 ^ k) by (apply Z.pow_pos_nonneg; lia). lia. }
    exists d'. split_and!; [done..|by apply HT].
  - assert (is_Some (table (ht0 d))) as HT0.
    { pose proof (wf_shape0 _ Hwf) as Hs. unfold shape in Hs. destruct (table (ht0 d)); [done|]. lia. }
    destruct ((size (ht0 d) <=? used (ht0 d)) && _) eqn:Hc.
    2: { exists d. split_and!; [done|by apply same_refl|done]. }
    apply andb_true_iff in Hc as [Hc _]. bool_tests. pose proof (shape_some _ (wf_shape0 _ Hwf) HT0).
    rewrite wrapu_small by (unfold in_u; lia).
    destruct (dictExpand_spec d (used (ht0 d) * 2) Hwf) as
      (k & d' & st & Hk & _ & Hle & -> & Hsame & Hiff & HT); [lia|].
    assert (st = DICT_OK) as -> by (apply Hiff; split_and!; [done|lia|lia]).
    exists d'. split_and!; [done..|by apply HT].
Qed.

Lemma dictResize_spec d : dict_wf d → ∃ d' st, dictResize can_resize d = Some (d', st) ∧ same d d'.
Proof.
  intros Hwf. unfold dictResize. destruct (negb can_resize || dictIsRehashing d) eqn:Hc.
  { exists d, DICT_ERR. split; [done|by apply same_refl]. }
  pose proof (wf_used0 _ Hwf) as Hu. pose proof (wf_bound _ Hwf) as Hb.
  set (m := if i32 (used (ht0 d)) <? DICT_HT_INITIAL_SIZE then DICT_HT_INITIAL_SIZE
            else i32 (used (ht0 d))).
  assert (0 ≤ m ≤ 2 ^ 31) as Hm.
  { subst m. unfold max_used, ents, zlen, DICT_HT_INITIAL_SIZE in *. rewrite length_app in Hb.
    rewrite wraps_small by (unfold in_s; lia). case_if; lia. }
  destruct (dictExpand_spec d m Hwf Hm) as (? & d' & st & _ & _ & _ & HE & Hsame & _).
  exists d', st. rewrite wrapu_small by (unfold in_u; lia). done.
Qed.

(** ** Lookup *)

Lemma chain_find_some b key i :
  chain_find cmp b key = Some i → ∃ e, b !! i = Some e ∧ de_key e = key.
Proof using DictTypeLaws0.
  revert i. induction b as [|e b IH]; intros i; cbn [chain_find]; [done|].
  destruct (cmp key (de_key e)) eqn:Hc.
  - intros [= <-]. apply compare_eq in Hc. eauto.
  - destruct (chain_find cmp b key) as [j|]; [|done]. intros [= <-]. by apply IH.
Qed.

Lemma chain_find_none b key e : chain_find cmp b key = None → e ∈ b → de_key e ≠ key.
Proof using DictTypeLaws0.
  induction b as [|e' b IH]; cbn [chain_find]; [by intros _ ?%not_elem_of_nil|].
  destruct (cmp key (de_key e')) eqn:Hc; [done|].
  destruct (chain_find cmp b key) as [j|] eqn:E; [done|]. intros _ [->|Hin]%elem_of_cons.
  - intros <-. assert (cmp (de_key e') (de_key e') = true) by by apply compare_eq. congruence.
  - by apply IH.
Qed.

(** A pointer to a live entry. *)
Definition points_to d (p : entry_ptr) e : Prop :=
  ∃ b, get_bucket (get_ht d (p_table p)) (p_index p) = Some b ∧ b !! p_rank p = Some e.

Lemma points_to_entry d p e : points_to d p e → get_entry d p = Some e.
Proof. intros (b & Hb & He). unfold get_entry. by rewrite Hb. Qed.

Lemma points_to_ents d p e : points_to d p e → e ∈ ents d.
Proof.
  intros (b & Hb & He%list_elem_of_lookup_2). unfold ents. apply elem_of_app.
  destruct (p_table p); [right|left]; by eapply bucket_in_ents.
Qed.

Lemma find_in_spec d t key :
  shape (get_ht d t) → is_Some (table (get_ht d t)) →
  ∃ r, find_in hashF cmp d t key = Some r ∧
    match r with
    | Some p => ∃ e, points_to d p e ∧ de_key e = key
    | None => ∀ e, e ∈ ents_ht (get_ht d t) → de_key e ≠ key
    end.
Proof using DictTypeLaws0.
  intros Hs HT. unfold find_in. destruct (chain_index_spec _ key Hs HT) as [Hr _].
  destruct (get_bucket_some _ _ Hs HT Hr) as [b Hb]. rewrite Hb. cbn [mbind option_bind].
  eexists. split; [done|]. destruct (chain_find cmp b key) as [i|] eqn:Hf; cbn.
  - apply chain_find_some in Hf as (e & Hi & Hk). exists e. split; [|done]. by exists b.
  - intros e He <-. eapply chain_find_none; [done| |done]. by eapply ents_ht_chain.
Qed.

Lemma find_tables_spec d key :
  dict_wf d → is_Some (table (ht0 d)) →
  ∃ r, find_tables hashF cmp d key = Some r ∧
    match r with
    | Some p => ∃ e, points_to d p e ∧ de_key e = key
    | None => ∀ e, e ∈ ents d → de_key e ≠ key
    end.
Proof using DictTypeLaws0.
  intros Hwf HT. unfold find_tables.
  destruct (find_in_spec d false key (wf_shape0 _ Hwf) HT) as (r0 & -> & H0). cbn [mbind option_bind].
  destruct r0 as [p|]; [eauto|].
  destruct (wf_phase _ Hwf) as [[E HT1]|(Hri & _ & HT1 & _)]; unfold dictIsRehashing.
  - rewrite E. cbn. exists None. split; [done|]. intros e [He|He]%elem_of_app; [by apply H0|].
    unfold ents_ht in He. rewrite HT1 in He. by apply not_elem_of_nil in He.
  - destruct (Z.eqb_spec (rehashidx d) (-1)); [lia|]. cbn [negb].
    destruct (find_in_spec d true key (wf_shape1 _ Hwf) HT1) as (r1 & -> & H1).
    exists r1. split; [done|]. destruct r1; [done|]. intros e [|]%elem_of_app; [by apply H0|by apply H1].
Qed.

Lemma size_0_iff h : shape h → size h =? 0 = false ↔ is_Some (table h).
Proof.
  intros Hs. rewrite Z.eqb_neq. split.
  - unfold shape in Hs. destruct (table h); [done|]. lia.
  - intros HT. pose proof (shape_some h Hs HT). lia.
Qed.

Lemma size_0_ents d : dict_wf d → size (ht0 d) =? 0 = true → ents d = [].
Proof.
  intros Hwf Hz. assert (table (ht0 d) = None) as HT0.
  { destruct (table (ht0 d)) eqn:HT; [|done].
    assert (size (ht0 d) =? 0 = false) by (apply size_0_iff; [apply Hwf|eauto]). congruence. }
  unfold ents, ents_ht. rewrite HT0. destruct (wf_phase _ Hwf) as [[_ ->]|(_ & [? ?] & _)]; [done|congruence].
Qed.

(** ** Updating one chain *)

Lemma put_ht_spec d t i b b' :
  dict_wf d → get_bucket (get_ht d t) i = Some b →
  (∀ e, e ∈ b' → chain_index hashF (get_ht d t) (de_key e) = i) →
  (b ≠ [] ∨ t = dictIsRehashing d) →
  (∀ rest, ents d ≡ₚ b ++ rest →
     NoDup (de_key <$> b' ++ rest) ∧ zlen (b' ++ rest) < max_used) →
  ∃ h' rest, put_bucket (get_ht d t) i b' = Some h' ∧ used h' = used (get_ht d t) ∧
    ents d ≡ₚ b ++ rest ∧
    ∀ d', d' = set_ht d t (mkHt (table h') (size h') (sizemask h')
                             (used h' + (zlen b' - zlen b))) →
    dict_wf d' ∧ ents d' ≡ₚ b' ++ rest ∧ iterators d' = iterators d ∧
    (is_Some (table (ht0 d)) → is_Some (table (ht0 d'))) ∧
    get_bucket (get_ht d' t) i = Some b'.
Proof.
  intros Hwf Hb Hp Hre Hnd. destruct (Hwf) as [Hs0 Hs1 Hu0 Hu1 _ _ Hph].
  assert (shape (get_ht d t)) as Hs by by destruct t.
  destruct (put_bucket_spec _ i b b' Hs Hb Hp)
    as (h' & rest & -> & Hsh & Hsz & _ & Hus & HT & HP & HP' & Hget).
  exists h', (rest ++ ents_ht (get_ht d (negb t))).
  assert (ents d ≡ₚ b ++ rest ++ ents_ht (get_ht d (negb t))) as HPd.
  { unfold ents. rewrite (assoc_L (++)). destruct t; cbn in *.
    - rewrite Permutation_app_comm. by rewrite HP.
    - by rewrite HP. }
  split_and!; [done|done|done|]. intros d' ->. set (hn := mkHt _ _ _ _).
  assert (ents_ht hn = ents_ht h') as En by done.
  assert (ents (set_ht d t hn) ≡ₚ b' ++ rest ++ ents_ht (get_ht d (negb t))) as HPd'.
  { unfold ents. rewrite (assoc_L (++)). destruct t; cbn [set_ht ht0 ht1 set_ht0 set_ht1 get_ht negb].
    - rewrite Permutation_app_comm, En. by rewrite HP'.
    - rewrite En. by rewrite HP'. }
  assert (used hn = zlen (ents_ht hn)) as Hun.
  { rewrite En. cbn. rewrite Hus. apply Permutation_length in HP, HP'.
    rewrite length_app in HP, HP'. destruct t; cbn in *; unfold zlen in *; lia. }
  destruct (Hnd _ HPd) as [Hnd1 Hbd1].
  assert (∀ j, get_bucket hn j = if decide (j = i) then Some b' else get_bucket (get_ht d t) j) as Hgn
    by exact Hget.
  assert (dict_wf (set_ht d t hn)) as Hwf'.
  { split; try by destruct t.
    - by rewrite HPd'.
    - apply Permutation_length in HPd'. unfold zlen in *. by rewrite HPd'.
    - destruct Hph as [[Hr1 Ht1]|(Hr & HT0 & HT1 & He)].
      + left. destruct t; [|by split]. exfalso. cbn in Hb. unfold get_bucket in Hb. rewrite Ht1 in Hb.
        by destruct (i <? 0).
      + right. destruct t; split_and!; cbn [set_ht ht0 ht1 set_ht0 set_ht1 rehashidx]; try done;
          try lia; [cbn; rewrite Hsz; cbn; lia|].
        intros j Hj. rewrite Hgn. destruct (decide (j = i)) as [->|]; [|by apply He].
        cbn in Hb. rewrite He in Hb by lia. simplify_eq. destruct Hre as [|E]; [done|].
        unfold dictIsRehashing in E. destruct (Z.eqb_spec (rehashidx d) (-1)); [lia|done]. }
  split_and!; try done; [by destruct t|by destruct t|].
  replace (get_ht (set_ht d t hn) t) with hn by by destruct t. rewrite Hgn. by rewrite decide_True.
Qed.

(** ** The operations *)

Lemma dictFind_spec d key :
  dict_wf d →
  ∃ d' r, dictFind hashF cmp d key = Some (d', r) ∧ same d d' ∧
    match r with
    | Some p => ∃ e, points_to d' p e ∧ de_key e = key
    | None => ∀ e, e ∈ ents d' → de_key e ≠ key
    end.
Proof using DictTypeLaws0.
  intros Hwf. unfold dictFind. destruct (size (ht0 d) =? 0) eqn:Hz.
  { do 2 eexists. split; [done|]. split; [by apply same_refl|]. rewrite size_0_ents by done.
    by intros e ?%not_elem_of_nil. }
  apply size_0_iff in Hz; [|apply Hwf].
  destruct (step_if_rehashing_spec d Hwf) as (d' & -> & Hsame). cbn [mbind option_bind].
  destruct (find_tables_spec d' key) as (r & -> & Hr); [apply Hsame|by apply Hsame|].
  do 2 eexists. split; [done|]. by split.
Qed.

Lemma perm_keys (l1 l2 : list (dictEntry K V)) key :
  l1 ≡ₚ l2 → (∀ e, e ∈ l1 → de_key e ≠ key) → ∀ e, e ∈ l2 → de_key e ≠ key.
Proof. intros HP H1 e He. apply H1. by rewrite HP. Qed.

Lemma chain_index_i32 h key :
  shape h → is_Some (table h) → i32 (chain_index hashF h key) = chain_index hashF h key.
Proof.
  intros Hs HT. destruct (chain_index_spec h key Hs HT) as [Hr _]. pose proof (shape_some h Hs HT).
  apply wraps_small; [lia|]. unfold in_s. lia.
Qed.

Lemma dictAddRaw_spec d key :
  dict_wf d → zlen (ents d) + 1 < max_used →
  ∃ d' r, dictAddRaw can_resize hashF cmp kdup d key = Some (d', r) ∧
    match r with
    | None => same d d' ∧ ∃ e, e ∈ ents d ∧ de_key e = key
    | Some p => dict_wf d' ∧ iterators d' = iterators d ∧ (∀ e, e ∈ ents d → de_key e ≠ key) ∧
        ents d' ≡ₚ mkEntry key None :: ents d ∧ points_to d' p (mkEntry key None)
    end.
Proof using DictTypeLaws0.
  intros Hwf Hbd. unfold dictAddRaw, _dictKeyIndex.
  destruct (step_if_rehashing_spec d Hwf) as (d1 & -> & Hs1). cbn [mbind option_bind].
  destruct Hs1 as (Hwf1 & HP1 & Hit1 & _).
  destruct (expand_if_needed_spec d1 Hwf1) as (d2 & -> & (Hwf2 & HP2 & Hit2 & _) & HT2).
  cbn [mbind option_bind]. rewrite HP1 in HP2.
  destruct (find_tables_spec d2 key Hwf2 HT2) as (r & -> & Hr). cbn [mbind option_bind].
  destruct r as [p|].
  { exists d2, None. split; [done|]. destruct Hr as (e & He%points_to_ents & Hk). split.
    - split_and!; [done..|congruence|done].
    - exists e. by rewrite <- HP2. }
  cbn [mbind option_bind]. set (t := dictIsRehashing d2). set (h := get_ht d2 t).
  assert (shape h) as Hsh by (subst h; destruct t; apply Hwf2).
  assert (is_Some (table h)) as HTh.
  { subst h t. unfold dictIsRehashing. destruct (wf_phase _ Hwf2) as [[-> _]|(Hri & _ & HT1 & _)]; [done|].
    by destruct (Z.eqb_spec (rehashidx d2) (-1)); [lia|]. }
  rewrite chain_index_i32 by done. destruct (chain_index_spec h key Hsh HTh) as [Hr0 _].
  destruct (Z.eqb_spec (chain_index hashF h key) (-1)); [lia|].
  destruct (get_bucket_some h _ Hsh HTh Hr0) as [b Hb]. rewrite Hb. cbn [mbind option_bind].
  assert (kdup key = key) as -> by apply dup_key. pose proof (wf_keys _ Hwf2) as Hnd.
  assert (zlen (ents d2) = zlen (ents d)) as Hlen
    by (apply Permutation_length in HP2; unfold zlen; by rewrite HP2).
  destruct (put_ht_spec d2 t _ b (mkEntry key None :: b) Hwf2 Hb)
    as (h' & rest & Hput & Hus & HPr & Hd').
  { intros e [->|He]%elem_of_cons; [done|]. by eapply chain_member. }
  { by right. }
  { intros rest HPr. split.
    - cbn. apply NoDup_cons. split; [|by rewrite <- HPr].
      intros (e & Hk & He)%list_elem_of_fmap. apply (Hr e); [by rewrite HPr|done].
    - apply Permutation_length in HPr. unfold zlen in *. simpl. lia. }
  fold h in Hput. rewrite Hput. cbn [mbind option_bind].
  assert (zlen (mkEntry key None :: b) - zlen b = 1) as H1 by len. rewrite H1 in Hd'.
  assert (0 ≤ used h' < max_used) as Hu.
  { rewrite Hus. pose proof (wf_used0 _ Hwf2). pose proof (wf_used1 _ Hwf2). pose proof (wf_bound _ Hwf2).
    unfold ents, zlen in *. rewrite length_app in *. destruct t; cbn; lia. }
  rewrite add_used_small by (unfold max_used in *; lia).
  destruct (Hd' _ eq_refl) as (Hwf' & HP' & Hit' & _ & Hget'). do 2 eexists. split; [done|].
  split_and!; [done|congruence| | |].
  - intros e He. apply Hr. by rewrite HP2.
  - rewrite HP', <- HP2, HPr. done.
  - by exists (mkEntry key None :: b).
Qed.

Lemma dictSetVal_spec d p e v :
  dict_wf d → points_to d p e →
  ∃ d' rest, dictSetVal vdup d p v = Some (d', de_val e) ∧ dict_wf d' ∧
    iterators d' = iterators d ∧ ents d ≡ₚ e :: rest ∧
    ents d' ≡ₚ mkEntry (de_key e) (Some (vdup v)) :: rest.
Proof using DictTypeLaws0.
  intros Hwf (b & Hb & He). unfold dictSetVal. rewrite Hb. cbn [mbind option_bind].
  rewrite He. cbn [mbind option_bind]. set (e' := mkEntry _ _). set (b' := <[_:=e']> b).
  set (t := p_table p) in *. set (i := p_index p) in *. set (r := p_rank p) in *.
  assert (shape (get_ht d t)) as Hs by (destruct t; apply Hwf).
  assert (b ≡ₚ e :: (take r b ++ drop (S r) b)) as HPb.
  { rewrite <- (take_drop_middle b r e He) at 1. by rewrite Permutation_middle. }
  assert (b' ≡ₚ e' :: (take r b ++ drop (S r) b)) as HPb'.
  { subst b'. rewrite insert_take_drop by by eapply lookup_lt_Some. by rewrite Permutation_middle. }
  assert (zlen b' - zlen b = 0) as Hlen by (subst b'; unfold zlen; rewrite length_insert; lia).
  destruct (put_ht_spec d t i b b' Hwf Hb) as (h' & rest & Hput & Hus & HPr & Hd').
  { intros x. rewrite HPb'. intros [->|Hx]%elem_of_cons.
    - change (de_key e') with (de_key e). eapply chain_member; [done..|]. by eapply list_elem_of_lookup_2.
    - eapply chain_member; [done..|]. rewrite HPb. by right. }
  { left. by intros ->. }
  { intros rest HPr. pose proof (wf_keys _ Hwf) as Hnd. pose proof (wf_bound _ Hwf) as Hbd. split.
    - rewrite HPr, HPb in Hnd. rewrite HPb'. exact Hnd.
    - apply Permutation_length in HPr. unfold zlen in *. rewrite length_app in *. lia. }
  rewrite Hput. cbn [mbind option_bind].
  destruct (Hd' _ eq_refl) as (Hwf' & HP' & Hit' & _ & _). rewrite Hlen, Z.add_0_r in *.
  exists (set_ht d t h'), ((take r b ++ drop (S r) b) ++ rest).
  replace (mkHt (table h') (size h') (sizemask h') (used h')) with h' in * by by destruct h'.
  split_and!; [done..| |].
  - rewrite HPr. by apply (Permutation_app_tail rest) in HPb.
  - rewrite HP'. by apply (Permutation_app_tail rest) in HPb'.
Qed.

Lemma dictAdd_spec d key v :
  dict_wf d → zlen (ents d) + 1 < max_used →
  ∃ d' st, dictAdd can_resize hashF cmp kdup vdup d key v = Some (d', st) ∧ dict_wf d' ∧
    iterators d' = iterators d ∧
    match st with
    | DICT_ERR => ents d' ≡ₚ ents d ∧ ∃ e, e ∈ ents d ∧ de_key e = key
    | DICT_OK => (∀ e, e ∈ ents d → de_key e ≠ key) ∧
                 ents d' ≡ₚ mkEntry key (Some (vdup v)) :: ents d
    end.
Proof using DictTypeLaws0.
  intros Hwf Hbd. unfold dictAdd.
  destruct (dictAddRaw_spec d key Hwf Hbd) as (d1 & [p|] & -> & Hr); cbn [mbind option_bind].
  - destruct Hr as (Hwf1 & Hit1 & Hnew & HP1 & Hpt).
    destruct (dictSetVal_spec d1 p _ v Hwf1 Hpt) as (d2 & rest & -> & Hwf2 & Hit2 & HPr & HP2).
    cbn [mbind option_bind]. exists d2, DICT_OK. split_and!; [done..|congruence|done|].
    rewrite HP2. apply perm_skip. rewrite HP1 in HPr. by apply Permutation_cons_inv in HPr.
  - destruct Hr as ((? & ? & ? & _) & ?). exists d1, DICT_ERR. by split_and!.
Qed.

Lemma delete_in_spec d t key nofree :
  dict_wf d → is_Some (table (get_ht d t)) →
  ∃ r, delete_in hashF cmp d t key nofree = Some r ∧
    match r with
    | Some (d', fr) => dict_wf d' ∧ iterators d' = iterators d ∧
        ∃ e, de_key e = key ∧ ents d ≡ₚ e :: ents d' ∧
          fr = if nofree then [] else [FreeKey key; FreeVal (de_val e)]
    | None => ∀ e, e ∈ ents_ht (get_ht d t) → de_key e ≠ key
    end.
Proof using DictTypeLaws0.
  intros Hwf HT. unfold delete_in.
  assert (shape (get_ht d t)) as Hs by (destruct t; apply Hwf).
  destruct (chain_index_spec _ key Hs HT) as [Hr _].
  destruct (get_bucket_some _ _ Hs HT Hr) as [b Hb]. rewrite Hb. cbn [mbind option_bind].
  destruct (chain_find cmp b key) as [i|] eqn:Hf.
  2: { eexists. split; [done|]. intros e He <-. eapply chain_find_none; [done| |done].
       by eapply ents_ht_chain. }
  apply chain_find_some in Hf as (e & Hi & Hk). rewrite Hi. cbn [mbind option_bind].
  assert (b ≡ₚ e :: delete i b) as HPb by by apply delete_Permutation.
  destruct (put_ht_spec d t _ b (delete i b) Hwf Hb) as (h' & rest & Hput & Hus & HPr & Hd').
  { intros x Hx. eapply chain_member; [done..|]. rewrite HPb. by right. }
  { left. by intros ->. }
  { intros rest HPr. pose proof (wf_keys _ Hwf) as Hnd. pose proof (wf_bound _ Hwf) as Hbd.
    pose proof HPr as HPr'. rewrite (Permutation_app_tail rest HPb) in HPr. split.
    - rewrite HPr in Hnd. cbn in Hnd. by apply NoDup_cons in Hnd as [_ ?].
    - apply Permutation_length in HPr. cbn in HPr. unfold zlen in *. lia. }
  rewrite Hput. cbn [mbind option_bind]. eexists. split; [done|].
  assert (zlen (delete i b) - zlen b = -1) as Hl.
  { apply Permutation_length in HPb. simpl in HPb. unfold zlen. lia. }
  rewrite Hl in Hd'.
  assert (1 ≤ used h' < max_used) as Hu.
  { rewrite Hus. pose proof (wf_used0 _ Hwf) as Hu0. pose proof (wf_used1 _ Hwf) as Hu1.
    pose proof (wf_bound _ Hwf) as Hbd. assert (e ∈ ents_ht (get_ht d t)) as He.
    { eapply bucket_in_ents; [exact Hb|]. by eapply list_elem_of_lookup_2. }
    assert (1 ≤ zlen (ents_ht (get_ht d t))) as H1.
    { destruct (ents_ht (get_ht d t)); [by apply not_elem_of_nil in He|len]. }
    unfold ents, zlen in *. rewrite length_app in *. destruct t; cbn in *; lia. }
  rewrite add_used_small by (unfold max_used in *; lia).
  destruct (Hd' _ eq_refl) as (Hwf' & HP' & Hit' & _ & _). split_and!; [done..|].
  exists e. split_and!; [done| |by rewrite Hk]. rewrite HP', HPr.
  by apply (Permutation_app_tail rest) in HPb.
Qed.

Lemma dictGenericDelete_spec d key nofree :
  dict_wf d →
  ∃ d' st fr, dictGenericDelete hashF cmp d key nofree = Some (d', st, fr) ∧ dict_wf d' ∧
    iterators d' = iterators d ∧
    match st with
    | DICT_OK => ∃ e, de_key e = key ∧ ents d ≡ₚ e :: ents d' ∧
        fr = if nofree then [] else [FreeKey key; FreeVal (de_val e)]
    | DICT_ERR => ents d' ≡ₚ ents d ∧ (∀ e, e ∈ ents d → de_key e ≠ key) ∧ fr = []
    end.
Proof using DictTypeLaws0.
  intros Hwf. unfold dictGenericDelete. destruct (size (ht0 d) =? 0) eqn:Hz.
  { do 3 eexists. split; [done|]. split_and!; try done. rewrite size_0_ents by done.
    by intros e ?%not_elem_of_nil. }
  apply size_0_iff in Hz; [|apply Hwf].
  destruct (step_if_rehashing_spec d Hwf) as (d1 & -> & (Hwf1 & HP1 & Hit1 & HT1)).
  cbn [mbind option_bind]. specialize (HT1 Hz).
  destruct (delete_in_spec d1 false key nofree Hwf1 HT1) as (r0 & -> & H0). cbn [mbind option_bind].
  destruct r0 as [[d2 fr]|].
  { destruct H0 as (? & ? & e & Hk & HP & Hfr). do 3 eexists. split; [done|].
    split_and!; [done|congruence|]. exists e. split_and!; [done| |done]. by rewrite <- HP1. }
  destruct (wf_phase _ Hwf1) as [[E Ht1]|(Hri & _ & Ht1 & _)]; unfold dictIsRehashing.
  - rewrite E. cbn. do 3 eexists. split; [done|]. split_and!; try done.
    intros e He. rewrite <- HP1 in He. apply elem_of_app in He as [He|He]; [by apply H0|].
    unfold ents_ht in He. rewrite Ht1 in He. by apply not_elem_of_nil in He.
  - destruct (Z.eqb_spec (rehashidx d1) (-1)); [lia|]. cbn [negb].
    destruct (delete_in_spec d1 true key nofree Hwf1 Ht1) as (r1 & -> & H1). cbn [mbind option_bind].
    destruct r1 as [[d2 fr]|].
    + destruct H1 as (? & ? & e & Hk & HP & Hfr). do 3 eexists. split; [done|].
      split_and!; [done|congruence|]. exists e. split_and!; [done| |done]. by rewrite <- HP1.
    + do 3 eexists. split; [done|]. split_and!; try done.
      intros e He. rewrite <- HP1 in He. apply elem_of_app in He as [He|He]; [by apply H0|by apply H1].
Qed.

Lemma dictReplace_spec d key v :
  dict_wf d → zlen (ents d) + 1 < max_used →
  ∃ d' isnew fr, dictReplace can_resize hashF cmp kdup vdup d key v = Some (d', isnew, fr) ∧
    dict_wf d' ∧ iterators d' = iterators d ∧
    if (isnew : bool) then (∀ e, e ∈ ents d → de_key e ≠ key) ∧ fr = [] ∧
        ents d' ≡ₚ mkEntry key (Some (vdup v)) :: ents d
    else ∃ e rest, de_key e = key ∧ fr = [FreeVal (de_val e)] ∧ ents d ≡ₚ e :: rest ∧
        ents d' ≡ₚ mkEntry key (Some (vdup v)) :: rest.
Proof using DictTypeLaws0.
  intros Hwf Hbd. unfold dictReplace.
  destruct (dictAdd_spec d key v Hwf Hbd) as (d1 & [] & -> & Hwf1 & Hit1 & Hr); cbn [mbind option_bind].
  { do 3 eexists. split; [done|]. by destruct Hr. }
  destruct Hr as (HP1 & e0 & He0 & Hk0).
  destruct (dictFind_spec d1 key Hwf1) as (d2 & [p|] & -> & (Hwf2 & HP2 & Hit2 & _) & Hr);
    cbn [mbind option_bind].
  - destruct Hr as (e & Hpt & Hk).
    destruct (dictSetVal_spec d2 p e v Hwf2 Hpt) as (d3 & rest & -> & Hwf3 & Hit3 & HPr & HP3).
    cbn [mbind option_bind]. do 3 eexists. split; [done|]. split_and!; [done|congruence|].
    exists e, rest. split_and!; [done..| |by rewrite <- Hk]. by rewrite <- HPr, HP2, HP1.
  - exfalso. apply (Hr e0); [|done]. by rewrite HP2, HP1.
Qed.

End facts.

(** ** Clearing *)

Lemma clear_loop_spec {K V} (tb : list (bucket K V)) us :
  us = zlen (mjoin tb) → us < 2 ^ 64 →
  clear_loop tb us = (mjoin tb ≫= free_entry, 0).
Proof.
  revert us. induction tb as [|b tb IH]; intros us Hus Hb; [by subst us|].
  assert (zlen (mjoin (b :: tb)) = zlen b + zlen (mjoin tb)) as Hl.
  { unfold zlen. simpl. rewrite length_app. lia. }
  cbn [clear_loop]. rewrite Hl in Hus. assert (0 ≤ zlen b ∧ 0 ≤ zlen (mjoin tb)) by (unfold zlen; lia).
  destruct (Z.ltb_spec 0 us).
  - rewrite wrapu_small by (unfold in_u; lia). rewrite (IH (us - zlen b)) by lia.
    simpl. by rewrite bind_app.
  - assert (us = 0) as E0 by lia. rewrite E0 in *.
    assert (mjoin (b :: tb) = []) as ->; [|done].
    destruct (mjoin (b :: tb)); [done|]. unfold zlen in Hl. simpl in Hl. unfold zlen in *. lia.
Qed.

(** ** The finite map of a dictionary *)

Section map.
Context {K V : Type} `{Countable K}.
Context (can_resize : bool) (hashF : K → Z) (cmp : K → K → bool) (kdup : K → K) (vdup : V → V).
Context `{!DictTypeLaws hashF cmp kdup}.
Implicit Types (d : dict K V) (k : K) (v : V).

Definition kv (e : dictEntry K V) : K * option V := (de_key e, de_val e).
Definition amap d : gmap K (option V) := list_to_map (kv <$> ents d).

Lemma kv_keys (l : list (dictEntry K V)) : (kv <$> l).*1 = de_key <$> l.
Proof. by rewrite <- list_fmap_compose. Qed.

Lemma amap_perm d (l : list (dictEntry K V)) :
  NoDup (de_key <$> ents d) → ents d ≡ₚ l → amap d = list_to_map (kv <$> l).
Proof.
  intros Hnd HP. unfold amap. apply list_to_map_proper; [by rewrite kv_keys|].
  by apply fmap_Permutation.
Qed.

Lemma amap_lookup d e :
  NoDup (de_key <$> ents d) → e ∈ ents d → amap d !! de_key e = Some (de_val e).
Proof.
  intros Hnd He. apply elem_of_list_to_map_1; [by rewrite kv_keys|].
  apply list_elem_of_fmap. by exists e.
Qed.

Lemma amap_None d k : (∀ e, e ∈ ents d → de_key e ≠ k) → amap d !! k = None.
Proof.
  intros Hne. apply not_elem_of_list_to_map_1. rewrite kv_keys.
  intros (e & -> & He)%list_elem_of_fmap. by apply (Hne e).
Qed.

Lemma amap_cons d d' e :
  NoDup (de_key <$> ents d') → ents d' ≡ₚ e :: ents d → amap d' = <[de_key e := de_val e]> (amap d).
Proof. intros Hnd HP. by rewrite (amap_perm d' _ Hnd HP). Qed.

Lemma amap_uncons d d' e :
  NoDup (de_key <$> ents d) → ents d ≡ₚ e :: ents d' → amap d' = delete (de_key e) (amap d).
Proof.
  intros Hnd HP. rewrite (amap_perm d _ Hnd HP). cbn. rewrite delete_insert_id; [done|].
  apply amap_None. intros e' He'. rewrite HP in Hnd. cbn in Hnd. apply NoDup_cons in Hnd as [Hn _].
  intros Hk. apply Hn. apply list_elem_of_fmap. by exists e'.
Qed.

Lemma amap_update d d' e e' rest :
  NoDup (de_key <$> ents d) → NoDup (de_key <$> ents d') → de_key e = de_key e' →
  ents d ≡ₚ e :: rest → ents d' ≡ₚ e' :: rest → amap d' = <[de_key e' := de_val e']> (amap d).
Proof.
  intros Hnd Hnd' Hk HP HP'. rewrite (amap_perm d _ Hnd HP), (amap_perm d' _ Hnd' HP'). cbn.
  rewrite Hk. by rewrite insert_insert_eq.
Qed.

(** ** Sequences of operations *)

Inductive dop :=
  | DAdd (k : K) (v : V)
  | DReplace (k : K) (v : V)
  | DFetch (k : K)
  | DDelete (k : K) (nofree : bool)
  | DExpand (n : Z)
  | DResize
  | DRehash (n : nat).

Inductive dres :=
  | RBool (b : bool)                  (* what the call reports *)
  | RFetch (v : option (option V))    (* the value, if there is an entry *)
  | RUnit.

Definition is_ok (st : status) : bool := bool_decide (st = DICT_OK).

Definition run_dop d (o : dop) : option (dict K V * dres) :=
  match o with
  | DAdd k v => '(d, st) ← dictAdd can_resize hashF cmp kdup vdup d k v; Some (d, RBool (is_ok st))
  | DReplace k v =>
      '(d, isnew, _) ← dictReplace can_resize hashF cmp kdup vdup d k v; Some (d, RBool isnew)
  | DFetch k => '(d, r) ← dictFetchValue hashF cmp d k; Some (d, RFetch r)
  | DDelete k nofree =>
      '(d, st, _) ← dictGenericDelete hashF cmp d k nofree; Some (d, RBool (is_ok st))
  | DExpand n => '(d, _) ← dictExpand d n; Some (d, RUnit)
  | DResize => '(d, _) ← dictResize can_resize d; Some (d, RUnit)
  | DRehash n => '(d, _) ← dictRehash hashF d n; Some (d, RUnit)
  end.

Fixpoint run_dops d (ops : list dop) : option (dict K V * list dres) :=
  match ops with
  | [] => Some (d, [])
  | o :: ops => '(d, r) ← run_dop d o; '(d, rs) ← run_dops d ops; Some (d, r :: rs)
  end.

(** The specification: a finite map. *)
Definition spec_dop (m : gmap K (option V)) (o : dop) : gmap K (option V) * dres :=
  match o with
  | DAdd k v => match m !! k with
                | Some _ => (m, RBool false)
                | None => (<[k := Some (vdup v)]> m, RBool true)
                end
  | DReplace k v => (<[k := Some (vdup v)]> m, RBool (bool_decide (m !! k = None)))
  | DFetch k => (m, RFetch (m !! k))
  | DDelete k _ => (delete k m, RBool (bool_decide (is_Some (m !! k))))
  | DExpand _ | DResize | DRehash _ => (m, RUnit)
  end.

Fixpoint spec_dops (m : gmap K (option V)) (ops : list dop) : gmap K (option V) * list dres :=
  match ops with
  | [] => (m, [])
  | o :: ops => let '(m, r) := spec_dop m o in
                let '(m, rs) := spec_dops m ops in (m, r :: rs)
  end.

Definition dop_ok (o : dop) : Prop :=
  match o with DExpand n => 0 ≤ n ≤ 2 ^ 31 | _ => True end.

#[global] Instance dop_ok_dec o : Decision (dop_ok o).
Proof. destruct o; cbn; apply _. Defined.

Lemma same_amap d d' : same hashF d d' → amap d' = amap d.
Proof.
  intros (Hwf & HP & _). rewrite (amap_perm d' _ (wf_keys _ _ Hwf) HP). done.
Qed.

Lemma same_len d d' : same hashF d d' → zlen (ents d') = zlen (ents d).
Proof. intros (_ & HP & _). apply Permutation_length in HP. unfold zlen. by rewrite HP. Qed.

(** The operation [o] on [d] does what it does on the map of [d]. *)
Definition refines d (o : dop) : Prop :=
  ∃ d' r, run_dop d o = Some (d', r) ∧ dict_wf hashF d' ∧
    zlen (ents d') ≤ zlen (ents d) + 1 ∧ spec_dop (amap d) o = (amap d', r).

Lemma perm_len (l1 l2 : list (dictEntry K V)) : l1 ≡ₚ l2 → zlen l1 = zlen l2.
Proof. intros HP%Permutation_length. unfold zlen. by rewrite HP. Qed.

Lemma refines_same d d' o :
  run_dop d o = Some (d', RUnit) → spec_dop (amap d) o = (amap d, RUnit) →
  same hashF d d' → refines d o.
Proof.
  intros Hrun Hspec Hsame. exists d', RUnit. split; [done|]. split; [apply Hsame|].
  rewrite (same_len _ _ Hsame), (same_amap _ _ Hsame). split; [lia|done].
Qed.

Lemma refines_add d k v :
  dict_wf hashF d → zlen (ents d) + 1 < max_used → refines d (DAdd k v).
Proof using DictTypeLaws0.
  intros Hwf Hbd. pose proof (wf_keys _ _ Hwf) as Hnd. unfold refines. cbn [run_dop spec_dop].
  destruct (dictAdd_spec can_resize hashF cmp kdup vdup d k v Hwf Hbd)
    as (d' & st & -> & Hwf' & _ & Hst). cbn [mbind option_bind]. do 2 eexists. split; [done|].
  split; [done|]. pose proof (wf_keys _ _ Hwf') as Hnd'. destruct st.
  - destruct Hst as (Hnew & HP). rewrite (amap_None d k Hnew), (perm_len _ _ HP). split; [len|].
    f_equal. symmetry. apply (amap_cons d d' (mkEntry k (Some (vdup v))) Hnd' HP).
  - destruct Hst as (HP & e & He & <-). rewrite (amap_lookup d e Hnd He), (perm_len _ _ HP).
    split; [lia|]. f_equal. symmetry. apply (amap_perm d' _ Hnd' HP).
Qed.

Lemma refines_replace d k v :
  dict_wf hashF d → zlen (ents d) + 1 < max_used → refines d (DReplace k v).
Proof using DictTypeLaws0.
  intros Hwf Hbd. pose proof (wf_keys _ _ Hwf) as Hnd. unfold refines. cbn [run_dop spec_dop].
  destruct (dictReplace_spec can_resize hashF cmp kdup vdup d k v Hwf Hbd)
    as (d' & isnew & fr & -> & Hwf' & _ & Hst). cbn [mbind option_bind]. do 2 eexists. split; [done|].
  split; [done|]. pose proof (wf_keys _ _ Hwf') as Hnd'. destruct isnew.
  - destruct Hst as (Hnew & _ & HP). rewrite (amap_None d k Hnew), (perm_len _ _ HP). split; [len|].
    f_equal. symmetry. apply (amap_cons d d' (mkEntry k (Some (vdup v))) Hnd' HP).
  - destruct Hst as (e & rest & Hk & _ & HP & HP'). assert (e ∈ ents d) as He by (rewrite HP; left).
    assert (amap d !! k = Some (de_val e)) as -> by (rewrite <- Hk; by apply amap_lookup).
    rewrite (perm_len _ _ HP), (perm_len _ _ HP'). split; [len|]. f_equal. symmetry.
    by apply (amap_update d d' e (mkEntry k (Some (vdup v))) rest Hnd Hnd').
Qed.

Lemma refines_fetch d k : dict_wf hashF d → refines d (DFetch k).
Proof using DictTypeLaws0.
  intros Hwf. unfold refines. cbn [run_dop spec_dop]. unfold dictFetchValue.
  destruct (dictFind_spec hashF cmp kdup d k Hwf) as (d' & [p|] & -> & Hsame & Hr);
    cbn [mbind option_bind].
  - destruct Hr as (e & Hpt & Hk). rewrite (points_to_entry _ _ _ Hpt). cbn [mbind option_bind].
    do 2 eexists. split; [done|]. split; [apply Hsame|]. rewrite (same_len _ _ Hsame).
    split; [lia|]. rewrite <- (same_amap _ _ Hsame). f_equal. f_equal. rewrite <- Hk.
    apply amap_lookup; [apply (wf_keys _ _ (proj1 Hsame))|]. by eapply points_to_ents.
  - do 2 eexists. split; [done|]. split; [apply Hsame|]. rewrite (same_len _ _ Hsame).
    split; [lia|]. rewrite <- (same_amap _ _ Hsame). f_equal. f_equal. by apply amap_None.
Qed.

Lemma refines_delete d k nofree : dict_wf hashF d → refines d (DDelete k nofree).
Proof using DictTypeLaws0.
  intros Hwf. pose proof (wf_keys _ _ Hwf) as Hnd. unfold refines. cbn [run_dop spec_dop].
  destruct (dictGenericDelete_spec hashF cmp kdup d k nofree Hwf)
    as (d' & st & fr & -> & Hwf' & _ & Hst). cbn [mbind option_bind]. do 2 eexists. split; [done|].
  split; [done|]. pose proof (wf_keys _ _ Hwf') as Hnd'. destruct st.
  - destruct Hst as (e & <- & HP & _). assert (e ∈ ents d) as He by (rewrite HP; left).
    rewrite (amap_lookup d e Hnd He), (perm_len _ _ HP). split; [len|].
    f_equal. by rewrite (amap_uncons d d' e Hnd HP).
  - destruct Hst as (HP & Hnew & _). rewrite (perm_len _ _ HP). split; [lia|].
    assert (amap d !! k = None) as Hk by by apply amap_None.
    rewrite Hk, delete_id by done. f_equal. symmetry. apply (amap_perm d' _ Hnd' HP).
Qed.

Lemma refines_resize d : dict_wf hashF d → refines d DResize.
Proof.
  intros Hwf. destruct (dictResize_spec can_resize hashF d Hwf) as (d' & st & HR & Hsame).
  eapply (refines_same d d'); [|done..]. cbn. by rewrite HR.
Qed.

Lemma run_dop_spec d o :
  dict_wf hashF d → zlen (ents d) + 1 < max_used → dop_ok o → refines d o.
Proof using DictTypeLaws0.
  intros Hwf Hbd Hok. destruct o as [k v|k v|k|k nofree|n| |n].
  - by apply refines_add.
  - by apply refines_replace.
  - by apply refines_fetch.
  - by apply refines_delete.
  - destruct (dictExpand_spec hashF d n Hwf Hok) as (? & d' & st & _ & _ & _ & HE & Hsame & _).
    eapply refines_same; [|done..]. cbn. by rewrite HE.
  - by apply refines_resize.
  - destruct (dictRehash_spec hashF d n Hwf) as (d' & more & HE & Hsame & _).
    eapply refines_same; [|done..]. cbn. by rewrite HE.
Qed.

Lemma run_dops_spec ops : ∀ d,
  dict_wf hashF d → zlen (ents d) + zlen ops < max_used → Forall dop_ok ops →
  ∃ d' rs, run_dops d ops = Some (d', rs) ∧ dict_wf hashF d' ∧
    spec_dops (amap d) ops = (amap d', rs).
Proof using DictTypeLaws0.
  induction ops as [|o ops IH]; intros d Hwf Hbd HF; cbn [run_dops spec_dops]; [eauto|].
  apply Forall_cons in HF as [Ho HF]. assert (zlen (o :: ops) = zlen ops + 1) as Hl by len.
  assert (0 ≤ zlen ops) by (unfold zlen; lia).
  destruct (run_dop_spec d o Hwf ltac:(lia) Ho) as (d1 & r & -> & Hwf1 & Hlen & ->).
  cbn [mbind option_bind]. destruct (IH d1 Hwf1 ltac:(lia) HF) as (d2 & rs & -> & Hwf2 & ->).
  cbn [mbind option_bind]. eauto.
Qed.

Lemma create_wf : dict_wf hashF (dictCreate (K := K) (V := V)).
Proof. split; try done; [constructor|by left]. Qed.

End map.

(** ** Theorems *)

Section theorems.
Context {K V : Type} `{Countable K}.
Context (can_resize : bool) (hashF : K → Z) (cmp : K → K → bool) (kdup : K → K) (vdup : V → V).
Context `{!DictTypeLaws hashF cmp kdup}.

(** C1. Refinement: every sequence of calls of [dictAdd], [dictReplace],
    [dictFetchValue], [dictGenericDelete], [dictExpand], [dictResize] and
    [dictRehash] on a new dictionary, of any length below the bound of the
    model, makes no invalid access and gives the results a finite map gives,
    in every state of the incremental rehashing and with resizing enabled or
    not. *)
Theorem dict_refines_map (ops : list (dop (K := K) (V := V))) :
  zlen ops < max_used → Forall dop_ok ops →
  ∃ d rs, run_dops can_resize hashF cmp kdup vdup dictCreate ops = Some (d, rs) ∧
    dict_wf hashF d ∧ spec_dops vdup ∅ ops = (amap d, rs).
Proof using DictTypeLaws0.
  intros Hl Hok. apply (run_dops_spec can_resize hashF cmp kdup vdup ops dictCreate); [apply create_wf|exact Hl|done].
Qed.

(** C25. Liveness of the incremental rehashing: [dictRehash] with as many steps
    as the old table has chains ends it: the new table is the only one, it
    holds the same entries, and the call reports that nothing is left. *)
Theorem dictRehash_completes (d : dict K V) n :
  dict_wf hashF d → rehashing d → size (ht0 d) ≤ Z.of_nat n → Z.of_nat n * 10 < 2 ^ 31 →
  ∃ d', dictRehash hashF d n = Some (d', false) ∧ dict_wf hashF d' ∧ no_rehash d' ∧
    amap d' = amap d ∧ size (ht0 d') = size (ht1 d).
Proof.
  intros Hwf Hre Hn Hb. pose proof (shape_some _ _ (wf_shape0 _ _ Hwf) (proj1 (proj2 Hre))) as H4.
  assert (in_s 32 (Z.of_nat n * 10)) as Hs by (unfold in_s; lia).
  destruct (rehash_loop_done hashF n d (i32 (Z.of_nat n * 10)) Hwf Hre) as (d1 & Hla & Hrun & H0).
  { apply wraps_range. lia. }
  { rewrite wraps_small by (done || lia). destruct Hre as [? _]. lia. }
  { destruct Hre as [? _]. lia. }
  unfold dictRehash. assert (dictIsRehashing d = true) as ->.
  { unfold dictIsRehashing. destruct (Z.eqb_spec (rehashidx d) (-1)); [destruct Hre; lia|done]. }
  cbv zeta. rewrite Hrun. cbn [negb mbind option_bind]. rewrite H0. cbn [Z.eqb].
  destruct Hla as (Hwf1 & Hre1 & HP & _ & _ & Hsz1 & _).
  destruct (swap_same hashF d1 Hwf1 Hre1 H0) as (Hwf2 & HP2 & _).
  eexists. split; [done|]. split; [done|]. split; [done|]. split; [|done].
  apply amap_perm; [apply Hwf2|]. by rewrite HP2.
Qed.

(** [dictEmpty] and [dictRelease] hand the key and the value of every
    entry to the destructors exactly once, and [dictEmpty] leaves a dictionary
    equal to a new one; the early exit of the loop of [_dictClear] loses no
    entry. *)
Theorem dict_clear_frees_all (d : dict K V) :
  dict_wf hashF d →
  dictEmpty d = (dictCreate, ents d ≫= free_entry) ∧ dictRelease d = ents d ≫= free_entry.
Proof.
  intros Hwf. pose proof (wf_bound _ _ Hwf) as Hb. unfold max_used in Hb.
  assert (∀ h : dictht K V, used h = zlen (ents_ht h) → zlen (ents_ht h) < 2 ^ 64 →
    _dictClear h = (ents_ht h ≫= free_entry, _dictReset)) as Hc.
  { intros h Hu Hl. unfold _dictClear. rewrite clear_loop_spec; [done|exact Hu|lia]. }
  assert (zlen (ents d) = zlen (ents_ht (ht0 d)) + zlen (ents_ht (ht1 d))) as Hlen by (unfold ents; len).
  assert (0 ≤ zlen (ents_ht (ht0 d)) ∧ 0 ≤ zlen (ents_ht (ht1 d))) by (unfold zlen; lia).
  unfold dictEmpty, dictRelease. rewrite !Hc by first [apply Hwf | lia].
  unfold ents. by rewrite bind_app.
Qed.

End theorems.

(** ** Integer keys, hashed by their low 32 bits *)

#[global] Instance int_keys : DictTypeLaws (u32 : Z → Z) Z.eqb (λ k, k).
Proof. split; [|apply Z.eqb_eq|done]. intros. apply wrapu_range. lia. Qed.

Definition int_ops : list (dop (K := Z) (V := Z)) :=
  (λ k, DAdd k (k * k)) <$> seqZ 0 20.

(** A dictionary being resized: twenty insertions leave the first table of
    16 chains and the second of 32 in use. *)
Definition int_dict : dict Z Z :=
  match run_dops true u32 Z.eqb (λ k, k) (λ v, v) dictCreate int_ops with
  | Some (d, _) => d
  | None => dictCreate
  end.

Lemma int_dict_wf : dict_wf u32 int_dict.
Proof.
  destruct (run_dops_spec true u32 Z.eqb (λ k, k) (λ v, v) int_ops dictCreate) as (d & rs & Hrun & Hwf & _);
    [apply create_wf|by vm_compute|by_decision|].
  unfold int_dict. by rewrite Hrun.
Qed.

Lemma int_dict_rehashing : rehashing int_dict.
Proof.
  destruct (wf_phase _ _ int_dict_wf) as [[Hri _]|]; [|done].
  exfalso. revert Hri. vm_compute. discriminate.
Qed.

(** Witnesses of the theorems. *)
Lemma dict_refines_map_witness :
  zlen int_ops < max_used ∧ Forall dop_ok int_ops ∧
  ∃ d rs, run_dops true u32 Z.eqb (λ k, k) (λ v, v) dictCreate int_ops = Some (d, rs) ∧
    dict_wf u32 d ∧ spec_dops (λ v, v) ∅ int_ops = (amap d, rs).
Proof.
  split; [by vm_compute|]. split; [by_decision|].
  apply (dict_refines_map true u32 Z.eqb (λ k, k) (λ v, v) int_ops); [by vm_compute|by_decision].
Defined.

Lemma dictRehash_completes_witness :
  dict_wf u32 int_dict ∧ rehashing int_dict ∧
  ∃ d', dictRehash u32 int_dict 16 = Some (d', false) ∧ dict_wf u32 d' ∧ no_rehash d' ∧
    amap d' = amap int_dict ∧ size (ht0 d') = 32.
Proof.
  split; [apply int_dict_wf|]. split; [apply int_dict_rehashing|].
  apply (dictRehash_completes u32 int_dict 16);
    [apply int_dict_wf|apply int_dict_rehashing|by vm_compute|by vm_compute].
Defined.

Lemma dict_clear_frees_all_witness :
  dict_wf u32 int_dict ∧
  dictEmpty int_dict = (dictCreate, ents int_dict ≫= free_entry) ∧
  dictRelease int_dict = ents int_dict ≫= free_entry.
Proof.
  split; [apply int_dict_wf|]. apply (dict_clear_frees_all u32 int_dict). apply int_dict_wf.
Defined.
