(* ===== verification/DictScan.v ===== *)
(** * DictScan: the stateless iteration of dict.c ([rev], [dictScan])

    The cursor is incremented from its high order bits, by reversing it.  The
    theorems relate the cursor to the hashes already covered: those whose
    reversal is below the reversal of the cursor. *)

From S2P Require Import Prelude Dict DictFacts.

(** ** Bit reversal *)

(** One round of the loop of [rev]: the shift [s] and the mask it uses. *)
Definition rev_round (vm : Z * Z) (s : Z) : Z * Z :=
  let '(v, mask) := vm in
  let mask := Z.lxor mask (u64 (Z.shiftl mask s)) in
  (Z.lor (Z.land (Z.shiftr v s) mask)
         (Z.land (u64 (Z.shiftl v s)) (u64 (Z.lnot mask))), mask).

(** [while ((s >>= 1) > 0)] from [s = 64]. *)
Definition rev (v : Z) : Z :=
  (foldl rev_round (v, u64 (Z.lnot 0)) [32; 16; 8; 4; 2; 1]).1.

(** ** Scanning *)

Section scan.
Context {K V : Type}.
Implicit Types (d : dict K V).

(** [do { .. } while (v & (m0 ^ m1))]: the chains of the larger table. *)
Fixpoint expand_loop (fuel : nat) (t1 : dictht K V) (m0 m1 v : Z)
    : option (bucket K V * Z) :=
  match fuel with
  | O => None
  | S fuel =>
      de ← get_bucket t1 (Z.land v m1);
      let v := Z.lor (Z.land (u64 (Z.lor v m0 + 1)) (u64 (Z.lnot m0))) (Z.land v m0) in
      if Z.land v (Z.lxor m0 m1) =? 0 then Some (de, v)
      else '(es, v) ← expand_loop fuel t1 m0 m1 v; Some (de ++ es, v)
  end.

(** The cursor after the chains of [v & m0]. *)
Definition next_cursor (m0 v : Z) : Z :=
  let v := Z.lor v (u64 (Z.lnot m0)) in
  let v := rev v in
  let v := u64 (v + 1) in
  rev v.

(** The entries passed to [fn], in order, and the new cursor. *)
Definition dictScan d (v : Z) : option (bucket K V * Z) :=
  if dictSize d =? 0 then Some ([], 0) else
  if negb (dictIsRehashing d) then
    let m0 := sizemask (ht0 d) in
    de ← get_bucket (ht0 d) (Z.land v m0);
    Some (de, next_cursor m0 v)
  else
    let '(t0, t1) := if size (ht1 d) <? size (ht0 d) then (ht1 d, ht0 d) else (ht0 d, ht1 d) in
    let m0 := sizemask t0 in
    let m1 := sizemask t1 in
    de ← get_bucket t0 (Z.land v m0);
    '(es, v) ← expand_loop (S (Z.to_nat (size t1))) t1 m0 m1 v;
    Some (de ++ es, next_cursor m0 v).

End scan.

(** ** Facts on bit reversal *)

(** Where round [s], with the mask [mask] it computes, takes bit [i] from. *)
Definition round_src (s mask i : Z) : Z := if Z.testbit mask i then i + s else i - s.
Definition round_mask (mask s : Z) : Z := Z.lxor mask (u64 (Z.shiftl mask s)).

Lemma in_u64_lxor a b : in_u 64 a → in_u 64 b → in_u 64 (Z.lxor a b).
Proof.
  intros Ha Hb. apply in_u_bits; [lia|]. intros j Hj.
  rewrite Z.lxor_spec, (in_u_testbit 64 a), (in_u_testbit 64 b) by (done || lia). done.
Qed.

Lemma rev_round_bits v mask s i :
  in_u 64 v → in_u 64 mask → 0 < s → 0 ≤ i →
  Z.testbit (rev_round (v, mask) s).1 i =
  (i <? 64) && Z.testbit v (round_src s (round_mask mask s) i).
Proof.
  intros Hv Hm Hs Hi. unfold rev_round, round_src. cbn. fold (round_mask mask s).
  assert (in_u 64 (round_mask mask s)) as Hm'.
  { apply in_u64_lxor; [done|]. apply wrapu_range. lia. }
  set (m := round_mask mask s) in *.
  rewrite Z.lor_spec, !Z.land_spec, !wrapu_testbit, Z.shiftr_spec, Z.shiftl_spec, Z.lnot_spec by lia.
  destruct (Z.ltb_spec i 64); cbn.
  - destruct (Z.testbit m i); cbn; by rewrite ?andb_false_r, ?andb_true_r, ?orb_false_r.
  - by rewrite (in_u_testbit 64 m), andb_false_r by (done || lia).
Qed.

Lemma rev_round_range v mask s :
  in_u 64 v → in_u 64 mask → 0 < s → in_u 64 (rev_round (v, mask) s).1.
Proof.
  intros. apply in_u_bits; [lia|]. intros j Hj. rewrite rev_round_bits by (done || lia).
  by destruct (Z.ltb_spec j 64); [lia|].
Qed.

(** The bit of the argument that ends at bit [i] after the rounds [l]. *)
Fixpoint src (l : list Z) (mask i : Z) : Z :=
  match l with
  | [] => i
  | s :: l => round_src s (round_mask mask s) (src l (round_mask mask s) i)
  end.
Fixpoint src_ok (l : list Z) (mask i : Z) : bool :=
  match l with
  | [] => true
  | s :: l => let j := src l (round_mask mask s) i in
              (0 <? s) && (0 <=? j) && (j <? 64) && src_ok l (round_mask mask s) i
  end.

Lemma rounds_bits l i : ∀ v mask,
  in_u 64 v → in_u 64 mask → src_ok l mask i = true →
  Z.testbit (foldl rev_round (v, mask) l).1 i = Z.testbit v (src l mask i).
Proof.
  induction l as [|s l IH]; intros v mask Hv Hm Hok; [done|].
  cbn [src_ok] in Hok. cbn zeta in Hok. bool_tests.
  assert (in_u 64 (round_mask mask s)) as Hm' by (apply in_u64_lxor; [done|apply wrapu_range; lia]).
  cbn [foldl src].
  change (rev_round (v, mask) s) with ((rev_round (v, mask) s).1, round_mask mask s).
  rewrite IH; [|by apply rev_round_range|done|done].
  rewrite rev_round_bits by done. by destruct (Z.ltb_spec (src l (round_mask mask s) i) 64); [|lia].
Qed.

Lemma rounds_range l : ∀ v mask,
  in_u 64 v → in_u 64 mask → Forall (λ s, 0 < s) l →
  in_u 64 (foldl rev_round (v, mask) l).1.
Proof.
  induction l as [|s l IH]; intros v mask Hv Hm HF; [done|].
  apply Forall_cons in HF as [Hs HF]. cbn [foldl].
  change (rev_round (v, mask) s) with ((rev_round (v, mask) s).1, round_mask mask s).
  apply IH; [by apply rev_round_range|apply in_u64_lxor; [done|apply wrapu_range; lia]|done].
Qed.

Lemma rev_range v : in_u 64 v → in_u 64 (rev v).
Proof.
  intros Hv. apply rounds_range; [done|by vm_compute|by_decision].
Qed.

(** [rev] reverses the 64 bits of its argument. *)
Lemma rev_testbit v i : in_u 64 v → 0 ≤ i < 64 → Z.testbit (rev v) i = Z.testbit v (63 - i).
Proof.
  intros Hv Hi. unfold rev.
  assert (Forall (λ i, src_ok [32; 16; 8; 4; 2; 1] (u64 (Z.lnot 0)) i = true ∧
    src [32; 16; 8; 4; 2; 1] (u64 (Z.lnot 0)) i = 63 - i) (seqZ 0 64)) as HF by by_decision.
  rewrite Forall_forall in HF. destruct (HF i) as [H1 H2]; [apply elem_of_seqZ; lia|].
  rewrite rounds_bits; [by rewrite H2|done|by vm_compute|done].
Qed.

Lemma u64_bits_inj a b :
  in_u 64 a → in_u 64 b → (∀ i, 0 ≤ i < 64 → Z.testbit a i = Z.testbit b i) → a = b.
Proof.
  intros Ha Hb Hbits. apply Z.bits_inj'. intros i Hi. destruct (decide (i < 64)); [by apply Hbits|].
  by rewrite (in_u_testbit 64 a), (in_u_testbit 64 b) by (done || lia).
Qed.

Lemma rev_involutive v : in_u 64 v → rev (rev v) = v.
Proof.
  intros Hv. pose proof (rev_range v Hv) as Hr. apply u64_bits_inj; [by apply rev_range|done|].
  intros i Hi. rewrite !rev_testbit by (done || lia). f_equal. lia.
Qed.

Lemma rev_0 : rev 0 = 0.
Proof. by vm_compute. Qed.

Lemma mod_in_u64 k v : in_u 64 v → 0 ≤ k → in_u 64 (v mod 2 ^ k).
Proof.
  unfold in_u. intros Hv Hk. assert (0 < 2 ^ k) by (apply Z.pow_pos_nonneg; lia).
  pose proof (Z.mod_pos_bound v (2 ^ k) ltac:(lia)).
  pose proof (Z.mod_le v (2 ^ k) ltac:(lia) ltac:(lia)). lia.
Qed.

(** Keeping the low [k] bits is keeping the high [k] bits of the reversal. *)
Lemma rev_low k v :
  in_u 64 v → 0 ≤ k ≤ 64 → rev (v mod 2 ^ k) = Z.shiftl (Z.shiftr (rev v) (64 - k)) (64 - k).
Proof.
  intros Hv Hk. pose proof (rev_range v Hv) as Hr.
  pose proof (mod_in_u64 k v Hv ltac:(lia)) as Hm.
  apply u64_bits_inj; [by apply rev_range| |].
  - apply in_u_bits; [lia|]. intros j Hj. rewrite Z.shiftl_spec, Z.shiftr_spec by lia.
    replace (j - (64 - k) + (64 - k)) with j by lia. by apply (in_u_testbit 64).
  - intros i Hi. rewrite rev_testbit, Z.shiftl_spec by (done || lia).
    destruct (decide (i < 64 - k)).
    + rewrite Z.mod_pow2_bits_high, Z.testbit_neg_r by lia. done.
    + rewrite Z.mod_pow2_bits_low, Z.shiftr_spec by lia.
      replace (i - (64 - k) + (64 - k)) with i by lia. by rewrite rev_testbit.
Qed.

Lemma rev_low_le k v : in_u 64 v → 0 ≤ k ≤ 64 → rev (v mod 2 ^ k) ≤ rev v.
Proof.
  intros Hv Hk. rewrite rev_low, Z.shiftl_mul_pow2, Z.shiftr_div_pow2 by (done || lia).
  assert (0 < 2 ^ (64 - k)) by (apply Z.pow_pos_nonneg; lia).
  pose proof (Z.mul_div_le (rev v) (2 ^ (64 - k))). lia.
Qed.

(** Hashes of one chain are an interval of reversals. *)
Lemma rev_interval k a h :
  in_u 64 a → in_u 64 h → 0 ≤ k ≤ 64 →
  rev (a mod 2 ^ k) ≤ rev h < rev (a mod 2 ^ k) + 2 ^ (64 - k) → h mod 2 ^ k = a mod 2 ^ k.
Proof.
  intros Ha Hh Hk Hint.
  rewrite <- (rev_involutive (h mod 2 ^ k)), <- (rev_involutive (a mod 2 ^ k))
    by (apply mod_in_u64; done || lia).
  f_equal. rewrite (rev_low k a) in Hint |- * by done. rewrite (rev_low k h) by done.
  rewrite !Z.shiftl_mul_pow2, !Z.shiftr_div_pow2 in * by lia.
  assert (0 < 2 ^ (64 - k)) by (apply Z.pow_pos_nonneg; lia). f_equal.
  symmetry. apply Z.div_unique with (rev h - rev a / 2 ^ (64 - k) * 2 ^ (64 - k)); lia.
Qed.

Lemma not_mask k v :
  in_u 64 v → 0 ≤ k ≤ 64 →
  rev (Z.lor v (u64 (Z.lnot (2 ^ k - 1)))) = rev (v mod 2 ^ k) + (2 ^ (64 - k) - 1).
Proof.
  intros Hv Hk. rewrite rev_low by done. rewrite <- lor_disjoint_add.
  - assert (in_u 64 (Z.lor v (u64 (Z.lnot (2 ^ k - 1))))) as Hl.
    { apply in_u_bits; [lia|]. intros j Hj. rewrite Z.lor_spec, wrapu_testbit by lia.
      rewrite (in_u_testbit 64 v) by (done || lia). by destruct (Z.ltb_spec j 64); [lia|]. }
    assert (2 ^ (64 - k) - 1 = Z.ones (64 - k)) as Ho by (rewrite Z.ones_equiv; lia).
    assert (2 ^ k - 1 = Z.ones k) as Ho' by (rewrite Z.ones_equiv; lia). rewrite Ho, Ho' in *.
    apply Z.bits_inj'. intros i Hi. rewrite Z.lor_spec, Z.shiftl_spec, (Z.testbit_ones_nonneg (64 - k)) by lia.
    destruct (decide (i < 64)) as [Hi64|Hi64].
    + rewrite rev_testbit, Z.lor_spec, wrapu_testbit, Z.lnot_spec, Z.testbit_ones_nonneg by (done || lia).
      replace (63 - i <? 64) with true by (symmetry; apply Z.ltb_lt; lia).
      destruct (Z.ltb_spec i (64 - k)).
      * replace (63 - i <? k) with false by (symmetry; apply Z.ltb_ge; lia). by rewrite !orb_true_r.
      * replace (63 - i <? k) with true by (symmetry; apply Z.ltb_lt; lia). cbn [negb andb]. rewrite !orb_false_r.
        rewrite Z.shiftr_spec by lia. replace (i - (64 - k) + (64 - k)) with i by lia.
        by rewrite rev_testbit.
    + rewrite (in_u_testbit 64) by (by apply rev_range || lia).
      destruct (Z.ltb_spec i (64 - k)); [lia|]. rewrite orb_false_r, Z.shiftr_spec by lia.
      replace (i - (64 - k) + (64 - k)) with i by lia.
      by rewrite (in_u_testbit 64) by (by apply rev_range || lia).
  - apply Z.bits_inj'. intros i Hi. rewrite Z.land_spec, Z.shiftl_spec, Z.bits_0 by lia.
    replace (2 ^ (64 - k) - 1) with (Z.ones (64 - k)) by (rewrite Z.ones_equiv; lia).
    rewrite Z.testbit_ones_nonneg by lia. destruct (Z.ltb_spec i (64 - k)).
    + by rewrite Z.testbit_neg_r by lia.
    + apply andb_false_r.
Qed.

Lemma next_cursor_rev k v :
  in_u 64 v → 0 ≤ k ≤ 64 →
  rev (next_cursor (2 ^ k - 1) v) = u64 (rev (v mod 2 ^ k) + 2 ^ (64 - k)) ∧
  in_u 64 (next_cursor (2 ^ k - 1) v).
Proof.
  intros Hv Hk. unfold next_cursor. rewrite not_mask by done.
  replace (rev (v mod 2 ^ k) + (2 ^ (64 - k) - 1) + 1) with (rev (v mod 2 ^ k) + 2 ^ (64 - k)) by lia.
  assert (in_u 64 (u64 (rev (v mod 2 ^ k) + 2 ^ (64 - k)))) as Hr by (apply wrapu_range; lia).
  rewrite rev_involutive by done. split; [done|]. by apply rev_range.
Qed.

(** ** The expansions of a cursor in the larger table *)

Lemma ones_mask k : 0 ≤ k → 2 ^ k - 1 = Z.ones k.
Proof. intros. rewrite Z.ones_equiv. lia. Qed.

Lemma lor_mask v k : 0 ≤ k → Z.lor v (2 ^ k - 1) = v / 2 ^ k * 2 ^ k + (2 ^ k - 1).
Proof.
  intros Hk. rewrite ones_mask by done.
  rewrite <- Z.shiftr_div_pow2, <- Z.shiftl_mul_pow2 by done. rewrite <- lor_disjoint_add.
  - apply Z.bits_inj'. intros i Hi. rewrite !Z.lor_spec, Z.shiftl_spec, Z.testbit_ones_nonneg by lia.
    destruct (Z.ltb_spec i k); [by rewrite !orb_true_r|]. rewrite !orb_false_r, Z.shiftr_spec by lia.
    f_equal. lia.
  - apply Z.bits_inj'. intros i Hi.
    rewrite Z.land_spec, Z.shiftl_spec, Z.testbit_ones_nonneg, Z.bits_0 by lia.
    destruct (Z.ltb_spec i k); [by rewrite Z.testbit_neg_r by lia|apply andb_false_r].
Qed.

Lemma land_not_mask x k :
  0 ≤ k → in_u 64 (x * 2 ^ k) → Z.land (x * 2 ^ k) (u64 (Z.lnot (2 ^ k - 1))) = x * 2 ^ k.
Proof.
  intros Hk Hx. rewrite ones_mask by done. apply Z.bits_inj'. intros i Hi.
  rewrite Z.land_spec, wrapu_testbit, Z.lnot_spec, Z.testbit_ones_nonneg by lia.
  destruct (Z.ltb_spec i 64); cbn [andb].
  - destruct (Z.ltb_spec i k); [|by rewrite andb_true_r].
    by rewrite Z.mul_pow2_bits_low.
  - by rewrite (in_u_testbit 64) by (done || lia).
Qed.

Lemma land_xor_masks v k0 k1 :
  0 ≤ k0 ≤ k1 →
  Z.land v (Z.lxor (2 ^ k0 - 1) (2 ^ k1 - 1)) = (v / 2 ^ k0) mod 2 ^ (k1 - k0) * 2 ^ k0.
Proof.
  intros Hk. rewrite !ones_mask by lia.
  rewrite <- Z.shiftr_div_pow2, <- Z.shiftl_mul_pow2 by lia. apply Z.bits_inj'. intros i Hi.
  rewrite Z.land_spec, Z.lxor_spec, !Z.testbit_ones_nonneg, Z.shiftl_spec by lia.
  destruct (Z.ltb_spec i k0).
  - replace (i <? k1) with true by (symmetry; apply Z.ltb_lt; lia). cbn [xorb].
    rewrite (Z.testbit_neg_r _ (i - k0)) by lia. apply andb_false_r.
  - destruct (Z.ltb_spec i k1); cbn [xorb].
    + rewrite Z.mod_pow2_bits_low, Z.shiftr_spec by lia. rewrite andb_true_r. f_equal. lia.
    + rewrite Z.mod_pow2_bits_high by lia. apply andb_false_r.
Qed.

(** The part of the cursor between the two masks. *)
Definition mid (k0 k1 v : Z) : Z := (v / 2 ^ k0) mod 2 ^ (k1 - k0).

Lemma expand_next k0 k1 v :
  in_u 64 v → 0 ≤ k0 ≤ k1 → k1 ≤ 63 →
  let v' := Z.lor (Z.land (u64 (Z.lor v (2 ^ k0 - 1) + 1)) (u64 (Z.lnot (2 ^ k0 - 1))))
                  (Z.land v (2 ^ k0 - 1)) in
  in_u 64 v' ∧ v' mod 2 ^ k0 = v mod 2 ^ k0 ∧ mid k0 k1 v' = (mid k0 k1 v + 1) mod 2 ^ (k1 - k0).
Proof.
  intros Hv Hk Hk1 v'. set (P := 2 ^ k0). set (Q := 2 ^ (k1 - k0)). set (R := 2 ^ (64 - k1)).
  assert (0 < P ∧ 0 < Q ∧ 0 < R) as (HP & HQ & HR) by (repeat split; apply Z.pow_pos_nonneg; lia).
  assert (2 ^ 64 = (Q * R) * P) as E64.
  { subst P Q R. rewrite <- !Z.pow_add_r by lia. f_equal. lia. }
  pose proof (Z.mod_pos_bound v P HP) as Ha.
  set (x := (v / P + 1) mod (Q * R)).
  pose proof (Z.mod_pos_bound (v / P + 1) (Q * R) ltac:(nia)) as Hx. fold x in Hx.
  assert (u64 (Z.lor v (P - 1) + 1) = x * P) as E1.
  { subst P. rewrite lor_mask by lia. unfold wrapu. rewrite E64.
    replace (v / 2 ^ k0 * 2 ^ k0 + (2 ^ k0 - 1) + 1) with ((v / 2 ^ k0 + 1) * 2 ^ k0) by lia.
    rewrite Z.mul_mod_distr_r by nia. done. }
  assert (v' = x * P + v mod P) as Ev.
  { subst v'. fold P in E1 |- *. rewrite E1. subst P.
    rewrite land_not_mask by (lia || unfold in_u; nia). rewrite land_mask by lia.
    apply lor_disjoint_add. apply Z.bits_inj'. intros i Hi. rewrite Z.land_spec, Z.bits_0.
    destruct (decide (i < k0)); [by rewrite Z.mul_pow2_bits_low by lia|].
    rewrite Z.mod_pow2_bits_high by lia. apply andb_false_r. }
  rewrite Ev. split; [unfold in_u; nia|]. unfold mid. fold P Q.
  rewrite Z.add_comm, Z.mod_add, Z.div_add, (Z.div_small (v mod P)), Z.add_0_l by lia.
  rewrite Zmod_mod. split; [done|]. subst x.
  rewrite Z.mod_mod_divide by apply Z.divide_factor_l. by rewrite Zplus_mod_idemp_l.
Qed.

Section coverage.
Context {K V : Type} (hashF : K → Z).
Implicit Types (d : dict K V) (h : dictht K V) (e : dictEntry K V).

Lemma chain_bits k0 k1 v :
  0 ≤ k0 ≤ k1 → v mod 2 ^ k1 = mid k0 k1 v * 2 ^ k0 + v mod 2 ^ k0.
Proof.
  intros Hk. replace k1 with (k0 + (k1 - k0)) at 1 by lia. rewrite Z.pow_add_r by lia.
  rewrite Z.rem_mul_r by (apply Z.pow_nonzero || apply Z.pow_pos_nonneg; lia).
  unfold mid. lia.
Qed.

(** From the chain [mid v] on, every expansion of [v & m0] is visited. *)
Lemma expand_loop_spec h k0 k1 fuel : ∀ v,
  shape hashF h → is_Some (table h) → size h = 2 ^ k1 →
  in_u 64 v → 0 ≤ k0 ≤ k1 → k1 ≤ 63 → 2 ^ (k1 - k0) - mid k0 k1 v < Z.of_nat fuel →
  ∃ es v', expand_loop fuel h (2 ^ k0 - 1) (2 ^ k1 - 1) v = Some (es, v') ∧
    in_u 64 v' ∧ v' mod 2 ^ k0 = v mod 2 ^ k0 ∧
    ∀ e, e ∈ ents_ht h → hashF (de_key e) mod 2 ^ k0 = v mod 2 ^ k0 →
      mid k0 k1 v ≤ mid k0 k1 (hashF (de_key e)) → e ∈ es.
Proof.
  induction fuel as [|fuel IH]; intros v Hs HT Hsz Hv Hk Hk1 Hf.
  { pose proof (Z.mod_pos_bound (v / 2 ^ k0) (2 ^ (k1 - k0)) ltac:(apply Z.pow_pos_nonneg; lia)).
    unfold mid in Hf. lia. }
  assert (0 < 2 ^ (k1 - k0)) as HQ by (apply Z.pow_pos_nonneg; lia).
  assert (0 < 2 ^ k0) as HP by (apply Z.pow_pos_nonneg; lia).
  assert (∀ x, 0 ≤ mid k0 k1 x < 2 ^ (k1 - k0)) as Hmid by (intros; by apply Z.mod_pos_bound).
  cbn [expand_loop]. rewrite (land_mask v k1) by lia.
  destruct (get_bucket_some hashF h (v mod 2 ^ k1) Hs HT) as [b Hb].
  { rewrite Hsz. apply Z.mod_pos_bound, Z.pow_pos_nonneg; lia. }
  rewrite Hb. cbn [mbind option_bind].
  destruct (expand_next k0 k1 v Hv Hk Hk1) as (Hv' & Hlow & Hnext).
  set (v' := Z.lor _ _) in *. cbv zeta. rewrite land_xor_masks by lia. fold (mid k0 k1 v').
  (* an entry of the chain of [v] *)
  assert (∀ e, e ∈ ents_ht h → hashF (de_key e) mod 2 ^ k0 = v mod 2 ^ k0 →
    mid k0 k1 (hashF (de_key e)) = mid k0 k1 v → e ∈ b) as Hhere.
  { intros e He Hl Hm. eapply ents_ht_chain; [done..|]. destruct (chain_index_spec hashF h (de_key e) Hs HT) as [_ Hi].
    rewrite (Hi k1), (chain_bits k0), Hl, Hm, <- chain_bits by (done || lia). done. }
  destruct (Z.eqb_spec (mid k0 k1 v' * 2 ^ k0) 0) as [E0|E0].
  - do 2 eexists. split; [done|]. split_and!; [done..|]. intros e He Hl Hm. apply Hhere; [done..|].
    assert (mid k0 k1 v' = 0) as E0' by nia. rewrite Hnext in E0'.
    specialize (Hmid (hashF (de_key e))) as Hme. specialize (Hmid v) as Hmv.
    destruct (decide (mid k0 k1 v + 1 < 2 ^ (k1 - k0))); [|lia].
    rewrite Z.mod_small in E0' by lia. lia.
  - assert (mid k0 k1 v + 1 < 2 ^ (k1 - k0)) as Hlt.
    { destruct (decide (mid k0 k1 v + 1 < 2 ^ (k1 - k0))); [done|]. exfalso. apply E0.
      specialize (Hmid v) as Hmv. rewrite Hnext.
      replace (mid k0 k1 v + 1) with (2 ^ (k1 - k0)) by lia. by rewrite Z.mod_same by lia. }
    rewrite Z.mod_small in Hnext by (specialize (Hmid v); lia).
    destruct (IH v') as (es & v2 & -> & Hv2 & Hl2 & Hcov); try done; [lia|].
    cbn [mbind option_bind]. do 2 eexists. split; [done|]. split_and!; [done|congruence|].
    intros e He Hl Hm. apply elem_of_app.
    destruct (decide (mid k0 k1 (hashF (de_key e)) = mid k0 k1 v)); [left; by apply Hhere|].
    right. apply Hcov; [done|congruence|lia].
Qed.

Lemma expand_loop_sound h k0 k1 fuel : ∀ v es v',
  expand_loop fuel h k0 k1 v = Some (es, v') → ∀ e, e ∈ es → e ∈ ents_ht h.
Proof.
  induction fuel as [|fuel IH]; intros v es v'; [done|]. cbn [expand_loop].
  destruct (get_bucket h (Z.land v k1)) as [b|] eqn:Hb; [|done]. cbn [mbind option_bind]. cbv zeta.
  set (w := Z.lor _ _). destruct (_ =? 0).
  - intros [= <- <-] e He. by eapply bucket_in_ents.
  - destruct (expand_loop fuel h k0 k1 w) as [[es' w']|] eqn:E; [|done]. cbn [mbind option_bind].
    intros [= <- <-] e [He|He]%elem_of_app; [by eapply bucket_in_ents|]. by eapply IH.
Qed.

(** The number of chains of the table the cursor walks: the smaller one. *)
Definition scan_size d : Z :=
  if dictIsRehashing d then Z.min (size (ht0 d)) (size (ht1 d)) else size (ht0 d).

Lemma shape_pow h : shape hashF h → is_Some (table h) →
  ∃ k, 2 ≤ k ≤ 31 ∧ size h = 2 ^ k ∧ sizemask h = 2 ^ k - 1.
Proof. unfold shape. intros Hs [tb Ht]. rewrite Ht in Hs. naive_solver. Qed.

(** A chain, by the low bits of the hashes in it. *)
Lemma chain_low h k v :
  shape hashF h → is_Some (table h) → size h = 2 ^ k → 2 ≤ k ≤ 31 →
  ∃ b, get_bucket h (v mod 2 ^ k) = Some b ∧
    ∀ e, e ∈ ents_ht h → hashF (de_key e) mod 2 ^ k = v mod 2 ^ k → e ∈ b.
Proof.
  intros Hs HT Hsz Hk. destruct (get_bucket_some hashF h (v mod 2 ^ k) Hs HT) as [b Hb].
  { rewrite Hsz. apply Z.mod_pos_bound, Z.pow_pos_nonneg; lia. }
  exists b. split; [done|]. intros e He Hl. eapply ents_ht_chain; [done..|].
  destruct (chain_index_spec hashF h (de_key e) Hs HT) as [_ Hi].
  rewrite (Hi k) by (done || lia). by rewrite Hl.
Qed.

Lemma next_cursor_small k v :
  in_u 64 v → 0 ≤ k ≤ 64 → 0 ≤ next_cursor (2 ^ k - 1) v < 2 ^ k.
Proof.
  intros Hv Hk. destruct (next_cursor_rev k v Hv Hk) as [Hr Hu].
  set (c := next_cursor _ _) in *. enough (in_u k c) as Hc by exact Hc. apply in_u_bits; [lia|].
  intros j Hj. destruct (decide (j < 64)); [|apply (in_u_testbit 64); [done|lia]].
  rewrite <- (rev_involutive c), rev_testbit by (done || by apply rev_range || lia).
  rewrite Hr, rev_low, Z.shiftl_mul_pow2 by (done || lia). rewrite wrapu_testbit by lia.
  replace (_ * 2 ^ (64 - k) + 2 ^ (64 - k)) with ((Z.shiftr (rev v) (64 - k) + 1) * 2 ^ (64 - k)) by lia.
  rewrite Z.mul_pow2_bits_low by lia. apply andb_false_r.
Qed.

(** One call: the chains of the cursor, and the cursor that follows. *)
Definition step_ok d (v : Z) (es : bucket K V) (v' : Z) (k : Z) : Prop :=
  2 ≤ k ≤ 31 ∧ scan_size d = 2 ^ k ∧ v' = next_cursor (2 ^ k - 1) v ∧
  ∀ e, e ∈ ents d → hashF (de_key e) mod 2 ^ k = v mod 2 ^ k → e ∈ es.

Lemma scan_rehashing t0 t1 v :
  shape hashF t0 → shape hashF t1 → is_Some (table t0) → is_Some (table t1) →
  size t0 ≤ size t1 → 0 ≤ v < size t0 →
  ∃ de es v' k, get_bucket t0 (Z.land v (sizemask t0)) = Some de ∧
    expand_loop (S (Z.to_nat (size t1))) t1 (sizemask t0) (sizemask t1) v = Some (es, v') ∧
    2 ≤ k ≤ 31 ∧ size t0 = 2 ^ k ∧ next_cursor (sizemask t0) v' = next_cursor (2 ^ k - 1) v ∧
    ∀ e, e ∈ ents_ht t0 ++ ents_ht t1 →
      hashF (de_key e) mod 2 ^ k = v mod 2 ^ k → e ∈ de ++ es.
Proof.
  intros Hs0 Hs1 HT0 HT1 Hle Hv.
  destruct (shape_pow t0 Hs0 HT0) as (k0 & Hk0 & Hsz0 & Hm0).
  destruct (shape_pow t1 Hs1 HT1) as (k1 & Hk1 & Hsz1 & Hm1). rewrite Hm0, Hm1.
  assert (k0 ≤ k1) as Hk by (apply (Z.pow_le_mono_r_iff 2); lia).
  assert (0 < 2 ^ (k1 - k0) ≤ 2 ^ k1).
  { split; [apply Z.pow_pos_nonneg; lia|apply Z.pow_le_mono_r; lia]. }
  assert (2 ^ k0 ≤ 2 ^ 31) by (apply Z.pow_le_mono_r; lia).
  assert (in_u 64 v) as Hu by (unfold in_u; lia).
  assert (mid k0 k1 v = 0) as Hmid by (unfold mid; rewrite Z.div_small by lia; done).
  rewrite land_mask by lia. destruct (chain_low t0 k0 v Hs0 HT0 Hsz0 Hk0) as (de & Hde & Hcov0).
  destruct (expand_loop_spec t1 k0 k1 (S (Z.to_nat (size t1))) v) as (es & v' & -> & Hv' & Hl & Hcov1);
    [done..|lia|lia|lia|].
  exists de, es, v', k0. split_and!; try done; try lia.
  - unfold next_cursor. rewrite !not_mask by (done || lia). by rewrite Hl.
  - intros e He Hh. apply elem_of_app. apply elem_of_app in He as [He|He]; [left|right]; [auto|].
    apply Hcov1; [done..|]. rewrite Hmid. unfold mid. apply Z.mod_pos_bound. lia.
Qed.

Lemma nonempty_size d : dict_wf hashF d → ents d ≠ [] → dictSize d =? 0 = false.
Proof.
  intros Hwf Hne. apply Z.eqb_neq. unfold dictSize. rewrite (wf_used0 _ _ Hwf), (wf_used1 _ _ Hwf).
  pose proof (wf_bound _ _ Hwf) as Hb. unfold ents in Hb, Hne. unfold max_used in Hb.
  assert (zlen (ents_ht (ht0 d)) + zlen (ents_ht (ht1 d)) ≠ 0).
  { rewrite <- length_zero_iff_nil in Hne. len. }
  rewrite wrapu_small; [done|]. unfold in_u. len.
Qed.

Lemma dictScan_step d v :
  dict_wf hashF d → ents d ≠ [] → 0 ≤ v < scan_size d →
  ∃ es v' k, dictScan d v = Some (es, v') ∧ step_ok d v es v' k.
Proof.
  intros Hwf Hne Hv. unfold dictScan.
  rewrite nonempty_size by done.
  unfold step_ok. unfold scan_size in *.
  destruct (wf_phase _ _ Hwf) as [[Hri HT1]|(Hri & HT0 & HT1 & _)].
  - assert (dictIsRehashing d = false) as Hr by (unfold dictIsRehashing; by rewrite Hri).
    rewrite Hr in *. cbn [negb].
    assert (ents d = ents_ht (ht0 d)) as E.
    { unfold ents, ents_ht at 2. rewrite HT1. apply app_nil_r. }
    assert (is_Some (table (ht0 d))) as HT0.
    { unfold ents_ht in E. destruct (table (ht0 d)); [eauto|]. by rewrite E in Hne. }
    destruct (shape_pow _ (wf_shape0 _ _ Hwf) HT0) as (k & Hk & Hsz & Hm). rewrite Hm.
    rewrite land_mask by lia.
    destruct (chain_low _ k v (wf_shape0 _ _ Hwf) HT0 Hsz Hk) as (b & -> & Hcov).
    cbn [mbind option_bind]. rewrite E. exists b, (next_cursor (2 ^ k - 1) v), k.
    split; [done|]. split_and!; first [done | lia].
  - assert (dictIsRehashing d = true) as Hr.
    { unfold dictIsRehashing. destruct (Z.eqb_spec (rehashidx d) (-1)); [lia|done]. }
    rewrite Hr in *. cbn [negb].
    destruct (Z.ltb_spec (size (ht1 d)) (size (ht0 d))).
    + destruct (scan_rehashing (ht1 d) (ht0 d) v) as (de & es & v' & k & -> & -> & Hk & Hsz & Hnc & Hcov);
        [apply Hwf|apply Hwf|done|done|lia|lia|].
      cbn [mbind option_bind]. rewrite Hnc. do 2 eexists. exists k. split; [done|]. split_and!; try first [done | lia].
      intros e He. apply Hcov. unfold ents in He. set_solver.
    + destruct (scan_rehashing (ht0 d) (ht1 d) v) as (de & es & v' & k & -> & -> & Hk & Hsz & Hnc & Hcov);
        [apply Hwf|apply Hwf|done|done|lia|lia|].
      cbn [mbind option_bind]. rewrite Hnc. do 2 eexists. exists k. split; [done|]. split_and!; first [done | lia].
Qed.

Lemma scan_two_sound t0 t1 v m0 m1 fuel es v' :
  (de ← get_bucket t0 (Z.land v m0); '(es, v) ← expand_loop fuel t1 m0 m1 v;
   Some (de ++ es, next_cursor m0 v)) = Some (es, v') →
  ∀ e, e ∈ es → e ∈ ents_ht t0 ∨ e ∈ ents_ht t1.
Proof.
  destruct (get_bucket t0 _) as [de|] eqn:Hb; [|done]. cbn [mbind option_bind].
  destruct (expand_loop _ _ _ _ _) as [[es1 v1]|] eqn:E1; [|done]. cbn [mbind option_bind].
  intros Hrun e He. apply (inj Some) in Hrun. assert (es = de ++ es1) as -> by congruence.
  apply elem_of_app in He as [He|He]; [left; by eapply bucket_in_ents|right; by eapply expand_loop_sound].
Qed.

Lemma dictScan_sound d v es v' : dictScan d v = Some (es, v') → ∀ e, e ∈ es → e ∈ ents d.
Proof.
  unfold dictScan, ents. intros Hrun e He. apply elem_of_app.
  destruct (dictSize d =? 0).
  { apply (inj Some) in Hrun. assert (es = []) as -> by congruence. by apply not_elem_of_nil in He. }
  destruct (negb (dictIsRehashing d)).
  - destruct (get_bucket _ _) eqn:Hb; [|done]. cbn [mbind option_bind] in Hrun.
    apply (inj Some) in Hrun. left. eapply bucket_in_ents; [exact Hb|]. congruence.
  - destruct (_ <? _); [apply or_comm|]; exact (scan_two_sound _ _ _ _ _ _ _ _ Hrun e He).
Qed.

(** ** A whole iteration *)

(** One call on each of the states [ds] the dictionary is found in. *)
Fixpoint scan_run (ds : list (dict K V)) (v : Z) : option (bucket K V * Z) :=
  match ds with
  | [] => Some ([], v)
  | d :: ds => '(es, v) ← dictScan d v; '(es', v) ← scan_run ds v; Some (es ++ es', v)
  end.

Lemma scan_run_sound ds : ∀ v es v',
  scan_run ds v = Some (es, v') → ∀ e, e ∈ es → ∃ d, d ∈ ds ∧ e ∈ ents d.
Proof.
  induction ds as [|d ds IH]; intros v es v'; cbn [scan_run].
  { intros Hr e He. apply (inj Some) in Hr. assert (es = []) as -> by congruence.
    by apply not_elem_of_nil in He. }
  destruct (dictScan d v) as [[es1 v1]|] eqn:E1; [|done]. cbn [mbind option_bind].
  destruct (scan_run ds v1) as [[es2 v2]|] eqn:E2; [|done]. cbn [mbind option_bind].
  intros Hr e He. apply (inj Some) in Hr. assert (es = es1 ++ es2) as -> by congruence.
  apply elem_of_app in He as [He|He].
  - exists d. split; [apply list_elem_of_here|by eapply dictScan_sound].
  - destruct (IH _ _ _ E2 e He) as (d' & Hd & Hin). exists d'. split; [by apply list_elem_of_further|done].
Qed.

Lemma scan_size_pos d : dict_wf hashF d → ents d ≠ [] → 0 < scan_size d.
Proof.
  intros Hwf Hne. unfold scan_size. destruct (wf_phase _ _ Hwf) as [[Hri HT1]|(Hri & HT0 & HT1 & _)].
  - unfold dictIsRehashing. rewrite Hri. cbn. destruct (size (ht0 d) =? 0) eqn:E.
    + exfalso. apply Hne. by apply (size_0_ents hashF).
    + assert (is_Some (table (ht0 d))) as HT by (by apply (size_0_iff hashF); [apply Hwf|]).
      pose proof (shape_some hashF _ (wf_shape0 _ _ Hwf) HT). lia.
  - pose proof (shape_some hashF _ (wf_shape0 _ _ Hwf) HT0).
    pose proof (shape_some hashF _ (wf_shape1 _ _ Hwf) HT1). destruct (dictIsRehashing d); lia.
Qed.

Lemma cursor_sum x a P :
  in_u 64 x → in_u 64 a → 0 < P → u64 (a + P) = 0 ∨ x < u64 (a + P) → x < a + P.
Proof.
  unfold in_u, wrapu. intros Hx Ha HP [E|Hlt].
  - destruct (Z.lt_ge_cases (a + P) (2 ^ 64)); [|lia]. rewrite Z.mod_small in E; lia.
  - pose proof (Z.mod_le (a + P) (2 ^ 64) ltac:(lia) ltac:(lia)). lia.
Qed.

(** A hash below the cursor stays below the next one, or is in the chains of
    this call. *)
Lemma covered_step (k v h : Z) :
  in_u 64 v → in_u 64 h → 2 ≤ k ≤ 31 → h mod 2 ^ k ≠ v mod 2 ^ k →
  next_cursor (2 ^ k - 1) v = 0 ∨ rev h < rev (next_cursor (2 ^ k - 1) v) → rev h < rev v.
Proof.
  intros Hv Hh Hk Hne Hnext. destruct (Z.lt_ge_cases (rev h) (rev v)) as [|Hge]; [done|].
  exfalso. apply Hne. apply rev_interval; [done..|lia|].
  pose proof (rev_low_le k v Hv ltac:(lia)). split; [lia|].
  destruct (next_cursor_rev k v Hv ltac:(lia)) as [Hr _].
  pose proof (rev_range h Hh) as Hrh. pose proof (rev_range _ (mod_in_u64 k v Hv ltac:(lia))) as Hrm.
  assert (0 < 2 ^ (64 - k)) by (apply Z.pow_pos_nonneg; lia).
  apply cursor_sum; [done..|]. rewrite <- Hr. destruct Hnext as [->|]; [left; apply rev_0|by right].
Qed.

Lemma scan_run_covers ds : ∀ v key,
  Forall (dict_wf hashF) ds → Forall (λ d, key ∈ de_key <$> ents d) ds → in_u 64 (hashF key) →
  StronglySorted Z.le (scan_size <$> ds) → in_u 64 v → Forall (λ d, v < scan_size d) ds →
  ∃ es v', scan_run ds v = Some (es, v') ∧ in_u 64 v' ∧
    (v' = 0 ∧ ds ≠ [] ∨ rev (hashF key) < rev v' → rev (hashF key) < rev v ∨ key ∈ de_key <$> es).
Proof.
  induction ds as [|d ds IH]; intros v key Hwf Hkey Hh Hsort Hv Hlt; cbn [scan_run].
  { do 2 eexists. split; [done|]. split; [done|]. intros [[_ ?]|?]; [done|by left]. }
  apply Forall_cons in Hwf as [Hd Hwf]. apply Forall_cons in Hkey as [Hk Hkey].
  apply Forall_cons in Hlt as [Hl Hlt]. cbn [fmap list_fmap] in Hsort.
  apply StronglySorted_inv in Hsort as [Hsort Hle].
  apply list_elem_of_fmap in Hk as (e & Ek & He).
  destruct (dictScan_step d v Hd) as (es & v1 & k & -> & Hkr & Hsz & Hv1 & Hcov);
    [by intros E; rewrite E in He; apply not_elem_of_nil in He|by unfold in_u in Hv; lia|].
  cbn [mbind option_bind].
  pose proof (next_cursor_small k v Hv ltac:(lia)) as Hsm. rewrite <- Hv1 in Hsm.
  destruct (IH v1 key) as (es2 & v2 & Hrun & Hv2 & Hfin); [done..| | |].
  - unfold in_u. assert (2 ^ k ≤ 2 ^ 31) by (apply Z.pow_le_mono_r; lia). lia.
  - rewrite Forall_fmap in Hle. eapply Forall_impl; [exact Hle|]. cbn. intros; lia.
  - rewrite Hrun. cbn [mbind option_bind]. do 2 eexists. split; [done|]. split; [done|]. intros Hor.
    assert (v1 = 0 ∨ rev (hashF key) < rev v1 → rev (hashF key) < rev v ∨ key ∈ de_key <$> es ++ es2) as Hstep.
    { intros H1. destruct (decide (hashF key mod 2 ^ k = v mod 2 ^ k)) as [E|E].
      - right. subst key. apply list_elem_of_fmap_2, elem_of_app. left. by apply Hcov.
      - left. subst v1. by apply (covered_step k). }
    destruct Hor as [[E0 _]|Hlt2].
    + destruct ds as [|d2 ds].
      { apply Hstep. left. cbn [scan_run] in Hrun. apply (inj Some) in Hrun. congruence. }
      destruct Hfin as [H1|H1]; [by left|by apply Hstep; right|].
      right. rewrite fmap_app. apply elem_of_app. by right.
    + destruct Hfin as [H1|H1]; [by right|by apply Hstep; right|].
      right. rewrite fmap_app. apply elem_of_app. by right.
Qed.

End coverage.

(** ** An iteration over a dictionary that does not change *)

Section static.
Context {K V : Type} (hashF : K → Z).
Implicit Types (d : dict K V).

(** The cursor after [i] calls. *)
Definition cursor (k i : Z) : Z := rev (u64 (i * 2 ^ (64 - k))).

Lemma cursor_rev k i : rev (cursor k i) = u64 (i * 2 ^ (64 - k)).
Proof. apply rev_involutive, wrapu_range. lia. Qed.

Lemma cursor_small k i : 0 ≤ k ≤ 64 → 0 ≤ cursor k i < 2 ^ k.
Proof.
  intros Hk. assert (in_u 64 (u64 (i * 2 ^ (64 - k)))) as Hu by (apply wrapu_range; lia).
  enough (in_u k (cursor k i)) as Hc by exact Hc. apply in_u_bits; [lia|]. intros j Hj. unfold cursor.
  destruct (decide (j < 64)).
  - rewrite rev_testbit, wrapu_testbit, Z.mul_pow2_bits_low by (done || lia). apply andb_false_r.
  - apply (in_u_testbit 64); [by apply rev_range|lia].
Qed.

Lemma cursor_next k i :
  0 ≤ k ≤ 64 → next_cursor (2 ^ k - 1) (cursor k i) = cursor k (i + 1).
Proof.
  intros Hk. pose proof (cursor_small k i Hk) as Hc.
  assert (in_u 64 (cursor k i)) as Hu.
  { assert (2 ^ k ≤ 2 ^ 64) by (apply Z.pow_le_mono_r; lia). unfold in_u. lia. }
  destruct (next_cursor_rev k _ Hu Hk) as [Hr Hn].
  rewrite <- (rev_involutive (next_cursor _ _)), Hr by done. unfold cursor at 2. f_equal.
  rewrite Z.mod_small, cursor_rev by done. unfold wrapu. rewrite Zplus_mod_idemp_l. f_equal. lia.
Qed.

Lemma cursor_inj k i j :
  0 ≤ k ≤ 64 → 0 ≤ i < 2 ^ k → 0 ≤ j < 2 ^ k → cursor k i = cursor k j → i = j.
Proof.
  intros Hk Hi Hj E. apply (f_equal rev) in E. rewrite !cursor_rev in E.
  assert (0 < 2 ^ (64 - k)) by (apply Z.pow_pos_nonneg; lia).
  assert (2 ^ 64 = 2 ^ k * 2 ^ (64 - k)) as E64 by (rewrite <- Z.pow_add_r by lia; f_equal; lia).
  unfold wrapu in E. rewrite E64, !Z.mod_small in E by nia. nia.
Qed.

Lemma cursor_0 k : cursor k 0 = 0.
Proof. apply rev_0. Qed.

Lemma cursor_end k : 0 ≤ k ≤ 64 → cursor k (2 ^ k) = 0.
Proof.
  intros Hk. unfold cursor, wrapu. rewrite <- Z.pow_add_r by lia.
  replace (k + (64 - k)) with 64 by lia. rewrite Z.mod_same by lia. apply rev_0.
Qed.

(** The cursors of an iteration are the indexes of the chains, reordered. *)
Lemma cursors_perm k : 0 ≤ k ≤ 64 → cursor k <$> seqZ 0 (2 ^ k) ≡ₚ seqZ 0 (2 ^ k).
Proof.
  intros Hk. apply submseteq_length_Permutation; [|by rewrite length_fmap].
  apply NoDup_submseteq.
  - apply NoDup_fmap_2_strong; [|apply NoDup_seqZ].
    intros i j Hi%elem_of_seqZ Hj%elem_of_seqZ. apply cursor_inj; lia.
  - intros x (i & -> & _)%list_elem_of_fmap. apply elem_of_seqZ. pose proof (cursor_small k i Hk). lia.
Qed.

Definition chain d (i : Z) : bucket K V := default [] (get_bucket (ht0 d) i).

Lemma mjoin_chains d tb :
  table (ht0 d) = Some tb → mjoin (chain d <$> seqZ 0 (zlen tb)) = ents_ht (ht0 d).
Proof.
  intros Ht. unfold ents_ht. rewrite Ht. cbn [default]. unfold id. f_equal. apply list_eq. intros i.
  rewrite list_lookup_fmap. destruct (decide (Z.of_nat i < zlen tb)) as [Hi|Hi].
  - rewrite lookup_seqZ_lt by done. cbn. unfold chain.
    rewrite (get_bucket_lookup _ tb) by (done || lia). rewrite Z.add_0_l, Nat2Z.id.
    destruct (lookup_lt_is_Some_2 tb i) as [b Hb]; [unfold zlen in Hi; lia|]. by rewrite Hb.
  - rewrite lookup_seqZ_ge by lia. cbn. symmetry. apply lookup_ge_None. unfold zlen in Hi. lia.
Qed.

Lemma static_step d k i :
  dict_wf hashF d → no_rehash d → size (ht0 d) = 2 ^ k → 2 ≤ k ≤ 31 → ents d ≠ [] →
  dictScan d (cursor k i) = Some (chain d (cursor k i), cursor k (i + 1)).
Proof.
  intros Hwf [Hri HT1] Hsz Hk Hne. unfold dictScan.
  assert (dictSize d =? 0 = false) as -> by by eapply nonempty_size.
  assert (dictIsRehashing d = false) as -> by (unfold dictIsRehashing; by rewrite Hri). cbn [negb].
  assert (is_Some (table (ht0 d))) as HT0.
  { apply (size_0_iff hashF); [apply Hwf|]. apply Z.eqb_neq. rewrite Hsz.
    assert (0 < 2 ^ k) by (apply Z.pow_pos_nonneg; lia). lia. }
  destruct (shape_pow hashF _ (wf_shape0 _ _ Hwf) HT0) as (k' & Hk' & Hsz' & ->).
  assert (k' = k) as -> by (apply (Z.pow_inj_r 2); lia).
  pose proof (cursor_small k i ltac:(lia)) as Hc. rewrite land_mask, Z.mod_small, cursor_next by lia.
  unfold chain. destruct (get_bucket_some hashF (ht0 d) (cursor k i)) as [b Hb]; [apply Hwf|done|lia|].
  by rewrite Hb.
Qed.

Lemma static_run d k n : ∀ i,
  dict_wf hashF d → no_rehash d → size (ht0 d) = 2 ^ k → 2 ≤ k ≤ 31 → ents d ≠ [] →
  scan_run (replicate n d) (cursor k i) =
    Some (mjoin (chain d <$> (cursor k <$> seqZ i (Z.of_nat n))), cursor k (i + Z.of_nat n)).
Proof.
  induction n as [|n IH]; intros i Hwf Hno Hsz Hk Hne; cbn [replicate scan_run].
  { by rewrite Z.add_0_r. }
  rewrite static_step by done. cbn [mbind option_bind]. rewrite IH by done. cbn [mbind option_bind].
  rewrite (seqZ_cons i) by lia. replace (Z.succ i) with (i + 1) by lia.
  replace (Z.pred (Z.of_nat (S n))) with (Z.of_nat n) by lia. cbn [fmap list_fmap mjoin list_join].
  do 3 f_equal. lia.
Qed.

End static.

(** ** Theorems *)

(** C23. The guarantee of the iteration while the dictionary changes: take the
    states the dictionary is found in by the successive calls, whatever
    happened to it in between (insertions, deletions, rehashing steps,
    growth), as long as the table the cursor walks never gets smaller.  The
    calls make no invalid access, every entry passed to the callback is in the
    dictionary at that time, and once the cursor is back to 0 every key that
    was present throughout has been passed to the callback. *)
Theorem dictScan_complete {K V} (hashF : K → Z) (ds : list (dict K V)) key :
  Forall (dict_wf hashF) ds → Forall (λ d, key ∈ de_key <$> ents d) ds → in_u 32 (hashF key) →
  StronglySorted Z.le (scan_size <$> ds) → ds ≠ [] →
  ∃ es v, scan_run ds 0 = Some (es, v) ∧ (∀ e, e ∈ es → ∃ d, d ∈ ds ∧ e ∈ ents d) ∧
    (v = 0 → key ∈ de_key <$> es).
Proof.
  intros Hwf Hkey Hh Hsort Hne.
  assert (Forall (λ d, 0 < scan_size d) ds) as Hpos.
  { apply Forall_forall. intros d Hd. rewrite Forall_forall in Hwf, Hkey.
    apply (scan_size_pos hashF); [by apply Hwf|]. intros E. specialize (Hkey d Hd). rewrite E in Hkey.
    by apply not_elem_of_nil in Hkey. }
  assert (in_u 64 (hashF key)) as Hh64 by (unfold in_u in *; lia).
  destruct (scan_run_covers hashF ds 0 key) as (es & v & Hrun & Hv & Hcov); try done.
  exists es, v. split; [done|]. split; [by eapply scan_run_sound|]. intros ->.
  destruct Hcov as [Hlt|]; [by left| |done]. exfalso. rewrite rev_0 in Hlt.
  pose proof (rev_range (hashF key) Hh64) as [? _].
  eapply Z.lt_irrefl, Z.le_lt_trans; eassumption.
Qed.

(** Termination and exactness on a dictionary that does not change: with
    [2^k] chains the cursor is back to 0 after exactly [2^k] calls and not
    earlier, and the callback has had every entry exactly once. *)
Theorem dictScan_static {K V} (hashF : K → Z) (d : dict K V) k :
  dict_wf hashF d → no_rehash d → size (ht0 d) = 2 ^ k → 2 ≤ k ≤ 31 → ents d ≠ [] →
  (∃ es, scan_run (replicate (Z.to_nat (2 ^ k)) d) 0 = Some (es, 0) ∧ es ≡ₚ ents d) ∧
  ∀ n, 0 < Z.of_nat n < 2 ^ k → ∃ es v, scan_run (replicate n d) 0 = Some (es, v) ∧ v ≠ 0.
Proof.
  intros Hwf Hno Hsz Hk Hne. assert (0 < 2 ^ k) by (apply Z.pow_pos_nonneg; lia). split.
  - eexists. rewrite <- (cursor_0 k) at 1. rewrite (static_run hashF) by done.
    rewrite Z2Nat.id, Z.add_0_l, cursor_end by lia. split; [done|].
    assert (ents d = ents_ht (ht0 d)) as ->.
    { unfold ents, ents_ht at 2. destruct Hno as [_ ->]. apply app_nil_r. }
    destruct (table (ht0 d)) as [tb|] eqn:Ht; [|pose proof (wf_shape0 _ _ Hwf) as Hs;
      unfold shape in Hs; rewrite Ht in Hs; lia].
    rewrite cursors_perm by lia. rewrite <- (mjoin_chains d tb Ht).
    pose proof (wf_shape0 _ _ Hwf) as Hs. unfold shape in Hs. rewrite Ht in Hs.
    destruct Hs as (k' & _ & Hsz' & _ & -> & _). by rewrite <- Hsz', Hsz.
  - intros n Hn. do 2 eexists. rewrite <- (cursor_0 k) at 1. rewrite (static_run hashF) by done.
    split; [done|]. intros E.
    enough (0 + Z.of_nat n = 0) by lia. apply (cursor_inj k); [lia..|]. by rewrite E, cursor_0.
Qed.

(** The dictionary of keys 4, 5 and 6 in a table of 16 chains. *)
Definition sparse_ops : list (dop (K := Z) (V := Z)) :=
  ((λ k, DAdd k k) <$> seqZ 0 9) ++ [DRehash 100] ++
  ((λ k, DDelete k false) <$> [0; 1; 2; 3; 7; 8]).
Definition sparse : option (dict Z Z) :=
  fst <$> run_dops true u32 Z.eqb (λ k, k) (λ v, v) dictCreate sparse_ops.
(** The same dictionary once [dictResize] has started to shrink it. *)
Definition shrinking : option (dict Z Z) := d ← sparse; fst <$> dictResize true d.

(** C26. The comment of [dictScan] promises that every element present from
    the start to the end of an iteration is returned.  It is not when the
    table shrinks: here the first call sees 16 chains, then a resize to 4
    chains starts, and the iteration ends without returning key 4, which is in
    the dictionary all along: the loop over the expansions of the cursor
    starts at the cursor's own high order bits and never visits the smaller
    ones. *)
Theorem dictScan_shrink_misses :
  ∃ d0 d1, sparse = Some d0 ∧ shrinking = Some d1 ∧
    4 ∈ de_key <$> ents d0 ∧ 4 ∈ de_key <$> ents d1 ∧
    ∃ es, scan_run [d0; d1; d1; d1; d1] 0 = Some (es, 0) ∧ 4 ∉ de_key <$> es.
Proof.
  eexists _, _. split; [vm_compute; reflexivity|]. split; [vm_compute; reflexivity|].
  split; [by_decision|]. split; [by_decision|]. eexists. split; [vm_compute; reflexivity|].
  by_decision.
Qed.

(** Witnesses: the dictionary of twenty keys, then the same after a call of
    [dictRehash]. *)
Definition int_dict_rehashed : dict Z Z :=
  match dictRehash u32 int_dict 100 with Some (d, _) => d | None => dictCreate end.

Lemma int_dict_rehashed_wf : dict_wf u32 int_dict_rehashed.
Proof.
  destruct (dictRehash_spec u32 int_dict 100 int_dict_wf) as (d & more & Hrun & Hs & _).
  unfold int_dict_rehashed. rewrite Hrun. apply Hs.
Qed.

Definition scanned : list (dict Z Z) := int_dict :: replicate 30 int_dict_rehashed.

Lemma dictScan_complete_witness :
  Forall (dict_wf u32) scanned ∧
  ∃ es, scan_run scanned 0 = Some (es, 0) ∧ 7 ∈ de_key <$> es.
Proof.
  assert (Forall (dict_wf u32) scanned) as Hwf.
  { constructor; [apply int_dict_wf|apply Forall_replicate, int_dict_rehashed_wf]. }
  split; [done|].
  destruct (dictScan_complete u32 scanned 7) as (es & v & Hrun & _ & Hin);
    [done|by_decision|by_decision|by_decision|done|].
  exists es. assert (snd <$> scan_run scanned 0 = Some 0) as E by (vm_compute; reflexivity).
  rewrite Hrun in E |- *. cbn in E. injection E as ->. split; [done|]. by apply Hin.
Defined.

Lemma dictScan_static_witness :
  (∃ es, scan_run (replicate 32 int_dict_rehashed) 0 = Some (es, 0) ∧ es ≡ₚ ents int_dict_rehashed) ∧
  ∀ n, 0 < Z.of_nat n < 32 →
    ∃ es v, scan_run (replicate n int_dict_rehashed) 0 = Some (es, v) ∧ v ≠ 0.
Proof.
  apply (dictScan_static u32 int_dict_rehashed 5);
    [apply int_dict_rehashed_wf|split; vm_compute; reflexivity|vm_compute; reflexivity|lia|by vm_compute].
Defined.
