(* ===== verification/DictHash.v ===== *)
(** * DictHash: the hash functions of dict.c and the dictionary types of redis.c

    [dictIntHashFunction], the MurmurHash2 of [dictGenHashFunction], the case
    insensitive [dictGenCaseHashFunction], and the key functions of the
    dictionary types the server uses: sds keys ([dictSdsHash],
    [dictSdsKeyCompare], and their case insensitive versions) and objects that
    are strings or integers ([dictEncObjHash], [dictEncObjKeyCompare]).

    An sds string is the list of its bytes.  The characters are those of the
    "C" locale, the only one the server selects for [LC_CTYPE]. *)

From S2P Require Import Prelude Endian NumConv Dict DictFacts Objects.

(** ** dict.c *)

Definition dictIntHashFunction (key : Z) : Z :=
  let key := key +u32 u32 (Z.lnot (key <<u32 15)) in
  let key := Z.lxor key (Z.shiftr key 10) in
  let key := key +u32 (key <<u32 3) in
  let key := Z.lxor key (Z.shiftr key 6) in
  let key := key +u32 u32 (Z.lnot (key <<u32 11)) in
  Z.lxor key (Z.shiftr key 16).

Definition murmur_m : Z := 0x5bd1e995.
Definition murmur_r : Z := 24.

(** [while(len >= 4)]: the hash and the bytes that are left. *)
Fixpoint murmur_loop (be : host) (data : list Z) (h : Z) : Z * list Z :=
  match data with
  | b0 :: b1 :: b2 :: b3 :: data =>
      let k := of_mem be [b0; b1; b2; b3] in
      let k := k *u32 murmur_m in
      let k := Z.lxor k (Z.shiftr k murmur_r) in
      let k := k *u32 murmur_m in
      let h := h *u32 murmur_m in
      murmur_loop be data (Z.lxor h k)
  | _ => (h, data)
  end.

(** The [switch(len)] on the last bytes, which falls through its cases. *)
Definition murmur_tail (data : list Z) (h : Z) : Z :=
  match data with
  | [d0; d1; d2] =>
      Z.lxor (Z.lxor (Z.lxor h (Z.shiftl d2 16)) (Z.shiftl d1 8)) d0 *u32 murmur_m
  | [d0; d1] => Z.lxor (Z.lxor h (Z.shiftl d1 8)) d0 *u32 murmur_m
  | [d0] => Z.lxor h d0 *u32 murmur_m
  | _ => h
  end.

(** The key and its length [len = zlen key], an [int]. *)
Definition dictGenHashFunction (be : host) (seed : Z) (key : list Z) : Z :=
  let h := Z.lxor seed (u32 (zlen key)) in
  let '(h, data) := murmur_loop be key h in
  let h := murmur_tail data h in
  let h := Z.lxor h (Z.shiftr h 13) in
  let h := h *u32 murmur_m in
  Z.lxor h (Z.shiftr h 15).

Definition tolower (c : Z) : Z := if (65 <=? c) && (c <=? 90) then c + 32 else c.

Definition dictGenCaseHashFunction (seed : Z) (buf : list Z) : Z :=
  foldl (λ hash c, u32 (u32 ((hash <<u32 5) + hash) + tolower c)) seed buf.

(** ** redis.c *)

Definition dictSdsHash (be : host) (seed : Z) (key : list Z) : Z := dictGenHashFunction be seed key.

(** [memcmp(key1,key2,l1) == 0] on strings of one length. *)
Definition dictSdsKeyCompare (key1 key2 : list Z) : bool :=
  if negb (zlen key1 =? zlen key2) then false else bool_decide (key1 = key2).

Definition dictSdsCaseHash (seed : Z) (key : list Z) : Z := dictGenCaseHashFunction seed key.

(** [strcasecmp]: up to the first null byte, the terminating one included. *)
Fixpoint strcaseeq (s1 s2 : list Z) : bool :=
  let at_end s := match s with [] => true | c :: _ => c =? 0 end in
  if at_end s1 then at_end s2 else if at_end s2 then false else
  match s1, s2 with
  | c1 :: s1, c2 :: s2 => (tolower c1 =? tolower c2) && strcaseeq s1 s2
  | _, _ => true
  end.
Definition dictSdsKeyCaseCompare (key1 key2 : list Z) : bool := strcaseeq key1 key2.

Definition dictEncObjKeyCompare (buf : list Z) (o1 o2 : enc_obj) : option bool :=
  match o1, o2 with
  | ObjInt v1, ObjInt v2 => Some (v1 =? v2)
  | _, _ =>
      s1 ← getDecodedObject buf o1; s2 ← getDecodedObject buf o2;
      Some (dictSdsKeyCompare s1 s2)
  end.

Definition dictEncObjHash (be : host) (seed : Z) (buf : list Z) (o : enc_obj) : option Z :=
  match o with
  | ObjStr s => Some (dictGenHashFunction be seed s)
  | ObjInt v =>
      '(buf, len) ← ll2string buf 32 v;
      Some (dictGenHashFunction be seed (take (Z.to_nat len) buf))
  end.

(** ** Invertible mixing *)

Lemma u32_mul_inj c c' d a b :
  u32 (c * c') = 1 → in_u 32 a → in_u 32 b → u32 (c * a + d) = u32 (c * b + d) → a = b.
Proof.
  unfold wrapu, in_u. intros Hinv Ha Hb E. set (M := 2 ^ 32) in *.
  assert ((c * a) mod M = (c * b) mod M) as E'.
  { replace (c * a) with ((c * a + d) - d) by lia. replace (c * b) with ((c * b + d) - d) by lia.
    by rewrite Zminus_mod, E, <- Zminus_mod. }
  assert (∀ x, 0 ≤ x < M → x = (c' * ((c * x) mod M)) mod M) as Hback.
  { intros x Hx. rewrite Zmult_mod_idemp_r. replace (c' * (c * x)) with ((c * c') * x) by lia.
    rewrite <- Zmult_mod_idemp_l, Hinv, Z.mul_1_l. by rewrite Z.mod_small. }
  rewrite (Hback a Ha), (Hback b Hb), E'. done.
Qed.

Lemma xorshift_inj w s a b :
  0 < s → 0 ≤ w → in_u w a → in_u w b →
  Z.lxor a (Z.shiftr a s) = Z.lxor b (Z.shiftr b s) → a = b.
Proof.
  intros Hs Hw Ha Hb E.
  assert (∀ n : nat, ∀ i, 0 ≤ i → w - i ≤ Z.of_nat n → Z.testbit a i = Z.testbit b i) as Hbits.
  { induction n as [|n IH]; intros i Hi Hn.
    - by rewrite (in_u_testbit w a), (in_u_testbit w b) by (done || lia).
    - assert (Z.testbit a (i + s) = Z.testbit b (i + s)) as Hh by (apply IH; lia).
      apply (f_equal (λ x, Z.testbit x i)) in E.
      rewrite !Z.lxor_spec, !Z.shiftr_spec, Hh in E by done.
      by destruct (Z.testbit a i), (Z.testbit b i), (Z.testbit b (i + s)). }
  apply Z.bits_inj'. intros i Hi. apply (Hbits (Z.to_nat w)); lia.
Qed.

Lemma xorshift_range w s a : 0 ≤ s → 0 ≤ w → in_u w a → in_u w (Z.lxor a (Z.shiftr a s)).
Proof.
  intros Hs Hw Ha. apply in_u_bits; [done|]. intros j Hj.
  rewrite Z.lxor_spec, Z.shiftr_spec by lia. by rewrite !(in_u_testbit w a) by (done || lia).
Qed.

Lemma add_not_shift key s : 0 ≤ s →
  key +u32 u32 (Z.lnot (key <<u32 s)) = u32 ((1 - 2 ^ s) * key + (-1)).
Proof.
  intros Hs. unfold wrapu. rewrite Z.shiftl_mul_pow2 by done. rewrite Zplus_mod_idemp_r.
  unfold Z.lnot. rewrite <- Z.sub_1_r.
  replace (key + (- ((key * 2 ^ s) mod 2 ^ 32) - 1)) with (key - 1 - (key * 2 ^ s) mod 2 ^ 32) by lia.
  rewrite Zminus_mod_idemp_r. f_equal. lia.
Qed.

Lemma add_shift_mul key s : 0 ≤ s → key +u32 (key <<u32 s) = u32 ((1 + 2 ^ s) * key + 0).
Proof.
  intros Hs. unfold wrapu. rewrite Z.shiftl_mul_pow2 by done. rewrite Zplus_mod_idemp_r.
  f_equal. lia.
Qed.

(** ** Ranges *)

Lemma lxor_range w a b : 0 ≤ w → in_u w a → in_u w b → in_u w (Z.lxor a b).
Proof.
  intros Hw Ha Hb. apply in_u_bits; [done|]. intros j Hj.
  by rewrite Z.lxor_spec, (in_u_testbit w a), (in_u_testbit w b) by (done || lia).
Qed.

Lemma murmur_loop_range be n : ∀ data h,
  (length data < n)%nat → in_u 32 h → in_u 32 (murmur_loop be data h).1.
Proof.
  induction n as [|n IH]; intros data h Hn Hh; [lia|].
  destruct data as [|b0 [|b1 [|b2 [|b3 data]]]]; try done. cbn [murmur_loop]. cbv zeta.
  apply IH; [simpl in Hn; lia|]. apply lxor_range; [lia|apply wrapu_range; lia..].
Qed.

Lemma murmur_tail_range data h : in_u 32 h → in_u 32 (murmur_tail data h).
Proof.
  intros Hh. destruct data as [|? [|? [|? [|? ?]]]]; cbn [murmur_tail]; try done;
    apply wrapu_range; lia.
Qed.

Lemma dictGenHashFunction_range be seed key : in_u 32 seed → in_u 32 (dictGenHashFunction be seed key).
Proof.
  intros Hs. unfold dictGenHashFunction.
  assert (in_u 32 (Z.lxor seed (u32 (zlen key)))) as Hh by (apply lxor_range; [lia|done|apply wrapu_range; lia]).
  pose proof (murmur_loop_range be (S (length key)) key _ ltac:(lia) Hh) as Hr.
  destruct (murmur_loop _ _ _) as [h data]. cbn [fst] in Hr. cbv zeta.
  apply xorshift_range; [lia..|]. apply wrapu_range. lia.
Qed.

Lemma dictSdsKeyCompare_eq k1 k2 : dictSdsKeyCompare k1 k2 = true ↔ k1 = k2.
Proof.
  unfold dictSdsKeyCompare. destruct (Z.eqb_spec (zlen k1) (zlen k2)); cbn [negb].
  - by rewrite bool_decide_eq_true.
  - split; [done|]. by intros ->.
Qed.

(** [dbDictType]: the laws the theorems on dictionaries ask for. *)
#[global] Instance sds_keys be seed :
  in_u 32 seed → DictTypeLaws (dictSdsHash be seed) dictSdsKeyCompare (λ k, k).
Proof.
  intros Hs. split; [|apply dictSdsKeyCompare_eq|done]. intros k. by apply dictGenHashFunction_range.
Qed.

(** ** Integer objects *)

Lemma dictEncObjHash_spec be seed buf o s :
  obj_ok o → zlen buf = 32 → getDecodedObject buf o = Some s →
  dictEncObjHash be seed buf o = Some (dictGenHashFunction be seed s).
Proof.
  intros Ho Hb Hs. destruct o as [s'|v]; [by injection Hs as ->|].
  destruct (ll2string_room buf 32 v Ho ltac:(lia)) as (s' & Hd & _ & Hr). cbn in Hs |- *. rewrite Hr in Hs |- *.
  cbn [mbind option_bind] in Hs |- *. rewrite cstr_app in Hs by by eapply decimal_nonzero.
  injection Hs as ->. by unfold zlen; rewrite Nat2Z.id, take_app_length.
Qed.

(** ** Theorems *)

(** [dictIntHashFunction] has no collisions: it is injective on 32-bit
    keys (each step multiplies by an odd number or is an xor-shift). *)
Theorem dictIntHashFunction_injective a b :
  in_u 32 a → in_u 32 b → dictIntHashFunction a = dictIntHashFunction b → a = b.
Proof.
  intros Ha Hb. unfold dictIntHashFunction. cbv zeta. rewrite !add_not_shift, !add_shift_mul by lia.
  intros E.
  apply xorshift_inj with (w := 32) in E; [|lia|lia|apply wrapu_range; lia..].
  apply u32_mul_inj with (c' := 4196353) in E;
    [|by vm_compute|apply xorshift_range; [lia..|apply wrapu_range; lia]..].
  apply xorshift_inj with (w := 32) in E; [|lia|lia|apply wrapu_range; lia..].
  apply u32_mul_inj with (c' := 954437177) in E;
    [|by vm_compute|apply xorshift_range; [lia..|apply wrapu_range; lia]..].
  apply xorshift_inj with (w := 32) in E; [|lia|lia|apply wrapu_range; lia..].
  by apply u32_mul_inj with (c' := 1073774593) in E.
Qed.

(** The contract between hashing and comparison for the sets and sorted
    sets of the server, whose keys are strings or integers: for every pair of
    objects both functions run without error, objects compare equal exactly
    when they stand for the same string, whatever their encodings, and then
    they have the same hash. *)
Theorem dictEncObj_contract be seed buf o1 o2 :
  obj_ok o1 → obj_ok o2 → zlen buf = 32 →
  ∃ s1 s2 h1 h2, obj_bytes o1 s1 ∧ obj_bytes o2 s2 ∧
    dictEncObjKeyCompare buf o1 o2 = Some (bool_decide (s1 = s2)) ∧
    dictEncObjHash be seed buf o1 = Some h1 ∧ dictEncObjHash be seed buf o2 = Some h2 ∧
    (dictEncObjKeyCompare buf o1 o2 = Some true → h1 = h2).
Proof.
  intros H1 H2 Hb. destruct (getDecodedObject_spec buf o1 H1 Hb) as (s1 & D1 & B1).
  destruct (getDecodedObject_spec buf o2 H2 Hb) as (s2 & D2 & B2).
  assert (dictEncObjKeyCompare buf o1 o2 = Some (bool_decide (s1 = s2))) as Hc.
  { assert (dictSdsKeyCompare s1 s2 = bool_decide (s1 = s2)) as Hsds.
    { apply eq_bool_prop_intro. by rewrite !Is_true_true, dictSdsKeyCompare_eq, bool_decide_eq_true. }
    unfold dictEncObjKeyCompare. destruct o1 as [|v1], o2 as [|v2];
      try by rewrite D1, D2; cbn [mbind option_bind]; rewrite Hsds.
    f_equal. destruct (Z.eqb_spec v1 v2) as [->|Hne]; symmetry.
    - apply bool_decide_eq_true. congruence.
    - apply bool_decide_eq_false. intros ->. by apply Hne, (decimal_inj s2). }
  exists s1, s2. do 2 eexists. do 3 (split; [done|]).
  rewrite (dictEncObjHash_spec be seed buf o1 s1), (dictEncObjHash_spec be seed buf o2 s2) by done.
  do 2 (split; [done|]). rewrite Hc. intros E. injection E as E%bool_decide_eq_true. by subst.
Qed.

(** [dictSdsCaseHash] agrees with [dictSdsKeyCaseCompare] on strings
    without null bytes: keys that differ in case only are equal and have the
    same hash. *)
Theorem dictSdsCase_contract seed k1 k2 :
  Forall (λ c, c =? 0 = false) k1 → Forall (λ c, c =? 0 = false) k2 →
  (dictSdsKeyCaseCompare k1 k2 = true ↔ tolower <$> k1 = tolower <$> k2) ∧
  (dictSdsKeyCaseCompare k1 k2 = true → dictSdsCaseHash seed k1 = dictSdsCaseHash seed k2).
Proof.
  intros H1 H2. assert (dictSdsKeyCaseCompare k1 k2 = true ↔ tolower <$> k1 = tolower <$> k2) as Hiff.
  { revert k2 H2. induction H1 as [|c1 k1 Hc1 H1 IH]; intros k2 H2; destruct H2 as [|c2 k2 Hc2 H2];
      cbn; rewrite ?Hc1, ?Hc2; try done.
    rewrite andb_true_iff, Z.eqb_eq. setoid_rewrite IH; [|done]. split.
    - intros [-> ->]. done.
    - intros E. by injection E as -> ->. }
  split; [done|]. rewrite Hiff. intros E. unfold dictSdsCaseHash, dictGenCaseHashFunction.
  assert (∀ k h, foldl (λ hash c, u32 (u32 ((hash <<u32 5) + hash) + tolower c)) h k =
    foldl (λ hash c, u32 (u32 ((hash <<u32 5) + hash) + c)) h (tolower <$> k)) as Hf.
  { induction k as [|c k IH]; intros h; cbn; [done|apply IH]. }
  by rewrite !Hf, E.
Qed.

(** Witnesses. *)
Lemma dictIntHashFunction_injective_witness :
  in_u 32 1 ∧ (dictIntHashFunction 1 = dictIntHashFunction (1 + 0) → 1 = 1 + 0).
Proof.
  split; [by_decision|]. apply (dictIntHashFunction_injective 1 (1 + 0)); by_decision.
Defined.

Lemma dictEncObj_contract_witness :
  ∃ s1 s2 h1 h2, obj_bytes (ObjInt (-42)) s1 ∧ obj_bytes (ObjStr (str "-42")) s2 ∧
    dictEncObjKeyCompare (replicate 32 7) (ObjInt (-42)) (ObjStr (str "-42")) =
      Some (bool_decide (s1 = s2)) ∧
    dictEncObjHash false 5381 (replicate 32 7) (ObjInt (-42)) = Some h1 ∧
    dictEncObjHash false 5381 (replicate 32 7) (ObjStr (str "-42")) = Some h2 ∧
    (dictEncObjKeyCompare (replicate 32 7) (ObjInt (-42)) (ObjStr (str "-42")) = Some true → h1 = h2).
Proof.
  apply (dictEncObj_contract false 5381 (replicate 32 7) (ObjInt (-42)) (ObjStr (str "-42")));
    [by vm_compute|done|done].
Defined.

Lemma dictSdsCase_contract_witness :
  (dictSdsKeyCaseCompare (str "GET") (str "get") = true ↔
     tolower <$> str "GET" = tolower <$> str "get") ∧
  (dictSdsKeyCaseCompare (str "GET") (str "get") = true →
     dictSdsCaseHash 5381 (str "GET") = dictSdsCaseHash 5381 (str "get")).
Proof. apply (dictSdsCase_contract 5381 (str "GET") (str "get")); by_decision. Defined.
