(* ===== verification/DictIter.v ===== *)
(** * DictIter: iterators and random entries of hash tables
    (redis-3.0.0/src/dict.c)

    An iterator points to two nodes, the entry it has returned and the one it
    returns next; a node is named by its key, which is unique.  An entry that is no
    longer in the dictionary cannot be read.  The addresses of the two tables are
    parameters, since the fingerprint of a dictionary depends on them; signed
    integers wrap around. *)

From S2P Require Import Prelude Dict DictFacts.

Section iter.
Context {K V : Type} `{EqDecision K}.
Local Notation dict := (dict K V).
Local Notation bucket := (bucket K V).
Local Notation dictEntry := (dictEntry K V).
Implicit Types (d : dict) (b l : bucket) (e : dictEntry) (k : K).

Record dictIterator := mkIter {
  it_table : bool;
  it_index : Z;
  it_safe : bool;
  it_entry : option K;
  it_nextEntry : option K;
  it_fingerprint : Z
}.

(** The node with the key [k]: its entry and [next] *)
Fixpoint node_in (b : bucket) (k : K) : option (dictEntry * option K) :=
  match b with
  | [] => None
  | e :: b => if decide (de_key e = k) then Some (e, de_key <$> head b) else node_in b k
  end.
Definition chains (d : dict) : list bucket := default [] (table (ht0 d)) ++ default [] (table (ht1 d)).
Definition node (d : dict) (k : K) : option (dictEntry * option K) :=
  foldr (λ b r, match node_in b k with Some x => Some x | None => r end) None (chains d).

(** ** Fingerprints *)

Definition fingerprint_round (hash n : Z) : Z :=
  let hash := i64 (hash + n) in
  let hash := i64 (Z.lnot hash + i64 (Z.shiftl hash 21)) in
  let hash := Z.lxor hash (Z.shiftr hash 24) in
  let hash := i64 (i64 (hash + i64 (Z.shiftl hash 3)) + i64 (Z.shiftl hash 8)) in
  let hash := Z.lxor hash (Z.shiftr hash 14) in
  let hash := i64 (i64 (hash + i64 (Z.shiftl hash 2)) + i64 (Z.shiftl hash 4)) in
  let hash := Z.lxor hash (Z.shiftr hash 28) in
  i64 (hash + i64 (Z.shiftl hash 31)).
(** [t0], [t1]: the addresses of the tables *)
Definition dictFingerprint (t0 t1 : Z) (d : dict) : Z :=
  foldl fingerprint_round 0
    [i64 t0; i64 (size (ht0 d)); i64 (used (ht0 d)); i64 t1; i64 (size (ht1 d)); i64 (used (ht1 d))].

(** ** Iterators *)

Definition dictGetIterator : dictIterator := mkIter false (-1) false None None 0.
Definition dictGetSafeIterator : dictIterator := mkIter false (-1) true None None 0.

Section addresses.
Context (t0 t1 : Z).

(** The iterator is at the node [entry] of a chain, or goes on to the next chain. *)
Definition at_entry (go_on : dictIterator → option (dict * dictIterator * option dictEntry))
    (d : dict) (it : dictIterator) (t : bool) (index : Z) (entry : option K) (fp : Z) : option (dict * dictIterator * option dictEntry) :=
  match entry with
  | Some k => '(e, next) ← node d k; Some (d, mkIter t index (it_safe it) entry next fp, Some e)
  | None => go_on (mkIter t index (it_safe it) None (it_nextEntry it) fp)
  end.
Fixpoint next_loop (fuel : nat) (d : dict) (it : dictIterator) : option (dict * dictIterator * option dictEntry) :=
  match fuel with
  | O => None
  | S fuel =>
      match it_entry it with
      | Some _ => at_entry (next_loop fuel d) d it (it_table it) (it_index it) (it_nextEntry it) (it_fingerprint it)
      | None =>
          let first := (it_index it =? -1) && negb (it_table it) in
          let fp := if first && negb (it_safe it) then dictFingerprint t0 t1 d else it_fingerprint it in
          let d := if first && it_safe it then set_iterators (i32 (iterators d + 1)) d else d in
          let index := it_index it + 1 in
          if i64 (size (get_ht d (it_table it))) <=? index then
            if dictIsRehashing d && negb (it_table it) then
              b ← get_bucket (ht1 d) 0; at_entry (next_loop fuel d) d it true 0 (de_key <$> head b) fp
            else Some (d, mkIter (it_table it) index (it_safe it) None (it_nextEntry it) fp, None)
          else b ← get_bucket (get_ht d (it_table it)) index; at_entry (next_loop fuel d) d it (it_table it) index (de_key <$> head b) fp
      end
  end.
(** Every chain is looked at once. *)
Definition dictNext (d : dict) (it : dictIterator) : option (dict * dictIterator * option dictEntry) :=
  next_loop (4 + Z.to_nat (size (ht0 d)) + Z.to_nat (size (ht1 d))) d it.

Definition dictReleaseIterator (d : dict) (it : dictIterator) : option dict :=
  if (it_index it =? -1) && negb (it_table it) then Some d else
  if it_safe it then Some (set_iterators (i32 (iterators d - 1)) d) else
  if it_fingerprint it =? dictFingerprint t0 t1 d then Some d else None (* assert *).

End addresses.

(** ** Random entries *)

(** [random()] *)
Context (random : nat → Z).

(** The chain at a random position: the empty chains of the first table up to
    [rehashidx] are left out.  [n]: the number of calls of [random] so far *)
Definition random_chain (d : dict) (n : nat) : option bucket :=
  if dictIsRehashing d then
    let h := u32 (rehashidx d + u64 (random n) mod (u64 (size (ht0 d) + size (ht1 d) - rehashidx d))) in
    if size (ht0 d) <=? h then get_bucket (ht1 d) (h - size (ht0 d)) else get_bucket (ht0 d) h
  else get_bucket (ht0 d) (u32 (Z.land (random n) (sizemask (ht0 d)))).
(** [fuel]: the number of chains tried *)
Fixpoint random_loop (fuel : nat) (d : dict) (n : nat) : option (bucket * nat) :=
  match fuel with
  | O => None
  | S fuel =>
      b ← random_chain d n;
      match b with [] => random_loop fuel d (S n) | _ :: _ => Some (b, S n) end
  end.

Context (hashF : K → Z).

(** The entry, and the number of calls of [random] *)
Definition dictGetRandomKey (fuel : nat) (d : dict) (n : nat) : option (dict * option dictEntry * nat) :=
  if dictSize d =? 0 then Some (d, None, n) else
  d ← step_if_rehashing hashF d;
  '(b, n) ← random_loop fuel d n;
  e ← b !! Z.to_nat (Z.rem (random n) (zlen b));
  Some (d, Some e, S n).

End iter.

(** ** Every entry is returned once *)

#[local] Opaque dictFingerprint.

Section facts.
Context {K V : Type} `{EqDecision K}.
Local Notation dict := (dict K V).
Local Notation bucket := (bucket K V).
Implicit Types (d : dict) (b l : bucket) (e : dictEntry K V) (k : K) (it : dictIterator (K := K)).

Lemma node_in_spec b l1 e l2 : b = l1 ++ e :: l2 → NoDup (de_key <$> b) → node_in b (de_key e) = Some (e, de_key <$> head l2).
Proof.
  intros ->. induction l1 as [|e1 l1 IH]; cbn.
  - intros _. by rewrite decide_True.
  - intros [Hn Hd]%NoDup_cons. rewrite decide_False; [by apply IH|]. intros E. apply Hn. rewrite E, fmap_app. cbn. set_solver.
Qed.
Lemma node_in_none b k : k ∉ de_key <$> b → node_in b k = None.
Proof. induction b as [|e b IH]; cbn; [done|]. intros Hn. rewrite decide_False by set_solver. apply IH. set_solver. Qed.
Lemma node_spec d b l1 e l2 : NoDup (de_key <$> mjoin (chains d)) → b ∈ chains d → b = l1 ++ e :: l2 →
  node d (de_key e) = Some (e, de_key <$> head l2).
Proof.
  intros Hnd Hb E. unfold node. induction (chains d) as [|b' bs IH]; [by apply elem_of_nil in Hb|]. cbn in Hnd |- *.
  rewrite fmap_app in Hnd. apply NoDup_app in Hnd as (H1 & Hdis & H2). apply elem_of_cons in Hb as [<-|Hb].
  - by rewrite (node_in_spec b l1 e l2).
  - rewrite node_in_none; [by apply IH|]. intros Hin. apply (Hdis _ Hin), list_elem_of_fmap. exists e. split; [done|].
    apply list_elem_of_lookup in Hb as [j Hj]. apply elem_of_mjoin_lookup. exists j, b. split; [done|]. rewrite E. set_solver.
Qed.

(** The entries after the chain [i] of the table [t] *)
Definition chains_after d (t : bool) (i : Z) : list (dictEntry K V) :=
  mjoin (drop (Z.to_nat (i + 1)) (default [] (table (get_ht d t)))) ++ (if t then [] else ents_ht (ht1 d)).
Definition started it : bool := negb ((it_index it =? -1) && negb (it_table it)).
(** The entries [l] are still to come. *)
Definition to_come d it l : Prop :=
  (started it = false ∧ it_entry it = None ∧ l = ents d) ∨
  (is_Some (it_entry it) ∧ 0 ≤ it_index it ∧ (it_table it = true → dictIsRehashing d = true) ∧
   ∃ pre suf, get_bucket (get_ht d (it_table it)) (it_index it) = Some (pre ++ suf) ∧ it_nextEntry it = de_key <$> head suf ∧
     l = suf ++ chains_after d (it_table it) (it_index it)).

(** The iterator has just returned the entry [e]. *)
Definition current d it e l : Prop :=
  it_entry it = Some (de_key e) ∧ 0 ≤ it_index it ∧ (it_table it = true → dictIsRehashing d = true) ∧
  ∃ pre suf, get_bucket (get_ht d (it_table it)) (it_index it) = Some (pre ++ e :: suf) ∧ it_nextEntry it = de_key <$> head suf ∧
    l = suf ++ chains_after d (it_table it) (it_index it).
Lemma current_to_come d it e l : current d it e l → to_come d it l.
Proof.
  intros (He & Hi & Ht & pre & suf & Hb & Hn & ->). right. split_and!; [by eexists|done..|]. exists (pre ++ [e]), suf. by rewrite <- (assoc_L (++)).
Qed.

Lemma chains_ents d : mjoin (chains d) = ents d.
Proof. unfold chains, ents, ents_ht. by rewrite join_app. Qed.
Lemma bucket_chains d t i b : get_bucket (get_ht d t) i = Some b → b ∈ chains d.
Proof.
  unfold get_bucket, chains. destruct (i <? 0); [done|]. rewrite elem_of_app.
  destruct t; cbn; destruct (table _) as [tb|]; try done; cbn; intros Hb%list_elem_of_lookup_2; [by right|by left].
Qed.
Lemma chains_after_cons d t i b : get_bucket (get_ht d t) (i + 1) = Some b → -1 ≤ i → chains_after d t i = b ++ chains_after d t (i + 1).
Proof.
  intros Hb Hi. unfold chains_after, get_bucket in *. destruct (Z.ltb_spec (i + 1) 0); [done|]. destruct (table (get_ht d t)) as [tb|]; [|done].
  cbn [mbind option_bind default from_option id] in *. rewrite (drop_S tb b (Z.to_nat (i + 1))) by done.
  replace (Z.to_nat (i + 1 + 1)) with (S (Z.to_nat (i + 1))) by lia. cbn. by rewrite <- (assoc_L (++)).
Qed.
Context (hashF : K → Z).

Lemma chains_after_end d t i : dict_wf hashF d → size (get_ht d t) ≤ i + 1 → chains_after d t i = if t then [] else ents_ht (ht1 d).
Proof using Type.
  intros Hwf Hi. unfold chains_after. rewrite drop_ge; [done|].
  assert (shape hashF (get_ht d t)) as Hs by (destruct t; apply Hwf). unfold shape in Hs. destruct (table (get_ht d t)) as [tb|]; cbn; [|lia].
  destruct Hs as (k & _ & Hsz & _ & Hl & _). unfold zlen in Hl. lia.
Qed.

Section addresses.
Context (t0 t1 : Z).

(** What does not change in an iteration *)
Definition same_tables d d' : Prop := ht0 d' = ht0 d ∧ ht1 d' = ht1 d ∧ rehashidx d' = rehashidx d.

Lemma at_entry_spec go d it t i pre e b fp : dict_wf hashF d → get_bucket (get_ht d t) i = Some (pre ++ e :: b) →
  (t = true → dictIsRehashing d = true) →
  ∃ it', at_entry go d it t i (Some (de_key e)) fp = Some (d, it', Some e) ∧ current d it' e (b ++ chains_after d t i) ∧
    it_safe it' = it_safe it ∧ started it' = true ∧ it_fingerprint it' = fp.
Proof using Type.
  intros Hwf Hb Ht. cbn [at_entry].
  assert (0 ≤ i) as Hi by (unfold get_bucket in Hb; destruct (Z.ltb_spec i 0); [done|lia]).
  rewrite (node_spec d (pre ++ e :: b) pre e b); [|rewrite chains_ents; apply Hwf|by eapply bucket_chains|done]. cbn [mbind option_bind].
  eexists. split; [done|]. split_and!; try done; [|unfold started; cbn; lia].
  unfold current. cbn. split_and!; try done. by exists pre, b.
Qed.

(** What a call of [dictNext] leaves *)
Record step_ok d it d' it' : Prop := {
  step_tables : same_tables d d';
  step_safe : it_safe it' = it_safe it;
  step_started : started it' = true;
  step_iterators : iterators d' = if negb (started it) && it_safe it then i32 (iterators d + 1) else iterators d;
  step_fingerprint : it_fingerprint it' = if negb (started it) && negb (it_safe it) then dictFingerprint t0 t1 d else it_fingerprint it
}.
Lemma wf_same_tables d d' : dict_wf hashF d → same_tables d d' → dict_wf hashF d'.
Proof. intros [H1 H2 H3 H4 H5 H6 H7] (E0 & E1 & E2). split; unfold ents, no_rehash, rehashing in *; rewrite ?E0, ?E1, ?E2; done. Qed.
Lemma wf_size d t : dict_wf hashF d → 0 ≤ size (get_ht d t) ≤ 2 ^ 31.
Proof.
  intros Hwf. assert (shape hashF (get_ht d t)) as Hs by (destruct t; apply Hwf).
  destruct (table (get_ht d t)) as [tb|] eqn:Ht; [pose proof (shape_some hashF _ Hs ltac:(eauto)); lia|]. unfold shape in Hs. rewrite Ht in Hs. lia.
Qed.
Lemma wf_bucket d t i : dict_wf hashF d → 0 ≤ i < size (get_ht d t) → ∃ b, get_bucket (get_ht d t) i = Some b.
Proof.
  intros Hwf Hi. assert (shape hashF (get_ht d t)) as Hs by (destruct t; apply Hwf). eapply (get_bucket_some hashF); try done.
  unfold shape in Hs. destruct (table (get_ht d t)) as [tb|]; [by eauto|]. lia.
Qed.
Lemma wf_rehashing d : dict_wf hashF d → dictIsRehashing d = true → 4 ≤ size (ht1 d).
Proof.
  intros Hwf Hr. unfold dictIsRehashing in Hr. destruct (wf_phase _ _ Hwf) as [[E _]|(_ & _ & HT & _)]; [rewrite E in Hr; done|].
  by apply (shape_some hashF); [apply Hwf|].
Qed.
Lemma wf_not_rehashing d : dict_wf hashF d → dictIsRehashing d = false → ents_ht (ht1 d) = [].
Proof.
  intros Hwf Hr. unfold dictIsRehashing in Hr. destruct (wf_phase _ _ Hwf) as [[_ HT]|(Hi & _)]; [|lia]. unfold ents_ht. by rewrite HT.
Qed.

(** The chains that are left *)
Definition chains_left d it : Z := size (get_ht d (it_table it)) - it_index it + (if it_table it then 0 else size (ht1 d)).

Lemma node_search_spec fuel : ∀ d it, dict_wf hashF d → it_entry it = None → -1 ≤ it_index it < size (get_ht d (it_table it)) →
  (it_table it = true → dictIsRehashing d = true) → chains_left d it < Z.of_nat fuel →
  let l := chains_after d (it_table it) (it_index it) in
  ∃ d' it', next_loop t0 t1 fuel d it = Some (d', it', head l) ∧ step_ok d it d' it' ∧ (∀ e l', l = e :: l' → current d' it' e l').
Proof.
  induction fuel as [|fuel IH]; intros d it Hwf He Hi Ht Hf l.
  { unfold chains_left in Hf. destruct (it_table it); [lia|]. pose proof (wf_size d true Hwf). cbn in *. lia. }
  cbn [next_loop]. rewrite He. cbv zeta. set (first := (it_index it =? -1) && negb (it_table it)).
  assert (first = negb (started it)) as Hfirst by (unfold started; by rewrite negb_involutive).
  set (fp := if first && negb (it_safe it) then _ else _). set (d1 := if first && it_safe it then _ else d).
  assert (same_tables d d1 ∧ iterators d1 = if first && it_safe it then i32 (iterators d + 1) else iterators d) as [Hd1 Hit1]
    by (subst d1; by destruct (first && it_safe it)).
  assert (dict_wf hashF d1) as Hwf1 by by eapply wf_same_tables.
  assert (∀ t, get_ht d1 t = get_ht d t) as Eht by (destruct Hd1 as (? & ? & _); by intros []).
  assert (dictIsRehashing d1 = dictIsRehashing d) as Er by (unfold dictIsRehashing; by destruct Hd1 as (_ & _ & ->)).
  assert (∀ t i, chains_after d1 t i = chains_after d t i) as Eca.
  { intros t i. unfold chains_after. rewrite Eht. by destruct Hd1 as (_ & -> & _). }
  clearbody d1. rewrite Eht, Er. pose proof (wf_size d (it_table it) Hwf) as Hsz. rewrite (wraps_small 64) by (unfold in_s; lia).
  assert (∀ t i b, get_bucket (get_ht d1 t) i = Some b → (t = true → dictIsRehashing d1 = true) → l = b ++ chains_after d1 t i →
    0 ≤ i < size (get_ht d1 t) → size (get_ht d1 t) - i + (if t then 0 else size (ht1 d1)) < Z.of_nat fuel →
    ∃ d' it', at_entry (next_loop t0 t1 fuel d1) d1 it t i (de_key <$> head b) fp = Some (d', it', head l) ∧ step_ok d it d' it' ∧
      (∀ e l', l = e :: l' → current d' it' e l')) as Hvisit.
  { intros t i b Hb Htr Hl Hi1 Hfuel. destruct b as [|e b].
    - destruct (IH d1 (mkIter t i (it_safe it) None (it_nextEntry it) fp)) as (d' & it' & Hn & [(S1 & S2 & S3) S4 S5 S6 S7] & Hc); try done; [cbn in *; lia|].
      cbn in Hn, S4, S6, S7. unfold started in S6, S7. cbn in S6, S7.
      assert ((i =? -1) && negb t = false) as E1 by (destruct t; lia). rewrite E1 in S6, S7. cbn in S6, S7.
      exists d', it'. cbn [at_entry fmap option_fmap option_map head]. rewrite Hn. cbn in Hl. rewrite Hl. split; [done|]. split; [|exact Hc]. destruct Hd1 as (H1 & H2 & H3).
      split; try done; [|by rewrite S6, Hit1, Hfirst|by rewrite S7; subst fp; rewrite Hfirst]. split_and!; congruence.
    - destruct (at_entry_spec (next_loop t0 t1 fuel d1) d1 it t i [] e b fp Hwf1 Hb) as (it' & Hat & Hc & S4 & S5 & S7); try done.
      cbn [fmap option_fmap option_map head]. rewrite Hat. exists d1, it'. rewrite Hl. split; [done|]. split; [|by intros ? ? [= <- <-]]. split; try done; [by rewrite Hit1, Hfirst|by rewrite S7; subst fp; rewrite Hfirst]. }
  unfold chains_left in Hf. destruct (Z.leb_spec (size (get_ht d (it_table it))) (it_index it + 1)) as [Hend|Hend].
  - assert (l = if it_table it then [] else ents_ht (ht1 d)) as Hl by by apply chains_after_end.
    destruct (dictIsRehashing d && negb (it_table it)) eqn:E.
    + apply andb_prop in E as [E1 E2]. destruct (it_table it); [done|]. pose proof (wf_rehashing d Hwf E1) as Hs1. pose proof (wf_size d true Hwf) as Hs1'. cbn [get_ht] in Hs1', Hf, Hi, Hend.
      destruct (wf_bucket d1 true 0 Hwf1) as [b Hb]; [rewrite Eht; cbn; lia|]. cbn [get_ht] in Hb. rewrite Hb. cbn [mbind option_bind].
      apply (Hvisit true 0 b); [exact Hb|by rewrite Er| |rewrite Eht; cbn [get_ht]; lia|rewrite Eht; cbn [get_ht]; lia].
      rewrite Hl. rewrite Eca. pose proof (chains_after_cons d true (-1) b) as Hcons. unfold chains_after in Hcons at 1. cbn in Hcons.
      rewrite app_nil_r in Hcons. apply Hcons; [|lia]. specialize (Eht true). cbn in Eht. by rewrite Eht in Hb.
    + assert (l = []) as ->.
      { rewrite Hl. destruct (it_table it); [done|]. apply (wf_not_rehashing d Hwf). by destruct (dictIsRehashing d). }
      eexists _, _. split; [reflexivity|]. split; [|done]. split; cbn [it_safe it_fingerprint];
        [exact Hd1|reflexivity| |by rewrite Hit1, Hfirst|unfold fp; rewrite Hfirst; reflexivity].
      unfold started. cbn [it_index it_table]. rewrite (proj2 (Z.eqb_neq _ _)) by lia. reflexivity.
  - destruct (wf_bucket d1 (it_table it) (it_index it + 1) Hwf1) as [b Hb]; [rewrite Eht; lia|]. rewrite Eht in Hb. rewrite Hb. cbn [mbind option_bind].
    apply Hvisit; rewrite ?Eht, ?Er; try done; [|lia|destruct Hd1 as (_ & -> & _); lia]. subst l. rewrite Eca. apply chains_after_cons; [done|lia].
Qed.

Lemma dictNext_spec d it l : dict_wf hashF d → to_come d it l →
  ∃ d' it', dictNext t0 t1 d it = Some (d', it', head l) ∧ step_ok d it d' it' ∧ (∀ e l', l = e :: l' → current d' it' e l').
Proof.
  intros Hwf Hl. pose proof (wf_size d false Hwf) as Hs0. pose proof (wf_size d true Hwf) as Hs1. cbn [get_ht] in Hs0, Hs1.
  unfold dictNext. destruct Hl as [(Hst & He & ->)|(He & Hi & Ht & pre & suf & Hb & Hn & ->)].
  - unfold started in Hst. apply negb_false_iff, andb_prop in Hst as [Hi%Z.eqb_eq Ht%negb_true_iff].
    destruct (node_search_spec (4 + Z.to_nat (size (ht0 d)) + Z.to_nat (size (ht1 d))) d it Hwf He) as (d' & it' & Hn & Hs & Hc).
    + rewrite Ht, Hi. cbn [get_ht]. lia.
    + by rewrite Ht.
    + unfold chains_left. rewrite Ht, Hi. cbn [get_ht]. lia.
    + rewrite Ht, Hi in Hn, Hc. exists d', it'. by split_and!.
  - assert (it_index it < size (get_ht d (it_table it))) as Hlt.
    { eapply (get_bucket_range hashF) in Hb; [lia|]. destruct (it_table it); apply Hwf. }
    destruct He as [k0 He]. set (fuel := (4 + Z.to_nat (size (ht0 d)) + Z.to_nat (size (ht1 d)))%nat). cbn [next_loop]. 
    assert (fuel = S (3 + Z.to_nat (size (ht0 d)) + Z.to_nat (size (ht1 d)))) as -> by done. cbn [next_loop]. rewrite He, Hn.
    assert (started it = true) as Hst by (unfold started; rewrite (proj2 (Z.eqb_neq _ _)) by lia; done).
    destruct suf as [|e suf].
    + cbn [head fmap option_fmap option_map at_entry app]. set (it1 := mkIter _ _ _ _ _ _).
      destruct (node_search_spec (3 + Z.to_nat (size (ht0 d)) + Z.to_nat (size (ht1 d))) d it1 Hwf eq_refl) as (d' & it' & Hn' & [S1 S2 S3 S4 S5] & Hc).
      * cbn. lia.
      * done.
      * unfold chains_left. cbn [it1 it_table it_index]. destruct (it_table it); cbn [get_ht] in *; lia.
      * exists d', it'. split; [exact Hn'|]. split; [|exact Hc]. change (started it1) with (started it) in S4, S5. rewrite Hst in S4, S5.
        split; try done; by rewrite Hst.
    + destruct (at_entry_spec (next_loop t0 t1 (3 + Z.to_nat (size (ht0 d)) + Z.to_nat (size (ht1 d))) d) d it (it_table it) (it_index it) pre e suf (it_fingerprint it) Hwf Hb)
        as (it' & Hat & Hc & S2 & S3 & S5); try done.
      cbn [fmap option_fmap option_map head]. rewrite Hat. exists d, it'. split; [done|]. split; [|by intros ? ? [= <- <-]]. split; try done; by rewrite Hst.
Qed.

End addresses.

(** ** Deletions during an iteration *)

Context (cmp : K → K → bool) (kdup : K → K) `{!DictTypeLaws hashF cmp kdup}.

Lemma chain_find_at l1 e l2 : NoDup (de_key <$> l1 ++ e :: l2) → chain_find cmp (l1 ++ e :: l2) (de_key e) = Some (length l1).
Proof using DictTypeLaws0.
  induction l1 as [|e1 l1 IH]; cbn.
  - intros _. by rewrite (proj2 (compare_eq _ _)).
  - intros [Hn Hd]%NoDup_cons. rewrite IH by done. destruct (cmp (de_key e) (de_key e1)) eqn:E; [|done].
    apply compare_eq in E. destruct Hn. rewrite fmap_app. cbn. set_solver.
Qed.
Lemma ents_get d t i b : get_bucket (get_ht d t) i = Some b → ∃ r1 r2, ents d = r1 ++ b ++ r2 ∧ (t = true → ∃ r, r1 = ents_ht (ht0 d) ++ r).
Proof using Type.
  unfold get_bucket, ents, ents_ht. destruct (i <? 0); [done|]. destruct t; cbn; destruct (table _) as [tb|]; try done; cbn; intros Hb.
  - exists (mjoin (default [] (table (ht0 d))) ++ mjoin (take (Z.to_nat i) tb)), (mjoin (drop (S (Z.to_nat i)) tb)). split; [|eauto].
    rewrite <- (take_drop_middle tb _ _ Hb) at 1. by rewrite join_app, <- !(assoc_L (++)).
  - exists (mjoin (take (Z.to_nat i) tb)), (mjoin (drop (S (Z.to_nat i)) tb) ++ mjoin (default [] (table (ht1 d)))). split; [|done].
    rewrite <- (take_drop_middle tb _ _ Hb) at 1. rewrite join_app. cbn. by rewrite <- !(assoc_L (++)).
Qed.

(** The deletion of an entry, while iterators are active, changes its chain only. *)
Lemma delete_chain d t i l1 e l2 : dict_wf hashF d → iterators d ≠ 0 → get_bucket (get_ht d t) i = Some (l1 ++ e :: l2) →
  (t = true → dictIsRehashing d = true) →
  ∃ h fr, put_bucket (get_ht d t) i (l1 ++ l2) = Some h ∧
    dictDelete hashF cmp d (de_key e) = Some (set_ht d t (add_used (-1) h), DICT_OK, fr).
Proof using DictTypeLaws0.
  intros Hwf Hit Hb Ht. assert (shape hashF (get_ht d t)) as Hs by (destruct t; apply Hwf).
  assert (chain_index hashF (get_ht d t) (de_key e) = i) as Hidx by (eapply chain_member; [done..|set_solver]).
  destruct (ents_get d t i _ Hb) as (r1 & r2 & He & Hr). pose proof (wf_keys _ _ Hwf) as Hnd. rewrite He, !fmap_app in Hnd.
  apply NoDup_app in Hnd as (_ & Hdis & Hnd). pose proof Hnd as (Hnd' & _ & _)%NoDup_app. rewrite <- fmap_app in Hnd'.
  assert (delete_in hashF cmp d t (de_key e) false = h ← put_bucket (get_ht d t) i (l1 ++ l2); Some (Some (set_ht d t (add_used (-1) h), [FreeKey (de_key e); FreeVal (de_val e)]))) as Hdel.
  { unfold delete_in. rewrite Hidx, Hb. cbn [mbind option_bind]. rewrite chain_find_at by done.
    rewrite list_lookup_middle by done. cbn [mbind option_bind]. by rewrite delete_middle. }
  assert (∃ h, put_bucket (get_ht d t) i (l1 ++ l2) = Some h) as [h Hh].
  { unfold put_bucket. rewrite Hb. cbn [mbind option_bind]. unfold get_bucket in Hb. destruct (i <? 0); [done|]. destruct (table (get_ht d t)); [|done]. by eexists. }
  rewrite Hh in Hdel. cbn [mbind option_bind] in Hdel. eexists h, _. split; [done|]. unfold dictDelete, dictGenericDelete.
  assert (is_Some (table (ht0 d))) as HT0.
  { destruct t; [|cbn in Hb; unfold get_bucket in Hb; destruct (i <? 0); [done|]; destruct (table (ht0 d)); [by eexists|done]].
    specialize (Ht eq_refl). unfold dictIsRehashing in Ht. destruct (wf_phase _ _ Hwf) as [[E _]|(_ & ? & _)]; [by rewrite E in Ht|done]. }
  rewrite (proj2 (size_0_iff hashF _ (wf_shape0 _ _ Hwf)) HT0).
  assert (step_if_rehashing hashF d = Some d) as ->.
  { unfold step_if_rehashing, _dictRehashStep. rewrite (proj2 (Z.eqb_neq _ _) Hit). by destruct (dictIsRehashing d). }
  cbn [mbind option_bind]. destruct t; [|by rewrite Hdel].
  assert (delete_in hashF cmp d false (de_key e) false = Some None) as ->; [|cbn [mbind option_bind]; rewrite (Ht eq_refl), Hdel; done].
  unfold delete_in. destruct (chain_index_spec hashF (ht0 d) (de_key e) (wf_shape0 _ _ Hwf) HT0) as [Hr0 _].
  destruct (get_bucket_some hashF _ _ (wf_shape0 _ _ Hwf) HT0 Hr0) as [b0 Hb0]. cbn [get_ht]. rewrite Hb0. cbn [mbind option_bind].
  destruct (chain_find cmp b0 (de_key e)) as [j|] eqn:Ej; [|done]. eapply chain_find_some in Ej as (e0 & Hj & Hk); [|done].
  destruct (Hr eq_refl) as [r ->]. exfalso. apply (Hdis (de_key e)).
  - rewrite <- Hk, fmap_app. apply elem_of_app. left. apply list_elem_of_fmap_2. eapply bucket_in_ents; [done|]. by eapply list_elem_of_lookup_2.
  - cbn. set_solver.
Qed.

Lemma current_delete d it e l : dict_wf hashF d → iterators d ≠ 0 → current d it e l →
  ∃ d' fr, dictDelete hashF cmp d (de_key e) = Some (d', DICT_OK, fr) ∧ dict_wf hashF d' ∧ iterators d' = iterators d ∧ to_come d' it l ∧ ents d ≡ₚ e :: ents d'.
Proof using DictTypeLaws0.
  intros Hwf Hit (He & Hi & Ht & l1 & l2 & Hb & Hn & Hl). remember (it_table it) as t eqn:Et. remember (it_index it) as i eqn:Ei.
  destruct (delete_chain d t i l1 e l2 Hwf Hit Hb Ht) as (h & fr & Hh & Hdel). exists (set_ht d t (add_used (-1) h)), fr. split; [done|].
  destruct (dictGenericDelete_spec hashF cmp kdup d (de_key e) false Hwf) as (d' & st & fr' & Hdel' & Hwf' & Hit' & Hperm).
  unfold dictDelete in Hdel. rewrite Hdel in Hdel'. injection Hdel' as <- <- <-. destruct Hperm as (e' & Hk & Hperm & _).
  assert (e' = e) as ->.
  { pose proof (wf_keys _ _ Hwf) as Hnd. assert (e ∈ ents d) as Hin by (destruct (ents_get d t i _ Hb) as (r1 & r2 & -> & _); set_solver).
    rewrite Hperm in Hin, Hnd. apply elem_of_cons in Hin as [?|Hin]; [done|]. cbn in Hnd. apply NoDup_cons in Hnd as [Hnd _]. destruct Hnd. rewrite Hk. by apply list_elem_of_fmap_2. }
  split_and!; try done.
  right. rewrite <- Et, <- Ei. unfold put_bucket in Hh. rewrite Hb in Hh. cbn [mbind option_bind] in Hh.
  destruct (table (get_ht d t)) as [tb|] eqn:Etb; [|done]. injection Hh as <-.
  assert (Z.to_nat i < length tb)%nat as Hlt by (unfold get_bucket in Hb; rewrite Etb in Hb; destruct (i <? 0); [done|]; by eapply lookup_lt_Some).
  split_and!; [by eexists|done|intros E1; specialize (Ht E1); by destruct t|]. exists l1, l2. split_and!; try done.
  - assert (get_ht (set_ht d t (add_used (-1) (mkHt (Some (<[Z.to_nat i:=l1 ++ l2]> tb)) (size (get_ht d t)) (sizemask (get_ht d t)) (used (get_ht d t))))) t =
      add_used (-1) (mkHt (Some (<[Z.to_nat i:=l1 ++ l2]> tb)) (size (get_ht d t)) (sizemask (get_ht d t)) (used (get_ht d t)))) as -> by by destruct t.
    unfold get_bucket. destruct (Z.ltb_spec i 0); [lia|]. cbn. by apply list_lookup_insert_eq.
  - rewrite Hl. f_equal. unfold chains_after. destruct t; cbn in *; rewrite Etb; cbn; f_equal; try done; f_equal; rewrite drop_insert_lt by lia; done.
Qed.

(** ** A loop over a dictionary that deletes entries *)

Section sweep.
Context (t0 t1 : Z) (p : dictEntry K V → bool).

(** [while((de = dictNext(di)) != NULL)], with [dictDelete] of the entries that
    satisfy [p]: the entries that were returned, and the dictionary at the end *)
Fixpoint sweep (fuel : nat) (d : dict) (it : dictIterator) : option (list (dictEntry K V) * dict) :=
  match fuel with
  | O => None
  | S fuel =>
      '(d, it, r) ← dictNext t0 t1 d it;
      match r with
      | None => d ← dictReleaseIterator t0 t1 d it; Some ([], d)
      | Some e =>
          d ← (if p e then '(d, _, _) ← dictDelete hashF cmp d (de_key e); Some d else Some d);
          '(l, d) ← sweep fuel d it; Some (e :: l, d)
      end
  end.

(** The iterator [it] works on [d], which had [n] iterators before. *)
Definition in_use (n : Z) d it : Prop :=
  iterators d = if started it && it_safe it then n + 1 else n.

Lemma next_in_use n d it d' it' : 0 ≤ n < 2 ^ 31 - 1 → in_use n d it → step_ok t0 t1 d it d' it' → in_use n d' it'.
Proof using Type.
  unfold in_use. intros Hn Hu [_ Hs Hst Hi _]. rewrite Hi, Hs, Hst. destruct (started it), (it_safe it); cbn in *; try done.
  rewrite Hu. apply wraps_small; unfold in_s; lia.
Qed.

Lemma sweep_safe n l : ∀ fuel d it, (length l < fuel)%nat → 0 ≤ n < 2 ^ 31 - 1 → dict_wf hashF d → it_safe it = true → in_use n d it → to_come d it l →
  ∃ d', sweep fuel d it = Some (l, d') ∧ dict_wf hashF d' ∧ iterators d' = n ∧ ents d ≡ₚ filter (λ e, p e = true) l ++ ents d'.
Proof using DictTypeLaws0.
  induction l as [|e l IH]; intros [|fuel] d it Hf Hn Hwf Hs Hu Hc; cbn in Hf; [lia| |lia|].
  all: destruct (dictNext_spec t0 t1 d it _ Hwf Hc) as (d1 & it1 & Hnext & Hst & Hcur); cbn [sweep]; rewrite Hnext; cbn [mbind option_bind head].
  all: pose proof (next_in_use n d it d1 it1 Hn Hu Hst) as Hu1; destruct Hst as [Htab Hs1 Hst1 _ _]; assert (dict_wf hashF d1) as Hwf1 by by eapply wf_same_tables.
  all: assert (ents d1 = ents d) as Ee by (unfold ents; by destruct Htab as (-> & -> & _)); unfold in_use in Hu1; rewrite Hst1, Hs1, Hs in Hu1; cbn in Hu1.
  - unfold dictReleaseIterator. fold (started it1). unfold started in Hst1. rewrite (negb_true_iff _) in Hst1. rewrite Hst1, Hs1, Hs. cbn [mbind option_bind].
    eexists. split; [done|]. split_and!; [by eapply wf_same_tables| |].
    + cbn. rewrite Hu1. rewrite (wraps_small 32); unfold in_s; lia.
    + cbn. by rewrite <- Ee.
  - specialize (Hcur e l eq_refl). destruct (p e) eqn:Ep.
    + destruct (current_delete d1 it1 e l Hwf1) as (d2 & fr & Hdel & Hwf2 & Hit2 & Hc2 & HP); [lia|done|]. rewrite Hdel. cbn [mbind option_bind].
      destruct (IH fuel d2 it1 ltac:(lia) Hn Hwf2) as (d3 & Hsw & Hwf3 & Hit3 & HP3); [by rewrite Hs1|unfold in_use; by rewrite Hst1, Hs1, Hs, Hit2|done|].
      rewrite Hsw. cbn [mbind option_bind]. exists d3. split_and!; try done. rewrite <- Ee, HP, filter_cons_True by done. cbn. by rewrite HP3.
    + cbn [mbind option_bind]. destruct (IH fuel d1 it1 ltac:(lia) Hn Hwf1) as (d3 & Hsw & Hwf3 & Hit3 & HP3); [by rewrite Hs1|unfold in_use; by rewrite Hst1, Hs1, Hs|by eapply current_to_come|].
      rewrite Hsw. cbn [mbind option_bind]. exists d3. split_and!; try done. rewrite <- Ee, filter_cons_False by (by rewrite Ep). done.
Qed.
End sweep.

Lemma dict_eq d d' : ht0 d' = ht0 d → ht1 d' = ht1 d → rehashidx d' = rehashidx d → iterators d' = iterators d → d' = d.
Proof using Type. destruct d, d'. cbn. congruence. Qed.
(** With an unsafe iterator and no changes, the dictionary stays as it is. *)
Lemma sweep_unsafe t0 t1 l : ∀ fuel d it, (length l < fuel)%nat → dict_wf hashF d → it_safe it = false →
  (started it = true → it_fingerprint it = dictFingerprint t0 t1 d) → to_come d it l →
  sweep t0 t1 (λ _, false) fuel d it = Some (l, d).
Proof using Type.
  induction l as [|e l IH]; intros [|fuel] d it Hf Hwf Hs Hfp Hc; cbn in Hf; [lia| |lia|].
  all: destruct (dictNext_spec t0 t1 d it _ Hwf Hc) as (d1 & it1 & Hnext & [(S1 & S2 & S3) S4 S5 S6 S7] & Hcur); cbn [sweep]; rewrite Hnext; cbn [mbind option_bind head].
  all: rewrite Hs in S4, S6, S7; rewrite andb_false_r in S6; rewrite andb_true_r in S7.
  all: assert (d1 = d) as -> by (by apply dict_eq).
  all: assert (it_fingerprint it1 = dictFingerprint t0 t1 d) as Hfp1 by (rewrite S7; destruct (started it); [by apply Hfp|done]).
  - unfold dictReleaseIterator. unfold started in S5. rewrite negb_true_iff in S5. rewrite S5, S4, Hfp1, Z.eqb_refl. done.
  - rewrite (IH fuel d it1) by (done || lia || by eapply current_to_come, Hcur). done.
Qed.

End facts.

(** ** Random entries *)

Section random.
Context {K V : Type} (hashF : K → Z) (random : nat → Z).
Implicit Types (d : dict K V).

Hypothesis Hrandom : ∀ n, 0 ≤ random n < 2 ^ 31.

(** Every draw is a chain of the dictionary. *)
Lemma random_chain_spec d n : dict_wf hashF d → ents d ≠ [] → ∃ b, random_chain random d n = Some b ∧ ∀ e, e ∈ b → e ∈ ents d.
Proof using Hrandom.
  intros Hwf Hne. pose proof (Hrandom n) as Hr. unfold random_chain.
  assert (∀ t i, 0 ≤ i < size (get_ht d t) → ∃ b, get_bucket (get_ht d t) i = Some b ∧ ∀ e, e ∈ b → e ∈ ents d) as Hget.
  { intros t i Hi. destruct (wf_bucket hashF d t i Hwf Hi) as [b Hb]. exists b. split; [done|]. intros e He.
    unfold ents. apply elem_of_app. destruct t; [right|left]; by eapply bucket_in_ents. }
  destruct (wf_size hashF d false Hwf) as [_ Hs0]. destruct (wf_size hashF d true Hwf) as [_ Hs1]. cbn [get_ht] in *.
  destruct (wf_phase _ _ Hwf) as [[E HT1]|(Hri & HT0 & HT1 & _)]; unfold dictIsRehashing.
  - rewrite E. cbn [negb Z.eqb]. cbn. assert (is_Some (table (ht0 d))) as HT0.
    { destruct (table (ht0 d)) as [tb|] eqn:HT0; [by eexists|]. destruct Hne. unfold ents, ents_ht. by rewrite HT0, HT1. }
    pose proof (wf_shape0 _ _ Hwf) as Hs. destruct HT0 as [tb HT0]. unfold shape in Hs. rewrite HT0 in Hs. destruct Hs as (k & Hk & Hsz & Hm & _).
    rewrite Hm, land_mask by lia. assert (0 < 2 ^ k) by (apply Z.pow_pos_nonneg; lia). pose proof (Z.mod_pos_bound (random n) (2 ^ k) ltac:(lia)).
    rewrite wrapu_small by (unfold in_u; lia). apply (Hget false). cbn. lia.
  - pose proof (shape_some hashF _ (wf_shape0 _ _ Hwf) HT0). pose proof (shape_some hashF _ (wf_shape1 _ _ Hwf) HT1).
    destruct (Z.eqb_spec (rehashidx d) (-1)); [lia|]. cbn [negb]. rewrite (wrapu_small 64 (random n)) by (unfold in_u; lia).
    rewrite (wrapu_small 64 (size (ht0 d) + size (ht1 d) - rehashidx d)) by (unfold in_u; lia).
    pose proof (Z.mod_pos_bound (random n) (size (ht0 d) + size (ht1 d) - rehashidx d) ltac:(lia)) as Hm.
    set (h := random n mod _) in *. rewrite wrapu_small by (unfold in_u; lia).
    destruct (Z.leb_spec (size (ht0 d)) (rehashidx d + h)); [apply (Hget true); cbn; lia|apply (Hget false); cbn; lia].
Qed.

Lemma random_loop_spec fuel : ∀ d n, dict_wf hashF d → ents d ≠ [] →
  (∃ j, (j < fuel)%nat ∧ random_chain random d (n + j) ≠ Some []) →
  ∃ b m, random_loop random fuel d n = Some (b, m) ∧ b ≠ [] ∧ ∀ e, e ∈ b → e ∈ ents d.
Proof using Hrandom.
  induction fuel as [|fuel IH]; intros d n Hwf Hne (j & Hj & Hc); [lia|]. cbn [random_loop].
  destruct (random_chain_spec d n Hwf Hne) as (b & Eb & Hb). rewrite Eb. cbn [mbind option_bind]. destruct b as [|e b]; [|by eexists _, _].
  apply IH; try done. destruct j as [|j]; [by rewrite Nat.add_0_r in Hc|]. exists j. split; [lia|]. by rewrite Nat.add_succ_comm.
Qed.

Lemma dictSize_nonzero d : dict_wf hashF d → (dictSize d =? 0) = bool_decide (ents d = []).
Proof using Type.
  intros Hwf. pose proof (wf_bound _ _ Hwf) as Hb. unfold dictSize. rewrite (wf_used0 _ _ Hwf), (wf_used1 _ _ Hwf).
  replace (zlen (ents_ht (ht0 d)) + zlen (ents_ht (ht1 d))) with (zlen (ents d)) by (unfold ents; by rewrite zlen_app).
  pose proof (zlen_nonneg (ents d)). rewrite wrapu_small by (unfold in_u, max_used in *; lia).
  destruct (ents d); [done|]. rewrite bool_decide_false by done. apply Z.eqb_neq. unfold zlen. cbn. lia.
Qed.
Lemma random_key_spec fuel d n d1 : dict_wf hashF d → step_if_rehashing hashF d = Some d1 → ents d ≠ [] →
  (∃ j, (j < fuel)%nat ∧ random_chain random d1 (n + j) ≠ Some []) →
  ∃ e m, dictGetRandomKey random hashF fuel d n = Some (d1, Some e, m) ∧ e ∈ ents d.
Proof using Hrandom.
  intros Hwf Hst Hne Hc. unfold dictGetRandomKey. rewrite dictSize_nonzero, bool_decide_false by done. rewrite Hst. cbn [mbind option_bind].
  destruct (step_if_rehashing_spec hashF d Hwf) as (d1' & Hst' & Hwf1 & HP & _). rewrite Hst in Hst'. injection Hst' as <-.
  assert (ents d1 ≠ []) as Hne1 by (intros E; rewrite E in HP; by apply Permutation_nil_l in HP).
  destruct (random_loop_spec fuel d1 n Hwf1 Hne1 Hc) as (b & m & -> & Hb & Hin). cbn [mbind option_bind].
  destruct (lookup_lt_is_Some_2 b (Z.to_nat (Z.rem (random m) (zlen b)))) as [e He].
  { destruct b as [|e0 b]; [done|]. pose proof (Hrandom m). pose proof (Z.rem_bound_pos (random m) (zlen (e0 :: b))) as Hrb. unfold zlen in *. cbn in *. lia. }
  rewrite He. cbn [mbind option_bind]. exists e, (S m). split; [done|]. rewrite <- HP. by eapply Hin, list_elem_of_lookup_2.
Qed.
End random.

(** The position of an entry *)
Lemma ents_position {K V} (d : dict K V) e : e ∈ ents d → ∃ t i r b, get_bucket (get_ht d t) (Z.of_nat i) = Some b ∧ b !! r = Some e.
Proof.
  unfold ents, ents_ht. intros [He|He]%elem_of_app; apply elem_of_mjoin_lookup in He as (i & b & Hi & [r Hr]%list_elem_of_lookup).
  - exists false, i, r, b. split; [|done]. cbn. unfold get_bucket. destruct (Z.ltb_spec (Z.of_nat i) 0); [lia|]. rewrite Nat2Z.id. by destruct (table (ht0 d)).
  - exists true, i, r, b. split; [|done]. cbn. unfold get_bucket. destruct (Z.ltb_spec (Z.of_nat i) 0); [lia|]. rewrite Nat2Z.id. by destruct (table (ht1 d)).
Qed.
Definition draws (a b : Z) (n : nat) : Z := match n with O => a | S _ => b end.
(** A draw that hits the chain *)
Lemma draw_chain {K V} (hashF : K → Z) (d : dict K V) t i b e c : dict_wf hashF d → get_bucket (get_ht d t) i = Some b → e ∈ b →
  size (ht0 d) + size (ht1 d) ≤ 2 ^ 31 → ∃ a, 0 ≤ a < 2 ^ 31 ∧ random_chain (draws a c) d 0 = Some b.
Proof.
  intros Hwf Hb He Hsz. assert (shape hashF (get_ht d t)) as Hs by (destruct t; apply Hwf). pose proof (get_bucket_range hashF _ _ _ Hs Hb) as Hi.
  destruct (wf_size hashF d false Hwf) as [Hp0 _]. destruct (wf_size hashF d true Hwf) as [Hp1 _]. cbn [get_ht] in Hp0, Hp1.
  unfold random_chain. cbn [draws]. destruct (wf_phase _ _ Hwf) as [[E HT1]|(Hri & HT0 & HT1 & Hempty)]; unfold dictIsRehashing.
  - destruct t; [cbn in Hb; unfold get_bucket in Hb; rewrite HT1 in Hb; by destruct (i <? 0)|]. cbn in *. exists i. split; [lia|]. rewrite E. cbn.
    unfold shape in Hs. destruct (table (ht0 d)) as [tb|] eqn:HT0; [|unfold get_bucket in Hb; rewrite HT0 in Hb; by destruct (i <? 0)].
    destruct Hs as (k & Hk & Hk1 & Hm & _). rewrite Hm, land_mask, Z.mod_small by lia. by rewrite wrapu_small by (unfold in_u; lia).
  - pose proof (shape_some hashF _ (wf_shape1 _ _ Hwf) HT1). set (h := if t then size (ht0 d) + i else i).
    assert (rehashidx d ≤ h < size (ht0 d) + size (ht1 d)) as Hh.
    { destruct t; cbn in *; subst h; [lia|]. destruct (decide (i < rehashidx d)); [|lia]. rewrite Hempty in Hb by lia. injection Hb as <-. by apply elem_of_nil in He. }
    exists (h - rehashidx d). split; [lia|]. destruct (Z.eqb_spec (rehashidx d) (-1)); [lia|]. cbn [negb].
    rewrite !(wrapu_small 64) by (unfold in_u; lia). rewrite Z.mod_small by lia. replace (rehashidx d + (h - rehashidx d)) with h by lia.
    rewrite wrapu_small by (unfold in_u; lia). subst h. destruct t; cbn in *.
    + rewrite (proj2 (Z.leb_le _ _)) by lia. by replace (size (ht0 d) + i - size (ht0 d)) with i by lia.
    + by rewrite (proj2 (Z.leb_gt _ _)) by lia.
Qed.

(** ** Theorems *)

Section theorems.
Context {K V : Type} `{EqDecision K} (hashF : K → Z) (cmp : K → K → bool) (kdup : K → K) `{!DictTypeLaws hashF cmp kdup}.

(** Iterators return every entry exactly once, also in the middle of a
    rehashing.  A loop with an unsafe iterator that does not change the dictionary
    passes the test of the fingerprint at the end and leaves the dictionary as it
    was; in a loop with a safe iterator the entries may be deleted after they are
    returned: all the entries are still returned, those that were not deleted are
    left, and the number of active iterators is what it was before. *)
Theorem dictNext_complete (d : dict K V) t0 t1 (p : dictEntry K V → bool) fuel :
  dict_wf hashF d → 0 ≤ iterators d < 2 ^ 31 - 1 → (length (ents d) < fuel)%nat →
  sweep hashF cmp t0 t1 (λ _, false) fuel d dictGetIterator = Some (ents d, d) ∧
  ∃ d', sweep hashF cmp t0 t1 p fuel d dictGetSafeIterator = Some (ents d, d') ∧ dict_wf hashF d' ∧
    iterators d' = iterators d ∧ ents d' ≡ₚ filter (λ e, p e = false) (ents d).
Proof using DictTypeLaws0.
  intros Hwf Hit Hf. split; [by apply (sweep_unsafe hashF cmp); [done..| |by left]|].
  destruct (sweep_safe hashF cmp kdup t0 t1 p (iterators d) (ents d) fuel d dictGetSafeIterator) as (d' & Hs & Hwf' & Hit' & HP); try done; [by left|].
  exists d'. split_and!; try done. apply (Permutation_app_inv_l (filter (λ e, p e = true) (ents d))). rewrite <- HP.
  clear. induction (ents d) as [|e l IH]; [done|]. destruct (p e) eqn:E.
  - rewrite filter_cons_True, filter_cons_False by congruence. by apply perm_skip.
  - rewrite filter_cons_False, filter_cons_True by congruence. rewrite <- Permutation_middle. by apply perm_skip.
Qed.

(** [dictGetRandomKey] returns an entry of the dictionary, unless there is
    none, as soon as one of the chains it draws is not empty, and every entry can
    be returned, in the middle of a rehashing too; it changes the dictionary by a
    step of the rehashing only. *)
Theorem dictGetRandomKey_correct (d : dict K V) :
  dict_wf hashF d → (∀ d1, step_if_rehashing hashF d = Some d1 → size (ht0 d1) + size (ht1 d1) ≤ 2 ^ 31) →
  ∃ d1, step_if_rehashing hashF d = Some d1 ∧ ents d1 ≡ₚ ents d ∧
    (∀ random fuel n, ents d = [] → dictGetRandomKey random hashF fuel d n = Some (d, None, n)) ∧
    (∀ random fuel n, (∀ m, 0 ≤ random m < 2 ^ 31) → ents d ≠ [] →
      (∃ j, (j < fuel)%nat ∧ random_chain random d1 (n + j) ≠ Some []) →
      ∃ e m, dictGetRandomKey random hashF fuel d n = Some (d1, Some e, m) ∧ e ∈ ents d) ∧
    (∀ e, e ∈ ents d → ∃ random, (∀ m, 0 ≤ random m < 2 ^ 31) ∧ dictGetRandomKey random hashF 1 d 0 = Some (d1, Some e, 2%nat)).
Proof using Type.
  intros Hwf Hsz. destruct (step_if_rehashing_spec hashF d Hwf) as (d1 & Hst & Hwf1 & HP & _). exists d1. split_and!; [done..| | |].
  - intros random fuel n He. unfold dictGetRandomKey. by rewrite (dictSize_nonzero hashF), bool_decide_true by done.
  - intros random fuel n Hr Hne Hc. by eapply random_key_spec.
  - intros e He. rewrite <- HP in He. destruct (ents_position d1 e He) as (t & i & r & b & Hb & Hr).
    pose proof (list_elem_of_lookup_2 _ _ _ Hr) as Hin. pose proof (lookup_lt_Some _ _ _ Hr) as Hlt.
    destruct (draw_chain hashF d1 t (Z.of_nat i) b e (Z.of_nat r) Hwf1 Hb Hin (Hsz d1 Hst)) as (a & Ha & Hd).
    assert (Z.of_nat (length b) ≤ zlen (ents d1)) as Hlen.
    { destruct (ents_get d1 t (Z.of_nat i) b Hb) as (r1 & r2 & -> & _). unfold zlen. rewrite !length_app. lia. }
    pose proof (wf_bound _ _ Hwf1) as Hbd. unfold max_used in Hbd. exists (draws a (Z.of_nat r)). split; [intros [|m]; cbn; lia|].
    unfold dictGetRandomKey. rewrite (dictSize_nonzero hashF), bool_decide_false by (done || intros E; rewrite E in HP; apply Permutation_nil_r in HP; rewrite HP in He; by apply elem_of_nil in He).
    rewrite Hst. cbn [mbind option_bind random_loop]. rewrite Hd. cbn [mbind option_bind]. destruct b as [|e0 b]; [by apply elem_of_nil in Hin|]. cbn [draws mbind option_bind].
    rewrite Z.rem_small by (unfold zlen; lia). by rewrite Nat2Z.id, Hr.
Qed.
End theorems.

Lemma dictNext_complete_witness :
  sweep u32 Z.eqb 77 99 (λ _, false) 30 int_dict dictGetIterator = Some (ents int_dict, int_dict) ∧
  ∃ d', sweep u32 Z.eqb 77 99 (λ e, Z.even (de_key e)) 30 int_dict dictGetSafeIterator = Some (ents int_dict, d') ∧ dict_wf u32 d' ∧
    iterators d' = iterators int_dict ∧ ents d' ≡ₚ filter (λ e, Z.even (de_key e) = false) (ents int_dict).
Proof.
  apply (dictNext_complete u32 Z.eqb (λ k, k) int_dict 77 99 (λ e, Z.even (de_key e)) 30); [exact int_dict_wf|vm_compute; split; discriminate || reflexivity|vm_compute; lia].
Defined.
Lemma dictGetRandomKey_correct_witness : ∃ d1, step_if_rehashing u32 int_dict = Some d1 ∧ ents d1 ≡ₚ ents int_dict.
Proof.
  destruct (dictGetRandomKey_correct u32 int_dict int_dict_wf) as (d1 & H1 & H2 & _).
  - intros d1 Hd. vm_compute in Hd. injection Hd as <-. vm_compute. discriminate.
  - exact (ex_intro _ d1 (conj H1 H2)).
Defined.
