(* ===== verification/SetType.v ===== *)
(** * SetType: sets of strings in two encodings (redis-3.0.0/src/t_set.c)

    A set object holds an intset while all its elements are integers and there are
    not too many of them, and a hash table afterwards.  An entry of the hash table
    has a string object as its key and no value; hashing and comparison of the keys
    depend on the string only ([DictHash]), so an entry is modelled with the string
    as its key and the object as its value. *)

From stdpp Require Import gmap.
From S2P Require Import Prelude Endian NumConv Objects Intset Dict DictFacts DictIter.

Definition REDIS_HT_MINFILL : Z := 10.

(** The objects that hold integers (object.c) *)
Definition isObjectRepresentableAsLongLong (o : enc_obj) : option Z :=
  match o with ObjInt v => Some v | ObjStr s => string2ll s end.
(** A [long] holds every [long long]. *)
Definition createStringObjectFromLongLong (value : Z) : enc_obj := ObjInt value.

Notation sdict := (dict (list Z) enc_obj).

Inductive setobj := SetInt (s : intset) | SetHt (d : sdict).
(** An element as [setTypeNext] and [setTypeRandomElement] return it *)
Inductive setele := EleInt (llele : Z) | EleObj (objele : enc_obj).
Inductive setTypeIterator := SiInt (ii : Z) | SiHt (di : dictIterator (K := list Z)).

Section settype.
Context (be : host) (junk : nat → Z).
Context (can_resize : bool) (hashF : list Z → Z) (cmp : list Z → list Z → bool).
(** [server.set_max_intset_entries]; the addresses of the tables of the dictionary
    that is iterated *)
Context (set_max_intset_entries : Z) (t0 t1 : Z).

Definition dictSlots (d : sdict) : Z := u64 (size (ht0 d) + size (ht1 d)).
Definition htNeedsResize (d : sdict) : bool :=
  let size := i64 (dictSlots d) in
  let used := i64 (dictSize d) in
  negb (size =? 0) && negb (used =? 0) && (DICT_HT_INITIAL_SIZE <? size) && (Z.quot (i64 (used * 100)) size <? REDIS_HT_MINFILL).

Definition set_dictAdd (d : sdict) (value : enc_obj) : option (sdict * status) :=
  dictAdd can_resize hashF cmp id id d (obj_string value) value.

Definition createIntsetObject : option setobj := s ← intsetNew be; Some (SetInt s).
Definition createSetObject : setobj := SetHt dictCreate.

Definition setTypeCreate (value : enc_obj) : option setobj :=
  match isObjectRepresentableAsLongLong value with
  | Some _ => createIntsetObject
  | None => Some createSetObject
  end.

(** ** Iterators *)

Definition setTypeInitIterator (subject : setobj) : setTypeIterator :=
  match subject with SetHt _ => SiHt dictGetIterator | SetInt _ => SiInt 0 end.
Definition setTypeReleaseIterator (subject : setobj) (si : setTypeIterator) : option setobj :=
  match si, subject with
  | SiHt di, SetHt d => d ← dictReleaseIterator t0 t1 d di; Some (SetHt d)
  | SiInt _, _ => Some subject
  | _, _ => None
  end.
(** [None]: -1 *)
Definition setTypeNext (subject : setobj) (si : setTypeIterator) : option (setobj * setTypeIterator * option setele) :=
  match si, subject with
  | SiHt di, SetHt d =>
      '(d, di, de) ← dictNext t0 t1 d di;
      match de with
      | None => Some (SetHt d, SiHt di, None)
      | Some de => o ← de_val de; Some (SetHt d, SiHt di, Some (EleObj o))
      end
  | SiInt ii, SetInt s =>
      match intsetGet be s (u32 ii) with
      | Some v => Some (SetInt s, SiInt (i32 (ii + 1)), option_map EleInt v)
      | None => None
      end
  | _, _ => None
  end.
Definition ele_object (e : setele) : enc_obj := match e with EleInt v => createStringObjectFromLongLong v | EleObj o => o end.
Definition setTypeNextObject (subject : setobj) (si : setTypeIterator) : option (setobj * setTypeIterator * option enc_obj) :=
  '(subject, si, e) ← setTypeNext subject si; Some (subject, si, option_map ele_object e).

(** ** Conversion *)

(** [fuel]: the number of calls of [setTypeNext] *)
Fixpoint convert_loop (fuel : nat) (s : intset) (si : setTypeIterator) (d : sdict) : option sdict :=
  match fuel with
  | O => None
  | S fuel =>
      '(_, si, e) ← setTypeNext (SetInt s) si;
      match e with
      | None => Some d
      | Some (EleInt v) =>
          '(d, st) ← set_dictAdd d (createStringObjectFromLongLong v);
          if decide (st = DICT_OK) then convert_loop fuel s si d else None (* assert *)
      | Some (EleObj _) => None
      end
  end.
(** To the hash table *)
Definition setTypeConvert (setobj : setobj) : option SetType.setobj :=
  match setobj with
  | SetHt _ => None (* assert *)
  | SetInt s =>
      len ← intsetLen be s;
      '(d, _) ← dictExpand (dictCreate (K := list Z) (V := enc_obj)) len;
      d ← convert_loop (S (Z.to_nat len)) s (setTypeInitIterator setobj) d;
      Some (SetHt d)
  end.

(** ** Elements *)

(** [true]: the element is new *)
Definition setTypeAdd (subject : setobj) (value : enc_obj) : option (setobj * bool) :=
  match subject with
  | SetHt d => '(d, st) ← set_dictAdd d value; Some (SetHt d, bool_decide (st = DICT_OK))
  | SetInt s =>
      match isObjectRepresentableAsLongLong value with
      | Some llval =>
          '(s, success) ← intsetAdd be junk s llval;
          if (success : bool) then
            len ← intsetLen be s;
            subject ← (if set_max_intset_entries <? len then setTypeConvert (SetInt s) else Some (SetInt s));
            Some (subject, true)
          else Some (SetInt s, false)
      | None =>
          subject ← setTypeConvert (SetInt s);
          match subject with
          | SetHt d => '(d, st) ← set_dictAdd d value; if decide (st = DICT_OK) then Some (SetHt d, true) else None (* assert *)
          | SetInt _ => None
          end
      end
  end.

Definition setTypeRemove (setobj : setobj) (value : enc_obj) : option (SetType.setobj * bool) :=
  match setobj with
  | SetHt d =>
      '(d, st, _) ← dictDelete hashF cmp d (obj_string value);
      if decide (st = DICT_OK) then
        d ← (if htNeedsResize d then '(d, _) ← dictResize can_resize d; Some d else Some d);
        Some (SetHt d, true)
      else Some (SetHt d, false)
  | SetInt s =>
      match isObjectRepresentableAsLongLong value with
      | Some llval => '(s, success) ← intsetRemove be junk s llval; Some (SetInt s, success)
      | None => Some (SetInt s, false)
      end
  end.

Definition setTypeIsMember (subject : setobj) (value : enc_obj) : option (setobj * bool) :=
  match subject with
  | SetHt d => '(d, de) ← dictFind hashF cmp d (obj_string value); Some (SetHt d, bool_decide (is_Some de))
  | SetInt s =>
      match isObjectRepresentableAsLongLong value with
      | Some llval => b ← intsetFind be s llval; Some (SetInt s, b)
      | None => Some (SetInt s, false)
      end
  end.

Definition setTypeSize (subject : setobj) : option Z :=
  match subject with SetHt d => Some (dictSize d) | SetInt s => intsetLen be s end.

(** [random]: the results of [random()], [fuel]: the number of chains tried *)
Definition setTypeRandomElement (random : nat → Z) (fuel : nat) (setobj : setobj) (n : nat) : option (SetType.setobj * setele * nat) :=
  match setobj with
  | SetHt d =>
      '(d, de, n) ← dictGetRandomKey random hashF fuel d n;
      de ← de; o ← de_val de; Some (SetHt d, EleObj o, n)
  | SetInt s => v ← intsetRandom be s (random n); Some (SetInt s, EleInt v, S n)
  end.

End settype.
