(* ===== verification/SetSpec.v ===== *)
(** * SetSpec: set objects implement sets of strings

    The invariant of set objects in both encodings, the operations on them against
    finite sets of strings. *)

From stdpp Require Import gmap.
From S2P Require Import Prelude Endian NumConv Objects Intset Dict DictFacts DictHash DictIter SetType.

(** ** Integers as strings *)

Definition str_of (v : Z) : list Z := obj_string (ObjInt v).

Lemma repr_spec o v : obj_ok o → isObjectRepresentableAsLongLong o = Some v ↔ in_s 64 v ∧ obj_string o = str_of v.
Proof.
  intros Ho. destruct o as [s|w]; cbn [isObjectRepresentableAsLongLong].
  - rewrite string2ll_spec. change (obj_string (ObjStr s)) with s. split; intros [H1 H2].
    + split; [done|]. apply (decimal_unique _ _ v H1), obj_string_decimal, H2.
    + split; [|done]. rewrite H2. by apply obj_string_decimal.
  - split; [by intros [= <-]|]. intros [Hv E]. f_equal.
    assert (decimal (str_of v) v) as D1 by by apply obj_string_decimal. assert (decimal (str_of v) w) as D2 by (rewrite <- E; by apply obj_string_decimal).
    assert (string2ll (str_of v) = Some v) as E1 by by apply string2ll_spec. assert (string2ll (str_of v) = Some w) as E2 by by apply string2ll_spec.
    congruence.
Qed.
Lemma str_of_inj v w : in_s 64 v → in_s 64 w → str_of v = str_of w → v = w.
Proof. intros Hv Hw E. assert (isObjectRepresentableAsLongLong (ObjInt v) = Some w) as [= ->] by by apply repr_spec. done. Qed.
Lemma repr_none o v : obj_ok o → isObjectRepresentableAsLongLong o = None → in_s 64 v → obj_string o ≠ str_of v.
Proof. intros Ho Hn Hv E. assert (isObjectRepresentableAsLongLong o = Some v) by by apply repr_spec. congruence. Qed.

Lemma add_size (X : gset (list Z)) x : Z.of_nat (base.size ({[x]} ∪ X)) ≤ Z.of_nat (base.size X) + 1.
Proof. pose proof (size_union_alt {[x]} X) as Hs. rewrite size_singleton in Hs. assert (base.size (X ∖ {[x]}) ≤ base.size X)%nat by (apply subseteq_size; set_solver). lia. Qed.

#[local] Opaque dictFingerprint.

Section spec.
Context (be : host).
Context (can_resize : bool) (hashF : list Z → Z) (cmp : list Z → list Z → bool) `{!DictTypeLaws hashF cmp id}.
Context (t0 t1 : Z).

Local Notation setTypeIsMember := (setTypeIsMember be hashF cmp).
Local Notation setTypeConvert := (setTypeConvert be can_resize hashF cmp t0 t1).
Local Notation setTypeNext := (setTypeNext be t0 t1).
Local Notation setTypeReleaseIterator := (setTypeReleaseIterator t0 t1).

(** ** The invariant *)

(** The key of every entry is the string of its object. *)
Definition entry_ok (e : dictEntry (list Z) enc_obj) : Prop := ∃ o, de_val e = Some o ∧ obj_ok o ∧ obj_string o = de_key e.
Definition ht_rel (d : sdict) (X : gset (list Z)) : Prop :=
  dict_wf hashF d ∧ iterators d = 0 ∧ Forall entry_ok (ents d) ∧ X = list_to_set (de_key <$> ents d).
Definition int_rel (s : intset) (X : gset (list Z)) : Prop := ∃ vs, Intset.wf be s vs ∧ X = list_to_set (str_of <$> vs).
(** The object [s] holds the strings [X]. *)
Definition set_rel (s : setobj) (X : gset (list Z)) : Prop := match s with SetInt i => int_rel i X | SetHt d => ht_rel d X end.

Lemma wf_ints s vs v : Intset.wf be s vs → v ∈ vs → in_s 64 v.
Proof.
  intros ([e HR] & _) Hv. pose proof (rep_range _ _ _ _ HR) as Hr. rewrite list.Forall_forall in Hr. specialize (Hr v Hv).
  pose proof (rep_enc _ _ _ _ HR) as He. eapply (in_s_mono e 8) in Hr; [done|done|unfold enc_ok; lia|unfold enc_ok in He; lia].
Qed.
Lemma int_elem s (vs : list Z) v : Intset.wf be s vs → in_s 64 v → str_of v ∈ (list_to_set (str_of <$> vs) : gset (list Z)) ↔ v ∈ vs.
Proof.
  intros Hwf Hv. rewrite elem_of_list_to_set, list_elem_of_fmap. split; [|by exists v].
  intros (w & E & Hw). apply str_of_inj in E as ->; [done|done|by eapply wf_ints].
Qed.
Lemma sorted_nodup vs : StronglySorted Z.lt vs → NoDup vs.
Proof.
  induction 1 as [|v vs _ IH Hall]; [constructor|]. constructor; [|done]. intros Hin. rewrite list.Forall_forall in Hall. specialize (Hall v Hin). lia.
Qed.
Lemma int_size (s : intset) (vs : list Z) (X : gset (list Z)) : Intset.wf be s vs → X = list_to_set (str_of <$> vs) → Z.of_nat (base.size X) = zlen vs.
Proof.
  intros Hwf ->. rewrite size_list_to_set; [by rewrite length_fmap|]. apply NoDup_fmap_2_strong; [|by apply sorted_nodup; destruct Hwf as (_ & ? & _)].
  intros v w Hv Hw. apply str_of_inj; by eapply wf_ints.
Qed.
Lemma ht_size d X : ht_rel d X → Z.of_nat (base.size X) = zlen (ents d).
Proof. intros (Hwf & _ & _ & ->). rewrite size_list_to_set; [by rewrite length_fmap|apply Hwf]. Qed.

(** ** The hash table *)

Lemma ht_same d d' X : ht_rel d X → same hashF d d' → ht_rel d' X.
Proof.
  intros (Hwf & Hit & He & ->) (Hwf' & HP & Hit' & _). split_and!; [done|congruence|by rewrite HP|]. apply set_eq. intros x.
  rewrite !elem_of_list_to_set. by rewrite HP.
Qed.
Lemma set_dictAdd_spec d X o : ht_rel d X → obj_ok o → Z.of_nat (base.size X) + 1 < max_used →
  ∃ d', set_dictAdd can_resize hashF cmp d o = Some (d', if bool_decide (obj_string o ∈ X) then DICT_ERR else DICT_OK) ∧ ht_rel d' ({[obj_string o]} ∪ X).
Proof using DictTypeLaws0.
  intros HX Ho Hsz. rewrite (ht_size d X HX) in Hsz. destruct HX as (Hwf & Hit & He & ->).
  destruct (dictAdd_spec can_resize hashF cmp id id d (obj_string o) o Hwf Hsz) as (d' & st & Hadd & Hwf' & Hit' & Hst).
  exists d'. unfold set_dictAdd. rewrite Hadd. destruct st.
  - destruct Hst as [Hnew HP]. rewrite bool_decide_false.
    + split; [done|]. split_and!; [done|congruence| |].
      * rewrite HP. constructor; [by exists o|done].
      * apply set_eq. intros x. rewrite elem_of_union, elem_of_singleton, !elem_of_list_to_set, HP. cbn. by rewrite elem_of_cons.
    + rewrite elem_of_list_to_set, list_elem_of_fmap. intros (e & E & Hin). by apply (Hnew e Hin).
  - destruct Hst as [HP (e & Hin & Hk)]. assert (obj_string o ∈ (list_to_set (de_key <$> ents d) : gset (list Z))) as Hmem.
    { rewrite elem_of_list_to_set, <- Hk. by apply list_elem_of_fmap_2. }
    rewrite bool_decide_true by done. split; [done|]. split_and!; [done|congruence|by rewrite HP|]. apply set_eq. intros x.
    rewrite elem_of_list_to_set in Hmem. rewrite elem_of_union, elem_of_singleton, !elem_of_list_to_set, HP. naive_solver.
Qed.

(** ** Conversion *)

Lemma next_int s vs (i : nat) : Intset.wf be s vs → (i ≤ length vs)%nat →
  setTypeNext (SetInt s) (SiInt (Z.of_nat i)) = Some (SetInt s, SiInt (Z.of_nat (S i)), EleInt <$> (vs !! i)).
Proof.
  intros Hwf Hi. assert (zlen vs < 2 ^ 29) as Hl by apply Hwf. unfold zlen in Hl. cbn [SetType.setTypeNext].
  rewrite (wrapu_small 32) by (unfold in_u; lia). destruct (intset_positional be s vs (Z.of_nat i) 0 Hwf) as [-> _]; [unfold in_u; lia|].
  rewrite Nat2Z.id, (wraps_small 32) by (unfold in_s; lia). replace (Z.of_nat i + 1) with (Z.of_nat (S i)) by lia. by destruct (vs !! i).
Qed.

Lemma convert_loop_spec s vs : Intset.wf be s vs → ∀ fuel i d X, ht_rel d X → (i ≤ length vs < fuel + i)%nat →
  (∀ v, v ∈ drop i vs → str_of v ∉ X) → Z.of_nat (base.size X) + Z.of_nat (length vs - i) < max_used →
  ∃ d', convert_loop be can_resize hashF cmp t0 t1 fuel s (SiInt (Z.of_nat i)) d = Some d' ∧ ht_rel d' (X ∪ list_to_set (str_of <$> drop i vs)).
Proof using DictTypeLaws0.
  intros Hwf. pose proof (sorted_nodup vs ltac:(apply Hwf)) as Hnd. induction fuel as [|fuel IH]; intros i d X HX Hi Hnew Hsz; [lia|].
  cbn [convert_loop]. rewrite (next_int s vs i Hwf) by lia. cbn [mbind option_bind]. destruct (vs !! i) as [v|] eqn:Ei; cbn [fmap option_fmap option_map].
  - pose proof (drop_S vs v i Ei) as Ed. rewrite Ed in Hnew |- *. assert (v ∈ vs) as Hin by by eapply list_elem_of_lookup_2.
    assert (in_s 64 v) as Hv by by eapply wf_ints. pose proof (lookup_lt_Some _ _ _ Ei) as Hlt.
    destruct (set_dictAdd_spec d X (ObjInt v) HX) as (d1 & Hadd & HX1); [done|lia|]. unfold createStringObjectFromLongLong. rewrite Hadd. cbn [mbind option_bind].
    assert (obj_string (ObjInt v) ∉ X) as Hn by (apply Hnew; by left). rewrite bool_decide_false by done. rewrite decide_True by done.
    destruct (IH (S i) d1 ({[str_of v]} ∪ X)) as (d2 & Hc & HX2).
    + done.
    + lia.
    + intros w Hw. rewrite not_elem_of_union, not_elem_of_singleton. split; [|by apply Hnew; right].
      intros E. assert (w ∈ vs) as Hinw by (rewrite <- (take_drop (S i) vs); set_solver). apply str_of_inj in E as ->; [|by eapply wf_ints|done].
      rewrite <- (take_drop i vs), Ed in Hnd. apply NoDup_app in Hnd as (_ & _ & Hnd). by apply NoDup_cons in Hnd as [? _].
    + pose proof (add_size X (str_of v)). lia.
    + rewrite Hc. exists d2. split; [done|]. rewrite fmap_cons, list_to_set_cons.
      replace (X ∪ ({[str_of v]} ∪ list_to_set (str_of <$> drop (S i) vs))) with ({[str_of v]} ∪ X ∪ list_to_set (str_of <$> drop (S i) vs)) by set_solver. done.
  - exists d. split; [done|]. rewrite drop_ge by by apply lookup_ge_None. cbn. by rewrite (right_id_L ∅ (∪)).
Qed.
Lemma setTypeConvert_spec s X : int_rel s X → ∃ d, setTypeConvert (SetInt s) = Some (SetHt d) ∧ ht_rel d X.
Proof using DictTypeLaws0.
  intros (vs & Hwf & ->). pose proof Hwf as ([e HR] & _ & Hl). unfold SetType.setTypeConvert, intsetLen. rewrite (rep_length _ _ _ _ HR). cbn [mbind option_bind].
  pose proof (zlen_nonneg vs) as H0.
  destruct (dictExpand_spec hashF (dictCreate (K := list Z) (V := enc_obj)) (zlen vs)) as (k & d1 & st & _ & _ & _ & HE & Hsame & _); [apply create_wf|lia|].
  rewrite HE. cbn [mbind option_bind setTypeInitIterator]. assert (ht_rel d1 ∅) as HX1 by (eapply (ht_same dictCreate); [|done]; split_and!; [apply create_wf|done..]).
  destruct (convert_loop_spec s vs Hwf (S (Z.to_nat (zlen vs))) 0 d1 ∅ HX1) as (d2 & Hc & HX2).
  - unfold zlen. lia.
  - set_solver.
  - rewrite size_empty. unfold zlen, max_used in *. lia.
  - change (Z.of_nat 0) with 0 in Hc. rewrite Hc. exists d2. split; [done|]. rewrite drop_0, (left_id_L ∅ (∪)) in HX2. done.
Qed.

(** ** Elements *)

Context (junk : nat → Z) (max_entries : Z).
Local Notation setTypeAdd := (setTypeAdd be junk can_resize hashF cmp max_entries t0 t1).
Local Notation setTypeRemove := (setTypeRemove be junk can_resize hashF cmp).

Definition small (X : gset (list Z)) : Prop := Z.of_nat (base.size X) + 1 < 2 ^ 29.

Lemma setTypeCreate_spec o : ∃ s, setTypeCreate be o = Some s ∧ set_rel s ∅.
Proof.
  unfold setTypeCreate. destruct (isObjectRepresentableAsLongLong o).
  - destruct (new_rep be) as (s & E & HR). unfold createIntsetObject. rewrite E. exists (SetInt s). split; [done|]. exists []. split; [|done].
    split_and!; [by exists 2|constructor|done].
  - exists createSetObject. split; [done|]. split_and!; [apply create_wf|done..].
Qed.

Lemma intset_add_spec s vs v : Intset.wf be s vs → in_s 64 v → zlen vs + 1 < 2 ^ 29 →
  ∃ s', intsetAdd be junk s v = Some (s', bool_decide (v ∉ vs)) ∧ Intset.wf be s' (sadd v vs).
Proof.
  intros ([e HR] & HS & Hl) Hv Hsz. destruct (run_op_rep be junk s e vs (OpAdd v) HR HS Hsz Hv) as (s' & b & Hop & HR' & HS' & Hl' & Hsp).
  cbn in Hop, Hsp. exists s'. rewrite Hop. injection Hsp as _ <-. split; [do 2 f_equal; apply bool_decide_ext; by rewrite elem_of_list_to_set|].
  split_and!; [by eexists|done|]. cbn in Hl'. lia.
Qed.
Lemma intset_remove_spec s vs v : Intset.wf be s vs → in_s 64 v → zlen vs + 1 < 2 ^ 29 →
  ∃ s', intsetRemove be junk s v = Some (s', bool_decide (v ∈ vs)) ∧ Intset.wf be s' (srem v vs).
Proof.
  intros ([e HR] & HS & Hl) Hv Hsz. destruct (run_op_rep be junk s e vs (OpRemove v) HR HS Hsz Hv) as (s' & b & Hop & HR' & HS' & Hl' & Hsp).
  cbn in Hop, Hsp. exists s'. rewrite Hop. injection Hsp as _ <-. split; [do 2 f_equal; apply bool_decide_ext; by rewrite elem_of_list_to_set|].
  split_and!; [by eexists|done|]. pose proof (length_srem v vs). cbn in *. unfold zlen in *. lia.
Qed.

Lemma setTypeAdd_spec s X o : set_rel s X → obj_ok o → small X →
  ∃ s', setTypeAdd s o = Some (s', bool_decide (obj_string o ∉ X)) ∧ set_rel s' ({[obj_string o]} ∪ X).
Proof using DictTypeLaws0.
  intros HX Ho Hsz. unfold small in Hsz. destruct s as [s|d]; cbn [SetType.setTypeAdd].
  - destruct HX as (vs & Hwf & HX). pose proof (int_size s vs X Hwf HX) as Hlen. destruct (isObjectRepresentableAsLongLong o) as [v|] eqn:Er.
    + apply (repr_spec o v Ho) in Er as [Hv ->]. destruct (intset_add_spec s vs v Hwf Hv) as (s' & -> & Hwf'); [lia|]. cbn [mbind option_bind].
      assert (bool_decide (str_of v ∉ X) = bool_decide (v ∉ vs)) as -> by (apply bool_decide_ext; by rewrite HX, (int_elem s vs v)).
      assert (int_rel s' ({[str_of v]} ∪ X)) as HX'.
      { exists (sadd v vs). split; [done|]. rewrite HX. apply set_eq. intros x. rewrite elem_of_union, elem_of_singleton, !elem_of_list_to_set, !list_elem_of_fmap.
        setoid_rewrite elem_of_sadd. naive_solver. }
      case_bool_decide; [|by exists (SetInt s')]. unfold intsetLen. destruct Hwf' as ([e HR] & _). rewrite (rep_length _ _ _ _ HR). cbn [mbind option_bind].
      destruct (_ <? _); [|by exists (SetInt s')]. destruct (setTypeConvert_spec s' _ HX') as (d & -> & Hd). by exists (SetHt d).
    + destruct (setTypeConvert_spec s X) as (d & -> & Hd); [by exists vs|]. cbn [mbind option_bind].
      destruct (set_dictAdd_spec d X o Hd Ho) as (d' & -> & Hd'); [unfold max_used; lia|]. cbn [mbind option_bind].
      assert (obj_string o ∉ X) as Hn.
      { rewrite HX, elem_of_list_to_set, list_elem_of_fmap. intros (v & E & Hv). eapply repr_none; [done..| |done]. by eapply wf_ints. }
      rewrite bool_decide_false, decide_True by done. exists (SetHt d'). split; [by rewrite bool_decide_true|done].
  - destruct (set_dictAdd_spec d X o HX Ho) as (d' & -> & Hd'); [unfold max_used; lia|]. cbn [mbind option_bind]. exists (SetHt d'). split; [|done].
    do 2 f_equal. destruct (decide (obj_string o ∈ X)); [rewrite (bool_decide_true (_ ∈ _)), !bool_decide_false by (done || naive_solver); done|].
    by rewrite (bool_decide_false (_ ∈ _)), !bool_decide_true by done.
Qed.

Lemma ht_delete d X x : ht_rel d X →
  ∃ d' st fr, dictDelete hashF cmp d x = Some (d', st, fr) ∧ bool_decide (st = DICT_OK) = bool_decide (x ∈ X) ∧ ht_rel d' (X ∖ {[x]}).
Proof using DictTypeLaws0.
  intros (Hwf & Hit & He & ->). destruct (dictGenericDelete_spec hashF cmp id d x false Hwf) as (d' & st & fr & Hdel & Hwf' & Hit' & Hst).
  exists d', st, fr. split; [done|]. pose proof (wf_keys _ _ Hwf) as Hnd. destruct st.
  - destruct Hst as (e & Hk & HP & _). rewrite HP in Hnd. cbn in Hnd. apply NoDup_cons in Hnd as [Hn _]. split.
    + rewrite !bool_decide_true; [done| |done]. rewrite elem_of_list_to_set, HP, <- Hk. by left.
    + split_and!; [done|congruence|by rewrite HP in He; apply Forall_cons in He as [_ He]|]. apply set_eq. intros y.
      rewrite elem_of_difference, elem_of_singleton, !elem_of_list_to_set, HP. cbn. rewrite elem_of_cons, <- Hk. naive_solver.
  - destruct Hst as (HP & Hnot & _). assert (x ∉ (list_to_set (de_key <$> ents d) : gset (list Z))) as Hn.
    { rewrite elem_of_list_to_set, list_elem_of_fmap. intros (e & -> & Hin). by apply (Hnot e Hin). }
    split; [by rewrite !bool_decide_false by done|]. split_and!; [done|congruence|by rewrite HP|]. rewrite (difference_disjoint_L _ {[x]}) by set_solver.
    apply set_eq. intros y. by rewrite !elem_of_list_to_set, HP.
Qed.
Lemma setTypeRemove_spec s X o : set_rel s X → obj_ok o → small X →
  ∃ s', setTypeRemove s o = Some (s', bool_decide (obj_string o ∈ X)) ∧ set_rel s' (X ∖ {[obj_string o]}).
Proof using DictTypeLaws0.
  intros HX Ho Hsz. unfold small in Hsz. destruct s as [s|d]; cbn [SetType.setTypeRemove].
  - destruct HX as (vs & Hwf & HX). pose proof (int_size s vs X Hwf HX) as Hlen. destruct (isObjectRepresentableAsLongLong o) as [v|] eqn:Er.
    + apply (repr_spec o v Ho) in Er as [Hv ->]. destruct (intset_remove_spec s vs v Hwf Hv) as (s' & -> & Hwf'); [lia|]. cbn [mbind option_bind].
      exists (SetInt s'). split; [do 2 f_equal; apply bool_decide_ext; by rewrite HX, (int_elem s vs v)|]. exists (srem v vs). split; [done|]. rewrite HX.
      apply set_eq. intros x. rewrite elem_of_difference, elem_of_singleton, !elem_of_list_to_set, !list_elem_of_fmap. setoid_rewrite elem_of_srem. split.
      * intros ((w & -> & Hw) & Hne). exists w. split; [done|]. split; [congruence|done].
      * intros (w & -> & Hne & Hw). split; [by exists w|]. intros E. apply Hne. apply str_of_inj; [by apply (wf_ints s vs)|done|done].
    + assert (obj_string o ∉ X) as Hn.
      { rewrite HX, elem_of_list_to_set, list_elem_of_fmap. intros (v & E & Hv). eapply repr_none; [done..| |done]. by eapply wf_ints. }
      exists (SetInt s). split; [by rewrite bool_decide_false|]. exists vs. split; [done|]. rewrite <- HX. apply difference_disjoint_L. set_solver.
  - destruct (ht_delete d X (obj_string o) HX) as (d' & st & fr & -> & Hst & Hd'). cbn [mbind option_bind]. rewrite <- Hst.
    destruct (decide (st = DICT_OK)) as [E|E].
    + rewrite bool_decide_true by done. destruct (htNeedsResize d'); [|by exists (SetHt d')].
      destruct (dictResize_spec can_resize hashF d') as (d2 & st2 & -> & Hsame); [apply Hd'|]. cbn [mbind option_bind]. exists (SetHt d2). split; [done|]. by eapply ht_same.
    + rewrite bool_decide_false by done. by exists (SetHt d').
Qed.
Lemma setTypeIsMember_spec s X o : set_rel s X → obj_ok o →
  ∃ s', setTypeIsMember s o = Some (s', bool_decide (obj_string o ∈ X)) ∧ set_rel s' X.
Proof using DictTypeLaws0.
  intros HX Ho. destruct s as [s|d]; cbn [SetType.setTypeIsMember].
  - destruct HX as (vs & Hwf & HX). destruct (isObjectRepresentableAsLongLong o) as [v|] eqn:Er.
    + apply (repr_spec o v Ho) in Er as [Hv ->]. destruct (Hwf) as ([e HR] & HS & Hl). rewrite (find_spec be s e vs v) by (done || lia). cbn [mbind option_bind].
      exists (SetInt s). split; [do 2 f_equal; apply bool_decide_ext; by rewrite HX, (int_elem s vs v)|by exists vs].
    + exists (SetInt s). split; [|by exists vs]. rewrite bool_decide_false; [done|]. rewrite HX, elem_of_list_to_set, list_elem_of_fmap.
      intros (v & E & Hv). eapply repr_none; [done..| |done]. by eapply wf_ints.
  - pose proof HX as (Hwf & _ & _ & HXe). destruct (dictFind_spec hashF cmp id d (obj_string o) Hwf) as (d' & r & -> & Hsame & Hr). cbn [mbind option_bind].
    exists (SetHt d'). pose proof (ht_same d d' X HX Hsame) as HX'. split; [|done]. do 2 f_equal. destruct HX' as (_ & _ & _ & ->). destruct r as [p|].
    + destruct Hr as (e & Hp%points_to_ents & Hk). rewrite !bool_decide_true; [done| |by eexists]. rewrite elem_of_list_to_set, <- Hk. by apply list_elem_of_fmap_2.
    + rewrite !bool_decide_false; [done| |by intros [? ?]]. rewrite elem_of_list_to_set, list_elem_of_fmap. intros (e & E & Hin). by apply (Hr e Hin).
Qed.
Lemma setTypeSize_spec s X : set_rel s X → setTypeSize be s = Some (Z.of_nat (base.size X)).
Proof using Type.
  intros HX. destruct s as [s|d]; cbn [setTypeSize].
  - destruct HX as (vs & Hwf & HX). rewrite (int_size s vs X Hwf HX). destruct Hwf as ([e HR] & _). unfold intsetLen. by rewrite (rep_length _ _ _ _ HR).
  - rewrite (ht_size d X HX). destruct HX as (Hwf & _ & _ & _). pose proof (wf_bound _ _ Hwf) as Hb. f_equal. unfold dictSize.
    rewrite (wf_used0 _ _ Hwf), (wf_used1 _ _ Hwf). unfold ents in *. rewrite zlen_app in *. pose proof (zlen_nonneg (ents_ht (ht0 d))). pose proof (zlen_nonneg (ents_ht (ht1 d))).
    apply wrapu_small. unfold in_u, max_used in *. lia.
Qed.

(** ** Iteration *)

Definition ele_str (e : setele) : list Z := obj_string (ele_object e).
Definition entry_ele (e : dictEntry (list Z) enc_obj) : setele := EleObj (default (ObjInt 0) (de_val e)).

(** The iterator [si] of the object [s] has still to return the elements [l]. *)
Definition remains (s : setobj) (si : setTypeIterator) (l : list setele) : Prop :=
  match s, si with
  | SetInt i, SiInt ii => ∃ vs n, Intset.wf be i vs ∧ ii = Z.of_nat n ∧ (n ≤ length vs)%nat ∧ l = EleInt <$> drop n vs
  | SetHt d, SiHt it =>
      dict_wf hashF d ∧ it_safe it = false ∧ (started it = true → it_fingerprint it = dictFingerprint t0 t1 d) ∧
      ∃ le, to_come d it le ∧ Forall entry_ok le ∧ l = entry_ele <$> le
  | _, _ => False
  end.

Lemma init_remains s X : set_rel s X → ∃ l, remains s (setTypeInitIterator s) l ∧ Forall (λ e, obj_ok (ele_object e)) l ∧
  NoDup (ele_str <$> l) ∧ X = list_to_set (ele_str <$> l).
Proof using Type.
  destruct s as [s|d]; cbn [set_rel setTypeInitIterator remains].
  - intros (vs & Hwf & ->). exists (EleInt <$> vs). rewrite <- list_fmap_compose. split_and!; [|apply Forall_fmap, list.Forall_forall; by intros v Hv; eapply wf_ints| |done].
    + exists vs, 0%nat. split_and!; try done. lia.
    + apply NoDup_fmap_2_strong; [|by apply sorted_nodup; destruct Hwf as (_ & ? & _)]. intros v w Hv Hw. apply str_of_inj; by eapply wf_ints.
  - intros (Hwf & Hit & He & ->). exists (entry_ele <$> ents d).
    assert (ele_str <$> (entry_ele <$> ents d) = de_key <$> ents d) as ->.
    { rewrite <- list_fmap_compose. apply list_fmap_ext. intros j e Hj%list_elem_of_lookup_2. rewrite list.Forall_forall in He. destruct (He e Hj) as (o & E & _ & Ho).
      unfold ele_str, entry_ele, compose. by rewrite E. }
    split; [split_and!; try done; exists (ents d); split_and!; try done; by left|]. split; [|split; [apply Hwf|done]].
    apply Forall_fmap. eapply Forall_impl; [exact He|]. intros e (o & E & Ho & _). unfold compose, entry_ele. cbn. by rewrite E.
Qed.

Lemma next_dict (d : sdict) it le : dict_wf hashF d → it_safe it = false → (started it = true → it_fingerprint it = dictFingerprint t0 t1 d) → to_come d it le →
  ∃ it', dictNext t0 t1 d it = Some (d, it', head le) ∧ it_safe it' = false ∧ started it' = true ∧ it_fingerprint it' = dictFingerprint t0 t1 d ∧
    (∀ e l', le = e :: l' → to_come d it' l').
Proof using Type.
  intros Hwf Hs Hfp Hc. destruct (dictNext_spec hashF t0 t1 d it le Hwf Hc) as (d' & it' & Hn & [(S1 & S2 & S3) S4 S5 S6 S7] & Hcur).
  rewrite Hs in S4, S6, S7. rewrite andb_false_r in S6. rewrite andb_true_r in S7. assert (d' = d) as -> by by apply dict_eq.
  exists it'. split_and!; try done.
  - rewrite S7. destruct (started it); [by apply Hfp|reflexivity].
  - intros e l' E. by eapply current_to_come, Hcur.
Qed.
Lemma next_cons s si e l : remains s si (e :: l) → ∃ si', setTypeNext s si = Some (s, si', Some e) ∧ remains s si' l.
Proof using Type.
  destruct s as [s|d], si as [ii|it]; cbn [remains]; try done.
  - intros (vs & n & Hwf & -> & Hn & E). destruct (drop n vs) as [|v vs'] eqn:Ed; [done|]. injection E as -> ->.
    assert (vs !! n = Some v) as Hv by (rewrite <- (Nat.add_0_r n), <- lookup_drop, Ed; done). pose proof (lookup_lt_Some _ _ _ Hv).
    rewrite (next_int s vs n Hwf), Hv by lia. eexists. split; [done|]. exists vs, (S n). split_and!; try done.
    rewrite (drop_S vs v n Hv) in Ed. by injection Ed as <-.
  - intros (Hwf & Hs & Hfp & le & Hc & He & E). destruct le as [|de le]; [done|]. injection E as -> ->. apply Forall_cons in He as [(o & Eo & Ho) He].
    destruct (next_dict d it (de :: le) Hwf Hs Hfp Hc) as (it' & Hn & Hs' & Hst & Hfp' & Hc'). cbn [SetType.setTypeNext]. rewrite Hn. cbn [mbind option_bind head].
    rewrite Eo. cbn [mbind option_bind]. exists (SiHt it'). split; [unfold entry_ele; by rewrite Eo|]. split_and!; try done. exists le. split_and!; try done. by eapply Hc'.
Qed.
Lemma next_nil s si : remains s si [] → ∃ si', setTypeNext s si = Some (s, si', None) ∧ setTypeReleaseIterator s si' = Some s.
Proof using Type.
  destruct s as [s|d], si as [ii|it]; cbn [remains]; try done.
  - intros (vs & n & Hwf & -> & Hn & E). symmetry in E. apply fmap_nil_inv in E. assert (length vs ≤ n)%nat as Hl by (apply (f_equal length) in E; rewrite length_drop in E; cbn in E; lia).
    rewrite (next_int s vs n Hwf), lookup_ge_None_2 by lia. by eexists.
  - intros (Hwf & Hs & Hfp & le & Hc & He & E). symmetry in E. apply fmap_nil_inv in E as ->.
    destruct (next_dict d it [] Hwf Hs Hfp Hc) as (it' & Hn & Hs' & Hst & Hfp' & Hc'). cbn [SetType.setTypeNext]. rewrite Hn. cbn [mbind option_bind head].
    exists (SiHt it'). split; [done|]. cbn [SetType.setTypeReleaseIterator]. unfold dictReleaseIterator. unfold started in Hst. rewrite negb_true_iff in Hst.
    rewrite Hst, Hs', Hfp', Z.eqb_refl. done.
Qed.

(** ** Encodings *)

(** An intset has at most [set_max_intset_entries] elements. *)
Definition enc_inv (s : setobj) (X : gset (list Z)) : Prop := match s with SetInt _ => Z.of_nat (base.size X) ≤ max_entries | SetHt _ => True end.

Lemma convert_ht s s' : setTypeConvert s = Some s' → ∃ d, s' = SetHt d.
Proof using Type.
  destruct s as [i|d]; [|done]. unfold SetType.setTypeConvert. destruct (intsetLen be i) as [n|]; [|done]. cbn [mbind option_bind].
  destruct (dictExpand _ _) as [[d1 st]|]; [|done]. cbn [mbind option_bind].
  destruct (convert_loop be can_resize hashF cmp t0 t1 (S (Z.to_nat n)) i (setTypeInitIterator (SetInt i)) d1) as [d2|]; [|done]. intros [= <-]. by exists d2.
Qed.
Lemma setTypeAdd_enc s X o s' b : set_rel s X → enc_inv s X → obj_ok o → small X → setTypeAdd s o = Some (s', b) → enc_inv s' ({[obj_string o]} ∪ X).
Proof using DictTypeLaws0.
  intros HX Henc Ho Hsz Hadd. destruct (setTypeAdd_spec s X o HX Ho Hsz) as (s1 & E & HX'). rewrite E in Hadd. injection Hadd as <- _.
  destruct s1 as [i'|]; [|done]. cbn [enc_inv]. destruct s as [i|d]; cbn [SetType.setTypeAdd] in E.
  - destruct (isObjectRepresentableAsLongLong o) as [v|] eqn:Er.
    + destruct (intsetAdd be junk i v) as [[i1 [|]]|]; [| |done]; cbn [mbind option_bind] in E.
      * destruct (intsetLen be i1) as [len|] eqn:El; [|done]. cbn [mbind option_bind] in E. destruct (Z.ltb_spec max_entries len) as [Hlt|Hge].
        -- destruct (setTypeConvert (SetInt i1)) as [s2|] eqn:Ec; [|done]. apply convert_ht in Ec as [d ->]. done.
        -- cbn in E. injection E as -> _. pose proof (setTypeSize_spec (SetInt i') _ HX') as Hsize. cbn in Hsize. rewrite El in Hsize. injection Hsize as <-. lia.
      * injection E as -> Eb. symmetry in Eb. apply bool_decide_eq_false, dec_stable in Eb. assert ({[obj_string o]} ∪ X = X) as -> by set_solver. done.
    + destruct (setTypeConvert (SetInt i)) as [[?|d]|]; [done| |done]. cbn [mbind option_bind] in E. destruct (set_dictAdd _ _ _ _ _) as [[d1 st]|]; [|done]. cbn in E.
      by destruct (decide _).
  - destruct (set_dictAdd _ _ _ _ _) as [[d1 st]|]; done.
Qed.
Lemma setTypeRemove_enc s X o s' b : enc_inv s X → setTypeRemove s o = Some (s', b) → enc_inv s' (X ∖ {[obj_string o]}).
Proof using Type.
  intros Henc E. destruct s' as [i'|]; [|done]. cbn [enc_inv]. destruct s as [i|d]; cbn [SetType.setTypeRemove] in E.
  - cbn in Henc. assert (base.size (X ∖ {[obj_string o]}) ≤ base.size X)%nat by (apply subseteq_size, subseteq_difference_l; done). lia.
  - destruct (dictDelete _ _ _ _) as [[[d1 st] fr]|]; [|done]. cbn in E. destruct (decide _); [|done].
    destruct (htNeedsResize d1); [destruct (dictResize _ _) as [[d2 st2]|]|]; done.
Qed.
Lemma setTypeIsMember_enc s X o s' b : enc_inv s X → setTypeIsMember s o = Some (s', b) → enc_inv s' X.
Proof using Type.
  intros Henc E. destruct s' as [i'|]; [|done]. destruct s as [i|d]; [done|]. cbn in E. by destruct (dictFind _ _ _ _) as [[d1 r]|].
Qed.

End spec.

(** ** Sequences of operations *)

Inductive sop := SAdd (o : enc_obj) | SRemove (o : enc_obj) | SIsMember (o : enc_obj) | SSize.
Inductive sres := SBool (b : bool) | SNum (n : Z).

(** The specification: a set of strings *)
Definition spec_sop (X : gset (list Z)) (op : sop) : gset (list Z) * sres :=
  match op with
  | SAdd o => ({[obj_string o]} ∪ X, SBool (bool_decide (obj_string o ∉ X)))
  | SRemove o => (X ∖ {[obj_string o]}, SBool (bool_decide (obj_string o ∈ X)))
  | SIsMember o => (X, SBool (bool_decide (obj_string o ∈ X)))
  | SSize => (X, SNum (Z.of_nat (base.size X)))
  end.
Fixpoint spec_sops (X : gset (list Z)) (ops : list sop) : gset (list Z) * list sres :=
  match ops with
  | [] => (X, [])
  | op :: ops => let '(X, r) := spec_sop X op in let '(X, rs) := spec_sops X ops in (X, r :: rs)
  end.
Definition sop_ok (op : sop) : Prop := match op with SAdd o | SRemove o | SIsMember o => obj_ok o | SSize => True end.
#[global] Instance sop_ok_dec op : Decision (sop_ok op).
Proof. destruct op; cbn; apply _. Defined.

Section theorems.
Context (be : host) (junk : nat → Z).
Context (can_resize : bool) (hashF : list Z → Z) (cmp : list Z → list Z → bool) `{!DictTypeLaws hashF cmp id}.
Context (max_entries t0 t1 : Z).

Definition run_sop (s : setobj) (op : sop) : option (setobj * sres) :=
  match op with
  | SAdd o => '(s, b) ← setTypeAdd be junk can_resize hashF cmp max_entries t0 t1 s o; Some (s, SBool b)
  | SRemove o => '(s, b) ← setTypeRemove be junk can_resize hashF cmp s o; Some (s, SBool b)
  | SIsMember o => '(s, b) ← setTypeIsMember be hashF cmp s o; Some (s, SBool b)
  | SSize => n ← setTypeSize be s; Some (s, SNum n)
  end.
Fixpoint run_sops (s : setobj) (ops : list sop) : option (setobj * list sres) :=
  match ops with
  | [] => Some (s, [])
  | op :: ops => '(s, r) ← run_sop s op; '(s, rs) ← run_sops s ops; Some (s, r :: rs)
  end.

Lemma run_sop_spec s X op : set_rel be hashF s X → enc_inv max_entries s X → sop_ok op → small X →
  ∃ s' r, run_sop s op = Some (s', r) ∧ set_rel be hashF s' (spec_sop X op).1 ∧ enc_inv max_entries s' (spec_sop X op).1 ∧ r = (spec_sop X op).2 ∧
    Z.of_nat (base.size (spec_sop X op).1) ≤ Z.of_nat (base.size X) + 1.
Proof using DictTypeLaws0.
  intros HX Henc Hok Hsz. destruct op as [o|o|o|]; cbn [run_sop spec_sop fst snd].
  - destruct (setTypeAdd_spec be can_resize hashF cmp t0 t1 junk max_entries s X o HX Hok Hsz) as (s' & E & HX'). rewrite E. cbn [mbind option_bind].
    eexists _, _. split; [done|]. split_and!; [done|by eapply (setTypeAdd_enc be can_resize hashF cmp t0 t1 junk)|done|apply add_size].
  - destruct (setTypeRemove_spec be can_resize hashF cmp junk s X o HX Hok Hsz) as (s' & E & HX'). rewrite E. cbn [mbind option_bind].
    eexists _, _. split; [done|]. split_and!; [done|by eapply (setTypeRemove_enc be can_resize hashF cmp junk)|done|].
    assert (base.size (X ∖ {[obj_string o]}) ≤ base.size X)%nat by (apply subseteq_size, subseteq_difference_l; done). lia.
  - destruct (setTypeIsMember_spec be hashF cmp s X o HX Hok) as (s' & E & HX'). rewrite E. cbn [mbind option_bind].
    eexists _, _. split; [done|]. split_and!; [done|by eapply (setTypeIsMember_enc be hashF cmp)|done|lia].
  - rewrite (setTypeSize_spec be hashF s X HX). cbn [mbind option_bind]. eexists _, _. split; [done|]. split_and!; try done. lia.
Qed.
Lemma run_sops_spec ops : ∀ s X, set_rel be hashF s X → enc_inv max_entries s X → Forall sop_ok ops → Z.of_nat (base.size X) + zlen ops + 1 < 2 ^ 29 →
  ∃ s' rs, run_sops s ops = Some (s', rs) ∧ set_rel be hashF s' (spec_sops X ops).1 ∧ enc_inv max_entries s' (spec_sops X ops).1 ∧ rs = (spec_sops X ops).2.
Proof using DictTypeLaws0.
  induction ops as [|op ops IH]; intros s X HX Henc Hok Hsz; cbn [run_sops spec_sops]; [by eexists _, _|].
  apply Forall_cons in Hok as [Ho Hok]. unfold zlen in *. cbn [length] in Hsz.
  destruct (run_sop_spec s X op HX Henc Ho) as (s1 & r & -> & HX1 & Henc1 & -> & Hs1); [unfold small; lia|]. cbn [mbind option_bind].
  destruct (spec_sop X op) as [X1 r]. cbn [fst snd] in *. destruct (IH s1 X1 HX1 Henc1 Hok ltac:(lia)) as (s2 & rs & -> & HX2 & Henc2 & ->). cbn [mbind option_bind].
  destruct (spec_sops X1 ops) as [X2 rs]. by eexists _, _.
Qed.

(** C20. Set objects implement sets of strings: every sequence of additions,
    removals, membership tests and counts, with string objects in either encoding,
    on a new set object returns what it returns on a finite set of strings, and
    leaves an object that holds exactly the strings of that set.  The object is an
    intset only as long as it has no more than [set_max_intset_entries] elements,
    all of them integers; the change to a hash table cannot be observed. *)
Theorem set_refines_strings value ops :
  0 ≤ max_entries → Forall sop_ok ops → zlen ops + 1 < 2 ^ 29 →
  ∃ s0 s rs, setTypeCreate be value = Some s0 ∧ run_sops s0 ops = Some (s, rs) ∧
    set_rel be hashF s (spec_sops ∅ ops).1 ∧ enc_inv max_entries s (spec_sops ∅ ops).1 ∧ rs = (spec_sops ∅ ops).2.
Proof using DictTypeLaws0.
  intros Hmax Hok Hsz. destruct (setTypeCreate_spec be hashF value) as (s0 & E & H0).
  destruct (run_sops_spec ops s0 ∅ H0) as (s & rs & Hr & HX & Henc & Hrs); [destruct s0; cbn; rewrite ?size_empty; lia || done|done|rewrite size_empty; lia|].
  by exists s0, s, rs.
Qed.
End theorems.

(** The keys of [setDictType] *)
#[global] Instance set_keys be seed : in_u 32 seed → DictTypeLaws (dictSdsHash be seed) dictSdsKeyCompare id := sds_keys be seed.

Definition demo_sops : list sop :=
  [SAdd (ObjInt 7); SAdd (ObjStr (str "70000")); SAdd (ObjStr (str "7")); SIsMember (ObjInt 70000); SAdd (ObjInt (-3)); SSize; SAdd (ObjStr (str "x"));
   SRemove (ObjStr (str "-3")); SIsMember (ObjStr (str "07")); SAdd (ObjStr (str "07")); SSize].
Lemma set_refines_strings_witness : ∃ s0 s rs, setTypeCreate false (ObjInt 7) = Some s0 ∧
  run_sops false (λ _, 0) true (dictSdsHash false 5381) dictSdsKeyCompare 2 11 22 s0 demo_sops = Some (s, rs) ∧
  set_rel false (dictSdsHash false 5381) s (spec_sops ∅ demo_sops).1 ∧ enc_inv 2 s (spec_sops ∅ demo_sops).1 ∧ rs = (spec_sops ∅ demo_sops).2.
Proof.
  refine (set_refines_strings false (λ _, 0) true (dictSdsHash false 5381) dictSdsKeyCompare (DictTypeLaws0 := set_keys false 5381 _) 2 11 22 (ObjInt 7) demo_sops _ _ _);
    [split; vm_compute; discriminate || reflexivity|lia|by_decision|vm_compute; reflexivity].
Defined.
Example demo_sops_results :
  (spec_sops ∅ demo_sops).2 = [SBool true; SBool true; SBool false; SBool true; SBool true; SNum 3; SBool true; SBool true; SBool false; SBool true; SNum 4].
Proof. vm_compute. reflexivity. Qed.
