(* ===== verification/SetOps.v ===== *)
(** * SetOps: intersection, union and difference of sets
    (redis-3.0.0/src/t_set.c)

    The algorithms of SINTER, SUNION, SDIFF and their STORE variants, from the array
    [sets] of set objects on.  The objects are in a store: the same object may occur
    several times in the array, and the lookups in a hash table may change it.
    [qsort] is a parameter. *)

From stdpp Require Import gmap.
From S2P Require Import Prelude Endian NumConv Objects Intset Dict DictFacts DictHash DictIter SetType SetSpec.

Inductive set_op := REDIS_OP_UNION | REDIS_OP_DIFF.

Section setops.
Context (be : host) (junk : nat → Z).
Context (can_resize : bool) (hashF : list Z → Z) (cmp : list Z → list Z → bool).
Context (max_entries : Z) (t0 t1 : Z).
Context (qsort : ∀ A : Type, (A → A → Z) → list A → list A).

Local Notation heap := (gmap nat setobj).
Local Notation setTypeAdd := (setTypeAdd be junk can_resize hashF cmp max_entries t0 t1).
Local Notation setTypeRemove := (setTypeRemove be junk can_resize hashF cmp).
Local Notation setTypeIsMember := (setTypeIsMember be hashF cmp).
Local Notation setTypeNext := (setTypeNext be t0 t1).
Local Notation setTypeNextObject := (setTypeNextObject be t0 t1).
Local Notation setTypeReleaseIterator := (setTypeReleaseIterator t0 t1).

(** ** Sorting *)

Definition size_of (h : heap) (p : option nat) : Z :=
  match p with Some j => match h !! j ≫= setTypeSize be with Some n => n | None => 0 end | None => 0 end.
Definition qsortCompareSetsByCardinality (h : heap) (s1 s2 : nat) : Z := i32 (u64 (size_of h (Some s1) - size_of h (Some s2))).
Definition qsortCompareSetsByRevCardinality (h : heap) (o1 o2 : option nat) : Z := i32 (u64 (size_of h o2 - size_of h o1)).

(** ** Elements of the store *)

Definition is_member (h : heap) (j : nat) (o : enc_obj) : option (heap * bool) :=
  s ← h !! j; '(s, b) ← setTypeIsMember s o; Some (<[j := s]> h, b).
Definition next (h : heap) (j : nat) (si : setTypeIterator) : option (heap * setTypeIterator * option setele) :=
  s ← h !! j; '(s, si, e) ← setTypeNext s si; Some (<[j := s]> h, si, e).
Definition release (h : heap) (j : nat) (si : setTypeIterator) : option heap :=
  s ← h !! j; s ← setTypeReleaseIterator s si; Some (<[j := s]> h).

(** ** Intersection *)

(** [false]: [break] *)
Definition inter_test (h : heap) (j : nat) (e : setele) : option (heap * bool) :=
  s ← h !! j;
  match e, s with
  | EleInt intobj, SetInt i => b ← intsetFind be i intobj; Some (h, b)
  | EleInt intobj, SetHt _ => is_member h j (createStringObjectFromLongLong intobj)
  | EleObj (ObjInt v), SetInt i => b ← intsetFind be i v; if negb b then Some (h, false) else is_member h j (ObjInt v)
  | EleObj o, _ => is_member h j o
  end.
Fixpoint inter_all (h : heap) (first : nat) (js : list nat) (e : setele) : option (heap * bool) :=
  match js with
  | [] => Some (h, true)
  | j :: js =>
      if decide (j = first) then inter_all h first js e else
      '(h, b) ← inter_test h j e;
      if (b : bool) then inter_all h first js e else Some (h, false)
  end.
(** [dst]: the object [dstset] if the result is stored; otherwise the elements are
    replies. *)
Fixpoint inter_loop (fuel : nat) (h : heap) (first : nat) (js : list nat) (si : setTypeIterator) (dst : option setobj) (replies : list (list Z))
    : option (heap * option setobj * list (list Z)) :=
  match fuel with
  | O => None
  | S fuel =>
      '(h, si, e) ← next h first si;
      match e with
      | None => h ← release h first si; Some (h, dst, replies)
      | Some e =>
          '(h, b) ← inter_all h first js e;
          if negb b then inter_loop fuel h first js si dst replies else
          match dst with
          | None => inter_loop fuel h first js si dst (replies ++ [obj_string (ele_object e)])
          | Some d => '(d, _) ← setTypeAdd d (ele_object e); inter_loop fuel h first js si (Some d) replies
          end
      end
  end.
(** [fuel]: the calls of [setTypeNext]; one for each element and one for the end *)
Definition sinter (fuel : nat) (store : bool) (h : heap) (sets : list nat) : option (heap * option setobj * list (list Z)) :=
  match qsort nat (qsortCompareSetsByCardinality h) sets with
  | [] => None
  | first :: js =>
      dst ← (if store then Some <$> createIntsetObject be else Some None);
      s ← h !! first;
      inter_loop fuel h first js (setTypeInitIterator s) dst []
  end.

(** ** Union and difference *)

(** [diff_algo], and the sets in the order in which they are used *)
Definition choose_diff (h : heap) (sets : list (option nat)) : bool * list (option nat) :=
  match sets with
  | Some s0 :: rest =>
      let work := foldl (λ w p, match p with
                                | None => w
                                | Some _ => (i64 (w.1 + size_of h (Some s0)), i64 (w.2 + size_of h p))
                                end) (0, 0) sets in
      if Z.quot work.1 2 <=? work.2 then (true, Some s0 :: qsort (option nat) (qsortCompareSetsByRevCardinality h) rest) else (false, sets)
  | _ => (true, sets)
  end.

(** The elements of a set are added to [dst] or removed from it. *)
Fixpoint transfer_loop (fuel : nat) (add : bool) (h : heap) (j : nat) (si : setTypeIterator) (dst : setobj) (cardinality : Z)
    : option (heap * setobj * Z) :=
  match fuel with
  | O => None
  | S fuel =>
      '(h, si, e) ← next h j si;
      match e with
      | None => h ← release h j si; Some (h, dst, cardinality)
      | Some e =>
          '(dst, b) ← (if add then setTypeAdd dst (ele_object e) else setTypeRemove dst (ele_object e));
          transfer_loop fuel add h j si dst (if (b : bool) then i32 (if add then cardinality + 1 else cardinality - 1) else cardinality)
      end
  end.
Definition transfer (fuel : nat) (add : bool) (h : heap) (j : nat) (dst : setobj) (cardinality : Z) : option (heap * setobj * Z) :=
  s ← h !! j; transfer_loop fuel add h j (setTypeInitIterator s) dst cardinality.

Fixpoint union_loop (fuel : nat) (h : heap) (sets : list (option nat)) (dst : setobj) (cardinality : Z) : option (heap * setobj * Z) :=
  match sets with
  | [] => Some (h, dst, cardinality)
  | None :: sets => union_loop fuel h sets dst cardinality
  | Some j :: sets => '(h, dst, cardinality) ← transfer fuel true h j dst cardinality; union_loop fuel h sets dst cardinality
  end.

(** [true]: no other set has the element *)
Fixpoint diff_test (h : heap) (first : nat) (sets : list (option nat)) (o : enc_obj) : option (heap * bool) :=
  match sets with
  | [] => Some (h, true)
  | None :: sets => diff_test h first sets o
  | Some j :: sets =>
      if decide (j = first) then Some (h, false) else
      '(h, b) ← is_member h j o;
      if (b : bool) then Some (h, false) else diff_test h first sets o
  end.
Fixpoint diff1_loop (fuel : nat) (h : heap) (first : nat) (sets : list (option nat)) (si : setTypeIterator) (dst : setobj) (cardinality : Z)
    : option (heap * setobj * Z) :=
  match fuel with
  | O => None
  | S fuel =>
      '(h, si, e) ← next h first si;
      match e with
      | None => h ← release h first si; Some (h, dst, cardinality)
      | Some e =>
          '(h, b) ← diff_test h first sets (ele_object e);
          if (b : bool) then '(dst, _) ← setTypeAdd dst (ele_object e); diff1_loop fuel h first sets si dst (i32 (cardinality + 1))
          else diff1_loop fuel h first sets si dst cardinality
      end
  end.
(** [add]: the first set *)
Fixpoint diff2_loop (fuel : nat) (add : bool) (h : heap) (sets : list (option nat)) (dst : setobj) (cardinality : Z) : option (heap * setobj * Z) :=
  match sets with
  | [] => Some (h, dst, cardinality)
  | None :: sets => diff2_loop fuel false h sets dst cardinality
  | Some j :: sets =>
      '(h, dst, cardinality) ← transfer fuel add h j dst cardinality;
      if cardinality =? 0 then Some (h, dst, cardinality) else diff2_loop fuel false h sets dst cardinality
  end.
(** The resulting set and its cardinality *)
Definition sunionDiff (fuel : nat) (op : set_op) (h : heap) (sets : list (option nat)) : option (heap * setobj * Z) :=
  dst ← createIntsetObject be;
  match op with
  | REDIS_OP_UNION => union_loop fuel h sets dst 0
  | REDIS_OP_DIFF =>
      match choose_diff h sets with
      | (_, None :: _) | (_, []) => Some (h, dst, 0)
      | (true, Some first :: rest) => s ← h !! first; diff1_loop fuel h first rest (setTypeInitIterator s) dst 0
      | (false, sets) => diff2_loop fuel true h sets dst 0
      end
  end.
(** The replies with the elements of the result, if it is not stored *)
Fixpoint reply_loop (fuel : nat) (dst : setobj) (si : setTypeIterator) : option (list (list Z)) :=
  match fuel with
  | O => None
  | S fuel =>
      '(dst, si, o) ← setTypeNextObject dst si;
      match o with
      | None => dst ← setTypeReleaseIterator dst si; Some []
      | Some o => l ← reply_loop fuel dst si; Some (obj_string o :: l)
      end
  end.

End setops.

(** ** Specifications *)

Section spec.
Context (be : host).
Context (can_resize : bool) (hashF : list Z → Z) (cmp : list Z → list Z → bool) `{!DictTypeLaws hashF cmp id}.
Context (t0 t1 : Z).

Local Notation heap := (gmap nat setobj).
Local Notation set_rel := (set_rel be hashF).
Local Notation is_member := (is_member be hashF cmp).
Local Notation next := (next be t0 t1).
Local Notation release := (release t0 t1).

(** The sets of the objects of the store *)
Definition hrel (h : heap) (H : gmap nat (gset (list Z))) : Prop := ∀ j X, H !! j = Some X → ∃ s, h !! j = Some s ∧ set_rel s X.
(** The iterator of the object [j] has still to return [l]. *)
Definition iter (h : heap) (j : nat) (si : setTypeIterator) (l : list setele) : Prop := ∃ s, h !! j = Some s ∧ remains be hashF t0 t1 s si l.

Lemma hrel_insert h H j X s : hrel h H → H !! j = Some X → set_rel s X → hrel (<[j := s]> h) H.
Proof.
  intros Hh Hj Hs i Y Hi. destruct (decide (i = j)) as [-> |Hne]; [|rewrite lookup_insert_ne by done; by apply Hh].
  exists s. split; [apply lookup_insert_eq|]. by simplify_eq.
Qed.
Lemma is_member_spec h H j X o : hrel h H → H !! j = Some X → obj_ok o →
  ∃ h', is_member h j o = Some (h', bool_decide (obj_string o ∈ X)) ∧ hrel h' H ∧ ∀ i, i ≠ j → h' !! i = h !! i.
Proof using DictTypeLaws0.
  intros Hh Hj Ho. destruct (Hh j X Hj) as (s & Es & Hs). destruct (setTypeIsMember_spec be hashF cmp s X o Hs Ho) as (s' & Em & Hs').
  unfold SetOps.is_member. rewrite Es. cbn [mbind option_bind]. rewrite Em. cbn [mbind option_bind]. eexists. split; [done|]. split; [by eapply hrel_insert|].
  intros i Hi. by apply lookup_insert_ne.
Qed.
Lemma next_elem h j si e l : iter h j si (e :: l) → ∃ si', next h j si = Some (h, si', Some e) ∧ iter h j si' l.
Proof using Type.
  intros (s & Es & Hr). destruct (next_cons be hashF t0 t1 s si e l Hr) as (si' & En & Hr'). exists si'. unfold SetOps.next. rewrite Es. cbn [mbind option_bind].
  rewrite En. cbn [mbind option_bind]. rewrite insert_id by done. split; [done|by exists s].
Qed.
Lemma next_end h j si : iter h j si [] → ∃ si', next h j si = Some (h, si', None) ∧ release h j si' = Some h.
Proof using Type.
  intros (s & Es & Hr). destruct (next_nil be hashF t0 t1 s si Hr) as (si' & En & Er). exists si'. unfold SetOps.next, SetOps.release. rewrite Es. cbn [mbind option_bind].
  rewrite En, Er. cbn [mbind option_bind]. by rewrite insert_id.
Qed.
Lemma iter_same h h' j si l : iter h j si l → h' !! j = h !! j → iter h' j si l.
Proof. intros (s & Es & Hr) E. exists s. by rewrite E. Qed.

(** ** Intersection *)

Definition in_sets (H : gmap nat (gset (list Z))) (js : list nat) (x : list Z) : Prop := Forall (λ j, x ∈ default ∅ (H !! j)) js.
#[local] Instance in_sets_dec H js x : Decision (in_sets H js x).
Proof. unfold in_sets. apply _. Defined.

Lemma inter_test_spec h H j X e : hrel h H → H !! j = Some X → obj_ok (ele_object e) →
  ∃ h', inter_test be hashF cmp h j e = Some (h', bool_decide (ele_str e ∈ X)) ∧ hrel h' H ∧ ∀ i, i ≠ j → h' !! i = h !! i.
Proof using DictTypeLaws0.
  intros Hh Hj Ho. destruct (Hh j X Hj) as (s & Es & Hs). pose proof (is_member_spec h H j X (ele_object e) Hh Hj Ho) as Hm.
  assert (∀ i v, s = SetInt i → in_s 64 v → intsetFind be i v = Some (bool_decide (str_of v ∈ X))) as Hfind.
  { intros i v -> Hv. destruct (setTypeIsMember_spec be hashF cmp (SetInt i) X (ObjInt v) Hs Hv) as (s' & Em & _).
    cbn [setTypeIsMember isObjectRepresentableAsLongLong mbind option_bind] in Em. destruct (intsetFind be i v) as [b|]; [|done].
    cbn [mbind option_bind] in Em. injection Em as _ Eb. f_equal. exact Eb. }
  unfold inter_test. rewrite Es. cbn [mbind option_bind]. destruct e as [v|[o|v]], s as [i|d]; try exact Hm.
  - rewrite (Hfind i v) by done. cbn [mbind option_bind]. exists h. by split_and!.
  - rewrite (Hfind i v) by done. cbn [mbind option_bind]. unfold ele_str in *. cbn [ele_object] in *. destruct (bool_decide (str_of v ∈ X)) eqn:E; cbn [negb]; [exact Hm|].
    exists h. split_and!; [|done..]. by rewrite <- E.
Qed.
Lemma inter_all_spec H first e js : Forall (λ j, is_Some (H !! j)) js → obj_ok (ele_object e) → ∀ h, hrel h H →
  ∃ h', inter_all be hashF cmp h first js e = Some (h', bool_decide (in_sets H (filter (λ j, j ≠ first) js) (ele_str e))) ∧ hrel h' H ∧ h' !! first = h !! first.
Proof using DictTypeLaws0.
  intros Hjs Ho. induction Hjs as [|j js [X HX] _ IH]; intros h Hh; cbn [inter_all].
  - exists h. split_and!; [|done..]. by rewrite bool_decide_true by constructor.
  - rewrite filter_cons. destruct (decide (j = first)) as [-> |Hne]; [rewrite decide_False by naive_solver; by apply IH|]. rewrite decide_True by done.
    destruct (inter_test_spec h H j X e Hh HX Ho) as (h1 & -> & Hh1 & Ho1). cbn [mbind option_bind].
    destruct (bool_decide (ele_str e ∈ X)) eqn:E.
    + apply bool_decide_eq_true in E. destruct (IH h1 Hh1) as (h2 & -> & Hh2 & Hf). exists h2. split_and!; [|done|by rewrite Hf, Ho1].
      do 2 f_equal. apply bool_decide_ext. unfold in_sets. rewrite Forall_cons, HX. cbn. naive_solver.
    + apply bool_decide_eq_false in E. exists h1. split_and!; [|done|by rewrite Ho1]. rewrite bool_decide_false; [done|]. unfold in_sets. rewrite Forall_cons, HX. cbn. naive_solver.
Qed.

Context (junk : nat → Z) (max_entries : Z).
Local Notation setTypeAdd := (setTypeAdd be junk can_resize hashF cmp max_entries t0 t1).
Local Notation setTypeRemove := (setTypeRemove be junk can_resize hashF cmp).

(** [fits X n]: elements can be added up to [n] elements more. *)
Definition fits (X : gset (list Z)) (n : nat) : Prop := Z.of_nat (base.size X) + Z.of_nat n + 1 < 2 ^ 29.

Local Notation inter_loop := (inter_loop be junk can_resize hashF cmp max_entries t0 t1).

Lemma inter_loop_reply H first js l : Forall (λ j, is_Some (H !! j)) js → Forall (λ e, obj_ok (ele_object e)) l → ∀ fuel h si r,
  hrel h H → iter h first si l → (length l < fuel)%nat →
  ∃ h', inter_loop fuel h first js si None r = Some (h', None, r ++ filter (in_sets H (filter (λ j, j ≠ first) js)) (ele_str <$> l)) ∧ hrel h' H.
Proof using DictTypeLaws0.
  intros Hjs Hl. induction Hl as [|e l He _ IH]; intros [|fuel] h si r Hh Hi Hf; cbn in Hf; try lia; cbn [SetOps.inter_loop].
  - destruct (next_end h first si Hi) as (si' & -> & Hr). cbn [mbind option_bind]. rewrite Hr. exists h. by rewrite app_nil_r.
  - destruct (next_elem h first si e l Hi) as (si' & -> & Hi'). cbn [mbind option_bind].
    destruct (inter_all_spec H first e js Hjs He h Hh) as (h1 & -> & Hh1 & E1). cbn [mbind option_bind].
    pose proof (iter_same _ _ _ _ _ Hi' E1) as Hi1. rewrite fmap_cons. case_bool_decide as Hin; cbn [negb].
    + change (obj_string (ele_object e)) with (ele_str e). destruct (IH fuel h1 si' (r ++ [ele_str e]) Hh1 Hi1) as (h2 & -> & Hh2); [lia|]. exists h2. by rewrite filter_cons_True, <- (assoc_L (++)).
    + destruct (IH fuel h1 si' r Hh1 Hi1) as (h2 & -> & Hh2); [lia|]. exists h2. by rewrite filter_cons_False.
Qed.
Lemma inter_loop_store H first js l : Forall (λ j, is_Some (H !! j)) js → Forall (λ e, obj_ok (ele_object e)) l → ∀ fuel h si d D,
  hrel h H → iter h first si l → (length l < fuel)%nat → set_rel d D → fits D (length l) →
  ∃ h' d', inter_loop fuel h first js si (Some d) [] = Some (h', Some d', []) ∧ hrel h' H ∧
    set_rel d' (D ∪ list_to_set (filter (in_sets H (filter (λ j, j ≠ first) js)) (ele_str <$> l))).
Proof using DictTypeLaws0.
  intros Hjs Hl. induction Hl as [|e l He _ IH]; intros [|fuel] h si d D Hh Hi Hf Hd Hfit; cbn in Hf; try lia; cbn [SetOps.inter_loop].
  - destruct (next_end h first si Hi) as (si' & -> & Hr). cbn [mbind option_bind]. rewrite Hr. exists h, d. split_and!; [done..|]. cbn. by rewrite (right_id_L ∅ (∪)).
  - destruct (next_elem h first si e l Hi) as (si' & -> & Hi'). cbn [mbind option_bind].
    destruct (inter_all_spec H first e js Hjs He h Hh) as (h1 & -> & Hh1 & E1). cbn [mbind option_bind].
    pose proof (iter_same _ _ _ _ _ Hi' E1) as Hi1. rewrite fmap_cons. unfold fits in *. cbn in Hfit. case_bool_decide as Hin; cbn [negb].
    + destruct (setTypeAdd_spec be can_resize hashF cmp t0 t1 junk max_entries d D (ele_object e) Hd He) as (d1 & -> & Hd1); [unfold small; lia|]. cbn [mbind option_bind].
      destruct (IH fuel h1 si' d1 _ Hh1 Hi1 ltac:(lia) Hd1) as (h2 & d2 & -> & Hh2 & Hd2); [pose proof (add_size D (obj_string (ele_object e))); lia|].
      exists h2, d2. split_and!; [done..|]. rewrite filter_cons_True, list_to_set_cons by done.
      replace (D ∪ ({[ele_str e]} ∪ list_to_set (filter (in_sets H (filter (λ j, j ≠ first) js)) (ele_str <$> l))))
        with ({[obj_string (ele_object e)]} ∪ D ∪ list_to_set (filter (in_sets H (filter (λ j, j ≠ first) js)) (ele_str <$> l))) by (unfold ele_str; set_solver). done.
    + destruct (IH fuel h1 si' d D Hh1 Hi1 ltac:(lia) Hd ltac:(lia)) as (h2 & d2 & -> & Hh2 & Hd2). exists h2, d2. by rewrite filter_cons_False.
Qed.

(** ** Union and difference *)

Definition val (H : gmap nat (gset (list Z))) (p : option nat) : gset (list Z) := default ∅ (p ≫= λ j, H !! j).
Definition valid (H : gmap nat (gset (list Z))) (p : option nat) : Prop := match p with Some j => is_Some (H !! j) | None => True end.
Local Notation transfer_loop := (transfer_loop be junk can_resize hashF cmp max_entries t0 t1).
Local Notation transfer := (transfer be junk can_resize hashF cmp max_entries t0 t1).
(** The set [D] without or with the elements of [l] *)
Definition moved (add : bool) (D X : gset (list Z)) : gset (list Z) := if add then X ∪ D else D ∖ X.

Lemma moved_size add D x n : fits D (S n) → fits (moved add D {[x]}) n.
Proof.
  unfold fits, moved. intros Hf. destruct add; [pose proof (add_size D x); lia|].
  assert (base.size (D ∖ {[x]}) ≤ base.size D)%nat by (apply subseteq_size; apply subseteq_difference_l; done). lia.
Qed.
Lemma transfer_loop_spec add H j l : Forall (λ e, obj_ok (ele_object e)) l → ∀ fuel h si d D,
  hrel h H → iter h j si l → (length l < fuel)%nat → set_rel d D → fits D (length l) →
  ∃ d', transfer_loop fuel add h j si d (Z.of_nat (base.size D)) = Some (h, d', Z.of_nat (base.size (moved add D (list_to_set (ele_str <$> l))))) ∧
    set_rel d' (moved add D (list_to_set (ele_str <$> l))).
Proof using DictTypeLaws0.
  intros Hl. induction Hl as [|e l He _ IH]; intros [|fuel] h si d D Hh Hi Hf Hd Hfit; cbn in Hf; try lia; cbn [SetOps.transfer_loop].
  - destruct (next_end h j si Hi) as (si' & -> & Hr). cbn [mbind option_bind]. rewrite Hr. exists d.
    assert (moved add D (list_to_set (ele_str <$> [])) = D) as -> by (destruct add; cbn; set_solver). done.
  - destruct (next_elem h j si e l Hi) as (si' & -> & Hi'). cbn [mbind option_bind].
    assert (∃ d1 b, (if add then setTypeAdd d (ele_object e) else setTypeRemove d (ele_object e)) = Some (d1, b) ∧ set_rel d1 (moved add D {[ele_str e]}) ∧
      (if (b : bool) then i32 (if add then Z.of_nat (base.size D) + 1 else Z.of_nat (base.size D) - 1) else Z.of_nat (base.size D)) = Z.of_nat (base.size (moved add D {[ele_str e]}))) as (d1 & b & -> & Hd1 & Hcard).
    { unfold fits in Hfit. cbn in Hfit. destruct add; cbn [moved].
      - destruct (setTypeAdd_spec be can_resize hashF cmp t0 t1 junk max_entries d D (ele_object e) Hd He) as (d1 & -> & Hd1); [unfold small; lia|]. exists d1. eexists.
        split; [done|]. split; [done|]. fold (ele_str e). case_bool_decide as Hn.
        + rewrite size_union, size_singleton by set_solver. rewrite wraps_small by (unfold in_s; lia). lia.
        + do 2 f_equal. set_solver.
      - destruct (setTypeRemove_spec be can_resize hashF cmp junk d D (ele_object e) Hd He) as (d1 & -> & Hd1); [unfold small; lia|]. exists d1. eexists.
        split; [done|]. split; [done|]. fold (ele_str e). case_bool_decide as Hn.
        + assert (base.size D = 1 + base.size (D ∖ {[ele_str e]}))%nat as ES.
          { rewrite <- (size_singleton (C := gset (list Z)) (ele_str e)), <- size_union by set_solver. f_equal. apply set_eq. intros y. destruct (decide (y = ele_str e)); set_solver. }
          rewrite wraps_small by (unfold in_s; lia). lia.
        + do 2 f_equal. set_solver. }
    cbn [mbind option_bind]. rewrite Hcard.
    destruct (IH fuel h si' d1 (moved add D {[ele_str e]}) Hh Hi' ltac:(lia) Hd1) as (d2 & -> & Hd2); [by apply moved_size|]. exists d2.
    assert (moved add (moved add D {[ele_str e]}) (list_to_set (ele_str <$> l)) = moved add D (list_to_set (ele_str <$> e :: l))) as E
      by (rewrite fmap_cons, list_to_set_cons; destruct add; cbn [moved]; set_solver).
    rewrite E in Hd2 |- *. done.
Qed.

Lemma hrel_iter h H j X : hrel h H → H !! j = Some X → ∃ s l, h !! j = Some s ∧ iter h j (setTypeInitIterator s) l ∧
  Forall (λ e, obj_ok (ele_object e)) l ∧ NoDup (ele_str <$> l) ∧ X = list_to_set (ele_str <$> l) ∧ length l = base.size X.
Proof using Type.
  intros Hh Hj. destruct (Hh j X Hj) as (s & Es & Hs). destruct (init_remains be hashF t0 t1 s X Hs) as (l & Hr & Hok & Hnd & ->).
  exists s, l. split_and!; try done; [by exists s|]. by rewrite size_list_to_set, length_fmap.
Qed.
Lemma transfer_spec add H j X fuel h d D : hrel h H → H !! j = Some X → (base.size X < fuel)%nat → set_rel d D → fits D (base.size X) →
  ∃ d', transfer fuel add h j d (Z.of_nat (base.size D)) = Some (h, d', Z.of_nat (base.size (moved add D X))) ∧ set_rel d' (moved add D X).
Proof using DictTypeLaws0.
  intros Hh Hj Hf Hd Hfit. destruct (hrel_iter h H j X Hh Hj) as (s & l & Es & Hi & Hok & _ & -> & Hl). unfold SetOps.transfer. rewrite Es. cbn [mbind option_bind].
  eapply transfer_loop_spec; try done; [lia|]. by rewrite Hl.
Qed.

(** The number of elements of several sets, and their union *)
Definition total (H : gmap nat (gset (list Z))) (sets : list (option nat)) : nat := foldr (λ p n, base.size (val H p) + n)%nat 0%nat sets.
Definition unions (H : gmap nat (gset (list Z))) (sets : list (option nat)) : gset (list Z) := ⋃ (val H <$> sets).

Lemma val_some H j X : H !! j = Some X → val H (Some j) = X.
Proof. intros E. unfold val. cbn. by rewrite E. Qed.
Lemma unions_some H j X sets : H !! j = Some X → unions H (Some j :: sets) = X ∪ unions H sets.
Proof. intros E. change (unions H (Some j :: sets)) with (val H (Some j) ∪ unions H sets). by rewrite (val_some H j X). Qed.
Lemma unions_none H sets : unions H (None :: sets) = unions H sets.
Proof. change (unions H (None :: sets)) with (∅ ∪ unions H sets). by rewrite (left_id_L ∅ (∪)). Qed.
Lemma total_some H j X sets : H !! j = Some X → total H (Some j :: sets) = (base.size X + total H sets)%nat.
Proof. intros E. change (total H (Some j :: sets)) with (base.size (val H (Some j)) + total H sets)%nat. by rewrite (val_some H j X). Qed.

Lemma fits_moved add D X n : fits D (base.size X + n) → fits (moved add D X) n.
Proof.
  unfold fits, moved. intros Hf. destruct add.
  - pose proof (size_union_alt X D). assert (base.size (D ∖ X) ≤ base.size D)%nat by (apply subseteq_size, subseteq_difference_l; done). lia.
  - assert (base.size (D ∖ X) ≤ base.size D)%nat by (apply subseteq_size, subseteq_difference_l; done). lia.
Qed.
Lemma fits_le D n m : fits D n → (m ≤ n)%nat → fits D m.
Proof. unfold fits. lia. Qed.

Lemma union_loop_spec H h sets : hrel h H → Forall (valid H) sets → ∀ fuel d D, (∀ j X, H !! j = Some X → base.size X < fuel)%nat →
  set_rel d D → fits D (total H sets) →
  ∃ d', union_loop be junk can_resize hashF cmp max_entries t0 t1 fuel h sets d (Z.of_nat (base.size D)) = Some (h, d', Z.of_nat (base.size (D ∪ unions H sets))) ∧
    set_rel d' (D ∪ unions H sets).
Proof using DictTypeLaws0.
  intros Hh Hv. induction Hv as [|p sets Hp _ IH]; intros fuel d D Hfuel Hd Hfit.
  - exists d. unfold unions. cbn. by rewrite (right_id_L ∅ (∪)).
  - destruct p as [j|]; cbn [union_loop].
    + destruct Hp as [X HX]. rewrite (total_some H j X) in Hfit by done. rewrite (unions_some H j X) by done.
      destruct (transfer_spec true H j X fuel h d D Hh HX) as (d1 & -> & Hd1); [by eapply Hfuel|done|eapply fits_le; [done|lia]|]. cbn [mbind option_bind].
      destruct (IH fuel d1 _ Hfuel Hd1) as (d2 & -> & Hd2); [by apply fits_moved|]. exists d2.
      assert (moved true D X ∪ unions H sets = D ∪ (X ∪ unions H sets)) as E by (cbn [moved]; set_solver).
      by rewrite E in Hd2 |- *.
    + rewrite unions_none. by apply IH.
Qed.

(** ** The first algorithm for the difference *)

Lemma diff_test_spec H first X0 o sets : H !! first = Some X0 → obj_ok o → obj_string o ∈ X0 → Forall (valid H) sets → ∀ h, hrel h H →
  ∃ h', diff_test be hashF cmp h first sets o = Some (h', bool_decide (obj_string o ∉ unions H sets)) ∧ hrel h' H ∧ h' !! first = h !! first.
Proof using DictTypeLaws0 junk.
  intros H0 Ho Hin Hv. induction Hv as [|p sets Hp _ IH]; intros h Hh.
  - exists h. split_and!; [|done..]. by rewrite bool_decide_true by (unfold unions; cbn; set_solver).
  - destruct p as [j|]; cbn [diff_test].
    + destruct Hp as [X HX]. rewrite (unions_some H j X) by done.
      destruct (decide (j = first)) as [-> |Hne].
      { exists h. split_and!; [|done..]. rewrite bool_decide_false; [done|]. simplify_eq. set_solver. }
      destruct (is_member_spec h H j X o Hh HX Ho) as (h1 & -> & Hh1 & Ho1). cbn [mbind option_bind]. destruct (bool_decide (obj_string o ∈ X)) eqn:E.
      * apply bool_decide_eq_true in E. exists h1. split_and!; [|done|by rewrite Ho1]. rewrite bool_decide_false; [done|]. set_solver.
      * apply bool_decide_eq_false in E. destruct (IH h1 Hh1) as (h2 & -> & Hh2 & E2). exists h2. split_and!; [|done|by rewrite E2, Ho1].
        do 2 f_equal. apply bool_decide_ext. set_solver.
    + rewrite unions_none. by apply IH.
Qed.
Lemma diff1_loop_spec H first X0 sets l : H !! first = Some X0 → Forall (valid H) sets → Forall (λ e, obj_ok (ele_object e)) l →
  NoDup (ele_str <$> l) → (∀ e, e ∈ l → ele_str e ∈ X0) → ∀ fuel h si d D,
  hrel h H → iter h first si l → (length l < fuel)%nat → set_rel d D → fits D (length l) → (∀ e, e ∈ l → ele_str e ∉ D) →
  ∃ h' d', diff1_loop be junk can_resize hashF cmp max_entries t0 t1 fuel h first sets si d (Z.of_nat (base.size D)) =
      Some (h', d', Z.of_nat (base.size (D ∪ (list_to_set (ele_str <$> l) ∖ unions H sets)))) ∧ hrel h' H ∧
    set_rel d' (D ∪ (list_to_set (ele_str <$> l) ∖ unions H sets)).
Proof using DictTypeLaws0.
  intros H0 Hv Hl. induction Hl as [|e l He _ IH]; intros Hnd HX [|fuel] h si d D Hh Hi Hf Hd Hfit Hnew; cbn in Hf; try lia; cbn [diff1_loop].
  - destruct (next_end h first si Hi) as (si' & -> & Hr). cbn [mbind option_bind]. rewrite Hr. exists h, d.
    assert (D ∪ (list_to_set (ele_str <$> []) ∖ unions H sets) = D) as -> by set_solver. done.
  - destruct (next_elem h first si e l Hi) as (si' & -> & Hi'). cbn [mbind option_bind]. rewrite fmap_cons in Hnd. apply NoDup_cons in Hnd as [Hne Hnd].
    assert (ele_str e ∈ X0) as Hx0 by (apply HX; by left).
    destruct (diff_test_spec H first X0 (ele_object e) sets H0 He Hx0 Hv h Hh) as (h1 & -> & Hh1 & E1). cbn [mbind option_bind]. fold (ele_str e).
    pose proof (iter_same _ _ _ _ _ Hi' E1) as Hi1. unfold fits in Hfit. cbn in Hfit. rewrite fmap_cons, list_to_set_cons.
    assert (∀ e', e' ∈ l → ele_str e' ∈ X0) as HX' by (intros e' ?; apply HX; by right).
    assert (∀ e', e' ∈ l → ele_str e' ∉ D) as Hnew' by (intros e' ?; apply Hnew; by right).
    case_bool_decide as Hin.
    + destruct (setTypeAdd_spec be can_resize hashF cmp t0 t1 junk max_entries d D (ele_object e) Hd He) as (d1 & -> & Hd1); [unfold small; lia|]. cbn [mbind option_bind].
      fold (ele_str e) in Hd1. assert (ele_str e ∉ D) as HnD by (apply Hnew; by left).
      assert (i32 (Z.of_nat (base.size D) + 1) = Z.of_nat (base.size ({[ele_str e]} ∪ D))) as ->
        by (rewrite size_union, size_singleton by set_solver; rewrite wraps_small by (unfold in_s; lia); lia).
      destruct (IH Hnd HX' fuel h1 si' d1 _ Hh1 Hi1 ltac:(lia) Hd1) as (h2 & d2 & -> & Hh2 & Hd2).
      { unfold fits. pose proof (add_size D (ele_str e)). lia. }
      { intros e' He'. rewrite not_elem_of_union, not_elem_of_singleton. split; [|by apply Hnew']. intros E. apply Hne. rewrite <- E. by apply list_elem_of_fmap_2. }
      exists h2, d2.
      assert ({[ele_str e]} ∪ D ∪ list_to_set (ele_str <$> l) ∖ unions H sets = D ∪ ({[ele_str e]} ∪ list_to_set (ele_str <$> l)) ∖ unions H sets) as E.
      { apply set_eq. intros y. destruct (decide (y = ele_str e)); set_solver. }
      by rewrite E in Hd2 |- *.
    + destruct (IH Hnd HX' fuel h1 si' d D Hh1 Hi1 ltac:(lia) Hd ltac:(unfold fits; lia) Hnew') as (h2 & d2 & -> & Hh2 & Hd2). exists h2, d2.
      assert (D ∪ list_to_set (ele_str <$> l) ∖ unions H sets = D ∪ ({[ele_str e]} ∪ list_to_set (ele_str <$> l)) ∖ unions H sets) as E.
      { apply set_eq. intros y. destruct (decide (y = ele_str e)); set_solver. }
      by rewrite E in Hd2 |- *.
Qed.

(** ** The second algorithm *)

Local Notation diff2_loop := (diff2_loop be junk can_resize hashF cmp max_entries t0 t1).

Lemma diff2_loop_spec H h sets : hrel h H → Forall (valid H) sets → ∀ fuel d D, (∀ j X, H !! j = Some X → base.size X < fuel)%nat →
  set_rel d D → fits D (total H sets) →
  ∃ d', diff2_loop fuel false h sets d (Z.of_nat (base.size D)) = Some (h, d', Z.of_nat (base.size (D ∖ unions H sets))) ∧ set_rel d' (D ∖ unions H sets).
Proof using DictTypeLaws0.
  intros Hh Hv. induction Hv as [|p sets Hp _ IH]; intros fuel d D Hfuel Hd Hfit.
  - exists d. unfold unions. cbn. by rewrite difference_empty_L.
  - destruct p as [j|]; cbn [SetOps.diff2_loop]; [|rewrite unions_none; by apply IH].
    destruct Hp as [X HX]. rewrite (total_some H j X) in Hfit by done. rewrite (unions_some H j X) by done.
    destruct (transfer_spec false H j X fuel h d D Hh HX) as (d1 & -> & Hd1); [by eapply Hfuel|done|eapply fits_le; [done|lia]|]. cbn [mbind option_bind moved] in *.
    assert (D ∖ (X ∪ unions H sets) = D ∖ X ∖ unions H sets) as -> by set_solver.
    destruct (Z.eqb_spec (Z.of_nat (base.size (D ∖ X))) 0) as [E0|_]; [|by apply IH; [..|apply (fits_moved false)]].
    assert (D ∖ X = ∅) as E by (apply leibniz_equiv, size_empty_inv; lia). rewrite E in Hd1 |- *. exists d1.
    assert (∅ ∖ unions H sets = ∅) as -> by set_solver. done.
Qed.

(** ** Results *)

Lemma elem_of_unions H sets x : x ∈ unions H sets ↔ ∃ p, p ∈ sets ∧ x ∈ val H p.
Proof using Type.
  unfold unions. rewrite elem_of_union_list. setoid_rewrite list_elem_of_fmap. naive_solver.
Qed.
Lemma unions_perm H sets sets' : sets ≡ₚ sets' → unions H sets = unions H sets'.
Proof using Type. intros HP. apply set_eq. intros x. rewrite !elem_of_unions. by setoid_rewrite HP. Qed.

Lemma total_perm H sets sets' : sets ≡ₚ sets' → total H sets = total H sets'.
Proof using Type. induction 1; unfold total in *; cbn [foldr] in *; lia. Qed.

Lemma reply_loop_spec s l : ∀ fuel si, remains be hashF t0 t1 s si l → (length l < fuel)%nat → reply_loop be t0 t1 fuel s si = Some (ele_str <$> l).
Proof using Type.
  induction l as [|e l IH]; intros [|fuel] si Hr Hf; cbn in Hf; try lia; cbn [reply_loop]; unfold setTypeNextObject.
  - destruct (next_nil be hashF t0 t1 s si Hr) as (si' & -> & Hrel). cbn [mbind option_bind option_map]. by rewrite Hrel.
  - destruct (next_cons be hashF t0 t1 s si e l Hr) as (si' & -> & Hr'). cbn [mbind option_bind option_map]. by rewrite (IH fuel si' Hr') by lia.
Qed.
Lemma reply_set s X fuel : set_rel s X → (base.size X < fuel)%nat →
  ∃ l, reply_loop be t0 t1 fuel s (setTypeInitIterator s) = Some l ∧ NoDup l ∧ X = list_to_set l.
Proof using Type.
  intros Hs Hf. destruct (init_remains be hashF t0 t1 s X Hs) as (l & Hr & _ & Hnd & ->). exists (ele_str <$> l). split_and!; try done.
  apply reply_loop_spec; [done|]. by rewrite size_list_to_set, length_fmap in Hf.
Qed.

Context (qsort : ∀ A : Type, (A → A → Z) → list A → list A) (Hqsort : ∀ A f l, qsort A f l ≡ₚ l).

Lemma sinter_spec H h sets store fuel : hrel h H → sets ≠ [] → Forall (λ j, is_Some (H !! j)) sets →
  (∀ j X, H !! j = Some X → base.size X < fuel)%nat → (∀ j X, H !! j = Some X → small X) →
  ∃ h' dst replies, sinter be junk can_resize hashF cmp max_entries t0 t1 qsort fuel store h sets = Some (h', dst, replies) ∧ hrel h' H ∧
    ∃ I : list (list Z), NoDup I ∧ (∀ x, x ∈ I ↔ ∀ j, j ∈ sets → x ∈ val H (Some j)) ∧
    if store then ∃ d, dst = Some d ∧ replies = [] ∧ set_rel d (list_to_set I) else dst = None ∧ replies = I.
Proof using DictTypeLaws0 Hqsort.
  intros Hh Hne Hs Hfuel Hsmall. unfold sinter. pose proof (Hqsort nat (qsortCompareSetsByCardinality be h) sets) as HP.
  destruct (qsort nat _ sets) as [|first js]; [by apply Permutation_nil_l in HP|]. rewrite <- HP in Hs. apply Forall_cons in Hs as [[X0 H0] Hjs].
  destruct (hrel_iter h H first X0 Hh H0) as (s & l & Es & Hi & Hok & Hnd & HX0 & Hl).
  assert (length l < fuel)%nat as Hf by (rewrite Hl; by eapply Hfuel).
  set (I := filter (in_sets H (filter (λ j, j ≠ first) js)) (ele_str <$> l)).
  assert (NoDup I) as HI by by apply NoDup_filter.
  assert (∀ x, x ∈ I ↔ ∀ j, j ∈ sets → x ∈ val H (Some j)) as HI'.
  { intros x. unfold I. rewrite list_elem_of_filter. unfold in_sets. rewrite list.Forall_forall. setoid_rewrite list_elem_of_filter.
    assert (x ∈ ele_str <$> l ↔ x ∈ val H (Some first)) as Hx by (rewrite (val_some H first X0 H0), HX0; by rewrite elem_of_list_to_set).
    rewrite Hx. setoid_rewrite <- HP. setoid_rewrite elem_of_cons. unfold val. cbn. split.
    - intros [H1 H2] j [-> |Hj]; [done|]. destruct (decide (j = first)) as [-> |]; [done|]. by apply H1.
    - intros H1. split; [|apply H1; by left]. intros j [_ Hj]. apply H1. by right. }
  destruct store; cbn [fmap option_fmap option_map mbind option_bind].
  - destruct (new_rep be) as (i & Ei & HR). unfold createIntsetObject. rewrite Ei. cbn [mbind option_bind fmap option_fmap option_map]. rewrite Es. cbn [mbind option_bind].
    assert (set_rel (SetInt i) ∅) as Hempty by (exists []; split; [split_and!; [by exists 2|constructor|done]|done]).
    destruct (inter_loop_store H first js l Hjs Hok fuel h _ (SetInt i) ∅ Hh Hi Hf Hempty) as (h' & d & -> & Hh' & Hd).
    { pose proof (Hsmall first X0 H0) as Hsm. unfold small in Hsm. unfold fits. rewrite size_empty, Hl. lia. }
    eexists h', _, _. split; [done|]. split; [done|]. exists I. split_and!; try done. exists d. split_and!; try done. by rewrite (left_id_L ∅ (∪)) in Hd.
  - rewrite Es. cbn [mbind option_bind]. destruct (inter_loop_reply H first js l Hjs Hok fuel h _ [] Hh Hi Hf) as (h' & -> & Hh').
    eexists h', _, _. split; [done|]. split; [done|]. exists I. by split_and!.
Qed.

Definition set_result (H : gmap nat (gset (list Z))) (op : set_op) (sets : list (option nat)) : gset (list Z) :=
  match op, sets with
  | REDIS_OP_UNION, _ => unions H sets
  | REDIS_OP_DIFF, p :: rest => val H p ∖ unions H rest
  | REDIS_OP_DIFF, [] => ∅
  end.

Lemma choose_diff_spec h s0 rest : ∃ b sets, choose_diff be qsort h (Some s0 :: rest) = (b, Some s0 :: sets) ∧ sets ≡ₚ rest.
Proof using Hqsort.
  cbn [choose_diff]. destruct (_ <=? _); [|by eexists _, _]. eexists _, _. split; [done|]. apply Hqsort.
Qed.
Lemma sunionDiff_spec H h op sets fuel : hrel h H → Forall (valid H) sets → (∀ j X, H !! j = Some X → base.size X < fuel)%nat → fits ∅ (total H sets) →
  ∃ h' d, sunionDiff be junk can_resize hashF cmp max_entries t0 t1 qsort fuel op h sets = Some (h', d, Z.of_nat (base.size (set_result H op sets))) ∧ hrel h' H ∧
    set_rel d (set_result H op sets).
Proof using DictTypeLaws0 Hqsort.
  intros Hh Hv Hfuel Hfit. unfold sunionDiff. destruct (new_rep be) as (i & Ei & HR). unfold createIntsetObject. rewrite Ei. cbn [mbind option_bind].
  assert (set_rel (SetInt i) ∅) as Hempty by (exists []; split; [split_and!; [by exists 2|constructor|done]|done]).
  change 0 with (Z.of_nat (base.size (∅ : gset (list Z)))). destruct op; cbn [set_result].
  - destruct (union_loop_spec H h sets Hh Hv fuel (SetInt i) ∅ Hfuel Hempty Hfit) as (d & -> & Hd). rewrite (left_id_L ∅ (∪)) in Hd |- *. by exists h, d.
  - destruct sets as [|[s0|] rest].
    + exists h, (SetInt i). by split_and!.
    + apply Forall_cons in Hv as [[X0 H0] Hv]. destruct (choose_diff_spec h s0 rest) as (b & sets & -> & HP). rewrite (val_some H s0 X0 H0), <- (unions_perm H _ _ HP).
      rewrite (total_some H s0 X0) in Hfit by done. rewrite <- (total_perm H _ _ HP) in Hfit. rewrite <- HP in Hv. clear HP. destruct b.
      * destruct (hrel_iter h H s0 X0 Hh H0) as (s & l & Es & Hi & Hok & Hnd & HX0 & Hl). rewrite Es. cbn [mbind option_bind].
        destruct (diff1_loop_spec H s0 X0 sets l H0 Hv Hok Hnd) with (fuel := fuel) (h := h) (si := setTypeInitIterator s) (d := SetInt i) (D := ∅ : gset (list Z)) as (h' & d & -> & Hh' & Hd); try done.
        -- intros e He. rewrite HX0, elem_of_list_to_set. by apply list_elem_of_fmap_2.
        -- rewrite Hl. by eapply Hfuel.
        -- rewrite Hl. eapply fits_le; [done|lia].
        -- rewrite <- HX0, (left_id_L ∅ (∪)) in Hd |- *. by exists h', d.
      * cbn [SetOps.diff2_loop]. destruct (transfer_spec true H s0 X0 fuel h (SetInt i) ∅ Hh H0) as (d1 & -> & Hd1); [by eapply Hfuel|done|eapply fits_le; [done|lia]|].
        cbn [mbind option_bind]. assert (moved true ∅ X0 = X0) as E by (cbn [moved]; apply (right_id_L ∅ (∪))). rewrite E in Hd1 |- *.
        destruct (Z.eqb_spec (Z.of_nat (base.size X0)) 0) as [E0|_].
        -- assert (X0 = ∅) as -> by (apply leibniz_equiv, size_empty_inv; lia). assert (∅ ∖ unions H sets = ∅) as -> by set_solver. by exists h, d1.
        -- destruct (diff2_loop_spec H h sets Hh Hv fuel d1 X0 Hfuel Hd1) as (d2 & -> & Hd2); [|by exists h, d2].
           pose proof (fits_moved true ∅ X0 (total H sets) Hfit) as Hfm. by rewrite E in Hfm.
    + exists h, (SetInt i). cbn [choose_diff]. assert (val H None ∖ unions H rest = ∅) as -> by (unfold val; cbn; set_solver). done.
Qed.

End spec.

(** ** Theorems *)

Section theorems.
Context (be : host) (junk : nat → Z).
Context (can_resize : bool) (hashF : list Z → Z) (cmp : list Z → list Z → bool) `{!DictTypeLaws hashF cmp id}.
Context (max_entries t0 t1 : Z).
(** The documented behaviour of [qsort] that is used: it permutes its array. *)
Context (qsort : ∀ A : Type, (A → A → Z) → list A → list A) (Hqsort : ∀ A f l, qsort A f l ≡ₚ l).

(** SINTER and SINTERSTORE compute the intersection: on any number of sets in
    either encoding, in whatever order [qsort] leaves them, with repetitions of the
    same object, the loop terminates with exactly the strings that are in all the
    sets, each once, as replies or as a well-formed set object; the sets
    themselves keep their elements. *)
Theorem sinter_correct H h sets store fuel :
  hrel be hashF h H → sets ≠ [] → Forall (λ j, is_Some (H !! j)) sets →
  (∀ j X, H !! j = Some X → base.size X < fuel)%nat → (∀ j X, H !! j = Some X → small X) →
  ∃ h' dst replies, sinter be junk can_resize hashF cmp max_entries t0 t1 qsort fuel store h sets = Some (h', dst, replies) ∧ hrel be hashF h' H ∧
    ∃ I : list (list Z), NoDup I ∧ (∀ x, x ∈ I ↔ ∀ j, j ∈ sets → x ∈ val H (Some j)) ∧
    if store then ∃ d, dst = Some d ∧ replies = [] ∧ set_rel be hashF d (list_to_set I) else dst = None ∧ replies = I.
Proof using DictTypeLaws0 Hqsort. apply (sinter_spec be can_resize hashF cmp t0 t1 junk max_entries qsort Hqsort). Qed.

(** C21. SUNION, SDIFF and their STORE variants: the union of the sets, or the
    elements of the first set that are in none of the others, whichever of the two
    algorithms for differences is chosen; keys that do not exist count as empty sets,
    and the same set may occur several times.  The cardinality that is replied is
    that of the result, and the replies list its elements, each once. *)
Theorem sunionDiff_correct H h op sets fuel fuel' :
  hrel be hashF h H → Forall (valid H) sets → (∀ j X, H !! j = Some X → base.size X < fuel)%nat → fits ∅ (total H sets) →
  (base.size (set_result H op sets) < fuel')%nat →
  ∃ h' d replies, sunionDiff be junk can_resize hashF cmp max_entries t0 t1 qsort fuel op h sets = Some (h', d, zlen replies) ∧ hrel be hashF h' H ∧
    set_rel be hashF d (set_result H op sets) ∧
    reply_loop be t0 t1 fuel' d (setTypeInitIterator d) = Some replies ∧ NoDup replies ∧ list_to_set replies = set_result H op sets.
Proof using DictTypeLaws0 Hqsort.
  intros Hh Hv Hf Hfit Hf'. destruct (sunionDiff_spec be can_resize hashF cmp t0 t1 junk max_entries qsort Hqsort H h op sets fuel Hh Hv Hf Hfit) as (h' & d & E & Hh' & Hd).
  destruct (reply_set be hashF t0 t1 d _ fuel' Hd Hf') as (l & El & Hnd & Hl). exists h', d, l. split_and!; try done. rewrite E. do 2 f_equal. rewrite Hl, size_list_to_set by done. done.
Qed.
End theorems.

(** ** Executions *)

Local Notation dhash := (dictSdsHash false 5381).
Lemma dhash_seed : in_u 32 5381.
Proof. split; vm_compute; discriminate || reflexivity. Qed.
#[local] Instance dhash_keys : DictTypeLaws dhash dictSdsKeyCompare id := set_keys false 5381 dhash_seed.

(** A set object with the strings [l] *)
Definition set_of (l : list string) : setobj :=
  match createIntsetObject false with
  | Some s0 => from_option fst s0 (run_sops false (λ _, 0) true dhash dictSdsKeyCompare 3 11 22 s0 ((λ x, SAdd (ObjStr (str x))) <$> l))
  | None => SetHt dictCreate
  end.
Definition strings (l : list string) : gset (list Z) := list_to_set (str <$> l).
Lemma set_of_rel l : Forall (λ x, zlen (str x) ≤ 512 * 1024 * 1024) l → zlen l + 1 < 2 ^ 29 → set_rel false dhash (set_of l) (strings l).
Proof.
  intros Hl Hsz. unfold set_of. destruct (setTypeCreate_spec false dhash (ObjInt 0)) as (s0 & E & H0). unfold setTypeCreate in E. cbn [isObjectRepresentableAsLongLong] in E. rewrite E.
  set (ops := (λ x, SAdd (ObjStr (str x))) <$> l).
  destruct (run_sops_spec false (λ _, 0) true dhash dictSdsKeyCompare 3 11 22 ops s0 ∅ H0) as (s & rs & -> & HX & _).
  - destruct s0; cbn; rewrite ?size_empty; done.
  - subst ops. apply Forall_fmap. eapply Forall_impl; [exact Hl|]. done.
  - subst ops. rewrite size_empty. unfold zlen in *. rewrite length_fmap. lia.
  - cbn [from_option fst]. assert (strings l = (spec_sops ∅ ops).1) as ->; [|done]. unfold strings. subst ops. clear.
    assert (∀ X, (spec_sops X ((λ x, SAdd (ObjStr (str x))) <$> l)).1 = list_to_set (str <$> l) ∪ X) as Hgen; [|rewrite Hgen; set_solver].
    induction l as [|x l IH]; intros X; [set_solver|]. cbn [fmap list_fmap spec_sops spec_sop].
    specialize (IH ({[str x]} ∪ X)). change (obj_string (ObjStr (str x))) with (str x). destruct (spec_sops _ _) as [Y rs]. cbn [fst] in *. rewrite IH. set_solver.
Qed.
Definition demo_sets : list (list string) := [["1"; "2"; "3"; "x"]; ["3"; "2"; "5"]; ["x"; "2"]]%string.
Definition demo_heap : gmap nat setobj := map_seq 0 (set_of <$> demo_sets).
Definition demo_views : gmap nat (gset (list Z)) := map_seq 0 (strings <$> demo_sets).
Lemma demo_rel : hrel false dhash demo_heap demo_views.
Proof.
  intros j X Hj. unfold demo_views, demo_heap in *. rewrite lookup_map_seq_0, list_lookup_fmap in Hj. rewrite lookup_map_seq_0, list_lookup_fmap.
  destruct (demo_sets !! j) as [l|] eqn:E; [|done]. cbn in Hj. injection Hj as <-. exists (set_of l). split; [done|].
  assert (Forall (λ l, Forall (λ x, zlen (str x) ≤ 512 * 1024 * 1024) l ∧ zlen l + 1 < 2 ^ 29) demo_sets) as Hall by by_decision.
  rewrite list.Forall_forall in Hall. destruct (Hall l) as [H1 H2]; [by eapply list_elem_of_lookup_2|]. by apply set_of_rel.
Qed.
Lemma demo_small j X : demo_views !! j = Some X → (base.size X < 10)%nat ∧ small X.
Proof.
  intros Hj. assert (map_Forall (λ _ X, (base.size X < 10)%nat) demo_views) as Hall by by_decision. pose proof (Hall j X Hj) as Hlt. cbn in Hlt. split; [done|]. unfold small. lia.
Qed.
(** [qsort] that leaves the array as it is *)
Definition no_sort (A : Type) (f : A → A → Z) (l : list A) : list A := l.

Lemma sinter_correct_witness : ∃ h' dst replies,
  sinter false (λ _, 0) true dhash dictSdsKeyCompare 3 11 22 no_sort 10 false demo_heap [0; 1; 0; 2]%nat = Some (h', dst, replies) ∧ hrel false dhash h' demo_views ∧
  ∃ I : list (list Z), NoDup I ∧ (∀ x, x ∈ I ↔ ∀ j, j ∈ [0; 1; 0; 2]%nat → x ∈ val demo_views (Some j)) ∧ dst = None ∧ replies = I.
Proof.
  refine (sinter_correct false (λ _, 0) true dhash dictSdsKeyCompare 3 11 22 no_sort _ demo_views demo_heap [0; 1; 0; 2]%nat false 10 demo_rel _ _ _ _).
  - reflexivity.
  - discriminate.
  - by_decision.
  - intros j X Hj. apply (demo_small j X Hj).
  - intros j X Hj. apply (demo_small j X Hj).
Defined.
Lemma sunionDiff_correct_witness : ∃ h' d replies,
  sunionDiff false (λ _, 0) true dhash dictSdsKeyCompare 3 11 22 no_sort 10 REDIS_OP_DIFF demo_heap [Some 0; None; Some 1]%nat = Some (h', d, zlen replies) ∧ hrel false dhash h' demo_views ∧
  set_rel false dhash d (set_result demo_views REDIS_OP_DIFF [Some 0; None; Some 1]%nat) ∧
  reply_loop false 11 22 10 d (setTypeInitIterator d) = Some replies ∧ NoDup replies ∧ list_to_set replies = set_result demo_views REDIS_OP_DIFF [Some 0; None; Some 1]%nat.
Proof.
  refine (sunionDiff_correct false (λ _, 0) true dhash dictSdsKeyCompare 3 11 22 no_sort _ demo_views demo_heap REDIS_OP_DIFF [Some 0; None; Some 1]%nat 10 10 demo_rel _ _ _ _).
  - reflexivity.
  - repeat constructor; cbn; by eexists.
  - intros j X Hj. apply (demo_small j X Hj).
  - unfold fits. vm_compute. reflexivity.
  - vm_compute. lia.
Defined.
