(* ===== verification/Adlist.v ===== *)
(** * Adlist: doubly linked lists in memory (redis-3.0.0/src/adlist.c)

    The nodes live in a heap shared with the rest of the program: a finite map
    from addresses to nodes.  Every operation reads and writes the heap through
    pointers, as the code does; [None] stands for the dereference of NULL or of
    an address that holds no node (undefined behaviour).  [zmalloc] aborts the
    process rather than return NULL (zmalloc.c), so the NULL branches after it
    are not reachable and have no counterpart. *)

From S2P Require Import Prelude.

Abbreviation loc := positive.
Abbreviation ptr := (option loc).

(** ** Data *)

Record listNode (V : Type) := mkNode { prev : ptr; next : ptr; value : V }.
Arguments mkNode {V} _ _ _.
Arguments prev {V} _.
Arguments next {V} _.
Arguments value {V} _.

Record listIter := mkIter { it_next : ptr; direction : bool (* true: AL_START_HEAD *) }.

Record alist (V : Type) := mkList {
  head : ptr;
  tail : ptr;
  dup : option (V → option V);         (* the copy, NULL on failure *)
  free : bool;                         (* is there a free method? *)
  match_ : option (V → V → bool);
  len : Z                              (* unsigned long *)
}.
Arguments mkList {V} _ _ _ _ _ _.
Arguments head {V} _.
Arguments tail {V} _.
Arguments dup {V} _.
Arguments free {V} _.
Arguments match_ {V} _.
Arguments len {V} _.

Section adlist.
Context {V : Type} `{EqDecision V}.
Local Notation heap := (gmap loc (listNode V)).
Local Notation alist := (alist V).
Local Notation mkNode := (@mkNode V).

Definition set_head (p : ptr) (l : alist) : alist :=
  mkList p (tail l) (dup l) (free l) (match_ l) (len l).
Definition set_tail (p : ptr) (l : alist) : alist :=
  mkList (head l) p (dup l) (free l) (match_ l) (len l).
Definition set_len (n : Z) (l : alist) : alist :=
  mkList (head l) (tail l) (dup l) (free l) (match_ l) (u64 n).

(** [p->prev = q] and [p->next = q] *)
Definition set_prev (h : heap) (p q : ptr) : option heap :=
  a ← p; n ← h !! a; Some (<[a := mkNode q (next n) (value n)]> h).
Definition set_next (h : heap) (p q : ptr) : option heap :=
  a ← p; n ← h !! a; Some (<[a := mkNode (prev n) q (value n)]> h).
Definition deref (h : heap) (p : ptr) : option (listNode V) := a ← p; h !! a.

(** [zmalloc(sizeof(listNode))]: an address that holds no node. *)
Definition alloc (h : heap) : loc := fresh (dom h : gset loc).

(** [list->free(value)], when there is a free method. *)
Definition freed (l : alist) (v : V) : list V := if free l then [v] else [].

(** ** Operations *)

Definition listCreate : alist := mkList None None None false None 0.

Definition listAddNodeHead (h : heap) (l : alist) (v : V) : option (heap * alist) :=
  let node := alloc h in
  if len l =? 0 then
    let h := <[node := mkNode None None v]> h in
    Some (h, set_len (len l + 1) (set_tail (Some node) (set_head (Some node) l)))
  else
    let h := <[node := mkNode None (head l) v]> h in
    h ← set_prev h (head l) (Some node);
    Some (h, set_len (len l + 1) (set_head (Some node) l)).

Definition listAddNodeTail (h : heap) (l : alist) (v : V) : option (heap * alist) :=
  let node := alloc h in
  if len l =? 0 then
    let h := <[node := mkNode None None v]> h in
    Some (h, set_len (len l + 1) (set_tail (Some node) (set_head (Some node) l)))
  else
    let h := <[node := mkNode (tail l) None v]> h in
    h ← set_next h (tail l) (Some node);
    Some (h, set_len (len l + 1) (set_tail (Some node) l)).

Definition listInsertNode (h : heap) (l : alist) (old_node : loc) (v : V) (after : bool)
    : option (heap * alist) :=
  let node := alloc h in
  old ← h !! old_node;
  let '(pv, nx, l) :=
    if after then
      (Some old_node, next old, if bool_decide (tail l = Some old_node) then set_tail (Some node) l else l)
    else
      (prev old, Some old_node, if bool_decide (head l = Some old_node) then set_head (Some node) l else l) in
  let h := <[node := mkNode pv nx v]> h in
  h ← match pv with Some _ => set_next h pv (Some node) | None => Some h end;
  h ← match nx with Some _ => set_prev h nx (Some node) | None => Some h end;
  Some (h, set_len (len l + 1) l).

(** The heap, the list and the values given to the free method. *)
Definition listDelNode (h : heap) (l : alist) (node : loc) : option (heap * alist * list V) :=
  n ← h !! node;
  '(h, l) ← match prev n with
            | Some _ => h ← set_next h (prev n) (next n); Some (h, l)
            | None => Some (h, set_head (next n) l)
            end;
  n ← h !! node;
  '(h, l) ← match next n with
            | Some _ => h ← set_prev h (next n) (prev n); Some (h, l)
            | None => Some (h, set_tail (prev n) l)
            end;
  Some (delete node h, set_len (len l - 1) l, freed l (value n)).

(** [while(len--)] *)
Fixpoint release_loop (n : nat) (h : heap) (l : alist) (current : ptr) : option (heap * list V) :=
  match n with
  | O => Some (h, [])
  | S n =>
      c ← current; nd ← h !! c;
      '(h, fr) ← release_loop n (delete c h) l (next nd);
      Some (h, freed l (value nd) ++ fr)
  end.
Definition listRelease (h : heap) (l : alist) : option (heap * list V) :=
  release_loop (Z.to_nat (len l)) h l (head l).

(** *** Iterators *)

Definition listGetIterator (l : alist) (direction : bool) : listIter :=
  mkIter (if direction then head l else tail l) direction.
Definition listRewind (l : alist) : listIter := mkIter (head l) true.
Definition listRewindTail (l : alist) : listIter := mkIter (tail l) false.

Definition listNext (h : heap) (iter : listIter) : option (listIter * ptr) :=
  match it_next iter with
  | None => Some (iter, None)
  | Some c => n ← h !! c;
      Some (mkIter (if direction iter then next n else prev n) (direction iter), Some c)
  end.

(** [while((node = listNext(iter)) != NULL)] of [listDup]; the iterator can
    visit no more nodes than the list has, [fuel] is one more. *)
Fixpoint dup_loop (fuel : nat) (h : heap) (copy : alist) (iter : listIter)
    : option (heap * option alist * list V) :=
  match fuel with
  | O => None
  | S fuel =>
      '(iter, node) ← listNext h iter;
      match node with
      | None => Some (h, Some copy, [])
      | Some _ =>
          n ← deref h node;
          match match dup copy with Some f => f (value n) | None => Some (value n) end with
          | None => '(h, fr) ← listRelease h copy; Some (h, None, fr)
          | Some v => '(h, copy) ← listAddNodeTail h copy v; dup_loop fuel h copy iter
          end
      end
  end.
Definition listDup (h : heap) (orig : alist) : option (heap * option alist * list V) :=
  let copy := listCreate in
  let copy := mkList (head copy) (tail copy) (dup orig) (free orig) (match_ orig) (len copy) in
  dup_loop (S (Z.to_nat (len orig))) h copy (listGetIterator orig true).

Fixpoint search_loop (fuel : nat) (h : heap) (l : alist) (key : V) (iter : listIter) : option ptr :=
  match fuel with
  | O => None
  | S fuel =>
      '(iter, node) ← listNext h iter;
      match node with
      | None => Some None
      | Some _ =>
          n ← deref h node;
          if match match_ l with
             | Some f => f (value n) key
             | None => bool_decide (key = value n)
             end
          then Some node else search_loop fuel h l key iter
      end
  end.
Definition listSearchKey (h : heap) (l : alist) (key : V) : option ptr :=
  search_loop (S (Z.to_nat (len l))) h l key (listGetIterator l true).

(** [while(index-- && n) n = n->prev] ([fwd = false]) or [n->next]. *)
Fixpoint index_loop (fuel : nat) (h : heap) (fwd : bool) (index : Z) (n : ptr) : option ptr :=
  match fuel with
  | O => None
  | S fuel =>
      if index =? 0 then Some n else
      match n with
      | None => Some None
      | Some a => nd ← h !! a; index_loop fuel h fwd (index - 1) (if fwd then next nd else prev nd)
      end
  end.
(** [-index] overflows on [LONG_MIN]. *)
Definition listIndex (h : heap) (l : alist) (index : Z) : option ptr :=
  let fuel := S (S (Z.to_nat (len l))) in
  if index <? 0 then
    if index =? - 2 ^ 63 then None else index_loop fuel h false (- index - 1) (tail l)
  else index_loop fuel h true index (head l).

Definition listRotate (h : heap) (l : alist) : option (heap * alist) :=
  if len l <=? 1 then Some (h, l) else
  t ← deref h (tail l);
  let tl := tail l in
  let l := set_tail (prev t) l in
  h ← set_next h (tail l) None;
  h ← set_prev h (head l) tl;
  h ← set_prev h tl None;
  h ← set_next h tl (head l);
  Some (h, set_head tl l).

End adlist.

(** ** The sequence of nodes of a list *)

Section facts.
Context {V : Type} `{EqDecision V}.
Local Notation heap := (gmap loc (listNode V)).
Local Notation alist := (alist V).
Implicit Types (h : heap) (l : alist) (xs ys A B : list (loc * V)) (p q : loc) (v : V).

Definition first A (nx : ptr) : ptr := match A with [] => nx | (p, _) :: _ => Some p end.
Fixpoint lastp (pv : ptr) A : ptr := match A with [] => pv | (p, _) :: A => lastp (Some p) A end.

(** The nodes [A] are linked between the neighbours [pv] and [nx]. *)
Fixpoint seg h (pv : ptr) A (nx : ptr) : Prop :=
  match A with
  | [] => True
  | (p, v) :: A => h !! p = Some (mkNode pv (first A nx) v) ∧ seg h (Some p) A nx
  end.

(** [xs] are the nodes of the list [l], from head to tail. *)
Record owns h l xs : Prop := {
  own_head : head l = first xs None;
  own_tail : tail l = lastp None xs;
  own_len : len l = zlen xs;
  own_bound : zlen xs < 2 ^ 63;
  own_nodup : NoDup xs.*1;
  own_seg : seg h None xs None
}.

(** Outside of the addresses [D], the heap is the same. *)
Definition unchanged (D : list loc) h h' : Prop := ∀ q, q ∉ D → h' !! q = h !! q.

Lemma unchanged_refl D h : unchanged D h h.
Proof. by intros q Hq. Qed.
Lemma unchanged_trans D h1 h2 h3 : unchanged D h1 h2 → unchanged D h2 h3 → unchanged D h1 h3.
Proof. intros H1 H2 q Hq. by rewrite H2, H1. Qed.
Lemma unchanged_mono D D' h h' : D ⊆ D' → unchanged D h h' → unchanged D' h h'.
Proof. intros HD Hu q Hq. apply Hu. set_solver. Qed.

Lemma first_app A B nx : first (A ++ B) nx = first A (first B nx).
Proof. by destruct A as [|[p v] A]. Qed.
Lemma lastp_app A : ∀ B pv, lastp pv (A ++ B) = lastp (lastp pv A) B.
Proof. induction A as [|[p v] A IH]; intros B pv; [done|]. cbn. apply IH. Qed.

Lemma seg_app h A : ∀ B pv nx,
  seg h pv (A ++ B) nx ↔ seg h pv A (first B nx) ∧ seg h (lastp pv A) B nx.
Proof.
  induction A as [|[p v] A IH]; intros B pv nx; cbn; [tauto|].
  rewrite first_app, IH. tauto.
Qed.

Lemma seg_frame h h' A : ∀ pv nx,
  (∀ q, q ∈ A.*1 → h' !! q = h !! q) → seg h pv A nx → seg h' pv A nx.
Proof.
  induction A as [|[p v] A IH]; intros pv nx Hq; [done|]. cbn. intros [Hp Hs]. split.
  - rewrite Hq; [done|]. cbn. set_solver.
  - apply IH; [|done]. intros q HA. apply Hq. cbn. set_solver.
Qed.

Lemma seg_unchanged D h h' A pv nx :
  unchanged D h h' → (∀ q, q ∈ A.*1 → q ∉ D) → seg h pv A nx → seg h' pv A nx.
Proof. intros Hu Hd. apply seg_frame. auto. Qed.

Lemma seg_dom h A : ∀ pv nx q, seg h pv A nx → q ∈ A.*1 → is_Some (h !! q).
Proof.
  induction A as [|[p v] A IH]; intros pv nx q; cbn; [set_solver|].
  intros [Hp Hs] [->|Hq]%elem_of_cons; eauto.
Qed.

Lemma alloc_fresh h : h !! alloc h = None.
Proof. apply not_elem_of_dom. unfold alloc. apply is_fresh. Qed.

Lemma alloc_not_in h A pv nx : seg h pv A nx → alloc h ∉ A.*1.
Proof. intros Hs Hin. destruct (seg_dom h A pv nx _ Hs Hin) as [n Hn]. by rewrite alloc_fresh in Hn. Qed.

(** Redirect the last or the first link of a segment. *)
Lemma set_next_seg h A nx' : ∀ pv nx,
  seg h pv A nx → A ≠ [] → NoDup A.*1 →
  ∃ h', set_next h (lastp pv A) nx' = Some h' ∧ seg h' pv A nx' ∧ unchanged A.*1 h h'.
Proof.
  induction A as [|[p v] A IH]; intros pv nx Hs Hne Hnd; [done|]. cbn in Hs, Hnd.
  destruct Hs as [Hp Hs]. apply NoDup_cons in Hnd as [Hn Hnd]. destruct A as [|[p2 v2] A].
  - cbn. rewrite Hp. eexists. split; [done|]. cbn. rewrite lookup_insert_eq. split; [done|].
    intros q Hq. rewrite lookup_insert_ne; [done|]. set_solver.
  - destruct (IH (Some p) nx Hs) as (h' & Hset & Hs' & Hu); [done..|].
    exists h'. split; [exact Hset|]. split; [|eapply unchanged_mono; [|done]; cbn; set_solver].
    change (h' !! p = Some (mkNode pv (Some p2) v) ∧ seg h' (Some p) ((p2, v2) :: A) nx').
    split; [|done]. by rewrite Hu.
Qed.

Lemma set_prev_seg h A pv pv' nx :
  seg h pv A nx → A ≠ [] → NoDup A.*1 →
  ∃ h', set_prev h (first A nx) pv' = Some h' ∧ seg h' pv' A nx ∧ unchanged A.*1 h h'.
Proof.
  intros Hs Hne Hnd. destruct A as [|[p v] A]; [done|]. destruct Hs as [Hp Hs].
  cbn in Hnd. apply NoDup_cons in Hnd as [Hn Hnd]. cbn [first]. unfold set_prev. cbn. rewrite Hp. cbn.
  eexists. split; [done|]. assert (unchanged [p] h (<[p:=mkNode pv' (first A nx) v]> h)) as Hu.
  { intros q Hq. rewrite lookup_insert_ne; [done|set_solver]. }
  split; [|eapply unchanged_mono; [|done]; set_solver]. rewrite lookup_insert_eq. split; [done|].
  eapply seg_unchanged; [done| |done]. set_solver.
Qed.

(** Redirect, if there is a neighbour. *)
Definition link_next h (pv q : ptr) : option heap :=
  match pv with Some _ => set_next h pv q | None => Some h end.
Definition link_prev h (nx q : ptr) : option heap :=
  match nx with Some _ => set_prev h nx q | None => Some h end.

Lemma lastp_some A : ∀ p, ∃ q, lastp (Some p) A = Some q.
Proof. induction A as [|[q w] A IH]; intros p; cbn; eauto. Qed.

Lemma link_next_seg h A nx nx' :
  seg h None A nx → NoDup A.*1 →
  ∃ h', link_next h (lastp None A) nx' = Some h' ∧ seg h' None A nx' ∧ unchanged A.*1 h h'.
Proof.
  intros Hs Hnd. destruct A as [|[p v] A].
  - exists h. split; [done|]. split; [done|apply unchanged_refl].
  - destruct (set_next_seg h _ nx' None nx Hs) as (h' & Hset & ?); [done..|]. exists h'.
    split; [|done]. cbn [lastp] in *. destruct (lastp_some A p) as [q Hq]. by rewrite Hq in *.
Qed.

Lemma link_prev_seg h A pv pv' :
  seg h pv A None → NoDup A.*1 →
  ∃ h', link_prev h (first A None) pv' = Some h' ∧ seg h' pv' A None ∧ unchanged A.*1 h h'.
Proof.
  intros Hs Hnd. destruct A as [|[p v] A].
  - exists h. split; [done|]. split; [done|apply unchanged_refl].
  - by apply (set_prev_seg h ((p, v) :: A) pv pv' None Hs).
Qed.

Lemma nodup_parts A B : NoDup (A ++ B).*1 →
  NoDup A.*1 ∧ NoDup B.*1 ∧ (∀ q, q ∈ A.*1 → q ∉ B.*1) ∧ (∀ q, q ∈ B.*1 → q ∉ A.*1).
Proof. rewrite fmap_app, NoDup_app. intros (? & Hd & ?). split_and!; try done. set_solver. Qed.

(** Link a new node between [A] and [B]. *)
Lemma insert_between h A B p v :
  seg h None (A ++ B) None → NoDup (A ++ B).*1 → h !! p = None →
  ∃ h2 h3, link_next (<[p := mkNode (lastp None A) (first B None) v]> h) (lastp None A) (Some p) = Some h2 ∧
    link_prev h2 (first B None) (Some p) = Some h3 ∧
    seg h3 None (A ++ (p, v) :: B) None ∧ NoDup (A ++ (p, v) :: B).*1 ∧
    unchanged (p :: (A ++ B).*1) h h3.
Proof.
  intros Hs Hnd Hp. assert (p ∉ (A ++ B).*1) as Hn.
  { intros Hin. destruct (seg_dom _ _ _ _ _ Hs Hin) as [n E]. congruence. }
  rewrite fmap_app, not_elem_of_app in Hn. destruct Hn as [HnA HnB].
  apply seg_app in Hs as [HA HB]. destruct (nodup_parts A B Hnd) as (NA & NB & D1 & D2).
  set (h1 := <[p := _]> h). assert (unchanged [p] h h1) as U1.
  { intros q Hq. apply lookup_insert_ne. set_solver. }
  destruct (link_next_seg h1 A (first B None) (Some p)) as (h2 & E2 & HA2 & U2);
    [eapply seg_unchanged; [done| |done]; set_solver|done|].
  destruct (link_prev_seg h2 B (lastp None A) (Some p)) as (h3 & E3 & HB3 & U3).
  { eapply seg_unchanged; [exact U2|done|]. eapply seg_unchanged; [exact U1| |done]. set_solver. }
  { done. }
  exists h2, h3. split; [done|]. split; [done|]. split_and!.
  - apply seg_app. split; [eapply seg_unchanged; [done| |done]; done|]. cbn. split; [|done].
    rewrite U3, U2 by done. apply lookup_insert_eq.
  - rewrite fmap_app. cbn. apply NoDup_app. split; [done|]. split; [set_solver|]. by constructor.
  - rewrite fmap_app. intros q Hq. rewrite U3, U2, U1 by set_solver. done.
Qed.

(** Unlink the node between [A] and [B]. *)
Lemma delete_between h A B p v :
  seg h None (A ++ (p, v) :: B) None → NoDup (A ++ (p, v) :: B).*1 →
  ∃ h2 h3, link_next h (lastp None A) (first B None) = Some h2 ∧
    h !! p = Some (mkNode (lastp None A) (first B None) v) ∧ h2 !! p = h !! p ∧
    link_prev h2 (first B None) (lastp None A) = Some h3 ∧
    seg (delete p h3) None (A ++ B) None ∧ NoDup (A ++ B).*1 ∧
    unchanged (p :: (A ++ B).*1) h (delete p h3) ∧ delete p h3 !! p = None.
Proof.
  intros Hs Hnd. apply seg_app in Hs as [HA [Hp HB]]. cbn [first] in HA.
  destruct (nodup_parts _ _ Hnd) as (NA & NB & D1 & D2). cbn in NB, D1, D2.
  apply NoDup_cons in NB as [HnB NB].
  assert (p ∉ A.*1) as HnA by set_solver.
  destruct (link_next_seg h A (Some p) (first B None)) as (h2 & E2 & HA2 & U2); [done..|].
  destruct (link_prev_seg h2 B (Some p) (lastp None A)) as (h3 & E3 & HB3 & U3);
    [eapply seg_unchanged; [done| |done]; set_solver|done|].
  assert (unchanged [p] h3 (delete p h3)) as U4 by (intros q Hq; apply lookup_delete_ne; set_solver).
  exists h2, h3. split_and!; try done; try by rewrite U2.
  - apply seg_app. split.
    + eapply seg_unchanged; [exact U4|set_solver|]. eapply seg_unchanged; [exact U3|set_solver|done].
    + eapply seg_unchanged; [exact U4|set_solver|done].
  - rewrite fmap_app. apply NoDup_app. split; [done|]. split; [set_solver|done].
  - rewrite fmap_app. intros q Hq. rewrite U4, U3, U2 by set_solver. done.
  - apply lookup_delete_eq.
Qed.

(** ** The operations on the sequence of nodes *)

Lemma owns_cases h l xs : owns h l xs → len l =? 0 = bool_decide (xs = []).
Proof.
  intros Ho. rewrite (own_len _ _ _ Ho). destruct xs as [|x xs]; [done|].
  rewrite bool_decide_false by done. apply Z.eqb_neq. len.
Qed.

Lemma set_len_small (n : Z) l : 0 ≤ n < 2 ^ 64 → len (set_len n l) = n.
Proof. intros. cbn. by apply wrapu_small. Qed.

(** A list header for the nodes [ys]. *)
Lemma owns_intro h l ys :
  head l = first ys None → tail l = lastp None ys → len l = u64 (zlen ys) → zlen ys < 2 ^ 63 →
  NoDup ys.*1 → seg h None ys None → owns h l ys.
Proof.
  intros. assert (0 ≤ zlen ys) by (unfold zlen; lia). split; try done.
  rewrite wrapu_small in *; unfold in_u; lia.
Qed.

Lemma zlen_insert A B (x : loc * V) : zlen (A ++ x :: B) = zlen (A ++ B) + 1.
Proof. len. Qed.

Lemma listAddNodeHead_spec h l xs v :
  owns h l xs → zlen xs + 1 < 2 ^ 63 →
  ∃ h' l', listAddNodeHead h l v = Some (h', l') ∧ owns h' l' ((alloc h, v) :: xs) ∧
    unchanged (alloc h :: xs.*1) h h' ∧ free l' = free l ∧ match_ l' = match_ l ∧ dup l' = dup l.
Proof.
  intros Ho Hb.
  destruct (insert_between h [] xs (alloc h) v (own_seg _ _ _ Ho) (own_nodup _ _ _ Ho) (alloc_fresh h))
    as (h2 & h3 & E2 & E3 & Hs & Hnd & Hu). cbn [lastp link_next] in E2. injection E2 as E2.
  unfold listAddNodeHead. rewrite (owns_cases _ _ _ Ho), (own_head _ _ _ Ho). case_bool_decide as Hx.
  - subst xs. cbn in E3. injection E3 as <-. rewrite <- E2 in *. do 2 eexists. split; [done|].
    split; [|done]. apply owns_intro; try done. cbn. by rewrite (own_len _ _ _ Ho).
  - rewrite E2. destruct xs as [|[p w] xs]; [done|]. cbn [first link_prev] in *. rewrite E3.
    cbn [mbind option_bind]. do 2 eexists. split; [done|]. split; [|done].
    apply owns_intro; try done; [|by cbn; rewrite (own_len _ _ _ Ho); f_equal; len|by len].
    apply (own_tail _ _ _ Ho).
Qed.

Lemma listAddNodeTail_spec h l xs v :
  owns h l xs → zlen xs + 1 < 2 ^ 63 →
  ∃ h' l', listAddNodeTail h l v = Some (h', l') ∧ owns h' l' (xs ++ [(alloc h, v)]) ∧
    unchanged (alloc h :: xs.*1) h h' ∧ free l' = free l ∧ match_ l' = match_ l ∧ dup l' = dup l.
Proof.
  intros Ho Hb. pose proof (own_seg _ _ _ Ho) as Hsx. pose proof (own_nodup _ _ _ Ho) as Hnx.
  rewrite <- (app_nil_r xs) in Hsx, Hnx.
  destruct (insert_between h xs [] (alloc h) v Hsx Hnx (alloc_fresh h))
    as (h2 & h3 & E2 & E3 & Hs & Hnd & Hu). cbn [first link_prev] in E3. injection E3 as <-.
  rewrite app_nil_r in Hu.
  unfold listAddNodeTail. rewrite (owns_cases _ _ _ Ho), (own_tail _ _ _ Ho). case_bool_decide as Hx.
  - subst xs. cbn in E2. injection E2 as <-. do 2 eexists. split; [done|].
    split; [|done]. apply owns_intro; try done. cbn. by rewrite (own_len _ _ _ Ho).
  - destruct xs as [|[p w] xs]; [done|]. cbn [first lastp] in *. destruct (lastp_some xs p) as [q Hq].
    rewrite Hq in *. cbn [link_next] in E2. rewrite E2. cbn [mbind option_bind].
    do 2 eexists. split; [done|]. split; [|done].
    apply owns_intro; try done; [|by cbn [tail set_len set_tail]; rewrite lastp_app|
      by cbn; rewrite (own_len _ _ _ Ho); f_equal; len|by len].
    apply (own_head _ _ _ Ho).
Qed.


Lemma lastp_in B : ∀ p, lastp (Some p) B = Some p ∨ ∃ r, lastp (Some p) B = Some r ∧ r ∈ B.*1.
Proof.
  induction B as [|[q w] B IH]; intros p; [by left|]. right. cbn.
  destruct (IH q) as [->|(r & -> & Hr)]; eexists; (split; [done|]); set_solver.
Qed.

(** The node is the tail, or the head, exactly when nothing follows it, or
    precedes it. *)
Lemma is_tail A B q w :
  NoDup (A ++ (q, w) :: B).*1 → lastp None (A ++ (q, w) :: B) = Some q ↔ B = [].
Proof.
  intros (_ & Hnd & _)%nodup_parts. cbn in Hnd. apply NoDup_cons in Hnd as [Hq _].
  rewrite lastp_app. cbn. split; [|by intros ->]. intros E. destruct B as [|[q2 w2] B]; [done|].
  cbn in E, Hq. exfalso. apply Hq. destruct (lastp_in B q2) as [Hr|(r & Hr & Hin)]; rewrite Hr in E;
    injection E as <-; set_solver.
Qed.

Lemma is_head A B q w :
  NoDup (A ++ (q, w) :: B).*1 → first (A ++ (q, w) :: B) None = Some q ↔ A = [].
Proof.
  intros (_ & _ & Hd & _)%nodup_parts. rewrite first_app. split; [|by intros ->].
  destruct A as [|[q2 w2] A]; [done|]. cbn. intros E. injection E as ->.
  exfalso. apply (Hd q); set_solver.
Qed.

Definition insert_at A B (x y : loc * V) (after : bool) : list (loc * V) :=
  if after then A ++ x :: y :: B else A ++ y :: x :: B.

Lemma listInsertNode_spec h l A B q w v after :
  owns h l (A ++ (q, w) :: B) → zlen (A ++ (q, w) :: B) + 1 < 2 ^ 63 →
  ∃ h' l', listInsertNode h l q v after = Some (h', l') ∧
    owns h' l' (insert_at A B (q, w) (alloc h, v) after) ∧
    unchanged (alloc h :: (A ++ (q, w) :: B).*1) h h' ∧
    free l' = free l ∧ match_ l' = match_ l ∧ dup l' = dup l.
Proof.
  intros Ho Hb. pose proof (own_seg _ _ _ Ho) as Hs. pose proof (own_nodup _ _ _ Ho) as Hnd.
  pose proof (own_head _ _ _ Ho) as Hh. pose proof (own_tail _ _ _ Ho) as Ht.
  unfold listInsertNode.
  assert (h !! q = Some (mkNode (lastp None A) (first B None) w)) as Hq by (by apply seg_app in Hs as [_ [? _]]).
  rewrite Hq. cbn [mbind option_bind prev next]. destruct after; unfold insert_at.
  - replace (A ++ (q, w) :: B) with ((A ++ [(q, w)]) ++ B) in Hs, Hnd by by rewrite <- app_assoc.
    destruct (insert_between h _ B (alloc h) v Hs Hnd (alloc_fresh h)) as (h2 & h3 & E2 & E3 & Hs3 & Hnd3 & Hu).
    rewrite lastp_app in E2. cbn [lastp link_next] in E2. rewrite E2. cbn [mbind option_bind].
    unfold link_prev in E3. rewrite E3. cbn [mbind option_bind].
    rewrite <- !app_assoc in *. cbn [app] in *. do 2 eexists. split; [done|]. split; [|split; [done|]].
    + case_bool_decide as E; apply owns_intro; try done; cbn;
        rewrite ?Hh, ?Ht, ?(own_len _ _ _ Ho); rewrite ?first_app, ?lastp_app; cbn; try done;
        try (f_equal; len); try len.
      * rewrite Ht in E. apply is_tail in E; [by subst B|done].
      * destruct B as [|[q2 w2] B]; [|done]. exfalso. apply E. rewrite Ht. by apply is_tail.
    + by case_bool_decide.
  - destruct (insert_between h A ((q, w) :: B) (alloc h) v Hs Hnd (alloc_fresh h))
      as (h2 & h3 & E2 & E3 & Hs3 & Hnd3 & Hu).
    cbn [first link_prev] in E2, E3. unfold link_next in E2. rewrite E2. cbn [mbind option_bind].
    rewrite E3. cbn [mbind option_bind]. do 2 eexists. split; [done|]. split; [|split; [done|]].
    + case_bool_decide as E; apply owns_intro; try done; cbn;
        rewrite ?Hh, ?Ht, ?(own_len _ _ _ Ho); rewrite ?first_app, ?lastp_app; cbn; try done;
        try (f_equal; len); try len.
      * rewrite Hh in E. apply is_head in E; [by subst A|done].
      * destruct A as [|[q2 w2] A]; [|done]. exfalso. apply E. rewrite Hh. by apply is_head.
    + by case_bool_decide.
Qed.

Lemma listDelNode_spec h l A B q w :
  owns h l (A ++ (q, w) :: B) →
  ∃ h' l', listDelNode h l q = Some (h', l', freed l w) ∧ owns h' l' (A ++ B) ∧
    unchanged (q :: (A ++ B).*1) h h' ∧ h' !! q = None ∧
    free l' = free l ∧ match_ l' = match_ l ∧ dup l' = dup l.
Proof.
  intros Ho. pose proof (own_seg _ _ _ Ho) as Hs. pose proof (own_nodup _ _ _ Ho) as Hnd.
  destruct (delete_between h A B q w Hs Hnd) as (h2 & h3 & E2 & Hq & Hq2 & E3 & Hs3 & Hnd3 & Hu & Hdel).
  assert (zlen (A ++ (q, w) :: B) - 1 = zlen (A ++ B)) as El by len.
  pose proof (own_len _ _ _ Ho) as Hl. pose proof (own_bound _ _ _ Ho) as Hb.
  set (l1 := if bool_decide (A = []) then set_head (first B None) l else l).
  set (l2 := if bool_decide (B = []) then set_tail (lastp None A) l1 else l1).
  exists (delete q h3), (set_len (len l2 - 1) l2).
  assert (owns (delete q h3) (set_len (len l2 - 1) l2) (A ++ B)) as Ho'.
  { pose proof (own_head _ _ _ Ho) as Hh. pose proof (own_tail _ _ _ Ho) as Ht.
    rewrite first_app in Hh. rewrite lastp_app in Ht. cbn [first lastp] in Hh, Ht.
    subst l1 l2. apply owns_intro; try done; rewrite ?first_app, ?lastp_app; [| | |lia];
      repeat case_bool_decide; subst; cbn; try done; rewrite ?Hh, ?Ht, ?Hl, ?El; try done;
      try (by destruct A as [|[??] ?]); by destruct B as [|[??] ?]. }
  unfold listDelNode. rewrite Hq. cbn [mbind option_bind prev next].
  assert ((match lastp None A with
           | Some _ => h ← set_next h (lastp None A) (first B None); Some (h, l)
           | None => Some (h, set_head (first B None) l) end) = Some (h2, l1)) as ->.
  { unfold link_next in E2. subst l1. destruct A as [|[q2 w2] A]; cbn [lastp] in *.
    - injection E2 as ->. by rewrite bool_decide_true.
    - destruct (lastp_some A q2) as [r Hr]. rewrite Hr in *. rewrite E2. by rewrite bool_decide_false. }
  cbn [mbind option_bind]. rewrite Hq2, Hq. cbn [mbind option_bind next prev].
  assert ((match first B None with
           | Some _ => h ← set_prev h2 (first B None) (lastp None A); Some (h, l1)
           | None => Some (h2, set_tail (lastp None A) l1) end) = Some (h3, l2)) as ->.
  { unfold link_prev in E3. subst l2. destruct B as [|[q2 w2] B]; cbn [first] in *.
    - injection E3 as ->. by rewrite bool_decide_true.
    - rewrite E3. by rewrite bool_decide_false. }
  cbn [mbind option_bind value].
  assert (free l2 = free l ∧ match_ l2 = match_ l ∧ dup l2 = dup l) as (Ef & Em & Ed).
  { subst l2 l1. by repeat case_bool_decide. }
  split; [by unfold freed; rewrite Ef|]. by split_and!.
Qed.

Lemma bool_decide_ext_if (P Q : Prop) `{Decision P, Decision Q} {X} (a b : X) :
  (P ↔ Q) → (if bool_decide P then a else b) = (if bool_decide Q then a else b).
Proof. intros HPQ. by rewrite (bool_decide_ext P Q HPQ). Qed.

(** The last element becomes the first. *)
Definition rotate {X} (xs : list X) : list X :=
  match last xs with Some x => x :: take (length xs - 1) xs | None => [] end.

Lemma rotate_snoc {X} (A : list X) x : rotate (A ++ [x]) = x :: A.
Proof.
  unfold rotate. rewrite last_snoc, length_app. cbn. f_equal.
  replace (length A + 1 - 1)%nat with (length A) by lia. apply take_app_length.
Qed.

Lemma listRotate_spec h l xs :
  owns h l xs →
  ∃ h' l', listRotate h l = Some (h', l') ∧ owns h' l' (rotate xs) ∧ unchanged xs.*1 h h' ∧
    free l' = free l ∧ match_ l' = match_ l ∧ dup l' = dup l.
Proof.
  intros Ho. pose proof (own_seg _ _ _ Ho) as Hs. pose proof (own_nodup _ _ _ Ho) as Hnd.
  pose proof (own_head _ _ _ Ho) as Hh. pose proof (own_tail _ _ _ Ho) as Ht.
  pose proof (own_len _ _ _ Ho) as Hl. pose proof (own_bound _ _ _ Ho) as Hb.
  unfold listRotate. destruct (Z.leb_spec (len l) 1) as [Hle|Hle].
  { assert (rotate xs = xs) as ->.
    { destruct xs as [|x [|y xs]]; [done..|]. exfalso. revert Hle. rewrite Hl. len. }
    do 2 eexists. split; [done|]. split; [done|]. split; [apply unchanged_refl|done]. }
  destruct xs as [|[t w] A _] using rev_ind; [exfalso; revert Hle; rewrite Hl; len|].
  destruct A as [|[a u] A]; [exfalso; revert Hle; rewrite Hl; len|]. rewrite rotate_snoc.
  set (A' := (a, u) :: A) in *. apply seg_app in Hs as [HA [Hp _]]. cbn [first] in HA, Hp.
  destruct (nodup_parts _ _ Hnd) as (NA & _ & D1 & D2).
  rewrite lastp_app in Ht. cbn [lastp] in Ht. rewrite first_app in Hh.
  change (first A' (first [(t, w)] None)) with (Some a) in Hh. rewrite Ht. unfold deref. cbn [mbind option_bind].
  rewrite Hp. cbn [mbind option_bind prev]. cbv zeta. cbn [tail head set_tail set_head].
  destruct (set_next_seg h A' None None (Some t) HA ltac:(done) NA) as (h1 & E1 & HA1 & U1).
  rewrite E1. cbn [mbind option_bind]. rewrite Hh.
  destruct (set_prev_seg h1 A' None (Some t) None HA1 ltac:(done) NA) as (h2 & E2 & HA2 & U2).
  change (first A' None) with (Some a) in E2. rewrite E2. cbn [mbind option_bind].
  assert (t ∉ A'.*1) as Hnt by (apply D2; set_solver).
  unfold set_prev at 1. cbn [mbind option_bind]. rewrite U2, U1, Hp by done.
  cbn [mbind option_bind next value]. unfold set_next. cbn [mbind option_bind].
  rewrite lookup_insert_eq. cbn [mbind option_bind prev value]. rewrite insert_insert_eq.
  do 2 eexists. split; [done|]. split; [|split; [|done]].
  - apply owns_intro; cbn [head tail len set_head set_tail]; try done.
    + rewrite Hl. rewrite wrapu_small; [len|]. unfold in_u. split; [|]; len.
    + revert Hb. len.
    + cbn. apply NoDup_cons. done.
    + cbn [seg]. split; [by rewrite lookup_insert_eq|].
      eapply seg_frame; [|exact HA2]. intros q Hq. apply lookup_insert_ne. set_solver.
  - intros q Hq. rewrite fmap_app in Hq. rewrite lookup_insert_ne by set_solver. rewrite U2, U1; set_solver.
Qed.

Definition frees l (vs : list V) : list V := if free l then vs else [].

Lemma release_loop_spec xs : ∀ h l pv nx,
  seg h pv xs nx → NoDup xs.*1 →
  ∃ h', release_loop (length xs) h l (first xs nx) = Some (h', frees l xs.*2) ∧
    (∀ q, h' !! q = if bool_decide (q ∈ xs.*1) then None else h !! q).
Proof.
  induction xs as [|[p v] xs IH]; intros h l pv nx Hs Hnd.
  { exists h. cbn. split; [unfold frees; by destruct (free l)|].
    intros q. rewrite bool_decide_false; [done|]. set_solver. }
  destruct Hs as [Hp Hs]. cbn in Hnd. apply NoDup_cons in Hnd as [Hn Hnd].
  cbn [release_loop length first mbind option_bind]. rewrite Hp. cbn [mbind option_bind next value].
  destruct (IH (delete p h) l (Some p) nx) as (h' & E & Hh'); [|done|].
  { eapply seg_frame; [|done]. intros q Hq. apply lookup_delete_ne. set_solver. }
  rewrite E. cbn [mbind option_bind]. exists h'. split.
  - unfold freed, frees. cbn. by destruct (free l).
  - intros q. rewrite Hh'. cbn. destruct (decide (q = p)) as [->|Hne].
    + rewrite lookup_delete_eq. rewrite (bool_decide_true (p ∈ p :: xs.*1)) by set_solver.
      by case_bool_decide.
    + rewrite lookup_delete_ne by done. apply bool_decide_ext_if. set_solver.
Qed.

(** *** Positions *)

(** The address of the node of rank [i], and of the one before rank [i]. *)
Definition ptr_at xs (i : nat) : ptr := fst <$> xs !! i.
Definition ptr_before xs (i : nat) : ptr := match i with O => None | S i => ptr_at xs i end.

Lemma first_ptr_at xs : first xs None = ptr_at xs 0.
Proof. by destruct xs as [|[p v] xs]. Qed.

Lemma lastp_ptr_before xs : lastp None xs = ptr_before xs (length xs).
Proof.
  destruct xs as [|[p v] xs _] using rev_ind; [done|]. rewrite lastp_app, length_app. cbn.
  replace (length xs + 1)%nat with (S (length xs)) by lia. cbn. unfold ptr_at.
  by rewrite list_lookup_middle.
Qed.

Lemma seg_lookup h xs i p v :
  seg h None xs None → xs !! i = Some (p, v) →
  h !! p = Some (mkNode (ptr_before xs i) (ptr_at xs (S i)) v).
Proof.
  intros Hs Hi. rewrite <- (take_drop_middle xs i (p, v) Hi) in Hs.
  apply seg_app in Hs as [_ [Hp _]]. rewrite Hp. do 2 f_equal.
  - rewrite lastp_ptr_before, length_take, Nat.min_l by (apply lookup_lt_Some in Hi; lia).
    destruct i; [done|]. cbn. unfold ptr_at. by rewrite lookup_take_lt by lia.
  - rewrite first_ptr_at. unfold ptr_at. by rewrite lookup_drop, Nat.add_0_r.
Qed.

Lemma index_loop_fwd h xs : seg h None xs None → ∀ fuel i k,
  0 ≤ k → Z.of_nat (length xs) - Z.of_nat i + 1 < Z.of_nat fuel →
  (i ≤ length xs)%nat →
  index_loop fuel h true k (ptr_at xs i) = Some (ptr_at xs (i + Z.to_nat k)).
Proof.
  intros Hs. induction fuel as [|fuel IH]; intros i k Hk Hf Hi; [lia|]. cbn [index_loop].
  destruct (Z.eqb_spec k 0) as [->|Hk0]; [by rewrite Nat.add_0_r|].
  destruct (xs !! i) as [[p v]|] eqn:E; unfold ptr_at at 1; rewrite E; cbn [fmap option_fmap option_map].
  - cbn. rewrite (seg_lookup h xs i p v Hs E). cbn [mbind option_bind next].
    apply lookup_lt_Some in E. rewrite IH by lia. do 2 f_equal. lia.
  - apply lookup_ge_None in E. unfold ptr_at. rewrite lookup_ge_None_2 by lia. done.
Qed.

Lemma index_loop_bwd h xs : seg h None xs None → ∀ fuel i k,
  0 ≤ k → (i < fuel)%nat → (i ≤ length xs)%nat →
  index_loop fuel h false k (ptr_before xs i) = Some (ptr_before xs (i - Z.to_nat k)).
Proof.
  intros Hs. induction fuel as [|fuel IH]; intros i k Hk Hf Hi; [lia|]. cbn [index_loop].
  destruct (Z.eqb_spec k 0) as [->|Hk0]; [by rewrite Nat.sub_0_r|].
  destruct i as [|i]; [done|]. cbn [ptr_before].
  destruct (lookup_lt_is_Some_2 xs i) as [[p v] E]; [lia|]. unfold ptr_at at 1. rewrite E. cbn.
  rewrite (seg_lookup h xs i p v Hs E). cbn [mbind option_bind prev]. rewrite IH by lia.
  do 2 f_equal. destruct (Z.to_nat k) eqn:Ek; [lia|]. replace (Z.to_nat (k - 1)) with n by lia. done.
Qed.

(** The rank an index designates: from the head, or from the tail when it is
    negative. *)
Definition rank (n : nat) (index : Z) : option nat :=
  if index <? 0 then if - index <=? Z.of_nat n then Some (Z.to_nat (Z.of_nat n + index)) else None
  else Some (Z.to_nat index).

Lemma listIndex_spec h l xs index :
  owns h l xs → in_s 64 index → index ≠ - 2 ^ 63 →
  listIndex h l index = Some (rank (length xs) index ≫= ptr_at xs).
Proof.
  intros Ho Hi Hm. pose proof (own_seg _ _ _ Ho) as Hs. unfold listIndex, rank.
  rewrite (own_len _ _ _ Ho), (own_head _ _ _ Ho), (own_tail _ _ _ Ho).
  destruct (Z.ltb_spec index 0).
  - destruct (Z.eqb_spec index (- 2 ^ 63)); [done|]. rewrite lastp_ptr_before.
    rewrite (index_loop_bwd h xs Hs) by (unfold zlen; lia). f_equal.
    destruct (Z.leb_spec (- index) (Z.of_nat (length xs))).
    + cbn. replace (length xs - Z.to_nat (- index - 1))%nat with (S (Z.to_nat (Z.of_nat (length xs) + index))) by lia.
      done.
    + replace (length xs - Z.to_nat (- index - 1))%nat with 0%nat by lia. done.
  - rewrite first_ptr_at. rewrite (index_loop_fwd h xs Hs) by (unfold zlen; lia). done.
Qed.

(** *** Iteration *)

(** The iterator is about to return the node of rank [i] (forward), or the one
    before rank [i] (backward). *)
Definition iter_at xs (dir : bool) (i : nat) : listIter :=
  mkIter (if dir then ptr_at xs i else ptr_before xs i) dir.

Lemma listGetIterator_spec h l xs dir :
  owns h l xs → listGetIterator l dir = iter_at xs dir (if dir then 0 else length xs).
Proof.
  intros Ho. unfold listGetIterator, iter_at. rewrite (own_head _ _ _ Ho), (own_tail _ _ _ Ho).
  destruct dir; [by rewrite first_ptr_at|by rewrite lastp_ptr_before].
Qed.

Lemma listNext_fwd h xs i :
  seg h None xs None →
  listNext h (iter_at xs true i) =
    match xs !! i with
    | Some (p, _) => Some (iter_at xs true (S i), Some p)
    | None => Some (iter_at xs true i, None)
    end.
Proof.
  intros Hs. unfold listNext, iter_at. cbn [it_next direction]. unfold ptr_at at 1.
  destruct (xs !! i) as [[p v]|] eqn:E; cbn; [|done]. by rewrite (seg_lookup h xs i p v Hs E).
Qed.

Definition matches l (key : V) (x : loc * V) : bool :=
  match match_ l with Some f => f x.2 key | None => bool_decide (key = x.2) end.

Lemma list_search_loop_spec h l key xs : seg h None xs None → ∀ fuel i,
  (length xs - i < fuel)%nat →
  search_loop fuel h l key (iter_at xs true i) = Some (fst <$> find (matches l key) (drop i xs)).
Proof.
  intros Hs. induction fuel as [|fuel IH]; intros i Hf; [lia|]. cbn [search_loop].
  rewrite listNext_fwd by done. destruct (xs !! i) as [[p v]|] eqn:E; cbn [mbind option_bind].
  - unfold deref. cbn [mbind option_bind]. rewrite (seg_lookup h xs i p v Hs E).
    cbn [mbind option_bind value]. rewrite (drop_S xs (p, v) i E). cbn [find].
    unfold matches at 1. cbn [snd]. destruct (match match_ l with Some f => _ | None => _ end); [done|].
    apply IH. apply lookup_lt_Some in E. lia.
  - rewrite drop_ge by by apply lookup_ge_None. done.
Qed.

Lemma listSearchKey_spec h l xs key :
  owns h l xs → listSearchKey h l key = Some (fst <$> find (matches l key) xs).
Proof.
  intros Ho. unfold listSearchKey. rewrite (listGetIterator_spec h l xs true Ho), (own_len _ _ _ Ho).
  rewrite (list_search_loop_spec h l key xs (own_seg _ _ _ Ho)) by (unfold zlen; lia). done.
Qed.

(** *** Copies *)

Definition dup_value l (v : V) : option V := match dup l with Some f => f v | None => Some v end.

(** The heap is [h0] and the new nodes [ys]. *)
Definition extends h0 h ys : Prop :=
  (∀ q, q ∉ ys.*1 → h !! q = h0 !! q) ∧ (∀ q, q ∈ ys.*1 → h0 !! q = None).

Lemma extends_seg h0 h ys xs pv nx : extends h0 h ys → seg h0 pv xs nx → seg h pv xs nx.
Proof.
  intros [H1 H2] Hs. eapply seg_frame; [|done]. intros q Hq. apply H1. intros Hy.
  destruct (seg_dom _ _ _ _ _ Hs Hq) as [n Hn]. rewrite H2 in Hn; done.
Qed.

Lemma extends_add h0 h h' ys v :
  extends h0 h ys → unchanged (alloc h :: ys.*1) h h' → extends h0 h' (ys ++ [(alloc h, v)]).
Proof.
  intros [H1 H2] Hu. split; intros q Hq; rewrite fmap_app in Hq; cbn in Hq.
  - rewrite Hu by set_solver. apply H1. set_solver.
  - apply elem_of_app in Hq as [Hq| ->%list_elem_of_singleton]; [by apply H2|].
    destruct (decide (alloc h ∈ ys.*1)) as [Hin|Hn]; [by apply H2|].
    rewrite <- H1 by done. apply alloc_fresh.
Qed.

Lemma dup_loop_spec h0 orig xs : owns h0 orig xs → ∀ fuel i h copy ys,
  extends h0 h ys → owns h copy ys → (length xs - i < fuel)%nat → length ys = i → (i ≤ length xs)%nat →
  match mapM (dup_value copy) (drop i xs).*2 with
  | Some vs => ∃ h' c zs, dup_loop fuel h copy (iter_at xs true i) = Some (h', Some c, []) ∧
      extends h0 h' (ys ++ zs) ∧ owns h' c (ys ++ zs) ∧ zs.*2 = vs
  | None => ∃ fr, dup_loop fuel h copy (iter_at xs true i) = Some (h0, None, fr)
  end.
Proof.
  intros Ho. pose proof (own_bound _ _ _ Ho) as Hbd.
  induction fuel as [|fuel IH]; intros i h copy ys Hx Hc Hf Hi Hle; [lia|]. cbn [dup_loop].
  pose proof (extends_seg _ _ _ _ _ _ Hx (own_seg _ _ _ Ho)) as Hs. rewrite listNext_fwd by done.
  destruct (xs !! i) as [[p v]|] eqn:E; cbn [mbind option_bind].
  - rewrite (drop_S xs (p, v) i E). cbn [fmap list_fmap snd mapM]. unfold deref. cbn [mbind option_bind].
    rewrite (seg_lookup h xs i p v Hs E). cbn [mbind option_bind value]. fold (dup_value copy v).
    pose proof (lookup_lt_Some _ _ _ E) as Hlt.
    destruct (dup_value copy v) as [v'|] eqn:Ev; cbn [mbind option_bind].
    + destruct (listAddNodeTail_spec h copy ys v' Hc) as (h' & c' & Eadd & Hc' & Hu & _ & _ & Ed);
        [unfold zlen in *; lia|]. rewrite Eadd. cbn [mbind option_bind].
      assert (dup_value c' = dup_value copy) as Edv by (unfold dup_value; by rewrite Ed).
      specialize (IH (S i) h' c' (ys ++ [(alloc h, v')]) (extends_add _ _ _ _ v' Hx Hu) Hc'
        ltac:(lia) ltac:(rewrite length_app; cbn; lia) ltac:(lia)). rewrite Edv in IH.
      unfold mbind, option_bind in IH |- *. destruct (mapM (dup_value copy) (drop (S i) xs).*2) as [vs|] eqn:Em.
      * cbn. destruct IH as (h2 & c2 & zs & -> & Hx2 & Hc2 & Hz). exists h2, c2, ((alloc h, v') :: zs).
        rewrite <- app_assoc in Hx2, Hc2. cbn in *. by rewrite Hz.
      * exact IH.
    + destruct (release_loop_spec ys h copy None None (own_seg _ _ _ Hc) (own_nodup _ _ _ Hc)) as (h' & Er & Hh').
      unfold listRelease. rewrite (own_len _ _ _ Hc), (own_head _ _ _ Hc). unfold zlen. rewrite Nat2Z.id, Er.
      cbn [mbind option_bind]. assert (h' = h0) as ->; [|by eexists].
      apply map_eq. intros q. rewrite Hh'. destruct Hx as [H1 H2]. case_bool_decide; [by rewrite H2|by apply H1].
  - rewrite drop_ge by by apply lookup_ge_None. cbn. exists h, copy, []. by rewrite app_nil_r.
Qed.

Lemma listDup_spec h orig xs :
  owns h orig xs →
  match mapM (dup_value orig) xs.*2 with
  | Some vs => ∃ h' c ys, listDup h orig = Some (h', Some c, []) ∧ owns h' c ys ∧ ys.*2 = vs ∧
      extends h h' ys
  | None => ∃ fr, listDup h orig = Some (h, None, fr)
  end.
Proof.
  intros Ho. unfold listDup. cbv zeta. cbn [head tail len listCreate].
  set (copy := mkList None None (dup orig) (free orig) (match_ orig) 0).
  assert (extends h h []) as Hx by (split; set_solver).
  assert (owns h copy []) as Hc by (by split; try constructor).
  pose proof (dup_loop_spec h orig xs Ho (S (Z.to_nat (len orig))) 0 h copy [] Hx Hc) as HP.
  change (dup_value copy) with (dup_value orig) in HP. rewrite drop_0 in HP.
  rewrite (listGetIterator_spec h orig xs true Ho). rewrite (own_len _ _ _ Ho) in HP |- *.
  specialize (HP ltac:(unfold zlen; lia) eq_refl ltac:(lia)).
  destruct (mapM _ _); [|done]. destruct HP as (h' & c & zs & ? & ? & ? & ?). by exists h', c, zs.
Qed.

(** ** Sequences of operations *)

Inductive lop :=
  | LAddHead (v : V)
  | LAddTail (v : V)
  | LInsert (index : Z) (v : V) (after : bool)  (* at the node [listIndex] finds *)
  | LDel (index : Z)
  | LRotate
  | LIndex (index : Z)
  | LSearch (key : V).

(** The list is part of the heap. *)
Definition run_lop h l (o : lop) : option (heap * alist * list V) :=
  match o with
  | LAddHead v => '(h, l) ← listAddNodeHead h l v; Some (h, l, [])
  | LAddTail v => '(h, l) ← listAddNodeTail h l v; Some (h, l, [])
  | LInsert i v after =>
      p ← listIndex h l i;
      match p with
      | Some q => '(h, l) ← listInsertNode h l q v after; Some (h, l, [])
      | None => Some (h, l, [])
      end
  | LDel i =>
      p ← listIndex h l i;
      match p with Some q => listDelNode h l q | None => Some (h, l, []) end
  | LRotate => '(h, l) ← listRotate h l; Some (h, l, [])
  | LIndex i =>
      p ← listIndex h l i;
      match p with Some q => n ← h !! q; Some (h, l, [value n]) | None => Some (h, l, []) end
  | LSearch key =>
      p ← listSearchKey h l key;
      match p with Some q => n ← h !! q; Some (h, l, [value n]) | None => Some (h, l, []) end
  end.

Fixpoint run_lops h l (ops : list lop) : option (heap * alist * list (list V)) :=
  match ops with
  | [] => Some (h, l, [])
  | o :: ops => '(h, l, r) ← run_lop h l o; '(h, l, rs) ← run_lops h l ops; Some (h, l, r :: rs)
  end.

(** The specification, on the sequence of values: the new sequence, and the
    values returned or freed. *)
Definition spec_lop l (vs : list V) (o : lop) : list V * list V :=
  match o with
  | LAddHead v => (v :: vs, [])
  | LAddTail v => (vs ++ [v], [])
  | LInsert i v after =>
      match rank (length vs) i with
      | Some k => if decide (k < length vs)%nat
                  then let k := if after then S k else k in (take k vs ++ v :: drop k vs, [])
                  else (vs, [])
      | None => (vs, [])
      end
  | LDel i =>
      match rank (length vs) i ≫= λ k, (k,.) <$> vs !! k with
      | Some (k, v) => (take k vs ++ drop (S k) vs, freed l v)
      | None => (vs, [])
      end
  | LRotate => (rotate vs, [])
  | LIndex i => (vs, option_list (rank (length vs) i ≫= (vs !!.)))
  | LSearch key => (vs, option_list (find (λ v, matches l key (1%positive, v)) vs))
  end.

Fixpoint spec_lops l (vs : list V) (ops : list lop) : list V * list (list V) :=
  match ops with
  | [] => (vs, [])
  | o :: ops => let '(vs, r) := spec_lop l vs o in
                let '(vs, rs) := spec_lops l vs ops in (vs, r :: rs)
  end.

(** Indexes are of type [long], other than the one whose negation overflows. *)
Definition lop_ok (o : lop) : Prop :=
  match o with
  | LInsert i _ _ | LDel i | LIndex i => in_s 64 i ∧ i ≠ - 2 ^ 63
  | _ => True
  end.

(** What belongs to others is left alone. *)
Definition foreign xs xs' h h' : Prop :=
  ∀ q n, h !! q = Some n → q ∉ xs.*1 → h' !! q = Some n ∧ q ∉ xs'.*1.

Definition lrefines h l xs (o : lop) : Prop :=
  ∃ h' l' r xs', run_lop h l o = Some (h', l', r) ∧ owns h' l' xs' ∧
    spec_lop l xs.*2 o = (xs'.*2, r) ∧ foreign xs xs' h h' ∧
    free l' = free l ∧ match_ l' = match_ l ∧ zlen xs' ≤ zlen xs + 1.

Lemma foreign_grow h h' xs xs' :
  unchanged (alloc h :: xs.*1) h h' → (∀ q, q ∈ xs'.*1 → q = alloc h ∨ q ∈ xs.*1) → foreign xs xs' h h'.
Proof.
  intros Hu Hsub q n Hq Hn. assert (q ≠ alloc h) by (intros ->; by rewrite alloc_fresh in Hq).
  split; [rewrite Hu; [done|set_solver]|]. intros [|]%Hsub; done.
Qed.

Lemma foreign_refl h xs : foreign xs xs h h.
Proof. by intros q n. Qed.

Lemma lrefines_noop h l xs o r :
  owns h l xs → run_lop h l o = Some (h, l, r) → spec_lop l xs.*2 o = (xs.*2, r) → lrefines h l xs o.
Proof.
  intros Ho Hr Hs. exists h, l, r, xs. do 3 (split; [done|]). split; [apply foreign_refl|]. split_and!; [done..|lia].
Qed.

Lemma rank_cases xs i :
  (∃ k q w, rank (length xs) i = Some k ∧ xs !! k = Some (q, w) ∧ (k < length xs)%nat ∧
     xs = take k xs ++ (q, w) :: drop (S k) xs ∧ xs.*2 !! k = Some w) ∨
  (rank (length xs) i ≫= ptr_at xs = None ∧
   (rank (length xs) i = None ∨ ∃ k, rank (length xs) i = Some k ∧ ¬ (k < length xs)%nat ∧ xs.*2 !! k = None)).
Proof.
  destruct (rank (length xs) i) as [k|]; [|right; split; [done|by left]].
  destruct (xs !! k) as [[q w]|] eqn:E.
  - left. exists k, q, w. split_and!; try done; [by eapply lookup_lt_Some|by rewrite take_drop_middle|].
    by rewrite list_lookup_fmap, E.
  - right. cbn. unfold ptr_at. rewrite E. split; [done|]. right. exists k. split; [done|].
    rewrite list_lookup_fmap, E. split; [|done]. apply lookup_ge_None in E. lia.
Qed.

Lemma lrefines_insert h l xs i v after :
  owns h l xs → zlen xs + 1 < 2 ^ 63 → lop_ok (LInsert i v after) → lrefines h l xs (LInsert i v after).
Proof.
  intros Ho Hb [Hi Hm]. pose proof (listIndex_spec h l xs i Ho Hi Hm) as HI.
  destruct (rank_cases xs i) as [(k & q & w & Hr & Hk & Hlt & Hsplit & Hv)|[HN Hcase]].
  - rewrite Hr in HI. cbn [mbind option_bind] in HI. unfold ptr_at in HI. rewrite Hk in HI. cbn in HI.
    rewrite Hsplit in Ho, Hb.
    destruct (listInsertNode_spec h l _ _ q w v after Ho Hb) as (h' & l' & E & Ho' & Hu & Hf & Hma & _).
    rewrite <- Hsplit in Hu.
    exists h', l', [], (insert_at (take k xs) (drop (S k) xs) (q, w) (alloc h, v) after).
    split; [unfold run_lop; rewrite HI; cbn [mbind option_bind]; by rewrite E|]. split; [done|].
    split; [|split; [|split_and!; try done]].
    + cbn [spec_lop]. rewrite length_fmap, Hr. destruct (decide _); [|lia]. f_equal.
      destruct after; unfold insert_at.
      * rewrite (take_S_r _ _ w) by done. rewrite fmap_app, fmap_take. cbn. rewrite fmap_drop, <- app_assoc. done.
      * rewrite fmap_app, fmap_take. cbn. rewrite (drop_S _ w k), fmap_drop by done. done.
    + eapply foreign_grow; [exact Hu|]. intros q' Hq'. rewrite Hsplit, fmap_app. cbn.
      unfold insert_at in Hq'. destruct after; rewrite fmap_app in Hq'; cbn in Hq'; set_solver.
    + rewrite Hsplit at 3. unfold insert_at. destruct after; len.
  - rewrite HN in HI. eapply lrefines_noop; [done|unfold run_lop; by rewrite HI|]. cbn [spec_lop].
    rewrite length_fmap. destruct Hcase as [->|(k & -> & Hge & _)]; [done|]. by destruct (decide _).
Qed.

Lemma lrefines_del h l xs i : owns h l xs → lop_ok (LDel i) → lrefines h l xs (LDel i).
Proof.
  intros Ho [Hi Hm]. pose proof (listIndex_spec h l xs i Ho Hi Hm) as HI.
  destruct (rank_cases xs i) as [(k & q & w & Hr & Hk & Hlt & Hsplit & Hv)|[HN Hcase]].
  - rewrite Hr in HI. cbn [mbind option_bind] in HI. unfold ptr_at in HI. rewrite Hk in HI. cbn in HI.
    rewrite Hsplit in Ho.
    destruct (listDelNode_spec h l _ _ q w Ho) as (h' & l' & E & Ho' & Hu & Hq & Hf & Hma & _).
    exists h', l', (freed l w), (take k xs ++ drop (S k) xs).
    split; [unfold run_lop; rewrite HI; cbn [mbind option_bind]; exact E|]. split; [done|].
    split; [|split; [|split_and!; try done]].
    + cbn [spec_lop]. rewrite length_fmap, Hr. cbn [mbind option_bind]. rewrite Hv. cbn.
      f_equal. by rewrite fmap_app, fmap_take, fmap_drop.
    + intros q' n Hn Hnin. rewrite Hsplit, fmap_app in Hnin. cbn in Hnin. rewrite fmap_app.
      split; [|set_solver]. rewrite Hu; [done|]. rewrite fmap_app. set_solver.
    + rewrite Hsplit at 3. len.
  - rewrite HN in HI. eapply lrefines_noop; [done|unfold run_lop; by rewrite HI|]. cbn [spec_lop].
    rewrite length_fmap. destruct Hcase as [->|(k & -> & _ & Hv)]; [done|]. cbn. by rewrite Hv.
Qed.

Lemma lrefines_index h l xs i : owns h l xs → lop_ok (LIndex i) → lrefines h l xs (LIndex i).
Proof.
  intros Ho [Hi Hm]. pose proof (listIndex_spec h l xs i Ho Hi Hm) as HI.
  destruct (rank_cases xs i) as [(k & q & w & Hr & Hk & Hlt & Hsplit & Hv)|[HN Hcase]].
  - rewrite Hr in HI. cbn [mbind option_bind] in HI. unfold ptr_at in HI. rewrite Hk in HI. cbn in HI.
    pose proof (seg_lookup h xs k q w (own_seg _ _ _ Ho) Hk) as Hq.
    eapply lrefines_noop; [done|unfold run_lop; rewrite HI; cbn [mbind option_bind]; by rewrite Hq|].
    cbn [spec_lop value]. rewrite length_fmap, Hr. cbn [mbind option_bind]. by rewrite Hv.
  - rewrite HN in HI. eapply lrefines_noop; [done|unfold run_lop; by rewrite HI|]. cbn [spec_lop].
    rewrite length_fmap. destruct Hcase as [->|(k & -> & _ & Hv)]; [done|]. cbn. by rewrite Hv.
Qed.

Lemma find_values l key xs :
  find (λ v, matches l key (1%positive, v)) xs.*2 = snd <$> find (matches l key) xs.
Proof.
  induction xs as [|[p v] xs IH]; [done|]. cbn [fmap list_fmap find snd].
  change (matches l key (p, v)) with (matches l key (1%positive, v)). by destruct (matches _ _ _).
Qed.

Lemma lrefines_search h l xs key : owns h l xs → lrefines h l xs (LSearch key).
Proof.
  intros Ho. pose proof (listSearchKey_spec h l xs key Ho) as HI.
  destruct (find (matches l key) xs) as [[q w]|] eqn:E; cbn [fmap option_fmap option_map fst] in HI.
  - pose proof E as [Hin _]%find_some. apply list_elem_of_In, list_elem_of_lookup in Hin as [k Hk].
    pose proof (seg_lookup h xs k q w (own_seg _ _ _ Ho) Hk) as Hq.
    eapply lrefines_noop; [done|unfold run_lop; rewrite HI; cbn [mbind option_bind]; by rewrite Hq|].
    cbn [spec_lop value]. by rewrite find_values, E.
  - eapply lrefines_noop; [done|unfold run_lop; by rewrite HI|]. cbn [spec_lop]. by rewrite find_values, E.
Qed.

Lemma rotate_fmap {X Y} (f : X → Y) (xs : list X) : f <$> rotate xs = rotate (f <$> xs).
Proof.
  destruct xs as [|x xs _] using rev_ind; [done|]. rewrite fmap_app, rotate_snoc. cbn. by rewrite rotate_snoc.
Qed.

Lemma rotate_perm {X} (xs : list X) : rotate xs ≡ₚ xs.
Proof.
  destruct xs as [|x xs _] using rev_ind; [done|]. rewrite rotate_snoc. apply Permutation_cons_append.
Qed.

Lemma run_lop_spec h l xs o :
  owns h l xs → zlen xs + 1 < 2 ^ 63 → lop_ok o → lrefines h l xs o.
Proof.
  intros Ho Hb Hok. destruct o as [v|v|i v after|i| |i|key].
  - destruct (listAddNodeHead_spec h l xs v Ho Hb) as (h' & l' & E & Ho' & Hu & Hf & Hm & _).
    do 4 eexists. split; [cbn; by rewrite E|]. do 2 (split; [done|]).
    split; [by eapply foreign_grow; [|set_solver]|]. split_and!; [done..|len].
  - destruct (listAddNodeTail_spec h l xs v Ho Hb) as (h' & l' & E & Ho' & Hu & Hf & Hm & _).
    do 4 eexists. split; [cbn; by rewrite E|]. split; [done|]. split; [cbn; by rewrite fmap_app|].
    split; [eapply foreign_grow; [done|]; rewrite fmap_app; set_solver|]. split_and!; [done..|len].
  - by apply lrefines_insert.
  - by apply lrefines_del.
  - destruct (listRotate_spec h l xs Ho) as (h' & l' & E & Ho' & Hu & Hf & Hm & _).
    do 4 eexists. split; [cbn; by rewrite E|]. split; [done|]. split; [cbn; by rewrite rotate_fmap|].
    split; [|split_and!; try done].
    + intros q n Hq Hn. split; [by rewrite Hu|]. by rewrite rotate_perm.
    + unfold zlen. rewrite (Permutation_length (rotate_perm xs)). lia.
  - by apply lrefines_index.
  - by apply lrefines_search.
Qed.

Lemma spec_lops_ext l l' ops : free l' = free l → match_ l' = match_ l → ∀ vs,
  spec_lops l' vs ops = spec_lops l vs ops.
Proof.
  intros Hf Hm. assert (∀ vs o, spec_lop l' vs o = spec_lop l vs o) as E.
  { intros vs o. destruct o; cbn; unfold freed, matches; by rewrite ?Hf, ?Hm. }
  induction ops as [|o ops IH]; intros vs; [done|]. cbn. rewrite E.
  destruct (spec_lop l vs o). by rewrite IH.
Qed.

Lemma run_lops_spec ops : ∀ h l xs,
  owns h l xs → zlen xs + zlen ops < 2 ^ 63 → Forall lop_ok ops →
  ∃ h' l' rs xs', run_lops h l ops = Some (h', l', rs) ∧ owns h' l' xs' ∧
    spec_lops l xs.*2 ops = (xs'.*2, rs) ∧ foreign xs xs' h h'.
Proof.
  induction ops as [|o ops IH]; intros h l xs Ho Hb Hok.
  { do 4 eexists. split; [done|]. do 2 (split; [done|]). apply foreign_refl. }
  apply Forall_cons in Hok as [Hk Hok]. assert (zlen (o :: ops) = zlen ops + 1) as El by len.
  assert (0 ≤ zlen ops) by (unfold zlen; lia).
  destruct (run_lop_spec h l xs o Ho ltac:(lia) Hk) as (h1 & l1 & r & xs1 & E1 & Ho1 & Hs1 & Hf1 & Hfr & Hm & Hl1).
  destruct (IH h1 l1 xs1 Ho1 ltac:(lia) Hok) as (h2 & l2 & rs & xs2 & E2 & Ho2 & Hs2 & Hf2).
  exists h2, l2, (r :: rs), xs2. cbn [run_lops spec_lops]. rewrite E1, Hs1. cbn [mbind option_bind].
  rewrite E2. cbn [mbind option_bind]. rewrite <- (spec_lops_ext l l1) by done. rewrite Hs2.
  do 3 (split; [done|]). intros q n Hq Hn. destruct (Hf1 q n Hq Hn). by apply Hf2.
Qed.

End facts.

(** ** Theorems *)

Section theorems.
Context {V : Type} `{EqDecision V}.
Implicit Types (h : gmap loc (listNode V)) (l : alist V).

(** Refinement: starting from an empty list with any methods, in any
    heap, every sequence of insertions at the head, the tail or next to a node,
    deletions, rotations, accesses by index and searches dereferences no
    invalid pointer and gives the results the operations on a sequence of
    values give; the nodes of the heap that are not the list's own stay as they
    are, so that other lists are not affected. *)
Theorem adlist_refines_list h (d : option (V → option V)) (f : bool) (m : option (V → V → bool)) ops :
  zlen ops < 2 ^ 63 → Forall lop_ok ops →
  let l := mkList None None d f m 0 in
  ∃ h' l' rs xs, run_lops h l ops = Some (h', l', rs) ∧ owns h' l' xs ∧
    spec_lops l [] ops = (xs.*2, rs) ∧
    ∀ q n, h !! q = Some n → h' !! q = Some n ∧ q ∉ xs.*1.
Proof.
  intros Hb Hok l. assert (owns h l []) as Ho by (by split; try constructor).
  destruct (run_lops_spec ops h l [] Ho Hb Hok) as (h' & l' & rs & xs & E & Ho' & Hs & Hf).
  exists h', l', rs, xs. do 3 (split; [done|]). intros q n Hq. apply Hf; [done|]. apply not_elem_of_nil.
Qed.

(** [listDup]: when the copy of every value succeeds, the result is a list
    of the copies in the same order, on new nodes only, and the original list is
    as before; when one fails, the nodes made so far are released and the heap
    is exactly what it was. *)
Theorem listDup_correct h l xs :
  owns h l xs →
  match mapM (dup_value l) xs.*2 with
  | Some vs => ∃ h' c ys, listDup h l = Some (h', Some c, []) ∧ owns h' c ys ∧ ys.*2 = vs ∧
      owns h' l xs ∧ ∀ q, q ∈ ys.*1 → h !! q = None
  | None => ∃ fr, listDup h l = Some (h, None, fr)
  end.
Proof.
  intros Ho. pose proof (listDup_spec h l xs Ho) as HP. destruct (mapM _ _); [|done].
  destruct HP as (h' & c & ys & E & Hc & Hv & Hx). exists h', c, ys. do 3 (split; [done|]).
  split; [|apply Hx]. destruct Ho. split; try done. by eapply extends_seg.
Qed.

(** [listRelease] frees the nodes of the list and no others, and hands each
    value once to the free method, in order, when there is one. *)
Theorem listRelease_correct h l xs :
  owns h l xs →
  ∃ h', listRelease h l = Some (h', if free l then xs.*2 else []) ∧
    ∀ q, h' !! q = if bool_decide (q ∈ xs.*1) then None else h !! q.
Proof.
  intros Ho. unfold listRelease. rewrite (own_len _ _ _ Ho), (own_head _ _ _ Ho). unfold zlen.
  rewrite Nat2Z.id. by eapply release_loop_spec; [apply Ho|apply Ho].
Qed.

End theorems.

(** Witnesses, on lists of integers. *)
Definition list_ops : list (lop (V := Z)) :=
  [LAddHead 2; LAddTail 3; LAddHead 1; LInsert (-1) 4 true; LInsert 0 0 false; LDel 2; LRotate;
   LIndex 1; LIndex (-9); LSearch 3].

Lemma adlist_refines_list_witness :
  let l := mkList None None None true None 0 in
  ∃ h' l' rs xs, run_lops ∅ l list_ops = Some (h', l', rs) ∧ owns h' l' xs ∧
    spec_lops l [] list_ops = (xs.*2, rs) ∧
    ∀ q n, (∅ : gmap loc (listNode Z)) !! q = Some n → h' !! q = Some n ∧ q ∉ xs.*1.
Proof.
  apply (adlist_refines_list ∅ None true None list_ops); [by vm_compute|].
  repeat constructor; by vm_compute.
Defined.

Definition small_heap : gmap loc (listNode Z) :=
  {[ 1%positive := mkNode None (Some 2%positive) 10; 2%positive := mkNode (Some 1%positive) None 20 ]}.
Definition small_list : alist Z := mkList (Some 1%positive) (Some 2%positive) None true None 2.

Lemma small_owns : owns small_heap small_list [(1%positive, 10); (2%positive, 20)].
Proof. split; try done. by_decision. Qed.

Lemma listDup_correct_witness :
  ∃ h' c ys, listDup small_heap small_list = Some (h', Some c, []) ∧ owns h' c ys ∧
    ys.*2 = [10; 20] ∧ owns h' small_list [(1%positive, 10); (2%positive, 20)] ∧
    ∀ q, q ∈ ys.*1 → small_heap !! q = None.
Proof. apply (listDup_correct small_heap small_list _ small_owns). Defined.

Lemma listRelease_correct_witness :
  ∃ h', listRelease small_heap small_list = Some (h', [10; 20]) ∧
    ∀ q, h' !! q = if bool_decide (q ∈ [1%positive; 2%positive]) then None else small_heap !! q.
Proof. apply (listRelease_correct small_heap small_list _ small_owns). Defined.
