(* ===== verification/Lzf.v ===== *)
(** * Lzf: compression of strings (redis-3.0.0/src/lzf_c.c, lzf_d.c)

    The configuration is the one of lzfP.h: [HLOG = 16], [VERY_FAST = 1],
    [ULTRA_FAST = 0], [INIT_HTAB = 0], [CHECK_INPUT = 1].  Without
    [INIT_HTAB] the table of positions starts with indeterminate pointers:
    [junk] gives them, and the theorems hold for all of them.

    Positions in the input and the output are indices; [base] is the address
    of the input, needed for the test on pointers of the table.  An access
    outside of the input or of the output buffer is [None]. *)

From S2P Require Import Prelude.

Definition HLOG : Z := 16.
Definition HSIZE : Z := 2 ^ HLOG.
Definition MAX_LIT : Z := 32.
Definition MAX_OFF : Z := 8192.
Definition MAX_REF : Z := 264.

(** One byte of a buffer. *)
Definition rd (m : list Z) (i : Z) : option Z := if i <? 0 then None else m !! Z.to_nat i.
Definition wr (m : list Z) (i c : Z) : option (list Z) := store m i [u8 c].

(** ** Decompression *)

(** [do *op++ = *ip++; while (--ctrl);] *)
Fixpoint lit_copy (n : nat) (p out : list Z) (op : Z) : option (list Z * list Z * Z) :=
  match n with
  | O => Some (p, out, op)
  | S n => match p with
           | [] => None
           | c :: p => out ← wr out op c; lit_copy n p out (op + 1)
           end
  end.

(** [*op++ = *ref++], [n] times. *)
Fixpoint ref_copy (n : nat) (out : list Z) (ref op : Z) : option (list Z * Z) :=
  match n with
  | O => Some (out, op)
  | S n => c ← rd out ref; out ← wr out op c; ref_copy n out (ref + 1) (op + 1)
  end.

Inductive errno := E2BIG | EINVAL.

(** The loop on the control bytes.  [p]: the input from [ip] to [in_end]. *)
Fixpoint decomp_loop (fuel : nat) (p out : list Z) (op out_len : Z)
    : option (list Z * (Z + errno)) :=
  match fuel with
  | O => None
  | S fuel =>
      match p with
      | [] => None
      | ctrl :: p =>
          if ctrl <? 32 then
            let ctrl := ctrl + 1 in
            if out_len <? op + ctrl then Some (out, inr E2BIG) else
            if zlen p <? ctrl then Some (out, inr EINVAL) else
            '(p, out, op) ← lit_copy (Z.to_nat ctrl) p out op;
            if bool_decide (p = []) then Some (out, inl op) else decomp_loop fuel p out op out_len
          else
            let len := Z.shiftr ctrl 5 in
            let ref := op - Z.shiftl (Z.land ctrl 0x1f) 8 - 1 in
            if bool_decide (p = []) then Some (out, inr EINVAL) else
            match (if len =? 7 then
                     match p with
                     | [] => None
                     | c :: p => Some (len + c, p, bool_decide (p = []))
                     end
                   else Some (len, p, false)) with
            | None => None
            | Some (_, _, true) => Some (out, inr EINVAL)
            | Some (len, p, false) =>
                match p with
                | [] => None
                | c :: p =>
                    let ref := ref - c in
                    if out_len <? op + len + 2 then Some (out, inr E2BIG) else
                    if ref <? 0 then Some (out, inr EINVAL) else
                    '(out, op) ← ref_copy (Z.to_nat (len + 2)) out ref op;
                    if bool_decide (p = []) then Some (out, inl op) else decomp_loop fuel p out op out_len
                end
            end
      end
  end.

(** The buffer, and the length of the result or the error (the function
    returns 0 and sets [errno]).  Every turn of the loop reads a byte. *)
Definition lzf_decompress (in_data out : list Z) (out_len : Z) : option (list Z * (Z + errno)) :=
  decomp_loop (length in_data) in_data out 0 out_len.

(** ** Compression *)

Section compress.
Context (junk : Z → Z) (base : Z) (in_data : list Z) (out_len : Z).

Definition FRST (ip : Z) : option Z :=
  a ← rd in_data ip; b ← rd in_data (ip + 1); Some (Z.lor (Z.shiftl a 8) b).
Definition NEXT (v ip : Z) : option Z := c ← rd in_data (ip + 2); Some (Z.lor (u32 (Z.shiftl v 8)) c).
Definition IDX (h : Z) : Z := Z.land (u32 (Z.shiftr h (3 * 8 - HLOG) - u32 (h * 5))) (HSIZE - 1).

Record cstate := mkC {
  ip : Z; op : Z; lit : Z; hval : Z;
  htab : gmap Z Z;                 (* the slots assigned so far: addresses *)
  out : list Z
}.

Definition slot (ht : gmap Z Z) (i : Z) : Z := default (junk i) (ht !! i).

(** Is [ref[k] == ip[k]]? *)
Definition same_byte (ref i k : Z) : option bool :=
  a ← rd in_data (ref + k); b ← rd in_data (i + k); Some (a =? b).

(** The test for a match at [i] with the address [r] of the table: the offset
    and the position of the match. *)
Definition test_match (i r : Z) : option (option (Z * Z)) :=
  let off := u64 (base + i - r - 1) in
  let ref := r - base in
  if (off <? MAX_OFF) && (i + 4 <? zlen in_data) && (0 <? ref) then
    b ← same_byte ref i 0; if negb b then Some None else
    b ← same_byte ref i 1; if negb b then Some None else
    b ← same_byte ref i 2; if negb b then Some None else
    Some (Some (off, ref))
  else Some None.

(** The sixteen comparisons written out: [inl] at the first difference. *)
Fixpoint unrolled (n : nat) (ref i len : Z) : option (Z + Z) :=
  match n with
  | O => Some (inr len)
  | S n => let len := len + 1 in
           b ← same_byte ref i len; if negb b then Some (inl len) else unrolled n ref i len
  end.

(** [do len++; while (len < maxlen && ref[len] == ip[len]);] *)
Fixpoint extend (fuel : nat) (ref i len maxlen : Z) : option Z :=
  match fuel with
  | O => None
  | S fuel =>
      let len := len + 1 in
      if len <? maxlen then
        b ← same_byte ref i len; if (b : bool) then extend fuel ref i len maxlen else Some len
      else Some len
  end.

Definition match_length (ref i maxlen : Z) : option Z :=
  if 16 <? maxlen then
    r ← unrolled 16 ref i 2;
    match r with inl len => Some len | inr len => extend 265 ref i len maxlen end
  else extend 265 ref i 2 maxlen.

Inductive flow := Return (out : list Z) (n : Z) | Break (s : cstate) | Continue (s : cstate).

(** [op [- lit - 1] = lit - 1; op -= !lit;] *)
Definition stop_run (s : cstate) : option cstate :=
  o ← wr (out s) (op s - lit s - 1) (lit s - 1);
  Some (mkC (ip s) (if lit s =? 0 then op s - 1 else op s) (lit s) (hval s) (htab s) o).

(** [lit++; *op++ = *ip++;] and the start of a new run after [MAX_LIT] bytes. *)
Definition put_literal (s : cstate) : option cstate :=
  c ← rd in_data (ip s);
  let lit := lit s + 1 in
  o ← wr (out s) (op s) c;
  let op := op s + 1 in
  if lit =? MAX_LIT then
    o ← wr o (op - lit - 1) (lit - 1);
    Some (mkC (ip s + 1) (op + 1) 0 (hval s) (htab s) o)
  else Some (mkC (ip s + 1) op lit (hval s) (htab s) o).

(** The two positions entered in the table after a match. *)
Definition rehash_tail (s : cstate) : option cstate :=
  let i := ip s - 2 in
  h ← FRST i; h ← NEXT h i;
  let ht := <[IDX h := base + i]> (htab s) in
  h ← NEXT h (i + 1);
  let ht := <[IDX h := base + (i + 1)]> ht in
  Some (mkC (i + 2) (op s) (lit s) h ht (out s)).

(** The bytes of a back reference of [len + 2] bytes at [off + 1] before. *)
Definition put_ref (s : cstate) (off len : Z) : option cstate :=
  o ← (if len <? 7 then
         o ← wr (out s) (op s) (Z.shiftr off 8 + Z.shiftl len 5);
         Some (o, op s + 1)
       else
         o ← wr (out s) (op s) (Z.shiftr off 8 + Z.shiftl 7 5);
         o ← wr o (op s + 1) (len - 7);
         Some (o, op s + 2));
  let '(o, op) := o in
  o ← wr o op off;
  Some (mkC (ip s) (op + 2) 0 (hval s) (htab s) o).

(** The body of the main loop. *)
Definition comp_step (s : cstate) : option flow :=
  hval ← NEXT (hval s) (ip s);
  let r := slot (htab s) (IDX hval) in
  let s := mkC (ip s) (op s) (lit s) hval (<[IDX hval := base + ip s]> (htab s)) (out s) in
  m ← test_match (ip s) r;
  match m with
  | Some (off, ref) =>
      let maxlen := zlen in_data - ip s - 2 in
      let maxlen := if MAX_REF <? maxlen then MAX_REF else maxlen in
      s ← stop_run s;
      if out_len <=? op s + 3 + 1 then Some (Return (out s) 0) else
      len ← match_length ref (ip s) maxlen;
      let len := len - 2 in
      s ← put_ref s off len;
      let s := mkC (ip s + 1 + (len + 1)) (op s) (lit s) (hval) (htab s) (out s) in
      if zlen in_data - 2 <=? ip s then Some (Break s) else
      s ← rehash_tail s; Some (Continue s)
  | None =>
      if out_len <=? op s then Some (Return (out s) 0) else
      s ← put_literal s; Some (Continue s)
  end.

(** [while (ip < in_end - 2)]; every turn advances. *)
Fixpoint comp_loop (fuel : nat) (s : cstate) : option flow :=
  match fuel with
  | O => None
  | S fuel =>
      if zlen in_data - 2 <=? ip s then Some (Break s) else
      f ← comp_step s;
      match f with
      | Continue s => comp_loop fuel s
      | _ => Some f
      end
  end.

(** [while (ip < in_end)] after it. *)
Fixpoint tail_loop (fuel : nat) (s : cstate) : option cstate :=
  match fuel with
  | O => None
  | S fuel => if zlen in_data <=? ip s then Some s else s ← put_literal s; tail_loop fuel s
  end.

(** The output buffer and the length of the result, 0 when it does not fit. *)
Definition lzf_compress (out_data : list Z) : option (list Z * Z) :=
  if (zlen in_data =? 0) || (out_len =? 0) then Some (out_data, 0) else
  h ← FRST 0;
  f ← comp_loop (S (length in_data)) (mkC 0 1 0 h ∅ out_data);
  match f with
  | Return o n => Some (o, n)
  | Continue _ => None
  | Break s =>
      if out_len <? op s + 3 then Some (out s, 0) else
      s ← tail_loop (S (length in_data)) s;
      s ← stop_run s;
      Some (out s, op s)
  end.

End compress.

(** ** Buffers *)

Lemma rd_lookup m i : 0 ≤ i → rd m i = m !! Z.to_nat i.
Proof. intros. unfold rd. by destruct (Z.ltb_spec i 0); [lia|]. Qed.

Lemma rd_some m i : 0 ≤ i < zlen m → ∃ c, rd m i = Some c.
Proof.
  intros Hi. rewrite rd_lookup by lia. apply lookup_lt_is_Some_2. unfold zlen in Hi. lia.
Qed.

Lemma rd_app A x B i : i = zlen A → rd (A ++ x :: B) i = Some x.
Proof. intros ->. unfold zlen. rewrite rd_lookup, Nat2Z.id by lia. by apply list_lookup_middle. Qed.

Lemma wr_app A x B i c : i = zlen A → wr (A ++ x :: B) i c = Some (A ++ u8 c :: B).
Proof. intros ->. unfold wr. exact (store_app A [x] B (zlen A) [u8 c] eq_refl eq_refl). Qed.

Lemma split_at (m : list Z) i : 0 ≤ i < zlen m → ∃ A x B, m = A ++ x :: B ∧ zlen A = i.
Proof.
  intros Hi. unfold zlen in Hi. destruct (lookup_lt_is_Some_2 m (Z.to_nat i)) as [x Hx]; [lia|].
  exists (take (Z.to_nat i) m), x, (drop (S (Z.to_nat i)) m). rewrite take_drop_middle by done.
  split; [done|]. len.
Qed.

Lemma u8_byte c : byte_ok c → u8 c = c.
Proof. intros. apply wrapu_small. exact H. Qed.

(** ** The compressed format *)

(** [n] bytes copied from [off + 1] bytes before, one at a time. *)
Fixpoint copy_back (n : nat) (o : list Z) (off : Z) : list Z :=
  match n with
  | O => o
  | S n => copy_back n (o ++ [default 0 (rd o (zlen o - off - 1))]) off
  end.

(** The bytes of a reference of [n] bytes at the offset [off]. *)
Definition ref_token (off n : Z) : list Z :=
  if n - 2 <? 7 then [off / 256 + (n - 2) * 32; off mod 256]
  else [off / 256 + 224; n - 2 - 7; off mod 256].

(** [dec t o o']: the tokens [t] extend the output [o] to [o']. *)
Inductive dec : list Z → list Z → list Z → Prop :=
  | dec_nil o : dec [] o o
  | dec_lit L t o o' : 1 ≤ zlen L ≤ 32 → dec t (o ++ L) o' → dec ((zlen L - 1) :: L ++ t) o o'
  | dec_ref off n t o o' :
      0 ≤ off < 8192 → off < zlen o → 3 ≤ n ≤ 264 → dec t (copy_back (Z.to_nat n) o off) o' →
      dec (ref_token off n ++ t) o o'.

Lemma dec_app t1 o o1 : dec t1 o o1 → ∀ t2 o2, dec t2 o1 o2 → dec (t1 ++ t2) o o2.
Proof.
  induction 1 as [|L t o o' HL Hd IH|off n t o o' Ho Hz Hn Hd IH]; intros t2 o2 H2; [done|..].
  - cbn. rewrite <- app_assoc. by apply dec_lit, IH.
  - rewrite <- app_assoc. apply dec_ref; auto.
Qed.

Lemma copy_back_len n : ∀ o off, zlen (copy_back n o off) = zlen o + Z.of_nat n.
Proof. induction n as [|n IH]; intros o off; cbn [copy_back]; [lia|]. rewrite IH. len. Qed.

Lemma copy_back_prefix n : ∀ o off, ∃ k, copy_back n o off = o ++ k.
Proof.
  induction n as [|n IH]; intros o off; cbn [copy_back]; [exists []; by rewrite app_nil_r|].
  destruct (IH (o ++ [default 0 (rd o (zlen o - off - 1))]) off) as [k ->]. rewrite <- app_assoc. eauto.
Qed.

Lemma dec_prefix t o o' : dec t o o' → zlen o ≤ zlen o'.
Proof.
  induction 1 as [|L t o o' HL Hd IH|off n t o o' Ho Hz Hn Hd IH]; [lia|..].
  - revert IH. len.
  - rewrite copy_back_len in IH. lia.
Qed.

(** Copying back inside a sequence that repeats itself. *)
Lemma copy_back_repeat D off n : ∀ p,
  0 ≤ off < p → p + Z.of_nat n ≤ zlen D →
  (∀ k, 0 ≤ k < Z.of_nat n → rd D (p - off - 1 + k) = rd D (p + k)) →
  copy_back n (take (Z.to_nat p) D) off = take (Z.to_nat (p + Z.of_nat n)) D.
Proof.
  induction n as [|n IH]; intros p Ho Hp Heq; cbn [copy_back]; [do 2 f_equal; lia|].
  assert (zlen (take (Z.to_nat p) D) = p) as Hl by len. rewrite Hl.
  destruct (rd_some D p) as [c Hc]; [lia|].
  assert (rd (take (Z.to_nat p) D) (p - off - 1) = Some c) as ->.
  { rewrite <- Hc. specialize (Heq 0 ltac:(lia)). rewrite !Z.add_0_r in Heq. rewrite <- Heq.
    rewrite !rd_lookup by lia. by rewrite lookup_take_lt by lia. }
  cbn [default]. unfold id.
  assert (take (Z.to_nat p) D ++ [c] = take (Z.to_nat (p + 1)) D) as ->.
  { replace (Z.to_nat (p + 1)) with (S (Z.to_nat p)) by lia. symmetry. apply take_S_r.
    by rewrite <- rd_lookup by lia. }
  rewrite IH; [do 2 f_equal; lia|lia..|]. intros k Hk.
  replace (p + 1 - off - 1 + k) with (p - off - 1 + (k + 1)) by lia.
  replace (p + 1 + k) with (p + (k + 1)) by lia. apply Heq. lia.
Qed.

(** ** The decoder follows the format *)

Lemma lit_copy_spec L : ∀ p A R op,
  bytes_ok L → op = zlen A → zlen L ≤ zlen R →
  lit_copy (length L) (L ++ p) (A ++ R) op = Some (p, A ++ L ++ drop (length L) R, op + zlen L).
Proof.
  induction L as [|c L IH]; intros p A R op Hb Hop Hl; cbn [lit_copy length app].
  { do 2 f_equal. len. }
  apply Forall_cons in Hb as [Hc Hb]. destruct R as [|x R]; [len|].
  rewrite wr_app by done. cbn [mbind option_bind]. rewrite u8_byte by done.
  replace (A ++ c :: R) with ((A ++ [c]) ++ R) by by rewrite <- app_assoc.
  rewrite (IH p (A ++ [c]) R (op + 1)) by first [done | subst op; len | len].
  rewrite <- app_assoc. cbn [app drop]. do 2 f_equal. len.
Qed.

Lemma ref_copy_spec n off : ∀ A R ref op,
  bytes_ok A → op = zlen A → ref = op - off - 1 → 0 ≤ off < zlen A → Z.of_nat n ≤ zlen R →
  ref_copy n (A ++ R) ref op = Some (copy_back n A off ++ drop n R, op + Z.of_nat n) ∧
  bytes_ok (copy_back n A off).
Proof.
  induction n as [|n IH]; intros A R ref op Hb Hop Href Ho Hl; cbn [ref_copy copy_back].
  { split; [do 2 f_equal; lia|done]. }
  destruct R as [|x R]; [len|]. destruct (rd_some A ref) as [c Hc]; [lia|].
  assert (rd (A ++ x :: R) ref = Some c) as ->.
  { rewrite rd_lookup in Hc |- * by lia. by apply lookup_app_l_Some. }
  cbn [mbind option_bind]. rewrite wr_app by done. cbn [mbind option_bind].
  assert (byte_ok c) as Hcb.
  { rewrite rd_lookup in Hc by lia. unfold bytes_ok in Hb. rewrite Forall_lookup in Hb. by eapply Hb. }
  rewrite u8_byte by done. rewrite <- Hop, <- Href, Hc. cbn [default]. unfold id.
  replace (A ++ c :: R) with ((A ++ [c]) ++ R) by by rewrite <- app_assoc.
  destruct (IH (A ++ [c]) R (ref + 1) (op + 1)) as [-> Hbb];
    [by apply Forall_app; split; [|constructor]|subst op; len|lia|len|len|].
  split; [do 2 f_equal; lia|done].
Qed.

(** The end of a turn of the loop. *)
Lemma decomp_next fuel p o o' R out_len :
  dec p o o' → zlen (o ++ R) = out_len →
  (p ≠ [] → ∃ R', decomp_loop fuel p (o ++ R) (zlen o) out_len = Some (o' ++ R', inl (zlen o')) ∧
     zlen (o' ++ R') = out_len) →
  ∃ R', (if bool_decide (p = []) then Some (o ++ R, inl (zlen o))
         else decomp_loop fuel p (o ++ R) (zlen o) out_len) = Some (o' ++ R', inl (zlen o')) ∧
    zlen (o' ++ R') = out_len.
Proof.
  intros Hd Hlen Hn. case_bool_decide as Hp; [|by apply Hn]. subst p. inversion Hd; subst.
  - by exists R.
  - unfold ref_token in *. by destruct (n - 2 <? 7).
Qed.

Lemma ref_token_cases off n :
  0 ≤ off < 8192 → 3 ≤ n ≤ 264 →
  (∃ c, ref_token off n = [c; off mod 256] ∧ 32 ≤ c < 256 ∧ Z.shiftr c 5 = n - 2 ∧ n - 2 ≠ 7 ∧
     Z.land c 0x1f = off / 256) ∨
  (∃ c d, ref_token off n = [c; d; off mod 256] ∧ 32 ≤ c < 256 ∧ Z.shiftr c 5 = 7 ∧ 0 ≤ d < 256 ∧
     7 + d = n - 2 ∧ Z.land c 0x1f = off / 256).
Proof.
  intros Ho Hn. unfold ref_token.
  assert (0 ≤ off / 256 < 32) as Hq by divlia.
  assert (∀ k, 0 ≤ k → Z.land (off / 256 + k * 32) 0x1f = off / 256) as Hland.
  { intros k Hk. change 0x1f with (Z.ones 5). rewrite Z.land_ones by lia. change (2 ^ 5) with 32.
    rewrite Z.mod_add by lia. by apply Z.mod_small. }
  assert (∀ k, 0 ≤ k → Z.shiftr (off / 256 + k * 32) 5 = k) as Hshift.
  { intros k Hk. rewrite Z.shiftr_div_pow2 by lia. change (2 ^ 5) with 32.
    rewrite Z.div_add, Z.div_small by lia. lia. }
  destruct (Z.ltb_spec (n - 2) 7).
  - left. eexists. split; [done|]. rewrite Hland, Hshift by lia. split_and!; lia.
  - right. do 2 eexists. split; [done|]. change 224 with (7 * 32). rewrite Hland, Hshift by lia.
    split_and!; lia.
Qed.

Lemma dec_bytes t o o' : dec t o o' → bytes_ok t → bytes_ok o → bytes_ok o'.
Proof.
  induction 1 as [|L t o o' HL Hd IH|off n t o o' Ho Hz Hn Hd IH]; intros Ht Hb; [done|..].
  - apply Forall_cons in Ht as [_ Ht]. apply Forall_app in Ht as [HbL Ht]. apply IH; [done|].
    by apply Forall_app.
  - apply Forall_app in Ht as [_ Ht]. apply IH; [done|].
    destruct (ref_copy_spec (Z.to_nat n) off o (replicate (Z.to_nat n) 0) (zlen o - off - 1) (zlen o))
      as [_ ?]; [done..|lia|len|done].
Qed.

Lemma decomp_dec t o o' : dec t o o' → ∀ fuel R out_len,
  t ≠ [] → bytes_ok t → bytes_ok o → (length t ≤ fuel)%nat → zlen (o ++ R) = out_len → zlen o' ≤ out_len →
  ∃ R', decomp_loop fuel t (o ++ R) (zlen o) out_len = Some (o' ++ R', inl (zlen o')) ∧
    zlen (o' ++ R') = out_len.
Proof.
  induction 1 as [|L t o o' HL Hd IH|off n t o o' Ho Hz Hn Hd IH];
    intros fuel R out_len Hne Ht Hb Hf Hlen Hfit; [done|..]; pose proof (dec_prefix _ _ _ Hd) as Hpre.
  - apply Forall_cons in Ht as [Hc Ht]. apply Forall_app in Ht as [HbL Ht].
    destruct fuel as [|fuel]; [cbn in Hf; lia|]. cbn [decomp_loop].
    assert (zlen (o ++ L) = zlen o + zlen L) as El by len. rewrite El in Hpre.
    destruct (Z.ltb_spec (zlen L - 1) 32); [|lia]. cbv zeta.
    replace (zlen L - 1 + 1) with (zlen L) by lia.
    destruct (Z.ltb_spec out_len (zlen o + zlen L)); [lia|].
    destruct (Z.ltb_spec (zlen (L ++ t)) (zlen L)); [len|].
    replace (Z.to_nat (zlen L)) with (length L) by (unfold zlen; lia).
    rewrite (lit_copy_spec L t o R (zlen o) HbL eq_refl) by len.
    cbn [mbind option_bind]. rewrite app_assoc, <- El.
    assert (zlen ((o ++ L) ++ drop (length L) R) = out_len) by (subst out_len; len).
    apply decomp_next; [done..|]. intros Hp.
    apply IH; try done; [by apply Forall_app|cbn in Hf; rewrite length_app in Hf; lia].
  - apply Forall_app in Ht as [Htok Ht].
    assert (length (ref_token off n) ≤ 3 ∧ 2 ≤ length (ref_token off n))%nat as [_ Hl2]
      by (unfold ref_token; destruct (n - 2 <? 7); cbn; lia).
    destruct fuel as [|fuel]; [rewrite length_app in Hf; lia|].
    pose proof (copy_back_len (Z.to_nat n) o off) as Hcl. rewrite Hcl in Hpre.
    assert (∀ len r, len + 2 = n → r - off mod 256 = zlen o - off - 1 →
      ∃ R', (if out_len <? zlen o + len + 2 then Some (o ++ R, inr E2BIG) else
        if r - off mod 256 <? 0 then Some (o ++ R, inr EINVAL) else
        '(out, op) ← ref_copy (Z.to_nat (len + 2)) (o ++ R) (r - off mod 256) (zlen o);
        if bool_decide (t = []) then Some (out, inl op) else decomp_loop fuel t out op out_len)
        = Some (o' ++ R', inl (zlen o')) ∧ zlen (o' ++ R') = out_len) as Hend.
    { intros ln r Hln ->. rewrite Hln. destruct (Z.ltb_spec out_len (zlen o + ln + 2)); [lia|].
      destruct (Z.ltb_spec (zlen o - off - 1) 0); [lia|].
      destruct (ref_copy_spec (Z.to_nat n) off o R (zlen o - off - 1) (zlen o)) as [-> Hbb];
        [done..|lia|revert Hlen; len|].
      cbn [mbind option_bind]. rewrite <- Hcl.
      assert (zlen (copy_back (Z.to_nat n) o off ++ drop (Z.to_nat n) R) = out_len) by (revert Hcl; len).
      apply decomp_next; [done..|]. intros Hp. rewrite length_app in Hf. apply IH; try done; lia. }
    destruct (ref_token_cases off n Ho Hn) as [(c & E & Hc & Hs & H7 & Hand)|(c & d & E & Hc & Hs & Hd' & H7 & Hand)];
      rewrite E in *; cbn [app decomp_loop]; (destruct (Z.ltb_spec c 32); [lia|]); cbv zeta;
      rewrite Hs, Hand, bool_decide_false by done; rewrite Z.shiftl_mul_pow2 by lia; change (2 ^ 8) with 256.
    + destruct (Z.eqb_spec (n - 2) 7); [done|]. apply Hend; [lia|divlia].
    + destruct (Z.eqb_spec 7 7); [|done]. rewrite bool_decide_false by done. apply Hend; [lia|divlia].
Qed.

(** ** The decoder never leaves its buffers *)

Definition safe_result (op out_len : Z) (x : option (list Z * (Z + errno))) : Prop :=
  ∃ out' r, x = Some (out', r) ∧ zlen out' = out_len ∧
    match r with inl n => op < n ≤ out_len | inr _ => True end.

Lemma safe_error op out_len (out : list Z) e : zlen out = out_len → safe_result op out_len (Some (out, inr e)).
Proof. intros. by exists out, (inr e). Qed.

Lemma decomp_safe fuel : ∀ p A R op out_len,
  p ≠ [] → bytes_ok p → (length p ≤ fuel)%nat → bytes_ok (A ++ R) → zlen (A ++ R) = out_len → zlen A = op →
  safe_result op out_len (decomp_loop fuel p (A ++ R) op out_len).
Proof.
  induction fuel as [|fuel IH]; intros p A R op out_len Hne Hp Hf Hb Hlen Hop.
  { destruct p; [done|]. cbn in Hf. lia. }
  destruct p as [|ctrl p]; [done|]. apply Forall_cons in Hp as [Hc Hp]. cbn [length] in Hf.
  apply Forall_app in Hb as [HbA HbR].
  assert (∀ q A' R' op', (length q ≤ fuel)%nat → bytes_ok q → bytes_ok A' → bytes_ok R' →
    zlen (A' ++ R') = out_len → zlen A' = op' → op < op' →
    safe_result op out_len (if bool_decide (q = []) then Some (A' ++ R', inl op')
      else decomp_loop fuel q (A' ++ R') op' out_len)) as Hnext.
  { intros q A' R' op' Hq Hqb HA' HR' Hl Hop' Hlt. case_bool_decide.
    - do 2 eexists. split; [done|]. split; [done|]. revert Hl. len.
    - destruct (IH q A' R' op' out_len) as (o' & r & -> & Ho' & Hr); try done; [by apply Forall_app|].
      do 2 eexists. split; [done|]. split; [done|]. destruct r; [lia|done]. }
  cbn [decomp_loop]. cbv zeta. destruct (Z.ltb_spec ctrl 32).
  - case_if; [by apply safe_error|]. case_if; [by apply safe_error|].
    assert (∃ L q, p = L ++ q ∧ length L = Z.to_nat (ctrl + 1)) as (L & q & -> & HL).
    { exists (take (Z.to_nat (ctrl + 1)) p), (drop (Z.to_nat (ctrl + 1)) p). rewrite take_drop.
      split; [done|]. destruct Hc. len. }
    apply Forall_app in Hp as [HpL Hq]. destruct Hc.
    rewrite <- HL, (lit_copy_spec L q A R op) by first [done | revert Hlen; len].
    cbn [mbind option_bind]. rewrite app_assoc. apply Hnext; try done; try (revert Hlen; len).
    + by apply Forall_app.
    + by apply Forall_drop.
  - case_bool_decide; [by apply safe_error|].
    assert (1 ≤ Z.shiftr ctrl 5 ≤ 7) as Hs.
    { destruct Hc. rewrite Z.shiftr_div_pow2 by lia. change (2 ^ 5) with 32. divlia. }
    assert (0 ≤ Z.land ctrl 0x1f) as Hl by (apply Z.land_nonneg; right; lia).
    assert (∀ ln c q, 1 ≤ ln → byte_ok c → bytes_ok q → (length q ≤ fuel)%nat →
      safe_result op out_len
        (if out_len <? op + ln + 2 then Some (A ++ R, inr E2BIG) else
         if op - Z.shiftl (Z.land ctrl 0x1f) 8 - 1 - c <? 0 then Some (A ++ R, inr EINVAL) else
         '(out, op) ← ref_copy (Z.to_nat (ln + 2)) (A ++ R) (op - Z.shiftl (Z.land ctrl 0x1f) 8 - 1 - c) op;
         if bool_decide (q = []) then Some (out, inl op) else decomp_loop fuel q out op out_len)) as Hend.
    { intros ln c q Hln [Hc0 _] Hq Hlq. case_if; [by apply safe_error|]. case_if; [by apply safe_error|].
      rewrite Z.shiftl_mul_pow2 in * by lia.
      destruct (ref_copy_spec (Z.to_nat (ln + 2)) (Z.land ctrl 0x1f * 2 ^ 8 + c) A R
        (op - Z.land ctrl 0x1f * 2 ^ 8 - 1 - c) op) as [-> Hcb]; [done..|lia|lia|revert Hlen; len|].
      cbn [mbind option_bind]. pose proof (copy_back_len (Z.to_nat (ln + 2)) A (Z.land ctrl 0x1f * 2 ^ 8 + c)).
      apply Hnext; try done; try lia; [by apply Forall_drop|]. revert Hlen. len. }
    destruct p as [|c p]; [done|]. apply Forall_cons in Hp as [Hcb Hp]. cbn [length] in Hf.
    destruct (Z.eqb_spec (Z.shiftr ctrl 5) 7).
    + case_bool_decide; [by apply safe_error|]. destruct p as [|d p]; [done|].
      apply Forall_cons in Hp as [Hdb Hp]. cbn [length] in Hf.
      apply Hend; try done; [destruct Hcb; lia|lia].
    + apply Hend; try done; lia.
Qed.

(** ** The compressor writes the format *)

Section compressor.
#[local] Set Default Proof Using "All".
Context (junk : Z → Z) (base : Z) (D : list Z) (out_len : Z) (cap : Z).
Hypothesis junk_ok : ∀ i, in_u 64 (junk i).
Hypothesis base_ok : MAX_OFF ≤ base ∧ base + zlen D < 2 ^ 64.
Hypothesis D_ok : bytes_ok D.
Hypothesis cap_ok : out_len + 1 ≤ cap.

Local Notation same_upto ref i n := (∀ k, 0 ≤ k < n → rd D (ref + k) = rd D (i + k)).

Definition htab_ok (ht : gmap Z Z) : Prop := ∀ i a, ht !! i = Some a → in_u 64 a.

(** The state between two turns: complete tokens [T] for the input before the
    pending literals [L], the place of their header, the literals. *)
Definition inv (s : cstate) : Prop :=
  ∃ T x L R, out s = T ++ x :: L ++ R ∧ op s = zlen T + 1 + zlen L ∧ lit s = zlen L ∧
    zlen L < 32 ∧ op s ≤ out_len + 1 ∧ (0 < zlen L → op s ≤ out_len) ∧ zlen (out s) = cap ∧
    0 ≤ ip s ≤ zlen D ∧ bytes_ok T ∧
    (∃ P, dec T [] P ∧ P ++ L = take (Z.to_nat (ip s)) D) ∧ htab_ok (htab s).

Lemma same_byte_spec ref i k :
  0 ≤ ref + k < zlen D → 0 ≤ i + k < zlen D →
  ∃ b, same_byte D ref i k = Some b ∧ (b = true ↔ rd D (ref + k) = rd D (i + k)).
Proof.
  intros Hr Hi. unfold same_byte. destruct (rd_some D _ Hr) as [a ->]. destruct (rd_some D _ Hi) as [c ->].
  cbn [mbind option_bind]. eexists. split; [done|]. rewrite Z.eqb_eq. naive_solver.
Qed.

Lemma test_match_spec i r :
  0 ≤ i < zlen D → in_u 64 r →
  test_match base D i r = Some None ∨
  ∃ off ref, test_match base D i r = Some (Some (off, ref)) ∧ 0 ≤ off < 8192 ∧ ref = i - 1 - off ∧
    0 < ref ∧ i + 4 < zlen D ∧ same_upto ref i 3.
Proof.
  intros Hi Hr. pose proof base_ok as [Hbase Hend]. unfold test_match, MAX_OFF in *. cbv zeta.
  destruct ((u64 (base + i - r - 1) <? 8192) && (i + 4 <? zlen D) && (0 <? r - base)) eqn:Ht; [|by left].
  bool_tests. assert (u64 (base + i - r - 1) = base + i - r - 1) as Eoff.
  { unfold wrapu, in_u in *. destruct (Z.lt_ge_cases (base + i - r - 1) 0).
    - assert ((base + i - r - 1) mod 2 ^ 64 = base + i - r - 1 + 1 * 2 ^ 64) as E.
      { rewrite <- (Z.mod_add _ 1) by lia. apply Z.mod_small. lia. }
      lia.
    - apply Z.mod_small. lia. }
  pose proof (wrapu_range 64 (base + i - r - 1) ltac:(lia)) as [Hoff0 _]. rewrite Eoff in *.
  destruct (same_byte_spec (r - base) i 0) as (b0 & -> & Hb0); [lia..|]. cbn [mbind option_bind].
  destruct b0; cbn [negb]; [|by left].
  destruct (same_byte_spec (r - base) i 1) as (b1 & -> & Hb1); [lia..|]. cbn [mbind option_bind].
  destruct b1; cbn [negb]; [|by left].
  destruct (same_byte_spec (r - base) i 2) as (b2 & -> & Hb2); [lia..|]. cbn [mbind option_bind].
  destruct b2; cbn [negb]; [|by left]. right. do 2 eexists. split; [done|]. split_and!; try lia.
  intros k Hk. assert (k = 0 ∨ k = 1 ∨ k = 2) as [-> | [-> | ->]] by lia; naive_solver.
Qed.

Lemma unrolled_spec n ref i : ∀ len,
  0 < ref < i → 0 ≤ len → same_upto ref i (len + 1) → i + len + Z.of_nat n < zlen D →
  (∃ len', unrolled D n ref i len = Some (inl len') ∧ len < len' ≤ len + Z.of_nat n ∧ same_upto ref i len') ∨
  (unrolled D n ref i len = Some (inr (len + Z.of_nat n)) ∧ same_upto ref i (len + Z.of_nat n + 1)).
Proof.
  induction n as [|n IH]; intros len Hr Hl Hs Hb; cbn [unrolled].
  { right. by replace (len + Z.of_nat 0) with len by lia. }
  cbv zeta. destruct (same_byte_spec ref i (len + 1)) as (b & -> & Hb'); [lia..|]. cbn [mbind option_bind].
  destruct b; cbn [negb].
  - replace (len + Z.of_nat (S n)) with (len + 1 + Z.of_nat n) by lia.
    destruct (IH (len + 1)) as [(l' & E & Hl' & Hs')|[E Hs']]; [done|lia| |lia|..].
    + intros k Hk. destruct (decide (k < len + 1)); [apply Hs; lia|].
      replace k with (len + 1) by lia. by apply Hb'.
    + left. exists l'. split; [done|]. split; [lia|done].
    + by right.
  - left. exists (len + 1). split; [done|]. split; [lia|done].
Qed.

Lemma extend_spec ref i maxlen fuel : ∀ len,
  0 < ref < i → 0 ≤ len → same_upto ref i (len + 1) → i + maxlen ≤ zlen D →
  maxlen - len < Z.of_nat fuel → (0 < fuel)%nat →
  ∃ len', extend D fuel ref i len maxlen = Some len' ∧ len < len' ≤ Z.max (len + 1) maxlen ∧
    same_upto ref i len'.
Proof.
  induction fuel as [|fuel IH]; intros len Hr Hl Hs Hb Hf H0; [lia|]. cbn [extend]. cbv zeta.
  destruct (Z.ltb_spec (len + 1) maxlen).
  - destruct (same_byte_spec ref i (len + 1)) as (b & -> & Hb'); [lia..|]. cbn [mbind option_bind].
    destruct b.
    + destruct (IH (len + 1)) as (l' & -> & Hl' & Hs'); [done|lia| |lia|lia|lia|].
      * intros k Hk. destruct (decide (k < len + 1)); [apply Hs; lia|].
        replace k with (len + 1) by lia. by apply Hb'.
      * exists l'. split; [done|]. split; [lia|done].
    + exists (len + 1). split; [done|]. split; [lia|done].
  - exists (len + 1). split; [done|]. split; [lia|done].
Qed.

Lemma match_length_spec ref i :
  0 < ref < i → i + 4 < zlen D → same_upto ref i 3 →
  ∃ n, match_length D ref i (if MAX_REF <? zlen D - i - 2 then MAX_REF else zlen D - i - 2) = Some n ∧
    3 ≤ n ≤ 264 ∧ i + n ≤ zlen D ∧ same_upto ref i n.
Proof.
  intros Hr Hi Hs. unfold match_length, MAX_REF.
  set (m := if 264 <? zlen D - i - 2 then 264 else zlen D - i - 2).
  assert (m ≤ 264 ∧ m ≤ zlen D - i - 2 ∧ 3 ≤ m) as (Hm & Hm2 & Hm3).
  { subst m. destruct (Z.ltb_spec 264 (zlen D - i - 2)); lia. }
  clearbody m. destruct (Z.ltb_spec 16 m).
  - destruct (unrolled_spec 16 ref i 2) as [(l' & -> & Hl & Hs')|[-> Hs']]; [done|lia|done|lia|..];
      cbn [mbind option_bind].
    + exists l'. split; [done|]. split; [lia|]. split; [lia|done].
    + destruct (extend_spec ref i m 265 (2 + Z.of_nat 16)) as (l' & -> & Hl & Hs''); [done|lia|done|lia..|].
      exists l'. split; [done|]. split; [lia|]. split; [lia|done].
  - destruct (extend_spec ref i m 265 2) as (l' & -> & Hl & Hs''); [done|lia|done|lia..|].
    exists l'. split; [done|]. split; [lia|]. split; [lia|done].
Qed.

(** All of the input before [ip] is in complete tokens. *)
Definition complete (s : cstate) : Prop :=
  ∃ T R, out s = T ++ R ∧ op s = zlen T ∧ op s ≤ out_len ∧ zlen (out s) = cap ∧ bytes_ok T ∧
    dec T [] (take (Z.to_nat (ip s)) D).

Lemma take_bytes n : bytes_ok (take n D).
Proof. apply Forall_take, D_ok. Qed.

Lemma dec_snoc_lit T P L :
  dec T [] P → 1 ≤ zlen L ≤ 32 → dec (T ++ (zlen L - 1) :: L) [] (P ++ L).
Proof.
  intros Hd HL. eapply dec_app; [done|]. rewrite <- (app_nil_r L) at 2. apply dec_lit; [done|]. constructor.
Qed.

Lemma stop_run_spec s :
  inv s → ∃ s', stop_run s = Some s' ∧ complete s' ∧ ip s' = ip s ∧ htab s' = htab s.
Proof.
  intros (T & x & L & R & Eo & Eop & El & HL & Hop & HopL & Hcap & Hip & HT & (P & Hd & HP) & Hh).
  unfold stop_run. rewrite Eo, wr_app by lia. cbn [mbind option_bind]. eexists. split; [done|].
  split; [|done]. destruct L as [|c L].
  - rewrite El. change (zlen []) with 0. cbn [Z.eqb]. exists T, (u8 (0 - 1) :: R). cbn [out op ip app].
    rewrite app_nil_r in HP. rewrite <- HP. rewrite Eo in Hcap. cbn in Hcap.
    change (zlen (@nil Z)) with 0 in *. split_and!; try done; try lia. revert Hcap. len.
  - set (L' := c :: L) in *. assert (1 ≤ zlen L') as H1 by (subst L'; len).
    destruct (Z.eqb_spec (lit s) 0); [lia|].
    assert (bytes_ok L') as HbL.
    { pose proof (take_bytes (Z.to_nat (ip s))) as Hb. rewrite <- HP in Hb. by apply Forall_app in Hb as [_ ?]. }
    rewrite El, u8_byte by (split; lia). exists (T ++ (zlen L' - 1) :: L'), R. cbn [out op ip].
    rewrite <- HP. split_and!; try lia.
    + by rewrite <- app_assoc.
    + rewrite Eop. len.
    + rewrite Eo in Hcap. revert Hcap. len.
    + apply Forall_app. split; [done|]. constructor; [split; lia|done].
    + apply dec_snoc_lit; [done|lia].
Qed.

Lemma take_S_rd i c : 0 ≤ i → rd D i = Some c → take (Z.to_nat (i + 1)) D = take (Z.to_nat i) D ++ [c].
Proof.
  intros Hi Hc. replace (Z.to_nat (i + 1)) with (S (Z.to_nat i)) by lia. apply take_S_r.
  by rewrite <- rd_lookup.
Qed.

Lemma byte_at i c : 0 ≤ i → rd D i = Some c → byte_ok c.
Proof.
  intros Hi Hc. rewrite rd_lookup in Hc by done. pose proof D_ok as HD. unfold bytes_ok in HD.
  rewrite Forall_lookup in HD. by eapply HD.
Qed.

Lemma put_literal_spec s :
  inv s → ip s < zlen D → op s < out_len →
  ∃ s', put_literal D s = Some s' ∧ inv s' ∧ ip s' = ip s + 1 ∧ op s' ≤ op s + 2.
Proof.
  intros (T & x & L & R & Eo & Eop & El & HL & Hop & HopL & Hcap & Hip & HT & (P & Hd & HP) & Hh) Hi Ho.
  unfold put_literal. destruct (rd_some D (ip s)) as [c Hc]; [lia|]. rewrite Hc. cbn [mbind option_bind].
  pose proof (byte_at _ _ (proj1 Hip) Hc) as Hb. pose proof (take_S_rd _ _ (proj1 Hip) Hc) as Htake.
  assert (zlen R = cap - op s) as HR by (rewrite Eo in Hcap; revert Hcap; len).
  destruct R as [|r1 [|r2 R]]; [revert HR; len..|]. cbv zeta.
  replace (out s) with ((T ++ x :: L) ++ r1 :: r2 :: R) by (rewrite Eo, <- app_assoc; done).
  rewrite wr_app by len. cbn [mbind option_bind]. rewrite u8_byte by done. unfold MAX_LIT.
  set (L' := L ++ [c]). assert (zlen L' = zlen L + 1) as HL' by (subst L'; len).
  replace ((T ++ x :: L) ++ c :: r2 :: R) with (T ++ x :: L' ++ r2 :: R)
    by (subst L'; rewrite <- ?app_assoc; cbn; by rewrite <- ?app_assoc).
  assert (P ++ L' = take (Z.to_nat (ip s + 1)) D) as HP' by (subst L'; by rewrite app_assoc, HP, Htake).
  assert (bytes_ok L') as HbL.
  { pose proof (take_bytes (Z.to_nat (ip s + 1))) as Hbt. rewrite <- HP' in Hbt. by apply Forall_app in Hbt as [_ ?]. }
  clearbody L'. destruct (Z.eqb_spec (lit s + 1) 32).
  - rewrite wr_app by lia. cbn [mbind option_bind]. eexists. split; [done|]. cbn [ip op]. split; [|lia].
    replace (lit s + 1 - 1) with (zlen L' - 1) by lia. rewrite u8_byte by (split; lia).
    exists (T ++ (zlen L' - 1) :: L'), r2, [], R. cbn [out op lit ip htab]. change (zlen []) with 0.
    split_and!; try done; try lia.
    + rewrite <- app_assoc. done.
    + len.
    + revert HR. len.
    + apply Forall_app. split; [done|]. constructor; [split; lia|done].
    + exists (P ++ L'). split; [apply dec_snoc_lit; [done|lia]|]. by rewrite app_nil_r.
  - eexists. split; [done|]. cbn [ip op]. split; [|lia].
    exists T, x, L', (r2 :: R). cbn [out op lit ip htab]. split_and!; try done; try lia.
    + revert HR. len.
    + by exists P.
Qed.

Lemma ref_token_bytes off n : 0 ≤ off < 8192 → 3 ≤ n ≤ 264 → bytes_ok (ref_token off n).
Proof.
  intros Ho Hn. unfold ref_token. assert (0 ≤ off / 256 < 32) by divlia.
  destruct (Z.ltb_spec (n - 2) 7); repeat constructor; try lia; divlia.
Qed.

(** [put_ref] writes the token and leaves room for the next header. *)
Lemma put_ref_writes s T R off n :
  out s = T ++ R → op s = zlen T → 5 ≤ zlen R → 0 ≤ off < 8192 → 3 ≤ n ≤ 264 →
  ∃ R', R' ≠ [] ∧ zlen R = zlen (ref_token off n) + zlen R' ∧
    put_ref s off (n - 2) =
      Some (mkC (ip s) (op s + zlen (ref_token off n) + 1) 0 (hval s) (htab s) (T ++ ref_token off n ++ R')).
Proof.
  intros Eo Eop HR Ho Hn. destruct R as [|r1 [|r2 [|r3 [|r4 R]]]]; [revert HR; len..|].
  unfold put_ref, ref_token. rewrite Eo, !Z.shiftl_mul_pow2, Z.shiftr_div_pow2 by lia.
  change (2 ^ 8) with 256. change (2 ^ 5) with 32. assert (0 ≤ off / 256 < 32) by divlia.
  destruct (Z.ltb_spec (n - 2) 7).
  - rewrite wr_app by done. cbn [mbind option_bind]. rewrite u8_byte by (split; lia).
    change (T ++ ?a :: r2 :: ?m) with (T ++ [a] ++ r2 :: m). rewrite app_assoc, wr_app by len.
    cbn [mbind option_bind]. rewrite <- app_assoc. exists (r3 :: r4 :: R). split; [done|]. split; [len|].
    do 2 f_equal. len.
  - rewrite wr_app by done. cbn [mbind option_bind]. rewrite u8_byte by (split; lia).
    change (T ++ ?a :: r2 :: ?m) with (T ++ [a] ++ r2 :: m). rewrite app_assoc, wr_app by len.
    cbn [mbind option_bind]. rewrite u8_byte by (split; lia). rewrite <- app_assoc. cbn [app].
    change (T ++ ?a :: ?b :: r3 :: ?m) with (T ++ [a; b] ++ r3 :: m). rewrite app_assoc, wr_app by len.
    cbn [mbind option_bind]. rewrite <- app_assoc. exists (r4 :: R). split; [done|]. split; [len|].
    do 2 f_equal. len.
Qed.

Lemma put_ref_spec s off n hv :
  complete s → htab_ok (htab s) → op s + 4 < out_len → 0 ≤ off < 8192 → off < ip s → 3 ≤ n ≤ 264 →
  0 ≤ ip s → ip s + n ≤ zlen D → same_upto (ip s - 1 - off) (ip s) n →
  ∃ s', put_ref s off (n - 2) = Some s' ∧ ip s' = ip s ∧
    inv (mkC (ip s + n) (op s') (lit s') hv (htab s') (out s')).
Proof.
  intros (T & R & Eo & Eop & Hop & Hcap & HT & Hd) Hh Hroom Ho Hoff Hn Hip Hfit Hsame.
  assert (zlen R = cap - op s) as HR by (rewrite Eo in Hcap; revert Hcap; len).
  destruct (put_ref_writes s T R off n Eo Eop ltac:(lia) Ho Hn) as (R' & HR' & HzR & ->).
  eexists. split; [done|]. split; [done|]. destruct R' as [|x R']; [done|].
  assert (2 ≤ zlen (ref_token off n) ≤ 3) as Ht by (unfold ref_token; destruct (n - 2 <? 7); done).
  exists (T ++ ref_token off n), x, [], R'. cbn [out op lit ip htab]. change (zlen []) with 0.
  split_and!; try done; try lia.
  - by rewrite <- app_assoc.
  - len.
  - revert HzR HR. len.
  - apply Forall_app. split; [done|]. by apply ref_token_bytes.
  - exists (take (Z.to_nat (ip s + n)) D). rewrite app_nil_r. split; [|done].
    eapply dec_app; [exact Hd|]. rewrite <- (app_nil_r (ref_token off n)).
    apply dec_ref; [done|len|done|].
    rewrite copy_back_repeat; [|lia|lia|].
    + rewrite Z2Nat.id by lia. constructor.
    + intros k Hk. replace (ip s - off - 1 + k) with (ip s - 1 - off + k) by lia. apply Hsame. lia.
Qed.

Lemma htab_insert ht i a : htab_ok ht → 0 ≤ a ≤ zlen D → htab_ok (<[i := base + a]> ht).
Proof.
  intros Hh Ha j b. pose proof base_ok as [Hb1 Hb2]. unfold MAX_OFF in Hb1.
  destruct (decide (i = j)) as [->|Hne].
  - rewrite lookup_insert_eq. intros E. injection E as <-. unfold in_u. lia.
  - rewrite lookup_insert_ne by done. apply Hh.
Qed.

Lemma NEXT_some v i : 0 ≤ i + 2 < zlen D → ∃ h, NEXT D v i = Some h.
Proof. intros Hi. unfold NEXT. destruct (rd_some D _ Hi) as [c ->]. cbn. eauto. Qed.

Lemma FRST_some i : 0 ≤ i → i + 1 < zlen D → ∃ h, FRST D i = Some h.
Proof.
  intros Hi Hi'. unfold FRST. destruct (rd_some D i) as [a ->]; [lia|].
  destruct (rd_some D (i + 1)) as [c ->]; [lia|]. cbn. eauto.
Qed.

(** The invariant does not depend on the hash. *)
Lemma inv_rehash s hv ht : inv s → htab_ok ht → inv (mkC (ip s) (op s) (lit s) hv ht (out s)).
Proof. intros (T & x & L & R & Hs) Hh. exists T, x, L, R. cbn. naive_solver. Qed.

Lemma inv_htab s : inv s → htab_ok (htab s).
Proof. intros (T & x & L & R & Hs). naive_solver. Qed.

Lemma rehash_tail_spec s :
  inv s → 2 ≤ ip s → ip s < zlen D - 2 → ∃ s', rehash_tail base D s = Some s' ∧ inv s' ∧ ip s' = ip s.
Proof.
  intros Hinv H2 Hi. unfold rehash_tail. cbv zeta.
  destruct (FRST_some (ip s - 2)) as [h0 ->]; [lia..|]. cbn [mbind option_bind].
  destruct (NEXT_some h0 (ip s - 2)) as [h1 ->]; [lia|]. cbn [mbind option_bind].
  destruct (NEXT_some h1 (ip s - 2 + 1)) as [h2 ->]; [lia|]. cbn [mbind option_bind].
  eexists. split; [done|]. replace (ip s - 2 + 2) with (ip s) by lia. split; [|done].
  apply inv_rehash; [done|]. apply htab_insert; [apply htab_insert; [by apply inv_htab|lia]|lia].
Qed.

Lemma slot_range ht i : htab_ok ht → in_u 64 (slot junk ht i).
Proof.
  intros Hh. unfold slot. destruct (ht !! i) as [a|] eqn:E; [by apply (Hh i)|apply junk_ok].
Qed.

Definition step_post (s : cstate) (f : flow) : Prop :=
  match f with
  | Return o n => n = 0 ∧ zlen o = cap
  | Break s' => inv s' ∧ zlen D - 2 ≤ ip s' ∧ ip s < ip s'
  | Continue s' => inv s' ∧ ip s < ip s'
  end.

Lemma comp_step_spec s :
  inv s → ip s < zlen D - 2 → ∃ f, comp_step junk base D out_len s = Some f ∧ step_post s f.
Proof.
  intros Hinv Hi. pose proof Hinv as (_ & _ & _ & _ & _ & _ & _ & _ & _ & _ & Hcap & Hip & _).
  unfold comp_step. destruct (NEXT_some (hval s) (ip s)) as [hv ->]; [lia|]. cbn [mbind option_bind]. cbv zeta.
  set (s1 := mkC _ _ _ _ _ _). assert (inv s1) as Hinv1.
  { apply inv_rehash; [done|]. apply htab_insert; [by apply inv_htab|lia]. }
  change (ip s1) with (ip s).
  destruct (test_match_spec (ip s) (slot junk (htab s) (IDX hv))) as [->|(off & ref & -> & Ho & Hr & Hr0 & H4 & Hsame)];
    [lia|by apply slot_range, inv_htab|..]; cbn [mbind option_bind].
  - destruct (Z.leb_spec out_len (op s1)); [eexists; split; [done|]; done|].
    destruct (put_literal_spec s1 Hinv1) as (s2 & -> & Hinv2 & Hip2 & _); [change (ip s1) with (ip s); lia|lia|].
    cbn [mbind option_bind]. eexists. split; [done|]. split; [done|]. rewrite Hip2. change (ip s1) with (ip s). lia.
  - destruct (stop_run_spec s1 Hinv1) as (s2 & -> & Hc2 & Hip2 & Hh2). cbn [mbind option_bind].
    pose proof Hc2 as (T2 & R2 & _ & _ & _ & Hcap2 & _ & _).
    destruct (Z.leb_spec out_len (op s2 + 3 + 1)); [eexists; split; [done|]; by split|].
    rewrite Hip2. change (ip s1) with (ip s).
    destruct (match_length_spec ref (ip s)) as (n & -> & Hn & Hfit & Hsm); [lia|done|done|].
    cbn [mbind option_bind].
    change (ip s1) with (ip s) in Hip2.
    destruct (put_ref_spec s2 off n hv Hc2) as (s3 & -> & Hip3 & Hinv3); rewrite ?Hip2; try lia.
    { rewrite Hh2. by apply inv_htab. }
    { by subst ref. }
    cbn [mbind option_bind]. rewrite Hip3, Hip2 in *. cbn [ip].
    replace (ip s + 1 + (n - 2 + 1)) with (ip s + n) by lia.
    destruct (Z.leb_spec (zlen D - 2) (ip s + n)).
    + eexists. split; [done|]. cbn. split; [done|]. lia.
    + destruct (rehash_tail_spec _ Hinv3) as (s4 & -> & Hinv4 & Hip4); [cbn; lia..|].
      cbn [mbind option_bind]. eexists. split; [done|]. split; [done|]. rewrite Hip4. cbn. lia.
Qed.

Lemma comp_loop_spec fuel : ∀ s,
  inv s → zlen D - ip s < Z.of_nat fuel →
  ∃ f, comp_loop junk base D out_len fuel s = Some f ∧
    match f with
    | Return o n => n = 0 ∧ zlen o = cap
    | Break s' => inv s' ∧ zlen D - 2 ≤ ip s'
    | Continue _ => False
    end.
Proof.
  induction fuel as [|fuel IH]; intros s Hinv Hf.
  { destruct Hinv as (_ & _ & _ & _ & _ & _ & _ & _ & _ & _ & _ & Hip & _). lia. }
  cbn [comp_loop]. destruct (Z.leb_spec (zlen D - 2) (ip s)).
  { eexists. split; [done|]. by split. }
  destruct (comp_step_spec s Hinv ltac:(lia)) as (f & -> & Hp). cbn [mbind option_bind].
  destruct f as [o n|s'|s']; cbn in Hp.
  - eexists. by split.
  - eexists. split; [done|]. naive_solver.
  - apply IH; [apply Hp|lia].
Qed.

Lemma inv_ip s : inv s → 0 ≤ ip s ≤ zlen D.
Proof. intros (T & x & L & R & Hs). naive_solver. Qed.

Lemma tail_loop_spec fuel : ∀ s,
  inv s → zlen D - ip s < Z.of_nat fuel → op s + 2 * (zlen D - ip s) ≤ out_len + 1 →
  ∃ s', tail_loop D fuel s = Some s' ∧ inv s' ∧ ip s' = zlen D.
Proof.
  induction fuel as [|fuel IH]; intros s Hinv Hf Hop; pose proof (inv_ip s Hinv) as Hip; [lia|].
  cbn [tail_loop]. destruct (Z.leb_spec (zlen D) (ip s)).
  { eexists. split; [done|]. split; [done|]. lia. }
  destruct (put_literal_spec s Hinv) as (s1 & -> & Hinv1 & Hip1 & Hop1); [lia|lia|].
  cbn [mbind option_bind]. apply IH; [done|lia|lia].
Qed.

Lemma lzf_compress_spec out_data :
  2 ≤ zlen D → 0 < out_len → zlen out_data = cap →
  ∃ o n, lzf_compress junk base D out_len out_data = Some (o, n) ∧ zlen o = cap ∧ 0 ≤ n ≤ out_len ∧
    (n ≠ 0 → dec (take (Z.to_nat n) o) [] D ∧ bytes_ok (take (Z.to_nat n) o)).
Proof.
  intros HD Ho Hcap. unfold lzf_compress.
  destruct (Z.eqb_spec (zlen D) 0); [lia|]. destruct (Z.eqb_spec out_len 0); [lia|]. cbn [orb].
  destruct (FRST_some 0) as [h ->]; [lia..|]. cbn [mbind option_bind].
  assert (inv (mkC 0 1 0 h ∅ out_data)) as Hinv.
  { destruct out_data as [|x R]; [revert Hcap; len|]. exists [], x, [], R. cbn [out op lit ip htab].
    change (zlen []) with 0. split_and!; try done; try lia; [by constructor|].
    exists []. split; [constructor|done]. }
  destruct (comp_loop_spec (S (length D)) _ Hinv) as (f & -> & Hf); [cbn [ip]; unfold zlen; lia|].
  cbn [mbind option_bind]. destruct f as [o n'|s|s]; [|..|done].
  { destruct Hf as [-> Hz]. exists o, 0. split; [done|]. split; [done|]. split; [lia|done]. }
  destruct Hf as [Hinv' Hip]. pose proof (inv_ip s Hinv').
  destruct (Z.ltb_spec out_len (op s + 3)).
  { destruct Hinv' as (? & ? & ? & ? & ? & ? & ? & ? & ? & ? & Hz & _). exists (out s), 0. split; [done|].
    split; [done|]. split; [lia|done]. }
  destruct (tail_loop_spec (S (length D)) s Hinv') as (s1 & -> & Hinv1 & Hip1); [unfold zlen in *; lia|lia|].
  cbn [mbind option_bind].
  destruct (stop_run_spec s1 Hinv1) as (s2 & -> & (T & R & Eo & Eop & Hop & Hz & HT & Hd) & Hip2 & _).
  cbn [mbind option_bind]. exists (out s2), (op s2). split; [done|]. split; [done|].
  split; [unfold zlen in *; lia|]. intros _.
  assert (take (Z.to_nat (op s2)) (out s2) = T) as ->.
  { rewrite Eop, Eo. unfold zlen. by rewrite Nat2Z.id, take_app_length. }
  split; [|done]. rewrite Hip2, Hip1 in Hd. unfold zlen in Hd. rewrite Nat2Z.id, firstn_all in Hd. done.
Qed.

End compressor.

(** ** Theorems *)

(** What one call of each gives, for the clients. *)
Lemma lzf_compress_decompress junk base D out_len out_data buf :
  bytes_ok D → 2 ≤ zlen D → (∀ i, in_u 64 (junk i)) → MAX_OFF ≤ base ∧ base + zlen D < 2 ^ 64 →
  0 < out_len → out_len + 1 ≤ zlen out_data → zlen buf = zlen D →
  ∃ o n, lzf_compress junk base D out_len out_data = Some (o, n) ∧ 0 ≤ n ≤ out_len ∧ zlen o = zlen out_data ∧
    (n ≠ 0 → bytes_ok (take (Z.to_nat n) o) ∧ lzf_decompress (take (Z.to_nat n) o) buf (zlen D) = Some (D, inl (zlen D))).
Proof.
  intros HD H2 Hj Hb Ho Hcap Hbuf.
  destruct (lzf_compress_spec junk base D out_len (zlen out_data) Hj Hb HD Hcap out_data H2 Ho eq_refl)
    as (o & n & E & Hzo & Hn & Hdec).
  exists o, n. split; [done|]. split; [done|]. split; [done|]. intros Hn0. destruct (Hdec Hn0) as [Hd Ht]. split; [done|].
  unfold lzf_decompress. set (t := take (Z.to_nat n) o) in *.
  destruct (decomp_dec t [] D Hd (length t) buf (zlen D)) as (R' & HR & Hz); try done; try lia.
  { intros Et. rewrite Et in Hd. inversion Hd; subst; [revert H2; len|].
    unfold ref_token in *. by destruct (_ <? 7). }
  { constructor. }
  change ([] ++ buf) with buf in HR. change (zlen []) with 0 in HR. rewrite HR.
  assert (R' = []) as ->; [|by rewrite app_nil_r].
  destruct R'; [done|]. revert Hz. len.
Qed.

(** C22. Round trip: on every input of at least two bytes, whatever the
    indeterminate contents of the hash table, [lzf_compress] stays inside the
    input and inside an output buffer of [out_len + 1] bytes, returns at most
    [out_len], and when it does not return 0 [lzf_decompress] restores the
    input exactly, from the bytes it has produced, in a buffer of the input's
    size. *)
Theorem lzf_roundtrip junk base D out_len out_data buf :
  bytes_ok D → 2 ≤ zlen D → (∀ i, in_u 64 (junk i)) → MAX_OFF ≤ base ∧ base + zlen D < 2 ^ 64 →
  0 < out_len → out_len + 1 ≤ zlen out_data → zlen buf = zlen D →
  ∃ o n, lzf_compress junk base D out_len out_data = Some (o, n) ∧ 0 ≤ n ≤ out_len ∧
    (n ≠ 0 → lzf_decompress (take (Z.to_nat n) o) buf (zlen D) = Some (D, inl (zlen D))).
Proof.
  intros HD H2 Hj Hb Ho Hcap Hbuf. destruct (lzf_compress_decompress junk base D out_len out_data buf) as (o & n & E & Hn & _ & Hd); [done..|].
  exists o, n. split; [done|]. split; [done|]. intros Hn0. by destruct (Hd Hn0).
Qed.

(** Memory safety of [lzf_decompress] on every input, corrupted or not: it
    reads inside the input, writes inside the output buffer, and returns a
    length of at most [out_len] or an error. *)
Theorem lzf_decompress_safe p buf :
  p ≠ [] → bytes_ok p → bytes_ok buf →
  ∃ out r, lzf_decompress p buf (zlen buf) = Some (out, r) ∧ zlen out = zlen buf ∧
    match r with inl n => 0 < n ≤ zlen buf | inr _ => True end.
Proof. intros Hne Hp Hb. exact (decomp_safe (length p) p [] buf 0 (zlen buf) Hne Hp (le_n _) Hb eq_refl eq_refl). Qed.

(** A run of 32 literals followed by a match. *)
Definition full_run : list Z := seqZ 0 32 ++ [1; 2; 3; 4; 5; 6; 7].

(** C27. The bound of [lzf_roundtrip] on the buffer is exact: the header of the
    pending run is written before the test on the room left, so a buffer of
    [out_len] bytes can be overrun by one byte (a match right after a full run
    that ends with the buffer).  With one more byte, which is what
    [rdbSaveLzfStringObject] allocates, the call returns 0. *)
Theorem lzf_compress_overrun :
  lzf_compress (λ _, 0) 65536 full_run 33 (replicate 33 0) = None ∧
  snd <$> lzf_compress (λ _, 0) 65536 full_run 33 (replicate 34 0) = Some 0.
Proof. split; vm_compute; reflexivity. Qed.

(** An input of one byte is read past its end by the first [FRST]. *)
Lemma lzf_compress_one_byte junk base c out_len out_data :
  out_len ≠ 0 → lzf_compress junk base [c] out_len out_data = None.
Proof. intros Ho. unfold lzf_compress. cbn. by destruct (Z.eqb_spec out_len 0). Qed.

(** Witnesses. *)
Definition repeated : list Z := str "abcabcabcabcabcabcabcabcabcxyzabcabcabc".

Lemma lzf_roundtrip_witness :
  ∃ o n, lzf_compress (λ _, 0) 65536 repeated 35 (replicate 36 0) = Some (o, n) ∧ n = 17 ∧
    lzf_decompress (take 17 o) (replicate 39 0) 39 = Some (repeated, inl 39).
Proof.
  destruct (lzf_roundtrip (λ _, 0) 65536 repeated 35 (replicate 36 0) (replicate 39 0))
    as (o & n & E & _ & Hr);
    [by_decision|by vm_compute|intros i; unfold in_u; lia|by vm_compute|done|by vm_compute|done|].
  exists o, n. assert (snd <$> lzf_compress (λ _, 0) 65536 repeated 35 (replicate 36 0) = Some 17) as En
    by (vm_compute; reflexivity).
  rewrite E in En. cbn in En. injection En as ->. split; [done|]. split; [done|]. by apply Hr.
Defined.

Lemma lzf_decompress_safe_witness :
  ∃ out r, lzf_decompress [1; 97; 98; 224; 250; 200] (replicate 4 0) 4 = Some (out, r) ∧ zlen out = 4 ∧
    match r with inl n => 0 < n ≤ 4 | inr _ => True end.
Proof. apply (lzf_decompress_safe [1; 97; 98; 224; 250; 200] (replicate 4 0)); by_decision. Defined.
