(* ===== verification/Crc.v ===== *)
(** * Crc: the checksums (redis-3.0.0/src/crc16.c, crc64.c)

    [crc16] gives the hash slot of a key, [crc64] the checksum of an RDB file.
    Both are computed byte by byte with a table; the reference is the register
    of the usual parametric model of a CRC (width, polynomial, initial value,
    reflection of the input and of the output), bit by bit.  Both functions are
    additive for exclusive or, so they agree if they agree on single bits. *)

From S2P Require Import Prelude.

(** ** The model *)

Definition crc16tab : list Z :=
  [ 0x0000; 0x1021; 0x2042; 0x3063; 0x4084; 0x50a5; 0x60c6; 0x70e7;
    0x8108; 0x9129; 0xa14a; 0xb16b; 0xc18c; 0xd1ad; 0xe1ce; 0xf1ef;
    0x1231; 0x0210; 0x3273; 0x2252; 0x52b5; 0x4294; 0x72f7; 0x62d6;
    0x9339; 0x8318; 0xb37b; 0xa35a; 0xd3bd; 0xc39c; 0xf3ff; 0xe3de;
    0x2462; 0x3443; 0x0420; 0x1401; 0x64e6; 0x74c7; 0x44a4; 0x5485;
    0xa56a; 0xb54b; 0x8528; 0x9509; 0xe5ee; 0xf5cf; 0xc5ac; 0xd58d;
    0x3653; 0x2672; 0x1611; 0x0630; 0x76d7; 0x66f6; 0x5695; 0x46b4;
    0xb75b; 0xa77a; 0x9719; 0x8738; 0xf7df; 0xe7fe; 0xd79d; 0xc7bc;
    0x48c4; 0x58e5; 0x6886; 0x78a7; 0x0840; 0x1861; 0x2802; 0x3823;
    0xc9cc; 0xd9ed; 0xe98e; 0xf9af; 0x8948; 0x9969; 0xa90a; 0xb92b;
    0x5af5; 0x4ad4; 0x7ab7; 0x6a96; 0x1a71; 0x0a50; 0x3a33; 0x2a12;
    0xdbfd; 0xcbdc; 0xfbbf; 0xeb9e; 0x9b79; 0x8b58; 0xbb3b; 0xab1a;
    0x6ca6; 0x7c87; 0x4ce4; 0x5cc5; 0x2c22; 0x3c03; 0x0c60; 0x1c41;
    0xedae; 0xfd8f; 0xcdec; 0xddcd; 0xad2a; 0xbd0b; 0x8d68; 0x9d49;
    0x7e97; 0x6eb6; 0x5ed5; 0x4ef4; 0x3e13; 0x2e32; 0x1e51; 0x0e70;
    0xff9f; 0xefbe; 0xdfdd; 0xcffc; 0xbf1b; 0xaf3a; 0x9f59; 0x8f78;
    0x9188; 0x81a9; 0xb1ca; 0xa1eb; 0xd10c; 0xc12d; 0xf14e; 0xe16f;
    0x1080; 0x00a1; 0x30c2; 0x20e3; 0x5004; 0x4025; 0x7046; 0x6067;
    0x83b9; 0x9398; 0xa3fb; 0xb3da; 0xc33d; 0xd31c; 0xe37f; 0xf35e;
    0x02b1; 0x1290; 0x22f3; 0x32d2; 0x4235; 0x5214; 0x6277; 0x7256;
    0xb5ea; 0xa5cb; 0x95a8; 0x8589; 0xf56e; 0xe54f; 0xd52c; 0xc50d;
    0x34e2; 0x24c3; 0x14a0; 0x0481; 0x7466; 0x6447; 0x5424; 0x4405;
    0xa7db; 0xb7fa; 0x8799; 0x97b8; 0xe75f; 0xf77e; 0xc71d; 0xd73c;
    0x26d3; 0x36f2; 0x0691; 0x16b0; 0x6657; 0x7676; 0x4615; 0x5634;
    0xd94c; 0xc96d; 0xf90e; 0xe92f; 0x99c8; 0x89e9; 0xb98a; 0xa9ab;
    0x5844; 0x4865; 0x7806; 0x6827; 0x18c0; 0x08e1; 0x3882; 0x28a3;
    0xcb7d; 0xdb5c; 0xeb3f; 0xfb1e; 0x8bf9; 0x9bd8; 0xabbb; 0xbb9a;
    0x4a75; 0x5a54; 0x6a37; 0x7a16; 0x0af1; 0x1ad0; 0x2ab3; 0x3a92;
    0xfd2e; 0xed0f; 0xdd6c; 0xcd4d; 0xbdaa; 0xad8b; 0x9de8; 0x8dc9;
    0x7c26; 0x6c07; 0x5c64; 0x4c45; 0x3ca2; 0x2c83; 0x1ce0; 0x0cc1;
    0xef1f; 0xff3e; 0xcf5d; 0xdf7c; 0xaf9b; 0xbfba; 0x8fd9; 0x9ff8;
    0x6e17; 0x7e36; 0x4e55; 0x5e74; 0x2e93; 0x3eb2; 0x0ed1; 0x1ef0 ].

(** [crc = (crc<<8) ^ crc16tab[((crc>>8) ^ *buf++)&0x00FF]] *)
Definition crc16_step (crc c : Z) : option Z :=
  t ← crc16tab !! Z.to_nat (Z.land (Z.lxor (Z.shiftr crc 8) c) 255);
  Some (u16 (Z.lxor (Z.shiftl crc 8) t)).
Fixpoint crc16_loop (crc : Z) (buf : list Z) : option Z :=
  match buf with [] => Some crc | c :: buf => crc ← crc16_step crc c; crc16_loop crc buf end.
Definition crc16 (buf : list Z) : option Z := crc16_loop 0 buf.

Definition crc64_tab : list Z :=
  [ 0x0000000000000000; 0x7ad870c830358979;
    0xf5b0e190606b12f2; 0x8f689158505e9b8b;
    0xc038e5739841b68f; 0xbae095bba8743ff6;
    0x358804e3f82aa47d; 0x4f50742bc81f2d04;
    0xab28ecb46814fe75; 0xd1f09c7c5821770c;
    0x5e980d24087fec87; 0x24407dec384a65fe;
    0x6b1009c7f05548fa; 0x11c8790fc060c183;
    0x9ea0e857903e5a08; 0xe478989fa00bd371;
    0x7d08ff3b88be6f81; 0x07d08ff3b88be6f8;
    0x88b81eabe8d57d73; 0xf2606e63d8e0f40a;
    0xbd301a4810ffd90e; 0xc7e86a8020ca5077;
    0x4880fbd87094cbfc; 0x32588b1040a14285;
    0xd620138fe0aa91f4; 0xacf86347d09f188d;
    0x2390f21f80c18306; 0x594882d7b0f40a7f;
    0x1618f6fc78eb277b; 0x6cc0863448deae02;
    0xe3a8176c18803589; 0x997067a428b5bcf0;
    0xfa11fe77117cdf02; 0x80c98ebf2149567b;
    0x0fa11fe77117cdf0; 0x75796f2f41224489;
    0x3a291b04893d698d; 0x40f16bccb908e0f4;
    0xcf99fa94e9567b7f; 0xb5418a5cd963f206;
    0x513912c379682177; 0x2be1620b495da80e;
    0xa489f35319033385; 0xde51839b2936bafc;
    0x9101f7b0e12997f8; 0xebd98778d11c1e81;
    0x64b116208142850a; 0x1e6966e8b1770c73;
    0x8719014c99c2b083; 0xfdc17184a9f739fa;
    0x72a9e0dcf9a9a271; 0x08719014c99c2b08;
    0x4721e43f0183060c; 0x3df994f731b68f75;
    0xb29105af61e814fe; 0xc849756751dd9d87;
    0x2c31edf8f1d64ef6; 0x56e99d30c1e3c78f;
    0xd9810c6891bd5c04; 0xa3597ca0a188d57d;
    0xec09088b6997f879; 0x96d1784359a27100;
    0x19b9e91b09fcea8b; 0x636199d339c963f2;
    0xdf7adabd7a6e2d6f; 0xa5a2aa754a5ba416;
    0x2aca3b2d1a053f9d; 0x50124be52a30b6e4;
    0x1f423fcee22f9be0; 0x659a4f06d21a1299;
    0xeaf2de5e82448912; 0x902aae96b271006b;
    0x74523609127ad31a; 0x0e8a46c1224f5a63;
    0x81e2d7997211c1e8; 0xfb3aa75142244891;
    0xb46ad37a8a3b6595; 0xceb2a3b2ba0eecec;
    0x41da32eaea507767; 0x3b024222da65fe1e;
    0xa2722586f2d042ee; 0xd8aa554ec2e5cb97;
    0x57c2c41692bb501c; 0x2d1ab4dea28ed965;
    0x624ac0f56a91f461; 0x1892b03d5aa47d18;
    0x97fa21650afae693; 0xed2251ad3acf6fea;
    0x095ac9329ac4bc9b; 0x7382b9faaaf135e2;
    0xfcea28a2faafae69; 0x8632586aca9a2710;
    0xc9622c4102850a14; 0xb3ba5c8932b0836d;
    0x3cd2cdd162ee18e6; 0x460abd1952db919f;
    0x256b24ca6b12f26d; 0x5fb354025b277b14;
    0xd0dbc55a0b79e09f; 0xaa03b5923b4c69e6;
    0xe553c1b9f35344e2; 0x9f8bb171c366cd9b;
    0x10e3202993385610; 0x6a3b50e1a30ddf69;
    0x8e43c87e03060c18; 0xf49bb8b633338561;
    0x7bf329ee636d1eea; 0x012b592653589793;
    0x4e7b2d0d9b47ba97; 0x34a35dc5ab7233ee;
    0xbbcbcc9dfb2ca865; 0xc113bc55cb19211c;
    0x5863dbf1e3ac9dec; 0x22bbab39d3991495;
    0xadd33a6183c78f1e; 0xd70b4aa9b3f20667;
    0x985b3e827bed2b63; 0xe2834e4a4bd8a21a;
    0x6debdf121b863991; 0x1733afda2bb3b0e8;
    0xf34b37458bb86399; 0x8993478dbb8deae0;
    0x06fbd6d5ebd3716b; 0x7c23a61ddbe6f812;
    0x3373d23613f9d516; 0x49aba2fe23cc5c6f;
    0xc6c333a67392c7e4; 0xbc1b436e43a74e9d;
    0x95ac9329ac4bc9b5; 0xef74e3e19c7e40cc;
    0x601c72b9cc20db47; 0x1ac40271fc15523e;
    0x5594765a340a7f3a; 0x2f4c0692043ff643;
    0xa02497ca54616dc8; 0xdafce7026454e4b1;
    0x3e847f9dc45f37c0; 0x445c0f55f46abeb9;
    0xcb349e0da4342532; 0xb1eceec59401ac4b;
    0xfebc9aee5c1e814f; 0x8464ea266c2b0836;
    0x0b0c7b7e3c7593bd; 0x71d40bb60c401ac4;
    0xe8a46c1224f5a634; 0x927c1cda14c02f4d;
    0x1d148d82449eb4c6; 0x67ccfd4a74ab3dbf;
    0x289c8961bcb410bb; 0x5244f9a98c8199c2;
    0xdd2c68f1dcdf0249; 0xa7f41839ecea8b30;
    0x438c80a64ce15841; 0x3954f06e7cd4d138;
    0xb63c61362c8a4ab3; 0xcce411fe1cbfc3ca;
    0x83b465d5d4a0eece; 0xf96c151de49567b7;
    0x76048445b4cbfc3c; 0x0cdcf48d84fe7545;
    0x6fbd6d5ebd3716b7; 0x15651d968d029fce;
    0x9a0d8ccedd5c0445; 0xe0d5fc06ed698d3c;
    0xaf85882d2576a038; 0xd55df8e515432941;
    0x5a3569bd451db2ca; 0x20ed197575283bb3;
    0xc49581ead523e8c2; 0xbe4df122e51661bb;
    0x3125607ab548fa30; 0x4bfd10b2857d7349;
    0x04ad64994d625e4d; 0x7e7514517d57d734;
    0xf11d85092d094cbf; 0x8bc5f5c11d3cc5c6;
    0x12b5926535897936; 0x686de2ad05bcf04f;
    0xe70573f555e26bc4; 0x9ddd033d65d7e2bd;
    0xd28d7716adc8cfb9; 0xa85507de9dfd46c0;
    0x273d9686cda3dd4b; 0x5de5e64efd965432;
    0xb99d7ed15d9d8743; 0xc3450e196da80e3a;
    0x4c2d9f413df695b1; 0x36f5ef890dc31cc8;
    0x79a59ba2c5dc31cc; 0x037deb6af5e9b8b5;
    0x8c157a32a5b7233e; 0xf6cd0afa9582aa47;
    0x4ad64994d625e4da; 0x300e395ce6106da3;
    0xbf66a804b64ef628; 0xc5bed8cc867b7f51;
    0x8aeeace74e645255; 0xf036dc2f7e51db2c;
    0x7f5e4d772e0f40a7; 0x05863dbf1e3ac9de;
    0xe1fea520be311aaf; 0x9b26d5e88e0493d6;
    0x144e44b0de5a085d; 0x6e963478ee6f8124;
    0x21c640532670ac20; 0x5b1e309b16452559;
    0xd476a1c3461bbed2; 0xaeaed10b762e37ab;
    0x37deb6af5e9b8b5b; 0x4d06c6676eae0222;
    0xc26e573f3ef099a9; 0xb8b627f70ec510d0;
    0xf7e653dcc6da3dd4; 0x8d3e2314f6efb4ad;
    0x0256b24ca6b12f26; 0x788ec2849684a65f;
    0x9cf65a1b368f752e; 0xe62e2ad306bafc57;
    0x6946bb8b56e467dc; 0x139ecb4366d1eea5;
    0x5ccebf68aecec3a1; 0x2616cfa09efb4ad8;
    0xa97e5ef8cea5d153; 0xd3a62e30fe90582a;
    0xb0c7b7e3c7593bd8; 0xca1fc72bf76cb2a1;
    0x45775673a732292a; 0x3faf26bb9707a053;
    0x70ff52905f188d57; 0x0a2722586f2d042e;
    0x854fb3003f739fa5; 0xff97c3c80f4616dc;
    0x1bef5b57af4dc5ad; 0x61372b9f9f784cd4;
    0xee5fbac7cf26d75f; 0x9487ca0fff135e26;
    0xdbd7be24370c7322; 0xa10fceec0739fa5b;
    0x2e675fb4576761d0; 0x54bf2f7c6752e8a9;
    0xcdcf48d84fe75459; 0xb71738107fd2dd20;
    0x387fa9482f8c46ab; 0x42a7d9801fb9cfd2;
    0x0df7adabd7a6e2d6; 0x772fdd63e7936baf;
    0xf8474c3bb7cdf024; 0x829f3cf387f8795d;
    0x66e7a46c27f3aa2c; 0x1c3fd4a417c62355;
    0x935745fc4798b8de; 0xe98f353477ad31a7;
    0xa6df411fbfb21ca3; 0xdc0731d78f8795da;
    0x536fa08fdfd90e51; 0x29b7d047efec8728 ].

(** [crc = crc64_tab[(uint8_t)crc ^ byte] ^ (crc >> 8)] *)
Definition crc64_step (crc c : Z) : option Z :=
  t ← crc64_tab !! Z.to_nat (Z.lxor (u8 crc) c);
  Some (Z.lxor t (Z.shiftr crc 8)).
Fixpoint crc64 (crc : Z) (s : list Z) : option Z :=
  match s with [] => Some crc | c :: s => crc ← crc64_step crc c; crc64 crc s end.

(** ** The reference *)

(** One bit enters the register at the top. *)
Definition crc_bit (w poly reg : Z) (b : bool) : Z :=
  Z.lxor (wrapu w (Z.shiftl reg 1)) (if xorb (Z.testbit reg (w - 1)) b then poly else 0).
(** One byte, its bits in the order of [ix]. *)
Definition crc_byte (w poly : Z) (ix : list Z) (reg c : Z) : Z :=
  foldl (λ reg i, crc_bit w poly reg (Z.testbit c i)) reg ix.
(** The bits of [x] in reverse order, in front of [acc]. *)
Fixpoint reflect (n : nat) (x acc : Z) : Z :=
  match n with O => acc | S n => reflect n (Z.shiftr x 1) (Z.lxor (Z.shiftl acc 1) (Z.land x 1)) end.

Record crc_params := { width : Z; poly : Z; init : Z; refin : bool; refout : bool; xorout : Z }.
Definition crc_ref (p : crc_params) (msg : list Z) : Z :=
  let ix := if refin p then [0; 1; 2; 3; 4; 5; 6; 7] else [7; 6; 5; 4; 3; 2; 1; 0] in
  let reg := foldl (crc_byte (width p) (poly p) ix) (init p) msg in
  Z.lxor (if refout p then reflect (Z.to_nat (width p)) reg 0 else reg) (xorout p).

(** The parameters of the comments; the one of crc64.c also says
    [Xor_In: 0xffffffffffffffff]. *)
Definition xmodem : crc_params := {| width := 16; poly := 0x1021; init := 0; refin := false; refout := false; xorout := 0 |}.
Definition jones : crc_params :=
  {| width := 64; poly := 0xad93d23594c935a9; init := 0; refin := true; refout := true; xorout := 0 |}.

(** ** Additive functions *)

Definition additive (f : Z → Z → Z) : Prop :=
  ∀ x y a b, f (Z.lxor x y) (Z.lxor a b) = Z.lxor (f x a) (f y b).

Lemma lxor_swap a b c d : Z.lxor (Z.lxor a b) (Z.lxor c d) = Z.lxor (Z.lxor a c) (Z.lxor b d).
Proof. rewrite !Z.lxor_assoc. f_equal. rewrite <- !Z.lxor_assoc. f_equal. apply Z.lxor_comm. Qed.

Lemma wrapu_lxor w x y : 0 ≤ w → wrapu w (Z.lxor x y) = Z.lxor (wrapu w x) (wrapu w y).
Proof.
  intros Hw. apply Z.bits_inj'. intros j _. rewrite !Z.lxor_spec, !wrapu_testbit, Z.lxor_spec by done.
  by destruct (j <? w), (Z.testbit x j), (Z.testbit y j).
Qed.
Lemma land_lxor x y m : Z.land (Z.lxor x y) m = Z.lxor (Z.land x m) (Z.land y m).
Proof.
  apply Z.bits_inj'. intros j _. rewrite Z.land_spec, !Z.lxor_spec, !Z.land_spec.
  by destruct (Z.testbit x j), (Z.testbit y j), (Z.testbit m j).
Qed.

Lemma crc_bit_additive w poly : 0 ≤ w → ∀ x y a b, crc_bit w poly (Z.lxor x y) (xorb a b) = Z.lxor (crc_bit w poly x a) (crc_bit w poly y b).
Proof.
  intros Hw x y a b. unfold crc_bit. rewrite Z.shiftl_lxor, wrapu_lxor, lxor_swap by done. f_equal. rewrite Z.lxor_spec.
  destruct (Z.testbit x (w - 1)), (Z.testbit y (w - 1)), a, b; cbn [xorb]; rewrite ?Z.lxor_0_r, ?Z.lxor_0_l, ?Z.lxor_nilpotent; done.
Qed.
Lemma crc_byte_additive w poly ix : 0 ≤ w → additive (crc_byte w poly ix).
Proof.
  intros Hw. unfold additive, crc_byte. induction ix as [|i ix IH]; intros x y a b; [done|]. cbn [foldl].
  rewrite Z.lxor_spec, crc_bit_additive by done. apply IH.
Qed.
Lemma reflect_additive n : additive (reflect n).
Proof.
  unfold additive. induction n as [|n IH]; intros x y a b; [done|]. cbn [reflect].
  rewrite Z.shiftr_lxor, Z.shiftl_lxor, land_lxor, lxor_swap. apply IH.
Qed.

(** Additive functions that agree on single bits agree. *)
Lemma additive_eq1 (f g : Z → Z) n :
  (∀ x y, f (Z.lxor x y) = Z.lxor (f x) (f y)) → (∀ x y, g (Z.lxor x y) = Z.lxor (g x) (g y)) → f 0 = g 0 →
  Forall (λ i, f (2 ^ i) = g (2 ^ i)) (seqZ 0 n) → ∀ x, in_u n x → f x = g x.
Proof.
  intros Hf Hg H0 Hb. assert (∀ k x, (Z.of_nat k ≤ n ∨ k = 0%nat) → in_u (Z.of_nat k) x → f x = g x) as Hk.
  { induction k as [|k IH]; intros x Hn Hx; [replace x with 0 by (unfold in_u in Hx; cbn in Hx; lia); done|].
    assert (x = Z.lxor (if Z.testbit x (Z.of_nat k) then 2 ^ Z.of_nat k else 0) (wrapu (Z.of_nat k) x)) as ->.
    { apply Z.bits_inj'. intros j Hj. rewrite Z.lxor_spec, wrapu_testbit by lia. destruct (Z.ltb_spec j (Z.of_nat k)) as [Hlt|Hge].
      - destruct (Z.testbit x (Z.of_nat k)); rewrite ?Z.bits_0, ?Z.pow2_bits_false by lia; done.
      - destruct (decide (j = Z.of_nat k)) as [-> |Hne].
        + destruct (Z.testbit x (Z.of_nat k)); [by rewrite Z.pow2_bits_true by lia|by rewrite Z.bits_0].
        + rewrite (in_u_testbit (Z.of_nat (S k)) x j) by (done || lia).
          destruct (Z.testbit x (Z.of_nat k)); rewrite ?Z.bits_0, ?Z.pow2_bits_false by lia; done. }
    rewrite Hf, Hg. f_equal; [|apply IH; [lia|apply wrapu_range; lia]]. destruct (Z.testbit x (Z.of_nat k)); [|done].
    rewrite Forall_forall in Hb. apply Hb, elem_of_seqZ. lia. }
  intros x Hx. destruct (decide (0 ≤ n)) as [Hn|Hn].
  - apply (Hk (Z.to_nat n)); [lia|]. by rewrite Z2Nat.id.
  - unfold in_u in Hx. rewrite Z.pow_neg_r in Hx by lia. lia.
Qed.

Lemma additive_eq f g n :
  additive f → additive g →
  Forall (λ i, f (2 ^ i) 0 = g (2 ^ i) 0) (seqZ 0 n) → Forall (λ i, f 0 (2 ^ i) = g 0 (2 ^ i)) (seqZ 0 8) → f 0 0 = g 0 0 →
  ∀ x c, in_u n x → byte_ok c → f x c = g x c.
Proof.
  intros Hf Hg H1 H2 H0 x c Hx Hc.
  assert (∀ h, additive h → h x c = Z.lxor (h x 0) (h 0 c)) as Hs by (intros h Hh; by rewrite <- Hh, Z.lxor_0_r, Z.lxor_0_l).
  rewrite (Hs f Hf), (Hs g Hg). f_equal.
  - apply (additive_eq1 (λ x, f x 0) (λ x, g x 0) n); [| |done|done|done];
      intros a b; [rewrite <- (Hf _ _ 0 0)|rewrite <- (Hg _ _ 0 0)]; by rewrite Z.lxor_0_l.
  - apply (additive_eq1 (f 0) (g 0) 8); [| |done|done|done];
      intros a b; [rewrite <- (Hf 0 0)|rewrite <- (Hg 0 0)]; by rewrite Z.lxor_0_l.
Qed.

(** *** Ranges *)

Lemma in_u_lxor w x y : 0 ≤ w → in_u w x → in_u w y → in_u w (Z.lxor x y).
Proof.
  intros Hw Hx Hy. apply in_u_bits; [done|]. intros j Hj. rewrite Z.lxor_spec.
  by rewrite (in_u_testbit w x j), (in_u_testbit w y j) by (done || lia).
Qed.
Lemma crc_byte_range w poly ix reg c : 0 ≤ w → in_u w poly → in_u w reg → in_u w (crc_byte w poly ix reg c).
Proof.
  intros Hw Hp. unfold crc_byte. revert reg. induction ix as [|i ix IH]; intros reg Hr; [done|]. apply IH. unfold crc_bit.
  apply in_u_lxor; [done|by apply wrapu_range|]. case_match; [done|]. unfold in_u. split; [lia|]. by apply Z.pow_pos_nonneg.
Qed.

(** ** The tables *)

Abbreviation msb_first := [7; 6; 5; 4; 3; 2; 1; 0].
Abbreviation lsb_first := [0; 1; 2; 3; 4; 5; 6; 7].

(** A table that agrees with [R] on the 256 bytes. *)
Lemma table_lookup (tab : list Z) (R : Z → Z) i :
  tab = R <$> seqZ 0 256 → byte_ok i → tab !! Z.to_nat i = Some (R i).
Proof.
  intros -> Hi. unfold byte_ok in Hi. rewrite list_lookup_fmap, lookup_seqZ_lt by lia. cbn. f_equal. f_equal. lia.
Qed.

Definition r16 (i : Z) : Z := crc_byte 16 0x1021 msb_first 0 i.
Definition r64 (i : Z) : Z := reflect 64 (crc_byte 64 0xad93d23594c935a9 lsb_first 0 i) 0.
Lemma crc16tab_ok : crc16tab = r16 <$> seqZ 0 256.
Proof. vm_compute. done. Qed.
Lemma crc64_tab_ok : crc64_tab = r64 <$> seqZ 0 256.
Proof. vm_compute. done. Qed.

Lemma r16_lxor x y : r16 (Z.lxor x y) = Z.lxor (r16 x) (r16 y).
Proof. unfold r16. rewrite <- (crc_byte_additive 16) by done. by rewrite Z.lxor_0_l. Qed.
Lemma r64_lxor x y : r64 (Z.lxor x y) = Z.lxor (r64 x) (r64 y).
Proof. unfold r64. rewrite <- reflect_additive, <- (crc_byte_additive 64) by done. by rewrite !Z.lxor_0_l. Qed.

Lemma crc16_step_ok crc c : in_u 16 crc → byte_ok c → crc16_step crc c = Some (crc_byte 16 0x1021 msb_first crc c).
Proof.
  intros Hcrc Hc. unfold crc16_step. rewrite (table_lookup crc16tab r16) by (apply crc16tab_ok || (change 255 with (Z.ones 8); rewrite Z.land_ones by lia; apply (wrapu_range 8); lia)).
  cbn [mbind option_bind]. f_equal.
  apply (additive_eq (λ crc c, u16 (Z.lxor (Z.shiftl crc 8) (r16 (Z.land (Z.lxor (Z.shiftr crc 8) c) 255)))) (crc_byte 16 0x1021 msb_first) 16); [|by apply crc_byte_additive|..|done|done].
  - intros x y a b. rewrite Z.shiftl_lxor, Z.shiftr_lxor, lxor_swap, land_lxor, r16_lxor, lxor_swap. by apply wrapu_lxor.
  - by_decision.
  - by_decision.
  - done.
Qed.

(** The register of the code is the reflection of the one of the reference. *)
Lemma crc64_step_ok reg c : in_u 64 reg → byte_ok c →
  crc64_step (reflect 64 reg 0) c = Some (reflect 64 (crc_byte 64 0xad93d23594c935a9 lsb_first reg c) 0).
Proof.
  intros Hr Hc. unfold crc64_step. rewrite (table_lookup crc64_tab r64) by (apply crc64_tab_ok || (apply (in_u_lxor 8); [lia|by apply wrapu_range|done])).
  cbn [mbind option_bind]. f_equal.
  apply (additive_eq (λ reg c, Z.lxor (r64 (Z.lxor (u8 (reflect 64 reg 0)) c)) (Z.shiftr (reflect 64 reg 0) 8))
    (λ reg c, reflect 64 (crc_byte 64 0xad93d23594c935a9 lsb_first reg c) 0) 64); [..|done|done].
  - intros x y a b. assert (reflect 64 (Z.lxor x y) 0 = Z.lxor (reflect 64 x 0) (reflect 64 y 0)) as -> by (by rewrite <- reflect_additive).
    rewrite wrapu_lxor, Z.shiftr_lxor, lxor_swap, r64_lxor, lxor_swap by done. done.
  - intros x y a b. rewrite <- reflect_additive, <- crc_byte_additive by done. done.
  - by_decision.
  - by_decision.
  - done.
Qed.

Lemma crc16_loop_ok buf : ∀ crc, in_u 16 crc → bytes_ok buf → crc16_loop crc buf = Some (foldl (crc_byte 16 0x1021 msb_first) crc buf).
Proof.
  induction buf as [|c buf IH]; intros crc Hcrc Hb; [done|]. apply Forall_cons in Hb as [Hc Hb]. cbn [crc16_loop foldl].
  rewrite crc16_step_ok by done. cbn [mbind option_bind]. apply IH; [|done]. apply crc_byte_range; [lia|by_decision|done].
Qed.
Lemma crc64_ok s : ∀ reg, in_u 64 reg → bytes_ok s →
  crc64 (reflect 64 reg 0) s = Some (reflect 64 (foldl (crc_byte 64 0xad93d23594c935a9 lsb_first) reg s) 0).
Proof.
  induction s as [|c s IH]; intros reg Hr Hb; [done|]. apply Forall_cons in Hb as [Hc Hb]. cbn [crc64 foldl].
  rewrite crc64_step_ok by done. cbn [mbind option_bind]. apply IH; [|done]. apply crc_byte_range; [lia|by_decision|done].
Qed.

(** The checksum of a stream may be computed block by block. *)
Lemma crc64_app crc s t : crc64 crc (s ++ t) = (crc ← crc64 crc s; crc64 crc t).
Proof.
  revert crc. induction s as [|c s IH]; intros crc; [done|]. cbn. destruct (crc64_step crc c); [apply IH|done].
Qed.

(** The table-driven checksums are the ones of their specifications: on
    every string [crc16] is the CRC with the parameters its comment gives
    (XMODEM) and [crc64] from 0 the one with the Jones polynomial, reflected,
    with the initial value 0; no lookup is outside of a table. *)
Theorem crc_correct buf :
  bytes_ok buf → crc16 buf = Some (crc_ref xmodem buf) ∧ crc64 0 buf = Some (crc_ref jones buf).
Proof.
  intros Hb. unfold crc_ref, crc16. cbn [refin refout width poly init xorout xmodem jones]. rewrite !Z.lxor_0_r. split.
  - apply crc16_loop_ok; [by_decision|done].
  - change 0 with (reflect 64 0 0) at 1. apply crc64_ok; [by_decision|done].
Qed.

Lemma crc_correct_witness :
  crc16 (str "123456789") = Some (crc_ref xmodem (str "123456789")) ∧ crc64 0 (str "123456789") = Some (crc_ref jones (str "123456789")).
Proof. apply (crc_correct (str "123456789")). by_decision. Defined.

(** The check values of the comments; with the initial value that the comment
    of crc64.c names the result is a different one. *)
Example crc16_check : crc16 (str "123456789") = Some 0x31C3.
Proof. vm_compute. done. Qed.
Example crc64_check : crc64 0 (str "123456789") = Some 0xe9c6d914c4b8d9ca.
Proof. vm_compute. done. Qed.
Example crc64_xor_in : crc64 0xffffffffffffffff (str "123456789") ≠ Some 0xe9c6d914c4b8d9ca.
Proof. vm_compute. done. Qed.

(** ** Hash slots (redis-3.0.0/src/cluster.c, keyHashSlot) *)

(** [for (; i < keylen; i++) if (key[i] == c) break;] *)
Fixpoint find_from (fuel : nat) (key : list Z) (c i : Z) : option Z :=
  match fuel with
  | O => None
  | S fuel =>
      if i <? zlen key then d ← get8 key i; if d =? c then Some i else find_from fuel key c (i + 1)
      else Some i
  end.

Definition keyHashSlot (key : list Z) : option Z :=
  let keylen := zlen key in
  let whole := crc ← crc16 key; Some (Z.land crc 0x3FFF) in
  s ← find_from (S (length key)) key 123 0;
  if s =? keylen then whole else
  e ← find_from (S (length key)) key 125 (s + 1);
  if (e =? keylen) || (e =? s + 1) then whole else
  tag ← load key (s + 1) (e - s - 1);
  crc ← crc16 tag; Some (Z.land crc 0x3FFF).

Lemma find_from_spec key c A B C : key = A ++ B ++ C → c ∉ B → (C = [] ∨ head C = Some c) → ∀ fuel,
  (length B < fuel)%nat → find_from fuel key c (zlen A) = Some (zlen A + zlen B).
Proof.
  intros -> HB HC fuel. revert A HB. induction fuel as [|fuel IH] in B |- *; intros A HB Hf; [lia|]. cbn [find_from]. destruct B as [|x B].
  - change (zlen (@nil Z)) with 0. rewrite Z.add_0_r. cbn [app]. destruct HC as [-> |HC].
    + rewrite app_nil_r. by rewrite Z.ltb_irrefl.
    + destruct C as [|d C]; [done|]. injection HC as ->. rewrite (proj2 (Z.ltb_lt _ _)) by len. rewrite get8_app by done.
      cbn [mbind option_bind]. by rewrite Z.eqb_refl.
  - apply not_elem_of_cons in HB as [Hx HB]. rewrite (proj2 (Z.ltb_lt _ _)) by len. cbn [app]. rewrite get8_app by done. cbn [mbind option_bind].
    rewrite (proj2 (Z.eqb_neq x c)) by done. replace (A ++ x :: B ++ C) with ((A ++ [x]) ++ B ++ C) by by rewrite <- app_assoc.
    replace (zlen A + 1) with (zlen (A ++ [x])) by len. rewrite IH by (try done; cbn in Hf; lia). f_equal. len.
Qed.

Lemma find_open a r : 123 ∉ a → find_from (S (length (a ++ 123 :: r))) (a ++ 123 :: r) 123 0 = Some (zlen a).
Proof. intros Ha. apply (find_from_spec _ 123 [] a (123 :: r)); [done|done|by right|rewrite length_app; lia]. Qed.
Lemma find_close a t r : 125 ∉ t → (r = [] ∨ head r = Some 125) →
  find_from (S (length (a ++ 123 :: t ++ r))) (a ++ 123 :: t ++ r) 125 (zlen a + 1) = Some (zlen a + 1 + zlen t).
Proof.
  intros Ht Hr. replace (zlen a + 1) with (zlen (a ++ [123])) by len.
  apply (find_from_spec _ 125 (a ++ [123]) t r); [by rewrite <- app_assoc|done|done|rewrite length_app; cbn; rewrite length_app; lia].
Qed.

(** The part of a key that is hashed. *)
Inductive hashed : list Z → list Z → Prop :=
  | hashed_tag a tag b : 123 ∉ a → tag ≠ [] → 125 ∉ tag → hashed (a ++ 123 :: tag ++ 125 :: b) tag
  | hashed_plain key : 123 ∉ key → hashed key key
  | hashed_open a b : 123 ∉ a → 125 ∉ b → hashed (a ++ 123 :: b) (a ++ 123 :: b)
  | hashed_empty a b : 123 ∉ a → hashed (a ++ 123 :: 125 :: b) (a ++ 123 :: 125 :: b).

(** [keyHashSlot] is a slot below 16384, the low 14 bits of the CRC-16 of the
    part of the key that counts: what stands between the first brace and the
    next closing one if that is not empty, and the whole key otherwise.  Keys
    with one tag therefore share a slot. *)
Theorem keyHashSlot_correct key part :
  bytes_ok key → hashed key part →
  ∃ slot, keyHashSlot key = Some slot ∧ slot = crc_ref xmodem part mod 16384 ∧ 0 ≤ slot < 16384.
Proof.
  intros Hb Hh.
  assert (∀ p, bytes_ok p → ∃ slot, (crc ← crc16 p; Some (Z.land crc 0x3FFF)) = Some slot ∧ slot = crc_ref xmodem p mod 16384 ∧ 0 ≤ slot < 16384) as Hslot.
  { intros p Hp. eexists. unfold crc16. rewrite crc16_loop_ok by (by_decision || done). cbn [mbind option_bind]. split; [done|].
    change 0x3FFF with (Z.ones 14). rewrite Z.land_ones by lia. unfold crc_ref. cbn [refin refout width poly init xorout xmodem].
    rewrite Z.lxor_0_r. split; [done|]. by apply Z.mod_pos_bound. }
  unfold keyHashSlot. cbv zeta. destruct Hh as [a tag b Ha Ht Hc|key Hk|a b Ha Hc|a b Ha].
  - rewrite find_open by done. cbn [mbind option_bind]. rewrite (proj2 (Z.eqb_neq _ _)) by len.
    rewrite find_close by (done || by right). cbn [mbind option_bind]. assert (0 < zlen tag) by (destruct tag; [done|]; len).
    rewrite !(proj2 (Z.eqb_neq (zlen a + 1 + zlen tag) _)) by len. cbn [orb].
    assert (a ++ 123 :: tag ++ 125 :: b = (a ++ [123]) ++ tag ++ 125 :: b) as Ek by by rewrite <- app_assoc.
    rewrite Ek, load_app by len. cbn [mbind option_bind]. apply Hslot.
    rewrite Ek in Hb. unfold bytes_ok in *. rewrite !Forall_app in Hb. tauto.
  - rewrite (find_from_spec key 123 [] key [] ltac:(by rewrite app_nil_r) Hk ltac:(by left) (S (length key)) ltac:(lia) : find_from _ _ _ 0 = _).
    cbn [mbind option_bind]. change (zlen (@nil Z)) with 0. rewrite Z.add_0_l, Z.eqb_refl. by apply Hslot.
  - rewrite find_open by done. cbn [mbind option_bind]. rewrite (proj2 (Z.eqb_neq _ _)) by len.
    pose proof (find_close a b [] Hc ltac:(by left)) as E. rewrite app_nil_r in E. rewrite E. cbn [mbind option_bind].
    rewrite (proj2 (Z.eqb_eq (zlen a + 1 + zlen b) _)) by len. by apply Hslot.
  - rewrite find_open by done. cbn [mbind option_bind]. rewrite (proj2 (Z.eqb_neq _ _)) by len.
    pose proof (find_close a [] (125 :: b) ltac:(by apply not_elem_of_nil) ltac:(by right)) as E. cbn [app] in E. rewrite E. cbn [mbind option_bind].
    change (zlen (@nil Z)) with 0. rewrite Z.add_0_r, Z.eqb_refl, orb_true_r. by apply Hslot.
Qed.

Lemma keyHashSlot_correct_witness :
  ∃ slot, keyHashSlot (str "{user1000}.following") = Some slot ∧ slot = crc_ref xmodem (str "user1000") mod 16384 ∧ 0 ≤ slot < 16384.
Proof.
  apply (keyHashSlot_correct (str "{user1000}.following") (str "user1000")); [by_decision|].
  apply (hashed_tag [] (str "user1000") (str ".following")); [by_decision|done|by_decision].
Defined.
