(* ===== verification/Rio.v ===== *)
(** * Rio: streams (redis-3.0.0/src/rio.c, rio.h)

    A stream has a backend (read, write, tell, flush), a checksum, a counter of
    bytes and a largest size of a single transfer.  [Backend] is the table of
    functions of [struct _rio], [Stream] what its users rely on: bytes come back
    in the order they were written.  The in-memory buffer and the stdio file
    discharge it; rdb.c is verified against it.

    A computation ends with a value, with the error return of the code ([Fail]:
    0, -1 or NULL), with [redisPanic], or in undefined behaviour.  The stream
    after an error is not used by the callers and is left out. *)

From S2P Require Import Prelude NumConv Objects Sds Crc.

Inductive outcome (A : Type) := Ret (a : A) | Fail | Panic | Undef.
Arguments Ret {A} a.
Arguments Fail {A}.
Arguments Panic {A}.
Arguments Undef {A}.

#[global] Instance outcome_ret : MRet outcome := @Ret.
#[global] Instance outcome_bind : MBind outcome := λ A B f m,
  match m with Ret a => f a | Fail => Fail | Panic => Panic | Undef => Undef end.

Definition defined {A} (o : option A) : outcome A := match o with Some a => Ret a | None => Undef end.
Definition guard_fail (b : bool) : outcome unit := if b then Ret tt else Fail.

(** ** The interface *)

Class Backend (B : Type) := {
  b_read : B → Z → outcome (list Z * B);
  b_write : B → list Z → outcome B;
  b_tell : B → Z;
  b_flush : B → outcome B
}.

(** [written b c n]: [c] was written and [n] more bytes can be.  [pending b c]:
    [c] is left to read.  [reopen]: the same data from the start. *)
Class Stream (B : Type) `{Backend B} := {
  written : B → list Z → Z → Prop;
  pending : B → list Z → Prop;
  reopen : B → B;
  write_ok b c n bs : written b c n → bytes_ok bs → zlen bs ≤ n →
    ∃ b', b_write b bs = Ret b' ∧ written b' (c ++ bs) (n - zlen bs);
  read_ok b bs rest : pending b (bs ++ rest) → ∃ b', b_read b (zlen bs) = Ret (bs, b') ∧ pending b' rest;
  read_short b rest n : pending b rest → zlen rest < n → in_s 64 n → b_read b n = Fail;
  reopen_ok b c n : written b c n → pending (reopen b) c
}.

(** ** Streams *)

(** [update_cksum]: NULL or the function that is called with the checksum and a
    block. *)
Record rio (B : Type) := mkRio {
  io : B;
  update_cksum : option (Z → list Z → option Z);
  cksum : Z;
  processed_bytes : Z;
  max_processing_chunk : Z
}.
Arguments mkRio {B} _ _ _ _ _.
Arguments io {B} _.
Arguments update_cksum {B} _.
Arguments cksum {B} _.
Arguments processed_bytes {B} _.
Arguments max_processing_chunk {B} _.

Section rio.
Context {B : Type} `{Backend B}.

Definition run_cksum (r : rio B) (bs : list Z) : outcome Z :=
  match update_cksum r with Some f => defined (f (cksum r) bs) | None => Ret (cksum r) end.

Definition chunk (r : rio B) (len : Z) : Z :=
  if negb (max_processing_chunk r =? 0) && (max_processing_chunk r <? len) then max_processing_chunk r else len.

(** [while (len)] of [rioWrite] *)
Fixpoint rio_write_loop (fuel : nat) (r : rio B) (buf : list Z) : outcome (rio B) :=
  if zlen buf =? 0 then Ret r else
  match fuel with
  | O => Undef
  | S fuel =>
      let n := chunk r (zlen buf) in
      sum ← run_cksum r (take (Z.to_nat n) buf);
      b ← b_write (io r) (take (Z.to_nat n) buf);
      rio_write_loop fuel (mkRio b (update_cksum r) sum (u64 (processed_bytes r + n)) (max_processing_chunk r)) (drop (Z.to_nat n) buf)
  end.
Definition rioWrite (r : rio B) (buf : list Z) : outcome (rio B) := rio_write_loop (length buf) r buf.

(** [while (len)] of [rioRead]; [acc] was read so far. *)
Fixpoint rio_read_loop (fuel : nat) (r : rio B) (len : Z) (acc : list Z) : outcome (list Z * rio B) :=
  if len =? 0 then Ret (acc, r) else
  match fuel with
  | O => Undef
  | S fuel =>
      let n := chunk r len in
      '(bs, b) ← b_read (io r) n;
      sum ← run_cksum r bs;
      rio_read_loop fuel (mkRio b (update_cksum r) sum (u64 (processed_bytes r + n)) (max_processing_chunk r)) (len - n) (acc ++ bs)
  end.
Definition rioRead (r : rio B) (len : Z) : outcome (list Z * rio B) := rio_read_loop (Z.to_nat len) r len [].

Definition rioTell (r : rio B) : Z := b_tell (io r).
Definition rioFlush (r : rio B) : outcome (rio B) :=
  b ← b_flush (io r); Ret (mkRio b (update_cksum r) (cksum r) (processed_bytes r) (max_processing_chunk r)).

End rio.

(** [rioGenericUpdateChecksum] as the callback *)
Definition rioGenericUpdateChecksum : Z → list Z → option Z := crc64.

(** ** The in-memory buffer *)

Record rio_buffer := mkBuf { bptr : sdshdr; bpos : Z }.

Definition rioBufferWrite (junk : nat → Z) (r : rio_buffer) (buf : list Z) : outcome rio_buffer :=
  s ← defined (sdscatlen junk (bptr r) buf); Ret (mkBuf s (i64 (bpos r + zlen buf))).
Definition rioBufferRead (r : rio_buffer) (len : Z) : outcome (list Z * rio_buffer) :=
  if u64 (sdslen (bptr r) - bpos r) <? len then Fail else
  bs ← defined (load (sbuf (bptr r)) (bpos r) len);
  Ret (bs, mkBuf (bptr r) (i64 (bpos r + len))).
Definition rioBufferTell (r : rio_buffer) : Z := bpos r.
Definition rioBufferFlush (r : rio_buffer) : outcome rio_buffer := Ret r.
Definition rioInitWithBuffer (s : sdshdr) : rio rio_buffer := mkRio (mkBuf s 0) None 0 0 0.

(** The indeterminate bytes of reallocations *)
Class Junk := junk_byte : nat → Z.

#[global] Instance buffer_backend `{Junk} : Backend rio_buffer := {|
  b_read := rioBufferRead;
  b_write := rioBufferWrite junk_byte;
  b_tell := rioBufferTell;
  b_flush := rioBufferFlush
|}.

(** ** The stdio file

    A [FILE] of the C library: its bytes, the position, how many bytes the device
    still accepts, and how many are known to be on disk.  [fwrite] and [fread]
    of one block succeed or fail as a whole. *)

Record FILE := mkFILE { fdata : list Z; fpos : Z; fspace : Z; fdurable : Z }.

Definition fwrite (f : FILE) (bs : list Z) : Z * FILE :=
  if zlen bs <=? fspace f then (1, mkFILE (fdata f ++ bs) (fpos f + zlen bs) (fspace f - zlen bs) (fdurable f)) else (0, f).
Definition fread (f : FILE) (len : Z) : option (list Z) * FILE :=
  match load (fdata f) (fpos f) len with
  | Some bs => (Some bs, mkFILE (fdata f) (fpos f + len) (fspace f) (fdurable f))
  | None => (None, f)
  end.
Definition fsync (f : FILE) : FILE := mkFILE (fdata f) (fpos f) (fspace f) (zlen (fdata f)).

Record rio_file := mkFile { fp : FILE; buffered : Z; autosync : Z }.

Definition rioFileWrite (r : rio_file) (buf : list Z) : outcome rio_file :=
  let '(retval, f) := fwrite (fp r) buf in
  let buffered := i64 (buffered r + zlen buf) in
  let '(f, buffered) :=
    if negb (autosync r =? 0) && (autosync r <=? buffered) then (fsync f, 0) else (f, buffered) in
  if retval =? 0 then Fail else Ret (mkFile f buffered (autosync r)).
Definition rioFileRead (r : rio_file) (len : Z) : outcome (list Z * rio_file) :=
  match fread (fp r) len with
  | (Some bs, f) => Ret (bs, mkFile f (buffered r) (autosync r))
  | (None, _) => Fail
  end.
Definition rioFileTell (r : rio_file) : Z := fpos (fp r).
Definition rioFileFlush (r : rio_file) : outcome rio_file := Ret r.
Definition rioInitWithFile (f : FILE) : rio rio_file := mkRio (mkFile f 0 0) None 0 0 0.
Definition rioSetAutoSync (r : rio rio_file) (bytes : Z) : rio rio_file :=
  mkRio (mkFile (fp (io r)) (buffered (io r)) bytes) (update_cksum r) (cksum r) (processed_bytes r) (max_processing_chunk r).

#[global] Instance file_backend : Backend rio_file := {|
  b_read := rioFileRead;
  b_write := rioFileWrite;
  b_tell := rioFileTell;
  b_flush := rioFileFlush
|}.

(** ** The protocol of the append only file *)

Section bulk.
Context {B : Type} `{Backend B} (cbuf : list Z).

(** [cbuf]: the indeterminate bytes of the local arrays.  The number of bytes
    written and the stream. *)
Definition rioWriteBulkCount (r : rio B) (prefix count : Z) : outcome (Z * rio B) :=
  '(num, n) ← defined (ll2string (drop 1 cbuf) (zlen cbuf - 1) count);
  buf ← defined (store (prefix :: num) (1 + n) [13; 10]);
  let clen := 1 + n + 2 in
  bs ← defined (load buf 0 clen);
  r ← rioWrite r bs; Ret (clen, r).

Definition rioWriteBulkString (r : rio B) (buf : list Z) : outcome (Z * rio B) :=
  let len := zlen buf in
  '(nwritten, r) ← rioWriteBulkCount r 36 (i32 len);
  r ← (if 0 <? len then rioWrite r buf else Ret r);
  r ← rioWrite r [13; 10];
  Ret (u64 (nwritten + len + 2), r).

Definition rioWriteBulkLongLong (r : rio B) (l : Z) : outcome (Z * rio B) :=
  '(lbuf, llen) ← defined (ll2string (take 32 cbuf) 32 l);
  bs ← defined (load lbuf 0 llen);
  rioWriteBulkString r bs.

End bulk.

(** ** Transfers over any stream *)

(** The checksum is not computed, or is the CRC-64 of the bytes so far. *)
Definition sum_ok {B} (r : rio B) (done : list Z) : Prop :=
  update_cksum r = None ∨ (update_cksum r = Some rioGenericUpdateChecksum ∧ crc64 0 done = Some (cksum r)).

Definition rio_written {B} `{Stream B} (r : rio B) (c : list Z) (n : Z) : Prop :=
  written (io r) c n ∧ 0 ≤ max_processing_chunk r ∧ sum_ok r c.
Definition rio_pending {B} `{Stream B} (r : rio B) (done rest : list Z) : Prop :=
  pending (io r) rest ∧ 0 ≤ max_processing_chunk r ∧ sum_ok r done.

Lemma crc64_total s : ∀ crc, in_u 64 crc → bytes_ok s → ∃ crc', crc64 crc s = Some crc' ∧ in_u 64 crc'.
Proof.
  induction s as [|c s IH]; intros crc Hcrc Hb; [by exists crc|]. apply Forall_cons in Hb as [Hc Hb]. cbn [crc64].
  unfold crc64_step at 1. rewrite (table_lookup crc64_tab r64) by (apply crc64_tab_ok || (apply (in_u_lxor 8); [lia|by apply wrapu_range|done])).
  cbn [mbind option_bind]. apply IH; [|done]. apply in_u_lxor; [lia| |].
  - assert (Forall (in_u 64) crc64_tab) as Ht by by_decision. rewrite crc64_tab_ok in Ht.
    rewrite Forall_fmap, Forall_forall in Ht. apply Ht, elem_of_seqZ. assert (in_u 8 (Z.lxor (u8 crc) c)) as Hi by (apply in_u_lxor; [lia|by apply wrapu_range|done]).
    unfold in_u in Hi. lia.
  - unfold in_u in *. rewrite Z.shiftr_div_pow2 by lia. change (2 ^ 8) with 256. divlia.
Qed.

Lemma run_cksum_ok {B} (r : rio B) done bs :
  sum_ok r done → bytes_ok done → bytes_ok bs →
  ∃ sum, run_cksum r bs = Ret sum ∧ ∀ (b : B) p m, sum_ok (mkRio b (update_cksum r) sum p m) (done ++ bs).
Proof.
  intros Hs Hd Hb. unfold run_cksum. destruct Hs as [E|[E Hc]]; rewrite E.
  - eexists. split; [done|]. intros. by left.
  - assert (in_u 64 (cksum r)) as Hr.
    { destruct (crc64_total done 0) as (x & Ex & Hx); [by_decision|done|]. congruence. }
    unfold rioGenericUpdateChecksum. destruct (crc64_total bs (cksum r) Hr Hb) as (x & Ex & _). exists x. rewrite Ex. split; [done|].
    intros. right. split; [done|]. rewrite crc64_app, Hc. exact Ex.
Qed.

Section transfers.
Context {B : Type} `{Stream B}.

Lemma chunk_bounds (r : rio B) len : 0 ≤ max_processing_chunk r → 0 < len → 0 < chunk r len ≤ len.
Proof. intros Hm Hl. unfold chunk. destruct (Z.eqb_spec (max_processing_chunk r) 0), (Z.ltb_spec (max_processing_chunk r) len); cbn [negb andb]; lia. Qed.

(** What is written is appended, whatever the size of the chunks. *)
Lemma rioWrite_spec r c n buf :
  rio_written r c n → bytes_ok c → bytes_ok buf → zlen buf ≤ n →
  ∃ r', rioWrite r buf = Ret r' ∧ rio_written r' (c ++ buf) (n - zlen buf).
Proof.
  unfold rioWrite. generalize (le_n (length buf)). generalize (length buf) at 2 3 as fuel. intros fuel. revert r c n buf.
  induction fuel as [|fuel IH]; intros r c n buf Hf Hw Hc Hb Hn.
  - destruct buf as [|x buf]; [|cbn in Hf; lia]. exists r. cbn. rewrite app_nil_r, Z.sub_0_r. done.
  - cbn [rio_write_loop]. destruct (Z.eqb_spec (zlen buf) 0) as [Hz|Hz].
    { exists r. destruct buf; [|revert Hz; len]. rewrite app_nil_r, Z.sub_0_r. done. }
    destruct Hw as (Hw & Hm & Hs). destruct (chunk_bounds r (zlen buf) Hm) as [Hk0 Hk]; [pose proof (zlen_nonneg buf); lia|].
    destruct (cut_at buf (chunk r (zlen buf))) as (b1 & b2 & E & H1 & H2); [lia|]. set (k := chunk r (zlen buf)) in *. clearbody k.
    assert (take (Z.to_nat k) buf = b1 ∧ drop (Z.to_nat k) buf = b2) as [-> ->]
      by (rewrite E; split; [apply take_app_length'|apply drop_app_length']; unfold zlen in H1; lia).
    rewrite E in Hb. apply Forall_app in Hb as [Hb1 Hb2].
    destruct (run_cksum_ok r c b1 Hs Hc Hb1) as (sum & -> & Hs'). cbn [mbind outcome_bind].
    destruct (write_ok (io r) c n b1 Hw Hb1) as (b' & -> & Hw'); [lia|]. cbn [mbind outcome_bind].
    destruct (IH (mkRio b' (update_cksum r) sum (u64 (processed_bytes r + k)) (max_processing_chunk r)) (c ++ b1) (n - zlen b1) b2) as (r' & -> & Hr');
      [revert Hf H2; len|split; [done|]; split; [done|apply Hs']|by apply Forall_app|done|lia|].
    exists r'. split; [done|]. rewrite E, app_assoc, zlen_app. by replace (n - (zlen b1 + zlen b2)) with (n - zlen b1 - zlen b2) by lia.
Qed.

Lemma rio_read_loop_spec fuel : ∀ r done buf rest acc,
  (length buf ≤ fuel)%nat → rio_pending r done (buf ++ rest) → bytes_ok done → bytes_ok buf →
  ∃ r', rio_read_loop fuel r (zlen buf) acc = Ret (acc ++ buf, r') ∧ rio_pending r' (done ++ buf) rest.
Proof.
  induction fuel as [|fuel IH]; intros r done buf rest acc Hf Hp Hd Hb.
  - destruct buf as [|x buf]; [|cbn in Hf; lia]. exists r. cbn. rewrite !app_nil_r. done.
  - cbn [rio_read_loop]. destruct (Z.eqb_spec (zlen buf) 0) as [Hz|Hz].
    { exists r. destruct buf; [|revert Hz; len]. rewrite !app_nil_r. done. }
    destruct Hp as (Hp & Hm & Hs). destruct (chunk_bounds r (zlen buf) Hm) as [Hk0 Hk]; [pose proof (zlen_nonneg buf); lia|].
    destruct (cut_at buf (chunk r (zlen buf))) as (b1 & b2 & E & H1 & H2); [lia|]. rewrite <- H1. rewrite E in Hp, Hb. rewrite <- app_assoc in Hp.
    apply Forall_app in Hb as [Hb1 Hb2]. destruct (read_ok (io r) b1 (b2 ++ rest) Hp) as (b' & -> & Hp'). cbn [mbind outcome_bind].
    destruct (run_cksum_ok r done b1 Hs Hd Hb1) as (sum & -> & Hs'). cbn [mbind outcome_bind].
    replace (zlen buf - zlen b1) with (zlen b2) by lia.
    destruct (IH (mkRio b' (update_cksum r) sum (u64 (processed_bytes r + zlen b1)) (max_processing_chunk r)) (done ++ b1) b2 rest (acc ++ b1)) as (r' & -> & Hr');
      [revert Hf H2; len|split; [done|]; split; [done|apply Hs']|by apply Forall_app|done|].
    exists r'. rewrite E, !app_assoc. done.
Qed.

Lemma rioRead_spec r done buf rest :
  rio_pending r done (buf ++ rest) → bytes_ok done → bytes_ok buf →
  ∃ r', rioRead r (zlen buf) = Ret (buf, r') ∧ rio_pending r' (done ++ buf) rest.
Proof. intros Hp Hd Hb. unfold rioRead. apply (rio_read_loop_spec _ r done buf rest []); [unfold zlen; lia|done|done|done]. Qed.

End transfers.

(** ** The backends are streams *)

#[global] Program Instance buffer_stream `{Junk} : Stream rio_buffer := {|
  written b c n := sds_rep (bptr b) c ∧ in_s 64 (bpos b) ∧ n = 2 ^ 32 - 1 - SDS_MAX_PREALLOC - zlen c;
  pending b c := ∃ a, sds_rep (bptr b) (a ++ c) ∧ bpos b = zlen a;
  reopen b := mkBuf (bptr b) 0
|}.
Next Obligation.
  intros J b c n bs (Hs & Hp & ->) Hb Hn. cbn. unfold rioBufferWrite.
  destruct (sdscatlen_spec junk_byte (bptr b) c bs Hs Hb) as (s & -> & Hs'); [lia|]. cbn [defined mbind outcome_bind].
  eexists. split; [done|]. cbn. split; [done|]. split; [by apply wraps_range|]. rewrite zlen_app. lia.
Qed.
Next Obligation.
  intros J b bs rest (a & Hs & Hp). cbn. unfold rioBufferRead, sdslen. rewrite (sr_len _ _ Hs), Hp.
  destruct (sds_facts _ _ Hs) as (r & E & _ & Hbd & _). pose proof (zlen_nonneg a). pose proof (zlen_nonneg bs). pose proof (zlen_nonneg rest). pose proof (zlen_nonneg r).
  rewrite !zlen_app in *. rewrite wrapu_small by (unfold in_u; lia). rewrite (proj2 (Z.ltb_ge _ _)) by lia.
  assert (load (sbuf (bptr b)) (zlen a) (zlen bs) = Some bs) as -> by (rewrite E; cbn [sbuf]; rewrite <- !app_assoc; by apply load_app).
  cbn [defined mbind outcome_bind]. eexists. split; [done|]. exists (a ++ bs). cbn [bptr bpos]. rewrite <- app_assoc, zlen_app.
  split; [done|]. apply wraps_small; [lia|unfold in_s; lia].
Qed.
Next Obligation.
  intros J b rest n (a & Hs & Hp) Hn Hi. cbn. unfold rioBufferRead, sdslen. rewrite (sr_len _ _ Hs), Hp.
  destruct (sds_facts _ _ Hs) as (r & _ & _ & Hbd & _). pose proof (zlen_nonneg a). pose proof (zlen_nonneg rest). pose proof (zlen_nonneg r).
  rewrite zlen_app in *. rewrite wrapu_small by (unfold in_u; lia). by rewrite (proj2 (Z.ltb_lt _ _)) by lia.
Qed.
Next Obligation. intros J b c n (Hs & _). exists []. done. Qed.

#[global] Program Instance file_stream : Stream rio_file := {|
  written b c n := fdata (fp b) = c ∧ fspace (fp b) = n;
  pending b c := ∃ a, fdata (fp b) = a ++ c ∧ fpos (fp b) = zlen a;
  reopen b := mkFile (mkFILE (fdata (fp b)) 0 (fspace (fp b)) (fdurable (fp b))) 0 (autosync b)
|}.
Next Obligation.
  intros b c n bs (<- & <-) _ Hn. cbn. unfold rioFileWrite, fwrite. rewrite (proj2 (Z.leb_le _ _)) by done.
  destruct (negb _ && _); (eexists; split; [done|]); done.
Qed.
Next Obligation.
  intros b bs rest (a & Hd & Hp). cbn. unfold rioFileRead, fread. rewrite Hd, Hp, load_app by done. eexists. split; [done|].
  exists (a ++ bs). cbn. rewrite zlen_app, <- app_assoc. done.
Qed.
Next Obligation.
  intros b rest n (a & Hd & Hp) Hn _. cbn. unfold rioFileRead, fread, load. rewrite Hd, Hp, bool_decide_false; [done|]. rewrite zlen_app. lia.
Qed.
Next Obligation. intros b c n (Hd & _). by exists []. Qed.
