(* ===== verification/Rdb.v ===== *)
(** * Rdb: strings and lengths of the dump format (redis-3.0.0/src/rdb.c)

    The encoders and decoders of types, times, lengths, integers and strings
    over a stream of [Rio].  A NULL stream is [None]: the functions that save
    then only count.  [be] is the byte order of the host, [junk] and [buf] the
    indeterminate bytes of local arrays and of fresh memory, [base] the address
    of the input of [lzf_compress]. *)

From S2P Require Import Prelude Endian NumConv Objects Sds SdsText Strto Lzf Crc Rio.

(** ** The model *)

Definition REDIS_RDB_6BITLEN : Z := 0.
Definition REDIS_RDB_14BITLEN : Z := 1.
Definition REDIS_RDB_ENCVAL : Z := 3.
Definition REDIS_RDB_32BITLEN : Z := 2.
Definition REDIS_RDB_LENERR : Z := 2 ^ 32 - 1.
Definition REDIS_RDB_ENC_INT8 : Z := 0.
Definition REDIS_RDB_ENC_INT16 : Z := 1.
Definition REDIS_RDB_ENC_INT32 : Z := 2.
Definition REDIS_RDB_ENC_LZF : Z := 3.

Section rdb.
Context {B : Type} `{Backend B} (be : host).

Definition stream : Type := option (rio B).

(** -1: [Fail] *)
Definition rdbWriteRaw (rdb : stream) (p : list Z) : outcome (Z * stream) :=
  match rdb with
  | Some r => r ← rioWrite r p; Ret (i32 (zlen p), Some r)
  | None => Ret (i32 (zlen p), None)
  end.

Definition rdbSaveType (rdb : stream) (type : Z) : outcome (Z * stream) := rdbWriteRaw rdb [u8 type].
Definition rdbLoadType (rdb : rio B) : outcome (Z * rio B) :=
  '(bs, rdb) ← rioRead rdb 1; type ← defined (bs !! 0%nat); Ret (type, rdb).

Definition rdbLoadTime (rdb : rio B) : outcome (Z * rio B) :=
  '(bs, rdb) ← rioRead rdb 4; Ret (i32 (of_mem be bs), rdb).
Definition rdbSaveMillisecondTime (rdb : stream) (t : Z) : outcome (Z * stream) :=
  rdbWriteRaw rdb (to_mem be 8 (u64 t)).
Definition rdbLoadMillisecondTime (rdb : rio B) : outcome (Z * rio B) :=
  '(bs, rdb) ← rioRead rdb 8; Ret (i64 (of_mem be bs), rdb).

(** [htonl] and [ntohl]: the bytes in memory are in network order. *)
Definition htonl_mem (v : Z) : list Z := to_mem true 4 v.
Definition ntohl_mem (bs : list Z) : Z := of_mem true bs.

Definition rdbSaveLen (rdb : stream) (len : Z) : outcome (Z * stream) :=
  if len <? Z.shiftl 1 6 then
    '(_, rdb) ← rdbWriteRaw rdb [Z.lor (Z.land len 0xFF) (Z.shiftl REDIS_RDB_6BITLEN 6)];
    Ret (1, rdb)
  else if len <? Z.shiftl 1 14 then
    '(_, rdb) ← rdbWriteRaw rdb [Z.lor (Z.land (Z.shiftr len 8) 0xFF) (Z.shiftl REDIS_RDB_14BITLEN 6); Z.land len 0xFF];
    Ret (2, rdb)
  else
    '(_, rdb) ← rdbWriteRaw rdb [Z.shiftl REDIS_RDB_32BITLEN 6];
    '(_, rdb) ← rdbWriteRaw rdb (htonl_mem len);
    Ret (1 + 4, rdb).

(** The length, [*isencoded], and the stream; an error is the value
    [REDIS_RDB_LENERR], with the stream as it was left: here [Fail]. *)
Definition rdbLoadLen (rdb : rio B) : outcome (Z * bool * rio B) :=
  '(bs, rdb) ← rioRead rdb 1;
  b0 ← defined (bs !! 0%nat);
  let type := Z.shiftr (Z.land b0 0xC0) 6 in
  if type =? REDIS_RDB_ENCVAL then Ret (Z.land b0 0x3F, true, rdb)
  else if type =? REDIS_RDB_6BITLEN then Ret (Z.land b0 0x3F, false, rdb)
  else if type =? REDIS_RDB_14BITLEN then
    '(bs, rdb) ← rioRead rdb 1;
    b1 ← defined (bs !! 0%nat);
    Ret (Z.lor (Z.shiftl (Z.land b0 0x3F) 8) b1, false, rdb)
  else
    '(bs, rdb) ← rioRead rdb 4;
    let len := ntohl_mem bs in
    if len =? REDIS_RDB_LENERR then Fail else Ret (len, false, rdb).

(** The bytes stored in [enc]; none: 0 is returned. *)
Definition rdbEncodeInteger (value : Z) : list Z :=
  if (- Z.shiftl 1 7 <=? value) && (value <=? Z.shiftl 1 7 - 1) then
    [Z.lor (Z.shiftl REDIS_RDB_ENCVAL 6) REDIS_RDB_ENC_INT8; Z.land value 0xFF]
  else if (- Z.shiftl 1 15 <=? value) && (value <=? Z.shiftl 1 15 - 1) then
    [Z.lor (Z.shiftl REDIS_RDB_ENCVAL 6) REDIS_RDB_ENC_INT16; Z.land value 0xFF; Z.land (Z.shiftr value 8) 0xFF]
  else if (- Z.shiftl 1 31 <=? value) && (value <=? Z.shiftl 1 31 - 1) then
    [Z.lor (Z.shiftl REDIS_RDB_ENCVAL 6) REDIS_RDB_ENC_INT32; Z.land value 0xFF; Z.land (Z.shiftr value 8) 0xFF;
     Z.land (Z.shiftr value 16) 0xFF; Z.land (Z.shiftr value 24) 0xFF]
  else [].

(** The branches of [rdbLoadIntegerObject] that set [val] *)
Definition load_val (rdb : rio B) (enctype : Z) : outcome (Z * rio B) :=
  if enctype =? REDIS_RDB_ENC_INT8 then
    '(enc, rdb) ← rioRead rdb 1;
    e0 ← defined (enc !! 0%nat); Ret (wraps 8 e0, rdb)
  else if enctype =? REDIS_RDB_ENC_INT16 then
    '(enc, rdb) ← rioRead rdb 2;
    e0 ← defined (enc !! 0%nat); e1 ← defined (enc !! 1%nat);
    Ret (i16 (u16 (Z.lor e0 (Z.shiftl e1 8))), rdb)
  else if enctype =? REDIS_RDB_ENC_INT32 then
    '(enc, rdb) ← rioRead rdb 4;
    e0 ← defined (enc !! 0%nat); e1 ← defined (enc !! 1%nat); e2 ← defined (enc !! 2%nat); e3 ← defined (enc !! 3%nat);
    Ret (i32 (u32 (Z.lor (Z.lor (Z.lor e0 (Z.shiftl e1 8)) (Z.shiftl e2 16)) (Z.shiftl e3 24))), rdb)
  else Panic.

Section objects.
(** [buf]: [char buf[32]] and the like. *)
Context (buf : list Z).

(** [createStringObjectFromLongLong] keeps a [long] in the pointer. *)
Definition rdbLoadIntegerObject (rdb : rio B) (enctype : Z) (encode : bool) : outcome (enc_obj * rio B) :=
  '(val, rdb) ← load_val rdb enctype;
  if encode then Ret (ObjInt val, rdb)
  else s ← defined (sdsfromlonglong (take 21 buf) val); t ← defined (load (sbuf s) 0 (sdslen s)); Ret (ObjStr t, rdb).

(** The bytes stored in [enc]. *)
Definition rdbTryIntegerEncoding (s : list Z) : outcome (list Z) :=
  let '(value, endptr) := strtoll (s ++ [0]) in
  e ← defined (get8 endptr 0);
  if negb (e =? 0) then Ret [] else
  '(b, _) ← defined (ll2string (take 32 buf) 32 value);
  t ← defined (cstr b);
  if negb (zlen t =? zlen s) || negb (bool_decide (t = s)) then Ret [] else
  Ret (rdbEncodeInteger value).

(** 0 is returned when the string cannot be compressed. *)
Definition rdbSaveLzfStringObject (junk : Z → Z) (base : Z) (rdb : stream) (s : list Z) : outcome (Z * stream) :=
  let len := zlen s in
  if len <=? 4 then Ret (0, rdb) else
  let outlen := len - 4 in
  '(out, comprlen) ← defined (lzf_compress junk base s outlen (junk <$> seqZ 0 (outlen + 1)));
  if comprlen =? 0 then Ret (0, rdb) else
  '(n0, rdb) ← rdbWriteRaw rdb [Z.lor (Z.shiftl REDIS_RDB_ENCVAL 6) REDIS_RDB_ENC_LZF];
  '(n1, rdb) ← rdbSaveLen rdb (u32 comprlen);
  '(n2, rdb) ← rdbSaveLen rdb (u32 len);
  bs ← defined (load out 0 comprlen);
  '(n3, rdb) ← rdbWriteRaw rdb bs;
  Ret (n0 + n1 + n2 + n3, rdb).

Definition rdbLoadLzfStringObject (rdb : rio B) : outcome (enc_obj * rio B) :=
  '(clen, _, rdb) ← rdbLoadLen rdb;
  '(len, _, rdb) ← rdbLoadLen rdb;
  val ← defined (sdsnewlen None len);
  '(c, rdb) ← rioRead rdb clen;
  '(out, r) ← defined (lzf_decompress c (take (Z.to_nat len) (sbuf val)) len);
  match r with inl n => if n =? 0 then Fail else Ret (ObjStr out, rdb) | inr _ => Fail end.

(** [compression]: [server.rdb_compression] *)
Definition rdbSaveRawString (compression : bool) (junk : Z → Z) (base : Z) (rdb : stream) (s : list Z) : outcome (Z * stream) :=
  let len := zlen s in
  enc ← (if len <=? 11 then rdbTryIntegerEncoding s else Ret []);
  if 0 <? zlen enc then '(_, rdb) ← rdbWriteRaw rdb enc; Ret (zlen enc, rdb) else
  '(n, rdb) ← (if compression && (20 <? len) then rdbSaveLzfStringObject junk base rdb s else Ret (0, rdb));
  if 0 <? n then Ret (n, rdb) else
  '(n, rdb) ← rdbSaveLen rdb (u32 len);
  if 0 <? len then '(_, rdb) ← rdbWriteRaw rdb s; Ret (n + len, rdb) else Ret (n, rdb).

Definition rdbSaveLongLongAsStringObject (rdb : stream) (value : Z) : outcome (Z * stream) :=
  let enc := rdbEncodeInteger value in
  if 0 <? zlen enc then rdbWriteRaw rdb enc else
  '(b, enclen) ← defined (ll2string (take 32 buf) 32 value);
  if negb (enclen <? 32) then Panic else
  '(n0, rdb) ← rdbSaveLen rdb (u32 enclen);
  bs ← defined (load b 0 enclen);
  '(n1, rdb) ← rdbWriteRaw rdb bs;
  Ret (n0 + n1, rdb).

Definition rdbSaveStringObject (compression : bool) (junk : Z → Z) (base : Z) (rdb : stream) (obj : enc_obj) : outcome (Z * stream) :=
  match obj with
  | ObjInt v => rdbSaveLongLongAsStringObject rdb v
  | ObjStr s => rdbSaveRawString compression junk base rdb s
  end.

Definition rdbGenericLoadStringObject (rdb : rio B) (encode : bool) : outcome (enc_obj * rio B) :=
  '(len, isencoded, rdb) ← rdbLoadLen rdb;
  if (isencoded : bool) then
    if (len =? REDIS_RDB_ENC_INT8) || (len =? REDIS_RDB_ENC_INT16) || (len =? REDIS_RDB_ENC_INT32) then rdbLoadIntegerObject rdb len encode
    else if len =? REDIS_RDB_ENC_LZF then rdbLoadLzfStringObject rdb
    else Panic
  else
    '(s, rdb) ← (if negb (len =? 0) then rioRead rdb len else Ret ([], rdb));
    Ret (ObjStr s, rdb).
Definition rdbLoadStringObject (rdb : rio B) : outcome (enc_obj * rio B) := rdbGenericLoadStringObject rdb false.
Definition rdbLoadEncodedStringObject (rdb : rio B) : outcome (enc_obj * rio B) := rdbGenericLoadStringObject rdb true.

End objects.
End rdb.

(** ** Encoders and decoders over any stream *)

Section codec.
Context {B : Type} `{Stream B}.

(** [m] writes the bytes [bs] and returns how many they are. *)
Definition saves (m : stream → outcome (Z * stream)) (bs : list Z) : Prop :=
  bytes_ok bs ∧ ∀ (r : rio B) c n, rio_written r c n → bytes_ok c → zlen bs ≤ n →
    ∃ r', m (Some r) = Ret (zlen bs, Some r') ∧ rio_written r' (c ++ bs) (n - zlen bs).
(** [m] reads the bytes [bs] and returns [a]. *)
Definition loads {A} (m : rio B → outcome (A * rio B)) (bs : list Z) (a : A) : Prop :=
  ∀ r done rest, rio_pending r done (bs ++ rest) → bytes_ok done → bytes_ok bs →
    ∃ r', m r = Ret (a, r') ∧ rio_pending r' (done ++ bs) rest.

Lemma saves_raw bs : bytes_ok bs → zlen bs < 2 ^ 31 → saves (λ rdb, rdbWriteRaw rdb bs) bs.
Proof.
  intros Hb Hl. split; [done|]. intros r c n Hw Hc Hn. cbn. destruct (rioWrite_spec r c n bs Hw Hc Hb Hn) as (r' & -> & Hr').
  cbn [mbind outcome_bind]. exists r'. rewrite wraps_small by (unfold in_s; pose proof (zlen_nonneg bs); lia). done.
Qed.

Lemma saves_seq m1 m2 b1 b2 (k : Z → Z → Z) : saves m1 b1 → saves m2 b2 → k (zlen b1) (zlen b2) = zlen b1 + zlen b2 →
  saves (λ rdb, '(n1, rdb) ← m1 rdb; '(n2, rdb) ← m2 rdb; Ret (k n1 n2, rdb)) (b1 ++ b2).
Proof.
  intros [Hb1 H1] [Hb2 H2] Hk. split; [by apply Forall_app|]. intros r c n Hw Hc Hn. rewrite zlen_app in Hn. pose proof (zlen_nonneg b2).
  destruct (H1 r c n Hw Hc) as (r1 & -> & Hw1); [lia|]. cbn [mbind outcome_bind].
  destruct (H2 r1 (c ++ b1) (n - zlen b1) Hw1) as (r2 & -> & Hw2); [by apply Forall_app|lia|]. cbn [mbind outcome_bind].
  exists r2. rewrite Hk, zlen_app, app_assoc. split; [done|]. by replace (n - (zlen b1 + zlen b2)) with (n - zlen b1 - zlen b2) by lia.
Qed.

Lemma saves_ret m bs k : saves m bs → k = zlen bs → saves (λ rdb, '(_, rdb) ← m rdb; Ret (k, rdb)) bs.
Proof.
  intros [Hb H1] ->. split; [done|]. intros r c n Hw Hc Hn. destruct (H1 r c n Hw Hc Hn) as (r1 & -> & Hw1). by exists r1.
Qed.

(** Two functions that do the same. *)
Lemma saves_ext m m' bs : (∀ rdb, m' rdb = m rdb) → saves m bs → saves m' bs.
Proof. intros E [Hb H1]. split; [done|]. intros r c n Hw Hc Hn. rewrite E. by apply H1. Qed.
Lemma loads_ext {A} (m m' : rio B → outcome (A * rio B)) bs a : (∀ rdb, m' rdb = m rdb) → loads m bs a → loads m' bs a.
Proof. intros E H1 r done rest Hp Hd Hb. rewrite E. by apply H1. Qed.

Lemma loads_raw bs : loads (λ rdb, rioRead rdb (zlen bs)) bs bs.
Proof. intros r done rest Hp Hd Hb. by apply rioRead_spec. Qed.

Lemma loads_bind {A C} (m : rio B → outcome (A * rio B)) (k : A → rio B → outcome (C * rio B)) b1 b2 a c :
  loads m b1 a → loads (k a) b2 c → loads (λ rdb, '(a, rdb) ← m rdb; k a rdb) (b1 ++ b2) c.
Proof.
  intros H1 H2 r done rest Hp Hd Hb. apply Forall_app in Hb as [Hb1 Hb2]. rewrite <- app_assoc in Hp.
  destruct (H1 r done (b2 ++ rest) Hp Hd Hb1) as (r1 & -> & Hp1). cbn [mbind outcome_bind].
  destruct (H2 r1 (done ++ b1) rest Hp1) as (r2 & -> & Hp2); [by apply Forall_app|done|]. exists r2. rewrite app_assoc. done.
Qed.
Lemma loads_ret {A} (a : A) : loads (λ rdb, Ret (a, rdb)) [] a.
Proof. intros r done rest Hp Hd _. exists r. by rewrite app_nil_r. Qed.
Lemma loads_map {A C} (m : rio B → outcome (A * rio B)) (k : A → rio B → outcome (C * rio B)) bs a c :
  loads m bs a → (∀ rdb, k a rdb = Ret (c, rdb)) → loads (λ rdb, '(a, rdb) ← m rdb; k a rdb) bs c.
Proof.
  intros H1 Hk. rewrite <- (app_nil_r bs). eapply loads_bind; [done|]. eapply loads_ext; [apply Hk|]. apply loads_ret.
Qed.

(** ** Lengths *)

Definition enc_len (len : Z) : list Z :=
  if len <? 64 then [len] else if len <? 16384 then [64 + len / 256; len mod 256] else 128 :: htonl_mem len.

Lemma len6 : Forall (λ len, Z.lor (Z.land len 0xFF) (Z.shiftl REDIS_RDB_6BITLEN 6) = len ∧
  Z.shiftr (Z.land len 0xC0) 6 = 0 ∧ Z.land len 0x3F = len) (seqZ 0 64).
Proof. by_decision. Qed.
Lemma len14 : Forall (λ h, Z.lor (Z.land h 0xFF) (Z.shiftl REDIS_RDB_14BITLEN 6) = 64 + h ∧
  Z.shiftr (Z.land (64 + h) 0xC0) 6 = 1 ∧ Z.land (64 + h) 0x3F = h) (seqZ 0 64).
Proof. by_decision. Qed.

Lemma low_byte v : Z.land v 0xFF = v mod 256.
Proof. change 0xFF with (Z.ones 8). by rewrite Z.land_ones. Qed.

Lemma to_mem_bytes be n v : 0 ≤ n → bytes_ok (to_mem be n v).
Proof. intros Hn. unfold to_mem. destruct be; [|by apply le_bytes_ok]. rewrite rev_alt. by apply Forall_reverse, le_bytes_ok. Qed.
Lemma htonl_mem_facts v : in_u 32 v → bytes_ok (htonl_mem v) ∧ zlen (htonl_mem v) = 4 ∧ ntohl_mem (htonl_mem v) = v.
Proof.
  intros Hv. split; [by apply to_mem_bytes|]. split; [by apply length_to_mem|].
  unfold ntohl_mem, htonl_mem. rewrite of_to_mem by done. by apply wrapu_small.
Qed.

Lemma enc_len_size len : in_u 32 len → 0 < zlen (enc_len len) ≤ 5.
Proof.
  intros Hl. unfold enc_len. repeat case_if; [done|done|]. rewrite zlen_cons. destruct (htonl_mem_facts len Hl) as (_ & -> & _). lia.
Qed.

Lemma rdbSaveLen_saves len : in_u 32 len → saves (λ rdb, rdbSaveLen rdb len) (enc_len len).
Proof.
  intros Hl. destruct (htonl_mem_facts len Hl) as (Hb & Hz & _). unfold rdbSaveLen, enc_len, in_u in *. change (Z.shiftl 1 6) with 64. change (Z.shiftl 1 14) with 16384.
  destruct (Z.ltb_spec len 64) as [H6|H6]; [|destruct (Z.ltb_spec len 16384) as [H14|H14]].
  - pose proof len6 as F. rewrite Forall_forall in F. destruct (F len) as (-> & _); [apply elem_of_seqZ; lia|].
    apply saves_ret; [|done]. apply saves_raw; [|done]. apply Forall_singleton. unfold byte_ok. lia.
  - pose proof len14 as F. rewrite Forall_forall in F. rewrite Z.shiftr_div_pow2 by lia. change (2 ^ 8) with 256.
    destruct (F (len / 256)) as (-> & _); [apply elem_of_seqZ; divlia|]. rewrite low_byte. apply saves_ret; [|done]. apply saves_raw; [|done].
    repeat apply Forall_cons_2; [unfold byte_ok; divlia..|apply Forall_nil_2].
  - change (128 :: htonl_mem len) with ([128] ++ htonl_mem len).
    apply (saves_seq _ _ _ _ (λ _ _, 1 + 4)); [apply saves_raw; [by_decision|done]|apply saves_raw; [done|rewrite Hz; lia]|rewrite Hz; done].
Qed.

Lemma rdbLoadLen_loads len : in_u 32 len → len ≠ REDIS_RDB_LENERR → loads rdbLoadLen (enc_len len) (len, false).
Proof.
  intros Hl Herr. destruct (htonl_mem_facts len Hl) as (Hb & Hz & Hn). unfold enc_len, in_u in *.
  destruct (Z.ltb_spec len 64) as [H6|H6]; [|destruct (Z.ltb_spec len 16384) as [H14|H14]].
  - pose proof len6 as F. rewrite Forall_forall in F. destruct (F len) as (_ & E1 & E2); [apply elem_of_seqZ; lia|].
    apply (loads_map _ _ [len] [len] _ (loads_raw [len])). intros rdb. cbn [lookup list_lookup defined mbind outcome_bind]. by rewrite E1, E2.
  - pose proof len14 as F. rewrite Forall_forall in F. destruct (F (len / 256)) as (_ & E1 & E2); [apply elem_of_seqZ; divlia|].
    change [64 + len / 256; len mod 256] with ([64 + len / 256] ++ [len mod 256]).
    apply (loads_bind _ _ [64 + len / 256] [len mod 256] [64 + len / 256] _ (loads_raw [64 + len / 256])).
    eapply loads_ext; [intros rdb; cbn [lookup list_lookup defined mbind outcome_bind]; rewrite E1, E2; reflexivity|]. cbn [Z.eqb REDIS_RDB_ENCVAL REDIS_RDB_6BITLEN REDIS_RDB_14BITLEN Pos.eqb].
    apply (loads_map _ _ [len mod 256] [len mod 256] _ (loads_raw [len mod 256])). intros rdb. cbn [lookup list_lookup defined mbind outcome_bind].
    rewrite Z.lor_comm, lor_shift by (unfold in_u; divlia). do 3 f_equal. change (2 ^ 8) with 256. divlia.
  - change (128 :: htonl_mem len) with ([128] ++ htonl_mem len).
    apply (loads_bind _ _ [128] (htonl_mem len) [128] _ (loads_raw [128])).
    eapply loads_ext; [intros rdb; cbn [lookup list_lookup defined mbind outcome_bind]; reflexivity|]. change (Z.shiftr (Z.land 128 192) 6) with 2. cbn [Z.eqb REDIS_RDB_ENCVAL REDIS_RDB_6BITLEN REDIS_RDB_14BITLEN Pos.eqb].
    rewrite <- Hz. apply (loads_map _ _ (htonl_mem len) (htonl_mem len) _ (loads_raw (htonl_mem len))). intros rdb.
    rewrite Hn. by rewrite (proj2 (Z.eqb_neq _ _)).
Qed.

(** ** Integers *)

Lemma le_word2 v : u16 (Z.lor (Z.land v 0xFF) (Z.shiftl (Z.land (Z.shiftr v 8) 0xFF) 8)) = u16 v.
Proof.
  rewrite !low_byte, Z.shiftr_div_pow2 by lia. rewrite lor_shift by (unfold in_u; divlia). unfold wrapu. pow_compute. divlia.
Qed.
Lemma le_word4 v :
  u32 (Z.lor (Z.lor (Z.lor (Z.land v 0xFF) (Z.shiftl (Z.land (Z.shiftr v 8) 0xFF) 8)) (Z.shiftl (Z.land (Z.shiftr v 16) 0xFF) 16))
    (Z.shiftl (Z.land (Z.shiftr v 24) 0xFF) 24)) = u32 v.
Proof.
  rewrite !low_byte, !Z.shiftr_div_pow2 by lia. rewrite (lor_shift 8) by (unfold in_u; divlia). rewrite (lor_shift 16) by (unfold in_u; pow_compute; divlia).
  rewrite (lor_shift 24) by (unfold in_u; pow_compute; divlia). unfold wrapu. pow_compute. divlia.
Qed.

Lemma rdbEncodeInteger_load value : in_s 32 value →
  ∃ t rest, rdbEncodeInteger value = (192 + t) :: rest ∧ 0 ≤ t < 3 ∧ bytes_ok rest ∧ loads (λ rdb, load_val rdb t) rest value.
Proof.
  unfold in_s. intros Hv. change (2 ^ (32 - 1)) with 2147483648 in Hv. unfold rdbEncodeInteger.
  change (Z.shiftl 1 7) with 128. change (Z.shiftl 1 15) with 32768. change (Z.shiftl 1 31) with 2147483648.
  assert (∀ v, byte_ok (Z.land v 0xFF)) as Hb by (intros; rewrite low_byte; unfold byte_ok; divlia).
  destruct ((-(128) <=? value) && (value <=? 128 - 1)) eqn:E8; [|destruct ((-(32768) <=? value) && (value <=? 32768 - 1)) eqn:E16].
  - bool_tests. exists 0, [Z.land value 0xFF]. split; [done|]. split; [lia|]. split; [apply Forall_cons_2; [done|apply Forall_nil_2]|].
    apply (loads_map _ _ _ _ _ (loads_raw [Z.land value 0xFF])). intros rdb. cbn [lookup list_lookup defined mbind outcome_bind].
    rewrite low_byte. change (value mod 256) with (wrapu 8 value). rewrite wraps_wrapu_id by (unfold in_s; lia). done.
  - bool_tests. eexists 1, [_; _]. split; [done|]. split; [lia|]. split; [repeat apply Forall_cons_2; [done..|apply Forall_nil_2]|].
    apply (loads_map _ _ _ _ _ (loads_raw [Z.land value 0xFF; Z.land (Z.shiftr value 8) 0xFF])). intros rdb. cbn [lookup list_lookup defined mbind outcome_bind].
    rewrite le_word2, wraps_wrapu_id by (unfold in_s; lia). done.
  - rewrite (proj2 (andb_true_iff _ _)) by (split; apply Z.leb_le; lia).
    eexists 2, [_; _; _; _]. split; [done|]. split; [lia|]. split; [repeat apply Forall_cons_2; [done..|apply Forall_nil_2]|].
    apply (loads_map _ _ _ _ _ (loads_raw [Z.land value 0xFF; Z.land (Z.shiftr value 8) 0xFF; Z.land (Z.shiftr value 16) 0xFF; Z.land (Z.shiftr value 24) 0xFF])).
    intros rdb. cbn [lookup list_lookup defined mbind outcome_bind]. rewrite le_word4, wraps_wrapu_id by (unfold in_s; lia). done.
Qed.
Lemma rdbEncodeInteger_large value : ¬ in_s 32 value → rdbEncodeInteger value = [].
Proof.
  unfold in_s. intros Hv. change (2 ^ (32 - 1)) with 2147483648 in Hv. unfold rdbEncodeInteger.
  change (Z.shiftl 1 7) with 128. change (Z.shiftl 1 15) with 32768. change (Z.shiftl 1 31) with 2147483648.
  repeat case_if; bool_tests; (done || lia).
Qed.

(** An encoded value starts with its type. *)
Lemma rdbLoadLen_enc t : 0 ≤ t < 4 → loads rdbLoadLen [192 + t] (t, true).
Proof.
  intros Ht. apply (loads_map _ _ _ _ _ (loads_raw [192 + t])). intros rdb. cbn [lookup list_lookup defined mbind outcome_bind].
  assert (t = 0 ∨ t = 1 ∨ t = 2 ∨ t = 3) as [-> |[-> |[-> | ->]]] by lia; done.
Qed.

(** ** Strings *)

Context (buf : list Z) (Hbuf : 32 ≤ zlen buf).

(** The two local arrays that are cut out of [buf]. *)
Lemma buf_take n : 0 ≤ n ≤ 32 → zlen (take (Z.to_nat n) buf) = n.
Proof using Hbuf. intros Hn. unfold zlen in *. rewrite length_take. lia. Qed.

Lemma rdbLoadIntegerObject_loads t rest value ds encode :
  in_s 32 value → decimal ds value → loads (λ rdb, load_val rdb t) rest value →
  loads (λ rdb, rdbLoadIntegerObject buf rdb t encode) rest (if encode then ObjInt value else ObjStr ds).
Proof using Hbuf.
  intros Hv Hd Hl. unfold rdbLoadIntegerObject. apply (loads_map _ _ _ value _ Hl). intros rdb. destruct encode; [done|].
  destruct (sdsfromlonglong_spec (take 21 buf) value) as (s & ds' & -> & Hs & Hd'); [unfold in_s in *; lia|unfold in_s, LLONG_MIN in *; lia| |].
  { rewrite (buf_take 21 ltac:(lia) : zlen (take 21 buf) = 21). unfold SDS_LLSTR_SIZE. lia. }
  rewrite (decimal_unique ds' ds value Hd' Hd) in Hs. cbn [defined mbind outcome_bind]. unfold sdslen.
  destruct (sds_facts s ds Hs) as (r & -> & _). cbn [sbuf slen]. by rewrite load_app_0.
Qed.

Lemma rdbTryIntegerEncoding_spec s : ∃ enc, rdbTryIntegerEncoding buf s = Ret enc ∧
  (enc = [] ∨ ∃ v, enc = rdbEncodeInteger v ∧ decimal s v).
Proof using Hbuf.
  unfold rdbTryIntegerEncoding. destruct (strtoll_total s) as (v & c & r & -> & Hv). rewrite get8_0. cbn [defined mbind outcome_bind].
  destruct (Z.eqb_spec c 0) as [-> |Hc]; cbn [negb]; [|by exists []; split; [|left]].
  destruct (ll2string_room (take 32 buf) 32 v Hv) as (t & Hd & Hl & ->); [rewrite (buf_take 32 ltac:(lia) : zlen (take 32 buf) = 32); lia|].
  cbn [defined mbind outcome_bind]. rewrite cstr_app by by eapply decimal_nonzero. cbn [defined mbind outcome_bind].
  case_bool_decide as E; cbn [negb]; [|rewrite orb_true_r; by exists []; split; [|left]].
  subst t. rewrite Z.eqb_refl. cbn [negb orb]. exists (rdbEncodeInteger v). split; [done|]. right. by exists v.
Qed.

(** [bs] is read back as an object with the string [s]; as a plain string if
    [encode] is not set. *)
Definition reads_string (bs s : list Z) : Prop :=
  ∀ encode, ∃ o, loads (λ rdb, rdbGenericLoadStringObject buf rdb encode) bs o ∧ obj_bytes o s ∧ (encode = false → o = ObjStr s).

Lemma int_codec v s : in_s 32 v → decimal s v →
  bytes_ok (rdbEncodeInteger v) ∧ 0 < zlen (rdbEncodeInteger v) ≤ 5 ∧ reads_string (rdbEncodeInteger v) s.
Proof using Hbuf.
  intros Hv Hd. assert (zlen (rdbEncodeInteger v) ≤ 5) by (unfold rdbEncodeInteger; repeat case_if; unfold zlen; cbn [length]; lia).
  destruct (rdbEncodeInteger_load v Hv) as (t & rest & E & Ht & Hb & Hl). rewrite E in *. split; [apply Forall_cons_2; [unfold byte_ok; lia|done]|].
  split; [split; [len|done]|]. intros encode. exists (if encode then ObjInt v else ObjStr s). split; [|by destruct encode].
  change (192 + t :: rest) with ([192 + t] ++ rest). apply (loads_bind _ _ _ _ (t, true)); [apply rdbLoadLen_enc; lia|].
  eapply loads_ext; [intros rdb; cbv beta iota; reflexivity|].
  assert ((t =? REDIS_RDB_ENC_INT8) || (t =? REDIS_RDB_ENC_INT16) || (t =? REDIS_RDB_ENC_INT32) = true) as ->
    by (assert (t = 0 ∨ t = 1 ∨ t = 2) as [-> |[-> | ->]] by lia; done).
  by apply rdbLoadIntegerObject_loads.
Qed.

(** The string after its length *)
Lemma raw_reads s : zlen s < 2 ^ 31 → reads_string (enc_len (zlen s) ++ s) s.
Proof using Hbuf.
  intros Hl encode. exists (ObjStr s). split; [|done]. pose proof (zlen_nonneg s).
  apply (loads_bind _ _ _ _ (zlen s, false)); [apply rdbLoadLen_loads; [unfold in_u; lia|unfold REDIS_RDB_LENERR; lia]|]. cbv beta iota.
  destruct (Z.eqb_spec (zlen s) 0) as [Hz|Hz]; cbn [negb].
  - destruct s; [|revert Hz; len]. apply loads_ret.
  - apply (loads_map _ _ _ _ _ (loads_raw s)). done.
Qed.

(** A function that writes [bs] and what reads it back. *)
Definition codec (m : stream → outcome (Z * stream)) (s : list Z) (limit : Z) : Prop :=
  ∃ bs, saves m bs ∧ 0 < zlen bs ≤ limit ∧ reads_string bs s.

Lemma rdbSaveLongLongAsStringObject_codec v s :
  in_s 64 v → decimal s v → codec (λ rdb, rdbSaveLongLongAsStringObject buf rdb v) s 37.
Proof using Hbuf.
  intros Hv Hd. unfold rdbSaveLongLongAsStringObject. cbv zeta. destruct (decide (in_s 32 v)) as [H32|H32].
  - destruct (int_codec v s H32 Hd) as (Hb & Hz & Hr). exists (rdbEncodeInteger v). split; [|split; [lia|done]].
    rewrite (proj2 (Z.ltb_lt _ _)) by lia. apply saves_raw; [done|lia].
  - rewrite rdbEncodeInteger_large by done. change (0 <? zlen []) with false. cbv iota.
    destruct (ll2string_room (take 32 buf) 32 v Hv) as (t & Ht & Hl & ->); [rewrite (buf_take 32 ltac:(lia) : zlen (take 32 buf) = 32); lia|].
    rewrite (decimal_unique t s v Ht Hd) in *. cbn [defined mbind outcome_bind]. rewrite (proj2 (Z.ltb_lt _ _)) by done. cbn [negb].
    rewrite load_app_0 by done. cbn [defined mbind outcome_bind]. pose proof (zlen_nonneg s). rewrite wrapu_small by (unfold in_u; lia).
    destruct (enc_len_size (zlen s)); [unfold in_u; lia|]. exists (enc_len (zlen s) ++ s). split; [|split; [rewrite zlen_app; lia|apply raw_reads; lia]].
    apply (saves_seq _ _ _ _ Z.add); [apply rdbSaveLen_saves; unfold in_u; lia| |done]. apply saves_raw; [by eapply decimal_bytes|lia].
Qed.

(** *** Compression *)

Context (junk : Z → Z) (base : Z) (Hjunk : ∀ i, in_u 64 (junk i)).

Lemma saves_bind_pure m bs k (K : Z → Z) : saves m bs → K (zlen bs) = k → k = zlen bs →
  saves (λ rdb, '(n, rdb) ← m rdb; Ret (K n, rdb)) bs.
Proof.
  intros [Hb H1] HK ->. split; [done|]. intros r c n Hw Hc Hn. destruct (H1 r c n Hw Hc Hn) as (r1 & -> & Hw1). cbn [mbind outcome_bind].
  exists r1. by rewrite HK.
Qed.

(** The compressed string: marker, the two lengths, the data. *)
Definition lzf_bytes (c : list Z) (len : Z) : list Z := [195] ++ enc_len (zlen c) ++ enc_len len ++ c.

Lemma lzf_reads c s :
  zlen c < 2 ^ 31 → 0 < zlen s < 2 ^ 31 → lzf_decompress c (replicate (length s) 0) (zlen s) = Some (s, inl (zlen s)) →
  reads_string (lzf_bytes c (zlen s)) s.
Proof using Hbuf.
  intros Hc Hl E encode. exists (ObjStr s). split; [|done]. pose proof (zlen_nonneg c).
  apply (loads_bind _ _ _ _ (3, true)); [apply (rdbLoadLen_enc 3); lia|]. cbv beta iota. change (rdbGenericLoadStringObject buf) with (rdbGenericLoadStringObject (B := B) buf).
  eapply loads_ext; [intros rdb; reflexivity|]. unfold rdbLoadLzfStringObject.
  apply (loads_bind _ _ _ _ (zlen c, false)); [apply rdbLoadLen_loads; [unfold in_u; lia|unfold REDIS_RDB_LENERR; lia]|]. cbv beta iota.
  apply (loads_bind _ _ _ _ (zlen s, false)); [apply rdbLoadLen_loads; [unfold in_u; lia|unfold REDIS_RDB_LENERR; lia]|]. cbv beta iota.
  eapply loads_ext; [intros rdb; cbn [sdsnewlen defined mbind outcome_bind]; reflexivity|].
  apply (loads_map _ _ _ _ _ (loads_raw c)). intros rdb. cbn [sbuf]. rewrite take_replicate.
  replace (Z.to_nat (zlen s) `min` Z.to_nat (zlen s + 1))%nat with (length s) by (unfold zlen; lia).
  rewrite E. cbn [defined mbind outcome_bind]. by rewrite (proj2 (Z.eqb_neq _ _)) by lia.
Qed.

Lemma rdbSaveLzfStringObject_codec s :
  bytes_ok s → 4 < zlen s < 2 ^ 30 → MAX_OFF ≤ base ∧ base + zlen s < 2 ^ 64 →
  (∀ rdb, rdbSaveLzfStringObject junk base rdb s = Ret (0, rdb)) ∨ codec (λ rdb, rdbSaveLzfStringObject junk base rdb s) s (zlen s + 7).
Proof using Hbuf Hjunk.
  intros Hs Hl Hbase. unfold rdbSaveLzfStringObject. cbv zeta.
  assert (zlen (junk <$> seqZ 0 (zlen s - 4 + 1)) = zlen s - 4 + 1) as Hout by (unfold zlen at 1; rewrite length_fmap, length_seqZ; lia).
  destruct (lzf_compress_decompress junk base s (zlen s - 4) (junk <$> seqZ 0 (zlen s - 4 + 1)) (replicate (length s) 0)) as (o & n & E & Hn & Ho & Hd);
    [done|lia|done|done|lia|lia|unfold zlen; by rewrite length_replicate|].
  rewrite (proj2 (Z.leb_gt _ _)) by lia. rewrite E. cbn [defined mbind outcome_bind]. destruct (Z.eqb_spec n 0) as [-> |Hn0]; [by left|].
  destruct (Hd Hn0) as [Hb Hdec]. right.
  rewrite Hout in Ho. pose proof (zlen_nonneg (enc_len n)).
  assert (load o 0 n = Some (take (Z.to_nat n) o)) as Hload by (unfold load; rewrite bool_decide_true by lia; by rewrite drop_0).
  rewrite Hload. cbn [defined mbind outcome_bind]. set (c := take (Z.to_nat n) o) in *. assert (zlen c = n) as Hc by (subst c; unfold zlen in *; rewrite length_take; lia).
  rewrite !wrapu_small by (unfold in_u; lia). rewrite <- Hc in *. clearbody c.
  destruct (enc_len_size (zlen c)); [unfold in_u; lia|]. destruct (enc_len_size (zlen s)); [unfold in_u; lia|].
  exists (lzf_bytes c (zlen s)). split; [|split; [unfold lzf_bytes; rewrite !zlen_app; change (zlen [195]) with 1; lia|apply lzf_reads; [lia|lia|done]]].
  change (Z.lor (REDIS_RDB_ENCVAL ≪ 6) REDIS_RDB_ENC_LZF) with 195.
  eapply saves_ext; [|apply (saves_seq (λ rdb, rdbWriteRaw rdb [195]) (λ rdb, '(n1, rdb) ← rdbSaveLen rdb (zlen c); '(n2, rdb) ← ('(n2, rdb) ← rdbSaveLen rdb (zlen s); '(n3, rdb) ← rdbWriteRaw rdb c; Ret (n2 + n3, rdb)); Ret (n1 + n2, rdb)) [195] _ Z.add)].
  - intros rdb. cbv beta. destruct (rdbWriteRaw rdb [195]) as [[n0 r0]| | |]; [|done..]. cbn [mbind outcome_bind].
    destruct (rdbSaveLen r0 (zlen c)) as [[n1 r1]| | |]; [|done..]. cbn [mbind outcome_bind].
    destruct (rdbSaveLen r1 (zlen s)) as [[n2 r2]| | |]; [|done..]. cbn [mbind outcome_bind].
    destruct (rdbWriteRaw r2 c) as [[n3 r3]| | |]; [|done..]. cbn [mbind outcome_bind]. do 2 f_equal. lia.
  - apply saves_raw; [by_decision|done].
  - apply (saves_seq _ _ _ _ Z.add); [apply rdbSaveLen_saves; unfold in_u; lia| |done].
    apply (saves_seq _ _ _ _ Z.add); [apply rdbSaveLen_saves; unfold in_u; lia|apply saves_raw; [done|lia]|done].
  - done.
Qed.

Lemma rdbSaveRawString_codec compression s :
  bytes_ok s → zlen s < 2 ^ 30 → MAX_OFF ≤ base ∧ base + zlen s < 2 ^ 64 →
  codec (λ rdb, rdbSaveRawString buf compression junk base rdb s) s (zlen s + 7).
Proof using Hbuf Hjunk.
  intros Hs Hl Hbase. unfold rdbSaveRawString. cbv zeta. pose proof (zlen_nonneg s).
  assert (∃ enc, (if zlen s <=? 11 then rdbTryIntegerEncoding buf s else Ret []) = Ret enc ∧ (enc = [] ∨ ∃ v, enc = rdbEncodeInteger v ∧ decimal s v)) as (enc & -> & Henc).
  { case_if; [apply rdbTryIntegerEncoding_spec|]. exists []. split; [done|by left]. }
  cbn [mbind outcome_bind]. destruct (Z.ltb_spec 0 (zlen enc)) as [Hpos|Hneg].
  { destruct Henc as [-> |(v & -> & Hd)]; [by revert Hpos; len|]. destruct (decide (in_s 32 v)) as [H32|H32].
    - destruct (int_codec v s H32 Hd) as (Hb & Hz & Hr). exists (rdbEncodeInteger v). split; [|split; [lia|done]].
      apply saves_ret; [|done]. apply saves_raw; [done|lia].
    - rewrite rdbEncodeInteger_large in Hpos by done. by revert Hpos; len. }
  assert (codec (λ rdb, '(n, rdb) ← rdbSaveLen rdb (u32 (zlen s)); if 0 <? zlen s then '(_, rdb) ← rdbWriteRaw rdb s; Ret (n + zlen s, rdb) else Ret (n, rdb)) s (zlen s + 7)) as Hraw.
  { rewrite wrapu_small by (unfold in_u; lia). destruct (enc_len_size (zlen s)); [unfold in_u; lia|].
    exists (enc_len (zlen s) ++ s). split; [|split; [rewrite zlen_app; lia|apply raw_reads; lia]]. destruct (Z.ltb_spec 0 (zlen s)).
    - apply (saves_seq _ _ _ _ (λ n _, n + zlen s)); [apply rdbSaveLen_saves; unfold in_u; lia|apply saves_raw; [done|lia]|done].
    - destruct s; [|revert H2; len]. rewrite app_nil_r. apply (saves_bind_pure _ _ _ (λ n, n) (rdbSaveLen_saves (zlen []) ltac:(done)) eq_refl eq_refl). }
  destruct (compression && (20 <? zlen s)) eqn:Ec.
  - bool_tests. destruct (rdbSaveLzfStringObject_codec s Hs) as [E|(bs & [Hb Hsv] & Hz & Hr)]; [lia|done| |].
    + destruct Hraw as (bs & Hsv & Hz & Hr). exists bs. split; [|done]. eapply saves_ext; [|exact Hsv]. intros rdb. rewrite E. done.
    + exists bs. split; [|done]. split; [done|]. intros r c n Hw Hc Hn. destruct (Hsv r c n Hw Hc Hn) as (r' & -> & Hw'). cbn [mbind outcome_bind].
      exists r'. split; [|done]. rewrite (proj2 (Z.ltb_lt _ _)); [done|]. lia.
  - destruct Hraw as (bs & Hsv & Hz & Hr). exists bs. split; [|done]. eapply saves_ext; [|exact Hsv]. done.
Qed.

(** An object that can be saved, and its string. *)
Definition savable (o : enc_obj) (s : list Z) : Prop :=
  obj_bytes o s ∧ match o with ObjInt v => in_s 64 v | ObjStr s => bytes_ok s ∧ zlen s < 2 ^ 30 end.

Lemma rdbSaveStringObject_codec compression o s :
  savable o s → MAX_OFF ≤ base ∧ base + 2 ^ 30 < 2 ^ 64 →
  codec (λ rdb, rdbSaveStringObject buf compression junk base rdb o) s (zlen s + 37).
Proof using Hbuf Hjunk.
  intros [Ho Hok] Hbase. pose proof (zlen_nonneg s). destruct o as [s'|v]; cbn [obj_bytes rdbSaveStringObject] in *.
  - subst s'. destruct Hok as [Hs Hl]. destruct (rdbSaveRawString_codec compression s Hs Hl) as (bs & Hsv & Hz & Hr); [lia|]. exists bs. split; [done|]. split; [lia|done].
  - destruct (rdbSaveLongLongAsStringObject_codec v s Hok Ho) as (bs & Hsv & Hz & Hr). exists bs. split; [done|]. split; [lia|done].
Qed.

(** *** Sequences of objects *)

Fixpoint save_all (compression : bool) (rdb : stream (B := B)) (objs : list enc_obj) : outcome (Z * stream (B := B)) :=
  match objs with
  | [] => Ret (0, rdb)
  | o :: objs =>
      '(n1, rdb) ← rdbSaveStringObject buf compression junk base rdb o;
      '(n2, rdb) ← save_all compression rdb objs;
      Ret (n1 + n2, rdb)
  end.
Fixpoint load_all (n : nat) (encode : bool) (rdb : rio B) : outcome (list enc_obj * rio B) :=
  match n with
  | O => Ret ([], rdb)
  | S n =>
      '(o, rdb) ← rdbGenericLoadStringObject buf rdb encode;
      '(os, rdb) ← load_all n encode rdb;
      Ret (o :: os, rdb)
  end.

Definition room (ss : list (list Z)) : Z := foldr (λ s n, zlen s + 37 + n) 0 ss.

Lemma save_all_codec compression objs ss :
  Forall2 savable objs ss → MAX_OFF ≤ base ∧ base + 2 ^ 30 < 2 ^ 64 →
  ∃ bs, saves (λ rdb, save_all compression rdb objs) bs ∧ zlen bs ≤ room ss ∧
    ∀ encode, ∃ os, loads (load_all (length objs) encode) bs os ∧ Forall2 obj_bytes os ss ∧ (encode = false → os = ObjStr <$> ss).
Proof using Hbuf Hjunk.
  intros Hall Hbase. induction Hall as [|o s objs ss Ho _ (bs & Hsv & Hz & IH)].
  - exists []. split; [|split; [done|]].
    + split; [apply Forall_nil_2|]. intros r c n Hw _ _. exists r. rewrite app_nil_r. change (zlen (@nil Z)) with 0. by rewrite Z.sub_0_r.
    + intros encode. exists []. split; [apply loads_ret|]. split; [by constructor|done].
  - destruct (rdbSaveStringObject_codec compression o s Ho Hbase) as (b1 & Hsv1 & Hz1 & Hr1). exists (b1 ++ bs).
    split; [by apply (saves_seq _ _ _ _ Z.add)|]. split; [rewrite zlen_app; cbn [room foldr] in *; fold (room ss); lia|].
    intros encode. destruct (Hr1 encode) as (o' & Hl & Ho' & Hf). destruct (IH encode) as (os & Hls & Hos & Hfs). exists (o' :: os).
    split; [|split; [by constructor|intros ->; cbn; by rewrite Hf, Hfs]].
    apply (loads_bind _ _ _ _ o' _ Hl). apply (loads_map _ _ _ _ _ Hls). done.
Qed.

End codec.

(** ** Correctness *)

(** C15. Round trip of the string objects of a dump, over any stream that keeps the
    bytes in order (the memory buffer and the file do) and with any size of
    chunks: a sequence of objects saved with [rdbSaveStringObject] (as 8, 16 or
    32 bit integers, compressed, or verbatim) is read back by
    [rdbGenericLoadStringObject] as objects with the same strings, plain
    strings if no encoding is asked for, and the CRC-64 that the reader computes
    is the one of the writer. *)
Theorem rdb_strings_roundtrip {B} `{Stream B} buf junk base compression objs ss (r : rio B) n :
  32 ≤ zlen buf → (∀ i, in_u 64 (junk i)) → MAX_OFF ≤ base ∧ base + 2 ^ 30 < 2 ^ 64 →
  Forall2 savable objs ss → rio_written r [] n → room ss ≤ n →
  ∃ k r', save_all buf junk base compression (Some r) objs = Ret (k, Some r') ∧ 0 ≤ k ≤ room ss ∧
    ∀ encode r2, io r2 = reopen (io r') → 0 ≤ max_processing_chunk r2 → sum_ok r2 [] →
      ∃ os r3, load_all buf (length objs) encode r2 = Ret (os, r3) ∧ Forall2 obj_bytes os ss ∧ (encode = false → os = ObjStr <$> ss) ∧
        (update_cksum r' ≠ None → update_cksum r3 ≠ None → cksum r3 = cksum r').
Proof.
  intros Hbuf Hjunk Hbase Hobjs Hw Hn. destruct (save_all_codec buf Hbuf junk base Hjunk compression objs ss Hobjs Hbase) as (bs & [Hb Hsv] & Hz & Hld).
  destruct (Hsv r [] n Hw ltac:(apply Forall_nil_2) ltac:(lia)) as (r' & -> & Hw'). cbn [app] in Hw'. exists (zlen bs), r'. split; [done|].
  split; [pose proof (zlen_nonneg bs); lia|]. intros encode r2 Hio Hm Hs. destruct Hw' as (Hwr & _ & Hs'). destruct (Hld encode) as (os & Hl & Hos & Hf).
  destruct (Hl r2 [] []) as (r3 & E & Hp3); [|apply Forall_nil_2|done|].
  { split; [|by split]. rewrite app_nil_r, Hio. by eapply reopen_ok. }
  exists os, r3. split; [done|]. split; [done|]. split; [done|]. intros Hu Hu3. destruct Hp3 as (_ & _ & Hs3).
  destruct Hs' as [?|[_ E1]]; [done|]. destruct Hs3 as [?|[_ E2]]; [done|]. cbn [app] in E2. congruence.
Qed.

(** A stream in memory with a checksum and chunks of 7 bytes *)
Definition demo_rio (s : sdshdr) : rio rio_buffer := mkRio (mkBuf s 0) (Some rioGenericUpdateChecksum) 0 0 7.
Definition demo_objs : list enc_obj := [ObjInt 12345; ObjStr (str "-7"); ObjStr (str "12 "); ObjStr repeated; ObjStr [0; 255; 10]; ObjStr []].
Definition demo_strings : list (list Z) := [str "12345"; str "-7"; str "12 "; repeated; [0; 255; 10]; []].
Definition demo_junk : Junk := λ _, 0.
#[local] Existing Instance demo_junk.

Lemma rdb_strings_roundtrip_witness :
  ∃ k r', save_all (replicate 32 0) (λ _, 0) 65536 true (Some (demo_rio (mkSds 0 0 [0]))) demo_objs = Ret (k, Some r') ∧ 0 ≤ k ≤ room demo_strings ∧
    ∃ os r3, load_all (replicate 32 0) 6 false (mkRio (reopen (io r')) (Some rioGenericUpdateChecksum) 0 0 3) = Ret (os, r3) ∧
      os = ObjStr <$> demo_strings ∧ (update_cksum r' ≠ None → update_cksum r3 ≠ None → cksum r3 = cksum r').
Proof.
  destruct (rdb_strings_roundtrip (replicate 32 0) (λ _, 0) 65536 true demo_objs demo_strings (demo_rio (mkSds 0 0 [0])) (2 ^ 32 - 1 - SDS_MAX_PREALLOC))
    as (k & r' & E & Hk & Hl).
  - done.
  - intros i. unfold in_u. lia.
  - done.
  - unfold demo_objs, demo_strings. constructor; [split; [apply (proj1 (string2ll_spec (str "12345") 12345)); done|by_decision]|].
    do 5 (constructor; [split; [done|split; [by_decision|vm_compute; reflexivity]]|]). constructor.
  - split; [|split; [done|right; done]]. split; [apply (sds_rep_intro [] []); [apply Forall_nil_2|done]|done].
  - vm_compute. done.
  - exists k, r'. split; [exact E|]. split; [exact Hk|].
    assert (∀ b : rio_buffer, sum_ok (mkRio b (Some rioGenericUpdateChecksum) 0 0 3) []) as Hsum by (intros; right; split; reflexivity).
    pose (r2 := mkRio (reopen (io r')) (Some rioGenericUpdateChecksum) 0 0 3). destruct (Hl false r2 eq_refl ltac:(cbn; lia) (Hsum _)) as (os & r3 & E3 & _ & Hos & Hc).
    exists os, r3. split; [exact E3|]. split; [exact (Hos eq_refl)|exact Hc].
Defined.
