(* ===== verification/Bitops.v ===== *)
(** * Bitops: strings as arrays of bits (redis-3.0.0/src/bitops.c)

    [redisPopcount] and [redisBitpos] work on a string at an arbitrary
    address, whose alignment they test; [addr] is that address and [be] the
    byte order of the host.  The part of the commands SETBIT, GETBIT, BITOP,
    BITCOUNT and BITPOS that computes on the strings follows; the lookup of
    the keys and the replies are not part of this file.

    Bit [i] of a string is bit [7 - i mod 8] of its byte [i / 8]. *)

From S2P Require Import Prelude Endian.

(** ** Counting bits *)

Definition bitsinbyte : list Z :=
  [0; 1; 1; 2; 1; 2; 2; 3; 1; 2; 2; 3; 2; 3; 3; 4; 1; 2; 2; 3; 2; 3; 3; 4; 2; 3; 3; 4; 3; 4; 4; 5;
   1; 2; 2; 3; 2; 3; 3; 4; 2; 3; 3; 4; 3; 4; 4; 5; 2; 3; 3; 4; 3; 4; 4; 5; 3; 4; 4; 5; 4; 5; 5; 6;
   1; 2; 2; 3; 2; 3; 3; 4; 2; 3; 3; 4; 3; 4; 4; 5; 2; 3; 3; 4; 3; 4; 4; 5; 3; 4; 4; 5; 4; 5; 5; 6;
   2; 3; 3; 4; 3; 4; 4; 5; 3; 4; 4; 5; 4; 5; 5; 6; 3; 4; 4; 5; 4; 5; 5; 6; 4; 5; 5; 6; 5; 6; 6; 7;
   1; 2; 2; 3; 2; 3; 3; 4; 2; 3; 3; 4; 3; 4; 4; 5; 2; 3; 3; 4; 3; 4; 4; 5; 3; 4; 4; 5; 4; 5; 5; 6;
   2; 3; 3; 4; 3; 4; 4; 5; 3; 4; 4; 5; 4; 5; 5; 6; 3; 4; 4; 5; 4; 5; 5; 6; 4; 5; 5; 6; 5; 6; 6; 7;
   2; 3; 3; 4; 3; 4; 4; 5; 3; 4; 4; 5; 4; 5; 5; 6; 3; 4; 4; 5; 4; 5; 5; 6; 4; 5; 5; 6; 5; 6; 6; 7;
   3; 4; 4; 5; 4; 5; 5; 6; 4; 5; 5; 6; 5; 6; 6; 7; 4; 5; 5; 6; 5; 6; 6; 7; 5; 6; 6; 7; 6; 7; 7; 8].

(** [bits += bitsinbyte[*p++]], [n] times. *)
Fixpoint count_bytes (n : nat) (p : list Z) (bits : Z) : option (list Z * Z) :=
  match n with
  | O => Some (p, bits)
  | S n => match p with
           | [] => None
           | c :: p => b ← bitsinbyte !! Z.to_nat c; count_bytes n p (u64 (bits + b))
           end
  end.

(** [while((unsigned long)p & 3 && count)] *)
Fixpoint count_unaligned (fuel : nat) (addr : Z) (p : list Z) (bits count : Z)
    : option (list Z * Z * Z) :=
  match fuel with
  | O => None
  | S fuel =>
      if negb (Z.land addr 3 =? 0) && negb (count =? 0) then
        match p with
        | [] => None
        | c :: p => b ← bitsinbyte !! Z.to_nat c;
                    count_unaligned fuel (u64 (addr + 1)) p (u64 (bits + b)) (count - 1)
        end
      else Some (p, bits, count)
  end.

(** The first two steps on one word: pairs, then nibbles. *)
Definition fold_nibbles (aux : Z) : Z :=
  let aux := aux -u32 Z.land (Z.shiftr aux 1) 0x55555555 in
  Z.land aux 0x33333333 +u32 Z.land (Z.shiftr aux 2) 0x33333333.
Definition fold_bytes (aux : Z) : Z := Z.land (aux +u32 Z.shiftr aux 4) 0x0F0F0F0F.

(** The seven words of 28 bytes. *)
Fixpoint words (be : host) (n : nat) (p : list Z) : option (list Z * list Z) :=
  match n with
  | O => Some ([], p)
  | S n => w ← load p 0 4; '(ws, p) ← words be n (drop 4 p); Some (of_mem be w :: ws, p)
  end.

Definition count_28 (ws : list Z) : Z :=
  let s := foldl (λ s aux, s +u32 fold_bytes aux) 0 (map fold_nibbles ws) in
  Z.shiftr (s *u32 0x01010101) 24.

(** [while(count>=28)] *)
Fixpoint count_words (fuel : nat) (be : host) (p : list Z) (bits count : Z) : option (list Z * Z * Z) :=
  match fuel with
  | O => None
  | S fuel =>
      if 28 <=? count then
        '(ws, p) ← words be 7 p;
        count_words fuel be p (u64 (bits + count_28 ws)) (count - 28)
      else Some (p, bits, count)
  end.

Definition redisPopcount (be : host) (addr : Z) (s : list Z) (count : Z) : option Z :=
  '(p, bits, count) ← count_unaligned 4 addr s 0 count;
  '(p, bits, count) ← count_words (S (Z.to_nat count)) be p bits count;
  '(_, bits) ← count_bytes (Z.to_nat count) p bits;
  Some bits.

(** ** Finding a bit *)

Definition ULONG_MAX : Z := 2 ^ 64 - 1.

(** Skip the bytes equal to [skipval] up to an aligned address; [p] is the rest
    of the string and [pos] the position of its first bit. *)
Fixpoint skip_bytes (fuel : nat) (addr skipval : Z) (p : list Z) (pos : Z) : option (list Z * Z) :=
  match fuel with
  | O => None
  | S fuel =>
      if negb (Z.land addr 7 =? 0) then
        match p with
        | [] => Some (p, pos)
        | c :: p' => if c =? skipval then skip_bytes fuel (u64 (addr + 1)) skipval p' (pos + 8)
                     else Some (p, pos)
        end
      else Some (p, pos)
  end.

(** [while (count >= sizeof( *l))] *)
Fixpoint skip_words (fuel : nat) (be : host) (skipval : Z) (p : list Z) (pos : Z) : option (list Z * Z) :=
  match fuel with
  | O => None
  | S fuel =>
      if 8 <=? zlen p then
        w ← load p 0 8;
        if of_mem be w =? skipval then skip_words fuel be skipval (drop 8 p) (pos + 64)
        else Some (p, pos)
      else Some (p, pos)
  end.

(** The next 8 bytes, the first one as the most significant, padded with zeros
    on the right. *)
Fixpoint load_word (j : nat) (word : Z) (c : list Z) : Z :=
  match j with
  | O => word
  | S j =>
      let word := u64 (Z.shiftl word 8) in
      match c with
      | [] => load_word j word []
      | b :: c => load_word j (Z.lor word b) c
      end
  end.

(** [while(one)] *)
Fixpoint scan_word (fuel : nat) (one word : Z) (bit : bool) (pos : Z) : option Z :=
  match fuel with
  | O => None
  | S fuel =>
      if one =? 0 then None (* redisPanic *)
      else if Bool.eqb (negb (Z.land one word =? 0)) bit then Some pos
      else scan_word fuel (Z.shiftr one 1) word bit (pos + 1)
  end.

Definition redisBitpos (be : host) (addr : Z) (s : list Z) (bit : bool) : option Z :=
  '(p, pos) ← skip_bytes 8 addr (if bit then 0 else 255) s 0;
  '(p, pos) ← skip_words (S (length p)) be (if bit then 0 else ULONG_MAX) p pos;
  let word := load_word 8 0 p in
  if bit && (word =? 0) then Some (-1) else
  let one := u64 (Z.lnot (Z.shiftr ULONG_MAX 1)) in
  scan_word 65 one word bit pos.

(** ** The commands *)

(** [sdsgrowzero] of sds.c: the string padded with zeros to [len] bytes. *)
Definition sdsgrowzero (s : list Z) (len : Z) : list Z := s ++ replicate (Z.to_nat (len - zlen s)) 0.

(** The range of offsets [getBitOffsetFromArgument] accepts. *)
Definition bit_offset_ok (loffset : Z) : bool :=
  negb ((loffset <? 0) || (512 * 1024 * 1024 <=? Z.shiftr loffset 3)).

(** SETBIT: the new string and the old bit. *)
Definition setbit (s : list Z) (bitoffset on : Z) : option (list Z * bool) :=
  let byte := Z.shiftr bitoffset 3 in
  let s := sdsgrowzero s (byte + 1) in
  v ← load s byte 1;
  byteval ← v !! 0%nat;
  let bit := 7 - Z.land bitoffset 7 in
  let bitval := Z.land byteval (Z.shiftl 1 bit) in
  let byteval := Z.land byteval (Z.lnot (Z.shiftl 1 bit)) in
  let byteval := Z.lor byteval (Z.shiftl (Z.land on 1) bit) in
  s ← store s byte [u8 byteval];
  Some (s, negb (bitval =? 0)).

(** GETBIT *)
Definition getbit (s : list Z) (bitoffset : Z) : option bool :=
  let byte := Z.shiftr bitoffset 3 in
  let bit := 7 - Z.land bitoffset 7 in
  if byte <? zlen s then
    v ← load s byte 1; c ← v !! 0%nat; Some (negb (Z.land c (Z.shiftl 1 bit) =? 0))
  else Some false.

(** BITOP *)
Inductive bitop := BITOP_AND | BITOP_OR | BITOP_XOR | BITOP_NOT.
#[global] Instance bitop_eq_dec : EqDecision bitop.
Proof. solve_decision. Defined.

Definition bop (op : bitop) (a b : Z) : Z :=
  match op with
  | BITOP_AND => Z.land a b
  | BITOP_OR => Z.lor a b
  | BITOP_XOR => Z.lxor a b
  | BITOP_NOT => a
  end.

(** A source string; a key that does not exist has no string and length 0. *)
Definition src_len (s : option (list Z)) : Z := match s with Some s => zlen s | None => 0 end.

(** The loop on the keys: [first] is [j == 0]. *)
Fixpoint lengths (first : bool) (srcs : list (option (list Z))) (minlen maxlen : Z) : Z * Z :=
  match srcs with
  | [] => (minlen, maxlen)
  | None :: srcs => lengths false srcs 0 maxlen
  | Some s :: srcs =>
      let maxlen := if maxlen <? zlen s then zlen s else maxlen in
      let minlen := if first || (zlen s <? minlen) then zlen s else minlen in
      lengths false srcs minlen maxlen
  end.

(** [lres[w] op= lp[i][w]], at the byte [off] of both strings. *)
Definition word_step (be : host) (op : bitop) (src : list Z) (off : Z) (res : list Z) : option (list Z) :=
  a ← load res off 8; b ← load src off 8;
  store res off (to_mem be 8 (bop op (of_mem be a) (of_mem be b))).
(** [lres[w] = ~lres[w]] *)
Definition word_not (be : host) (off : Z) (res : list Z) : option (list Z) :=
  a ← load res off 8; store res off (to_mem be 8 (u64 (Z.lnot (of_mem be a)))).

Definition four_words (f : Z → list Z → option (list Z)) (j : Z) (res : list Z) : option (list Z) :=
  res ← f j res; res ← f (j + 8) res; res ← f (j + 16) res; f (j + 24) res.

(** [for (i = 1; i < numkeys; i++)] on one block of four words. *)
Fixpoint block_keys (be : host) (op : bitop) (srcs : list (option (list Z))) (j : Z) (res : list Z)
    : option (list Z) :=
  match srcs with
  | [] => Some res
  | s :: srcs => src ← s; res ← four_words (word_step be op src) j res; block_keys be op srcs j res
  end.

(** [while(minlen >= sizeof(unsigned long)*4)] *)
Fixpoint fast_loop (fuel : nat) (be : host) (op : bitop) (srcs : list (option (list Z)))
    (j minlen : Z) (res : list Z) : option (list Z * Z) :=
  match fuel with
  | O => None
  | S fuel =>
      if 32 <=? minlen then
        res ← match op with
              | BITOP_NOT => four_words (word_not be) j res
              | _ => block_keys be op srcs j res
              end;
        fast_loop fuel be op srcs (j + 32) (minlen - 32) res
      else Some (res, j)
  end.

(** [(len[i] <= j) ? 0 : src[i][j]] *)
Definition src_byte (s : option (list Z)) (j : Z) : option Z :=
  if src_len s <=? j then Some 0 else s ← s; v ← load s j 1; v !! 0%nat.

Fixpoint byte_keys (op : bitop) (srcs : list (option (list Z))) (j output : Z) : option Z :=
  match srcs with
  | [] => Some output
  | s :: srcs => byte ← src_byte s j; byte_keys op srcs j (bop op output byte)
  end.

(** [for (; j < maxlen; j++)] *)
Fixpoint byte_loop (fuel : nat) (op : bitop) (src0 : option (list Z)) (srcs : list (option (list Z)))
    (j maxlen : Z) (res : list Z) : option (list Z) :=
  match fuel with
  | O => None
  | S fuel =>
      if maxlen <=? j then Some res else
      output ← src_byte src0 j;
      let output := match op with BITOP_NOT => u8 (Z.lnot output) | _ => output end in
      output ← byte_keys op srcs j output;
      res ← store res j [output];
      byte_loop fuel op src0 srcs (j + 1) maxlen res
  end.

(** The string to store in the target key; [None] inside when the key is to be
    deleted.  [src0 :: srcs] are the source strings. *)
Definition bitop_compute (be : host) (op : bitop) (src0 : option (list Z)) (srcs : list (option (list Z)))
    : option (option (list Z)) :=
  let '(minlen, maxlen) := lengths true (src0 :: srcs) 0 0 in
  if maxlen =? 0 then Some None else
  let res := replicate (Z.to_nat maxlen) 0 in
  '(res, j) ← (if (32 <=? minlen) && (zlen (src0 :: srcs) <=? 16) then
                 s ← src0; c ← load s 0 minlen; res ← store res 0 c;
                 fast_loop (S (Z.to_nat minlen)) be op srcs 0 minlen res
               else Some (res, 0));
  res ← byte_loop (S (Z.to_nat maxlen)) op src0 srcs j maxlen res;
  Some (Some res).

(** The conversion of indexes that BITCOUNT and BITPOS share. *)
Definition clamp_range (strlen start end_ : Z) : Z * Z :=
  let start := if start <? 0 then strlen + start else start in
  let end_ := if end_ <? 0 then strlen + end_ else end_ in
  let start := if start <? 0 then 0 else start in
  let end_ := if end_ <? 0 then 0 else end_ in
  let end_ := if strlen <=? end_ then strlen - 1 else end_ in
  (start, end_).

(** BITCOUNT *)
Definition bitcount (be : host) (addr : Z) (s : list Z) (range : option (Z * Z)) : option Z :=
  let strlen := zlen s in
  let '(start, end_) :=
    match range with
    | Some (start, end_) => clamp_range strlen start end_
    | None => (0, strlen - 1)
    end in
  if end_ <? start then Some 0 else
  redisPopcount be (u64 (addr + start)) (drop (Z.to_nat start) s) (end_ - start + 1).

(** BITPOS: [range] is the start, and the end when it is given. *)
Definition bitpos (be : host) (addr : Z) (s : list Z) (bit : bool) (range : option (Z * option Z))
    : option Z :=
  let strlen := zlen s in
  let '(start, end_, end_given) :=
    match range with
    | Some (start, Some end_) => (clamp_range strlen start end_, true)
    | Some (start, None) => (clamp_range strlen start (strlen - 1), false)
    | None => ((0, strlen - 1), false)
    end in
  if end_ <? start then Some (-1) else
  let bytes := end_ - start + 1 in
  pos ← redisBitpos be (u64 (addr + start)) (take (Z.to_nat bytes) (drop (Z.to_nat start) s)) bit;
  if end_given && negb bit && (pos =? bytes * 8) then Some (-1) else
  Some (if pos =? -1 then pos else pos + start * 8).

(** ** Reference definitions *)

Definition bit_at (s : list Z) (i : Z) : bool :=
  match s !! Z.to_nat (i / 8) with Some c => Z.testbit c (7 - i mod 8) | None => false end.

(** The number of bits set in a byte, in a string. *)
Definition ones_in (w : nat) (c : Z) : Z :=
  foldr (λ i n, Z.b2z (Z.testbit c (Z.of_nat i)) + n) 0 (seq 0 w).
Definition popcount (s : list Z) : Z := foldr (λ c n, ones_in 8 c + n) 0 s.

Lemma popcount_app s1 s2 : popcount (s1 ++ s2) = popcount s1 + popcount s2.
Proof.
  induction s1 as [|c s1 IH]; [done|]. unfold popcount in *. cbn [foldr app]. rewrite IH. lia.
Qed.

Lemma byte_cases (P : Z → Prop) `{∀ c, Decision (P c)} :
  Forall P (seqZ 0 256) → ∀ c, byte_ok c → P c.
Proof. intros HF c Hc. rewrite Forall_forall in HF. apply HF, elem_of_seqZ. destruct Hc. lia. Qed.

Lemma bitsinbyte_spec c : byte_ok c → bitsinbyte !! Z.to_nat c = Some (ones_in 8 c).
Proof. revert c. apply byte_cases; [apply _|]. by_decision. Qed.

Lemma ones_in_bound c : byte_ok c → 0 ≤ ones_in 8 c ≤ 8.
Proof. revert c. apply byte_cases; [apply _|]. by_decision. Qed.

Lemma popcount_bound s : bytes_ok s → 0 ≤ popcount s ≤ 8 * zlen s.
Proof.
  induction 1 as [|c s Hc Hs IH]; [done|]. pose proof (ones_in_bound c Hc). cbn [popcount foldr].
  fold (popcount s). len.
Qed.

(** ** Words as sequences of nibbles *)

Fixpoint nibbles (ds : list Z) : Z := match ds with [] => 0 | d :: ds => d + 16 * nibbles ds end.

Lemma land_split k d x m y :
  0 ≤ k → 0 ≤ d < 2 ^ k → 0 ≤ m < 2 ^ k →
  Z.land (d + 2 ^ k * x) (m + 2 ^ k * y) = Z.land d m + 2 ^ k * Z.land x y.
Proof.
  intros Hk Hd Hm. assert (∀ a z, 0 ≤ a < 2 ^ k → a + 2 ^ k * z = Z.lor a (Z.shiftl z k)) as Hsum.
  { intros a z Ha. rewrite Z.shiftl_mul_pow2, (Z.mul_comm z) by done. symmetry. rewrite Z.mul_comm.
    rewrite <- Z.shiftl_mul_pow2 by done. apply lor_disjoint_add. apply Z.bits_inj'. intros i Hi.
    rewrite Z.land_spec, Z.shiftl_spec, Z.bits_0 by done. destruct (decide (i < k)).
    - rewrite (Z.testbit_neg_r z) by lia. apply andb_false_r.
    - by rewrite (in_u_testbit k a) by (done || lia). }
  assert (0 ≤ Z.land d m < 2 ^ k) as Hl.
  { split; [apply Z.land_nonneg; lia|]. apply in_u_bits; [done|]. intros j Hj.
    by rewrite Z.land_spec, (in_u_testbit k d) by (done || lia). }
  rewrite !Hsum by done. apply Z.bits_inj'. intros i Hi.
  rewrite Z.land_spec, !Z.lor_spec, !Z.shiftl_spec, !Z.land_spec by done. destruct (decide (i < k)).
  - rewrite !(Z.testbit_neg_r _ (i - k)) by lia. by rewrite !orb_false_r.
  - by rewrite (in_u_testbit k d), (in_u_testbit k m) by (done || lia).
Qed.

Lemma shiftr_split k s d x m y :
  0 ≤ s ≤ k → 0 ≤ d < 2 ^ k → 0 ≤ m < 2 ^ (k - s) →
  Z.land (Z.shiftr (d + 2 ^ k * x) s) (m + 2 ^ k * y) =
  Z.land (Z.shiftr d s) m + 2 ^ k * Z.land (Z.shiftr x s) y.
Proof.
  intros Hs Hd Hm. assert (0 < 2 ^ s ∧ 0 < 2 ^ (k - s)) as [H1 H2] by (split; apply Z.pow_pos_nonneg; lia).
  assert (2 ^ k = 2 ^ s * 2 ^ (k - s)) as E by (rewrite <- Z.pow_add_r by lia; f_equal; lia).
  assert (0 ≤ Z.shiftr d s < 2 ^ (k - s)) as Hd'.
  { rewrite Z.shiftr_div_pow2 by lia. split; [apply Z.div_pos; lia|]. apply Z.div_lt_upper_bound; lia. }
  assert (Z.shiftr (d + 2 ^ k * x) s = Z.shiftr d s + 2 ^ (k - s) * (x mod 2 ^ s) + 2 ^ k * Z.shiftr x s) as ->.
  { rewrite !Z.shiftr_div_pow2 by lia. rewrite E.
    replace (d + 2 ^ s * 2 ^ (k - s) * x) with (d + (2 ^ (k - s) * x) * 2 ^ s) by lia.
    rewrite Z.div_add by lia. pose proof (Z.div_mod x (2 ^ s)). lia. }
  pose proof (Z.mod_pos_bound x (2 ^ s) H1).
  rewrite land_split; [|lia|nia|nia]. f_equal.
  pose proof (land_split (k - s) (Z.shiftr d s) (x mod 2 ^ s) m 0 ltac:(lia) Hd' Hm) as E0.
  rewrite Z.land_0_r, !Z.mul_0_r, !Z.add_0_r in E0. exact E0.
Qed.

Definition nib (d : Z) : Prop := 0 ≤ d < 16.

Lemma nib_cases (P : Z → Prop) `{∀ d, Decision (P d)} : Forall P (seqZ 0 16) → ∀ d, nib d → P d.
Proof. intros HF d Hd. rewrite Forall_forall in HF. apply HF, elem_of_seqZ. unfold nib in Hd. lia. Qed.

Lemma land_nibbles ds ms : Forall nib ds → Forall nib ms →
  Z.land (nibbles ds) (nibbles ms) = nibbles (zip_with Z.land ds ms).
Proof.
  intros Hd. revert ms. induction Hd as [|d ds Hd Hds IH]; intros ms Hm; [done|].
  destruct Hm as [|m ms Hm Hms]; [apply Z.land_0_r|]. cbn [nibbles zip_with].
  change 16 with (2 ^ 4). rewrite land_split by (done || lia). by rewrite IH.
Qed.

(** A mask that keeps no bit shifted in from the next nibble. *)
Lemma shiftr_nibbles s m ds : 0 ≤ s ≤ 4 → 0 ≤ m < 2 ^ (4 - s) → Forall nib ds →
  Z.land (Z.shiftr (nibbles ds) s) (nibbles (replicate (length ds) m)) =
  nibbles (map (λ d, Z.land (Z.shiftr d s) m) ds).
Proof.
  intros Hs Hm Hd. induction Hd as [|d ds Hd Hds IH]; [by rewrite Z.shiftr_0_l|].
  cbn [nibbles length replicate map]. change 16 with (2 ^ 4). rewrite shiftr_split by (done || lia).
  by rewrite IH.
Qed.

Lemma nibbles_range ds : Forall nib ds → 0 ≤ nibbles ds < 16 ^ Z.of_nat (length ds).
Proof.
  induction 1 as [|d ds Hd Hds IH]; [done|]. cbn [nibbles length].
  rewrite Nat2Z.inj_succ, Z.pow_succ_r by lia. unfold nib in Hd. lia.
Qed.

(** Eight nibbles are a word. *)
Lemma word_range ds : Forall nib ds → length ds = 8%nat → in_u 32 (nibbles ds).
Proof. intros Hd Hl. pose proof (nibbles_range ds Hd) as Hr. rewrite Hl in Hr. exact Hr. Qed.

Lemma map_nib (f : Z → Z) ds : (∀ d, nib d → nib (f d)) → Forall nib ds → Forall nib (map f ds).
Proof. intros Hf. induction 1; cbn; auto. Qed.

Lemma nibbles_map2 (f g : Z → Z) (op : Z → Z → Z) ds :
  (∀ a b c d, op (a + 16 * b) (c + 16 * d) = op a c + 16 * op b d) → op 0 0 = 0 →
  op (nibbles (map f ds)) (nibbles (map g ds)) = nibbles (map (λ d, op (f d) (g d)) ds).
Proof. intros Hop H0. induction ds as [|d ds IH]; [done|]. cbn [map nibbles]. by rewrite Hop, IH. Qed.

Definition pair_count (d : Z) : Z := d - Z.land (Z.shiftr d 1) 5.
Definition nib_count (d : Z) : Z :=
  Z.land (pair_count d) 3 + Z.land (Z.shiftr (pair_count d) 2) 3.

Lemma nib_count_spec d : nib d → nib (pair_count d) ∧ nib_count d = ones_in 4 d ∧ 0 ≤ nib_count d ≤ 4.
Proof. revert d. apply nib_cases; [unfold nib; apply _|]. unfold nib. by_decision. Qed.

Lemma fold_nibbles_spec ds :
  Forall nib ds → length ds = 8%nat → fold_nibbles (nibbles ds) = nibbles (map nib_count ds).
Proof.
  intros Hd Hl. unfold fold_nibbles. cbv zeta.
  change 0x55555555 with (nibbles (replicate 8 5)). change 0x33333333 with (nibbles (replicate 8 3)).
  rewrite <- Hl. rewrite shiftr_nibbles by (done || lia).
  pose proof (nibbles_map2 (λ d, d) (λ d, Z.land (Z.shiftr d 1) 5) Z.sub ds ltac:(lia) ltac:(done)) as E1.
  rewrite map_id in E1. rewrite E1. fold pair_count. change (λ d, d - Z.land (Z.shiftr d 1) 5) with pair_count.
  assert (Forall nib (map pair_count ds)) as Hp by (apply map_nib; [apply nib_count_spec|done]).
  rewrite (wrapu_small 32 (nibbles (map pair_count ds)))
    by (apply word_range; [done|by rewrite length_map]).
  rewrite <- (length_map pair_count). rewrite shiftr_nibbles by (done || lia).
  rewrite land_nibbles by (done || by apply Forall_replicate).
  assert (zip_with Z.land (map pair_count ds) (replicate (length (map pair_count ds)) 3) =
    map (λ d, Z.land (pair_count d) 3) ds) as ->.
  { rewrite zip_with_replicate_r by done. rewrite <- list_fmap_compose. done. }
  rewrite map_map. rewrite (nibbles_map2 (λ d, Z.land (pair_count d) 3)
    (λ d, Z.land (Z.shiftr (pair_count d) 2) 3) Z.add) by (done || lia).
  change (λ d, Z.land (pair_count d) 3 + Z.land (Z.shiftr (pair_count d) 2) 3) with nib_count.
  apply wrapu_small, word_range; [|by rewrite length_map].
  apply map_nib; [|done]. intros d Hdn. destruct (nib_count_spec d Hdn) as (_ & _ & ?). unfold nib. lia.
Qed.

(** ** Bytes of counts *)

(** A word of four bytes [c0 .. c3]. *)
Definition word4 (c0 c1 c2 c3 : Z) : Z := c0 + 256 * (c1 + 256 * (c2 + 256 * c3)).

Lemma fold_bytes_spec n0 n1 n2 n3 n4 n5 n6 n7 :
  Forall (λ n, 0 ≤ n ≤ 4) [n0; n1; n2; n3; n4; n5; n6; n7] →
  fold_bytes (nibbles [n0; n1; n2; n3; n4; n5; n6; n7]) = word4 (n0 + n1) (n2 + n3) (n4 + n5) (n6 + n7).
Proof.
  intros HF. repeat (apply Forall_cons in HF as [? HF]). unfold fold_bytes.
  assert (Z.shiftr (nibbles [n0; n1; n2; n3; n4; n5; n6; n7]) 4 = nibbles [n1; n2; n3; n4; n5; n6; n7]) as ->.
  { rewrite Z.shiftr_div_pow2 by lia. change (2 ^ 4) with 16. cbn [nibbles].
    rewrite (Z.mul_comm 16), Z.div_add, Z.div_small by lia. lia. }
  assert (nibbles [n0; n1; n2; n3; n4; n5; n6; n7] + nibbles [n1; n2; n3; n4; n5; n6; n7] =
    nibbles [n0 + n1; n1 + n2; n2 + n3; n3 + n4; n4 + n5; n5 + n6; n6 + n7; n7]) as -> by (cbn [nibbles]; lia).
  assert (Forall nib [n0 + n1; n1 + n2; n2 + n3; n3 + n4; n4 + n5; n5 + n6; n6 + n7; n7]) as Hn
    by (repeat (apply Forall_cons_2; [unfold nib; lia|]); apply Forall_nil_2).
  rewrite wrapu_small by by apply word_range.
  change 0x0F0F0F0F with (nibbles [15; 0; 15; 0; 15; 0; 15; 0]).
  rewrite land_nibbles by (done || by_decision). cbn [zip_with nibbles]. rewrite !Z.land_0_r.
  assert (∀ d, nib d → Z.land d 15 = d) as H15.
  { apply nib_cases; [apply _|]. by_decision. }
  rewrite !H15 by (unfold nib; lia). unfold word4. lia.
Qed.

Lemma byte_nibbles b : byte_ok b →
  nib (b mod 16) ∧ nib (b / 16) ∧ nib_count (b mod 16) + nib_count (b / 16) = ones_in 8 b ∧
  0 ≤ nib_count (b mod 16) ≤ 4 ∧ 0 ≤ nib_count (b / 16) ≤ 4.
Proof. revert b. apply byte_cases; [unfold nib; apply _|]. unfold nib. by_decision. Qed.

Lemma count_word b0 b1 b2 b3 :
  bytes_ok [b0; b1; b2; b3] →
  fold_bytes (fold_nibbles (word4 b0 b1 b2 b3)) =
  word4 (ones_in 8 b0) (ones_in 8 b1) (ones_in 8 b2) (ones_in 8 b3).
Proof.
  intros HF. repeat (apply Forall_cons in HF as [? HF]).
  pose proof (byte_nibbles b0 ltac:(done)) as (? & ? & E0 & ? & ?).
  pose proof (byte_nibbles b1 ltac:(done)) as (? & ? & E1 & ? & ?).
  pose proof (byte_nibbles b2 ltac:(done)) as (? & ? & E2 & ? & ?).
  pose proof (byte_nibbles b3 ltac:(done)) as (? & ? & E3 & ? & ?).
  rewrite <- E0, <- E1, <- E2, <- E3.
  assert (word4 b0 b1 b2 b3 = nibbles [b0 mod 16; b0 / 16; b1 mod 16; b1 / 16; b2 mod 16; b2 / 16; b3 mod 16; b3 / 16])
    as ->.
  { unfold word4. cbn [nibbles]. pose proof (Z.div_mod b0 16). pose proof (Z.div_mod b1 16).
    pose proof (Z.div_mod b2 16). pose proof (Z.div_mod b3 16). lia. }
  rewrite fold_nibbles_spec; [|forall_list|done]. cbn [map].
  apply fold_bytes_spec. forall_list.
Qed.

Lemma of_mem_word4 be b0 b1 b2 b3 : bytes_ok [b0; b1; b2; b3] →
  of_mem be [b0; b1; b2; b3] = if be then word4 b3 b2 b1 b0 else word4 b0 b1 b2 b3.
Proof.
  intros HF. repeat (apply Forall_cons in HF as [? HF]).
  assert (∀ a b c d, byte_ok a → byte_ok b → byte_ok c → byte_ok d →
    little_endian_to_Z 8 [a; b; c; d] = word4 a b c d) as E.
  { intros a b c d Ha Hb Hc Hd. cbn [little_endian_to_Z]. unfold word4, byte_ok in *.
    assert (∀ y z, 0 ≤ y < 256 → Z.lor y (z ≪ 8) = y + 256 * z) as Hlor.
    { intros y z Hy. rewrite lor_disjoint_add; [by rewrite Z.shiftl_mul_pow2 by lia; lia|].
      apply Z.bits_inj'. intros i Hi. rewrite Z.land_spec, Z.shiftl_spec, Z.bits_0 by lia.
      destruct (decide (i < 8)).
      - rewrite (Z.testbit_neg_r z) by lia. apply andb_false_r.
      - by rewrite (in_u_testbit 8 y) by (done || lia). }
    rewrite !Hlor by done. lia. }
  unfold of_mem. destruct be; apply E; done.
Qed.

(** The sum of the counts of groups of four bytes, at most 56 in each byte of
    the word. *)
Lemma sum_groups be gs : ∀ k c0 c1 c2 c3,
  Forall (λ g, length g = 4%nat ∧ bytes_ok g) gs →
  Forall (λ c, 0 ≤ c ≤ 8 * k) [c0; c1; c2; c3] → 0 ≤ k → k + zlen gs ≤ 7 →
  ∃ d0 d1 d2 d3, Forall (λ d, 0 ≤ d ≤ 56) [d0; d1; d2; d3] ∧
    foldl (λ s aux, s +u32 fold_bytes aux) (word4 c0 c1 c2 c3) (map fold_nibbles (map (of_mem be) gs)) =
      word4 d0 d1 d2 d3 ∧
    d0 + d1 + d2 + d3 = c0 + c1 + c2 + c3 + popcount (mjoin gs).
Proof.
  induction gs as [|g gs IH]; intros k c0 c1 c2 c3 Hg Hc Hk Hl.
  { exists c0, c1, c2, c3. cbn. split; [|split; [done|lia]]. eapply Forall_impl; [exact Hc|].
    cbn. change (zlen (@nil (list Z))) with 0 in Hl. intros; lia. }
  apply Forall_cons in Hg as [[Hg4 Hgb] Hg]. destruct g as [|b0 [|b1 [|b2 [|b3 [|]]]]]; try done.
  assert (zlen ([b0; b1; b2; b3] :: gs) = zlen gs + 1) as El by len.
  cbn [map foldl]. rewrite of_mem_word4 by done.
  set (x := word4 c0 c1 c2 c3 +u32 _).
  assert (∃ e0 e1 e2 e3, x = word4 e0 e1 e2 e3 ∧ Forall (λ c, 0 ≤ c ≤ 8 * (k + 1)) [e0; e1; e2; e3] ∧
    e0 + e1 + e2 + e3 = c0 + c1 + c2 + c3 + popcount [b0; b1; b2; b3]) as (e0 & e1 & e2 & e3 & -> & He & Hs).
  { assert (Forall (λ b, 0 ≤ ones_in 8 b ≤ 8) [b0; b1; b2; b3]) as Ho
      by (eapply Forall_impl; [exact Hgb|]; intros; by apply ones_in_bound).
    assert (bytes_ok [b3; b2; b1; b0]) as Hgb' by (repeat (apply Forall_cons in Hgb as [? Hgb]); forall_list).
    repeat (apply Forall_cons in Ho as [? Ho]). repeat (apply Forall_cons in Hc as [? Hc]).
    subst x. cbn [popcount foldr]. change (zlen gs) with (zlen gs) in *. assert (0 ≤ zlen gs) by (unfold zlen; lia).
    destruct be; rewrite count_word by done;
      [exists (c0 + ones_in 8 b3), (c1 + ones_in 8 b2), (c2 + ones_in 8 b1), (c3 + ones_in 8 b0)
      |exists (c0 + ones_in 8 b0), (c1 + ones_in 8 b1), (c2 + ones_in 8 b2), (c3 + ones_in 8 b3)];
      (split; [rewrite wrapu_small; [unfold word4; lia|unfold in_u, word4; lia]|]);
      (split; [forall_list|lia]). }
  destruct (IH (k + 1) e0 e1 e2 e3) as (d0 & d1 & d2 & d3 & Hd & E & Hsum); [done|done|lia|lia|].
  exists d0, d1, d2, d3. split; [done|]. split; [done|].
  change (mjoin ([b0; b1; b2; b3] :: gs)) with ([b0; b1; b2; b3] ++ mjoin gs). rewrite popcount_app. lia.
Qed.

Lemma count_28_spec be gs :
  Forall (λ g, length g = 4%nat ∧ bytes_ok g) gs → zlen gs ≤ 7 →
  count_28 (map (of_mem be) gs) = popcount (mjoin gs).
Proof.
  intros Hg Hl. unfold count_28.
  destruct (sum_groups be gs 0 0 0 0 0 Hg) as (d0 & d1 & d2 & d3 & Hd & E & Hs); [by_decision|lia|lia|].
  change (word4 0 0 0 0) with 0 in E. rewrite E. repeat (apply Forall_cons in Hd as [? Hd]).
  rewrite Z.shiftr_div_pow2 by lia. unfold word4, wrapu. pow_compute.
  replace ((d0 + 256 * (d1 + 256 * (d2 + 256 * d3))) * 16843009) with
    (d0 + 256 * (d0 + d1) + 65536 * (d0 + d1 + d2) + 16777216 * (d0 + d1 + d2 + d3) +
     (d1 + d2 + d3 + 256 * (d2 + d3) + 65536 * d3) * 4294967296) by lia.
  rewrite Z.mod_add, Z.mod_small by lia.
  assert (popcount (mjoin gs) = d0 + d1 + d2 + d3) as -> by lia. divlia.
Qed.

(** ** [redisPopcount] *)

Lemma count_bytes_spec n : ∀ p bits,
  bytes_ok p → (n ≤ length p)%nat → 0 ≤ bits → bits + 8 * zlen p < 2 ^ 64 →
  count_bytes n p bits = Some (drop n p, bits + popcount (take n p)).
Proof.
  induction n as [|n IH]; intros p bits Hb Hl H0 Hbd; cbn [count_bytes]; [by rewrite Z.add_0_r|].
  destruct p as [|c p]; [cbn in Hl; lia|]. apply Forall_cons in Hb as [Hc Hb].
  rewrite bitsinbyte_spec by done. cbn [mbind option_bind]. pose proof (ones_in_bound c Hc).
  assert (zlen (c :: p) = zlen p + 1) as El by len. assert (0 ≤ zlen p) by (unfold zlen; lia).
  rewrite wrapu_small by (unfold in_u; lia). cbn [length] in Hl. rewrite IH by (done || lia).
  cbn [take drop popcount foldr]. fold (popcount (take n p)). do 2 f_equal. lia.
Qed.

Lemma count_unaligned_spec fuel : ∀ addr p bits count,
  bytes_ok p → in_u 64 addr → 0 ≤ count ≤ zlen p → 0 ≤ bits → bits + 8 * zlen p < 2 ^ 64 →
  (Z.to_nat ((- addr) mod 4) < fuel)%nat →
  ∃ n, count_unaligned fuel addr p bits count =
    Some (drop n p, bits + popcount (take n p), count - Z.of_nat n) ∧ Z.of_nat n ≤ count.
Proof.
  induction fuel as [|fuel IH]; intros addr p bits count Hb Ha Hc H0 Hbd Hf; [lia|]. cbn [count_unaligned].
  destruct (Z.eqb_spec (Z.land addr 3) 0) as [E|E]; cbn [negb andb].
  { exists 0%nat. split; [by rewrite Z.add_0_r, Z.sub_0_r|lia]. }
  destruct (Z.eqb_spec count 0) as [E0|E0]; cbn [negb].
  { exists 0%nat. split; [by rewrite Z.add_0_r, Z.sub_0_r|lia]. }
  destruct p as [|c p]; [exfalso; revert Hc; len|]. apply Forall_cons in Hb as [Hcb Hb].
  rewrite bitsinbyte_spec by done. cbn [mbind option_bind]. pose proof (ones_in_bound c Hcb).
  assert (zlen (c :: p) = zlen p + 1) as El by len. assert (0 ≤ zlen p) by (unfold zlen; lia).
  rewrite (wrapu_small 64 (bits + _)) by (unfold in_u; lia).
  change 3 with (Z.ones 2) in E. rewrite Z.land_ones in E by lia. change (2 ^ 2) with 4 in E.
  destruct (IH (u64 (addr + 1)) p (bits + ones_in 8 c) (count - 1)) as (n & -> & Hn);
    [done|apply wrapu_range; lia|lia|lia|lia| |].
  { assert ((- u64 (addr + 1)) mod 4 = (- addr) mod 4 - 1); [|divlia]. unfold wrapu, in_u in *.
    pow_compute. divlia. }
  exists (S n). cbn [take drop popcount foldr]. fold (popcount (take n p)).
  split; [|lia]. f_equal. f_equal; [f_equal|]; lia.
Qed.

Lemma words_spec be n : ∀ p, bytes_ok p → (4 * n ≤ length p)%nat →
  ∃ gs, words be n p = Some (map (of_mem be) gs, drop (4 * n) p) ∧ mjoin gs = take (4 * n) p ∧
    Forall (λ g, length g = 4%nat ∧ bytes_ok g) gs ∧ length gs = n.
Proof.
  induction n as [|n IH]; intros p Hb Hl; cbn [words]; [by exists []|].
  assert (p = take 4 p ++ drop 4 p) as Ep by by rewrite take_drop.
  assert (load p 0 4 = Some (take 4 p)) as ->.
  { rewrite Ep at 1. change (take 4 p ++ drop 4 p) with ([] ++ take 4 p ++ drop 4 p).
    apply load_app; [done|]. len. }
  cbn [mbind option_bind].
  destruct (IH (drop 4 p)) as (gs & -> & Hj & HF & Hlen); [by apply Forall_drop|rewrite length_drop; lia|].
  cbn [mbind option_bind]. exists (take 4 p :: gs). split_and!.
  - cbn [map]. rewrite drop_drop. do 3 f_equal. lia.
  - change (mjoin (take 4 p :: gs)) with (take 4 p ++ mjoin gs). rewrite Hj.
    replace (4 * S n)%nat with (4 + 4 * n)%nat by lia. apply take_take_drop.
  - constructor; [|done]. split; [rewrite length_take; lia|by apply Forall_take].
  - cbn. lia.
Qed.

Lemma count_words_spec be fuel : ∀ p bits count,
  bytes_ok p → 0 ≤ count ≤ zlen p → 0 ≤ bits → bits + 8 * zlen p < 2 ^ 64 → count < Z.of_nat fuel →
  ∃ n, count_words fuel be p bits count =
    Some (drop n p, bits + popcount (take n p), count - Z.of_nat n) ∧ Z.of_nat n ≤ count.
Proof.
  induction fuel as [|fuel IH]; intros p bits count Hb Hc H0 Hbd Hf; [lia|]. cbn [count_words].
  destruct (Z.leb_spec 28 count).
  - destruct (words_spec be 7 p Hb) as (gs & -> & Hj & HF & Hlen); [unfold zlen in Hc; lia|].
    cbn [mbind option_bind]. rewrite (count_28_spec be gs HF) by (unfold zlen; lia). rewrite Hj.
    change (4 * 7)%nat with 28%nat.
    pose proof (popcount_bound (take 28 p) ltac:(by apply Forall_take)) as Hpc.
    assert (zlen (take 28 p) = 28 ∧ zlen (drop 28 p) = zlen p - 28) as [E1 E2] by (split; len).
    rewrite E1 in Hpc. assert (0 ≤ zlen p) by (unfold zlen; lia).
    rewrite wrapu_small by (unfold in_u; lia).
    destruct (IH (drop 28 p) (bits + popcount (take 28 p)) (count - 28)) as (n & -> & Hn);
      [by apply Forall_drop|lia..|].
    exists (28 + n)%nat. rewrite drop_drop, <- take_take_drop, popcount_app. split; [|lia]. f_equal. f_equal; [f_equal|]; lia.
  - exists 0%nat. split; [by rewrite Z.add_0_r, Z.sub_0_r|lia].
Qed.

Lemma redisPopcount_spec be addr s count :
  bytes_ok s → in_u 64 addr → 0 ≤ count ≤ zlen s → 8 * zlen s < 2 ^ 64 →
  redisPopcount be addr s count = Some (popcount (take (Z.to_nat count) s)).
Proof.
  intros Hb Ha Hc Hbd. unfold redisPopcount.
  destruct (count_unaligned_spec 4 addr s 0 count) as (n1 & -> & H1); [done..|lia|lia| |].
  { pose proof (Z.mod_pos_bound (- addr) 4). lia. }
  cbn [mbind option_bind]. set (s1 := drop n1 s).
  assert (zlen s1 = zlen s - Z.of_nat n1) as E1 by (subst s1; len).
  pose proof (popcount_bound (take n1 s) ltac:(by apply Forall_take)) as Hp1.
  assert (zlen (take n1 s) = Z.of_nat n1) as L1 by len. rewrite L1 in Hp1.
  destruct (count_words_spec be (S (Z.to_nat (count - Z.of_nat n1))) s1 (0 + popcount (take n1 s)) (count - Z.of_nat n1))
    as (n2 & -> & H2); [by apply Forall_drop|lia..|].
  cbn [mbind option_bind]. set (s2 := drop n2 s1).
  assert (zlen s2 = zlen s1 - Z.of_nat n2) as E2 by (subst s2; len).
  pose proof (popcount_bound (take n2 s1) ltac:(by apply Forall_take, Forall_drop)) as Hp2.
  assert (zlen (take n2 s1) = Z.of_nat n2) as L2 by len. rewrite L2 in Hp2.
  rewrite count_bytes_spec; [|by apply Forall_drop, Forall_drop|unfold zlen in *; lia|lia|lia].
  cbn [mbind option_bind]. f_equal.
  replace (Z.to_nat count) with (n1 + (n2 + Z.to_nat (count - Z.of_nat n1 - Z.of_nat n2)))%nat by lia.
  rewrite <- !take_take_drop, !popcount_app. fold s1. fold s2. lia.
Qed.

(** ** [redisBitpos] *)

Lemma bit_at_skip c p i : 8 ≤ i → bit_at (c :: p) i = bit_at p (i - 8).
Proof.
  intros Hi. unfold bit_at. replace (i / 8) with (1 + (i - 8) / 8) by divlia.
  assert (0 ≤ (i - 8) / 8) by divlia. rewrite Z2Nat.inj_add by lia. cbn [lookup list_lookup].
  change (Z.to_nat 1 + ?n)%nat with (S n). cbn. replace ((i - 8) mod 8) with (i mod 8) by divlia. done.
Qed.

Lemma bit_at_head c p i : 0 ≤ i < 8 → bit_at (c :: p) i = Z.testbit c (7 - i).
Proof. intros Hi. unfold bit_at. rewrite Z.div_small, Z.mod_small by lia. done. Qed.

Lemma bit_at_nil i : bit_at [] i = false.
Proof. done. Qed.

Lemma bit_at_drop n : ∀ s i, 0 ≤ i → bit_at (drop n s) i = bit_at s (i + 8 * Z.of_nat n).
Proof.
  induction n as [|n IH]; intros s i Hi; [rewrite drop_0; f_equal; lia|].
  destruct s as [|c s]; [done|]. cbn [drop]. rewrite IH by done. rewrite bit_at_skip by lia. f_equal. lia.
Qed.

Lemma bit_at_in s i : 0 ≤ i → bit_at s i = true → i < 8 * zlen s.
Proof.
  intros Hi. unfold bit_at. destruct (s !! Z.to_nat (i / 8)) eqn:E; [|done]. intros _.
  apply lookup_lt_Some in E. unfold zlen. divlia.
Qed.

(** The byte all of whose bits are not [bit]. *)
Definition skip_byte (bit : bool) : Z := if bit then 0 else 255.

Lemma skip_byte_bits bit i : 0 ≤ i < 8 → Z.testbit (skip_byte bit) i = negb bit.
Proof.
  intros Hi. assert (Forall (λ i, ∀ b : bool, Z.testbit (skip_byte b) i = negb b) (seqZ 0 8)) as HF.
  { repeat (apply Forall_cons_2; [by intros []|]). apply Forall_nil_2. }
  rewrite Forall_forall in HF. apply HF, elem_of_seqZ. lia.
Qed.

(** [p] is what is left of [s] after [n] bytes without the bit. *)
Definition skipped (s : list Z) (bit : bool) (p : list Z) (pos : Z) : Prop :=
  ∃ n, p = drop n s ∧ pos = 8 * Z.of_nat n ∧ (n ≤ length s)%nat ∧
    ∀ i, 0 ≤ i < pos → bit_at s i = negb bit.

Lemma skipped_0 s bit : skipped s bit s 0.
Proof. exists 0%nat. split; [by rewrite drop_0|]. split_and!; [lia..|]. intros. lia. Qed.

Lemma skipped_byte s bit p pos :
  skipped s bit (skip_byte bit :: p) pos → skipped s bit p (pos + 8).
Proof.
  intros (n & Hp & Hpos & Hn & Hb). exists (S n). split_and!; [|lia| |].
  - replace (S n) with (n + 1)%nat by lia. rewrite <- drop_drop, <- Hp. done.
  - apply (f_equal length) in Hp. rewrite length_drop in Hp. cbn in Hp. lia.
  - intros i Hi. destruct (decide (i < pos)); [apply Hb; lia|].
    replace i with ((i - pos) + 8 * Z.of_nat n) by lia. rewrite <- bit_at_drop, <- Hp by lia.
    rewrite bit_at_head by lia. apply skip_byte_bits. lia.
Qed.

Lemma skipped_bytes s bit k : ∀ p pos,
  skipped s bit (replicate k (skip_byte bit) ++ p) pos → skipped s bit p (pos + 8 * Z.of_nat k).
Proof.
  induction k as [|k IH]; intros p pos Hs; [by replace (pos + 8 * Z.of_nat 0) with pos by lia|].
  replace (pos + 8 * Z.of_nat (S k)) with (pos + 8 + 8 * Z.of_nat k) by lia. apply IH.
  by apply skipped_byte.
Qed.

Lemma skip_bytes_spec s bit fuel : ∀ addr p pos,
  in_u 64 addr → (Z.to_nat ((- addr) mod 8) < fuel)%nat → skipped s bit p pos →
  ∃ p' pos', skip_bytes fuel addr (skip_byte bit) p pos = Some (p', pos') ∧ skipped s bit p' pos'.
Proof.
  induction fuel as [|fuel IH]; intros addr p pos Ha Hf Hs; [lia|]. cbn [skip_bytes].
  destruct (Z.eqb_spec (Z.land addr 7) 0) as [E|E]; cbn [negb]; [eauto|].
  destruct p as [|c p]; [eauto|]. destruct (Z.eqb_spec c (skip_byte bit)) as [->|]; [|eauto].
  change 7 with (Z.ones 3) in E. rewrite Z.land_ones in E by lia. change (2 ^ 3) with 8 in E.
  apply IH; [apply wrapu_range; lia| |by apply skipped_byte].
  assert ((- u64 (addr + 1)) mod 8 = (- addr) mod 8 - 1); [|divlia]. unfold wrapu, in_u in *.
  pow_compute. divlia.
Qed.

Lemma skip_word_value be bit :
  of_mem be (replicate 8 (skip_byte bit)) = if bit then 0 else ULONG_MAX.
Proof. by destruct be, bit. Qed.

Lemma skip_words_spec s bit be fuel : ∀ p pos,
  bytes_ok p → (length p < fuel)%nat → skipped s bit p pos →
  ∃ p' pos', skip_words fuel be (if bit then 0 else ULONG_MAX) p pos = Some (p', pos') ∧
    skipped s bit p' pos' ∧ bytes_ok p' ∧ (8 ≤ zlen p' → take 8 p' ≠ replicate 8 (skip_byte bit)).
Proof.
  induction fuel as [|fuel IH]; intros p pos Hb Hf Hs; [lia|]. cbn [skip_words].
  destruct (Z.leb_spec 8 (zlen p)); [|do 2 eexists; split; [done|]; split; [done|]; split; [done|lia]].
  assert (load p 0 8 = Some (take 8 p)) as ->.
  { assert (p = [] ++ take 8 p ++ drop 8 p) as Ep by (cbn [app]; by rewrite take_drop). rewrite Ep at 1.
    apply load_app; [done|]. len. }
  cbn [mbind option_bind]. rewrite <- (skip_word_value be bit).
  assert (bytes_ok (take 8 p)) as Hb8 by by apply Forall_take.
  assert (bytes_ok (replicate 8 (skip_byte bit))) as Hr8 by (apply Forall_replicate; by destruct bit).
  destruct (Z.eqb_spec (of_mem be (take 8 p)) (of_mem be (replicate 8 (skip_byte bit)))) as [E|E].
  - apply of_mem_inj in E; [|done..|rewrite length_replicate; len].
    rewrite (skip_word_value be bit). apply IH; [by apply Forall_drop|rewrite length_drop; revert H; len|].
    rewrite <- (take_drop 8 p), E in Hs. by apply skipped_bytes in Hs.
  - do 2 eexists. split; [done|]. split; [done|]. split; [done|]. intros _ E8. by rewrite E8 in E.
Qed.

Lemma load_word_spec j : ∀ w p,
  0 ≤ w < 2 ^ (64 - 8 * Z.of_nat j) → (j ≤ 8)%nat → bytes_ok p →
  in_u 64 (load_word j w p) ∧
  ∀ t, 0 ≤ t < 64 → Z.testbit (load_word j w p) t =
    if t <? 8 * Z.of_nat j then bit_at p (8 * Z.of_nat j - 1 - t) else Z.testbit w (t - 8 * Z.of_nat j).
Proof.
  induction j as [|j IH]; intros w p Hw Hj Hb; cbn [load_word].
  { split; [exact Hw|]. intros t Ht. destruct (Z.ltb_spec t (8 * Z.of_nat 0)); [lia|]. f_equal. lia. }
  assert (u64 (Z.shiftl w 8) = w * 256) as Ew.
  { rewrite Z.shiftl_mul_pow2 by lia. change (2 ^ 8) with 256. apply wrapu_small.
    assert (2 ^ (64 - 8 * Z.of_nat (S j)) * 2 ^ 8 ≤ 2 ^ 64).
    { rewrite <- Z.pow_add_r by lia. apply Z.pow_le_mono_r; lia. }
    unfold in_u. change (2 ^ 8) with 256 in *. lia. }
  rewrite Ew.
  assert (2 ^ (64 - 8 * Z.of_nat j) = 2 ^ (64 - 8 * Z.of_nat (S j)) * 256) as Epow.
  { change 256 with (2 ^ 8). rewrite <- Z.pow_add_r by lia. f_equal. lia. }
  assert (∀ c q, byte_ok c → bytes_ok q → in_u 64 (load_word j (Z.lor (w * 256) c) q) ∧
    ∀ t, 0 ≤ t < 64 → Z.testbit (load_word j (Z.lor (w * 256) c) q) t =
      if t <? 8 * Z.of_nat (S j) then bit_at (c :: q) (8 * Z.of_nat (S j) - 1 - t)
      else Z.testbit w (t - 8 * Z.of_nat (S j))) as Hstep.
  { intros c q Hc Hq. assert (Z.lor (w * 256) c = w * 256 + c) as El.
    { apply lor_disjoint_add. apply Z.bits_inj'. intros i Hi. rewrite Z.land_spec, Z.bits_0.
      change 256 with (2 ^ 8). destruct (decide (i < 8)); [by rewrite Z.mul_pow2_bits_low by lia|].
      rewrite (in_u_testbit 8 c) by (done || lia). apply andb_false_r. }
    destruct (IH (Z.lor (w * 256) c) q) as [Hr Hbits]; [rewrite El, Epow; destruct Hc; lia|lia|done|].
    split; [done|]. intros t Ht. rewrite Hbits by done.
    destruct (Z.ltb_spec t (8 * Z.of_nat j)), (Z.ltb_spec t (8 * Z.of_nat (S j))); try lia.
    - rewrite bit_at_skip by lia. f_equal. lia.
    - rewrite bit_at_head by lia. rewrite Z.lor_spec. change 256 with (2 ^ 8).
      rewrite Z.mul_pow2_bits_low by lia. cbn. f_equal. lia.
    - rewrite Z.lor_spec. change 256 with (2 ^ 8). rewrite Z.mul_pow2_bits by lia.
      rewrite (in_u_testbit 8 c) by (done || lia). rewrite orb_false_r. f_equal. lia. }
  destruct p as [|c p].
  - destruct (Hstep 0 [] ltac:(done) ltac:(constructor)) as [Hr Hbits]. rewrite Z.lor_0_r in Hr, Hbits.
    split; [done|]. intros t Ht. rewrite Hbits by done. destruct (Z.ltb_spec t (8 * Z.of_nat (S j))); [|done].
    rewrite bit_at_nil. destruct (decide (8 * Z.of_nat (S j) - 1 - t < 8)).
    + rewrite bit_at_head by lia. apply Z.testbit_0_l.
    + by rewrite bit_at_skip by lia.
  - apply Forall_cons in Hb as [Hc Hb]. by apply Hstep.
Qed.

Lemma land_pow2 i w : 0 ≤ i → negb (Z.land (2 ^ i) w =? 0) = Z.testbit w i.
Proof.
  intros Hi. assert (Z.land (2 ^ i) w = if Z.testbit w i then 2 ^ i else 0) as ->.
  { apply Z.bits_inj'. intros j Hj. rewrite Z.land_spec, Z.pow2_bits_eqb by done.
    destruct (Z.eqb_spec i j) as [<-|Hne]; cbn.
    - destruct (Z.testbit w i) eqn:E; [by rewrite Z.pow2_bits_true|by rewrite Z.bits_0].
    - destruct (Z.testbit w i); [by rewrite Z.pow2_bits_false|by rewrite Z.bits_0]. }
  assert (0 < 2 ^ i) by (apply Z.pow_pos_nonneg; lia).
  destruct (Z.testbit w i); [by destruct (Z.eqb_spec (2 ^ i) 0); [lia|]|done].
Qed.

Lemma scan_word_spec word bit n : ∀ k fuel pos,
  0 ≤ k → k + Z.of_nat n < 64 → (n < fuel)%nat →
  (∀ j, k ≤ j < k + Z.of_nat n → Z.testbit word (63 - j) = negb bit) →
  Z.testbit word (63 - (k + Z.of_nat n)) = bit →
  scan_word fuel (2 ^ (63 - k)) word bit pos = Some (pos + Z.of_nat n).
Proof.
  induction n as [|n IH]; intros k fuel pos Hk Hn Hf Hne Heq; (destruct fuel as [|fuel]; [lia|]);
    cbn [scan_word]; assert (0 < 2 ^ (63 - k)) by (apply Z.pow_pos_nonneg; lia);
    (destruct (Z.eqb_spec (2 ^ (63 - k)) 0); [lia|]); rewrite land_pow2 by lia.
  - rewrite Z.add_0_r in Heq. rewrite Heq, eqb_reflx. f_equal. lia.
  - rewrite Hne by lia. replace (Bool.eqb (negb bit) bit) with false by by destruct bit.
    assert (Z.shiftr (2 ^ (63 - k)) 1 = 2 ^ (63 - (k + 1))) as ->.
    { rewrite Z.shiftr_div_pow2 by lia. replace (63 - k) with (63 - (k + 1) + 1) by lia.
      rewrite Z.pow_add_r by lia. apply Z.div_mul. done. }
    rewrite IH; [f_equal; lia|lia..| |].
    + intros j Hj. apply Hne. lia.
    + rewrite <- Heq. f_equal. lia.
Qed.

Lemma first_bit (f : Z → bool) bit n :
  (∀ k, 0 ≤ k < Z.of_nat n → f k = negb bit) ∨
  ∃ k, 0 ≤ k < Z.of_nat n ∧ f k = bit ∧ ∀ j, 0 ≤ j < k → f j = negb bit.
Proof.
  induction n as [|n [IH|(k & Hk & Hf & Hne)]]; [left; intros; lia| |right; exists k; split; [lia|done]].
  destruct (decide (f (Z.of_nat n) = bit)) as [E|E].
  - right. exists (Z.of_nat n). split; [lia|]. done.
  - left. intros k Hk. destruct (decide (k < Z.of_nat n)); [apply IH; lia|].
    replace k with (Z.of_nat n) by lia. by destruct (f _), bit.
Qed.

Lemma all_skip p bit :
  bytes_ok p → 8 ≤ zlen p → (∀ k, 0 ≤ k < 64 → bit_at p k = negb bit) →
  take 8 p = replicate 8 (skip_byte bit).
Proof.
  intros Hb Hl Hbits. apply list_eq. intros j. destruct (decide (j < 8)%nat) as [Hj|Hj].
  - rewrite lookup_take_lt, lookup_replicate_2 by done.
    destruct (lookup_lt_is_Some_2 p j) as [c Hc]; [unfold zlen in Hl; lia|]. rewrite Hc. f_equal.
    assert (byte_ok c) as Hcb by (unfold bytes_ok in Hb; rewrite Forall_lookup in Hb; by eapply Hb).
    apply Z.bits_inj'. intros i Hi. destruct (decide (i < 8)).
    + rewrite skip_byte_bits by lia. rewrite <- (Hbits (8 * Z.of_nat j + (7 - i))) by lia. unfold bit_at.
      replace ((8 * Z.of_nat j + (7 - i)) / 8) with (Z.of_nat j) by divlia.
      replace ((8 * Z.of_nat j + (7 - i)) mod 8) with (7 - i) by divlia.
      rewrite Nat2Z.id, Hc. f_equal. lia.
    + rewrite (in_u_testbit 8 c) by (done || lia). symmetry. apply (in_u_testbit 8); [by destruct bit|lia].
  - rewrite lookup_take_ge by lia. symmetry. apply lookup_ge_None. rewrite length_replicate. lia.
Qed.

Lemma redisBitpos_spec be addr s bit :
  bytes_ok s → in_u 64 addr →
  ∃ r, redisBitpos be addr s bit = Some r ∧
    ((0 ≤ r ∧ bit_at s r = bit ∧ ∀ i, 0 ≤ i < r → bit_at s i = negb bit) ∨
     (bit = true ∧ r = -1 ∧ ∀ i, 0 ≤ i → bit_at s i = false)).
Proof.
  intros Hb Ha. unfold redisBitpos. fold (skip_byte bit).
  destruct (skip_bytes_spec s bit 8 addr s 0 Ha) as (p1 & pos1 & -> & Hs1); [|apply skipped_0|].
  { pose proof (Z.mod_pos_bound (- addr) 8). lia. }
  cbn [mbind option_bind].
  assert (bytes_ok p1) as Hb1 by (destruct Hs1 as (n & -> & _); by apply Forall_drop).
  destruct (skip_words_spec s bit be (S (length p1)) p1 pos1 Hb1) as (p & pos & -> & Hs & Hbp & Hfull); [lia|done|].
  cbn [mbind option_bind]. destruct (load_word_spec 8 0 p) as [Hwr Hw]; [lia|lia|done|].
  set (word := load_word 8 0 p) in *. clearbody word.
  assert (∀ k, 0 ≤ k < 64 → Z.testbit word (63 - k) = bit_at p k) as Hwk.
  { intros k Hk. rewrite Hw by lia. destruct (Z.ltb_spec (63 - k) (8 * Z.of_nat 8)); [f_equal; lia|lia]. }
  destruct Hs as (n & Ep & Epos & Hn & Hskip).
  assert (∀ k, 0 ≤ k → bit_at s (pos + k) = bit_at p k) as Hsp.
  { intros k Hk. rewrite Ep, bit_at_drop by done. f_equal. lia. }
  destruct (first_bit (bit_at p) bit 64) as [Hall|(k & Hk & Hkb & Hkn)].
  - assert (zlen p < 8) as Hshort.
    { destruct (Z.lt_ge_cases (zlen p) 8); [done|]. exfalso. apply Hfull; [lia|]. by apply all_skip. }
    assert (0 ≤ zlen p) by (unfold zlen; lia). destruct bit.
    + assert (word = 0) as ->.
      { apply Z.bits_inj'. intros t Ht. rewrite Z.bits_0. destruct (decide (t < 64)).
        - replace t with (63 - (63 - t)) by lia. rewrite Hwk by lia. apply Hall. lia.
        - by apply (in_u_testbit 64); [|lia]. }
      cbn. exists (-1). split; [done|]. right. split_and!; [done..|]. intros i Hi.
      destruct (decide (i < pos)); [by apply Hskip|]. replace i with (pos + (i - pos)) by lia.
      rewrite Hsp by lia. destruct (decide (i - pos < 64)); [apply Hall; lia|].
      destruct (bit_at p (i - pos)) eqn:E; [|done]. apply bit_at_in in E; lia.
    + exfalso. specialize (Hall (8 * zlen p) ltac:(lia)). cbn in Hall. apply bit_at_in in Hall; lia.
  - assert (bit && (word =? 0) = false) as ->.
    { destruct bit; [|done]. cbn. apply Z.eqb_neq. intros ->. rewrite <- Hwk, Z.bits_0 in Hkb by lia. done. }
    change (u64 (Z.lnot (Z.shiftr ULONG_MAX 1))) with (2 ^ (63 - 0)).
    rewrite (scan_word_spec word bit (Z.to_nat k) 0); [|lia..| |].
    + exists (pos + Z.of_nat (Z.to_nat k)). split; [done|]. left. rewrite Z2Nat.id by lia.
      split; [lia|]. split; [by rewrite Hsp by lia|]. intros i Hi.
      destruct (decide (i < pos)); [apply Hskip; lia|]. replace i with (pos + (i - pos)) by lia.
      rewrite Hsp by lia. apply Hkn. lia.
    + intros j Hj. rewrite Hwk by lia. apply Hkn. lia.
    + rewrite Z2Nat.id by lia. cbn. by rewrite Hwk by lia.
Qed.

(** ** SETBIT and GETBIT *)

Lemma bit_at_grow s n i : bit_at (s ++ replicate n 0) i = bit_at s i.
Proof.
  unfold bit_at. destruct (decide (Z.to_nat (i / 8) < length s)%nat) as [Hl|Hl].
  - by rewrite lookup_app_l.
  - rewrite lookup_app_r by lia. rewrite (lookup_ge_None_2 s) by lia.
    destruct (replicate n 0 !! (Z.to_nat (i / 8) - length s)%nat) eqn:E; [|done].
    apply lookup_replicate in E as [-> _]. apply Z.testbit_0_l.
Qed.

Lemma bit_at_middle A c c' B i : 0 ≤ i →
  bit_at (A ++ c' :: B) i = if i / 8 =? zlen A then Z.testbit c' (7 - i mod 8) else bit_at (A ++ c :: B) i.
Proof.
  intros Hi. unfold bit_at. assert (0 ≤ i / 8) by divlia. destruct (Z.eqb_spec (i / 8) (zlen A)) as [E|E].
  - rewrite E. unfold zlen. rewrite Nat2Z.id. by rewrite list_lookup_middle.
  - unfold zlen in E. destruct (decide (Z.to_nat (i / 8) < length A)%nat).
    + by rewrite !lookup_app_l.
    + rewrite !lookup_app_r by lia. destruct (Z.to_nat (i / 8) - length A)%nat eqn:En; [lia|]. done.
Qed.

Lemma land_7 off : 0 ≤ off → Z.land off 7 = off mod 8.
Proof. intros. change 7 with (Z.ones 3). by rewrite Z.land_ones by lia. Qed.

Lemma test_bit_spec c off : 0 ≤ off →
  negb (Z.land c (Z.shiftl 1 (7 - Z.land off 7)) =? 0) = Z.testbit c (7 - off mod 8).
Proof.
  intros Ho. rewrite land_7 by done. pose proof (Z.mod_pos_bound off 8).
  rewrite Z.shiftl_1_l, Z.land_comm. apply land_pow2. lia.
Qed.

(** The byte with one bit replaced. *)
Lemma set_bit_byte c on k i : byte_ok c → (on = 0 ∨ on = 1) → 0 ≤ k < 8 → 0 ≤ i →
  let c' := u8 (Z.lor (Z.land c (Z.lnot (Z.shiftl 1 k))) (Z.shiftl (Z.land on 1) k)) in
  byte_ok c' ∧ Z.testbit c' i = if i =? k then on =? 1 else Z.testbit c i.
Proof.
  intros Hc Hon Hk Hi c'. split; [apply (wrapu_range 8); lia|]. subst c'.
  rewrite wrapu_testbit, Z.lor_spec, Z.land_spec, Z.lnot_spec, Z.shiftl_1_l, Z.pow2_bits_eqb, Z.shiftl_spec by lia.
  assert (Z.land on 1 = on) as -> by (by destruct Hon; subst).
  rewrite Z.eqb_sym. destruct (Z.eqb_spec i k) as [->|Hne].
  - destruct (Z.ltb_spec k 8); [|lia]. cbn. rewrite andb_false_r, Z.sub_diag. by destruct Hon; subst.
  - cbn. rewrite andb_true_r. assert (Z.testbit on (i - k) = false) as ->.
    { destruct (decide (i < k)); [by apply Z.testbit_neg_r; lia|]. apply (in_u_testbit 1); [|lia].
      destruct Hon; subst; done. }
    rewrite orb_false_r. destruct (Z.ltb_spec i 8); [done|]. symmetry. by apply (in_u_testbit 8); [|lia].
Qed.

Lemma setbit_spec s off on :
  bytes_ok s → 0 ≤ off → (on = 0 ∨ on = 1) →
  ∃ s', setbit s off on = Some (s', bit_at s off) ∧ bytes_ok s' ∧
    zlen s' = Z.max (zlen s) (off / 8 + 1) ∧
    ∀ i, 0 ≤ i → bit_at s' i = if i =? off then on =? 1 else bit_at s i.
Proof.
  intros Hb Ho Hon. unfold setbit. rewrite Z.shiftr_div_pow2 by lia. change (2 ^ 3) with 8. cbv zeta.
  assert (0 ≤ off / 8) as Hq by divlia. pose proof (Z.mod_pos_bound off 8 ltac:(lia)) as Hm.
  set (g := sdsgrowzero s (off / 8 + 1)).
  assert (zlen g = Z.max (zlen s) (off / 8 + 1)) as Hg by (subst g; unfold sdsgrowzero; len).
  assert (bytes_ok g) as Hgb by (subst g; apply Forall_app; split; [done|by apply Forall_replicate]).
  assert (∀ i, bit_at g i = bit_at s i) as Hgs by (intros; apply bit_at_grow). clearbody g.
  destruct (lookup_lt_is_Some_2 g (Z.to_nat (off / 8))) as [c Hc]; [unfold zlen in Hg; lia|].
  pose proof (take_drop_middle g _ c Hc) as Esplit.
  set (A := take (Z.to_nat (off / 8)) g) in *. set (B := drop (S (Z.to_nat (off / 8))) g) in *.
  assert (zlen A = off / 8) as HA by (subst A; unfold zlen in *; rewrite length_take; lia).
  assert (byte_ok c) as Hcb by (unfold bytes_ok in Hgb; rewrite Forall_lookup in Hgb; by eapply Hgb).
  clearbody A B. subst g. change (A ++ c :: B) with (A ++ [c] ++ B). rewrite load_app by (done || lia).
  cbn [mbind option_bind lookup list_lookup]. rewrite store_app by (done || lia). cbn [mbind option_bind].
  eexists. rewrite test_bit_spec by done.
  assert (bit_at s off = Z.testbit c (7 - off mod 8)) as ->.
  { rewrite <- Hgs, (bit_at_middle A c c) by done. by rewrite HA, Z.eqb_refl. }
  split; [done|]. cbn [app]. rewrite land_7 by done. split_and!.
  - apply Forall_app in Hgb as [HbA HbB]. apply Forall_cons in HbB as [_ HbB]. apply Forall_app. split; [done|].
    constructor; [|done]. by apply (set_bit_byte c on (7 - off mod 8) 0); [| |lia|].
  - rewrite <- Hg. len.
  - intros i Hi. rewrite (bit_at_middle A c) by done. rewrite HA, Hgs.
    destruct (Z.eqb_spec (i / 8) (off / 8)) as [E8|E8].
    + destruct (set_bit_byte c on (7 - off mod 8) (7 - i mod 8)) as [_ ->]; [done|done|lia|divlia|].
      pose proof (Z.mod_pos_bound i 8 ltac:(lia)).
      destruct (Z.eqb_spec (7 - i mod 8) (7 - off mod 8)), (Z.eqb_spec i off); try done; try (exfalso; divlia).
      rewrite <- Hgs, (bit_at_middle A c c) by done. by rewrite HA, E8, Z.eqb_refl.
    + destruct (Z.eqb_spec i off) as [->|]; [done|]. done.
Qed.

Lemma getbit_spec s off : 0 ≤ off → getbit s off = Some (bit_at s off).
Proof.
  intros Ho. unfold getbit. rewrite Z.shiftr_div_pow2 by lia. change (2 ^ 3) with 8. cbv zeta.
  assert (0 ≤ off / 8) as Hq by divlia. unfold bit_at. destruct (Z.ltb_spec (off / 8) (zlen s)) as [Hl|Hl].
  - destruct (lookup_lt_is_Some_2 s (Z.to_nat (off / 8))) as [c Hc]; [unfold zlen in Hl; lia|]. rewrite Hc.
    rewrite <- (take_drop_middle s _ c Hc) at 1.
    change (?A ++ c :: ?B) with (A ++ [c] ++ B). rewrite load_app by (done || len).
    cbn [mbind option_bind lookup list_lookup]. by rewrite test_bit_spec.
  - rewrite lookup_ge_None_2; [done|]. unfold zlen in Hl. lia.
Qed.

(** ** BITOP: words and bytes *)

Definition bopb (op : bitop) (a b : bool) : bool :=
  match op with
  | BITOP_AND => a && b
  | BITOP_OR => a || b
  | BITOP_XOR => xorb a b
  | BITOP_NOT => a
  end.

Lemma bop_testbit op a b i : Z.testbit (bop op a b) i = bopb op (Z.testbit a i) (Z.testbit b i).
Proof. destruct op; cbn; [apply Z.land_spec|apply Z.lor_spec|apply Z.lxor_spec|done]. Qed.

Lemma bop_range op w a b : 0 ≤ w → in_u w a → in_u w b → in_u w (bop op a b).
Proof.
  intros Hw Ha Hb. apply in_u_bits; [done|]. intros j Hj.
  rewrite bop_testbit, (in_u_testbit w a), (in_u_testbit w b) by (done || lia). by destruct op.
Qed.

Lemma le_testbit a X i : byte_ok a → 0 ≤ i →
  Z.testbit (Z.lor a (X ≪ 8)) i = if i <? 8 then Z.testbit a i else Z.testbit X (i - 8).
Proof.
  intros Ha Hi. rewrite Z.lor_spec, Z.shiftl_spec by done. destruct (Z.ltb_spec i 8).
  - rewrite (Z.testbit_neg_r X) by lia. apply orb_false_r.
  - by rewrite (in_u_testbit 8 a) by (done || lia).
Qed.

Lemma le_bop op a : ∀ b, bytes_ok a → bytes_ok b → length a = length b →
  bop op (little_endian_to_Z 8 a) (little_endian_to_Z 8 b) = little_endian_to_Z 8 (zip_with (bop op) a b).
Proof.
  induction a as [|x a IH]; intros b Ha Hb Hl; destruct b as [|y b]; try done.
  { by destruct op. }
  apply Forall_cons in Ha as [Hx Ha]. apply Forall_cons in Hb as [Hy Hb]. cbn [zip_with little_endian_to_Z].
  rewrite <- IH by (done || (injection Hl; done)). apply Z.bits_inj'. intros i Hi.
  rewrite bop_testbit, !le_testbit; try done; [|by apply (bop_range op 8)].
  destruct (i <? 8); by rewrite bop_testbit.
Qed.

Lemma zip_bytes op a b : bytes_ok a → bytes_ok b → bytes_ok (zip_with (bop op) a b).
Proof.
  intros Ha. revert b. induction Ha as [|x a Hx Ha IH]; intros b Hb; [constructor|].
  destruct Hb as [|y b Hy Hb]; [constructor|]. constructor; [by apply (bop_range op 8)|by apply IH].
Qed.

Lemma rev_zip {A B C} (f : A → B → C) l1 : ∀ l2, length l1 = length l2 →
  rev (zip_with f l1 l2) = zip_with f (rev l1) (rev l2).
Proof.
  induction l1 as [|x l1 IH]; intros l2 Hl; destruct l2 as [|y l2]; try done. cbn.
  injection Hl as Hl. rewrite IH by done. rewrite zip_with_app; [done|]. by rewrite !length_rev.
Qed.

(** An operation on the words is the operation on the bytes. *)
Lemma word_bop be op a b : bytes_ok a → bytes_ok b → zlen a = 8 → zlen b = 8 →
  to_mem be 8 (bop op (of_mem be a) (of_mem be b)) = zip_with (bop op) a b.
Proof.
  intros Ha Hb La Lb. assert (length a = length b) as Hl by (unfold zlen in *; lia).
  assert (bop op (of_mem be a) (of_mem be b) = of_mem be (zip_with (bop op) a b)) as ->.
  { unfold of_mem. destruct be; [|by apply le_bop].
    rewrite le_bop; [by rewrite rev_zip|by apply Forall_rev..|by rewrite !length_rev]. }
  rewrite <- (to_of_mem be (zip_with (bop op) a b)) at 2 by by apply zip_bytes. f_equal.
  unfold zlen. rewrite length_zip_with. unfold zlen in *. lia.
Qed.

Definition not8 (c : Z) : Z := u8 (Z.lnot c).

Lemma le_not a : bytes_ok a →
  wrapu (8 * zlen a) (Z.lnot (little_endian_to_Z 8 a)) = little_endian_to_Z 8 (map not8 a).
Proof.
  induction 1 as [|x a Hx Ha IH]; [done|]. cbn [map little_endian_to_Z]. rewrite <- IH.
  assert (zlen (x :: a) = zlen a + 1) as -> by len. assert (0 ≤ zlen a) by (unfold zlen; lia).
  apply Z.bits_inj'. intros i Hi. rewrite wrapu_testbit, Z.lnot_spec, !le_testbit by (done || (apply (wrapu_range 8); lia) || lia).
  unfold not8. rewrite !wrapu_testbit by lia. destruct (Z.ltb_spec i 8).
  - rewrite Z.lnot_spec by done. destruct (Z.ltb_spec i (8 * (zlen a + 1))); [done|lia].
  - rewrite Z.lnot_spec by lia.
    destruct (Z.ltb_spec i (8 * (zlen a + 1))), (Z.ltb_spec (i - 8) (8 * zlen a)); try done; lia.
Qed.

Lemma not_bytes a : bytes_ok (map not8 a).
Proof. apply Forall_forall. intros x (y & -> & _)%list_elem_of_fmap. apply (wrapu_range 8). lia. Qed.

Lemma word_not_bytes be a : bytes_ok a → zlen a = 8 →
  to_mem be 8 (u64 (Z.lnot (of_mem be a))) = map not8 a.
Proof.
  intros Ha La. assert (u64 (Z.lnot (of_mem be a)) = of_mem be (map not8 a)) as ->.
  { unfold of_mem. change 64 with (8 * 8). destruct be.
    - rewrite <- map_rev, <- le_not by by apply Forall_rev.
      replace (zlen (rev a)) with 8 by (unfold zlen in *; rewrite length_rev; lia). done.
    - rewrite <- le_not by done. by rewrite La. }
  rewrite <- (to_of_mem be (map not8 a)) at 2 by apply not_bytes. f_equal.
  unfold zlen in *. by rewrite length_map.
Qed.

(** ** BITOP: blocks *)

(** [res'] is [res] with [f] applied to the bytes from [lo] to [hi]. *)
Definition updated (f : nat → Z → Z) (lo hi : Z) (res res' : list Z) : Prop :=
  length res' = length res ∧
  ∀ i c, res !! i = Some c → res' !! i = Some (if bool_decide (lo ≤ Z.of_nat i < hi) then f i c else c).

Lemma updated_adjacent f lo mid hi r1 r2 r3 :
  lo ≤ mid ≤ hi → updated f lo mid r1 r2 → updated f mid hi r2 r3 → updated f lo hi r1 r3.
Proof.
  intros Hm [L1 H1] [L2 H2]. split; [congruence|]. intros i c Hc. rewrite (H2 _ _ (H1 _ _ Hc)). f_equal.
  repeat case_bool_decide; try done; lia.
Qed.

Lemma updated_compose f g lo hi r1 r2 r3 :
  updated f lo hi r1 r2 → updated g lo hi r2 r3 → updated (λ i c, g i (f i c)) lo hi r1 r3.
Proof.
  intros [L1 H1] [L2 H2]. split; [congruence|]. intros i c Hc. rewrite (H2 _ _ (H1 _ _ Hc)). f_equal.
  by case_bool_decide.
Qed.

Lemma updated_empty f lo r : updated f lo lo r r.
Proof. split; [done|]. intros i c Hc. rewrite bool_decide_false by lia. done. Qed.

Definition byte_of (s : list Z) (i : nat) : Z := default 0 (s !! i).

Lemma load_slice m off n :
  0 ≤ off → 0 ≤ n → off + n ≤ zlen m → load m off n = Some (take (Z.to_nat n) (drop (Z.to_nat off) m)).
Proof. intros. unfold load. by rewrite bool_decide_true by lia. Qed.

Lemma store_updated m off bs f :
  0 ≤ off → off + zlen bs ≤ zlen m →
  (∀ k c, m !! (Z.to_nat off + k)%nat = Some c → (k < length bs)%nat → bs !! k = Some (f (Z.to_nat off + k)%nat c)) →
  ∃ m', store m off bs = Some m' ∧ updated f off (off + zlen bs) m m'.
Proof.
  intros Ho Hl Hf. destruct (store_is_Some m off bs Ho Hl) as [m' Em]. exists m'. split; [done|].
  split; [by eapply store_length|]. intros i c Hc. unfold store in Em.
  rewrite bool_decide_true in Em by lia. apply (inj Some) in Em. subst m'. unfold zlen in *.
  case_bool_decide as Hi.
  - rewrite lookup_app_r by (rewrite length_take; lia). rewrite length_take, Nat.min_l by lia.
    rewrite lookup_app_l by lia.
    replace i with (Z.to_nat off + (i - Z.to_nat off))%nat in Hc |- * at 2 by lia.
    rewrite (Hf _ _ Hc) by lia. done.
  - destruct (decide (Z.of_nat i < off)).
    + rewrite lookup_app_l by (rewrite length_take; lia). by rewrite lookup_take_lt by lia.
    + rewrite lookup_app_r by (rewrite length_take; lia). rewrite length_take, Nat.min_l by lia.
      rewrite lookup_app_r by lia. rewrite lookup_drop. rewrite <- Hc. f_equal. lia.
Qed.

Lemma updated_bytes f lo hi r r' :
  updated f lo hi r r' → bytes_ok r → (∀ i c, byte_ok c → byte_ok (f i c)) → bytes_ok r'.
Proof.
  intros [L H] Hb Hf. unfold bytes_ok in *. rewrite Forall_lookup in Hb |- *. intros i c' Hc'.
  destruct (lookup_lt_is_Some_2 r i) as [c Hc]; [rewrite <- L; by eapply lookup_lt_Some|].
  rewrite (H _ _ Hc) in Hc'. injection Hc' as <-. specialize (Hb _ _ Hc). case_bool_decide; auto.
Qed.

Lemma byte_of_ok s i : bytes_ok s → byte_ok (byte_of s i).
Proof.
  intros Hb. unfold byte_of. destruct (s !! i) eqn:E; [|done]. unfold bytes_ok in Hb.
  rewrite Forall_lookup in Hb. by eapply Hb.
Qed.

Lemma word_step_spec be op src off res :
  bytes_ok res → bytes_ok src → 0 ≤ off → off + 8 ≤ zlen res → off + 8 ≤ zlen src →
  ∃ res', word_step be op src off res = Some res' ∧
    updated (λ i c, bop op c (byte_of src i)) off (off + 8) res res'.
Proof.
  intros Hr Hs Ho Hlr Hls. unfold word_step. rewrite !load_slice by lia. cbn [mbind option_bind].
  set (a := take _ (drop _ res)). set (b := take _ (drop _ src)).
  assert (zlen a = 8 ∧ zlen b = 8) as [La Lb] by (subst a b; split; len).
  rewrite word_bop; [|by apply Forall_take, Forall_drop..|done|done].
  assert (zlen (zip_with (bop op) a b) = 8) as Lz by (unfold zlen in *; rewrite length_zip_with; lia).
  rewrite <- Lz. apply store_updated; [done|lia|]. intros k c Hc Hk.
  assert (k < 8)%nat as Hk8 by (unfold zlen in Lz; lia).
  rewrite lookup_zip_with. subst a b. rewrite !lookup_take_lt, !lookup_drop, Hc by lia. cbn.
  unfold byte_of. destruct (lookup_lt_is_Some_2 src (Z.to_nat off + k)) as [d Hd]; [unfold zlen in *; lia|].
  by rewrite Hd.
Qed.

Lemma word_not_spec be off res :
  bytes_ok res → 0 ≤ off → off + 8 ≤ zlen res →
  ∃ res', word_not be off res = Some res' ∧ updated (λ _ c, not8 c) off (off + 8) res res'.
Proof.
  intros Hr Ho Hlr. unfold word_not. rewrite !load_slice by lia. cbn [mbind option_bind].
  set (a := take _ (drop _ res)). assert (zlen a = 8) as La by (subst a; len).
  rewrite word_not_bytes; [|by apply Forall_take, Forall_drop|done].
  assert (zlen (map not8 a) = 8) as Lz by (unfold zlen in *; by rewrite length_map).
  rewrite <- Lz. apply store_updated; [done|lia|]. intros k c Hc Hk.
  assert (k < 8)%nat as Hk8 by (unfold zlen in Lz; lia).
  change (map not8 a) with (not8 <$> a). rewrite list_lookup_fmap. subst a.
  by rewrite lookup_take_lt, lookup_drop, Hc by lia.
Qed.

Lemma four_words_spec (step : Z → list Z → option (list Z)) f j res :
  (∀ off r, bytes_ok r → zlen r = zlen res → j ≤ off → off + 8 ≤ j + 32 →
    ∃ r', step off r = Some r' ∧ updated f off (off + 8) r r') →
  (∀ i c, byte_ok c → byte_ok (f i c)) → bytes_ok res →
  ∃ res', four_words step j res = Some res' ∧ updated f j (j + 32) res res'.
Proof.
  intros Hstep Hf Hb. unfold four_words. assert (∀ r r' lo hi, updated f lo hi r r' → zlen r' = zlen r) as Hl.
  { intros r r' lo hi [L _]. unfold zlen. by rewrite L. }
  destruct (Hstep j res) as (r1 & -> & U1); [done|done|lia|lia|]. cbn [mbind option_bind].
  assert (bytes_ok r1) as B1 by by eapply updated_bytes. pose proof (Hl _ _ _ _ U1) as L1.
  destruct (Hstep (j + 8) r1) as (r2 & -> & U2); [done|done|lia|lia|]. cbn [mbind option_bind].
  assert (bytes_ok r2) as B2 by by eapply updated_bytes. pose proof (Hl _ _ _ _ U2) as L2.
  destruct (Hstep (j + 16) r2) as (r3 & -> & U3); [done|congruence|lia|lia|]. cbn [mbind option_bind].
  assert (bytes_ok r3) as B3 by by eapply updated_bytes. pose proof (Hl _ _ _ _ U3) as L3.
  destruct (Hstep (j + 24) r3) as (r4 & -> & U4); [done|congruence|lia|lia|].
  exists r4. split; [done|]. replace (j + 8 + 8) with (j + 16) in U2 by lia.
  replace (j + 16 + 8) with (j + 24) in U3 by lia. replace (j + 24 + 8) with (j + 32) in U4 by lia.
  eapply (updated_adjacent f j (j + 8)); [lia|done|]. eapply (updated_adjacent f _ (j + 16)); [lia|done|].
  by eapply (updated_adjacent f _ (j + 24)); [lia| |].
Qed.

(** ** BITOP: the whole computation *)

Definition opt_byte (s : option (list Z)) (i : nat) : Z := match s with Some s => byte_of s i | None => 0 end.
Definition src_ok (s : option (list Z)) : Prop := match s with Some s => bytes_ok s | None => True end.

(** The other keys, combined into a byte. *)
Definition combine (op : bitop) (srcs : list (option (list Z))) (i : nat) (c : Z) : Z :=
  foldl (λ acc s, bop op acc (opt_byte s i)) c srcs.
Definition first_byte (op : bitop) (c : Z) : Z := match op with BITOP_NOT => not8 c | _ => c end.

(** The specification of BITOP: byte [i] of the result. *)
Definition bitop_byte (op : bitop) (src0 : option (list Z)) (srcs : list (option (list Z))) (i : nat) : Z :=
  combine op srcs i (first_byte op (opt_byte src0 i)).

Lemma opt_byte_ok s i : src_ok s → byte_ok (opt_byte s i).
Proof. destruct s; [apply byte_of_ok|done]. Qed.

Lemma combine_ok op srcs i c : Forall src_ok srcs → byte_ok c → byte_ok (combine op srcs i c).
Proof.
  intros HF. revert c. induction HF as [|s srcs Hs HF IH]; intros c Hc; [done|]. cbn. apply IH.
  apply (bop_range op 8); [lia|done|by apply opt_byte_ok].
Qed.

Lemma first_byte_ok op c : byte_ok c → byte_ok (first_byte op c).
Proof. intros. destruct op; [done..|]. apply (wrapu_range 8). lia. Qed.

(** NOT ignores the other keys. *)
Lemma combine_not srcs i c : combine BITOP_NOT srcs i c = c.
Proof. revert c. induction srcs as [|s srcs IH]; intros c; [done|]. cbn. apply IH. Qed.

Lemma block_keys_spec be op srcs j : ∀ res,
  Forall src_ok srcs → Forall (λ s, ∃ b, s = Some b ∧ j + 32 ≤ zlen b) srcs → bytes_ok res →
  0 ≤ j → j + 32 ≤ zlen res →
  ∃ res', block_keys be op srcs j res = Some res' ∧ updated (λ i c, combine op srcs i c) j (j + 32) res res'.
Proof.
  induction srcs as [|s srcs IH]; intros res Hok Hlen Hb Hj Hl; cbn [block_keys].
  { exists res. split; [done|]. split; [done|]. intros i c Hc. cbn. by case_bool_decide. }
  apply Forall_cons in Hok as [Hs Hok]. apply Forall_cons in Hlen as [(src & -> & Hsl) Hlen].
  cbn [mbind option_bind].
  destruct (four_words_spec (word_step be op src) (λ i c, bop op c (byte_of src i)) j res) as (r1 & -> & U1).
  - intros off r Hr Hlr H1 H2. apply word_step_spec; [done|done|lia|lia|lia].
  - intros i c Hc. apply (bop_range op 8); [lia|done|by apply byte_of_ok].
  - done.
  - cbn [mbind option_bind].
    assert (zlen r1 = zlen res) as L1 by (destruct U1 as [L _]; unfold zlen; by rewrite L).
    destruct (IH r1) as (r2 & -> & U2); [done|done| |done|lia|].
    + eapply updated_bytes; [exact U1|done|]. intros i c Hc. apply (bop_range op 8); [lia|done|by apply byte_of_ok].
    + exists r2. split; [done|]. exact (updated_compose _ _ _ _ _ _ _ U1 U2).
Qed.

(** One block, for any operation. *)
Lemma block_spec be op srcs j res :
  Forall src_ok srcs → Forall (λ s, ∃ b, s = Some b ∧ j + 32 ≤ zlen b) srcs → bytes_ok res →
  0 ≤ j → j + 32 ≤ zlen res →
  ∃ res', match op with
          | BITOP_NOT => four_words (word_not be) j res
          | _ => block_keys be op srcs j res
          end = Some res' ∧
    updated (λ i c, combine op srcs i (first_byte op c)) j (j + 32) res res'.
Proof.
  intros Hok Hlen Hb Hj Hl. destruct op; try by apply block_keys_spec.
  destruct (four_words_spec (word_not be) (λ _ c, not8 c) j res) as (r' & -> & U).
  - intros off r Hr Hlr H1 H2. apply word_not_spec; [done|lia|lia].
  - intros i c _. apply (wrapu_range 8). lia.
  - done.
  - exists r'. split; [done|]. destruct U as [L H]. split; [done|]. intros i c Hc. rewrite (H i c Hc).
    by rewrite combine_not.
Qed.

Lemma fast_loop_spec be op srcs fuel : ∀ j minlen res,
  Forall src_ok srcs → Forall (λ s, ∃ b, s = Some b ∧ j + minlen ≤ zlen b) srcs → bytes_ok res →
  0 ≤ j → 0 ≤ minlen < Z.of_nat fuel → j + minlen ≤ zlen res →
  ∃ res' j', fast_loop fuel be op srcs j minlen res = Some (res', j') ∧ j ≤ j' ≤ j + minlen ∧
    updated (λ i c, combine op srcs i (first_byte op c)) j j' res res'.
Proof.
  induction fuel as [|fuel IH]; intros j minlen res Hok Hlen Hb Hj Hf Hl; [lia|]. cbn [fast_loop].
  destruct (Z.leb_spec 32 minlen).
  - destruct (block_spec be op srcs j res) as (r1 & -> & U1); [done| |done|done|lia|].
    { eapply Forall_impl; [exact Hlen|]. intros s (b & -> & ?). exists b. split; [done|lia]. }
    cbn [mbind option_bind]. assert (zlen r1 = zlen res) as L1 by (destruct U1 as [L _]; unfold zlen; by rewrite L).
    destruct (IH (j + 32) (minlen - 32) r1) as (r2 & j2 & -> & Hj2 & U2); [done| | |lia..|].
    + eapply Forall_impl; [exact Hlen|]. intros s (b & -> & ?). exists b. split; [done|lia].
    + eapply updated_bytes; [exact U1|done|]. intros i c Hc. by apply combine_ok, first_byte_ok.
    + exists r2, j2. split; [done|]. split; [lia|].
      refine (updated_adjacent _ j (j + 32) j2 _ _ _ _ U1 U2). lia.
  - exists res, j. split; [done|]. split; [lia|]. apply updated_empty.
Qed.

Lemma src_byte_spec s j : 0 ≤ j → src_byte s j = Some (opt_byte s (Z.to_nat j)).
Proof.
  intros Hj. unfold src_byte. destruct (Z.leb_spec (src_len s) j) as [Hl|Hl].
  - destruct s as [s|]; [|done]. cbn in Hl |- *. unfold byte_of. rewrite lookup_ge_None_2; [done|].
    unfold zlen in Hl. lia.
  - destruct s as [s|]; cbn in Hl; [|lia]. cbn [mbind option_bind]. rewrite load_slice by lia.
    cbn [mbind option_bind opt_byte]. rewrite lookup_take_lt, lookup_drop, Nat.add_0_r by lia.
    unfold byte_of. destruct (lookup_lt_is_Some_2 s (Z.to_nat j)) as [c ->]; [unfold zlen in Hl; lia|]. done.
Qed.

Lemma byte_keys_spec op srcs j : 0 ≤ j → ∀ c, byte_keys op srcs j c = Some (combine op srcs (Z.to_nat j) c).
Proof.
  intros Hj. induction srcs as [|s srcs IH]; intros c; [done|]. cbn [byte_keys].
  rewrite src_byte_spec by done. cbn [mbind option_bind]. by rewrite IH.
Qed.

Lemma byte_loop_spec op src0 srcs maxlen fuel : ∀ j res,
  0 ≤ j ≤ maxlen → maxlen - j < Z.of_nat fuel → zlen res = maxlen →
  ∃ res', byte_loop fuel op src0 srcs j maxlen res = Some res' ∧
    updated (λ i _, bitop_byte op src0 srcs i) j maxlen res res'.
Proof.
  induction fuel as [|fuel IH]; intros j res Hj Hf Hl; [lia|]. cbn [byte_loop].
  destruct (Z.leb_spec maxlen j).
  { exists res. split; [done|]. replace j with maxlen by lia. apply updated_empty. }
  rewrite src_byte_spec by lia. cbn [mbind option_bind]. cbv zeta.
  change (match op with BITOP_NOT => u8 (Z.lnot (opt_byte src0 (Z.to_nat j))) | _ => opt_byte src0 (Z.to_nat j) end)
    with (first_byte op (opt_byte src0 (Z.to_nat j))).
  rewrite byte_keys_spec by lia. cbn [mbind option_bind].
  fold (bitop_byte op src0 srcs (Z.to_nat j)).
  destruct (store_updated res j [bitop_byte op src0 srcs (Z.to_nat j)] (λ i _, bitop_byte op src0 srcs i))
    as (r1 & -> & U1); [lia|len| |].
  { intros k c _ Hk. cbn in Hk. assert (k = 0%nat) as -> by lia. cbn. do 2 f_equal. lia. }
  cbn [mbind option_bind]. assert (zlen r1 = zlen res) as L1 by (destruct U1 as [L _]; unfold zlen; by rewrite L).
  destruct (IH (j + 1) r1) as (r2 & -> & U2); [lia|lia|lia|]. exists r2. split; [done|].
  refine (updated_adjacent _ j (j + 1) maxlen _ _ _ _ U1 U2). lia.
Qed.

Lemma lengths_false srcs : ∀ mn mx mn' mx',
  0 ≤ mn → 0 ≤ mx → lengths false srcs mn mx = (mn', mx') →
  0 ≤ mn' ≤ mn ∧ mx ≤ mx' ∧ Forall (λ s, mn' ≤ src_len s ≤ mx') srcs ∧
  (0 < mn' → Forall is_Some srcs) ∧ (mx' = mx ∨ Exists (λ s, src_len s = mx') srcs).
Proof.
  induction srcs as [|s srcs IH]; intros mn mx mn' mx' Hmn Hmx; cbn [lengths].
  { intros [= <- <-]. split_and!; try lia; [apply Forall_nil_2|intros; apply Forall_nil_2]. }
  destruct s as [s|].
  - cbv zeta. rewrite orb_false_l. intros E. assert (0 ≤ zlen s) by (unfold zlen; lia).
    apply IH in E as (H1 & H2 & H3 & H4 & H5);
      [|destruct (zlen s <? mn); lia|destruct (mx <? zlen s); lia].
    split_and!; try (destruct (Z.ltb_spec (zlen s) mn); lia); try (destruct (Z.ltb_spec mx (zlen s)); lia).
    + constructor; [|done]. cbn. destruct (Z.ltb_spec (zlen s) mn), (Z.ltb_spec mx (zlen s)); lia.
    + intros H0. constructor; [eauto|auto].
    + destruct H5 as [->|H5]; [|right; by right]. destruct (Z.ltb_spec mx (zlen s)); [right; by left|by left].
  - intros E. apply IH in E as (H1 & H2 & H3 & H4 & H5); [|lia..]. split_and!; try lia.
    + constructor; [cbn; lia|done].
    + destruct H5 as [->|H5]; [by left|right; by right].
Qed.

Lemma lengths_spec src0 srcs mn mx :
  lengths true (src0 :: srcs) 0 0 = (mn, mx) →
  0 ≤ mn ≤ mx ∧ Forall (λ s, mn ≤ src_len s ≤ mx) (src0 :: srcs) ∧
  (0 < mn → Forall is_Some (src0 :: srcs)) ∧ Exists (λ s, src_len s = mx) (src0 :: srcs).
Proof.
  intros E. assert (lengths false srcs (src_len src0) (src_len src0) = (mn, mx)) as E'.
  { destruct src0 as [s|]; cbn [lengths] in E; [|exact E]. cbn [orb src_len] in *.
    assert (0 ≤ zlen s) by (unfold zlen; lia). destruct (Z.ltb_spec 0 (zlen s)); [exact E|].
    replace (zlen s) with 0 in * by lia. exact E. }
  assert (0 ≤ src_len src0) by (destruct src0; cbn; unfold zlen; lia).
  apply lengths_false in E' as (H1 & H2 & H3 & H4 & H5); [|done..]. split; [lia|]. split_and!.
  - constructor; [lia|done].
  - intros H0. constructor; [|auto]. destruct src0; [eauto|]. cbn in H1. lia.
  - destruct H5 as [->|H5]; [by left|by right].
Qed.

Lemma bitop_compute_spec be op src0 srcs :
  src_ok src0 → Forall src_ok srcs →
  ∃ maxlen r, Exists (λ s, src_len s = maxlen) (src0 :: srcs) ∧
    Forall (λ s, src_len s ≤ maxlen) (src0 :: srcs) ∧ bitop_compute be op src0 srcs = Some r ∧
    r = if maxlen =? 0 then None else Some (bitop_byte op src0 srcs <$> seq 0 (Z.to_nat maxlen)).
Proof.
  intros Hs0 Hs. unfold bitop_compute. destruct (lengths true (src0 :: srcs) 0 0) as [mn mx] eqn:E.
  apply lengths_spec in E as (H1 & H2 & H3 & H4). exists mx.
  assert (Forall (λ s, src_len s ≤ mx) (src0 :: srcs)) as Hle
    by (eapply Forall_impl; [exact H2|]; cbn; intros; lia).
  destruct (Z.eqb_spec mx 0) as [->|Hmx]; [by eexists|]. cbv zeta.
  set (init := replicate (Z.to_nat mx) 0).
  assert (∃ r1 j, (if (32 <=? mn) && (zlen (src0 :: srcs) <=? 16) then
      s ← src0; c ← load s 0 mn; res ← store init 0 c; fast_loop (S (Z.to_nat mn)) be op srcs 0 mn res
    else Some (init, 0)) = Some (r1, j) ∧ 0 ≤ j ≤ mx ∧ zlen r1 = mx ∧
    ∀ i, Z.of_nat i < j → r1 !! i = Some (bitop_byte op src0 srcs i)) as (r1 & j & -> & Hj & L1 & Hr1).
  { assert (zlen init = mx) as Li by (subst init; len).
    assert (bytes_ok init) as Bi by (subst init; by apply Forall_replicate). clearbody init.
    destruct ((32 <=? mn) && _) eqn:Hfast; [|exists init, 0; split; [done|]; split; [lia|]; split; [done|lia]].
    bool_tests. specialize (H3 ltac:(lia)). apply Forall_cons in H3 as [[s ->] H3].
    apply Forall_cons in H2 as [H2 H2']. cbn in H2. cbn [mbind option_bind].
    rewrite load_slice by lia. cbn [mbind option_bind]. rewrite drop_0. set (c := take (Z.to_nat mn) s).
    assert (zlen c = mn) as Lc by (subst c; len).
    destruct (store_updated init 0 c (λ i _, byte_of s i)) as (r0 & -> & U0); [lia|lia| |].
    { intros k d _ Hk. subst c. change (Z.to_nat 0 + k)%nat with k. rewrite lookup_take_lt by (unfold zlen in Lc; lia).
      unfold byte_of. destruct (lookup_lt_is_Some_2 s k) as [e ->]; [unfold zlen in *; rewrite length_take in *; lia|].
      done. }
    cbn [mbind option_bind]. assert (zlen r0 = mx) as L0 by (destruct U0 as [L _]; unfold zlen in *; lia).
    assert (bytes_ok r0) as B0.
    { eapply updated_bytes; [exact U0|done|]. intros. by apply byte_of_ok. }
    destruct (fast_loop_spec be op srcs (S (Z.to_nat mn)) 0 mn r0) as (r1 & j & -> & Hj & L1 & U1);
      [done| |done|lia|lia|lia|].
    { apply Forall_forall. intros x Hx. rewrite Forall_forall in H2', H3. destruct (H3 x Hx) as [b ->].
      exists b. split; [done|]. specialize (H2' _ Hx). cbn in H2'. lia. }
    exists r1, j. split; [done|]. split; [lia|]. split; [unfold zlen in *; lia|]. intros i Hi.
    destruct (lookup_lt_is_Some_2 init i) as [y Hy]; [unfold zlen in *; lia|].
    destruct U0 as [_ U0]. rewrite (U1 _ _ (U0 _ _ Hy)), !bool_decide_true by lia. done. }
  cbn [mbind option_bind].
  destruct (byte_loop_spec op src0 srcs mx (S (Z.to_nat mx)) j r1) as (r2 & -> & L2 & U2); [lia|lia|done|].
  cbn [mbind option_bind]. eexists. split; [done|]. split; [done|]. split; [done|]. f_equal.
  apply list_eq. intros i. rewrite list_lookup_fmap.
  destruct (decide (Z.of_nat i < mx)) as [Hi|Hi].
  - rewrite lookup_seq_lt by lia. cbn.
    destruct (lookup_lt_is_Some_2 r1 i) as [y Hy]; [unfold zlen in *; lia|]. rewrite (U2 _ _ Hy).
    case_bool_decide; [done|]. rewrite <- Hy. apply Hr1. lia.
  - rewrite lookup_ge_None_2 by (unfold zlen in *; lia). rewrite lookup_seq_ge by lia. done.
Qed.

(** ** Ranges of bytes *)

(** The convention for indexes: negative ones count from the end, and those
    before the start are 0. *)
Definition index (n i : Z) : Z := if i <? 0 then Z.max 0 (n + i) else i.

(** The bytes from index [st] to index [en], both included. *)
Definition slice (s : list Z) (st en : Z) : list Z :=
  let b := index (zlen s) st in
  take (Z.to_nat (index (zlen s) en + 1 - b)) (drop (Z.to_nat b) s).

Lemma clamp_range_spec (s : list Z) st en :
  let '(b, e) := clamp_range (zlen s) st en in
  b = index (zlen s) st ∧ 0 ≤ b ∧ e < zlen s ∧
  slice s st en = (if e <? b then [] else take (Z.to_nat (e - b + 1)) (drop (Z.to_nat b) s)) ∧
  (b ≤ e → zlen (slice s st en) = e - b + 1).
Proof.
  unfold clamp_range, slice, index. assert (0 ≤ zlen s) as Hn by (unfold zlen; lia). cbv zeta.
  set (b := if st <? 0 then Z.max 0 (zlen s + st) else st).
  set (e := if en <? 0 then Z.max 0 (zlen s + en) else en).
  assert ((if (if st <? 0 then zlen s + st else st) <? 0 then 0 else if st <? 0 then zlen s + st else st) = b) as ->.
  { subst b. destruct (Z.ltb_spec st 0);
      [destruct (Z.ltb_spec (zlen s + st) 0)|destruct (Z.ltb_spec st 0)]; lia. }
  assert ((if (if en <? 0 then zlen s + en else en) <? 0 then 0 else if en <? 0 then zlen s + en else en) = e) as ->.
  { subst e. destruct (Z.ltb_spec en 0);
      [destruct (Z.ltb_spec (zlen s + en) 0)|destruct (Z.ltb_spec en 0)]; lia. }
  assert (0 ≤ b ∧ 0 ≤ e) as [Hb He].
  { subst b e. destruct (Z.ltb_spec st 0), (Z.ltb_spec en 0); lia. }
  clearbody b e. split; [done|]. split; [done|].
  destruct (Z.leb_spec (zlen s) e) as [Hle|Hle].
  - split; [lia|]. assert (take (Z.to_nat (e + 1 - b)) (drop (Z.to_nat b) s) = drop (Z.to_nat b) s) as ->.
    { apply take_ge. unfold zlen in *. rewrite length_drop. lia. }
    split; [|intros; len]. destruct (Z.ltb_spec (zlen s - 1) b).
    + apply drop_ge. unfold zlen in *. lia.
    + rewrite take_ge; [done|]. unfold zlen in *. rewrite length_drop. lia.
  - split; [lia|]. replace (e + 1 - b) with (e - b + 1) by lia. split; [|intros; len].
    destruct (Z.ltb_spec e b); [|done]. replace (Z.to_nat (e - b + 1)) with 0%nat by lia. done.
Qed.

Definition opt_range (s : list Z) (range : option (Z * Z)) : Z * Z :=
  match range with Some r => r | None => (0, zlen s - 1) end.

Lemma whole_range (s : list Z) : 0 < zlen s → clamp_range (zlen s) 0 (zlen s - 1) = (0, zlen s - 1).
Proof.
  intros Hn. unfold clamp_range. cbn. destruct (Z.ltb_spec (zlen s - 1) 0); [lia|].
  destruct (Z.ltb_spec (zlen s - 1) 0); [lia|]. by destruct (Z.leb_spec (zlen s) (zlen s - 1)); [lia|].
Qed.

(** ** Theorems *)

(** BITCOUNT, and [redisPopcount] inside it: on a string at any address
    and on either byte order, the unaligned head, the 28 bytes at a time counted
    in parallel in 32-bit words and the tail add up to the number of bits set in
    the bytes of the range. *)
Theorem bitcount_correct be addr s range :
  bytes_ok s → 8 * zlen s < 2 ^ 64 →
  bitcount be addr s range =
    Some (popcount (slice s (opt_range s range).1 (opt_range s range).2)).
Proof.
  intros Hb Hl. unfold bitcount.
  assert (∀ st en b e, clamp_range (zlen s) st en = (b, e) →
    (if e <? b then Some 0 else redisPopcount be (u64 (addr + b)) (drop (Z.to_nat b) s) (e - b + 1)) =
    Some (popcount (slice s st en))) as Hgen.
  { intros st en b e Hc. pose proof (clamp_range_spec s st en) as HP. rewrite Hc in HP.
    destruct HP as (_ & Hb0 & He & -> & _). destruct (Z.ltb_spec e b); [done|].
    assert (zlen (drop (Z.to_nat b) s) = zlen s - b) as Ld by len.
    rewrite redisPopcount_spec; [done|by apply Forall_drop|apply wrapu_range; lia|lia|lia]. }
  destruct range as [[st en]|]; cbn [opt_range fst snd].
  - destruct (clamp_range (zlen s) st en) as [b e] eqn:Hc. by apply Hgen.
  - destruct (Z.ltb_spec 0 (zlen s)) as [Hn|Hn].
    + by apply Hgen, whole_range.
    + destruct s as [|c s]; [|exfalso; revert Hn; len]. done.
Qed.

(** BITPOS, and [redisBitpos] inside it: the result is the position in the
    string of the first bit of the range equal to [bit].  When there is none it
    is -1, except that a search for a clear bit without an end continues in the
    zeros after a non-empty range.  The final panic is never reached. *)
Theorem bitpos_correct be addr s bit st en :
  bytes_ok s →
  let t := slice s st (default (zlen s - 1) en) in
  let base := 8 * index (zlen s) st in
  ∃ r, bitpos be addr s bit (Some (st, en)) = Some r ∧
    ((∃ k, 0 ≤ k < 8 * zlen t ∧ bit_at t k = bit ∧ (∀ i, 0 ≤ i < k → bit_at t i = negb bit) ∧ r = base + k) ∨
     ((∀ i, 0 ≤ i < 8 * zlen t → bit_at t i = negb bit) ∧
      r = if negb bit && bool_decide (en = None) && (0 <? zlen t) then base + 8 * zlen t else -1)).
Proof.
  intros Hb t base. set (e0 := default (zlen s - 1) en).
  assert (bitpos be addr s bit (Some (st, en)) =
    (let '(b, e) := clamp_range (zlen s) st e0 in
     if e <? b then Some (-1) else
     pos ← redisBitpos be (u64 (addr + b)) (take (Z.to_nat (e - b + 1)) (drop (Z.to_nat b) s)) bit;
     if bool_decide (is_Some en) && negb bit && (pos =? (e - b + 1) * 8) then Some (-1) else
     Some (if pos =? -1 then pos else pos + b * 8))) as ->.
  { subst e0. unfold bitpos. destruct en; cbn [default]; by destruct (clamp_range _ _ _). }
  pose proof (clamp_range_spec s st e0) as HP. destruct (clamp_range (zlen s) st e0) as [b e].
  destruct HP as (Eb & Hb0 & He & Et & Lt). change (slice s st e0) with t in Et, Lt. subst base.
  clearbody t. rewrite <- Eb.
  destruct (Z.ltb_spec e b) as [Hlt|Hge].
  { exists (-1). split; [done|]. right. subst t. change (zlen []) with 0.
    split; [intros; lia|]. by rewrite andb_false_r. }
  rewrite <- Et. specialize (Lt Hge).
  assert (bytes_ok t) as Htb by (rewrite Et; by apply Forall_take, Forall_drop).
  destruct (redisBitpos_spec be (u64 (addr + b)) t bit Htb) as (r & -> & Hr); [apply wrapu_range; lia|].
  cbn [mbind option_bind]. destruct Hr as [(Hr0 & Hrb & Hrn)|(-> & -> & Hnone)].
  - destruct (Z.eqb_spec r (-1)); [lia|]. destruct (decide (r < 8 * zlen t)) as [Hin|Hout].
    + eexists. split.
      { destruct (Z.eqb_spec r ((e - b + 1) * 8)); [lia|]. by rewrite andb_false_r. }
      left. exists r. split; [lia|]. split; [done|]. split; [done|lia].
    + destruct bit.
      { exfalso. apply Hout. by apply bit_at_in. }
      assert (r = 8 * zlen t) as ->.
      { destruct (decide (r = 8 * zlen t)) as [|Hne]; [done|]. exfalso.
        assert (bit_at t (8 * zlen t) = true) as E by (apply Hrn; lia).
        apply bit_at_in in E; lia. }
      destruct (Z.eqb_spec (8 * zlen t) ((e - b + 1) * 8)); [|lia]. rewrite andb_true_r. cbn [negb].
      destruct (Z.ltb_spec 0 (zlen t)); [|lia].
      destruct en as [en|]; cbn [default].
      * rewrite bool_decide_true by eauto. exists (-1). split; [done|]. right. split; [done|]. done.
      * rewrite bool_decide_false by by intros [? ?]. eexists. split; [done|]. right. split; [done|].
        rewrite bool_decide_true by done. cbn. lia.
  - rewrite andb_false_r. cbn [andb]. eexists. split; [done|]. right. split; [|done]. intros i Hi. apply Hnone. lia.
Qed.

(** BITOP: whatever the number and the lengths of the source strings, with
    keys that do not exist among them, the copy and the four words at a time of
    the fast path followed by the byte loop give the operation byte by byte on
    the sources padded with zeros to the longest one; the result is absent when
    all sources are empty. *)
Theorem bitop_correct be op src0 srcs :
  src_ok src0 → Forall src_ok srcs →
  ∃ maxlen, Exists (λ s, src_len s = maxlen) (src0 :: srcs) ∧
    Forall (λ s, src_len s ≤ maxlen) (src0 :: srcs) ∧
    bitop_compute be op src0 srcs =
      Some (if maxlen =? 0 then None else Some (bitop_byte op src0 srcs <$> seq 0 (Z.to_nat maxlen))).
Proof.
  intros H0 Hs. destruct (bitop_compute_spec be op src0 srcs H0 Hs) as (maxlen & r & H1 & H2 & H3 & ->). eauto.
Qed.

(** SETBIT and GETBIT make a string an array of bits: SETBIT returns the
    old bit, changes that bit and no other, and grows the string to the byte of
    the bit with zeros; GETBIT reads the bit, 0 past the end. *)
Theorem setbit_getbit_correct s off on :
  bytes_ok s → bit_offset_ok off = true → (on = 0 ∨ on = 1) →
  ∃ s', setbit s off on = Some (s', bit_at s off) ∧ bytes_ok s' ∧
    zlen s' = Z.max (zlen s) (off / 8 + 1) ∧
    ∀ i, 0 ≤ i → getbit s' i = Some (if i =? off then on =? 1 else bit_at s i).
Proof.
  intros Hb Ho Hon. assert (0 ≤ off) as H0.
  { unfold bit_offset_ok in Ho. destruct (Z.ltb_spec off 0); [done|lia]. }
  destruct (setbit_spec s off on Hb H0 Hon) as (s' & E & Hb' & Hl & Hbit). exists s'.
  split_and!; try done. intros i Hi. by rewrite getbit_spec, Hbit.
Qed.

(** Witnesses. *)
Definition bits40 : list Z := replicate 40 255 ++ [15; 0; 240].

Lemma bitcount_correct_witness :
  bitcount true 3 bits40 (Some (1, -2)) = Some (popcount (slice bits40 1 (-2))) ∧
  popcount (slice bits40 1 (-2)) = 316.
Proof.
  split; [|by vm_compute]. apply (bitcount_correct true 3 bits40 (Some (1, -2))); by_decision.
Defined.

Lemma bitpos_correct_witness :
  let t := slice bits40 1 (zlen bits40 - 1) in
  let base := 8 * index (zlen bits40) 1 in
  ∃ r, bitpos false 3 bits40 false (Some (1, None)) = Some r ∧
    ((∃ k, 0 ≤ k < 8 * zlen t ∧ bit_at t k = false ∧ (∀ i, 0 ≤ i < k → bit_at t i = negb false) ∧ r = base + k) ∨
     ((∀ i, 0 ≤ i < 8 * zlen t → bit_at t i = negb false) ∧
      r = if negb false && bool_decide (@None Z = None) && (0 <? zlen t) then base + 8 * zlen t else -1)).
Proof. apply (bitpos_correct false 3 bits40 false 1 None). by_decision. Defined.

Lemma bitop_correct_witness :
  ∃ maxlen, Exists (λ s, src_len s = maxlen) [Some bits40; Some (str "abc"); None] ∧
    Forall (λ s, src_len s ≤ maxlen) [Some bits40; Some (str "abc"); None] ∧
    bitop_compute false BITOP_XOR (Some bits40) [Some (str "abc"); None] =
      Some (if maxlen =? 0 then None
            else Some (bitop_byte BITOP_XOR (Some bits40) [Some (str "abc"); None] <$> seq 0 (Z.to_nat maxlen))).
Proof.
  apply (bitop_correct false BITOP_XOR (Some bits40) [Some (str "abc"); None]); [cbn; by_decision|].
  apply Forall_cons_2; [cbn; by_decision|]. apply Forall_cons_2; [done|]. apply Forall_nil_2.
Defined.

Lemma setbit_getbit_correct_witness :
  ∃ s', setbit (str "a") 17 1 = Some (s', false) ∧ bytes_ok s' ∧ zlen s' = 3 ∧
    ∀ i, 0 ≤ i → getbit s' i = Some (if i =? 17 then 1 =? 1 else bit_at (str "a") i).
Proof. apply (setbit_getbit_correct (str "a") 17 1); [by_decision|done|by right]. Defined.
