(* ===== verification/Zipmap.v ===== *)
(** * Zipmap: string to string maps in one block of bytes (redis-3.0.0/src/zipmap.c)

    A zipmap is its block of memory; a pointer into it is an offset.  Lengths
    are [unsigned int] and stored in little endian order by [memrev32ifbe];
    [be] is the byte order of the host and [junk] gives the indeterminate bytes
    of a reallocation.  [None]: an access outside of the block. *)

From S2P Require Import Prelude Endian.

Definition ZIPMAP_BIGLEN : Z := 254.
Definition ZIPMAP_END : Z := 255.
Definition ZIPMAP_VALUE_MAX_FREE : Z := 4.
Definition ZIPMAP_LEN_BYTES (l : Z) : Z := if l <? ZIPMAP_BIGLEN then 1 else 5.

Definition zipmapNew : list Z := [0; ZIPMAP_END].

Section zipmap.
Context (be : host) (junk : nat → Z).

Definition zipmapDecodeLength (zm : list Z) (p : Z) : option Z :=
  len ← get8 zm p;
  if len <? ZIPMAP_BIGLEN then Some len else
  bs ← load zm (p + 1) 4; bs ← memrev32ifbe be bs; Some (of_mem be bs).

(** With [p == NULL]: the number of bytes. *)
Definition zipmapEncodeLength_size (len : Z) : Z := ZIPMAP_LEN_BYTES len.

Definition zipmapEncodeLength (zm : list Z) (p len : Z) : option (list Z * Z) :=
  if len <? ZIPMAP_BIGLEN then zm ← put8 zm p len; Some (zm, 1) else
  zm ← put8 zm p ZIPMAP_BIGLEN;
  zm ← store zm (p + 1) (to_mem be 4 len);
  bs ← load zm (p + 1) 4; bs ← memrev32ifbe be bs; zm ← store zm (p + 1) bs;
  Some (zm, 5).

(** [key != NULL && k == NULL && l == klen && !memcmp(p+llen,key,l)] *)
Definition key_hit (zm : list Z) (key : option (list Z)) (k : option Z) (p l llen : Z) : option bool :=
  match key, k with
  | Some key, None =>
      if l =? u32 (zlen key) then bs ← load zm (p + llen) l; Some (bool_decide (bs = key))
      else Some false
  | _, _ => Some false
  end.

(** [while( *p != ZIPMAP_END)]: the key found, if any, and the offset of the end.
    [totlen]: does the caller ask for the total length? *)
Fixpoint lookup_loop (fuel : nat) (zm : list Z) (key : option (list Z)) (totlen : bool)
    (k : option Z) (p : Z) : option (option Z * Z) :=
  match fuel with
  | O => None
  | S fuel =>
      c ← get8 zm p;
      if c =? ZIPMAP_END then Some (k, p) else
      l ← zipmapDecodeLength zm p;
      let llen := zipmapEncodeLength_size l in
      hit ← key_hit zm key k p l llen;
      if (hit : bool) && negb totlen then Some (Some p, p) else
      let k := if (hit : bool) then Some p else k in
      let p := p + llen + l in
      l ← zipmapDecodeLength zm p;
      let p := p + zipmapEncodeLength_size l in
      free ← get8 zm p;
      lookup_loop fuel zm key totlen k (p + l + 1 + free)
  end.

(** The offset of the entry of the key, and the total length. *)
Definition zipmapLookupRaw (zm : list Z) (key : option (list Z)) (totlen : bool) : option (option Z * Z) :=
  '(k, p) ← lookup_loop (S (length zm)) zm key totlen None 1;
  Some (k, u32 (p + 1)).

Definition zipmapRequiredLength (klen vlen : Z) : Z :=
  let l := u32 (klen + vlen + 3) in
  let l := if ZIPMAP_BIGLEN <=? klen then u32 (l + 4) else l in
  if ZIPMAP_BIGLEN <=? vlen then u32 (l + 4) else l.

Definition zipmapRawKeyLength (zm : list Z) (p : Z) : option Z :=
  l ← zipmapDecodeLength zm p; Some (u32 (zipmapEncodeLength_size l + l)).

Definition zipmapRawValueLength (zm : list Z) (p : Z) : option Z :=
  l ← zipmapDecodeLength zm p;
  let used := zipmapEncodeLength_size l in
  free ← get8 zm (p + used);
  Some (u32 (used + (free + 1 + l))).

Definition zipmapRawEntryLength (zm : list Z) (p : Z) : option Z :=
  l ← zipmapRawKeyLength zm p; v ← zipmapRawValueLength zm (p + l); Some (u32 (l + v)).

Definition zipmapResize (zm : list Z) (len : Z) : option (list Z) :=
  put8 (realloc junk zm len) (len - 1) ZIPMAP_END.

(** The last lines of [zipmapSet]: write the entry at [p]. *)
Definition write_entry (zm : list Z) (p : Z) (key val : list Z) (vempty : Z) : option (list Z) :=
  '(zm, n) ← zipmapEncodeLength zm p (zlen key);
  let p := p + n in
  zm ← store zm p key;
  let p := p + zlen key in
  '(zm, n) ← zipmapEncodeLength zm p (zlen val);
  let p := p + n in
  zm ← put8 zm p vempty;
  store zm (p + 1) val.

(** The zipmap and [*update]. *)
Definition zipmapSet (zm key val : list Z) : option (list Z * bool) :=
  let reqlen := zipmapRequiredLength (zlen key) (zlen val) in
  '(p, zmlen) ← zipmapLookupRaw zm (Some key) true;
  match p with
  | None =>
      zm ← zipmapResize zm (u32 (zmlen + reqlen));
      let p := zmlen - 1 in
      n ← get8 zm 0;
      zm ← (if n <? ZIPMAP_BIGLEN then put8 zm 0 (n + 1) else Some zm);
      (* freelen = reqlen: no free space *)
      zm ← write_entry zm p key val 0;
      Some (zm, false)
  | Some p =>
      freelen ← zipmapRawEntryLength zm p;
      '(zm, zmlen, freelen) ←
        (if freelen <? reqlen then
           zm ← zipmapResize zm (u32 (u32 (zmlen - freelen) + reqlen));
           zm ← memmove zm (p + reqlen) (p + freelen) (u32 (zmlen - u32 (p + freelen + 1)));
           Some (zm, u32 (u32 (zmlen - freelen) + reqlen), reqlen)
         else Some (zm, zmlen, freelen));
      let empty := u32 (freelen - reqlen) in
      '(zm, vempty) ←
        (if ZIPMAP_VALUE_MAX_FREE <=? empty then
           zm ← memmove zm (p + reqlen) (p + freelen) (u32 (zmlen - u32 (p + freelen + 1)));
           zm ← zipmapResize zm (u32 (zmlen - empty));
           Some (zm, 0)
         else Some (zm, empty));
      zm ← write_entry zm p key val vempty;
      Some (zm, true)
  end.

(** The zipmap and [*deleted]. *)
Definition zipmapDel (zm key : list Z) : option (list Z * bool) :=
  '(p, zmlen) ← zipmapLookupRaw zm (Some key) true;
  match p with
  | Some p =>
      freelen ← zipmapRawEntryLength zm p;
      zm ← memmove zm p (p + freelen) (zmlen - (p + freelen + 1));
      zm ← zipmapResize zm (u32 (zmlen - freelen));
      n ← get8 zm 0;
      zm ← (if n <? ZIPMAP_BIGLEN then put8 zm 0 (n - 1) else Some zm);
      Some (zm, true)
  | None => Some (zm, false)
  end.

Definition zipmapRewind : Z := 1.

(** The next position, with the key and the value of the entry at [p]. *)
Definition zipmapNext (zm : list Z) (p : Z) : option (option (Z * list Z * list Z)) :=
  c ← get8 zm p;
  if c =? ZIPMAP_END then Some None else
  klen ← zipmapDecodeLength zm p;
  key ← load zm (p + ZIPMAP_LEN_BYTES klen) klen;
  n ← zipmapRawKeyLength zm p;
  let p := p + n in
  vlen ← zipmapDecodeLength zm p;
  value ← load zm (p + 1 + ZIPMAP_LEN_BYTES vlen) vlen;
  n ← zipmapRawValueLength zm p;
  Some (Some (p + n, key, value)).

Definition zipmapGet (zm key : list Z) : option (option (list Z)) :=
  '(p, _) ← zipmapLookupRaw zm (Some key) false;
  match p with
  | None => Some None
  | Some p =>
      n ← zipmapRawKeyLength zm p;
      let p := p + n in
      vlen ← zipmapDecodeLength zm p;
      v ← load zm (p + ZIPMAP_LEN_BYTES vlen + 1) vlen;
      Some (Some v)
  end.

Definition zipmapExists (zm key : list Z) : option bool :=
  '(p, _) ← zipmapLookupRaw zm (Some key) false; Some (bool_decide (is_Some p)).

(** [while((p = zipmapNext(p,NULL,NULL,NULL,NULL)) != NULL) len++] *)
Fixpoint count_loop (fuel : nat) (zm : list Z) (p len : Z) : option Z :=
  match fuel with
  | O => None
  | S fuel =>
      c ← get8 zm p;
      if c =? ZIPMAP_END then Some len else
      n ← zipmapRawKeyLength zm p;
      v ← zipmapRawValueLength zm (p + n);
      count_loop fuel zm (p + n + v) (u32 (len + 1))
  end.

(** The length; the count is stored back when it fits. *)
Definition zipmapLen (zm : list Z) : option (list Z * Z) :=
  n ← get8 zm 0;
  if n <? ZIPMAP_BIGLEN then Some (zm, n) else
  len ← count_loop (S (length zm)) zm zipmapRewind 0;
  zm ← (if len <? ZIPMAP_BIGLEN then put8 zm 0 len else Some zm);
  Some (zm, len).

Definition zipmapBlobLen (zm : list Z) : option Z :=
  '(_, totlen) ← zipmapLookupRaw zm None true; Some totlen.

End zipmap.

(** ** The layout *)

Record entry := mkE { e_key : list Z; e_val : list Z; e_free : list Z }.

Definition enc_len (l : Z) : list Z := if l <? 254 then [l] else 254 :: Z_to_little_endian 4 8 l.
Definition enc (e : entry) : list Z :=
  enc_len (zlen (e_key e)) ++ e_key e ++ enc_len (zlen (e_val e)) ++ [zlen (e_free e)] ++ e_val e ++ e_free e.
Definition encs (es : list entry) : list Z := es ≫= enc.

(** [zm] holds the entries [es], with the count [n] in its first byte. *)
Record rep (zm : list Z) (n : Z) (es : list entry) : Prop := {
  rep_eq : zm = n :: encs es ++ [255];
  rep_count : 0 ≤ n ≤ 254 ∧ (n < 254 → n = zlen es);
  rep_keys : NoDup (e_key <$> es);
  rep_free : Forall (λ e, zlen (e_free e) < 4) es;
  rep_size : zlen zm < 2 ^ 32
}.

Lemma zlen_enc_len l : zlen (enc_len l) = ZIPMAP_LEN_BYTES l.
Proof.
  unfold enc_len, ZIPMAP_LEN_BYTES, ZIPMAP_BIGLEN. destruct (l <? 254); [done|].
  unfold zlen. cbn [length]. pose proof (length_Z_to_little_endian 4 8 l ltac:(lia)). lia.
Qed.

Lemma len_bytes_pos l : 1 ≤ ZIPMAP_LEN_BYTES l ≤ 5.
Proof. unfold ZIPMAP_LEN_BYTES. case_if; lia. Qed.

Lemma zlen_enc e :
  zlen (enc e) = ZIPMAP_LEN_BYTES (zlen (e_key e)) + zlen (e_key e) +
    (ZIPMAP_LEN_BYTES (zlen (e_val e)) + (zlen (e_free e) + 1 + zlen (e_val e))).
Proof.
  unfold enc. rewrite <- !zlen_enc_len. unfold zlen. rewrite !length_app. cbn [length]. lia.
Qed.

Lemma enc_min e : 3 ≤ zlen (enc e).
Proof.
  rewrite zlen_enc. pose proof (len_bytes_pos (zlen (e_key e))). pose proof (len_bytes_pos (zlen (e_val e))).
  pose proof (zlen_nonneg (e_key e)). pose proof (zlen_nonneg (e_val e)). pose proof (zlen_nonneg (e_free e)). lia.
Qed.

Section layout.
Context (be : host).

Lemma decode_spec A l B p :
  p = zlen A → in_u 32 l → zipmapDecodeLength be (A ++ enc_len l ++ B) p = Some l.
Proof.
  intros -> Hl. unfold zipmapDecodeLength, enc_len, ZIPMAP_BIGLEN.
  destruct (Z.ltb_spec l 254) as [Hs|Hs]; cbn [app]; rewrite get8_app by done; cbn [mbind option_bind].
  - by destruct (Z.ltb_spec l 254); [|lia].
  - destruct (le4 be l Hl) as (bs & _ & Hm & Hof & _).
    pose proof (length_Z_to_little_endian 4 8 l ltac:(lia)) as L.
    change (254 <? 254) with false. cbv iota.
    change (A ++ 254 :: Z_to_little_endian 4 8 l ++ B) with (A ++ [254] ++ Z_to_little_endian 4 8 l ++ B).
    rewrite app_assoc, load_app by (rewrite ?zlen_app; unfold zlen; cbn; lia).
    cbn [mbind option_bind]. rewrite Hm. cbn [mbind option_bind]. by rewrite Hof.
Qed.

(** Encoding over [R], which is as long. *)
Lemma encode_spec A R B l p :
  p = zlen A → in_u 32 l → zlen R = ZIPMAP_LEN_BYTES l →
  zipmapEncodeLength be (A ++ R ++ B) p l = Some (A ++ enc_len l ++ B, ZIPMAP_LEN_BYTES l).
Proof.
  intros -> Hl. unfold zipmapEncodeLength, enc_len, ZIPMAP_LEN_BYTES, ZIPMAP_BIGLEN. intros HR.
  destruct (Z.ltb_spec l 254) as [Hs|Hs]; (destruct R as [|x R]; [done|]); cbn [app].
  - assert (R = []) as -> by (destruct R; [done|]; revert HR; len).
    rewrite put8_app; [done|done|]. unfold in_u in Hl. split; lia.
  - rewrite put8_app by done. cbn [mbind option_bind].
    destruct (le4 be l Hl) as (bs & Hm & _ & _ & Lm).
    pose proof (length_Z_to_little_endian 4 8 l ltac:(lia)) as L.
    assert (length R = 4%nat) as HR4 by (revert HR; len).
    change (A ++ 254 :: R ++ B) with (A ++ [254] ++ R ++ B).
    rewrite app_assoc, store_app by (rewrite ?zlen_app; unfold zlen; cbn; lia). cbn [mbind option_bind].
    rewrite load_app by (rewrite ?zlen_app; unfold zlen; cbn; lia). cbn [mbind option_bind]. rewrite Hm.
    cbn [mbind option_bind]. rewrite store_app by (rewrite ?zlen_app; unfold zlen; cbn; lia).
    cbn [mbind option_bind]. by rewrite <- app_assoc.
Qed.

Lemma enc_first e B : ∃ c R, enc e ++ B = c :: R ∧ c ≠ 255.
Proof.
  unfold enc, enc_len. destruct (Z.ltb_spec (zlen (e_key e)) 254); cbn [app];
    eexists _, _; (split; [done|]); [lia|done].
Qed.

(** Reading the parts of the entry at [p]. *)
Definition after_key (e : entry) : Z := ZIPMAP_LEN_BYTES (zlen (e_key e)) + zlen (e_key e).
Definition val_part (e : entry) : list Z :=
  enc_len (zlen (e_val e)) ++ [zlen (e_free e)] ++ e_val e ++ e_free e.

Lemma enc_split e : enc e = (enc_len (zlen (e_key e)) ++ e_key e) ++ val_part e.
Proof. unfold enc, val_part. by rewrite <- !app_assoc. Qed.

Lemma zlen_key_part e : zlen (enc_len (zlen (e_key e)) ++ e_key e) = after_key e.
Proof. by rewrite zlen_app, zlen_enc_len. Qed.

Lemma entry_bounds A e B :
  zlen (A ++ enc e ++ B) < 2 ^ 32 →
  in_u 32 (zlen (e_key e)) ∧ in_u 32 (zlen (e_val e)) ∧ in_u 32 (zlen (enc e)) ∧
  zlen A + zlen (enc e) + zlen B < 2 ^ 32 ∧ in_u 32 (after_key e).
Proof.
  rewrite !zlen_app, zlen_enc. intros Hs. pose proof (len_bytes_pos (zlen (e_key e))).
  pose proof (len_bytes_pos (zlen (e_val e))). pose proof (zlen_nonneg (e_key e)).
  pose proof (zlen_nonneg (e_val e)). pose proof (zlen_nonneg (e_free e)).
  pose proof (zlen_nonneg A). pose proof (zlen_nonneg B). unfold in_u, after_key. lia.
Qed.

Lemma decode_key A e B p :
  p = zlen A → zlen (A ++ enc e ++ B) < 2 ^ 32 →
  zipmapDecodeLength be (A ++ enc e ++ B) p = Some (zlen (e_key e)).
Proof.
  intros Hp Hs. destruct (entry_bounds A e B Hs) as (Hk & _). unfold enc. rewrite <- app_assoc.
  by apply decode_spec.
Qed.

Lemma load_key A e B p :
  p = zlen A → load (A ++ enc e ++ B) (p + ZIPMAP_LEN_BYTES (zlen (e_key e))) (zlen (e_key e)) = Some (e_key e).
Proof.
  intros ->. unfold enc. rewrite <- !app_assoc, app_assoc. apply load_app; [|done].
  by rewrite zlen_app, zlen_enc_len.
Qed.

Lemma val_shape A e B : ∃ A', A ++ enc e ++ B = A' ++ val_part e ++ B ∧ zlen A' = zlen A + after_key e.
Proof.
  exists (A ++ enc_len (zlen (e_key e)) ++ e_key e). split; [rewrite enc_split; by rewrite <- !app_assoc|].
  by rewrite zlen_app, zlen_key_part.
Qed.

Lemma decode_val A e B p :
  p = zlen A + after_key e → zlen (A ++ enc e ++ B) < 2 ^ 32 →
  zipmapDecodeLength be (A ++ enc e ++ B) p = Some (zlen (e_val e)).
Proof.
  intros Hp Hs. destruct (entry_bounds A e B Hs) as (_ & Hv & _).
  destruct (val_shape A e B) as (A' & -> & HA'). unfold val_part. rewrite <- app_assoc.
  apply decode_spec; [lia|done].
Qed.

Lemma free_byte A e B p :
  p = zlen A + after_key e + ZIPMAP_LEN_BYTES (zlen (e_val e)) →
  get8 (A ++ enc e ++ B) p = Some (zlen (e_free e)).
Proof.
  intros Hp. destruct (val_shape A e B) as (A' & -> & HA'). unfold val_part.
  rewrite <- !app_assoc, app_assoc. apply get8_app. rewrite zlen_app, zlen_enc_len. lia.
Qed.

Lemma load_val A e B p :
  p = zlen A + after_key e + ZIPMAP_LEN_BYTES (zlen (e_val e)) + 1 →
  load (A ++ enc e ++ B) p (zlen (e_val e)) = Some (e_val e).
Proof.
  intros Hp. destruct (val_shape A e B) as (A' & -> & HA'). unfold val_part.
  rewrite <- !app_assoc, (app_assoc (enc_len _)), app_assoc. apply load_app; [|done].
  rewrite !zlen_app, zlen_enc_len. change (zlen [zlen (e_free e)]) with 1. lia.
Qed.

Lemma raw_key_length A e B p :
  p = zlen A → zlen (A ++ enc e ++ B) < 2 ^ 32 →
  zipmapRawKeyLength be (A ++ enc e ++ B) p = Some (after_key e).
Proof.
  intros Hp Hs. destruct (entry_bounds A e B Hs) as (_ & _ & _ & _ & Hk). unfold zipmapRawKeyLength.
  rewrite decode_key by done. cbn [mbind option_bind]. f_equal. by apply wrapu_small.
Qed.

Lemma raw_value_length A e B p :
  p = zlen A + after_key e → zlen (A ++ enc e ++ B) < 2 ^ 32 →
  zipmapRawValueLength be (A ++ enc e ++ B) p = Some (zlen (enc e) - after_key e).
Proof.
  intros Hp Hs. destruct (entry_bounds A e B Hs) as (_ & _ & He & _ & Hk). unfold zipmapRawValueLength.
  rewrite decode_val by done. cbn [mbind option_bind]. unfold zipmapEncodeLength_size.
  rewrite free_byte by lia. cbn [mbind option_bind]. f_equal. rewrite zlen_enc in *. unfold after_key in *.
  rewrite wrapu_small; [lia|]. pose proof (len_bytes_pos (zlen (e_val e))). pose proof (zlen_nonneg (e_val e)).
  pose proof (zlen_nonneg (e_free e)). unfold in_u in *. lia.
Qed.

Lemma raw_entry_length A e B p :
  p = zlen A → zlen (A ++ enc e ++ B) < 2 ^ 32 →
  zipmapRawEntryLength be (A ++ enc e ++ B) p = Some (zlen (enc e)).
Proof.
  intros Hp Hs. destruct (entry_bounds A e B Hs) as (_ & _ & He & _ & Hk). unfold zipmapRawEntryLength.
  rewrite raw_key_length by done. cbn [mbind option_bind]. rewrite raw_value_length by (done || lia).
  cbn [mbind option_bind]. f_equal. rewrite wrapu_small; [lia|]. unfold in_u in *. lia.
Qed.

(** The search: the first entry with the key. *)
Fixpoint find_key (es : list entry) (key : list Z) (p : Z) : option Z :=
  match es with
  | [] => None
  | e :: es => if bool_decide (e_key e = key) then Some p else find_key es key (p + zlen (enc e))
  end.

Lemma encs_cons e es : encs (e :: es) = enc e ++ encs es.
Proof. done. Qed.

Definition hit_of (key : option (list Z)) (k : option Z) (e : entry) : bool :=
  match key, k with Some key, None => bool_decide (e_key e = key) | _, _ => false end.

Lemma hit_spec A e B key k p :
  p = zlen A → zlen (A ++ enc e ++ B) < 2 ^ 32 → (∀ key', key = Some key' → in_u 32 (zlen key')) →
  key_hit (A ++ enc e ++ B) key k p (zlen (e_key e)) (ZIPMAP_LEN_BYTES (zlen (e_key e))) = Some (hit_of key k e).
Proof.
  intros Hp Hs Hkey. unfold hit_of, key_hit. destruct key as [key|], k; try done.
  rewrite wrapu_small by by apply Hkey. destruct (Z.eqb_spec (zlen (e_key e)) (zlen key)) as [E|E].
  - by rewrite load_key.
  - rewrite bool_decide_false; [done|]. intros Ek. apply E. by rewrite Ek.
Qed.

Lemma lookup_loop_tot es key : ∀ fuel A k p,
  (∀ key', key = Some key' → in_u 32 (zlen key')) →
  p = zlen A → zlen (A ++ encs es ++ [255]) < 2 ^ 32 → (length (encs es) < fuel)%nat →
  lookup_loop be fuel (A ++ encs es ++ [255]) key true k p =
    Some (match k, key with
          | Some _, _ => k
          | None, Some key => find_key es key p
          | None, None => None
          end, p + zlen (encs es)).
Proof.
  induction es as [|e es IH]; intros fuel A k p Hkey Hp Hs Hf; (destruct fuel as [|fuel]; [lia|]); cbn [lookup_loop].
  { cbn [encs mbind list_bind app]. rewrite get8_app by done. cbn [mbind option_bind Z.eqb].
    change (255 =? ZIPMAP_END) with true. cbv iota. f_equal. f_equal; [by destruct k, key|]. unfold zlen. cbn. lia. }
  rewrite encs_cons in *. rewrite <- !app_assoc in *.
  destruct (enc_first e (encs es ++ [255])) as (c & R & Ec & Hc).
  assert (get8 (A ++ enc e ++ encs es ++ [255]) p = Some c) as -> by (rewrite Ec; by apply get8_app).
  cbn [mbind option_bind]. destruct (Z.eqb_spec c ZIPMAP_END); [done|].
  rewrite decode_key by done. cbn [mbind option_bind]. unfold zipmapEncodeLength_size.
  rewrite hit_spec by done. cbn [mbind option_bind]. rewrite andb_false_r.
  replace (p + ZIPMAP_LEN_BYTES (zlen (e_key e)) + zlen (e_key e)) with (p + after_key e)
    by (unfold after_key; lia).
  rewrite decode_val by (done || lia). cbn [mbind option_bind]. rewrite free_byte by lia. cbn [mbind option_bind].
  replace (p + after_key e + ZIPMAP_LEN_BYTES (zlen (e_val e)) + zlen (e_val e) + 1 + zlen (e_free e))
    with (p + zlen (enc e)) by (rewrite zlen_enc; unfold after_key; lia).
  rewrite (app_assoc A). rewrite IH; [|done|rewrite zlen_app; lia|by rewrite <- !app_assoc|].
  - f_equal. f_equal; [|rewrite zlen_app; lia]. unfold hit_of.
    destruct k, key; try done. cbn [find_key]. by case_bool_decide.
  - rewrite length_app in Hf. pose proof (len_bytes_pos (zlen (e_key e))). pose proof (zlen_enc e).
    pose proof (len_bytes_pos (zlen (e_val e))). unfold zlen in *. lia.
Qed.

Lemma lookup_loop_find es key : ∀ fuel A p,
  in_u 32 (zlen key) →
  p = zlen A → zlen (A ++ encs es ++ [255]) < 2 ^ 32 → (length (encs es) < fuel)%nat →
  fst <$> lookup_loop be fuel (A ++ encs es ++ [255]) (Some key) false None p = Some (find_key es key p).
Proof.
  induction es as [|e es IH]; intros fuel A p Hkey Hp Hs Hf; (destruct fuel as [|fuel]; [lia|]); cbn [lookup_loop].
  { cbn [encs mbind list_bind app]. by rewrite get8_app. }
  rewrite encs_cons in *. rewrite <- !app_assoc in *.
  destruct (enc_first e (encs es ++ [255])) as (c & R & Ec & Hc).
  assert (get8 (A ++ enc e ++ encs es ++ [255]) p = Some c) as -> by (rewrite Ec; by apply get8_app).
  cbn [mbind option_bind]. destruct (Z.eqb_spec c ZIPMAP_END); [done|].
  rewrite decode_key by done. cbn [mbind option_bind]. unfold zipmapEncodeLength_size.
  rewrite (hit_spec A e _ (Some key) None) by (done || by intros ? [= <-]). cbn [mbind option_bind hit_of negb].
  rewrite andb_true_r. cbn [find_key]. case_bool_decide as Hk; [done|].
  replace (p + ZIPMAP_LEN_BYTES (zlen (e_key e)) + zlen (e_key e)) with (p + after_key e)
    by (unfold after_key; lia).
  rewrite decode_val by (done || lia). cbn [mbind option_bind]. rewrite free_byte by lia. cbn [mbind option_bind].
  replace (p + after_key e + ZIPMAP_LEN_BYTES (zlen (e_val e)) + zlen (e_val e) + 1 + zlen (e_free e))
    with (p + zlen (enc e)) by (rewrite zlen_enc; unfold after_key; lia).
  rewrite (app_assoc A). apply IH; [done|rewrite zlen_app; lia|by rewrite <- !app_assoc|].
  rewrite length_app in Hf. pose proof (len_bytes_pos (zlen (e_key e))). pose proof (zlen_enc e).
  pose proof (len_bytes_pos (zlen (e_val e))). unfold zlen in *. lia.
Qed.

(** Where the key is. *)
Lemma find_key_spec es key : ∀ p,
  match find_key es key p with
  | Some q => ∃ es1 e es2, es = es1 ++ e :: es2 ∧ e_key e = key ∧ q = p + zlen (encs es1)
  | None => key ∉ e_key <$> es
  end.
Proof.
  induction es as [|e es IH]; intros p; cbn [find_key]; [apply not_elem_of_nil|].
  case_bool_decide as Hk.
  - exists [], e, es. split; [done|]. split; [done|]. unfold zlen. cbn. lia.
  - specialize (IH (p + zlen (enc e))). destruct (find_key es key (p + zlen (enc e))) as [q|].
    + destruct IH as (es1 & e' & es2 & -> & Hk' & ->). exists (e :: es1), e', es2.
      split; [done|]. split; [done|]. rewrite encs_cons, zlen_app. lia.
    + cbn. rewrite not_elem_of_cons. split; [congruence|done].
Qed.

End layout.

(** ** The operations on the layout *)

Lemma zsplit {X} (m : list X) n : 0 ≤ n ≤ zlen m → ∃ a b, m = a ++ b ∧ zlen a = n ∧ zlen b = zlen m - n.
Proof.
  intros Hn. exists (take (Z.to_nat n) m), (drop (Z.to_nat n) m). rewrite take_drop. split; [done|].
  split; len.
Qed.

Lemma zlen_1 {X} (m : list X) : zlen m = 1 → ∃ x, m = [x].
Proof. destruct m as [|x [|y m]]; [done|by exists x|]. len. Qed.

Lemma zm_realloc_grow junk m n : zlen m ≤ n → ∃ J, realloc junk m n = m ++ J ∧ zlen J = n - zlen m.
Proof.
  intros Hn. unfold realloc. exists (junk <$> seq (length m) (Z.to_nat n - length m)).
  rewrite take_ge by (unfold zlen in Hn; lia). split; [done|]. len.
Qed.

Lemma realloc_shrink junk a b : realloc junk (a ++ b) (zlen a) = a.
Proof.
  unfold realloc, zlen. rewrite Nat2Z.id, take_app_length, length_app.
  replace (length a - (length a + length b))%nat with 0%nat by lia. cbn. apply app_nil_r.
Qed.

Section operations.
Context (be : host) (junk : nat → Z).

Lemma resize_grow m n : zlen m < n →
  ∃ J, zipmapResize junk m n = Some (m ++ J ++ [255]) ∧ zlen J = n - zlen m - 1.
Proof.
  intros Hn. unfold zipmapResize. destruct (zm_realloc_grow junk m n) as (J & -> & HJ); [lia|].
  destruct (zsplit J (n - zlen m - 1)) as (a & b & -> & Ha & Hb); [lia|].
  destruct (zlen_1 b) as [x ->]; [lia|]. rewrite app_assoc. rewrite put8_app; [|rewrite zlen_app; lia|done].
  exists a. by rewrite <- app_assoc.
Qed.

Lemma resize_shrink a x b : zipmapResize junk (a ++ x :: b) (zlen a + 1) = Some (a ++ [255]).
Proof.
  unfold zipmapResize. change (a ++ x :: b) with (a ++ [x] ++ b). rewrite app_assoc.
  replace (zlen a + 1) with (zlen (a ++ [x])) by (rewrite zlen_app; done). rewrite realloc_shrink.
  apply put8_app; [rewrite zlen_app; unfold zlen; cbn; lia|done].
Qed.

Lemma required_length key val F :
  in_u 32 (zlen (enc (mkE key val F))) → 0 ≤ zlen F →
  zipmapRequiredLength (zlen key) (zlen val) = zlen (enc (mkE key val F)) - zlen F.
Proof.
  rewrite zlen_enc. cbn [e_key e_val e_free]. unfold zipmapRequiredLength, ZIPMAP_LEN_BYTES, ZIPMAP_BIGLEN, in_u.
  pose proof (zlen_nonneg key). pose proof (zlen_nonneg val).
  destruct (Z.ltb_spec (zlen key) 254), (Z.leb_spec 254 (zlen key)), (Z.ltb_spec (zlen val) 254),
    (Z.leb_spec 254 (zlen val)); try lia; intros Hs HF; rewrite ?(wrapu_small 32 (zlen key + zlen val + 3)) by (unfold in_u; lia);
    rewrite ?(wrapu_small 32 (zlen key + zlen val + 3 + 4)) by (unfold in_u; lia);
    rewrite ?(wrapu_small 32) by (unfold in_u; lia); lia.
Qed.

Lemma write_entry_spec A R0 F B key val p :
  p = zlen A → in_u 32 (zlen key) → in_u 32 (zlen val) → zlen F < 256 →
  zlen R0 = zlen (enc (mkE key val F)) - zlen F →
  write_entry be (A ++ (R0 ++ F) ++ B) p key val (zlen F) = Some (A ++ enc (mkE key val F) ++ B).
Proof.
  intros -> Hk Hv HF HR. rewrite zlen_enc in HR. cbn [e_key e_val e_free] in HR.
  pose proof (len_bytes_pos (zlen key)). pose proof (len_bytes_pos (zlen val)).
  pose proof (zlen_nonneg key). pose proof (zlen_nonneg val). pose proof (zlen_nonneg F).
  destruct (zsplit R0 (ZIPMAP_LEN_BYTES (zlen key))) as (a & R1 & -> & Ha & HR1); [lia|].
  destruct (zsplit R1 (zlen key)) as (b & R2 & -> & Hb & HR2); [lia|].
  destruct (zsplit R2 (ZIPMAP_LEN_BYTES (zlen val))) as (c & R3 & -> & Hc & HR3); [lia|].
  destruct (zsplit R3 1) as (d & v & -> & Hd & Hv'); [lia|]. destruct (zlen_1 d Hd) as [x ->].
  unfold write_entry. rewrite <- !app_assoc.
  rewrite encode_spec by done. cbn [mbind option_bind].
  rewrite (app_assoc A), store_app; [|by rewrite zlen_app, zlen_enc_len|unfold zlen in Hb; lia].
  cbn [mbind option_bind]. rewrite app_assoc.
  rewrite encode_spec; [|by rewrite !zlen_app, zlen_enc_len|done|done]. cbn [mbind option_bind].
  cbn [app]. rewrite app_assoc.
  rewrite put8_app; [|by rewrite !zlen_app, !zlen_enc_len|split; lia]. cbn [mbind option_bind].
  change (?m ++ zlen F :: v ++ F ++ B) with (m ++ [zlen F] ++ v ++ F ++ B). rewrite app_assoc.
  rewrite store_app; [|rewrite !zlen_app, !zlen_enc_len; reflexivity|].
  - unfold enc. cbn [e_key e_val e_free]. by rewrite <- !app_assoc.
  - unfold zlen in *. cbn in *. lia.
Qed.

Lemma lookup_raw zm n es key :
  rep zm n es → in_u 32 (zlen key) →
  zipmapLookupRaw be zm (Some key) true = Some (find_key es key 1, zlen zm) ∧
  (∃ q, zipmapLookupRaw be zm (Some key) false = Some (find_key es key 1, q)).
Proof.
  intros Hr Hk. pose proof (rep_size _ _ _ Hr) as Hs. pose proof (rep_eq _ _ _ Hr) as Ez. subst zm.
  unfold zipmapLookupRaw. change (n :: encs es ++ [255]) with ([n] ++ encs es ++ [255]) in *.
  assert (length (encs es) < S (length ([n] ++ encs es ++ [255%Z])))%nat as Hf
    by (rewrite !length_app; cbn; lia).
  split.
  - rewrite lookup_loop_tot; [|by intros ? [= <-]|done..]. cbn [mbind option_bind]. do 2 f_equal.
    rewrite !zlen_app in *. change (zlen [n]) with 1 in *. change (zlen [255]) with 1 in *.
    rewrite wrapu_small; [lia|]. pose proof (zlen_nonneg (encs es)). unfold in_u. lia.
  - pose proof (lookup_loop_find be es key _ [n] 1 Hk eq_refl Hs Hf) as HP.
    destruct (lookup_loop _ _ _ _ _ _ _) as [[k q]|]; [|done]. cbn in HP. injection HP as ->.
    cbn [mbind option_bind]. eauto.
Qed.

Definition count_up (n : Z) : Z := if n <? 254 then n + 1 else n.
Definition count_down (n : Z) : Z := if n <? 254 then n - 1 else n.

Lemma encs_app es1 es2 : encs (es1 ++ es2) = encs es1 ++ encs es2.
Proof. apply bind_app. Qed.

Lemma set_new zm n es key val :
  rep zm n es → key ∉ e_key <$> es → zlen zm + zlen (enc (mkE key val [])) < 2 ^ 32 →
  ∃ zm', zipmapSet be junk zm key val = Some (zm', false) ∧
    rep zm' (count_up n) (es ++ [mkE key val []]) ∧ zlen zm' = zlen zm + zlen (enc (mkE key val [])).
Proof.
  intros Hr Hn Hs. pose proof (rep_size _ _ _ Hr) as Hsz. pose proof (zlen_nonneg zm).
  set (e := mkE key val []) in *. pose proof (entry_bounds [] e []) as HB.
  rewrite app_nil_r in HB. specialize (HB ltac:(change ([] ++ enc e) with (enc e); lia)).
  destruct HB as (Hk & Hv & He & _ & _). cbn [e_key e_val] in Hk, Hv.
  destruct (lookup_raw zm n es key Hr Hk) as [HL _]. unfold zipmapSet. rewrite HL. cbn [mbind option_bind].
  pose proof (find_key_spec es key 1) as Hf. destruct (find_key es key 1) as [q|].
  { destruct Hf as (es1 & e1 & es2 & -> & Hke & _). exfalso. apply Hn. rewrite fmap_app. cbn. set_solver. }
  pose proof (required_length key val [] He ltac:(done)) as Hreq. change (zlen (@nil Z)) with 0 in Hreq.
  rewrite Z.sub_0_r in Hreq. fold e in Hreq. rewrite Hreq.
  pose proof (enc_min e) as H3.
  rewrite wrapu_small by (unfold in_u; lia).
  destruct (resize_grow zm (zlen zm + zlen (enc e))) as (J & -> & HJ); [lia|]. cbn [mbind option_bind].
  pose proof (rep_eq _ _ _ Hr) as Ez. destruct (rep_count _ _ _ Hr) as [Hc1 Hc2].
  assert (zm ++ J ++ [255] = n :: encs es ++ ((255 :: J) ++ []) ++ [255]) as E1.
  { rewrite Ez. cbn. rewrite <- !app_assoc. cbn. by rewrite ?app_nil_r. }
  rewrite E1, get8_0. cbn [mbind option_bind].
  assert ((if n <? ZIPMAP_BIGLEN then put8 (n :: encs es ++ ((255 :: J) ++ []) ++ [255]) 0 (n + 1)
    else Some (n :: encs es ++ ((255 :: J) ++ []) ++ [255])) =
    Some ((count_up n :: encs es) ++ ((255 :: J) ++ []) ++ [255])) as ->.
  { unfold count_up, ZIPMAP_BIGLEN. destruct (Z.ltb_spec n 254); [|done].
    apply put8_0. split; lia. }
  cbn [mbind option_bind].
  assert (zlen zm = zlen (n :: encs es) + 1) as Lz by (rewrite Ez; len).
  pose proof (write_entry_spec (count_up n :: encs es) (255 :: J) [] [255] key val (zlen zm - 1)) as HW.
  fold e in HW. change (zlen (@nil Z)) with 0 in HW.
  rewrite HW by first [done | rewrite Lz; len | revert HJ; len]. clear HW.
  cbn [mbind option_bind]. eexists. split; [done|].
  assert (zlen ((count_up n :: encs es) ++ enc e ++ [255]) = zlen zm + zlen (enc e)) as Ln.
  { rewrite !zlen_app, Lz. change (zlen [255]) with 1. unfold zlen. cbn. lia. }
  split; [|exact Ln]. split.
  - rewrite encs_app. cbn. rewrite app_nil_r, <- app_assoc. done.
  - unfold count_up. destruct (Z.ltb_spec n 254); [|lia]. split; [lia|]. intros Hlt.
    rewrite zlen_app, Hc2 by lia. done.
  - rewrite fmap_app. apply NoDup_app. split; [apply Hr|]. split; [|apply NoDup_singleton].
    intros x Hx ->%list_elem_of_singleton. done.
  - apply Forall_app. split; [apply Hr|]. apply Forall_cons_2; [done|apply Forall_nil_2].
  - fold e. lia.
Qed.

(** Move [B], which follows [X], over [B'], which follows [Y] in the same
    bytes. *)
Lemma memmove_spec A X B Y B' C1 C2 dst src n :
  src = zlen A + zlen X → dst = zlen A + zlen Y → n = zlen B → zlen B' = zlen B →
  X ++ B ++ C1 = Y ++ B' ++ C2 →
  memmove (A ++ X ++ B ++ C1) dst src n = Some (A ++ Y ++ B ++ C2).
Proof.
  intros -> -> -> HB E. unfold memmove. rewrite (app_assoc A X), load_app by (done || by rewrite zlen_app).
  cbn [mbind option_bind]. rewrite <- app_assoc, E, (app_assoc A Y).
  rewrite store_app; [by rewrite <- app_assoc|by rewrite zlen_app|unfold zlen in HB; lia].
Qed.

Lemma update_rep zm' n es1 e es2 key val F :
  NoDup (e_key <$> es1 ++ e :: es2) → Forall (λ e, zlen (e_free e) < 4) (es1 ++ e :: es2) →
  0 ≤ n ≤ 254 ∧ (n < 254 → n = zlen (es1 ++ e :: es2)) → e_key e = key → zlen F < 4 →
  zm' = (n :: encs es1) ++ enc (mkE key val F) ++ encs es2 ++ [255] → zlen zm' < 2 ^ 32 →
  rep zm' n (es1 ++ mkE key val F :: es2).
Proof.
  intros Hnd Hfr Hc Hk HF Ez Hs. split.
  - rewrite Ez, encs_app, encs_cons. cbn [app]. by rewrite <- !app_assoc.
  - destruct Hc as [? Hc]. split; [done|]. intros Hlt. rewrite (Hc Hlt). len.
  - rewrite fmap_app in Hnd |- *. cbn in Hnd |- *. by rewrite <- Hk.
  - apply Forall_app in Hfr as [H1 H2]. apply Forall_cons in H2 as [_ H2]. apply Forall_app. split; [done|].
    by apply Forall_cons_2.
  - done.
Qed.

Lemma set_old zm n es1 e es2 val :
  let key := e_key e in let new := mkE key val [] in
  rep zm n (es1 ++ e :: es2) → find_key (es1 ++ e :: es2) key 1 = Some (1 + zlen (encs es1)) →
  zlen zm + zlen (enc new) < 2 ^ 32 →
  ∃ zm' F, zipmapSet be junk zm key val = Some (zm', true) ∧
    rep zm' n (es1 ++ mkE key val F :: es2) ∧ zlen zm' ≤ zlen zm + zlen (enc new).
Proof.
  intros key new Hr Hfind Hs.
  pose proof (rep_eq _ _ _ Hr) as Ez. rewrite encs_app, encs_cons in Ez.
  set (A := n :: encs es1). set (B := encs es2).
  assert (zm = A ++ enc e ++ B ++ [255]) as Ez' by (rewrite Ez; subst A B; cbn; by rewrite <- !app_assoc).
  clear Ez. pose proof (rep_size _ _ _ Hr) as Hsz. rewrite Ez' in Hsz.
  destruct (entry_bounds A e (B ++ [255]) Hsz) as (Hk & _ & Hf & Hsum & _).
  pose proof (entry_bounds [] new []) as HB. rewrite app_nil_r in HB. change ([] ++ enc new) with (enc new) in HB.
  pose proof (zlen_nonneg zm). specialize (HB ltac:(lia)). destruct HB as (_ & Hv & Hn & _). cbn [new e_val] in Hv.
  destruct (lookup_raw zm n _ key Hr Hk) as [HL _]. rewrite Hfind in HL.
  pose proof (required_length key val [] Hn ltac:(done)) as Hreq. change (zlen (@nil Z)) with 0 in Hreq.
  rewrite Z.sub_0_r in Hreq. fold new in Hreq.
  pose proof (enc_min e) as H3. set (r := zlen (enc new)) in *. set (f := zlen (enc e)) in *.
  assert (zlen A = 1 + zlen (encs es1)) as LA by (subst A; len).
  assert (zlen zm = zlen A + f + zlen B + 1) as Lz by (rewrite Ez', !zlen_app; change (zlen [255]) with 1; lia).
  assert (∀ F, zlen (enc (mkE key val F)) = r + zlen F) as Hr'.
  { intros F. subst r. rewrite !zlen_enc. cbn. change (zlen (@nil Z)) with 0. lia. }
  assert (zlen (B ++ [255]) = zlen B + 1) as LB by (rewrite zlen_app; done).
  pose proof (zlen_nonneg A). pose proof (zlen_nonneg B). unfold in_u in Hf, Hn.
  assert (∀ R0 F, zlen R0 = r → zlen F < 4 →
    ∃ zm' F', (zm ← write_entry be (A ++ (R0 ++ F) ++ B ++ [255]) (1 + zlen (encs es1)) key val (zlen F);
       Some (zm, true)) = Some (zm', true) ∧
      rep zm' n (es1 ++ mkE key val F' :: es2) ∧ zlen zm' = zlen A + (r + zlen F) + zlen B + 1) as Hwrite.
  { intros R0 F HR0 HF. rewrite write_entry_spec; [|lia|done|done|lia|rewrite Hr'; lia].
    cbn [mbind option_bind]. eexists _, F. split; [done|].
    assert (zlen (A ++ enc (mkE key val F) ++ B ++ [255]) = zlen A + (r + zlen F) + zlen B + 1) as Lw.
    { rewrite !zlen_app, Hr'. change (zlen [255]) with 1. lia. }
    split; [|exact Lw]. eapply update_rep; try done; try apply Hr. rewrite Lw. lia. }
  unfold zipmapSet. rewrite HL. cbn [mbind option_bind]. rewrite Hreq.
  assert (zipmapRawEntryLength be zm (1 + zlen (encs es1)) = Some f) as ->.
  { rewrite Ez'. apply raw_entry_length; [done|exact Hsz]. }
  cbn [mbind option_bind].
  rewrite (wrapu_small 32 (zlen zm - f)) by (unfold in_u; lia).
  rewrite (wrapu_small 32 (1 + zlen (encs es1) + f + 1)) by (unfold in_u; lia).
  rewrite (wrapu_small 32 (zlen zm - (1 + zlen (encs es1) + f + 1))) by (unfold in_u; lia).
  rewrite (wrapu_small 32 (zlen zm - f + r)) by (unfold in_u; lia).
  destruct (Z.ltb_spec f r) as [Hlt|Hge].
  - destruct (resize_grow zm (zlen zm - f + r)) as (J & -> & HJ); [lia|]. cbn [mbind option_bind].
    destruct (zsplit (enc e ++ B ++ [255] ++ J) r) as (R & B' & ER & LR & LB');
      [rewrite !zlen_app; fold f; change (zlen [255]) with 1; lia|].
    rewrite !zlen_app in LB'. fold f in LB'. change (zlen [255]) with 1 in LB'.
    assert (zm ++ J ++ [255] = A ++ enc e ++ B ++ [255] ++ J ++ [255]) as ->
      by (rewrite Ez'; by rewrite <- !app_assoc).
    rewrite (memmove_spec A (enc e) B R B' ([255] ++ J ++ [255]) [255]); [|fold f; lia..|].
    2: { rewrite (app_assoc R), <- ER. by rewrite <- !app_assoc. }
    cbn [mbind option_bind]. rewrite Z.sub_diag. change (u32 0) with 0. cbn [Z.leb].
    change (ZIPMAP_VALUE_MAX_FREE <=? 0) with false. cbv iota. cbn [mbind option_bind].
    destruct (Hwrite R [] LR) as (zm' & F' & E & Hrep & Lw); [done|]. rewrite app_nil_r in E.
    change (zlen (@nil Z)) with 0 in E. rewrite E. exists zm', F'. split; [done|]. split; [done|].
    change (zlen (@nil Z)) with 0 in Lw. lia.
  - cbn [mbind option_bind]. rewrite (wrapu_small 32 (f - r)) by (unfold in_u; lia).
    rewrite ?(wrapu_small 32 (1 + zlen (encs es1) + f + 1)) by (unfold in_u; lia).
    rewrite ?(wrapu_small 32 (zlen zm - (1 + zlen (encs es1) + f + 1))) by (unfold in_u; lia).
    destruct (zsplit (enc e) r) as (R & X & ER & LR & LX); [fold f; lia|]. fold f in LX.
    destruct (Z.leb_spec ZIPMAP_VALUE_MAX_FREE (f - r)) as [H4|H4]; unfold ZIPMAP_VALUE_MAX_FREE in H4.
    + destruct (zsplit (X ++ B) (zlen B)) as (B' & Y & EB & LB' & LY); [rewrite zlen_app; lia|].
      rewrite zlen_app in LY.
      assert (memmove zm (1 + zlen (encs es1) + r) (1 + zlen (encs es1) + f)
        (zlen zm - (1 + zlen (encs es1) + f + 1)) = Some (A ++ R ++ B ++ Y ++ [255])) as ->.
      { replace (zlen zm - (1 + zlen (encs es1) + f + 1)) with (zlen B) by lia. rewrite Ez'.
        apply (memmove_spec A (enc e) B R B' [255] (Y ++ [255])); try (fold f; lia).
        rewrite ER, <- !app_assoc. f_equal. by rewrite !app_assoc, EB. }
      cbn [mbind option_bind]. rewrite (wrapu_small 32 (zlen zm - (f - r))) by (unfold in_u; lia).
      destruct Y as [|y Y]; [change (zlen (@nil Z)) with 0 in LY; lia|].
      assert (zipmapResize junk (A ++ R ++ B ++ (y :: Y) ++ [255]) (zlen zm - (f - r)) =
        Some (A ++ R ++ B ++ [255])) as ->.
      { replace (zlen zm - (f - r)) with (zlen (A ++ R ++ B) + 1) by (rewrite !zlen_app; lia).
        pose proof (resize_shrink (A ++ R ++ B) y (Y ++ [255])) as HRS. rewrite <- !app_assoc in HRS. exact HRS. }
      cbn [mbind option_bind]. destruct (Hwrite R [] LR) as (zm' & F' & E & Hrep & Lw); [done|].
      rewrite app_nil_r in E. change (zlen (@nil Z)) with 0 in E, Lw. rewrite E.
      exists zm', F'. split; [done|]. split; [done|]. lia.
    + cbn [mbind option_bind]. rewrite Ez', ER. replace (f - r) with (zlen X) by lia.
      destruct (Hwrite R X LR) as (zm' & F' & E & Hrep & Lw); [lia|]. rewrite E.
      exists zm', F'. split; [done|]. split; [done|]. rewrite <- ER, <- Ez'. lia.
Qed.

Lemma del_old zm n es1 e es2 :
  rep zm n (es1 ++ e :: es2) → find_key (es1 ++ e :: es2) (e_key e) 1 = Some (1 + zlen (encs es1)) →
  ∃ zm', zipmapDel be junk zm (e_key e) = Some (zm', true) ∧ rep zm' (count_down n) (es1 ++ es2) ∧
    zlen zm' ≤ zlen zm.
Proof.
  intros Hr Hfind. pose proof (rep_eq _ _ _ Hr) as Ez. rewrite encs_app, encs_cons in Ez.
  set (A := n :: encs es1). set (B := encs es2) in *.
  assert (zm = A ++ enc e ++ B ++ [255]) as Ez' by (rewrite Ez; subst A; cbn; by rewrite <- !app_assoc).
  clear Ez. pose proof (rep_size _ _ _ Hr) as Hsz. destruct (rep_count _ _ _ Hr) as [Hc1 Hc2].
  assert (zlen (A ++ enc e ++ B ++ [255]) < 2 ^ 32) as Hsz' by (by rewrite <- Ez').
  destruct (entry_bounds A e (B ++ [255]) Hsz') as (Hk & _).
  destruct (lookup_raw zm n _ (e_key e) Hr Hk) as [HL _]. rewrite Hfind in HL.
  pose proof (enc_min e) as H3. set (f := zlen (enc e)) in *.
  assert (zlen A = 1 + zlen (encs es1)) as LA by (subst A; len).
  assert (zlen zm = zlen A + f + zlen B + 1) as Lz by (rewrite Ez', !zlen_app; change (zlen [255]) with 1; lia).
  pose proof (zlen_nonneg A). pose proof (zlen_nonneg B).
  unfold zipmapDel. rewrite HL. cbn [mbind option_bind].
  assert (zipmapRawEntryLength be zm (1 + zlen (encs es1)) = Some f) as ->.
  { rewrite Ez'. by apply raw_entry_length. }
  cbn [mbind option_bind].
  destruct (zsplit (enc e ++ B) (zlen B)) as (B' & Y & EB & LB' & LY); [rewrite zlen_app; fold f; lia|].
  rewrite zlen_app in LY. fold f in LY.
  assert (memmove zm (1 + zlen (encs es1)) (1 + zlen (encs es1) + f)
    (zlen zm - (1 + zlen (encs es1) + f + 1)) = Some (A ++ B ++ Y ++ [255])) as ->.
  { replace (zlen zm - (1 + zlen (encs es1) + f + 1)) with (zlen B) by lia. rewrite Ez'.
    apply (memmove_spec A (enc e) B [] B' [255] (Y ++ [255])); try (fold f; change (zlen (@nil Z)) with 0; lia).
    cbn. by rewrite !app_assoc, EB. }
  cbn [mbind option_bind]. rewrite (wrapu_small 32 (zlen zm - f)) by (unfold in_u; lia).
  destruct Y as [|y Y]; [change (zlen (@nil Z)) with 0 in LY; lia|].
  assert (zipmapResize junk (A ++ B ++ (y :: Y) ++ [255]) (zlen zm - f) = Some (n :: (encs es1 ++ B) ++ [255])) as ->.
  { replace (zlen zm - f) with (zlen (A ++ B) + 1) by (rewrite !zlen_app; lia).
    pose proof (resize_shrink (A ++ B) y (Y ++ [255])) as HRS. rewrite <- (app_assoc A B (y :: _)) in HRS.
    etransitivity; [exact HRS|]. subst A. cbn. by rewrite <- !app_assoc. }
  cbn [mbind option_bind]. rewrite get8_0. cbn [mbind option_bind].
  assert ((if n <? ZIPMAP_BIGLEN then put8 (n :: (encs es1 ++ B) ++ [255]) 0 (n - 1)
    else Some (n :: (encs es1 ++ B) ++ [255])) = Some (count_down n :: encs (es1 ++ es2) ++ [255])) as ->.
  { unfold count_down, ZIPMAP_BIGLEN. rewrite encs_app. fold B. destruct (Z.ltb_spec n 254); [|done].
    apply put8_0. specialize (Hc2 ltac:(lia)). revert Hc2. split; [len|lia]. }
  cbn [mbind option_bind]. eexists. split; [done|].
  assert (zlen (count_down n :: encs (es1 ++ es2) ++ [255]) = zlen zm - f) as Ln.
  { rewrite encs_app. fold B. rewrite Lz, LA. len. }
  split; [|lia]. split; [done| | | |lia].
  - unfold count_down. destruct (Z.ltb_spec n 254) as [Hlt|]; [|lia]. specialize (Hc2 Hlt). revert Hc2.
    intros Hc2. split; [|intros _]; revert Hc2; len.
  - pose proof (rep_keys _ _ _ Hr) as Hnd. rewrite fmap_app in Hnd |- *. cbn in Hnd.
    apply NoDup_app in Hnd as (H1 & H2 & H4). apply NoDup_cons in H4 as [_ H4]. apply NoDup_app.
    split; [done|]. split; [set_solver|done].
  - pose proof (rep_free _ _ _ Hr) as HF. apply Forall_app in HF as [H1 H2]. apply Forall_cons in H2 as [_ H2].
    by apply Forall_app.
Qed.

Lemma get_old zm n es1 e es2 :
  rep zm n (es1 ++ e :: es2) → find_key (es1 ++ e :: es2) (e_key e) 1 = Some (1 + zlen (encs es1)) →
  zipmapGet be zm (e_key e) = Some (Some (e_val e)).
Proof.
  intros Hr Hfind. pose proof (rep_eq _ _ _ Hr) as Ez. rewrite encs_app, encs_cons in Ez.
  set (A := n :: encs es1). set (B := encs es2 ++ [255]).
  assert (zm = A ++ enc e ++ B) as Ez' by (rewrite Ez; subst A B; cbn; by rewrite <- !app_assoc).
  pose proof (rep_size _ _ _ Hr) as Hsz. assert (zlen (A ++ enc e ++ B) < 2 ^ 32) as Hsz' by (by rewrite <- Ez').
  destruct (entry_bounds A e B Hsz') as (Hk & _).
  destruct (lookup_raw zm n _ (e_key e) Hr Hk) as [_ [q HL]]. rewrite Hfind in HL.
  assert (zlen A = 1 + zlen (encs es1)) as LA by (subst A; len).
  unfold zipmapGet. rewrite HL. cbn [mbind option_bind]. rewrite Ez', <- LA.
  rewrite raw_key_length by done. cbn [mbind option_bind]. rewrite decode_val by done. cbn [mbind option_bind].
  by rewrite load_val.
Qed.

Lemma count_loop_spec es : ∀ fuel A p len,
  p = zlen A → zlen (A ++ encs es ++ [255]) < 2 ^ 32 → (length (encs es) < fuel)%nat →
  0 ≤ len → len + zlen es < 2 ^ 32 →
  count_loop be fuel (A ++ encs es ++ [255]) p len = Some (len + zlen es).
Proof.
  induction es as [|e es IH]; intros fuel A p n Hp Hs Hf H0 Hb; (destruct fuel as [|fuel]; [lia|]); cbn [count_loop].
  { cbn [encs mbind list_bind app]. rewrite get8_app by done. cbn [mbind option_bind].
    change (255 =? ZIPMAP_END) with true. cbv iota. f_equal. unfold zlen. cbn. lia. }
  rewrite encs_cons in *. rewrite <- !app_assoc in *.
  destruct (enc_first e (encs es ++ [255])) as (c & R & Ec & Hc).
  assert (get8 (A ++ enc e ++ encs es ++ [255]) p = Some c) as -> by (rewrite Ec; by apply get8_app).
  cbn [mbind option_bind]. destruct (Z.eqb_spec c ZIPMAP_END); [done|].
  rewrite raw_key_length by done. cbn [mbind option_bind]. rewrite raw_value_length by (done || lia).
  cbn [mbind option_bind]. assert (zlen (e :: es) = zlen es + 1) as El by len. pose proof (zlen_nonneg es).
  rewrite (wrapu_small 32) by (unfold in_u; lia).
  replace (p + after_key e + (zlen (enc e) - after_key e)) with (p + zlen (enc e)) by lia.
  rewrite (app_assoc A). rewrite IH; [f_equal; lia|rewrite zlen_app; lia|by rewrite <- !app_assoc| |lia|lia].
  rewrite length_app in Hf. pose proof (enc_min e). unfold zlen in *. lia.
Qed.

Lemma zlen_encs es : 3 * zlen es ≤ zlen (encs es).
Proof.
  induction es as [|e es IH]; [done|]. rewrite encs_cons, zlen_app. pose proof (enc_min e).
  assert (zlen (e :: es) = zlen es + 1) by len. lia.
Qed.

Lemma len_spec zm n es :
  rep zm n es → ∃ zm' n', zipmapLen be zm = Some (zm', zlen es) ∧ rep zm' n' es ∧ zlen zm' = zlen zm.
Proof.
  intros Hr. pose proof (rep_eq _ _ _ Hr) as Ez. destruct (rep_count _ _ _ Hr) as [Hc1 Hc2].
  unfold zipmapLen. assert (get8 zm 0 = Some n) as -> by (rewrite Ez; apply get8_0). cbn [mbind option_bind]. unfold ZIPMAP_BIGLEN.
  destruct (Z.ltb_spec n 254) as [Hlt|Hge].
  { exists zm, n. rewrite <- Hc2 by done. done. }
  pose proof (rep_size _ _ _ Hr) as Hsz. pose proof (zlen_encs es) as H3.
  assert (zlen zm = 1 + zlen (encs es) + 1) as Lz by (rewrite Ez; len). pose proof (zlen_nonneg es).
  assert (0 + zlen es < 2 ^ 32) as Hes by lia.
  assert (count_loop be (S (length zm)) zm zipmapRewind 0 = Some (zlen es)) as ->.
  { rewrite Ez in Hsz |- *. change (n :: encs es ++ [255]) with ([n] ++ encs es ++ [255]) in *.
    rewrite count_loop_spec; [done|done|done|rewrite !length_app; cbn; lia|lia|lia]. }
  cbn [mbind option_bind]. destruct (Z.ltb_spec (zlen es) 254) as [Hs|Hs].
  - rewrite Ez. rewrite put8_0 by (split; lia). cbn [mbind option_bind].
    eexists _, (zlen es). split; [done|]. split; [|len].
    split; [done|split; [lia|done]|apply Hr|apply Hr|]. rewrite Ez in Hsz. revert Hsz. len.
  - cbn [mbind option_bind]. by exists zm, n.
Qed.

Lemma blob_len zm n es : rep zm n es → zipmapBlobLen be zm = Some (zlen zm).
Proof.
  intros Hr. pose proof (rep_size _ _ _ Hr) as Hs. pose proof (rep_eq _ _ _ Hr) as Ez. subst zm.
  unfold zipmapBlobLen, zipmapLookupRaw. change (n :: encs es ++ [255]) with ([n] ++ encs es ++ [255]) in *.
  rewrite lookup_loop_tot; [|done|done|done|rewrite !length_app; cbn; lia]. cbn [mbind option_bind]. f_equal.
  rewrite !zlen_app in *. change (zlen [n]) with 1 in *. change (zlen [255]) with 1 in *.
  rewrite wrapu_small; [lia|]. pose proof (zlen_nonneg (encs es)). unfold in_u. lia.
Qed.

End operations.

(** ** Refinement of a map of strings *)

Inductive zop :=
  | ZSet (key val : list Z)
  | ZDel (key : list Z)
  | ZGet (key : list Z)
  | ZExists (key : list Z)
  | ZLen
  | ZBlobLen.

Inductive zres := ZBool (b : bool) | ZVal (v : option (list Z)) | ZNat (n : Z).

Definition run_zop (be : host) (junk : nat → Z) (zm : list Z) (o : zop) : option (list Z * zres) :=
  match o with
  | ZSet key val => '(zm, u) ← zipmapSet be junk zm key val; Some (zm, ZBool u)
  | ZDel key => '(zm, d) ← zipmapDel be junk zm key; Some (zm, ZBool d)
  | ZGet key => v ← zipmapGet be zm key; Some (zm, ZVal v)
  | ZExists key => b ← zipmapExists be zm key; Some (zm, ZBool b)
  | ZLen => '(zm, n) ← zipmapLen be zm; Some (zm, ZNat n)
  | ZBlobLen => n ← zipmapBlobLen be zm; Some (zm, ZNat (n - zlen zm))
  end.

(** Each operation has its own indeterminate bytes. *)
Fixpoint run_zops (be : host) (junk : nat → nat → Z) (zm : list Z) (ops : list zop)
    : option (list Z * list zres) :=
  match ops with
  | [] => Some (zm, [])
  | o :: ops =>
      '(zm, r) ← run_zop be (junk (length ops)) zm o;
      '(zm, rs) ← run_zops be junk zm ops; Some (zm, r :: rs)
  end.

Local Notation smap := (gmap (list Z) (list Z)).

Definition spec_zop (m : smap) (o : zop) : smap * zres :=
  match o with
  | ZSet key val => (<[key := val]> m, ZBool (bool_decide (is_Some (m !! key))))
  | ZDel key => (delete key m, ZBool (bool_decide (is_Some (m !! key))))
  | ZGet key => (m, ZVal (m !! key))
  | ZExists key => (m, ZBool (bool_decide (is_Some (m !! key))))
  | ZLen => (m, ZNat (Z.of_nat (size m)))
  | ZBlobLen => (m, ZNat 0)
  end.

Fixpoint spec_zops (m : smap) (ops : list zop) : smap * list zres :=
  match ops with
  | [] => (m, [])
  | o :: ops => let '(m, r) := spec_zop m o in
                let '(m, rs) := spec_zops m ops in (m, r :: rs)
  end.

(** The bytes an operation can add at most, and the keys it can look up. *)
Definition zop_cost (o : zop) : Z :=
  match o with ZSet key val => zlen (enc (mkE key val [])) | _ => 0 end.
Definition zop_ok (o : zop) : Prop :=
  match o with
  | ZDel key | ZGet key | ZExists key => zlen key < 2 ^ 32
  | _ => True
  end.
Definition zops_cost (ops : list zop) : Z := foldr (λ o n, zop_cost o + n) 0 ops.

Definition ekv (e : entry) : list Z * list Z := (e_key e, e_val e).
Definition zmap (es : list entry) : smap := list_to_map (ekv <$> es).

Lemma ekv_keys es : (ekv <$> es).*1 = e_key <$> es.
Proof. by rewrite <- list_fmap_compose. Qed.

Lemma zmap_None es key : key ∉ e_key <$> es → zmap es !! key = None.
Proof. intros Hn. apply not_elem_of_list_to_map_1. by rewrite ekv_keys. Qed.

Lemma zmap_middle es1 e es2 :
  NoDup (e_key <$> es1 ++ e :: es2) → zmap (es1 ++ e :: es2) = <[e_key e := e_val e]> (zmap (es1 ++ es2)) ∧
    zmap (es1 ++ es2) !! e_key e = None.
Proof.
  intros Hnd. assert (es1 ++ e :: es2 ≡ₚ e :: es1 ++ es2) as HP by by rewrite Permutation_middle.
  split.
  - unfold zmap. rewrite (list_to_map_proper (ekv <$> es1 ++ e :: es2) (ekv <$> e :: es1 ++ es2)); [done| |].
    + by rewrite ekv_keys.
    + by apply fmap_Permutation.
  - apply zmap_None. rewrite HP in Hnd. cbn in Hnd. by apply NoDup_cons in Hnd as [? _].
Qed.

(** A key is absent, or in one entry where the search finds it. *)
Lemma key_cases zm n es key :
  rep zm n es →
  (key ∉ e_key <$> es ∧ zmap es !! key = None ∧ find_key es key 1 = None) ∨
  ∃ es1 e es2, es = es1 ++ e :: es2 ∧ e_key e = key ∧ find_key es key 1 = Some (1 + zlen (encs es1)) ∧
    zmap es = <[key := e_val e]> (zmap (es1 ++ es2)) ∧ zmap (es1 ++ es2) !! key = None.
Proof.
  intros Hr. pose proof (find_key_spec es key 1) as Hf. destruct (find_key es key 1) as [q|].
  - destruct Hf as (es1 & e & es2 & -> & Hk & ->). right. exists es1, e, es2.
    destruct (zmap_middle es1 e es2 (rep_keys _ _ _ Hr)) as [H1 H2]. rewrite <- Hk. by split_and!.
  - left. split_and!; [done|by apply zmap_None|done].
Qed.

Definition zrefines be junk zm (es : list entry) (o : zop) : Prop :=
  ∃ zm' n' es' r, run_zop be junk zm o = Some (zm', r) ∧ rep zm' n' es' ∧
    spec_zop (zmap es) o = (zmap es', r) ∧ zlen zm' ≤ zlen zm + zop_cost o.

Lemma zmap_size zm n es : rep zm n es → Z.of_nat (size (zmap es)) = zlen es.
Proof.
  intros Hr. unfold zmap. rewrite map_size_list_to_map by (rewrite ekv_keys; apply Hr).
  unfold zlen. by rewrite length_fmap.
Qed.

Lemma run_zop_spec be junk zm n es o :
  rep zm n es → zop_ok o → zlen zm + zop_cost o < 2 ^ 32 → zrefines be junk zm es o.
Proof.
  intros Hr Hok Hs. unfold zrefines. pose proof (zlen_nonneg zm).
  assert (∀ k : list Z, zlen k < 2 ^ 32 → in_u 32 (zlen k)) as Hu by (intros k Hk; pose proof (zlen_nonneg k); by split).
  destruct o as [key val|key|key|key| |]; cbn [run_zop spec_zop zop_cost zop_ok] in *.
  - destruct (key_cases zm n es key Hr) as [(Hn & Hm & _)|(es1 & e & es2 & -> & <- & Hf & Hm & Hm')].
    + destruct (set_new be junk zm n es key val Hr Hn Hs) as (zm' & E & Hr' & Hl). rewrite E.
      exists zm', (count_up n), (es ++ [mkE key val []]), (ZBool false). split; [done|]. split; [done|]. split; [|lia].
      rewrite bool_decide_false by (rewrite Hm; by intros [? ?]).
      destruct (zmap_middle es (mkE key val []) [] (rep_keys _ _ _ Hr')) as [-> _]. by rewrite app_nil_r.
    + destruct (set_old be junk zm n es1 e es2 val Hr Hf Hs) as (zm' & F & E & Hr' & Hl). rewrite E.
      exists zm', n, (es1 ++ mkE (e_key e) val F :: es2), (ZBool true).
      split; [done|]. split; [done|]. split; [|lia].
      rewrite Hm, lookup_insert_eq, bool_decide_true by eauto.
      destruct (zmap_middle es1 (mkE (e_key e) val F) es2 (rep_keys _ _ _ Hr')) as [-> _]. cbn.
      by rewrite insert_insert_eq.
  - destruct (key_cases zm n es key Hr) as [(Hn & Hm & Hf)|(es1 & e & es2 & -> & <- & Hf & Hm & Hm')].
    + destruct (lookup_raw be zm n es key Hr (Hu _ Hok)) as [HL _]. rewrite Hf in HL.
      unfold zipmapDel. rewrite HL. cbn [mbind option_bind].
      exists zm, n, es, (ZBool false). split; [done|]. split; [done|]. split; [|lia].
      rewrite bool_decide_false by (rewrite Hm; by intros [? ?]). by rewrite delete_id.
    + destruct (del_old be junk zm n es1 e es2 Hr Hf) as (zm' & E & Hr' & Hl). rewrite E.
      exists zm', (count_down n), (es1 ++ es2), (ZBool true). split; [done|]. split; [done|]. split; [|lia].
      rewrite Hm, lookup_insert_eq, bool_decide_true by eauto. by rewrite delete_insert_id.
  - destruct (key_cases zm n es key Hr) as [(Hn & Hm & Hf)|(es1 & e & es2 & -> & <- & Hf & Hm & Hm')].
    + destruct (lookup_raw be zm n es key Hr (Hu _ Hok)) as [_ [q HL]]. rewrite Hf in HL.
      unfold zipmapGet. rewrite HL. cbn [mbind option_bind].
      exists zm, n, es, (ZVal None). rewrite Hm. split; [done|]. split; [done|]. split; [done|lia].
    + rewrite (get_old be zm n es1 e es2 Hr Hf). cbn [mbind option_bind].
      do 4 eexists. split; [done|]. split; [done|]. split; [|lia]. by rewrite Hm, lookup_insert_eq.
  - destruct (lookup_raw be zm n es key Hr (Hu _ Hok)) as [_ [q HL]].
    unfold zipmapExists. rewrite HL. cbn [mbind option_bind].
    do 4 eexists. split; [done|]. split; [done|]. split; [|lia]. do 2 f_equal. apply bool_decide_ext.
    destruct (key_cases zm n es key Hr) as [(Hn & Hm & ->)|(es1 & e & es2 & -> & <- & -> & Hm & Hm')].
    + by rewrite Hm.
    + rewrite Hm, lookup_insert_eq. by split; eauto.
  - destruct (len_spec be zm n es Hr) as (zm' & n' & E & Hr' & Hl). rewrite E. cbn [mbind option_bind].
    do 4 eexists. split; [done|]. split; [done|]. split; [|lia]. by rewrite (zmap_size zm n).
  - rewrite (blob_len be zm n es Hr). cbn [mbind option_bind]. rewrite Z.sub_diag.
    do 4 eexists. split; [done|]. split; [done|]. split; [done|lia].
Qed.

Lemma zop_cost_nonneg o : 0 ≤ zop_cost o.
Proof. destruct o; cbn; [apply zlen_nonneg|lia..]. Qed.
Lemma zops_cost_nonneg ops : 0 ≤ zops_cost ops.
Proof. induction ops as [|o ops IH]; [done|]. cbn. pose proof (zop_cost_nonneg o). fold (zops_cost ops). lia. Qed.

Lemma run_zops_spec be junk ops : ∀ zm n es,
  rep zm n es → Forall zop_ok ops → zlen zm + zops_cost ops < 2 ^ 32 →
  ∃ zm' n' es' rs, run_zops be junk zm ops = Some (zm', rs) ∧ rep zm' n' es' ∧
    spec_zops (zmap es) ops = (zmap es', rs).
Proof.
  induction ops as [|o ops IH]; intros zm n es Hr Hok Hs; [by exists zm, n, es, []|].
  apply Forall_cons in Hok as [Ho Hok]. cbn [zops_cost foldr] in Hs. fold (zops_cost ops) in Hs.
  pose proof (zops_cost_nonneg ops). cbn [run_zops spec_zops].
  destruct (run_zop_spec be (junk (length ops)) zm n es o Hr Ho ltac:(lia))
    as (zm1 & n1 & es1 & r & -> & Hr1 & -> & Hl). cbn [mbind option_bind].
  destruct (IH zm1 n1 es1 Hr1 Hok ltac:(lia)) as (zm2 & n2 & es2 & rs & -> & Hr2 & ->).
  cbn [mbind option_bind]. eauto 10.
Qed.

(** ** Theorems *)

(** Refinement: every sequence of [zipmapSet], [zipmapDel], [zipmapGet],
    [zipmapExists], [zipmapLen] and [zipmapBlobLen] on a new zipmap whose total
    size stays below 4 GB makes no access outside of the block, on either byte
    order and whatever the bytes of the reallocations, gives the results of a
    finite map of strings, and leaves a well formed block. *)
Theorem zipmap_refines_map be junk ops :
  Forall zop_ok ops → 2 + zops_cost ops < 2 ^ 32 →
  ∃ zm n es rs, run_zops be junk zipmapNew ops = Some (zm, rs) ∧ rep zm n es ∧
    spec_zops ∅ ops = (zmap es, rs).
Proof.
  intros Hok Hs. apply (run_zops_spec be junk ops zipmapNew 0 []); [|done|done].
  split; [done|split; [lia|done]|apply NoDup_nil_2|apply Forall_nil_2|done].
Qed.

Definition zm_ops : list zop :=
  [ZSet (str "name") (str "foo"); ZSet (str "surname") (str "bar"); ZSet (str "name") (replicate 300 7);
   ZSet (str "name") (str "quux"); ZSet (str "name") (str "q"); ZGet (str "name"); ZDel (str "surname");
   ZExists (str "surname"); ZLen; ZBlobLen].

Lemma zipmap_refines_map_witness :
  ∃ zm n es rs, run_zops true (λ _ _, 0) zipmapNew zm_ops = Some (zm, rs) ∧ rep zm n es ∧
    spec_zops ∅ zm_ops = (zmap es, rs).
Proof.
  apply (zipmap_refines_map true (λ _ _, 0) zm_ops); [|by vm_compute].
  repeat (apply Forall_cons_2; [by vm_compute|]). apply Forall_nil_2.
Defined.
