(* ===== verification/Ziplist.v ===== *)
(** * Ziplist: lists of strings and integers in one block (redis-3.0.0/src/ziplist.c)

    A ziplist is its block of memory; a pointer into it is an offset.  Each
    entry starts with the length of the previous entry, in 1 or 5 bytes, so
    that a change of the length of an entry may change the length of the next
    ones.  [be] is the byte order of the host, [junk] gives the indeterminate
    bytes of a reallocation.  [None]: an access outside of the block or a failed
    assertion. *)

From S2P Require Import Prelude Endian NumConv.

Definition ZIP_END : Z := 255.
Definition ZIP_BIGLEN : Z := 254.
Definition ZIP_STR_MASK : Z := 192.
Definition ZIP_STR_06B : Z := 0.
Definition ZIP_STR_14B : Z := 64.
Definition ZIP_STR_32B : Z := 128.
Definition ZIP_INT_16B : Z := 192.
Definition ZIP_INT_32B : Z := 208.
Definition ZIP_INT_64B : Z := 224.
Definition ZIP_INT_24B : Z := 240.
Definition ZIP_INT_8B : Z := 254.
Definition ZIP_INT_IMM_MASK : Z := 15.
Definition ZIP_INT_IMM_MIN : Z := 241.
Definition ZIP_INT_IMM_MAX : Z := 253.
Definition ZIP_IS_STR (enc : Z) : bool := Z.land enc ZIP_STR_MASK <? ZIP_STR_MASK.
Definition UINT16_MAX : Z := 65535.
Definition ZIPLIST_HEADER_SIZE : Z := 10.

Record zlentry := mkZle {
  prevrawlensize : Z; prevrawlen : Z;
  lensize : Z; len : Z;
  headersize : Z;
  encoding : Z;
  ep : Z
}.

(** ** Encodings of the lengths *)

Definition zipIntSize (encoding : Z) : Z :=
  if encoding =? ZIP_INT_8B then 1 else
  if encoding =? ZIP_INT_16B then 2 else
  if encoding =? ZIP_INT_24B then 3 else
  if encoding =? ZIP_INT_32B then 4 else
  if encoding =? ZIP_INT_64B then 8 else 0.

(** The bytes of [buf] that [zipEncodeLength] stores. *)
Definition zipEncodeLength_buf (encoding rawlen : Z) : list Z :=
  if ZIP_IS_STR encoding then
    if rawlen <=? 63 then [u8 (Z.lor ZIP_STR_06B rawlen)]
    else if rawlen <=? 16383 then
      [u8 (Z.lor ZIP_STR_14B (Z.land (Z.shiftr rawlen 8) 63)); u8 (Z.land rawlen 255)]
    else
      [ZIP_STR_32B; u8 (Z.land (Z.shiftr rawlen 24) 255); u8 (Z.land (Z.shiftr rawlen 16) 255);
       u8 (Z.land (Z.shiftr rawlen 8) 255); u8 (Z.land rawlen 255)]
  else [encoding].
(** With [p == NULL]: the number of bytes. *)
Definition zipEncodeLength_size (encoding rawlen : Z) : Z :=
  if ZIP_IS_STR encoding then if rawlen <=? 63 then 1 else if rawlen <=? 16383 then 2 else 5 else 1.
Definition zipEncodeLength (zl : list Z) (p encoding rawlen : Z) : option (list Z * Z) :=
  zl ← store zl p (zipEncodeLength_buf encoding rawlen);
  Some (zl, zipEncodeLength_size encoding rawlen).

(** [ZIP_ENTRY_ENCODING] *)
Definition ZIP_ENTRY_ENCODING (c : Z) : Z := if c <? ZIP_STR_MASK then Z.land c ZIP_STR_MASK else c.

(** The encoding, the size of the length and the length.  A first byte of 128
    or more shifted by 24 overflows [int]. *)
Definition ZIP_DECODE_LENGTH (zl : list Z) (p : Z) : option (Z * Z * Z) :=
  c ← get8 zl p;
  let encoding := ZIP_ENTRY_ENCODING c in
  if encoding <? ZIP_STR_MASK then
    if encoding =? ZIP_STR_06B then Some (encoding, 1, Z.land c 63)
    else if encoding =? ZIP_STR_14B then
      d ← get8 zl (p + 1); Some (encoding, 2, Z.lor (Z.shiftl (Z.land c 63) 8) d)
    else if encoding =? ZIP_STR_32B then
      c1 ← get8 zl (p + 1); c2 ← get8 zl (p + 2); c3 ← get8 zl (p + 3); c4 ← get8 zl (p + 4);
      if 128 <=? c1 then None else
      Some (encoding, 5, Z.lor (Z.lor (Z.lor (Z.shiftl c1 24) (Z.shiftl c2 16)) (Z.shiftl c3 8)) c4)
    else None
  else Some (encoding, 1, zipIntSize encoding).

(** [zipPrevEncodeLength] with [p == NULL] *)
Definition zipPrevEncodeLength_size (len : Z) : Z := if len <? ZIP_BIGLEN then 1 else 5.

Section ziplist.
Context (be : host) (junk : nat → Z).

Definition zipPrevEncodeLengthForceLarge (zl : list Z) (p len : Z) : option (list Z) :=
  zl ← put8 zl p ZIP_BIGLEN;
  bs ← memrev32ifbe be (to_mem be 4 len); store zl (p + 1) bs.

(** The block and the number of bytes. *)
Definition zipPrevEncodeLength (zl : list Z) (p len : Z) : option (list Z * Z) :=
  if len <? ZIP_BIGLEN then zl ← put8 zl p len; Some (zl, 1) else
  zl ← put8 zl p ZIP_BIGLEN;
  bs ← memrev32ifbe be (to_mem be 4 len); zl ← store zl (p + 1) bs; Some (zl, 5).

Definition ZIP_DECODE_PREVLENSIZE (zl : list Z) (p : Z) : option Z :=
  c ← get8 zl p; Some (if c <? ZIP_BIGLEN then 1 else 5).

(** The size of the field and the length. *)
Definition ZIP_DECODE_PREVLEN (zl : list Z) (p : Z) : option (Z * Z) :=
  size ← ZIP_DECODE_PREVLENSIZE zl p;
  if size =? 1 then c ← get8 zl p; Some (size, c) else
  bs ← load zl (p + 1) 4; bs ← memrev32ifbe be bs; Some (size, of_mem be bs).

Definition zipPrevLenByteDiff (zl : list Z) (p len : Z) : option Z :=
  size ← ZIP_DECODE_PREVLENSIZE zl p; Some (i32 (zipPrevEncodeLength_size len -u32 size)).

Definition zipRawEntryLength (zl : list Z) (p : Z) : option Z :=
  prevlensize ← ZIP_DECODE_PREVLENSIZE zl p;
  '(_, lensize, len) ← ZIP_DECODE_LENGTH zl (p + prevlensize);
  Some (u32 (prevlensize + lensize + len)).

(** ** Integers *)

Definition zipTryEncoding (entry : list Z) : option (Z * Z) :=
  if (32 <=? zlen entry) || (zlen entry =? 0) then None else
  value ← string2ll entry;
  Some (value,
    if (0 <=? value) && (value <=? 12) then ZIP_INT_IMM_MIN + value
    else if (- 2 ^ 7 <=? value) && (value <=? 2 ^ 7 - 1) then ZIP_INT_8B
    else if (- 2 ^ 15 <=? value) && (value <=? 2 ^ 15 - 1) then ZIP_INT_16B
    else if (- 2 ^ 23 <=? value) && (value <=? 2 ^ 23 - 1) then ZIP_INT_24B
    else if (- 2 ^ 31 <=? value) && (value <=? 2 ^ 31 - 1) then ZIP_INT_32B
    else ZIP_INT_64B).

Definition zipSaveInteger (zl : list Z) (p value encoding : Z) : option (list Z) :=
  if encoding =? ZIP_INT_8B then store zl p [u8 value]
  else if encoding =? ZIP_INT_16B then bs ← memrev16ifbe be (to_mem be 2 value); store zl p bs
  else if encoding =? ZIP_INT_24B then
    bs ← memrev32ifbe be (to_mem be 4 (Z.shiftl value 8)); store zl p (drop 1 bs)
  else if encoding =? ZIP_INT_32B then bs ← memrev32ifbe be (to_mem be 4 value); store zl p bs
  else if encoding =? ZIP_INT_64B then bs ← memrev64ifbe be (to_mem be 8 value); store zl p bs
  else if (ZIP_INT_IMM_MIN <=? encoding) && (encoding <=? ZIP_INT_IMM_MAX) then Some zl
  else None.

Definition zipLoadInteger (zl : list Z) (p encoding : Z) : option Z :=
  if encoding =? ZIP_INT_8B then c ← get8 zl p; Some (wraps 8 c)
  else if encoding =? ZIP_INT_16B then
    bs ← load zl p 2; bs ← memrev16ifbe be bs; Some (i16 (of_mem be bs))
  else if encoding =? ZIP_INT_32B then
    bs ← load zl p 4; bs ← memrev32ifbe be bs; Some (i32 (of_mem be bs))
  else if encoding =? ZIP_INT_24B then
    bs ← load zl p 3; bs ← memrev32ifbe be (0 :: bs); Some (Z.shiftr (i32 (of_mem be bs)) 8)
  else if encoding =? ZIP_INT_64B then
    bs ← load zl p 8; bs ← memrev64ifbe be bs; Some (i64 (of_mem be bs))
  else if (ZIP_INT_IMM_MIN <=? encoding) && (encoding <=? ZIP_INT_IMM_MAX) then
    Some (Z.land encoding ZIP_INT_IMM_MASK - 1)
  else None.

Definition zipEntry (zl : list Z) (p : Z) : option zlentry :=
  '(psize, plen) ← ZIP_DECODE_PREVLEN zl p;
  '(enc, lsize, len) ← ZIP_DECODE_LENGTH zl (p + psize);
  Some (mkZle psize plen lsize len (u32 (psize + lsize)) enc p).

(** ** The header *)

(** [intrev32ifbe] of the [uint32_t] at [off], and its assignment. *)
Definition get_u32 (zl : list Z) (off : Z) : option Z :=
  bs ← load zl off 4; intrev32ifbe be (of_mem be bs).
Definition put_u32 (zl : list Z) (off v : Z) : option (list Z) :=
  v ← intrev32ifbe be (u32 v); store zl off (to_mem be 4 v).
Definition ZIPLIST_BYTES (zl : list Z) : option Z := get_u32 zl 0.
Definition ZIPLIST_TAIL_OFFSET (zl : list Z) : option Z := get_u32 zl 4.
(** [ZIPLIST_LENGTH(zl)], as it is in memory *)
Definition ZIPLIST_LENGTH (zl : list Z) : option Z := of_mem be <$> load zl 8 2.
Definition put_length (zl : list Z) (v : Z) : option (list Z) :=
  v ← intrev16ifbe be (u16 v); store zl 8 (to_mem be 2 v).

Definition ZIPLIST_INCR_LENGTH (zl : list Z) (incr : Z) : option (list Z) :=
  n ← ZIPLIST_LENGTH zl;
  if n <? UINT16_MAX then n ← intrev16ifbe be n; put_length zl (n +u32 incr) else Some zl.

Definition ziplistNew : option (list Z) :=
  let bytes := ZIPLIST_HEADER_SIZE + 1 in
  let zl := junk <$> seq 0 (Z.to_nat bytes) in
  zl ← put_u32 zl 0 bytes;
  zl ← put_u32 zl 4 ZIPLIST_HEADER_SIZE;
  zl ← store zl 8 (to_mem be 2 0);
  put8 zl (bytes - 1) ZIP_END.

Definition ziplistResize (zl : list Z) (len : Z) : option (list Z) :=
  let zl := realloc junk zl len in
  zl ← put_u32 zl 0 len;
  put8 zl (len - 1) ZIP_END.

(** ** Cascade of updates *)

(** [while (p[0] != ZIP_END)] *)
Fixpoint cascade_loop (fuel : nat) (zl : list Z) (p curlen : Z) : option (list Z) :=
  match fuel with
  | O => None
  | S fuel =>
      c ← get8 zl p;
      if c =? ZIP_END then Some zl else
      cur ← zipEntry zl p;
      let rawlen := headersize cur +u32 len cur in
      let rawlensize := zipPrevEncodeLength_size rawlen in
      c ← get8 zl (p + rawlen);
      if c =? ZIP_END then Some zl else
      next ← zipEntry zl (p + rawlen);
      if prevrawlen next =? rawlen then Some zl else
      if prevrawlensize next <? rawlensize then
        let extra := rawlensize - prevrawlensize next in
        zl ← ziplistResize zl (u32 (curlen + extra));
        let np := p + rawlen in
        tail ← ZIPLIST_TAIL_OFFSET zl;
        zl ← (if negb (tail =? np) then put_u32 zl 4 (u64 (tail + extra)) else Some zl);
        zl ← memmove zl (np + rawlensize) (np + prevrawlensize next) (u64 (curlen - np - prevrawlensize next - 1));
        '(zl, _) ← zipPrevEncodeLength zl np rawlen;
        cascade_loop fuel zl np (u64 (curlen + extra))
      else if rawlensize <? prevrawlensize next then zipPrevEncodeLengthForceLarge zl (p + rawlen) rawlen
      else fst <$> zipPrevEncodeLength zl (p + rawlen) rawlen
  end.

Definition __ziplistCascadeUpdate (zl : list Z) (p : Z) : option (list Z) :=
  curlen ← ZIPLIST_BYTES zl; cascade_loop (length zl) zl p curlen.

(** ** Deletion *)

(** [for (i = 0; p[0] != ZIP_END && i < num; i++)]: the position and the number
    of entries passed. *)
Fixpoint delete_walk (fuel : nat) (zl : list Z) (p i num : Z) : option (Z * Z) :=
  match fuel with
  | O => None
  | S fuel =>
      c ← get8 zl p;
      if negb (c =? ZIP_END) && (i <? num) then
        n ← zipRawEntryLength zl p; delete_walk fuel zl (p + n) (i +u32 1) num
      else Some (p, i)
  end.

(** The branch of [__ziplistDelete] where an entry follows: the block and
    [nextdiff]. *)
Definition delete_middle (zl : list Z) (first : zlentry) (p totlen : Z) : option (list Z * Z) :=
  nextdiff ← zipPrevLenByteDiff zl p (prevrawlen first);
  let p := p - nextdiff in
  '(zl, _) ← zipPrevEncodeLength zl p (prevrawlen first);
  off ← ZIPLIST_TAIL_OFFSET zl;
  zl ← put_u32 zl 4 (off -u32 totlen);
  tail ← zipEntry zl p;
  c ← get8 zl (p + (headersize tail +u32 len tail));
  zl ← (if negb (c =? ZIP_END) then off ← ZIPLIST_TAIL_OFFSET zl; put_u32 zl 4 (off +u32 nextdiff) else Some zl);
  bytes ← ZIPLIST_BYTES zl;
  zl ← memmove zl (ep first) p (u64 (bytes - p - 1));
  Some (zl, nextdiff).

Definition __ziplistDelete (zl : list Z) (p num : Z) : option (list Z) :=
  first ← zipEntry zl p;
  '(p, deleted) ← delete_walk (S (length zl)) zl p 0 num;
  let totlen := u32 (p - ep first) in
  if 0 <? totlen then
    c ← get8 zl p;
    '(zl, nextdiff) ←
      (if negb (c =? ZIP_END) then delete_middle zl first p totlen
       else zl ← put_u32 zl 4 (ep first - prevrawlen first); Some (zl, 0));
    bytes ← ZIPLIST_BYTES zl;
    zl ← ziplistResize zl (u32 (u32 (bytes - totlen) + nextdiff));
    zl ← ZIPLIST_INCR_LENGTH zl (u32 (- deleted));
    if negb (nextdiff =? 0) then __ziplistCascadeUpdate zl (ep first) else Some zl
  else Some zl.

(** ** Insertion *)

(** The length of the entry before [p]. *)
Definition insert_prevlen (zl : list Z) (p : Z) : option Z :=
  c ← get8 zl p;
  if negb (c =? ZIP_END) then snd <$> ZIP_DECODE_PREVLEN zl p else
  ptail ← ZIPLIST_TAIL_OFFSET zl;
  c ← get8 zl ptail;
  if negb (c =? ZIP_END) then zipRawEntryLength zl ptail else Some 0.

(** [memmove] and the tail offset, when [p] is not the end. *)
Definition insert_move (zl : list Z) (p curlen reqlen nextdiff : Z) : option (list Z) :=
  zl ← memmove zl (p + reqlen) (p - nextdiff) (u64 (curlen - p - 1 + nextdiff));
  '(zl, _) ← zipPrevEncodeLength zl (p + reqlen) (u32 reqlen);
  off ← ZIPLIST_TAIL_OFFSET zl;
  zl ← put_u32 zl 4 (u64 (off + reqlen));
  tail ← zipEntry zl (p + reqlen);
  c ← get8 zl (p + reqlen + (headersize tail +u32 len tail));
  if negb (c =? ZIP_END) then off ← ZIPLIST_TAIL_OFFSET zl; put_u32 zl 4 (off +u32 nextdiff) else Some zl.

(** [value], [encoding] and the size of the payload. *)
Definition insert_encoding (s : list Z) : Z * Z * Z :=
  match zipTryEncoding s with
  | Some (value, encoding) => (value, encoding, zipIntSize encoding)
  | None => (123456789, 0, zlen s)
  end.

(** The entry itself. *)
Definition insert_write (zl : list Z) (p prevlen value encoding : Z) (s : list Z) : option (list Z) :=
  '(zl, n) ← zipPrevEncodeLength zl p prevlen;
  let p := p + n in
  '(zl, n) ← zipEncodeLength zl p encoding (zlen s);
  let p := p + n in
  if ZIP_IS_STR encoding then store zl p s else zipSaveInteger zl p value encoding.

Definition __ziplistInsert (zl : list Z) (p : Z) (s : list Z) : option (list Z) :=
  curlen ← ZIPLIST_BYTES zl;
  prevlen ← insert_prevlen zl p;
  let '(value, encoding, reqlen) := insert_encoding s in
  let reqlen := u64 (reqlen + zipPrevEncodeLength_size prevlen) in
  let reqlen := u64 (reqlen + zipEncodeLength_size encoding (zlen s)) in
  c ← get8 zl p;
  nextdiff ← (if negb (c =? ZIP_END) then zipPrevLenByteDiff zl p (u32 reqlen) else Some 0);
  zl ← ziplistResize zl (u32 (curlen + reqlen + nextdiff));
  c ← get8 zl p;
  zl ← (if negb (c =? ZIP_END) then insert_move zl p curlen reqlen nextdiff
        else put_u32 zl 4 p);
  zl ← (if negb (nextdiff =? 0) then __ziplistCascadeUpdate zl (p + reqlen) else Some zl);
  zl ← insert_write zl p prevlen value encoding s;
  ZIPLIST_INCR_LENGTH zl 1.

Definition ziplistInsert (zl : list Z) (p : Z) (s : list Z) : option (list Z) := __ziplistInsert zl p s.

(** [where]: is it [ZIPLIST_HEAD]? *)
Definition ziplistPush (zl s : list Z) (where_head : bool) : option (list Z) :=
  p ← (if where_head then Some ZIPLIST_HEADER_SIZE else b ← ZIPLIST_BYTES zl; Some (b - 1));
  __ziplistInsert zl p s.

(** ** Traversal *)

(** [while (prevlen > 0 && index--)]; the result holds [index] after the loop. *)
Fixpoint index_back (fuel : nat) (zl : list Z) (p prevlen index : Z) : option (Z * Z) :=
  match fuel with
  | O => None
  | S fuel =>
      if 0 <? prevlen then
        if index =? 0 then Some (p, -1) else
        let p := p - prevlen in
        '(_, prevlen) ← ZIP_DECODE_PREVLEN zl p;
        index_back fuel zl p prevlen (index - 1)
      else Some (p, index)
  end.
(** [while (p[0] != ZIP_END && index--)] *)
Fixpoint index_fwd (fuel : nat) (zl : list Z) (p index : Z) : option (Z * Z) :=
  match fuel with
  | O => None
  | S fuel =>
      c ← get8 zl p;
      if negb (c =? ZIP_END) then
        if index =? 0 then Some (p, -1) else
        n ← zipRawEntryLength zl p; index_fwd fuel zl (p + n) (index - 1)
      else Some (p, index)
  end.

(** [-index] overflows for [INT_MIN]. *)
Definition ziplistIndex (zl : list Z) (index : Z) : option (option Z) :=
  '(p, index) ←
    (if index <? 0 then
       if index =? - 2 ^ 31 then None else
       let index := - index - 1 in
       p ← ZIPLIST_TAIL_OFFSET zl;
       c ← get8 zl p;
       if negb (c =? ZIP_END) then
         '(_, prevlen) ← ZIP_DECODE_PREVLEN zl p; index_back (S (length zl)) zl p prevlen index
       else Some (p, index)
     else index_fwd (S (length zl)) zl ZIPLIST_HEADER_SIZE index);
  c ← get8 zl p;
  Some (if (c =? ZIP_END) || (0 <? index) then None else Some p).

Definition ziplistNext (zl : list Z) (p : Z) : option (option Z) :=
  c ← get8 zl p;
  if c =? ZIP_END then Some None else
  n ← zipRawEntryLength zl p;
  c ← get8 zl (p + n);
  Some (if c =? ZIP_END then None else Some (p + n)).

Definition ziplistPrev (zl : list Z) (p : Z) : option (option Z) :=
  c ← get8 zl p;
  if c =? ZIP_END then
    p ← ZIPLIST_TAIL_OFFSET zl;
    c ← get8 zl p;
    Some (if c =? ZIP_END then None else Some p)
  else if p =? ZIPLIST_HEADER_SIZE then Some None else
  '(_, prevlen) ← ZIP_DECODE_PREVLEN zl p;
  if 0 <? prevlen then Some (Some (p - prevlen)) else None.

(** What [ziplistGet] stores: [sstr] with [slen] bytes, or [sval]. *)
Inductive zval := ZS (s : list Z) | ZI (v : Z).

Definition ziplistGet (zl : list Z) (p : option Z) : option (option zval) :=
  match p with
  | None => Some None
  | Some p =>
      c ← get8 zl p;
      if c =? ZIP_END then Some None else
      entry ← zipEntry zl p;
      if ZIP_IS_STR (encoding entry) then
        s ← load zl (p + headersize entry) (len entry); Some (Some (ZS s))
      else v ← zipLoadInteger zl (p + headersize entry) (encoding entry); Some (Some (ZI v))
  end.

(** The block and [*p], which keeps its offset. *)
Definition ziplistDelete (zl : list Z) (p : Z) : option (list Z * Z) :=
  zl ← __ziplistDelete zl p 1; Some (zl, p).

Definition ziplistDeleteRange (zl : list Z) (index num : Z) : option (list Z) :=
  p ← ziplistIndex zl (i32 index);
  match p with None => Some zl | Some p => __ziplistDelete zl p num end.

Definition ziplistCompare (zl : list Z) (p : Z) (sstr : list Z) : option bool :=
  c ← get8 zl p;
  if c =? ZIP_END then Some false else
  entry ← zipEntry zl p;
  if ZIP_IS_STR (encoding entry) then
    if len entry =? zlen sstr then
      bs ← load zl (p + headersize entry) (zlen sstr); Some (bool_decide (bs = sstr))
    else Some false
  else
    match zipTryEncoding sstr with
    | Some (sval, _) => zval ← zipLoadInteger zl (p + headersize entry) (encoding entry); Some (zval =? sval)
    | None => Some false
    end.

(** [while (p[0] != ZIP_END)] of [ziplistFind]; [venc] is [vencoding]. *)
Fixpoint find_loop (fuel : nat) (zl : list Z) (p : Z) (vstr : list Z) (skip skipcnt venc vll : Z) : option (option Z) :=
  match fuel with
  | O => None
  | S fuel =>
      c ← get8 zl p;
      if c =? ZIP_END then Some None else
      prevlensize ← ZIP_DECODE_PREVLENSIZE zl p;
      '(enc, lsize, l) ← ZIP_DECODE_LENGTH zl (p + prevlensize);
      let q := p + prevlensize + lsize in
      if skipcnt =? 0 then
        if ZIP_IS_STR enc then
          hit ← (if l =? zlen vstr then bs ← load zl q (zlen vstr); Some (bool_decide (bs = vstr)) else Some false);
          if (hit : bool) then Some (Some p) else find_loop fuel zl (q + l) vstr skip skip venc vll
        else
          let '(venc, vll) :=
            if venc =? 0 then match zipTryEncoding vstr with Some (v, e) => (e, v) | None => (255, vll) end
            else (venc, vll) in
          hit ← (if negb (venc =? 255) then ll ← zipLoadInteger zl q enc; Some (ll =? vll) else Some false);
          if (hit : bool) then Some (Some p) else find_loop fuel zl (q + l) vstr skip skip venc vll
      else find_loop fuel zl (q + l) vstr skip (skipcnt - 1) venc vll
  end.
Definition ziplistFind (zl : list Z) (p : Z) (vstr : list Z) (skip : Z) : option (option Z) :=
  find_loop (S (length zl)) zl p vstr (i32 skip) 0 0 0.

(** [while ( *p != ZIP_END)] *)
Fixpoint zl_count_loop (fuel : nat) (zl : list Z) (p len : Z) : option Z :=
  match fuel with
  | O => None
  | S fuel =>
      c ← get8 zl p;
      if c =? ZIP_END then Some len else
      n ← zipRawEntryLength zl p; zl_count_loop fuel zl (p + n) (len +u32 1)
  end.

(** The block, where the length may be stored again, and the length. *)
Definition ziplistLen (zl : list Z) : option (list Z * Z) :=
  n ← ZIPLIST_LENGTH zl;
  n ← intrev16ifbe be n;
  if n <? UINT16_MAX then Some (zl, n) else
  len ← zl_count_loop (S (length zl)) zl ZIPLIST_HEADER_SIZE 0;
  zl ← (if len <? UINT16_MAX then put_length zl len else Some zl);
  Some (zl, len).

Definition ziplistBlobLen (zl : list Z) : option Z := ZIPLIST_BYTES zl.

End ziplist.
