(* ===== verification/ZiplistFacts.v ===== *)
(** * ZiplistFacts: the layout of a ziplist and its preservation

    A ziplist is seen as the sequence of its entries: the string, and whether
    the length of the previous entry takes 5 bytes ([wide]).  [ents] gives the
    bytes; every operation of Ziplist is shown to move from a layout to a
    layout, the cascade of updates being [widen]. *)

From S2P Require Import Prelude Endian NumConv Objects Ziplist.

(** ** Reading a part of a block *)

Lemma load_frame b A B i n bs :
  load b i n = Some bs → load (A ++ b ++ B) (zlen A + i) n = Some bs.
Proof.
  unfold load. case_bool_decide as H; [|done]. intros [= <-].
  rewrite bool_decide_true by len. f_equal.
  replace (Z.to_nat (zlen A + i)) with (length A + Z.to_nat i)%nat by len. rewrite <- drop_drop, drop_app_length.
  rewrite drop_app_le by len. by rewrite take_app_le by len.
Qed.
Lemma get8_frame b A B i c : get8 b i = Some c → get8 (A ++ b ++ B) (zlen A + i) = Some c.
Proof.
  unfold get8. intros H. destruct (load b i 1) as [bs|] eqn:E; [|done]. by rewrite (load_frame _ _ _ _ _ _ E).
Qed.

Lemma decode_length_frame b A B p r :
  ZIP_DECODE_LENGTH b 0 = Some r → p = zlen A → ZIP_DECODE_LENGTH (A ++ b ++ B) p = Some r.
Proof.
  intros H ->. unfold ZIP_DECODE_LENGTH in *.
  assert (∀ i c, get8 b i = Some c → get8 (A ++ b ++ B) (zlen A + i) = Some c) as Hf by (intros; by apply get8_frame).
  destruct (get8 b 0) as [c|] eqn:E0; [|done]. apply Hf in E0. rewrite Z.add_0_r in E0. rewrite E0. cbn [mbind option_bind] in *.
  repeat case_if; try done.
  - destruct (get8 b (0 + 1)) as [d|] eqn:E1; [|done]. apply Hf in E1. rewrite Z.add_0_l in E1. by rewrite E1.
  - destruct (get8 b (0 + 1)) as [c1|] eqn:E1; [|done]. destruct (get8 b (0 + 2)) as [c2|] eqn:E2; [|done].
    destruct (get8 b (0 + 3)) as [c3|] eqn:E3; [|done]. destruct (get8 b (0 + 4)) as [c4|] eqn:E4; [|done].
    apply Hf in E1, E2, E3, E4. rewrite Z.add_0_l in E1, E2, E3, E4. rewrite E1, E2, E3, E4. done.
Qed.

(** ** Integers *)

(** The bytes of an integer in an encoding. *)
Definition int_bytes (v encoding : Z) : list Z := Z_to_little_endian (zipIntSize encoding) 8 v.

Definition int_fits (v encoding : Z) : Prop :=
  encoding = ZIP_INT_8B ∧ in_s 8 v ∨ encoding = ZIP_INT_16B ∧ in_s 16 v ∨ encoding = ZIP_INT_24B ∧ in_s 24 v ∨
  encoding = ZIP_INT_32B ∧ in_s 32 v ∨ encoding = ZIP_INT_64B ∧ in_s 64 v ∨
  ZIP_INT_IMM_MIN ≤ encoding ≤ ZIP_INT_IMM_MAX ∧ encoding = ZIP_INT_IMM_MIN + v.

Lemma zlen_le n v : 0 ≤ n → zlen (Z_to_little_endian n 8 v) = n.
Proof. intros. by apply length_Z_to_little_endian. Qed.

Lemma zipTryEncoding_fits s v e : zipTryEncoding s = Some (v, e) → string2ll s = Some v ∧ int_fits v e.
Proof.
  unfold zipTryEncoding. destruct (_ || _); [done|]. destruct (string2ll s) as [w|] eqn:E; [|done]. cbn [mbind option_bind].
  intros [= -> He]. split; [done|]. apply string2ll_spec in E as [_ Hv]. unfold int_fits, in_s in *. revert Hv He.
  unfold ZIP_INT_IMM_MIN, ZIP_INT_IMM_MAX, ZIP_INT_8B, ZIP_INT_16B, ZIP_INT_24B, ZIP_INT_32B, ZIP_INT_64B.
  pow_compute. intros Hv He.
  repeat match type of He with context [if ?b then _ else _] => destruct b eqn:?; bool_tests end; subst e; lia.
Qed.

Lemma int_fits_enc v e : int_fits v e → 192 ≤ e < 255 ∧ 0 ≤ zipIntSize e ≤ 8 ∧ ZIP_IS_STR e = false.
Proof.
  intros H. assert (192 ≤ e < 255) as He.
  { unfold int_fits, ZIP_INT_IMM_MIN, ZIP_INT_IMM_MAX, ZIP_INT_8B, ZIP_INT_16B, ZIP_INT_24B, ZIP_INT_32B, ZIP_INT_64B in H. lia. }
  split; [done|]. split; [unfold zipIntSize; repeat case_if; lia|].
  assert (∀ n, (n < 63)%nat → ZIP_IS_STR (192 + Z.of_nat n) = false) as Hall.
  { intros n Hn. do 63 (destruct n as [|n]; [done|]). lia. }
  replace e with (192 + Z.of_nat (Z.to_nat (e - 192))) by lia. apply Hall. lia.
Qed.

Lemma le_shift3 v : Z_to_little_endian 4 8 (Z.shiftl v 8) = 0 :: Z_to_little_endian 3 8 v.
Proof.
  change (Z_to_little_endian 4 8 (Z.shiftl v 8)) with
    (Z.land (Z.shiftl v 8) (Z.ones 8) :: Z_to_little_endian 3 8 (Z.shiftr (Z.shiftl v 8) 8)).
  rewrite Z.shiftr_shiftl_l, Z.shiftl_0_r by lia. f_equal. rewrite Z.land_ones, Z.shiftl_mul_pow2 by lia. by apply Z_mod_mult.
Qed.

Section integers.
Context (be : host).

Lemma saveInteger_spec A R B p v e :
  p = zlen A → int_fits v e → zlen R = zipIntSize e →
  zipSaveInteger be (A ++ R ++ B) p v e = Some (A ++ int_bytes v e ++ B).
Proof.
  intros -> Hf HR. assert (length R = length (int_bytes v e)) as Hl.
  { unfold int_bytes. apply Nat2Z.inj. fold (zlen R). rewrite HR. symmetry. apply zlen_le.
    by destruct (int_fits_enc _ _ Hf) as (_ & [? _] & _). }
  unfold zipSaveInteger, int_bytes in *.
  destruct Hf as [[-> Hv]|[[-> Hv]|[[-> Hv]|[[-> Hv]|[[-> Hv]|[He Hv]]]]]].
  1-5: cbn - [Z_to_little_endian memrev16ifbe memrev32ifbe memrev64ifbe store Z.shiftl] in *.
  - change (Z_to_little_endian 1 8 v) with [Z.land v (Z.ones 8)]. rewrite Z.land_ones by lia. by apply store_app.
  - rewrite memrev16_to. by apply store_app.
  - rewrite memrev32_to, le_shift3. by apply store_app.
  - rewrite memrev32_to. by apply store_app.
  - rewrite memrev64_to. by apply store_app.
  - assert (zipIntSize e = 0) as E0.
    { unfold zipIntSize, ZIP_INT_IMM_MIN, ZIP_INT_IMM_MAX, ZIP_INT_8B, ZIP_INT_16B, ZIP_INT_24B, ZIP_INT_32B, ZIP_INT_64B in *.
      repeat case_if; lia. }
    rewrite E0 in *. assert (R = []) as -> by (destruct R; [done|]; revert HR; len).
    unfold ZIP_INT_IMM_MIN, ZIP_INT_IMM_MAX, ZIP_INT_8B, ZIP_INT_16B, ZIP_INT_24B, ZIP_INT_32B, ZIP_INT_64B in *.
    by repeat case_if; try lia.
Qed.

Lemma loadInteger_spec A B p v e :
  p = zlen A → int_fits v e → zipLoadInteger be (A ++ int_bytes v e ++ B) p e = Some v.
Proof.
  intros -> Hf. unfold zipLoadInteger, int_bytes.
  destruct Hf as [[-> Hv]|[[-> Hv]|[[-> Hv]|[[-> Hv]|[[-> Hv]|[He Hv]]]]]].
  1-5: cbn - [Z_to_little_endian memrev16ifbe memrev32ifbe memrev64ifbe load Z.shiftr wraps get8].
  - change (Z_to_little_endian 1 8 v) with [Z.land v (Z.ones 8)]. cbn [app]. rewrite (get8_app A) by done. cbn [mbind option_bind].
    f_equal. rewrite Z.land_ones by lia. by apply (wraps_wrapu_id 8).
  - rewrite load_app by (rewrite ?zlen_le by lia; done). cbn [mbind option_bind]. rewrite memrev16_of. cbn [mbind option_bind].
    rewrite of_to_mem by lia. f_equal. by apply (wraps_wrapu_id 16).
  - rewrite load_app by (rewrite ?zlen_le by lia; done). cbn [mbind option_bind]. rewrite <- le_shift3, memrev32_of.
    cbn [mbind option_bind]. rewrite of_to_mem by lia. f_equal. rewrite (wraps_wrapu_id 32); [|done|].
    + by rewrite Z.shiftr_shiftl_l, Z.shiftl_0_r by lia.
    + rewrite Z.shiftl_mul_pow2 by lia. revert Hv. unfold in_s. pow_compute. lia.
  - rewrite load_app by (rewrite ?zlen_le by lia; done). cbn [mbind option_bind]. rewrite memrev32_of. cbn [mbind option_bind].
    rewrite of_to_mem by lia. f_equal. by apply (wraps_wrapu_id 32).
  - rewrite load_app by (rewrite ?zlen_le by lia; done). cbn [mbind option_bind]. rewrite memrev64_of. cbn [mbind option_bind].
    rewrite of_to_mem by lia. f_equal. by apply (wraps_wrapu_id 64).
  - unfold ZIP_INT_IMM_MIN, ZIP_INT_IMM_MAX, ZIP_INT_8B, ZIP_INT_16B, ZIP_INT_24B, ZIP_INT_32B, ZIP_INT_64B, ZIP_INT_IMM_MASK in *.
    repeat case_if; try lia. f_equal. change 15 with (Z.ones 4). rewrite Z.land_ones by lia.
    subst e. replace (241 + v) with (v + 1 + 15 * 2 ^ 4) by lia. rewrite Z_mod_plus_full, Z.mod_small; lia.
Qed.

End integers.

(** ** The bytes of an entry after the length of the previous one *)

Definition encode (s : list Z) : list Z :=
  match zipTryEncoding s with
  | Some (v, e) => e :: int_bytes v e
  | None => zipEncodeLength_buf 0 (zlen s) ++ s
  end.
Definition read_back (s : list Z) : zval :=
  match zipTryEncoding s with Some (v, _) => ZI v | None => ZS s end.
(** The encoding, the size of the length and the length. *)
Definition shape (s : list Z) : Z * Z * Z :=
  match zipTryEncoding s with
  | Some (v, e) => (e, 1, zipIntSize e)
  | None =>
      (if zlen s <=? 63 then ZIP_STR_06B else if zlen s <=? 16383 then ZIP_STR_14B else ZIP_STR_32B,
       zipEncodeLength_size 0 (zlen s), zlen s)
  end.

Lemma zlen_encode_buf l : zlen (zipEncodeLength_buf 0 l) = zipEncodeLength_size 0 l.
Proof. unfold zipEncodeLength_buf, zipEncodeLength_size. change (ZIP_IS_STR 0) with true. cbv iota. by repeat case_if. Qed.
Lemma encode_size_bound e l : 1 ≤ zipEncodeLength_size e l ≤ 5.
Proof. unfold zipEncodeLength_size. repeat case_if; lia. Qed.

Lemma zlen_encode s : zlen (encode s) = (shape s).1.2 + (shape s).2.
Proof.
  unfold encode, shape. destruct (zipTryEncoding s) as [[v e]|] eqn:E.
  - cbn. apply zipTryEncoding_fits in E as [_ Hf]. unfold zlen. cbn [length].
    destruct (int_fits_enc _ _ Hf) as (_ & [? _] & _). pose proof (zlen_le (zipIntSize e) v) as Hl. unfold zlen, int_bytes in *. lia.
  - by rewrite zlen_app, zlen_encode_buf.
Qed.

Lemma shape_bounds s : 1 ≤ (shape s).1.2 ≤ 5 ∧ 0 ≤ (shape s).2.
Proof.
  unfold shape. destruct (zipTryEncoding s) as [[v e]|] eqn:E; cbn.
  - apply zipTryEncoding_fits in E as [_ Hf]. destruct (int_fits_enc _ _ Hf) as (_ & ? & _). lia.
  - pose proof (encode_size_bound 0 (zlen s)). pose proof (zlen_nonneg s). lia.
Qed.

Lemma be32_split n : in_u 32 n →
  Z.lor (Z.lor (Z.lor (Z.shiftl (Z.land (Z.shiftr n 24) 255) 24) (Z.shiftl (Z.land (Z.shiftr n 16) 255) 16))
    (Z.shiftl (Z.land (Z.shiftr n 8) 255) 8)) (Z.land n 255) = n.
Proof.
  intros Hn. apply Z.bits_inj'. intros i Hi. change 255 with (Z.ones 8).
  rewrite !Z.lor_spec, !Z.shiftl_spec, !Z.land_spec by lia.
  assert (∀ k, Z.testbit (Z.ones 8) k = (0 <=? k) && (k <? 8)) as Ho by (intros; apply Z.testbit_ones; lia).
  rewrite !Ho.
  assert (∀ k, 0 ≤ k → k ≤ i → Z.testbit (Z.shiftr n k) (i - k) = Z.testbit n i) as Hs.
  { intros k Hk Hki. rewrite Z.shiftr_spec by lia. f_equal. lia. }
  assert (∀ k j, j < 0 → Z.testbit k j = false) as Hneg by (intros; apply Z.testbit_neg_r; lia).
  destruct (decide (32 ≤ i)) as [Hbig|].
  { rewrite (in_u_testbit 32 n i Hn) by lia. rewrite !Hs by lia. rewrite (in_u_testbit 32 n i Hn) by lia. done. }
  destruct (decide (24 ≤ i)); [|destruct (decide (16 ≤ i)); [|destruct (decide (8 ≤ i))]];
    try rewrite (Hs 24) by lia; try rewrite (Hs 16) by lia; try rewrite (Hs 8) by lia; rewrite ?Hneg by lia;
    repeat match goal with |- context [?a <=? ?b] => destruct (Z.leb_spec a b); try lia end;
    repeat match goal with |- context [?a <? ?b] => destruct (Z.ltb_spec a b); try lia end;
    by destruct (Z.testbit n i).
Qed.

Lemma u8_land255 n : u8 (Z.land n 255) = Z.land n 255.
Proof. apply wrapu_small. change 255 with (Z.ones 8). rewrite Z.land_ones by lia. by apply (wrapu_range 8). Qed.

Lemma is_str_small c : 0 ≤ c < 192 → ZIP_ENTRY_ENCODING c = Z.land c 192 ∧ (ZIP_STR_MASK =? 192) = true.
Proof. intros Hc. unfold ZIP_ENTRY_ENCODING, ZIP_STR_MASK. by destruct (Z.ltb_spec c 192); [|lia]. Qed.

(** A tag in the two high bits of a byte. *)
Lemma tag_low t x : 0 ≤ x < 64 → 0 ≤ t < 4 →
  u8 (Z.lor (Z.shiftl t 6) x) = 64 * t + x ∧ Z.land (64 * t + x) 192 = 64 * t ∧ Z.land (64 * t + x) 63 = x.
Proof.
  intros Hx Ht.
  assert (Z.lor (Z.shiftl t 6) x = 64 * t + x) as ->.
  { rewrite lor_disjoint_add; [rewrite Z.shiftl_mul_pow2; lia|].
    apply Z.bits_inj'. intros i Hi. rewrite Z.bits_0, Z.land_spec. destruct (decide (i < 6)).
    - by rewrite Z.shiftl_spec_low.
    - rewrite (in_u_testbit 6 x) by (unfold in_u; lia). by rewrite andb_false_r. }
  rewrite wrapu_small by (unfold in_u; lia). split; [done|].
  assert (Z.land (64 * t + x) 63 = x) as E.
  { change 63 with (Z.ones 6). rewrite Z.land_ones by lia. change (2 ^ 6) with 64.
    rewrite Z.add_comm, Z.mul_comm, Z_mod_plus_full. by apply Z.mod_small. }
  split; [|done].
  pose proof (Z.add_lor_land (Z.land (64 * t + x) 192) (Z.land (64 * t + x) 63)) as H.
  rewrite <- Z.land_lor_distr_r in H. change (Z.lor 192 63) with (Z.ones 8) in H.
  rewrite (Z.land_ones _ 8), Z.mod_small in H by lia.
  rewrite <- Z.land_assoc, (Z.land_comm 192), <- Z.land_assoc in H. rewrite (Z.land_assoc (64 * t + x)) in H.
  change (Z.land 63 192) with 0 in H. rewrite !Z.land_0_r in H. lia.
Qed.

Lemma decode_encode s : zlen s < 2 ^ 31 → ZIP_DECODE_LENGTH (encode s) 0 = Some (shape s).
Proof.
  intros Hs. unfold encode, shape. destruct (zipTryEncoding s) as [[v e]|] eqn:E.
  { apply zipTryEncoding_fits in E as [_ Hf]. destruct (int_fits_enc _ _ Hf) as (He & _ & _).
    unfold ZIP_DECODE_LENGTH. rewrite get8_0. cbn [mbind option_bind]. unfold ZIP_ENTRY_ENCODING, ZIP_STR_MASK.
    rewrite (proj2 (Z.ltb_ge e 192)) by lia. by rewrite (proj2 (Z.ltb_ge e 192)) by lia. }
  clear E. pose proof (zlen_nonneg s). unfold zipEncodeLength_buf, zipEncodeLength_size, ZIP_DECODE_LENGTH.
  change (ZIP_IS_STR 0) with true. cbv iota. repeat case_if; cbn [app]; rewrite get8_0; cbn [mbind option_bind].
  - destruct (tag_low 0 (zlen s)) as (E1 & E2 & E3); [lia..|]. change (Z.lor ZIP_STR_06B (zlen s)) with (Z.lor (Z.shiftl 0 6) (zlen s)).
    rewrite E1. destruct (is_str_small (64 * 0 + zlen s)) as [-> _]; [lia|]. rewrite E2, E3. done.
  - assert (Z.land (Z.shiftr (zlen s) 8) 63 = Z.shiftr (zlen s) 8 ∧ 0 ≤ Z.shiftr (zlen s) 8 < 64) as [-> Hr].
    { change 63 with (Z.ones 6). rewrite Z.land_ones, Z.shiftr_div_pow2 by lia. change (2 ^ 8) with 256. change (2 ^ 6) with 64.
      rewrite Z.mod_small; divlia. }
    destruct (tag_low 1 (Z.shiftr (zlen s) 8)) as (E1 & E2 & E3); [lia..|].
    change ZIP_STR_14B with (Z.shiftl 1 6). rewrite E1, (get8_lookup _ (0 + 1)) by lia.
    destruct (is_str_small (64 * 1 + Z.shiftr (zlen s) 8)) as [-> _]; [lia|]. rewrite E2, E3.
    change (64 * 1) with 64. change (Z.shiftl 1 6) with 64. cbn - [Z.shiftl Z.shiftr Z.lor Z.land wrapu]. rewrite u8_land255.
    change (Z.to_nat (0 + 1)) with 1%nat. cbn [lookup list_lookup mbind option_bind]. do 2 f_equal.
    change 255 with (Z.ones 8). rewrite lor_disjoint_add.
    + rewrite Z.land_ones, Z.shiftr_div_pow2, Z.shiftl_mul_pow2 by lia. pow_compute. divlia.
    + apply Z.bits_inj'. intros i Hi. rewrite Z.bits_0, Z.land_spec, Z.land_spec. destruct (decide (i < 8)).
      * by rewrite Z.shiftl_spec_low.
      * rewrite (in_u_testbit 8 (Z.ones 8)); [by rewrite !andb_false_r|by_decision|lia].
  - change (ZIP_ENTRY_ENCODING ZIP_STR_32B) with 128. cbn - [Z.shiftl Z.shiftr Z.lor Z.land wrapu get8].
    rewrite !(get8_lookup (_ :: _)) by lia. repeat match goal with |- context [Z.to_nat ?n] =>
      let v := eval vm_compute in (Z.to_nat n) in change (Z.to_nat n) with v end.
    cbn [lookup list_lookup mbind option_bind].
    rewrite !u8_land255, be32_split by (unfold in_u; lia).
    assert (Z.land (Z.shiftr (zlen s) 24) 255 < 128) as Hc.
    { change 255 with (Z.ones 8). rewrite Z.land_ones, Z.shiftr_div_pow2 by lia. pow_compute. divlia. }
    by rewrite (proj2 (Z.leb_gt 128 _)) by lia.
Qed.

(** ** The length of the previous entry *)

Definition field (w : bool) (n : Z) : list Z := if w then 254 :: Z_to_little_endian 4 8 n else [n].
Definition fsize (w : bool) : Z := if w then 5 else 1.
Definition field_ok (w : bool) (n : Z) : Prop := 0 ≤ n < 2 ^ 31 ∧ (w = false → n < 254).

Lemma zlen_field w n : zlen (field w n) = fsize w.
Proof.
  destruct w; [|done]. unfold field, zlen. cbn [length fsize]. pose proof (length_Z_to_little_endian 4 8 n ltac:(lia)). lia.
Qed.
Lemma fsize_need n : fsize (254 <=? n) = zipPrevEncodeLength_size n.
Proof. unfold fsize, zipPrevEncodeLength_size, ZIP_BIGLEN. destruct (Z.leb_spec 254 n), (Z.ltb_spec n 254); lia. Qed.
Lemma fsize_pos w : 1 ≤ fsize w ≤ 5.
Proof. destruct w; cbn; lia. Qed.

Section field.
Context (be : host).

(** The first byte of an entry is not [ZIP_END]. *)
Lemma field_first A w n B p : field_ok w n → p = zlen A → ∃ c, get8 (A ++ field w n ++ B) p = Some c ∧
  (c =? ZIP_END) = false ∧ (c <? ZIP_BIGLEN) = negb w.
Proof.
  intros [Hn Hw] ->. unfold ZIP_END, ZIP_BIGLEN. destruct w; cbn [field app]; rewrite (get8_app A) by done; eexists; (split; [done|]).
  - done.
  - specialize (Hw eq_refl). split; [apply Z.eqb_neq; lia|apply Z.ltb_lt; lia].
Qed.

Lemma prevlensize_spec A w n B p :
  field_ok w n → p = zlen A → ZIP_DECODE_PREVLENSIZE (A ++ field w n ++ B) p = Some (fsize w).
Proof.
  intros Hf Hp. unfold ZIP_DECODE_PREVLENSIZE. destruct (field_first A w n B p Hf Hp) as (c & -> & _ & Hc).
  cbn [mbind option_bind]. rewrite Hc. by destruct w.
Qed.

Lemma prevlen_spec A w n B p :
  field_ok w n → p = zlen A → ZIP_DECODE_PREVLEN be (A ++ field w n ++ B) p = Some (fsize w, n).
Proof.
  intros Hf Hp. unfold ZIP_DECODE_PREVLEN. rewrite (prevlensize_spec A w n B p Hf Hp). cbn [mbind option_bind].
  subst p. destruct w; cbn [fsize field app].
  - change (5 =? 1) with false. cbv iota.
    change (A ++ 254 :: Z_to_little_endian 4 8 n ++ B) with (A ++ [254] ++ Z_to_little_endian 4 8 n ++ B).
    rewrite app_assoc, load_app; [|by rewrite zlen_app|by rewrite zlen_le]. cbn [mbind option_bind].
    rewrite memrev32_of. cbn [mbind option_bind]. rewrite of_to_mem by lia. rewrite (wrapu_small (4 * 8)); [done|].
    destruct Hf as [Hf _]. unfold in_u. pow_compute. lia.
  - change (1 =? 1) with true. cbv iota. by rewrite (get8_app A) by done.
Qed.

Lemma prevdiff_spec A w n B p m :
  field_ok w n → p = zlen A →
  zipPrevLenByteDiff (A ++ field w n ++ B) p m = Some (fsize (254 <=? m) - fsize w).
Proof.
  intros Hf Hp. unfold zipPrevLenByteDiff. rewrite (prevlensize_spec A w n B p Hf Hp). cbn [mbind option_bind].
  rewrite <- fsize_need. f_equal. rewrite wraps_wrapu by lia. apply wraps_small; [lia|].
  unfold in_s. destruct (254 <=? m), w; cbn; lia.
Qed.

(** Writing the field over [R], which is as long. *)
Lemma prevenc_spec A R B p n :
  p = zlen A → 0 ≤ n < 2 ^ 31 → zlen R = fsize (254 <=? n) →
  zipPrevEncodeLength be (A ++ R ++ B) p n = Some (A ++ field (254 <=? n) n ++ B, fsize (254 <=? n)).
Proof.
  intros -> Hn. unfold zipPrevEncodeLength, ZIP_BIGLEN. destruct (Z.leb_spec 254 n) as [Hs|Hs]; cbn [fsize field]; intros HR;
    (destruct R as [|x R]; [done|]); cbn [app].
  - rewrite (proj2 (Z.ltb_ge n 254)) by lia. rewrite put8_app by done. cbn [mbind option_bind]. rewrite memrev32_to. cbn [mbind option_bind].
    change (A ++ 254 :: R ++ B) with (A ++ [254] ++ R ++ B). rewrite app_assoc, store_app; [|by rewrite zlen_app|].
    + cbn [mbind option_bind]. by rewrite <- app_assoc.
    + pose proof (length_Z_to_little_endian 4 8 n ltac:(lia)). revert HR. len.
  - rewrite (proj2 (Z.ltb_lt n 254)) by lia. assert (R = []) as -> by (destruct R; [done|]; revert HR; len).
    rewrite put8_app; [done|done|]. split; lia.
Qed.
Lemma prevenc_large A R B p n :
  p = zlen A → 0 ≤ n < 2 ^ 31 → zlen R = 5 →
  zipPrevEncodeLengthForceLarge be (A ++ R ++ B) p n = Some (A ++ field true n ++ B).
Proof.
  intros -> Hn HR. unfold zipPrevEncodeLengthForceLarge, ZIP_BIGLEN. destruct R as [|x R]; [done|]. cbn [app field].
  rewrite put8_app by done. cbn [mbind option_bind]. rewrite memrev32_to. cbn [mbind option_bind].
  change (A ++ 254 :: R ++ B) with (A ++ [254] ++ R ++ B). rewrite app_assoc, store_app; [|by rewrite zlen_app|].
  - by rewrite <- app_assoc.
  - pose proof (length_Z_to_little_endian 4 8 n ltac:(lia)). revert HR. len.
Qed.

End field.

(** ** Entries *)

Record zent := mkZent { wide : bool; text : list Z }.
#[global] Instance zent_eq_dec : EqDecision zent.
Proof. solve_decision. Defined.

Definition esize (e : zent) : Z := fsize (wide e) + zlen (encode (text e)).
Definition ebytes (prev : Z) (e : zent) : list Z := field (wide e) prev ++ encode (text e).
Fixpoint ents (prev : Z) (es : list zent) : list Z :=
  match es with [] => [] | e :: es => ebytes prev e ++ ents (esize e) es end.
Fixpoint total (es : list zent) : Z := match es with [] => 0 | e :: es => esize e + total es end.
Definition last_size (prev : Z) (es : list zent) : Z := foldl (λ _ e, esize e) prev es.

(** The entries follow one of length [prev]. *)
Fixpoint chain (prev : Z) (es : list zent) : Prop :=
  match es with
  | [] => True
  | e :: es => (wide e = false → prev < 254) ∧ chain (esize e) es
  end.
#[global] Instance chain_dec prev es : Decision (chain prev es).
Proof. revert prev. induction es; intros; cbn; apply _. Defined.

Lemma encode_bounds s : 1 ≤ zlen (encode s).
Proof. rewrite zlen_encode. pose proof (shape_bounds s). lia. Qed.
Lemma text_bound s : zlen (encode s) < 2 ^ 31 → zlen s < 2 ^ 31.
Proof.
  rewrite zlen_encode. unfold shape. destruct (zipTryEncoding s) as [[v e]|] eqn:E; cbn.
  - intros _. unfold zipTryEncoding in E. destruct (_ || _) eqn:Eb; [done|]. bool_tests. lia.
  - pose proof (encode_size_bound 0 (zlen s)). lia.
Qed.
Lemma esize_pos e : 2 ≤ esize e.
Proof. unfold esize. pose proof (fsize_pos (wide e)). pose proof (encode_bounds (text e)). lia. Qed.
Lemma zlen_ebytes prev e : zlen (ebytes prev e) = esize e.
Proof. unfold ebytes, esize. by rewrite zlen_app, zlen_field. Qed.
Lemma zlen_ents es : ∀ prev, zlen (ents prev es) = total es.
Proof. induction es as [|e es IH]; intros prev; [done|]. cbn. by rewrite zlen_app, zlen_ebytes, IH. Qed.
Lemma total_app l1 l2 : total (l1 ++ l2) = total l1 + total l2.
Proof. induction l1 as [|e l1 IH]; cbn; lia. Qed.
Lemma total_nonneg es : 2 * zlen es ≤ total es.
Proof. induction es as [|e es IH]; [done|]. cbn. pose proof (esize_pos e). revert IH. len. Qed.
Lemma last_size_app prev l1 l2 : last_size prev (l1 ++ l2) = last_size (last_size prev l1) l2.
Proof. apply foldl_app. Qed.
Lemma ents_app l1 : ∀ prev l2, ents prev (l1 ++ l2) = ents prev l1 ++ ents (last_size prev l1) l2.
Proof. induction l1 as [|e l1 IH]; intros; [done|]. cbn. by rewrite IH, <- app_assoc. Qed.
Lemma chain_app l1 : ∀ prev l2, chain prev (l1 ++ l2) ↔ chain prev l1 ∧ chain (last_size prev l1) l2.
Proof. induction l1 as [|e l1 IH]; intros; cbn; [tauto|]. rewrite IH. tauto. Qed.
Lemma last_size_bound prev es : 0 ≤ prev → 0 ≤ last_size prev es ≤ prev + total es.
Proof.
  revert prev. induction es as [|e es IH]; intros prev Hp; cbn; [lia|].
  pose proof (esize_pos e). specialize (IH (esize e) ltac:(lia)). unfold last_size in IH. lia.
Qed.

(** The layout of a whole ziplist. *)
Definition hdr (bytes off n : Z) : list Z :=
  Z_to_little_endian 4 8 bytes ++ Z_to_little_endian 4 8 off ++ Z_to_little_endian 2 8 n.
Lemma zlen_hdr b o n : zlen (hdr b o n) = 10.
Proof. unfold hdr. by rewrite !zlen_app, !zlen_le. Qed.

(** The offset of the last of the entries that start at [base]. *)
Definition tail_off (base : Z) (es : list zent) : Z := base + total es - last_size 0 es.

Section layout.
Context (be : host) (junk : nat → Z).

(** *** The header *)

Lemma bytes_hdr b o n M : in_u 32 b → ZIPLIST_BYTES be (hdr b o n ++ M) = Some b.
Proof.
  intros Hb. unfold ZIPLIST_BYTES, get_u32, hdr. rewrite <- !app_assoc.
  rewrite load_app_0 by (rewrite ?zlen_le by lia; done). cbn [mbind option_bind]. by apply intrev32_of_le.
Qed.
Lemma tail_hdr b o n M : in_u 32 o → ZIPLIST_TAIL_OFFSET be (hdr b o n ++ M) = Some o.
Proof.
  intros Ho. unfold ZIPLIST_TAIL_OFFSET, get_u32, hdr. rewrite <- !app_assoc.
  rewrite load_app by (rewrite ?zlen_le by lia; done). cbn [mbind option_bind]. by apply intrev32_of_le.
Qed.
Lemma put_bytes_hdr b o n M b' : in_u 32 b' → put_u32 be (hdr b o n ++ M) 0 b' = Some (hdr b' o n ++ M).
Proof.
  intros Hb. unfold put_u32, hdr. rewrite wrapu_small by done. destruct (intrev32_to_le be b') as (w & -> & E).
  cbn [mbind option_bind]. rewrite E, <- !app_assoc. rewrite store_app_0; [done|].
  apply Nat2Z.inj. rewrite !length_Z_to_little_endian; lia.
Qed.
Lemma put_tail_hdr b o n M o' : put_u32 be (hdr b o n ++ M) 4 o' = Some (hdr b (u32 o') n ++ M).
Proof.
  unfold put_u32, hdr. destruct (intrev32_to_le be (u32 o')) as (w & -> & E).
  cbn [mbind option_bind]. rewrite E, <- !app_assoc. rewrite store_app; [done|by rewrite zlen_le|].
  apply Nat2Z.inj. rewrite !length_Z_to_little_endian; lia.
Qed.
Lemma length_hdr b o n M : in_u 16 n →
  ∃ v, ZIPLIST_LENGTH be (hdr b o n ++ M) = Some v ∧ intrev16ifbe be v = Some n ∧ (v <? UINT16_MAX) = (n <? UINT16_MAX).
Proof.
  intros Hn. exists (of_mem be (Z_to_little_endian 2 8 n)). split; [|split].
  - unfold ZIPLIST_LENGTH, hdr. rewrite <- !app_assoc, app_assoc.
    by rewrite load_app by (rewrite ?zlen_app, ?zlen_le by lia; done).
  - by apply intrev16_of_le.
  - assert (of_mem be (Z_to_little_endian 2 8 n) < UINT16_MAX ↔ n < UINT16_MAX) as Hiff;
      [|destruct (Z.ltb_spec (of_mem be (Z_to_little_endian 2 8 n)) UINT16_MAX), (Z.ltb_spec n UINT16_MAX); try done; lia].
    assert (in_u 16 (of_mem be (Z_to_little_endian 2 8 n))) as Hr.
    { unfold of_mem, in_u. assert (zlen (Z_to_little_endian 2 8 n) = 2) as Hl by by apply zlen_le.
      pose proof (le_bytes_ok 2 n ltac:(lia)) as Hb. set (l := if be then _ else _).
      assert (zlen l = 2 ∧ bytes_ok l) as [Hl' Hb'].
      { subst l. destruct be; [|done]. split; [unfold zlen; by rewrite length_rev|by apply Forall_rev]. }
      pose proof (little_endian_to_Z_bound 8 l ltac:(lia) Hb') as Hlb. unfold zlen in Hl'. rewrite Hl' in Hlb. exact Hlb. }
    assert (∀ x, in_u 16 x → x < UINT16_MAX ↔ x ≠ 65535) as Hx by (unfold in_u, UINT16_MAX; intros; lia).
    rewrite !Hx by done. split; intros Hne E; apply Hne.
    + rewrite E. by destruct be.
    + pose proof (intrev16_of_le be n Hn) as Ei. rewrite E in Ei. destruct be; [|by injection Ei].
      vm_compute in Ei. by injection Ei.
Qed.
Lemma put_length_hdr b o n M v : put_length be (hdr b o n ++ M) v = Some (hdr b o (u16 v) ++ M).
Proof.
  unfold put_length, hdr. destruct (intrev16_to_le be (u16 v)) as (w & -> & E).
  cbn [mbind option_bind]. rewrite E, <- !app_assoc. rewrite (app_assoc (Z_to_little_endian 4 8 b)).
  rewrite store_app; [by rewrite <- !app_assoc|by rewrite zlen_app, !zlen_le|].
  apply Nat2Z.inj. rewrite !length_Z_to_little_endian; lia.
Qed.

(** *** Reallocation *)

Lemma resize_spec b o n M len :
  11 ≤ len < 2 ^ 32 →
  ∃ J, ziplistResize be junk (hdr b o n ++ M) len = Some (hdr len o n ++ take (Z.to_nat (len - 11)) (M ++ J) ++ [255]) ∧
    len - 10 ≤ zlen (M ++ J).
Proof.
  intros Hlen. pose proof (zlen_hdr b o n) as Hh. unfold ziplistResize.
  assert (∃ J, realloc junk (hdr b o n ++ M) len = hdr b o n ++ take (Z.to_nat (len - 10)) (M ++ J) ∧ len - 10 ≤ zlen (M ++ J)) as (J & -> & HJ).
  { unfold realloc. set (J := junk <$> _). assert (zlen J = Z.max 0 (len - zlen (hdr b o n ++ M))) as HJ by (subst J; len).
    clearbody J. rewrite zlen_app, Hh in HJ. exists J. split; [|rewrite zlen_app; lia].
    rewrite take_app_ge by (unfold zlen in Hh; lia). rewrite <- app_assoc. f_equal.
    replace (Z.to_nat len - length (hdr b o n))%nat with (Z.to_nat (len - 10)) by (unfold zlen in Hh; lia).
    destruct (decide (len - 10 ≤ zlen M)) as [Hle|].
    - assert (J = []) as -> by (destruct J; [done|]; revert HJ; len). by rewrite !app_nil_r.
    - rewrite (take_ge M) by len. rewrite take_ge; [done|]. revert HJ. len. }
  rewrite put_bytes_hdr by (unfold in_u; lia). cbn [mbind option_bind]. exists J. split; [|done].
  set (N := M ++ J) in *. clearbody N.
  assert (∃ x, take (Z.to_nat (len - 10)) N = take (Z.to_nat (len - 11)) N ++ [x]) as [x ->].
  { destruct (lookup_lt_is_Some_2 N (Z.to_nat (len - 11))) as [x Hx]; [len|]. exists x.
    replace (Z.to_nat (len - 10)) with (S (Z.to_nat (len - 11))) by lia. by apply take_S_r. }
  rewrite app_assoc. change [x] with (x :: []). rewrite put8_app; [by rewrite <- app_assoc| |by split].
  rewrite zlen_app, zlen_hdr. len.
Qed.

Lemma zl_resize_grow b o n M k :
  0 ≤ k → 11 + zlen M + k < 2 ^ 32 →
  ∃ J, ziplistResize be junk (hdr b o n ++ M ++ [255]) (11 + zlen M + k) =
    Some (hdr (11 + zlen M + k) o n ++ M ++ take (Z.to_nat k) (255 :: J) ++ [255]) ∧ k ≤ zlen (255 :: J).
Proof.
  intros Hk Hb. pose proof (zlen_nonneg M). destruct (resize_spec b o n (M ++ [255]) (11 + zlen M + k)) as (J & -> & HJ); [lia|].
  exists J. split; [|revert HJ; len]. do 2 f_equal. rewrite <- app_assoc, take_app_ge by len. rewrite <- app_assoc.
  do 2 f_equal. cbn [app]. f_equal. len.
Qed.
Lemma zl_resize_shrink b o n M R :
  1 ≤ zlen R → 11 + zlen M < 2 ^ 32 →
  ziplistResize be junk (hdr b o n ++ M ++ R) (11 + zlen M) = Some (hdr (11 + zlen M) o n ++ M ++ [255]).
Proof.
  intros HR Hb. pose proof (zlen_nonneg M). destruct (resize_spec b o n (M ++ R) (11 + zlen M)) as (J & -> & HJ); [lia|].
  do 2 f_equal. rewrite <- app_assoc, take_app_le by len. f_equal. apply take_ge. len.
Qed.

(** *** Reading an entry *)

Lemma entry_spec A prev e B p :
  field_ok (wide e) prev → esize e < 2 ^ 31 → p = zlen A →
  zipEntry be (A ++ ebytes prev e ++ B) p = Some (mkZle (fsize (wide e)) prev (shape (text e)).1.2 (shape (text e)).2
    (fsize (wide e) + (shape (text e)).1.2) (shape (text e)).1.1 p).
Proof.
  intros Hf Hs Hp. unfold zipEntry, ebytes. rewrite <- app_assoc, (prevlen_spec be A _ prev) by done. cbn [mbind option_bind].
  pose proof (fsize_pos (wide e)). pose proof (shape_bounds (text e)).
  rewrite app_assoc, (decode_length_frame _ _ _ _ (shape (text e))).
  - cbn [mbind option_bind]. destruct (shape (text e)) as [[enc ls] l]. cbn in *. by rewrite wrapu_small by (unfold in_u; lia).
  - apply decode_encode, text_bound. unfold esize in Hs. lia.
  - rewrite zlen_app, zlen_field. lia.
Qed.

Lemma rawlen_spec A prev e B p :
  field_ok (wide e) prev → esize e < 2 ^ 31 → p = zlen A →
  zipRawEntryLength (A ++ ebytes prev e ++ B) p = Some (esize e).
Proof.
  intros Hf Hs Hp. unfold zipRawEntryLength, ebytes. rewrite <- app_assoc, (prevlensize_spec A _ prev) by done. cbn [mbind option_bind].
  rewrite app_assoc, (decode_length_frame _ _ _ _ (shape (text e))).
  - cbn [mbind option_bind]. pose proof (zlen_encode (text e)) as E. unfold esize in *. destruct (shape (text e)) as [[enc ls] l]. cbn in *.
    f_equal. rewrite wrapu_small; [lia|]. unfold in_u. pose proof (fsize_pos (wide e)). pose proof (encode_bounds (text e)). lia.
  - apply decode_encode, text_bound. unfold esize in Hs. pose proof (fsize_pos (wide e)). lia.
  - rewrite zlen_app, zlen_field. lia.
Qed.

(** [headersize + len] of the entry. *)
Lemma header_len e : esize e < 2 ^ 31 → fsize (wide e) + (shape (text e)).1.2 +u32 (shape (text e)).2 = esize e.
Proof.
  intros Hs. pose proof (zlen_encode (text e)). unfold esize in *. rewrite wrapu_small; [lia|].
  pose proof (fsize_pos (wide e)). pose proof (encode_bounds (text e)). unfold in_u. lia.
Qed.

Lemma ebytes_first A prev e B p :
  field_ok (wide e) prev → p = zlen A →
  ∃ c, get8 (A ++ ebytes prev e ++ B) p = Some c ∧ (c =? ZIP_END) = false.
Proof.
  intros Hf Hp. unfold ebytes. rewrite <- app_assoc. destruct (field_first A _ _ (encode (text e) ++ B) p Hf Hp) as (c & ? & ? & _). eauto.
Qed.

(** The byte after an entry tells whether another one follows. *)
Lemma ents_first A prev es p :
  (match es with [] => True | e :: _ => field_ok (wide e) prev end) → p = zlen A →
  ∃ c, get8 (A ++ ents prev es ++ [255]) p = Some c ∧ (c =? ZIP_END) = bool_decide (es = []).
Proof.
  intros Hf Hp. destruct es as [|e es].
  - exists 255. split; [|done]. cbn [ents app]. by apply get8_app.
  - cbn [ents]. rewrite <- app_assoc. destruct (ebytes_first A prev e (ents (esize e) es ++ [255]) p Hf Hp) as (c & ? & ?).
    exists c. by rewrite bool_decide_false by done.
Qed.

End layout.

(** ** The cascade of updates *)

(** The entries after one whose length has become [s]. *)
Fixpoint widen (s : Z) (es : list zent) : list zent :=
  match es with
  | [] => []
  | x :: xs =>
      if negb (wide x) && (254 <=? s) then
        let x' := mkZent true (text x) in x' :: widen (esize x') xs
      else x :: xs
  end.

Lemma widen_id s es : chain s es → widen s es = es.
Proof.
  destruct es as [|x xs]; [done|]. cbn. intros [Hx _]. destruct (wide x); [done|]. specialize (Hx eq_refl).
  by destruct (Z.leb_spec 254 s); [lia|].
Qed.
Lemma widen_chain es : ∀ s v, chain v es → chain s (widen s es).
Proof.
  induction es as [|x xs IH]; intros s v; [done|]. cbn. intros [Hx Hc]. destruct (negb (wide x) && (254 <=? s)) eqn:E; cbn.
  - split; [done|]. by eapply IH.
  - split; [|done]. intros Hw. rewrite Hw in E. cbn in E. bool_tests. lia.
Qed.
Lemma widen_text es : ∀ s, text <$> widen s es = text <$> es.
Proof. induction es as [|x xs IH]; intros s; [done|]. cbn. case_if; [|done]. rewrite !fmap_cons. by rewrite IH. Qed.
Lemma widen_length es s : length (widen s es) = length es.
Proof. rewrite <- (length_fmap text (widen s es)), widen_text. apply length_fmap. Qed.
Lemma widen_total es : ∀ s, total es ≤ total (widen s es).
Proof.
  induction es as [|x xs IH]; intros s; [done|]. cbn. case_if; [|cbn; lia]. cbn [total]. unfold esize at 1 2. cbn [wide text].
  assert (wide x = false) as -> by by destruct (wide x). cbn [fsize]. specialize (IH (esize (mkZent true (text x)))). lia.
Qed.

(** The same block, cut elsewhere. *)
Ltac view :=
  try (match goal with |- ?z = _ => is_var z; unfold z end);
  cbn [ents]; unfold ebytes; rewrite <- ?app_assoc; cbn [app]; rewrite ?app_nil_r; reflexivity.

Lemma last_size_cons p x xs : last_size p (x :: xs) = last_size (esize x) xs.
Proof. done. Qed.
Lemma tail_off_cons base e x xs : tail_off base (e :: x :: xs) = tail_off (base + esize e) (x :: xs).
Proof. unfold tail_off. rewrite !last_size_cons. cbn [total]. lia. Qed.
Lemma tail_off_swap base x x' xs :
  tail_off base (x' :: xs) = tail_off base (x :: xs) + (if bool_decide (xs = []) then 0 else esize x' - esize x).
Proof.
  unfold tail_off. rewrite !last_size_cons. cbn [total]. destruct xs as [|y ys].
  { rewrite bool_decide_true by done. cbn. lia. }
  rewrite bool_decide_false by done. rewrite !last_size_cons. lia.
Qed.
Lemma tail_off_bounds base x xs :
  base ≤ tail_off base (x :: xs) ≤ base + total (x :: xs) ∧ (tail_off base (x :: xs) =? base) = bool_decide (xs = []).
Proof.
  unfold tail_off. rewrite last_size_cons. cbn [total]. pose proof (esize_pos x). destruct xs as [|y ys].
  - rewrite bool_decide_true by done. cbn. split; [lia|]. apply Z.eqb_eq. lia.
  - rewrite bool_decide_false by done. rewrite last_size_cons. cbn [total]. pose proof (esize_pos y).
    pose proof (last_size_bound (esize y) ys ltac:(lia)). split; [lia|]. apply Z.eqb_neq. lia.
Qed.

Section at_offset.
Context (be : host).

Lemma entry_at zl A prev e B p :
  zl = A ++ ebytes prev e ++ B → p = zlen A → field_ok (wide e) prev → esize e < 2 ^ 31 →
  zipEntry be zl p = Some (mkZle (fsize (wide e)) prev (shape (text e)).1.2 (shape (text e)).2
    (fsize (wide e) + (shape (text e)).1.2) (shape (text e)).1.1 p).
Proof. intros -> ???. by apply entry_spec. Qed.
Lemma rawlen_at zl A prev e B p :
  zl = A ++ ebytes prev e ++ B → p = zlen A → field_ok (wide e) prev → esize e < 2 ^ 31 →
  zipRawEntryLength zl p = Some (esize e).
Proof. intros -> ???. by apply rawlen_spec. Qed.
Lemma first_at zl A prev e B p :
  zl = A ++ ebytes prev e ++ B → p = zlen A → field_ok (wide e) prev →
  ∃ c, get8 zl p = Some c ∧ (c =? ZIP_END) = false.
Proof. intros -> ??. by apply ebytes_first. Qed.
Lemma next_at zl A prev es p :
  zl = A ++ ents prev es ++ [255] → p = zlen A → (match es with [] => True | e :: _ => field_ok (wide e) prev end) →
  ∃ c, get8 zl p = Some c ∧ (c =? ZIP_END) = bool_decide (es = []).
Proof. intros -> ??. by apply ents_first. Qed.
Lemma prevlen_at zl A w n B p :
  zl = A ++ field w n ++ B → p = zlen A → field_ok w n → ZIP_DECODE_PREVLEN be zl p = Some (fsize w, n).
Proof. intros -> ??. by apply prevlen_spec. Qed.
Lemma prevdiff_at zl A w n B p m :
  zl = A ++ field w n ++ B → p = zlen A → field_ok w n →
  zipPrevLenByteDiff zl p m = Some (fsize (254 <=? m) - fsize w).
Proof. intros -> ??. by apply prevdiff_spec with (n := n). Qed.
Lemma prevenc_at zl A R B p n :
  zl = A ++ R ++ B → p = zlen A → 0 ≤ n < 2 ^ 31 → zlen R = fsize (254 <=? n) →
  zipPrevEncodeLength be zl p n = Some (A ++ field (254 <=? n) n ++ B, fsize (254 <=? n)).
Proof. intros ->. apply prevenc_spec. Qed.
Lemma prevenc_large_at zl A R B p n :
  zl = A ++ R ++ B → p = zlen A → 0 ≤ n < 2 ^ 31 → zlen R = 5 →
  zipPrevEncodeLengthForceLarge be zl p n = Some (A ++ field true n ++ B).
Proof. intros ->. apply prevenc_large. Qed.

End at_offset.

(** Offsets are sums of lengths. *)
Create Rewrite HintDb zlen.
#[export] Hint Rewrite @zlen_app zlen_hdr zlen_field zlen_ebytes zlen_ents : zlen.
#[export] Hint Rewrite @zlen_cons @zlen_nil : zlen.
Ltac offset := autorewrite with zlen; cbn [total fsize] in *; lia.

Section cascade.
Context (be : host) (junk : nat → Z).

Lemma chain_field v x xs : 0 ≤ v < 2 ^ 31 → chain v (x :: xs) → field_ok (wide x) v.
Proof. intros Hv [Hx _]. by split. Qed.

(** A step that grows the next entry [x]. *)
Lemma cascade_grow P pv e v x xs n fuel :
  field_ok (wide e) pv → 0 ≤ v < 2 ^ 31 → chain v (x :: xs) → wide x = false → 254 ≤ esize e →
  15 + zlen P + total (e :: x :: xs) < 2 ^ 31 →
  cascade_loop be junk (S fuel) (hdr (11 + zlen P + total (e :: x :: xs)) (tail_off (10 + zlen P) (e :: x :: xs)) n ++
      P ++ ebytes pv e ++ ents v (x :: xs) ++ [255])
    (10 + zlen P) (11 + zlen P + total (e :: x :: xs)) =
  let x' := mkZent true (text x) in let P' := P ++ ebytes pv e in
  cascade_loop be junk fuel (hdr (11 + zlen P' + total (x' :: xs)) (tail_off (10 + zlen P') (x' :: xs)) n ++
    P' ++ ebytes (esize e) x' ++ ents (esize x) xs ++ [255]) (10 + zlen P') (11 + zlen P' + total (x' :: xs)).
Proof.
  intros He Hv Hc Hw Hbig Hb. pose proof (chain_field v x xs Hv Hc) as Hx. set (x' := mkZent true (text x)). cbn zeta.
  pose proof (esize_pos e). pose proof (esize_pos x). pose proof (zlen_nonneg P). pose proof (total_nonneg xs). pose proof (zlen_nonneg xs).
  assert (esize x' = esize x + 4) as Ex' by (unfold esize; subst x'; cbn [wide text]; rewrite Hw; cbn; lia).
  assert (v ≠ esize e) as Hne by (destruct Hx as [_ Hx]; specialize (Hx Hw); lia).
  cbn [total] in *. set (T := 11 + zlen P + (esize e + (esize x + total xs))) in *. set (o := tail_off _ (e :: x :: xs)).
  cbn [cascade_loop]. set (zl := hdr T o n ++ _).
  destruct (first_at zl (hdr T o n ++ P) pv e (ents v (x :: xs) ++ [255]) (10 + zlen P)) as (c & -> & Hc1); [view|offset|done|].
  cbn [mbind option_bind]. rewrite Hc1, (entry_at be zl (hdr T o n ++ P) pv e (ents v (x :: xs) ++ [255])); [|view|offset|done|lia].
  cbn [mbind option_bind headersize len]. rewrite header_len by lia.
  destruct (first_at zl (hdr T o n ++ P ++ ebytes pv e) v x (ents (esize x) xs ++ [255]) (10 + zlen P + esize e)) as (c2 & -> & Hc2); [view|offset|done|].
  cbn [mbind option_bind]. rewrite Hc2, (entry_at be zl (hdr T o n ++ P ++ ebytes pv e) v x (ents (esize x) xs ++ [255])); [|view|offset|done|lia].
  cbn [mbind option_bind prevrawlen prevrawlensize]. rewrite (proj2 (Z.eqb_neq v (esize e))) by done.
  rewrite <- fsize_need, (proj2 (Z.leb_le 254 (esize e))), Hw by lia. cbn [fsize]. change (1 <? 5) with true. cbv iota.
  set (M := P ++ ebytes pv e ++ field false v ++ encode (text x) ++ ents (esize x) xs).
  assert (zlen M = zlen P + esize e + esize x + total xs) as HM.
  { unfold M. autorewrite with zlen. unfold esize at 3. rewrite Hw. lia. }
  assert (zl = hdr T o n ++ M ++ [255]) as -> by (unfold zl, M; cbn [ents]; unfold ebytes; rewrite Hw, <- !app_assoc; done).
  rewrite (wrapu_small 32 (T + (5 - 1))) by (unfold in_u; lia). replace (T + (5 - 1)) with (11 + zlen M + 4) by lia.
  destruct (zl_resize_grow be junk T o n M 4) as (J & -> & HJ); [lia..|]. cbn [mbind option_bind].
  assert (zlen (take 4 (255 :: J)) = 4) as HK by (revert HJ; len). change (Z.to_nat 4) with 4%nat. set (K := take 4 (255 :: J)) in *. clearbody K.
  set (T' := 11 + zlen M + 4) in *. set (b := 10 + zlen P + esize e) in *.
  assert (o = tail_off b (x :: xs)) as Eo by apply tail_off_cons. clearbody o. destruct (tail_off_bounds b x xs) as [Hob Hoe].
  rewrite <- Eo in Hob, Hoe. cbn [total] in Hob. rewrite tail_hdr by (unfold in_u; lia). cbn [mbind option_bind]. rewrite Hoe.
  assert (tail_off (10 + zlen (P ++ ebytes pv e)) (x' :: xs) = if negb (bool_decide (xs = [])) then o + 4 else o) as Eo'.
  { rewrite (tail_off_swap _ x). replace (10 + zlen (P ++ ebytes pv e)) with b by (subst b; offset). rewrite <- Eo.
    destruct (bool_decide _); cbn [negb]; lia. }
  set (o' := tail_off (10 + zlen (P ++ ebytes pv e)) (x' :: xs)) in *. clearbody o'.
  assert ((if negb (bool_decide (xs = [])) then put_u32 be (hdr T' o n ++ M ++ K ++ [255]) 4 (u64 (o + (5 - 1))) else
    Some (hdr T' o n ++ M ++ K ++ [255])) = Some (hdr T' o' n ++ M ++ K ++ [255])) as ->.
  { rewrite Eo'. destruct (negb _); [|done]. rewrite put_tail_hdr. by rewrite (wrapu_small 64), (wrapu_small 32) by (unfold in_u; lia). }
  cbn [mbind option_bind]. rewrite (wrapu_small 64 (T - b - 1 - 1)) by (unfold in_u; lia).
  set (m := hdr T' o' n ++ _). set (X := encode (text x) ++ ents (esize x) xs).
  assert (zlen X = esize x + total xs - 1) as HX by (unfold X; autorewrite with zlen; unfold esize at 1; rewrite Hw; cbn [fsize]; lia).
  destruct (cut_at (field false v ++ X ++ K) 5) as (R & O & ER & HR & HO); [autorewrite with zlen; cbn; lia|].
  rewrite (memmove_views m (hdr T' o' n ++ P ++ ebytes pv e ++ field false v) X (K ++ [255])
    (hdr T' o' n ++ P ++ ebytes pv e ++ R) O [255]); [|unfold m, X, M; view| |offset|offset|lia|].
  2: { unfold m, M. rewrite <- !app_assoc. do 3 f_equal. rewrite (app_assoc R), <- ER. unfold X. by rewrite <- !app_assoc. }
  2: { apply Nat2Z.inj. fold (zlen O) (zlen X). revert HO. autorewrite with zlen. cbn. lia. }
  cbn [mbind option_bind].
  rewrite (prevenc_at be _ (hdr T' o' n ++ P ++ ebytes pv e) R (X ++ [255])); [|view|offset|lia|rewrite (proj2 (Z.leb_le 254 (esize e))) by lia; done].
  cbn [mbind option_bind]. rewrite (proj2 (Z.leb_le 254 (esize e))), (wrapu_small 64) by (unfold in_u; lia).
  replace (11 + zlen (P ++ ebytes pv e) + (esize x' + total xs)) with T' by offset.
  replace (10 + zlen (P ++ ebytes pv e)) with b by offset. replace (T + (5 - 1)) with T' by lia. f_equal. unfold X. view.
Qed.

Lemma cascade_loop_spec es : ∀ fuel P pv e v n,
  field_ok (wide e) pv → 0 ≤ v < 2 ^ 31 → chain v es → (length es < fuel)%nat →
  let es' := widen (esize e) es in
  11 + zlen P + total (e :: es') < 2 ^ 31 →
  cascade_loop be junk fuel (hdr (11 + zlen P + total (e :: es)) (tail_off (10 + zlen P) (e :: es)) n ++
      P ++ ebytes pv e ++ ents v es ++ [255]) (10 + zlen P) (11 + zlen P + total (e :: es)) =
    Some (hdr (11 + zlen P + total (e :: es')) (tail_off (10 + zlen P) (e :: es')) n ++
      P ++ ebytes pv e ++ ents (esize e) es' ++ [255]).
Proof.
  induction es as [|x xs IH]; intros fuel P pv e v n He Hv Hc Hf es' Hb; (destruct fuel as [|fuel]; [lia|]);
    pose proof (esize_pos e); pose proof (zlen_nonneg P).
  - cbn [widen] in es'. subst es'. cbn [cascade_loop]. set (T := _ + total _). set (zl := hdr _ _ _ ++ _). cbn [total] in *.
    destruct (first_at zl (hdr T (tail_off (10 + zlen P) [e]) n ++ P) pv e [255] (10 + zlen P)) as (c & -> & Hc1); [view|offset|done|].
    cbn [mbind option_bind]. rewrite Hc1, (entry_at be zl (hdr T (tail_off (10 + zlen P) [e]) n ++ P) pv e [255]); [|view|offset|done|lia].
    cbn [mbind option_bind headersize len]. rewrite header_len by lia.
    destruct (next_at zl (hdr T (tail_off (10 + zlen P) [e]) n ++ P ++ ebytes pv e) v [] (10 + zlen P + esize e)) as (c2 & -> & Hc2); [view|offset|done|].
    cbn [mbind option_bind]. by rewrite Hc2.
  - pose proof (widen_total (x :: xs) (esize e)) as Hwt. fold es' in Hwt. cbn [total] in Hwt, Hb.
    pose proof (esize_pos x). pose proof (total_nonneg xs). pose proof (zlen_nonneg xs). pose proof (chain_field v x xs Hv Hc) as Hx.
    destruct (negb (wide x) && (254 <=? esize e)) eqn:Ew.
    { apply andb_true_iff in Ew as [Hw%negb_true_iff Hbig]. apply Z.leb_le in Hbig. set (x' := mkZent true (text x)).
      assert (es' = x' :: widen (esize x') xs) as Ees.
      { subst es'. cbn [widen]. rewrite Hw. cbn [negb andb]. by rewrite (proj2 (Z.leb_le _ _) Hbig). }
      assert (esize x' = esize x + 4) as Ex' by (unfold esize; subst x'; cbn [wide text]; rewrite Hw; cbn; lia).
      pose proof (widen_total xs (esize x')). rewrite Ees in *. cbn [total] in Hb.
      rewrite cascade_grow by (done || cbn [total]; lia). cbn zeta. fold x'.
      rewrite (IH fuel (P ++ ebytes pv e) (esize e) x' (esize x) n); [|by split; [lia|]|lia|by destruct Hc|cbn in Hf; lia|offset].
      rewrite tail_off_cons. replace (10 + zlen (P ++ ebytes pv e)) with (10 + zlen P + esize e) by offset.
      f_equal. f_equal; [f_equal; offset|]. view. }
    assert (es' = x :: xs) as Ees by (subst es'; cbn [widen]; by rewrite Ew). rewrite Ees in *. clear Hwt.
    cbn [cascade_loop]. set (T := _ + total _). set (o := tail_off _ _). set (zl := hdr _ _ _ ++ _). cbn [total] in *.
    destruct (first_at zl (hdr T o n ++ P) pv e (ents v (x :: xs) ++ [255]) (10 + zlen P)) as (c & -> & Hc1); [view|offset|done|].
    cbn [mbind option_bind]. rewrite Hc1, (entry_at be zl (hdr T o n ++ P) pv e (ents v (x :: xs) ++ [255])); [|view|offset|done|lia].
    cbn [mbind option_bind headersize len]. rewrite header_len by lia.
    destruct (first_at zl (hdr T o n ++ P ++ ebytes pv e) v x (ents (esize x) xs ++ [255]) (10 + zlen P + esize e)) as (c2 & -> & Hc2); [view|offset|done|].
    cbn [mbind option_bind]. rewrite Hc2, (entry_at be zl (hdr T o n ++ P ++ ebytes pv e) v x (ents (esize x) xs ++ [255])); [|view|offset|done|lia].
    cbn [mbind option_bind prevrawlen prevrawlensize]. destruct (Z.eqb_spec v (esize e)) as [Ev|Hne]; [unfold zl; by rewrite Ev|].
    rewrite <- fsize_need. rewrite (proj2 (Z.ltb_ge (fsize (wide x)) _)) by (revert Ew; destruct (wide x), (254 <=? esize e); cbn; (done || lia)).
    destruct (Z.ltb_spec (fsize (254 <=? esize e)) (fsize (wide x))) as [Hs|Hs].
    + assert (wide x = true) as Hw by (revert Hs; by destruct (wide x), (254 <=? esize e)).
      rewrite (prevenc_large_at be zl (hdr T o n ++ P ++ ebytes pv e) (field (wide x) v) (encode (text x) ++ ents (esize x) xs ++ [255]));
        [|view|offset|lia|by rewrite zlen_field, Hw]. cbn [ents]. unfold ebytes. rewrite Hw, <- !app_assoc. done.
    + assert (wide x = (254 <=? esize e)) as Hw by (revert Ew Hs; by destruct (wide x), (254 <=? esize e)).
      rewrite (prevenc_at be zl (hdr T o n ++ P ++ ebytes pv e) (field (wide x) v) (encode (text x) ++ ents (esize x) xs ++ [255]));
        [|view|offset|lia|by rewrite zlen_field, Hw]. cbn [fmap option_fmap option_map fst ents]. unfold ebytes. rewrite Hw, <- !app_assoc. done.
Qed.

Lemma cascade_spec P pv e v es n :
  field_ok (wide e) pv → 0 ≤ v < 2 ^ 31 → chain v es →
  let es' := widen (esize e) es in
  11 + zlen P + total (e :: es') < 2 ^ 31 →
  __ziplistCascadeUpdate be junk (hdr (11 + zlen P + total (e :: es)) (tail_off (10 + zlen P) (e :: es)) n ++
      P ++ ebytes pv e ++ ents v es ++ [255]) (10 + zlen P) =
    Some (hdr (11 + zlen P + total (e :: es')) (tail_off (10 + zlen P) (e :: es')) n ++
      P ++ ebytes pv e ++ ents (esize e) es' ++ [255]).
Proof.
  intros He Hv Hc es' Hb. unfold __ziplistCascadeUpdate. pose proof (widen_total es (esize e)). fold es' in H. cbn [total] in *.
  pose proof (esize_pos e). pose proof (zlen_nonneg P). pose proof (total_nonneg es). pose proof (zlen_nonneg es).
  rewrite bytes_hdr by (unfold in_u; lia). cbn [mbind option_bind]. apply cascade_loop_spec; [done..| |done].
  apply Nat2Z.inj_lt. fold (zlen es). match goal with |- _ < Z.of_nat (length ?l) => fold (zlen l) end. offset.
Qed.

End cascade.
