(* ===== verification/ZiplistOps.v ===== *)
(** * ZiplistOps: insertion, deletion and traversal of ziplists

    Each operation of Ziplist on a block that holds the entries [es], stated on
    the sequence of the entries. *)

From S2P Require Import Prelude Endian NumConv Objects Ziplist ZiplistFacts.

(** ** The invariant *)

(** [n] is the count of the header: exact below 65535. *)
Record zrep (zl : list Z) (es : list zent) (n : Z) : Prop := {
  zr_eq : zl = hdr (11 + total es) (tail_off 10 es) n ++ ents 0 es ++ [255];
  zr_count : 0 ≤ n ≤ UINT16_MAX ∧ (n < UINT16_MAX → n = zlen es);
  zr_chain : chain 0 es;
  zr_head : wide <$> head es ≠ Some true;
  zr_size : 11 + total es < 2 ^ 31
}.

Lemma chain_le p es : chain p es → ∀ e, head es = Some e → wide e = false → p < 254.
Proof. destruct es as [|x xs]; [done|]. intros [Hx _] e [= <-]. done. Qed.

(** ** Insertion *)

(** The entry for [s] after [L]. *)
Definition new_entry (L : list zent) (s : list Z) : zent := mkZent (254 <=? last_size 0 L) s.
(** The entries [R] after one whose length has become [n]. *)
Definition refit (n : Z) (R : list zent) : list zent :=
  match R with
  | [] => []
  | x :: xs => let x' := mkZent (254 <=? n) (text x) in x' :: widen (esize x') xs
  end.
Definition z_insert (L : list zent) (s : list Z) (R : list zent) : list zent :=
  L ++ new_entry L s :: refit (esize (new_entry L s)) R.
(** The block does not get smaller: true unless an entry of less than 4 bytes
    goes before one that has a needless 5-byte field. *)
Definition insert_grows (L : list zent) (s : list Z) (R : list zent) : Prop :=
  match R with
  | [] => True
  | x :: _ => wide x = true → 4 ≤ esize (new_entry L s)
  end.
#[global] Instance insert_grows_dec L s R : Decision (insert_grows L s R).
Proof. destruct R; cbn; apply _. Defined.

Lemma refit_text n R : text <$> refit n R = text <$> R.
Proof. destruct R as [|x xs]; [done|]. cbn. by rewrite widen_text. Qed.
Lemma refit_chain n v R : chain v R → chain n (refit n R).
Proof.
  destruct R as [|x xs]; [done|]. intros [_ Hc]. cbn. split; [|by eapply widen_chain].
  intros Hw%Z.leb_gt. lia.
Qed.

Section insert.
Context (be : host) (junk : nat → Z).

Lemma insert_encoding_spec s : ∃ value encoding l,
  insert_encoding s = (value, encoding, l) ∧ l + zipEncodeLength_size encoding (zlen s) = zlen (encode s) ∧ 0 ≤ l.
Proof.
  unfold insert_encoding. pose proof (zlen_encode s) as E. pose proof (shape_bounds s) as Hb. unfold shape in *.
  destruct (zipTryEncoding s) as [[v e]|] eqn:Et; cbn in *; eexists _, _, _; (split; [done|]); [|lia].
  apply zipTryEncoding_fits in Et as [_ Hf]. destruct (int_fits_enc _ _ Hf) as (_ & ? & Hs).
  unfold zipEncodeLength_size. rewrite Hs. lia.
Qed.

Lemma insert_write_spec zl A G B p pl s value encoding l :
  zl = A ++ G ++ B → p = zlen A → 0 ≤ pl < 2 ^ 31 → zlen G = fsize (254 <=? pl) + zlen (encode s) →
  insert_encoding s = (value, encoding, l) →
  insert_write be zl p pl value encoding s = Some (A ++ ebytes pl (mkZent (254 <=? pl) s) ++ B).
Proof.
  intros -> -> Hpl HG. unfold insert_encoding, insert_write, ebytes, encode in *. cbn [wide text].
  pose proof (fsize_pos (254 <=? pl)).
  destruct (zipTryEncoding s) as [[v e]|] eqn:Et; intros [= <- <- <-].
  - apply zipTryEncoding_fits in Et as [_ Hf]. destruct (int_fits_enc _ _ Hf) as (He & Hsz & Hs).
    pose proof (zlen_le (zipIntSize e) v ltac:(lia)) as Hl. fold (int_bytes v e) in Hl. rewrite zlen_cons in HG.
    destruct (cut_at G (fsize (254 <=? pl))) as (G1 & G' & -> & HG1 & HG'); [lia|].
    destruct G' as [|g G2]; [revert HG'; rewrite zlen_nil; lia|]. rewrite zlen_app, zlen_cons in *.
    rewrite (prevenc_at be _ A G1 (g :: G2 ++ B)) by (try done; view). cbn [mbind option_bind].
    unfold zipEncodeLength, zipEncodeLength_buf, zipEncodeLength_size. rewrite Hs.
    assert (A ++ field (254 <=? pl) pl ++ g :: G2 ++ B = (A ++ field (254 <=? pl) pl) ++ [g] ++ G2 ++ B) as -> by view.
    rewrite store_app by (try done; offset). cbn [mbind option_bind].
    rewrite app_assoc, (saveInteger_spec be) by (try done; offset). f_equal. view.
  - rewrite zlen_app, zlen_encode_buf in HG. pose proof (encode_size_bound 0 (zlen s)). pose proof (zlen_nonneg s).
    destruct (cut_at G (fsize (254 <=? pl))) as (G1 & G' & -> & HG1 & HG'); [lia|].
    destruct (cut_at G' (zipEncodeLength_size 0 (zlen s))) as (G2 & G3 & -> & HG2 & HG3); [rewrite zlen_app in *; lia|].
    rewrite !zlen_app in *. rewrite (prevenc_at be _ A G1 (G2 ++ G3 ++ B)) by (try done; view). cbn [mbind option_bind].
    unfold zipEncodeLength. rewrite app_assoc, store_app; [|offset|apply Nat2Z.inj; fold (zlen G2); rewrite HG2; apply zlen_encode_buf].
    cbn [mbind option_bind]. change (ZIP_IS_STR 0) with true. cbv iota. pose proof (zlen_encode_buf (zlen s)).
    rewrite app_assoc, store_app; [f_equal; view|offset|unfold zlen in *; lia].
Qed.

(** [ZIPLIST_INCR_LENGTH] *)
Lemma incr_length_spec n k d :
  0 ≤ n ≤ UINT16_MAX → (n < UINT16_MAX → n = k) → 0 ≤ k + d → (n < UINT16_MAX → k + d ≤ UINT16_MAX) →
  ∃ n', (∀ b o M, ZIPLIST_INCR_LENGTH be (hdr b o n ++ M) (u32 d) = Some (hdr b o n' ++ M)) ∧
    0 ≤ n' ≤ UINT16_MAX ∧ (n' < UINT16_MAX → n' = k + d).
Proof.
  unfold UINT16_MAX. intros Hn Hk Hd Hm. exists (if n <? 65535 then k + d else n). split.
  - intros b o M. unfold ZIPLIST_INCR_LENGTH.
    destruct (length_hdr be b o n M) as (v & -> & Hv & Hlt); [unfold in_u; lia|]. cbn [mbind option_bind]. rewrite Hlt.
    unfold UINT16_MAX. destruct (Z.ltb_spec n 65535) as [Hs|]; [|done]. rewrite Hv. cbn [mbind option_bind]. rewrite put_length_hdr.
    specialize (Hk Hs). specialize (Hm Hs). subst n. assert (u16 (k +u32 u32 d) = k + d) as ->; [|done].
    unfold wrapu. rewrite Zplus_mod_idemp_r. pow_compute. rewrite (Z.mod_small (k + d)), Z.mod_small; lia.
  - destruct (Z.ltb_spec n 65535) as [Hs|]; [specialize (Hk Hs); specialize (Hm Hs)|]; lia.
Qed.

(** What holds of a block with the entries [L ++ R], cut at [R]. *)
Lemma cut_facts L R : chain 0 (L ++ R) → 11 + total (L ++ R) < 2 ^ 31 →
  0 ≤ last_size 0 L < 2 ^ 31 ∧ 0 ≤ total L ∧ 0 ≤ total R ∧ total (L ++ R) = total L + total R ∧
  match R with [] => True | x :: _ => field_ok (wide x) (last_size 0 L) ∧ esize x ≤ total R end.
Proof.
  intros [_ Hc]%chain_app Hb. rewrite total_app in *. pose proof (total_nonneg L). pose proof (total_nonneg R).
  pose proof (zlen_nonneg L). pose proof (zlen_nonneg R). pose proof (last_size_bound 0 L ltac:(lia)).
  repeat split; try lia. destruct R as [|x xs]; [done|]. cbn [total] in *. pose proof (total_nonneg xs). pose proof (zlen_nonneg xs).
  split; [|lia]. destruct Hc as [Hc _]. split; [lia|done].
Qed.

Lemma insert_prevlen_spec zl b o n L R :
  zl = hdr b o n ++ ents 0 (L ++ R) ++ [255] → o = tail_off 10 (L ++ R) → chain 0 (L ++ R) → 11 + total (L ++ R) < 2 ^ 31 →
  insert_prevlen be zl (10 + total L) = Some (last_size 0 L).
Proof.
  intros Hz Ho Hc Hb. destruct (cut_facts L R Hc Hb) as (Hl & HL & HR & Et & Hx). unfold insert_prevlen.
  rewrite ents_app, <- app_assoc in Hz.
  destruct (next_at zl (hdr b o n ++ ents 0 L) (last_size 0 L) R (10 + total L)) as (c & -> & Hce); [subst zl; view|offset|by destruct R as [|x xs]; [|apply Hx]|].
  cbn [mbind option_bind]. rewrite Hce. destruct R as [|x xs].
  - rewrite bool_decide_true by done. cbn [negb]. rewrite app_nil_r in *. cbn [ents app] in Hz.
    pose proof (last_size_bound 0 L ltac:(lia)). assert (in_u 32 o) by (rewrite Ho; unfold tail_off, in_u; lia).
    rewrite Hz at 1. rewrite tail_hdr by done. cbn [mbind option_bind].
    destruct L as [|e L _] using rev_ind.
    + rewrite Ho. unfold tail_off. cbn [total last_size foldl] in *. rewrite Hz. cbn [ents app].
      rewrite (get8_app (hdr b _ n)) by by rewrite zlen_hdr. done.
    + apply chain_app in Hc as [Hc1 [Hc2 _]]. rewrite total_app in *. cbn [total] in *.
      pose proof (total_nonneg L). pose proof (zlen_nonneg L). pose proof (esize_pos e).
      pose proof (last_size_bound 0 L ltac:(lia)). assert (field_ok (wide e) (last_size 0 L)) as He by (split; [lia|done]).
      rewrite ents_app, <- app_assoc in Hz. rewrite last_size_app in *. cbn [last_size foldl] in *.
      assert (o = 10 + total L) as -> by (rewrite Ho; unfold tail_off; rewrite total_app, last_size_app; cbn; lia).
      destruct (first_at zl (hdr b (10 + total L) n ++ ents 0 L) (last_size 0 L) e [255] (10 + total L)) as (c' & -> & Hc'); [subst zl; view|offset|done|].
      cbn [mbind option_bind]. rewrite Hc'. cbn [negb].
      by rewrite (rawlen_at zl (hdr b (10 + total L) n ++ ents 0 L) (last_size 0 L) e [255]); [|subst zl; view|offset|done|lia].
  - rewrite bool_decide_false by done. cbn [negb]. destruct Hx as [Hx _].
    by rewrite (prevlen_at be zl (hdr b o n ++ ents 0 L) (wide x) (last_size 0 L) (encode (text x) ++ ents (esize x) xs ++ [255])); [|subst zl; view|offset|].
Qed.

(** The move, when an entry [x] follows: [G] is the place of the new entry. *)
Lemma insert_move_spec L x xs n r K :
  let pl := last_size 0 L in let w := 254 <=? r in let x' := mkZent w (text x) in let d := fsize w - fsize (wide x) in
  chain 0 (L ++ x :: xs) → 2 ≤ r → 0 ≤ r + d → zlen K = r + d →
  11 + total L + r + total (x' :: xs) < 2 ^ 31 → 11 + total (L ++ x :: xs) < 2 ^ 31 →
  let T := 11 + total L + r + total (x' :: xs) in
  ∃ G, zlen G = r ∧
    insert_move be (hdr T (tail_off 10 (L ++ x :: xs)) n ++ (ents 0 L ++ ents pl (x :: xs)) ++ K ++ [255])
      (10 + total L) (11 + total (L ++ x :: xs)) r d =
    Some (hdr T (tail_off (10 + total L + r) (x' :: xs)) n ++ (ents 0 L ++ G) ++ ebytes r x' ++ ents (esize x) xs ++ [255]).
Proof.
  intros pl w x' d Hc Hr Hrd HK Hb1 Hb2 T. destruct (cut_facts L (x :: xs) Hc Hb2) as (Hl & HL & HR & Et & Hx & Hxs). fold pl in Hl, Hx.
  pose proof (esize_pos x). pose proof (total_nonneg xs). pose proof (zlen_nonneg xs).
  assert (esize x' = esize x + d) as Ex' by (unfold esize, d, x'; cbn [wide text]; lia).
  pose proof (fsize_pos w). pose proof (esize_pos x'). pose proof (fsize_pos (wide x)). pose proof (encode_bounds (text x)).
  set (o := tail_off 10 (L ++ x :: xs)). unfold insert_move. set (zl := hdr T o n ++ _).
  set (X := encode (text x) ++ ents (esize x) xs).
  assert (zlen X = esize x + total xs - fsize (wide x)) as HX by (unfold X; autorewrite with zlen; unfold esize; lia).
  cbn [total] in *.
  (* the source *)
  destruct (cut_at (hdr T o n ++ ents 0 L ++ field (wide x) pl) (10 + total L - d)) as (S & F & ES & HS & HF); [split; [|offset]; subst d; destruct w, (wide x); cbn; lia|].
  (* the destination *)
  destruct (cut_at (field (wide x) pl ++ X ++ K) r) as (G & O & EG & HG & HO); [offset|].
  exists G. split; [done|]. autorewrite with zlen in HF, HO.
  rewrite (wrapu_small 64) by (unfold in_u; lia).
  rewrite (memmove_views zl S (F ++ X) (K ++ [255]) (hdr T o n ++ ents 0 L ++ G) O [255]); [|unfold zl, X| |lia|offset|offset|].
  2: { rewrite <- (app_assoc F), (app_assoc S F), <- ES. cbn [ents]. unfold ebytes. by rewrite <- !app_assoc. }
  2: { unfold zl. rewrite <- !app_assoc. do 2 f_equal. rewrite (app_assoc G), <- EG. unfold X. cbn [ents]. unfold ebytes. by rewrite <- !app_assoc. }
  2: { apply Nat2Z.inj. fold (zlen O) (zlen (F ++ X)). revert HO HF. autorewrite with zlen. lia. }
  cbn [mbind option_bind].
  rewrite (wrapu_small 32 r) by (unfold in_u; lia).
  rewrite (prevenc_at be _ (hdr T o n ++ ents 0 L ++ G) F (X ++ [255])); [|view|offset|lia|fold w; lia].
  cbn [mbind option_bind]. fold w.
  assert (in_u 32 o ∧ o = tail_off (10 + total L) (x :: xs)) as [Ho Eo].
  { destruct (tail_off_bounds (10 + total L) x xs) as [Hob _]. assert (o = tail_off (10 + total L) (x :: xs)) as ->.
    { unfold o, tail_off. rewrite total_app, last_size_app, !last_size_cons. lia. }
    cbn [total] in Hob. unfold in_u. split; [lia|done]. }
  clearbody o. destruct (tail_off_bounds (10 + total L) x xs) as [Hob _]. rewrite <- Eo in Hob. cbn [total] in Hob.
  rewrite <- app_assoc. rewrite tail_hdr by done. cbn [mbind option_bind].
  rewrite put_tail_hdr, (wrapu_small 64), (wrapu_small 32 (o + r)) by (unfold in_u; lia). cbn [mbind option_bind].
  set (o1 := o + r). set (zl' := hdr T o1 n ++ _).
  rewrite (entry_at be zl' (hdr T o1 n ++ ents 0 L ++ G) r x' (ents (esize x) xs ++ [255])); [|unfold zl', X; view|offset|by split; [lia|intros ?%Z.leb_gt; lia]|lia].
  cbn [mbind option_bind headersize len]. rewrite header_len by lia.
  destruct (next_at zl' (hdr T o1 n ++ ents 0 L ++ G ++ ebytes r x') (esize x) xs (10 + total L + r + esize x')) as (c & -> & Hce);
    [unfold zl', X; view|offset| |].
  { apply chain_app in Hc as [_ [_ Hc]]. destruct xs as [|y ys]; [done|]. apply (chain_field _ _ ys); [lia|done]. }
  cbn [mbind option_bind]. rewrite Hce.
  rewrite (tail_off_swap _ x x' xs). replace (tail_off (10 + total L + r) (x :: xs)) with o1 by (subst o1; rewrite Eo; unfold tail_off; lia).
  destruct (bool_decide (xs = [])); cbn [negb].
  - f_equal. rewrite Z.add_0_r. unfold zl', X. view.
  - unfold zl'. rewrite tail_hdr by (unfold in_u; lia). cbn [mbind option_bind]. rewrite put_tail_hdr.
    rewrite !(wrapu_small 32 (o1 + d)) by (unfold in_u; lia). f_equal. replace (o1 + d) with (o1 + (esize x' - esize x)) by lia. unfold X. view.
Qed.

Lemma z_insert_ok L s R : chain 0 (L ++ R) → wide <$> head (L ++ R) ≠ Some true →
  chain 0 (z_insert L s R) ∧ wide <$> head (z_insert L s R) ≠ Some true.
Proof.
  intros [HL HR]%chain_app Hh. split; [|by destruct L]. unfold z_insert. apply chain_app. split; [done|]. cbn.
  split; [|by eapply refit_chain]. intros ?%Z.leb_gt. lia.
Qed.
Lemma z_insert_zlen L s R : zlen (z_insert L s R) = zlen (L ++ R) + 1.
Proof.
  assert (length (refit (esize (new_entry L s)) R) = length R) as E.
  { rewrite <- (length_fmap text), refit_text. apply length_fmap. }
  unfold z_insert, zlen. rewrite !length_app. cbn [length]. rewrite E. lia.
Qed.

(** Before the entry is written: its place is [G]. *)
Lemma insert_place zl L s R n :
  let r := esize (new_entry L s) in
  zrep zl (L ++ R) n → insert_grows L s R → 11 + total (z_insert L s R) < 2 ^ 31 →
  ∃ c d zl1 c' zl2 G,
    get8 zl (10 + total L) = Some c ∧
    (if negb (c =? ZIP_END) then zipPrevLenByteDiff zl (10 + total L) r else Some 0) = Some d ∧
    ziplistResize be junk zl (u32 (11 + total (L ++ R) + r + d)) = Some zl1 ∧ get8 zl1 (10 + total L) = Some c' ∧
    (if negb (c' =? ZIP_END) then insert_move be zl1 (10 + total L) (11 + total (L ++ R)) r d else put_u32 be zl1 4 (10 + total L)) = Some zl2 ∧
    (if negb (d =? 0) then __ziplistCascadeUpdate be junk zl2 (10 + total L + r) else Some zl2) =
      Some (hdr (11 + total (z_insert L s R)) (tail_off 10 (z_insert L s R)) n ++ ents 0 L ++ G ++ ents r (refit r R) ++ [255]) ∧
    zlen G = r.
Proof.
  intros r Hz Hg Hb. pose proof (zr_chain _ _ _ Hz) as Hc. pose proof (zr_size _ _ _ Hz) as Hs. pose proof (zr_eq _ _ _ Hz) as E.
  destruct (cut_facts L R Hc Hs) as (Hl & HL & HR & Et & Hx). pose proof (esize_pos (new_entry L s)) as Hr. fold r in Hr.
  rewrite ents_app, <- app_assoc in E. unfold z_insert in *. fold r in Hb |- *. set (o := tail_off 10 (L ++ R)) in *.
  rewrite (total_app L (_ :: _)) in Hb |- *. cbn [total] in Hb |- *. fold r in Hb |- *.
  destruct (next_at zl (hdr (11 + total (L ++ R)) o n ++ ents 0 L) (last_size 0 L) R (10 + total L)) as (c & Hc0 & Hce);
    [subst zl; view|offset|by destruct R as [|x xs]; [|apply Hx]|].
  assert (∀ A R', R' = L ++ A → tail_off 10 R' = 10 + total L + total A - last_size (last_size 0 L) A) as Eoff.
  { intros A R' ->. unfold tail_off. rewrite total_app, last_size_app. lia. }
  exists c. rewrite Hce. destruct R as [|x xs].
  - rewrite bool_decide_true by done. cbn [negb refit total ents app] in *. rewrite app_nil_r in *.
    exists 0. destruct (zl_resize_grow be junk (11 + total L) o n (ents 0 L) r) as (J & HJ & HJl); [lia|rewrite zlen_ents; lia|].
    rewrite zlen_ents in HJ. eexists. exists 255. eexists. exists (take (Z.to_nat r) (255 :: J)).
    split; [done|]. split; [done|]. split; [rewrite Z.add_0_r, wrapu_small by (unfold in_u; lia); rewrite E; exact HJ|].
    replace (Z.to_nat r) with (S (Z.to_nat (r - 1))) by lia. cbn [take].
    split; [rewrite app_assoc; cbn [app]; rewrite get8_app by offset; done|]. split; [apply put_tail_hdr|]. cbn [negb Z.eqb].
    split; [|cbn [take]; revert HJl; rewrite !zlen_cons; intros; unfold zlen in *; rewrite length_take; lia].
    rewrite wrapu_small by (unfold in_u; lia). do 3 f_equal; [lia|].
    rewrite (Eoff [new_entry L s]) by done. cbn [total last_size foldl]. fold r. lia.
  - destruct Hx as [Hx Hxs]. rewrite bool_decide_false by done. cbn [negb]. exists (fsize (254 <=? r) - fsize (wide x)). set (d := fsize (254 <=? r) - fsize (wide x)).
    set (x' := mkZent (254 <=? r) (text x)). assert (esize x' = esize x + d) as Ex' by (unfold esize, d, x'; cbn [wide text]; lia).
    pose proof (total_nonneg xs). pose proof (zlen_nonneg xs). pose proof (widen_total xs (esize x')) as Hwt.
    pose proof (encode_bounds (text x)). pose proof (esize_pos x'). pose proof (esize_pos x).
    cbn [refit total] in Hb |- *. fold x' in Hb |- *. cbn [total] in Et, Hs, Hxs.
    assert (0 ≤ r + d) as Hrd.
    { unfold insert_grows in Hg. fold r in Hg. subst d. destruct (wide x); [specialize (Hg eq_refl)|]; destruct (254 <=? r); cbn; lia. }
    destruct (zl_resize_grow be junk (11 + total (L ++ x :: xs)) o n (ents 0 L ++ ents (last_size 0 L) (x :: xs)) (r + d)) as (J & HJ & HJl);
      [lia|offset|]. set (K := take _ _) in HJ. assert (zlen K = r + d) as HK by (subst K; unfold zlen in *; rewrite length_take; lia).
    clearbody K. replace (11 + zlen (ents 0 L ++ ents (last_size 0 L) (x :: xs)) + (r + d)) with (11 + total L + r + total (x' :: xs)) in HJ by offset.
    destruct (insert_move_spec L x xs n r K) as (G & HG & HM); [done|lia|fold d; done|fold d; done|fold x'; cbn [total]; lia|cbn [total]; lia|].
    fold d x' in HM. set (T := 11 + total L + r + total (x' :: xs)) in *.
    destruct (first_at (hdr T o n ++ (ents 0 L ++ ents (last_size 0 L) (x :: xs)) ++ K ++ [255]) (hdr T o n ++ ents 0 L)
      (last_size 0 L) x (ents (esize x) xs ++ K ++ [255]) (10 + total L)) as (c' & Hc' & Hc'e); [view|offset|done|].
    eexists. exists c'. eexists. exists G.
    split; [done|]. split; [apply (prevdiff_at zl (hdr (11 + total (L ++ x :: xs)) o n ++ ents 0 L) (wide x) (last_size 0 L) (encode (text x) ++ ents (esize x) xs ++ [255])); [subst zl; view|offset|done]|].
    split; [rewrite wrapu_small by (unfold in_u; lia); rewrite E; replace (11 + total (L ++ x :: xs) + r + d) with T by (subst T; cbn [total]; lia);
      rewrite <- HJ; f_equal; view|].
    split; [exact Hc'|]. rewrite Hc'e. cbn [negb].
    split; [rewrite <- HM; f_equal; view|]. split; [|done].
    replace (10 + total L + r) with (10 + zlen (ents 0 L ++ G)) by offset.
    replace T with (11 + zlen (ents 0 L ++ G) + total (x' :: xs)) by (subst T; offset).
    assert (field_ok (wide x') r) as Hx' by (split; [lia|intros ?%Z.leb_gt; lia]).
    assert (chain (esize x) xs) as Hcx by by apply chain_app in Hc as [_ [_ Hc]].
    destruct (Z.eqb_spec d 0) as [Hd|Hd]; cbn [negb].
    + rewrite (widen_id (esize x') xs) by (by rewrite Ex', Hd, Z.add_0_r). f_equal.
      assert (esize x' = esize x) as Ee by lia.
      f_equal; [f_equal; [offset|]|cbn [ents]; rewrite Ee; view].
      rewrite (Eoff (new_entry L s :: x' :: xs)) by done. unfold tail_off. rewrite !last_size_cons. cbn [total]. fold r. offset.
    + rewrite (cascade_spec be junk (ents 0 L ++ G) r x' (esize x) xs n); [|done|lia|done|offset].
      f_equal. f_equal; [f_equal; [offset|]|cbn [ents]; view].
      rewrite (Eoff (new_entry L s :: x' :: widen (esize x') xs)) by done. unfold tail_off. rewrite !last_size_cons. cbn [total]. fold r. offset.
Qed.

Lemma insert_spec zl L s R n :
  zrep zl (L ++ R) n → insert_grows L s R → 11 + total (z_insert L s R) < 2 ^ 31 →
  ∃ zl' n', __ziplistInsert be junk zl (10 + total L) s = Some zl' ∧ zrep zl' (z_insert L s R) n'.
Proof.
  intros Hz Hg Hb. destruct (insert_place zl L s R n Hz Hg Hb) as (c & d & zl1 & c' & zl2 & G & Hc & Hd & H1 & Hc' & H2 & H3 & HG).
  pose proof (zr_chain _ _ _ Hz) as Hch. pose proof (zr_size _ _ _ Hz) as Hs. pose proof (zr_eq _ _ _ Hz) as E.
  destruct (cut_facts L R Hch Hs) as (Hl & HL & HR & Et & _). destruct (zr_count _ _ _ Hz) as [Hn Hn'].
  destruct (insert_encoding_spec s) as (value & encoding & l & Ee & Hreq & Hl0).
  set (r := esize (new_entry L s)) in *. pose proof (esize_pos (new_entry L s)). fold r in H.
  assert (r = fsize (254 <=? last_size 0 L) + zlen (encode s)) as Er by done.
  assert (11 + total L + r < 2 ^ 31) as Hr.
  { unfold z_insert in Hb. rewrite total_app in Hb. cbn [total] in Hb. fold r in Hb.
    pose proof (total_nonneg (refit r R)). pose proof (zlen_nonneg (refit r R)). lia. }
  pose proof (fsize_pos (254 <=? last_size 0 L)). pose proof (encode_bounds s). pose proof (encode_size_bound encoding (zlen s)).
  unfold __ziplistInsert.
  assert (ZIPLIST_BYTES be zl = Some (11 + total (L ++ R))) as -> by (rewrite E; apply bytes_hdr; unfold in_u; lia). cbn [mbind option_bind].
  rewrite (insert_prevlen_spec zl _ _ n L R E eq_refl Hch Hs). cbn [mbind option_bind]. rewrite Ee, <- fsize_need.
  rewrite !(wrapu_small 64) by (unfold in_u; rewrite ?(wrapu_small 64) by (unfold in_u; lia); lia).
  replace (l + fsize (254 <=? last_size 0 L) + zipEncodeLength_size encoding (zlen s)) with r by lia.
  rewrite Hc. cbn [mbind option_bind]. rewrite (wrapu_small 32 r) by (unfold in_u; lia). rewrite Hd. cbn [mbind option_bind].
  rewrite H1. cbn [mbind option_bind]. rewrite Hc'. cbn [mbind option_bind]. rewrite H2. cbn [mbind option_bind]. rewrite H3. cbn [mbind option_bind].
  rewrite (insert_write_spec _ (hdr (11 + total (z_insert L s R)) (tail_off 10 (z_insert L s R)) n ++ ents 0 L) G
    (ents r (refit r R) ++ [255]) _ (last_size 0 L) s value encoding l); [|view|offset|lia|lia|done].
  cbn [mbind option_bind]. rewrite <- app_assoc.
  destruct (incr_length_spec n (zlen (L ++ R)) 1) as (n' & Hi & Hr1 & Hr2);
    [done|done|pose proof (zlen_nonneg (L ++ R)); lia|unfold UINT16_MAX in *; intros Hlt; specialize (Hn' Hlt); lia|].
  change (u32 1) with 1 in Hi. eexists _, n'. split; [apply Hi|]. destruct (z_insert_ok L s R Hch (zr_head _ _ _ Hz)) as [Hc1 Hh1].
  split; [|split; [done|rewrite z_insert_zlen; done]|done|done|done].
  f_equal. unfold z_insert. rewrite ents_app. cbn [ents]. fold r. by rewrite <- !app_assoc.
Qed.

End insert.

(** ** Deletion *)

Section delete.
Context (be : host) (junk : nat → Z).

Lemma delete_walk_spec zl es : ∀ fuel A prev p i num,
  zl = A ++ ents prev es ++ [255] → p = zlen A → chain prev es → 0 ≤ prev < 2 ^ 31 → total es < 2 ^ 31 →
  0 ≤ i ≤ num → i + zlen es < 2 ^ 32 → (length es < fuel)%nat →
  let D := take (Z.to_nat (num - i)) es in
  delete_walk fuel zl p i num = Some (p + total D, i + zlen D).
Proof.
  induction es as [|e es IH]; intros fuel A prev p i num Hz Hp Hc Hpr Ht Hi Hl Hf; (destruct fuel as [|fuel]; [lia|]); cbn [delete_walk].
  - destruct (next_at zl A prev [] p Hz Hp I) as (c & -> & Hce). rewrite bool_decide_true in Hce by done. cbn [mbind option_bind].
    rewrite Hce. cbn [negb andb]. rewrite take_nil. cbn [total]. unfold zlen. cbn. f_equal. f_equal; lia.
  - pose proof (chain_field prev e es Hpr Hc) as He. destruct Hc as [_ Hc]. pose proof (total_nonneg es). pose proof (zlen_nonneg es).
    pose proof (esize_pos e). cbn [total] in Ht. rewrite zlen_cons in Hl.
    destruct (first_at zl A prev e (ents (esize e) es ++ [255]) p) as (c & -> & Hce); [subst zl; view|done..|].
    cbn [mbind option_bind]. rewrite Hce. cbn [negb andb]. destruct (Z.ltb_spec i num) as [Hlt|Hge].
    + rewrite (rawlen_at zl A prev e (ents (esize e) es ++ [255]) p); [|subst zl; view|done..|lia]. cbn [mbind option_bind].
      rewrite wrapu_small by (unfold in_u; lia).
      rewrite (IH fuel (A ++ ebytes prev e) (esize e)); [|subst zl; view|offset|done|lia|lia|lia|lia|cbn in Hf; lia].
      replace (Z.to_nat (num - i)) with (S (Z.to_nat (num - (i + 1)))) by lia. cbn [take total]. rewrite zlen_cons. f_equal. f_equal; lia.
    + replace (Z.to_nat (num - i)) with 0%nat by lia. cbn [take total]. unfold zlen. cbn. f_equal. f_equal; lia.
Qed.

Lemma delete_middle_spec zl T n L D x xs first :
  let pl := last_size 0 L in let w := 254 <=? pl in let x' := mkZent w (text x) in let d := fsize w - fsize (wide x) in
  chain 0 (L ++ D ++ x :: xs) → D ≠ [] → 11 + total (L ++ D ++ x :: xs) < 2 ^ 31 →
  T = 11 + total (L ++ D ++ x :: xs) →
  zl = hdr T (tail_off 10 (L ++ D ++ x :: xs)) n ++ ents 0 (L ++ D ++ x :: xs) ++ [255] →
  prevrawlen first = pl → ep first = 10 + total L →
  ∃ K, 1 ≤ zlen K ∧
    delete_middle be zl first (10 + total L + total D) (total D) =
      Some (hdr T (tail_off (10 + total L) (x' :: xs)) n ++ (ents 0 L ++ ebytes pl x' ++ ents (esize x) xs) ++ K, d).
Proof.
  intros pl w x' d Hc HD Hb ET Hz Hfp Hfe. set (o := tail_off 10 _) in Hz.
  rewrite !total_app in Hb, ET. cbn [total] in Hb, ET. rewrite !ents_app in Hz. fold pl in Hz. set (ls := last_size pl D) in Hz.
  apply chain_app in Hc as [HcL Hc]. fold pl in Hc. apply chain_app in Hc as [HcD [Hcx Hcs]]. fold ls in Hcx.
  pose proof (total_nonneg L). pose proof (zlen_nonneg L). pose proof (total_nonneg xs). pose proof (zlen_nonneg xs). pose proof (esize_pos x).
  pose proof (last_size_bound 0 L ltac:(lia)) as Hpl. fold pl in Hpl. pose proof (last_size_bound pl D ltac:(lia)) as Hls. fold ls in Hls.
  assert (field_ok (wide x) ls) as Hx by (split; [lia|done]).
  assert (esize x' = esize x + d) as Ex' by (unfold esize, d, x'; cbn [wide text]; lia). pose proof (esize_pos x').
  assert (0 ≤ total D - d) as HDd.
  { subst d w. destruct D as [|y D]; [done|]. cbn [total]. pose proof (total_nonneg D). pose proof (zlen_nonneg D). destruct HcD as [Hy _].
    pose proof (encode_bounds (text y)). unfold esize. destruct (Z.leb_spec 254 pl), (wide x), (wide y); cbn; lia. }
  pose proof (fsize_pos w). pose proof (fsize_pos (wide x)).
  destruct (cut_at (ents pl D ++ field (wide x) ls) (total D - d)) as (D' & F & ED & HD' & HF); [offset|]. autorewrite with zlen in HF.
  set (X := encode (text x) ++ ents (esize x) xs).
  assert (zl = (hdr T o n ++ ents 0 L ++ D') ++ F ++ X ++ [255]) as Hz1.
  { rewrite <- !app_assoc, (app_assoc D'), <- ED, Hz. unfold X. view. }
  assert (zlen X = esize x + total xs - fsize (wide x)) as HX by (unfold X; autorewrite with zlen; unfold esize; lia).
  unfold delete_middle. rewrite Hfp.
  rewrite (prevdiff_at zl (hdr T o n ++ ents 0 L ++ ents pl D) (wide x) ls (X ++ [255])); [|rewrite Hz; unfold X; view|offset|done].
  cbn [mbind option_bind]. fold w d.
  rewrite (prevenc_at be zl (hdr T o n ++ ents 0 L ++ D') F (X ++ [255])); [|done|offset|lia|fold w; lia].
  cbn [mbind option_bind]. fold w. rewrite <- !app_assoc.
  assert (o = tail_off (10 + total L + total D) (x :: xs)) as Eo.
  { unfold o, tail_off. rewrite !total_app, !last_size_app, !last_size_cons. lia. }
  destruct (tail_off_bounds (10 + total L + total D) x xs) as [Hob _]. rewrite <- Eo in Hob. cbn [total] in Hob. clearbody o.
  rewrite tail_hdr by (unfold in_u; lia). cbn [mbind option_bind]. rewrite put_tail_hdr. cbn [mbind option_bind].
  pose proof (total_nonneg D). pose proof (zlen_nonneg D).
  rewrite !(wrapu_small 32 (o - total D)) by (unfold in_u; lia). set (o1 := o - total D).
  set (zl' := hdr T o1 n ++ _).
  rewrite (entry_at be zl' (hdr T o1 n ++ ents 0 L ++ D') pl x' (ents (esize x) xs ++ [255])); [|unfold zl', X; view|offset|by split; [lia|intros ?%Z.leb_gt; lia]|lia].
  cbn [mbind option_bind headersize len]. rewrite header_len by lia.
  destruct (next_at zl' (hdr T o1 n ++ ents 0 L ++ D' ++ ebytes pl x') (esize x) xs (10 + total L + total D - d + esize x')) as (c & -> & Hce);
    [unfold zl', X; view|offset|destruct xs as [|y ys]; [done|]; apply (chain_field _ _ ys); [lia|done]|].
  cbn [mbind option_bind]. rewrite Hce. set (o2 := tail_off (10 + total L) (x' :: xs)).
  assert ((if negb (bool_decide (xs = [])) then off ← ZIPLIST_TAIL_OFFSET be zl'; put_u32 be zl' 4 (off +u32 d) else Some zl') =
    Some (hdr T o2 n ++ ents 0 L ++ D' ++ field w pl ++ X ++ [255])) as ->.
  { unfold o2. rewrite (tail_off_swap _ x x' xs). replace (tail_off (10 + total L) (x :: xs)) with o1 by (subst o1; rewrite Eo; unfold tail_off; lia).
    destruct (bool_decide (xs = [])); cbn [negb]; [by rewrite Z.add_0_r|]. unfold zl'. rewrite tail_hdr by (unfold in_u; lia).
    cbn [mbind option_bind]. rewrite put_tail_hdr. rewrite !(wrapu_small 32 (o1 + d)) by (unfold in_u; lia).
    by replace (o1 + d) with (o1 + (esize x' - esize x)) by lia. }
  cbn [mbind option_bind]. rewrite bytes_hdr by (unfold in_u; lia). cbn [mbind option_bind].
  rewrite (wrapu_small 64) by (unfold in_u; lia). rewrite Hfe.
  destruct (cut_at (D' ++ (field w pl ++ X) ++ [255]) (esize x' + total xs)) as (O & K & EK & HO & HK); [autorewrite with zlen; lia|].
  exists K. split; [autorewrite with zlen in HK; lia|].
  rewrite (memmove_views _ (hdr T o2 n ++ ents 0 L ++ D') (field w pl ++ X) [255] (hdr T o2 n ++ ents 0 L) O K); [|view| |offset|offset|offset|].
  - cbn [mbind option_bind]. do 2 f_equal. unfold X. view.
  - rewrite <- (app_assoc (hdr T o2 n)). do 2 f_equal. rewrite <- EK. view.
  - apply Nat2Z.inj. fold (zlen O) (zlen (field w pl ++ X)). offset.
Qed.

Definition z_delete (L R : list zent) : list zent := L ++ refit (last_size 0 L) R.

Lemma z_delete_ok L D R : chain 0 (L ++ D ++ R) → wide <$> head (L ++ D ++ R) ≠ Some true →
  chain 0 (z_delete L R) ∧ wide <$> head (z_delete L R) ≠ Some true.
Proof.
  intros [HL [_ HR]%chain_app]%chain_app Hh. unfold z_delete. split.
  - apply chain_app. split; [done|]. by eapply refit_chain.
  - destruct L as [|e L]; [|done]. by destruct R.
Qed.

Lemma delete_spec zl L D R n num :
  zrep zl (L ++ D ++ R) n → D ≠ [] → 0 ≤ num < 2 ^ 32 → D = take (Z.to_nat num) (D ++ R) →
  11 + total (z_delete L R) < 2 ^ 31 →
  ∃ zl' n', __ziplistDelete be junk zl (10 + total L) num = Some zl' ∧ zrep zl' (z_delete L R) n'.
Proof.
  intros Hz HD Hnum ED Hb. pose proof (zr_chain _ _ _ Hz) as Hc. pose proof (zr_size _ _ _ Hz) as Hs. pose proof (zr_eq _ _ _ Hz) as E.
  destruct (zr_count _ _ _ Hz) as [Hn Hn']. destruct (z_delete_ok L D R Hc (zr_head _ _ _ Hz)) as [Hc1 Hh1].
  destruct (cut_facts L (D ++ R) Hc Hs) as (Hl & HL & _ & Et & Hx). rewrite (total_app D R) in Et.
  set (pl := last_size 0 L) in *. set (T := 11 + total (L ++ D ++ R)) in *. set (o := tail_off 10 (L ++ D ++ R)) in *.
  pose proof (total_nonneg D). pose proof (zlen_nonneg D). pose proof (total_nonneg R). pose proof (zlen_nonneg R).
  pose proof (total_nonneg (L ++ D ++ R)) as Htl. rewrite !zlen_app in Htl. pose proof (zlen_nonneg L).
  assert (zl = (hdr T o n ++ ents 0 L) ++ ents pl (D ++ R) ++ [255]) as Ez by (rewrite E, ents_app; view).
  unfold __ziplistDelete. assert (∃ y D0, D = y :: D0) as (y & D0 & EDy) by (destruct D; [done|eauto]).
  rewrite EDy in Hx. cbn [app] in Hx. destruct Hx as [Hy Hyt].
  rewrite (entry_at be zl (hdr T o n ++ ents 0 L) pl y (ents (esize y) (D0 ++ R) ++ [255])); [|rewrite Ez, EDy; cbn [app]; view|offset|done|].
  2: { rewrite app_comm_cons, <- EDy, total_app in Hyt. lia. }
  cbn [mbind option_bind]. set (first := mkZle _ _ _ _ _ _ _).
  rewrite (delete_walk_spec zl (D ++ R) _ (hdr T o n ++ ents 0 L) pl (10 + total L) 0 num); [|done|offset| |lia|rewrite total_app; lia|lia|rewrite zlen_app; lia| ].
  2: { by apply chain_app in Hc as [_ Hc]. }
  2: { apply Nat2Z.inj_lt. rewrite Nat2Z.inj_succ. fold (zlen (D ++ R)) (zlen zl). rewrite Ez. autorewrite with zlen. rewrite total_app. lia. }
  rewrite Z.sub_0_r, <- ED. cbn [mbind option_bind]. change (ep first) with (10 + total L).
  assert (2 ≤ total D) as HDp by (rewrite EDy; cbn [total]; pose proof (esize_pos y); pose proof (total_nonneg D0); pose proof (zlen_nonneg D0); lia).
  replace (10 + total L + total D - (10 + total L)) with (total D) by lia. rewrite (wrapu_small 32 (total D)) by (unfold in_u; lia).
  rewrite (proj2 (Z.ltb_lt 0 (total D))) by lia. change (prevrawlen first) with pl. rewrite Z.add_0_l.
  destruct (next_at zl (hdr T o n ++ ents 0 L ++ ents pl D) (last_size pl D) R (10 + total L + total D)) as (c & -> & Hce);
    [rewrite Ez, ents_app; view|offset| |].
  { destruct R as [|x xs]; [done|]. apply chain_app in Hc as [_ [_ Hc]%chain_app]. fold pl in Hc. apply (chain_field _ _ xs); [|done].
    pose proof (last_size_bound pl D ltac:(lia)). pose proof (last_size_bound 0 L ltac:(lia)). fold pl in H5. lia. }
  cbn [mbind option_bind]. rewrite Hce. 
  destruct (incr_length_spec be n (zlen (L ++ D ++ R)) (- zlen D)) as (n' & Hi & Hr1 & Hr2);
    [done|done|rewrite !zlen_app; lia|unfold UINT16_MAX in *; intros Hlt; specialize (Hn' Hlt); lia|].
  destruct R as [|x xs].
  - rewrite bool_decide_true by done. cbn [negb].
    assert (put_u32 be zl 4 (10 + total L - pl) = Some (hdr T (tail_off 10 L) n ++ ents 0 L ++ ents pl D ++ [255])) as ->.
    { rewrite E, put_tail_hdr. pose proof (last_size_bound 0 L ltac:(lia)). fold pl in H4. rewrite wrapu_small by (unfold in_u; lia).
      f_equal. rewrite app_nil_r, ents_app. fold pl. view. }
    cbn [mbind option_bind total] in *. rewrite bytes_hdr by (unfold in_u; lia). cbn [mbind option_bind].
    rewrite (wrapu_small 32 (T - total D)), (wrapu_small 32 (T - total D + 0)) by (unfold in_u; lia).
    replace (T - total D + 0) with (11 + zlen (ents 0 L)) by offset. rewrite zl_resize_shrink by offset. cbn [mbind option_bind].
    rewrite Hi. cbn [mbind option_bind Z.eqb negb]. eexists _, n'. split; [done|].
    unfold z_delete in *. cbn [refit] in *. rewrite app_nil_r in *. split; [|split; [done|]|done..].
    + do 2 f_equal. offset.
    + intros Hlt. rewrite (Hr2 Hlt), zlen_app. lia.
  - rewrite bool_decide_false by done. cbn [negb].
    destruct (delete_middle_spec zl T n L D x xs first Hc HD) as (K & HK & ->); [done..|]. cbn [mbind option_bind].
    fold pl. set (x' := mkZent (254 <=? pl) (text x)). set (d := fsize (254 <=? pl) - fsize (wide x)).
    assert (esize x' = esize x + d) as Ex' by (unfold esize, d, x'; cbn [wide text]; lia). pose proof (esize_pos x').
    unfold z_delete in *. cbn [refit] in *. fold pl x' in Hb, Hc1, Hh1 |- *. rewrite total_app in Hb. cbn [total] in *.
    pose proof (widen_total xs (esize x')). pose proof (total_nonneg xs). pose proof (zlen_nonneg xs).
    rewrite bytes_hdr by (unfold in_u; lia). cbn [mbind option_bind].
    rewrite (wrapu_small 32 (T - total D)), (wrapu_small 32 (T - total D + d)) by (unfold in_u; lia).
    replace (T - total D + d) with (11 + zlen (ents 0 L ++ ebytes pl x' ++ ents (esize x) xs)) by offset.
    rewrite zl_resize_shrink by offset. cbn [mbind option_bind]. rewrite Hi. cbn [mbind option_bind].
    assert (chain (esize x) xs) as Hcx by (by apply chain_app in Hc as [_ [_ [_ Hc]]%chain_app]).
    assert (field_ok (wide x') pl) as Hx' by (split; [lia|intros ?%Z.leb_gt; lia]).
    assert (∃ zl', (if negb (d =? 0) then __ziplistCascadeUpdate be junk (hdr (11 + zlen (ents 0 L ++ ebytes pl x' ++ ents (esize x) xs))
        (tail_off (10 + total L) (x' :: xs)) n' ++ (ents 0 L ++ ebytes pl x' ++ ents (esize x) xs) ++ [255]) (10 + total L) else
        Some (hdr (11 + zlen (ents 0 L ++ ebytes pl x' ++ ents (esize x) xs)) (tail_off (10 + total L) (x' :: xs)) n' ++
          (ents 0 L ++ ebytes pl x' ++ ents (esize x) xs) ++ [255])) = Some zl' ∧
      zl' = hdr (11 + total L + total (x' :: widen (esize x') xs)) (tail_off (10 + total L) (x' :: widen (esize x') xs)) n' ++
        ents 0 L ++ ebytes pl x' ++ ents (esize x') (widen (esize x') xs) ++ [255]) as (zl' & -> & ->).
    { replace (11 + zlen (ents 0 L ++ ebytes pl x' ++ ents (esize x) xs)) with (11 + total L + total (x' :: xs)) by offset.
      destruct (Z.eqb_spec d 0) as [Hd|Hd]; cbn [negb]; eexists; (split; [|reflexivity]).
      - assert (esize x' = esize x) as Ee by lia. rewrite Ee, (widen_id (esize x) xs Hcx). f_equal. view.
      - pose proof (esize_pos x). pose proof (cascade_spec be junk (ents 0 L) pl x' (esize x) xs n' Hx' ltac:(lia) Hcx) as Hcs. rewrite zlen_ents in Hcs.
        rewrite <- Hcs by (cbn [total]; lia). f_equal. view. }
    eexists _, n'. split; [done|]. split; [|split; [done|]|done|done|rewrite total_app; cbn [total]; lia].
    + rewrite ents_app, total_app. fold pl. cbn [ents total]. f_equal; [f_equal; [lia|]|view].
      unfold tail_off. rewrite total_app, last_size_app, !last_size_cons. cbn [total]. lia.
    + intros Hlt. rewrite (Hr2 Hlt). rewrite !zlen_app, !zlen_cons. unfold zlen. rewrite widen_length. lia.
Qed.
End delete.

(** ** Reading *)

Section read.
Context (be : host).

(** The payload of an entry of a string. *)
Lemma load_payload zl A prev e B q :
  zl = A ++ ebytes prev e ++ B → zipTryEncoding (text e) = None → q = zlen A + (fsize (wide e) + (shape (text e)).1.2) →
  load zl q (shape (text e)).2 = Some (text e) ∧ ZIP_IS_STR (shape (text e)).1.1 = true ∧ (shape (text e)).2 = zlen (text e).
Proof.
  intros -> Et ->. unfold ebytes, encode, shape. rewrite Et. cbn [fst snd]. split; [|split; [by repeat case_if|done]].
  rewrite <- !app_assoc, (app_assoc A), (app_assoc (A ++ _)), load_app; [done| |done].
  rewrite !zlen_app, zlen_field, zlen_encode_buf. lia.
Qed.
(** The payload of an entry of an integer. *)
Lemma load_int zl A prev e B q v enc :
  zl = A ++ ebytes prev e ++ B → zipTryEncoding (text e) = Some (v, enc) → q = zlen A + (fsize (wide e) + (shape (text e)).1.2) →
  zipLoadInteger be zl q (shape (text e)).1.1 = Some v ∧ ZIP_IS_STR (shape (text e)).1.1 = false.
Proof.
  intros -> Et ->. unfold ebytes, encode, shape. rewrite Et. cbn [fst snd]. apply zipTryEncoding_fits in Et as [_ Hf].
  split; [|by apply int_fits_enc in Hf as (_ & _ & ->)].
  replace (A ++ (field (wide e) prev ++ enc :: int_bytes v enc) ++ B) with ((A ++ field (wide e) prev ++ [enc]) ++ int_bytes v enc ++ B) by view.
  apply loadInteger_spec; [|done]. rewrite !zlen_app, zlen_field, zlen_cons, zlen_nil. lia.
Qed.

Lemma get_spec zl A prev e B p :
  zl = A ++ ebytes prev e ++ B → p = zlen A → field_ok (wide e) prev → esize e < 2 ^ 31 →
  ziplistGet be zl (Some p) = Some (Some (read_back (text e))).
Proof.
  intros Hz Hp Hf Hs. unfold ziplistGet, read_back. destruct (first_at zl A prev e B p Hz Hp Hf) as (c & -> & Hc). cbn [mbind option_bind].
  rewrite Hc, (entry_at be zl A prev e B p Hz Hp Hf Hs). cbn [mbind option_bind encoding headersize len].
  destruct (zipTryEncoding (text e)) as [[v enc]|] eqn:Et.
  - destruct (load_int zl A prev e B (p + (fsize (wide e) + (shape (text e)).1.2)) v enc Hz Et) as [H1 ->]; [lia|]. by rewrite H1.
  - destruct (load_payload zl A prev e B (p + (fsize (wide e) + (shape (text e)).1.2)) Hz Et) as (H1 & -> & _); [lia|]. by rewrite H1.
Qed.

(** Two strings with the same integer value are the same. *)
Lemma try_inj s t v e e' : zipTryEncoding s = Some (v, e) → zipTryEncoding t = Some (v, e') → s = t.
Proof.
  intros [[H1 _]%string2ll_spec _]%zipTryEncoding_fits [[H2 _]%string2ll_spec _]%zipTryEncoding_fits. by eapply decimal_unique.
Qed.

Lemma compare_spec zl A prev e B p s :
  zl = A ++ ebytes prev e ++ B → p = zlen A → field_ok (wide e) prev → esize e < 2 ^ 31 →
  ziplistCompare be zl p s = Some (bool_decide (text e = s)).
Proof.
  intros Hz Hp Hf Hs. unfold ziplistCompare. destruct (first_at zl A prev e B p Hz Hp Hf) as (c & -> & Hc). cbn [mbind option_bind].
  rewrite Hc, (entry_at be zl A prev e B p Hz Hp Hf Hs). cbn [mbind option_bind encoding headersize len].
  destruct (zipTryEncoding (text e)) as [[v enc]|] eqn:Et.
  - destruct (load_int zl A prev e B (p + (fsize (wide e) + (shape (text e)).1.2)) v enc Hz Et) as [H1 ->]; [lia|].
    destruct (zipTryEncoding s) as [[w enc']|] eqn:Es.
    + rewrite H1. cbn [mbind option_bind]. f_equal. destruct (Z.eqb_spec v w) as [<- |Hne]; symmetry.
      * apply bool_decide_eq_true. by eapply try_inj.
      * apply bool_decide_eq_false. intros Heq. congruence.
    + f_equal. symmetry. apply bool_decide_eq_false. congruence.
  - destruct (load_payload zl A prev e B (p + (fsize (wide e) + (shape (text e)).1.2)) Hz Et) as (H1 & -> & El); [lia|].
    destruct (Z.eqb_spec (shape (text e)).2 (zlen s)) as [E|Hne].
    + rewrite <- E, H1. done.
    + f_equal. symmetry. apply bool_decide_eq_false. intros Heq. apply Hne. by rewrite El, Heq.
Qed.

(** *** Search *)

(** The first entry with the text [v] among those [skip] apart; [cnt] entries
    are skipped first. *)
Fixpoint find_in (v : list Z) (skip cnt : nat) (ts : list (list Z)) : option nat :=
  match ts with
  | [] => None
  | t :: ts =>
      match cnt with
      | O => if bool_decide (t = v) then Some O else S <$> find_in v skip skip ts
      | S cnt => S <$> find_in v skip cnt ts
      end
  end.

Lemma find_in_lt v skip ts : ∀ cnt k, find_in v skip cnt ts = Some k → (k < length ts)%nat.
Proof.
  induction ts as [|t ts IH]; intros cnt k; [done|]. cbn. destruct cnt as [|cnt].
  - case_bool_decide; [intros [= <-]; lia|]. destruct (find_in v skip skip ts) as [j|] eqn:E; [|done]. intros [= <-]. specialize (IH _ _ E). lia.
  - destruct (find_in v skip cnt ts) as [j|] eqn:E; [|done]. intros [= <-]. specialize (IH _ _ E). lia.
Qed.

Lemma find_loop_spec zl v skip es : ∀ fuel A prev p cnt venc vll,
  zl = A ++ ents prev es ++ [255] → p = zlen A → chain prev es → 0 ≤ prev < 2 ^ 31 → total es < 2 ^ 31 → (length es < fuel)%nat →
  (venc = 0 ∨ match zipTryEncoding v with Some (w, enc) => venc = enc ∧ vll = w | None => venc = 255 end) →
  find_loop be fuel zl p v (Z.of_nat skip) (Z.of_nat cnt) venc vll =
    Some ((λ i, p + total (take i es)) <$> find_in v skip cnt (text <$> es)).
Proof.
  induction es as [|e es IH]; intros fuel A prev p cnt venc vll Hz Hp Hc Hpr Ht Hf Hv; (destruct fuel as [|fuel]; [lia|]); cbn [find_loop].
  - destruct (next_at zl A prev [] p Hz Hp I) as (c & -> & Hce). rewrite bool_decide_true in Hce by done. cbn [mbind option_bind]. by rewrite Hce.
  - pose proof (chain_field prev e es Hpr Hc) as He. destruct Hc as [_ Hc]. pose proof (total_nonneg es). pose proof (zlen_nonneg es).
    pose proof (esize_pos e). cbn [total length] in Ht, Hf.
    assert (zl = A ++ ebytes prev e ++ ents (esize e) es ++ [255]) as Hz' by (subst zl; view).
    destruct (first_at zl A prev e _ p Hz' Hp He) as (c & -> & Hce). cbn [mbind option_bind]. rewrite Hce.
    assert (ZIP_DECODE_PREVLENSIZE zl p = Some (fsize (wide e))) as ->.
    { rewrite Hz'. unfold ebytes. rewrite <- app_assoc. by apply prevlensize_spec with (n := prev). }
    cbn [mbind option_bind].
    assert (ZIP_DECODE_LENGTH zl (p + fsize (wide e)) = Some (shape (text e))) as ->.
    { rewrite Hz'. unfold ebytes. rewrite <- app_assoc, app_assoc. apply decode_length_frame; [|rewrite zlen_app, zlen_field; lia].
      apply decode_encode, text_bound. unfold esize in *. pose proof (fsize_pos (wide e)). lia. }
    pose proof (zlen_encode (text e)) as Elen.
    pose proof (load_payload zl A prev e (ents (esize e) es ++ [255]) (p + fsize (wide e) + (shape (text e)).1.2) Hz') as HLP.
    pose proof (λ v enc, load_int zl A prev e (ents (esize e) es ++ [255]) (p + fsize (wide e) + (shape (text e)).1.2) v enc Hz') as HLI.
    destruct (shape (text e)) as [[enc ls] l]. cbn [mbind option_bind fst snd] in *.
    assert (esize e = fsize (wide e) + (ls + l)) as Ee by (unfold esize; lia).
    assert (∀ cnt' venc' vll', (venc' = 0 ∨ match zipTryEncoding v with Some (w, enc) => venc' = enc ∧ vll' = w | None => venc' = 255 end) →
      find_loop be fuel zl (p + fsize (wide e) + ls + l) v (Z.of_nat skip) (Z.of_nat cnt') venc' vll' =
      Some ((λ i, p + total (take i (e :: es))) <$> (S <$> find_in v skip cnt' (text <$> es)))) as Hnext.
    { intros cnt' venc' vll' Hv'. rewrite (IH fuel (A ++ ebytes prev e) (esize e)); [|subst zl; view|offset|done|lia|lia|lia|done].
      f_equal. destruct (find_in v skip cnt' (text <$> es)) as [i|]; [|done]. cbn [fmap option_fmap option_map take total]. f_equal. lia. }
    rewrite fmap_cons. destruct cnt as [|cnt].
    + change (Z.of_nat 0 =? 0) with true. cbv iota. cbn [find_in].
      assert (∀ b : bool, b = bool_decide (text e = v) → ∀ venc' vll',
        (venc' = 0 ∨ match zipTryEncoding v with Some (w, enc) => venc' = enc ∧ vll' = w | None => venc' = 255 end) →
        (if b then Some (Some p) else find_loop be fuel zl (p + fsize (wide e) + ls + l) v (Z.of_nat skip) (Z.of_nat skip) venc' vll') =
        Some ((λ i, p + total (take i (e :: es))) <$> (if bool_decide (text e = v) then Some 0%nat else S <$> find_in v skip skip (text <$> es)))) as Hfin.
      { intros b -> venc' vll' Hv'. destruct (bool_decide _); [|by apply Hnext]. cbn. by rewrite Z.add_0_r. }
      destruct (zipTryEncoding (text e)) as [[w enc']|] eqn:Et.
      * destruct (HLI w enc' eq_refl ltac:(lia)) as [Hld ->].
        assert (∃ venc' vll', (if venc =? 0 then match zipTryEncoding v with Some (v0, e0) => (e0, v0) | None => (255, vll) end else (venc, vll)) = (venc', vll') ∧
          match zipTryEncoding v with Some (w, enc) => venc' = enc ∧ vll' = w | None => venc' = 255 end) as (venc' & vll' & -> & Hv').
        { destruct (Z.eqb_spec venc 0) as [E0|E0].
          - destruct (zipTryEncoding v) as [[w0 e0]|]; eauto.
          - destruct Hv as [Hv|Hv]; [done|]. eauto. }
        destruct (zipTryEncoding v) as [[w0 e0]|] eqn:Ev.
        -- destruct Hv' as [-> ->]. pose proof Ev as Ev'. apply zipTryEncoding_fits in Ev' as [_ Hfit]. destruct (int_fits_enc _ _ Hfit) as (Hr & _).
           rewrite (proj2 (Z.eqb_neq e0 255)) by lia. cbn [negb]. rewrite Hld. cbn [mbind option_bind]. apply Hfin; [|by right].
           destruct (Z.eqb_spec w w0) as [<- |Hne]; symmetry; [apply bool_decide_eq_true; by eapply try_inj|apply bool_decide_eq_false; congruence].
        -- subst venc'. cbn [negb Z.eqb Pos.eqb]. cbn [mbind option_bind]. apply (Hfin false); [|by right]. symmetry. apply bool_decide_eq_false. congruence.
      * destruct (HLP eq_refl ltac:(lia)) as (Hld & -> & El). destruct (Z.eqb_spec l (zlen v)) as [E|Hne].
        -- rewrite <- E, Hld. cbn [mbind option_bind]. by apply Hfin.
        -- cbn [mbind option_bind]. apply (Hfin false); [|done]. symmetry. apply bool_decide_eq_false. intros Heq. by rewrite El, Heq in Hne.
    + rewrite (proj2 (Z.eqb_neq (Z.of_nat (S cnt)) 0)) by lia. replace (Z.of_nat (S cnt) - 1) with (Z.of_nat cnt) by lia. by apply Hnext.
Qed.

End read.

(** ** Traversal *)

(** The offset of the entry number [i], or of the end. *)
Definition pos (es : list zent) (i : nat) : Z := 10 + total (take i es).
(** The entry at an index, from the end when it is negative. *)
Definition z_index {A} (es : list A) (i : Z) : option nat :=
  if 0 <=? i then if i <? zlen es then Some (Z.to_nat i) else None
  else if - i <=? zlen es then Some (Z.to_nat (zlen es + i)) else None.

Section traverse.
Context (be : host).

Lemma index_fwd_spec zl es : ∀ fuel A prev p i,
  zl = A ++ ents prev es ++ [255] → p = zlen A → chain prev es → 0 ≤ prev < 2 ^ 31 → total es < 2 ^ 31 → 0 ≤ i → (length es < fuel)%nat →
  index_fwd fuel zl p i = Some (p + total (take (Z.to_nat i) es), if i <? zlen es then -1 else i - zlen es).
Proof.
  induction es as [|e es IH]; intros fuel A prev p i Hz Hp Hc Hpr Ht Hi Hf; (destruct fuel as [|fuel]; [lia|]); cbn [index_fwd].
  - destruct (next_at zl A prev [] p Hz Hp I) as (c & -> & Hce). rewrite bool_decide_true in Hce by done. cbn [mbind option_bind]. rewrite Hce.
    cbn [negb]. rewrite take_nil. change (zlen (@nil zent)) with 0. rewrite (proj2 (Z.ltb_ge i 0)) by lia. cbn [total]. f_equal. f_equal; lia.
  - pose proof (chain_field prev e es Hpr Hc) as He. destruct Hc as [_ Hc]. pose proof (total_nonneg es). pose proof (zlen_nonneg es).
    pose proof (esize_pos e). cbn [total length] in Ht, Hf. rewrite zlen_cons.
    destruct (first_at zl A prev e (ents (esize e) es ++ [255]) p) as (c & -> & Hce); [subst zl; view|done..|].
    cbn [mbind option_bind]. rewrite Hce. cbn [negb]. destruct (Z.eqb_spec i 0) as [-> |Hne].
    + rewrite (proj2 (Z.ltb_lt 0 _)) by lia. change (Z.to_nat 0) with 0%nat. rewrite take_0. cbn [total]. f_equal. f_equal; lia.
    + rewrite (rawlen_at zl A prev e (ents (esize e) es ++ [255]) p); [|subst zl; view|done..|lia]. cbn [mbind option_bind].
      rewrite (IH fuel (A ++ ebytes prev e) (esize e)); [|subst zl; view|offset|done|lia|lia|lia|lia].
      replace (Z.to_nat i) with (S (Z.to_nat (i - 1))) by lia. cbn [take total]. f_equal.
      destruct (Z.ltb_spec (i - 1) (zlen es)), (Z.ltb_spec i (1 + zlen es)); f_equal; lia.
Qed.

Lemma index_back_spec zl b o n L : ∀ fuel R j,
  zl = hdr b o n ++ ents 0 (L ++ R) ++ [255] → chain 0 (L ++ R) → 11 + total (L ++ R) < 2 ^ 31 → 0 ≤ j → (length L < fuel)%nat →
  index_back be fuel zl (10 + total L) (last_size 0 L) j =
    Some (10 + total (take (length L - Z.to_nat j) L), if j <? zlen L then -1 else j - zlen L).
Proof.
  induction L as [|e L IH] using rev_ind; intros fuel R j Hz Hc Hb Hj Hf; (destruct fuel as [|fuel]; [lia|]); cbn [index_back].
  - cbn [last_size foldl]. change (0 <? 0) with false. cbv iota. change (zlen (@nil zent)) with 0. rewrite (proj2 (Z.ltb_ge j 0)) by lia.
    cbn [length Nat.sub take total]. f_equal. f_equal; lia.
  - rewrite <- app_assoc in Hz, Hc, Hb. cbn [app] in Hz, Hc, Hb. destruct (cut_facts L (e :: R) Hc Hb) as (Hl & HL & HR & Et & He & Hes).
    pose proof (esize_pos e). rewrite last_size_app, total_app. cbn [last_size foldl total]. rewrite (proj2 (Z.ltb_lt 0 (esize e))) by lia.
    rewrite length_app in Hf. rewrite length_app, zlen_app. cbn [length] in *. change (zlen [e]) with 1. pose proof (zlen_nonneg L).
    destruct (Z.eqb_spec j 0) as [-> |Hne].
    + rewrite (proj2 (Z.ltb_lt 0 _)) by lia. replace (length L + 1 - Z.to_nat 0)%nat with (length (L ++ [e])) by (rewrite length_app; cbn; lia).
      rewrite firstn_all, total_app. cbn [total]. done.
    + replace (10 + (total L + (esize e + 0)) - esize e) with (10 + total L) by lia.
      rewrite (prevlen_at be zl (hdr b o n ++ ents 0 L) (wide e) (last_size 0 L) (encode (text e) ++ ents (esize e) R ++ [255]));
        [|rewrite Hz, ents_app; view|offset|done]. cbn [mbind option_bind].
      rewrite (IH fuel (e :: R) (j - 1) Hz Hc Hb) by lia.
      replace (length L + 1 - Z.to_nat j)%nat with (length L - Z.to_nat (j - 1))%nat by lia. rewrite take_app_le by lia. f_equal.
      destruct (Z.ltb_spec (j - 1) (zlen L)), (Z.ltb_spec j (zlen L + 1)); f_equal; lia.
Qed.

Lemma count_spec zl es : ∀ fuel A prev p k,
  zl = A ++ ents prev es ++ [255] → p = zlen A → chain prev es → 0 ≤ prev < 2 ^ 31 → total es < 2 ^ 31 → (length es < fuel)%nat →
  0 ≤ k → k + zlen es < 2 ^ 32 →
  zl_count_loop fuel zl p k = Some (k + zlen es).
Proof.
  induction es as [|e es IH]; intros fuel A prev p k Hz Hp Hc Hpr Ht Hf Hk Hkb; (destruct fuel as [|fuel]; [lia|]); cbn [zl_count_loop].
  - destruct (next_at zl A prev [] p Hz Hp I) as (c & -> & Hce). rewrite bool_decide_true in Hce by done. cbn [mbind option_bind]. rewrite Hce.
    unfold zlen. cbn. f_equal. lia.
  - pose proof (chain_field prev e es Hpr Hc) as He. destruct Hc as [_ Hc]. pose proof (total_nonneg es). pose proof (zlen_nonneg es).
    pose proof (esize_pos e). cbn [total length] in Ht, Hf. rewrite zlen_cons in *.
    destruct (first_at zl A prev e (ents (esize e) es ++ [255]) p) as (c & -> & Hce); [subst zl; view|done..|].
    cbn [mbind option_bind]. rewrite Hce.
    rewrite (rawlen_at zl A prev e (ents (esize e) es ++ [255]) p); [|subst zl; view|done..|lia]. cbn [mbind option_bind].
    rewrite wrapu_small by (unfold in_u; lia).
    rewrite (IH fuel (A ++ ebytes prev e) (esize e)); [f_equal; lia|subst zl; view|offset|done|lia..].
Qed.

(** *** On a block that holds [es] *)

Lemma zrep_size zl es n : zrep zl es n → (length es < S (length zl))%nat ∧ 0 ≤ total es ∧ 0 ≤ zlen es ∧ zlen es < 2 ^ 31.
Proof.
  intros Hz. pose proof (zr_size _ _ _ Hz). pose proof (total_nonneg es). pose proof (zlen_nonneg es).
  assert (zlen zl = 11 + total es) by (rewrite (zr_eq _ _ _ Hz); offset). repeat split; try lia. unfold zlen in *. lia.
Qed.

(** The byte at the position of an entry. *)
Lemma pos_byte zl es n i :
  zrep zl es n → (i ≤ length es)%nat → ∃ c, get8 zl (pos es i) = Some c ∧ (c =? ZIP_END) = bool_decide (i = length es).
Proof.
  intros Hz Hi. rewrite <- (take_drop i es) in Hz. pose proof (zr_chain _ _ _ Hz) as Hc. pose proof (zr_size _ _ _ Hz) as Hs.
  destruct (cut_facts _ _ Hc Hs) as (Hl & HL & HR & Et & Hx). set (L := take i es) in *. set (R := drop i es) in *.
  destruct (next_at zl (hdr (11 + total (L ++ R)) (tail_off 10 (L ++ R)) n ++ ents 0 L) (last_size 0 L) R (pos es i)) as (c & Hg & He).
  - rewrite (zr_eq _ _ _ Hz), ents_app. view.
  - unfold pos. fold L. offset.
  - destruct R; [done|]. apply Hx.
  - exists c. split; [done|]. rewrite He. apply bool_decide_ext. subst R. split.
    + intros E. apply (f_equal length) in E. rewrite length_drop in E. cbn in E. lia.
    + intros ->. apply drop_all.
Qed.

Lemma ziplistIndex_spec zl es n i :
  zrep zl es n → - 2 ^ 31 < i < 2 ^ 31 → ziplistIndex be zl i = Some (pos es <$> z_index es i).
Proof.
  intros Hz Hi. destruct (zrep_size _ _ _ Hz) as (Hf & Ht & Hl0 & Hl). pose proof (zr_eq _ _ _ Hz) as E. pose proof (zr_size _ _ _ Hz) as Hs.
  unfold ziplistIndex, z_index. destruct (Z.ltb_spec i 0) as [Hneg|Hpos].
  - rewrite (proj2 (Z.eqb_neq i (- 2 ^ 31))), (proj2 (Z.leb_gt 0 i)) by lia.
    pose proof (last_size_bound 0 es ltac:(lia)) as Hls.
    assert (ZIPLIST_TAIL_OFFSET be zl = Some (tail_off 10 es)) as -> by (rewrite E; apply tail_hdr; unfold tail_off, in_u; lia).
    cbn [mbind option_bind]. destruct es as [|e L _] using rev_ind.
    + assert (tail_off 10 [] = pos [] 0) as -> by done. destruct (pos_byte zl [] n 0 Hz) as (c & Hg & He); [done|].
      rewrite bool_decide_true in He by done. rewrite Hg. cbn [mbind option_bind]. rewrite He. cbn [negb mbind option_bind].
      rewrite Hg. cbn [mbind option_bind]. rewrite He. cbn [orb].
      change (zlen (@nil zent)) with 0. by rewrite (proj2 (Z.leb_gt (- i) 0)) by lia.
    + pose proof (zr_chain _ _ _ Hz) as Hc. destruct (cut_facts L [e] Hc Hs) as (HlL & HL & HR & Et & He & Hes).
      assert (tail_off 10 (L ++ [e]) = 10 + total L) as Eo by (unfold tail_off; rewrite total_app, last_size_app; cbn [total last_size foldl]; lia).
      rewrite Eo. assert (10 + total L = pos (L ++ [e]) (length L)) as Ep by (unfold pos; by rewrite take_app_length).
      rewrite Ep. destruct (pos_byte zl (L ++ [e]) n (length L) Hz) as (c & -> & Hcc); [rewrite length_app; lia|].
      cbn [mbind option_bind]. rewrite Hcc, bool_decide_false by (rewrite length_app; cbn; lia). cbn [negb]. rewrite <- Ep.
      rewrite (prevlen_at be zl (hdr (11 + total (L ++ [e])) (tail_off 10 (L ++ [e])) n ++ ents 0 L) (wide e) (last_size 0 L) (encode (text e) ++ [255]));
        [|rewrite E, ents_app; view|offset|done]. cbn [mbind option_bind].
      rewrite (index_back_spec zl (11 + total (L ++ [e])) (tail_off 10 (L ++ [e])) n L _ [e] (- i - 1)); [|done..|lia|rewrite length_app in Hf; cbn in Hf; lia].
      cbn [mbind option_bind]. rewrite zlen_app. change (zlen [e]) with 1. pose proof (zlen_nonneg L).
      assert (10 + total (take (length L - Z.to_nat (- i - 1)) L) = pos (L ++ [e]) (length L - Z.to_nat (- i - 1))) as ->.
      { unfold pos. by rewrite take_app_le by lia. }
      destruct (pos_byte zl (L ++ [e]) n (length L - Z.to_nat (- i - 1)) Hz) as (c' & -> & Hc'); [rewrite length_app; lia|].
      cbn [mbind option_bind]. rewrite Hc', bool_decide_false by (rewrite length_app; cbn; lia). cbn [orb].
      destruct (Z.leb_spec (- i) (zlen L + 1)) as [Hin|Hout].
      * assert ((0 <? (if - i - 1 <? zlen L then -1 else - i - 1 - zlen L)) = false) as ->.
        { destruct (Z.ltb_spec (- i - 1) (zlen L)); [done|]. apply Z.ltb_ge. lia. }
        cbn. do 3 f_equal. unfold zlen in *. lia.
      * rewrite (proj2 (Z.ltb_ge (- i - 1) (zlen L))), (proj2 (Z.ltb_lt 0 (- i - 1 - zlen L))) by lia. done.
  - rewrite (proj2 (Z.leb_le 0 i)) by lia.
    rewrite (index_fwd_spec zl es _ (hdr (11 + total es) (tail_off 10 es) n) 0); [|done|by rewrite zlen_hdr|apply (zr_chain _ _ _ Hz)|lia..].
    cbn [mbind option_bind]. change (ZIPLIST_HEADER_SIZE + total (take (Z.to_nat i) es)) with (pos es (Z.to_nat i)).
    destruct (Z.ltb_spec i (zlen es)) as [Hlt|Hge].
    + destruct (pos_byte zl es n (Z.to_nat i) Hz) as (c & -> & Hc); [unfold zlen in *; lia|]. cbn [mbind option_bind].
      rewrite Hc, bool_decide_false by (unfold zlen in *; lia). done.
    + assert (pos es (Z.to_nat i) = pos es (length es)) as -> by (unfold pos; rewrite !take_ge by (unfold zlen in *; lia); done).
      destruct (pos_byte zl es n (length es) Hz) as (c & -> & Hc); [done|]. cbn [mbind option_bind]. by rewrite Hc, bool_decide_true by done.
Qed.


(** The parts of the block around an entry. *)
Lemma zrep_entry zl es n i e :
  zrep zl es n → es !! i = Some e →
  ∃ A B prev, zl = A ++ ebytes prev e ++ B ∧ zlen A = pos es i ∧ field_ok (wide e) prev ∧ esize e < 2 ^ 31.
Proof.
  intros Hz Hi. pose proof (take_drop_middle es i e Hi) as Es. rewrite <- Es in Hz.
  pose proof (zr_chain _ _ _ Hz) as Hc. pose proof (zr_size _ _ _ Hz) as Hs. destruct (cut_facts _ _ Hc Hs) as (Hl & HL & HR & Et & Hx & Hxt).
  eexists (hdr _ _ n ++ ents 0 (take i es)), (ents (esize e) (drop (S i) es) ++ [255]), (last_size 0 (take i es)).
  split; [rewrite (zr_eq _ _ _ Hz), ents_app; view|]. split; [unfold pos; offset|]. split; [done|lia].
Qed.

Lemma ziplistGet_spec zl es n i : zrep zl es n → (i ≤ length es)%nat →
  ziplistGet be zl (Some (pos es i)) = Some (read_back ∘ text <$> es !! i).
Proof.
  intros Hz Hi. destruct (es !! i) as [e|] eqn:Ei.
  - destruct (zrep_entry zl es n i e Hz Ei) as (A & B & prev & Ez & Ep & Hf & Hs). by apply (get_spec be zl A prev e B).
  - destruct (pos_byte zl es n i Hz Hi) as (c & Hg & Hc). apply lookup_ge_None_1 in Ei. rewrite bool_decide_true in Hc by lia.
    unfold ziplistGet. rewrite Hg. cbn [mbind option_bind]. by rewrite Hc.
Qed.

Lemma ziplistCompare_spec zl es n i e s : zrep zl es n → es !! i = Some e →
  ziplistCompare be zl (pos es i) s = Some (bool_decide (text e = s)).
Proof.
  intros Hz Ei. destruct (zrep_entry zl es n i e Hz Ei) as (A & B & prev & Ez & Ep & Hf & Hs). by apply (compare_spec be zl A prev e B).
Qed.

Lemma pos_S es i e : es !! i = Some e → pos es (S i) = pos es i + esize e.
Proof. intros Hi. unfold pos. rewrite (take_S_r es i e Hi), total_app. cbn [total]. lia. Qed.

Lemma ziplistNext_spec zl es n i : zrep zl es n → (i ≤ length es)%nat →
  ziplistNext zl (pos es i) = Some (if bool_decide (S i < length es)%nat then Some (pos es (S i)) else None).
Proof.
  intros Hz Hi. unfold ziplistNext. destruct (pos_byte zl es n i Hz Hi) as (c & -> & Hc). cbn [mbind option_bind]. rewrite Hc.
  case_bool_decide as Hend; [by rewrite bool_decide_false by lia|].
  destruct (lookup_lt_is_Some_2 es i ltac:(lia)) as [e Ei].
  destruct (zrep_entry zl es n i e Hz Ei) as (A & B & prev & Ez & Ep & Hf & Hs).
  rewrite (rawlen_at zl A prev e B (pos es i)) by done. cbn [mbind option_bind]. rewrite <- (pos_S es i e Ei).
  destruct (pos_byte zl es n (S i) Hz) as (c' & -> & Hc'); [lia|]. cbn [mbind option_bind]. rewrite Hc'.
  do 2 case_bool_decide; try done; lia.
Qed.

Lemma ziplistPrev_spec zl es n i : zrep zl es n → (i ≤ length es)%nat →
  ziplistPrev be zl (pos es i) = Some (if bool_decide (i = 0)%nat then None else Some (pos es (i - 1))).
Proof.
  intros Hz Hi. unfold ziplistPrev. destruct (pos_byte zl es n i Hz Hi) as (c & -> & Hc). cbn [mbind option_bind]. rewrite Hc.
  pose proof (zr_eq _ _ _ Hz) as E. pose proof (zr_size _ _ _ Hz) as Hs. destruct (zrep_size _ _ _ Hz) as (_ & Ht & _ & _).
  assert (∀ e j, es !! j = Some e → i = S j → last_size 0 (take i es) = esize e ∧ pos es i = pos es j + esize e) as Hlast.
  { intros e j Hj ->. split; [|by apply pos_S]. rewrite (take_S_r es j e Hj), last_size_app. done. }
  case_bool_decide as Hend.
  - pose proof (last_size_bound 0 es ltac:(lia)).
    assert (ZIPLIST_TAIL_OFFSET be zl = Some (tail_off 10 es)) as -> by (rewrite E; apply tail_hdr; unfold tail_off, in_u; lia).
    cbn [mbind option_bind]. assert (tail_off 10 es = pos es (i - 1)) as ->.
    { destruct i as [|j]; [destruct es; done|]. destruct (lookup_lt_is_Some_2 es j ltac:(lia)) as [e Ej]. destruct (Hlast e j Ej eq_refl) as [H1 H2].
      rewrite take_ge in H1 by lia. unfold tail_off. rewrite H1. unfold pos in H2. rewrite take_ge in H2 by lia.
      replace (S j - 1)%nat with j by lia. unfold pos. lia. }
    destruct (pos_byte zl es n (i - 1) Hz) as (c' & -> & Hc'); [lia|]. cbn [mbind option_bind]. rewrite Hc'. do 2 case_bool_decide; try done; lia.
  - assert ((pos es i =? ZIPLIST_HEADER_SIZE) = bool_decide (i = 0)%nat) as ->.
    { unfold pos, ZIPLIST_HEADER_SIZE. destruct i as [|j]; [done|]. rewrite bool_decide_false by done. apply Z.eqb_neq.
      destruct (lookup_lt_is_Some_2 es j ltac:(lia)) as [e Ej]. rewrite (take_S_r es j e Ej), total_app. cbn [total].
      pose proof (total_nonneg (take j es)). pose proof (zlen_nonneg (take j es)). pose proof (esize_pos e). lia. }
    case_bool_decide as H0; [done|]. destruct i as [|j]; [done|]. destruct (lookup_lt_is_Some_2 es (S j) ltac:(lia)) as [x Hx].
    destruct (lookup_lt_is_Some_2 es j ltac:(lia)) as [e Ej]. destruct (Hlast e j Ej eq_refl) as [H1 H2].
    pose proof (take_drop_middle es (S j) x Hx) as Es. rewrite <- Es in Hz. pose proof (zr_chain _ _ _ Hz) as Hch. pose proof (zr_size _ _ _ Hz) as Hs'.
    destruct (cut_facts _ _ Hch Hs') as (Hl & HL & HR & Et & Hxx & _).
    rewrite (prevlen_at be zl (hdr (11 + total es) (tail_off 10 es) n ++ ents 0 (take (S j) es)) (wide x) (last_size 0 (take (S j) es))
      (encode (text x) ++ ents (esize x) (drop (S (S j)) es) ++ [255])); [|rewrite E; rewrite <- Es at 3; rewrite ents_app; view|unfold pos; offset|done].
    cbn [mbind option_bind]. rewrite H1. pose proof (esize_pos e). rewrite (proj2 (Z.ltb_lt 0 (esize e))) by lia.
    replace (S j - 1)%nat with j by lia. do 2 f_equal. lia.
Qed.

Lemma ziplistFind_spec zl es n v skip : zrep zl es n → Z.of_nat skip < 2 ^ 31 →
  ziplistFind be zl ZIPLIST_HEADER_SIZE v (Z.of_nat skip) = Some (pos es <$> find_in v skip 0 (text <$> es)).
Proof.
  intros Hz Hsk. destruct (zrep_size _ _ _ Hz) as (Hf & Ht & _ & _). pose proof (zr_size _ _ _ Hz). unfold ziplistFind.
  rewrite wraps_small by (unfold in_s; lia). change 0 with (Z.of_nat 0) at 1.
  rewrite (find_loop_spec be zl v skip es _ (hdr (11 + total es) (tail_off 10 es) n) 0);
    [done|apply (zr_eq _ _ _ Hz)|by rewrite zlen_hdr|apply (zr_chain _ _ _ Hz)|lia|lia|lia|by left].
Qed.

Lemma ziplistLen_spec zl es n : zrep zl es n → ∃ zl' n', ziplistLen be zl = Some (zl', zlen es) ∧ zrep zl' es n'.
Proof.
  intros Hz. destruct (zrep_size _ _ _ Hz) as (Hf & Ht & Hl0 & Hl). pose proof (zr_size _ _ _ Hz). destruct (zr_count _ _ _ Hz) as [Hn Hn'].
  unfold UINT16_MAX in *. pose proof (zr_eq _ _ _ Hz) as E. unfold ziplistLen.
  destruct (length_hdr be (11 + total es) (tail_off 10 es) n (ents 0 es ++ [255])) as (v & Hv & Hi & _); [unfold in_u; lia|].
  rewrite <- E in Hv. rewrite Hv. cbn [mbind option_bind]. rewrite Hi. cbn [mbind option_bind]. unfold UINT16_MAX.
  destruct (Z.ltb_spec n 65535) as [Hlt|Hge]; [exists zl, n; rewrite (Hn' Hlt); by rewrite <- (Hn' Hlt)|].
  rewrite (count_spec zl es _ (hdr (11 + total es) (tail_off 10 es) n) 0); [|done|by rewrite zlen_hdr|apply (zr_chain _ _ _ Hz)|lia..].
  cbn [mbind option_bind]. rewrite Z.add_0_l. destruct (Z.ltb_spec (zlen es) 65535) as [Hlt|]; [|by exists zl, n].
  rewrite E, put_length_hdr. cbn [mbind option_bind]. rewrite (wrapu_small 16) by (unfold in_u; lia). eexists _, (zlen es). split; [done|].
  split; [done|unfold UINT16_MAX; lia|apply (zr_chain _ _ _ Hz)|apply (zr_head _ _ _ Hz)|done].
Qed.

Lemma ziplistNew_spec junk : ∃ zl, ziplistNew be junk = Some zl ∧ zrep zl [] 0.
Proof.
  eexists. split; [|split; [reflexivity|unfold UINT16_MAX; by split; [lia|]|done|done|by vm_compute]].
  by destruct be.
Qed.

End traverse.
