(* ===== verification/ZiplistSpec.v ===== *)
(** * ZiplistSpec: theorems on ziplists

    Sequences of operations against the list of the strings, traversal in both
    directions, and the insertion that loses bytes. *)

From S2P Require Import Prelude Endian NumConv Objects Ziplist ZiplistFacts ZiplistOps.

Section run.
Context (be : host) (junk : nat → Z).

(** ** Operations *)

Inductive zlop :=
  | OPush (s : list Z) (where_head : bool)
  | OInsert (i : Z) (s : list Z)         (* at the entry of an index *)
  | ODelete (i : Z)                      (* the entry of an index *)
  | ODeleteRange (index num : Z)
  | OGet (i : Z)
  | OCompare (i : Z) (s : list Z)
  | OFindNext (s : list Z) (skip : nat)  (* the entry after the one found *)
  | OLen.
Inductive zlres := RDone | RVal (v : option zval) | RBool (b : bool) | RNum (n : Z).

Definition run_zlop (zl : list Z) (o : zlop) : option (list Z * zlres) :=
  match o with
  | OPush s w => zl ← ziplistPush be junk zl s w; Some (zl, RDone)
  | OInsert i s =>
      p ← ziplistIndex be zl i;
      match p with
      | None => Some (zl, RBool false)
      | Some p => zl ← ziplistInsert be junk zl p s; Some (zl, RBool true)
      end
  | ODelete i =>
      p ← ziplistIndex be zl i;
      match p with
      | None => Some (zl, RBool false)
      | Some p => '(zl, _) ← ziplistDelete be junk zl p; Some (zl, RBool true)
      end
  | ODeleteRange index num => zl ← ziplistDeleteRange be junk zl index num; Some (zl, RDone)
  | OGet i => p ← ziplistIndex be zl i; v ← ziplistGet be zl p; Some (zl, RVal v)
  | OCompare i s =>
      p ← ziplistIndex be zl i;
      match p with None => Some (zl, RBool false) | Some p => b ← ziplistCompare be zl p s; Some (zl, RBool b) end
  | OFindNext s skip =>
      p ← ziplistFind be zl ZIPLIST_HEADER_SIZE s (Z.of_nat skip);
      match p with
      | None => Some (zl, RVal None)
      | Some p => q ← ziplistNext zl p; v ← ziplistGet be zl q; Some (zl, RVal v)
      end
  | OLen => '(zl, n) ← ziplistLen be zl; Some (zl, RNum n)
  end.
Fixpoint run_zlops (zl : list Z) (ops : list zlop) : option (list Z * list zlres) :=
  match ops with
  | [] => Some (zl, [])
  | o :: ops => '(zl, r) ← run_zlop zl o; '(zl, rs) ← run_zlops zl ops; Some (zl, r :: rs)
  end.

(** ** The list of strings *)

Definition spec_zlop (ts : list (list Z)) (o : zlop) : list (list Z) * zlres :=
  match o with
  | OPush s w => (if w then s :: ts else ts ++ [s], RDone)
  | OInsert i s =>
      match z_index ts i with
      | None => (ts, RBool false)
      | Some k => (take k ts ++ s :: drop k ts, RBool true)
      end
  | ODelete i =>
      match z_index ts i with
      | None => (ts, RBool false)
      | Some k => (take k ts ++ drop (S k) ts, RBool true)
      end
  | ODeleteRange index num =>
      (take (Z.to_nat index) ts ++ drop (Z.to_nat num) (drop (Z.to_nat index) ts), RDone)
  | OGet i => (ts, RVal (k ← z_index ts i; read_back <$> ts !! k))
  | OCompare i s => (ts, RBool (bool_decide (z_index ts i ≫= (λ k, ts !! k) = Some s)))
  | OFindNext s skip => (ts, RVal (k ← find_in s skip 0 ts; read_back <$> ts !! S k))
  | OLen => (ts, RNum (zlen ts))
  end.
Fixpoint spec_zlops (ts : list (list Z)) (ops : list zlop) : list (list Z) * list zlres :=
  match ops with
  | [] => (ts, [])
  | o :: ops => let '(ts, r) := spec_zlop ts o in let '(ts, rs) := spec_zlops ts ops in (ts, r :: rs)
  end.

(** ** What the callers guarantee

    Indices are of type [int]; the block stays below 2^31 bytes; an insertion
    does not make the block smaller ([insert_grows], see
    [ziplist_insert_loses_bytes]).  Pushes at both ends satisfy the latter. *)

(** The entries after an operation. *)
Definition step_zlop (es : list zent) (o : zlop) : list zent :=
  match o with
  | OPush s w => if w then z_insert [] s es else z_insert es s []
  | OInsert i s => match z_index es i with None => es | Some k => z_insert (take k es) s (drop k es) end
  | ODelete i => match z_index es i with None => es | Some k => z_delete (take k es) (drop (S k) es) end
  | ODeleteRange index num =>
      if (num =? 0) || (zlen es <=? index) then es
      else z_delete (take (Z.to_nat index) es) (drop (Z.to_nat num) (drop (Z.to_nat index) es))
  | _ => es
  end.
Definition zlop_ok (es : list zent) (o : zlop) : Prop :=
  11 + total (step_zlop es o) < 2 ^ 31 ∧
  match o with
  | OInsert i s => - 2 ^ 31 < i < 2 ^ 31 ∧
      match z_index es i with None => True | Some k => insert_grows (take k es) s (drop k es) end
  | ODelete i | OGet i | OCompare i _ => - 2 ^ 31 < i < 2 ^ 31
  | ODeleteRange index num => 0 ≤ index < 2 ^ 31 ∧ 0 ≤ num < 2 ^ 32
  | OFindNext _ skip => Z.of_nat skip < 2 ^ 31
  | OPush _ _ | OLen => True
  end.
Fixpoint zlops_ok (es : list zent) (ops : list zlop) : Prop :=
  match ops with
  | [] => True
  | o :: ops => zlop_ok es o ∧ zlops_ok (step_zlop es o) ops
  end.
#[global] Instance zlop_ok_dec es o : Decision (zlop_ok es o).
Proof. destruct o; unfold zlop_ok; try apply _. destruct (z_index es i); apply _. Defined.
#[global] Instance zlops_ok_dec es ops : Decision (zlops_ok es ops).
Proof. revert es. induction ops as [|o ops IH]; intros es; cbn; apply _. Defined.

(** ** One operation *)

Lemma z_index_fmap es i : z_index (text <$> es) i = z_index es i.
Proof. unfold z_index, zlen. by rewrite length_fmap. Qed.
Lemma z_index_lt {A} (l : list A) i k : z_index l i = Some k → (k < length l)%nat.
Proof. unfold z_index, zlen. repeat case_if; intros [= <-]; lia. Qed.
Lemma z_insert_text L s R : text <$> z_insert L s R = (text <$> L) ++ s :: (text <$> R).
Proof. unfold z_insert. rewrite fmap_app, fmap_cons, refit_text. done. Qed.
Lemma z_delete_text L R : text <$> z_delete L R = (text <$> L) ++ (text <$> R).
Proof. unfold z_delete. by rewrite fmap_app, refit_text. Qed.

Lemma insert_at zl es n k s :
  zrep zl es n → insert_grows (take k es) s (drop k es) → 11 + total (z_insert (take k es) s (drop k es)) < 2 ^ 31 →
  ∃ zl' n', __ziplistInsert be junk zl (pos es k) s = Some zl' ∧ zrep zl' (z_insert (take k es) s (drop k es)) n'.
Proof. intros Hz Hg Hb. apply insert_spec with (n := n); [by rewrite take_drop|done|done]. Qed.

Lemma delete_at zl es n k num :
  zrep zl es n → (k < length es)%nat → 1 ≤ num < 2 ^ 32 → 11 + total (z_delete (take k es) (drop (Z.to_nat num) (drop k es))) < 2 ^ 31 →
  ∃ zl' n', __ziplistDelete be junk zl (pos es k) num = Some zl' ∧ zrep zl' (z_delete (take k es) (drop (Z.to_nat num) (drop k es))) n'.
Proof.
  intros Hz Hk Hnum Hb. apply delete_spec with (D := take (Z.to_nat num) (drop k es)) (n := n); [|..|done].
  - by rewrite !take_drop.
  - intros E. apply (f_equal length) in E. rewrite length_take, length_drop in E. cbn in E. lia.
  - lia.
  - by rewrite take_drop.
Qed.

Lemma delete_none zl es n k : zrep zl es n → (k < length es)%nat → __ziplistDelete be junk zl (pos es k) 0 = Some zl.
Proof.
  intros Hz Hk. destruct (lookup_lt_is_Some_2 es k Hk) as [e Ei]. destruct (zrep_entry zl es n k e Hz Ei) as (A & B & prev & Ez & Ep & Hf & Hs).
  unfold __ziplistDelete. rewrite (entry_at be zl A prev e B) by done. cbn [mbind option_bind delete_walk].
  destruct (first_at zl A prev e B (pos es k) Ez) as (c & -> & _); [done..|]. cbn [mbind option_bind ep].
  change (0 <? 0) with false. rewrite andb_false_r. cbn [mbind option_bind]. by rewrite Z.sub_diag.
Qed.

Lemma run_zlop_spec zl es n o :
  zrep zl es n → zlop_ok es o →
  ∃ zl' es' n' r, run_zlop zl o = Some (zl', r) ∧ zrep zl' es' n' ∧ es' = step_zlop es o ∧
    spec_zlop (text <$> es) o = (text <$> es', r).
Proof.
  intros Hz [Hb Ho]. destruct o as [s [] |i s|i|index num|i|i s|s skip|]; cbn [run_zlop spec_zlop step_zlop] in *.
  - unfold ziplistPush. cbn [mbind option_bind].
    destruct (insert_at zl es n 0 s Hz) as (zl' & n' & E & Hz'); [|done|].
    { rewrite take_0, drop_0. pose proof (zr_head _ _ _ Hz) as Hh. destruct es as [|x xs]; [done|]. intros Hw. by rewrite <- Hw in Hh. }
    rewrite take_0, drop_0 in Hz'. change (pos es 0) with (10 + 0) in E. rewrite Z.add_0_r in E. change ZIPLIST_HEADER_SIZE with 10.
    rewrite E. cbn [mbind option_bind]. eexists _, _, n', _. do 3 (split; [done|]). by rewrite z_insert_text.
  - unfold ziplistPush. destruct (zrep_size _ _ _ Hz) as (_ & Ht & _ & _). pose proof (zr_size _ _ _ Hz).
    assert (ZIPLIST_BYTES be zl = Some (11 + total es)) as -> by (rewrite (zr_eq _ _ _ Hz); apply bytes_hdr; unfold in_u; lia). cbn [mbind option_bind].
    destruct (insert_at zl es n (length es) s Hz) as (zl' & n' & E & Hz'); [by rewrite drop_all|by rewrite take_ge, drop_all|].
    rewrite take_ge, drop_all in Hz' by done. unfold pos in E. rewrite take_ge in E by done. replace (11 + total es - 1) with (10 + total es) by lia.
    rewrite E. cbn [mbind option_bind]. eexists _, _, n', _. do 3 (split; [done|]). by rewrite z_insert_text.
  - destruct Ho as [Hi Hg]. rewrite (ziplistIndex_spec be zl es n i Hz Hi), z_index_fmap. cbn [mbind option_bind].
    destruct (z_index es i) as [k|] eqn:Ek; cbn [fmap option_fmap option_map].
    + destruct (insert_at zl es n k s Hz Hg Hb) as (zl' & n' & E & Hz'). unfold ziplistInsert. rewrite E. cbn [mbind option_bind].
      eexists _, _, n', _. do 3 (split; [done|]). by rewrite z_insert_text, fmap_take, fmap_drop.
    + eexists _, _, n, _. by do 3 (split; [done|]).
  - rewrite (ziplistIndex_spec be zl es n i Hz Ho), z_index_fmap. cbn [mbind option_bind].
    destruct (z_index es i) as [k|] eqn:Ek; cbn [fmap option_fmap option_map].
    + destruct (delete_at zl es n k 1 Hz (z_index_lt _ _ _ Ek)) as (zl' & n' & E & Hz'); [lia|by rewrite drop_drop, Nat.add_1_r|].
      rewrite drop_drop, Nat.add_1_r in Hz'. unfold ziplistDelete. rewrite E. cbn [mbind option_bind].
      eexists _, _, n', _. do 3 (split; [done|]). by rewrite z_delete_text, fmap_take, fmap_drop.
    + eexists _, _, n, _. by do 3 (split; [done|]).
  - destruct Ho as [Hi Hnum]. unfold ziplistDeleteRange. rewrite wraps_small by (unfold in_s; lia).
    rewrite (ziplistIndex_spec be zl es n index Hz) by lia. cbn [mbind option_bind]. unfold z_index.
    rewrite (proj2 (Z.leb_le 0 index)) by lia. destruct (Z.ltb_spec index (zlen es)) as [Hlt|Hge]; cbn [fmap option_fmap option_map].
    + rewrite (proj2 (Z.leb_gt (zlen es) index)), orb_false_r in * by lia. unfold zlen in Hlt. destruct (Z.eqb_spec num 0) as [-> |Hne].
      * rewrite (delete_none zl es n _ Hz) by lia. cbn [mbind option_bind orb]. eexists _, _, n, _. do 3 (split; [done|]).
        change (Z.to_nat 0) with 0%nat. by rewrite drop_0, take_drop.
      * destruct (delete_at zl es n (Z.to_nat index) num Hz) as (zl' & n' & E & Hz'); [lia|lia|done|].
        rewrite E. cbn [mbind option_bind]. eexists _, _, n', _. do 3 (split; [done|]). by rewrite z_delete_text, fmap_take, !fmap_drop.
    + rewrite (proj2 (Z.leb_le (zlen es) index)), orb_true_r by lia. eexists _, _, n, _. do 3 (split; [done|]).
      unfold zlen in Hge. rewrite (drop_ge (text <$> es)) by (rewrite length_fmap; lia). rewrite drop_nil, app_nil_r.
      by rewrite take_ge by (rewrite length_fmap; lia).
  - rewrite (ziplistIndex_spec be zl es n i Hz Ho), z_index_fmap. cbn [mbind option_bind].
    eexists _, es, n, (RVal _). split; [|split; [done|split; [done|reflexivity]]].
    destruct (z_index es i) as [k|] eqn:Ek; cbn [fmap option_fmap option_map mbind option_bind]; [|done].
    rewrite (ziplistGet_spec be zl es n k Hz) by (apply z_index_lt in Ek; lia). cbn [mbind option_bind].
    rewrite list_lookup_fmap. by destruct (es !! k).
  - rewrite (ziplistIndex_spec be zl es n i Hz Ho), z_index_fmap. cbn [mbind option_bind].
    eexists _, es, n, (RBool _). split; [|split; [done|split; [done|reflexivity]]].
    destruct (z_index es i) as [k|] eqn:Ek; cbn [fmap option_fmap option_map mbind option_bind]; [|by rewrite bool_decide_false].
    apply z_index_lt in Ek. destruct (lookup_lt_is_Some_2 es k Ek) as [e Ee]. rewrite (ziplistCompare_spec be zl es n k e s Hz Ee).
    cbn [mbind option_bind]. do 3 f_equal. rewrite list_lookup_fmap, Ee. cbn. apply bool_decide_ext. split; [by intros ->|by intros [= ->]].
  - rewrite (ziplistFind_spec be zl es n s skip Hz Ho). cbn [mbind option_bind].
    eexists _, es, n, (RVal _). split; [|split; [done|split; [done|reflexivity]]].
    destruct (find_in s skip 0 (text <$> es)) as [k|] eqn:Ek; cbn [fmap option_fmap option_map mbind option_bind]; [|done].
    assert (k < length es)%nat as Hk by (rewrite <- (length_fmap text es); by eapply find_in_lt).
    rewrite (ziplistNext_spec zl es n k Hz) by lia. cbn [mbind option_bind].
    assert (ziplistGet be zl (if bool_decide (S k < length es)%nat then Some (pos es (S k)) else None) = Some (read_back <$> (text <$> es) !! S k)) as ->; [|done].
    rewrite list_lookup_fmap. case_bool_decide as Hs.
    + rewrite (ziplistGet_spec be zl es n (S k) Hz) by lia. by destruct (es !! S k).
    + by rewrite (lookup_ge_None_2 es) by lia.
  - destruct (ziplistLen_spec be zl es n Hz) as (zl' & n' & -> & Hz'). cbn [mbind option_bind]. eexists _, es, n', _. split; [done|]. split; [done|].
    split; [done|]. unfold zlen. by rewrite length_fmap.
Qed.

Lemma run_zlops_spec ops : ∀ zl es n,
  zrep zl es n → zlops_ok es ops →
  ∃ zl' es' n' rs, run_zlops zl ops = Some (zl', rs) ∧ zrep zl' es' n' ∧ spec_zlops (text <$> es) ops = (text <$> es', rs).
Proof.
  induction ops as [|o ops IH]; intros zl es n Hz Ho; [by exists zl, es, n, []|]. destruct Ho as [Ho Hos].
  cbn [run_zlops spec_zlops]. destruct (run_zlop_spec zl es n o Hz Ho) as (zl1 & es1 & n1 & r & -> & Hz1 & -> & ->). cbn [mbind option_bind].
  destruct (IH zl1 (step_zlop es o) n1 Hz1 Hos) as (zl2 & es2 & n2 & rs & -> & Hz2 & ->). cbn [mbind option_bind].
  by exists zl2, es2, n2, (r :: rs).
Qed.

(** ** Theorems *)

(** C9. Refinement: every sequence of pushes, insertions and deletions at an index,
    deletions of ranges, reads, comparisons, searches and counts on a new ziplist in
    which no insertion in the middle makes the block smaller stays inside its block
    and gives the results of the list of the strings; the lengths of the previous
    entries, the offset of the last entry, the count and the size of the block are
    right at the end ([zrep]), the cascades of updates included. It holds on hosts of
    both byte orders and for all contents of new memory. The restrictions
    ([zlops_ok]): an insertion before an entry must not shrink the block
    ([insert_grows]; pushes at both ends never do), since there [ziplistInsert] leaves
    the block ([ziplist_insert_loses_bytes]); indices are of type [int], and the block
    stays below 2^31 bytes. *)
Theorem ziplist_refines_list ops :
  zlops_ok [] ops →
  ∃ zl zl' es n rs, ziplistNew be junk = Some zl ∧ run_zlops zl ops = Some (zl', rs) ∧ zrep zl' es n ∧
    spec_zlops [] ops = (text <$> es, rs).
Proof.
  intros Ho. destruct (ziplistNew_spec be junk) as (zl & E & Hz).
  destruct (run_zlops_spec ops zl [] 0 Hz Ho) as (zl' & es & n & rs & Hr & Hz' & Hs). by exists zl, zl', es, n, rs.
Qed.

(** Traversal: from the position of each entry [ziplistNext] gives the
    next one and [ziplistPrev] goes back to the entry; before the first entry
    and after the last one they return NULL, and [ziplistPrev] at the end gives
    the last entry. *)
Theorem ziplist_next_prev zl es n i :
  zrep zl es n → (i < length es)%nat →
  ziplistNext zl (pos es i) = Some (if bool_decide (S i < length es)%nat then Some (pos es (S i)) else None) ∧
  ziplistPrev be zl (pos es (S i)) = Some (Some (pos es i)) ∧
  ziplistPrev be zl (pos es 0) = Some None.
Proof.
  intros Hz Hi. rewrite (ziplistNext_spec zl es n i Hz) by lia. rewrite !(ziplistPrev_spec be zl es n _ Hz) by lia.
  cbn [bool_decide]. replace (S i - 1)%nat with i by lia. done.
Qed.

End run.

(** ** Examples *)

Definition junk0 : nat → Z := λ _, 7.
(** A string of 251 bytes: its entry has 254 bytes, or 258 with a wide field. *)
Definition big : list Z := replicate 251 97.
(** A string of 248 bytes: its entry has 251 bytes, or 255 with a wide field. *)
Definition edge : list Z := replicate 248 98.

(** The fourth push widens the fields of all the entries that follow. *)
Definition zl_demo_ops : list zlop :=
  [OPush edge false; OPush edge false; OPush (str "1024") false; OPush big true; OLen; OGet (-1); ODelete 0; OGet 1;
   OInsert 2 (str "2000"); OCompare 2 (str "2000"); OFindNext edge 1; ODeleteRange 1 2; OInsert 0 (str "z"); OGet 5].

Lemma ziplist_refines_list_witness :
  ∃ zl zl' es n rs, ziplistNew true junk0 = Some zl ∧ run_zlops true junk0 zl zl_demo_ops = Some (zl', rs) ∧ zrep zl' es n ∧
    spec_zlops [] zl_demo_ops = (text <$> es, rs).
Proof. apply (ziplist_refines_list true junk0 zl_demo_ops). by_decision. Defined.

Lemma ziplist_next_prev_witness : ∃ zl es n,
  zrep zl es n ∧ text <$> es = [str "a"; str "b"] ∧
  ziplistNext zl (pos es 0) = Some (Some (pos es 1)) ∧ ziplistPrev false zl (pos es 1) = Some (Some (pos es 0)) ∧
  ziplistPrev false zl (pos es 0) = Some None.
Proof.
  destruct (ziplistNew_spec false junk0) as (zl & _ & Hz).
  destruct (run_zlops_spec false junk0 [OPush (str "a") false; OPush (str "b") false] zl [] 0 Hz ltac:(by_decision))
    as (zl' & es & n & rs & _ & Hz' & Hs).
  apply (f_equal fst) in Hs. cbn [fst] in Hs. assert (text <$> es = [str "a"; str "b"]) as Et by (symmetry; exact Hs).
  assert (length es = 2%nat) as Hl by (by rewrite <- (length_fmap text), Et).
  exists zl', es, n. split; [done|]. split; [done|]. destruct (ziplist_next_prev false zl' es n 0 Hz') as (H1 & H2 & H3); [lia|].
  rewrite bool_decide_true in H1 by lia. done.
Defined.

(** C29. An insertion that shrinks the block loses bytes: after the deletion of
    the large entry before [edge], the field of the entry that follows [edge]
    still has 5 bytes; inserting a one-byte integer before it makes the block
    smaller, and [ziplistResize] cuts off its end before [memmove] reads it (an
    access outside of the block). *)
Theorem ziplist_insert_loses_bytes : ∃ zl zl' p,
  ziplistNew false junk0 = Some zl ∧
  run_zlops false junk0 zl [OPush big false; OPush edge false; OPush (str "z") false; ODelete 0] = Some (zl', [RDone; RDone; RDone; RBool true]) ∧
  ziplistIndex false zl' 1 = Some (Some p) ∧
  ziplistGet false zl' (Some p) = Some (Some (ZS (str "z"))) ∧
  ziplistInsert false junk0 zl' p (str "1") = None.
Proof.
  do 3 eexists. split; [vm_compute; reflexivity|]. split; [vm_compute; reflexivity|]. split; [vm_compute; reflexivity|].
  split; vm_compute; reflexivity.
Qed.
