(* ===== verification/ZiplistTexts.v ===== *)
(** * ZiplistTexts: ziplists as lists of strings

    The interface of ziplists to the objects that use them: a block and its list of
    strings, a pointer and its position in that list.  The sizes are bounded by the
    lengths of the strings, whatever the widths of the fields are. *)

From S2P Require Import Prelude Endian NumConv Objects Ziplist ZiplistFacts ZiplistOps ZiplistSpec.

(** ** Sizes *)

Fixpoint weight (ts : list (list Z)) : Z := match ts with [] => 0 | t :: ts => 15 + zlen t + weight ts end.

Lemma weight_app l1 l2 : weight (l1 ++ l2) = weight l1 + weight l2.
Proof. induction l1 as [|t l1 IH]; cbn; lia. Qed.
Lemma weight_nonneg ts : 0 ≤ weight ts.
Proof. induction ts as [|t ts IH]; cbn; [lia|]. pose proof (zlen_nonneg t). lia. Qed.
Lemma weight_len ts : 15 * zlen ts ≤ weight ts.
Proof. induction ts as [|t ts IH]; [done|]. cbn [weight]. rewrite zlen_cons. pose proof (zlen_nonneg t). lia. Qed.
Lemma weight_drop k ts : weight (take k ts) + weight (drop k ts) = weight ts.
Proof. by rewrite <- weight_app, take_drop. Qed.
Lemma weight_delete k ts : weight (delete k ts) ≤ weight ts.
Proof.
  rewrite delete_take_drop, weight_app. pose proof (weight_drop k ts). rewrite <- Nat.add_1_r, <- drop_drop.
  pose proof (weight_drop 1 (drop k ts)). pose proof (weight_nonneg (take 1 (drop k ts))). lia.
Qed.
Lemma weight_insert k s ts : (k < length ts)%nat → weight (<[k := s]> ts) ≤ weight ts + 15 + zlen s.
Proof.
  intros Hk. rewrite insert_take_drop by done. rewrite weight_app. cbn [weight]. pose proof (weight_delete k ts) as H. rewrite delete_take_drop, weight_app in H. lia.
Qed.
Lemma encode_weight s : zlen (encode s) ≤ 9 + zlen s.
Proof.
  rewrite zlen_encode. pose proof (zlen_nonneg s). unfold shape. destruct (zipTryEncoding s) as [[v e]|] eqn:E; cbn.
  - apply zipTryEncoding_fits in E as [_ Hf]. destruct (int_fits_enc _ _ Hf) as (_ & ? & _). lia.
  - pose proof (encode_size_bound 0 (zlen s)). lia.
Qed.
Lemma total_weight es : total es ≤ weight (text <$> es).
Proof.
  induction es as [|e es IH]; [done|]. cbn [total weight fmap list_fmap]. pose proof (encode_weight (text e)). pose proof (fsize_pos (wide e)). unfold esize. fold (fmap text es) in IH. lia.
Qed.

(** ** Blocks and pointers *)

(** *** Short entries

    Entries whose strings have at most 240 bytes never need a wide field. *)

Definition short (es : list zent) : Prop := Forall (λ e, wide e = false ∧ zlen (text e) ≤ 240) es.

Lemma short_size e : wide e = false → zlen (text e) ≤ 240 → esize e < 254.
Proof.
  intros Hw Hl. unfold esize. rewrite Hw, zlen_encode. cbn [fsize]. unfold shape. destruct (zipTryEncoding (text e)) as [[v x]|] eqn:E; cbn.
  - apply zipTryEncoding_fits in E as [_ Hf]. destruct (int_fits_enc _ _ Hf) as (_ & ? & _). lia.
  - unfold zipEncodeLength_size. change (ZIP_IS_STR 0) with true. cbn. repeat case_if; lia.
Qed.
Lemma short_chain es : short es → ∀ n, n < 254 → chain n es.
Proof. induction 1 as [|e es [Hw Hl] _ IH]; intros n Hn; [done|]. split; [done|]. apply IH. by apply short_size. Qed.
Lemma short_last es : short es → ∀ n, n < 254 → last_size n es < 254.
Proof. induction 1 as [|e es [Hw Hl] _ IH]; intros n Hn; [done|]. rewrite last_size_cons. apply IH. by apply short_size. Qed.
Lemma refit_short R n : short R → n < 254 → refit n R = R.
Proof.
  destruct 1 as [|[w t] R [Hw Hl] HR]; [done|]. intros Hn. cbn [refit text]. cbn in Hw. subst w. rewrite (proj2 (Z.leb_gt 254 n)) by lia. f_equal. apply widen_id, short_chain; [done|by apply short_size].
Qed.
Lemma delete_short L D R : short (L ++ D ++ R) → short (z_delete L R).
Proof.
  intros [HL [_ HR]%Forall_app]%Forall_app. unfold z_delete. rewrite refit_short; [by apply Forall_app|done|by apply short_last].
Qed.
Lemma insert_short L s R : short (L ++ R) → zlen s ≤ 240 → short (z_insert L s R).
Proof.
  intros [HL HR]%Forall_app Hs. unfold z_insert, new_entry. rewrite (proj2 (Z.leb_gt 254 (last_size 0 L))) by (by apply short_last).
  rewrite refit_short; [|done|by apply short_size]. apply Forall_app. split; [done|]. by constructor.
Qed.

Section texts.
Context (be : host) (junk : nat → Z).
(** Are all entries short? *)
Context {b : bool}.
Implicit Types (zl s : list Z) (ts : list (list Z)) (p : Z) (k : nat).

Definition zlist zl ts : Prop := ∃ es n, zrep zl es n ∧ text <$> es = ts ∧ (b = true → short es).
(** [p] points to the entry number [k] of the block, or to its end. *)
Definition at_pos zl ts k p : Prop := ∃ es n, zrep zl es n ∧ text <$> es = ts ∧ (b = true → short es) ∧ (k ≤ length ts)%nat ∧ p = pos es k.
(** An optional pointer *)
Definition at_opt zl ts (k : option nat) (p : option Z) : Prop :=
  match k, p with Some k, Some p => at_pos zl ts k p | None, None => True | _, _ => False end.

Lemma at_zlist zl ts k p : at_pos zl ts k p → zlist zl ts.
Proof. intros (es & n & Hz & Ht & Hb & _). by exists es, n. Qed.
Lemma zlist_length zl ts : zlist zl ts → (length ts < length zl)%nat.
Proof.
  intros (es & n & Hz & <- & _). rewrite length_fmap. pose proof (zr_eq _ _ _ Hz) as E. apply (f_equal length) in E. rewrite E.
  rewrite !length_app. pose proof (zlen_ents es 0) as Hl. pose proof (total_nonneg es). unfold zlen in *. cbn. lia.
Qed.

Lemma new_texts : ∃ zl, ziplistNew be junk = Some zl ∧ zlist zl [].
Proof. destruct (ziplistNew_spec be junk) as (zl & E & Hz). exists zl. split; [done|]. exists [], 0. split_and!; [done..|constructor]. Qed.

Lemma index_texts zl ts i : zlist zl ts → - 2 ^ 31 < i < 2 ^ 31 → ∃ r, ziplistIndex be zl i = Some r ∧ at_opt zl ts (z_index ts i) r.
Proof.
  intros (es & n & Hz & <- & Hb) Hi. eexists. split; [by apply (ziplistIndex_spec be zl es n)|]. rewrite z_index_fmap.
  destruct (z_index es i) as [k|] eqn:Ek; [|done]. apply z_index_lt in Ek. exists es, n. split_and!; try done. rewrite length_fmap. lia.
Qed.
Lemma find_texts zl ts v skip p : at_pos zl ts 0 p → Z.of_nat skip < 2 ^ 31 →
  ∃ r, ziplistFind be zl p v (Z.of_nat skip) = Some r ∧ at_opt zl ts (find_in v skip 0 ts) r.
Proof.
  intros (es & n & Hz & <- & Hb & _ & ->) Hs. eexists. split; [by apply (ziplistFind_spec be zl es n)|].
  destruct (find_in v skip 0 (text <$> es)) as [k|] eqn:Ek; [|done]. apply find_in_lt in Ek. exists es, n. split_and!; try done. lia.
Qed.
Lemma next_texts zl ts k p : at_pos zl ts k p →
  ∃ r, ziplistNext zl p = Some r ∧ at_opt zl ts (if bool_decide (S k < length ts)%nat then Some (S k) else None) r.
Proof.
  intros (es & n & Hz & <- & Hb & Hk & ->). rewrite length_fmap in *. eexists. split; [by apply (ziplistNext_spec zl es n)|].
  case_bool_decide as Hs; [|done]. exists es, n. split_and!; try done. rewrite length_fmap. lia.
Qed.
Lemma prev_texts zl ts k p : at_pos zl ts k p →
  ∃ r, ziplistPrev be zl p = Some r ∧ at_opt zl ts (if bool_decide (k = 0)%nat then None else Some (k - 1)%nat) r.
Proof.
  intros (es & n & Hz & <- & Hb & Hk & ->). rewrite length_fmap in *. eexists. split; [by apply (ziplistPrev_spec be zl es n)|].
  case_bool_decide as Hs; [done|]. exists es, n. split_and!; try done. rewrite length_fmap. lia.
Qed.
Lemma get_texts zl ts k p : at_pos zl ts k p → ziplistGet be zl (Some p) = Some (read_back <$> ts !! k).
Proof.
  intros (es & n & Hz & <- & Hb & Hk & ->). rewrite length_fmap in *. rewrite (ziplistGet_spec be zl es n k Hz Hk), list_lookup_fmap. by destruct (es !! k).
Qed.
Lemma compare_texts zl ts k p t s : at_pos zl ts k p → ts !! k = Some t → ziplistCompare be zl p s = Some (bool_decide (t = s)).
Proof.
  intros (es & n & Hz & <- & Hb & Hk & ->) Ht. rewrite list_lookup_fmap in Ht. destruct (es !! k) as [e|] eqn:Ee; [|done]. injection Ht as <-.
  by apply (ziplistCompare_spec be zl es n).
Qed.
Lemma len_texts zl ts : zlist zl ts → ∃ zl', ziplistLen be zl = Some (zl', zlen ts) ∧ zlist zl' ts.
Proof.
  intros (es & n & Hz & <- & Hb). destruct (ziplistLen_spec be zl es n Hz) as (zl' & n' & E & Hz'). exists zl'. split; [|by exists es, n'].
  rewrite E. unfold zlen. by rewrite length_fmap.
Qed.

(** ** Changes *)

Lemma push_texts zl ts s (w : bool) : zlist zl ts → (b = true → zlen s ≤ 240) → 11 + weight (s :: ts) < 2 ^ 31 →
  ∃ zl', ziplistPush be junk zl s w = Some zl' ∧ zlist zl' (if w then s :: ts else ts ++ [s]).
Proof.
  intros (es & n & Hz & <- & Hb) Hbs Hw. destruct (run_zlop_spec be junk zl es n (OPush s w) Hz) as (zl' & es' & n' & r & Hr & Hz' & He & Hs).
  - split; [|done]. cbn [step_zlop]. pose proof (total_weight (if w then z_insert [] s es else z_insert es s [])) as Ht.
    destruct w; rewrite z_insert_text in Ht; cbn [fmap list_fmap app] in Ht; rewrite ?weight_app in Ht; cbn [weight] in *; lia.
  - cbn [run_zlop] in Hr. destruct (ziplistPush be junk zl s w) as [zl1|]; [|done]. injection Hr as <- _. exists zl1. split; [done|].
    exists es', n'. split; [done|]. cbn [spec_zlop] in Hs. split; [by injection Hs|]. intros Hb'. subst es'. cbn [step_zlop].
    destruct w; apply insert_short; rewrite ?app_nil_r; auto.
Qed.

Lemma delete_entries zl es n k : zrep zl es n → (k < length es)%nat → 11 + weight (text <$> es) < 2 ^ 31 →
  ∃ zl' n', ziplistDelete be junk zl (pos es k) = Some (zl', pos es k) ∧ zrep zl' (z_delete (take k es) (drop (S k) es)) n'.
Proof.
  intros Hz Hk Hw. destruct (delete_at be junk zl es n k 1 Hz Hk) as (zl' & n' & E & Hz').
  - lia.
  - pose proof (total_weight (z_delete (take k es) (drop (Z.to_nat 1) (drop k es)))) as Ht. rewrite z_delete_text, <- fmap_app, drop_drop, Nat.add_1_r in Ht.
    rewrite <- delete_take_drop in Ht. rewrite drop_drop, Nat.add_1_r. pose proof (weight_delete k (text <$> es)) as Hd. rewrite <- list_fmap_delete in Hd. lia.
  - exists zl', n'. unfold ziplistDelete. rewrite E. rewrite drop_drop, Nat.add_1_r in Hz'. done.
Qed.
Lemma pos_delete es k : (k ≤ length es)%nat → pos (z_delete (take k es) (drop (S k) es)) k = pos es k.
Proof. intros Hk. unfold pos, z_delete. by rewrite take_app_le, take_take, Nat.min_id by (rewrite length_take; lia). Qed.

Lemma short_cut es k : (k < length es)%nat → short es → short (z_delete (take k es) (drop (S k) es)).
Proof.
  intros Hk Hs. destruct (lookup_lt_is_Some_2 es k Hk) as [e He]. apply (delete_short _ [e] _). cbn. by rewrite take_drop_middle.
Qed.
Lemma delete_texts zl ts k p : at_pos zl ts k p → (k < length ts)%nat → 11 + weight ts < 2 ^ 31 →
  ∃ zl', ziplistDelete be junk zl p = Some (zl', p) ∧ at_pos zl' (delete k ts) k p.
Proof.
  intros (es & n & Hz & <- & Hb & _ & ->) Hk Hw. rewrite length_fmap in Hk. destruct (delete_entries zl es n k Hz Hk Hw) as (zl' & n' & E & Hz').
  exists zl'. split; [done|]. exists (z_delete (take k es) (drop (S k) es)), n'. split; [done|]. split; [|split; [|split]].
  - by rewrite z_delete_text, <- fmap_app, <- delete_take_drop, list_fmap_delete.
  - intros Hb'. apply short_cut; auto.
  - rewrite length_delete by (apply lookup_lt_is_Some_2; by rewrite length_fmap). rewrite length_fmap. lia.
  - by rewrite pos_delete by lia.
Qed.

(** A new value in the place of another: the field of the entry that follows is no
    wider than needed after the deletion, so the block does not get smaller. *)
Lemma replace_texts zl ts k p s : at_pos zl ts k p → (k < length ts)%nat → (b = true → zlen s ≤ 240) → 11 + weight ts + 15 + zlen s < 2 ^ 31 →
  ∃ zl1 zl', ziplistDelete be junk zl p = Some (zl1, p) ∧ ziplistInsert be junk zl1 p s = Some zl' ∧ zlist zl' (<[k := s]> ts).
Proof.
  intros (es & n & Hz & <- & Hb & _ & ->) Hk Hbs Hw. rewrite length_fmap in Hk. pose proof (zlen_nonneg s). destruct (delete_entries zl es n k Hz Hk) as (zl1 & n1 & E & Hz1); [lia|].
  set (L := take k es) in *. set (R := drop (S k) es) in *. exists zl1. assert (length L = k) as HL by (unfold L; rewrite length_take; lia).
  assert (take k (z_delete L R) = L ∧ drop k (z_delete L R) = refit (last_size 0 L) R) as [E1 E2].
  { unfold z_delete. rewrite <- HL. by rewrite take_app_length, drop_app_length. }
  assert (text <$> z_insert L s (refit (last_size 0 L) R) = <[k := s]> (text <$> es)) as Et.
  { rewrite z_insert_text, refit_text. unfold L, R. by rewrite insert_take_drop, <- fmap_take, <- fmap_drop by by rewrite length_fmap. }
  destruct (insert_at be junk zl1 (z_delete L R) n1 k s Hz1) as (zl' & n' & E' & Hz').
  - rewrite E1, E2. unfold insert_grows, new_entry. destruct R as [|x xs]; [done|]. cbn. intros ->. unfold esize. cbn. pose proof (encode_bounds s). lia.
  - rewrite E1, E2. pose proof (total_weight (z_insert L s (refit (last_size 0 L) R))) as Ht. rewrite Et in Ht.
    pose proof (weight_insert k s (text <$> es)) as Hi. rewrite length_fmap in Hi. specialize (Hi Hk). lia.
  - exists zl'. split; [done|]. unfold L, R in E'. rewrite pos_delete in E' by lia. split; [done|]. rewrite E1, E2 in Hz'. eexists _, n'. split; [done|]. split; [done|].
    intros Hb'. apply insert_short; [|auto]. apply (short_cut es k); auto.
Qed.

(** An insertion among short entries, or at the end *)
Lemma insert_texts zl ts k p s : at_pos zl ts k p → b = true → zlen s ≤ 240 → 11 + weight ts + 15 + zlen s < 2 ^ 31 →
  ∃ zl', ziplistInsert be junk zl p s = Some zl' ∧ zlist zl' (take k ts ++ s :: drop k ts).
Proof.
  intros (es & n & Hz & <- & Hb & Hk & ->) Hb' Hs Hw. specialize (Hb Hb'). rewrite length_fmap in Hk.
  assert (text <$> z_insert (take k es) s (drop k es) = take k (text <$> es) ++ s :: drop k (text <$> es)) as Et by by rewrite z_insert_text, fmap_take, fmap_drop.
  destruct (insert_at be junk zl es n k s Hz) as (zl' & n' & E & Hz').
  - unfold insert_grows. destruct (drop k es) as [|x R] eqn:Ed; [done|]. intros Hx. rewrite <- (take_drop k es), Ed in Hb. apply Forall_app in Hb as [_ [[Hx' _] _]%Forall_cons]. congruence.
  - pose proof (total_weight (z_insert (take k es) s (drop k es))) as Ht. rewrite Et, weight_app in Ht. cbn [weight] in Ht. pose proof (weight_drop k (text <$> es)). lia.
  - exists zl'. split; [done|]. eexists _, n'. split; [done|]. split; [done|]. intros _. apply insert_short; [by rewrite take_drop|done].
Qed.
Lemma delete_range_texts zl ts index num : zlist zl ts → 0 ≤ index < 2 ^ 31 → 0 ≤ num < 2 ^ 32 → 11 + weight ts < 2 ^ 31 →
  ∃ zl', ziplistDeleteRange be junk zl index num = Some zl' ∧ zlist zl' (take (Z.to_nat index) ts ++ drop (Z.to_nat num) (drop (Z.to_nat index) ts)).
Proof.
  intros (es & n & Hz & <- & Hb) Hi Hn Hw. destruct (run_zlop_spec be junk zl es n (ODeleteRange index num) Hz) as (zl' & es' & n' & r & Hr & Hz' & He & Hs).
  - split; [|done]. cbn [step_zlop]. destruct (_ || _).
    + pose proof (total_weight es). lia.
    + pose proof (total_weight (z_delete (take (Z.to_nat index) es) (drop (Z.to_nat num) (drop (Z.to_nat index) es)))) as Ht. rewrite z_delete_text, fmap_take, !fmap_drop, weight_app in Ht.
      pose proof (weight_drop (Z.to_nat index) (text <$> es)). pose proof (weight_drop (Z.to_nat num) (drop (Z.to_nat index) (text <$> es))) as H1.
      pose proof (weight_nonneg (take (Z.to_nat num) (drop (Z.to_nat index) (text <$> es)))). lia.
  - cbn [run_zlop] in Hr. destruct (ziplistDeleteRange be junk zl index num) as [zl1|]; [|done]. injection Hr as <- _. exists zl1. split; [done|].
    exists es', n'. split; [done|]. cbn [spec_zlop] in Hs. split; [by injection Hs|]. intros Hb'. specialize (Hb Hb'). subst es'. cbn [step_zlop]. destruct (_ || _); [done|].
    apply (delete_short _ (take (Z.to_nat num) (drop (Z.to_nat index) es)) _). by rewrite !take_drop.
Qed.

(** A negative index counts from the end. *)
Lemma delete_tail_texts zl ts r : zlist zl ts → 0 ≤ r ≤ zlen ts → 11 + weight ts < 2 ^ 31 →
  ∃ zl', ziplistDeleteRange be junk zl (u32 (- r)) (u32 r) = Some zl' ∧ zlist zl' (take (Z.to_nat (zlen ts - r)) ts).
Proof.
  intros Hz Hr Hw. pose proof (weight_len ts). destruct (Z.eqb_spec r 0) as [-> |Hne].
  - destruct (delete_range_texts zl ts 0 0 Hz) as (zl' & E & Hz'); [lia..|]. exists zl'. split; [exact E|]. rewrite Z.sub_0_r, take_ge by (unfold zlen; lia). exact Hz'.
  - destruct (delete_range_texts zl ts (zlen ts - r) r Hz) as (zl' & E & Hz'); [lia..|]. exists zl'. split.
    + rewrite <- E. rewrite (wrapu_small 32 r) by (unfold in_u; lia). unfold ziplistDeleteRange. rewrite wraps_wrapu by lia. rewrite !wraps_small by (unfold in_s; lia).
      destruct Hz as (es & n & Hz & <- & _). rewrite !(ziplistIndex_spec be zl es n) by (done || lia). unfold z_index. unfold zlen in *. rewrite length_fmap in *.
      rewrite (proj2 (Z.leb_gt 0 (- r))), (proj2 (Z.leb_le 0 (_ - r))) by lia. rewrite (proj2 (Z.leb_le (- - r) _)), (proj2 (Z.ltb_lt (_ - r) _)) by lia. done.
    + rewrite drop_drop, (drop_ge ts), app_nil_r in Hz' by (unfold zlen in *; lia). done.
Qed.

End texts.
