(* ===== verification/HashType.v ===== *)
(** * HashType: hash objects in two encodings (redis-3.0.0/src/t_hash.c)

    A hash object holds a ziplist, with a field and its value in turn, as long as it
    is small, and a hash table afterwards.  An entry of the hash table has two string
    objects; hashing and comparison of the fields depend on the string only
    ([DictHash]), so the field of an entry is modelled by its string.  The commands
    are functions on the object of their key, [None] if there is none, from the
    lookup of the key on. *)

From stdpp Require Import gmap.
From S2P Require Import Prelude Endian NumConv Objects Dict DictFacts DictIter SetType Ziplist Strto.

(** A string object for what [ziplistGet] returns *)
Definition zval_object (v : zval) : enc_obj := match v with ZS s => ObjStr s | ZI vll => createStringObjectFromLongLong vll end.

Inductive hashobj := HashZl (zl : list Z) | HashHt (d : sdict).
Inductive hashTypeIterator :=
  | HiZl (fptr vptr : option Z)
  | HiHt (di : dictIterator (K := list Z)) (de : option (dictEntry (list Z) enc_obj)).

(** [char buf[32]] of [getDecodedObject] *)
Local Notation decoded := (getDecodedObject (replicate 32 0)).
(** [tryObjectEncoding] of an object *)
Definition encoded (o : enc_obj) : enc_obj := match o with ObjStr s => tryObjectEncoding s | ObjInt _ => o end.

Section hashtype.
Context (be : host) (junk : nat → Z).
Context (can_resize : bool) (hashF : list Z → Z) (cmp : list Z → list Z → bool).
(** [server.hash_max_ziplist_entries], [server.hash_max_ziplist_value]; the addresses
    of the tables of the dictionary that is iterated *)
Context (hash_max_ziplist_entries hash_max_ziplist_value : Z) (t0 t1 : Z).

Definition createHashObject : option hashobj := zl ← ziplistNew be junk; Some (HashZl zl).

(** ** Lookup *)

(** The positions of a field and of its value, if the field is there *)
Definition find_field (zl field : list Z) : option (option (Z * Z)) :=
  fptr ← ziplistIndex be zl 0;
  match fptr with
  | None => Some None
  | Some fptr =>
      fptr ← ziplistFind be zl fptr field 1;
      match fptr with
      | None => Some None
      | Some fptr => vptr ← ziplistNext zl fptr; vptr ← vptr (* assert *); Some (Some (fptr, vptr))
      end
  end.
Definition hashTypeGetFromZiplist (zl : list Z) (field : enc_obj) : option (option zval) :=
  field ← decoded field;
  r ← find_field zl field;
  match r with
  | Some (_, vptr) => v ← ziplistGet be zl (Some vptr); v ← v (* assert *); Some (Some v)
  | None => Some None
  end.
Definition hashTypeGetFromHashTable (d : sdict) (field : enc_obj) : option (sdict * option enc_obj) :=
  '(d, p) ← dictFind hashF cmp d (obj_string field);
  match p with
  | None => Some (d, None)
  | Some p => e ← get_entry d p; v ← de_val e; Some (d, Some v)
  end.
Definition hashTypeGetObject (o : hashobj) (field : enc_obj) : option (hashobj * option enc_obj) :=
  match o with
  | HashZl zl => v ← hashTypeGetFromZiplist zl field; Some (o, option_map zval_object v)
  | HashHt d => '(d, v) ← hashTypeGetFromHashTable d field; Some (HashHt d, v)
  end.
Definition hashTypeExists (o : hashobj) (field : enc_obj) : option (hashobj * bool) :=
  match o with
  | HashZl zl => v ← hashTypeGetFromZiplist zl field; Some (o, bool_decide (is_Some v))
  | HashHt d => '(d, v) ← hashTypeGetFromHashTable d field; Some (HashHt d, bool_decide (is_Some v))
  end.

Definition hashTypeLength (o : hashobj) : option (hashobj * Z) :=
  match o with
  | HashZl zl => '(zl, n) ← ziplistLen be zl; Some (HashZl zl, n / 2)
  | HashHt d => Some (o, dictSize d)
  end.

(** ** Iterators *)

Definition hashTypeInitIterator (subject : hashobj) : hashTypeIterator :=
  match subject with HashZl _ => HiZl None None | HashHt _ => HiHt dictGetIterator None end.
Definition hashTypeReleaseIterator (subject : hashobj) (hi : hashTypeIterator) : option hashobj :=
  match hi, subject with
  | HiHt di _, HashHt d => d ← dictReleaseIterator t0 t1 d di; Some (HashHt d)
  | HiZl _ _, HashZl _ => Some subject
  | _, _ => None
  end.
(** [false]: [REDIS_ERR] *)
Definition hashTypeNext (subject : hashobj) (hi : hashTypeIterator) : option (hashobj * hashTypeIterator * bool) :=
  match hi, subject with
  | HiZl fptr vptr, HashZl zl =>
      fptr ← match fptr, vptr with
             | None, None => ziplistIndex be zl 0
             | Some _, Some vptr => ziplistNext zl vptr
             | _, _ => None (* assert *)
             end;
      match fptr with
      | None => Some (subject, hi, false)
      | Some fptr => vptr ← ziplistNext zl fptr; vptr ← vptr (* assert *); Some (subject, HiZl (Some fptr) (Some vptr), true)
      end
  | HiHt di _, HashHt d => '(d, di, de) ← dictNext t0 t1 d di; Some (HashHt d, HiHt di de, bool_decide (is_Some de))
  | _, _ => None
  end.
(** [key]: [REDIS_HASH_KEY] *)
Definition hashTypeCurrentFromZiplist (zl : list Z) (fptr vptr : option Z) (key : bool) : option zval :=
  r ← ziplistGet be zl (if key then fptr else vptr); r (* assert *).
Definition hashTypeCurrentFromHashTable (de : option (dictEntry (list Z) enc_obj)) (key : bool) : option enc_obj :=
  de ← de; if key then Some (ObjStr (de_key de)) else de_val de.
Definition hashTypeCurrentObject (subject : hashobj) (hi : hashTypeIterator) (key : bool) : option enc_obj :=
  match hi, subject with
  | HiZl fptr vptr, HashZl zl => v ← hashTypeCurrentFromZiplist zl fptr vptr key; Some (zval_object v)
  | HiHt _ de, HashHt _ => hashTypeCurrentFromHashTable de key
  | _, _ => None
  end.

(** ** Conversion *)

Fixpoint convert_fields (fuel : nat) (o : hashobj) (hi : hashTypeIterator) (d : sdict) : option sdict :=
  match fuel with
  | O => None
  | S fuel =>
      '(o, hi, ok) ← hashTypeNext o hi;
      if (ok : bool) then
        field ← hashTypeCurrentObject o hi true;
        value ← hashTypeCurrentObject o hi false;
        '(d, st) ← dictAdd can_resize hashF cmp id id d (obj_string (encoded field)) (encoded value);
        if decide (st = DICT_OK) then convert_fields fuel o hi d else None (* assert *)
      else _ ← hashTypeReleaseIterator o hi; Some d
  end.
(** To the hash table; every field takes more than one byte. *)
Definition hashTypeConvertZiplist (zl : list Z) : option hashobj :=
  d ← convert_fields (S (length zl)) (HashZl zl) (hashTypeInitIterator (HashZl zl)) dictCreate; Some (HashHt d).
Definition hashTypeConvert (o : hashobj) : option hashobj :=
  match o with HashZl zl => hashTypeConvertZiplist zl | HashHt _ => None (* panic *) end.

Definition hashTypeTryConversion (o : hashobj) (argv : list enc_obj) : option hashobj :=
  match o with
  | HashHt _ => Some o
  | HashZl _ =>
      if existsb (λ a, match a with ObjStr s => hash_max_ziplist_value <? zlen s | ObjInt _ => false end) argv
      then hashTypeConvert o else Some o
  end.
Definition hashTypeTryObjectEncoding (subject : hashobj) (o : enc_obj) : enc_obj :=
  match subject with HashHt _ => encoded o | HashZl _ => o end.

(** ** Changes *)

(** [true]: an update *)
Definition hashTypeSet (o : hashobj) (field value : enc_obj) : option (hashobj * bool) :=
  match o with
  | HashZl zl =>
      field ← decoded field;
      value ← decoded value;
      r ← find_field zl field;
      '(zl, update) ←
        match r with
        | Some (_, vptr) => '(zl, vptr) ← ziplistDelete be junk zl vptr; zl ← ziplistInsert be junk zl vptr value; Some (zl, true)
        | None => zl ← ziplistPush be junk zl field false; zl ← ziplistPush be junk zl value false; Some (zl, false)
        end;
      '(o, n) ← hashTypeLength (HashZl zl);
      o ← (if hash_max_ziplist_entries <? n then hashTypeConvert o else Some o);
      Some (o, update)
  | HashHt d =>
      '(d, isnew, _) ← dictReplace can_resize hashF cmp id id d (obj_string field) value;
      Some (HashHt d, negb isnew)
  end.

Definition hashTypeDelete (o : hashobj) (field : enc_obj) : option (hashobj * bool) :=
  match o with
  | HashZl zl =>
      field ← decoded field;
      fptr ← ziplistIndex be zl 0;
      fptr ← match fptr with None => Some None | Some fptr => ziplistFind be zl fptr field 1 end;
      match fptr with
      | None => Some (o, false)
      | Some fptr =>
          '(zl, fptr) ← ziplistDelete be junk zl fptr;
          '(zl, fptr) ← ziplistDelete be junk zl fptr;
          Some (HashZl zl, true)
      end
  | HashHt d =>
      '(d, st, _) ← dictDelete hashF cmp d (obj_string field);
      if decide (st = DICT_OK) then
        d ← (if htNeedsResize d then '(d, _) ← dictResize can_resize d; Some d else Some d);
        Some (HashHt d, true)
      else Some (HashHt d, false)
  end.
End hashtype.
