(* ===== verification/ListType.v ===== *)
(** * ListType: list objects in two encodings (redis-3.0.0/src/t_list.c)

    A list object holds a ziplist as long as it is small, and a linked list of string
    objects afterwards.  The nodes of linked lists live in a heap; iterators and
    entries are pointers into the ziplist or to nodes. *)

From stdpp Require Import gmap.
From S2P Require Import Prelude Endian NumConv Objects SetType Ziplist HashType Adlist.

Inductive listobj := ListZl (zl : list Z) | ListLl (l : alist enc_obj).
(** [tail]: is the direction [REDIS_TAIL]? *)
Inductive listTypeIterator := LiZl (zi : option Z) (tail : bool) | LiLl (ln : ptr) (tail : bool).
Inductive listTypeEntry := EZl (zi : Z) | ELl (ln : loc).

Section listtype.
Context (be : host) (junk : nat → Z) (memcmp : list Z → list Z → Z) (buf : list Z).
(** [server.list_max_ziplist_entries], [server.list_max_ziplist_value] *)
Context (list_max_ziplist_entries list_max_ziplist_value : Z).

Local Notation heap := (gmap loc (listNode enc_obj)).
(** [char buf[32]] of [getDecodedObject] *)
Local Notation decoded := (getDecodedObject (replicate 32 0)).

Definition createZiplistObject : option listobj := zl ← ziplistNew be junk; Some (ListZl zl).

Definition listTypeLength (subject : listobj) : option (listobj * Z) :=
  match subject with
  | ListZl zl => '(zl, n) ← ziplistLen be zl; Some (ListZl zl, n)
  | ListLl l => Some (subject, len l)
  end.

(** ** Iterators *)

(** The index is an [int] for [ziplistIndex]. *)
Definition listTypeInitIterator (h : heap) (subject : listobj) (index : Z) (tail : bool) : option listTypeIterator :=
  match subject with
  | ListZl zl => zi ← ziplistIndex be zl (i32 index); Some (LiZl zi tail)
  | ListLl l => ln ← listIndex h l index; Some (LiLl ln tail)
  end.
Definition listTypeNext (h : heap) (subject : listobj) (li : listTypeIterator) : option (listTypeIterator * option listTypeEntry) :=
  match subject, li with
  | ListZl zl, LiZl (Some zi) tail =>
      next ← (if tail then ziplistNext zl zi else ziplistPrev be zl zi); Some (LiZl next tail, Some (EZl zi))
  | ListZl _, LiZl None _ => Some (li, None)
  | ListLl _, LiLl (Some ln) tail => n ← h !! ln; Some (LiLl (if tail then next n else prev n) tail, Some (ELl ln))
  | ListLl _, LiLl None _ => Some (li, None)
  | _, _ => None (* assert *)
  end.
Definition listTypeGet (h : heap) (subject : listobj) (entry : listTypeEntry) : option (option enc_obj) :=
  match subject, entry with
  | ListZl zl, EZl zi => v ← ziplistGet be zl (Some zi); Some (option_map zval_object v)
  | ListLl _, ELl ln => n ← h !! ln; Some (Some (value n))
  | _, _ => None
  end.
Definition listTypeInsert (h : heap) (subject : listobj) (entry : listTypeEntry) (value : enc_obj) (where_tail : bool) : option (heap * listobj) :=
  match subject, entry with
  | ListZl zl, EZl zi =>
      value ← decoded value;
      zl ← (if where_tail then
              next ← ziplistNext zl zi;
              match next with None => ziplistPush be junk zl value false | Some next => ziplistInsert be junk zl next value end
            else ziplistInsert be junk zl zi value);
      Some (h, ListZl zl)
  | ListLl l, ELl ln => '(h, l) ← listInsertNode h l ln value where_tail; Some (h, ListLl l)
  | _, _ => None
  end.
Definition listTypeEqual (h : heap) (subject : listobj) (entry : listTypeEntry) (o : enc_obj) : option bool :=
  match subject, entry with
  | ListZl zl, EZl zi => match o with ObjStr s => ziplistCompare be zl zi s | ObjInt _ => None (* assert *) end
  | ListLl _, ELl ln => n ← h !! ln; equalStringObjects memcmp buf o (value n)
  | _, _ => None
  end.
Definition listTypeDelete (h : heap) (subject : listobj) (li : listTypeIterator) (entry : listTypeEntry) : option (heap * listobj * listTypeIterator) :=
  match subject, li, entry with
  | ListZl zl, LiZl _ tail, EZl zi =>
      '(zl, p) ← ziplistDelete be junk zl zi;
      zi ← (if tail then Some (Some p) else ziplistPrev be zl p);
      Some (h, ListZl zl, LiZl zi tail)
  | ListLl l, LiLl _ tail, ELl ln =>
      n ← h !! ln;
      '(h, l, _) ← listDelNode h l ln;
      Some (h, ListLl l, LiLl (if tail then next n else prev n) tail)
  | _, _, _ => None
  end.

(** ** Conversion *)

(** [fuel]: one for each element and one for the end *)
Fixpoint list_convert_loop (fuel : nat) (h : heap) (subject : listobj) (li : listTypeIterator) (l : alist enc_obj) : option (heap * alist enc_obj) :=
  match fuel with
  | O => None
  | S fuel =>
      '(li, entry) ← listTypeNext h subject li;
      match entry with
      | None => Some (h, l)
      | Some entry =>
          v ← listTypeGet h subject entry;
          v ← v;
          '(h, l) ← listAddNodeTail h l v;
          list_convert_loop fuel h subject li l
      end
  end.
(** To the linked list, whose free method is [decrRefCountVoid] *)
Definition listTypeConvert (h : heap) (subject : listobj) : option (heap * listobj) :=
  match subject with
  | ListZl zl =>
      li ← listTypeInitIterator h subject 0 true;
      let l := mkList None None None true None 0 in
      '(h, l) ← list_convert_loop (S (length zl)) h subject li l;
      Some (h, ListLl l)
  | ListLl _ => None
  end.
Definition listTypeTryConversion (h : heap) (subject : listobj) (value : enc_obj) : option (heap * listobj) :=
  match subject, value with
  | ListZl _, ObjStr s => if list_max_ziplist_value <? zlen s then listTypeConvert h subject else Some (h, subject)
  | _, _ => Some (h, subject)
  end.

(** ** Both ends *)

Definition listTypePush (h : heap) (subject : listobj) (value : enc_obj) (where_head : bool) : option (heap * listobj) :=
  '(h, subject) ← listTypeTryConversion h subject value;
  '(h, subject) ←
    match subject with
    | ListZl zl =>
        '(zl, n) ← ziplistLen be zl;
        if list_max_ziplist_entries <=? n then listTypeConvert h (ListZl zl) else Some (h, ListZl zl)
    | ListLl _ => Some (h, subject)
    end;
  match subject with
  | ListZl zl => value ← decoded value; zl ← ziplistPush be junk zl value where_head; Some (h, ListZl zl)
  | ListLl l => '(h, l) ← (if where_head then listAddNodeHead h l value else listAddNodeTail h l value); Some (h, ListLl l)
  end.
Definition listTypePop (h : heap) (subject : listobj) (where_head : bool) : option (heap * listobj * option enc_obj) :=
  match subject with
  | ListZl zl =>
      p ← ziplistIndex be zl (if where_head then 0 else -1);
      v ← ziplistGet be zl p;
      match v, p with
      | Some v, Some p => '(zl, _) ← ziplistDelete be junk zl p; Some (h, ListZl zl, Some (zval_object v))
      | _, _ => Some (h, subject, None)
      end
  | ListLl l =>
      match (if where_head then head l else tail l) with
      | None => Some (h, subject, None)
      | Some ln => n ← h !! ln; '(h, l, _) ← listDelNode h l ln; Some (h, ListLl l, Some (value n))
      end
  end.

End listtype.
