(* ===== verification/Skiplist.v ===== *)
(** * Skiplist: the ordered side of sorted sets (redis-3.0.0/src/t_zset.c)

    The nodes live in a heap shared with the rest of the program; a node has
    an array of levels, each with a forward pointer and a span, the number of
    elements the pointer skips.  [None] stands for the dereference of an
    invalid pointer, an index outside of an array of levels or a failed
    assertion.

    Scores are of an abstract type with the comparisons of C: the laws of
    [ScoreLaws] are those of doubles that are not NaN, which the commands
    exclude; [double_laws] proves them for IEEE 754 numbers. *)

From S2P Require Import Prelude Objects.
From Stdlib Require Import SpecFloat.

Abbreviation loc := positive.
Abbreviation ptr := (option loc).

(** ** Scores *)

Class ScoreOrder (T : Type) := {
  score_ltb : T → T → bool;     (* a < b *)
  score_eqb : T → T → bool;     (* a == b *)
  score_zero : T
}.
Definition score_leb `{ScoreOrder T} (a b : T) : bool := score_ltb a b || score_eqb a b.

Class ScoreLaws (T : Type) `{ScoreOrder T} := {
  score_lt_irrefl : ∀ a, score_ltb a a = false;
  score_lt_total : ∀ a b c, score_ltb a b = true → score_ltb a c = true ∨ score_ltb c b = true;
  score_eq_neither : ∀ a b, score_eqb a b = negb (score_ltb a b) && negb (score_ltb b a);
  score_lt_asym : ∀ a b, score_ltb a b = true → score_ltb b a = false
}.

(** ** Data *)

Definition ZSKIPLIST_MAXLEVEL : nat := 32.

Record zskiplistLevel := mkLvl { forward : ptr; span : Z (* unsigned int *) }.
Record zskiplistNode (T : Type) := mkZn {
  obj : option enc_obj;               (* NULL in the header *)
  score : T;
  backward : ptr;
  levels : list zskiplistLevel
}.
Arguments mkZn {T} _ _ _ _.
Arguments obj {T} _.
Arguments score {T} _.
Arguments backward {T} _.
Arguments levels {T} _.
Record zskiplist := mkZsl { header : loc; tail : ptr; zlength : Z (* unsigned long *); level : nat }.

Record zrangespec (T : Type) := mkRange { rmin : T; rmax : T; minex : bool; maxex : bool }.
Arguments mkRange {T} _ _ _ _.
Arguments rmin {T} _.
Arguments rmax {T} _.
Arguments minex {T} _.
Arguments maxex {T} _.

(** A bound of a range of strings: the shared objects for "-" and "+", which are
    recognized by their addresses, or a string. *)
Inductive lexbound := LexMin | LexMax | LexObj (o : enc_obj).
Record zlexrangespec := mkLex { lmin : lexbound; lmax : lexbound; lminex : bool; lmaxex : bool }.
(** The contents of the bound's object, [shared.minstring] and
    [shared.maxstring] included. *)
Definition lex_object (b : lexbound) : enc_obj :=
  match b with
  | LexMin => ObjStr (str "minstring")
  | LexMax => ObjStr (str "maxstring")
  | LexObj o => o
  end.

Section skiplist.
Context {T : Type} `{ScoreOrder T}.
Context (memcmp : list Z → list Z → Z) (buf : list Z).
Local Notation node := (zskiplistNode T).
Local Notation heap := (gmap loc (zskiplistNode T)).
Local Notation mkZn := (@mkZn T).

(** *** Access to the heap *)

Definition alloc (h : heap) : loc := fresh (dom h : gset loc).

Definition get_level (h : heap) (x : loc) (i : nat) : option zskiplistLevel :=
  n ← h !! x; levels n !! i.
Definition put_level (h : heap) (x : loc) (i : nat) (lv : zskiplistLevel) : option heap :=
  n ← h !! x;
  if decide (i < length (levels n))%nat
  then Some (<[x := mkZn (obj n) (score n) (backward n) (<[i := lv]> (levels n))]> h) else None.

(** [x->level[i].forward = p], [x->level[i].span = s], [x->backward = p] *)
Definition set_forward (h : heap) (x : loc) (i : nat) (p : ptr) : option heap :=
  lv ← get_level h x i; put_level h x i (mkLvl p (span lv)).
Definition set_span (h : heap) (x : loc) (i : nat) (s : Z) : option heap :=
  lv ← get_level h x i; put_level h x i (mkLvl (forward lv) (u32 s)).
Definition set_backward (h : heap) (x : loc) (p : ptr) : option heap :=
  n ← h !! x; Some (<[x := mkZn (obj n) (score n) p (levels n)]> h).

(** *** Creation *)

(** The fields that [zslCreateNode] leaves indeterminate are assigned by its
    callers before any read. *)
Definition zslCreateNode (lev : nat) (sc : T) (o : option enc_obj) : node :=
  mkZn o sc None (replicate lev (mkLvl None 0)).

Definition zslCreate (h : heap) : heap * zskiplist :=
  let hd := alloc h in
  (<[hd := zslCreateNode ZSKIPLIST_MAXLEVEL score_zero None]> h, mkZsl hd None 0 1).

(** The heap and the object whose reference is dropped. *)
Definition zslFreeNode (h : heap) (x : loc) : option (heap * option enc_obj) :=
  n ← h !! x; Some (delete x h, obj n).

(** [while(node)]; the list has [fuel] nodes at most. *)
Fixpoint free_loop (fuel : nat) (h : heap) (x : ptr) : option heap :=
  match x with
  | None => Some h
  | Some x =>
      match fuel with
      | O => None
      | S fuel =>
          lv ← get_level h x 0; '(h, _) ← zslFreeNode h x; free_loop fuel h (forward lv)
      end
  end.
Definition zslFree (h : heap) (z : zskiplist) : option heap :=
  lv ← get_level h (header z) 0;
  free_loop (Z.to_nat (zlength z)) (delete (header z) h) (forward lv).

(** [rs] are the results of [random()]; [0.25 * 0xFFFF] is 16383.75. *)
Fixpoint random_loop (rs : list Z) (lev : nat) : option nat :=
  match rs with
  | [] => None
  | r :: rs => if Z.land r 0xFFFF <? 16384 then random_loop rs (S lev) else Some lev
  end.
Definition zslRandomLevel (rs : list Z) : option nat :=
  lev ← random_loop rs 1;
  Some (if decide (lev < ZSKIPLIST_MAXLEVEL)%nat then lev else ZSKIPLIST_MAXLEVEL).

(** *** The descent that all the operations share *)

(** [while (x->level[i].forward && test) { rank += x->level[i].span;
    x = x->level[i].forward; }].  [test] has the rank and the span, and the node
    in front; [w] is the width of the rank.  Operations that keep no rank
    ignore it. *)
Fixpoint walk (test : Z → Z → node → option bool) (w : Z) (fuel : nat) (h : heap) (i : nat) (x : loc) (rank : Z)
    : option (loc * Z) :=
  match fuel with
  | O => None
  | S fuel =>
      lv ← get_level h x i;
      match forward lv with
      | None => Some (x, rank)
      | Some f =>
          n ← h !! f;
          go ← test rank (span lv) n;
          if (go : bool) then walk test w fuel h i f (wrapu w (rank + span lv)) else Some (x, rank)
      end
  end.

(** [for (i = zsl->level-1; i >= 0; i--)]: [update] and [rank], by level. *)
Fixpoint descend (test : Z → Z → node → option bool) (w : Z) (fuel : nat) (h : heap) (i : nat) (x : loc) (rank : Z)
    : option (list (loc * Z)) :=
  match i with
  | O => Some []
  | S i =>
      '(x, rank) ← walk test w fuel h i x rank;
      us ← descend test w fuel h i x rank;
      Some (us ++ [(x, rank)])
  end.

Definition search (test : Z → Z → node → option bool) (w : Z) (h : heap) (z : zskiplist) : option (list (loc * Z)) :=
  descend test w (S (Z.to_nat (zlength z))) h (level z) (header z) 0.

(** [score < sc || (score == sc && compareStringObjects(obj,o) < 0)] *)
Definition before (sc : T) (o : enc_obj) (_ _ : Z) (n : node) : option bool :=
  if score_ltb (score n) sc then Some true else
  if score_eqb (score n) sc then
    no ← obj n; c ← compareStringObjects memcmp buf no o; Some (c <? 0)
  else Some false.
(** The same with [<= 0], in [zslGetRank]. *)
Definition not_after (sc : T) (o : enc_obj) (_ _ : Z) (n : node) : option bool :=
  if score_ltb (score n) sc then Some true else
  if score_eqb (score n) sc then
    no ← obj n; c ← compareStringObjects memcmp buf no o; Some (c <=? 0)
  else Some false.

(** *** Insertion *)

(** [for (i = zsl->level; i < level; i++)]: [n] more levels from [i] on. *)
Fixpoint raise_levels (n : nat) (h : heap) (z : zskiplist) (i : nat) (us : list (loc * Z))
    : option (heap * list (loc * Z)) :=
  match n with
  | O => Some (h, us)
  | S n =>
      h ← set_span h (header z) i (zlength z);
      raise_levels n h z (S i) (us ++ [(header z, 0)])
  end.

(** [for (i = 0; i < level; i++)] *)
Fixpoint link_levels (n : nat) (h : heap) (x : loc) (i : nat) (us : list (loc * Z)) (rank0 : Z) : option heap :=
  match n with
  | O => Some h
  | S n =>
      '(u, rank) ← us !! i;
      lv ← get_level h u i;
      h ← set_forward h x i (forward lv);
      h ← set_forward h u i (Some x);
      h ← set_span h x i (span lv - u32 (rank0 - rank));
      h ← set_span h u i (u32 (rank0 - rank) + 1);
      link_levels n h x (S i) us rank0
  end.

(** [for (i = level; i < zsl->level; i++) update[i]->level[i].span++;] *)
Fixpoint bump_spans (n : nat) (h : heap) (i : nat) (us : list (loc * Z)) : option heap :=
  match n with
  | O => Some h
  | S n =>
      '(u, _) ← us !! i;
      lv ← get_level h u i;
      h ← set_span h u i (span lv + 1);
      bump_spans n h (S i) us
  end.

(** The new node, the heap and the list. *)
Definition zslInsert (rs : list Z) (h : heap) (z : zskiplist) (sc : T) (o : enc_obj)
    : option (loc * heap * zskiplist) :=
  us ← search (before sc o) 32 h z;
  lev ← zslRandomLevel rs;
  '(h, us, zl) ← (if decide (level z < lev)%nat then
                    '(h, us) ← raise_levels (lev - level z) h z (level z) us; Some (h, us, lev)
                  else Some (h, us, level z));
  let x := alloc h in
  let h := <[x := zslCreateNode lev sc (Some o)]> h in
  '(u0, rank0) ← us !! 0%nat;
  h ← link_levels lev h x 0 us rank0;
  h ← bump_spans (zl - lev) h lev us;
  h ← set_backward h x (if decide (u0 = header z) then None else Some u0);
  lv ← get_level h x 0;
  match forward lv with
  | Some f => h ← set_backward h f (Some x); Some (x, h, mkZsl (header z) (tail z) (u64 (zlength z + 1)) zl)
  | None => Some (x, h, mkZsl (header z) (Some x) (u64 (zlength z + 1)) zl)
  end.

(** *** Deletion *)

(** [for (i = 0; i < zsl->level; i++)] *)
Fixpoint unlink_levels (n : nat) (h : heap) (x : loc) (i : nat) (update : list loc) : option heap :=
  match n with
  | O => Some h
  | S n =>
      u ← update !! i;
      lv ← get_level h u i;
      h ← (if decide (forward lv = Some x) then
             xl ← get_level h x i;
             h ← set_span h u i (span lv + u32 (span xl - 1));
             set_forward h u i (forward xl)
           else set_span h u i (span lv - 1));
      unlink_levels n h x (S i) update
  end.

(** [while(zsl->level > 1 && zsl->header->level[zsl->level-1].forward == NULL)] *)
Fixpoint lower (h : heap) (hd : loc) (lev : nat) : option nat :=
  match lev with
  | S (S _ as l) =>
      lv ← get_level h hd l;
      match forward lv with None => lower h hd l | Some _ => Some lev end
  | _ => Some lev
  end.

Definition zslDeleteNode (h : heap) (z : zskiplist) (x : loc) (update : list loc) : option (heap * zskiplist) :=
  h ← unlink_levels (level z) h x 0 update;
  n ← h !! x;
  lv ← get_level h x 0;
  '(h, tl) ← match forward lv with
             | Some f => h ← set_backward h f (backward n); Some (h, tail z)
             | None => Some (h, backward n)
             end;
  lev ← lower h (header z) (level z);
  Some (h, mkZsl (header z) tl (u64 (zlength z - 1)) lev).

(** The heap, the list, and was the element found? *)
Definition zslDelete (h : heap) (z : zskiplist) (sc : T) (o : enc_obj) : option (heap * zskiplist * bool) :=
  us ← search (before sc o) 64 h z;
  '(u0, _) ← us !! 0%nat;
  lv ← get_level h u0 0;
  match forward lv with
  | None => Some (h, z, false)
  | Some x =>
      n ← h !! x;
      eq ← (if score_eqb sc (score n) then no ← obj n; equalStringObjects memcmp buf no o else Some false);
      if (eq : bool) then
        '(h, z) ← zslDeleteNode h z x us.*1; '(h, _) ← zslFreeNode h x; Some (h, z, true)
      else Some (h, z, false)
  end.

(** *** Ranks *)

Fixpoint rank_loop (h : heap) (o : enc_obj) (test : Z → Z → node → option bool) (fuel i : nat) (x : loc) (rank : Z)
    : option Z :=
  match i with
  | O => Some 0
  | S i =>
      '(x, rank) ← walk test 64 fuel h i x rank;
      n ← h !! x;
      eq ← match obj n with Some no => equalStringObjects memcmp buf no o | None => Some false end;
      if (eq : bool) then Some rank else rank_loop h o test fuel i x rank
  end.
Definition zslGetRank (h : heap) (z : zskiplist) (sc : T) (o : enc_obj) : option Z :=
  rank_loop h o (not_after sc o) (S (Z.to_nat (zlength z))) (level z) (header z) 0.

Fixpoint by_rank_loop (h : heap) (rank : Z) (fuel i : nat) (x : loc) (traversed : Z) : option ptr :=
  match i with
  | O => Some None
  | S i =>
      '(x, traversed) ← walk (λ t s _, Some (u64 (t + s) <=? rank)) 64 fuel h i x traversed;
      if traversed =? rank then Some (Some x) else by_rank_loop h rank fuel i x traversed
  end.
Definition zslGetElementByRank (h : heap) (z : zskiplist) (rank : Z) : option ptr :=
  by_rank_loop h rank (S (Z.to_nat (zlength z))) (level z) (header z) 0.

(** *** Ranges of scores *)

Definition zslValueGteMin (value : T) (r : zrangespec T) : bool :=
  if minex r then score_ltb (rmin r) value else score_leb (rmin r) value.
Definition zslValueLteMax (value : T) (r : zrangespec T) : bool :=
  if maxex r then score_ltb value (rmax r) else score_leb value (rmax r).

Definition zslIsInRange (h : heap) (z : zskiplist) (r : zrangespec T) : option bool :=
  if score_ltb (rmax r) (rmin r) || (score_eqb (rmin r) (rmax r) && (minex r || maxex r)) then Some false else
  match tail z with
  | None => Some false
  | Some x =>
      n ← h !! x;
      if negb (zslValueGteMin (score n) r) then Some false else
      lv ← get_level h (header z) 0;
      match forward lv with
      | None => Some false
      | Some x => n ← h !! x; Some (zslValueLteMax (score n) r)
      end
  end.

Definition zslFirstInRange (h : heap) (z : zskiplist) (r : zrangespec T) : option ptr :=
  ok ← zslIsInRange h z r;
  if negb ok then Some None else
  us ← search (λ _ _ n, Some (negb (zslValueGteMin (score n) r))) 64 h z;
  '(x, _) ← us !! 0%nat;
  lv ← get_level h x 0;
  x ← forward lv;                      (* redisAssert(x != NULL) *)
  n ← h !! x;
  Some (if zslValueLteMax (score n) r then Some x else None).

Definition zslLastInRange (h : heap) (z : zskiplist) (r : zrangespec T) : option ptr :=
  ok ← zslIsInRange h z r;
  if negb ok then Some None else
  us ← search (λ _ _ n, Some (zslValueLteMax (score n) r)) 64 h z;
  '(x, _) ← us !! 0%nat;
  n ← h !! x;
  Some (if zslValueGteMin (score n) r then Some x else None).

(** *** Ranges of strings *)

(** [None]: [REDIS_ERR].  The strings end with a null byte. *)
Definition zslParseLexRangeItem (c : list Z) : option (lexbound * bool) :=
  let c1 := default 0 (c !! 1%nat) in
  let c0 := default 0 (c !! 0%nat) in
  if c0 =? 43 (* + *) then if c1 =? 0 then Some (LexMax, false) else None else
  if c0 =? 45 (* - *) then if c1 =? 0 then Some (LexMin, false) else None else
  if c0 =? 40 (* ( *) then Some (LexObj (ObjStr (drop 1 c)), true) else
  if c0 =? 91 (* [ *) then Some (LexObj (ObjStr (drop 1 c)), false) else None.
Definition zslParseLexRange (min max : enc_obj) : option zlexrangespec :=
  match min, max with
  | ObjStr min, ObjStr max =>
      '(mn, mnex) ← zslParseLexRangeItem min; '(mx, mxex) ← zslParseLexRangeItem max;
      Some (mkLex mn mx mnex mxex)
  | _, _ => None
  end.

Definition compareStringObjectsForLexRange (a b : lexbound) : option Z :=
  match a, b with
  | LexMin, LexMin | LexMax, LexMax => Some 0
  | LexMin, _ | _, LexMax => Some (-1)
  | LexMax, _ | _, LexMin => Some 1
  | LexObj a, LexObj b => compareStringObjects memcmp buf a b
  end.
Definition zslLexValueGteMin (o : enc_obj) (r : zlexrangespec) : option bool :=
  c ← compareStringObjectsForLexRange (LexObj o) (lmin r); Some (if lminex r then 0 <? c else 0 <=? c).
Definition zslLexValueLteMax (o : enc_obj) (r : zlexrangespec) : option bool :=
  c ← compareStringObjectsForLexRange (LexObj o) (lmax r); Some (if lmaxex r then c <? 0 else c <=? 0).

Definition zslIsInLexRange (h : heap) (z : zskiplist) (r : zlexrangespec) : option bool :=
  c ← compareStringObjectsForLexRange (lmin r) (lmax r);
  c' ← compareStringObjects memcmp buf (lex_object (lmin r)) (lex_object (lmax r));
  if (1 <? c) || ((c' =? 0) && (lminex r || lmaxex r)) then Some false else
  match tail z with
  | None => Some false
  | Some x =>
      n ← h !! x; o ← obj n; ge ← zslLexValueGteMin o r;
      if negb ge then Some false else
      lv ← get_level h (header z) 0;
      match forward lv with
      | None => Some false
      | Some x => n ← h !! x; o ← obj n; zslLexValueLteMax o r
      end
  end.

Definition zslFirstInLexRange (h : heap) (z : zskiplist) (r : zlexrangespec) : option ptr :=
  ok ← zslIsInLexRange h z r;
  if negb ok then Some None else
  us ← search (λ _ _ n, o ← obj n; negb <$> zslLexValueGteMin o r) 64 h z;
  '(x, _) ← us !! 0%nat;
  lv ← get_level h x 0;
  x ← forward lv;                      (* redisAssert(x != NULL) *)
  n ← h !! x; o ← obj n; le ← zslLexValueLteMax o r;
  Some (if (le : bool) then Some x else None).

Definition zslLastInLexRange (h : heap) (z : zskiplist) (r : zlexrangespec) : option ptr :=
  ok ← zslIsInLexRange h z r;
  if negb ok then Some None else
  us ← search (λ _ _ n, o ← obj n; zslLexValueLteMax o r) 64 h z;
  '(x, _) ← us !! 0%nat;
  n ← h !! x; o ← obj n; ge ← zslLexValueGteMin o r;
  Some (if (ge : bool) then Some x else None).

(** *** Deletion of ranges *)

(** [dictDelete] on the dictionary of the sorted set. *)
Context {D : Type} (dict_delete : D → enc_obj → option D).

(** The loop [while (x && ...)] of the three functions: [in_range] has the rank
    ([traversed]) and the node. *)
Fixpoint delete_loop (in_range : Z → node → option bool) (fuel : nat) (h : heap) (z : zskiplist) (d : D)
    (update : list loc) (x : ptr) (traversed removed : Z) : option (heap * zskiplist * D * Z) :=
  match x with
  | None => Some (h, z, d, removed)
  | Some x =>
      match fuel with
      | O => None
      | S fuel =>
          n ← h !! x;
          go ← in_range traversed n;
          if (go : bool) then
            lv ← get_level h x 0;
            '(h, z) ← zslDeleteNode h z x update;
            o ← obj n;
            d ← dict_delete d o;
            '(h, _) ← zslFreeNode h x;
            delete_loop in_range fuel h z d update (forward lv) (u64 (traversed + 1)) (u64 (removed + 1))
          else Some (h, z, d, removed)
      end
  end.

(** From the end of the descent on. *)
Definition delete_after (in_range : Z → node → option bool) (h : heap) (z : zskiplist) (d : D)
    (us : list (loc * Z)) : option (heap * zskiplist * D * Z) :=
  '(x, traversed) ← us !! 0%nat;
  lv ← get_level h x 0;
  delete_loop in_range (Z.to_nat (zlength z)) h z d us.*1 (forward lv) (u64 (traversed + 1)) 0.

Definition zslDeleteRangeByScore (h : heap) (z : zskiplist) (r : zrangespec T) (d : D)
    : option (heap * zskiplist * D * Z) :=
  us ← search (λ _ _ n, Some (if minex r then score_leb (score n) (rmin r)
                              else score_ltb (score n) (rmin r))) 64 h z;
  delete_after (λ _ n, Some (if maxex r then score_ltb (score n) (rmax r)
                             else score_leb (score n) (rmax r))) h z d us.

Definition zslDeleteRangeByLex (h : heap) (z : zskiplist) (r : zlexrangespec) (d : D)
    : option (heap * zskiplist * D * Z) :=
  us ← search (λ _ _ n, o ← obj n; negb <$> zslLexValueGteMin o r) 64 h z;
  delete_after (λ _ n, o ← obj n; zslLexValueLteMax o r) h z d us.

(** [start] and [end_] are [unsigned int], from 1. *)
Definition zslDeleteRangeByRank (h : heap) (z : zskiplist) (start end_ : Z) (d : D)
    : option (heap * zskiplist * D * Z) :=
  us ← search (λ t s _, Some (u64 (t + s) <? start)) 64 h z;
  delete_after (λ t _, Some (t <=? end_)) h z d us.

End skiplist.

(** ** The dictionary of a sorted set

    What the deletion of ranges relies on: [dict_delete] removes one member. *)
Class MemberDict (D : Type) (dict_delete : D → enc_obj → option D) := {
  dict_ok : D → Prop;
  dict_member : D → list Z → Prop;
  dict_delete_spec : ∀ d o, dict_ok d → obj_ok o →
    ∃ d', dict_delete d o = Some d' ∧ dict_ok d' ∧ ∀ s, dict_member d' s ↔ dict_member d s ∧ s ≠ obj_string o
}.
