(* ===== verification/SkiplistFacts.v ===== *)
(** * SkiplistFacts: the skip list implements a sorted sequence

    [link i xs] is what a node followed by the elements [xs] must hold at level
    [i]; [zowns h z xs] says that the heap [h] holds the list [z] with the
    elements [xs].  Every operation is shown to preserve it: the levels are
    handled one at a time, through two views of the heap ([get_level] and
    [meta_at]). *)

From S2P Require Import Prelude NumConv Objects Skiplist.

(** ** The representation *)

Record zel (T : Type) := mkZel { zl : loc; zs : T; zo : enc_obj; zh : nat }.
Arguments mkZel {T} _ _ _ _.
Arguments zl {T} _.
Arguments zs {T} _.
Arguments zo {T} _.
Arguments zh {T} _.

Section rep.
Context {T : Type} `{ScoreOrder T}.
Local Notation heap := (gmap loc (zskiplistNode T)).
Local Notation zel := (zel T).
Implicit Types (h : heap) (xs L R M A B : list zel) (i j : nat).

(** What a node in front of [xs] holds at level [i]: the next node with that
    level and the number of steps to it, or to the end. *)
Fixpoint link i xs : zskiplistLevel :=
  match xs with
  | [] => mkLvl None 0
  | y :: xs => if decide (i < zh y)%nat then mkLvl (Some (zl y)) 1
               else mkLvl (forward (link i xs)) (span (link i xs) + 1)
  end.

(** The node at the end of [A], the header when there is none, and its height. *)
Definition hdl (hd : loc) A : loc := default hd (zl <$> last A).
Definition hht A : nat := default ZSKIPLIST_MAXLEVEL (zh <$> last A).

Definition lv_ok h hd xs i : Prop :=
  ∀ A B, xs = A ++ B → (i < hht A)%nat → get_level h (hdl hd A) i = Some (link i B).

(** The part of a node that is not in its levels. *)
Definition meta (n : zskiplistNode T) := (obj n, score n, backward n, length (levels n)).
Definition meta_at h (x : loc) := meta <$> h !! x.
Definition meta_of (y : zel) (bk : ptr) := (Some (zo y), zs y, bk, zh y).

Definition nodes_ok h xs : Prop :=
  ∀ A y B, xs = A ++ y :: B → meta_at h (zl y) = Some (meta_of y (zl <$> last A)).

Definition low i M : Prop := Forall (λ y, zh y ≤ i)%nat M.
(** [A] ends with the last element of [A ++ M] that has level [i]. *)
Definition is_pred i A M : Prop := (i < hht A)%nat ∧ low i M.

Record zowns h (z : zskiplist) xs : Prop := {
  zo_levels : ∀ i, (i < level z)%nat → lv_ok h (header z) xs i;
  zo_high : ∀ i, (level z ≤ i < ZSKIPLIST_MAXLEVEL)%nat → ∃ s, get_level h (header z) i = Some (mkLvl None s);
  zo_nodes : nodes_ok h xs;
  zo_header : ∃ n, h !! header z = Some n ∧ obj n = None;
  zo_nodup : NoDup (header z :: (zl <$> xs));
  zo_heights : Forall (λ y, 1 ≤ zh y ≤ level z)%nat xs;
  zo_level : (1 ≤ level z ≤ ZSKIPLIST_MAXLEVEL)%nat;
  zo_tail : tail z = zl <$> last xs;
  zo_len : zlength z = zlen xs;
  zo_bound : zlen xs < 2 ^ 32
}.

(** ** Two views of the heap *)

Lemma meta_node h x : is_Some (h !! x) ↔ is_Some (meta_at h x).
Proof. unfold meta_at. by rewrite fmap_is_Some. Qed.

(** [h'] is [h] with the level [i] of [x] replaced by [lv]. *)
Definition updl h (x : loc) i lv h' : Prop :=
  (∀ y j, get_level h' y j = if decide (y = x ∧ j = i) then Some lv else get_level h y j) ∧
  (∀ y, meta_at h' y = meta_at h y) ∧ (∀ y, y ≠ x → h' !! y = h !! y).

Lemma put_level_spec h x i lv0 lv :
  get_level h x i = Some lv0 → ∃ h', put_level h x i lv = Some h' ∧ updl h x i lv h'.
Proof.
  unfold get_level, put_level. destruct (h !! x) as [n|] eqn:Hn; [|done]. cbn. intros Hi.
  pose proof (lookup_lt_Some _ _ _ Hi) as Hlt. destruct (decide _); [|lia]. eexists. split; [done|].
  split_and!.
  - intros y j. unfold get_level. destruct (decide (y = x)) as [-> |Hy].
    + rewrite lookup_insert_eq. cbn. rewrite Hn. cbn. destruct (decide (j = i)) as [-> |Hj].
      * rewrite decide_True by done. by apply list_lookup_insert_eq.
      * rewrite decide_False by by intros [? ?]. by apply list_lookup_insert_ne.
    + rewrite lookup_insert_ne by done. by rewrite decide_False by by intros [? ?].
  - intros y. unfold meta_at. destruct (decide (y = x)) as [-> |Hy].
    + rewrite lookup_insert_eq, Hn. cbn. unfold meta. cbn. by rewrite length_insert.
    + by rewrite lookup_insert_ne.
  - intros y Hy. by rewrite lookup_insert_ne.
Qed.

Lemma set_forward_spec h x i lv p :
  get_level h x i = Some lv → ∃ h', set_forward h x i p = Some h' ∧ updl h x i (mkLvl p (span lv)) h'.
Proof. intros Hl. unfold set_forward. rewrite Hl. by eapply put_level_spec. Qed.
Lemma set_span_spec h x i lv s :
  get_level h x i = Some lv → ∃ h', set_span h x i s = Some h' ∧ updl h x i (mkLvl (forward lv) (u32 s)) h'.
Proof. intros Hl. unfold set_span. rewrite Hl. by eapply put_level_spec. Qed.

(** [h'] is [h] with the backward pointer of [x] replaced. *)
Definition updb h (x : loc) (p : ptr) h' : Prop :=
  (∀ y j, get_level h' y j = get_level h y j) ∧
  (∀ y, meta_at h' y = if decide (y = x) then (λ '(o, s, _, n), (o, s, p, n)) <$> meta_at h y else meta_at h y) ∧
  (∀ y, y ≠ x → h' !! y = h !! y).

Lemma set_backward_spec h x p :
  is_Some (meta_at h x) → ∃ h', set_backward h x p = Some h' ∧ updb h x p h'.
Proof.
  rewrite <- meta_node. intros [n Hn]. unfold set_backward. rewrite Hn. cbn. eexists. split; [done|].
  split_and!.
  - intros y j. unfold get_level. destruct (decide (y = x)) as [-> |Hy]; [by rewrite lookup_insert_eq, Hn|].
    by rewrite lookup_insert_ne.
  - intros y. unfold meta_at. destruct (decide (y = x)) as [-> |Hy]; [by rewrite lookup_insert_eq, Hn|].
    by rewrite lookup_insert_ne.
  - intros y Hy. by rewrite lookup_insert_ne.
Qed.

(** ** Links *)

Lemma link_low i M R :
  low i M → link i (M ++ R) = mkLvl (forward (link i R)) (zlen M + span (link i R)).
Proof.
  induction 1 as [|y M Hy HM IH]; cbn [link app].
  - by destruct (link i R).
  - rewrite decide_False by lia. rewrite IH. cbn [forward span]. f_equal. len.
Qed.

Lemma link_high i M1 y M2 :
  low i M1 → (i < zh y)%nat → link i (M1 ++ y :: M2) = mkLvl (Some (zl y)) (zlen M1 + 1).
Proof. intros Hl Hy. rewrite link_low by done. cbn [link]. by rewrite decide_True. Qed.

Lemma low_cases i M : low i M ∨ ∃ M1 y M2, M = M1 ++ y :: M2 ∧ low i M1 ∧ (i < zh y)%nat.
Proof.
  induction M as [|y M IH]; [left; apply Forall_nil_2|].
  destruct (decide (i < zh y)%nat) as [Hy|Hy].
  - right. exists [], y, M. split_and!; [done|apply Forall_nil_2|done].
  - destruct IH as [IH|(M1 & y' & M2 & -> & H1 & H2)].
    + left. apply Forall_cons_2; [lia|done].
    + right. exists (y :: M1), y', M2. split_and!; [done|apply Forall_cons_2; [lia|done]|done].
Qed.

Lemma span_range i xs : 0 ≤ span (link i xs) ≤ zlen xs.
Proof.
  induction xs as [|y xs IH]; [done|]. cbn [link]. unfold zlen in *. cbn [length].
  destruct (decide _); cbn [span]; lia.
Qed.

Lemma link_forward i xs f : forward (link i xs) = Some f → f ∈ zl <$> xs.
Proof.
  induction xs as [|y xs IH]; [done|]. cbn [link fmap list_fmap]. destruct (decide _); cbn [forward].
  - intros [= ->]. by left.
  - intros E. right. by apply IH.
Qed.

Lemma link_None i xs : low i xs → link i xs = mkLvl None (zlen xs).
Proof. intros Hl. rewrite <- (app_nil_r xs), link_low by done. cbn. f_equal. rewrite app_nil_r. lia. Qed.
Lemma forward_None i xs : forward (link i xs) = None → low i xs.
Proof.
  induction xs as [|y xs IH]; [intros; apply Forall_nil_2|]. cbn [link]. destruct (decide _); [done|].
  intros E. apply Forall_cons_2; [lia|by apply IH].
Qed.

Lemma hdl_snoc hd A y : hdl hd (A ++ [y]) = zl y.
Proof. unfold hdl. by rewrite last_snoc. Qed.
Lemma hht_snoc A y : hht (A ++ [y]) = zh y.
Proof. unfold hht. by rewrite last_snoc. Qed.
Lemma last_app_ne (A C : list zel) : C ≠ [] → last (A ++ C) = last C.
Proof. intros HC. rewrite last_app. by destruct C as [|c C] using rev_ind; [|rewrite last_snoc]. Qed.
Lemma hdl_app hd A C : C ≠ [] → hdl hd (A ++ C) = hdl hd C.
Proof. intros HC. unfold hdl. by rewrite last_app_ne. Qed.
Lemma hht_app A C : C ≠ [] → hht (A ++ C) = hht C.
Proof. intros HC. unfold hht. by rewrite last_app_ne. Qed.
Lemma hdl_in hd A : hdl hd A = hd ∧ A = [] ∨ hdl hd A ∈ zl <$> A.
Proof.
  destruct A as [|y A _] using rev_ind; [by left|]. right. rewrite hdl_snoc, fmap_app, elem_of_app. right. by left.
Qed.

(** Different prefixes end with different nodes. *)
Lemma hdl_inj hd A C : NoDup (hd :: (zl <$> A ++ C)) → C ≠ [] → hdl hd (A ++ C) ≠ hdl hd A.
Proof.
  intros Hnd HC. rewrite hdl_app by done. destruct C as [|y C _] using rev_ind; [done|]. rewrite hdl_snoc.
  rewrite app_assoc, fmap_app in Hnd. cbn in Hnd. change (hd :: ?a ++ ?b) with ((hd :: a) ++ b) in Hnd.
  apply NoDup_app in Hnd as (_ & Hd & _). intros E. apply (Hd (zl y)); [|by left].
  rewrite E, fmap_app. destruct (hdl_in hd A) as [[-> _]|Hi]; [by left|]. right. apply elem_of_app. by left.
Qed.

Lemma is_pred_unique i A M A' M' :
  is_pred i A M → is_pred i A' M' → A ++ M = A' ++ M' → A = A' ∧ M = M'.
Proof.
  assert (∀ A M A' M', is_pred i A M → is_pred i A' M' → A ++ M = A' ++ M' → (length A ≤ length A')%nat →
    A = A' ∧ M = M') as Hw.
  { clear. intros A M A' M' [Ha Hm] [Ha' Hm'] E Hlen.
    destruct (app_eq_app _ _ _ _ E) as (C & [(-> & ->)|(-> & ->)]).
    - rewrite length_app in Hlen. destruct C; [by rewrite app_nil_r|cbn in Hlen; lia].
    - destruct C as [|y C _] using rev_ind; [by rewrite app_nil_r|]. exfalso.
      rewrite app_assoc, hht_snoc in Ha'. apply Forall_app in Hm as [Hm _].
      apply Forall_app in Hm as [_ Hm]. apply Forall_cons in Hm as [Hm _]. lia. }
  intros H1 H2 E. destruct (Nat.le_ge_cases (length A) (length A')); [by apply Hw|].
  destruct (Hw A' M' A M) as [-> ->]; done.
Qed.

(** The heights of the nodes of a prefix and their levels. *)
Lemma is_pred_0 A M : Forall (λ y, 1 ≤ zh y)%nat M → is_pred 0 A M → M = [].
Proof.
  intros H1 [_ H2]. destruct M as [|y M]; [done|]. apply Forall_cons in H1 as [H1 _].
  apply Forall_cons in H2 as [H2 _]. lia.
Qed.

(** ** Replacing a part of the list *)

(** The end of one of two ways to cut a list lies in the other's first part. *)
Lemma app_cases A B (A' B' : list zel) :
  A' ++ B' = A ++ B → (∃ D, D ≠ [] ∧ A = A' ++ D ∧ B' = D ++ B) ∨ (∃ D, A' = A ++ D ∧ B = D ++ B').
Proof.
  intros E. destruct (app_eq_app _ _ _ _ E) as (C & [(-> & ->)|(-> & ->)]); [right; by exists C|].
  destruct C as [|c C]; [|left; by exists (c :: C)].
  right. exists []. by rewrite !app_nil_r.
Qed.

Lemma link_through i D Z Z' : D ≠ [] → (i < hht D)%nat → link i (D ++ Z) = link i (D ++ Z').
Proof.
  intros HD Hi. destruct D as [|y D _] using rev_ind; [done|]. rewrite hht_snoc in Hi.
  destruct (low_cases i (D ++ [y])) as [Hl|(M1 & y' & M2 & -> & H1 & H2)].
  - exfalso. apply Forall_app in Hl as [_ Hl]. apply Forall_cons in Hl as [Hl _]. lia.
  - rewrite <- !app_assoc. cbn [app]. by rewrite !link_high by done.
Qed.

Lemma hdl_notin hd A B : NoDup (hd :: (zl <$> A ++ B)) → hdl hd A ∉ zl <$> B.
Proof.
  rewrite fmap_app. change (hd :: ?a ++ ?b) with ((hd :: a) ++ b). intros (_ & Hd & _)%NoDup_app Hin.
  apply (Hd (hdl hd A)); [|done]. destruct (hdl_in hd A) as [[-> _]|?]; [by left|by right].
Qed.

Lemma low_no_prefix i D M : D ≠ [] → low i (D ++ M) → (hht D ≤ i)%nat.
Proof.
  intros HD Hl. destruct D as [|y D _] using rev_ind; [done|]. rewrite hht_snoc.
  apply Forall_app in Hl as [Hl _]. apply Forall_app in Hl as [_ Hl]. by apply Forall_cons in Hl as [? _].
Qed.

(** One level: the list [A ++ M ++ X ++ R] becomes [A ++ M ++ Y ++ R], and only
    the last node of [A ++ M] with this level and the nodes of [Y] have
    changed. *)
Lemma lv_change h h' hd i A M X Y R :
  lv_ok h hd (A ++ M ++ X ++ R) i → is_pred i A M →
  NoDup (hd :: (zl <$> A ++ M ++ Y ++ R)) →
  (∀ y, y ≠ hdl hd A → y ∉ zl <$> Y → get_level h' y i = get_level h y i) →
  get_level h' (hdl hd A) i = Some (link i (M ++ Y ++ R)) →
  (∀ C y C', Y = C ++ y :: C' → (i < zh y)%nat → get_level h' (zl y) i = Some (link i (C' ++ R))) →
  lv_ok h' hd (A ++ M ++ Y ++ R) i.
Proof.
  intros Hold [HiA Hlow] Hnd Hsame HA HY A' B' E Hi.
  assert (NoDup (hd :: (zl <$> A' ++ B'))) as Hnd' by by rewrite <- E.
  symmetry in E. destruct (app_cases _ _ _ _ E) as [(D & HD & -> & ->)|(D & -> & E2)].
  { rewrite hht_app in HiA by done. rewrite Hsame.
    - rewrite (Hold A' (D ++ M ++ X ++ R)) by (by rewrite <- app_assoc || done). f_equal. by apply link_through.
    - intros Eh. pose proof (hdl_notin hd A' (D ++ M ++ Y ++ R) Hnd') as Hn. apply Hn.
      rewrite Eh, hdl_app, fmap_app, elem_of_app by done. left. by destruct (hdl_in hd D) as [[_ ?]|?].
    - intros Hin. apply (hdl_notin hd A' _ Hnd'). rewrite !fmap_app, !elem_of_app. auto. }
  destruct (decide (D = [])) as [-> |HD]; [rewrite app_nil_r; cbn [app] in E2; by rewrite <- E2|].
  symmetry in E2. destruct (app_cases _ _ _ _ E2) as [(C & HC & -> & ->)|(C & -> & E3)].
  { exfalso. rewrite hht_app in Hi by done. pose proof (low_no_prefix i D C HD Hlow). lia. }
  destruct (decide (C = [])) as [-> |HC].
  { exfalso. rewrite !app_nil_r, hht_app in Hi by by intros ->. pose proof (low_no_prefix i M [] ) as Hl.
    rewrite !app_nil_r in Hl. apply Hl in Hlow; [lia|]. intros ->. done. }
  assert (hdl hd (A ++ M ++ C) = hdl hd C ∧ hht (A ++ M ++ C) = hht C) as [Eh Ehh].
  { rewrite !hdl_app, !hht_app; (done || by destruct M). }
  rewrite Eh. rewrite Ehh in Hi. symmetry in E3.
  destruct (app_cases _ _ _ _ E3) as [(C' & HC' & -> & ->)|(C' & -> & ->)].
  { destruct C as [|y C _] using rev_ind; [done|]. rewrite hdl_snoc. rewrite hht_snoc in Hi.
    apply (HY C y C'); [by rewrite <- app_assoc|done]. }
  destruct (decide (C' = [])) as [-> |HC'].
  { rewrite app_nil_r in *. destruct Y as [|y Y _] using rev_ind; [done|]. rewrite hdl_snoc.
    rewrite hht_snoc in Hi. by apply (HY Y y []). }
  rewrite hdl_app by done. rewrite hht_app in Hi by done. rewrite Hsame.
  - rewrite <- (hdl_app hd (A ++ M ++ X) C') by done. apply Hold; [by rewrite <- !app_assoc|]. by rewrite hht_app.
  - intros E'. apply (hdl_notin hd A (M ++ Y ++ C' ++ B') Hnd). rewrite <- E', !fmap_app, !elem_of_app.
    do 2 right. left. by destruct (hdl_in hd C') as [[_ ?]|?].
  - intros Hin. apply NoDup_cons in Hnd as [_ Hnd]. rewrite !fmap_app in Hnd.
    apply NoDup_app in Hnd as (_ & _ & Hnd). apply NoDup_app in Hnd as (_ & _ & Hnd).
    apply NoDup_app in Hnd as (_ & Hd & _). apply (Hd (hdl hd C')); [done|].
    apply elem_of_app. left. by destruct (hdl_in hd C') as [[_ ?]|?].
Qed.

(** The fields outside of the levels: the first node of [R] points back to the
    end of [L ++ Y]. *)
Lemma nodes_change h h' hd L X Y R :
  nodes_ok h (L ++ X ++ R) → NoDup (hd :: (zl <$> L ++ Y ++ R)) →
  (∀ y, y ∈ L → meta_at h' (zl y) = meta_at h (zl y)) →
  (∀ C y C', Y = C ++ y :: C' → meta_at h' (zl y) = Some (meta_of y (zl <$> last (L ++ C)))) →
  (∀ y R', R = y :: R' → meta_at h' (zl y) = Some (meta_of y (zl <$> last (L ++ Y)))) →
  (∀ y r R', R = r :: R' → y ∈ R' → meta_at h' (zl y) = meta_at h (zl y)) →
  nodes_ok h' (L ++ Y ++ R).
Proof.
  intros Hold Hnd HL HY Hr HR A y B E.
  symmetry in E. change (y :: B) with ([y] ++ B) in E. rewrite app_assoc in E.
  destruct (app_cases _ _ _ _ E) as [(D & HD & EL & EB)|(D & EA & E2)].
  { rewrite HL by (rewrite EL, !elem_of_app; left; right; by left).
    apply (Hold A y (D ++ X ++ R)). rewrite EL. by rewrite <- !app_assoc. }
  destruct D as [|d D _] using rev_ind.
  { rewrite app_nil_r in EA. subst L. rewrite HL by (apply elem_of_app; right; by left).
    apply (Hold A y (X ++ R)). by rewrite <- app_assoc. }
  rewrite app_assoc in EA. apply app_inj_tail in EA as [-> <-]. symmetry in E2.
  destruct (app_cases _ _ _ _ E2) as [(C & HC & -> & ->)|(C & EC & ER)].
  { apply (HY D y C). by rewrite <- app_assoc. }
  destruct C as [|c C _] using rev_ind.
  { rewrite app_nil_r in EC. subst Y. by apply (HY D y []). }
  rewrite app_assoc in EC. apply app_inj_tail in EC as [-> <-].
  destruct C as [|r C]; cbn [app] in ER.
  { rewrite app_nil_r. by apply (Hr y B). }
  rewrite (HR y r (C ++ [y] ++ B)).
  - rewrite app_assoc, last_app_ne by done. rewrite <- (last_app_ne (L ++ X) (r :: C)) by done.
    apply (Hold _ y B). rewrite ER, <- !app_assoc. done.
  - by rewrite ER, <- app_assoc.
  - apply elem_of_app. right. by left.
Qed.

(** ** The descent *)

(** [test] tells the elements of [L] from the others in [xs = L ++ R]. *)
Definition test_ok (test : Z → Z → zskiplistNode T → option bool) xs L : Prop :=
  ∀ C y B r s n, xs = C ++ y :: B → obj n = Some (zo y) → score n = zs y → 0 ≤ r → 0 ≤ s → r + s = zlen C + 1 →
    test r s n = Some (bool_decide (zlen C < zlen L)).

Lemma node_at h xs A y B :
  nodes_ok h xs → xs = A ++ y :: B → ∃ n, h !! zl y = Some n ∧ obj n = Some (zo y) ∧ score n = zs y ∧
    backward n = zl <$> last A ∧ length (levels n) = zh y.
Proof.
  intros Hn E. pose proof (Hn A y B E) as HM. unfold meta_at in HM.
  destruct (h !! zl y) as [n|]; [|done]. exists n. by injection HM as -> -> -> ->.
Qed.

Lemma walk_spec test w h z L R i fuel A M :
  zowns h z (L ++ R) → test_ok test (L ++ R) L → 32 ≤ w → (i < level z)%nat →
  L = A ++ M → (i < hht A)%nat → (length M < fuel)%nat →
  ∃ A' M', L = A' ++ M' ∧ is_pred i A' M' ∧ (length A ≤ length A')%nat ∧
    walk test w fuel h i (hdl (header z) A) (zlen A) = Some (hdl (header z) A', zlen A').
Proof.
  intros Hz Ht Hw Hi. assert (2 ^ 32 ≤ 2 ^ w) as Hpow by (apply Z.pow_le_mono_r; lia).
  revert A M. induction fuel as [|fuel IH]; intros A M EL HiA Hf; [lia|]. cbn [walk].
  rewrite (zo_levels _ _ _ Hz i Hi A (M ++ R)) by (by rewrite EL, <- app_assoc || done).
  cbn [mbind option_bind]. destruct (low_cases i M) as [HM|(M1 & y & M2 & -> & H1 & Hy)].
  - exists A, M. split; [done|]. split; [done|]. split; [lia|]. rewrite link_low by done. cbn [forward span].
    destruct (low_cases i R) as [HR|(R1 & y & R2 & -> & H1 & Hy)]; [by rewrite link_None|].
    rewrite link_high by done. cbn [forward span].
    destruct (node_at h _ (A ++ M ++ R1) y R2 (zo_nodes _ _ _ Hz)) as (n & -> & Ho & Hs & _).
    { by rewrite EL, <- !app_assoc. }
    cbn [mbind option_bind].
    rewrite (Ht (A ++ M ++ R1) y R2 (zlen A) (zlen M + (zlen R1 + 1)) n); [|by rewrite EL, <- !app_assoc|done|done|len..].
    cbn [mbind option_bind]. rewrite bool_decide_false; [done|]. rewrite EL. len.
  - rewrite <- app_assoc. cbn [app]. rewrite link_high by done. cbn [forward span].
    destruct (node_at h _ (A ++ M1) y (M2 ++ R) (zo_nodes _ _ _ Hz)) as (n & -> & Ho & Hs & _).
    { by rewrite EL, <- !app_assoc. }
    cbn [mbind option_bind].
    rewrite (Ht (A ++ M1) y (M2 ++ R) (zlen A) (zlen M1 + 1) n); [|by rewrite EL, <- !app_assoc|done|done|len..].
    cbn [mbind option_bind]. rewrite bool_decide_true by (rewrite EL; len).
    assert (zlen (L ++ R) < 2 ^ 32) as Hb by apply (zo_bound _ _ _ Hz).
    rewrite wrapu_small by (unfold in_u; rewrite EL in Hb; revert Hb; len).
    rewrite <- (hdl_snoc (header z) (A ++ M1) y).
    replace (zlen A + (zlen M1 + 1)) with (zlen ((A ++ M1) ++ [y])) by len.
    destruct (IH ((A ++ M1) ++ [y]) M2) as (A' & M' & E' & Hp & Hl & Hw'); [by rewrite EL, <- !app_assoc|by rewrite hht_snoc| |].
    { rewrite length_app in Hf. cbn in Hf. lia. }
    exists A', M'. split; [done|]. split; [done|]. split; [|done]. rewrite !length_app in Hl. cbn in Hl. lia.
Qed.

(** [us] holds [update] and [rank] for the levels below [n]. *)
Definition us_ok hd L n (us : list (loc * Z)) : Prop :=
  length us = n ∧ ∀ i, (i < n)%nat → ∃ A M, L = A ++ M ∧ is_pred i A M ∧ us !! i = Some (hdl hd A, zlen A).

Lemma descend_spec test w h z L R n fuel A M :
  zowns h z (L ++ R) → test_ok test (L ++ R) L → 32 ≤ w → (n ≤ level z)%nat →
  L = A ++ M → (n ≤ hht A)%nat → (length L < fuel)%nat →
  ∃ us, descend test w fuel h n (hdl (header z) A) (zlen A) = Some us ∧ us_ok (header z) L n us.
Proof.
  intros Hz Ht Hw. revert A M. induction n as [|n IH]; intros A M Hn EL HA Hf.
  { exists []. split; [done|]. split; [done|lia]. }
  cbn [descend].
  destruct (walk_spec test w h z L R n fuel A M Hz Ht Hw ltac:(lia) EL ltac:(lia)) as (A' & M' & E' & Hp & Hl & ->).
  { rewrite EL, length_app in Hf. lia. }
  cbn [mbind option_bind]. destruct (IH A' M') as (us & -> & Hlen & Hus); [lia|done|destruct Hp; lia|done|].
  cbn [mbind option_bind]. eexists. split; [done|]. split; [rewrite length_app; cbn; lia|].
  intros i Hi. destruct (decide (i = n)) as [-> |Hne].
  - exists A', M'. split; [done|]. split; [done|]. rewrite lookup_app_r by lia. by rewrite Hlen, Nat.sub_diag.
  - destruct (Hus i ltac:(lia)) as (A'' & M'' & ? & ? & Hl2). exists A'', M''. split; [done|]. split; [done|].
    rewrite lookup_app_l by lia. done.
Qed.

Lemma search_spec test w h z L R :
  zowns h z (L ++ R) → test_ok test (L ++ R) L → 32 ≤ w →
  ∃ us, search test w h z = Some us ∧ us_ok (header z) L (level z) us ∧ us !! 0%nat = Some (hdl (header z) L, zlen L).
Proof.
  intros Hz Ht Hw. unfold search. pose proof (zo_level _ _ _ Hz) as Hlev.
  destruct (descend_spec test w h z L R (level z) (S (Z.to_nat (zlength z))) [] L Hz Ht Hw) as (us & E & Hus);
    [lia|done|unfold hht; cbn; lia| |].
  { rewrite (zo_len _ _ _ Hz). unfold zlen. rewrite length_app. lia. }
  exists us. split; [done|]. split; [done|]. destruct Hus as [_ Hus].
  destruct (Hus 0%nat ltac:(lia)) as (A & M & EL & Hp & ->).
  assert (M = []) as ->; [|by rewrite EL, app_nil_r].
  pose proof (zo_heights _ _ _ Hz) as Hh. rewrite EL in Hh. apply Forall_app in Hh as [Hh _].
  apply Forall_app in Hh as [_ Hh]. eapply is_pred_0; [|done]. eapply Forall_impl; [exact Hh|]. cbn. lia.
Qed.

(** A test on the elements themselves. *)
Lemma test_elem (p : zel → bool) test L R :
  Forall (λ y, p y = true) L → Forall (λ y, p y = false) R →
  (∀ y r s n, y ∈ L ++ R → obj n = Some (zo y) → score n = zs y → test r s n = Some (p y)) →
  test_ok test (L ++ R) L.
Proof.
  intros HL HR Ht C y B r s n E Ho Hs _ _ _. rewrite (Ht y r s n); [|by rewrite E; apply elem_of_app; right; left|done|done].
  f_equal. symmetry in E. destruct (app_cases _ _ _ _ E) as [(D & HD & -> & _)|(D & -> & ER)].
  - destruct D as [|d D]; [done|]. assert (p y = true) as ->; [|rewrite bool_decide_true; [done|len]].
    change (y :: B) with ([y] ++ B) in E. rewrite app_assoc in E.
    rewrite Forall_app in HL. destruct HL as [_ HL]. rewrite <- app_assoc in E. cbn in E.
    rewrite <- app_assoc in E. apply app_inv_head in E. cbn in E. injection E as -> _. by apply Forall_cons in HL as [? _].
  - assert (p y = false) as ->; [|rewrite bool_decide_false; [done|len]].
    rewrite ER in HR. apply Forall_app in HR as [_ HR]. by apply Forall_cons in HR as [? _].
Qed.

(** ** Changing the levels one by one *)

(** The levels below [i] are those of [ys], the others are still those of [h0]. *)
Record progress h0 h hd ys i : Prop := {
  pr_done : ∀ j, (j < i)%nat → lv_ok h hd ys j;
  pr_rest : ∀ y j, (i ≤ j)%nat → get_level h y j = get_level h0 y j;
  pr_meta : ∀ y, meta_at h y = meta_at h0 y;
  pr_frame : ∀ q, q ∉ hd :: (zl <$> ys) → h !! q = h0 !! q
}.

Lemma progress_0 h hd ys : progress h h hd ys 0.
Proof. split; [lia|done..]. Qed.

Lemma progress_step h0 h h' hd i A M X Y R :
  progress h0 h hd (A ++ M ++ Y ++ R) i → lv_ok h0 hd (A ++ M ++ X ++ R) i → is_pred i A M →
  NoDup (hd :: (zl <$> A ++ M ++ Y ++ R)) →
  (∀ y j, j ≠ i → get_level h' y j = get_level h y j) →
  (∀ y, y ≠ hdl hd A → y ∉ zl <$> Y → get_level h' y i = get_level h0 y i) →
  get_level h' (hdl hd A) i = Some (link i (M ++ Y ++ R)) →
  (∀ C y C', Y = C ++ y :: C' → (i < zh y)%nat → get_level h' (zl y) i = Some (link i (C' ++ R))) →
  (∀ y, meta_at h' y = meta_at h y) → (∀ q, q ∉ hd :: (zl <$> A ++ M ++ Y ++ R) → h' !! q = h !! q) →
  progress h0 h' hd (A ++ M ++ Y ++ R) (S i).
Proof.
  intros [Hd Hr Hm Hf] Hold Hp Hnd Hj Hi Hu HY Hm' Hf'. split.
  - intros j Hlt. destruct (decide (j = i)) as [-> |Hne]; [by eapply lv_change|].
    intros A' B' E Hh. rewrite Hj by done. apply Hd; [lia|done|done].
  - intros y j Hlt. rewrite Hj by lia. apply Hr. lia.
  - intros y. by rewrite Hm'.
  - intros q Hq. rewrite Hf' by done. by apply Hf.
Qed.

(** The four assignments of [zslInsert] at one level. *)
Lemma link_one h u x i lv lx d :
  u ≠ x → get_level h u i = Some lv → get_level h x i = Some lx →
  ∃ h', (h ← set_forward h x i (forward lv); h ← set_forward h u i (Some x);
         h ← set_span h x i (span lv - d); set_span h u i (d + 1)) = Some h' ∧
    (∀ y j, get_level h' y j =
       if decide (y = x ∧ j = i) then Some (mkLvl (forward lv) (u32 (span lv - d)))
       else if decide (y = u ∧ j = i) then Some (mkLvl (Some x) (u32 (d + 1))) else get_level h y j) ∧
    (∀ y, meta_at h' y = meta_at h y) ∧ (∀ y, y ≠ x → y ≠ u → h' !! y = h !! y).
Proof.
  intros Hne Hu Hx.
  destruct (set_forward_spec h x i lx (forward lv) Hx) as (h1 & -> & G1 & M1 & F1). cbn [mbind option_bind].
  destruct (set_forward_spec h1 u i lv (Some x)) as (h2 & -> & G2 & M2 & F2).
  { by rewrite G1, decide_False by by intros [? _]. }
  cbn [mbind option_bind].
  destruct (set_span_spec h2 x i (mkLvl (forward lv) (span lx)) (span lv - d)) as (h3 & -> & G3 & M3 & F3).
  { rewrite G2, decide_False by (intros [? _]; by apply Hne). by rewrite G1, decide_True. }
  cbn [mbind option_bind].
  destruct (set_span_spec h3 u i (mkLvl (Some x) (span lv)) (d + 1)) as (h4 & -> & G4 & M4 & F4).
  { rewrite G3, decide_False by by intros [? _]. by rewrite G2, decide_True. }
  exists h4. split; [done|]. split_and!.
  - intros y j. rewrite G4. destruct (decide (y = u ∧ j = i)) as [[-> ->]|Hn1].
    + by rewrite decide_False by by intros [? _].
    + rewrite G3. destruct (decide (y = x ∧ j = i)); [done|]. rewrite G2, decide_False by done.
      by rewrite G1, decide_False.
  - intros y. by rewrite M4, M3, M2, M1.
  - intros y Hyx Hyu. by rewrite F4, F3, F2, F1.
Qed.

Section insert.
Context (h0 : heap) (hd : loc) (L R : list zel) (x : zel) (us : list (loc * Z)) (top : nat).
Context (Hold : ∀ i, (i < top)%nat → lv_ok h0 hd (L ++ R) i).
Context (Hx : length <$> (levels <$> h0 !! zl x) = Some (zh x)).
Context (Hus : us_ok hd L top us).
Context (Hnd : NoDup (hd :: (zl <$> L ++ [x] ++ R))).
Context (Hb : zlen (L ++ [x] ++ R) < 2 ^ 32).
#[local] Set Default Proof Using "Hold Hx Hus Hnd Hb".

Lemma new_ne A M : L = A ++ M → hdl hd A ≠ zl x.
Proof.
  intros ->. pose proof Hnd as Hn. rewrite <- !app_assoc in Hn. apply hdl_notin in Hn. intros E. apply Hn.
  rewrite E, !fmap_app, !elem_of_app. right. left. by left.
Qed.

Lemma changed_nodes A M q : L = A ++ M → q ∉ hd :: (zl <$> L ++ [x] ++ R) → q ≠ zl x ∧ q ≠ hdl hd A.
Proof.
  intros -> Hq. rewrite !fmap_app, not_elem_of_cons, !not_elem_of_app in Hq. destruct Hq as (H1 & (H2 & H3) & H4 & H5).
  split; [by apply not_elem_of_cons in H4 as [? _]|]. destruct (hdl_in hd A) as [[-> _]|Hi]; [done|by intros ->].
Qed.

Lemma link_levels_spec n h i :
  (i + n = zh x)%nat → (zh x ≤ top)%nat → progress h0 h hd (L ++ [x] ++ R) i →
  ∃ h', link_levels n h (zl x) i us (zlen L) = Some h' ∧ progress h0 h' hd (L ++ [x] ++ R) (zh x).
Proof.
  revert h i. induction n as [|n IH]; intros h i Hi Htop Hp.
  { exists h. by replace (zh x) with i by lia. }
  cbn [link_levels]. destruct Hus as [_ Hu]. destruct (Hu i ltac:(lia)) as (A & M & EL & Hpr & ->). cbn [mbind option_bind].
  assert (get_level h (hdl hd A) i = Some (link i (M ++ R))) as Hlv.
  { rewrite (pr_rest _ _ _ _ _ Hp) by lia. apply (Hold i ltac:(lia)); [by rewrite EL, <- app_assoc|apply Hpr]. }
  rewrite Hlv. cbn [mbind option_bind].
  assert (∃ lx, get_level h (zl x) i = Some lx) as [lx Hlx].
  { rewrite (pr_rest _ _ _ _ _ Hp) by lia. unfold get_level. destruct (h0 !! zl x) as [nx|]; [|done]. cbn in Hx |- *.
    injection Hx as Hx'. apply lookup_lt_is_Some_2. lia. }
  destruct (link_one h (hdl hd A) (zl x) i _ lx (u32 (zlen L - zlen A)) (new_ne A M EL) Hlv Hlx) as (h' & Hrun & G & Hm & Hf).
  assert (zlen M + zlen A = zlen L) as HlenM by (rewrite EL; len).
  assert (u32 (zlen L - zlen A) = zlen M) as HM.
  { rewrite wrapu_small; [lia|]. revert Hb. rewrite EL. unfold in_u. len. }
  assert (progress h0 h' hd (L ++ [x] ++ R) (S i)) as Hp'.
  { assert (L ++ [x] ++ R = A ++ M ++ [x] ++ R) as EY by by rewrite EL, <- app_assoc.
    destruct Hpr as [HiA Hlow]. rewrite EY in Hp |- *.
    eapply (progress_step h0 h h' hd i A M [] [x] R); [done| |done|by rewrite <- EY|..].
    - replace (A ++ M ++ [] ++ R) with (L ++ R) by by rewrite EL, <- app_assoc. apply Hold. lia.
    - intros y j Hj. rewrite G. by rewrite !decide_False by by intros [_ ?].
    - intros y Hy1 Hy2. rewrite G. rewrite !decide_False; [by apply (pr_rest _ _ _ _ _ Hp)|by intros [? _]|].
      intros [-> _]. apply Hy2. by left.
    - rewrite G, decide_False by (intros [? _]; by eapply (new_ne A M)). rewrite decide_True by done.
      rewrite HM, link_low by done. cbn [link app]. rewrite decide_True by lia. cbn [forward span].
      rewrite wrapu_small; [done|]. revert Hb. rewrite EL. unfold in_u. len.
    - intros C y C' E Hy. destruct C as [|c C]; [|by destruct C]. injection E as <- <-. rewrite G, decide_True by done.
      rewrite HM, link_low by done. cbn [forward span app]. pose proof (span_range i R).
      replace (zlen M + span (link i R) - zlen M) with (span (link i R)) by lia.
      rewrite wrapu_small; [by destruct (link i R)|]. revert Hb. rewrite EL. unfold in_u. len.
    - done.
    - intros q Hq. rewrite <- EY in Hq. destruct (changed_nodes A M q EL Hq). by apply Hf. }
  destruct (IH h' (S i) ltac:(lia) Htop Hp') as (h'' & Hrun' & Hp''). exists h''. split; [|done].
  revert Hrun. destruct (set_forward h (zl x) i _) as [h1|]; [|done]. cbn [mbind option_bind].
  destruct (set_forward h1 _ _ _) as [h2|]; [|done]. cbn [mbind option_bind].
  destruct (set_span h2 _ _ _) as [h3|]; [|done]. cbn [mbind option_bind].
  intros ->. done.
Qed.

Lemma bump_spans_spec n h i :
  (i + n = top)%nat → (zh x ≤ i)%nat → progress h0 h hd (L ++ [x] ++ R) i →
  ∃ h', bump_spans n h i us = Some h' ∧ progress h0 h' hd (L ++ [x] ++ R) top.
Proof.
  revert h i. induction n as [|n IH]; intros h i Hi Hxi Hp.
  { exists h. by replace top with i by lia. }
  cbn [bump_spans]. destruct Hus as [_ Hu]. destruct (Hu i ltac:(lia)) as (A & M & EL & Hpr & ->). cbn [mbind option_bind].
  assert (get_level h (hdl hd A) i = Some (link i (M ++ R))) as Hlv.
  { rewrite (pr_rest _ _ _ _ _ Hp) by lia. apply (Hold i ltac:(lia)); [by rewrite EL, <- app_assoc|apply Hpr]. }
  rewrite Hlv. cbn [mbind option_bind].
  destruct (set_span_spec h (hdl hd A) i _ (span (link i (M ++ R)) + 1) Hlv) as (h' & -> & G & Hm & Hf).
  cbn [mbind option_bind]. apply IH; [lia|lia|].
  assert (L ++ [x] ++ R = A ++ M ++ [x] ++ R) as EY by by rewrite EL, <- app_assoc. rewrite EY in Hp |- *.
  eapply (progress_step h0 h h' hd i A M [] [x] R); [done| |done|by rewrite <- EY|..].
  - replace (A ++ M ++ [] ++ R) with (L ++ R) by by rewrite EL, <- app_assoc. apply Hold. lia.
  - intros y j Hj. rewrite G. by rewrite !decide_False by by intros [_ ?].
  - intros y Hy1 Hy2. rewrite G, decide_False by by intros [? _]. by apply (pr_rest _ _ _ _ _ Hp).
  - destruct Hpr as [_ Hlow]. rewrite G, decide_True by done. rewrite !link_low by done. cbn [link app].
    rewrite decide_False by lia. cbn [forward span]. pose proof (span_range i R).
    rewrite wrapu_small; [do 2 f_equal; lia|]. revert Hb. rewrite EL. unfold in_u. len.
  - intros C y C' E Hy. destruct C as [|c C]; [|by destruct C]. injection E as <- <-. lia.
  - done.
  - intros q Hq. rewrite <- EY in Hq. destruct (changed_nodes A M q EL Hq). by apply Hf.
Qed.

End insert.

(** ** Insertion *)

Lemma random_level_range rs lev : zslRandomLevel rs = Some lev → (1 ≤ lev ≤ ZSKIPLIST_MAXLEVEL)%nat.
Proof.
  unfold zslRandomLevel, ZSKIPLIST_MAXLEVEL.
  assert (∀ n k, random_loop rs n = Some k → n ≤ k)%nat as Hr.
  { induction rs as [|r rs IH]; intros n k; cbn; [done|]. destruct (_ <? _); [|by intros [= ->]].
    intros Hk%IH. lia. }
  destruct (random_loop rs 1) as [k|] eqn:E; [|done]. apply Hr in E. cbn. intros [= <-].
  destruct (decide _); lia.
Qed.

Definition with_level (z : zskiplist) (k : nat) : zskiplist := mkZsl (header z) (tail z) (zlength z) k.

Lemma low_level h z xs i : zowns h z xs → (level z ≤ i)%nat → low i xs.
Proof. intros Hz Hi. eapply Forall_impl; [apply (zo_heights _ _ _ Hz)|]. cbn. lia. Qed.

Lemma raise_one h z xs i :
  zowns h (with_level z i) xs → (i < ZSKIPLIST_MAXLEVEL)%nat →
  ∃ h', set_span h (header z) i (zlength z) = Some h' ∧ zowns h' (with_level z (S i)) xs ∧
    ∀ q, q ≠ header z → h' !! q = h !! q.
Proof.
  intros Hz Hi. pose proof (low_level _ _ _ i Hz (Nat.le_refl _)) as Hlow.
  destruct (zo_high _ _ _ Hz i) as [s Hs]; [cbn; lia|].
  destruct (set_span_spec h (header z) i _ (zlength z) Hs) as (h' & E & G & Hm & Hf).
  exists h'. split; [done|]. split; [|done].
  assert (zlength z = zlen xs) as Hlen by apply (zo_len _ _ _ Hz).
  assert (zlen xs < 2 ^ 32) as Hb by apply (zo_bound _ _ _ Hz).
  assert (∀ y j, j ≠ i → get_level h' y j = get_level h y j) as Hj.
  { intros y j Hj. by rewrite G, decide_False by by intros [_ ?]. }
  split; cbn [level header tail zlength with_level]; try apply Hz.
  - intros j Hlt. destruct (decide (j = i)) as [-> |Hne].
    + intros A B EA HA. destruct A as [|y A _] using rev_ind.
      * cbn [app] in EA. subst B. rewrite G, decide_True by done. cbn [forward].
        rewrite Hlen, wrapu_small by (unfold in_u; split; [unfold zlen; lia|done]). by rewrite link_None.
      * exfalso. rewrite hht_snoc in HA. subst xs. apply Forall_app in Hlow as [Hlow _].
        apply Forall_app in Hlow as [_ Hlow]. apply Forall_cons in Hlow as [Hlow _]. lia.
    + intros A B EA HA. rewrite Hj by done. apply (zo_levels _ _ _ Hz j); [cbn; lia|done|done].
  - intros j Hlt. rewrite Hj by lia. apply (zo_high _ _ _ Hz j). cbn. lia.
  - intros A y B EA. rewrite Hm. by apply (zo_nodes _ _ _ Hz A y B).
  - destruct (zo_header _ _ _ Hz) as (n & Hn & Ho). pose proof (Hm (header z)) as HM. unfold meta_at in HM.
    cbn in Hn. rewrite Hn in HM. destruct (h' !! header z) as [n'|]; [|done]. exists n'. split; [done|].
    injection HM as HM _ _ _. by rewrite HM.
  - eapply Forall_impl; [apply (zo_heights _ _ _ Hz)|]. cbn. lia.
  - lia.
Qed.

Lemma raise_spec n h z i us L R :
  zowns h (with_level z i) (L ++ R) → us_ok (header z) L i us → (i + n ≤ ZSKIPLIST_MAXLEVEL)%nat →
  ∃ h' us', raise_levels n h z i us = Some (h', us') ∧ zowns h' (with_level z (i + n)) (L ++ R) ∧
    us_ok (header z) L (i + n) us' ∧ (∀ k, (k < i)%nat → us' !! k = us !! k) ∧
    ∀ q, q ≠ header z → h' !! q = h !! q.
Proof.
  revert h i us. induction n as [|n IH]; intros h i us Hz Hus Hi; cbn [raise_levels].
  { exists h, us. rewrite Nat.add_0_r. done. }
  destruct (raise_one h z (L ++ R) i Hz ltac:(lia)) as (h1 & -> & Hz1 & Hf1). cbn [mbind option_bind].
  destruct (IH h1 (S i) (us ++ [(header z, 0)]) Hz1) as (h' & us' & -> & Hz' & Hus' & Hk & Hf); [|lia|].
  { destruct Hus as [Hl Hus]. split; [rewrite length_app; cbn; lia|]. intros j Hj.
    destruct (decide (j = i)) as [-> |Hne].
    - exists [], L. split; [done|]. split.
      + split; [unfold hht; cbn; lia|]. pose proof (low_level _ _ _ i Hz (Nat.le_refl _)) as Hlow.
        by apply Forall_app in Hlow as [? _].
      + rewrite lookup_app_r by lia. by rewrite Hl, Nat.sub_diag.
    - destruct (Hus j ltac:(lia)) as (A & M & ? & ? & ?). exists A, M. rewrite lookup_app_l by lia. done. }
  exists h', us'. replace (i + S n)%nat with (S i + n)%nat by lia. split; [done|]. split; [done|]. split; [done|].
  split.
  - intros k Hlt. rewrite Hk by lia. apply lookup_app_l. destruct Hus. lia.
  - intros q Hq. rewrite Hf by done. by apply Hf1.
Qed.

(** A new node does not disturb the list. *)
Lemma owns_locs h z xs q : zowns h z xs → q ∈ header z :: (zl <$> xs) → is_Some (h !! q).
Proof.
  intros Hz [-> |Hq]%elem_of_cons.
  - destruct (zo_header _ _ _ Hz) as (n & -> & _). by eexists.
  - apply list_elem_of_fmap in Hq as (y & -> & Hy). apply list_elem_of_split in Hy as (A & B & E).
    destruct (node_at h xs A y B (zo_nodes _ _ _ Hz) E) as (n & -> & _). by eexists.
Qed.

Lemma zowns_frame h h' z xs :
  zowns h z xs → (∀ q, q ∈ header z :: (zl <$> xs) → h' !! q = h !! q) → zowns h' z xs.
Proof.
  intros Hz Hf.
  assert (∀ A B, xs = A ++ B → h' !! hdl (header z) A = h !! hdl (header z) A) as Hh.
  { intros A B ->. apply Hf. destruct (hdl_in (header z) A) as [[-> _]|Hi]; [by left|]. right.
    rewrite fmap_app, elem_of_app. by left. }
  split; try apply Hz.
  - intros i Hi A B E HA. unfold get_level. rewrite (Hh A B E). by apply (zo_levels _ _ _ Hz i Hi A B).
  - intros i Hi. unfold get_level. rewrite Hf by by left. by apply (zo_high _ _ _ Hz i).
  - intros A y B E. unfold meta_at. rewrite Hf; [by apply (zo_nodes _ _ _ Hz A y B)|]. right. subst xs.
    rewrite fmap_app, elem_of_app. right. by left.
  - rewrite Hf by by left. apply Hz.
Qed.

Lemma back_ptr hd L B :
  NoDup (hd :: (zl <$> L ++ B)) → (if decide (hdl hd L = hd) then None else Some (hdl hd L)) = zl <$> last L.
Proof.
  intros Hnd. destruct L as [|y L _] using rev_ind; [by rewrite decide_True|]. rewrite hdl_snoc, last_snoc.
  rewrite decide_False; [done|]. intros E. apply NoDup_cons in Hnd as [Hnd _]. apply Hnd.
  rewrite <- E, !fmap_app, !elem_of_app. left. right. by left.
Qed.

Lemma link_0 xs : Forall (λ y, 1 ≤ zh y)%nat xs → forward (link 0 xs) = zl <$> head xs.
Proof. destruct 1 as [|y xs Hy _]; [done|]. cbn [link head]. by rewrite decide_True by lia. Qed.

(** The backward pointers after a change of the levels: [y0], the first node of
    [R], points to [p]. *)
Lemma back_link h R p :
  (∀ y R', R = y :: R' → is_Some (meta_at h (zl y))) →
  ∃ h', match zl <$> head R with Some f => set_backward h f p | None => Some h end = Some h' ∧
    (∀ y j, get_level h' y j = get_level h y j) ∧
    (∀ y, y ∉ zl <$> R → meta_at h' y = meta_at h y) ∧
    (∀ y R', R = y :: R' → meta_at h' (zl y) = (λ '(o, s, _, n), (o, s, p, n)) <$> meta_at h (zl y)) ∧
    (∀ r R' y, R = r :: R' → y ≠ zl r → meta_at h' y = meta_at h y) ∧
    (∀ q, q ∉ zl <$> R → h' !! q = h !! q).
Proof.
  intros Hm. destruct R as [|r R]; cbn [head fmap option_fmap option_map].
  { exists h. by split_and!. }
  destruct (set_backward_spec h (zl r) p (Hm r R eq_refl)) as (h' & -> & G & M & F).
  exists h'. split; [done|]. split_and!; [done| | | |].
  - intros y Hy. rewrite M, decide_False; [done|]. intros ->. apply Hy. by left.
  - intros y R' [= -> ->]. by rewrite M, decide_True.
  - intros r' R' y [= -> ->] Hy. by rewrite M, decide_False.
  - intros q Hq. apply F. intros ->. apply Hq. by left.
Qed.

(** The addresses of a list with [x] in it. *)
Record apart (hd : loc) L (x : zel) R : Prop := {
  ap_new : ∀ y, y ∈ L ++ R → zl y ≠ zl x;
  ap_hd : hd ≠ zl x ∧ hd ∉ zl <$> R;
  ap_before : ∀ y, y ∈ L → zl y ∉ zl <$> R;
  ap_first : ∀ r R' y, R = r :: R' → y ∈ R' → zl y ≠ zl r
}.
Lemma nodup_apart hd L x R : NoDup (hd :: (zl <$> L ++ [x] ++ R)) → apart hd L x R.
Proof.
  rewrite !fmap_app. cbn [fmap list_fmap app].
  intros [Hhd (HL & Hd & HR)%NoDup_app]%NoDup_cons. apply NoDup_cons in HR as [Hx HR].
  rewrite not_elem_of_app, not_elem_of_cons in Hhd. split.
  - intros y [Hy|Hy]%elem_of_app E.
    + apply (Hd (zl y)); [by apply list_elem_of_fmap_2|]. rewrite E. by left.
    + apply Hx. rewrite <- E. by apply list_elem_of_fmap_2.
  - tauto.
  - intros y Hy Hin. apply (Hd (zl y)); [by apply list_elem_of_fmap_2|]. by right.
  - intros r R' y -> Hy E. apply NoDup_cons in HR as [Hr _]. apply Hr. rewrite <- E. by apply list_elem_of_fmap_2.
Qed.

(** A heap in which the levels are right and the other fields follow. *)
Lemma zowns_intro h1 h' z z' xs ys :
  zowns h1 z xs → (∀ i, (i < level z)%nat → lv_ok h' (header z) ys i) →
  (∀ i, (level z ≤ i)%nat → get_level h' (header z) i = get_level h1 (header z) i) →
  nodes_ok h' ys → meta_at h' (header z) = meta_at h1 (header z) → NoDup (header z :: (zl <$> ys)) →
  Forall (λ y, 1 ≤ zh y ≤ level z)%nat ys → zlen ys < 2 ^ 32 →
  z' = mkZsl (header z) (zl <$> last ys) (zlen ys) (level z) → zowns h' z' ys.
Proof.
  intros Hz Hl Hhi Hn Hm Hnd Hh Hb ->. split; cbn [header tail zlength level]; try done; try apply Hz.
  - intros i Hi. rewrite Hhi by lia. by apply (zo_high _ _ _ Hz).
  - destruct (zo_header _ _ _ Hz) as (n & Hhd & Ho). unfold meta_at in Hm. rewrite Hhd in Hm.
    destruct (h' !! header z) as [n'|]; [|done]. exists n'. split; [done|]. injection Hm as Hm _ _ _. by rewrite Hm.
Qed.

Lemma insert_finish h1 h2 z L R x :
  zowns h1 z (L ++ R) → progress h1 h2 (header z) (L ++ [x] ++ R) (level z) →
  meta_at h1 (zl x) = Some (Some (zo x), zs x, None, zh x) → (1 ≤ zh x ≤ level z)%nat →
  NoDup (header z :: (zl <$> L ++ [x] ++ R)) → zlen (L ++ [x] ++ R) < 2 ^ 32 →
  let z' := mkZsl (header z) (zl <$> last (L ++ [x] ++ R)) (zlen (L ++ [x] ++ R)) (level z) in
  ∃ h', (h ← set_backward h2 (zl x) (if decide (hdl (header z) L = header z) then None else Some (hdl (header z) L));
         lv ← get_level h (zl x) 0;
         match forward lv with
         | Some f => h ← set_backward h f (Some (zl x)); Some (zl x, h, mkZsl (header z) (tail z) (u64 (zlength z + 1)) (level z))
         | None => Some (zl x, h, mkZsl (header z) (Some (zl x)) (u64 (zlength z + 1)) (level z))
         end) = Some (zl x, h', z') ∧
    zowns h' z' (L ++ [x] ++ R) ∧ ∀ q, q ∉ header z :: (zl <$> L ++ [x] ++ R) → h' !! q = h1 !! q.
Proof.
  intros Hz Hp Hmx Hxh Hnd Hb z'. rewrite (back_ptr _ _ _ Hnd). pose proof (nodup_apart _ _ _ _ Hnd) as Hap.
  destruct (set_backward_spec h2 (zl x) (zl <$> last L)) as (h3 & -> & G3 & M3 & F3).
  { rewrite (pr_meta _ _ _ _ _ Hp), Hmx. by eexists. }
  cbn [mbind option_bind]. rewrite G3. pose proof (zo_heights _ _ _ Hz) as Hh. apply Forall_app in Hh as [HhL HhR].
  assert (get_level h2 (zl x) 0 = Some (link 0 R)) as ->.
  { rewrite <- (hdl_snoc (header z) L x). apply (pr_done _ _ _ _ _ Hp); [lia|by rewrite <- app_assoc|rewrite hht_snoc; lia]. }
  cbn [mbind option_bind]. rewrite link_0 by (eapply Forall_impl; [exact HhR|]; cbn; lia).
  assert (∀ y, y ∈ L ++ R → meta_at h3 (zl y) = meta_at h1 (zl y)) as M31.
  { intros y Hy. rewrite M3, decide_False by by apply (ap_new _ _ _ _ Hap). apply (pr_meta _ _ _ _ _ Hp). }
  destruct (back_link h3 R (Some (zl x))) as (h' & Hbk & G' & Mn & Mh & Mr & F').
  { intros y R' ->. rewrite M31 by (apply elem_of_app; right; by left).
    rewrite (zo_nodes _ _ _ Hz L y R' eq_refl). by eexists. }
  assert (u64 (zlength z + 1) = zlen (L ++ [x] ++ R)) as Hlen.
  { rewrite (zo_len _ _ _ Hz). rewrite wrapu_small; [len|]. revert Hb. unfold in_u. len. }
  exists h'. split; [|split].
  - rewrite Hlen. subst z'. destruct R as [|r R]; cbn [head fmap option_fmap option_map] in Hbk |- *.
    + injection Hbk as ->. by rewrite app_nil_r, last_snoc.
    + rewrite Hbk. cbn [mbind option_bind]. do 3 f_equal. rewrite (zo_tail _ _ _ Hz), !last_app_ne by done.
      done.
  - eapply zowns_intro; [done|..|done]; try done.
    + intros i Hi A B E HA. rewrite G', G3. by apply (pr_done _ _ _ _ _ Hp i Hi).
    + intros i Hi. by rewrite G', G3, (pr_rest _ _ _ _ _ Hp).
    + apply (nodes_change h1 h' (header z) L [] [x] R); [apply Hz|done|..].
      * intros y Hy. rewrite Mn by by apply (ap_before _ _ _ _ Hap). apply M31. by apply elem_of_app; left.
      * intros C y C' E. destruct C as [|c C]; [|by destruct C]. injection E as <- <-. rewrite app_nil_r.
        rewrite Mn; [by rewrite M3, decide_True, (pr_meta _ _ _ _ _ Hp), Hmx|].
        intros (y & E & Hy)%list_elem_of_fmap. by apply (ap_new _ _ _ _ Hap y); [apply elem_of_app; right|].
      * intros y R' ->. rewrite (Mh y R' eq_refl), M31 by (apply elem_of_app; right; by left).
        rewrite (zo_nodes _ _ _ Hz L y R' eq_refl). cbn. by rewrite last_snoc.
      * intros y r R' -> Hy. rewrite (Mr r R' (zl y) eq_refl); [apply M31; apply elem_of_app; right; by right|].
        by eapply (ap_first _ _ _ _ Hap).
    + destruct (ap_hd _ _ _ _ Hap). rewrite Mn by done. rewrite M3, decide_False by done. apply (pr_meta _ _ _ _ _ Hp).
    + apply Forall_app. split; [done|]. by apply Forall_cons_2.
  - intros q Hq. rewrite F', F3, (pr_frame _ _ _ _ _ Hp); [done|done| |].
    + intros ->. apply Hq. right. rewrite !fmap_app, !elem_of_app. right. left. by left.
    + intros Hin. apply Hq. right. rewrite !fmap_app, !elem_of_app. auto.
Qed.

Lemma with_level_id z : with_level z (level z) = z.
Proof. by destruct z. Qed.

Lemma raise_if h z L R us lev :
  zowns h z (L ++ R) → us_ok (header z) L (level z) us → us !! 0%nat = Some (hdl (header z) L, zlen L) →
  (1 ≤ lev ≤ ZSKIPLIST_MAXLEVEL)%nat →
  ∃ h' us', (if decide (level z < lev)%nat then
               '(h, us) ← raise_levels (lev - level z) h z (level z) us; Some (h, us, lev)
             else Some (h, us, level z)) = Some (h', us', level z `max` lev)%nat ∧
    zowns h' (with_level z (level z `max` lev)) (L ++ R) ∧ us_ok (header z) L (level z `max` lev) us' ∧
    us' !! 0%nat = Some (hdl (header z) L, zlen L) ∧ ∀ q, q ≠ header z → h' !! q = h !! q.
Proof.
  intros Hz Hus Hu0 Hlev. pose proof (zo_level _ _ _ Hz) as Hl. destruct (decide _) as [Hlt|Hge].
  - destruct (raise_spec (lev - level z) h z (level z) us L R) as (h' & us' & -> & Hz' & Hus' & Hk & Hf);
      [by rewrite with_level_id|done|lia|].
    cbn [mbind option_bind]. replace (level z `max` lev)%nat with lev by lia.
    replace (level z + (lev - level z))%nat with lev in * by lia.
    exists h', us'. split; [done|]. split; [done|]. split; [done|]. split; [|done]. by rewrite Hk by lia.
  - replace (level z `max` lev)%nat with (level z) by lia. exists h, us. rewrite with_level_id. done.
Qed.

Lemma zslInsert_spec memcmp buf rs h z sc o L R lev :
  zowns h z (L ++ R) → test_ok (before memcmp buf sc o) (L ++ R) L → zslRandomLevel rs = Some lev →
  zlen (L ++ R) + 1 < 2 ^ 32 →
  ∃ x h' z', zslInsert memcmp buf rs h z sc o = Some (x, h', z') ∧ zowns h' z' (L ++ [mkZel x sc o lev] ++ R) ∧
    header z' = header z ∧ h !! x = None ∧
    ∀ q, q ∉ header z :: (zl <$> L ++ R) → q ≠ x → h' !! q = h !! q.
Proof.
  intros Hz Ht Hlev Hb. pose proof (random_level_range _ _ Hlev) as Hr.
  destruct (search_spec (before memcmp buf sc o) 32 h z L R Hz Ht) as (us0 & E0 & Hus0 & Hu00); [lia|].
  unfold zslInsert. rewrite E0, Hlev. cbn [mbind option_bind].
  destruct (raise_if h z L R us0 lev Hz Hus0 Hu00 Hr) as (h1 & us & -> & Hz1 & Hus & Hu0 & Hf1). cbn [mbind option_bind].
  set (top := (level z `max` lev)%nat) in *. set (x := alloc h1).
  assert (h1 !! x = None) as Hfresh by (apply not_elem_of_dom, is_fresh).
  set (e := mkZel x sc o lev). set (h2 := <[x := _]> h1). rewrite Hu0. cbn [mbind option_bind].
  assert (x ∉ header z :: (zl <$> L ++ R)) as Hx.
  { intros Hin. destruct (owns_locs _ _ _ x Hz1 Hin) as [n Hn]. by rewrite Hfresh in Hn. }
  assert (zowns h2 (with_level z top) (L ++ R)) as Hz2.
  { eapply zowns_frame; [exact Hz1|]. intros q Hq. apply lookup_insert_ne. intros <-. done. }
  assert (NoDup (header z :: (zl <$> L ++ [e] ++ R))) as Hnd.
  { pose proof (zo_nodup _ _ _ Hz2) as Hn. cbn in Hn. rewrite !fmap_app in Hn |- *. cbn [fmap list_fmap app] in *.
    rewrite <- Permutation_middle, Permutation_swap. apply NoDup_cons. split; [|done].
    by rewrite fmap_app in Hx. }
  assert (zlen (L ++ [e] ++ R) < 2 ^ 32) as Hb' by (revert Hb; len).
  assert (length <$> (levels <$> h2 !! zl e) = Some (zh e)) as Hxl.
  { subst h2. cbn [zl zh e]. rewrite lookup_insert_eq. cbn. by rewrite length_replicate. }
  destruct (link_levels_spec h2 (header z) L R e us top (zo_levels _ _ _ Hz2) Hxl Hus Hnd Hb' lev h2 0)
    as (h3 & E3 & Hp3); [done|cbn; lia|apply progress_0|].
  change (zl e) with x in E3. rewrite E3. cbn [mbind option_bind].
  destruct (bump_spans_spec h2 (header z) L R e us top (zo_levels _ _ _ Hz2) Hxl Hus Hnd Hb' (top - lev) h3 lev)
    as (h4 & -> & Hp4); [lia|cbn; lia|done|].
  cbn [mbind option_bind].
  destruct (insert_finish h2 h4 (with_level z top) L R e) as (h' & E & Hz' & Hf'); [done|done| |cbn; lia|done|done|].
  { subst h2. unfold meta_at. cbn [zl e]. rewrite lookup_insert_eq. cbn. unfold meta. cbn. by rewrite length_replicate. }
  change (zl e) with x in E. cbn [header zlength tail level with_level] in E. rewrite E. eexists _, h', _. split; [done|].
  split; [exact Hz'|]. split; [done|]. split.
  - rewrite <- Hf1; [done|]. intros ->. apply Hx. by left.
  - intros q Hq Hqx. rewrite Hf'.
    + subst h2. rewrite lookup_insert_ne by done. apply Hf1. intros ->. apply Hq. by left.
    + cbn [header with_level]. rewrite !fmap_app in Hq |- *. cbn [fmap list_fmap app]. set_solver.
Qed.

(** ** Deletion *)

Definition upd_ok hd L n (update : list loc) : Prop :=
  ∀ i, (i < n)%nat → ∃ A M, L = A ++ M ∧ is_pred i A M ∧ update !! i = Some (hdl hd A).

Lemma us_upd hd L n us : us_ok hd L n us → upd_ok hd L n us.*1.
Proof.
  intros [_ Hus] i Hi. destruct (Hus i Hi) as (A & M & ? & ? & E). exists A, M. by rewrite list_lookup_fmap, E.
Qed.

Lemma nodup_without (hd : loc) L x R : NoDup (hd :: (zl <$> L ++ [x] ++ R)) → NoDup (hd :: (zl <$> L ++ R)).
Proof.
  intros Hnd. eapply sublist_NoDup; [exact Hnd|]. apply sublist_skip, fmap_sublist, sublist_app; [done|].
  by apply sublist_cons.
Qed.

Section delete.
Context (h0 : heap) (hd : loc) (L R : list zel) (x : zel) (update : list loc) (top : nat).
Context (Hold : ∀ i, (i < top)%nat → lv_ok h0 hd (L ++ [x] ++ R) i).
Context (Hup : upd_ok hd L top update).
Context (Hnd : NoDup (hd :: (zl <$> L ++ [x] ++ R))).
Context (Hb : zlen (L ++ [x] ++ R) < 2 ^ 32).
#[local] Set Default Proof Using "Hold Hup Hnd Hb".

(** The body of the loop, at one level. *)
Lemma unlink_one h i A M :
  (i < top)%nat → L = A ++ M → is_pred i A M → progress h0 h hd (L ++ R) i →
  ∃ h', (if decide (forward (link i (M ++ [x] ++ R)) = Some (zl x)) then
           xl ← get_level h (zl x) i;
           h ← set_span h (hdl hd A) i (span (link i (M ++ [x] ++ R)) + u32 (span xl - 1));
           set_forward h (hdl hd A) i (forward xl)
         else set_span h (hdl hd A) i (span (link i (M ++ [x] ++ R)) - 1)) = Some h' ∧
    updl h (hdl hd A) i (link i (M ++ R)) h'.
Proof.
  intros Hi EL [HiA Hlow] Hp. pose proof (span_range i R) as Hs.
  assert (get_level h (hdl hd A) i = Some (link i (M ++ [x] ++ R))) as Hlv.
  { rewrite (pr_rest _ _ _ _ _ Hp) by lia. apply (Hold i Hi); [by rewrite EL, <- app_assoc|done]. }
  assert (0 ≤ zlen M ∧ zlen M + zlen R < 2 ^ 32) as Hlen by (revert Hb; rewrite EL; len).
  rewrite !link_low in * by done. cbn [link app] in *.
  destruct (decide (i < zh x)%nat) as [Hx|Hx]; cbn [forward span] in *.
  - rewrite decide_True by done.
    assert (get_level h (zl x) i = Some (link i R)) as ->.
    { rewrite (pr_rest _ _ _ _ _ Hp) by lia. rewrite <- (hdl_snoc hd L x).
      apply (Hold i Hi); [by rewrite <- app_assoc|by rewrite hht_snoc]. }
    cbn [mbind option_bind].
    destruct (set_span_spec h _ i _ (zlen M + 1 + u32 (span (link i R) - 1)) Hlv) as (h1 & -> & G1 & M1 & F1).
    cbn [mbind option_bind forward].
    destruct (set_forward_spec h1 (hdl hd A) i _ (forward (link i R)) ltac:(rewrite G1; by apply decide_True))
      as (h2 & -> & G2 & M2 & F2).
    exists h2. split; [done|]. split_and!.
    + intros y j. rewrite G2. cbn [span]. destruct (decide _); [|by rewrite G1, decide_False].
      rewrite link_low by done. do 2 f_equal. unfold wrapu. rewrite Zplus_mod_idemp_r, Z.mod_small; lia.
    + intros y. by rewrite M2.
    + intros y Hy. by rewrite F2, F1.
  - rewrite decide_False.
    + destruct (set_span_spec h _ i _ (zlen M + (span (link i R) + 1) - 1) Hlv) as (h1 & -> & G1 & M1 & F1).
      exists h1. split; [done|]. split_and!; [|done|done]. intros y j. rewrite G1. cbn [forward].
      destruct (decide _); [|done]. rewrite link_low by done. do 2 f_equal. rewrite wrapu_small by (unfold in_u; lia). lia.
    + intros E. apply link_forward in E. pose proof (nodup_apart _ _ _ _ Hnd) as Hap.
      apply list_elem_of_fmap in E as (y & E & Hy). apply (ap_new _ _ _ _ Hap y); [by apply elem_of_app; right|done].
Qed.

Lemma unlink_levels_spec n h i :
  (i + n = top)%nat → progress h0 h hd (L ++ R) i →
  ∃ h', unlink_levels n h (zl x) i update = Some h' ∧ progress h0 h' hd (L ++ R) top.
Proof.
  revert h i. induction n as [|n IH]; intros h i Hi Hp.
  { exists h. by replace top with i by lia. }
  cbn [unlink_levels]. destruct (Hup i ltac:(lia)) as (A & M & EL & Hpr & ->). cbn [mbind option_bind].
  assert (get_level h (hdl hd A) i = Some (link i (M ++ [x] ++ R))) as ->.
  { rewrite (pr_rest _ _ _ _ _ Hp) by lia. apply (Hold i ltac:(lia)); [by rewrite EL, <- app_assoc|apply Hpr]. }
  cbn [mbind option_bind].
  destruct (unlink_one h i A M ltac:(lia) EL Hpr Hp) as (h' & -> & G & Hm & Hf). cbn [mbind option_bind].
  apply IH; [lia|]. assert (L ++ R = A ++ M ++ [] ++ R) as EY by by rewrite EL, <- app_assoc.
  rewrite EY in Hp |- *. eapply (progress_step h0 h h' hd i A M [x] [] R); [done| |done| |..].
  - replace (A ++ M ++ [x] ++ R) with (L ++ [x] ++ R) by by rewrite EL, <- app_assoc. apply Hold. lia.
  - rewrite <- EY. by eapply nodup_without.
  - intros y j Hj. by rewrite G, decide_False by by intros [_ ?].
  - intros y Hy _. rewrite G, decide_False by by intros [? _]. by apply (pr_rest _ _ _ _ _ Hp).
  - by rewrite G, decide_True.
  - intros C y C' E. by destruct C.
  - done.
  - intros q Hq. apply Hf. rewrite <- EY, EL, !fmap_app in Hq. intros ->. apply Hq.
    destruct (hdl_in hd A) as [[-> _]|Hin]; [by left|]. right. rewrite !elem_of_app. auto.
Qed.

End delete.

Lemma lower_le h hd k lev : lower h hd k = Some lev → (lev ≤ k)%nat.
Proof.
  revert lev. induction k as [|k IH]; intros lev; cbn [lower]; [intros [= <-]; lia|]. destruct k as [|k].
  - intros [= <-]. lia.
  - destruct (get_level _ _ _) as [lv|]; [|done]. cbn [mbind option_bind].
    destruct (forward lv); [intros [= <-]; lia|]. intros E%IH. lia.
Qed.

Lemma lower_spec h z xs lev :
  zowns h (with_level z lev) xs →
  ∃ lev', lower h (header z) lev = Some lev' ∧ zowns h (with_level z lev') xs.
Proof.
  induction lev as [|lev IH]; intros Hz; [by exists 0%nat|]. destruct lev as [|lev]; [by exists 1%nat|].
  cbn [lower]. pose proof (zo_level _ _ _ Hz) as Hlev. cbn in Hlev.
  assert (get_level h (header z) (S lev) = Some (link (S lev) xs)) as E.
  { apply (zo_levels _ _ _ Hz (S lev) ltac:(cbn; lia) [] xs eq_refl). unfold hht. cbn. lia. }
  rewrite E. cbn [mbind option_bind]. destruct (forward (link (S lev) xs)) as [f|] eqn:Ef; [by eexists|].
  apply IH. pose proof (forward_None _ _ Ef) as Hlow. split; cbn [level header tail zlength with_level]; try apply Hz.
  - intros i Hi. apply (zo_levels _ _ _ Hz). cbn. lia.
  - intros i Hi. destruct (decide (i = S lev)) as [-> |Hne].
    + rewrite E. destruct (link (S lev) xs) as [f s]. cbn in Ef. subst f. by eexists.
    + apply (zo_high _ _ _ Hz). cbn. lia.
  - apply Forall_forall. intros y Hy. pose proof (zo_heights _ _ _ Hz) as Hh. rewrite Forall_forall in Hh.
    specialize (Hh y Hy). unfold low in Hlow. rewrite Forall_forall in Hlow. specialize (Hlow y Hy). cbn in *. lia.
  - lia.
Qed.

Lemma zslDeleteNode_spec h z L R x update :
  zowns h z (L ++ [x] ++ R) → upd_ok (header z) L (level z) update →
  ∃ h' z', zslDeleteNode h z (zl x) update = Some (h', z') ∧ zowns h' z' (L ++ R) ∧ header z' = header z ∧
    (level z' ≤ level z)%nat ∧ ∀ q, q ∉ header z :: (zl <$> L ++ R) → h' !! q = h !! q.
Proof.
  intros Hz Hup. pose proof (zo_nodup _ _ _ Hz) as Hnd. pose proof (zo_bound _ _ _ Hz) as Hb.
  pose proof (zo_level _ _ _ Hz) as Hlev. pose proof (nodup_apart _ _ _ _ Hnd) as Hap.
  destruct (unlink_levels_spec h (header z) L R x update (level z) (zo_levels _ _ _ Hz) Hup Hnd Hb (level z) h 0
    eq_refl (progress_0 _ _ _)) as (h1 & E1 & Hp).
  unfold zslDeleteNode. rewrite E1. cbn [mbind option_bind].
  assert (zl x ∉ header z :: (zl <$> L ++ R)) as Hxn.
  { rewrite not_elem_of_cons. split; [intros E; by destruct (ap_hd _ _ _ _ Hap)|].
    intros (y & E & Hy)%list_elem_of_fmap. by apply (ap_new _ _ _ _ Hap y). }
  destruct (node_at h _ L x R (zo_nodes _ _ _ Hz) eq_refl) as (n & Hn & _ & _ & Hbk & _).
  rewrite (pr_frame _ _ _ _ _ Hp (zl x) Hxn), Hn. cbn [mbind option_bind].
  pose proof (zo_heights _ _ _ Hz) as Hh. apply Forall_app in Hh as [HhL Hh]. apply Forall_cons in Hh as [Hhx HhR].
  assert (get_level h1 (zl x) 0 = Some (link 0 R)) as ->.
  { unfold get_level. rewrite (pr_frame _ _ _ _ _ Hp (zl x) Hxn).
    pose proof (zo_levels _ _ _ Hz 0%nat ltac:(lia) (L ++ [x]) R) as G. rewrite hdl_snoc, hht_snoc in G.
    apply G; [by rewrite <- app_assoc|lia]. }
  cbn [mbind option_bind]. rewrite Hbk, link_0 by (eapply Forall_impl; [exact HhR|]; cbn; lia).
  destruct (back_link h1 R (zl <$> last L)) as (h' & Hbl & G' & Mn & Mh & Mr & F').
  { intros y R' ->. rewrite (pr_meta _ _ _ _ _ Hp).
    rewrite (zo_nodes _ _ _ Hz (L ++ [x]) y R') by by rewrite <- app_assoc. by eexists. }
  assert (u64 (zlength z - 1) = zlen (L ++ R)) as Hlen.
  { rewrite (zo_len _ _ _ Hz). rewrite wrapu_small; [len|]. revert Hb. unfold in_u. len. }
  set (z1 := mkZsl (header z) (zl <$> last (L ++ R)) (zlen (L ++ R)) (level z)).
  assert (zowns h' z1 (L ++ R)) as Hz1.
  { eapply zowns_intro; [done|..|done].
    - intros i Hi A B E HA. rewrite G'. by apply (pr_done _ _ _ _ _ Hp i Hi).
    - intros i Hi. by rewrite G', (pr_rest _ _ _ _ _ Hp).
    - apply (nodes_change h h' (header z) L [x] [] R); [apply Hz|by eapply nodup_without|..].
      + intros y Hy. rewrite Mn by by apply (ap_before _ _ _ _ Hap). apply (pr_meta _ _ _ _ _ Hp).
      + intros C y C' E. by destruct C.
      + intros y R' ->. rewrite (Mh y R' eq_refl), (pr_meta _ _ _ _ _ Hp).
        rewrite (zo_nodes _ _ _ Hz (L ++ [x]) y R') by by rewrite <- app_assoc. cbn. by rewrite app_nil_r.
      + intros y r R' -> Hy. rewrite (Mr r R' (zl y) eq_refl) by by eapply (ap_first _ _ _ _ Hap). apply (pr_meta _ _ _ _ _ Hp).
    - rewrite Mn by apply Hap. apply (pr_meta _ _ _ _ _ Hp).
    - by eapply nodup_without.
    - by apply Forall_app.
    - revert Hb. len. }
  destruct (lower_spec h' z1 (L ++ R) (level z)) as (lev & El & Hzl); [by rewrite <- (with_level_id z1) in Hz1|].
  exists h', (with_level z1 lev). split; [|split; [done|]].
  - rewrite Hlen. destruct R as [|r R]; cbn [head fmap option_fmap option_map] in Hbl |- *.
    + injection Hbl as ->. cbn [mbind option_bind]. cbn [header z1] in El. rewrite El. cbn [mbind option_bind]. unfold z1, with_level.
      cbn [header tail zlength level]. by rewrite app_nil_r.
    + rewrite Hbl. cbn [mbind option_bind]. cbn [header z1] in El. rewrite El. cbn [mbind option_bind].
      unfold z1, with_level. cbn [header tail zlength level]. rewrite (zo_tail _ _ _ Hz), !last_app_ne by done. done.
  - split; [done|]. split.
    + by eapply lower_le.
    + intros q Hq. rewrite F', (pr_frame _ _ _ _ _ Hp); [done|done|].
      intros Hin. apply Hq. right. rewrite fmap_app, elem_of_app. auto.
Qed.

(** ** Access by rank *)

Lemma by_rank_loop_spec h z L R rank fuel n A M :
  zowns h z (L ++ R) → test_ok (λ t s _, Some (u64 (t + s) <=? rank)) (L ++ R) L →
  (n ≤ level z)%nat → zlen L ≤ rank → (R ≠ [] → zlen L = rank) → (1 ≤ n)%nat → L = A ++ M → (n ≤ hht A)%nat →
  (length L < fuel)%nat →
  by_rank_loop h rank fuel n (hdl (header z) A) (zlen A) =
    Some (if zlen L =? rank then Some (hdl (header z) L) else None).
Proof.
  intros Hz Ht. revert A M. induction n as [|n IH]; intros A M Hn HL HR Hn1 EL HA Hf; [lia|].
  cbn [by_rank_loop].
  destruct (walk_spec (λ t s _, Some (u64 (t + s) <=? rank)) 64 h z L R n fuel A M Hz Ht) as (A' & M' & E' & Hpr & Hl & ->);
    [lia|lia|done|lia|rewrite EL, length_app in Hf; lia|].
  cbn [mbind option_bind]. assert (zlen A' ≤ zlen L) as Hle by (rewrite E'; len).
  destruct (Z.eqb_spec (zlen A') rank) as [Er|Er].
  - destruct (Z.eqb_spec (zlen L) rank) as [Er'|Er']; [|lia]. do 2 f_equal. destruct M' as [|m M']; [by rewrite E', app_nil_r|].
    exfalso. rewrite E' in Er'. revert Er Er'. len.
  - destruct (decide (n = 0%nat)) as [-> |Hn0].
    + cbn [by_rank_loop]. assert (M' = []) as ->.
      { eapply is_pred_0; [|done]. pose proof (zo_heights _ _ _ Hz) as Hh. rewrite E', !Forall_app in Hh.
        destruct Hh as [[_ Hh] _]. eapply Forall_impl; [exact Hh|]. cbn. lia. }
      rewrite app_nil_r in E'. subst A'. by destruct (Z.eqb_spec (zlen L) rank).
    + apply (IH A' M'); [lia|done|done|lia|done|destruct Hpr; lia|done].
Qed.

Lemma zslGetElementByRank_spec h z xs rank :
  zowns h z xs → 1 ≤ rank →
  zslGetElementByRank h z rank = Some (zl <$> xs !! Z.to_nat (rank - 1)).
Proof.
  intros Hz Hr. set (L := take (Z.to_nat rank) xs). set (R := drop (Z.to_nat rank) xs).
  assert (xs = L ++ R) as E by (unfold L, R; by rewrite take_drop).
  assert (zlen L = Z.min rank (zlen xs)) as HL by (unfold L, zlen; rewrite length_take; lia).
  assert (R ≠ [] → zlen L = rank) as HRn.
  { intros HR. rewrite HL. unfold R in HR. apply Z.min_l. unfold zlen.
    destruct (decide (length xs ≤ Z.to_nat rank)%nat) as [Hle|]; [by rewrite drop_ge in HR|lia]. }
  clearbody L R. pose proof (zo_bound _ _ _ Hz) as Hb.
  assert (test_ok (λ t s _, Some (u64 (t + s) <=? rank)) (L ++ R) L) as Ht.
  { rewrite <- E. intros C y B r s n EC _ _ Hr0 Hs0 Hrs. f_equal.
    assert (zlen C + 1 ≤ zlen xs ∧ 0 ≤ zlen C) by (rewrite EC; len).
    rewrite Hrs, wrapu_small by (unfold in_u; lia).
    destruct (Z.leb_spec (zlen C + 1) rank); symmetry; [apply bool_decide_eq_true|apply bool_decide_eq_false]; lia. }
  rewrite E in Hz. pose proof (zo_level _ _ _ Hz) as Hlev. unfold zslGetElementByRank.
  change (header z) with (hdl (header z) ([] : list zel)). change 0 with (zlen ([] : list zel)).
  rewrite (by_rank_loop_spec h z L R rank _ (level z) [] L Hz Ht); [|lia|lia|done|lia|done|unfold hht; cbn; lia|].
  - f_equal. destruct (Z.eqb_spec (zlen L) rank) as [Er|Er].
    + destruct L as [|y L' _] using rev_ind; [unfold zlen in Er; cbn in Er; lia|]. rewrite hdl_snoc.
      assert (xs !! Z.to_nat (rank - 1) = Some y) as ->; [|done]. rewrite E.
      rewrite <- app_assoc, lookup_app_r by (revert Er; unfold zlen; rewrite length_app; cbn; lia).
      assert ((Z.to_nat (rank - 1) - length L')%nat = 0%nat) as -> by (revert Er; unfold zlen; rewrite length_app; cbn; lia).
      done.
    + rewrite lookup_ge_None_2; [done|]. unfold zlen in *. lia.
  - rewrite (zo_len _ _ _ Hz). unfold zlen. rewrite length_app. lia.
Qed.

End rep.
