(* ===== verification/SkiplistSpec.v ===== *)
(** * SkiplistSpec: sorted sets as sorted sequences

    The elements of a skip list are sorted by score and then by the bytes of
    the member.  Each operation of Skiplist is related to the operation on the
    sorted sequence: insertion, deletion, ranks, ranges of scores and of
    members, deletion of ranges together with the dictionary. *)

From S2P Require Import Prelude NumConv Objects Skiplist SkiplistFacts.
From Stdlib Require Import SpecFloat.

Lemma filter_fmap {A B} (g : A → B) (P : B → Prop) `{∀ x, Decision (P x)} (l : list A) :
  filter P (g <$> l) = g <$> filter (λ x, P (g x)) l.
Proof. induction l as [|x l IH]; [done|]. rewrite fmap_cons, !filter_cons, IH. by destruct (decide _). Qed.
Lemma filter_forall {A} (P : A → Prop) `{∀ x, Decision (P x)} (l : list A) : Forall P (filter P l).
Proof. apply Forall_forall. intros x Hx. by apply list_elem_of_filter in Hx as [? _]. Qed.

Lemma filter_ext_in {A} (P Q : A → Prop) `{∀ x, Decision (P x)} `{∀ x, Decision (Q x)} (l : list A) :
  (∀ x, x ∈ l → P x ↔ Q x) → filter P l = filter Q l.
Proof.
  induction l as [|x l IH]; intros HPQ; [done|]. rewrite !filter_cons. rewrite IH by (intros y Hy; apply HPQ; by right).
  destruct (HPQ x (list_elem_of_here _ _)). by destruct (decide (P x)), (decide (Q x)); try tauto.
Qed.

(** ** The order of the elements *)

Section order.
Context {T : Type} `{ScoreLaws T}.
Local Notation elt := (T * enc_obj)%type.
Implicit Types (a b c p : elt).

Definition is_lt (c : comparison) : bool := match c with Lt => true | _ => false end.
Definition lt_elt a b : bool :=
  score_ltb a.1 b.1 || (score_eqb a.1 b.1 && is_lt (lexcmp (obj_string a.2) (obj_string b.2))).
(** The same element for [zslDelete]: equal scores and equal strings. *)
Definition eq_elt a b : bool := score_eqb a.1 b.1 && bool_decide (obj_string a.2 = obj_string b.2).

Lemma score_eq_cases (s t : T) : score_eqb s t = true ↔ score_ltb s t = false ∧ score_ltb t s = false.
Proof using All. rewrite score_eq_neither, andb_true_iff, !negb_true_iff. done. Qed.

Lemma score_lt_trans (s t u : T) : score_ltb s t = true → score_ltb t u = true → score_ltb s u = true.
Proof using All.
  intros H1 H2. destruct (score_lt_total _ _ u H1) as [?|H3]; [done|]. by rewrite (score_lt_asym _ _ H2) in H3.
Qed.
Lemma score_eq_lt (s t u : T) : score_eqb s t = true → score_ltb t u = true → score_ltb s u = true.
Proof using All.
  intros [H1 H2]%score_eq_cases H3. destruct (score_lt_total _ _ s H3) as [E|?]; [by rewrite H2 in E|done].
Qed.
Lemma score_lt_eq (s t u : T) : score_ltb s t = true → score_eqb t u = true → score_ltb s u = true.
Proof using All.
  intros H1 [H2 H3]%score_eq_cases. destruct (score_lt_total _ _ u H1) as [?|E]; [done|by rewrite H3 in E].
Qed.
Lemma score_eq_sym (s t : T) : score_eqb s t = score_eqb t s.
Proof using All. rewrite !score_eq_neither. apply andb_comm. Qed.
Lemma score_eq_trans (s t u : T) : score_eqb s t = true → score_eqb t u = true → score_eqb s u = true.
Proof using All.
  intros H1 H2. apply score_eq_cases. split; apply not_true_is_false; intros H3.
  - rewrite score_eq_sym in H1. apply score_eq_cases in H2 as [H2 _]. by rewrite (score_eq_lt t s u H1 H3) in H2.
  - apply score_eq_cases in H1 as [_ H1]. by rewrite (score_eq_lt t u s H2 H3) in H1.
Qed.

Lemma lt_elt_irrefl a : lt_elt a a = false.
Proof using All. unfold lt_elt. rewrite score_lt_irrefl, lexcmp_refl. by rewrite andb_false_r. Qed.

Lemma lt_elt_trans a b c : lt_elt a b = true → lt_elt b c = true → lt_elt a c = true.
Proof using All.
  unfold lt_elt. rewrite !orb_true_iff, !andb_true_iff. intros [H1|[E1 L1]] [H2|[E2 L2]].
  - left. by eapply score_lt_trans.
  - left. by eapply score_lt_eq.
  - left. by eapply score_eq_lt.
  - right. split; [by eapply score_eq_trans|]. revert L1 L2.
    destruct (lexcmp _ _) eqn:X1; try done. destruct (lexcmp (obj_string b.2) _) eqn:X2; try done.
    by rewrite (lexcmp_lt_trans _ _ _ X1 X2).
Qed.

(** Exactly one of: less, equal, greater. *)
Lemma elt_trichotomy a b :
  (lt_elt a b = true ∧ eq_elt a b = false ∧ lt_elt b a = false) ∨
  (lt_elt a b = false ∧ eq_elt a b = true ∧ lt_elt b a = false) ∨
  (lt_elt a b = false ∧ eq_elt a b = false ∧ lt_elt b a = true).
Proof using All.
  unfold lt_elt, eq_elt. rewrite (score_eq_sym b.1 a.1), (lexcmp_antisym (obj_string a.2) (obj_string b.2)).
  destruct (score_ltb a.1 b.1) eqn:E1; [|destruct (score_ltb b.1 a.1) eqn:E2].
  - rewrite (score_lt_asym _ _ E1), score_eq_neither, E1. left. done.
  - rewrite score_eq_neither, E1, E2. right. right. done.
  - rewrite score_eq_neither, E1, E2. cbn. destruct (lexcmp _ _) eqn:X; cbn.
    + right. left. apply lexcmp_eq in X. by rewrite bool_decide_true.
    + left. rewrite bool_decide_false; [done|]. intros E. by rewrite E, lexcmp_refl in X.
    + right. right. rewrite bool_decide_false; [done|]. intros E. by rewrite E, lexcmp_refl in X.
Qed.

Lemma eq_lt_elt a b c : eq_elt a b = true → lt_elt a c = true → lt_elt b c = true.
Proof using All.
  unfold lt_elt, eq_elt. rewrite !andb_true_iff, !orb_true_iff, !andb_true_iff, bool_decide_eq_true.
  intros [E1 E2] Hs. rewrite <- E2. rewrite score_eq_sym in E1. destruct Hs as [X|[X Y]].
  - left. by eapply score_eq_lt.
  - right. split; [by eapply score_eq_trans|done].
Qed.

Definition esorted (es : list elt) : Prop := StronglySorted (λ a b, lt_elt a b = true) es.

(** A property of an initial part of the order cuts a sorted sequence in two. *)
Lemma sorted_cut {X} (g : X → elt) (f : elt → bool) xs :
  esorted (g <$> xs) →
  (∀ a b, a ∈ g <$> xs → b ∈ g <$> xs → lt_elt a b = true → f b = true → f a = true) →
  xs = filter (λ x, f (g x) = true) xs ++ filter (λ x, f (g x) = false) xs.
Proof using Type.
  intros Hs Hf. induction xs as [|x xs IH]; [done|]. rewrite fmap_cons in Hs. apply StronglySorted_inv in Hs as [Hs Hx].
  rewrite !filter_cons. destruct (f (g x)) eqn:Ea.
  - rewrite decide_True, decide_False by congruence. cbn [app]. rewrite <- IH; [done|done|].
    intros a b Ha Hb. apply Hf; by right.
  - rewrite decide_False, decide_True by congruence.
    assert (Forall (λ y, f (g y) = false) xs) as Hn.
    { rewrite Forall_forall in Hx. apply Forall_forall. intros y Hy. apply not_true_is_false. intros Eb.
      assert (g y ∈ g <$> xs) as Hgy by by apply list_elem_of_fmap_2.
      rewrite (Hf (g x) (g y)) in Ea; [done|by left|by right|by apply Hx|done]. }
    rewrite (filter_none (λ y, f (g y) = true)), (filter_all (λ y, f (g y) = false)); [done|done|].
    eapply Forall_impl; [exact Hn|]. cbn. congruence.
Qed.

Lemma esorted_app (xs ys : list elt) :
  esorted (xs ++ ys) ↔ esorted xs ∧ esorted ys ∧ (∀ a b, a ∈ xs → b ∈ ys → lt_elt a b = true).
Proof using Type.
  unfold esorted. induction xs as [|x xs IH]; cbn [app].
  - split; [intros ?; split_and!; [constructor|done|]|tauto]. intros a b Ha. by apply not_elem_of_nil in Ha.
  - split.
    + intros [Hs Hx]%StronglySorted_inv. apply IH in Hs as (H1 & H2 & H3). apply Forall_app in Hx as [Hx1 Hx2].
      split; [by constructor|]. split; [done|]. intros a b [-> |Ha]%elem_of_cons Hb; [|by apply H3].
      rewrite Forall_forall in Hx2. by apply Hx2.
    + intros ([H1 Hx]%StronglySorted_inv & H2 & H3). constructor.
      * apply IH. split_and!; [done..|]. intros a b Ha Hb. apply H3; [by right|done].
      * apply Forall_app. split; [done|]. apply Forall_forall. intros b Hb. apply H3; [by left|done].
Qed.

End order.

(** ** Skip lists with sorted elements *)

Section spec.
Context {T : Type} `{ScoreLaws T} (memcmp : list Z → list Z → Z) `{!Memcmp memcmp} (buf : list Z).
Context (Hbuf : 128 ≤ zlen buf).
Local Notation heap := (gmap loc (zskiplistNode T)).
Local Notation elt := (T * enc_obj)%type.
Local Notation zel := (zel T).
Implicit Types (h : heap) (z : zskiplist) (xs L R : list zel) (es : list elt) (p : elt).

Definition el (y : zel) : elt := (zs y, zo y).
Definition eobj (e : elt) : list Z := obj_string e.2.

(** The invariant of the elements: sorted, members different. *)
Record eok es : Prop := {
  ok_sorted : esorted es;
  ok_objs : Forall (λ e, obj_ok e.2) es;
  ok_members : NoDup (eobj <$> es)
}.

Definition is_gt (c : comparison) : bool := match c with Gt => true | _ => false end.
Lemma lt_0_sign c d : (c ?= 0) = d → (c <? 0) = is_lt d ∧ (c <=? 0) = negb (is_gt d).
Proof using Type. intros <-. unfold Z.ltb, Z.leb. by destruct (c ?= 0). Qed.

Lemma before_test p y n r s :
  obj_ok p.2 → obj_ok (zo y) → obj n = Some (zo y) → score n = zs y →
  before memcmp buf p.1 p.2 r s n = Some (lt_elt (el y) p).
Proof using All.
  intros Hp Hy Ho Hs. unfold before, lt_elt. rewrite Ho, Hs. cbn [el fst snd].
  destruct (score_ltb (zs y) p.1); [done|]. destruct (score_eqb (zs y) p.1); [|done]. cbn [mbind option_bind].
  destruct (compareStringObjects_spec memcmp buf Hbuf (zo y) p.2 Hy Hp) as (c & -> & Hc). cbn [mbind option_bind].
  by rewrite (proj1 (lt_0_sign _ _ Hc)).
Qed.

Lemma not_after_test p y n r s :
  obj_ok p.2 → obj_ok (zo y) → obj n = Some (zo y) → score n = zs y →
  not_after memcmp buf p.1 p.2 r s n = Some (negb (lt_elt p (el y))).
Proof using All.
  intros Hp Hy Ho Hs. unfold not_after, lt_elt. rewrite Ho, Hs. cbn [el fst snd].
  destruct (score_ltb (zs y) p.1) eqn:E1.
  { rewrite (score_lt_asym _ _ E1), (score_eq_neither p.1), E1. by rewrite andb_false_r. }
  rewrite (score_eq_sym p.1). destruct (score_eqb (zs y) p.1) eqn:E2; cbn [mbind option_bind].
  - apply score_eq_cases in E2 as [_ ->]. cbn.
    destruct (compareStringObjects_spec memcmp buf Hbuf (zo y) p.2 Hy Hp) as (c & -> & Hc). cbn [mbind option_bind].
    rewrite (proj2 (lt_0_sign _ _ Hc)), (lexcmp_antisym (obj_string (zo y))). by destruct (lexcmp _ _).
  - rewrite score_eq_neither, E1 in E2. cbn in E2. apply negb_false_iff in E2. by rewrite E2.
Qed.

(** The cut of the elements before [p]. *)
Lemma cut_lt xs p :
  eok (el <$> xs) → obj_ok p.2 →
  ∃ L R, xs = L ++ R ∧ el <$> L = filter (λ e, lt_elt e p = true) (el <$> xs) ∧
    el <$> R = filter (λ e, lt_elt e p = false) (el <$> xs) ∧
    test_ok (before memcmp buf p.1 p.2) xs L.
Proof using All.
  intros Hok Hp. set (f := λ e, lt_elt e p).
  exists (filter (λ y, f (el y) = true) xs), (filter (λ y, f (el y) = false) xs).
  assert (xs = filter (λ y, f (el y) = true) xs ++ filter (λ y, f (el y) = false) xs) as E.
  { apply (sorted_cut el f); [apply Hok|]. intros a b _ _ Hab Hb. by eapply lt_elt_trans. }
  split; [done|]. split; [by rewrite filter_fmap|]. split; [by rewrite filter_fmap|].
  rewrite E at 1. apply (test_elem (λ y, f (el y))); [apply filter_forall|apply filter_forall|].
  intros y r s n Hy Ho Hs. rewrite <- E in Hy. apply before_test; [done| |done|done].
  pose proof (ok_objs _ Hok) as Hoks. rewrite Forall_fmap, Forall_forall in Hoks. by apply Hoks.
Qed.

(** ** Insertion and deletion *)

Definition sp_insert p es : list elt :=
  filter (λ e, lt_elt e p = true) es ++ p :: filter (λ e, lt_elt e p = false) es.
Definition sp_delete p es : list elt := filter (λ e, eq_elt e p = false) es.
Definition sp_has p es : bool := existsb (λ e, eq_elt e p) es.

(** Nodes of the heap that are not the list's stay, and do not become part of
    it. *)
Definition foreign h z xs h' xs' : Prop :=
  ∀ q n, h !! q = Some n → q ∉ header z :: (zl <$> xs) → h' !! q = Some n ∧ q ∉ header z :: (zl <$> xs').

Lemma zforeign_refl h z xs : foreign h z xs h xs.
Proof using Type. by intros q n Hq Hn. Qed.
Lemma foreign_trans h z xs h' xs' h'' xs'' :
  foreign h z xs h' xs' → foreign h' z xs' h'' xs'' → foreign h z xs h'' xs''.
Proof using Type. intros H1 H2 q n Hq Hn. destruct (H1 q n Hq Hn). by apply H2. Qed.

Lemma sp_insert_perm p es : esorted es → sp_insert p es ≡ₚ p :: es.
Proof using All.
  intros Hs. unfold sp_insert. rewrite <- Permutation_middle. f_equiv.
  pose proof (sorted_cut id (λ e, lt_elt e p) es) as E. rewrite list_fmap_id in E. cbn in E.
  rewrite <- E; [done|done|]. intros a b _ _ Hab Hb. by eapply lt_elt_trans.
Qed.

Lemma insert_ok p es : eok es → obj_ok p.2 → eobj p ∉ eobj <$> es → eok (sp_insert p es).
Proof using All.
  intros Hok Hp Hn. pose proof (sp_insert_perm p es (ok_sorted _ Hok)) as HP. split.
  - unfold sp_insert. pose proof (sorted_cut id (λ e, lt_elt e p) es) as E. rewrite list_fmap_id in E. cbn in E.
    pose proof (ok_sorted _ Hok) as Hs. rewrite E in Hs; [|done|intros a b _ _ Hab Hb; by eapply lt_elt_trans].
    apply esorted_app in Hs as (H1 & H2 & H3). apply esorted_app. split; [done|]. split.
    + constructor; [done|]. apply Forall_forall. intros e [He1 He2]%list_elem_of_filter.
      destruct (elt_trichotomy e p) as [(X & _)|[(_ & X & _)|(_ & _ & X)]]; [congruence| |done].
      exfalso. apply Hn. unfold eq_elt in X. apply andb_true_iff in X as [_ X%bool_decide_eq_true].
      unfold eobj at 1. rewrite <- X. change (obj_string e.2) with (eobj e). by apply list_elem_of_fmap_2.
    + intros a b Ha [-> |Hb]%elem_of_cons; [by apply list_elem_of_filter in Ha as [? _]|]. by apply H3.
  - rewrite HP. apply Forall_cons_2; [done|apply Hok].
  - rewrite HP. cbn. apply NoDup_cons. split; [done|apply Hok].
Qed.

Lemma zslInsert_sorted rs lev h z xs p :
  zowns h z xs → eok (el <$> xs) → obj_ok p.2 → zslRandomLevel rs = Some lev → zlen xs + 1 < 2 ^ 32 →
  ∃ x h' z' xs', zslInsert memcmp buf rs h z p.1 p.2 = Some (x, h', z') ∧ zowns h' z' xs' ∧
    el <$> xs' = sp_insert p (el <$> xs) ∧ header z' = header z ∧ foreign h z xs h' xs'.
Proof using All.
  intros Hz Hok Hp Hlev Hb. destruct (cut_lt xs p Hok Hp) as (L & R & -> & EL & ER & Ht).
  destruct (zslInsert_spec memcmp buf rs h z p.1 p.2 L R lev Hz Ht Hlev Hb) as (x & h' & z' & E & Hz' & Hh & Hx & Hf).
  exists x, h', z', (L ++ [mkZel x p.1 p.2 lev] ++ R). split; [done|]. split; [done|]. split; [|split; [done|]].
  - unfold sp_insert. rewrite <- EL, <- ER, !fmap_app. cbn. by destruct p.
  - intros q n Hq Hn. assert (q ≠ x) as Hqx by (intros ->; congruence). split; [by rewrite Hf|].
    rewrite !fmap_app in Hn |- *. cbn [fmap list_fmap app]. set_solver.
Qed.

Lemma eq_elt_sym (a b : elt) : eq_elt a b = eq_elt b a.
Proof using All. unfold eq_elt. rewrite score_eq_sym. f_equal. by apply bool_decide_ext. Qed.

Lemma delete_ok p es : eok es → eok (sp_delete p es).
Proof using Type.
  intros [H1 H2 H3]. split.
  - unfold esorted, sp_delete in *. clear -H1. induction H1 as [|a es H1 IH Ha]; [constructor|].
    rewrite filter_cons. destruct (decide _); [|done]. constructor; [done|]. apply Forall_forall.
    intros b [_ Hb]%list_elem_of_filter. rewrite Forall_forall in Ha. by apply Ha.
  - apply Forall_forall. intros e [_ He]%list_elem_of_filter. rewrite Forall_forall in H2. by apply H2.
  - eapply sublist_NoDup; [exact H3|]. apply fmap_sublist, sublist_filter.
Qed.

Lemma zslFreeNode_spec h z xs x n :
  zowns h z xs → h !! x = Some n → x ∉ header z :: (zl <$> xs) →
  zslFreeNode h x = Some (delete x h, obj n) ∧ zowns (delete x h) z xs.
Proof using Type.
  intros Hz Hn Hx. unfold zslFreeNode. rewrite Hn. split; [done|]. eapply zowns_frame; [done|].
  intros q Hq. apply lookup_delete_ne. by intros ->.
Qed.

(** The first element at or after [p] is [p] itself or there is none. *)
Lemma cut_found es p e es' :
  esorted es → filter (λ e, lt_elt e p = false) es = e :: es' → eq_elt e p = true →
  sp_has p es = true ∧ sp_delete p es = filter (λ e, lt_elt e p = true) es ++ es'.
Proof using All.
  intros Hs E He. pose proof (sorted_cut id (λ e, lt_elt e p) es) as Ec. rewrite list_fmap_id in Ec. cbn in Ec.
  assert (es = filter (λ e, lt_elt e p = true) es ++ e :: es') as Ees.
  { rewrite <- E. apply Ec; [done|]. intros a b _ _ Hab Hb. by eapply lt_elt_trans. }
  split.
  - apply existsb_exists. exists e. split; [|done]. apply list_elem_of_In.
    rewrite Ees. apply elem_of_app. right. by left.
  - unfold sp_delete. rewrite Ees at 1. rewrite filter_app, filter_cons, decide_False by congruence.
    rewrite Ees in Hs. apply esorted_app in Hs as (_ & Hs & _). apply StronglySorted_inv in Hs as [_ Hs].
    f_equal; apply filter_all, Forall_forall.
    + intros a [Ha _]%list_elem_of_filter. by destruct (elt_trichotomy a p) as [(_ & ? & _)|[(? & _)|(? & _)]]; [|congruence..].
    + intros a Ha. rewrite Forall_forall in Hs. specialize (Hs a Ha). apply not_true_is_false. intros Ea.
      assert (lt_elt p a = true) as Hpa.
      { exact (eq_lt_elt e p a He Hs). }
      rewrite eq_elt_sym in Ea. by destruct (elt_trichotomy p a) as [(_ & ? & _)|[(? & _)|(? & _)]]; congruence.
Qed.

Lemma cut_not_found es p :
  esorted es → (∀ e es', filter (λ e, lt_elt e p = false) es = e :: es' → eq_elt e p = false) →
  sp_has p es = false ∧ sp_delete p es = es.
Proof using All.
  intros Hs Hn. assert (Forall (λ e, eq_elt e p = false) es) as Hall.
  { apply Forall_forall. intros a Ha.
    destruct (elt_trichotomy a p) as [(_ & ? & _)|[(E1 & E2 & _)|(_ & ? & _)]]; [done| |done]. exfalso.
    assert (a ∈ filter (λ e, lt_elt e p = false) es) as Hin by (by apply list_elem_of_filter).
    destruct (filter (λ e, lt_elt e p = false) es) as [|e es'] eqn:E; [by apply not_elem_of_nil in Hin|].
    pose proof (Hn e es' eq_refl) as He. apply elem_of_cons in Hin as [-> |Hin]; [congruence|].
    assert (esorted (e :: es')) as Hs'.
    { pose proof (sorted_cut id (λ e, lt_elt e p) es) as Ec. rewrite list_fmap_id in Ec. cbn in Ec.
      rewrite Ec, E in Hs; [by apply esorted_app in Hs as (_ & ? & _)|done|intros x y _ _ Hxy Hy; by eapply lt_elt_trans]. }
    apply StronglySorted_inv in Hs' as [_ Hs']. rewrite Forall_forall in Hs'. specialize (Hs' a Hin).
    assert (e ∈ filter (λ e, lt_elt e p = false) es) as Hef by (rewrite E; by left).
    apply list_elem_of_filter in Hef as [Hef _].
    destruct (elt_trichotomy e p) as [(? & _)|[(_ & ? & _)|(_ & _ & Hpe)]]; [congruence..|].
    destruct (elt_trichotomy a p) as [(? & _)|[(_ & _ & X)|(_ & ? & _)]]; [congruence| |congruence].
    by rewrite (lt_elt_trans p e a Hpe Hs') in X. }
  split; [|by apply filter_all]. apply not_true_is_false. intros (e & He & E)%existsb_exists.
  apply list_elem_of_In in He. rewrite Forall_forall in Hall. specialize (Hall e He). cbn in Hall. congruence.
Qed.

Lemma ok_obj xs y : eok (el <$> xs) → y ∈ xs → obj_ok (zo y).
Proof using Type.
  intros Hok Hy. pose proof (ok_objs _ Hok) as Ho. rewrite Forall_fmap, Forall_forall in Ho. by apply Ho.
Qed.

Lemma head_level h z L R : zowns h z (L ++ R) → get_level h (hdl (header z) L) 0 = Some (link 0 R).
Proof using Type.
  intros Hz. pose proof (zo_level _ _ _ Hz). apply (zo_levels _ _ _ Hz); [lia|done|].
  destruct L as [|y L _] using rev_ind; [unfold hht; cbn; unfold ZSKIPLIST_MAXLEVEL; lia|]. rewrite hht_snoc.
  pose proof (zo_heights _ _ _ Hz) as Hh. rewrite !Forall_app in Hh. destruct Hh as [[_ Hh] _].
  apply Forall_cons in Hh as [Hh _]. lia.
Qed.
Lemma head_forward h z L R : zowns h z (L ++ R) → forward (link 0 R) = zl <$> head R.
Proof using Type.
  intros Hz. apply link_0. pose proof (zo_heights _ _ _ Hz) as Hh. apply Forall_app in Hh as [_ Hh].
  eapply Forall_impl; [exact Hh|]. cbn. lia.
Qed.

Lemma zslDelete_sorted h z xs p :
  zowns h z xs → eok (el <$> xs) → obj_ok p.2 →
  ∃ h' z' xs', zslDelete memcmp buf h z p.1 p.2 = Some (h', z', sp_has p (el <$> xs)) ∧ zowns h' z' xs' ∧
    el <$> xs' = sp_delete p (el <$> xs) ∧ header z' = header z ∧ foreign h z xs h' xs'.
Proof using All.
  intros Hz Hok Hp. destruct (cut_lt xs p Hok Hp) as (L & R & -> & EL & ER & Ht).
  destruct (search_spec (before memcmp buf p.1 p.2) 64 h z L R Hz Ht) as (us & E & Hus & Hu0); [lia|].
  unfold zslDelete. rewrite E. cbn [mbind option_bind]. rewrite Hu0. cbn [mbind option_bind].
  rewrite (head_level h z L R Hz). cbn [mbind option_bind]. rewrite (head_forward h z L R Hz).
  pose proof (ok_sorted _ Hok) as Hs. destruct R as [|r R]; cbn [head fmap option_fmap option_map].
  { destruct (cut_not_found (el <$> L ++ []) p Hs) as [-> ->]; [intros e es'; by rewrite <- ER|].
    exists h, z, (L ++ []). split; [done|]. split; [done|]. split; [done|]. split; [done|apply zforeign_refl]. }
  destruct (node_at h _ L r R (zo_nodes _ _ _ Hz) eq_refl) as (n & Hn & Ho & Hsc & _).
  rewrite Hn. cbn [mbind option_bind].
  assert ((if score_eqb p.1 (score n) then no ← obj n; equalStringObjects memcmp buf no p.2 else Some false) =
    Some (eq_elt (el r) p)) as ->.
  { rewrite Ho, Hsc. unfold eq_elt. cbn [el fst snd]. rewrite score_eq_sym.
    destruct (score_eqb (zs r) p.1); [|done]. cbn [mbind option_bind andb].
    apply equalStringObjects_spec; [done|done| |done]. eapply ok_obj; [done|]. apply elem_of_app. right. by left. }
  cbn [mbind option_bind]. cbn [fmap list_fmap] in ER. destruct (eq_elt (el r) p) eqn:Eq.
  - destruct (cut_found (el <$> L ++ r :: R) p (el r) (el <$> R) Hs (eq_sym ER) Eq) as [-> ->].
    destruct (zslDeleteNode_spec h z L R r us.*1 Hz (us_upd _ _ _ _ Hus)) as (h1 & z1 & -> & Hz1 & Hh & _ & Hf).
    cbn [mbind option_bind].
    assert (zl r ∉ header z :: (zl <$> L ++ R)) as Hr.
    { pose proof (nodup_apart _ _ _ _ (zo_nodup _ _ _ Hz)) as Hap. rewrite not_elem_of_cons. split.
      - intros Er. by destruct (ap_hd _ _ _ _ Hap) as [? _].
      - intros (y & Ey & Hy)%list_elem_of_fmap. by apply (ap_new _ _ _ _ Hap y). }
    destruct (zslFreeNode_spec h1 z1 (L ++ R) (zl r) n Hz1) as [-> Hz2]; [by rewrite Hf|by rewrite Hh|].
    cbn [mbind option_bind]. exists (delete (zl r) h1), z1, (L ++ R). split; [done|]. split; [done|].
    split; [by rewrite fmap_app, EL|]. split; [done|]. intros q m Hq Hqn.
    assert (q ∉ header z :: (zl <$> L ++ R) ∧ q ≠ zl r) as [Hq1 Hq2].
    { rewrite !fmap_app in Hqn |- *. cbn [fmap list_fmap] in Hqn. set_solver. }
    split; [|done]. rewrite lookup_delete_ne by done. by rewrite Hf.
  - destruct (cut_not_found (el <$> L ++ r :: R) p Hs) as [-> ->].
    { intros e es'. rewrite <- ER. by intros [= <- _]. }
    exists h, z, (L ++ r :: R). split; [done|]. split; [done|]. split; [done|]. split; [done|apply zforeign_refl].
Qed.

(** ** Ranks *)

Definition sp_rank p es : Z :=
  if sp_has p es then zlen (filter (λ e, lt_elt p e = false) es) else 0.

Lemma node_last h z A M R :
  zowns h z ((A ++ M) ++ R) →
  ∃ n, h !! hdl (header z) A = Some n ∧ obj n = zo <$> last A.
Proof using Type.
  intros Hz. destruct A as [|y A _] using rev_ind.
  - destruct (zo_header _ _ _ Hz) as (n & Hn & Ho). exists n. done.
  - destruct (node_at h _ A y (M ++ R) (zo_nodes _ _ _ Hz)) as (n & Hn & Ho & _); [by rewrite <- !app_assoc|].
    exists n. by rewrite hdl_snoc, last_snoc.
Qed.

(** Two members with one string are one element. *)
Lemma same_member xs y y' A B A' B' :
  eok (el <$> xs) → xs = A ++ y :: B → xs = A' ++ y' :: B' → obj_string (zo y) = obj_string (zo y') → A = A'.
Proof using Type.
  intros Hok E1 E2 Es. pose proof (ok_members _ Hok) as Hnd. rewrite <- list_fmap_compose in Hnd.
  assert (length A = length A') as Hl.
  { eapply NoDup_lookup; [exact Hnd|..]; rewrite list_lookup_fmap.
    - rewrite E1, lookup_app_r, Nat.sub_diag by lia. done.
    - rewrite E2, lookup_app_r, Nat.sub_diag by lia. cbn. f_equal. symmetry. exact Es. }
  rewrite E1 in E2. by apply app_inj_1 in E2 as [? _].
Qed.

Lemma rank_loop_spec h z L R p (found : bool) fuel n A M :
  zowns h z (L ++ R) → test_ok (not_after memcmp buf p.1 p.2) (L ++ R) L → eok (el <$> L ++ R) → obj_ok p.2 →
  (if found then ∃ L0 e, L = L0 ++ [e] ∧ obj_string (zo e) = obj_string p.2
   else eobj p ∉ eobj <$> (el <$> L ++ R)) →
  (n ≤ level z)%nat → (found = true → 1 ≤ n)%nat → L = A ++ M → (n ≤ hht A)%nat → (length L < fuel)%nat →
  rank_loop memcmp buf h p.2 (not_after memcmp buf p.1 p.2) fuel n (hdl (header z) A) (zlen A) =
    Some (if found then zlen L else 0).
Proof using All.
  intros Hz Ht Hok Hp Hfound. revert A M. induction n as [|n IH]; intros A M Hn Hn1 EL HA Hf.
  { destruct found; [by specialize (Hn1 eq_refl); lia|done]. }
  cbn [rank_loop].
  destruct (walk_spec (not_after memcmp buf p.1 p.2) 64 h z L R n fuel A M Hz Ht) as (A' & M' & E' & Hpr & Hl & ->);
    [lia|lia|done|lia|rewrite EL, length_app in Hf; lia|].
  cbn [mbind option_bind]. destruct (node_last h z A' M' R) as (nd & -> & Ho); [by rewrite <- E'|].
  cbn [mbind option_bind]. rewrite Ho.
  assert (∀ B, match zo <$> last A' with Some no => equalStringObjects memcmp buf no p.2 | None => Some false end = Some B →
    (if B then A' = L ∧ found = true else n = 0%nat → found = false) →
    (eq ← match zo <$> last A' with Some no => equalStringObjects memcmp buf no p.2 | None => Some false end;
     if (eq : bool) then Some (zlen A') else
     rank_loop memcmp buf h p.2 (not_after memcmp buf p.1 p.2) fuel n (hdl (header z) A') (zlen A')) =
    Some (if found then zlen L else 0)) as Hstep.
  { intros B -> HB. cbn [mbind option_bind]. destruct B; [by destruct HB as [-> ->]|].
    destruct (decide (n = 0%nat)) as [-> |Hn0]; [by rewrite HB|].
    apply (IH A' M'); [lia|lia|done|destruct Hpr; lia|done]. }
  destruct A' as [|y A' _] using rev_ind.
  - apply (Hstep false); [done|]. intros ->. destruct found; [|done]. destruct Hfound as (L0 & e & -> & _).
    assert (M' = []) as ->; [|by destruct L0]. eapply is_pred_0; [|done].
    pose proof (zo_heights _ _ _ Hz) as Hh. rewrite E' in Hh. apply Forall_app in Hh as [Hh _].
    eapply Forall_impl; [exact Hh|]. cbn. lia.
  - rewrite last_snoc in *. cbn [fmap option_fmap option_map] in *.
    assert (y ∈ L ++ R) as Hy by (rewrite E', !elem_of_app; left; left; right; by left).
    apply (Hstep (bool_decide (obj_string (zo y) = obj_string p.2))).
    { apply equalStringObjects_spec; [done|done|by eapply ok_obj|done]. }
    case_bool_decide as Es.
    + destruct found; [|exfalso; apply Hfound; unfold eobj at 1; rewrite <- Es; rewrite <- list_fmap_compose;
        by apply (list_elem_of_fmap_2 (eobj ∘ el) _ y)].
      split; [|done]. destruct Hfound as (L0 & e & -> & Ee).
      assert (A' = L0) as ->.
      { eapply (same_member ((L0 ++ [e]) ++ R) y e A' (M' ++ R) L0 R Hok); [|by rewrite <- app_assoc|congruence].
        by rewrite E', <- !app_assoc. }
      rewrite <- app_assoc in E'. apply app_inv_head in E'. by injection E' as ->.
    + intros ->. destruct found; [|done]. exfalso. destruct Hfound as (L0 & e & -> & Ee).
      assert (M' = []) as ->.
      { eapply is_pred_0; [|done]. pose proof (zo_heights _ _ _ Hz) as Hh. rewrite E', !Forall_app in Hh.
        destruct Hh as [[_ Hh] _]. eapply Forall_impl; [exact Hh|]. cbn. lia. }
      rewrite app_nil_r in E'. apply app_inj_tail in E' as [_ ->]. done.
Qed.

Lemma zslGetRank_sorted h z xs p :
  zowns h z xs → eok (el <$> xs) → obj_ok p.2 → sp_has p (el <$> xs) = true ∨ eobj p ∉ eobj <$> (el <$> xs) →
  zslGetRank memcmp buf h z p.1 p.2 = Some (sp_rank p (el <$> xs)).
Proof using All.
  intros Hz Hok Hp Hmem. set (f := λ e, negb (lt_elt p e)).
  assert (xs = filter (λ y, f (el y) = true) xs ++ filter (λ y, f (el y) = false) xs) as E.
  { apply (sorted_cut el f); [apply Hok|]. unfold f. intros a b _ _ Hab. rewrite !negb_true_iff. intros Hb.
    apply not_true_is_false. intros Ha. by rewrite (lt_elt_trans p a b Ha Hab) in Hb. }
  set (L := filter (λ y, f (el y) = true) xs) in *. set (R := filter (λ y, f (el y) = false) xs) in *.
  assert (zlen (filter (λ e, lt_elt p e = false) (el <$> xs)) = zlen L) as HlenL.
  { rewrite filter_fmap. unfold L, zlen. rewrite length_fmap. do 2 f_equal. apply list_filter_iff.
    intros y. unfold f. by rewrite negb_true_iff. }
  assert (test_ok (not_after memcmp buf p.1 p.2) (L ++ R) L) as Ht.
  { apply (test_elem (λ y, f (el y))); [apply filter_forall..|]. intros y r s n Hy Ho Hs.
    apply not_after_test; [done| |done|done]. rewrite <- E in Hy. by eapply ok_obj. }
  assert (if sp_has p (el <$> xs) then ∃ L0 e, L = L0 ++ [e] ∧ obj_string (zo e) = obj_string p.2
    else eobj p ∉ eobj <$> (el <$> L ++ R)) as Hfound.
  { destruct (sp_has p (el <$> xs)) eqn:Eh; [|rewrite <- E; by destruct Hmem].
    apply existsb_exists in Eh as (a & Ha%list_elem_of_In & Ea).
    apply list_elem_of_fmap in Ha as (e & -> & He). rewrite E in Hok.
    assert (e ∈ L) as HeL.
    { apply list_elem_of_filter. split; [|done]. unfold f. rewrite negb_true_iff.
      by destruct (elt_trichotomy (el e) p) as [(_ & ? & _)|[(_ & _ & ?)|(_ & ? & _)]]; [congruence|done|congruence]. }
    apply list_elem_of_split in HeL as (L0 & L1 & EL). destruct L1 as [|e' L1].
    - exists L0, e. split; [done|]. unfold eq_elt in Ea. by apply andb_true_iff in Ea as [_ Ea%bool_decide_eq_true].
    - exfalso. assert (e' ∈ L) as He' by (rewrite EL; apply elem_of_app; right; right; by left).
      apply list_elem_of_filter in He' as [He' _]. unfold f in He'. rewrite negb_true_iff in He'.
      pose proof (ok_sorted _ Hok) as Hs. rewrite EL, <- app_assoc, fmap_app in Hs. apply esorted_app in Hs as (_ & Hs & _).
      apply StronglySorted_inv in Hs as [_ Hs]. apply Forall_cons in Hs as [Hs _].
      by rewrite (eq_lt_elt (el e) p (el e') Ea Hs) in He'. }
  unfold zslGetRank, sp_rank. rewrite HlenL. pose proof (zo_level _ _ _ Hz) as Hlev.
  rewrite E in Hz, Hok. change (header z) with (hdl (header z) ([] : list zel)). change 0 with (zlen ([] : list zel)) at 1.
  apply (rank_loop_spec h z L R p (sp_has p (el <$> xs)) _ (level z) [] L Hz Ht Hok Hp Hfound); [lia|lia|done|unfold hht; cbn; lia|].
  rewrite (zo_len _ _ _ Hz). unfold zlen. rewrite length_app. lia.
Qed.

(** From 1; [None] past the end. *)
Definition sp_by_rank (rank : Z) es : option elt := es !! Z.to_nat (rank - 1).

(** ** Ranges *)

(** A range is given by a lower test [ge] and an upper test [le] that follow the
    order of the elements. *)
Record range_tests es (ge le : elt → bool) : Prop := {
  ge_up : ∀ a b, a ∈ es → b ∈ es → lt_elt a b = true → ge a = true → ge b = true;
  le_down : ∀ a b, a ∈ es → b ∈ es → lt_elt a b = true → le b = true → le a = true
}.
Definition in_range (ge le : elt → bool) (e : elt) : bool := ge e && le e.
Definition sp_range (ge le : elt → bool) es : list elt := filter (λ e, in_range ge le e = true) es.

Lemma range_split ge le xs :
  eok (el <$> xs) → range_tests (el <$> xs) ge le →
  ∃ L I R, xs = L ++ I ++ R ∧ Forall (λ y, ge (el y) = false) L ∧
    Forall (λ y, ge (el y) = true) (I ++ R) ∧ Forall (λ y, le (el y) = true) I ∧ Forall (λ y, le (el y) = false) R ∧
    sp_range ge le (el <$> xs) = el <$> I.
Proof using Type.
  intros Hok [Hge Hle]. set (f := λ e, negb (ge e)).
  assert (xs = filter (λ y, f (el y) = true) xs ++ filter (λ y, f (el y) = false) xs) as E.
  { apply (sorted_cut el f); [apply Hok|]. unfold f. intros a b Hia Hib Hab. rewrite !negb_true_iff. intros Hb.
    apply not_true_is_false. intros Ha. by rewrite (Hge a b Hia Hib Hab Ha) in Hb. }
  set (L := filter (λ y, f (el y) = true) xs) in *. set (G := filter (λ y, f (el y) = false) xs) in *.
  assert (Forall (λ y, ge (el y) = false) L) as HL.
  { eapply Forall_impl; [apply filter_forall|]. unfold f. intros y. cbn. by rewrite negb_true_iff. }
  assert (Forall (λ y, ge (el y) = true) G) as HG.
  { eapply Forall_impl; [apply filter_forall|]. unfold f. intros y. cbn. by rewrite negb_false_iff. }
  clearbody L G. pose proof (ok_sorted _ Hok) as Hs. rewrite E, fmap_app in Hs. apply esorted_app in Hs as (_ & HsG & _).
  assert (G = filter (λ y, le (el y) = true) G ++ filter (λ y, le (el y) = false) G) as EG.
  { apply sorted_cut; [done|]. intros a b Ha Hb. apply Hle; rewrite E, fmap_app, elem_of_app; by right. }
  exists L, (filter (λ y, le (el y) = true) G), (filter (λ y, le (el y) = false) G).
  rewrite <- EG. split; [done|]. split; [done|]. split; [done|]. split; [apply filter_forall|]. split; [apply filter_forall|].
  unfold sp_range. rewrite E, fmap_app, filter_app, !filter_fmap, (filter_none _ L).
  - cbn [app fmap list_fmap]. f_equal. apply filter_ext_in. intros y Hy. rewrite Forall_forall in HG.
    unfold in_range. by rewrite (HG y Hy).
  - eapply Forall_impl; [exact HL|]. unfold in_range. cbn. intros y ->. done.
Qed.

Lemma first_scan h z xs ge le t :
  zowns h z xs → eok (el <$> xs) → range_tests (el <$> xs) ge le →
  (∀ y n r s, y ∈ xs → obj n = Some (zo y) → score n = zs y → t r s n = Some (negb (ge (el y)))) →
  (∃ y, y ∈ xs ∧ ge (el y) = true) →
  ∃ us x0 k lv y n, search t 64 h z = Some us ∧ us !! 0%nat = Some (x0, k) ∧ get_level h x0 0 = Some lv ∧
    forward lv = Some (zl y) ∧ h !! zl y = Some n ∧ obj n = Some (zo y) ∧ score n = zs y ∧ y ∈ xs ∧
    head (sp_range ge le (el <$> xs)) = if le (el y) then Some (el y) else None.
Proof using Type.
  intros Hz Hok Hr Ht (y0 & Hy0 & Hge0). destruct (range_split ge le xs Hok Hr) as (L & I & R & E & HL & HG & HI & HR & ->).
  assert (test_ok t (L ++ I ++ R) L) as Htest.
  { apply (test_elem (λ y, negb (ge (el y)))).
    - eapply Forall_impl; [exact HL|]. cbn. by intros y ->.
    - eapply Forall_impl; [exact HG|]. cbn. by intros y ->.
    - intros y r s n Hy. rewrite <- E in Hy. by apply Ht. }
  rewrite E in Hz. destruct (search_spec t 64 h z L (I ++ R) Hz Htest ltac:(lia)) as (us & Eus & _ & Hu0).
  destruct (I ++ R) as [|y G] eqn:EG.
  { exfalso. rewrite app_nil_r in E. subst xs. rewrite Forall_forall in HL. by rewrite (HL y0 Hy0) in Hge0. }
  destruct (node_at h _ L y G (zo_nodes _ _ _ Hz) eq_refl) as (n & Hn & Ho & Hs & _).
  exists us, (hdl (header z) L), (zlen L), (link 0 (y :: G)), y, n.
  split; [done|]. split; [done|]. split; [by apply head_level|]. split; [by rewrite (head_forward h z L (y :: G))|].
  split; [done|]. split; [done|]. split; [done|]. split; [rewrite E; apply elem_of_app; right; by left|].
  destruct I as [|i I]; cbn [app] in EG.
  - subst R. apply Forall_cons in HR as [-> _]. done.
  - injection EG as -> _. apply Forall_cons in HI as [-> _]. done.
Qed.

Lemma last_scan h z xs ge le t :
  zowns h z xs → eok (el <$> xs) → range_tests (el <$> xs) ge le →
  (∀ y n r s, y ∈ xs → obj n = Some (zo y) → score n = zs y → t r s n = Some (le (el y))) →
  (∃ y, y ∈ xs ∧ le (el y) = true) →
  ∃ us k y n, search t 64 h z = Some us ∧ us !! 0%nat = Some (zl y, k) ∧
    h !! zl y = Some n ∧ obj n = Some (zo y) ∧ score n = zs y ∧ y ∈ xs ∧
    last (sp_range ge le (el <$> xs)) = if ge (el y) then Some (el y) else None.
Proof using Type.
  intros Hz Hok Hr Ht (y0 & Hy0 & Hle0).
  assert (xs = filter (λ y, le (el y) = true) xs ++ filter (λ y, le (el y) = false) xs) as E.
  { apply (sorted_cut el le); [apply Hok|apply Hr]. }
  set (L := filter (λ y, le (el y) = true) xs) in *. set (R := filter (λ y, le (el y) = false) xs) in *.
  assert (test_ok t (L ++ R) L) as Htest.
  { apply (test_elem (λ y, le (el y))); [apply filter_forall..|]. intros y r s n Hy. rewrite <- E in Hy. by apply Ht. }
  rewrite E in Hz. destruct (search_spec t 64 h z L R Hz Htest ltac:(lia)) as (us & Eus & _ & Hu0).
  assert (y0 ∈ L) as HyL by by apply list_elem_of_filter.
  assert (Forall (λ y, le (el y) = true) L) as HL by apply filter_forall.
  assert (Forall (λ y, le (el y) = false) R) as HR by apply filter_forall.
  clearbody L R. destruct L as [|y L _] using rev_ind; [by apply not_elem_of_nil in HyL|]. rewrite hdl_snoc in Hu0.
  destruct (node_at h _ L y R (zo_nodes _ _ _ Hz)) as (n & Hn & Ho & Hs & _); [by rewrite <- app_assoc|].
  exists us, (zlen (L ++ [y])), y, n. split; [done|]. split; [done|]. split; [done|]. split; [done|]. split; [done|].
  split; [rewrite E, !elem_of_app; left; right; by left|]. unfold sp_range. rewrite E, filter_fmap, filter_app.
  rewrite (filter_none _ R), app_nil_r, filter_app, filter_cons, filter_nil.
  2: { eapply Forall_impl; [exact HR|]. unfold in_range. cbn. intros a ->. by rewrite andb_false_r. }
  apply Forall_app in HL as [HL Hy]. apply Forall_cons in Hy as [Hy _].
  assert (in_range ge le (el y) = ge (el y)) as Ei by (unfold in_range; by rewrite Hy, andb_true_r).
  destruct (ge (el y)) eqn:Eg.
  - rewrite decide_True by done. rewrite fmap_app. apply last_snoc.
  - rewrite decide_False by congruence. rewrite app_nil_r, filter_none; [done|]. apply Forall_forall. intros a Ha.
    unfold in_range. intros [Ea _]%andb_true_iff. pose proof (ok_sorted _ Hok) as Hso. rewrite E, !fmap_app in Hso.
    apply esorted_app in Hso as (Hso & _). apply esorted_app in Hso as (_ & _ & Hso).
    rewrite (ge_up _ _ _ Hr (el a) (el y)) in Eg; [done|..|done].
    + rewrite E, !fmap_app, !elem_of_app. left. left. by apply list_elem_of_fmap_2.
    + rewrite E, !fmap_app, !elem_of_app. left. right. by left.
    + apply Hso; [by apply list_elem_of_fmap_2|by left].
Qed.

Lemma range_nil ge le es : (∀ e, e ∈ es → in_range ge le e = false) → sp_range ge le es = [].
Proof using Type. intros Hn. apply filter_none, Forall_forall. intros e He. by rewrite Hn. Qed.

Lemma range_ends ge le xs y0 xs' y1 xs'' :
  eok (el <$> xs) → range_tests (el <$> xs) ge le → xs = y0 :: xs' → xs = xs'' ++ [y1] →
  (ge (el y1) = false → sp_range ge le (el <$> xs) = []) ∧ (le (el y0) = false → sp_range ge le (el <$> xs) = []).
Proof using Type.
  intros Hok [Hge Hle] E0 E1. pose proof (ok_sorted _ Hok) as Hs. split; intros Hf; apply range_nil; intros e He; unfold in_range.
  - pose proof He as Hin. rewrite E1, fmap_app in Hs, He. apply esorted_app in Hs as (_ & _ & Hs). apply elem_of_app in He as [He|He].
    + destruct (ge e) eqn:Hg; [|done]. rewrite (Hge e (el y1)) in Hf; [done|done| |apply Hs; [done|by left]|done].
      rewrite E1, fmap_app, elem_of_app. right. by left.
    + apply elem_of_cons in He as [-> |He]; [by rewrite Hf|by apply not_elem_of_nil in He].
  - pose proof He as Hin. rewrite E0, fmap_cons in Hs, He. apply StronglySorted_inv in Hs as [_ Hs]. rewrite Forall_forall in Hs.
    apply elem_of_cons in He as [-> |He]; [by rewrite Hf, andb_false_r|].
    destruct (le e) eqn:Hg; [|by rewrite andb_false_r]. rewrite (Hle (el y0) e) in Hf; [done| |done|by apply Hs|done].
    rewrite E0. by left.
Qed.

(** The head and the tail of the list. *)
Lemma list_ends h z xs :
  zowns h z xs → (tail z = None ∧ xs = []) ∨
    ∃ y0 xs' y1 xs'' n0 n1, xs = y0 :: xs' ∧ xs = xs'' ++ [y1] ∧ tail z = Some (zl y1) ∧
      get_level h (header z) 0 = Some (link 0 xs) ∧ forward (link 0 xs) = Some (zl y0) ∧
      h !! zl y0 = Some n0 ∧ obj n0 = Some (zo y0) ∧ score n0 = zs y0 ∧
      h !! zl y1 = Some n1 ∧ obj n1 = Some (zo y1) ∧ score n1 = zs y1.
Proof using Type.
  intros Hz. rewrite (zo_tail _ _ _ Hz). destruct xs as [|y0 xs']; [by left|]. right.
  destruct (exists_last (l := y0 :: xs')) as (xs'' & y1 & E1); [done|].
  destruct (node_at h _ [] y0 xs' (zo_nodes _ _ _ Hz) eq_refl) as (n0 & Hn0 & Ho0 & Hs0 & _).
  destruct (node_at h _ xs'' y1 [] (zo_nodes _ _ _ Hz) E1) as (n1 & Hn1 & Ho1 & Hs1 & _).
  exists y0, xs', y1, xs'', n0, n1. split; [done|]. split; [done|]. split; [rewrite E1; by rewrite last_snoc|].
  split; [exact (head_level h z [] (y0 :: xs') Hz)|]. split; [exact (head_forward h z [] (y0 :: xs') Hz)|]. done.
Qed.

(** *** Scores *)

Definition score_ge (r : zrangespec T) (e : elt) : bool := zslValueGteMin e.1 r.
Definition score_le (r : zrangespec T) (e : elt) : bool := zslValueLteMax e.1 r.

Lemma score_leb_not (a b : T) : score_leb a b = negb (score_ltb b a).
Proof using All.
  unfold score_leb. rewrite score_eq_neither. destruct (score_ltb a b) eqn:E; [|done].
  by rewrite (score_lt_asym _ _ E).
Qed.
Lemma score_le_lt (a b c : T) : score_ltb b a = false → score_ltb b c = true → score_ltb a c = true.
Proof using All. intros H1 H2. destruct (score_lt_total _ _ a H2) as [?|?]; congruence. Qed.
Lemma score_lt_le (a b c : T) : score_ltb a b = true → score_ltb c b = false → score_ltb a c = true.
Proof using All. intros H1 H2. destruct (score_lt_total _ _ c H1) as [?|?]; congruence. Qed.
Lemma score_le_trans (a b c : T) : score_ltb b a = false → score_ltb c b = false → score_ltb c a = false.
Proof using All. intros H1 H2. apply not_true_is_false. intros H3. destruct (score_lt_total _ _ b H3); congruence. Qed.
Lemma lt_elt_score (a b : elt) : lt_elt a b = true → score_ltb b.1 a.1 = false.
Proof using All.
  unfold lt_elt. intros [E|[[_ E]%score_eq_cases _]%andb_true_iff]%orb_true_iff; [by apply score_lt_asym|done].
Qed.

Lemma score_tests es r : range_tests es (score_ge r) (score_le r).
Proof using All.
  split; intros a b _ _ Hab%lt_elt_score; unfold score_ge, score_le, zslValueGteMin, zslValueLteMax; rewrite ?score_leb_not.
  - destruct (minex r); [intros Hm; by eapply score_lt_le|]. rewrite !negb_true_iff. intros Hm. by eapply score_le_trans.
  - destruct (maxex r); [intros Hm; by eapply score_le_lt|]. rewrite !negb_true_iff. intros Hm. by eapply score_le_trans.
Qed.

Lemma empty_range r s :
  score_ltb (rmax r) (rmin r) || (score_eqb (rmin r) (rmax r) && (minex r || maxex r)) = true →
  zslValueGteMin s r && zslValueLteMax s r = false.
Proof using All.
  intros He. apply not_true_is_false. intros [H1 H2]%andb_true_iff. revert H1 H2.
  unfold zslValueGteMin, zslValueLteMax. rewrite !score_leb_not. intros H1 H2.
  assert (score_ltb s (rmin r) = false) as Hm.
  { destruct (minex r); [by apply score_lt_asym|by apply negb_true_iff]. }
  assert (score_ltb (rmax r) s = false) as HM.
  { destruct (maxex r); [by apply score_lt_asym|by apply negb_true_iff]. }
  apply orb_true_iff in He as [He|He].
  - by rewrite (score_le_trans (rmin r) s (rmax r) Hm HM) in He.
  - apply andb_true_iff in He as [[E1 E2]%score_eq_cases He]. destruct (minex r).
    + rewrite (score_lt_le (rmin r) s (rmax r)) in E1; done.
    + destruct (maxex r); [|done]. rewrite (score_le_lt (rmin r) s (rmax r)) in E1; done.
Qed.

Lemma zslIsInRange_spec h z xs r :
  zowns h z xs → eok (el <$> xs) →
  ∃ b, zslIsInRange h z r = Some b ∧ (b = false → sp_range (score_ge r) (score_le r) (el <$> xs) = []) ∧
    (b = true → (∃ y, y ∈ xs ∧ score_ge r (el y) = true) ∧ (∃ y, y ∈ xs ∧ score_le r (el y) = true)).
Proof using All.
  intros Hz Hok. unfold zslIsInRange. destruct (_ || _) eqn:Ee.
  { exists false. split; [done|]. split; [|done]. intros _. apply range_nil. intros e He. by apply empty_range. }
  destruct (list_ends h z xs Hz) as [[-> ->]|(y0 & xs' & y1 & xs'' & n0 & n1 & E0 & E1 & -> & Hlv & Hf & Hn0 & Ho0 & Hs0 & Hn1 & Ho1 & Hs1)].
  { exists false. done. }
  rewrite Hn1. cbn [mbind option_bind]. rewrite Hs1. change (zslValueGteMin (zs y1) r) with (score_ge r (el y1)).
  destruct (range_ends _ _ xs y0 xs' y1 xs'' Hok (score_tests _ r) E0 E1) as [R1 R2].
  destruct (score_ge r (el y1)) eqn:Eg; cbn [negb]; [|by exists false; auto].
  rewrite Hlv. cbn [mbind option_bind]. rewrite Hf, Hn0. cbn [mbind option_bind]. rewrite Hs0.
  change (zslValueLteMax (zs y0) r) with (score_le r (el y0)). exists (score_le r (el y0)).
  split; [done|]. split; [done|]. intros Hle. split; [exists y1|exists y0]; (split; [|done]).
  - rewrite E1. apply elem_of_app. right. by left.
  - rewrite E0. by left.
Qed.

Lemma zslFirstInRange_sorted h z xs r :
  zowns h z xs → eok (el <$> xs) →
  ∃ x, zslFirstInRange h z r = Some x ∧
    match x with Some x => ∃ y, y ∈ xs ∧ zl y = x ∧ head (sp_range (score_ge r) (score_le r) (el <$> xs)) = Some (el y)
    | None => sp_range (score_ge r) (score_le r) (el <$> xs) = [] end.
Proof using All.
  intros Hz Hok. unfold zslFirstInRange. destruct (zslIsInRange_spec h z xs r Hz Hok) as (b & -> & Hf & Ht).
  cbn [mbind option_bind]. destruct b; cbn [negb]; [|by exists None; auto]. destruct (Ht eq_refl) as [Hg _].
  destruct (first_scan h z xs _ _ (λ _ _ n, Some (negb (zslValueGteMin (score n) r))) Hz Hok (score_tests _ r))
    as (us & x0 & k & lv & y & n & -> & Hu0 & Hlv & Hfw & Hn & Ho & Hs & Hy & Hh); [|done|].
  { intros y n r0 s _ _ ->. done. }
  cbn [mbind option_bind]. rewrite Hu0. cbn [mbind option_bind]. rewrite Hlv. cbn [mbind option_bind]. rewrite Hfw.
  cbn [mbind option_bind]. rewrite Hn. cbn [mbind option_bind]. rewrite Hs.
  change (zslValueLteMax (zs y) r) with (score_le r (el y)). destruct (score_le r (el y)) eqn:El.
  - exists (Some (zl y)). split; [done|]. by exists y.
  - exists None. split; [done|]. by destruct (sp_range _ _ _).
Qed.

Lemma zslLastInRange_sorted h z xs r :
  zowns h z xs → eok (el <$> xs) →
  ∃ x, zslLastInRange h z r = Some x ∧
    match x with Some x => ∃ y, y ∈ xs ∧ zl y = x ∧ last (sp_range (score_ge r) (score_le r) (el <$> xs)) = Some (el y)
    | None => sp_range (score_ge r) (score_le r) (el <$> xs) = [] end.
Proof using All.
  intros Hz Hok. unfold zslLastInRange. destruct (zslIsInRange_spec h z xs r Hz Hok) as (b & -> & Hf & Ht).
  cbn [mbind option_bind]. destruct b; cbn [negb]; [|by exists None; auto]. destruct (Ht eq_refl) as [_ Hl].
  destruct (last_scan h z xs _ _ (λ _ _ n, Some (zslValueLteMax (score n) r)) Hz Hok (score_tests _ r))
    as (us & k & y & n & -> & Hu0 & Hn & Ho & Hs & Hy & Hh); [|done|].
  { intros y n r0 s _ _ ->. done. }
  cbn [mbind option_bind]. rewrite Hu0. cbn [mbind option_bind]. rewrite Hn. cbn [mbind option_bind]. rewrite Hs.
  change (zslValueGteMin (zs y) r) with (score_ge r (el y)). destruct (score_ge r (el y)) eqn:El.
  - exists (Some (zl y)). split; [done|]. by exists y.
  - exists None. split; [done|]. by apply last_None in Hh.
Qed.

(** *** Strings *)

Definition lex_ge (r : zlexrangespec) (e : elt) : bool :=
  match lmin r with
  | LexMin => true
  | LexMax => false
  | LexObj m => let c := lexcmp (eobj e) (obj_string m) in if lminex r then is_gt c else negb (is_lt c)
  end.
Definition lex_le (r : zlexrangespec) (e : elt) : bool :=
  match lmax r with
  | LexMin => false
  | LexMax => true
  | LexObj m => let c := lexcmp (eobj e) (obj_string m) in if lmaxex r then is_lt c else negb (is_gt c)
  end.
Definition bound_ok (b : lexbound) : Prop := match b with LexObj o => obj_ok o | _ => True end.
Definition lex_ok (r : zlexrangespec) : Prop := bound_ok (lmin r) ∧ bound_ok (lmax r).
Definition one_score es : Prop := ∀ a b, a ∈ es → b ∈ es → score_eqb a.1 b.1 = true.

Lemma gt_0_sign c d : (c ?= 0) = d → (0 <? c) = is_gt d ∧ (0 <=? c) = negb (is_lt d).
Proof using Type.
  intros <-. rewrite <- (Z.compare_antisym 0 c) || rewrite (Z.compare_antisym 0 c). unfold Z.ltb, Z.leb.
  by destruct (0 ?= c).
Qed.

Lemma lex_value o r s :
  obj_ok o → lex_ok r →
  zslLexValueGteMin memcmp buf o r = Some (lex_ge r (s, o)) ∧ zslLexValueLteMax memcmp buf o r = Some (lex_le r (s, o)).
Proof using All.
  intros Ho [H1 H2]. unfold zslLexValueGteMin, zslLexValueLteMax, lex_ge, lex_le, eobj. cbn [fst snd]. split.
  - destruct (lmin r) as [| |m]; cbn; [by destruct (lminex r)..|].
    destruct (compareStringObjects_spec memcmp buf Hbuf o m Ho H1) as (c & -> & Hc). cbn.
    destruct (gt_0_sign _ _ Hc) as [-> ->]. done.
  - destruct (lmax r) as [| |m]; cbn; [by destruct (lmaxex r)..|].
    destruct (compareStringObjects_spec memcmp buf Hbuf o m Ho H2) as (c & -> & Hc). cbn.
    destruct (lt_0_sign _ _ Hc) as [-> ->]. done.
Qed.

Lemma lex_tests es r : one_score es → range_tests es (lex_ge r) (lex_le r).
Proof using All.
  intros H1. assert (∀ a b, a ∈ es → b ∈ es → lt_elt a b = true → lexcmp (eobj a) (eobj b) = Lt) as Hlt.
  { intros a b Ha Hb Hab. unfold lt_elt in Hab. pose proof (H1 a b Ha Hb) as [E _]%score_eq_cases.
    rewrite E in Hab. cbn in Hab. apply andb_true_iff in Hab as [_ Hab]. unfold eobj. by destruct (lexcmp _ _). }
  assert (∀ a b c, lexcmp a b = Lt → lexcmp c a ≠ Gt → lexcmp c b = Lt) as Htr.
  { intros a b c Hab Hca. destruct (lexcmp c a) eqn:E; [apply lexcmp_eq in E; by subst|by eapply lexcmp_lt_trans|done]. }
  split; intros a b Ha Hb Hab; specialize (Hlt a b Ha Hb Hab); unfold lex_ge, lex_le.
  - destruct (lmin r) as [| |m]; [done..|]. rewrite (lexcmp_antisym (obj_string m) (eobj a)), (lexcmp_antisym (obj_string m) (eobj b)).
    intros Hg. assert (lexcmp (obj_string m) (eobj a) ≠ Gt) as Hng.
    { intros E. revert Hg. rewrite E. by destruct (lminex r). }
    rewrite (Htr _ _ _ Hlt Hng). by destruct (lminex r).
  - destruct (lmax r) as [| |m]; [done..|]. intros Hg.
    destruct (lexcmp (eobj b) (obj_string m)) eqn:E.
    + apply lexcmp_eq in E. rewrite <- E, Hlt. by destruct (lmaxex r).
    + rewrite (lexcmp_lt_trans _ _ _ Hlt E). by destruct (lmaxex r).
    + revert Hg. rewrite ?E. by destruct (lmaxex r).
Qed.

(** The case in which [zslIsInLexRange] takes an exclusive string for one of
    the shared bounds. *)
Definition lex_clash (r : zlexrangespec) : bool :=
  (lminex r || lmaxex r) &&
  match lmin r, lmax r with
  | LexMin, LexObj o => bool_decide (obj_string o = str "minstring")
  | LexObj o, LexMax => bool_decide (obj_string o = str "maxstring")
  | _, _ => false
  end.

Lemma empty_lex r c c' e :
  lex_ok r → lex_clash r = false → compareStringObjectsForLexRange memcmp buf (lmin r) (lmax r) = Some c →
  compareStringObjects memcmp buf (lex_object (lmin r)) (lex_object (lmax r)) = Some c' →
  (1 <? c) || ((c' =? 0) && (lminex r || lmaxex r)) = true → in_range (lex_ge r) (lex_le r) e = false.
Proof using All.
  intros [H1 H2] Hcl Hc Hc' He. unfold in_range, lex_ge, lex_le.
  assert (∀ b, bound_ok b → obj_ok (lex_object b)) as Hob by (intros [| |o] Hb; [by vm_compute|by vm_compute|exact Hb]).
  destruct (compareStringObjects_spec memcmp buf Hbuf _ _ (Hob _ H1) (Hob _ H2)) as (d & Hd & Hsign).
  rewrite Hc' in Hd. injection Hd as <-. unfold lex_clash in Hcl.
  destruct (lmin r) as [| |m], (lmax r) as [| |m'] eqn:Em; cbn [lex_object compareStringObjectsForLexRange] in *;
    rewrite ?andb_false_r; try done; try (injection Hc as <-).
  - exfalso. cbn in He. assert (c' =? 0 = false) as E; [|by rewrite E in He].
    apply Z.eqb_neq. intros ->. by vm_compute in Hsign.
  - exfalso. cbn in He. apply andb_true_iff in He as [->%Z.eqb_eq Hex]. rewrite Hex in Hcl. cbn [andb] in Hcl. change (0 ?= 0) with Eq in Hsign.
    symmetry in Hsign. apply lexcmp_eq in Hsign. apply bool_decide_eq_false in Hcl. by rewrite <- Hsign in Hcl.
  - exfalso. cbn in He. apply andb_true_iff in He as [->%Z.eqb_eq Hex]. rewrite Hex in Hcl. cbn [andb] in Hcl. change (0 ?= 0) with Eq in Hsign.
    symmetry in Hsign. apply lexcmp_eq in Hsign. apply bool_decide_eq_false in Hcl. by rewrite Hsign in Hcl.
  - rewrite Hc in Hc'. injection Hc' as ->.
    destruct (lexcmp (eobj e) (obj_string m)) eqn:E1.
    + apply lexcmp_eq in E1. rewrite E1. destruct (lexcmp (obj_string m) (obj_string m')) eqn:E2.
      * apply Z.compare_eq in Hsign as ->. cbn in He. by destruct (lminex r), (lmaxex r).
      * rewrite Z.compare_lt_iff in Hsign. destruct (Z.ltb_spec 1 c'), (Z.eqb_spec c' 0); cbn in He; (done || lia).
      * by destruct (lminex r), (lmaxex r).
    + by destruct (lminex r).
    + assert (lexcmp (obj_string m) (eobj e) = Lt) as Hme by by rewrite lexcmp_antisym, E1.
      assert (lexcmp (obj_string m') (eobj e) = Lt → (if lmaxex r then is_lt (lexcmp (eobj e) (obj_string m'))
        else negb (is_gt (lexcmp (eobj e) (obj_string m')))) = false) as Hgt.
      { intros E. rewrite (lexcmp_antisym (obj_string m')), E. by destruct (lmaxex r). }
      destruct (lexcmp (obj_string m) (obj_string m')) eqn:E2.
      * apply lexcmp_eq in E2. rewrite Hgt by by rewrite <- E2. by rewrite andb_false_r.
      * rewrite Z.compare_lt_iff in Hsign. destruct (Z.ltb_spec 1 c'), (Z.eqb_spec c' 0); cbn in He; (done || lia).
      * rewrite Hgt; [by rewrite andb_false_r|]. eapply lexcmp_lt_trans; [|exact Hme]. by rewrite lexcmp_antisym, E2.
Qed.

Lemma zslIsInLexRange_spec h z xs r :
  zowns h z xs → eok (el <$> xs) → lex_ok r → lex_clash r = false → one_score (el <$> xs) →
  ∃ b, zslIsInLexRange memcmp buf h z r = Some b ∧ (b = false → sp_range (lex_ge r) (lex_le r) (el <$> xs) = []) ∧
    (b = true → (∃ y, y ∈ xs ∧ lex_ge r (el y) = true) ∧ (∃ y, y ∈ xs ∧ lex_le r (el y) = true)).
Proof using All.
  intros Hz Hok Hlex Hcl H1. unfold zslIsInLexRange.
  assert (∃ c, compareStringObjectsForLexRange memcmp buf (lmin r) (lmax r) = Some c) as [c Hc].
  { destruct Hlex as [Ha Hb]. destruct (lmin r) as [| |m], (lmax r) as [| |m']; cbn; eauto.
    destruct (compareStringObjects_spec memcmp buf Hbuf m m' Ha Hb) as (c & -> & _). eauto. }
  assert (∃ c, compareStringObjects memcmp buf (lex_object (lmin r)) (lex_object (lmax r)) = Some c) as [c' Hc'].
  { assert (∀ b, bound_ok b → obj_ok (lex_object b)) as Hob by (intros [| |o] Hb; [by vm_compute|by vm_compute|exact Hb]).
    destruct Hlex as [Ha Hb].
    destruct (compareStringObjects_spec memcmp buf Hbuf _ _ (Hob _ Ha) (Hob _ Hb)) as (c' & -> & _). eauto. }
  rewrite Hc, Hc'. cbn [mbind option_bind]. destruct (_ || _) eqn:Ee.
  { exists false. split; [done|]. split; [|done]. intros _. apply range_nil. intros e He. by eapply empty_lex. }
  destruct (list_ends h z xs Hz) as [[-> ->]|(y0 & xs' & y1 & xs'' & n0 & n1 & E0 & E1 & -> & Hlv & Hf & Hn0 & Ho0 & Hs0 & Hn1 & Ho1 & Hs1)].
  { exists false. done. }
  assert (y0 ∈ xs ∧ y1 ∈ xs) as [Hy0 Hy1].
  { split; [rewrite E0; by left|rewrite E1; apply elem_of_app; right; by left]. }
  rewrite Hn1. cbn [mbind option_bind]. rewrite Ho1. cbn [mbind option_bind].
  destruct (lex_value (zo y1) r (zs y1) (ok_obj _ _ Hok Hy1) Hlex) as [-> _]. cbn [mbind option_bind].
  destruct (range_ends _ _ xs y0 xs' y1 xs'' Hok (lex_tests _ r H1) E0 E1) as [R1 R2]. fold (el y1).
  destruct (lex_ge r (el y1)) eqn:Eg; cbn [negb]; [|by exists false; auto].
  rewrite Hlv. cbn [mbind option_bind]. rewrite Hf, Hn0. cbn [mbind option_bind]. rewrite Ho0. cbn [mbind option_bind].
  destruct (lex_value (zo y0) r (zs y0) (ok_obj _ _ Hok Hy0) Hlex) as [_ ->]. fold (el y0).
  exists (lex_le r (el y0)). split; [done|]. split; [done|]. intros Hle. split; [by exists y1|by exists y0].
Qed.

Lemma zslFirstInLexRange_sorted h z xs r :
  zowns h z xs → eok (el <$> xs) → lex_ok r → lex_clash r = false → one_score (el <$> xs) →
  ∃ x, zslFirstInLexRange memcmp buf h z r = Some x ∧
    match x with Some x => ∃ y, y ∈ xs ∧ zl y = x ∧ head (sp_range (lex_ge r) (lex_le r) (el <$> xs)) = Some (el y)
    | None => sp_range (lex_ge r) (lex_le r) (el <$> xs) = [] end.
Proof using All.
  intros Hz Hok Hlex Hcl H1. unfold zslFirstInLexRange.
  destruct (zslIsInLexRange_spec h z xs r Hz Hok Hlex Hcl H1) as (b & -> & Hf & Ht).
  cbn [mbind option_bind]. destruct b; cbn [negb]; [|by exists None; auto]. destruct (Ht eq_refl) as [Hg _].
  destruct (first_scan h z xs _ _ (λ _ _ n, o ← obj n; negb <$> zslLexValueGteMin memcmp buf o r) Hz Hok (lex_tests _ r H1))
    as (us & x0 & k & lv & y & n & -> & Hu0 & Hlv & Hfw & Hn & Ho & Hs & Hy & Hh); [|done|].
  { intros y n r0 s Hy -> _. cbn [mbind option_bind].
    by destruct (lex_value (zo y) r (zs y) (ok_obj _ _ Hok Hy) Hlex) as [-> _]. }
  cbn [mbind option_bind]. rewrite Hu0. cbn [mbind option_bind]. rewrite Hlv. cbn [mbind option_bind]. rewrite Hfw.
  cbn [mbind option_bind]. rewrite Hn. cbn [mbind option_bind]. rewrite Ho. cbn [mbind option_bind].
  destruct (lex_value (zo y) r (zs y) (ok_obj _ _ Hok Hy) Hlex) as [_ ->]. cbn [mbind option_bind]. fold (el y).
  destruct (lex_le r (el y)) eqn:El.
  - exists (Some (zl y)). split; [done|]. by exists y.
  - exists None. split; [done|]. by destruct (sp_range _ _ _).
Qed.

Lemma zslLastInLexRange_sorted h z xs r :
  zowns h z xs → eok (el <$> xs) → lex_ok r → lex_clash r = false → one_score (el <$> xs) →
  ∃ x, zslLastInLexRange memcmp buf h z r = Some x ∧
    match x with Some x => ∃ y, y ∈ xs ∧ zl y = x ∧ last (sp_range (lex_ge r) (lex_le r) (el <$> xs)) = Some (el y)
    | None => sp_range (lex_ge r) (lex_le r) (el <$> xs) = [] end.
Proof using All.
  intros Hz Hok Hlex Hcl H1. unfold zslLastInLexRange.
  destruct (zslIsInLexRange_spec h z xs r Hz Hok Hlex Hcl H1) as (b & -> & Hf & Ht).
  cbn [mbind option_bind]. destruct b; cbn [negb]; [|by exists None; auto]. destruct (Ht eq_refl) as [_ Hl].
  destruct (last_scan h z xs _ _ (λ _ _ n, o ← obj n; zslLexValueLteMax memcmp buf o r) Hz Hok (lex_tests _ r H1))
    as (us & k & y & n & -> & Hu0 & Hn & Ho & Hs & Hy & Hh); [|done|].
  { intros y n r0 s Hy -> _. cbn [mbind option_bind].
    by destruct (lex_value (zo y) r (zs y) (ok_obj _ _ Hok Hy) Hlex) as [_ ->]. }
  cbn [mbind option_bind]. rewrite Hu0. cbn [mbind option_bind]. rewrite Hn. cbn [mbind option_bind]. rewrite Ho.
  cbn [mbind option_bind]. destruct (lex_value (zo y) r (zs y) (ok_obj _ _ Hok Hy) Hlex) as [-> _].
  cbn [mbind option_bind]. fold (el y). destruct (lex_ge r (el y)) eqn:El.
  - exists (Some (zl y)). split; [done|]. by exists y.
  - exists None. split; [done|]. by apply last_None in Hh.
Qed.

(** ** Deletion of ranges *)

Section delete_range.
Context {D : Type} (dict_delete : D → enc_obj → option D) `{!MemberDict D dict_delete}.

Lemma upd_ok_le hd L n n' update : upd_ok hd L n update → (n' ≤ n)%nat → upd_ok hd L n' update.
Proof using Type. intros Hu Hn i Hi. apply Hu. lia. Qed.

(** The members in [I] are gone from the dictionary. *)
Definition removed_from (d d' : D) (gone : list zel) : Prop :=
  dict_ok d' ∧ ∀ s, dict_member d' s ↔ dict_member d s ∧ s ∉ (obj_string ∘ zo <$> gone).

Lemma delete_loop_spec test fuel h z d L I R update k removed :
  zowns h z (L ++ I ++ R) → upd_ok (header z) L (level z) update → dict_ok d → Forall (λ y, obj_ok (zo y)) I →
  (∀ C y C' n, I = C ++ y :: C' → obj n = Some (zo y) → score n = zs y → test (k + zlen C) n = Some true) →
  (∀ y R' n, R = y :: R' → obj n = Some (zo y) → score n = zs y → test (k + zlen I) n = Some false) →
  (length (I ++ R) ≤ fuel)%nat → 0 ≤ k → 0 ≤ removed → k + zlen I < 2 ^ 64 → removed + zlen I < 2 ^ 64 →
  ∃ h' z' d', delete_loop dict_delete test fuel h z d update (zl <$> head (I ++ R)) k removed =
      Some (h', z', d', removed + zlen I) ∧ zowns h' z' (L ++ R) ∧ header z' = header z ∧
    removed_from d d' I ∧ foreign h z (L ++ I ++ R) h' (L ++ R).
Proof using All.
  revert fuel h z d k removed. induction I as [|y I IH]; intros fuel h z d k removed Hz Hu Hd Ho Ht HtR Hf Hk Hr Hk' Hr'.
  { exists h, z, d. split.
    - rewrite Z.add_0_r. destruct R as [|r R]; [by destruct fuel|]. cbn [app head fmap option_fmap option_map] in *.
      destruct fuel as [|fuel]; [cbn in Hf; lia|]. cbn [delete_loop].
      destruct (node_at h _ L r R (zo_nodes _ _ _ Hz) eq_refl) as (n & -> & Hno & Hns & _). cbn [mbind option_bind].
      pose proof (HtR r R n eq_refl Hno Hns) as Hn. unfold zlen in Hn. cbn in Hn. rewrite Z.add_0_r in Hn. by rewrite Hn.
    - split; [done|]. split; [done|]. split; [|apply zforeign_refl]. split; [done|]. intros s. split; [|tauto].
      intros ?. split; [done|apply not_elem_of_nil]. }
  cbn [app head fmap option_fmap option_map] in *. destruct fuel as [|fuel]; [cbn in Hf; lia|]. cbn [delete_loop].
  destruct (node_at h _ L y (I ++ R) (zo_nodes _ _ _ Hz) eq_refl) as (n & Hn & Hno & Hns & _). rewrite Hn. cbn [mbind option_bind].
  pose proof (Ht [] y I n eq_refl Hno Hns) as Hgo. unfold zlen in Hgo. cbn in Hgo. rewrite Z.add_0_r in Hgo. rewrite Hgo.
  cbn [mbind option_bind].
  assert (get_level h (zl y) 0 = Some (link 0 (I ++ R)) ∧ forward (link 0 (I ++ R)) = zl <$> head (I ++ R)) as [-> Hfw].
  { rewrite <- (hdl_snoc (header z) L y). replace (L ++ y :: I ++ R) with ((L ++ [y]) ++ I ++ R) in Hz by by rewrite <- app_assoc.
    split; [by apply head_level|by eapply head_forward]. }
  cbn [mbind option_bind].
  destruct (zslDeleteNode_spec h z L (I ++ R) y update Hz Hu) as (h1 & z1 & -> & Hz1 & Hh & Hlev & Hfr).
  cbn [mbind option_bind]. rewrite Hno. cbn [mbind option_bind]. apply Forall_cons in Ho as [Hoy Ho].
  destruct (dict_delete_spec d (zo y) Hd Hoy) as (d1 & -> & Hd1 & Hm1). cbn [mbind option_bind].
  assert (zl y ∉ header z :: (zl <$> L ++ I ++ R)) as Hy.
  { pose proof (nodup_apart _ _ _ _ (zo_nodup _ _ _ Hz)) as Hap. rewrite not_elem_of_cons. split.
    - intros Er. by destruct (ap_hd _ _ _ _ Hap) as [? _].
    - intros (y' & Ey & Hy')%list_elem_of_fmap. by apply (ap_new _ _ _ _ Hap y'). }
  destruct (zslFreeNode_spec h1 z1 (L ++ I ++ R) (zl y) n Hz1) as [-> Hz2]; [by rewrite Hfr|by rewrite Hh|].
  cbn [mbind option_bind]. rewrite Hfw. assert (0 ≤ zlen I) by (unfold zlen; lia).
  assert (zlen (y :: I) = zlen I + 1) as Hl1 by len. rewrite Hl1 in *.
  rewrite !wrapu_small by (unfold in_u; lia).
  destruct (IH fuel (delete (zl y) h1) z1 d1 (k + 1) (removed + 1)) as (h' & z' & d' & E & Hz' & Hh' & Hd' & Hf');
    [done| |done|done|..].
  - rewrite Hh. by eapply upd_ok_le.
  - intros C y' C' n' -> Ho' Hs'. replace (k + 1 + zlen C) with (k + zlen (y :: C)) by len.
    by apply (Ht (y :: C) y' C' n').
  - intros y' R' n' -> Ho' Hs'. replace (k + 1 + zlen I) with (k + (zlen I + 1)) by lia. by apply (HtR y' R' n').
  - cbn in Hf. lia.
  - lia.
  - lia.
  - lia.
  - lia.
  - exists h', z', d'. rewrite E. split; [do 2 f_equal; lia|]. split; [done|]. split; [congruence|]. split.
    + destruct Hd' as [Hd' Hm']. split; [done|]. intros s. rewrite Hm', Hm1. cbn [fmap list_fmap compose]. rewrite not_elem_of_cons.
      tauto.
    + unfold foreign in Hf'. rewrite Hh in Hf'. eapply foreign_trans; [|exact Hf'].
      intros q m Hq Hqn.
      assert (q ∉ header z :: (zl <$> L ++ I ++ R) ∧ q ≠ zl y) as [Hq1 Hq2].
      { rewrite !fmap_app in Hqn |- *. cbn [fmap list_fmap] in Hqn. rewrite fmap_app in Hqn. set_solver. }
      split; [|done]. rewrite lookup_delete_ne by done. by rewrite Hfr.
Qed.

(** From the end of the search on. *)
Lemma delete_after_spec test h z d L I R us :
  zowns h z (L ++ I ++ R) → us_ok (header z) L (level z) us → us !! 0%nat = Some (hdl (header z) L, zlen L) →
  dict_ok d → Forall (λ y, obj_ok (zo y)) I →
  (∀ C y C' n, I = C ++ y :: C' → obj n = Some (zo y) → score n = zs y → test (zlen L + 1 + zlen C) n = Some true) →
  (∀ y R' n, R = y :: R' → obj n = Some (zo y) → score n = zs y → test (zlen L + 1 + zlen I) n = Some false) →
  ∃ h' z' d', delete_after dict_delete test h z d us = Some (h', z', d', zlen I) ∧
    zowns h' z' (L ++ R) ∧ header z' = header z ∧ removed_from d d' I ∧ foreign h z (L ++ I ++ R) h' (L ++ R).
Proof using All.
  intros Hz Hus Hu0 Hd Ho Ht HtR. pose proof (zo_bound _ _ _ Hz) as Hb. unfold delete_after. rewrite Hu0. cbn [mbind option_bind].
  rewrite (head_level h z L (I ++ R) Hz). cbn [mbind option_bind]. rewrite (head_forward h z L (I ++ R) Hz).
  assert (0 ≤ zlen L ∧ 0 ≤ zlen I ∧ zlen L + zlen I < 2 ^ 32) as (? & ? & ?) by (revert Hb; len).
  rewrite wrapu_small by (unfold in_u; lia).
  destruct (delete_loop_spec test (Z.to_nat (zlength z)) h z d L I R us.*1 (zlen L + 1) 0 Hz (us_upd _ _ _ _ Hus) Hd Ho Ht HtR)
    as (h' & z' & d' & E & HP); [|lia..|].
  { rewrite (zo_len _ _ _ Hz). unfold zlen. rewrite Nat2Z.id, !length_app. lia. }
  exists h', z', d'. by rewrite E.
Qed.

(** The elements that stay, in terms of the sequence. *)
Definition sp_outside (ge le : elt → bool) es : list elt := filter (λ e, in_range ge le e = false) es.

Lemma outside_split ge le L (I R : list zel) :
  Forall (λ y, ge (el y) = false) L → Forall (λ y, ge (el y) = true) (I ++ R) → Forall (λ y, le (el y) = true) I →
  Forall (λ y, le (el y) = false) R → sp_outside ge le (el <$> L ++ I ++ R) = el <$> L ++ R.
Proof using Type.
  intros HL HG HI HR. apply Forall_app in HG as [HG _]. unfold sp_outside. rewrite filter_fmap, !filter_app. f_equal.
  rewrite (filter_none _ I), (filter_all _ L), (filter_all _ R); [done|..].
  - eapply Forall_impl; [exact HR|]. unfold in_range. cbn. intros y ->. apply andb_false_r.
  - eapply Forall_impl; [exact HL|]. unfold in_range. cbn. by intros y ->.
  - apply Forall_forall. intros y Hy. rewrite Forall_forall in HG, HI. unfold in_range. by rewrite HG, HI.
Qed.

(** The common part of the deletions by score and by member. *)
Lemma delete_range_sorted ge le t1 t2 h z xs d :
  zowns h z xs → eok (el <$> xs) → dict_ok d → range_tests (el <$> xs) ge le →
  (∀ y n r s, y ∈ xs → obj n = Some (zo y) → score n = zs y → t1 r s n = Some (negb (ge (el y)))) →
  (∀ y n r, y ∈ xs → obj n = Some (zo y) → score n = zs y → t2 r n = Some (le (el y))) →
  ∃ h' z' d' xs' gone, (us ← search t1 64 h z; delete_after dict_delete t2 h z d us) = Some (h', z', d', zlen gone) ∧
    zowns h' z' xs' ∧ el <$> gone = sp_range ge le (el <$> xs) ∧ el <$> xs' = sp_outside ge le (el <$> xs) ∧
    header z' = header z ∧ removed_from d d' gone ∧ foreign h z xs h' xs'.
Proof using All.
  intros Hz Hok Hd Hr Ht1 Ht2. destruct (range_split ge le xs Hok Hr) as (L & I & R & E & HL & HG & HI & HR & Hsp).
  assert (test_ok t1 (L ++ I ++ R) L) as Htest.
  { apply (test_elem (λ y, negb (ge (el y)))).
    - eapply Forall_impl; [exact HL|]. cbn. by intros y ->.
    - eapply Forall_impl; [exact HG|]. cbn. by intros y ->.
    - intros y r s n Hy. rewrite <- E in Hy. by apply Ht1. }
  pose proof Hz as Hz0. rewrite E in Hz0. destruct (search_spec t1 64 h z L (I ++ R) Hz0 Htest ltac:(lia)) as (us & -> & Hus & Hu0).
  cbn [mbind option_bind]. rewrite Forall_forall in HI, HR.
  destruct (delete_after_spec t2 h z d L I R us Hz0 Hus Hu0 Hd) as (h' & z' & d' & -> & Hz' & Hh & Hrm & Hf).
  - apply Forall_forall. intros y Hy. eapply ok_obj; [exact Hok|]. rewrite E, !elem_of_app. auto.
  - intros C y C' n EI Hno Hns. assert (y ∈ I) as Hy by (rewrite EI; apply elem_of_app; right; by left).
    rewrite (Ht2 y) by (done || (rewrite E, !elem_of_app; auto)). by rewrite HI.
  - intros y R' n ER Hno Hns. assert (y ∈ R) as Hy by (rewrite ER; by left).
    rewrite (Ht2 y) by (done || (rewrite E, !elem_of_app; auto)). by rewrite HR.
  - exists h', z', d', (L ++ R), I. split; [done|]. split; [done|]. split; [done|].
    split; [rewrite E; symmetry; apply outside_split; (done || by apply Forall_forall)|].
    split; [done|]. split; [done|]. by rewrite E.
Qed.

End delete_range.

End spec.
