(* ===== verification/Zset.v ===== *)
(** * Zset: theorems on the skip lists of sorted sets

    Sequences of operations on a skip list against the sorted sequence, ranges
    of scores and of members, and the deletions of ranges that also update the
    dictionary of the sorted set.  The scores of the witnesses are IEEE 754
    numbers, the dictionary is the one of Dict. *)

From S2P Require Import Prelude Endian NumConv Objects Dict DictFacts DictHash Skiplist SkiplistFacts SkiplistSpec.
From Stdlib Require Import SpecFloat.

(** ** Doubles that are not NaN *)

Definition not_nan (f : spec_float) : bool := match f with S754_nan => false | _ => true end.
Definition double := { f : spec_float | Is_true (not_nan f) }.

#[export] Instance double_order : ScoreOrder double := {
  score_ltb a b := SFltb (`a) (`b);
  score_eqb a b := SFeqb (`a) (`b);
  score_zero := S754_zero false ↾ I
}.

(** The order of doubles is the one of these triples. *)
Definition float_key (f : spec_float) : list Z :=
  match f with
  | S754_nan => []
  | S754_infinity s => [if s then -2 else 2; 0; 0]
  | S754_zero _ => [0; 0; 0]
  | S754_finite s m e => if s then [-1; - e; Z.neg m] else [1; e; Z.pos m]
  end.

Lemma compare_key f g :
  not_nan f = true → not_nan g = true → SFcompare f g = Some (lexcmp (float_key f) (float_key g)).
Proof.
  destruct f as [s|s| |s m e], g as [t|t| |t m' e']; cbn [not_nan]; try done; intros _ _.
  all: repeat match goal with x : bool |- _ => destruct x end; try done; cbn.
  - rewrite Z.compare_opp, (Z.compare_antisym e e').
    destruct (e ?= e'); cbn; [|done..]. unfold Pos.compare. by destruct (Pos.compare_cont Eq m m').
  - destruct (e ?= e'); [|done..]. unfold Pos.compare. by destruct (Pos.compare_cont Eq m m').
Qed.

Lemma double_cmp (a b : double) : SFcompare (`a) (`b) = Some (lexcmp (float_key (`a)) (float_key (`b))).
Proof. destruct a as [f Hf], b as [g Hg]. apply compare_key; by apply Is_true_true. Qed.

#[export] Instance double_laws : ScoreLaws double.
Proof.
  assert (∀ a b : double, score_ltb a b = is_lt (lexcmp (float_key (`a)) (float_key (`b)))) as Hlt.
  { intros a b. unfold score_ltb. cbn. unfold SFltb. rewrite double_cmp. by destruct (lexcmp _ _). }
  split.
  - intros a. rewrite Hlt. by rewrite lexcmp_refl.
  - intros a b c. rewrite !Hlt. intros Hab.
    destruct (lexcmp (float_key (`a)) (float_key (`c))) eqn:E1; [|by left|].
    + apply lexcmp_eq in E1. rewrite <- E1. by right.
    + right. assert (lexcmp (float_key (`c)) (float_key (`a)) = Lt) as E by by rewrite lexcmp_antisym, E1.
      destruct (lexcmp (float_key (`a)) (float_key (`b))) eqn:E2; try done. by rewrite (lexcmp_lt_trans _ _ _ E E2).
  - intros a b. rewrite !Hlt, (lexcmp_antisym (float_key (`a)) (float_key (`b))). unfold score_eqb. cbn. unfold SFeqb.
    rewrite double_cmp. by destruct (lexcmp _ _).
  - intros a b. rewrite !Hlt, (lexcmp_antisym (float_key (`a)) (float_key (`b))). by destruct (lexcmp _ _).
Qed.

(** ** [memcmp] as the difference of the first different bytes *)

Fixpoint memcmp_diff (a b : list Z) : Z :=
  match a, b with
  | c :: a, d :: b => if c =? d then memcmp_diff a b else c - d
  | _, _ => 0
  end.
#[export] Instance memcmp_diff_ok : Memcmp memcmp_diff.
Proof.
  split. induction a as [|c a IH]; intros [|d b] Hl; try done. cbn. destruct (Z.compare_spec c d) as [-> |Hc|Hc].
  - rewrite Z.eqb_refl. apply IH. by injection Hl.
  - destruct (Z.eqb_spec c d); [lia|]. apply Z.compare_lt_iff. lia.
  - destruct (Z.eqb_spec c d); [lia|]. apply Z.compare_gt_iff. lia.
Qed.

(** ** The dictionary of a sorted set

    Its keys are the members: [dictEncObjKeyCompare] compares their strings
    ([dictEncObj_contract]), so the string stands for the key. *)

Section dictionary.
Context {V : Type} (be : host) (seed : Z).

Definition sds_delete (d : dict (list Z) V) (o : enc_obj) : option (dict (list Z) V) :=
  '(d, _, _) ← dictDelete (dictSdsHash be seed) dictSdsKeyCompare d (obj_string o); Some d.

Lemma sds_delete_spec d o :
  in_u 32 seed → dict_wf (dictSdsHash be seed) d →
  ∃ d', sds_delete d o = Some d' ∧ dict_wf (dictSdsHash be seed) d' ∧
    ∀ s, s ∈ de_key <$> ents d' ↔ s ∈ de_key <$> ents d ∧ s ≠ obj_string o.
Proof.
  intros Hseed Hwf. pose proof (sds_keys be seed Hseed) as Hlaws.
  destruct (dictGenericDelete_spec (dictSdsHash be seed) dictSdsKeyCompare (λ k, k) d (obj_string o) false Hwf)
    as (d' & st & fr & E & Hwf' & _ & HP).
  exists d'. unfold sds_delete, dictDelete. rewrite E. split; [done|]. split; [done|]. intros s.
  destruct st.
  - destruct HP as (e & He & HP & _). pose proof (wf_keys _ _ Hwf) as Hnd. rewrite HP in Hnd |- *. cbn in Hnd |- *.
    apply NoDup_cons in Hnd as [Hn _]. rewrite He in Hn. rewrite elem_of_cons, He. split.
    + intros Hs. split; [by right|]. by intros ->.
    + by intros [[-> |?] ?].
  - destruct HP as (HP & Hn & _). rewrite HP. split; [|tauto]. intros Hs. split; [done|]. intros ->.
    apply list_elem_of_fmap in Hs as (e & Ee & He). by apply (Hn e He).
Qed.

(** [MemberDict]: what the skip list expects of [dictDelete]. *)
#[export] Instance sds_member_dict (Hseed : in_u 32 seed) : MemberDict (dict (list Z) V) sds_delete := {
  dict_ok := dict_wf (dictSdsHash be seed);
  dict_member d s := s ∈ de_key <$> ents d;
  dict_delete_spec d o Hd _ := sds_delete_spec d o Hseed Hd
}.

End dictionary.

(** ** Sequences of operations *)

Section run.
Context {T : Type} `{ScoreLaws T} (memcmp : list Z → list Z → Z) `{!Memcmp memcmp} (buf : list Z).
Context (Hbuf : 128 ≤ zlen buf).
Local Notation heap := (gmap loc (zskiplistNode T)).
Local Notation elt := (T * enc_obj)%type.
Implicit Types (h : heap) (z : zskiplist) (es : list elt) (p : elt).

Inductive zslop :=
  | ZIns (rs : list Z) (p : elt)       (* [rs]: the results of [random()] *)
  | ZDel (p : elt)
  | ZRank (p : elt)
  | ZByRank (rank : Z)
  | ZFirst (r : zrangespec T)
  | ZLast (r : zrangespec T).
Inductive zslres := RDone | RFound (b : bool) | RRank (n : Z) | RElt (e : option elt).

(** The score and the member at a pointer. *)
Definition read_node h (x : ptr) : option (option elt) :=
  match x with
  | None => Some None
  | Some x => n ← h !! x; o ← obj n; Some (Some (score n, o))
  end.

Definition run_zslop h z (o : zslop) : option (heap * zskiplist * zslres) :=
  match o with
  | ZIns rs p => '(_, h, z) ← zslInsert memcmp buf rs h z p.1 p.2; Some (h, z, RDone)
  | ZDel p => '(h, z, b) ← zslDelete memcmp buf h z p.1 p.2; Some (h, z, RFound b)
  | ZRank p => n ← zslGetRank memcmp buf h z p.1 p.2; Some (h, z, RRank n)
  | ZByRank rank => x ← zslGetElementByRank h z rank; e ← read_node h x; Some (h, z, RElt e)
  | ZFirst r => x ← zslFirstInRange h z r; e ← read_node h x; Some (h, z, RElt e)
  | ZLast r => x ← zslLastInRange h z r; e ← read_node h x; Some (h, z, RElt e)
  end.
Fixpoint run_zslops h z (ops : list zslop) : option (heap * zskiplist * list zslres) :=
  match ops with
  | [] => Some (h, z, [])
  | o :: ops => '(h, z, r) ← run_zslop h z o; '(h, z, rs) ← run_zslops h z ops; Some (h, z, r :: rs)
  end.

Definition spec_zslop es (o : zslop) : list elt * zslres :=
  match o with
  | ZIns _ p => (sp_insert p es, RDone)
  | ZDel p => (sp_delete p es, RFound (sp_has p es))
  | ZRank p => (es, RRank (sp_rank p es))
  | ZByRank rank => (es, RElt (sp_by_rank rank es))
  | ZFirst r => (es, RElt (head (sp_range (score_ge r) (score_le r) es)))
  | ZLast r => (es, RElt (last (sp_range (score_ge r) (score_le r) es)))
  end.
Fixpoint spec_zslops es (ops : list zslop) : list elt * list zslres :=
  match ops with
  | [] => (es, [])
  | o :: ops => let '(es, r) := spec_zslop es o in let '(es, rs) := spec_zslops es ops in (es, r :: rs)
  end.

(** What the callers guarantee: a new member is not in the set, a rank is asked
    of an element or of a member that is not there, ranks start at 1, the random
    numbers of an insertion are enough for its level.  With another score than the
    one of the member [zslGetRank] may return a rank: see [zsl_rank_other_score]. *)
Definition zslop_ok es (o : zslop) : Prop :=
  match o with
  | ZIns rs p => obj_ok p.2 ∧ eobj p ∉ eobj <$> es ∧ is_Some (zslRandomLevel rs)
  | ZDel p => obj_ok p.2
  | ZRank p => obj_ok p.2 ∧ (sp_has p es = true ∨ eobj p ∉ eobj <$> es)
  | ZByRank rank => 1 ≤ rank
  | ZFirst _ | ZLast _ => True
  end.
Fixpoint zslops_ok es (ops : list zslop) : Prop :=
  match ops with
  | [] => True
  | o :: ops => zslop_ok es o ∧ zslops_ok (spec_zslop es o).1 ops
  end.

#[global] Instance zslop_ok_dec es o : Decision (zslop_ok es o).
Proof. destruct o; cbn; apply _. Defined.
#[global] Instance zslops_ok_dec es ops : Decision (zslops_ok es ops).
Proof. revert es. induction ops as [|o ops IH]; intros es; cbn; apply _. Defined.

Lemma read_el h z xs y : zowns h z xs → y ∈ xs → read_node h (Some (zl y)) = Some (Some (el y)).
Proof using Type.
  intros Hz (A & B & E)%list_elem_of_split. destruct (node_at h xs A y B (zo_nodes _ _ _ Hz) E) as (n & Hn & Ho & Hs & _).
  cbn. rewrite Hn. cbn. rewrite Ho. cbn. by rewrite Hs.
Qed.

Lemma sp_delete_length p es : zlen (sp_delete p es) ≤ zlen es.
Proof using Type. unfold sp_delete, zlen. pose proof (length_filter (λ e, eq_elt e p = false) es). lia. Qed.

Lemma run_zslop_spec h z xs o :
  zowns h z xs → eok (el <$> xs) → zslop_ok (el <$> xs) o → zlen xs + 1 < 2 ^ 32 →
  ∃ h' z' xs' r, run_zslop h z o = Some (h', z', r) ∧ zowns h' z' xs' ∧ eok (el <$> xs') ∧
    spec_zslop (el <$> xs) o = (el <$> xs', r) ∧ header z' = header z ∧ foreign h z xs h' xs' ∧ zlen xs' ≤ zlen xs + 1.
Proof using All.
  intros Hz Hok Ho Hb. destruct o as [rs p|p|p|rank|r|r]; cbn [run_zslop spec_zslop zslop_ok] in *.
  - destruct Ho as (Hp & Hn & [lev Hl]).
    destruct (zslInsert_sorted memcmp buf Hbuf rs lev h z xs p Hz Hok Hp Hl Hb) as (x & h' & z' & xs' & -> & Hz' & Es & Hh & Hf).
    exists h', z', xs', RDone. split; [done|]. split; [done|]. rewrite Es. split; [by apply (insert_ok memcmp buf Hbuf)|]. split; [done|].
    split; [done|]. split; [done|].
    assert (zlen (el <$> xs') = zlen (p :: (el <$> xs))) as Hl'.
    { unfold zlen. f_equal. rewrite Es. apply Permutation_length, (sp_insert_perm memcmp buf Hbuf), Hok. }
    revert Hl'. unfold zlen. cbn. rewrite !length_fmap. lia.
  - destruct (zslDelete_sorted memcmp buf Hbuf h z xs p Hz Hok Ho) as (h' & z' & xs' & -> & Hz' & Es & Hh & Hf).
    do 4 eexists. split; [done|]. split; [done|]. rewrite Es. split; [by apply delete_ok|]. split; [done|].
    split; [done|]. split; [done|]. pose proof (sp_delete_length p (el <$> xs)) as Hl. rewrite <- Es in Hl.
    revert Hl. unfold zlen. rewrite !length_fmap. lia.
  - destruct Ho as [Hp Hm]. rewrite (zslGetRank_sorted memcmp buf Hbuf h z xs p Hz Hok Hp Hm). cbn [mbind option_bind].
    do 4 eexists. split; [done|]. split; [done|]. split; [done|]. split; [done|]. split; [done|].
    split; [apply zforeign_refl|lia].
  - rewrite (zslGetElementByRank_spec h z xs rank Hz Ho). cbn [mbind option_bind]. unfold sp_by_rank. rewrite list_lookup_fmap.
    assert (read_node h (zl <$> xs !! Z.to_nat (rank - 1)) = Some (el <$> xs !! Z.to_nat (rank - 1))) as ->.
    { destruct (xs !! _) as [y|] eqn:E; [|done]. apply (read_el h z xs); [done|by eapply list_elem_of_lookup_2]. }
    do 4 eexists. split; [done|]. split; [done|]. split; [done|]. split; [done|]. split; [done|].
    split; [apply zforeign_refl|lia].
  - destruct (zslFirstInRange_sorted memcmp buf Hbuf h z xs r Hz Hok) as (x & -> & Hx). cbn [mbind option_bind].
    assert (read_node h x = Some (head (sp_range (score_ge r) (score_le r) (el <$> xs)))) as ->.
    { destruct x as [x|]; [|by rewrite Hx]. destruct Hx as (y & Hy & <- & ->). by apply (read_el h z xs). }
    do 4 eexists. split; [done|]. split; [done|]. split; [done|]. split; [done|]. split; [done|].
    split; [apply zforeign_refl|lia].
  - destruct (zslLastInRange_sorted memcmp buf Hbuf h z xs r Hz Hok) as (x & -> & Hx). cbn [mbind option_bind].
    assert (read_node h x = Some (last (sp_range (score_ge r) (score_le r) (el <$> xs)))) as ->.
    { destruct x as [x|]; [|by rewrite Hx]. destruct Hx as (y & Hy & <- & ->). by apply (read_el h z xs). }
    do 4 eexists. split; [done|]. split; [done|]. split; [done|]. split; [done|]. split; [done|].
    split; [apply zforeign_refl|lia].
Qed.

Lemma run_zslops_spec ops : ∀ h z xs,
  zowns h z xs → eok (el <$> xs) → zslops_ok (el <$> xs) ops → zlen xs + zlen ops < 2 ^ 32 →
  ∃ h' z' xs' rs, run_zslops h z ops = Some (h', z', rs) ∧ zowns h' z' xs' ∧ eok (el <$> xs') ∧
    spec_zslops (el <$> xs) ops = (el <$> xs', rs) ∧ foreign h z xs h' xs'.
Proof using All.
  induction ops as [|o ops IH]; intros h z xs Hz Hok Ho Hb; [exists h, z, xs, []; do 4 (split; [done|]); apply zforeign_refl|].
  destruct Ho as [Ho Hos]. cbn [run_zslops spec_zslops]. assert (zlen (o :: ops) = zlen ops + 1) as Hl by len.
  assert (0 ≤ zlen ops) by (unfold zlen; lia).
  destruct (run_zslop_spec h z xs o Hz Hok Ho ltac:(lia)) as (h1 & z1 & xs1 & r & -> & Hz1 & Hok1 & Hs1 & Hh & Hf1 & Hl1).
  cbn [mbind option_bind]. rewrite Hs1 in Hos |- *.
  destruct (IH h1 z1 xs1 Hz1 Hok1 Hos ltac:(lia)) as (h2 & z2 & xs2 & rs & -> & Hz2 & Hok2 & -> & Hf2).
  cbn [mbind option_bind]. exists h2, z2, xs2, (r :: rs). do 4 (split; [done|]). unfold foreign in Hf2. rewrite Hh in Hf2.
  by eapply foreign_trans.
Qed.

Lemma create_owns h : ∃ h' z, zslCreate (T := T) h = (h', z) ∧ zowns h' z [] ∧ h !! header z = None ∧
  ∀ q, q ≠ header z → h' !! q = h !! q.
Proof using Type.
  unfold zslCreate. set (hd := alloc h). eexists _, _. split; [done|]. split; [|split].
  - assert (∀ i, (i < ZSKIPLIST_MAXLEVEL)%nat → get_level (<[hd := zslCreateNode ZSKIPLIST_MAXLEVEL score_zero None]> h) hd i
      = Some (mkLvl None 0)) as Hg.
    { intros i Hi. unfold get_level. rewrite lookup_insert_eq. cbn [mbind option_bind levels zslCreateNode]. by apply lookup_replicate_2. }
    split; cbn [header tail zlength level]; try done.
    + intros i Hi A B E _. destruct A, B; try done. apply Hg. unfold ZSKIPLIST_MAXLEVEL. lia.
    + intros i Hi. exists 0. apply Hg. lia.
    + intros A y B E. by destruct A.
    + eexists. by rewrite lookup_insert_eq.
    + apply NoDup_singleton.
    + unfold ZSKIPLIST_MAXLEVEL. lia.
  - apply not_elem_of_dom, is_fresh.
  - intros q Hq. by apply lookup_insert_ne.
Qed.

(** ** Release *)

Lemma free_loop_spec h (xs : list (zel T)) fuel :
  NoDup (zl <$> xs) → (∀ A y B, xs = A ++ y :: B → ∃ lv, get_level h (zl y) 0 = Some lv ∧ forward lv = zl <$> head B) →
  (length xs ≤ fuel)%nat →
  ∃ h', free_loop fuel h (zl <$> head xs) = Some h' ∧ ∀ q, h' !! q = if bool_decide (q ∈ zl <$> xs) then None else h !! q.
Proof using Type.
  revert h fuel. induction xs as [|y xs IH]; intros h fuel Hnd Hl Hf.
  { exists h. split; [by destruct fuel|]. intros q. by rewrite bool_decide_false by apply not_elem_of_nil. }
  destruct fuel as [|fuel]; [cbn in Hf; lia|]. cbn [head fmap option_fmap option_map free_loop].
  destruct (Hl [] y xs eq_refl) as (lv & Hlv & Hfw). rewrite Hlv. cbn [mbind option_bind]. unfold zslFreeNode.
  unfold get_level in Hlv. destruct (h !! zl y) as [n|] eqn:Hn; [|done]. cbn [mbind option_bind]. rewrite Hfw.
  rewrite fmap_cons in Hnd. apply NoDup_cons in Hnd as [Hy Hnd].
  destruct (IH (delete (zl y) h) fuel) as (h' & -> & Hq); [done| |cbn in Hf; lia|].
  { intros A y' B ->. destruct (Hl (y :: A) y' B eq_refl) as (lv' & Hlv' & Hfw'). exists lv'. split; [|done].
    unfold get_level in *. rewrite lookup_delete_ne; [done|]. intros E. apply Hy. rewrite E, fmap_app, elem_of_app.
    right. by left. }
  exists h'. split; [done|]. intros q. rewrite Hq. cbn [fmap list_fmap]. destruct (decide (q = zl y)) as [-> |Hne].
  - rewrite lookup_delete_eq, (bool_decide_true (zl y ∈ zl y :: _)) by by left. by destruct (bool_decide _).
  - rewrite lookup_delete_ne by done.
    rewrite (bool_decide_ext (q ∈ zl <$> xs) (q ∈ zl y :: (zl <$> xs))); [done|]. rewrite elem_of_cons. tauto.
Qed.

(** ** Theorems *)

(** C17. Refinement: starting from [zslCreate] in any heap, every sequence of
    [zslInsert] (with any random levels), [zslDelete], [zslGetRank],
    [zslGetElementByRank], [zslFirstInRange] and [zslLastInRange] that respects what
    the callers guarantee dereferences no invalid pointer and gives the results of
    the sequence of elements sorted by score and then by member.  What the callers
    guarantee ([zslops_ok]): a member that is inserted is not in the set, the rank
    of a member that is in the set is asked with its own score, ranks to look up
    are at least 1, members are strings.  The forward pointers, the spans of all levels
    and the backward pointers are consistent at the end ([zowns]), and the
    other nodes of the heap are unchanged. *)
Theorem zsl_refines_sorted h ops :
  zslops_ok [] ops → zlen ops < 2 ^ 32 →
  let '(h0, z0) := zslCreate h in
  ∃ h' z' xs rs, run_zslops h0 z0 ops = Some (h', z', rs) ∧ zowns h' z' xs ∧ eok (el <$> xs) ∧
    spec_zslops [] ops = (el <$> xs, rs) ∧ ∀ q n, h !! q = Some n → h' !! q = Some n.
Proof using All.
  intros Ho Hb. destruct (create_owns h) as (h0 & z0 & -> & Hz0 & Hhd & Hf0).
  destruct (run_zslops_spec ops h0 z0 [] Hz0) as (h' & z' & xs & rs & E & Hz & Hok & Hs & Hf); [|done|done|].
  { split; [constructor|apply Forall_nil_2|apply NoDup_nil_2]. }
  exists h', z', xs, rs. do 4 (split; [done|]). intros q n Hq.
  assert (q ≠ header z0) as Hne by (intros ->; congruence).
  apply (Hf q n); [by rewrite Hf0|]. rewrite not_elem_of_cons. split; [done|apply not_elem_of_nil].
Qed.

(** The deletion of a range of scores removes exactly the elements in the
    range, returns their number, and removes their members, and no others, from
    the dictionary of the sorted set. *)
Theorem zslDeleteRangeByScore_correct {D} (dict_delete : D → enc_obj → option D) `{!MemberDict D dict_delete}
    h z xs r d :
  zowns h z xs → eok (el <$> xs) → dict_ok d →
  ∃ h' z' d' xs' gone, zslDeleteRangeByScore dict_delete h z r d = Some (h', z', d', zlen gone) ∧
    zowns h' z' xs' ∧ el <$> gone = sp_range (score_ge r) (score_le r) (el <$> xs) ∧
    el <$> xs' = sp_outside (score_ge r) (score_le r) (el <$> xs) ∧
    (dict_ok d' ∧ ∀ s, dict_member d' s ↔ dict_member d s ∧ s ∉ (obj_string ∘ zo <$> gone)) ∧
    foreign h z xs h' xs'.
Proof using All.
  intros Hz Hok Hd. unfold zslDeleteRangeByScore.
  destruct (delete_range_sorted memcmp buf Hbuf dict_delete (score_ge r) (score_le r)
    (λ _ _ n, Some (if minex r then score_leb (score n) (rmin r) else score_ltb (score n) (rmin r)))
    (λ _ n, Some (if maxex r then score_ltb (score n) (rmax r) else score_leb (score n) (rmax r))) h z xs d Hz Hok Hd)
    as (h' & z' & d' & xs' & gone & E & HP); [by apply (score_tests memcmp buf Hbuf)| | |].
  - intros y n r0 s _ _ ->. unfold score_ge, zslValueGteMin. cbn [el fst].
    destruct (minex r); rewrite (score_leb_not memcmp buf Hbuf); [done|]. by rewrite negb_involutive.
  - intros y n r0 _ _ ->. done.
  - exists h', z', d', xs', gone. destruct HP as (? & ? & ? & _ & ? & ?). done.
Qed.

(** The deletion of a range of members ([ZREMRANGEBYLEX]), on elements
    of one score: the same for the bounds of the range. *)
Theorem zslDeleteRangeByLex_correct {D} (dict_delete : D → enc_obj → option D) `{!MemberDict D dict_delete}
    h z xs r d :
  zowns h z xs → eok (el <$> xs) → dict_ok d → lex_ok r → one_score (el <$> xs) →
  ∃ h' z' d' xs' gone, zslDeleteRangeByLex memcmp buf dict_delete h z r d = Some (h', z', d', zlen gone) ∧
    zowns h' z' xs' ∧ el <$> gone = sp_range (lex_ge r) (lex_le r) (el <$> xs) ∧
    el <$> xs' = sp_outside (lex_ge r) (lex_le r) (el <$> xs) ∧
    (dict_ok d' ∧ ∀ s, dict_member d' s ↔ dict_member d s ∧ s ∉ (obj_string ∘ zo <$> gone)) ∧
    foreign h z xs h' xs'.
Proof using All.
  intros Hz Hok Hd Hlex H1. unfold zslDeleteRangeByLex.
  destruct (delete_range_sorted memcmp buf Hbuf dict_delete (lex_ge r) (lex_le r)
    (λ _ _ n, o ← obj n; negb <$> zslLexValueGteMin memcmp buf o r)
    (λ _ n, o ← obj n; zslLexValueLteMax memcmp buf o r) h z xs d Hz Hok Hd)
    as (h' & z' & d' & xs' & gone & E & HP); [by apply (lex_tests memcmp buf Hbuf)| | |].
  - intros y n r0 s Hy -> _. cbn [mbind option_bind].
    by destruct (lex_value memcmp buf Hbuf (zo y) r (zs y) (ok_obj _ _ Hok Hy) Hlex) as [-> _].
  - intros y n r0 Hy -> _. cbn [mbind option_bind].
    by destruct (lex_value memcmp buf Hbuf (zo y) r (zs y) (ok_obj _ _ Hok Hy) Hlex) as [_ ->].
  - exists h', z', d', xs', gone. destruct HP as (? & ? & ? & _ & ? & ?). done.
Qed.

(** The deletion of the ranks [start] to [end_] (from 1) removes the
    elements at these positions, and their members from the dictionary. *)
Theorem zslDeleteRangeByRank_correct {D} (dict_delete : D → enc_obj → option D) `{!MemberDict D dict_delete}
    h z xs start end_ d :
  zowns h z xs → eok (el <$> xs) → dict_ok d → 1 ≤ start ≤ end_ → end_ < 2 ^ 32 →
  ∃ h' z' d' xs' gone, zslDeleteRangeByRank dict_delete h z start end_ d = Some (h', z', d', zlen gone) ∧
    zowns h' z' xs' ∧ gone = take (Z.to_nat (end_ - start + 1)) (drop (Z.to_nat (start - 1)) xs) ∧
    xs' = take (Z.to_nat (start - 1)) xs ++ drop (Z.to_nat end_) xs ∧
    (dict_ok d' ∧ ∀ s, dict_member d' s ↔ dict_member d s ∧ s ∉ (obj_string ∘ zo <$> gone)) ∧
    foreign h z xs h' xs'.
Proof using All.
  intros Hz Hok Hd Hs He. set (a := Z.to_nat (start - 1)). set (b := Z.to_nat (end_ - start + 1)).
  set (L := take a xs). set (I := take b (drop a xs)). set (R := drop (Z.to_nat end_) xs).
  assert (R = drop b (drop a xs)) as ER by (unfold R; rewrite drop_drop; f_equal; lia).
  assert (xs = L ++ I ++ R) as E by (rewrite ER; unfold L, I; by rewrite !take_drop).
  assert (zlen L = Z.min (start - 1) (zlen xs)) as HL by (unfold L, zlen; rewrite length_take; lia).
  assert (I ++ R ≠ [] → zlen L = start - 1) as HL1.
  { intros Hne. rewrite HL. apply Z.min_l. destruct (decide (length xs ≤ a)%nat) as [Hle|]; [|unfold zlen; lia].
    exfalso. apply Hne. rewrite ER. unfold I. rewrite take_drop. by apply drop_ge. }
  assert (zlen I ≤ end_ - start + 1 ∧ (R ≠ [] → zlen I = end_ - start + 1)) as [HI HI1].
  { unfold I, zlen. rewrite length_take. split; [lia|]. intros HR. rewrite Nat.min_l; [lia|].
    destruct (decide (b ≤ length (drop a xs))%nat); [done|]. exfalso. apply HR. rewrite ER. apply drop_ge. lia. }
  pose proof (zo_bound _ _ _ Hz) as Hb. assert (0 ≤ zlen L) by (unfold zlen; lia). unfold zslDeleteRangeByRank.
  assert (test_ok (λ t s _, Some (u64 (t + s) <? start)) (L ++ I ++ R) L) as Ht.
  { rewrite <- E. intros C y B r s n EC _ _ Hr0 Hs0 Hrs. f_equal.
    assert (zlen C + 1 ≤ zlen xs ∧ 0 ≤ zlen C) by (rewrite EC; len).
    rewrite Hrs, wrapu_small by (unfold in_u; lia).
    destruct (Z.ltb_spec (zlen C + 1) start); symmetry; [apply bool_decide_eq_true|apply bool_decide_eq_false]; lia. }
  clearbody L I R. clear ER. pose proof Hz as Hz0. rewrite E in Hz0.
  destruct (search_spec _ 64 h z L (I ++ R) Hz0 Ht ltac:(lia)) as (us & -> & Hus & Hu0). cbn [mbind option_bind].
  destruct (delete_after_spec memcmp buf Hbuf dict_delete (λ t _, Some (t <=? end_)) h z d L I R us Hz0 Hus Hu0 Hd)
    as (h' & z' & d' & -> & Hz' & Hh & Hrm & Hf).
  - apply Forall_forall. intros y Hy. eapply ok_obj; [exact Hok|]. rewrite E, !elem_of_app. auto.
  - intros C y C' n EI _ _. rewrite HL1 by (rewrite EI; by destruct C). f_equal. apply Z.leb_le.
    assert (zlen C + 1 ≤ zlen I) by (rewrite EI; len). lia.
  - intros y R' n ER _ _. rewrite HL1, HI1 by (rewrite ER; by destruct I || done). f_equal. apply Z.leb_gt. lia.
  - exists h', z', d', (L ++ R), I. rewrite <- E in Hf. done.
Qed.

(** Ranges of members, on elements of one score: [zslFirstInLexRange] and
    [zslLastInLexRange] return the first and the last element of the range, and
    NULL when it is empty, except in the case of [zsl_lex_clash]. *)
Theorem zsl_lex_range h z xs r :
  zowns h z xs → eok (el <$> xs) → lex_ok r → one_score (el <$> xs) → lex_clash r = false →
  (∃ x, zslFirstInLexRange memcmp buf h z r = Some x ∧
     read_node h x = Some (head (sp_range (lex_ge r) (lex_le r) (el <$> xs)))) ∧
  (∃ x, zslLastInLexRange memcmp buf h z r = Some x ∧
     read_node h x = Some (last (sp_range (lex_ge r) (lex_le r) (el <$> xs)))).
Proof using All.
  intros Hz Hok Hlex H1 Hcl.
  destruct (zslFirstInLexRange_sorted memcmp buf Hbuf h z xs r Hz Hok Hlex Hcl H1) as (x & E & Hx).
  destruct (zslLastInLexRange_sorted memcmp buf Hbuf h z xs r Hz Hok Hlex Hcl H1) as (x' & E' & Hx').
  split; [exists x|exists x']; (split; [done|]).
  - destruct x as [x|]; [|by rewrite Hx]. destruct Hx as (y & Hy & <- & ->). by apply (read_el h z xs).
  - destruct x' as [x'|]; [|by rewrite Hx']. destruct Hx' as (y & Hy & <- & ->). by apply (read_el h z xs).
Qed.

(** [zslFree] frees the header and the nodes of the list, each once, and no
    others. *)
Theorem zslFree_correct h z xs :
  zowns h z xs →
  ∃ h', zslFree h z = Some h' ∧ ∀ q, h' !! q = if bool_decide (q ∈ header z :: (zl <$> xs)) then None else h !! q.
Proof using Type.
  intros Hz. pose proof (zo_nodup _ _ _ Hz) as [Hhd Hnd]%NoDup_cons. unfold zslFree.
  pose proof (head_level h z [] xs Hz) as Hl. cbn in Hl. rewrite Hl. cbn [mbind option_bind].
  rewrite (head_forward h z [] xs Hz). destruct (free_loop_spec (delete (header z) h) xs (Z.to_nat (zlength z)) Hnd) as (h' & E & Hq).
  - intros A y B ->. exists (link 0 B). replace (A ++ y :: B) with ((A ++ [y]) ++ B) in * by by rewrite <- app_assoc.
    split; [|by eapply (head_forward h z)]. unfold get_level. rewrite lookup_delete_ne.
    + rewrite <- (hdl_snoc (header z) A y). by apply head_level.
    + intros E. apply Hhd. rewrite E, !fmap_app, !elem_of_app. left. right. by left.
  - rewrite (zo_len _ _ _ Hz). unfold zlen. by rewrite Nat2Z.id.
  - exists h'. split; [done|]. intros q. rewrite Hq. destruct (decide (q = header z)) as [-> |Hne].
    + rewrite lookup_delete_eq, (bool_decide_true (header z ∈ header z :: _)) by by left. by destruct (bool_decide _).
    + rewrite lookup_delete_ne by done.
      rewrite (bool_decide_ext (q ∈ zl <$> xs) (q ∈ header z :: (zl <$> xs))); [done|]. rewrite elem_of_cons. tauto.
Qed.

End run.

(** ** Examples *)

Definition dbl (n : positive) : double := S754_finite false n 0 ↾ I.
Definition member (s : string) : enc_obj := ObjStr (str s).
Definition buf128 : list Z := replicate 128 0.

(** Insertions with several levels, a deletion, ranks and ranges. *)
Definition zsl_demo_ops : list (zslop (T := double)) :=
  [ZIns [65535] (dbl 3, member "c"); ZIns [0; 0; 65535] (dbl 1, member "a"); ZIns [7; 65535] (dbl 1, member "b");
   ZIns [65535] (dbl 2, ObjInt 42); ZRank (dbl 2, ObjInt 42); ZByRank 2; ZDel (dbl 1, member "a"); ZByRank 5;
   ZFirst (mkRange (dbl 1) (dbl 3) true true); ZLast (mkRange (dbl 1) (dbl 3) false false)].

Lemma zsl_refines_sorted_witness :
  let '(h0, z0) := zslCreate (T := double) ∅ in
  ∃ h' z' xs rs, run_zslops memcmp_diff buf128 h0 z0 zsl_demo_ops = Some (h', z', rs) ∧ zowns h' z' xs ∧
    eok (el <$> xs) ∧ spec_zslops [] zsl_demo_ops = (el <$> xs, rs) ∧
    ∀ q n, (∅ : gmap loc (zskiplistNode double)) !! q = Some n → h' !! q = Some n.
Proof.
  apply (zsl_refines_sorted memcmp_diff buf128 ltac:(by vm_compute) ∅ zsl_demo_ops); [|by vm_compute].
  by_decision.
Defined.

(** The rank of a member with another score than its own: 1 although no element has
    this score and this member. *)
Example zsl_rank_other_score :
  (let '(h, z) := zslCreate ∅ in '(_, _, rs) ← run_zslops memcmp_diff buf128 h z [ZIns [65535] (dbl 1, member "a"); ZRank (dbl 5, member "a")]; last rs)
  = Some (RRank 1) ∧
  last (spec_zslops [] [ZIns [65535] (dbl 1, member "a"); ZRank (dbl 5, member "a")]).2 = Some (RRank 0).
Proof. split; vm_compute; reflexivity. Qed.

(** A sorted set of two members with one score, and its dictionary. *)
Definition pair_ops : list (zslop (T := double)) :=
  [ZIns [0; 65535] (dbl 1, member "a"); ZIns [65535] (dbl 1, member "b")].
Definition pair_set : option (gmap loc (zskiplistNode double) * zskiplist) :=
  let '(h, z) := zslCreate ∅ in '(h, z, _) ← run_zslops memcmp_diff buf128 h z pair_ops; Some (h, z).

Lemma pair_set_owns : ∃ h z xs,
  pair_set = Some (h, z) ∧ zowns h z xs ∧ eok (el <$> xs) ∧ el <$> xs = [(dbl 1, member "a"); (dbl 1, member "b")].
Proof.
  unfold pair_set. destruct (create_owns (T := double) ∅) as (h0 & z0 & E0 & Hz0 & _ & _). rewrite E0.
  destruct (run_zslops_spec memcmp_diff buf128 ltac:(by vm_compute) pair_ops h0 z0 [] Hz0)
    as (h' & z' & xs & rs & -> & Hz & Hok & Hs & _).
  - split; [constructor|apply Forall_nil_2|apply NoDup_nil_2].
  - by_decision.
  - by vm_compute.
  - exists h', z', xs. split; [done|]. split; [done|]. split; [done|]. change (el <$> []) with (@nil (double * enc_obj)) in Hs. by apply (f_equal fst) in Hs.
Qed.

Lemma pair_one_score : one_score [(dbl 1, member "a"); (dbl 1, member "b")].
Proof. intros a b Ha Hb. set_unfold. destruct Ha as [-> |[-> |[]]], Hb as [-> |[-> |[]]]; done. Qed.

Definition pair_dict : option (dict (list Z) unit) :=
  fst <$> run_dops true (dictSdsHash false 5381) dictSdsKeyCompare (λ k, k) (λ v, v) dictCreate
    [DAdd (str "a") (); DAdd (str "b") ()].
Lemma pair_dict_wf : ∃ d, pair_dict = Some d ∧ dict_wf (dictSdsHash false 5381) d.
Proof.
  pose proof (sds_keys false 5381 ltac:(by_decision)) as Hl. unfold pair_dict.
  destruct (run_dops_spec true (dictSdsHash false 5381) dictSdsKeyCompare (λ k, k) (λ v : unit, v)
    [DAdd (str "a") (); DAdd (str "b") ()] dictCreate) as (d & rs & -> & Hwf & _);
    [apply create_wf|by vm_compute|by_decision|]. by exists d.
Qed.

(** [zrangespec] and [zlexrangespec] of the witnesses. *)
Definition score_range : zrangespec double := mkRange (dbl 1) (dbl 1) false false.
Definition lex_range : zlexrangespec := mkLex LexMin (LexObj (member "a")) false false.

Lemma zslDeleteRangeByScore_correct_witness : ∃ h z xs (d : dict (list Z) unit),
  zowns h z xs ∧ el <$> xs = [(dbl 1, member "a"); (dbl 1, member "b")] ∧ pair_dict = Some d ∧
  ∃ h' z' d' xs' gone, zslDeleteRangeByScore (sds_delete false 5381) h z score_range d = Some (h', z', d', zlen gone) ∧
    zowns h' z' xs' ∧ el <$> gone = sp_range (score_ge score_range) (score_le score_range) (el <$> xs) ∧
    el <$> xs' = sp_outside (score_ge score_range) (score_le score_range) (el <$> xs) ∧ foreign h z xs h' xs'.
Proof.
  destruct pair_set_owns as (h & z & xs & _ & Hz & Hok & E), pair_dict_wf as (d & Hd & Hwf).
  destruct (zslDeleteRangeByScore_correct memcmp_diff buf128 ltac:(by vm_compute) (sds_delete false 5381)
    (MemberDict0 := sds_member_dict false 5381 ltac:(by_decision)) h z xs score_range d Hz Hok Hwf)
    as (h' & z' & d' & xs' & gone & HP).
  exists h, z, xs, d. do 3 (split; [done|]). exists h', z', d', xs', gone. tauto.
Defined.

Lemma zslDeleteRangeByLex_correct_witness : ∃ h z xs (d : dict (list Z) unit),
  zowns h z xs ∧ el <$> xs = [(dbl 1, member "a"); (dbl 1, member "b")] ∧ pair_dict = Some d ∧
  ∃ h' z' d' xs' gone, zslDeleteRangeByLex memcmp_diff buf128 (sds_delete false 5381) h z lex_range d = Some (h', z', d', zlen gone) ∧
    zowns h' z' xs' ∧ el <$> gone = sp_range (lex_ge lex_range) (lex_le lex_range) (el <$> xs) ∧
    el <$> xs' = sp_outside (lex_ge lex_range) (lex_le lex_range) (el <$> xs) ∧ foreign h z xs h' xs'.
Proof.
  destruct pair_set_owns as (h & z & xs & _ & Hz & Hok & E), pair_dict_wf as (d & Hd & Hwf).
  destruct (zslDeleteRangeByLex_correct memcmp_diff buf128 ltac:(by vm_compute) (sds_delete false 5381)
    (MemberDict0 := sds_member_dict false 5381 ltac:(by_decision)) h z xs lex_range d Hz Hok Hwf)
    as (h' & z' & d' & xs' & gone & HP); [by_decision|rewrite E; apply pair_one_score|].
  exists h, z, xs, d. do 3 (split; [done|]). exists h', z', d', xs', gone. tauto.
Defined.

Lemma zslDeleteRangeByRank_correct_witness : ∃ h z xs (d : dict (list Z) unit),
  zowns h z xs ∧ el <$> xs = [(dbl 1, member "a"); (dbl 1, member "b")] ∧ pair_dict = Some d ∧
  ∃ h' z' d' xs' gone, zslDeleteRangeByRank (sds_delete false 5381) h z 2 7 d = Some (h', z', d', zlen gone) ∧
    zowns h' z' xs' ∧ gone = take 6 (drop 1 xs) ∧ xs' = take 1 xs ++ drop 7 xs ∧ foreign h z xs h' xs'.
Proof.
  destruct pair_set_owns as (h & z & xs & _ & Hz & Hok & E), pair_dict_wf as (d & Hd & Hwf).
  destruct (zslDeleteRangeByRank_correct memcmp_diff buf128 ltac:(by vm_compute) (sds_delete false 5381)
    (MemberDict0 := sds_member_dict false 5381 ltac:(by_decision)) h z xs 2 7 d Hz Hok Hwf ltac:(lia) ltac:(lia))
    as (h' & z' & d' & xs' & gone & HP).
  exists h, z, xs, d. do 3 (split; [done|]). exists h', z', d', xs', gone. tauto.
Defined.

Lemma zsl_lex_range_witness : ∃ h z xs,
  zowns h z xs ∧ el <$> xs = [(dbl 1, member "a"); (dbl 1, member "b")] ∧
  (∃ x, zslFirstInLexRange memcmp_diff buf128 h z lex_range = Some x ∧ read_node h x = Some (Some (dbl 1, member "a"))) ∧
  (∃ x, zslLastInLexRange memcmp_diff buf128 h z lex_range = Some x ∧ read_node h x = Some (Some (dbl 1, member "a"))).
Proof.
  destruct pair_set_owns as (h & z & xs & _ & Hz & Hok & E).
  pose proof (zsl_lex_range memcmp_diff buf128 ltac:(by vm_compute) h z xs lex_range Hz Hok ltac:(by_decision)) as HR.
  rewrite E in HR. exists h, z, xs. do 2 (split; [done|]). by apply HR; [apply pair_one_score|].
Defined.

Lemma zslFree_correct_witness : ∃ h z xs,
  zowns h z xs ∧ el <$> xs = [(dbl 1, member "a"); (dbl 1, member "b")] ∧
  ∃ h', zslFree h z = Some h' ∧ ∀ q, h' !! q = if bool_decide (q ∈ header z :: (zl <$> xs)) then None else h !! q.
Proof.
  destruct pair_set_owns as (h & z & xs & _ & Hz & Hok & E). exists h, z, xs. do 2 (split; [done|]).
  exact (zslFree_correct h z xs Hz).
Defined.

(** C28. [zslIsInLexRange] compares the bounds as plain strings, so a range from
    [-] whose exclusive upper bound is the text of [shared.minstring] counts as
    empty: no element is found although the member "a" satisfies both bounds. *)
Theorem zsl_lex_clash : ∃ h z r,
  pair_set = Some (h, z) ∧
  zslParseLexRange (member "-") (member "(minstring") = Some r ∧
  zslLexValueGteMin memcmp_diff buf128 (member "a") r = Some true ∧
  zslLexValueLteMax memcmp_diff buf128 (member "a") r = Some true ∧
  zslFirstInLexRange memcmp_diff buf128 h z r = Some None ∧
  zslLastInLexRange memcmp_diff buf128 h z r = Some None.
Proof. eexists _, _, _. split; [vm_compute; reflexivity|]. split; [vm_compute; reflexivity|]. by vm_compute. Qed.
