(* ===== verification/Proto.v ===== *)
(** * Proto: the parser of requests (redis-3.0.0/src/networking.c)

    The bytes of a client arrive in pieces and are appended to its query buffer;
    [processInputBuffer] takes commands out of it, in the inline format or as
    multi bulk requests, and keeps what is incomplete.  The query buffer is given
    by its bytes: [sdsrange] by [range_of] ([sdsrange_spec]), [strchr] stops at
    the first null byte.  Commands are executed by a parameter.  The fields of
    the client that the parser does not use (replication, statistics) are left
    out; a failed assertion is [None]. *)

From S2P Require Import Prelude NumConv Objects Sds SdsText.

Definition REDIS_INLINE_MAX_SIZE : Z := 1024 * 64.
Definition REDIS_MBULK_BIG_ARG : Z := 1024 * 32.
Definition REDIS_IOBUF_LEN : Z := 1024 * 16.
Definition REDIS_REQ_INLINE : Z := 1.
Definition REDIS_REQ_MULTIBULK : Z := 2.

(** The error replies *)
Inductive proto_error :=
  | TooBigInline | UnbalancedQuotes | TooBigMbulkCount | InvalidMultibulkLength | TooBigBulkCount | ExpectedDollar (c : Z) | InvalidBulkLength.

(** [argv] with [argc] its length; [close]: [REDIS_CLOSE_AFTER_REPLY]. *)
Record client := mkClient {
  querybuf : list Z; reqtype : Z; multibulklen : Z; bulklen : Z; argv : list (list Z); close : bool; replies : list proto_error
}.

Definition set_query (c : client) (q : list Z) : client :=
  mkClient q (reqtype c) (multibulklen c) (bulklen c) (argv c) (close c) (replies c).
Definition resetClient (c : client) : client := mkClient (querybuf c) 0 0 (-1) [] (close c) (replies c).

(** [sdsrange(querybuf, pos, -1)] *)
Definition trim_query (c : client) (pos : Z) : client := set_query c (range_of (querybuf c) pos (-1)).

Definition setProtocolError (c : client) (e : proto_error) (pos : Z) : client :=
  let c := trim_query c pos in
  mkClient (querybuf c) (reqtype c) (multibulklen c) (bulklen c) (argv c) true (replies c ++ [e]).

(** [strchr(b, c)] for a character that is not null *)
Fixpoint strchr_in (b : list Z) (c : Z) : option Z :=
  match b with
  | [] => None
  | x :: b => if x =? c then Some 0 else if x =? 0 then None else Z.succ <$> strchr_in b c
  end.
(** The position in the buffer of the first [c] from [pos] on *)
Definition strchr_from (b : list Z) (pos c : Z) : option Z := Z.add pos <$> strchr_in (drop (Z.to_nat pos) b) c.

(** [true]: [REDIS_OK] *)
Definition processInlineBuffer (c : client) : bool * client :=
  match strchr_from (querybuf c) 0 10 with
  | None => (false, if REDIS_INLINE_MAX_SIZE <? zlen (querybuf c) then setProtocolError c TooBigInline 0 else c)
  | Some newline =>
      let newline := if negb (newline =? 0) && bool_decide (querybuf c !! Z.to_nat (newline - 1) = Some 13) then newline - 1 else newline in
      let querylen := newline in
      match sdssplitargs (take (Z.to_nat querylen) (querybuf c)) with
      | None => (false, setProtocolError c UnbalancedQuotes 0)
      | Some args =>
          let c := trim_query c (querylen + 2) in
          (true, mkClient (querybuf c) (reqtype c) (multibulklen c) (bulklen c) (filter (λ a, a ≠ []) args) (close c) (replies c))
      end
  end.

(** How a round of [while(c->multibulklen)] ends *)
Inductive round := Next (c : client) (pos : Z) | Stop (c : client) (pos : Z) | Error (c : client).

Section multibulk.

(** Read the bulk length if it is not known. *)
Definition read_bulklen (c : client) (pos : Z) : option round :=
  if bulklen c =? -1 then
    match strchr_from (querybuf c) pos 13 with
    | None => Some (if REDIS_INLINE_MAX_SIZE <? zlen (querybuf c) then Error (setProtocolError c TooBigBulkCount 0) else Stop c pos)
    | Some newline =>
        if i32 (zlen (querybuf c)) - 2 <? newline then Some (Stop c pos) else
        d ← get8 (querybuf c) pos;
        if negb (d =? 36) then Some (Error (setProtocolError c (ExpectedDollar d) pos)) else
        digits ← load (querybuf c) (pos + 1) (newline - (pos + 1));
        match string2ll digits with
        | Some ll =>
            if (ll <? 0) || (512 * 1024 * 1024 <? ll) then Some (Error (setProtocolError c InvalidBulkLength pos)) else
            let pos := newline + 2 in
            let '(c, pos) := if REDIS_MBULK_BIG_ARG <=? ll then (trim_query c pos, 0) else (c, pos) in
            Some (Next (mkClient (querybuf c) (reqtype c) (multibulklen c) ll (argv c) (close c) (replies c)) pos)
        | None => Some (Error (setProtocolError c InvalidBulkLength pos))
        end
    end
  else Some (Next c pos).

(** Read the bulk argument. *)
Definition read_bulk (c : client) (pos : Z) : option round :=
  if u64 (zlen (querybuf c) - pos) <? u32 (bulklen c + 2) then Some (Stop c pos) else
  if (pos =? 0) && (REDIS_MBULK_BIG_ARG <=? bulklen c) && (i32 (zlen (querybuf c)) =? bulklen c + 2) then
    let arg := take (Z.to_nat (zlen (querybuf c) - 2)) (querybuf c) in
    Some (Next (mkClient [] (reqtype c) (multibulklen c - 1) (-1) (argv c ++ [arg]) (close c) (replies c)) 0)
  else
    arg ← load (querybuf c) pos (bulklen c);
    Some (Next (mkClient (querybuf c) (reqtype c) (multibulklen c - 1) (-1) (argv c ++ [arg]) (close c) (replies c)) (pos + bulklen c + 2)).

Fixpoint bulk_loop (fuel : nat) (c : client) (pos : Z) : option round :=
  if multibulklen c =? 0 then Some (Stop c pos) else
  match fuel with
  | O => None
  | S fuel =>
      r ← read_bulklen c pos;
      match r with
      | Next c pos => r ← read_bulk c pos; match r with Next c pos => bulk_loop fuel c pos | r => Some r end
      | r => Some r
      end
  end.

(** The part of [processMultibulkBuffer] that reads the number of arguments *)
Definition read_multibulklen (c : client) : option (round + bool * client) :=
  if multibulklen c =? 0 then
    match argv c with
    | _ :: _ => None
    | [] =>
        match strchr_from (querybuf c) 0 13 with
        | None => Some (inr (false, if REDIS_INLINE_MAX_SIZE <? zlen (querybuf c) then setProtocolError c TooBigMbulkCount 0 else c))
        | Some newline =>
            if i32 (zlen (querybuf c)) - 2 <? newline then Some (inr (false, c)) else
            star ← get8 (querybuf c) 0;
            if negb (star =? 42) then None else
            digits ← load (querybuf c) 1 (newline - 1);
            match string2ll digits with
            | Some ll =>
                if 1024 * 1024 <? ll then Some (inr (false, setProtocolError c InvalidMultibulkLength 0)) else
                let pos := newline + 2 in
                if ll <=? 0 then Some (inr (true, trim_query c pos)) else
                Some (inl (Next (mkClient (querybuf c) (reqtype c) ll (bulklen c) [] (close c) (replies c)) pos))
            | None => Some (inr (false, setProtocolError c InvalidMultibulkLength 0))
            end
        end
    end
  else Some (inl (Next c 0)).

Definition processMultibulkBuffer (c : client) : option (bool * client) :=
  start ← read_multibulklen c;
  match start with
  | inr r => Some r
  | inl (Next c pos) =>
      if negb (0 <? multibulklen c) then None else
      r ← bulk_loop (Z.to_nat (multibulklen c)) c pos;
      match r with
      | Stop c pos =>
          let c := if negb (pos =? 0) then trim_query c pos else c in
          Some (multibulklen c =? 0, c)
      | Error c => Some (false, c)
      | Next _ _ => None
      end
  | inl _ => None
  end.

End multibulk.

Section input.
(** [processCommand]: the new state of the server, whether it returned
    [REDIS_OK], and whether it asked to close the connection; [paused]: the
    client is blocked or the clients are paused. *)
Context {W : Type} (processCommand : W → list (list Z) → W * bool * bool) (paused : W → bool).

Fixpoint processInputBuffer (fuel : nat) (w : W) (c : client) : option (W * client) :=
  if zlen (querybuf c) =? 0 then Some (w, c) else
  if paused w then Some (w, c) else
  if close c then Some (w, c) else
  match fuel with
  | O => None
  | S fuel =>
      let c := if reqtype c =? 0 then
          mkClient (querybuf c) (if bool_decide (querybuf c !! 0%nat = Some 42) then REDIS_REQ_MULTIBULK else REDIS_REQ_INLINE)
            (multibulklen c) (bulklen c) (argv c) (close c) (replies c)
        else c in
      '(ok, c) ← (if reqtype c =? REDIS_REQ_INLINE then Some (processInlineBuffer c)
                  else if reqtype c =? REDIS_REQ_MULTIBULK then processMultibulkBuffer c
                  else None);
      if negb ok then Some (w, c) else
      match argv c with
      | [] => processInputBuffer fuel w (resetClient c)
      | _ =>
          let '(w, ok, quit) := processCommand w (argv c) in
          let c := if (quit : bool) then mkClient (querybuf c) (reqtype c) (multibulklen c) (bulklen c) (argv c) true (replies c) else c in
          processInputBuffer fuel w (if (ok : bool) then resetClient c else c)
      end
  end.

(** How many bytes [readQueryFromClient] asks for *)
Definition readlen (c : client) : Z :=
  if (reqtype c =? REDIS_REQ_MULTIBULK) && negb (multibulklen c =? 0) && negb (bulklen c =? -1) && (REDIS_MBULK_BIG_ARG <=? bulklen c) then
    let remaining := i32 (u64 (u32 (bulklen c + 2) - zlen (querybuf c))) in
    if remaining <? REDIS_IOBUF_LEN then remaining else REDIS_IOBUF_LEN
  else REDIS_IOBUF_LEN.

(** [data]: the bytes [read] has returned, at most [readlen]; [max]:
    [server.client_max_querybuf_len].  [None] inside: the client is freed, because
    [read] returned 0, or because its buffer is too long. *)
Definition readQueryFromClient (max : Z) (w : W) (c : client) (data : list Z) : option (option (W * client)) :=
  if zlen data =? 0 then Some None else
  let c := set_query c (querybuf c ++ data) in
  if max <? zlen (querybuf c) then Some None
  else Some <$> processInputBuffer (S (length (querybuf c))) w c.

End input.

(** ** Searching *)

Lemma strchr_in_some b c n : strchr_in b c = Some n → ∃ A B, b = A ++ c :: B ∧ n = zlen A ∧ c ∉ A ∧ 0 ∉ A.
Proof.
  revert n. induction b as [|x b IH]; intros n; [done|]. cbn [strchr_in]. destruct (Z.eqb_spec x c) as [-> |Hx].
  { intros [= <-]. exists [], b. split; [done|]. split; [done|]. split; by apply not_elem_of_nil. }
  destruct (Z.eqb_spec x 0) as [-> |Hx0]; [done|]. destruct (strchr_in b c) as [m|]; [|done]. intros [= <-].
  destruct (IH m eq_refl) as (A & B & -> & -> & HA & HA0). exists (x :: A), B. split; [done|]. split; [by rewrite zlen_cons; lia|].
  rewrite !not_elem_of_cons. done.
Qed.
Lemma strchr_in_app A B c : c ∉ A → 0 ∉ A → strchr_in (A ++ c :: B) c = Some (zlen A).
Proof.
  induction A as [|x A IH]; intros HA HA0; cbn [app strchr_in]; [by rewrite Z.eqb_refl|]. apply not_elem_of_cons in HA as [? HA].
  apply not_elem_of_cons in HA0 as [? HA0]. rewrite (proj2 (Z.eqb_neq x c)), (proj2 (Z.eqb_neq x 0)), IH by done. cbn. f_equal. rewrite zlen_cons. lia.
Qed.
Lemma strchr_in_none A c : c ∉ A → 0 ∉ A → strchr_in A c = None.
Proof.
  induction A as [|x A IH]; intros HA HA0; [done|]. cbn [strchr_in]. apply not_elem_of_cons in HA as [? HA]. apply not_elem_of_cons in HA0 as [? HA0].
  by rewrite (proj2 (Z.eqb_neq x c)), (proj2 (Z.eqb_neq x 0)), IH.
Qed.

(** The buffer around the position that was found *)
Lemma strchr_from_some b pos c n : 0 ≤ pos ≤ zlen b → strchr_from b pos c = Some n →
  ∃ P A B, b = P ++ A ++ c :: B ∧ zlen P = pos ∧ n = pos + zlen A ∧ c ∉ A.
Proof.
  intros Hp. unfold strchr_from. destruct (strchr_in _ c) as [m|] eqn:E; [|done]. intros [= <-].
  apply strchr_in_some in E as (A & B & E & -> & HA & _). exists (take (Z.to_nat pos) b), A, B.
  split; [by rewrite <- E, take_drop|]. split; [|done]. unfold zlen in *. rewrite length_take. lia.
Qed.

Lemma range_from b pos : 0 ≤ pos → range_of b pos (-1) = drop (Z.to_nat pos) b.
Proof.
  intros Hp. unfold range_of, norm. rewrite (proj2 (Z.ltb_ge pos 0)) by done. cbn [Z.ltb Z.compare]. apply take_ge. rewrite length_drop.
  unfold zlen. destruct b; cbn [length]; lia.
Qed.

(** ** Safety: no input trips an assertion *)

(** The states between two calls. *)
Definition sane (c : client) : Prop :=
  close c = true ∨
  zlen (querybuf c) < 2 ^ 31 ∧ (bulklen c = -1 ∨ 0 ≤ bulklen c ≤ 512 * 1024 * 1024) ∧ 0 ≤ multibulklen c ∧
  (multibulklen c = 0 → argv c = [] ∧ bulklen c = -1) ∧
  (reqtype c = 0 ∧ multibulklen c = 0 ∨ reqtype c = REDIS_REQ_INLINE ∧ multibulklen c = 0 ∨
   reqtype c = REDIS_REQ_MULTIBULK ∧ (multibulklen c = 0 → head (querybuf c) = Some 42)).

(** Inside of [processMultibulkBuffer] *)
Definition inside (c : client) (pos : Z) : Prop :=
  zlen (querybuf c) < 2 ^ 31 ∧ (bulklen c = -1 ∨ 0 ≤ bulklen c ≤ 512 * 1024 * 1024) ∧ 0 ≤ multibulklen c ∧
  (multibulklen c = 0 → bulklen c = -1) ∧ reqtype c = REDIS_REQ_MULTIBULK ∧ 0 ≤ pos ≤ zlen (querybuf c).

Lemma read_bulklen_safe c pos : inside c pos → 0 < multibulklen c → ∃ r, read_bulklen c pos = Some r ∧
  match r with
  | Next c' pos' => inside c' pos' ∧ bulklen c' ≠ -1 ∧ multibulklen c' = multibulklen c ∧ argv c' = argv c ∧ zlen (querybuf c') - pos' ≤ zlen (querybuf c) - pos
  | Stop c' pos' => c' = c ∧ pos' = pos
  | Error c' => close c' = true
  end.
Proof.
  intros (Hq & Hbl & Hm & Hm0 & Hreq & Hpos) Hm1. unfold read_bulklen. destruct (Z.eqb_spec (bulklen c) (-1)) as [Hb|Hb].
  2: { eexists. split; [done|]. cbn. split; [done|]. repeat split; try done; lia. }
  destruct (strchr_from (querybuf c) pos 13) as [newline|] eqn:En.
  2: { eexists. split; [done|]. by case_if. }
  apply strchr_from_some in En as (P & A & B & E & HP & -> & HA); [|done].
  pose proof (zlen_nonneg (querybuf c)). rewrite wraps_small by (unfold in_s; lia).
  destruct (Z.ltb_spec (zlen (querybuf c) - 2) (pos + zlen A)) as [Hlt|Hge]; [by eexists|].
  assert (∃ d A', A ++ 13 :: B = d :: A') as (d & A' & Ed) by (destruct A; [by exists 13, B|by eexists _, _]).
  assert (get8 (querybuf c) pos = Some d) as -> by (rewrite E, Ed; by apply get8_app). cbn [mbind option_bind]. destruct (Z.eqb_spec d 36) as [-> |Hd]; cbn [negb]; [|by eexists].
  destruct A as [|a A]; [done|]. injection Ed as -> EA'. rewrite zlen_cons in *. pose proof (zlen_nonneg A).
  assert (load (querybuf c) (pos + 1) (pos + (1 + zlen A) - (pos + 1)) = Some A) as ->.
  { rewrite E. replace (P ++ (36 :: A) ++ 13 :: B) with ((P ++ [36]) ++ A ++ 13 :: B) by by rewrite <- app_assoc. apply load_app; len. }
  cbn [mbind option_bind]. destruct (string2ll A) as [ll|]; [|by eexists]. destruct ((ll <? 0) || (512 * 1024 * 1024 <? ll)) eqn:Ell; [by eexists|].
  bool_tests. destruct (Z.leb_spec REDIS_MBULK_BIG_ARG ll) as [Hbig|Hsm]; (eexists; split; [done|]); cbn [querybuf bulklen multibulklen argv reqtype].
  - unfold trim_query, set_query. cbn [querybuf]. rewrite range_from by lia.
    assert (zlen (drop (Z.to_nat (pos + (1 + zlen A) + 2)) (querybuf c)) = zlen (querybuf c) - (pos + (1 + zlen A) + 2)) as Hl by (unfold zlen in *; rewrite length_drop; lia).
    unfold inside. cbn. rewrite Hl. repeat split; try done; lia.
  - unfold inside. cbn. repeat split; try done; lia.
Qed.

Lemma read_bulk_safe c pos : inside c pos → bulklen c ≠ -1 → 0 < multibulklen c → ∃ r, read_bulk c pos = Some r ∧
  match r with
  | Next c' pos' => inside c' pos' ∧ multibulklen c' = multibulklen c - 1 ∧ zlen (querybuf c') - pos' < zlen (querybuf c) - pos
  | Stop c' pos' => c' = c ∧ pos' = pos
  | Error _ => False
  end.
Proof.
  intros (Hq & [Hbl|Hbl] & Hm & Hm0 & Hreq & Hpos) Hb1 Hm1; [done|]. unfold read_bulk. pose proof (zlen_nonneg (querybuf c)).
  rewrite !wrapu_small by (unfold in_u; lia). rewrite wraps_small by (unfold in_s; lia).
  destruct (Z.ltb_spec (zlen (querybuf c) - pos) (bulklen c + 2)) as [Hlt|Hge]; [by eexists|].
  destruct (_ && (zlen (querybuf c) =? bulklen c + 2)) eqn:E.
  - bool_tests. eexists. split; [done|]. unfold inside. cbn. change (zlen (@nil Z)) with 0. repeat split; try done; lia.
  - destruct (load_is_Some (querybuf c) pos (bulklen c)) as [arg Ea]; [lia..|]. rewrite Ea. cbn [mbind option_bind]. eexists. split; [done|].
    unfold inside. cbn. repeat split; try done; lia.
Qed.

Lemma bulk_loop_safe fuel : ∀ c pos, inside c pos → multibulklen c ≤ Z.of_nat fuel → ∃ r, bulk_loop fuel c pos = Some r ∧
  match r with
  | Stop c' pos' => inside c' pos' ∧ zlen (querybuf c') - pos' ≤ zlen (querybuf c) - pos ∧
      (0 < multibulklen c → multibulklen c' = 0 → zlen (querybuf c') - pos' < zlen (querybuf c) - pos)
  | Error c' => close c' = true
  | Next _ _ => False
  end.
Proof.
  induction fuel as [|fuel IH]; intros c pos Hin Hf; cbn [bulk_loop]; destruct (Z.eqb_spec (multibulklen c) 0) as [Hz|Hz].
  1, 3: eexists; (split; [done|]); cbn; split; [done|lia].
  { destruct Hin as (_ & _ & Hm & _). lia. }
  assert (0 < multibulklen c) as Hm by (destruct Hin as (_ & _ & Hm & _); lia).
  destruct (read_bulklen_safe c pos Hin Hm) as (r & -> & Hr). cbn [mbind option_bind]. destruct r as [c1 pos1|c1 pos1|c1]; [|by eexists; split; [done|]; destruct Hr as [-> ->]; split; [done|lia]|by eexists].
  destruct Hr as (Hin1 & Hb1 & Hm1 & _ & Hl1). destruct (read_bulk_safe c1 pos1 Hin1 Hb1) as (r & -> & Hr); [lia|]. cbn [mbind option_bind].
  destruct r as [c2 pos2|c2 pos2|c2]; [|by eexists; split; [done|]; destruct Hr as [-> ->]; split; [done|lia]|done].
  destruct Hr as (Hin2 & Hm2 & Hl2). destruct (IH c2 pos2 Hin2) as (r & -> & Hr); [lia|]. exists r. split; [done|]. destruct r as [|c3 pos3|]; [done| |done].
  destruct Hr as (Hin3 & Hl3 & _). split; [done|]. lia.
Qed.

Lemma zlen_trim q pos : 0 ≤ pos ≤ zlen q → zlen (range_of q pos (-1)) = zlen q - pos.
Proof. intros Hp. rewrite range_from by lia. unfold zlen in *. rewrite length_drop. lia. Qed.

Lemma read_multibulklen_safe c : sane c → close c = false → reqtype c = REDIS_REQ_MULTIBULK → querybuf c ≠ [] → ∃ r, read_multibulklen c = Some r ∧
  match r with
  | inl (Next c' pos') => inside c' pos' ∧ 0 < multibulklen c' ∧ zlen (querybuf c') = zlen (querybuf c)
  | inl _ => False
  | inr (ok, c') => if (ok : bool) then zlen (querybuf c') < zlen (querybuf c) else sane c'
  end.
Proof.
  intros Hs Hc Hreq Hne. pose proof Hs as Hs'. destruct Hs' as [?|(Hq & Hbl & Hm & Hm0 & Hr)]; [congruence|].
  unfold read_multibulklen. pose proof (zlen_nonneg (querybuf c)). destruct (Z.eqb_spec (multibulklen c) 0) as [Hz|Hz].
  2: { eexists. split; [done|]. cbn. unfold inside. repeat split; try done; lia. }
  destruct (Hm0 Hz) as [Hargv Hb]. rewrite Hargv. destruct (strchr_from (querybuf c) 0 13) as [newline|] eqn:En.
  2: { eexists. split; [done|]. cbn. case_if; [by left|done]. }
  apply strchr_from_some in En as (P & A & B & E & HP & -> & HA); [|lia]. destruct P; [|revert HP; len]. cbn [app] in E. rewrite Z.add_0_l.
  rewrite wraps_small by (unfold in_s; lia). destruct (Z.ltb_spec (zlen (querybuf c) - 2) (zlen A)) as [Hlt|Hge]; [by eexists|].
  assert (head (querybuf c) = Some 42) as Hh by (destruct Hr as [[E0 _]|[[E0 _]|[_ H42]]]; [by rewrite Hreq in E0..|by apply H42]).
  destruct A as [|a A]; rewrite E in Hh; [done|]. injection Hh as ->. cbn [app] in E.
  assert (get8 (querybuf c) 0 = Some 42) as -> by (rewrite E; apply get8_0). cbn [mbind option_bind negb Z.eqb Pos.eqb].
  rewrite zlen_cons in *. pose proof (zlen_nonneg A).
  assert (load (querybuf c) 1 (1 + zlen A - 1) = Some A) as -> by (rewrite E; apply (load_app [42] A (13 :: B)); [done|lia]).
  cbn [mbind option_bind]. destruct (string2ll A) as [ll|]; [|eexists; split; [done|]; by left].
  destruct (Z.ltb_spec (1024 * 1024) ll); [eexists; split; [done|]; by left|]. destruct (Z.leb_spec ll 0).
  - eexists. split; [done|]. cbn. rewrite zlen_trim; lia.
  - eexists. split; [done|]. cbn. unfold inside. cbn. repeat split; try done; lia.
Qed.

Lemma processMultibulkBuffer_safe c : sane c → close c = false → reqtype c = REDIS_REQ_MULTIBULK → querybuf c ≠ [] → ∃ ok c',
  processMultibulkBuffer c = Some (ok, c') ∧ if (ok : bool) then zlen (querybuf c') < zlen (querybuf c) else sane c'.
Proof.
  intros Hs Hc Hreq Hne. unfold processMultibulkBuffer. destruct (read_multibulklen_safe c Hs Hc Hreq Hne) as (r & -> & Hr). cbn [mbind option_bind].
  destruct r as [[c1 pos1| |]|[ok c1]]; [|done|done|by exists ok, c1]. destruct Hr as (Hin & Hm & Hl). rewrite (proj2 (Z.ltb_lt _ _)) by done. cbn [negb].
  destruct (bulk_loop_safe (Z.to_nat (multibulklen c1)) c1 pos1 Hin) as (r & -> & Hr); [lia|]. cbn [mbind option_bind].
  destruct r as [|c2 pos2|c2]; [done| |by exists false, c2; split; [done|left]]. destruct Hr as (Hin2 & Hl2 & Hl2'). destruct Hin2 as (Hq & Hbl & Hm2 & Hm02 & Hreq2 & Hpos2).
  assert (∃ c3, (if negb (pos2 =? 0) then trim_query c2 pos2 else c2) = c3 ∧ zlen (querybuf c3) = zlen (querybuf c2) - pos2 ∧
    bulklen c3 = bulklen c2 ∧ multibulklen c3 = multibulklen c2 ∧ reqtype c3 = reqtype c2) as (c3 & -> & Hq3 & Hb3 & Hm3 & Hr3).
  { destruct (Z.eqb_spec pos2 0) as [-> |]; cbn [negb]; eexists; (split; [done|]); [by rewrite Z.sub_0_r|]. cbn. by rewrite zlen_trim. }
  eexists _, c3. split; [done|]. destruct (Z.eqb_spec (multibulklen c3) 0) as [Hz|Hz].
  - destruct Hin as (_ & _ & _ & _ & _ & Hp1). lia.
  - right. rewrite Hb3, Hm3, Hr3. split; [lia|]. split; [done|]. split; [done|]. split; [lia|]. right; right. split; [done|lia].
Qed.

Lemma processInlineBuffer_safe c : sane c → reqtype c = REDIS_REQ_INLINE → querybuf c ≠ [] →
  let '(ok, c') := processInlineBuffer c in if ok then zlen (querybuf c') < zlen (querybuf c) else sane c'.
Proof.
  intros Hs Hreq Hne. unfold processInlineBuffer. assert (0 < zlen (querybuf c)) by (destruct (querybuf c); [done|]; len).
  destruct (strchr_from (querybuf c) 0 10) as [n|] eqn:En; [|case_if; [by left|done]].
  apply strchr_from_some in En as (P & A & B & E & HP & -> & HA); [|lia]. cbv zeta. pose proof (zlen_nonneg A).
  set (n := if negb (0 + zlen A =? 0) && _ then 0 + zlen A - 1 else 0 + zlen A).
  assert (0 ≤ n) by (subst n; destruct (Z.eqb_spec (0 + zlen A) 0); cbn [negb andb]; [lia|]; case_match; lia). clearbody n.
  destruct (sdssplitargs _); [|by left]. cbn. rewrite range_from by lia. unfold zlen in *. rewrite length_drop. lia.
Qed.

Section safety.
Context {W : Type} (processCommand : W → list (list Z) → W * bool * bool) (paused : W → bool).
(** A command is only refused when the connection is closed (QUIT). *)
Context (Hquit : ∀ w a w' quit, processCommand w a = (w', false, quit) → quit = true).

Lemma processInputBuffer_safe fuel : ∀ w c, sane c → (length (querybuf c) < fuel)%nat →
  ∃ w' c', processInputBuffer processCommand paused fuel w c = Some (w', c') ∧ sane c'.
Proof using Hquit.
  induction fuel as [|fuel IH]; intros w c Hs Hf; [lia|]. cbn [processInputBuffer].
  destruct (Z.eqb_spec (zlen (querybuf c)) 0) as [Hz|Hz]; [by eexists _, _|]. destruct (paused w); [by eexists _, _|].
  destruct (close c) eqn:Hc; [by eexists _, _|]. assert (querybuf c ≠ []) as Hne by (intros E; by rewrite E in Hz).
  set (c1 := if reqtype c =? 0 then _ else c).
  assert (sane c1 ∧ querybuf c1 = querybuf c ∧ close c1 = false ∧ (reqtype c1 = REDIS_REQ_INLINE ∨ reqtype c1 = REDIS_REQ_MULTIBULK)) as (Hs1 & Hq1 & Hc1 & Hr1).
  { destruct Hs as [?|(Hq & Hbl & Hm & Hm0 & Hr)]; [congruence|]. subst c1. destruct (Z.eqb_spec (reqtype c) 0) as [Hr0|Hr0].
    - cbn. split; [|split; [done|]; split; [done|]; case_bool_decide; [by right|by left]]. right. cbn. split; [done|]. split; [done|]. split; [done|]. split; [done|].
      assert (multibulklen c = 0) as Hm1 by (destruct Hr as [[_ ?]|[[E ?]|[E _]]]; [done|done|by rewrite Hr0 in E]).
      case_bool_decide as Hh; right; [right|left; done]. split; [done|]. intros _. destruct (querybuf c); [done|]. exact Hh.
    - split; [right; done|]. split; [done|]. split; [done|]. destruct Hr as [[? _]|[[? _]|[? _]]]; [done|by left|by right]. }
  clearbody c1. rewrite <- Hq1 in Hne, Hf.
  assert (∃ ok c2, (if reqtype c1 =? REDIS_REQ_INLINE then Some (processInlineBuffer c1) else if reqtype c1 =? REDIS_REQ_MULTIBULK then processMultibulkBuffer c1 else None) = Some (ok, c2) ∧
    if (ok : bool) then zlen (querybuf c2) < zlen (querybuf c1) else sane c2) as (ok & c2 & -> & H2).
  { destruct Hr1 as [Hr1|Hr1]; rewrite Hr1; cbn [Z.eqb Pos.eqb REDIS_REQ_INLINE REDIS_REQ_MULTIBULK].
    - pose proof (processInlineBuffer_safe c1 Hs1 Hr1 Hne) as Hi. destruct (processInlineBuffer c1) as [ok c2]. by exists ok, c2.
    - by apply processMultibulkBuffer_safe. }
  cbn [mbind option_bind]. destruct ok; cbn [negb]; [|by eexists _, _].
  assert (zlen (querybuf c1) < 2 ^ 31) as Hq31.
  { rewrite Hq1. destruct Hs as [?|(Hq & _)]; [congruence|done]. }
  assert (∀ c3, querybuf c3 = querybuf c2 → sane (resetClient c3)) as Hreset.
  { intros c3 E. right. cbn. rewrite E. repeat split; try done; try lia; by left. }
  assert (length (querybuf c2) < fuel)%nat as Hf2 by (unfold zlen in *; lia).
  destruct (argv c2) as [|a args]; [apply IH; [by apply Hreset|done]|].
  destruct (processCommand w (a :: args)) as [[w' ok] quit] eqn:Ep. destruct ok.
  - apply IH; [apply Hreset; by destruct quit|by destruct quit].
  - rewrite (Hquit _ _ _ _ Ep). apply IH; [by left|done].
Qed.

End safety.
