(* ===== verification/ProtoSpec.v ===== *)
(** * ProtoSpec: requests survive fragmentation

    A stream of multi bulk requests is parsed into the same commands however the
    kernel cuts it into reads; and no stream of bytes at all makes the parser
    fail an assertion or read outside of its buffer. *)

From S2P Require Import Prelude NumConv Objects Sds SdsText Crc Rio Proto.

(** ** Requests *)

Definition dec (n : Z) : list Z := obj_string (ObjInt n).
Definition enc_bulk (a : list Z) : list Z := (36 :: dec (zlen a) ++ [13; 10]) ++ a ++ [13; 10].
Definition enc_args (args : list (list Z)) : list Z := concat (enc_bulk <$> args).
Definition enc_request (args : list (list Z)) : list Z := (42 :: dec (zlen args) ++ [13; 10]) ++ enc_args args.
Definition enc_requests (cmds : list (list (list Z))) : list Z := concat (enc_request <$> cmds).

(** The limits of the protocol *)
Definition arg_ok (a : list Z) : Prop := zlen a ≤ 512 * 1024 * 1024.
Definition request_ok (args : list (list Z)) : Prop := args ≠ [] ∧ zlen args ≤ 1024 * 1024 ∧ Forall arg_ok args.

(** A line with a count: its first character, the digits, the line end. *)
Definition line (p n : Z) : list Z := p :: dec n ++ [13; 10].

Lemma dec_ok n : 0 ≤ n ≤ 2 ^ 31 → string2ll (dec n) = Some n ∧ 13 ∉ dec n ∧ 0 ∉ dec n ∧ zlen (dec n) ≤ 32.
Proof.
  intros Hn. assert (in_s 64 n) as Hs by (unfold in_s; lia). pose proof (obj_string_decimal n Hs) as Hd. fold (dec n) in Hd.
  split; [by apply string2ll_spec|].
  assert (∀ c, c ∈ dec n → c0 ≤ c ≤ c9) as Hdig.
  { intros c Hc. destruct Hd as [[(_ & HD & _) _]|(ds & (_ & HD & _) & E & Hv & Hz)].
    - apply isdigit_spec. unfold digs in HD. rewrite Forall_forall in HD. by apply HD.
    - pose proof (dval_nonneg ds HD). lia. }
  split; [intros Hc; apply Hdig in Hc; unfold c0, c9 in Hc; lia|]. split; [intros Hc; apply Hdig in Hc; unfold c0 in Hc; lia|].
  destruct (ll2string_room (replicate 32 0) 32 n Hs) as (s & Hds & Hl & _); [done|]. rewrite (decimal_unique (dec n) s n Hd Hds). lia.
Qed.

(** A prefix of a text that starts with a line: the line is complete, or the
    search for its end fails. *)
Lemma line_cases p n q fut T : 0 ≤ n ≤ 2 ^ 31 → p ≠ 13 → p ≠ 0 → q ++ fut = line p n ++ T →
  (∃ q', q = line p n ++ q' ∧ T = q' ++ fut) ∨
  (fut ≠ [] ∧ zlen q ≤ 34 ∧ (strchr_in q 13 = None ∨ strchr_in q 13 = Some (zlen q - 1))).
Proof.
  intros Hn Hp Hp0 E. destruct (dec_ok n Hn) as (_ & H13 & H0 & Hl).
  assert (13 ∉ p :: dec n ∧ 0 ∉ p :: dec n) as [Hn13 Hn0] by (rewrite !not_elem_of_cons; split; split; done || congruence).
  destruct (decide (length (line p n) ≤ length q)%nat) as [Hle|Hgt].
  { left. exists (drop (length (line p n)) q). assert (take (length (line p n)) q = line p n) as Ht.
    { apply (f_equal (take (length (line p n)))) in E. rewrite take_app_length, take_app_le in E by done. done. }
    rewrite <- Ht at 1. rewrite take_drop. split; [done|]. apply (app_inv_head (line p n)). rewrite <- E, app_assoc. f_equal.
    rewrite <- Ht at 1. by rewrite take_drop. }
  right. assert (q = take (length q) (line p n)) as Eq.
  { apply (f_equal (take (length q))) in E. rewrite take_app_length, take_app_le in E by lia. done. }
  split; [intros ->; rewrite app_nil_r in E; apply (f_equal length) in E; rewrite length_app in E; lia|].
  unfold line in Hgt, Eq. rewrite length_cons, length_app in Hgt. cbn [length] in Hgt.
  split; [unfold zlen in *; lia|]. assert (p :: dec n ++ [13; 10] = (p :: dec n) ++ [13; 10]) as El by done. rewrite El in Eq.
  destruct (decide (length q ≤ S (length (dec n)))%nat) as [Hs|Hs].
  - left. rewrite take_app_le in Eq by (rewrite length_cons; lia). apply strchr_in_none; rewrite Eq.
    + intros Hc. apply Hn13. rewrite <- (take_drop (length q) (p :: dec n)). apply elem_of_app. by left.
    + intros Hc. apply Hn0. rewrite <- (take_drop (length q) (p :: dec n)). apply elem_of_app. by left.
  - right. replace (length q) with (length (p :: dec n) + 1)%nat in Eq by (rewrite length_cons; lia). rewrite take_app_add in Eq. cbn [take] in Eq. rewrite Eq.
    rewrite strchr_in_app by done. f_equal. len.
Qed.

(** ** The state of the parser *)

(** Between two requests, before a bulk length, before the bytes of [a]. *)
Inductive stage := Fresh | Args (done todo : list (list Z)) | Body (done : list (list Z)) (a : list Z) (todo : list (list Z)).

(** The text the client still has to see *)
Definition text (st : stage) (cmds : list (list (list Z))) : list Z :=
  match st with
  | Fresh => enc_requests cmds
  | Args _ todo => enc_args todo ++ enc_requests cmds
  | Body _ a todo => a ++ [13; 10] ++ enc_args todo ++ enc_requests cmds
  end.
(** The commands that are not executed yet *)
Definition waiting (st : stage) (cmds : list (list (list Z))) : list (list (list Z)) :=
  match st with Fresh => cmds | Args done todo => (done ++ todo) :: cmds | Body done a todo => (done ++ a :: todo) :: cmds end.

Definition stage_ok (st : stage) : Prop :=
  match st with
  | Fresh => True
  | Args done todo => Forall arg_ok todo
  | Body done a todo => Forall arg_ok (a :: todo)
  end.

(** The fields of the client *)
Definition at_stage (c : client) (st : stage) : Prop :=
  close c = false ∧ replies c = [] ∧ reqtype c = REDIS_REQ_MULTIBULK ∧
  match st with
  | Fresh => multibulklen c = 0 ∧ bulklen c = -1 ∧ argv c = []
  | Args done todo => multibulklen c = zlen todo ∧ bulklen c = -1 ∧ argv c = done
  | Body done a todo => multibulklen c = 1 + zlen todo ∧ bulklen c = zlen a ∧ argv c = done
  end.

(** The buffer from [pos] on is the start of the text. *)
Definition sees (c : client) (pos : Z) (q : list Z) : Prop := ∃ P, querybuf c = P ++ q ∧ zlen P = pos.
(** The buffer is small, or holds one large argument only. *)
Definition fits (c : client) (pos : Z) : Prop :=
  zlen (querybuf c) ≤ REDIS_INLINE_MAX_SIZE ∨ REDIS_MBULK_BIG_ARG ≤ bulklen c ∧ pos = 0 ∧ zlen (querybuf c) ≤ bulklen c + 2.

Lemma sees_pos c pos q : sees c pos q → 0 ≤ pos ≤ zlen (querybuf c) ∧ zlen (querybuf c) = pos + zlen q.
Proof. intros (P & E & HP). rewrite E, zlen_app. pose proof (zlen_nonneg P). pose proof (zlen_nonneg q). lia. Qed.
Lemma sees_trim c pos q : sees c pos q → sees (trim_query c pos) 0 q.
Proof.
  intros (P & E & HP). exists []. cbn. rewrite range_from by (rewrite <- HP; apply zlen_nonneg). rewrite E, drop_app_length' by (unfold zlen in HP; lia). done.
Qed.
Lemma sees_strchr c pos q : sees c pos q → strchr_from (querybuf c) pos 13 = Z.add pos <$> strchr_in q 13.
Proof. intros (P & E & HP). unfold strchr_from. rewrite E, drop_app_length' by (unfold zlen in HP; lia). done. Qed.
Lemma fits_bound c pos : fits c pos → bulklen c ≤ 512 * 1024 * 1024 → zlen (querybuf c) < 2 ^ 30.
Proof. unfold fits, REDIS_INLINE_MAX_SIZE. lia. Qed.

(** ** Rounds of the loop *)

Lemma read_bulklen_parse c pos q fut done a todo cmds :
  at_stage c (Args done (a :: todo)) → arg_ok a → sees c pos q → q ++ fut = text (Args done (a :: todo)) cmds → fits c pos →
  (∃ c' pos' q', read_bulklen c pos = Some (Next c' pos') ∧ at_stage c' (Body done a todo) ∧ sees c' pos' q' ∧
    q' ++ fut = text (Body done a todo) cmds ∧ fits c' pos') ∨
  (read_bulklen c pos = Some (Stop c pos) ∧ fut ≠ [] ∧ zlen q ≤ 34).
Proof.
  unfold arg_ok. intros (Hc & Hrep & Hreq & Hm & Hb & Hargv) Ha Hsee Htext Hfits. pose proof (zlen_nonneg a).
  assert (zlen (querybuf c) ≤ REDIS_INLINE_MAX_SIZE) as Hsmall by (destruct Hfits as [?|(Hbig & _)]; [done|]; rewrite Hb in Hbig; by unfold REDIS_MBULK_BIG_ARG in Hbig).
  destruct (sees_pos c pos q Hsee) as [Hpos Hlen]. unfold read_bulklen. rewrite Hb. cbn [Z.eqb Pos.eqb]. rewrite (sees_strchr c pos q Hsee).
  assert (q ++ fut = line 36 (zlen a) ++ text (Body done a todo) cmds) as Et.
  { rewrite Htext. cbn [text]. unfold enc_args. rewrite fmap_cons. cbn [concat]. unfold enc_bulk, line. by rewrite <- !app_assoc. }
  unfold REDIS_INLINE_MAX_SIZE in *. destruct (line_cases 36 (zlen a) q fut _ ltac:(lia) ltac:(done) ltac:(done) Et) as [(q' & -> & HT)|(Hfut & Hq & Hnl)].
  - left. destruct (dec_ok (zlen a)) as (Hd & H13 & H0 & Hl32); [lia|]. set (D := dec (zlen a)) in *.
    assert (line 36 (zlen a) ++ q' = (36 :: D) ++ 13 :: 10 :: q') as El by (unfold line; fold D; cbn [app]; by rewrite <- app_assoc).
    rewrite El, strchr_in_app by (rewrite not_elem_of_cons; done). cbn [fmap option_fmap option_map]. rewrite zlen_cons.
    rewrite wraps_small by (unfold in_s; lia). rewrite El, zlen_app, !zlen_cons in Hlen. pose proof (zlen_nonneg q'). pose proof (zlen_nonneg D).
    rewrite (proj2 (Z.ltb_ge _ _)) by lia. destruct Hsee as (P & EP & HP). rewrite El in EP. cbn [app] in EP.
    assert (get8 (querybuf c) pos = Some 36) as -> by (rewrite EP; by apply get8_app). cbn [mbind option_bind negb Z.eqb Pos.eqb].
    assert (querybuf c = (P ++ [36]) ++ D ++ 13 :: 10 :: q') as EP2 by (rewrite EP; by rewrite <- app_assoc).
    assert (load (querybuf c) (pos + 1) (pos + (1 + zlen D) - (pos + 1)) = Some D) as -> by (rewrite EP2; apply load_app; len).
    cbn [mbind option_bind]. rewrite Hd, (proj2 (Z.ltb_ge (zlen a) 0)), (proj2 (Z.ltb_ge (512 * 1024 * 1024) (zlen a))) by lia. cbn [orb].
    assert (sees c (pos + (1 + zlen D) + 2) q') as Hsee'.
    { exists (P ++ [36] ++ D ++ [13; 10]). split; [rewrite EP; by rewrite <- !app_assoc|len]. }
    destruct (Z.leb_spec REDIS_MBULK_BIG_ARG (zlen a)) as [Hbig|Hsm].
    + eexists _, 0, q'. split; [done|]. pose proof (sees_trim _ _ _ Hsee') as Ht.
      split; [unfold at_stage, trim_query, set_query; cbn [close replies reqtype multibulklen bulklen argv]; rewrite Hm, zlen_cons; done|]. split; [exact Ht|]. split; [done|]. left. cbn [querybuf].
      destruct (sees_pos _ _ _ Ht) as [_ E0]. cbn in E0 |- *. rewrite E0. unfold REDIS_INLINE_MAX_SIZE. lia.
    + eexists _, _, q'. split; [done|]. split; [unfold at_stage, trim_query, set_query; cbn [close replies reqtype multibulklen bulklen argv]; rewrite Hm, zlen_cons; done|]. split; [exact Hsee'|]. split; [done|]. left. cbn. unfold REDIS_INLINE_MAX_SIZE. lia.
  - right. destruct Hnl as [-> | ->]; cbn [fmap option_fmap option_map].
    + rewrite (proj2 (Z.ltb_ge _ _)) by lia. done.
    + rewrite wraps_small by (unfold in_s; lia). rewrite (proj2 (Z.ltb_lt _ _)) by lia. done.
Qed.

Lemma read_bulk_parse c pos q fut done a todo cmds :
  at_stage c (Body done a todo) → arg_ok a → sees c pos q → q ++ fut = text (Body done a todo) cmds → fits c pos →
  (∃ c' pos' q', read_bulk c pos = Some (Next c' pos') ∧ at_stage c' (Args (done ++ [a]) todo) ∧ sees c' pos' q' ∧
    q' ++ fut = text (Args (done ++ [a]) todo) cmds ∧ fits c' pos') ∨
  (read_bulk c pos = Some (Stop c pos) ∧ fut ≠ [] ∧ zlen q < zlen a + 2).
Proof.
  unfold arg_ok. intros (Hc & Hrep & Hreq & Hm & Hb & Hargv) Ha Hsee Htext Hfits. pose proof (zlen_nonneg a). pose proof (fits_bound c pos Hfits ltac:(lia)) as Hbound.
  destruct (sees_pos c pos q Hsee) as [Hpos Hlen]. pose proof (zlen_nonneg q). unfold read_bulk. rewrite Hb.
  rewrite (wrapu_small 64 (zlen (querybuf c) - pos)), (wrapu_small 32 (zlen a + 2)) by (unfold in_u; lia). rewrite wraps_small by (unfold in_s; lia).
  cbn [text] in Htext. destruct (Z.ltb_spec (zlen (querybuf c) - pos) (zlen a + 2)) as [Hlt|Hge].
  { right. split; [done|]. split; [|lia]. intros ->. rewrite app_nil_r in Htext. rewrite Htext, !zlen_app in Hlen.
    pose proof (zlen_nonneg (enc_args todo)). pose proof (zlen_nonneg (enc_requests cmds)). change (zlen [13; 10]) with 2 in Hlen. lia. }
  left. destruct (cut_at q (zlen a + 2)) as (q1 & q' & -> & Hq1 & Hq'); [lia|].
  assert (q1 = a ++ [13; 10] ∧ q' ++ fut = enc_args todo ++ enc_requests cmds) as [-> Etext].
  { rewrite <- app_assoc in Htext. rewrite (app_assoc a [13; 10]) in Htext. apply app_inj_1 in Htext; [done|]. unfold zlen in *. rewrite length_app. cbn [length]. lia. }
  destruct Hsee as (P & EP & HP). destruct ((pos =? 0) && (REDIS_MBULK_BIG_ARG <=? zlen a) && (zlen (querybuf c) =? zlen a + 2)) eqn:E.
  - bool_tests. rewrite zlen_app in Hlen. assert (q' = []) as -> by (destruct q'; [done|]; revert Hlen; rewrite zlen_cons; pose proof (zlen_nonneg q'); lia).
    assert (P = []) as -> by (destruct P; [done|]; revert HP; rewrite zlen_cons; pose proof (zlen_nonneg P); lia).
    eexists _, 0, []. split; [done|]. assert (take (Z.to_nat (zlen (querybuf c) - 2)) (querybuf c) = a) as ->.
    { rewrite EP. cbn [app]. rewrite app_nil_r, take_app_length'; [done|]. unfold zlen. rewrite length_app. cbn [length]. lia. }
    split; [unfold at_stage; cbn [close replies reqtype multibulklen bulklen argv]; rewrite Hm, Hargv; repeat split; try done; lia|]. split; [by exists []|]. split; [done|]. left. done.
  - assert (load (querybuf c) pos (zlen a) = Some a) as -> by (rewrite EP, <- app_assoc; by apply load_app). cbn [mbind option_bind].
    eexists _, _, q'. split; [done|]. split; [unfold at_stage; cbn [close replies reqtype multibulklen bulklen argv]; rewrite Hm, Hargv; repeat split; try done; lia|].
    split; [exists (P ++ a ++ [13; 10]); cbn; rewrite EP; split; [by rewrite <- !app_assoc|len]|]. split; [done|]. left. cbn.
    destruct Hfits as [?|(Hbig & -> & Hfl)]; [done|]. exfalso. rewrite Hb in *. rewrite (proj2 (Z.leb_le _ _)) in E by done.
    rewrite (proj2 (Z.eqb_eq (zlen (querybuf c)) _)) in E by lia. done.
Qed.

(** What an incomplete request leaves in the buffer *)
Definition left (c : client) (q : list Z) : Prop :=
  zlen q ≤ REDIS_MBULK_BIG_ARG + 1 ∨ multibulklen c ≠ 0 ∧ reqtype c = REDIS_REQ_MULTIBULK ∧ REDIS_MBULK_BIG_ARG ≤ bulklen c ∧ zlen q < bulklen c + 2.

(** The loop ends with the request complete, or with all that has arrived seen. *)
Definition loop_end (r : option round) (fut : list Z) (cmd : list (list Z)) (cmds : list (list (list Z))) : Prop :=
  ∃ c pos q st, r = Some (Stop c pos) ∧ at_stage c st ∧ stage_ok st ∧ sees c pos q ∧ q ++ fut = text st cmds ∧
    (st = Args cmd [] ∧ zlen (querybuf c) ≤ REDIS_INLINE_MAX_SIZE ∨ waiting st cmds = cmd :: cmds ∧ multibulklen c ≠ 0 ∧ fut ≠ [] ∧ left c q).

Lemma bulk_loop_args fut cmds todo : ∀ fuel c pos q done,
  at_stage c (Args done todo) → Forall arg_ok todo → sees c pos q → q ++ fut = text (Args done todo) cmds → fits c pos → (length todo ≤ fuel)%nat →
  loop_end (bulk_loop fuel c pos) fut (done ++ todo) cmds.
Proof.
  induction todo as [|a todo IH]; intros fuel c pos q done Hst Hok Hsee Htext Hfits Hf.
  - assert (bulk_loop fuel c pos = Some (Stop c pos)) as ->.
    { destruct Hst as (_ & _ & _ & Hm & _). destruct fuel; cbn; by rewrite Hm. }
    exists c, pos, q, (Args done []). rewrite app_nil_r. split; [done|]. split; [done|]. split; [done|]. split; [done|]. split; [done|]. left. split; [done|].
    destruct Hfits as [?|(Hbig & _)]; [done|]. destruct Hst as (_ & _ & _ & _ & Hb & _). rewrite Hb in Hbig. by unfold REDIS_MBULK_BIG_ARG in Hbig.
  - destruct fuel as [|fuel]; [cbn in Hf; lia|]. cbn [bulk_loop]. pose proof Hok as [Ha Hok']%Forall_cons. pose proof (zlen_nonneg todo).
    assert (multibulklen c ≠ 0) as Hm0 by (destruct Hst as (_ & _ & _ & -> & _); rewrite zlen_cons; lia).
    rewrite (proj2 (Z.eqb_neq (multibulklen c) 0)) by done.
    destruct (read_bulklen_parse c pos q fut done a todo cmds Hst Ha Hsee Htext Hfits) as [(c1 & pos1 & q1 & -> & Hst1 & Hsee1 & Htext1 & Hfits1)|(-> & Hfut & Hq)]; cbn [mbind option_bind].
    2: { exists c, pos, q, (Args done (a :: todo)). split; [done|]. split; [done|]. split; [done|]. split; [done|]. split; [done|]. right.
         split; [done|]. split; [done|]. split; [done|]. left. unfold REDIS_MBULK_BIG_ARG. lia. }
    destruct (read_bulk_parse c1 pos1 q1 fut done a todo cmds Hst1 Ha Hsee1 Htext1 Hfits1) as [(c2 & pos2 & q2 & -> & Hst2 & Hsee2 & Htext2 & Hfits2)|(-> & Hfut & Hq)]; cbn [mbind option_bind].
    + replace (done ++ a :: todo) with ((done ++ [a]) ++ todo) by by rewrite <- app_assoc. apply (IH fuel c2 pos2 q2); try done. cbn in Hf. lia.
    + assert (multibulklen c1 ≠ 0) as Hm1 by (destruct Hst1 as (_ & _ & _ & -> & _); lia).
      exists c1, pos1, q1, (Body done a todo). split; [done|]. split; [done|]. split; [done|]. split; [done|]. split; [done|]. right.
      split; [done|]. split; [done|]. split; [done|]. destruct Hst1 as (_ & _ & Hreq & _ & Hb & _). unfold left. rewrite Hb.
      destruct (decide (REDIS_MBULK_BIG_ARG ≤ zlen a)); [by right|]. left. lia.
Qed.

Lemma bulk_loop_body fut cmds fuel c pos q done a todo :
  at_stage c (Body done a todo) → Forall arg_ok (a :: todo) → sees c pos q → q ++ fut = text (Body done a todo) cmds → fits c pos → (length todo < fuel)%nat →
  loop_end (bulk_loop fuel c pos) fut (done ++ a :: todo) cmds.
Proof.
  intros Hst Hok Hsee Htext Hfits Hf. destruct fuel as [|fuel]; [lia|]. cbn [bulk_loop]. pose proof Hok as [Ha Hok']%Forall_cons. pose proof (zlen_nonneg todo).
  pose proof (zlen_nonneg a). assert (multibulklen c ≠ 0 ∧ bulklen c = zlen a) as [Hm0 Hb] by (destruct Hst as (_ & _ & _ & -> & -> & _); lia).
  rewrite (proj2 (Z.eqb_neq (multibulklen c) 0)) by done. unfold read_bulklen. rewrite (proj2 (Z.eqb_neq (bulklen c) (-1))) by lia. cbn [mbind option_bind].
  destruct (read_bulk_parse c pos q fut done a todo cmds Hst Ha Hsee Htext Hfits) as [(c2 & pos2 & q2 & -> & Hst2 & Hsee2 & Htext2 & Hfits2)|(-> & Hfut & Hq)]; cbn [mbind option_bind].
  - replace (done ++ a :: todo) with ((done ++ [a]) ++ todo) by by rewrite <- app_assoc. apply (bulk_loop_args fut cmds todo fuel c2 pos2 q2); try done. lia.
  - exists c, pos, q, (Body done a todo). split; [done|]. split; [done|]. split; [done|]. split; [done|]. split; [done|]. right.
    split; [done|]. split; [done|]. split; [done|]. destruct Hst as (_ & _ & Hreq & _). unfold left. rewrite Hb.
    destruct (decide (REDIS_MBULK_BIG_ARG ≤ zlen a)); [by right|]. left. lia.
Qed.

(** ** A call of the parser *)

(** The request [cmd] is complete and [q] follows it, or the client waits. *)
Definition call_end (r : option (bool * client)) (fut : list Z) (st0 : stage) (cmds : list (list (list Z))) : Prop :=
  (∃ c cmd cmds', r = Some (true, c) ∧ waiting st0 cmds = cmd :: cmds' ∧ argv c = cmd ∧ cmd ≠ [] ∧ close c = false ∧ replies c = [] ∧
    querybuf c ++ fut = enc_requests cmds' ∧ zlen (querybuf c) ≤ REDIS_INLINE_MAX_SIZE) ∨
  (∃ c st cmds', r = Some (false, c) ∧ at_stage c st ∧ stage_ok st ∧ (st = Fresh ∨ multibulklen c ≠ 0) ∧ waiting st cmds' = waiting st0 cmds ∧
    querybuf c ++ fut = text st cmds' ∧ fut ≠ [] ∧ left c (querybuf c)).

(** The end of [processMultibulkBuffer] *)
Lemma call_end_loop c pos fut st0 cmd cmds0 cmds :
  0 < multibulklen c → waiting st0 cmds0 = cmd :: cmds → cmd ≠ [] → loop_end (bulk_loop (Z.to_nat (multibulklen c)) c pos) fut cmd cmds →
  call_end (if negb (0 <? multibulklen c) then None else
    r ← bulk_loop (Z.to_nat (multibulklen c)) c pos;
    match r with
    | Stop c pos => let c := if negb (pos =? 0) then trim_query c pos else c in Some (multibulklen c =? 0, c)
    | Error c => Some (false, c)
    | Next _ _ => None
    end) fut st0 cmds0.
Proof.
  intros Hm Hw Hne (c1 & pos1 & q & st & -> & Hst & Hok & Hsee & Htext & Hend). rewrite (proj2 (Z.ltb_lt _ _)) by done. cbn [negb mbind option_bind].
  assert (∃ c2, (if negb (pos1 =? 0) then trim_query c1 pos1 else c1) = c2 ∧ querybuf c2 = q ∧ at_stage c2 st ∧ multibulklen c2 = multibulklen c1 ∧
    bulklen c2 = bulklen c1 ∧ reqtype c2 = reqtype c1) as (c2 & -> & Hq & Hst2 & Hm2 & Hb2 & Hr2).
  { destruct (Z.eqb_spec pos1 0) as [-> |Hn]; cbn [negb]; eexists; (split; [done|]).
    - destruct Hsee as (P & E & HP). destruct P; [|revert HP; len]. done.
    - destruct (sees_trim _ _ _ Hsee) as (P & E & HP). destruct P; [|revert HP; len]. split; [done|]. by destruct st. }
  destruct Hend as [[-> Hsmall]|(Hwait & Hm0 & Hfut & Hleft)].
  - left. destruct Hst2 as (Hc & Hrep & _ & Hmz & _ & Ha). rewrite (proj2 (Z.eqb_eq (multibulklen c2) 0)) by done.
    exists c2, cmd, cmds. split; [done|]. split; [done|]. split; [done|]. split; [done|]. split; [done|]. split; [done|]. rewrite Hq. split; [done|].
    destruct (sees_pos _ _ _ Hsee). lia.
  - right. rewrite (proj2 (Z.eqb_neq (multibulklen c2) 0)) by by rewrite Hm2. exists c2, st, cmds. split; [done|]. split; [done|]. split; [done|]. split; [right; by rewrite Hm2|].
    split; [by rewrite Hwait|]. rewrite Hq. split; [done|]. split; [done|]. unfold left in *. by rewrite Hm2, Hb2, Hr2.
Qed.

Lemma processMultibulkBuffer_parse c fut st cmds :
  at_stage c st → stage_ok st → (st = Fresh ∨ multibulklen c ≠ 0) → Forall request_ok (waiting st cmds) → querybuf c ++ fut = text st cmds → querybuf c ≠ [] → fits c 0 →
  call_end (processMultibulkBuffer c) fut st cmds.
Proof.
  intros Hst Hok Hm0 Hcmds Htext Hne Hfits. assert (sees c 0 (querybuf c)) as Hsee by by exists [].
  unfold processMultibulkBuffer, read_multibulklen. destruct st as [|done todo|done a todo].
  - destruct Hst as (Hc & Hrep & Hreq & Hm & Hb & Ha). rewrite Hm, Ha. cbn [Z.eqb text] in *.
    assert (zlen (querybuf c) ≤ REDIS_INLINE_MAX_SIZE) as Hsmall by (destruct Hfits as [?|(Hbig & _)]; [done|]; rewrite Hb in Hbig; by unfold REDIS_MBULK_BIG_ARG in Hbig).
    unfold REDIS_INLINE_MAX_SIZE in Hsmall. destruct cmds as [|cmd cmds]; [by apply app_nil in Htext as [? _]|].
    apply Forall_cons in Hcmds as [(Hcne & Hcl & Hargs) Hcmds]. pose proof (zlen_nonneg cmd).
    assert (querybuf c ++ fut = line 42 (zlen cmd) ++ text (Args [] cmd) cmds) as Et.
    { rewrite Htext. unfold enc_requests. rewrite fmap_cons. cbn [concat text]. unfold enc_request, line. by rewrite <- !app_assoc. }
    rewrite (sees_strchr c 0 _ Hsee). pose proof (zlen_nonneg (querybuf c)).
    destruct (line_cases 42 (zlen cmd) (querybuf c) fut _ ltac:(lia) ltac:(done) ltac:(done) Et) as [(q' & Eq & HT)|(Hfut & Hq & Hnl)].
    + destruct (dec_ok (zlen cmd)) as (Hd & H13 & Hn0 & Hl32); [lia|]. set (D := dec (zlen cmd)) in *.
      assert (querybuf c = (42 :: D) ++ 13 :: 10 :: q') as El by (rewrite Eq; unfold line; fold D; cbn [app]; by rewrite <- app_assoc).
      assert (strchr_in (querybuf c) 13 = Some (zlen (42 :: D))) as -> by (rewrite El; apply strchr_in_app; by rewrite not_elem_of_cons).
      cbn [fmap option_fmap option_map]. rewrite Z.add_0_l. rewrite wraps_small by (unfold in_s; lia).
      assert (zlen (querybuf c) = zlen (42 :: D) + 2 + zlen q') as Hlen by (rewrite El, zlen_app, !zlen_cons; lia). pose proof (zlen_nonneg q').
      rewrite (proj2 (Z.ltb_ge _ _)) by lia. assert (get8 (querybuf c) 0 = Some 42) as -> by (rewrite El; apply get8_0). cbn [mbind option_bind negb Z.eqb Pos.eqb].
      assert (load (querybuf c) 1 (zlen (42 :: D) - 1) = Some D) as -> by (rewrite El; apply (load_app [42] D (13 :: 10 :: q')); [done|rewrite zlen_cons; lia]).
      cbn [mbind option_bind]. rewrite Hd, (proj2 (Z.ltb_ge (1024 * 1024) _)) by lia. assert (0 < zlen cmd) by (destruct cmd; [done|]; rewrite zlen_cons; pose proof (zlen_nonneg cmd); lia).
      rewrite (proj2 (Z.leb_gt (zlen cmd) 0)) by lia.
      set (c1 := mkClient (querybuf c) (reqtype c) (zlen cmd) (bulklen c) [] (close c) (replies c)).
      apply (call_end_loop c1 (zlen (42 :: D) + 2) fut Fresh cmd (cmd :: cmds) cmds); [done|done|done|].
      apply (bulk_loop_args fut cmds cmd _ c1 _ q' []); [done|done| |done|by left|cbn [multibulklen c1]; unfold zlen; lia].
      exists ((42 :: D) ++ [13; 10]). split; [cbn [querybuf c1]; rewrite El; by rewrite <- app_assoc|rewrite zlen_app; done].
    + right. exists c, Fresh, (cmd :: cmds). assert (left c (querybuf c)) as Hleft by (left; unfold REDIS_MBULK_BIG_ARG; lia).
      split; [|split; [done|]; split; [done|]; split; [by left|]; done]. destruct Hnl as [-> | ->]; cbn [fmap option_fmap option_map mbind option_bind].
      * by rewrite (proj2 (Z.ltb_ge _ _)) by (unfold REDIS_INLINE_MAX_SIZE; lia).
      * rewrite wraps_small by (unfold in_s; lia). by rewrite (proj2 (Z.ltb_lt _ _)) by lia.
  - destruct Hm0 as [?|Hm0]; [done|]. rewrite (proj2 (Z.eqb_neq _ _)) by done. cbn [mbind option_bind].
    assert (multibulklen c = zlen todo) as Hm by by destruct Hst as (_ & _ & _ & Hm & _). pose proof (zlen_nonneg todo).
    apply Forall_cons in Hcmds as [(Hcne & _) _]. apply (call_end_loop c 0 fut (Args done todo) (done ++ todo) cmds cmds); [lia|done|done|].
    apply (bulk_loop_args fut cmds todo _ c 0 (querybuf c)); try done. rewrite Hm. unfold zlen. lia.
  - destruct Hm0 as [?|Hm0]; [done|]. rewrite (proj2 (Z.eqb_neq _ _)) by done. cbn [mbind option_bind].
    assert (multibulklen c = 1 + zlen todo) as Hm by by destruct Hst as (_ & _ & _ & Hm & _). pose proof (zlen_nonneg todo).
    apply Forall_cons in Hcmds as [(Hcne & _) _]. apply (call_end_loop c 0 fut (Body done a todo) (done ++ a :: todo) cmds cmds); [lia|done|done|].
    apply (bulk_loop_body fut cmds _ c 0 (querybuf c)); try done. rewrite Hm. unfold zlen. lia.
Qed.

(** ** Reads *)

(** The client between two reads *)
Definition client_at (c : client) (st : stage) : Prop :=
  at_stage (mkClient (querybuf c) REDIS_REQ_MULTIBULK (multibulklen c) (bulklen c) (argv c) (close c) (replies c)) st ∧
  (reqtype c = REDIS_REQ_MULTIBULK ∨ reqtype c = 0 ∧ st = Fresh) ∧ stage_ok st ∧ (st = Fresh ∨ multibulklen c ≠ 0).

Lemma enc_args_pos todo : todo ≠ [] → 0 < zlen (enc_args todo).
Proof.
  destruct todo as [|a todo]; [done|]. intros _. change (enc_args (a :: todo)) with (36 :: ((dec (zlen a) ++ [13; 10]) ++ a ++ [13; 10]) ++ enc_args todo).
  rewrite zlen_cons. pose proof (zlen_nonneg (((dec (zlen a) ++ [13; 10]) ++ a ++ [13; 10]) ++ enc_args todo)). lia.
Qed.

(** A request takes at least one byte. *)
Lemma text_longer c st cmds cmd cmds' :
  client_at c st → waiting st cmds = cmd :: cmds' → zlen (enc_requests cmds') < zlen (text st cmds).
Proof.
  intros ((_ & _ & _ & Hst) & _ & _ & Hm) Hw. destruct st as [|done todo|done a todo]; cbn [waiting text] in *.
  - subst cmds. unfold enc_requests. rewrite fmap_cons. cbn [concat]. unfold enc_request. rewrite !zlen_app, zlen_cons, zlen_app.
    pose proof (zlen_nonneg (dec (zlen cmd))). pose proof (zlen_nonneg (enc_args cmd)). change (zlen [13; 10]) with 2. lia.
  - injection Hw as _ ->. destruct Hm as [?|Hm]; [done|]. destruct Hst as [Hst _]. cbn in Hst. rewrite zlen_app. pose proof (enc_args_pos todo). destruct todo; [done|]. assert (0 < zlen (enc_args (l :: todo))) by by apply H. lia.
  - injection Hw as _ ->. rewrite !zlen_app. pose proof (zlen_nonneg a). pose proof (zlen_nonneg (enc_args todo)). change (zlen [13; 10]) with 2. lia.
Qed.

(** All seen and nothing to come: no request is incomplete. *)
Lemma text_nil c st cmds : client_at c st → text st cmds = [] → st = Fresh ∧ cmds = [].
Proof.
  intros Hc Ht. destruct (waiting st cmds) as [|cmd cmds'] eqn:Hw.
  - by destruct st; [|done..].
  - pose proof (text_longer c st cmds cmd cmds' Hc Hw) as Hl. rewrite Ht in Hl. pose proof (zlen_nonneg (enc_requests cmds')). by change (zlen []) with 0 in Hl; lia.
Qed.

(** The kernel has [s] for the client; the [n]-th call of [read] gives at most the
    [n]-th of the [sizes], and is not made if nothing has come.  [None] inside: the
    client was freed. *)
Fixpoint serve {W} (processCommand : W → list (list Z) → W * bool * bool) (paused : W → bool) (max : Z) (sizes : list Z) (w : W) (c : client) (s : list Z)
    : option (option (W * client * list Z)) :=
  match sizes with
  | [] => Some (Some (w, c, s))
  | n :: sizes =>
      let k := Z.min n (Z.min (readlen c) (zlen s)) in
      if Z.min n (zlen s) <=? 0 then serve processCommand paused max sizes w c s else
      r ← readQueryFromClient processCommand paused max w c (take (Z.to_nat k) s);
      match r with
      | Some (w, c) => serve processCommand paused max sizes w c (drop (Z.to_nat k) s)
      | None => Some None
      end
  end.

Definition new_client : client := mkClient [] 0 0 (-1) [] false [].

Section serve.
Context {W : Type} (exec : W → list (list Z) → W).

(** Commands that are all accepted *)
Definition accept (w : W) (a : list (list Z)) : W * bool * bool := (exec w a, true, false).
Definition never (_ : W) : bool := false.

Lemma processInputBuffer_parse fut fuel : ∀ w c st cmds,
  client_at c st → Forall request_ok (waiting st cmds) → querybuf c ++ fut = text st cmds → fits c 0 → (length (querybuf c) < fuel)%nat →
  ∃ c' st' cmds' ex, processInputBuffer accept never fuel w c = Some (foldl exec w ex, c') ∧ client_at c' st' ∧
    waiting st cmds = ex ++ waiting st' cmds' ∧ querybuf c' ++ fut = text st' cmds' ∧ left c' (querybuf c') ∧ (fut = [] → querybuf c' = []).
Proof.
  induction fuel as [|fuel IH]; intros w c st cmds Hc Hcmds Htext Hfits Hf; [lia|]. cbn [processInputBuffer].
  destruct (Z.eqb_spec (zlen (querybuf c)) 0) as [Hz|Hz].
  { exists c, st, cmds, []. assert (querybuf c = []) as Hq by (destruct (querybuf c); [done|]; revert Hz; len). split; [done|]. split; [done|]. split; [done|].
    split; [done|]. split; [|done]. rewrite Hq. left. done. }
  assert (querybuf c ≠ []) as Hne by (intros E; by rewrite E in Hz). cbn [never]. pose proof Hc as (Hst & Hreq & Hok & Hm). pose proof Hst as (Hcl & Hrep & _). cbn in Hcl, Hrep.
  rewrite Hcl. set (c1 := if reqtype c =? 0 then _ else c).
  assert (at_stage c1 st ∧ querybuf c1 = querybuf c ∧ multibulklen c1 = multibulklen c ∧ bulklen c1 = bulklen c ∧ reqtype c1 = REDIS_REQ_MULTIBULK) as (Hst1 & Hq1 & Hm1 & Hb1 & Hr1).
  { subst c1. destruct Hreq as [Hreq|[Hreq ->]]; rewrite Hreq; cbn [Z.eqb REDIS_REQ_MULTIBULK].
    - split; [|done]. by destruct c; cbn in *; subst.
    - rewrite bool_decide_true; [rewrite Hcl in Hst; by split; [rewrite <- Hcl in *|]|]. destruct cmds as [|cmd cmds]; cbn [text] in Htext; [by apply app_nil in Htext as [? _]|].
      unfold enc_requests in Htext. rewrite fmap_cons in Htext. cbn [concat] in Htext. unfold enc_request in Htext. destruct (querybuf c); [done|]. by injection Htext as ->. }
  clearbody c1. rewrite Hr1. cbn [Z.eqb Pos.eqb REDIS_REQ_INLINE REDIS_REQ_MULTIBULK].
  destruct (processMultibulkBuffer_parse c1 fut st cmds Hst1 Hok) as [(c2 & cmd & cmds' & -> & Hw & Ha & Hcne & Hcl2 & Hrep2 & Htext2 & Hsmall)|(c2 & st2 & cmds2 & -> & Hst2 & Hok2 & Hm2 & Hw2 & Htext2 & Hfut & Hleft)];
    [by rewrite Hm1|done|by rewrite Hq1|by rewrite Hq1|by unfold fits; rewrite Hq1, Hb1| |]; cbn [mbind option_bind negb].
  - rewrite Ha. destruct cmd as [|a args]; [done|]. cbn [accept].
    destruct (IH (exec w (a :: args)) (resetClient c2) Fresh cmds') as (c' & st' & cmds'' & ex & -> & Hc' & Hw' & Htext' & Hleft' & Hfut').
    + split; [|split; [right; done|]; split; [done|by left]]. unfold at_stage. cbn. rewrite Hcl2, Hrep2. done.
    + rewrite Hw in Hcmds. by apply Forall_cons in Hcmds as [_ ?].
    + done.
    + by left.
    + pose proof (text_longer c st cmds (a :: args) cmds' Hc Hw) as Hl. rewrite <- Htext, <- Htext2, !zlen_app in Hl. cbn. unfold zlen in Hl. lia.
    + exists c', st', cmds'', ((a :: args) :: ex). split; [done|]. split; [done|]. split; [by rewrite Hw; cbn; rewrite <- Hw'|]. done.
  - exists c2, st2, cmds2, []. split; [done|]. split; [|by rewrite Hw2].
    split; [|split; [left; by destruct Hst2 as (_ & _ & ? & _)|done]]. destruct Hst2 as (? & ? & ? & ?). by repeat split.
Qed.

(** How much is read next *)
Lemma readlen_fits c st : client_at c st → left c (querybuf c) →
  1 ≤ readlen c ∧ ∀ d, zlen d ≤ readlen c → fits (set_query c (querybuf c ++ d)) 0.
Proof.
  intros Hc Hl. pose proof (zlen_nonneg (querybuf c)). unfold readlen, fits, left, REDIS_IOBUF_LEN, REDIS_INLINE_MAX_SIZE, REDIS_MBULK_BIG_ARG in *. cbn [querybuf bulklen set_query].
  destruct (decide (reqtype c = REDIS_REQ_MULTIBULK ∧ multibulklen c ≠ 0 ∧ 1024 * 32 ≤ bulklen c)) as [(Hreq & Hm & Hbig)|Hn].
  - rewrite Hreq. rewrite (proj2 (Z.eqb_neq (multibulklen c) 0)), (proj2 (Z.eqb_neq (bulklen c) (-1))), (proj2 (Z.leb_le (1024 * 32) (bulklen c))) by lia.
    cbn [Z.eqb Pos.eqb REDIS_REQ_MULTIBULK negb andb].
    assert (bulklen c ≤ 512 * 1024 * 1024) as Hb.
    { destruct Hc as ((_ & _ & _ & Hst) & _ & Hok & _). destruct st as [|done todo|done a todo]; cbn in Hst, Hok; [lia..|]. apply Forall_cons in Hok as [Ha _]. unfold arg_ok in Ha. lia. }
    assert (zlen (querybuf c) < bulklen c + 2) as Hlt by (destruct Hl; lia).
    rewrite (wrapu_small 32), (wrapu_small 64) by (unfold in_u; rewrite ?wrapu_small by (unfold in_u; lia); lia). rewrite wraps_small by (unfold in_s; lia).
    destruct (Z.ltb_spec (bulklen c + 2 - zlen (querybuf c)) (1024 * 16)); (split; [lia|]); intros d Hd; right; rewrite zlen_app; lia.
  - assert (zlen (querybuf c) ≤ 1024 * 32 + 1) as Hsmall by (destruct Hl as [?|(? & ? & ? & _)]; [done|]; exfalso; by apply Hn).
    rewrite (proj2 (andb_false_iff _ _)).
    + split; [lia|]. intros d Hd. left. rewrite zlen_app. lia.
    + destruct (Z.leb_spec (1024 * 32) (bulklen c)); [|by right]. left. destruct (Z.eqb_spec (reqtype c) REDIS_REQ_MULTIBULK); [|done].
      destruct (Z.eqb_spec (multibulklen c) 0); [done|]. exfalso. by apply Hn.
Qed.

Lemma serve_parse max sizes : 512 * 1024 * 1024 + 2 ≤ max → Forall (λ n, 1 ≤ n) sizes → ∀ w c st cmds s,
  client_at c st → Forall request_ok (waiting st cmds) → querybuf c ++ s = text st cmds → left c (querybuf c) → (s = [] → querybuf c = []) → zlen s ≤ zlen sizes →
  ∃ c', serve accept never max sizes w c s = Some (Some (foldl exec w (waiting st cmds), c', [])) ∧ client_at c' Fresh ∧ querybuf c' = [].
Proof.
  intros Hmax Hsizes. induction Hsizes as [|n sizes Hn _ IH]; intros w c st cmds s Hc Hcmds Htext Hleft Hend Hlen.
  - destruct s as [|x s]; [|revert Hlen; len]. rewrite (Hend eq_refl) in Htext. destruct (text_nil c st cmds Hc (eq_sym Htext)) as [-> ->].
    exists c. split; [done|]. split; [done|by apply Hend].
  - cbn [serve]. cbv zeta. destruct (readlen_fits c st Hc Hleft) as [Hr Hfit]. set (k := Z.min n (Z.min (readlen c) (zlen s))).
    destruct (Z.leb_spec (Z.min n (zlen s)) 0) as [Hk|Hk].
    { assert (s = []) as -> by (destruct s as [|x s]; [done|]; revert Hk; rewrite zlen_cons; pose proof (zlen_nonneg s); lia).
      apply IH; try done. pose proof (zlen_nonneg sizes). done. }
    destruct (cut_at s k) as (d & s' & -> & Hd & Hs'); [lia|]. rewrite take_app_length', drop_app_length' by (unfold zlen in Hd; lia).
    unfold readQueryFromClient. rewrite (proj2 (Z.eqb_neq (zlen d) 0)) by lia. set (c1 := set_query c (querybuf c ++ d)). assert (client_at c1 st) as Hc1 by done.
    assert (fits c1 0) as Hfit1 by (apply Hfit; lia).
    assert (zlen (querybuf c1) ≤ max) as Hm1.
    { destruct Hfit1 as [Hf|(_ & _ & Hf)]; [unfold REDIS_INLINE_MAX_SIZE in Hf; lia|]. destruct Hc as ((_ & _ & _ & Hst) & _ & Hok & _).
      assert (bulklen c1 ≤ 512 * 1024 * 1024); [|lia]. destruct st as [|done todo|done a todo]; cbn in Hst, Hok |- *; [lia..|].
      apply Forall_cons in Hok as [Ha _]. unfold arg_ok in Ha. lia. }
    rewrite (proj2 (Z.ltb_ge _ _)) by done.
    destruct (processInputBuffer_parse s' (S (length (querybuf c1))) w c1 st cmds Hc1 Hcmds) as (c' & st' & cmds' & ex & -> & Hc' & Hw & Htext' & Hleft' & Hend');
      [cbn; rewrite <- Htext; by rewrite <- app_assoc|done|lia|].
    cbn [fmap option_fmap option_map mbind option_bind]. rewrite Hw, foldl_app.
    apply IH; try done; [by rewrite Hw in Hcmds; apply Forall_app in Hcmds as [_ ?]|]. rewrite zlen_app, zlen_cons in Hlen. lia.
Qed.

End serve.

(** ** Correctness *)

(** C16. Fragmentation: a stream of multi bulk requests within the limits of the
    protocol, cut into reads of any sizes, makes the server execute exactly these
    commands in this order, with their arguments byte for byte; nothing is left
    in the query buffer and no error was sent. *)
Theorem requests_fragmented {W} (exec : W → list (list Z) → W) w cmds sizes max :
  Forall request_ok cmds → 512 * 1024 * 1024 + 2 ≤ max → Forall (λ n, 1 ≤ n) sizes → zlen (enc_requests cmds) ≤ zlen sizes →
  ∃ c, serve (accept exec) never max sizes w new_client (enc_requests cmds) = Some (Some (foldl exec w cmds, c, [])) ∧
    querybuf c = [] ∧ argv c = [] ∧ multibulklen c = 0 ∧ bulklen c = -1 ∧ replies c = [] ∧ close c = false.
Proof.
  intros Hcmds Hmax Hsizes Hlen. destruct (serve_parse exec max sizes Hmax Hsizes w new_client Fresh cmds (enc_requests cmds)) as (c & E & Hc & Hq); try done.
  - split; [done|]. split; [by right|]. split; [done|by left].
  - by left.
  - exists c. split; [done|]. destruct Hc as ((Hcl & Hrep & _ & Hm & Hb & Ha) & _). done.
Qed.

(** Two requests, the first one cut everywhere *)
Definition demo_cmds : list (list (list Z)) := [[str "SET"; str "k"; [13; 10; 0; 36]]; [str "GET"; str "k"]].
Lemma requests_fragmented_witness :
  ∃ c, serve (accept (λ log a, log ++ [a])) never (2 ^ 30) (replicate 70 3) [] new_client (enc_requests demo_cmds)
      = Some (Some (foldl (λ log a, log ++ [a]) [] demo_cmds, c, [])) ∧
    querybuf c = [] ∧ argv c = [] ∧ multibulklen c = 0 ∧ bulklen c = -1 ∧ replies c = [] ∧ close c = false.
Proof.
  apply (requests_fragmented (λ log a, log ++ [a]) [] demo_cmds (replicate 70 3) (2 ^ 30)).
  - repeat constructor; done.
  - done.
  - by apply Forall_replicate.
  - vm_compute. done.
Defined.

Section any_input.
Context {W : Type} (processCommand : W → list (list Z) → W * bool * bool) (paused : W → bool).

(** C30. Robustness: whatever bytes a client sends, in whatever pieces, the parser
    never fails one of its assertions and never reads outside of the query
    buffer; it ends in a state from which it can go on, or frees the client
    because its buffer is too long or because [read] returns nothing. *)
Theorem requests_safe sizes w s max :
  (∀ w a w' quit, processCommand w a = (w', false, quit) → quit = true) → 0 ≤ max < 2 ^ 31 →
  ∃ r, serve processCommand paused max sizes w new_client s = Some r ∧ match r with Some (_, c, _) => sane c | None => True end.
Proof.
  intros Hquit Hmax. assert (sane new_client) as Hs by (right; cbn; repeat split; try done; by left).
  revert w s Hs. generalize new_client as c. induction sizes as [|n sizes IH]; intros c w s Hs; [by eexists|]. cbn [serve]. cbv zeta.
  case_if; [by apply IH|]. unfold readQueryFromClient. case_if; [by eexists|]. set (c1 := set_query c _).
  destruct (Z.ltb_spec max (zlen (querybuf c1))) as [Hl|Hl]; [by eexists|].
  assert (sane c1) as Hs1.
  { destruct Hs as [?|(Hq & Hbl & Hm & Hm0 & Hr)]; [by left|]. right. split; [lia|]. split; [done|]. split; [done|]. split; [done|].
    destruct Hr as [?|[?|[Hr Hh]]]; [by left|by right; left|right; right]. split; [done|]. intros Hz. cbn. specialize (Hh Hz). by destruct (querybuf c). }
  destruct (processInputBuffer_safe processCommand paused Hquit (S (length (querybuf c1))) w c1 Hs1) as (w' & c' & -> & Hs'); [lia|].
  cbn [fmap option_fmap option_map mbind option_bind]. by apply IH.
Qed.

End any_input.

Lemma requests_safe_witness :
  ∃ r, serve (accept (λ log a, log ++ [a])) never 1000 [4; 5; 200] [] new_client (str "*2" ++ [13; 10] ++ str "$x") = Some r ∧
    match r with Some (_, c, _) => sane c | None => True end.
Proof. apply (requests_safe (accept (λ log a, log ++ [a])) never [4; 5; 200] [] (str "*2" ++ [13; 10] ++ str "$x") 1000); [by intros ????|done]. Defined.

(** While the clients are paused, the bytes of a big argument are read but not taken
    out of the query buffer; when all are there, [readlen] is 0, and [read] returning
    0 passes for a closed connection. *)
Example paused_client_freed :
  serve (accept (λ log a, log ++ [a])) (λ _, true) (2 ^ 30) [16384; 16384; 2; 1] [] (mkClient [] REDIS_REQ_MULTIBULK 1 32768 [] false []) (replicate 32771 120)
  = Some None ∧
  (let '(w, _, rest) := default ([], new_client, []) (serve (accept (λ log a, log ++ [a])) never (2 ^ 30) [16384; 16384; 2; 1] []
     (mkClient [] REDIS_REQ_MULTIBULK 1 32768 [] false []) (replicate 32771 120) ≫= id) in
   ((λ l : list (list Z), zlen <$> l) <$> w, rest)) = ([[32768]], []).
Proof. split; vm_compute; reflexivity. Qed.

Lemma inline_line c line args eol rest : 10 ∉ line → 0 ∉ line → last line ≠ Some 13 → sdssplitargs line = Some args → eol = [10] ∨ eol = [13; 10] →
  processInlineBuffer (set_query c (line ++ eol ++ rest))
  = (true, mkClient (drop 2 (eol ++ rest)) (reqtype c) (multibulklen c) (bulklen c) (filter (λ a, a ≠ []) args) (close c) (replies c)).
Proof.
  intros H10 H0 Hlast Hargs Heol. unfold processInlineBuffer, strchr_from. cbn [set_query querybuf]. change (drop (Z.to_nat 0) ?b) with b.
  assert (∃ n, strchr_in (line ++ eol ++ rest) 10 = Some n ∧
    (if negb (0 + n =? 0) && bool_decide ((line ++ eol ++ rest) !! Z.to_nat (0 + n - 1) = Some 13) then 0 + n - 1 else 0 + n) = zlen line) as (n & -> & En).
  { destruct Heol as [-> | ->].
    - exists (zlen line). split; [by apply (strchr_in_app line rest)|]. destruct (Z.eqb_spec (0 + zlen line) 0) as [|Hn]; [cbn; lia|]. cbn [negb andb].
      rewrite bool_decide_false; [lia|]. intros E. apply Hlast. rewrite last_lookup, <- E, lookup_app_l; [|unfold zlen in *; lia].
      f_equal. unfold zlen in *. lia.
    - exists (zlen line + 1). split.
      + replace (line ++ [13; 10] ++ rest) with ((line ++ [13]) ++ 10 :: rest) by by rewrite <- app_assoc. rewrite strchr_in_app; [|set_solver..]. f_equal. len.
      + pose proof (zlen_nonneg line). rewrite (proj2 (Z.eqb_neq _ 0)) by lia. cbn [negb andb]. rewrite bool_decide_true; [lia|].
        rewrite lookup_app_r by (unfold zlen; lia). replace (Z.to_nat _ - length line)%nat with 0%nat by (unfold zlen; lia). done. }
  cbn [fmap option_fmap option_map]. cbv zeta. rewrite En, take_app_length' by (unfold zlen; lia). rewrite Hargs. unfold trim_query. cbn [set_query querybuf].
  pose proof (zlen_nonneg line). rewrite range_from by lia. rewrite drop_app_ge by (unfold zlen; lia).
  replace (Z.to_nat (zlen line + 2) - length line)%nat with 2%nat by (unfold zlen; lia). done.
Qed.

(** C31. An inline request that ends in a line feed alone takes with it the first
    byte of what follows it in the query buffer: after any line that can be split
    into arguments, [processInlineBuffer] leaves [drop 1 rest] of the bytes [rest]
    behind the line feed, because [sdsrange(c->querybuf,querylen+2,-1)] skips two
    bytes although the line end has one; behind a carriage return and a line feed it
    leaves all of [rest].  So of two requests that arrive in one read the second is
    garbled; nothing is lost if the second arrives in a later read. *)
Theorem inline_lf_eats_byte c line args rest :
  10 ∉ line → 0 ∉ line → last line ≠ Some 13 → sdssplitargs line = Some args →
  let after q := mkClient q (reqtype c) (multibulklen c) (bulklen c) (filter (λ a, a ≠ []) args) (close c) (replies c) in
  processInlineBuffer (set_query c (line ++ [10] ++ rest)) = (true, after (drop 1 rest)) ∧
  processInlineBuffer (set_query c (line ++ [13; 10] ++ rest)) = (true, after rest) ∧
  serve (accept (λ log a, log ++ [a])) never 1000 [100] [] new_client (str "PING" ++ [10] ++ str "ECHO x" ++ [10])
  = Some (Some ([[str "PING"]; [str "CHO"; str "x"]], new_client, [])) ∧
  serve (accept (λ log a, log ++ [a])) never 1000 [5; 100] [] new_client (str "PING" ++ [10] ++ str "ECHO x" ++ [10])
  = Some (Some ([[str "PING"]; [str "ECHO"; str "x"]], new_client, [])).
Proof.
  intros H10 H0 Hlast Hargs after. rewrite !(inline_line c line args) by auto. split_and!; try done; vm_compute; reflexivity.
Qed.
Lemma inline_lf_eats_byte_witness :
  processInlineBuffer (set_query new_client (str "GET key" ++ [10] ++ str "DEL key" ++ [10]))
  = (true, mkClient (str "EL key" ++ [10]) 0 0 (-1) [str "GET"; str "key"] false []).
Proof. apply (inline_lf_eats_byte new_client (str "GET key") [str "GET"; str "key"] (str "DEL key" ++ [10])); by_decision. Defined.

(** ** The append only file

    The writers of rio.c produce the requests the parser reads. *)

Section aof.
Context {B : Type} `{Stream B} (cbuf : list Z) (Hcbuf : zlen cbuf = 128).

Lemma dec_is_bytes n : in_s 64 n → decimal (dec n) n ∧ bytes_ok (dec n).
Proof. intros Hn. pose proof (obj_string_decimal n Hn) as Hd. split; [done|by eapply decimal_bytes]. Qed.

Lemma rioWriteBulkCount_spec (r : rio B) c room prefix count :
  rio_written r c room → bytes_ok c → byte_ok prefix → 0 ≤ count < 2 ^ 31 → 40 ≤ room →
  ∃ k r', rioWriteBulkCount cbuf r prefix count = Ret (k, r') ∧ k = zlen (line prefix count) ∧ rio_written r' (c ++ line prefix count) (room - k) ∧ k ≤ 40.
Proof using Hcbuf.
  intros Hw Hc Hp Hcount Hroom. unfold rioWriteBulkCount. assert (in_s 64 count) as Hs by (unfold in_s; lia). destruct (dec_is_bytes count Hs) as [Hd Hb].
  destruct (ll2string_room (drop 1 cbuf) (zlen cbuf - 1) count Hs) as (s & Hds & Hl & ->); [unfold zlen in *; rewrite length_drop; lia|].
  rewrite (decimal_unique s (dec count) count Hds Hd) in *. cbn [defined mbind outcome_bind]. set (D := dec count) in *. set (R := drop (S (length D)) (drop 1 cbuf)).
  destruct R as [|x R'] eqn:ER; [apply (f_equal length) in ER; subst R; rewrite !length_drop in ER; cbn [length] in ER; unfold zlen in *; lia|].
  assert (store (prefix :: D ++ 0 :: x :: R') (1 + zlen D) [13; 10] = Some ((prefix :: D) ++ [13; 10] ++ R')) as ->
    by (apply (store_app (prefix :: D) [0; x] R'); [by rewrite zlen_cons|done]).
  assert (zlen (line prefix count) = 1 + zlen D + 2) as El by (unfold line; rewrite zlen_cons, zlen_app; change (zlen [13; 10]) with 2; fold D; lia).
  cbn [defined mbind outcome_bind]. assert (load ((prefix :: D) ++ [13; 10] ++ R') 0 (1 + zlen D + 2) = Some (line prefix count)) as ->.
  { rewrite app_assoc. by apply load_app_0. }
  assert (bytes_ok (line prefix count)) as Hbl by (apply Forall_cons_2; [done|]; apply Forall_app; split; [done|by_decision]).
  cbn [defined mbind outcome_bind]. destruct (rioWrite_spec r c room (line prefix count) Hw Hc Hbl) as (r' & -> & Hw'); [lia|]. cbn [mbind outcome_bind].
  exists (1 + zlen D + 2), r'. rewrite El in *. split; [done|]. split; [done|]. split; [done|lia].
Qed.

Lemma rioWriteBulkString_spec (r : rio B) c room a :
  rio_written r c room → bytes_ok c → bytes_ok a → zlen a < 2 ^ 31 → zlen a + 42 ≤ room →
  ∃ k r', rioWriteBulkString cbuf r a = Ret (k, r') ∧ k = zlen (enc_bulk a) ∧ rio_written r' (c ++ enc_bulk a) (room - k).
Proof using Hcbuf.
  intros Hw Hc Ha Hl Hroom. pose proof (zlen_nonneg a). unfold rioWriteBulkString. cbv zeta. rewrite wraps_small by (unfold in_s; lia).
  destruct (rioWriteBulkCount_spec r c room 36 (zlen a) Hw Hc) as (k & r1 & -> & Ek & Hw1 & Hk); [by_decision|lia|lia|]. cbn [mbind outcome_bind].
  assert (bytes_ok (c ++ line 36 (zlen a))) as Hb1.
  { apply Forall_app. split; [done|]. destruct (dec_is_bytes (zlen a)) as [_ Hb]; [unfold in_s; lia|]. apply Forall_cons_2; [by_decision|]. apply Forall_app. split; [done|by_decision]. }
  assert (∃ r2, (if 0 <? zlen a then rioWrite r1 a else Ret r1) = Ret r2 ∧ rio_written r2 ((c ++ line 36 (zlen a)) ++ a) (room - k - zlen a)) as (r2 & -> & Hw2).
  { destruct (Z.ltb_spec 0 (zlen a)).
    - by apply rioWrite_spec; [..|lia].
    - destruct a; [|revert H2; rewrite zlen_cons; pose proof (zlen_nonneg a); lia]. exists r1. rewrite app_nil_r. change (zlen (@nil Z)) with 0. by rewrite Z.sub_0_r. }
  cbn [mbind outcome_bind]. destruct (rioWrite_spec r2 _ _ [13; 10] Hw2) as (r3 & -> & Hw3); [by apply Forall_app|by_decision|change (zlen [13; 10]) with 2; lia|].
  cbn [mbind outcome_bind]. change (zlen [13; 10]) with 2 in Hw3. assert (zlen (enc_bulk a) = k + zlen a + 2) as Ez by (unfold enc_bulk; fold (line 36 (zlen a)); rewrite !zlen_app, <- Ek; change (zlen [13; 10]) with 2; lia).
  pose proof (zlen_nonneg (line 36 (zlen a))). exists (k + zlen a + 2), r3. rewrite wrapu_small by (unfold in_u; lia). split; [done|]. split; [done|].
  replace (room - (k + zlen a + 2)) with (room - k - zlen a - 2) by lia. unfold enc_bulk. fold (line 36 (zlen a)). rewrite <- !app_assoc in Hw3. exact Hw3.
Qed.

End aof.
