(* ===== verification/Keyspace.v ===== *)
(** * Keyspace: databases, expires and watched keys (redis-3.0.0/src/db.c, multi.c)

    The state of the server that commands on keys share: the databases with their
    dictionaries of values, of expire times and of watched keys, and the clients.
    The dictionaries are finite maps (what [Dict] shows of dict.c); a key is the
    bytes of its string.  Values are string objects in both encodings, or objects
    of other types, whose contents the modelled commands do not look into.

    A function of the server is a state transformer that fails where an assertion
    fails or the behaviour is undefined.  The readings of the clock are a
    parameter, one reading per call of [mstime].

    Left out: reference counts (objects are values; [dbUnshareStringValue] copies
    an object before it is changed), statistics, access times, notifications,
    clients blocked on lists, the slots of a cluster. *)

From stdpp Require Import gmap.
From S2P Require Import Prelude NumConv Objects.

(** ** State *)

Notation key := (list Z) (only parsing).

Definition REDIS_STRING : Z := 0.
Definition REDIS_LIST : Z := 1.
Definition REDIS_SET : Z := 2.
Definition REDIS_ZSET : Z := 3.
Definition REDIS_HASH : Z := 4.

Inductive robj := StringObj (o : enc_obj) | OtherObj (type : Z) (body : list Z).
#[global] Instance robj_eq_dec : EqDecision robj.
Proof. solve_decision. Defined.
Definition robj_type (o : robj) : Z := match o with StringObj _ => REDIS_STRING | OtherObj type _ => type end.

Record redisDb := mkDb {
  db_dict : gmap key robj;
  db_expires : gmap key Z;
  db_watched_keys : gmap key (list Z)
}.

(** The commands of the command table that are modelled *)
Inductive command :=
  | CGet | CSet | CSetnx | CSetex | CPsetex | CAppend | CStrlen | CDel | CExists | CSetrange | CGetrange | CIncr | CDecr | CMget
  | CIncrby | CDecrby | CGetset | CMset | CMsetnx | CSelect | CMove | CRename | CRenamenx
  | CExpire | CExpireat | CPexpire | CPexpireat | CDbsize | CType | CMulti | CExec | CDiscard
  | CFlushdb | CFlushall | CTtl | CPttl | CPersist | CWatch | CUnwatch.
#[global] Instance command_eq_dec : EqDecision command.
Proof. solve_decision. Defined.

(** A queued command and its arguments *)
Record multiCmd := mkMultiCmd { mc_cmd : command; mc_argv : list (list Z) }.

(** [f_multi], [f_dirty_cas] and [f_dirty_exec] are the bits [REDIS_MULTI],
    [REDIS_DIRTY_CAS] and [REDIS_DIRTY_EXEC] of [flags]. *)
Record client := mkClient {
  c_db : nat;
  c_argv : list (list Z);
  f_multi : bool;
  f_dirty_cas : bool;
  f_dirty_exec : bool;
  c_mstate : list multiCmd;
  c_watched_keys : list (nat * key)
}.

(** What the modelled commands do not change: [cf_loading], [cf_masterhost] (the server
    is a slave), [cf_slave_ro], and whether writes are refused because of errors of the
    disk ([cf_disk_error]) or because there are too few good slaves
    ([cf_few_slaves]), the link to the master is down and stale data are not served
    ([cf_stale]), or a script takes too long ([cf_lua_timedout]). *)
Record config := mkConfig {
  cf_loading : bool; cf_masterhost : bool; cf_slave_ro : bool; cf_disk_error : bool; cf_few_slaves : bool; cf_stale : bool;
  cf_lua_timedout : bool
}.

(** [lua_time]: [lua_time_start] while a script runs; [propagated]: what was sent
    to the slaves and the append only file; [reads]: the number of readings of the
    clock so far. *)
Record server := mkServer {
  dbs : list redisDb;
  clients : gmap Z client;
  dirty : Z;
  conf : config;
  lua_time : option Z;
  propagated : list (nat * list (list Z));
  reads : nat
}.

Definition loading (s : server) : bool := cf_loading (conf s).
Definition masterhost (s : server) : bool := cf_masterhost (conf s).

(** ** Server functions *)

Definition M (A : Type) : Type := server → option (A * server).
#[global] Instance M_ret : MRet M := λ A a s, Some (a, s).
#[global] Instance M_bind : MBind M := λ A B f m s, match m s with Some (a, s) => f a s | None => None end.

Definition fail {A} : M A := λ _, None.
Definition assert (b : bool) : M unit := λ s, if b then Some (tt, s) else None.
Definition get : M server := λ s, Some (s, s).
Definition ret {A} (a : A) : M A := mret a.

Definition get_db (i : nat) : M redisDb := λ s, db ← dbs s !! i; Some (db, s).
Definition put_db (i : nat) (db : redisDb) : M unit := λ s,
  Some (tt, mkServer (<[i := db]> (dbs s)) (clients s) (dirty s) (conf s) (lua_time s) (propagated s) (reads s)).
Definition get_client (c : Z) : M client := λ s, cl ← clients s !! c; Some (cl, s).
Definition put_client (c : Z) (cl : client) : M unit := λ s,
  Some (tt, mkServer (dbs s) (<[c := cl]> (clients s)) (dirty s) (conf s) (lua_time s) (propagated s) (reads s)).
Definition put_clients (cs : gmap Z client) : M unit := λ s,
  Some (tt, mkServer (dbs s) cs (dirty s) (conf s) (lua_time s) (propagated s) (reads s)).
Definition add_dirty (n : Z) : M unit := λ s,
  Some (tt, mkServer (dbs s) (clients s) (dirty s + n) (conf s) (lua_time s) (propagated s) (reads s)).
Definition propagate (dbid : nat) (argv : list (list Z)) : M unit := λ s,
  Some (tt, mkServer (dbs s) (clients s) (dirty s) (conf s) (lua_time s) (propagated s ++ [(dbid, argv)]) (reads s)).

(** [for] over a list *)
Fixpoint foreach {A} (l : list A) (f : A → M unit) : M unit :=
  match l with [] => ret tt | x :: l => f x;; foreach l f end.

(** A value of type [long long] *)
Definition ll (v : Z) : M Z := assert (bool_decide (in_s 64 v));; ret v.

Definition set_dict (db : redisDb) (d : gmap key robj) : redisDb := mkDb d (db_expires db) (db_watched_keys db).
Definition set_expires (db : redisDb) (e : gmap key Z) : redisDb := mkDb (db_dict db) e (db_watched_keys db).
Definition set_watched (db : redisDb) (w : gmap key (list Z)) : redisDb := mkDb (db_dict db) (db_expires db) w.
Definition set_argv (cl : client) (a : list (list Z)) : client :=
  mkClient (c_db cl) a (f_multi cl) (f_dirty_cas cl) (f_dirty_exec cl) (c_mstate cl) (c_watched_keys cl).
Definition set_db (cl : client) (i : nat) : client :=
  mkClient i (c_argv cl) (f_multi cl) (f_dirty_cas cl) (f_dirty_exec cl) (c_mstate cl) (c_watched_keys cl).
Definition set_flags (cl : client) (m cas exec : bool) : client :=
  mkClient (c_db cl) (c_argv cl) m cas exec (c_mstate cl) (c_watched_keys cl).
Definition set_mstate (cl : client) (q : list multiCmd) : client :=
  mkClient (c_db cl) (c_argv cl) (f_multi cl) (f_dirty_cas cl) (f_dirty_exec cl) q (c_watched_keys cl).
Definition set_client_watched (cl : client) (w : list (nat * key)) : client :=
  mkClient (c_db cl) (c_argv cl) (f_multi cl) (f_dirty_cas cl) (f_dirty_exec cl) (c_mstate cl) w.
Definition dirty_cas (cl : client) : client := set_flags cl (f_multi cl) true (f_dirty_exec cl).

(** ** Watched keys (multi.c) *)

Definition watchForKey (c : Z) (k : key) : M unit :=
  cl ← get_client c;
  if bool_decide ((c_db cl, k) ∈ c_watched_keys cl) then ret tt else
  db ← get_db (c_db cl);
  let clients := default [] (db_watched_keys db !! k) in
  put_db (c_db cl) (set_watched db (<[k := clients ++ [c]]> (db_watched_keys db)));;
  put_client c (set_client_watched cl (c_watched_keys cl ++ [(c_db cl, k)])).

(** [listDelNode(l, listSearchKey(l, c))] *)
Fixpoint del_node (c : Z) (l : list Z) : option (list Z) :=
  match l with
  | [] => None
  | x :: l => if x =? c then Some l else cons x <$> del_node c l
  end.

(** The body of the loop of [unwatchAllKeys]; [listDelNode] of a client that is not
    in the list is undefined. *)
Definition unwatch_key (c : Z) (wk : nat * key) : M unit :=
  let '(i, k) := wk in
  db ← get_db i;
  match db_watched_keys db !! k with
  | None => fail
  | Some clients =>
      match del_node c clients with
      | None => fail
      | Some clients =>
          put_db i (set_watched db (if bool_decide (clients = []) then delete k (db_watched_keys db)
                                    else <[k := clients]> (db_watched_keys db)));;
          cl ← get_client c;
          put_client c (set_client_watched cl (tail (c_watched_keys cl)))
      end
  end.
Definition unwatchAllKeys (c : Z) : M unit :=
  cl ← get_client c; foreach (c_watched_keys cl) (unwatch_key c).

Definition touchWatchedKey (i : nat) (k : key) : M unit :=
  db ← get_db i;
  match db_watched_keys db !! k with
  | None => ret tt
  | Some clients => foreach clients (λ c, cl ← get_client c; put_client c (dirty_cas cl))
  end.

(** [dbid]: [None] for all the databases *)
Definition touchWatchedKeysOnFlush (dbid : option nat) : M unit :=
  s ← get;
  let touched '(i, k) :=
    match dbid with None => true | Some j => bool_decide (i = j) end && bool_decide (is_Some (dbs s !! i ≫= λ db, db_dict db !! k)) in
  put_clients ((λ cl, if existsb touched (c_watched_keys cl) then dirty_cas cl else cl) <$> clients s).

Definition signalModifiedKey (i : nat) (k : key) : M unit := touchWatchedKey i k.
Definition signalFlushedDb (dbid : option nat) : M unit := touchWatchedKeysOnFlush dbid.

(** ** Databases (db.c) *)

Definition lookupKey (i : nat) (k : key) : M (option robj) := db ← get_db i; ret (db_dict db !! k).

Definition dbAdd (i : nat) (k : key) (val : robj) : M unit :=
  db ← get_db i;
  assert (bool_decide (db_dict db !! k = None));;
  put_db i (set_dict db (<[k := val]> (db_dict db))).

Definition dbOverwrite (i : nat) (k : key) (val : robj) : M unit :=
  db ← get_db i;
  assert (bool_decide (is_Some (db_dict db !! k)));;
  put_db i (set_dict db (<[k := val]> (db_dict db))).

Definition dbExists (i : nat) (k : key) : M bool := db ← get_db i; ret (bool_decide (is_Some (db_dict db !! k))).

Definition dbDelete (i : nat) (k : key) : M bool :=
  db ← get_db i;
  let expires := if bool_decide (db_expires db = ∅) then db_expires db else delete k (db_expires db) in
  put_db i (mkDb (delete k (db_dict db)) expires (db_watched_keys db));;
  ret (bool_decide (is_Some (db_dict db !! k))).

(** The object has to be copied unless it is raw; the contents stay. *)
Definition dbUnshareStringValue (i : nat) (k : key) (o : robj) : M (list Z) :=
  match o with
  | StringObj o =>
      match getDecodedObject (replicate 32 0) o with
      | None => fail
      | Some s => dbOverwrite i k (StringObj (ObjStr s));; ret s
      end
  | OtherObj _ _ => fail
  end.

Definition clear_db (i : nat) : M unit := db ← get_db i; put_db i (mkDb ∅ ∅ (db_watched_keys db)).
Definition emptyDb : M Z :=
  s ← get;
  foreach (seq 0 (length (dbs s))) clear_db;;
  ret (foldr (λ db n, Z.of_nat (size (db_dict db)) + n) 0 (dbs s)).

(** [true]: [REDIS_OK] *)
Definition selectDb (c : Z) (id : Z) : M bool :=
  s ← get; cl ← get_client c;
  if (id <? 0) || (zlen (dbs s) <=? id) then ret false
  else put_client c (set_db cl (Z.to_nat id));; ret true.

(** ** Expires *)

Definition removeExpire (i : nat) (k : key) : M bool :=
  db ← get_db i;
  assert (bool_decide (is_Some (db_dict db !! k)));;
  put_db i (set_expires db (delete k (db_expires db)));;
  ret (bool_decide (is_Some (db_expires db !! k))).

Definition setExpire (i : nat) (k : key) (when : Z) : M unit :=
  db ← get_db i;
  assert (bool_decide (is_Some (db_dict db !! k)));;
  put_db i (set_expires db (<[k := when]> (db_expires db))).

Definition getExpire (i : nat) (k : key) : M Z :=
  db ← get_db i;
  match db_expires db !! k with
  | None => ret (-1)
  | Some when => assert (bool_decide (is_Some (db_dict db !! k)));; ret when
  end.

(** [shared.del] *)
Definition del_argv (k : key) : list (list Z) := [str "DEL"; k].
Definition propagateExpire (i : nat) (k : key) : M unit := propagate i (del_argv k).

Section clock.
Context (clock : nat → Z).

Definition mstime : M Z := λ s,
  Some (clock (reads s), mkServer (dbs s) (clients s) (dirty s) (conf s) (lua_time s) (propagated s) (S (reads s))).

Definition expireIfNeeded (i : nat) (k : key) : M bool :=
  when ← getExpire i k;
  if when <? 0 then ret false else
  s ← get;
  if loading s then ret false else
  now ← (match lua_time s with Some t => ret t | None => mstime end);
  if masterhost s then ret (when <? now) else
  if now <=? when then ret false else
  propagateExpire i k;; dbDelete i k.

Definition lookupKeyRead (i : nat) (k : key) : M (option robj) := expireIfNeeded i k;; lookupKey i k.
Definition lookupKeyWrite (i : nat) (k : key) : M (option robj) := expireIfNeeded i k;; lookupKey i k.

Definition setKey (i : nat) (k : key) (val : robj) : M unit :=
  o ← lookupKeyWrite i k;
  (match o with None => dbAdd i k val | Some _ => dbOverwrite i k val end);;
  removeExpire i k;;
  signalModifiedKey i k.

(** One key of the active expire cycle (redis.c) *)
Definition activeExpireCycleTryExpire (i : nat) (k : key) (now : Z) : M bool :=
  db ← get_db i;
  match db_expires db !! k with
  | None => ret false
  | Some t => if t <? now then propagateExpire i k;; dbDelete i k;; ret true else ret false
  end.

End clock.
