(* ===== verification/Commands.v ===== *)
(** * Commands: commands on keys and strings (redis-3.0.0/src/db.c, t_string.c)

    Every command reads its arguments from the client and returns its reply.
    [None] is a failed assertion, an argument that is not there, or an overflow
    of a signed integer. *)

From stdpp Require Import gmap.
From S2P Require Import Prelude NumConv Objects Sds SdsText Strto Keyspace.

(** ** Replies *)

Inductive error :=
  | EWrongType | ENotInteger | ESyntax | EInvalidExpire | ENoKey | ESameObject | EOutOfRange | EInvalidDb
  | EOffset | ETooBig | EOverflow | EMsetArgs | ENestedMulti | EDiscardWithoutMulti | EExecWithoutMulti | EWatchInMulti
  | EExecAbort | EHmsetArgs | EHashNotInteger | EUnknown | EArity | EMisconf | ENoReplicas | EReadOnly | EMasterDown | ELoading | ESlowScript.
Inductive reply :=
  | ROk | RQueued | RNullBulk | RNullMulti | RInt (v : Z) | RBulk (s : list Z) | RStatus (s : string) | RError (e : error)
  | RMulti (l : list reply).

(** [addReplyBulk(c, o)] of a string object *)
Definition addReplyBulk (o : enc_obj) : M reply :=
  match getDecodedObject (replicate 32 0) o with Some s => ret (RBulk s) | None => fail end.

(** The database and the arguments of the client *)
Definition with_args (c : Z) (f : nat → list (list Z) → M reply) : M reply :=
  cl ← get_client c; f (c_db cl) (c_argv cl).

Definition getLongLongFromObjectOrReply (o : option enc_obj) (f : Z → M reply) : M reply :=
  match getLongLongFromObject o with None => ret (RError ENotInteger) | Some v => f v end.

(** [true]: the reply is an error. *)
Definition checkStringLength (size : Z) : bool := 512 * 1024 * 1024 <? size.

Inductive unit_ := UNIT_SECONDS | UNIT_MILLISECONDS.
Definition to_ms (unit : unit_) (v : Z) : M Z := match unit with UNIT_SECONDS => ll (v * 1000) | UNIT_MILLISECONDS => ret v end.

Section clock.
Context (clock : nat → Z).

(** ** Strings (t_string.c) *)

(** The end of the commands that changed a key *)
Definition modified (i : nat) (k : list Z) (r : reply) : M reply := signalModifiedKey i k;; add_dirty 1;; ret r.

(** What follows the conversion of the expire time; [nx], [xx]: the flags. *)
Definition set_if (i : nat) (nx xx : bool) (k : list Z) (val : robj) (milliseconds : option Z) (ok_reply abort_reply : reply) : M reply :=
  abort ← (if nx then o ← lookupKeyWrite clock i k; ret (bool_decide (is_Some o)) else ret false);
  abort ← (if (abort : bool) then ret true else if xx then o ← lookupKeyWrite clock i k; ret (bool_decide (o = None)) else ret false);
  if (abort : bool) then ret abort_reply else
  setKey clock i k val;;
  add_dirty 1;;
  (match milliseconds with
   | None => ret tt
   | Some ms => now ← mstime clock; when ← ll (now + ms); setExpire i k when
   end);;
  ret ok_reply.
Definition setGenericCommand (i : nat) (nx xx : bool) (k : list Z) (val : robj) (expire : option (list Z)) (unit : unit_) (ok_reply abort_reply : reply) : M reply :=
  match expire with
  | None => set_if i nx xx k val None ok_reply abort_reply
  | Some e =>
      getLongLongFromObjectOrReply (Some (ObjStr e)) (λ milliseconds,
        if milliseconds <=? 0 then ret (RError EInvalidExpire) else
        ms ← to_ms unit milliseconds; set_if i nx xx k val (Some ms) ok_reply abort_reply)
  end.

(** [(a[0] == x || a[0] == X) && (a[1] == y || a[1] == Y) && a[2] == 0] *)
Definition is_option (x y : Z) (a : list Z) : bool :=
  match a ++ [0] with
  | a0 :: a1 :: a2 :: _ => (tolower a0 =? x) && (tolower a1 =? y) && (a2 =? 0)
  | _ => false
  end.

(** The loop over the options: the flags, the expire time and its unit *)
Fixpoint set_options (args : list (list Z)) (nx xx : bool) (expire : option (list Z)) (unit : unit_) : option (bool * bool * option (list Z) * unit_) :=
  match args with
  | [] => Some (nx, xx, expire, unit)
  | a :: args =>
      if is_option 110 120 a then set_options args true xx expire unit
      else if is_option 120 120 a then set_options args nx true expire unit
      else
        match args with
        | next :: args =>
            if is_option 101 120 a then set_options args nx xx (Some next) UNIT_SECONDS
            else if is_option 112 120 a then set_options args nx xx (Some next) UNIT_MILLISECONDS
            else None
        | [] => None
        end
  end.

Definition setCommand (c : Z) : M reply := with_args c (λ i argv,
  match argv with
  | _ :: k :: v :: args =>
      match set_options args false false None UNIT_SECONDS with
      | None => ret (RError ESyntax)
      | Some (nx, xx, expire, unit) =>
          setGenericCommand i nx xx k (StringObj (tryObjectEncoding v)) expire unit ROk RNullBulk
      end
  | _ => fail
  end).
Definition setnxCommand (c : Z) : M reply := with_args c (λ i argv,
  match argv with
  | [_; k; v] => setGenericCommand i true false k (StringObj (tryObjectEncoding v)) None UNIT_SECONDS (RInt 1) (RInt 0)
  | _ => fail
  end).
Definition setex (unit : unit_) (c : Z) : M reply := with_args c (λ i argv,
  match argv with
  | [_; k; e; v] => setGenericCommand i false false k (StringObj (tryObjectEncoding v)) (Some e) unit ROk RNullBulk
  | _ => fail
  end).
Definition setexCommand (c : Z) : M reply := setex UNIT_SECONDS c.
Definition psetexCommand (c : Z) : M reply := setex UNIT_MILLISECONDS c.

(** [true]: [REDIS_OK] *)
Definition getGenericCommand (i : nat) (k : list Z) : M (bool * reply) :=
  o ← lookupKeyRead clock i k;
  match o with
  | None => ret (true, RNullBulk)
  | Some (StringObj o) => r ← addReplyBulk o; ret (true, r)
  | Some (OtherObj _ _) => ret (false, RError EWrongType)
  end.
Definition getCommand (c : Z) : M reply := with_args c (λ i argv,
  match argv with [_; k] => '(_, r) ← getGenericCommand i k; ret r | _ => fail end).
Definition getsetCommand (c : Z) : M reply := with_args c (λ i argv,
  match argv with
  | [_; k; v] =>
      '(ok, r) ← getGenericCommand i k;
      if (ok : bool) then setKey clock i k (StringObj (tryObjectEncoding v));; add_dirty 1;; ret r else ret r
  | _ => fail
  end).

(** [sdsgrowzero] and [memcpy]: [s] with [value] at [offset] *)
Definition set_range (s : list Z) (offset : Z) (value : list Z) : list Z :=
  let s := s ++ replicate (Z.to_nat (offset + zlen value - zlen s)) 0 in
  take (Z.to_nat offset) s ++ value ++ drop (Z.to_nat (offset + zlen value)) s.

(** The end of SETRANGE, on the string the key has.  The assertion is not one of
    t_string.c: it stands for [sdsgrowzero], whose allocation fails for the sizes that
    pass [checkStringLength] only because they are negative as [long long]. *)
Definition write_range (i : nat) (k : list Z) (s : list Z) (offset : Z) (value : list Z) : M reply :=
  assert (offset + zlen value <=? 512 * 1024 * 1024);;
  dbOverwrite i k (StringObj (ObjStr (set_range s offset value)));;
  modified i k (RInt (zlen (set_range s offset value))).
(** [offset+sdslen(value)] is a [size_t], passed as a [long long]. *)
Definition setrangeCommand (c : Z) : M reply := with_args c (λ i argv,
  match argv with
  | [_; k; off; value] =>
      getLongLongFromObjectOrReply (Some (ObjStr off)) (λ offset,
        if offset <? 0 then ret (RError EOffset) else
        let size := i64 (u64 (offset + zlen value)) in
        o ← lookupKeyWrite clock i k;
        match o with
        | None =>
            if zlen value =? 0 then ret (RInt 0) else
            if checkStringLength size then ret (RError ETooBig) else
            dbAdd i k (StringObj (ObjStr []));; write_range i k [] offset value
        | Some (OtherObj _ _) => ret (RError EWrongType)
        | Some (StringObj o) =>
            match stringObjectLen (replicate 32 0) o with
            | None => fail
            | Some olen =>
                if zlen value =? 0 then ret (RInt olen) else
                if checkStringLength size then ret (RError ETooBig) else
                s ← dbUnshareStringValue i k (StringObj o); write_range i k s offset value
            end
        end)
  | _ => fail
  end).

Definition getrangeCommand (c : Z) : M reply := with_args c (λ i argv,
  match argv with
  | [_; k; a; b] =>
      getLongLongFromObjectOrReply (Some (ObjStr a)) (λ start,
      getLongLongFromObjectOrReply (Some (ObjStr b)) (λ end_,
        o ← lookupKeyRead clock i k;
        match o with
        | None => ret (RBulk [])
        | Some (OtherObj _ _) => ret (RError EWrongType)
        | Some (StringObj o) =>
            match getDecodedObject (replicate 32 0) o with
            | None => fail
            | Some s =>
                let strlen := zlen s in
                let start := if start <? 0 then i64 (u64 (strlen + start)) else start in
                let end_ := if end_ <? 0 then i64 (u64 (strlen + end_)) else end_ in
                let start := if start <? 0 then 0 else start in
                let end_ := if end_ <? 0 then 0 else end_ in
                let end_ := if strlen <=? end_ then i64 (u64 (strlen - 1)) else end_ in
                if (end_ <? start) || (strlen =? 0) then ret (RBulk [])
                else match load s start (end_ - start + 1) with Some s => ret (RBulk s) | None => fail end
            end
        end))
  | _ => fail
  end).

Fixpoint mget_loop (i : nat) (keys : list (list Z)) : M (list reply) :=
  match keys with
  | [] => ret []
  | k :: keys =>
      o ← lookupKeyRead clock i k;
      r ← (match o with Some (StringObj o) => addReplyBulk o | _ => ret RNullBulk end);
      l ← mget_loop i keys; ret (r :: l)
  end.
Definition mgetCommand (c : Z) : M reply := with_args c (λ i argv,
  match argv with _ :: keys => l ← mget_loop i keys; ret (RMulti l) | _ => fail end).

(** The arguments of MSET in pairs *)
Fixpoint pairs (args : list (list Z)) : list (list Z * list Z) :=
  match args with k :: v :: args => (k, v) :: pairs args | _ => [] end.
Fixpoint busykeys (i : nat) (kvs : list (list Z * list Z)) : M bool :=
  match kvs with
  | [] => ret false
  | (k, _) :: kvs => o ← lookupKeyWrite clock i k; b ← busykeys i kvs; ret (bool_decide (is_Some o) || b)
  end.
Definition msetGenericCommand (nx : bool) (c : Z) : M reply := with_args c (λ i argv,
  if (zlen argv) mod 2 =? 0 then ret (RError EMsetArgs) else
  let kvs := pairs (tail argv) in
  busy ← (if nx then busykeys i kvs else ret false);
  if (busy : bool) then ret (RInt 0) else
  foreach kvs (λ '(k, v), setKey clock i k (StringObj (tryObjectEncoding v)));;
  add_dirty ((zlen argv - 1) / 2);;
  ret (if nx then RInt 1 else ROk)).
Definition msetCommand (c : Z) : M reply := msetGenericCommand false c.
Definition msetnxCommand (c : Z) : M reply := msetGenericCommand true c.

(** The reply is the decimal string of the value. *)
Definition incrDecrCommand (i : nat) (k : list Z) (incr : Z) : M reply :=
  o ← lookupKeyWrite clock i k;
  match o with
  | Some (OtherObj _ _) => ret (RError EWrongType)
  | _ =>
      let str := match o with Some (StringObj o) => Some o | _ => None end in
      getLongLongFromObjectOrReply str (λ oldvalue,
        if ((incr <? 0) && (oldvalue <? 0) && (incr <? LLONG_MIN - oldvalue)) ||
           ((0 <? incr) && (0 <? oldvalue) && (LLONG_MAX - oldvalue <? incr))
        then ret (RError EOverflow) else
        value ← ll (oldvalue + incr);
        (match o with
         | Some _ => dbOverwrite i k (StringObj (ObjInt value))
         | None => dbAdd i k (StringObj (ObjInt value))
         end);;
        modified i k (RInt value))
  end.
Definition incr_by (incr : Z) (c : Z) : M reply := with_args c (λ i argv,
  match argv with [_; k] => incrDecrCommand i k incr | _ => fail end).
Definition incrCommand (c : Z) : M reply := incr_by 1 c.
Definition decrCommand (c : Z) : M reply := incr_by (-1) c.
Definition incrbyCommand (c : Z) : M reply := with_args c (λ i argv,
  match argv with
  | [_; k; n] => getLongLongFromObjectOrReply (Some (ObjStr n)) (λ incr, incrDecrCommand i k incr)
  | _ => fail
  end).
Definition decrbyCommand (c : Z) : M reply := with_args c (λ i argv,
  match argv with
  | [_; k; n] => getLongLongFromObjectOrReply (Some (ObjStr n)) (λ incr, decr ← ll (- incr); incrDecrCommand i k decr)
  | _ => fail
  end).

Definition appendCommand (c : Z) : M reply := with_args c (λ i argv,
  match argv with
  | [_; k; v] =>
      o ← lookupKeyWrite clock i k;
      match o with
      | None =>
          dbAdd i k (StringObj (tryObjectEncoding v));;
          match stringObjectLen (replicate 32 0) (tryObjectEncoding v) with Some totlen => modified i k (RInt totlen) | None => fail end
      | Some (OtherObj _ _) => ret (RError EWrongType)
      | Some (StringObj o) =>
          match stringObjectLen (replicate 32 0) o with
          | None => fail
          | Some olen =>
              if checkStringLength (olen + zlen v) then ret (RError ETooBig) else
              s ← dbUnshareStringValue i k (StringObj o);
              dbOverwrite i k (StringObj (ObjStr (s ++ v)));;
              modified i k (RInt (zlen (s ++ v)))
          end
      end
  | _ => fail
  end).

Definition strlenCommand (c : Z) : M reply := with_args c (λ i argv,
  match argv with
  | [_; k] =>
      o ← lookupKeyRead clock i k;
      match o with
      | None => ret (RInt 0)
      | Some (OtherObj _ _) => ret (RError EWrongType)
      | Some (StringObj o) =>
          match stringObjectLen (replicate 32 0) o with Some n => ret (RInt n) | None => fail end
      end
  | _ => fail
  end).

(** ** Keys (db.c) *)

Fixpoint del_loop (i : nat) (keys : list (list Z)) : M Z :=
  match keys with
  | [] => ret 0
  | k :: keys =>
      expireIfNeeded clock i k;;
      b ← dbDelete i k;
      (if (b : bool) then signalModifiedKey i k;; add_dirty 1 else ret tt);;
      n ← del_loop i keys; ret (Z.b2z b + n)
  end.
Definition delCommand (c : Z) : M reply := with_args c (λ i argv,
  match argv with _ :: keys => n ← del_loop i keys; ret (RInt n) | _ => fail end).

Definition existsCommand (c : Z) : M reply := with_args c (λ i argv,
  match argv with
  | [_; k] => expireIfNeeded clock i k;; b ← dbExists i k; ret (RInt (Z.b2z b))
  | _ => fail
  end).

(** The [long] is passed to [selectDb] as an [int]. *)
Definition selectCommand (c : Z) : M reply := with_args c (λ i argv,
  match argv with
  | [_; n] =>
      match getLongLongFromObject (Some (ObjStr n)) with
      | None => ret (RError EInvalidDb)
      | Some id => b ← selectDb c (i32 id); ret (if (b : bool) then ROk else RError EInvalidDb)
      end
  | _ => fail
  end).

Definition flushdbCommand (c : Z) : M reply := with_args c (λ i argv,
  db ← get_db i;
  add_dirty (Z.of_nat (size (db_dict db)));;
  signalFlushedDb (Some i);;
  clear_db i;;
  ret ROk).
(** The configuration has no save points ([saveparamslen] is 0) and no child that
    saves; with save points [dirty] would go through an [int] here. *)
Definition flushallCommand (c : Z) : M reply :=
  signalFlushedDb None;;
  n ← emptyDb;
  add_dirty n;;
  add_dirty 1;;
  ret ROk.

Definition dbsizeCommand (c : Z) : M reply := with_args c (λ i argv,
  db ← get_db i; ret (RInt (Z.of_nat (size (db_dict db))))).

Definition type_name (type : Z) : string :=
  if type =? REDIS_STRING then "string" else if type =? REDIS_LIST then "list" else if type =? REDIS_SET then "set"
  else if type =? REDIS_ZSET then "zset" else if type =? REDIS_HASH then "hash" else "unknown".
Definition typeCommand (c : Z) : M reply := with_args c (λ i argv,
  match argv with
  | [_; k] =>
      o ← lookupKeyRead clock i k;
      ret (RStatus (match o with None => "none" | Some o => type_name (robj_type o) end))
  | _ => fail
  end).

(** The end of RENAME, when the new name is free *)
Definition rename_to (i : nat) (src dst : list Z) (o : robj) (expire : Z) (r : reply) : M reply :=
  dbAdd i dst o;;
  (if expire =? -1 then ret tt else setExpire i dst expire);;
  dbDelete i src;;
  signalModifiedKey i src;;
  signalModifiedKey i dst;;
  add_dirty 1;;
  ret r.
Definition renameGenericCommand (nx : bool) (c : Z) : M reply := with_args c (λ i argv,
  match argv with
  | [_; src; dst] =>
      if bool_decide (src = dst) then ret (RError ESameObject) else
      o ← lookupKeyWrite clock i src;
      match o with
      | None => ret (RError ENoKey)
      | Some o =>
          expire ← getExpire i src;
          d ← lookupKeyWrite clock i dst;
          let r := if nx then RInt 1 else ROk in
          match d with
          | Some _ => if nx then ret (RInt 0) else dbDelete i dst;; rename_to i src dst o expire r
          | None => rename_to i src dst o expire r
          end
      end
  | _ => fail
  end).
Definition renameCommand (c : Z) : M reply := renameGenericCommand false c.
Definition renamenxCommand (c : Z) : M reply := renameGenericCommand true c.

Definition moveCommand (c : Z) : M reply := with_args c (λ src argv,
  match argv with
  | [_; k; n] =>
      match getLongLongFromObject (Some (ObjStr n)) with
      | None => ret (RError EOutOfRange)
      | Some dbid =>
          if (dbid <? - 2 ^ 31) || (2 ^ 31 - 1 <? dbid) then ret (RError EOutOfRange) else
          b ← selectDb c dbid;
          if negb b then ret (RError EOutOfRange) else
          cl ← get_client c;
          let dst := c_db cl in
          selectDb c (Z.of_nat src);;
          if bool_decide (src = dst) then ret (RError ESameObject) else
          o ← lookupKeyWrite clock src k;
          match o with
          | None => ret (RInt 0)
          | Some o =>
              d ← lookupKeyWrite clock dst k;
              match d with
              | Some _ => ret (RInt 0)
              | None => dbAdd dst k o;; dbDelete src k;; add_dirty 1;; ret (RInt 1)
              end
          end
      end
  | _ => fail
  end).

(** ** Expires *)

Definition expireGenericCommand (basetime : Z) (unit : unit_) (c : Z) : M reply := with_args c (λ i argv,
  match argv with
  | [_; k; param] =>
      getLongLongFromObjectOrReply (Some (ObjStr param)) (λ when,
        when ← to_ms unit when;
        when ← ll (when + basetime);
        o ← lookupKeyRead clock i k;
        match o with
        | None => ret (RInt 0)
        | Some _ =>
            now ← mstime clock;
            s ← get;
            if (when <=? now) && negb (loading s) && negb (masterhost s) then
              b ← dbDelete i k;
              assert b;;
              add_dirty 1;;
              cl ← get_client c;
              put_client c (set_argv cl (del_argv k));;
              signalModifiedKey i k;;
              ret (RInt 1)
            else
              setExpire i k when;;
              modified i k (RInt 1)
        end)
  | _ => fail
  end).
Definition expireCommand (c : Z) : M reply := now ← mstime clock; expireGenericCommand now UNIT_SECONDS c.
Definition expireatCommand (c : Z) : M reply := expireGenericCommand 0 UNIT_SECONDS c.
Definition pexpireCommand (c : Z) : M reply := now ← mstime clock; expireGenericCommand now UNIT_MILLISECONDS c.
Definition pexpireatCommand (c : Z) : M reply := expireGenericCommand 0 UNIT_MILLISECONDS c.

Definition ttlGenericCommand (output_ms : bool) (c : Z) : M reply := with_args c (λ i argv,
  match argv with
  | [_; k] =>
      o ← lookupKeyRead clock i k;
      match o with
      | None => ret (RInt (-2))
      | Some _ =>
          expire ← getExpire i k;
          ttl ← (if expire =? -1 then ret (-1) else
                 now ← mstime clock; ttl ← ll (expire - now); ret (if ttl <? 0 then 0 else ttl));
          ret (RInt (if ttl =? -1 then -1 else if output_ms then ttl else (ttl + 500) / 1000))
      end
  | _ => fail
  end).
Definition ttlCommand (c : Z) : M reply := ttlGenericCommand false c.
Definition pttlCommand (c : Z) : M reply := ttlGenericCommand true c.

Definition persistCommand (c : Z) : M reply := with_args c (λ i argv,
  match argv with
  | [_; k] =>
      db ← get_db i;
      match db_dict db !! k with
      | None => ret (RInt 0)
      | Some _ =>
          b ← removeExpire i k;
          if (b : bool) then add_dirty 1;; ret (RInt 1) else ret (RInt 0)
      end
  | _ => fail
  end).

End clock.
