(* ===== verification/HashCommands.v ===== *)
(** * HashCommands: the commands on hashes (redis-3.0.0/src/t_hash.c)

    Each command is a function on the object of its key, [None] if the key does not
    exist, from the lookup on: it returns the object that is left, [None] if the key
    was deleted, and the reply.  [None] as the result is a failed assertion, a
    pointer outside of its block or an overflow. *)

From stdpp Require Import gmap.
From S2P Require Import Prelude Endian NumConv Objects Dict DictFacts DictIter SetType Ziplist Strto Keyspace Commands HashType.

Section commands.
Context (be : host) (junk : nat → Z).
Context (can_resize : bool) (hashF : list Z → Z) (cmp : list Z → list Z → bool).
Context (hash_max_ziplist_entries hash_max_ziplist_value : Z) (t0 t1 : Z).

Local Notation hashTypeSet := (hashTypeSet be junk can_resize hashF cmp hash_max_ziplist_entries t0 t1).
Local Notation hashTypeTryConversion := (hashTypeTryConversion be can_resize hashF cmp hash_max_ziplist_value t0 t1).
Local Notation hashTypeDelete := (hashTypeDelete be junk can_resize hashF cmp).
Local Notation hashTypeExists := (hashTypeExists be hashF cmp).
Local Notation hashTypeGetObject := (hashTypeGetObject be hashF cmp).
Local Notation hashTypeLength := (hashTypeLength be).

(** A bulk reply with the string of an object *)
Definition bulk (o : enc_obj) : option reply := s ← getDecodedObject (replicate 32 0) o; Some (RBulk s).

Definition hashTypeLookupWriteOrCreate (o : option hashobj) : option hashobj :=
  match o with Some o => Some o | None => createHashObject be junk end.

(** [hashTypeTryObjectEncoding] and [hashTypeSet] of two arguments *)
Definition set_args (o : hashobj) (field value : list Z) : option (hashobj * bool) :=
  hashTypeSet o (hashTypeTryObjectEncoding o (ObjStr field)) (hashTypeTryObjectEncoding o (ObjStr value)).

Definition hsetCommand (o : option hashobj) (field value : list Z) : option (option hashobj * reply) :=
  o ← hashTypeLookupWriteOrCreate o;
  o ← hashTypeTryConversion o [ObjStr field; ObjStr value];
  '(o, update) ← set_args o field value;
  Some (Some o, RInt (if (update : bool) then 0 else 1)).

Definition hsetnxCommand (o : option hashobj) (field value : list Z) : option (option hashobj * reply) :=
  o ← hashTypeLookupWriteOrCreate o;
  o ← hashTypeTryConversion o [ObjStr field; ObjStr value];
  '(o, exists_) ← hashTypeExists o (ObjStr field);
  if (exists_ : bool) then Some (Some o, RInt 0) else
  '(o, _) ← set_args o field value;
  Some (Some o, RInt 1).

(** [args]: the arguments after the key *)
Fixpoint hmset_loop (o : hashobj) (args : list (list Z)) : option hashobj :=
  match args with
  | field :: value :: args => '(o, _) ← set_args o field value; hmset_loop o args
  | _ => Some o
  end.
Definition hmsetCommand (o : option hashobj) (args : list (list Z)) : option (option hashobj * reply) :=
  if zlen args mod 2 =? 1 then Some (o, RError EHmsetArgs) else
  o ← hashTypeLookupWriteOrCreate o;
  o ← hashTypeTryConversion o (ObjStr <$> args);
  o ← hmset_loop o args;
  Some (Some o, ROk).

(** What follows the value of the field *)
Definition hincr (o : hashobj) (field : list Z) (value incr : Z) : option (option hashobj * reply) :=
  if ((incr <? 0) && (value <? 0) && (incr <? - 2 ^ 63 - value)) || ((0 <? incr) && (0 <? value) && (2 ^ 63 - 1 - value <? incr))
  then Some (Some o, RError EOverflow) else
  let value := value + incr in
  if bool_decide (in_s 64 value) then
    '(o, _) ← hashTypeSet o (hashTypeTryObjectEncoding o (ObjStr field)) (createStringObjectFromLongLong value);
    Some (Some o, RInt value)
  else None.
Definition hincrbyCommand (o : option hashobj) (field incr : list Z) : option (option hashobj * reply) :=
  match getLongLongFromObject (Some (ObjStr incr)) with
  | None => Some (o, RError ENotInteger)
  | Some incr =>
      o ← hashTypeLookupWriteOrCreate o;
      '(o, current) ← hashTypeGetObject o (ObjStr field);
      match current with
      | None => hincr o field 0 incr
      | Some c =>
          match getLongLongFromObject (Some c) with
          | None => Some (Some o, RError EHashNotInteger)
          | Some value => hincr o field value incr
          end
      end
  end.

Definition addHashFieldToReply (o : option hashobj) (field : list Z) : option (option hashobj * reply) :=
  match o with
  | None => Some (None, RNullBulk)
  | Some (HashZl zl) =>
      v ← hashTypeGetFromZiplist be zl (ObjStr field);
      match v with None => Some (o, RNullBulk) | Some v => r ← bulk (zval_object v); Some (o, r) end
  | Some (HashHt d) =>
      '(d, v) ← hashTypeGetFromHashTable hashF cmp d (ObjStr field);
      match v with None => Some (Some (HashHt d), RNullBulk) | Some v => r ← bulk v; Some (Some (HashHt d), r) end
  end.
Definition hgetCommand (o : option hashobj) (field : list Z) : option (option hashobj * reply) := addHashFieldToReply o field.
Fixpoint hmget_loop (o : option hashobj) (fields : list (list Z)) : option (option hashobj * list reply) :=
  match fields with
  | [] => Some (o, [])
  | field :: fields => '(o, r) ← addHashFieldToReply o field; '(o, rs) ← hmget_loop o fields; Some (o, r :: rs)
  end.
Definition hmgetCommand (o : option hashobj) (fields : list (list Z)) : option (option hashobj * reply) :=
  '(o, rs) ← hmget_loop o fields; Some (o, RMulti rs).

(** [None]: the key was removed *)
Fixpoint hdel_loop (o : hashobj) (fields : list (list Z)) (deleted : Z) : option (option hashobj * Z) :=
  match fields with
  | [] => Some (Some o, deleted)
  | field :: fields =>
      '(o, b) ← hashTypeDelete o (ObjStr field);
      if (b : bool) then
        '(o, n) ← hashTypeLength o;
        if n =? 0 then Some (None, i32 (deleted + 1)) else hdel_loop o fields (i32 (deleted + 1))
      else hdel_loop o fields deleted
  end.
Definition hdelCommand (o : option hashobj) (fields : list (list Z)) : option (option hashobj * reply) :=
  match o with
  | None => Some (None, RInt 0)
  | Some o => '(o, deleted) ← hdel_loop o fields 0; Some (o, RInt deleted)
  end.

Definition hlenCommand (o : option hashobj) : option (option hashobj * reply) :=
  match o with
  | None => Some (None, RInt 0)
  | Some o => '(o, n) ← hashTypeLength o; Some (Some o, RInt n)
  end.

Definition addHashIteratorCursorToReply (o : hashobj) (hi : hashTypeIterator) (key : bool) : option reply :=
  match hi, o with
  | HiZl fptr vptr, HashZl zl => v ← hashTypeCurrentFromZiplist be zl fptr vptr key; bulk (zval_object v)
  | HiHt _ de, HashHt _ => value ← hashTypeCurrentFromHashTable de key; bulk value
  | _, _ => None
  end.
(** [key], [value]: the flags; [count] is the length of the replies. *)
Fixpoint hgetall_loop (fuel : nat) (key value : bool) (o : hashobj) (hi : hashTypeIterator) : option (hashobj * list reply) :=
  match fuel with
  | O => None
  | S fuel =>
      '(o, hi, ok) ← hashTypeNext be t0 t1 o hi;
      if (ok : bool) then
        k ← (if key then r ← addHashIteratorCursorToReply o hi true; Some [r] else Some []);
        v ← (if value then r ← addHashIteratorCursorToReply o hi false; Some [r] else Some []);
        '(o, rs) ← hgetall_loop fuel key value o hi;
        Some (o, k ++ v ++ rs)
      else o ← hashTypeReleaseIterator t0 t1 o hi; Some (o, [])
  end.
Definition genericHgetallCommand (fuel : nat) (key value : bool) (o : option hashobj) : option (option hashobj * reply) :=
  match o with
  | None => Some (None, RMulti [])
  | Some o =>
      let multiplier := (if key then 1 else 0) + (if value then 1 else 0) in
      '(o, n) ← hashTypeLength o;
      let length := i32 (u64 (n * multiplier)) in
      '(o, rs) ← hgetall_loop fuel key value o (hashTypeInitIterator o);
      if zlen rs =? length then Some (Some o, RMulti rs) else None (* assert *)
  end.
Definition hkeysCommand (fuel : nat) := genericHgetallCommand fuel true false.
Definition hvalsCommand (fuel : nat) := genericHgetallCommand fuel false true.
Definition hgetallCommand (fuel : nat) := genericHgetallCommand fuel true true.

Definition hexistsCommand (o : option hashobj) (field : list Z) : option (option hashobj * reply) :=
  match o with
  | None => Some (None, RInt 0)
  | Some o => '(o, b) ← hashTypeExists o (ObjStr field); Some (Some o, RInt (if (b : bool) then 1 else 0))
  end.

End commands.
