(* ===== verification/ListCommands.v ===== *)
(** * ListCommands: the commands on lists (redis-3.0.0/src/t_list.c)

    Each command is a function on the heap and the object of its key, [None] if the
    key does not exist, from the lookup on: it returns the object that is left,
    [None] if the key was deleted, and the reply.  [None] as the result is a failed
    assertion, a pointer that cannot be read, or an overflow. *)

From stdpp Require Import gmap.
From S2P Require Import Prelude Endian NumConv Objects DictHash SetType Ziplist HashType Strto Keyspace Commands HashCommands Adlist ListType.

Section commands.
Context (be : host) (junk : nat → Z) (memcmp : list Z → list Z → Z) (buf : list Z).
Context (list_max_ziplist_entries list_max_ziplist_value : Z).

Local Notation heap := (gmap loc (listNode enc_obj)).
Local Notation result := (option (heap * option listobj * reply)).
Local Notation listTypePush := (listTypePush be junk list_max_ziplist_entries list_max_ziplist_value).
Local Notation listTypeTryConversion := (listTypeTryConversion be list_max_ziplist_value).
Local Notation listTypeEqual := (listTypeEqual be memcmp buf).

(** The arguments are pushed one by one. *)
Fixpoint push_loop (h : heap) (lobj : option listobj) (args : list (list Z)) (where_head : bool) : option (heap * option listobj) :=
  match args with
  | [] => Some (h, lobj)
  | a :: args =>
      lobj ← match lobj with None => createZiplistObject be junk | Some lobj => Some lobj end;
      '(h, lobj) ← listTypePush h lobj (tryObjectEncoding a) where_head;
      push_loop h (Some lobj) args where_head
  end.
Definition pushGenericCommand (h : heap) (lobj : option listobj) (args : list (list Z)) (where_head : bool) : result :=
  '(h, lobj) ← push_loop h lobj args where_head;
  match lobj with
  | None => Some (h, None, RInt 0)
  | Some lobj => '(lobj, n) ← listTypeLength be lobj; Some (h, Some lobj, RInt n)
  end.
Definition lpushCommand (h : heap) (lobj : option listobj) (args : list (list Z)) : result := pushGenericCommand h lobj args true.
Definition rpushCommand (h : heap) (lobj : option listobj) (args : list (list Z)) : result := pushGenericCommand h lobj args false.

(** [refval] is sought from head to tail. *)
Fixpoint insert_loop (fuel : nat) (h : heap) (subject : listobj) (iter : listTypeIterator) (refval val : enc_obj) (where_tail : bool) : option (heap * listobj * bool) :=
  match fuel with
  | O => None
  | S fuel =>
      '(iter, entry) ← listTypeNext be h subject iter;
      match entry with
      | None => Some (h, subject, false)
      | Some entry =>
          eq ← listTypeEqual h subject entry refval;
          if (eq : bool) then '(h, subject) ← listTypeInsert be junk h subject entry val where_tail; Some (h, subject, true)
          else insert_loop fuel h subject iter refval val where_tail
      end
  end.
(** [refval = None]: NULL *)
Definition pushxGenericCommand (fuel : nat) (h : heap) (subject : option listobj) (refval : option enc_obj) (val : enc_obj) (where_tail : bool) : result :=
  match subject, refval with
  | None, _ => Some (h, None, RInt 0)
  | Some subject, Some refval =>
      '(h, subject) ← listTypeTryConversion h subject val;
      iter ← listTypeInitIterator be h subject 0 true;
      '(h, subject, inserted) ← insert_loop fuel h subject iter refval val where_tail;
      if (inserted : bool) then
        '(h, subject) ← match subject with
                        | ListZl zl => '(zl, n) ← ziplistLen be zl; if list_max_ziplist_entries <? n then listTypeConvert be h (ListZl zl) else Some (h, ListZl zl)
                        | ListLl _ => Some (h, subject)
                        end;
        '(subject, n) ← listTypeLength be subject;
        Some (h, Some subject, RInt n)
      else Some (h, Some subject, RInt (-1))
  | Some subject, None =>
      '(h, subject) ← listTypePush h subject val (negb where_tail);
      '(subject, n) ← listTypeLength be subject;
      Some (h, Some subject, RInt n)
  end.
Definition lpushxCommand (fuel : nat) (h : heap) (o : option listobj) (arg : list Z) : result := pushxGenericCommand fuel h o None (tryObjectEncoding arg) false.
Definition rpushxCommand (fuel : nat) (h : heap) (o : option listobj) (arg : list Z) : result := pushxGenericCommand fuel h o None (tryObjectEncoding arg) true.
Definition linsertCommand (fuel : nat) (h : heap) (o : option listobj) (place refval val : list Z) : result :=
  if strcaseeq place (str "after") then pushxGenericCommand fuel h o (Some (ObjStr refval)) (tryObjectEncoding val) true
  else if strcaseeq place (str "before") then pushxGenericCommand fuel h o (Some (ObjStr refval)) (tryObjectEncoding val) false
  else Some (h, o, RError ESyntax).

Definition llenCommand (h : heap) (o : option listobj) : result :=
  match o with None => Some (h, None, RInt 0) | Some o => '(o, n) ← listTypeLength be o; Some (h, Some o, RInt n) end.

(** [ziplistIndex] takes an [int]. *)
Definition lindexCommand (h : heap) (o : option listobj) (arg : list Z) : result :=
  match o with
  | None => Some (h, None, RNullBulk)
  | Some o' =>
      match getLongLongFromObject (Some (ObjStr arg)) with
      | None => Some (h, o, RError ENotInteger)
      | Some index =>
          match o' with
          | ListZl zl =>
              p ← ziplistIndex be zl (i32 index);
              v ← ziplistGet be zl p;
              match v with None => Some (h, o, RNullBulk) | Some v => r ← bulk (zval_object v); Some (h, o, r) end
          | ListLl l =>
              ln ← listIndex h l index;
              match ln with None => Some (h, o, RNullBulk) | Some ln => n ← h !! ln; r ← bulk (value n); Some (h, o, r) end
          end
      end
  end.

Definition lsetCommand (h : heap) (o : option listobj) (arg val : list Z) : result :=
  match o with
  | None => Some (h, None, RError ENoKey)
  | Some o' =>
      let val := tryObjectEncoding val in
      match getLongLongFromObject (Some (ObjStr arg)) with
      | None => Some (h, o, RError ENotInteger)
      | Some index =>
          '(h, o) ← listTypeTryConversion h o' val;
          match o with
          | ListZl zl =>
              p ← ziplistIndex be zl (i32 index);
              match p with
              | None => Some (h, Some o, RError EOutOfRange)
              | Some p =>
                  '(zl, p) ← ziplistDelete be junk zl p;
                  val ← getDecodedObject (replicate 32 0) val;
                  zl ← ziplistInsert be junk zl p val;
                  Some (h, Some (ListZl zl), ROk)
              end
          | ListLl l =>
              ln ← listIndex h l index;
              match ln with
              | None => Some (h, Some o, RError EOutOfRange)
              | Some ln => n ← h !! ln; Some (<[ln := mkNode (prev n) (next n) val]> h, Some o, ROk)
              end
          end
      end
  end.

Definition popGenericCommand (h : heap) (o : option listobj) (where_head : bool) : result :=
  match o with
  | None => Some (h, None, RNullBulk)
  | Some o =>
      '(h, o, value) ← listTypePop be junk h o where_head;
      match value with
      | None => Some (h, Some o, RNullBulk)
      | Some value =>
          r ← bulk value;
          '(o, n) ← listTypeLength be o;
          Some (h, if n =? 0 then None else Some o, r)
      end
  end.
Definition lpopCommand (h : heap) (o : option listobj) : result := popGenericCommand h o true.
Definition rpopCommand (h : heap) (o : option listobj) : result := popGenericCommand h o false.

(** The range of indices from [start] to [end_] of a list of [llen] elements: [None]
    if it is empty *)
Definition convert_range (llen start end_ : Z) : option (Z * Z) :=
  let start := if start <? 0 then llen + start else start in
  let end_ := if end_ <? 0 then llen + end_ else end_ in
  let start := if start <? 0 then 0 else start in
  if (end_ <? start) || (llen <=? start) then None else Some (start, if llen <=? end_ then llen - 1 else end_).

(** [while(rangelen--)] *)
Fixpoint range_zl (rangelen : nat) (zl : list Z) (p : option Z) : option (list reply) :=
  match rangelen with
  | O => Some []
  | S rangelen =>
      v ← ziplistGet be zl p; v ← v;
      r ← bulk (zval_object v);
      p ← p; p ← ziplistNext zl p;
      rs ← range_zl rangelen zl p; Some (r :: rs)
  end.
Fixpoint range_ll (rangelen : nat) (h : heap) (ln : ptr) : option (list reply) :=
  match rangelen with
  | O => Some []
  | S rangelen => n ← deref h ln; r ← bulk (value n); rs ← range_ll rangelen h (next n); Some (r :: rs)
  end.
Definition lrangeCommand (h : heap) (o : option listobj) (arg1 arg2 : list Z) : result :=
  match getLongLongFromObject (Some (ObjStr arg1)), getLongLongFromObject (Some (ObjStr arg2)) with
  | Some start, Some end_ =>
      match o with
      | None => Some (h, None, RMulti [])
      | Some o =>
          '(o, llen) ← listTypeLength be o;
          match convert_range llen start end_ with
          | None => Some (h, Some o, RMulti [])
          | Some (start, end_) =>
              let rangelen := Z.to_nat (end_ - start + 1) in
              rs ← match o with
                   | ListZl zl => p ← ziplistIndex be zl (i32 start); range_zl rangelen zl p
                   | ListLl l => ln ← listIndex h l (if llen / 2 <? start then start - llen else start); range_ll rangelen h ln
                   end;
              Some (h, Some o, RMulti rs)
          end
      end
  | _, _ => Some (h, o, RError ENotInteger)
  end.

(** [for (j = 0; j < n; j++)] at one end *)
Fixpoint trim_loop (n : nat) (h : heap) (l : alist enc_obj) (at_head : bool) : option (heap * alist enc_obj) :=
  match n with
  | O => Some (h, l)
  | S n => ln ← (if at_head then head l else tail l); '(h, l, _) ← listDelNode h l ln; trim_loop n h l at_head
  end.
Definition ltrimCommand (h : heap) (o : option listobj) (arg1 arg2 : list Z) : result :=
  match getLongLongFromObject (Some (ObjStr arg1)), getLongLongFromObject (Some (ObjStr arg2)) with
  | Some start, Some end_ =>
      match o with
      | None => Some (h, None, ROk)
      | Some o =>
          '(o, llen) ← listTypeLength be o;
          let '(ltrim, rtrim) := match convert_range llen start end_ with None => (llen, 0) | Some (start, end_) => (start, llen - end_ - 1) end in
          '(h, o) ← match o with
                    | ListZl zl =>
                        zl ← ziplistDeleteRange be junk zl 0 (u32 ltrim);
                        zl ← ziplistDeleteRange be junk zl (u32 (- rtrim)) (u32 rtrim);
                        Some (h, ListZl zl)
                    | ListLl l =>
                        '(h, l) ← trim_loop (Z.to_nat ltrim) h l true;
                        '(h, l) ← trim_loop (Z.to_nat rtrim) h l false;
                        Some (h, ListLl l)
                    end;
          '(o, n) ← listTypeLength be o;
          Some (h, if n =? 0 then None else Some o, ROk)
      end
  | _, _ => Some (h, o, RError ENotInteger)
  end.

Fixpoint rem_loop (fuel : nat) (h : heap) (subject : listobj) (li : listTypeIterator) (obj : enc_obj) (toremove removed : Z) : option (heap * listobj * Z) :=
  match fuel with
  | O => None
  | S fuel =>
      '(li, entry) ← listTypeNext be h subject li;
      match entry with
      | None => Some (h, subject, removed)
      | Some entry =>
          eq ← listTypeEqual h subject entry obj;
          if (eq : bool) then
            '(h, subject, li) ← listTypeDelete be junk h subject li entry;
            let removed := removed + 1 in
            if negb (toremove =? 0) && (removed =? toremove) then Some (h, subject, removed) else rem_loop fuel h subject li obj toremove removed
          else rem_loop fuel h subject li obj toremove removed
      end
  end.
Definition lremCommand (fuel : nat) (h : heap) (o : option listobj) (arg val : list Z) : result :=
  let obj := tryObjectEncoding val in
  match getLongLongFromObject (Some (ObjStr arg)) with
  | None => Some (h, o, RError ENotInteger)
  | Some toremove =>
      match o with
      | None => Some (h, None, RInt 0)
      | Some subject =>
          obj ← match subject with ListZl _ => s ← getDecodedObject (replicate 32 0) obj; Some (ObjStr s) | ListLl _ => Some obj end;
          '(h, subject, removed) ←
            (if toremove <? 0 then
               if toremove =? - 2 ^ 63 then None else
               li ← listTypeInitIterator be h subject (-1) false; rem_loop fuel h subject li obj (- toremove) 0
             else li ← listTypeInitIterator be h subject 0 true; rem_loop fuel h subject li obj toremove 0);
          '(subject, n) ← listTypeLength be subject;
          Some (h, if n =? 0 then None else Some subject, RInt removed)
      end
  end.

End commands.
