(* ===== verification/HashSpec.v ===== *)
(** * HashSpec: hash objects implement finite maps

    The invariant of hash objects in both encodings, and the operations of
    [HashType] against finite maps from strings to strings. *)

From stdpp Require Import gmap.
From S2P Require Import Prelude Endian NumConv Objects Dict DictFacts DictHash DictIter SetType SetSpec Ziplist ZiplistFacts ZiplistOps ZiplistSpec ZiplistTexts HashType.

#[local] Opaque dictFingerprint.
Local Notation ents := DictFacts.ents.
Local Notation zlist := (zlist (b := false)).
Local Notation at_pos := (at_pos (b := false)).
Local Notation at_opt := (at_opt (b := false)).

(** ** Fields and values in turn *)

Local Notation pairs := (list (list Z * list Z)).

Fixpoint flat (ps : pairs) : list (list Z) := match ps with [] => [] | (f, v) :: ps => f :: v :: flat ps end.

Lemma flat_app l1 l2 : flat (l1 ++ l2) = flat l1 ++ flat l2.
Proof. induction l1 as [|[f v] l1 IH]; [done|]. cbn. by rewrite IH. Qed.
Lemma flat_length ps : length (flat ps) = (2 * length ps)%nat.
Proof. induction ps as [|[f v] ps IH]; [done|]. cbn [flat length]. rewrite IH. lia. Qed.
Lemma flat_weight (l1 l2 : pairs) : l1 ≡ₚ l2 → weight (flat l1) = weight (flat l2).
Proof. induction 1 as [|[f v] l1 l2 _ IH|[f v] [f' v'] l|l1 l2 l3 _ IH1 _ IH2]; cbn; lia. Qed.
Lemma flat_lookup ps i p : ps !! i = Some p → flat ps !! (2 * i)%nat = Some p.1 ∧ flat ps !! S (2 * i) = Some p.2.
Proof.
  revert i. induction ps as [|[f v] ps IH]; intros [|i]; try done; [by intros [= <-]|]. intros Hi. cbn [flat]. replace (2 * S i)%nat with (S (S (2 * i))) by lia. by apply IH.
Qed.

Lemma find_flat f ps :
  match find_in f 1 0 (flat ps) with
  | Some k => ∃ l1 v l2, ps = l1 ++ (f, v) :: l2 ∧ k = length (flat l1)
  | None => f ∉ ps.*1
  end.
Proof.
  induction ps as [|[f' v'] ps IH]; cbn [flat find_in]; [apply not_elem_of_nil|]. case_bool_decide as E.
  - subst. by exists [], v', ps.
  - destruct (find_in f 1 0 (flat ps)) as [k|]; cbn.
    + destruct IH as (l1 & v & l2 & -> & ->). by exists ((f', v') :: l1), v, l2.
    + rewrite elem_of_cons. naive_solver.
Qed.

(** The map of a list of pairs, split at a field *)
Lemma map_split (l1 l2 : pairs) f v : NoDup (l1 ++ (f, v) :: l2).*1 →
  f ∉ (l1 ++ l2).*1 ∧ NoDup (l1 ++ l2).*1 ∧ (list_to_map (l1 ++ (f, v) :: l2) : gmap _ _) = <[f := v]> (list_to_map (l1 ++ l2)).
Proof.
  intros Hnd. assert (l1 ++ (f, v) :: l2 ≡ₚ (f, v) :: (l1 ++ l2)) as HP by by rewrite Permutation_middle.
  pose proof Hnd as Hnd'. rewrite HP in Hnd'. cbn in Hnd'. apply NoDup_cons in Hnd' as [Hn Hnd']. split_and!; [done..|].
  by rewrite (list_to_map_proper _ _ Hnd HP).
Qed.

Section spec.
Context (be : host).
Context (can_resize : bool) (hashF : list Z → Z) (cmp : list Z → list Z → bool) `{!DictTypeLaws hashF cmp id}.
Context (t0 t1 : Z).

(** ** The invariant *)

(** Integers of objects are [long]s. *)
Definition int_ok (o : enc_obj) : Prop := match o with ObjStr _ => True | ObjInt v => in_s 64 v end.
Definition hentry_ok (e : dictEntry (list Z) enc_obj) : Prop := ∃ o, de_val e = Some o ∧ int_ok o.
Definition entry_pair (e : dictEntry (list Z) enc_obj) : list Z * list Z := (de_key e, obj_string (default (ObjInt 0) (de_val e))).
(** The object [o] holds the pairs [ps], in this order. *)
Definition holds (o : hashobj) (ps : pairs) : Prop :=
  match o with
  | HashZl zl => zlist zl (flat ps)
  | HashHt d => dict_wf hashF d ∧ iterators d = 0 ∧ Forall hentry_ok (ents d) ∧ entry_pair <$> ents d = ps
  end.
(** The object [o] holds the map [m]; [B] bounds the number of its bytes. *)
Definition hash_rel (B : Z) (o : hashobj) (m : gmap (list Z) (list Z)) : Prop :=
  ∃ ps, holds o ps ∧ NoDup ps.*1 ∧ m = list_to_map ps ∧ 11 + weight (flat ps) ≤ B.

(** Is it a ziplist? *)
Definition is_zl (o : hashobj) : bool := match o with HashZl _ => true | HashHt _ => false end.

Lemma hash_mono B B' o m : hash_rel B o m → B ≤ B' → hash_rel B' o m.
Proof. intros (ps & Ho & Hnd & Hm & Hw) HB. exists ps. split_and!; try done. lia. Qed.
Lemma hash_perm B o m (ps ps' : pairs) : holds o ps' → ps' ≡ₚ ps → NoDup ps.*1 → m = list_to_map ps → 11 + weight (flat ps) ≤ B → hash_rel B o m.
Proof.
  intros Ho HP Hnd -> Hw. exists ps'. split; [done|]. split; [by rewrite HP|]. split; [|by rewrite (flat_weight _ _ HP)].
  apply list_to_map_proper; [done|by symmetry].
Qed.
Lemma pairs_weight (ps : pairs) : 30 * zlen ps ≤ weight (flat ps).
Proof. pose proof (weight_len (flat ps)) as H. unfold zlen in *. rewrite flat_length in H. lia. Qed.
Lemma keys_pairs d : (entry_pair <$> ents d).*1 = de_key <$> ents d.
Proof. by rewrite <- list_fmap_compose. Qed.
Lemma hash_size (m : gmap (list Z) (list Z)) (ps : pairs) : NoDup ps.*1 → m = list_to_map ps → zlen ps = Z.of_nat (base.size m).
Proof.
  intros Hnd ->. unfold zlen. f_equal. rewrite <- (length_fmap fst ps). rewrite <- (size_list_to_set (C := gset (list Z))) by done.
  rewrite <- dom_list_to_map_L. by rewrite size_dom.
Qed.

Lemma ht_holds d ps : holds (HashHt d) ps → dict_wf hashF d ∧ iterators d = 0 ∧ Forall hentry_ok (ents d) ∧ ps = entry_pair <$> ents d.
Proof. intros (? & ? & ? & <-). done. Qed.
(** After a step of the rehashing *)
Lemma holds_same B d d' m : hash_rel B (HashHt d) m → same hashF d d' → hash_rel B (HashHt d') m.
Proof.
  intros (ps & (Hwf & Hit & He & Hps) & Hnd & Hm & Hw) (Hwf' & HP & Hit' & _). apply (hash_perm B _ m ps (entry_pair <$> ents d')); [|rewrite <- Hps; by rewrite HP|done..].
  split_and!; [done|congruence|by rewrite HP|done].
Qed.

(** ** Lookup in the ziplist *)

Lemma decoded_ok o : int_ok o → getDecodedObject (replicate 32 0) o = Some (obj_string o).
Proof.
  destruct o as [s|v]; [done|]. intros Ho. destruct (getDecodedObject_spec (replicate 32 0) (ObjInt v) Ho) as (s & E & _); [done|]. unfold obj_string. by rewrite E.
Qed.
Lemma zval_string s : int_ok (zval_object (read_back s)) ∧ obj_string (zval_object (read_back s)) = s.
Proof.
  unfold read_back. destruct (zipTryEncoding s) as [[v e]|] eqn:E; [|done]. apply zipTryEncoding_fits in E as [Hd _]. apply string2ll_spec in Hd as [Hd Hv].
  cbn [zval_object]. unfold createStringObjectFromLongLong. split; [done|]. symmetry. apply (decimal_unique _ _ v); [done|]. by apply obj_string_decimal.
Qed.
Lemma encoded_string o : int_ok o → int_ok (encoded o) ∧ obj_string (encoded o) = obj_string o.
Proof.
  destruct o as [s|v]; [|done]. intros _. cbn [encoded]. unfold tryObjectEncoding. destruct (_ <=? _); [|done]. destruct (string2l s) as [v|] eqn:E; [|done].
  unfold string2l in E. destruct (string2ll s) as [w|] eqn:E'; [|done]. apply string2ll_spec in E' as [Hd Hw]. cbn [mbind option_bind] in E.
  assert (w = v) as -> by (destruct (_ || _); [done|]; injection E as <-; by rewrite (wraps_small 64)). split; [done|]. symmetry. apply (decimal_unique _ _ v); [done|]. by apply obj_string_decimal.
Qed.

(** [find_field] gives the positions of a field and its value. *)
Lemma find_field_spec zl ps f : zlist zl (flat ps) →
  ∃ r, find_field be zl f = Some r ∧
    match r with
    | Some (fptr, vptr) => ∃ l1 v l2, ps = l1 ++ (f, v) :: l2 ∧ at_pos zl (flat ps) (length (flat l1)) fptr ∧ at_pos zl (flat ps) (S (length (flat l1))) vptr
    | None => f ∉ ps.*1
    end.
Proof.
  intros Hz. unfold find_field. destruct (index_texts be zl (flat ps) 0 Hz) as (r & -> & Hr); [lia|]. cbn [mbind option_bind].
  destruct ps as [|p ps]; [destruct r; [done|]; eexists; split; [done|apply not_elem_of_nil]|]. set (l := p :: ps) in *.
  assert (z_index (flat l) 0 = Some 0%nat) as E by (by destruct p). rewrite E in Hr. destruct r as [p0|]; [|done]. cbn in Hr.
  destruct (find_texts be zl (flat l) f 1 p0 Hr) as (r & Ef & Hf); [lia|]. change (Z.of_nat 1) with 1 in Ef. rewrite Ef. cbn [mbind option_bind]. pose proof (find_flat f l) as Hff.
  destruct (find_in f 1 0 (flat l)) as [k|], r as [fptr|]; try done; [|by eexists]. cbn in Hf. destruct Hff as (l1 & v & l2 & El & ->).
  destruct (next_texts zl (flat l) _ fptr Hf) as (r & -> & Hn). cbn [mbind option_bind].
  rewrite bool_decide_true in Hn by (rewrite El, flat_app, length_app; cbn; lia). destruct r as [vptr|]; [|done]. cbn [mbind option_bind]. eexists. split; [done|].
  by exists l1, v, l2.
Qed.
Lemma map_value (l1 l2 : pairs) f v : NoDup (l1 ++ (f, v) :: l2).*1 → (list_to_map (l1 ++ (f, v) :: l2) : gmap _ _) !! f = Some v.
Proof. intros Hnd. destruct (map_split l1 l2 f v Hnd) as (_ & _ & ->). apply lookup_insert_eq. Qed.

Lemma get_ziplist_spec B zl m f : hash_rel B (HashZl zl) m → int_ok f →
  hashTypeGetFromZiplist be zl f = Some (option_map read_back (m !! obj_string f)).
Proof.
  intros (ps & Hz & Hnd & -> & _) Hf. unfold hashTypeGetFromZiplist. rewrite (decoded_ok f Hf). cbn [mbind option_bind].
  destruct (find_field_spec zl ps (obj_string f) Hz) as (r & -> & Hr). cbn [mbind option_bind]. destruct r as [[fptr vptr]|].
  - destruct Hr as (l1 & v & l2 & El & _ & Hv). rewrite (get_texts be zl _ _ _ Hv). cbn [mbind option_bind].
    assert (flat ps !! S (length (flat l1)) = Some v) as ->.
    { rewrite El, flat_app. rewrite lookup_app_r by lia. replace (S (length (flat l1)) - length (flat l1))%nat with 1%nat by lia. done. }
    cbn [fmap option_fmap option_map mbind option_bind]. rewrite El in *. by rewrite map_value.
  - by rewrite (not_elem_of_list_to_map_1 _ _ Hr).
Qed.

(** ** Lookup in the hash table *)

Lemma ht_value d ps e : holds (HashHt d) ps → NoDup ps.*1 → e ∈ ents d → ∃ o, de_val e = Some o ∧ int_ok o ∧ (list_to_map ps : gmap _ _) !! de_key e = Some (obj_string o).
Proof using Type.
  intros (_ & _ & He & <-) Hnd Hin. rewrite list.Forall_forall in He. destruct (He e Hin) as (o & Eo & Ho). exists o. split_and!; [done..|].
  apply elem_of_list_to_map_1; [done|]. apply list_elem_of_fmap. exists e. split; [|done]. unfold entry_pair. by rewrite Eo.
Qed.
Lemma get_table_spec B d m f : hash_rel B (HashHt d) m →
  ∃ d' r, hashTypeGetFromHashTable hashF cmp d f = Some (d', r) ∧ hash_rel B (HashHt d') m ∧ option_map obj_string r = m !! obj_string f ∧ from_option int_ok True r.
Proof using DictTypeLaws0.
  intros Hm. pose proof Hm as (ps & (Hwf & _) & _). unfold hashTypeGetFromHashTable.
  destruct (dictFind_spec hashF cmp id d (obj_string f) Hwf) as (d' & p & -> & Hsame & Hp). cbn [mbind option_bind]. pose proof (holds_same B d d' m Hm Hsame) as Hm'.
  pose proof Hm' as (ps' & Ho & Hnd & Em & _). destruct p as [p|].
  - destruct Hp as (e & Hpt & Hk). rewrite (points_to_entry _ _ _ Hpt). cbn [mbind option_bind]. destruct (ht_value d' ps' e Ho Hnd) as (o & -> & Hio & Hv); [by eapply points_to_ents|].
    cbn [mbind option_bind]. exists d', (Some o). split_and!; try done. by rewrite Em, <- Hk, Hv.
  - exists d', None. split_and!; try done. symmetry. rewrite Em. apply not_elem_of_list_to_map_1. destruct Ho as (_ & _ & _ & <-). rewrite keys_pairs, list_elem_of_fmap.
    intros (e & E & Hin). by apply (Hp e Hin).
Qed.

Lemma hashTypeGetObject_spec B o m f : hash_rel B o m → int_ok f →
  ∃ o' r, hashTypeGetObject be hashF cmp o f = Some (o', r) ∧ hash_rel B o' m ∧ option_map obj_string r = m !! obj_string f ∧ from_option int_ok True r ∧ is_zl o' = is_zl o.
Proof using DictTypeLaws0.
  intros Hm Hf. destruct o as [zl|d]; cbn [hashTypeGetObject].
  - rewrite (get_ziplist_spec B zl m f Hm Hf). cbn [mbind option_bind]. eexists _, _. split; [done|]. split; [done|]. destruct (m !! obj_string f) as [s|]; [|done]. cbn.
    destruct (zval_string s) as [? ->]. done.
  - destruct (get_table_spec B d m f Hm) as (d' & r & -> & Hm' & Hr & Hi). cbn [mbind option_bind]. by eexists _, _.
Qed.
Lemma hashTypeExists_spec B o m f : hash_rel B o m → int_ok f →
  ∃ o', hashTypeExists be hashF cmp o f = Some (o', bool_decide (is_Some (m !! obj_string f))) ∧ hash_rel B o' m ∧ is_zl o' = is_zl o.
Proof using DictTypeLaws0.
  intros Hm Hf. destruct o as [zl|d]; cbn [hashTypeExists].
  - rewrite (get_ziplist_spec B zl m f Hm Hf). cbn [mbind option_bind]. eexists. split; [|done]. do 2 f_equal. apply bool_decide_ext. by destruct (m !! obj_string f); cbn; rewrite ?is_Some_alt.
  - destruct (get_table_spec B d m f Hm) as (d' & r & -> & Hm' & Hr & Hi). cbn [mbind option_bind]. eexists. split; [|done]. do 2 f_equal. rewrite <- Hr. apply bool_decide_ext. by destruct r; cbn; rewrite ?is_Some_alt.
Qed.
Lemma hashTypeLength_spec B o m : hash_rel B o m → B < 2 ^ 31 →
  ∃ o', hashTypeLength be o = Some (o', Z.of_nat (base.size m)) ∧ hash_rel B o' m ∧ is_zl o' = is_zl o.
Proof using Type.
  intros (ps & Ho & Hnd & Em & Hw) HB. pose proof (hash_size m ps Hnd Em) as Hs. destruct o as [zl|d]; cbn [hashTypeLength].
  - destruct (len_texts be zl (flat ps) Ho) as (zl' & -> & Hz'). cbn [mbind option_bind]. exists (HashZl zl'). split; [|split; [by exists ps|done]].
    do 2 f_equal. rewrite <- Hs. unfold zlen. rewrite flat_length, Nat2Z.inj_mul, Z.mul_comm. change (Z.of_nat 2) with 2. by rewrite Z.div_mul.
  - exists (HashHt d). split; [|split; [by exists ps|done]]. destruct (ht_holds d ps Ho) as (Hwf & _ & _ & Eps). do 2 f_equal. rewrite <- Hs, Eps. unfold zlen. rewrite length_fmap.
    fold (zlen (ents d)). pose proof (wf_bound _ _ Hwf) as Hb. unfold dictSize.
    rewrite (wf_used0 _ _ Hwf), (wf_used1 _ _ Hwf). unfold DictFacts.ents in *. rewrite zlen_app in *. pose proof (zlen_nonneg (ents_ht (ht0 d))). pose proof (zlen_nonneg (ents_ht (ht1 d))).
    apply wrapu_small. unfold in_u, max_used in *. lia.
Qed.
(** ** Iteration *)

(** The iterator [hi] of the object [o] has still to return the pairs [l]. *)
Definition remains (o : hashobj) (hi : hashTypeIterator) (l : pairs) : Prop :=
  match o, hi with
  | HashZl zl, HiZl None None => zlist zl (flat l)
  | HashZl zl, HiZl (Some _) (Some vptr) => ∃ ps i, at_pos zl (flat ps) (S (2 * i)) vptr ∧ l = drop (S i) ps
  | HashHt d, HiHt it _ =>
      dict_wf hashF d ∧ it_safe it = false ∧ (started it = true → it_fingerprint it = dictFingerprint t0 t1 d) ∧
      ∃ le, to_come d it le ∧ Forall hentry_ok le ∧ l = entry_pair <$> le
  | _, _ => False
  end.
(** The iterator is at the pair [p]. *)
Definition current (o : hashobj) (hi : hashTypeIterator) (p : list Z * list Z) : Prop :=
  ∀ key : bool, ∃ x, hashTypeCurrentObject be o hi key = Some x ∧ int_ok x ∧ obj_string x = if key then p.1 else p.2.

Lemma hash_init_remains o ps : holds o ps → remains o (hashTypeInitIterator o) ps.
Proof using Type. destruct o as [zl|d]; [done|]. intros (Hwf & Hit & He & <-). split_and!; try done. exists (ents d). split_and!; try done. by left. Qed.

Lemma zl_current zl ps i p fptr vptr : ps !! i = Some p → at_pos zl (flat ps) (2 * i) fptr → at_pos zl (flat ps) (S (2 * i)) vptr →
  current (HashZl zl) (HiZl (Some fptr) (Some vptr)) p.
Proof using Type.
  intros Hi Hf Hv key. destruct (flat_lookup ps i p Hi) as [Ef Ev]. cbn [hashTypeCurrentObject]. unfold hashTypeCurrentFromZiplist.
  destruct key; [rewrite (get_texts be zl _ _ _ Hf), Ef|rewrite (get_texts be zl _ _ _ Hv), Ev]; cbn [mbind option_bind fmap option_fmap option_map]; eexists; (split; [done|]); apply zval_string.
Qed.
(** The pair number [i] of the ziplist, or its end, from the pointer to its field *)
Lemma zl_next zl ps i r : at_opt zl (flat ps) (if bool_decide (i < length ps)%nat then Some (2 * i)%nat else None) r →
  match r with
  | None => (length ps ≤ i)%nat
  | Some fptr => ∃ p vptr, ps !! i = Some p ∧ ziplistNext zl fptr = Some (Some vptr) ∧ at_pos zl (flat ps) (2 * i) fptr ∧ at_pos zl (flat ps) (S (2 * i)) vptr
  end.
Proof.
  case_bool_decide as Hi; destruct r as [fptr|]; try done; [|intros _; lia]. cbn [at_opt]. intros Hf.
  destruct (lookup_lt_is_Some_2 ps i Hi) as [p Ep]. destruct (next_texts zl _ _ fptr Hf) as (r & En & Hn).
  rewrite bool_decide_true in Hn by (rewrite flat_length; lia). destruct r as [vptr|]; [|done]. by exists p, vptr.
Qed.
Lemma zl_step zl l fptr vptr : remains (HashZl zl) (HiZl fptr vptr) l → ∃ ps i r,
  match fptr, vptr with None, None => ziplistIndex be zl 0 | Some _, Some vptr => ziplistNext zl vptr | _, _ => None end = Some r ∧
  at_opt zl (flat ps) (if bool_decide (i < length ps)%nat then Some (2 * i)%nat else None) r ∧ l = drop i ps.
Proof using Type.
  cbn [remains]. destruct fptr as [fptr|], vptr as [vptr|]; try done.
  - intros (ps & i & Hv & ->). destruct (next_texts zl _ _ vptr Hv) as (r & En & Hn). exists ps, (S i), r. split_and!; try done. rewrite flat_length in Hn.
    replace (S (S (2 * i))) with (2 * S i)%nat in Hn by lia. by rewrite (bool_decide_ext (S i < length ps)%nat (2 * S i < 2 * length ps)%nat) by lia.
  - intros Hz. destruct (index_texts be zl (flat l) 0 Hz) as (r & En & Hn); [lia|]. exists l, 0%nat, r. split_and!; try done. unfold z_index in Hn. cbn [Z.leb] in Hn.
    destruct l as [|[f v] l]; [done|]. by rewrite bool_decide_true by (cbn; lia).
Qed.

Lemma next_pair o hi p l : remains o hi (p :: l) → ∃ hi', hashTypeNext be t0 t1 o hi = Some (o, hi', true) ∧ remains o hi' l ∧ current o hi' p.
Proof using Type.
  destruct o as [zl|d], hi as [fptr vptr|it de]; try done; cbn [hashTypeNext].
  - intros Hr. destruct (zl_step zl _ fptr vptr Hr) as (ps & i & r & -> & Ho & El). cbn [mbind option_bind]. apply zl_next in Ho. destruct r as [f|].
    + destruct Ho as (q & v & Eq & -> & Hf & Hv). cbn [mbind option_bind]. rewrite (drop_S ps q i Eq) in El. injection El as -> ->.
      eexists. split; [done|]. split; [by exists ps, i|by eapply zl_current].
    + by rewrite drop_ge in El by lia.
  - intros (Hwf & Hs & Hfp & le & Hc & He & E). destruct le as [|e le]; [done|]. injection E as -> ->. apply Forall_cons in He as [(x & Ex & Hx) He].
    destruct (next_dict hashF t0 t1 d it (e :: le) Hwf Hs Hfp Hc) as (it' & -> & Hs' & Hst & Hfp' & Hc'). cbn [mbind option_bind head].
    rewrite bool_decide_true by by eexists. eexists. split; [done|]. split; [split_and!; try done; exists le; split_and!; try done; by eapply Hc'|].
    intros key. cbn. unfold hashTypeCurrentFromHashTable. cbn [mbind option_bind]. unfold entry_pair. rewrite Ex. destruct key; by eexists.
Qed.
Lemma next_pair_end o hi : remains o hi [] → ∃ hi', hashTypeNext be t0 t1 o hi = Some (o, hi', false) ∧ hashTypeReleaseIterator t0 t1 o hi' = Some o.
Proof using Type.
  destruct o as [zl|d], hi as [fptr vptr|it de]; try done; cbn [hashTypeNext].
  - intros Hr. destruct (zl_step zl _ fptr vptr Hr) as (ps & i & r & -> & Ho & El). cbn [mbind option_bind]. apply zl_next in Ho. destruct r as [f|].
    + destruct Ho as (q & v & Eq & _). by rewrite (drop_S ps q i Eq) in El.
    + by eexists.
  - intros (Hwf & Hs & Hfp & le & Hc & He & E). symmetry in E. apply fmap_nil_inv in E as ->.
    destruct (next_dict hashF t0 t1 d it [] Hwf Hs Hfp Hc) as (it' & -> & Hs' & Hst & Hfp' & Hc'). cbn [mbind option_bind head].
    rewrite bool_decide_false by by intros [? ?]. eexists. split; [done|]. cbn [hashTypeReleaseIterator]. unfold dictReleaseIterator. unfold started in Hst. rewrite negb_true_iff in Hst.
    rewrite Hst, Hs', Hfp', Z.eqb_refl. done.
Qed.
(** ** Conversion *)

(** [ents d] with a new entry *)
Lemma holds_cons d d' ps x v : holds (HashHt d) ps → dict_wf hashF d' → iterators d' = iterators d → int_ok v →
  ents d' ≡ₚ mkEntry x (Some v) :: ents d → ∃ ps', holds (HashHt d') ps' ∧ ps' ≡ₚ (x, obj_string v) :: ps.
Proof using Type.
  intros (Hwf & Hit & He & <-) Hwf' Hit' Hv HP. exists (entry_pair <$> ents d'). split; [split_and!; [done|congruence| |done]|by rewrite HP].
  rewrite HP. constructor; [by exists v|done].
Qed.
Lemma table_add d ps x v : holds (HashHt d) ps → x ∉ ps.*1 → int_ok v → zlen ps + 1 < max_used →
  ∃ d' ps', dictAdd can_resize hashF cmp id id d x v = Some (d', DICT_OK) ∧ holds (HashHt d') ps' ∧ ps' ≡ₚ (x, obj_string v) :: ps.
Proof using DictTypeLaws0.
  intros Hd Hx Hv Hsz. pose proof Hd as (Hwf & Hit & He & Eps). rewrite <- Eps in Hsz, Hx. unfold zlen in Hsz. rewrite length_fmap in Hsz. fold (zlen (ents d)) in Hsz.
  destruct (dictAdd_spec can_resize hashF cmp id id d x v Hwf Hsz) as (d' & st & Hadd & Hwf' & Hit' & Hst). destruct st.
  - destruct Hst as [_ HP]. destruct (holds_cons d d' ps x v Hd Hwf' Hit' Hv HP) as (ps' & H1 & H2). by exists d', ps'.
  - destruct Hst as (_ & e & Hin & Hk). destruct Hx. rewrite keys_pairs, <- Hk. by apply list_elem_of_fmap_2.
Qed.
Lemma convert_fields_spec o l : ∀ fuel hi d ps, remains o hi l → holds (HashHt d) ps → NoDup (ps ++ l).*1 → (length l < fuel)%nat → zlen ps + zlen l + 1 < max_used →
  ∃ d' ps', convert_fields be can_resize hashF cmp t0 t1 fuel o hi d = Some d' ∧ holds (HashHt d') ps' ∧ ps' ≡ₚ ps ++ l.
Proof using DictTypeLaws0.
  induction l as [|p l IH]; intros [|fuel] hi d ps Hr Hd Hnd Hf Hsz; cbn in Hf; try lia; cbn [convert_fields].
  - destruct (next_pair_end o hi Hr) as (hi' & -> & Hrel). cbn [mbind option_bind]. rewrite Hrel. exists d, ps. by rewrite app_nil_r.
  - destruct (next_pair o hi p l Hr) as (hi' & -> & Hr' & Hc). cbn [mbind option_bind]. destruct (Hc true) as (x & -> & Hx & Ex), (Hc false) as (y & -> & Hy & Ey). cbn [mbind option_bind].
    destruct (encoded_string x Hx) as [_ Ex'], (encoded_string y Hy) as [Hy' Ey']. rewrite Ex', Ex. destruct p as [f v]. cbn [fst snd] in *.
    assert (ps ++ (f, v) :: l ≡ₚ ((f, v) :: ps) ++ l) as HP by (cbn; by rewrite Permutation_middle).
    rewrite HP in Hnd. cbn [app fmap list_fmap] in Hnd. pose proof Hnd as [Hn Hnd']%NoDup_cons. change (list_fmap _ _ fst (ps ++ l)) with ((ps ++ l).*1) in *.
    rewrite zlen_cons in Hsz. pose proof (zlen_nonneg l).
    destruct (table_add d ps f (encoded y) Hd) as (d1 & ps1 & -> & Hd1 & HP1); [rewrite fmap_app in Hn; set_solver|done|lia|]. cbn [mbind option_bind]. rewrite decide_True by done.
    rewrite Ey', Ey in HP1. destruct (IH fuel hi' d1 ps1 Hr' Hd1) as (d2 & ps2 & -> & Hd2 & HP2).
    + rewrite HP1. exact Hnd.
    + lia.
    + unfold zlen in *. rewrite HP1. cbn [length]. lia.
    + exists d2, ps2. split_and!; try done. by rewrite HP2, HP1, HP.
Qed.
Lemma hashTypeConvert_spec B zl m : hash_rel B (HashZl zl) m → B < 2 ^ 31 →
  ∃ d, hashTypeConvert be can_resize hashF cmp t0 t1 (HashZl zl) = Some (HashHt d) ∧ hash_rel B (HashHt d) m.
Proof using DictTypeLaws0.
  intros (ps & Hz & Hnd & Em & Hw) HB. cbn [hashTypeConvert]. unfold hashTypeConvertZiplist. pose proof (pairs_weight ps).
  destruct (convert_fields_spec (HashZl zl) ps (S (length zl)) (hashTypeInitIterator (HashZl zl)) dictCreate []) as (d & ps' & -> & Hd & HP).
  - by apply hash_init_remains.
  - split_and!; [apply create_wf|done..].
  - done.
  - pose proof (zlist_length zl (flat ps) Hz) as Hb. rewrite flat_length in Hb. lia.
  - change (zlen []) with 0. unfold max_used. lia.
  - exists d. split; [done|]. by eapply hash_perm.
Qed.
Lemma hashTypeTryConversion_spec B o m value args : hash_rel B o m → B < 2 ^ 31 →
  ∃ o', hashTypeTryConversion be can_resize hashF cmp value t0 t1 o args = Some o' ∧ hash_rel B o' m ∧ (is_zl o' = true → is_zl o = true).
Proof using DictTypeLaws0.
  intros Hm HB. destruct o as [zl|d]; cbn [hashTypeTryConversion]; [|by exists (HashHt d)]. destruct (existsb _ args); [|by exists (HashZl zl)].
  destruct (hashTypeConvert_spec B zl m Hm HB) as (d & E & Hd). by exists (HashHt d).
Qed.

(** ** Changes *)

Context (junk : nat → Z) (max_entries : Z).
Local Notation hashTypeSet := (hashTypeSet be junk can_resize hashF cmp max_entries t0 t1).

Lemma zl_update zl ps f v : zlist zl (flat ps) → NoDup ps.*1 → 11 + weight (flat ps) + 30 + zlen f + zlen v < 2 ^ 31 →
  ∃ zl', (r ← find_field be zl f;
          match r with
          | Some (_, vptr) => '(zl, vptr) ← ziplistDelete be junk zl vptr; zl ← ziplistInsert be junk zl vptr v; Some (zl, true)
          | None => zl ← ziplistPush be junk zl f false; zl ← ziplistPush be junk zl v false; Some (zl, false)
          end) = Some (zl', bool_decide (f ∈ ps.*1)) ∧
    hash_rel (11 + weight (flat ps) + 30 + zlen f + zlen v) (HashZl zl') (<[f := v]> (list_to_map ps)).
Proof using DictTypeLaws0.
  intros Hz Hnd Hw. pose proof (zlen_nonneg f). pose proof (zlen_nonneg v).
  destruct (find_field_spec zl ps f Hz) as (r & -> & Hr). cbn [mbind option_bind]. destruct r as [[fptr vptr]|].
  - destruct Hr as (l1 & v0 & l2 & -> & _ & Hv). set (ps := l1 ++ (f, v0) :: l2) in *. assert (flat ps = flat l1 ++ f :: v0 :: flat l2) as Ef by (unfold ps; by rewrite flat_app).
    destruct (replace_texts be junk zl (flat ps) _ vptr v Hv) as (zl1 & zl2 & -> & E2 & Hz2); [rewrite Ef, length_app; cbn; lia|done|lia|]. cbn [mbind option_bind]. rewrite E2. cbn [mbind option_bind].
    assert (<[S (length (flat l1)) := v]> (flat ps) = flat (l1 ++ (f, v) :: l2)) as E.
    { rewrite Ef, flat_app. cbn [flat]. rewrite <- Nat.add_1_r, insert_app_r. done. }
    rewrite E in Hz2. destruct (map_split l1 l2 f v0 Hnd) as (Hn & Hnd' & Em). exists zl2. split.
    + rewrite bool_decide_true; [done|]. unfold ps. rewrite fmap_app. set_solver.
    + assert (NoDup (l1 ++ (f, v) :: l2).*1) as Hnd2 by (unfold ps in Hnd; rewrite fmap_app in Hnd |- *; exact Hnd). destruct (map_split l1 l2 f v Hnd2) as (_ & _ & Em2).
      exists (l1 ++ (f, v) :: l2). split_and!; [done..| |].
      * unfold ps. by rewrite Em, Em2, insert_insert_eq.
      * rewrite <- E. pose proof (weight_insert (S (length (flat l1))) v (flat ps)) as Hwi. rewrite Ef, length_app in Hwi at 1. cbn [length] in Hwi. specialize (Hwi ltac:(lia)). lia.
  - pose proof (weight_app (flat ps) [f]) as W1. cbn [weight] in W1.
    destruct (push_texts be junk zl (flat ps) f false Hz) as (zl1 & -> & Hz1); [done|cbn [weight]; lia|]. cbn [mbind option_bind].
    destruct (push_texts be junk zl1 _ v false Hz1) as (zl2 & -> & Hz2); [done|cbn [weight]; lia|]. cbn [mbind option_bind]. exists zl2. split; [by rewrite bool_decide_false|].
    exists (ps ++ [(f, v)]). rewrite <- (assoc_L (++)) in Hz2. split; [cbn [holds]; by rewrite flat_app|].
    assert (ps ++ [(f, v)] ≡ₚ (f, v) :: ps) as HP by by rewrite Permutation_app_comm. assert (NoDup (ps ++ [(f, v)]).*1) as Hnd' by (rewrite HP; by apply NoDup_cons).
    split; [done|]. split; [by rewrite (list_to_map_proper _ _ Hnd' HP)|]. rewrite flat_app, weight_app. cbn [flat weight]. lia.
Qed.
Lemma key_in (ps : pairs) f : f ∈ ps.*1 ↔ is_Some ((list_to_map ps : gmap (list Z) (list Z)) !! f).
Proof. rewrite <- elem_of_dom, dom_list_to_map, elem_of_list_to_set. done. Qed.

Lemma hashTypeSet_spec B o m f v : hash_rel B o m → int_ok f → int_ok v → B + 30 + zlen (obj_string f) + zlen (obj_string v) < 2 ^ 31 →
  ∃ o', hashTypeSet o f v = Some (o', bool_decide (is_Some (m !! obj_string f))) ∧
    hash_rel (B + 30 + zlen (obj_string f) + zlen (obj_string v)) o' (<[obj_string f := obj_string v]> m) ∧
    (is_zl o' = true → Z.of_nat (base.size (<[obj_string f := obj_string v]> m)) ≤ max_entries).
Proof using DictTypeLaws0.
  intros (ps & Ho & Hnd & -> & Hw) Hf Hv HB. set (x := obj_string f) in *. set (y := obj_string v) in *. destruct o as [zl|d]; cbn [HashType.hashTypeSet].
  - rewrite (decoded_ok f Hf), (decoded_ok v Hv). cbn [mbind option_bind]. fold x y. destruct (zl_update zl ps x y Ho Hnd) as (zl1 & E & Hz1); [lia|].
    destruct (find_field be zl x) as [r|]; [|done]. cbn [mbind option_bind] in E |- *. rewrite E. cbn [mbind option_bind].
    destruct (hashTypeLength_spec _ (HashZl zl1) _ Hz1) as ([zl'|] & -> & Hz' & Hzl); [lia| |done]. cbn [mbind option_bind].
    apply hash_mono with (B' := B + 30 + zlen x + zlen y) in Hz'; [|lia]. rewrite (bool_decide_ext (x ∈ ps.*1) (is_Some ((list_to_map ps : gmap (list Z) (list Z)) !! x))) by apply key_in.
    destruct (Z.ltb_spec max_entries (Z.of_nat (base.size (<[x := y]> (list_to_map ps : gmap (list Z) (list Z)))))); cbn [mbind option_bind]; [|by eexists]. destruct (hashTypeConvert_spec _ zl' _ Hz') as (d & -> & Hd); [lia|]. cbn [mbind option_bind]. by eexists.
  - pose proof Ho as (Hwf & Hit & He & Eps). pose proof (pairs_weight ps) as Hpw. pose proof (zlen_nonneg x). pose proof (zlen_nonneg y).
    assert (zlen (ents d) = zlen ps) as Hl by (rewrite <- Eps; unfold zlen; by rewrite length_fmap).
    fold x. destruct (dictReplace_spec can_resize hashF cmp id id d x v Hwf) as (d' & isnew & fr & -> & Hwf' & Hit' & Hr); [unfold max_used; lia|]. cbn [mbind option_bind].
    exists (HashHt d'). rewrite <- (bool_decide_ext (x ∈ ps.*1) (is_Some ((list_to_map ps : gmap (list Z) (list Z)) !! x))) by apply key_in. destruct isnew; cbn [negb].
    + destruct Hr as (Hnew & _ & HP). assert (x ∉ ps.*1) as Hx by (rewrite <- Eps, keys_pairs, list_elem_of_fmap; intros (e & E & Hin); by apply (Hnew e Hin)).
      rewrite bool_decide_false by done. split; [done|]. split; [|done]. destruct (holds_cons d d' ps x v Ho Hwf' Hit' Hv HP) as (ps' & Ho' & HP').
      apply (hash_perm _ _ _ ((x, y) :: ps) ps'); [done..|by apply NoDup_cons|done|cbn [flat weight]; lia].
    + destruct Hr as (e & rest & Hk & _ & HPd & HPd'). assert (ps ≡ₚ (x, (entry_pair e).2) :: (entry_pair <$> rest)) as HPs.
      { rewrite <- Eps. rewrite HPd. rewrite fmap_cons. unfold entry_pair at 1. by rewrite Hk. }
      assert (x ∈ ps.*1) as Hx by (rewrite HPs; by left). rewrite bool_decide_true by done. split; [done|]. split; [|done].
      assert (NoDup ((x, (entry_pair e).2) :: (entry_pair <$> rest)).*1) as Hnd' by by rewrite <- HPs.
      apply (hash_perm _ _ _ ((x, y) :: (entry_pair <$> rest)) (entry_pair <$> ents d')); [| |done| |].
      * split_and!; [done|congruence| |done]. rewrite HPd'. rewrite HPd in He. apply Forall_cons in He as [_ He]. constructor; [by exists v|done].
      * by rewrite HPd'.
      * rewrite (list_to_map_proper _ _ Hnd HPs). cbn. by rewrite insert_insert_eq.
      * pose proof (flat_weight _ _ HPs) as Hfw. cbn [flat weight] in Hfw |- *. pose proof (zlen_nonneg (entry_pair e).2). lia.
Qed.

Lemma hashTypeDelete_spec B o m f : hash_rel B o m → int_ok f → B < 2 ^ 31 →
  ∃ o', hashTypeDelete be junk can_resize hashF cmp o f = Some (o', bool_decide (is_Some (m !! obj_string f))) ∧ hash_rel B o' (delete (obj_string f) m) ∧ is_zl o' = is_zl o.
Proof using DictTypeLaws0.
  intros Hm Hf HB. pose proof Hm as (ps & Ho & Hnd & -> & Hw). set (x := obj_string f). destruct o as [zl|d]; cbn [hashTypeDelete].
  - rewrite (decoded_ok f Hf). cbn [mbind option_bind]. fold x.
    destruct (index_texts be zl (flat ps) 0 Ho) as (r & -> & Hr); [lia|]. cbn [mbind option_bind].
    assert (∃ r', match r with None => Some None | Some p => ziplistFind be zl p x 1 end = Some r' ∧ at_opt zl (flat ps) (find_in x 1 0 (flat ps)) r') as (r' & -> & Hr').
    { destruct ps as [|[f0 v0] l]; [destruct r; [done|]; by eexists|]. cbn [z_index Z.leb] in Hr. unfold z_index in Hr. cbn in Hr. destruct r as [p|]; [|done].
      destruct (find_texts be zl _ x 1 p Hr) as (r' & E & Hr'); [lia|]. by exists r'. }
    cbn [mbind option_bind]. rewrite <- (bool_decide_ext (x ∈ ps.*1) (is_Some ((list_to_map ps : gmap (list Z) (list Z)) !! x))) by apply key_in.
    pose proof (find_flat x ps) as Hff. destruct (find_in x 1 0 (flat ps)) as [k|], r' as [p|]; try done.
    + destruct Hff as (l1 & v & l2 & E & ->). cbn in Hr'. rewrite E in *. destruct (map_split l1 l2 x v Hnd) as (Hn & Hnd' & ->). rewrite delete_insert_id by by apply not_elem_of_list_to_map_1.
      assert (flat (l1 ++ (x, v) :: l2) = flat l1 ++ x :: v :: flat l2) as Ef by by rewrite flat_app. rewrite Ef in Hr', Hw. rewrite weight_app in Hw. cbn [weight] in Hw. pose proof (zlen_nonneg x). pose proof (zlen_nonneg v).
      destruct (delete_texts be junk zl _ _ p Hr') as (zl1 & -> & Hz1); [rewrite length_app; cbn; lia|rewrite weight_app; cbn [weight]; lia|]. cbn [mbind option_bind].
      assert (delete (length (flat l1)) (flat l1 ++ x :: v :: flat l2) = flat l1 ++ v :: flat l2) as E1 by apply list.delete_middle. rewrite E1 in Hz1.
      destruct (delete_texts be junk zl1 _ _ p Hz1) as (zl2 & -> & Hz2); [rewrite length_app; cbn; lia|rewrite weight_app; cbn [weight]; lia|]. cbn [mbind option_bind].
      assert (delete (length (flat l1)) (flat l1 ++ v :: flat l2) = flat l1 ++ flat l2) as E2 by apply list.delete_middle. rewrite E2 in Hz2.
      exists (HashZl zl2). split; [rewrite bool_decide_true; [done|]; rewrite fmap_app; set_solver|]. split; [|done]. exists (l1 ++ l2). rewrite flat_app, weight_app. split; [cbn [holds]; rewrite flat_app; by eapply at_zlist|].
      split_and!; [done..|lia].
    + exists (HashZl zl). split; [by rewrite bool_decide_false|]. by rewrite delete_id by by apply not_elem_of_list_to_map_1.
  - pose proof Ho as (Hwf & Hit & He & Eps). destruct (dictGenericDelete_spec hashF cmp id d x false Hwf) as (d' & st & fr & Hdel & Hwf' & Hit' & Hst).
    unfold dictDelete. fold x. rewrite Hdel. cbn [mbind option_bind]. rewrite <- (bool_decide_ext (x ∈ ps.*1) (is_Some ((list_to_map ps : gmap (list Z) (list Z)) !! x))) by apply key_in. destruct st.
    + destruct Hst as (e & Hk & HP & _). assert (ps ≡ₚ (x, (entry_pair e).2) :: (entry_pair <$> ents d')) as HPs.
      { rewrite <- Eps. rewrite HP. rewrite fmap_cons. unfold entry_pair at 1. by rewrite Hk. }
      assert (NoDup ((x, (entry_pair e).2) :: (entry_pair <$> ents d')).*1) as Hnd' by by rewrite <- HPs. pose proof Hnd' as [Hn Hnd2]%NoDup_cons.
      assert (hash_rel B (HashHt d') (delete x (list_to_map ps))) as Hm'.
      { exists (entry_pair <$> ents d'). split; [split_and!; [done|congruence|by rewrite HP in He; apply Forall_cons in He as [_ He]|done]|]. split; [done|]. split.
        - rewrite (list_to_map_proper _ _ Hnd HPs). cbn. by rewrite delete_insert_id by by apply not_elem_of_list_to_map_1.
        - pose proof (flat_weight _ _ HPs) as Hfw. cbn [flat weight] in Hfw. pose proof (zlen_nonneg x). pose proof (zlen_nonneg (entry_pair e).2). lia. }
      rewrite decide_True by done. rewrite bool_decide_true by (rewrite HPs; by left). destruct (htNeedsResize d'); [|by eexists].
      destruct (dictResize_spec can_resize hashF d' Hwf') as (d2 & st2 & -> & Hsame). cbn [mbind option_bind]. exists (HashHt d2). split; [done|]. split; [by eapply holds_same|done].
    + destruct Hst as (HP & Hnot & _). assert (x ∉ ps.*1) as Hn by (rewrite <- Eps, keys_pairs, list_elem_of_fmap; intros (e & -> & Hin); by apply (Hnot e Hin)).
      rewrite decide_False by done. rewrite bool_decide_false by done. exists (HashHt d'). split; [done|]. split; [|done]. rewrite delete_id by by apply not_elem_of_list_to_map_1.
      apply (hash_perm _ _ _ ps (entry_pair <$> ents d')); try done; [|rewrite <- Eps; by rewrite HP]. split_and!; [done|congruence|by rewrite HP|done].
Qed.
End spec.
