(* ===== verification/HashCmdSpec.v ===== *)
(** * HashCmdSpec: the commands on hashes against finite maps

    Sequences of commands on a key behave as on a map from fields to values, whatever
    the encoding of the hash is and when it changes; a hash without fields is a key
    that does not exist. *)

From stdpp Require Import gmap.
From S2P Require Import Prelude Endian NumConv Objects Dict DictFacts DictHash DictIter SetType SetSpec Ziplist Strto Keyspace Commands ZiplistTexts HashType HashCommands HashSpec.

Local Notation hmap := (gmap (list Z) (list Z)).

(** ** The specification *)

Inductive hop :=
  | HSet (field value : list Z) | HSetnx (field value : list Z) | HMset (args : list (list Z)) | HIncrby (field incr : list Z)
  | HGet (field : list Z) | HMget (fields : list (list Z)) | HDel (fields : list (list Z)) | HLen | HExists (field : list Z)
  | HGetall (keys values : bool).

Definition bulk_of (v : option (list Z)) : reply := match v with Some s => RBulk s | None => RNullBulk end.
Definition to_int (s : list Z) : option Z := getLongLongFromObject (Some (ObjStr s)).
Fixpoint put_pairs (m : hmap) (args : list (list Z)) : hmap :=
  match args with f :: v :: args => put_pairs (<[f := v]> m) args | _ => m end.
(** The map after an operation *)
Definition hmap_after (m : hmap) (op : hop) : hmap :=
  match op with
  | HSet f v => <[f := v]> m
  | HSetnx f v => if m !! f is Some _ then m else <[f := v]> m
  | HMset args => if zlen args mod 2 =? 1 then m else put_pairs m args
  | HIncrby f n =>
      match to_int n, from_option to_int (Some 0) (m !! f) with
      | Some n, Some v => if bool_decide (in_s 64 (v + n)) then <[f := obj_string (ObjInt (v + n))]> m else m
      | _, _ => m
      end
  | HDel fs => foldl (λ m f, delete f m) m fs
  | _ => m
  end.
Definition pair_replies (keys values : bool) (p : list Z * list Z) : list reply :=
  (if keys then [RBulk p.1] else []) ++ (if values then [RBulk p.2] else []).
(** The reply [r] of an operation; the order of the fields is not specified. *)
Definition hreply (m : hmap) (op : hop) (r : reply) : Prop :=
  match op with
  | HSet f _ => r = RInt (if m !! f is Some _ then 0 else 1)
  | HSetnx f _ => r = RInt (if m !! f is Some _ then 0 else 1)
  | HMset args => r = if zlen args mod 2 =? 1 then RError EHmsetArgs else ROk
  | HIncrby f n => r =
      match to_int n, from_option to_int (Some 0) (m !! f) with
      | None, _ => RError ENotInteger
      | Some _, None => RError EHashNotInteger
      | Some n, Some v => if bool_decide (in_s 64 (v + n)) then RInt (v + n) else RError EOverflow
      end
  | HGet f => r = bulk_of (m !! f)
  | HMget fs => r = RMulti ((λ f, bulk_of (m !! f)) <$> fs)
  | HDel fs => r = RInt (Z.of_nat (base.size m) - Z.of_nat (base.size (hmap_after m op)))
  | HLen => r = RInt (Z.of_nat (base.size m))
  | HExists f => r = RInt (if m !! f is Some _ then 1 else 0)
  | HGetall keys values => ∃ ps, ps ≡ₚ map_to_list m ∧ r = RMulti (ps ≫= pair_replies keys values)
  end.
Fixpoint hreplies (m : hmap) (ops : list hop) (rs : list reply) : Prop :=
  match ops, rs with
  | [], [] => True
  | op :: ops, r :: rs => hreply m op r ∧ hreplies (hmap_after m op) ops rs
  | _, _ => False
  end.
Definition hmap_final (m : hmap) (ops : list hop) : hmap := foldl hmap_after m ops.

(** The bytes that an operation may add *)
Fixpoint args_cost (args : list (list Z)) : Z :=
  match args with f :: v :: args => 30 + zlen f + zlen v + args_cost args | _ => 0 end.
Definition hop_cost (op : hop) : Z :=
  match op with
  | HSet f v | HSetnx f v => 30 + zlen f + zlen v
  | HMset args => args_cost args
  | HIncrby f _ => 30 + zlen f + 32
  | _ => 0
  end.
Fixpoint hops_cost (ops : list hop) : Z := match ops with [] => 0 | op :: ops => hop_cost op + hops_cost ops end.
(** [processCommand] checks that HMSET has a field and a value. *)
Definition hop_ok (op : hop) : Prop := match op with HMset args => args ≠ [] | _ => True end.
#[global] Instance hop_ok_dec op : Decision (hop_ok op).
Proof. destruct op; cbn; apply _. Defined.

Section spec.
Context (be : host) (junk : nat → Z).
Context (can_resize : bool) (hashF : list Z → Z) (cmp : list Z → list Z → bool) `{!DictTypeLaws hashF cmp id}.
Context (max_entries max_value : Z) (t0 t1 : Z) (fuel : nat).

Local Notation hash_rel := (hash_rel hashF).
Local Notation hashTypeSet := (hashTypeSet be junk can_resize hashF cmp max_entries t0 t1).
Local Notation set_args := (set_args be junk can_resize hashF cmp max_entries t0 t1).

Definition run_hop (o : option hashobj) (op : hop) : option (option hashobj * reply) :=
  match op with
  | HSet f v => hsetCommand be junk can_resize hashF cmp max_entries max_value t0 t1 o f v
  | HSetnx f v => hsetnxCommand be junk can_resize hashF cmp max_entries max_value t0 t1 o f v
  | HMset args => hmsetCommand be junk can_resize hashF cmp max_entries max_value t0 t1 o args
  | HIncrby f n => hincrbyCommand be junk can_resize hashF cmp max_entries t0 t1 o f n
  | HGet f => hgetCommand be hashF cmp o f
  | HMget fs => hmgetCommand be hashF cmp o fs
  | HDel fs => hdelCommand be junk can_resize hashF cmp o fs
  | HLen => hlenCommand be o
  | HExists f => hexistsCommand be hashF cmp o f
  | HGetall keys values => genericHgetallCommand be t0 t1 fuel keys values o
  end.
Fixpoint run_hops (o : option hashobj) (ops : list hop) : option (option hashobj * list reply) :=
  match ops with
  | [] => Some (o, [])
  | op :: ops => '(o, r) ← run_hop o op; '(o, rs) ← run_hops o ops; Some (o, r :: rs)
  end.

(** ** The state of a key *)

Definition enc_ok (o : hashobj) (m : hmap) : Prop := is_zl o = true → Z.of_nat (base.size m) ≤ max_entries.
(** The hash that is created when there is none *)
Definition key_or_new (B : Z) (o : hashobj) (m : hmap) : Prop := hash_rel B o m ∧ enc_ok o m.
Definition key_rel (B : Z) (o : option hashobj) (m : hmap) : Prop :=
  match o with None => m = ∅ ∧ 11 ≤ B | Some o => key_or_new B o m ∧ m ≠ ∅ end.

Lemma key_bound B o m : key_rel B o m → 11 ≤ B.
Proof.
  destruct o as [o|]; [|by intros [_ ?]]. intros [[(ps & _ & _ & _ & Hw) _] _]. pose proof (weight_nonneg (flat ps)). lia.
Qed.
Lemma create_spec B o m : key_rel B o m → 0 ≤ max_entries → ∃ o', hashTypeLookupWriteOrCreate be junk o = Some o' ∧ key_or_new B o' m.
Proof.
  intros Hm Hmax. destruct o as [o|]; cbn [hashTypeLookupWriteOrCreate]; [destruct Hm; by exists o|]. destruct Hm as [-> HB].
  destruct (new_texts be junk (b := false)) as (zl & E & Hz). unfold createHashObject. rewrite E. cbn [mbind option_bind]. exists (HashZl zl). split; [done|].
  split; [exists []; split_and!; [done|constructor|done|cbn; lia]|]. intros _. rewrite map_size_empty. lia.
Qed.

(** ** Setting fields *)

Lemma set_args_spec B o m f v : key_or_new B o m → B + 30 + zlen f + zlen v < 2 ^ 31 →
  ∃ o', set_args o f v = Some (o', bool_decide (is_Some (m !! f))) ∧ key_or_new (B + 30 + zlen f + zlen v) o' (<[f := v]> m).
Proof using DictTypeLaws0.
  intros [Hm Henc] HB. unfold HashCommands.set_args. set (x := hashTypeTryObjectEncoding o (ObjStr f)). set (y := hashTypeTryObjectEncoding o (ObjStr v)).
  assert (∀ s, int_ok (hashTypeTryObjectEncoding o (ObjStr s)) ∧ obj_string (hashTypeTryObjectEncoding o (ObjStr s)) = s) as Henco.
  { intros s. unfold hashTypeTryObjectEncoding. destruct o; [done|]. destruct (encoded_string (ObjStr s) I) as [H1 H2]. by split. }
  destruct (Henco f) as [Hx Ex], (Henco v) as [Hy Ey]. fold x in Hx, Ex. fold y in Hy, Ey.
  destruct (hashTypeSet_spec be can_resize hashF cmp t0 t1 junk max_entries B o m x y Hm Hx Hy) as (o' & -> & Hm' & Henc'); [by rewrite Ex, Ey|].
  rewrite Ex, Ey in *. exists o'. by split_and!.
Qed.
Lemma try_conversion B o m args : key_or_new B o m → B < 2 ^ 31 →
  ∃ o', hashTypeTryConversion be can_resize hashF cmp max_value t0 t1 o args = Some o' ∧ key_or_new B o' m.
Proof using DictTypeLaws0.
  intros [Hm Henc] HB. destruct (hashTypeTryConversion_spec be can_resize hashF cmp t0 t1 B o m max_value args Hm HB) as (o' & E & Hm' & Hz). exists o'. split; [done|].
  split; [done|]. intros Hz'. by apply Henc, Hz.
Qed.
Lemma is_some_if {A B} (x : option A) (a b : B) : (if bool_decide (is_Some x) then a else b) = if x is Some _ then a else b.
Proof. by destruct x. Qed.

Lemma hset_spec B o m f v : key_rel B o m → 0 ≤ max_entries → B + (30 + zlen f + zlen v) < 2 ^ 31 → ∃ o' r, run_hop o (HSet f v) = Some (o', r) ∧
  key_rel (B + (30 + zlen f + zlen v)) o' (<[f := v]> m) ∧ hreply m (HSet f v) r.
Proof using DictTypeLaws0.
  intros Hm Hmax HB. pose proof (zlen_nonneg f). pose proof (zlen_nonneg v). cbn [run_hop]. unfold hsetCommand.
  destruct (create_spec B o m Hm Hmax) as (o1 & -> & H1). cbn [mbind option_bind]. destruct (try_conversion B o1 m [ObjStr f; ObjStr v] H1) as (o2 & -> & H2); [lia|]. cbn [mbind option_bind].
  destruct (set_args_spec B o2 m f v H2) as (o3 & -> & H3); [lia|]. cbn [mbind option_bind]. eexists _, _. split; [done|]. split.
  - split; [by rewrite !Z.add_assoc|apply insert_non_empty].
  - cbn [hreply]. by rewrite is_some_if.
Qed.
Lemma hsetnx_spec B o m f v : key_rel B o m → 0 ≤ max_entries → B + (30 + zlen f + zlen v) < 2 ^ 31 → ∃ o' r, run_hop o (HSetnx f v) = Some (o', r) ∧
  key_rel (B + (30 + zlen f + zlen v)) o' (hmap_after m (HSetnx f v)) ∧ hreply m (HSetnx f v) r.
Proof using DictTypeLaws0.
  intros Hm Hmax HB. pose proof (zlen_nonneg f). pose proof (zlen_nonneg v). cbn [run_hop hmap_after hreply]. unfold hsetnxCommand.
  destruct (create_spec B o m Hm Hmax) as (o1 & -> & H1). cbn [mbind option_bind]. destruct (try_conversion B o1 m [ObjStr f; ObjStr v] H1) as (o2 & -> & H2); [lia|]. cbn [mbind option_bind].
  destruct (hashTypeExists_spec be hashF cmp B o2 m (ObjStr f)) as (o3 & -> & Hm3 & Hz); [apply H2|done|]. cbn [mbind option_bind]. change (obj_string (ObjStr f)) with f.
  assert (key_or_new B o3 m) as H3 by (split; [done|]; intros Hz3; apply H2; congruence). destruct (m !! f) as [w|] eqn:Ef.
  - rewrite bool_decide_true by by eexists. eexists _, _. split; [done|]. split; [|done]. split; [|intros ->; by rewrite lookup_empty in Ef]. destruct H3 as [H3 H3']. split; [eapply hash_mono; [done|lia]|done].
  - rewrite bool_decide_false by by intros [? ?]. destruct (set_args_spec B o3 m f v H3) as (o4 & -> & H4); [lia|]. cbn [mbind option_bind]. eexists _, _. split; [done|]. split; [|done].
    split; [by rewrite !Z.add_assoc|apply insert_non_empty].
Qed.

Lemma put_pairs_non_empty args m : m ≠ ∅ → put_pairs m args ≠ ∅.
Proof.
  revert m. induction args as [args IH] using (induction_ltof1 _ length). unfold ltof in IH. destruct args as [|f [|v args]]; intros m Hm; [done..|]. cbn [put_pairs].
  apply IH; [cbn; lia|apply insert_non_empty].
Qed.
Lemma args_cost_nonneg args : 0 ≤ args_cost args.
Proof.
  induction args as [args IH] using (induction_ltof1 _ length). unfold ltof in IH. destruct args as [|f [|v args]]; [done..|]. cbn [args_cost].
  specialize (IH args ltac:(cbn; lia)). pose proof (zlen_nonneg f). pose proof (zlen_nonneg v). lia.
Qed.
Lemma hmset_loop_spec args : ∀ B o m, key_or_new B o m → B + args_cost args < 2 ^ 31 →
  ∃ o', hmset_loop be junk can_resize hashF cmp max_entries t0 t1 o args = Some o' ∧ key_or_new (B + args_cost args) o' (put_pairs m args).
Proof using DictTypeLaws0.
  induction args as [args IH] using (induction_ltof1 _ length). unfold ltof in IH. intros B o m Hm HB.
  destruct args as [|f [|v args]]; cbn [hmset_loop put_pairs args_cost] in *; try (exists o; by rewrite Z.add_0_r). pose proof (args_cost_nonneg args).
  destruct (set_args_spec B o m f v Hm) as (o1 & -> & H1); [lia|]. cbn [mbind option_bind]. destruct (IH args ltac:(cbn; lia) _ o1 _ H1) as (o2 & -> & H2); [lia|].
  exists o2. split; [done|]. by replace (B + (30 + zlen f + zlen v + args_cost args)) with (B + 30 + zlen f + zlen v + args_cost args) by lia.
Qed.
Lemma hmset_spec B o m args : key_rel B o m → 0 ≤ max_entries → args ≠ [] → B + args_cost args < 2 ^ 31 → ∃ o' r, run_hop o (HMset args) = Some (o', r) ∧
  key_rel (B + args_cost args) o' (hmap_after m (HMset args)) ∧ hreply m (HMset args) r.
Proof using DictTypeLaws0.
  intros Hm Hmax Hne HB. pose proof (args_cost_nonneg args). cbn [run_hop hmap_after hreply]. unfold hmsetCommand. destruct (_ =? 1) eqn:Epar.
  - eexists _, _. split; [done|]. split; [|done]. destruct o as [o|]; [|destruct Hm; split; [done|lia]]. destruct Hm as [[H1 H2] H3]. split; [|done]. split; [eapply hash_mono; [done|lia]|done].
  - destruct (create_spec B o m Hm Hmax) as (o1 & -> & H1). cbn [mbind option_bind]. destruct (try_conversion B o1 m (ObjStr <$> args) H1) as (o2 & -> & H2); [lia|]. cbn [mbind option_bind].
    destruct (hmset_loop_spec args B o2 m H2 HB) as (o3 & -> & H3). cbn [mbind option_bind]. eexists _, _. split; [done|]. split; [|done]. split; [done|].
    destruct args as [|f [|v args]]; [done..|]. cbn [put_pairs]. apply put_pairs_non_empty, insert_non_empty.
Qed.

(** ** Increments *)

Lemma overflow_test v n : in_s 64 v → in_s 64 n →
  ((n <? 0) && (v <? 0) && (n <? - 2 ^ 63 - v)) || ((0 <? n) && (0 <? v) && (2 ^ 63 - 1 - v <? n)) = negb (bool_decide (in_s 64 (v + n))).
Proof.
  intros Hv Hn. unfold in_s in *. change (2 ^ (64 - 1)) with (2 ^ 63) in *. case_bool_decide as Hs; cbn [negb]; lia.
Qed.
Lemma int_length v : in_s 64 v → zlen (obj_string (ObjInt v)) ≤ 32.
Proof.
  intros Hv. destruct (ll2string_room (replicate 32 0) 32 v Hv) as (s & Hd & Hl & _); [done|].
  rewrite (decimal_unique (obj_string (ObjInt v)) s v); [lia|by apply obj_string_decimal|done].
Qed.
Lemma hincr_spec B o m f v n : key_or_new B o m → in_s 64 v → in_s 64 n → (v ≠ 0 → m ≠ ∅) → B + (30 + zlen f + 32) < 2 ^ 31 →
  ∃ o', hincr be junk can_resize hashF cmp max_entries t0 t1 o f v n = Some (Some o', if bool_decide (in_s 64 (v + n)) then RInt (v + n) else RError EOverflow) ∧
    key_rel (B + (30 + zlen f + 32)) (Some o') (if bool_decide (in_s 64 (v + n)) then <[f := obj_string (ObjInt (v + n))]> m else m).
Proof using DictTypeLaws0.
  intros [Hm Henc] Hv Hn Hne HB. pose proof (zlen_nonneg f). unfold hincr. rewrite (overflow_test v n Hv Hn). case_bool_decide as Hs; cbn [negb].
  - set (x := hashTypeTryObjectEncoding o (ObjStr f)). assert (int_ok x ∧ obj_string x = f) as [Hx Ex].
    { unfold x, hashTypeTryObjectEncoding. destruct o; [done|]. destruct (encoded_string (ObjStr f) I) as [H1 H2]. by split. }
    pose proof (int_length (v + n) Hs) as Hl. unfold createStringObjectFromLongLong.
    destruct (hashTypeSet_spec be can_resize hashF cmp t0 t1 junk max_entries B o m x (ObjInt (v + n)) Hm Hx Hs) as (o' & -> & Hm' & Henc'); [rewrite Ex; lia|]. cbn [mbind option_bind].
    rewrite Ex in *. exists o'. split; [done|]. split; [|apply insert_non_empty]. split; [eapply hash_mono; [done|lia]|done].
  - exists o. split; [done|]. split; [split; [eapply hash_mono; [done|lia]|done]|]. apply Hne. intros ->. by rewrite Z.add_0_l in Hs.
Qed.
Lemma to_int_range s v : to_int s = Some v → in_s 64 v.
Proof. unfold to_int. intros E. cbn [getLongLongFromObject] in E. destruct (strtoll_total s) as (w & c & r & E' & Hw). rewrite E' in E. by destruct (_ || _); simplify_eq. Qed.
Lemma hincrby_spec B o m f n : key_rel B o m → 0 ≤ max_entries → B + (30 + zlen f + 32) < 2 ^ 31 → ∃ o' r, run_hop o (HIncrby f n) = Some (o', r) ∧
  key_rel (B + (30 + zlen f + 32)) o' (hmap_after m (HIncrby f n)) ∧ hreply m (HIncrby f n) r.
Proof using DictTypeLaws0.
  intros Hm Hmax HB. pose proof (zlen_nonneg f). cbn [run_hop hmap_after hreply]. unfold hincrbyCommand. change (getLongLongFromObject (Some (ObjStr n))) with (to_int n).
  destruct (to_int n) as [k|] eqn:En.
  - apply to_int_range in En. destruct (create_spec B o m Hm Hmax) as (o1 & -> & H1). cbn [mbind option_bind].
    destruct (hashTypeGetObject_spec be hashF cmp B o1 m (ObjStr f)) as (o2 & r & -> & Hm2 & Er & Hr & Hz); [apply H1|done|]. cbn [mbind option_bind]. change (obj_string (ObjStr f)) with f in Er.
    assert (key_or_new B o2 m) as H2 by (split; [done|]; intros Hz2; apply H1; congruence). rewrite <- Er. destruct r as [x|]; cbn [option_map from_option].
    + assert (m ≠ ∅) as Hne by (intros ->; by rewrite lookup_empty in Er). assert (getLongLongFromObject (Some x) = to_int (obj_string x)) as ->.
      { unfold to_int. destruct x as [s|w]; [done|]. cbn in Hr. by rewrite object_int. }
      destruct (to_int (obj_string x)) as [v|] eqn:Ev.
      * apply to_int_range in Ev. destruct (hincr_spec B o2 m f v k H2 Ev En) as (o3 & -> & H3); [done..|]. by eexists _, _.
      * eexists _, _. split; [done|]. split; [|done]. destruct H2 as [H2 H2']. split; [|done]. split; [eapply hash_mono; [done|lia]|done].
    + destruct (hincr_spec B o2 m f 0 k H2) as (o3 & -> & H3); [done..|]. by eexists _, _.
  - eexists _, _. split; [done|]. split; [|done]. destruct o as [o|]; [|destruct Hm; split; [done|lia]]. destruct Hm as [[H1 H2] H3]. split; [|done]. split; [eapply hash_mono; [done|lia]|done].
Qed.

(** ** Reading *)

Lemma field_reply_spec B o m f : key_rel B o m → ∃ o', addHashFieldToReply be hashF cmp o f = Some (o', bulk_of (m !! f)) ∧ key_rel B o' m.
Proof using DictTypeLaws0.
  intros Hm. destruct o as [[zl|d]|]; cbn [addHashFieldToReply].
  - pose proof Hm as [[Hm' _] _]. rewrite (get_ziplist_spec be hashF B zl m (ObjStr f) Hm' I). cbn [mbind option_bind]. change (obj_string (ObjStr f)) with f.
    destruct (m !! f) as [v|] eqn:Ef; cbn [option_map]; [|by eexists]. destruct (zval_string v) as [Hv Ev]. unfold bulk. rewrite (decoded_ok _ Hv), Ev. cbn [mbind option_bind]. by eexists.
  - pose proof Hm as [[Hm' Henc] Hne]. destruct (get_table_spec hashF cmp B d m (ObjStr f) Hm') as (d' & r & -> & Hm2 & Er & Hr). cbn [mbind option_bind]. change (obj_string (ObjStr f)) with f in Er.
    rewrite <- Er. assert (key_rel B (Some (HashHt d')) m) as H2 by (split; [by split|done]). destruct r as [x|]; cbn [option_map]; [|by eexists].
    unfold bulk. rewrite (decoded_ok x Hr). cbn [mbind option_bind]. by eexists.
  - destruct Hm as [-> HB]. rewrite lookup_empty. by exists None.
Qed.
Lemma hmget_loop_spec B m fs : ∀ o, key_rel B o m → ∃ o', hmget_loop be hashF cmp o fs = Some (o', (λ f, bulk_of (m !! f)) <$> fs) ∧ key_rel B o' m.
Proof using DictTypeLaws0.
  induction fs as [|f fs IH]; intros o Hm; cbn [hmget_loop]; [by exists o|]. destruct (field_reply_spec B o m f Hm) as (o1 & -> & H1). cbn [mbind option_bind].
  destruct (IH o1 H1) as (o2 & -> & H2). by exists o2.
Qed.
Lemma hexists_spec B o m f : key_rel B o m → ∃ o' r, run_hop o (HExists f) = Some (o', r) ∧ key_rel B o' m ∧ hreply m (HExists f) r.
Proof using DictTypeLaws0.
  intros Hm. cbn [run_hop hreply]. destruct o as [o|]; cbn [hexistsCommand]; [|destruct Hm as [-> HB]; exists None, (RInt 0); by rewrite lookup_empty].
  destruct Hm as [[Hm Henc] Hne]. destruct (hashTypeExists_spec be hashF cmp B o m (ObjStr f) Hm I) as (o' & -> & Hm' & Hz). cbn [mbind option_bind].
  eexists _, _. split; [done|]. split; [split; [split; [done|]|done]; intros Hz'; apply Henc; congruence|]. by rewrite is_some_if.
Qed.
Lemma length_spec B o m : key_or_new B o m → B < 2 ^ 31 → ∃ o', hashTypeLength be o = Some (o', Z.of_nat (base.size m)) ∧ key_or_new B o' m.
Proof using Type.
  intros [Hm Henc] HB. destruct (hashTypeLength_spec be hashF B o m Hm HB) as (o' & E & Hm' & Hz). exists o'. split; [done|]. split; [done|]. intros Hz'. apply Henc. congruence.
Qed.

(** ** Deletion *)

Lemma delete_sizes (m : hmap) f : Z.of_nat (base.size m) = Z.of_nat (base.size (delete f m)) + if bool_decide (is_Some (m !! f)) then 1 else 0.
Proof.
  case_bool_decide as Hf; [rewrite map_size_delete_Some by done|rewrite delete_id by (by apply eq_None_not_Some); lia].
  destruct Hf as [v Hv]. assert (base.size m ≠ 0)%nat by (intros E; apply map_size_empty_inv in E as ->; done). lia.
Qed.
Lemma foldl_delete_size fs : ∀ m : hmap, (base.size (foldl (λ m f, delete f m) m fs) ≤ base.size m)%nat.
Proof. induction fs as [|f fs IH]; intros m; [done|]. cbn. specialize (IH (delete f m)). pose proof (delete_sizes m f). case_bool_decide; lia. Qed.
Lemma foldl_delete_empty fs : foldl (λ (m : hmap) f, delete f m) ∅ fs = ∅.
Proof. induction fs as [|f fs IH]; [done|]. cbn. by rewrite delete_empty. Qed.
Lemma size_bound B o m : hash_rel B o m → 30 * Z.of_nat (base.size m) ≤ B - 11.
Proof. intros (ps & _ & Hnd & Em & Hw). rewrite <- (hash_size m ps Hnd Em). pose proof (pairs_weight ps). lia. Qed.

Lemma hdel_loop_spec B fs : B < 2 ^ 31 → ∀ o m n, key_rel B (Some o) m → 0 ≤ n → n + Z.of_nat (base.size m) < 2 ^ 31 →
  ∃ o', hdel_loop be junk can_resize hashF cmp o fs n = Some (o', n + (Z.of_nat (base.size m) - Z.of_nat (base.size (foldl (λ m f, delete f m) m fs)))) ∧
    key_rel B o' (foldl (λ m f, delete f m) m fs).
Proof using DictTypeLaws0.
  intros HB. induction fs as [|f fs IH]; intros o m n Hm Hn Hsz; cbn [hdel_loop foldl]; [exists (Some o); split; [do 2 f_equal; lia|done]|].
  destruct Hm as [[Hm Henc] Hne]. destruct (hashTypeDelete_spec be can_resize hashF cmp junk B o m (ObjStr f) Hm I HB) as (o1 & -> & Hm1 & Hz). cbn [mbind option_bind].
  change (obj_string (ObjStr f)) with f in *. pose proof (delete_sizes m f) as Hds.
  assert (key_or_new B o1 (delete f m)) as H1 by (split; [done|]; intros Hz1; rewrite Hz in Hz1; specialize (Henc Hz1); case_bool_decide; lia). case_bool_decide as Hf.
  - destruct (length_spec B o1 _ H1 HB) as (o2 & -> & H2). cbn [mbind option_bind]. rewrite (wraps_small 32) by (unfold in_s; lia). destruct (Z.eqb_spec (Z.of_nat (base.size (delete f m))) 0) as [E|E].
    + assert (delete f m = ∅) as -> by (apply map_size_empty_inv; lia). rewrite foldl_delete_empty, map_size_empty in *. exists None. split; [do 2 f_equal; lia|]. split; [done|]. pose proof (size_bound B o m Hm). lia.
    + destruct (IH o2 (delete f m) (n + 1)) as (o3 & -> & H3); [|lia|lia|].
      * split; [done|]. intros E0. apply E. by rewrite E0, map_size_empty.
      * exists o3. split; [do 2 f_equal; lia|done].
  - rewrite delete_id in * by by apply eq_None_not_Some. apply (IH o1 m n); [by split|done|done].
Qed.
Lemma hdel_spec B o m fs : key_rel B o m → B < 2 ^ 31 → ∃ o' r, run_hop o (HDel fs) = Some (o', r) ∧ key_rel B o' (hmap_after m (HDel fs)) ∧ hreply m (HDel fs) r.
Proof using DictTypeLaws0.
  intros Hm HB. cbn [run_hop hmap_after hreply]. destruct o as [o|]; cbn [hdelCommand].
  - pose proof Hm as [[Hm' _] _]. pose proof (size_bound B o m Hm'). destruct (hdel_loop_spec B fs HB o m 0 Hm) as (o' & -> & H'); [lia..|]. cbn [mbind option_bind]. by eexists _, _.
  - destruct Hm as [-> HB']. rewrite foldl_delete_empty, Z.sub_diag. by eexists _, _.
Qed.

(** ** Iteration *)

Lemma cursor_reply o hi p (key : bool) : current be o hi p → addHashIteratorCursorToReply be o hi key = Some (RBulk (if key then p.1 else p.2)).
Proof.
  intros Hc. destruct (Hc key) as (x & E & Hx & Ex). rewrite <- Ex. destruct o as [zl|d], hi as [fp vp|it de]; try done; cbn [hashTypeCurrentObject addHashIteratorCursorToReply] in *.
  - destruct (hashTypeCurrentFromZiplist be zl fp vp key) as [z|]; [|done]. cbn [mbind option_bind] in *. injection E as ->. unfold bulk. by rewrite (decoded_ok x Hx).
  - rewrite E. cbn [mbind option_bind]. unfold bulk. by rewrite (decoded_ok x Hx).
Qed.
Lemma hgetall_loop_spec keys values o l : ∀ fuel hi, HashSpec.remains hashF t0 t1 o hi l → (length l < fuel)%nat →
  hgetall_loop be t0 t1 fuel keys values o hi = Some (o, l ≫= pair_replies keys values).
Proof using Type.
  induction l as [|p l IH]; intros [|fuel'] hi Hr Hf; cbn in Hf; try lia; cbn [hgetall_loop].
  - destruct (next_pair_end be hashF t0 t1 o hi Hr) as (hi' & -> & Hrel). cbn [mbind option_bind]. by rewrite Hrel.
  - destruct (next_pair be hashF t0 t1 o hi p l Hr) as (hi' & -> & Hr' & Hc). cbn [mbind option_bind]. rewrite !(cursor_reply o hi' p _ Hc). cbn [mbind option_bind].
    rewrite bind_cons. unfold pair_replies at 1. destruct keys, values; cbn [mbind option_bind]; rewrite (IH fuel' hi' Hr') by lia; done.
Qed.
Lemma replies_length keys values (l : list (list Z * list Z)) :
  zlen (l ≫= pair_replies keys values) = zlen l * ((if keys then 1 else 0) + (if values then 1 else 0)).
Proof.
  induction l as [|p l IH]; [done|]. rewrite bind_cons, zlen_app, IH, zlen_cons. unfold pair_replies. destruct keys, values; rewrite ?zlen_app, ?zlen_cons; unfold zlen; cbn [length]; lia.
Qed.
Lemma hgetall_spec B o m keys values : key_rel B o m → B < 2 ^ 31 → Z.of_nat (base.size m) < Z.of_nat fuel →
  ∃ o' r, run_hop o (HGetall keys values) = Some (o', r) ∧ key_rel B o' m ∧ hreply m (HGetall keys values) r.
Proof using DictTypeLaws0.
  intros Hm HB Hf. cbn [run_hop hreply]. destruct o as [o|]; cbn [genericHgetallCommand].
  - destruct Hm as [Hm Hne]. destruct (length_spec B o m Hm HB) as (o' & -> & Hm'). cbn [mbind option_bind]. pose proof Hm' as [(ps & Hps & Hnd & Em & Hw) _].
    pose proof (hash_size m ps Hnd Em) as Hs. rewrite (hgetall_loop_spec keys values o' ps); [|by apply hash_init_remains|unfold zlen in *; lia]. cbn [mbind option_bind].
    rewrite replies_length, Hs. pose proof (size_bound B o' m (proj1 Hm')). rewrite (wrapu_small 64), (wraps_small 32) by (unfold in_s, in_u; destruct keys, values; lia).
    rewrite Z.eqb_refl. eexists _, _. split; [done|]. split; [by split|]. exists ps. split; [|done]. rewrite Em. by rewrite map_to_list_to_map.
  - destruct Hm as [-> HB']. eexists _, _. split; [done|]. split; [done|]. exists []. by rewrite map_to_list_empty.
Qed.

(** ** Sequences of operations *)

Lemma hop_cost_nonneg op : 0 ≤ hop_cost op.
Proof. destruct op as [f v|f v|args|f n|f|fs|fs| |f|k v]; cbn; try done; [| |apply args_cost_nonneg|]; pose proof (zlen_nonneg f); try pose proof (zlen_nonneg v); lia. Qed.
Lemma hops_cost_nonneg ops : 0 ≤ hops_cost ops.
Proof. induction ops as [|op ops IH]; cbn; [done|]. pose proof (hop_cost_nonneg op). lia. Qed.

Lemma run_hop_spec B o m op : key_rel B o m → 0 ≤ max_entries → hop_ok op → B + hop_cost op < 2 ^ 31 → B ≤ Z.of_nat fuel →
  ∃ o' r, run_hop o op = Some (o', r) ∧ key_rel (B + hop_cost op) o' (hmap_after m op) ∧ hreply m op r.
Proof using DictTypeLaws0.
  intros Hm Hmax Hok HB Hf. destruct op as [f v|f v|args|f n|f|fs|fs| |f|k v]; cbn [hop_cost hop_ok] in *; rewrite ?Z.add_0_r in *.
  - by apply hset_spec.
  - by apply hsetnx_spec.
  - by apply hmset_spec.
  - by apply hincrby_spec.
  - destruct (field_reply_spec B o m f Hm) as (o' & E & H'). by exists o', (bulk_of (m !! f)).
  - destruct (hmget_loop_spec B m fs o Hm) as (o' & E & H'). cbn [run_hop]. unfold hmgetCommand. rewrite E. by eexists _, _.
  - by apply hdel_spec.
  - cbn [run_hop hreply]. destruct o as [o|]; cbn [hlenCommand]; [|destruct Hm as [-> ?]; by exists None, (RInt 0)]. destruct Hm as [Hm Hne].
    destruct (length_spec B o m Hm HB) as (o' & -> & Hm'). by eexists _, _.
  - by apply hexists_spec.
  - apply hgetall_spec; try done. destruct o as [o|]; [|destruct Hm as [-> ?]; rewrite map_size_empty; lia]. destruct Hm as [[Hm _] _]. pose proof (size_bound B o m Hm). lia.
Qed.
Lemma run_hops_spec ops : ∀ B o m, key_rel B o m → 0 ≤ max_entries → Forall hop_ok ops → B + hops_cost ops < 2 ^ 31 → B + hops_cost ops ≤ Z.of_nat fuel →
  ∃ o' rs, run_hops o ops = Some (o', rs) ∧ key_rel (B + hops_cost ops) o' (hmap_final m ops) ∧ hreplies m ops rs.
Proof using DictTypeLaws0.
  induction ops as [|op ops IH]; intros B o m Hm Hmax Hok HB Hf; cbn [run_hops hops_cost hmap_final foldl hreplies] in *; [exists o, []; by rewrite Z.add_0_r|].
  apply Forall_cons in Hok as [Hop Hok]. pose proof (hop_cost_nonneg op). pose proof (hops_cost_nonneg ops).
  destruct (run_hop_spec B o m op Hm Hmax Hop) as (o1 & r & -> & H1 & Hr); [lia..|]. cbn [mbind option_bind].
  destruct (IH _ o1 _ H1 Hmax Hok) as (o2 & rs & -> & H2 & Hrs); [lia..|]. cbn [mbind option_bind]. exists o2, (r :: rs). split; [done|]. split; [|done].
  rewrite Z.add_assoc. done.
Qed.

(** C10. Hashes implement finite maps: every sequence of commands on a key that does
    not exist at first (HSET, HSETNX, HMSET, HINCRBY, HGET, HMGET, HDEL, HLEN,
    HEXISTS, HKEYS, HVALS, HGETALL) is executed without a failed assertion or an
    access outside of the ziplist, with the replies of a map from fields to values,
    and leaves an object that holds exactly this map, or no object if the map is
    empty.  The change from the ziplist to the hash table cannot be observed, and a
    ziplist has at most [hash_max_ziplist_entries] fields. *)
Theorem hash_refines_map ops :
  0 ≤ max_entries → Forall hop_ok ops → 11 + hops_cost ops < 2 ^ 31 → 11 + hops_cost ops ≤ Z.of_nat fuel →
  ∃ o rs, run_hops None ops = Some (o, rs) ∧ hreplies ∅ ops rs ∧ key_rel (11 + hops_cost ops) o (hmap_final ∅ ops).
Proof using DictTypeLaws0.
  intros Hmax Hok HB Hf. destruct (run_hops_spec ops 11 None ∅) as (o & rs & E & Hm & Hr); try done. by exists o, rs.
Qed.

End spec.

(** ** Executions *)

Definition hash_demo : list hop :=
  [HSet (str "a") (str "1"); HSetnx (str "a") (str "2"); HIncrby (str "a") (str "41"); HMset [str "b"; str "x"; str "c"; str "12345678901"]; HGet (str "a");
   HIncrby (str "b") (str "1"); HLen; HSet (str "b") (str "a longer value"); HMget [str "b"; str "d"; str "c"]; HExists (str "c"); HGetall true true;
   HDel [str "a"; str "zz"; str "b"]; HGetall false true; HDel [str "c"]; HLen].
Local Notation dhash := (dictSdsHash false 5381).
Lemma hash_refines_map_witness : ∃ o rs,
  run_hops false (λ _, 0) true dhash dictSdsKeyCompare 2 64 11 22 1000 None hash_demo = Some (o, rs) ∧ hreplies ∅ hash_demo rs ∧
  key_rel dhash 2 (11 + hops_cost hash_demo) o (hmap_final ∅ hash_demo).
Proof.
  refine (hash_refines_map false (λ _, 0) true dhash dictSdsKeyCompare (DictTypeLaws0 := set_keys false 5381 _) 2 64 11 22 1000 hash_demo _ _ _ _);
    [split; vm_compute; discriminate || reflexivity|lia|by_decision|vm_compute; reflexivity|vm_compute; discriminate].
Defined.
Example hash_demo_replies : snd <$> run_hops false (λ _, 0) true dhash dictSdsKeyCompare 2 64 11 22 1000 None (take 7 hash_demo) =
  Some [RInt 1; RInt 0; RInt 42; ROk; RBulk (str "42"); RError EHashNotInteger; RInt 3].
Proof. vm_compute. reflexivity. Qed.

(** HINCRBY does not look at the length of the field: with the thresholds of
    redis.conf it puts a field of 65 bytes into a ziplist, where HSET makes a hash
    table. *)
Theorem hincrby_long_field : let f := replicate 65 97 in
  (∃ zl, hincrbyCommand false (λ _, 0) true dhash dictSdsKeyCompare 512 11 22 None f (str "1") = Some (Some (HashZl zl), RInt 1)) ∧
  (∃ d, hsetCommand false (λ _, 0) true dhash dictSdsKeyCompare 512 64 11 22 None f (str "1") = Some (Some (HashHt d), RInt 1)).
Proof. split; eexists; vm_compute; reflexivity. Qed.
