(* ===== verification/ListSpec.v ===== *)
(** * ListSpec: list objects implement lists of strings

    The invariant of list objects in both encodings, and the operations of
    [ListType] against lists of strings.  The entries of a ziplist are short; the
    case where they are not is in [ListCmdSpec]. *)

From stdpp Require Import gmap.
From S2P Require Import Prelude Endian NumConv Objects SetType Ziplist ZiplistFacts ZiplistOps ZiplistSpec ZiplistTexts HashType HashSpec Adlist ListType.

Local Notation zlist := (zlist (b := true)).
Local Notation at_pos := (at_pos (b := true)).
Local Notation at_opt := (at_opt (b := true)).
Local Notation nodes := (list (loc * enc_obj)).

Section spec.
Context (be : host) (junk : nat → Z).

Local Notation heap := (gmap loc (listNode enc_obj)).
Implicit Types (h : heap) (o : listobj) (vs : list (list Z)) (xs : nodes) (k : nat).

(** ** The invariant *)

Definition node_string (x : loc * enc_obj) : list Z := obj_string x.2.
Definition linked h (l : alist enc_obj) vs xs : Prop := owns h l xs ∧ node_string <$> xs = vs ∧ Forall (λ x, obj_ok x.2) xs.
(** The object [o] holds the strings [vs]. *)
Definition list_rel h o vs : Prop :=
  match o with ListZl zl => zlist zl vs | ListLl l => ∃ xs, linked h l vs xs end.
Definition in_zl o : bool := match o with ListZl _ => true | ListLl _ => false end.

(** The entry [e] is the one of rank [k], or the end of a ziplist. *)
Definition entry_at h o vs k (e : listTypeEntry) : Prop :=
  match o, e with
  | ListZl zl, EZl p => at_pos zl vs k p
  | ListLl l, ELl a => ∃ xs, linked h l vs xs ∧ ptr_at xs k = Some a
  | _, _ => False
  end.
(** The iterator is about to return the entry of rank [k] ... *)
Definition fwd_at h o vs k (li : listTypeIterator) : Prop :=
  match o, li with
  | ListZl zl, LiZl (Some p) true => at_pos zl vs k p
  | ListZl zl, LiZl None true => zlist zl vs ∧ k = length vs
  | ListLl l, LiLl ln true => ∃ xs, linked h l vs xs ∧ ln = ptr_at xs k ∧ (k ≤ length vs)%nat
  | _, _ => False
  end.
(** ... or the one before it, backwards. *)
Definition bwd_at h o vs k (li : listTypeIterator) : Prop :=
  match o, li with
  | ListZl zl, LiZl (Some p) false => (0 < k)%nat ∧ (k ≤ length vs)%nat ∧ at_pos zl vs (k - 1) p
  | ListZl zl, LiZl None false => zlist zl vs ∧ k = 0%nat
  | ListLl l, LiLl ln false => ∃ xs, linked h l vs xs ∧ ln = ptr_before xs k ∧ (k ≤ length vs)%nat
  | _, _ => False
  end.

Lemma linked_length h l vs xs : linked h l vs xs → length xs = length vs.
Proof. intros (_ & <- & _). by rewrite length_fmap. Qed.
Lemma at_le zl vs k p : at_pos zl vs k p → (k ≤ length vs)%nat.
Proof. by intros (es & n & _ & _ & _ & Hk & _). Qed.
Lemma linked_node h l vs xs k a : linked h l vs xs → ptr_at xs k = Some a →
  ∃ v, xs !! k = Some (a, v) ∧ obj_ok v ∧ vs !! k = Some (obj_string v) ∧ h !! a = Some (mkNode (ptr_before xs k) (ptr_at xs (S k)) v).
Proof.
  intros (Ho & <- & Hv) Ha. unfold ptr_at in Ha. destruct (xs !! k) as [[q v]|] eqn:Ek; [|done]. cbn in Ha. injection Ha as ->. exists v. split; [done|].
  rewrite Forall_lookup in Hv. split; [apply (Hv _ _ Ek)|]. split; [by rewrite list_lookup_fmap, Ek|]. apply seg_lookup; [apply Ho|done].
Qed.
Lemma linked_split h l vs xs k a v : linked h l vs xs → xs !! k = Some (a, v) →
  owns h l (take k xs ++ (a, v) :: drop (S k) xs).
Proof. intros (Ho & _) Hk. by rewrite take_drop_middle. Qed.

Lemma list_length_spec h o vs : list_rel h o vs → ∃ o', listTypeLength be o = Some (o', zlen vs) ∧ list_rel h o' vs ∧ in_zl o' = in_zl o.
Proof.
  destruct o as [zl|l]; cbn [listTypeLength list_rel].
  - intros Hz. destruct (len_texts be zl vs Hz) as (zl' & -> & Hz'). by exists (ListZl zl').
  - intros (xs & Hx). exists (ListLl l). split; [|split; [by exists xs|done]]. pose proof (linked_length _ _ _ _ Hx) as Hl. destruct Hx as (Ho & _). rewrite (own_len _ _ _ Ho). unfold zlen. by rewrite Hl.
Qed.

(** ** Iterators *)

Lemma init_fwd h o vs : list_rel h o vs → ∃ li, listTypeInitIterator be h o 0 true = Some li ∧ fwd_at h o vs 0 li.
Proof.
  destruct o as [zl|l]; cbn [listTypeInitIterator list_rel].
  - intros Hz. change (i32 0) with 0. destruct (index_texts be zl vs 0 Hz) as (r & -> & Hr); [lia|]. cbn [mbind option_bind]. eexists. split; [done|]. unfold z_index in Hr. cbn [Z.leb] in Hr.
    destruct vs as [|v vs]; [by destruct r|]. by destruct r.
  - intros (xs & Hx). pose proof Hx as (Ho & _). rewrite (listIndex_spec h l xs 0 Ho) by (done || unfold in_s; lia). cbn [mbind option_bind]. eexists. split; [done|]. exists xs. split_and!; [done..|lia].
Qed.
Lemma init_bwd h o vs : list_rel h o vs → ∃ li, listTypeInitIterator be h o (-1) false = Some li ∧ bwd_at h o vs (length vs) li.
Proof.
  destruct o as [zl|l]; cbn [listTypeInitIterator list_rel].
  - intros Hz. change (i32 (-1)) with (-1). destruct (index_texts be zl vs (-1) Hz) as (r & -> & Hr); [lia|]. cbn [mbind option_bind]. eexists. split; [done|]. unfold z_index in Hr. cbn [Z.leb] in Hr.
    destruct vs as [|v vs]; [by destruct r|]. rewrite (proj2 (Z.leb_le (- (-1)) _)) in Hr by (rewrite zlen_cons; pose proof (zlen_nonneg vs); lia). destruct r as [p|]; [|done]. cbn in Hr.
    split; [cbn; lia|]. split; [done|]. by replace (length (v :: vs) - 1)%nat with (Z.to_nat (zlen (v :: vs) + -1)) by (unfold zlen; lia).
  - intros (xs & Hx). pose proof Hx as (Ho & _). pose proof (linked_length _ _ _ _ Hx) as Hl. rewrite (listIndex_spec h l xs (-1) Ho) by (done || unfold in_s; lia). cbn [mbind option_bind]. eexists. split; [done|]. exists xs. split_and!; [done| |done].
    unfold rank. cbn [Z.ltb Z.compare]. rewrite <- Hl. destruct xs as [|x xs]; [done|]. rewrite (proj2 (Z.leb_le (- (-1)) _)) by (cbn; lia). cbn [mbind option_bind ptr_before length]. f_equal. lia.
Qed.

Lemma next_fwd h o vs k li : fwd_at h o vs k li → (k < length vs)%nat →
  ∃ li' e, listTypeNext be h o li = Some (li', Some e) ∧ entry_at h o vs k e ∧ fwd_at h o vs (S k) li'.
Proof.
  destruct o as [zl|l], li as [[p|] []|ln []]; cbn [fwd_at]; try done.
  - intros Hp Hk. cbn [listTypeNext]. destruct (next_texts zl vs k p Hp) as (r & -> & Hr). cbn [mbind option_bind]. eexists _, _. split; [done|]. split; [done|]. cbn [fwd_at].
    case_bool_decide; destruct r; try done. split; [by eapply at_zlist|lia].
  - intros [_ ->]. lia.
  - intros (xs & Hx & -> & _) Hk. destruct (ptr_at xs k) as [a|] eqn:Ea.
    + destruct (linked_node h l vs xs k a Hx Ea) as (v & _ & _ & _ & Hn). cbn [listTypeNext]. rewrite Hn. cbn [mbind option_bind next]. eexists _, _. split; [done|]. split; [by exists xs|]. exists xs. split_and!; [done..|lia].
    + unfold ptr_at in Ea. apply fmap_None, lookup_ge_None in Ea. pose proof (linked_length _ _ _ _ Hx). lia.
Qed.
Lemma next_bwd h o vs k li : bwd_at h o vs (S k) li →
  ∃ li' e, listTypeNext be h o li = Some (li', Some e) ∧ entry_at h o vs k e ∧ bwd_at h o vs k li'.
Proof.
  destruct o as [zl|l], li as [[p|] []|ln []]; cbn [bwd_at]; try done.
  - intros (_ & Hk & Hp). rewrite Nat.sub_succ, Nat.sub_0_r in Hp. cbn [listTypeNext]. destruct (prev_texts be zl vs k p Hp) as (r & -> & Hr). cbn [mbind option_bind]. eexists _, _. split; [done|]. split; [done|]. cbn [bwd_at].
    case_bool_decide; destruct r; try done; [split; [by eapply at_zlist|lia]|]. split_and!; [lia..|done].
  - by intros [_ ?].
  - intros (xs & Hx & -> & Hk). cbn [ptr_before]. pose proof (linked_length _ _ _ _ Hx) as Hl. destruct (ptr_at xs k) as [a|] eqn:Ea.
    + destruct (linked_node h l vs xs k a Hx Ea) as (v & _ & _ & _ & Hn). cbn [listTypeNext]. rewrite Hn. cbn [mbind option_bind prev]. eexists _, _. split; [done|]. split; [by exists xs|]. exists xs. split_and!; [done..|lia].
    + unfold ptr_at in Ea. apply fmap_None, lookup_ge_None in Ea. lia.
Qed.
Lemma next_bwd_end h o vs li : bwd_at h o vs 0 li → listTypeNext be h o li = Some (li, None).
Proof.
  destruct o as [zl|l], li as [[p|] []|ln []]; cbn [bwd_at]; try done; [intros (? & _); lia|]. by intros (xs & _ & -> & _).
Qed.

(** ** Entries *)

Lemma list_get_spec h o vs k e v : entry_at h o vs k e → vs !! k = Some v →
  ∃ x, listTypeGet be h o e = Some (Some x) ∧ int_ok x ∧ obj_string x = v.
Proof.
  destruct o as [zl|l], e as [p|a]; cbn [entry_at listTypeGet]; try done.
  - intros Hp Hv. rewrite (get_texts be zl vs k p Hp), Hv. cbn [mbind option_bind fmap option_fmap option_map]. eexists. split; [done|]. apply zval_string.
  - intros (xs & Hx & Ha) Hv. destruct (linked_node h l vs xs k a Hx Ha) as (x & _ & Hok & Hs & ->). cbn [mbind option_bind value]. exists x. split; [done|]. split; [|congruence]. by destruct x.
Qed.
(** A value that may be added to a ziplist *)
Definition fits_zl o (s : list Z) : Prop := in_zl o = true → zlen s ≤ 240.

Lemma insert_linked h l vs xs k a v x : linked h l vs xs → xs !! k = Some (a, v) → obj_ok x → zlen vs + 1 < 2 ^ 63 → ∀ after,
  ∃ h' l' xs', listInsertNode h l a x after = Some (h', l') ∧
    linked h' l' (if after then take (S k) vs ++ obj_string x :: drop (S k) vs else take k vs ++ obj_string x :: drop k vs) xs'.
Proof.
  intros Hx Hk Hok Hsz after. pose proof (linked_split h l vs xs k a v Hx Hk) as Ho. pose proof (linked_length _ _ _ _ Hx) as Hl. destruct Hx as (_ & Hs & Hall).
  destruct (listInsertNode_spec h l _ _ a v x after Ho) as (h' & l' & E & Ho' & _); [rewrite take_drop_middle by done; unfold zlen in *; lia|].
  exists h', l'. eexists. split; [done|]. split; [exact Ho'|]. pose proof (take_drop_middle xs k (a, v) Hk) as Exs.
  assert (drop k xs = (a, v) :: drop (S k) xs) as Ed by by apply drop_S. assert (take (S k) xs = take k xs ++ [(a, v)]) as Et by by apply take_S_r.
  assert (obj_ok v ∧ Forall (λ x, obj_ok x.2) (take k xs) ∧ Forall (λ x, obj_ok x.2) (drop (S k) xs)) as (Hv & HA & HB).
  { rewrite <- Exs in Hall. apply Forall_app in Hall as [HA [Hv HB]%Forall_cons]. done. }
  split.
  - rewrite <- Hs. destruct after; unfold Adlist.insert_at.
    + rewrite <- !fmap_take, <- !fmap_drop, Et, !fmap_app, <- (assoc_L (++)). done.
    + rewrite <- !fmap_take, <- !fmap_drop, Ed, !fmap_app. done.
  - destruct after; unfold Adlist.insert_at; rewrite Forall_app, !Forall_cons; done.
Qed.
Lemma list_insert_spec h o vs k e x tail : entry_at h o vs k e → (k < length vs)%nat → obj_ok x → fits_zl o (obj_string x) →
  11 + weight vs + 15 + zlen (obj_string x) < 2 ^ 31 →
  ∃ h' o', listTypeInsert be junk h o e x tail = Some (h', o') ∧ in_zl o' = in_zl o ∧
    list_rel h' o' (if (tail : bool) then take (S k) vs ++ obj_string x :: drop (S k) vs else take k vs ++ obj_string x :: drop k vs).
Proof.
  intros He Hk Hx Hf Hw. pose proof (weight_len vs) as Hwl. pose proof (zlen_nonneg (obj_string x)). destruct o as [zl|l], e as [p|a]; cbn [entry_at listTypeInsert] in *; try done.
  - specialize (Hf eq_refl). rewrite decoded_ok by by destruct x. cbn [mbind option_bind].
    assert (∀ i q, at_pos zl vs i q → ∃ zl', ziplistInsert be junk zl q (obj_string x) = Some zl' ∧ zlist zl' (take i vs ++ obj_string x :: drop i vs)) as Hins
      by (intros i q Hq; by eapply insert_texts).
    destruct tail.
    + destruct (next_texts zl vs k p He) as (r & -> & Hr). cbn [mbind option_bind]. case_bool_decide as Hs; destruct r as [q|]; try done.
      * destruct (Hins (S k) q Hr) as (zl' & -> & Hz'). by exists h, (ListZl zl').
      * destruct (push_texts be junk (b := true) zl vs (obj_string x) false) as (zl' & -> & Hz'); [by eapply at_zlist|done|cbn [weight]; lia|]. exists h, (ListZl zl'). split; [done|]. split; [done|].
        by rewrite take_ge, drop_ge by lia.
    + destruct (Hins k p He) as (zl' & -> & Hz'). by exists h, (ListZl zl').
  - destruct He as (xs & Hxs & Ha). destruct (linked_node h l vs xs k a Hxs Ha) as (v & Hv & _).
    destruct (insert_linked h l vs xs k a v x Hxs Hv Hx ltac:(lia) tail) as (h' & l' & xs' & -> & Hx'). cbn [mbind option_bind]. exists h', (ListLl l'). split; [done|]. split; [done|]. by exists xs'.
Qed.

(** [delete]: the list without the entry of rank [k] *)
Lemma delete_linked h l vs xs k a v : linked h l vs xs → xs !! k = Some (a, v) →
  ∃ h' l' fr, listDelNode h l a = Some (h', l', fr) ∧ linked h' l' (delete k vs) (delete k xs).
Proof.
  intros Hx Hk. pose proof (linked_split h l vs xs k a v Hx Hk) as Ho. destruct Hx as (_ & <- & Hall). destruct (listDelNode_spec h l _ _ a v Ho) as (h' & l' & E & Ho' & _).
  exists h', l'. eexists. split; [done|]. rewrite <- list_fmap_delete. rewrite delete_take_drop. split_and!; [done..|].
  rewrite <- (take_drop_middle xs k (a, v) Hk) in Hall. apply Forall_app in Hall as [HA [_ HB]%Forall_cons]. by apply Forall_app.
Qed.
Lemma ptr_delete xs k j : ptr_at (delete k xs) j = if bool_decide (j < k)%nat then ptr_at xs j else ptr_at xs (S j).
Proof. unfold ptr_at. case_bool_decide; [by rewrite list_lookup_delete_lt|by rewrite list_lookup_delete_ge by lia]. Qed.

Definition towards (li : listTypeIterator) : bool := match li with LiZl _ t | LiLl _ t => t end.
Definition li_for o (li : listTypeIterator) : Prop := match o, li with ListZl _, LiZl _ _ | ListLl _, LiLl _ _ => True | _, _ => False end.
Lemma list_delete_spec h o vs k e li : entry_at h o vs k e → (k < length vs)%nat → li_for o li → 11 + weight vs < 2 ^ 31 →
  ∃ h' o' li', listTypeDelete be junk h o li e = Some (h', o', li') ∧ in_zl o' = in_zl o ∧ list_rel h' o' (delete k vs) ∧
    if towards li then fwd_at h' o' (delete k vs) k li' else bwd_at h' o' (delete k vs) k li'.
Proof.
  intros He Hk Hli Hw. destruct o as [zl|l], e as [p|a], li as [zi t|ln t]; try done; cbn [entry_at listTypeDelete towards] in *.
  - destruct (delete_texts be junk zl vs k p He Hk Hw) as (zl' & -> & Hp). cbn [mbind option_bind]. assert (zlist zl' (delete k vs)) as Hz by by eapply at_zlist. destruct t; cbn [mbind option_bind].
    + by eexists _, _, _.
    + destruct (prev_texts be zl' _ k p Hp) as (r & -> & Hr). cbn [mbind option_bind]. eexists _, _, _. split; [done|]. split; [done|]. split; [done|]. cbn [bwd_at].
      pose proof (at_le _ _ _ _ Hp). case_bool_decide; destruct r; try done. split_and!; [lia|done..].
  - destruct He as (xs & Hx & Ha). destruct (linked_node h l vs xs k a Hx Ha) as (v & Hv & _ & _ & ->). cbn [mbind option_bind]. pose proof (linked_length _ _ _ _ Hx) as Hl.
    destruct (delete_linked h l vs xs k a v Hx Hv) as (h' & l' & fr & -> & Hx'). cbn [mbind option_bind]. pose proof (linked_length _ _ _ _ Hx') as Hl'.
    assert (length (delete k xs) = length xs - 1)%nat as Hld by (rewrite length_delete; [lia|by eexists]).
    exists h', (ListLl l'). eexists. split; [done|]. split; [done|]. split; [by eexists|]. destruct t; cbn [fwd_at bwd_at next prev]; eexists; (split; [done|]); (split; [|lia]).
    + by rewrite ptr_delete, bool_decide_false by lia.
    + destruct k as [|k]; [done|]. cbn [ptr_before]. by rewrite ptr_delete, bool_decide_true by lia.
Qed.

(** ** Conversion *)

Lemma add_tail_linked h l vs xs x : linked h l vs xs → obj_ok x → zlen vs + 1 < 2 ^ 63 →
  ∃ h' l' xs', listAddNodeTail h l x = Some (h', l') ∧ linked h' l' (vs ++ [obj_string x]) xs'.
Proof.
  intros Hx Hok Hsz. pose proof (linked_length _ _ _ _ Hx) as Hl. destruct Hx as (Ho & <- & Hall). destruct (listAddNodeTail_spec h l xs x Ho) as (h' & l' & E & Ho' & _); [unfold zlen in *; lia|].
  exists h', l', (xs ++ [(alloc h, x)]). split; [done|]. split; [done|]. rewrite fmap_app, Forall_app. by rewrite Forall_singleton.
Qed.
Lemma add_head_linked h l vs xs x : linked h l vs xs → obj_ok x → zlen vs + 1 < 2 ^ 63 →
  ∃ h' l' xs', listAddNodeHead h l x = Some (h', l') ∧ linked h' l' (obj_string x :: vs) xs'.
Proof.
  intros Hx Hok Hsz. pose proof (linked_length _ _ _ _ Hx) as Hl. destruct Hx as (Ho & <- & Hall). destruct (listAddNodeHead_spec h l xs x Ho) as (h' & l' & E & Ho' & _); [unfold zlen in *; lia|].
  exists h', l', ((alloc h, x) :: xs). split; [done|]. split; [done|]. by rewrite Forall_cons.
Qed.
Lemma zl_short zl vs : zlist zl vs → Forall (λ v, zlen v ≤ 240) vs.
Proof. intros (es & n & _ & <- & Hs). specialize (Hs eq_refl). apply Forall_fmap. eapply Forall_impl; [exact Hs|]. by intros e [_ ?]. Qed.
Lemma list_convert_loop_spec zl vs : zlist zl vs → 11 + weight vs < 2 ^ 31 → ∀ fuel h k r l xs,
  at_opt zl vs (if bool_decide (k < length vs)%nat then Some k else None) r → (k ≤ length vs)%nat → (length vs - k < fuel)%nat → linked h l (take k vs) xs →
  ∃ h' l' xs', list_convert_loop be fuel h (ListZl zl) (LiZl r true) l = Some (h', l') ∧ linked h' l' vs xs'.
Proof.
  intros Hz Hw. pose proof (weight_len vs) as Hwl. induction fuel as [|fuel IH]; intros h k r l xs Hr Hk Hf Hx; [lia|]. cbn [list_convert_loop]. case_bool_decide as Hlt; destruct r as [p|]; try done.
  - cbn [listTypeNext]. destruct (next_texts zl vs k p Hr) as (r & -> & Hn). cbn [mbind option_bind]. destruct (lookup_lt_is_Some_2 vs k Hlt) as [v Hv].
    assert (zlen v ≤ 240) as Hvl by (pose proof (zl_short zl vs Hz) as Hs; rewrite Forall_lookup in Hs; by eapply Hs).
    destruct (list_get_spec h (ListZl zl) vs k (EZl p) v Hr Hv) as (x & -> & Hx' & Ex). cbn [mbind option_bind].
    assert (obj_ok x) as Hok by (destruct x as [s|w]; [change (obj_string (ObjStr s)) with s in Ex; subst; cbn; lia|done]).
    destruct (add_tail_linked h l _ xs x Hx Hok) as (h1 & l1 & xs1 & -> & Hx1); [unfold zlen in *; rewrite length_take; lia|]. cbn [mbind option_bind].
    apply (IH h1 (S k) r l1 xs1 Hn); [lia..|]. by rewrite (take_S_r vs k v Hv), <- Ex.
  - cbn [listTypeNext mbind option_bind]. rewrite take_ge in Hx by lia. by eexists _, _, _.
Qed.
Lemma listTypeConvert_spec h zl vs : zlist zl vs → 11 + weight vs < 2 ^ 31 →
  ∃ h' l, listTypeConvert be h (ListZl zl) = Some (h', ListLl l) ∧ list_rel h' (ListLl l) vs.
Proof.
  intros Hz Hw. cbn [listTypeConvert listTypeInitIterator]. change (i32 0) with 0. destruct (index_texts be zl vs 0 Hz) as (r & -> & Hr); [lia|]. cbn [mbind option_bind].
  assert (at_opt zl vs (if bool_decide (0 < length vs)%nat then Some 0%nat else None) r) as Hr' by (unfold z_index in Hr; cbn [Z.leb] in Hr; by destruct vs).
  destruct (list_convert_loop_spec zl vs Hz Hw (S (length zl)) h 0 r (mkList None None None true None 0) [] Hr') as (h' & l' & xs & -> & Hx).
  - lia.
  - pose proof (zlist_length zl vs Hz). lia.
  - split_and!; [|done|constructor]. split; try done; constructor.
  - cbn [mbind option_bind]. exists h', l'. split; [done|]. by exists xs.
Qed.

(** ** Both ends *)

Context (max_entries max_value : Z) (Hmax : 0 ≤ max_value ≤ 240).

(** A ziplist has at most [list_max_ziplist_entries] entries. *)
Definition list_enc o vs : Prop := in_zl o = true → zlen vs ≤ max_entries.

Lemma try_conversion_spec h o vs x : list_rel h o vs → obj_ok x → 11 + weight vs < 2 ^ 31 →
  ∃ h' o', listTypeTryConversion be max_value h o x = Some (h', o') ∧ list_rel h' o' vs ∧ fits_zl o' (obj_string x) ∧ (in_zl o' = true → in_zl o = true).
Proof using Hmax.
  intros Ho Hx Hw. destruct o as [zl|l]; cbn [listTypeTryConversion]; [|by exists h, (ListLl l)]. destruct x as [s|v].
  - destruct (Z.ltb_spec max_value (zlen s)).
    + destruct (listTypeConvert_spec h zl vs Ho Hw) as (h' & l & -> & Hl). by exists h', (ListLl l).
    + exists h, (ListZl zl). split_and!; try done. intros _. change (obj_string (ObjStr s)) with s. lia.
  - exists h, (ListZl zl). split_and!; try done. intros _. destruct (ll2string_room (replicate 32 0) 32 v Hx) as (s & Hd & Hl & _); [done|].
    rewrite (decimal_unique (obj_string (ObjInt v)) s v); [lia|by apply obj_string_decimal|done].
Qed.
Lemma listTypePush_spec h o vs x (w : bool) : list_rel h o vs → list_enc o vs → obj_ok x → 11 + weight vs + 15 + zlen (obj_string x) < 2 ^ 31 →
  ∃ h' o', listTypePush be junk max_entries max_value h o x w = Some (h', o') ∧ list_rel h' o' (if w then obj_string x :: vs else vs ++ [obj_string x]) ∧
    list_enc o' (obj_string x :: vs).
Proof using Hmax.
  intros Ho Henc Hx Hw. pose proof (zlen_nonneg (obj_string x)). pose proof (weight_len vs) as Hwl. unfold listTypePush.
  destruct (try_conversion_spec h o vs x Ho Hx) as (h1 & o1 & -> & H1 & Hf1 & Hz1); [lia|]. cbn [mbind option_bind].
  assert (∃ h2 o2, match o1 with
    | ListZl zl => '(zl, n) ← ziplistLen be zl; if max_entries <=? n then listTypeConvert be h1 (ListZl zl) else Some (h1, ListZl zl)
    | ListLl _ => Some (h1, o1)
    end = Some (h2, o2) ∧ list_rel h2 o2 vs ∧ fits_zl o2 (obj_string x) ∧ (in_zl o2 = true → zlen vs < max_entries)) as (h2 & o2 & -> & H2 & Hf2 & Hz2).
  { destruct o1 as [zl|l]; [|by exists h1, (ListLl l)]. destruct (len_texts be zl vs H1) as (zl' & -> & Hz'). cbn [mbind option_bind]. destruct (Z.leb_spec max_entries (zlen vs)).
    - destruct (listTypeConvert_spec h1 zl' vs Hz') as (h2 & l & -> & Hl); [lia|]. by exists h2, (ListLl l).
    - by exists h1, (ListZl zl'). }
  cbn [mbind option_bind]. destruct o2 as [zl|l].
  - rewrite decoded_ok by by destruct x. cbn [mbind option_bind]. destruct (push_texts be junk (b := true) zl vs (obj_string x) w H2) as (zl' & -> & Hz'); [by intros _; apply Hf2|cbn [weight]; lia|].
    cbn [mbind option_bind]. exists h2, (ListZl zl'). split_and!; try done. intros _. rewrite zlen_cons. specialize (Hz2 eq_refl). lia.
  - destruct H2 as (xs & Hxs). destruct w.
    + destruct (add_head_linked h2 l vs xs x Hxs Hx) as (h3 & l3 & xs3 & -> & Hx3); [lia|]. cbn [mbind option_bind]. exists h3, (ListLl l3). split_and!; try done. by exists xs3.
    + destruct (add_tail_linked h2 l vs xs x Hxs Hx) as (h3 & l3 & xs3 & -> & Hx3); [lia|]. cbn [mbind option_bind]. exists h3, (ListLl l3). split_and!; try done. by exists xs3.
Qed.

(** The rank of the element at one end *)
Definition end_rank vs (w : bool) : nat := if w then 0%nat else (length vs - 1)%nat.
Lemma end_ptr h l vs xs (w : bool) : linked h l vs xs → (if w then head l else tail l) = ptr_at xs (end_rank vs w).
Proof using Type.
  intros Hx. pose proof (linked_length _ _ _ _ Hx) as Hl. pose proof Hx as (Ho & _). destruct w; [rewrite (own_head _ _ _ Ho); apply first_ptr_at|].
  rewrite (own_tail _ _ _ Ho), lastp_ptr_before, Hl. unfold end_rank. destruct vs; [by destruct xs|]. cbn [length ptr_before]. f_equal. lia.
Qed.
Lemma listTypePop_spec h o vs (w : bool) : list_rel h o vs → 11 + weight vs < 2 ^ 31 →
  ∃ h' o' r, listTypePop be junk h o w = Some (h', o', r) ∧ in_zl o' = in_zl o ∧
    match vs !! end_rank vs w with
    | Some v => list_rel h' o' (delete (end_rank vs w) vs) ∧ ∃ x, r = Some x ∧ int_ok x ∧ obj_string x = v
    | None => list_rel h' o' vs ∧ r = None
    end.
Proof using Type.
  intros Ho Hw. destruct o as [zl|l]; cbn [listTypePop].
  - destruct (index_texts be zl vs (if w then 0 else -1) Ho) as (p & -> & Hp); [destruct w; lia|]. cbn [mbind option_bind].
    assert (z_index vs (if w then 0 else -1) = match vs with [] => None | _ => Some (end_rank vs w) end) as Ei.
    { destruct vs as [|v vs]; [by destruct w|]. unfold z_index, end_rank. pose proof (zlen_nonneg vs). destruct w; cbn [Z.leb Z.compare].
      - rewrite (proj2 (Z.ltb_lt _ _)) by (rewrite zlen_cons; lia). done.
      - rewrite (proj2 (Z.leb_le (- (-1)) _)) by (rewrite zlen_cons; lia). f_equal. unfold zlen. cbn [length]. lia. }
    rewrite Ei in Hp. destruct vs as [|v0 vs]; [destruct p; [done|]; by eexists _, _, _|]. set (ts := v0 :: vs) in *. destruct p as [p|]; [|done]. cbn [ZiplistTexts.at_opt] in Hp.
    rewrite (get_texts be zl ts _ p Hp). cbn [mbind option_bind]. assert (end_rank ts w < length ts)%nat as Hlt by (unfold end_rank, ts; destruct w; cbn; lia).
    destruct (lookup_lt_is_Some_2 ts (end_rank ts w) Hlt) as [v Hv]. rewrite Hv. cbn [fmap option_fmap option_map]. destruct (delete_texts be junk zl ts _ p Hp Hlt Hw) as (zl' & -> & Hp'). cbn [mbind option_bind].
    eexists _, _, _. split; [done|]. split; [done|]. split; [by eapply at_zlist|]. eexists. split; [done|]. apply zval_string.
  - destruct Ho as (xs & Hx). pose proof (linked_length _ _ _ _ Hx) as Hl. pose proof Hx as (Ho & _).
    rewrite (end_ptr h l vs xs w Hx).
    destruct (ptr_at xs (end_rank vs w)) as [a|] eqn:Ea.
    + destruct (linked_node h l vs xs _ a Hx Ea) as (x & Hxk & Hok & Hs & ->). cbn [mbind option_bind value]. rewrite Hs. destruct (delete_linked h l vs xs _ a x Hx Hxk) as (h' & l' & fr & -> & Hx'). cbn [mbind option_bind].
      eexists _, _, _. split; [done|]. split; [done|]. split; [by eexists|]. exists x. split_and!; try done. by destruct x.
    + unfold ptr_at in Ea. apply fmap_None, lookup_ge_None in Ea. rewrite lookup_ge_None_2 by lia. eexists _, _, _. split; [done|]. split; [done|]. split; [by exists xs|done].
Qed.

(** ** Comparison *)

Context (memcmp : list Z → list Z → Z) (buf : list Z) `{!Memcmp memcmp} (Hbuf : 128 ≤ zlen buf).

(** What is compared with the entries: a string if they are in a ziplist *)
Definition arg_for o (x : enc_obj) : Prop := obj_ok x ∧ (in_zl o = true → ∃ s, x = ObjStr s).
Lemma equal_spec h o vs k e v x : entry_at h o vs k e → vs !! k = Some v → arg_for o x →
  listTypeEqual be memcmp buf h o e x = Some (bool_decide (v = obj_string x)).
Proof using Memcmp0 Hbuf.
  destruct o as [zl|l], e as [p|a]; cbn [entry_at listTypeEqual]; try done.
  - intros Hp Hv [_ Hx]. destruct Hx as [s ->]; [done|]. by apply (compare_texts be (b := true) zl vs k p v s).
  - intros (xs & Hx & Ha) Hv [Hx' _]. destruct (linked_node h l vs xs k a Hx Ha) as (w & _ & Hok & Hs & ->). cbn [mbind option_bind value].
    rewrite (equalStringObjects_spec memcmp buf Hbuf x w Hx' Hok). f_equal. apply bool_decide_ext. rewrite Hv in Hs. injection Hs as ->. split; by intros ->.
Qed.

(** At the end there may be one more entry of a ziplist, which equals nothing. *)
Lemma next_fwd_end h o vs li : fwd_at h o vs (length vs) li →
  ∃ li', (listTypeNext be h o li = Some (li', None)) ∨
    ∃ e, listTypeNext be h o li = Some (li', Some e) ∧ listTypeNext be h o li' = Some (li', None) ∧ (∀ s, listTypeEqual be memcmp buf h o e (ObjStr s) = Some false) ∧ in_zl o = true.
Proof using Type.
  destruct o as [zl|l], li as [[p|] []|ln []]; cbn [fwd_at]; try done.
  - intros Hp. cbn [listTypeNext]. destruct (next_texts zl vs _ p Hp) as (r & -> & Hr). cbn [mbind option_bind]. rewrite bool_decide_false in Hr by lia. destruct r; [done|].
    exists (LiZl None true). right. eexists. split; [done|]. split; [done|]. split; [|done]. intros s. cbn [listTypeEqual]. pose proof (get_texts be zl vs _ p Hp) as Hg. rewrite lookup_ge_None_2 in Hg by done.
    unfold ziplistGet in Hg. unfold ziplistCompare. destruct (get8 zl p) as [c|]; [|done]. cbn [mbind option_bind] in *. destruct (c =? ZIP_END); [done|].
    destruct (zipEntry be zl p) as [e|]; [|done]. cbn [mbind option_bind] in Hg. destruct (ZIP_IS_STR _); [by destruct (load _ _ _)|by destruct (zipLoadInteger _ _ _ _)].
  - intros _. eexists. by left.
  - intros (xs & Hx & -> & _). eexists. left. unfold ptr_at. rewrite lookup_ge_None_2 by (pose proof (linked_length _ _ _ _ Hx); lia). done.
Qed.
End spec.
