(* ===== verification/ListCmdSpec.v ===== *)
(** * ListCmdSpec: the commands on lists against lists of strings

    Sequences of commands on a key behave as on a list of strings, whatever the
    encoding of the list is and when it changes; an empty list is a key that does
    not exist.  It holds for short entries of ziplists and indices of type [int];
    what happens otherwise is shown at the end. *)

From stdpp Require Import gmap.
From S2P Require Import Zset Prelude Endian NumConv Objects DictHash SetType Ziplist ZiplistOps ZiplistTexts HashType HashSpec Strto Keyspace Commands HashCommands HashCmdSpec Adlist ListType ListCommands ListSpec.

Local Notation strings := (list (list Z)).

(** ** The specification *)

Inductive lcmd :=
  | LPush (args : strings) | RPush (args : strings) | LPushx (arg : list Z) | RPushx (arg : list Z) | LInsert (place pivot v : list Z)
  | LLen | LIndexC (index : list Z) | LSet (index v : list Z) | LPop | RPop | LRange (start end_ : list Z) | LTrim (start end_ : list Z)
  | LRem (count v : list Z).

(** [v] next to the first [pivot] *)
Fixpoint insert_next (after : bool) (pivot v : list Z) (vs : strings) : option strings :=
  match vs with
  | [] => None
  | x :: vs => if decide (x = pivot) then Some (if after then x :: v :: vs else v :: x :: vs) else option_map (cons x) (insert_next after pivot v vs)
  end.
(** The elements from one index to another, which count from the end if negative *)
Definition from_end (vs : strings) (i : Z) : Z := if i <? 0 then zlen vs + i else i.
Definition sublist (vs : strings) (i j : Z) : strings :=
  take (Z.to_nat (Z.min (zlen vs - 1) (from_end vs j) - Z.max 0 (from_end vs i) + 1)) (drop (Z.to_nat (Z.max 0 (from_end vs i))) vs).
(** The list without the first [n] occurrences of [x] *)
Fixpoint rem_first (n : nat) (x : list Z) (vs : strings) : strings :=
  match vs with
  | [] => []
  | y :: vs => if decide (y = x) then match n with O => y :: vs | S n => rem_first n x vs end else y :: rem_first n x vs
  end.
Definition rem_last (n : nat) (x : list Z) (vs : strings) : strings := reverse (rem_first n x (reverse vs)).
Definition place_of (place : list Z) : option bool :=
  if strcaseeq place (str "after") then Some true else if strcaseeq place (str "before") then Some false else None.

Definition list_after (vs : strings) (op : lcmd) : strings :=
  match op with
  | LPush args => reverse args ++ vs
  | RPush args => vs ++ args
  | LPushx v => match vs with [] => [] | _ => v :: vs end
  | RPushx v => match vs with [] => [] | _ => vs ++ [v] end
  | LInsert place pivot v => match place_of place with Some after => default vs (insert_next after pivot v vs) | None => vs end
  | LSet i v => match to_int i with Some i => match z_index vs i with Some k => <[k := v]> vs | None => vs end | None => vs end
  | LPop => drop 1 vs
  | RPop => take (length vs - 1) vs
  | LTrim i j => match to_int i, to_int j with Some i, Some j => sublist vs i j | _, _ => vs end
  | LRem n v =>
      match to_int n with
      | Some n => if n <? 0 then rem_last (Z.to_nat (- n)) v vs else if n =? 0 then rem_first (length vs) v vs else rem_first (Z.to_nat n) v vs
      | None => vs
      end
  | LLen | LIndexC _ | LRange _ _ => vs
  end.
Definition list_reply (vs : strings) (op : lcmd) : reply :=
  match op with
  | LPush args | RPush args => RInt (zlen vs + zlen args)
  | LPushx _ | RPushx _ => RInt (match vs with [] => 0 | _ => zlen vs + 1 end)
  | LInsert place pivot v =>
      match place_of place with
      | Some after => match vs with [] => RInt 0 | _ => RInt (if insert_next after pivot v vs then zlen vs + 1 else -1) end
      | None => RError ESyntax
      end
  | LLen => RInt (zlen vs)
  | LIndexC i =>
      match vs, to_int i with
      | [], _ => RNullBulk
      | _, None => RError ENotInteger
      | _, Some i => bulk_of (z_index vs i ≫= λ k, vs !! k)
      end
  | LSet i v =>
      match vs, to_int i with
      | [], _ => RError ENoKey
      | _, None => RError ENotInteger
      | _, Some i => match z_index vs i with Some _ => ROk | None => RError EOutOfRange end
      end
  | LPop => bulk_of (vs !! 0%nat)
  | RPop => bulk_of (vs !! (length vs - 1)%nat)
  | LRange i j => match to_int i, to_int j with Some i, Some j => RMulti (RBulk <$> sublist vs i j) | _, _ => RError ENotInteger end
  | LTrim i j => match to_int i, to_int j with Some _, Some _ => ROk | _, _ => RError ENotInteger end
  | LRem n v => match to_int n with Some _ => RInt (zlen vs - zlen (list_after vs op)) | None => RError ENotInteger end
  end.
Fixpoint spec_lcmds (vs : strings) (ops : list lcmd) : strings * list reply :=
  match ops with
  | [] => (vs, [])
  | op :: ops => let '(vs', rs) := spec_lcmds (list_after vs op) ops in (vs', list_reply vs op :: rs)
  end.

(** Strings have at most 512 MB, indices are [int]s, and the number of LREM can be
    negated. *)
Definition arg_small (s : list Z) : Prop := zlen s ≤ 512 * 1024 * 1024.
Definition lcmd_ok (op : lcmd) : Prop :=
  match op with
  | LPush args | RPush args => Forall arg_small args
  | LPushx v | RPushx v => arg_small v
  | LInsert _ p v => arg_small p ∧ arg_small v
  | LIndexC i => from_option (λ i, - 2 ^ 31 < i < 2 ^ 31) True (to_int i)
  | LSet i v => arg_small v ∧ from_option (λ i, - 2 ^ 31 < i < 2 ^ 31) True (to_int i)
  | LRem n v => arg_small v ∧ to_int n ≠ Some (- 2 ^ 63)
  | _ => True
  end.
#[global] Instance lcmd_ok_dec op : Decision (lcmd_ok op).
Proof. unfold lcmd_ok, arg_small. destruct op as [args|args|v|v|pl p v| |i|i v| | |i j|i j|n v]; try apply _; destruct (to_int i); apply _. Defined.
Definition lcmd_cost (op : lcmd) : Z :=
  match op with
  | LPush args | RPush args => weight args
  | LPushx v | RPushx v | LInsert _ _ v | LSet _ v => 15 + zlen v
  | _ => 0
  end.
Fixpoint lcmds_cost (ops : list lcmd) : Z := match ops with [] => 0 | op :: ops => lcmd_cost op + lcmds_cost ops end.

Section spec.
Context (be : host) (junk : nat → Z) (max_entries max_value : Z) (Hmax : 0 ≤ max_value ≤ 240) (Hent : 0 ≤ max_entries).

Local Notation heap := (gmap loc (listNode enc_obj)).
Local Notation listTypePush := (listTypePush be junk max_entries max_value).
Local Notation list_enc := (list_enc max_entries).
Implicit Types (h : heap) (vs : strings) (k : nat).

(** ** The state of a key *)

Definition obj_rel (B : Z) h (o : listobj) vs : Prop := list_rel h o vs ∧ list_enc o vs ∧ 11 + weight vs ≤ B.
Definition lkey (B : Z) h (o : option listobj) vs : Prop :=
  match o with None => vs = [] ∧ 11 ≤ B | Some o => obj_rel B h o vs ∧ vs ≠ [] end.

Lemma lkey_bound B h o vs : lkey B h o vs → 11 + weight vs ≤ B.
Proof. destruct o as [o|]; [by intros [(_ & _ & ?) _]|]. by intros [-> ?]. Qed.
Lemma lkey_mono B B' h o vs : lkey B h o vs → B ≤ B' → lkey B' h o vs.
Proof. destruct o as [o|]; [|intros [-> ?]; split; [done|lia]]. intros [(H1 & H2 & H3) Hne] HB. split; [split_and!; try done; lia|done]. Qed.
Lemma encode_arg a : arg_small a → obj_ok (tryObjectEncoding a) ∧ obj_string (tryObjectEncoding a) = a.
Proof.
  intros Ha. destruct (encoded_string (ObjStr a) I) as [H1 H2]. cbn [encoded] in *. split; [|exact H2]. unfold tryObjectEncoding in *. destruct (_ <=? _); [|done]. by destruct (string2l a).
Qed.
(** A list that may be empty is the key, or no key. *)
Lemma finish B h o vs r : obj_rel B h o vs → ∃ o', ('(o, n) ← listTypeLength be o; Some (h, if n =? 0 then None else Some o, r)) = Some (h, o', r : reply) ∧ lkey B h o' vs.
Proof.
  intros (H1 & H2 & H3). destruct (list_length_spec be h o vs H1) as (o' & -> & H1' & Hz). cbn [mbind option_bind]. eexists. split; [done|]. pose proof (zlen_nonneg vs).
  destruct (Z.eqb_spec (zlen vs) 0) as [E|E].
  - destruct vs; [|rewrite zlen_cons in E; pose proof (zlen_nonneg vs); lia]. split; [done|]. cbn in H3. lia.
  - split; [split_and!; try done; intros Hz'; apply H2; congruence|]. by intros ->.
Qed.
Lemma length_reply B h o vs : obj_rel B h o vs → vs ≠ [] → ∃ o', listTypeLength be o = Some (o', zlen vs) ∧ lkey B h (Some o') vs.
Proof.
  intros (H1 & H2 & H3) Hne. destruct (list_length_spec be h o vs H1) as (o' & E & H1' & Hz). exists o'. split; [done|]. split; [split_and!; try done; intros Hz'; apply H2; congruence|done].
Qed.

(** ** Pushes *)

Lemma push_arg B h o vs a (w : bool) : obj_rel B h o vs → arg_small a → B + 15 + zlen a < 2 ^ 31 →
  ∃ h' o', listTypePush h o (tryObjectEncoding a) w = Some (h', o') ∧ obj_rel (B + 15 + zlen a) h' o' (if w then a :: vs else vs ++ [a]).
Proof using Hmax.
  intros (H1 & H2 & H3) Ha HB. destruct (encode_arg a Ha) as [Hok Es].
  destruct (listTypePush_spec be junk max_entries max_value Hmax h o vs (tryObjectEncoding a) w H1 H2 Hok) as (h' & o' & E & H1' & H2'); [rewrite Es; lia|]. rewrite Es in *.
  exists h', o'. split; [done|]. split; [done|]. assert (zlen (if w then a :: vs else vs ++ [a]) = zlen (a :: vs)) as El by (destruct w; [done|]; rewrite zlen_app, zlen_cons; unfold zlen; cbn; lia).
  split; [intros Hz; rewrite El; by apply H2'|]. destruct w; rewrite ?weight_app; cbn [weight]; lia.
Qed.
Definition pushed (w : bool) vs (args : strings) : strings := if w then reverse args ++ vs else vs ++ args.
Lemma pushed_nil w vs : pushed w vs [] = vs.
Proof. destruct w; cbn; by rewrite ?app_nil_r. Qed.
Lemma push_loop_spec (w : bool) args : ∀ B h o vs, obj_rel B h o vs → Forall arg_small args → B + weight args < 2 ^ 31 →
  ∃ h' o', push_loop be junk max_entries max_value h (Some o) args w = Some (h', Some o') ∧ obj_rel (B + weight args) h' o' (pushed w vs args).
Proof using Hmax.
  induction args as [|a args IH]; intros B h o vs Ho Hok HB; cbn [push_loop weight] in *.
  - exists h, o. split; [done|]. by rewrite Z.add_0_r, pushed_nil.
  - apply Forall_cons in Hok as [Ha Hok]. cbn [mbind option_bind]. pose proof (weight_nonneg args). destruct (push_arg B h o vs a w Ho Ha) as (h1 & o1 & -> & H1); [lia|]. cbn [mbind option_bind].
    destruct (IH _ h1 o1 _ H1 Hok) as (h2 & o2 & -> & H2); [lia|]. exists h2, o2. split; [done|]. replace (B + (15 + zlen a + weight args)) with (B + 15 + zlen a + weight args) by lia.
    unfold pushed in *. destruct w; [by rewrite reverse_cons, <- (assoc_L (++))|by rewrite <- (assoc_L (++)) in H2].
Qed.
Lemma push_spec B h o vs args (w : bool) : lkey B h o vs → Forall arg_small args → B + weight args < 2 ^ 31 →
  ∃ h' o', pushGenericCommand be junk max_entries max_value h o args w = Some (h', o', RInt (zlen vs + zlen args)) ∧ lkey (B + weight args) h' o' (pushed w vs args).
Proof using Hmax Hent.
  intros Ho Hok HB. unfold pushGenericCommand. destruct args as [|a args].
  - cbn [push_loop mbind option_bind weight]. change (zlen []) with 0. rewrite !Z.add_0_r, pushed_nil. destruct o as [o|].
    + destruct Ho as [Ho Hne]. destruct (length_reply B h o vs Ho Hne) as (o' & -> & Ho'). cbn [mbind option_bind]. by exists h, (Some o').
    + destruct Ho as [-> ?]. by exists h, None.
  - assert (∃ o1, match o with None => createZiplistObject be junk | Some o => Some o end = Some o1 ∧ obj_rel B h o1 vs) as (o1 & E1 & H1).
    { destruct o as [o|]; [destruct Ho; by exists o|]. destruct Ho as [-> HB']. unfold createZiplistObject. destruct (new_texts be junk (b := true)) as (zl & -> & Hz). cbn [mbind option_bind].
      exists (ListZl zl). split; [done|]. split_and!; [done| |done]. intros _. done. }
    assert (push_loop be junk max_entries max_value h o (a :: args) w = push_loop be junk max_entries max_value h (Some o1) (a :: args) w) as -> by (cbn [push_loop]; by rewrite E1).
    destruct (push_loop_spec w (a :: args) B h o1 vs H1 Hok HB) as (h2 & o2 & -> & H2). cbn [mbind option_bind]. assert (zlen (pushed w vs (a :: args)) = zlen vs + zlen (a :: args)) as El.
    { unfold pushed. destruct w; rewrite zlen_app; unfold zlen; rewrite ?length_reverse; lia. }
    destruct (length_reply _ h2 o2 _ H2) as (o3 & -> & H3); [intros E; rewrite E in El; unfold zlen in El; cbn in El; lia|]. cbn [mbind option_bind]. exists h2, (Some o3). by rewrite El.
Qed.
Lemma pushx_spec B h o vs a (tail : bool) fuel mc bf : lkey B h o vs → arg_small a → B + (15 + zlen a) < 2 ^ 31 →
  ∃ h' o', pushxGenericCommand be junk mc bf max_entries max_value fuel h o None (tryObjectEncoding a) tail = Some (h', o', RInt (match vs with [] => 0 | _ => zlen vs + 1 end)) ∧
    lkey (B + (15 + zlen a)) h' o' (match vs with [] => [] | _ => if tail then vs ++ [a] else a :: vs end).
Proof using Hmax.
  intros Ho Ha HB. pose proof (zlen_nonneg a). destruct o as [o|]; cbn [pushxGenericCommand]; [|destruct Ho as [-> ?]; exists h, None; split; [done|]; split; [done|lia]]. destruct Ho as [Ho Hne].
  destruct (push_arg B h o vs a (negb tail) Ho Ha) as (h1 & o1 & -> & H1); [lia|]. cbn [mbind option_bind].
  assert (∀ {X} (a b : X), match vs with [] => a | _ => b end = b) as Em by (by destruct vs).
  assert ((if negb tail then a :: vs else vs ++ [a]) = if tail then vs ++ [a] else a :: vs) as E by by destruct tail. rewrite E in H1. rewrite !Em.
  destruct (length_reply _ h1 o1 _ H1) as (o2 & -> & H2); [by destruct tail, vs|]. cbn [mbind option_bind]. exists h1, (Some o2). split; [|by rewrite !Z.add_assoc in *].
  do 3 f_equal. destruct tail; [rewrite zlen_app; unfold zlen; cbn; lia|rewrite zlen_cons; lia].
Qed.

(** ** Both ends *)

Lemma pop_spec B h o vs (w : bool) : lkey B h o vs → B < 2 ^ 31 →
  ∃ h' o', popGenericCommand be junk h o w = Some (h', o', bulk_of (vs !! end_rank vs w)) ∧ lkey B h' o' (delete (end_rank vs w) vs).
Proof using Type.
  intros Ho HB. pose proof (lkey_bound _ _ _ _ Ho) as Hw. destruct o as [o|]; cbn [popGenericCommand]; [|destruct Ho as [-> ?]; exists h, None; by destruct w]. destruct Ho as [(H1 & H2 & H3) Hne].
  destruct (listTypePop_spec be junk h o vs w H1) as (h1 & o1 & r & -> & Hz & Hr); [lia|]. cbn [mbind option_bind].
  assert (end_rank vs w < length vs)%nat as Hlt by (unfold end_rank; destruct vs; [done|]; destruct w; cbn; lia). destruct (lookup_lt_is_Some_2 vs _ Hlt) as [v Hv]. rewrite Hv in Hr |- *.
  destruct Hr as (Hr & x & -> & Hx & Ex). unfold bulk. rewrite (decoded_ok x Hx), Ex. cbn [mbind option_bind].
  destruct (finish B h1 o1 (delete (end_rank vs w) vs) (RBulk v)) as (o2 & -> & H'); [|by exists h1, o2]. split; [done|]. pose proof (weight_delete (end_rank vs w) vs). split; [|lia].
  intros Hz1. rewrite Hz in Hz1. specialize (H2 Hz1). unfold zlen in *. rewrite length_delete by by rewrite Hv. lia.
Qed.

(** ** Elements by index *)

Lemma rank_index {A} (xs : list A) i : (rank (length xs) i ≫= λ k, xs !! k) = (z_index xs i ≫= λ k, xs !! k).
Proof.
  unfold rank, z_index, zlen. destruct (Z.ltb_spec i 0); [rewrite (proj2 (Z.leb_gt 0 i)) by lia; by destruct (_ <=? _)|]. rewrite (proj2 (Z.leb_le 0 i)) by lia.
  destruct (Z.ltb_spec i (Z.of_nat (length xs))); [done|]. cbn. apply lookup_ge_None_2. lia.
Qed.
Lemma z_index_map {A B} (f : A → B) (xs : list A) i : z_index (f <$> xs) i = z_index xs i.
Proof. unfold z_index, zlen. by rewrite length_fmap. Qed.
Lemma z_index_some {A} (xs : list A) i k : z_index xs i = Some k → (k < length xs)%nat.
Proof. unfold z_index, zlen. repeat case_if; intros [= <-]; lia. Qed.
Lemma z_index_nil {A} i : z_index (@nil A) i = None.
Proof. unfold z_index. change (zlen []) with 0. repeat case_if; lia || done. Qed.
Lemma ptr_index (xs : list (loc * enc_obj)) i : (rank (length xs) i ≫= ptr_at xs) = (z_index xs i ≫= λ k, fst <$> xs !! k).
Proof.
  transitivity (fst <$> (rank (length xs) i ≫= λ k, xs !! k)); [by destruct (rank _ _)|]. rewrite rank_index. by destruct (z_index _ _).
Qed.
Lemma linked_index h l vs (xs : list (loc * enc_obj)) i : linked h l vs xs → - 2 ^ 31 < i < 2 ^ 31 → ∃ ln, listIndex h l i = Some ln ∧
  match z_index vs i, ln with Some k, Some a => ptr_at xs k = Some a | None, None => True | _, _ => False end.
Proof.
  intros Hx Hi. pose proof Hx as (Ho & Hs & _). rewrite (listIndex_spec h l xs i Ho) by (unfold in_s; lia). eexists. split; [done|]. rewrite ptr_index, <- Hs, z_index_map.
  destruct (z_index xs i) as [k|] eqn:Ek; [|done]. apply z_index_some in Ek. cbn [mbind option_bind]. destruct (lookup_lt_is_Some_2 xs k Ek) as [[a v] E]. unfold ptr_at. by rewrite E.
Qed.
Lemma lindex_spec B h o vs i : lkey B h o vs → lcmd_ok (LIndexC i) → lindexCommand be h o i = Some (h, o, list_reply vs (LIndexC i)).
Proof using Type.
  intros Ho Hi. cbn [list_reply lcmd_ok] in *. destruct o as [o|]; cbn [lindexCommand]; [|by destruct Ho as [-> _]]. destruct Ho as [(H1 & _ & _) Hne]. change (getLongLongFromObject (Some (ObjStr i))) with (to_int i).
  destruct vs as [|v0 vs0]; [done|]. set (vs := v0 :: vs0) in *. destruct (to_int i) as [j|]; [|done]. cbn in Hi. destruct o as [zl|l].
  - rewrite (wraps_small 32) by (unfold in_s; lia). destruct (index_texts be zl vs j H1) as (r & -> & Hr); [lia|]. cbn [mbind option_bind]. destruct (z_index vs j) as [k|] eqn:Ek, r as [p|]; try done. cbn [at_opt mbind option_bind] in *.
    rewrite (get_texts be zl vs k p Hr). cbn [mbind option_bind]. apply z_index_some in Ek. destruct (lookup_lt_is_Some_2 vs k Ek) as [v ->]. cbn [fmap option_fmap option_map].
    destruct (zval_string v) as [Hv Ev]. unfold bulk. by rewrite (decoded_ok _ Hv), Ev.
  - destruct H1 as (xs & Hx). destruct (linked_index h l vs xs j Hx Hi) as (ln & -> & Hln). cbn [mbind option_bind]. destruct (z_index vs j) as [k|], ln as [a|]; try done. cbn [mbind option_bind].
    destruct (linked_node h l vs xs k a Hx Hln) as (v & _ & Hok & -> & ->). cbn [mbind option_bind value]. unfold bulk. rewrite decoded_ok by by destruct v. done.
Qed.
(** A node of a linked list gets another value. *)
Lemma set_linked h l vs xs k a w x : linked h l vs xs → xs !! k = Some (a, w) → obj_ok x →
  linked (<[a := mkNode (ptr_before xs k) (ptr_at xs (S k)) x]> h) l (<[k := obj_string x]> vs) (<[k := (a, x)]> xs).
Proof.
  intros Hx Hk Hok. pose proof (lookup_lt_Some _ _ _ Hk) as Hlt. pose proof Hx as (Ho & Hs & Hall). assert ((<[k := (a, x)]> xs).*1 = xs.*1) as Ef.
  { rewrite list_fmap_insert. cbn. apply list_insert_id. by rewrite list_lookup_fmap, Hk. }
  assert (∀ j, ptr_at (<[k := (a, x)]> xs) j = ptr_at xs j) as Ep by (intros j; unfold ptr_at; by rewrite <- !list_lookup_fmap, Ef).
  split; [|split; [rewrite list_fmap_insert; by rewrite Hs|by apply Forall_insert]]. split.
  - rewrite first_ptr_at, Ep, <- first_ptr_at. apply Ho.
  - rewrite (own_tail _ _ _ Ho), !lastp_ptr_before, length_insert. destruct (length xs) as [|m]; [done|]. cbn [ptr_before]. by rewrite Ep.
  - rewrite (own_len _ _ _ Ho). unfold zlen. by rewrite length_insert.
  - unfold zlen. rewrite length_insert. apply Ho.
  - rewrite Ef. apply Ho.
  - pose proof (own_seg _ _ _ Ho) as Hseg. pose proof (own_nodup _ _ _ Ho) as Hnd. rewrite insert_take_drop by done. pose proof (take_drop_middle xs k _ Hk) as Exs. set (A := take k xs) in *. set (B := drop (S k) xs) in *.
    assert (ptr_before xs k = lastp None A ∧ ptr_at xs (S k) = first B None) as [-> ->].
    { pose proof (seg_lookup h xs k a w Hseg Hk) as E1. rewrite <- Exs in Hseg. apply seg_app in Hseg as [_ [E2 _]]. rewrite E2 in E1. by injection E1 as -> ->. }
    rewrite <- Exs in Hseg, Hnd. rewrite fmap_app in Hnd. apply NoDup_app in Hnd as (_ & HdA & [HdB _]%NoDup_cons). apply seg_app in Hseg as [HA [_ HB]]. apply seg_app. split; [|split].
    + eapply seg_frame; [|exact HA]. intros q Hq. rewrite lookup_insert_ne; [done|]. intros <-. apply (HdA a Hq). by left.
    + by rewrite lookup_insert_eq.
    + eapply seg_frame; [|exact HB]. intros q Hq. rewrite lookup_insert_ne; [done|]. by intros <-.
Qed.
Lemma lset_spec B h o vs i a : lkey B h o vs → lcmd_ok (LSet i a) → B + (15 + zlen a) < 2 ^ 31 →
  ∃ h' o', lsetCommand be junk max_value h o i a = Some (h', o', list_reply vs (LSet i a)) ∧ lkey (B + (15 + zlen a)) h' o' (list_after vs (LSet i a)).
Proof using Hmax.
  intros Ho [Ha Hi] HB. cbn [list_reply list_after]. pose proof (zlen_nonneg a). destruct (encode_arg a Ha) as [Hok Es].
  destruct o as [o|]; cbn [lsetCommand]; [|destruct Ho as [-> ?]; exists h, None; split; [done|]; split; [destruct (to_int i); by rewrite ?z_index_nil|lia]]. change (getLongLongFromObject (Some (ObjStr i))) with (to_int i). destruct Ho as [(H1 & H2 & H3) Hne].
  destruct vs as [|v0 vs0]; [done|]. set (vs := v0 :: vs0) in *. destruct (to_int i) as [j|]; [|exists h, (Some o); split; [done|]; split; [split_and!; try done; lia|done]]. cbn in Hi. set (x := tryObjectEncoding a) in *.
  destruct (try_conversion_spec be max_value Hmax h o vs x H1 Hok) as (h1 & o1 & -> & H1' & Hf1 & Hz1); [lia|]. cbn [mbind option_bind]. rewrite Es in Hf1.
  assert (list_enc o1 vs) as Henc by (intros Hz; apply H2, Hz1, Hz).
  assert (∀ k, z_index vs j = Some k → 11 + weight (<[k := a]> vs) ≤ B + (15 + zlen a) ∧ <[k := a]> vs ≠ [] ∧ zlen (<[k := a]> vs) = zlen vs) as Hset.
  { intros k Hk. apply z_index_some in Hk. pose proof (weight_insert k a vs Hk). split; [lia|]. split; [by destruct k|]. unfold zlen. by rewrite length_insert. }
  assert (lkey (B + (15 + zlen a)) h1 (Some o1) vs) as Hsame by (split; [split_and!; try done; lia|done]).
  destruct o1 as [zl|l].
  - rewrite (wraps_small 32) by (unfold in_s; lia). destruct (index_texts be zl vs j H1') as (r & -> & Hr); [lia|]. cbn [mbind option_bind].
    destruct (z_index vs j) as [k|] eqn:Ek, r as [p|]; try done; [|by exists h1, (Some (ListZl zl))]. cbn [at_opt] in Hr. destruct (Hset k eq_refl) as (Hw & Hn & Hl).
    destruct (replace_texts be junk zl vs k p a Hr (z_index_some _ _ _ Ek)) as (zl1 & zl2 & -> & E2 & Hz2); [by intros _; apply Hf1|lia|]. cbn [mbind option_bind]. rewrite decoded_ok by by destruct x. cbn [mbind option_bind].
    rewrite Es, E2. cbn [mbind option_bind]. exists h1, (Some (ListZl zl2)). split; [done|]. split; [|done]. split_and!; try done. intros _. rewrite Hl. by apply Henc.
  - destruct H1' as (xs & Hx). destruct (linked_index h1 l vs xs j Hx Hi) as (ln & -> & Hln). cbn [mbind option_bind]. destruct (z_index vs j) as [k|] eqn:Ek, ln as [b|]; try done; [|by exists h1, (Some (ListLl l))].
    destruct (linked_node h1 l vs xs k b Hx Hln) as (w & Hw & _ & _ & ->). cbn [mbind option_bind prev next]. destruct (Hset k eq_refl) as (Hwt & Hn & Hl). eexists _, (Some (ListLl l)). split; [done|]. split; [|done].
    split_and!; [|done|done]. rewrite <- Es. eexists. by eapply set_linked.
Qed.
Lemma llen_spec B h o vs : lkey B h o vs → ∃ o', llenCommand be h o = Some (h, o', RInt (zlen vs)) ∧ lkey B h o' vs.
Proof using Type.
  intros Ho. destruct o as [o|]; cbn [llenCommand]; [|destruct Ho as [-> ?]; by exists None]. destruct Ho as [Ho Hne]. destruct (length_reply B h o vs Ho Hne) as (o' & -> & Ho'). cbn [mbind option_bind]. by exists (Some o').
Qed.

(** ** Ranges *)

Lemma convert_range_spec vs i j : match convert_range (zlen vs) i j with
  | None => sublist vs i j = []
  | Some (a, b) => 0 ≤ a ≤ b ∧ b < zlen vs ∧ sublist vs i j = take (Z.to_nat (b - a + 1)) (drop (Z.to_nat a) vs)
  end.
Proof.
  unfold convert_range, sublist, from_end. pose proof (zlen_nonneg vs). set (a := if i <? 0 then zlen vs + i else i). set (b := if j <? 0 then zlen vs + j else j).
  assert ((if a <? 0 then 0 else a) = Z.max 0 a) as -> by (case_if; lia). destruct (_ || _) eqn:E.
  - apply orb_true_iff in E as [E%Z.ltb_lt|E%Z.leb_le]; [replace (Z.to_nat (_ + 1)) with 0%nat by lia; done|]. rewrite drop_ge by (unfold zlen in *; lia). by rewrite take_nil.
  - apply orb_false_iff in E as [E1%Z.ltb_ge E2%Z.leb_gt]. assert ((if zlen vs <=? b then zlen vs - 1 else b) = Z.min (zlen vs - 1) b) as -> by (case_if; lia). split_and!; try lia; done.
Qed.
Lemma range_zl_spec zl vs n : ∀ k p, zlist (b := true) zl vs → (k + n ≤ length vs)%nat → at_opt (b := true) zl vs (if bool_decide (k < length vs)%nat then Some k else None) p →
  range_zl be n zl p = Some (RBulk <$> take n (drop k vs)).
Proof.
  induction n as [|n IH]; intros k p Hz Hk Hp; [done|]. rewrite bool_decide_true in Hp by lia. destruct p as [p|]; [|done]. cbn [range_zl at_opt] in *. rewrite (get_texts be zl vs k p Hp).
  destruct (lookup_lt_is_Some_2 vs k) as [v Hv]; [lia|]. rewrite Hv. cbn [mbind option_bind fmap option_fmap option_map]. destruct (zval_string v) as [Hv' Ev]. unfold bulk. rewrite (decoded_ok _ Hv'), Ev. cbn [mbind option_bind].
  destruct (next_texts zl vs k p Hp) as (r & -> & Hr). cbn [mbind option_bind]. rewrite (IH (S k) r Hz) by (done || lia). cbn [mbind option_bind]. by rewrite (drop_S vs v k Hv).
Qed.
Lemma range_ll_spec h l vs xs n : ∀ k, linked h l vs xs → (k + n ≤ length vs)%nat → range_ll n h (ptr_at xs k) = Some (RBulk <$> take n (drop k vs)).
Proof.
  induction n as [|n IH]; intros k Hx Hk; [done|]. cbn [range_ll]. pose proof (linked_length _ _ _ _ Hx). destruct (ptr_at xs k) as [a|] eqn:Ea.
  - destruct (linked_node h l vs xs k a Hx Ea) as (v & _ & Hok & Hs & Hn). unfold deref. cbn [mbind option_bind]. rewrite Hn. cbn [mbind option_bind value next]. unfold bulk. rewrite decoded_ok by by destruct v. cbn [mbind option_bind].
    rewrite (IH (S k) Hx) by lia. cbn [mbind option_bind]. by rewrite (drop_S vs (obj_string v) k Hs).
  - unfold ptr_at in Ea. apply fmap_None, lookup_ge_None in Ea. lia.
Qed.
Lemma lrange_spec B h o vs i j : lkey B h o vs → B < 2 ^ 31 → ∃ o', lrangeCommand be h o i j = Some (h, o', list_reply vs (LRange i j)) ∧ lkey B h o' vs.
Proof using Type.
  intros Ho HB. pose proof (lkey_bound _ _ _ _ Ho) as Hw. pose proof (weight_len vs). cbn [list_reply]. unfold lrangeCommand. change (getLongLongFromObject (Some (ObjStr ?x))) with (to_int x). destruct (to_int i) as [a|]; [|by exists o]. destruct (to_int j) as [b|]; [|by exists o].
  destruct o as [o|]; [|destruct Ho as [-> ?]; exists None; split; [|done]; unfold sublist; by rewrite drop_nil, take_nil]. destruct Ho as [Ho Hne]. destruct (length_reply B h o vs Ho Hne) as (o' & -> & Ho'). cbn [mbind option_bind]. exists (Some o'). split; [|done].
  pose proof (convert_range_spec vs a b) as Hc. destruct (convert_range (zlen vs) a b) as [[s e]|]; [|by rewrite Hc]. destruct Hc as (Hse & He & ->). destruct Ho' as [(H1 & _ & _) _]. destruct o' as [zl|l].
  - rewrite (wraps_small 32) by (unfold in_s; lia). destruct (index_texts be zl vs s H1) as (r & -> & Hr); [lia|]. cbn [mbind option_bind]. rewrite (range_zl_spec zl vs _ (Z.to_nat s) r H1); [done|unfold zlen in *; lia|].
    rewrite bool_decide_true by (unfold zlen in *; lia). unfold z_index in Hr. by rewrite (proj2 (Z.leb_le 0 s)), (proj2 (Z.ltb_lt s _)) in Hr by lia.
  - destruct H1 as (xs & Hx). pose proof (linked_length _ _ _ _ Hx). pose proof Hx as (Hown & _). rewrite (listIndex_spec h l xs _ Hown) by (unfold in_s; case_if; lia). cbn [mbind option_bind].
    assert (rank (length xs) (if zlen vs / 2 <? s then s - zlen vs else s) = Some (Z.to_nat s)) as ->.
    { unfold rank, zlen in *. destruct (Z.ltb_spec (Z.of_nat (length vs) / 2) s); [rewrite (proj2 (Z.ltb_lt _ 0)) by lia; rewrite (proj2 (Z.leb_le _ _)) by lia; f_equal; lia|]. by rewrite (proj2 (Z.ltb_ge _ 0)) by lia. }
    cbn [mbind option_bind]. by rewrite (range_ll_spec h l vs xs _ (Z.to_nat s) Hx) by (unfold zlen in *; lia).
Qed.

Lemma trim_loop_spec (w : bool) n : ∀ h l vs, list_rel h (ListLl l) vs → (n ≤ length vs)%nat →
  ∃ h' l', trim_loop n h l w = Some (h', l') ∧ list_rel h' (ListLl l') (if w then drop n vs else take (length vs - n) vs).
Proof.
  induction n as [|n IH]; intros h l vs Hl Hn; cbn [trim_loop].
  - exists h, l. split; [done|]. destruct w; [by rewrite drop_0|]. by rewrite Nat.sub_0_r, take_ge by done.
  - destruct Hl as (xs & Hx). pose proof (linked_length _ _ _ _ Hx) as El. rewrite (end_ptr h l vs xs w Hx). assert (end_rank vs w < length vs)%nat as Hlt by (unfold end_rank; destruct w; lia).
    destruct (lookup_lt_is_Some_2 xs (end_rank vs w)) as [[a x] Ea]; [lia|]. unfold ptr_at. rewrite Ea. cbn [fmap option_fmap option_map fst mbind option_bind].
    destruct (delete_linked h l vs xs _ a x Hx Ea) as (h1 & l1 & fr & -> & Hx1). cbn [mbind option_bind].
    destruct (IH h1 l1 (delete (end_rank vs w) vs)) as (h2 & l2 & E2 & H2); [by eexists|rewrite length_delete by (by apply lookup_lt_is_Some_2); lia|]. exists h2, l2. split; [done|].
    rewrite length_delete in H2 by (by apply lookup_lt_is_Some_2). rewrite delete_take_drop in H2. unfold end_rank in H2. destruct w.
    + rewrite take_0 in H2. cbn [app] in H2. by rewrite drop_drop in H2.
    + rewrite (drop_ge vs), app_nil_r, take_take in H2 by lia. rewrite Nat.min_l in H2 by lia. by replace (length vs - S n)%nat with (length vs - 1 - n)%nat by lia.
Qed.
Lemma ltrim_spec B h o vs i j : lkey B h o vs → B < 2 ^ 31 →
  ∃ h' o', ltrimCommand be junk h o i j = Some (h', o', list_reply vs (LTrim i j)) ∧ lkey B h' o' (list_after vs (LTrim i j)).
Proof using Hent.
  intros Ho HB. pose proof (lkey_bound _ _ _ _ Ho) as Hw. pose proof (weight_len vs). cbn [list_reply list_after]. unfold ltrimCommand. change (getLongLongFromObject (Some (ObjStr ?x))) with (to_int x).
  destruct (to_int i) as [a|]; [|by exists h, o]. destruct (to_int j) as [b|]; [|by exists h, o].
  destruct o as [o|]; [|destruct Ho as [-> ?]; exists h, None; split; [done|]; split; [|done]; unfold sublist; by rewrite drop_nil, take_nil].
  destruct Ho as [Ho Hne]. destruct (length_reply B h o vs Ho Hne) as (o1 & -> & [(H1 & H2 & H3) _]). cbn [mbind option_bind].
  assert (∃ l r, match convert_range (zlen vs) a b with None => (zlen vs, 0) | Some (start, end_) => (start, zlen vs - end_ - 1) end = (l, r) ∧
    0 ≤ l ∧ 0 ≤ r ∧ l + r ≤ zlen vs ∧ sublist vs a b = take (Z.to_nat (zlen vs - l - r)) (drop (Z.to_nat l) vs)) as (l & r & -> & Hl & Hr & Hlr & ->).
  { pose proof (convert_range_spec vs a b) as Hc. pose proof (zlen_nonneg vs). destruct (convert_range (zlen vs) a b) as [[s e]|]; eexists _, _; (split; [done|]); [destruct Hc as (Hse & He & ->)|rewrite Hc]; split_and!; try lia.
    - by replace (zlen vs - s - (zlen vs - e - 1)) with (e - s + 1) by lia.
    - by replace (zlen vs - zlen vs - 0) with 0 by lia. }
  set (ws := drop (Z.to_nat l) vs). assert (zlen ws = zlen vs - l) as Hws by (unfold ws, zlen in *; rewrite length_drop; lia). pose proof (weight_drop (Z.to_nat l) vs) as Hd. fold ws in Hd. pose proof (weight_nonneg (take (Z.to_nat l) vs)).
  assert (∃ h2 o2, match o1 with
    | ListZl zl => zl ← ziplistDeleteRange be junk zl 0 (u32 l); zl ← ziplistDeleteRange be junk zl (u32 (- r)) (u32 r); Some (h, ListZl zl)
    | ListLl ll => '(h, ll) ← trim_loop (Z.to_nat l) h ll true; '(h, ll) ← trim_loop (Z.to_nat r) h ll false; Some (h, ListLl ll)
    end = Some (h2, o2) ∧ list_rel h2 o2 (take (Z.to_nat (zlen vs - l - r)) ws) ∧ in_zl o2 = in_zl o1) as (h2 & o2 & -> & H2' & Hz2).
  { destruct o1 as [zl|ll].
    - rewrite (wrapu_small 32 l) by (unfold in_u; lia). destruct (delete_range_texts be junk zl vs 0 l H1) as (zl1 & -> & Hz1); [lia..|]. cbn [mbind option_bind].
      change (Z.to_nat 0) with 0%nat in Hz1. rewrite take_0, drop_0 in Hz1. cbn [app] in Hz1. fold ws in Hz1.
      destruct (delete_tail_texts be junk zl1 ws r Hz1) as (zl2 & -> & Hz2); [lia..|]. exists h, (ListZl zl2). split; [done|]. split; [|done]. by rewrite Hws in Hz2.
    - destruct (trim_loop_spec true (Z.to_nat l) h ll vs H1) as (h1 & l1 & -> & Hx1); [unfold zlen in *; lia|]. cbn [mbind option_bind].
      destruct (trim_loop_spec false (Z.to_nat r) h1 l1 ws Hx1) as (h2 & l2 & -> & Hx2); [unfold zlen in *; lia|]. exists h2, (ListLl l2). split; [done|]. split; [|done].
      by replace (Z.to_nat (zlen vs - l - r)) with (length ws - Z.to_nat r)%nat by (unfold zlen in *; lia). }
  cbn [mbind option_bind]. pose proof (weight_drop (Z.to_nat (zlen vs - l - r)) ws). pose proof (weight_nonneg (drop (Z.to_nat (zlen vs - l - r)) ws)).
  destruct (finish B h2 o2 (take (Z.to_nat (zlen vs - l - r)) ws) ROk) as (o3 & -> & Ho3); [|by exists h2, o3]. split; [exact H2'|]. split; [|lia]. intros Hz. rewrite Hz2 in Hz. specialize (H2 Hz). unfold zlen in *. rewrite length_take. lia.
Qed.

(** ** Insertion *)

Lemma insert_next_app after p v pre l : p ∉ pre → insert_next after p v (pre ++ l) = option_map (app pre) (insert_next after p v l).
Proof.
  intros Hp. induction pre as [|x pre IH]; cbn [app insert_next]; [by destruct (insert_next after p v l)|]. apply not_elem_of_cons in Hp as [Hx Hp]. rewrite decide_False by done. rewrite (IH Hp).
  by destruct (insert_next after p v l).
Qed.

Context (memcmp : list Z → list Z → Z) (buf : list Z) `{!Memcmp memcmp} (Hbuf : 128 ≤ zlen buf).

Lemma insert_loop_spec B o h pivot x after l : ∀ fuel pre li, fwd_at h o (pre ++ l) (length pre) li → obj_rel B h o (pre ++ l) → pivot ∉ pre →
  arg_small pivot → obj_ok x → fits_zl o (obj_string x) → B + 15 + zlen (obj_string x) < 2 ^ 31 → (S (length l) < fuel)%nat →
  ∃ h' o', insert_loop be junk memcmp buf fuel h o li (ObjStr pivot) x after = Some (h', o', if insert_next after pivot (obj_string x) (pre ++ l) then true else false) ∧
    in_zl o' = in_zl o ∧ list_rel h' o' (default (pre ++ l) (insert_next after pivot (obj_string x) (pre ++ l))).
Proof using Hmax Memcmp0 Hbuf.
  induction l as [|v l IH]; intros [|fuel] pre li Hli Ho Hp Hps Hx Hf HB Hfu; cbn [length] in Hfu; try lia; cbn [insert_loop].
  - rewrite app_nil_r in *. assert (insert_next after pivot (obj_string x) pre = None) as -> by (rewrite <- (app_nil_r pre), insert_next_app by done; done).
    destruct (next_fwd_end be memcmp buf h o pre li Hli) as (li' & [-> |(e & -> & Hn & He & _)]); cbn [mbind option_bind]; [by exists h, o; destruct Ho|].
    rewrite He. cbn [mbind option_bind]. destruct fuel as [|fuel]; [lia|]. cbn [insert_loop]. rewrite Hn. cbn [mbind option_bind]. exists h, o. by destruct Ho.
  - destruct (next_fwd be h o _ _ li Hli) as (li' & e & -> & He & Hli'); [rewrite length_app; cbn; lia|]. cbn [mbind option_bind].
    assert ((pre ++ v :: l) !! length pre = Some v) as Hv by by rewrite list_lookup_middle.
    rewrite (equal_spec be memcmp buf Hbuf h o _ _ e v (ObjStr pivot) He Hv) by (split; [done|]; by eexists). cbn [mbind option_bind]. change (obj_string (ObjStr pivot)) with pivot.
    rewrite (insert_next_app after pivot (obj_string x) pre (v :: l) Hp). cbn [insert_next]. case_bool_decide as Ev.
    + rewrite decide_True by done. subst v. destruct Ho as (H1 & H2 & H3).
      destruct (list_insert_spec be junk h o _ (length pre) e x after He) as (h' & o' & -> & Hz & H'); [rewrite length_app; cbn; lia|done|done|lia|]. cbn [mbind option_bind option_map default]. exists h', o'. split; [done|]. split; [done|].
      replace (if after then take (S (length pre)) (pre ++ pivot :: l) ++ obj_string x :: drop (S (length pre)) (pre ++ pivot :: l)
        else take (length pre) (pre ++ pivot :: l) ++ obj_string x :: drop (length pre) (pre ++ pivot :: l))
        with (pre ++ (if after then pivot :: obj_string x :: l else obj_string x :: pivot :: l)) in H'; [done|].
      destruct after; [|by rewrite take_app_length, drop_app_length].
      rewrite (cons_middle pivot pre l), (assoc_L (++)). replace (S (length pre)) with (length (pre ++ [pivot])) by (rewrite length_app; cbn; lia). rewrite take_app_length, drop_app_length. by rewrite <- (assoc_L (++)).
    + rewrite decide_False by done. specialize (IH fuel (pre ++ [v]) li'). rewrite <- (assoc_L (++)) in IH. cbn [app] in IH. rewrite length_app, Nat.add_1_r in IH.
      destruct IH as (h' & o' & -> & Hz & H'); try done; [rewrite not_elem_of_app, list_elem_of_singleton; naive_solver|lia|]. exists h', o'. split; [|split; [done|]].
      * do 2 f_equal. rewrite (insert_next_app after pivot (obj_string x) pre (v :: l) Hp). cbn [insert_next]. rewrite decide_False by done. by destruct (insert_next after pivot (obj_string x) l).
      * rewrite (insert_next_app after pivot (obj_string x) pre (v :: l) Hp) in H'. cbn [insert_next] in H'. by rewrite decide_False in H' by done.
Qed.
Lemma insert_next_some after p v vs vs' : insert_next after p v vs = Some vs' → zlen vs' = zlen vs + 1 ∧ weight vs' = weight vs + 15 + zlen v.
Proof.
  revert vs'. induction vs as [|x vs IH]; intros vs' E; [done|]. cbn [insert_next] in E. destruct (decide (x = p)).
  - injection E as <-. destruct after; rewrite !zlen_cons; cbn [weight]; lia.
  - destruct (insert_next after p v vs) as [ws|]; [|done]. injection E as <-. destruct (IH ws eq_refl). rewrite !zlen_cons. cbn [weight]. lia.
Qed.
Lemma linsert_spec B h o vs place pivot a fuel : lkey B h o vs → arg_small pivot → arg_small a → B + (15 + zlen a) < 2 ^ 31 → B ≤ Z.of_nat fuel →
  ∃ h' o', linsertCommand be junk memcmp buf max_entries max_value fuel h o place pivot a = Some (h', o', list_reply vs (LInsert place pivot a)) ∧
    lkey (B + (15 + zlen a)) h' o' (list_after vs (LInsert place pivot a)).
Proof using Hmax Memcmp0 Hbuf.
  intros Ho Hp Ha HB Hfu. pose proof (zlen_nonneg a). destruct (encode_arg a Ha) as [Hok Es]. cbn [list_reply list_after]. unfold linsertCommand, place_of. set (x := tryObjectEncoding a) in *.
  assert (∀ after, ∃ h' o', pushxGenericCommand be junk memcmp buf max_entries max_value fuel h o (Some (ObjStr pivot)) x after =
    Some (h', o', match vs with [] => RInt 0 | _ => RInt (if insert_next after pivot a vs then zlen vs + 1 else -1) end) ∧
    lkey (B + (15 + zlen a)) h' o' (default vs (insert_next after pivot a vs))) as Hpx.
  { intros after. destruct o as [o|]; cbn [pushxGenericCommand]; [|destruct Ho as [-> ?]; exists h, None; split; [done|]; split; [done|lia]]. destruct Ho as [(H1 & H2 & H3) Hne].
    assert (∀ {X} (a b : X), match vs with [] => a | _ => b end = b) as Em by (by destruct vs). rewrite !Em. pose proof (weight_len vs) as Hwl.
    destruct (try_conversion_spec be max_value Hmax h o vs x H1 Hok) as (h1 & o1 & -> & H1' & Hf1 & Hz1); [lia|]. cbn [mbind option_bind].
    destruct (init_fwd be h1 o1 vs H1') as (li & -> & Hli). cbn [mbind option_bind].
    assert (obj_rel B h1 o1 vs) as Hr1 by (split_and!; try done; intros Hz; apply H2, Hz1, Hz).
    destruct (insert_loop_spec B o1 h1 pivot x after vs fuel [] li Hli Hr1) as (h2 & o2 & -> & Hz2 & H2'); try done; [apply not_elem_of_nil|rewrite Es; lia|unfold zlen in *; lia|].
    rewrite Es in *. cbn [mbind option_bind app] in *. destruct (insert_next after pivot a vs) as [vs'|] eqn:Ei; cbn [default] in *.
    - destruct (insert_next_some _ _ _ _ _ Ei) as [El Ew].
      assert (∃ h3 o3, match o2 with
        | ListZl zl => '(zl, n) ← ziplistLen be zl; if max_entries <? n then listTypeConvert be h2 (ListZl zl) else Some (h2, ListZl zl)
        | ListLl _ => Some (h2, o2)
        end = Some (h3, o3) ∧ list_rel h3 o3 vs' ∧ list_enc o3 vs') as (h3 & o3 & -> & H3' & Henc3).
      { destruct o2 as [zl|l]; [|by exists h2, (ListLl l)]. destruct (len_texts be (b := true) zl vs' H2') as (zl' & -> & Hz'). cbn [mbind option_bind]. destruct (Z.ltb_spec max_entries (zlen vs')).
        - destruct (listTypeConvert_spec be h2 zl' vs' Hz') as (h3 & l & -> & Hl); [lia|]. by exists h3, (ListLl l).
        - exists h2, (ListZl zl'). split_and!; try done. by intros _. }
      cbn [mbind option_bind]. destruct (length_reply (B + (15 + zlen a)) h3 o3 vs') as (o4 & -> & H4); [split_and!; try done; lia|intros ->; unfold zlen in El; cbn in El; lia|]. cbn [mbind option_bind].
      exists h3, (Some o4). by rewrite El.
    - exists h2, (Some o2). split; [done|]. split; [|done]. split_and!; [done| |lia]. intros Hz. apply H2, Hz1. congruence. }
  destruct (strcaseeq place (str "after")); [apply Hpx|]. destruct (strcaseeq place (str "before")); [apply Hpx|]. exists h, o. split; [done|]. eapply lkey_mono; [done|lia].
Qed.


(** ** Removal *)

Lemma rem_first_0 x vs : rem_first 0 x vs = vs.
Proof. induction vs as [|y vs IH]; [done|]. cbn [rem_first]. destruct (decide (y = x)); [done|]. by rewrite IH. Qed.
Lemma rem_first_le n x vs : zlen (rem_first n x vs) ≤ zlen vs ∧ weight (rem_first n x vs) ≤ weight vs.
Proof using Type.
  revert n. induction vs as [|y vs IH]; intros n; [done|]. cbn [rem_first]. pose proof (zlen_nonneg y). destruct (decide (y = x)); [destruct n as [|n]; [done|]|]; destruct (IH n); rewrite ?zlen_cons; cbn [weight]; lia.
Qed.
Lemma weight_reverse vs : weight (reverse vs) = weight vs.
Proof. induction vs as [|y vs IH]; [done|]. rewrite reverse_cons, weight_app, IH. cbn [weight]. lia. Qed.
Lemma zlen_reverse vs : zlen (reverse vs) = zlen vs.
Proof. unfold zlen. by rewrite length_reverse. Qed.
Lemma fwd_for h o vs k li : fwd_at h o vs k li → li_for o li ∧ towards li = true.
Proof. by destruct o as [zl|l], li as [[p|] []|ln []]. Qed.
Lemma bwd_for h o vs k li : bwd_at h o vs k li → li_for o li ∧ towards li = false.
Proof. by destruct o as [zl|l], li as [[p|] []|ln []]. Qed.
Lemma arg_for_same o1 o2 x : arg_for o1 x → in_zl o2 = in_zl o1 → arg_for o2 x.
Proof. unfold arg_for. by intros ? ->. Qed.

(** [m] more may be removed: all of them, or up to [toremove] *)
Definition more (toremove removed : Z) (l : strings) (m : nat) : Prop := 0 ≤ removed ∧ (toremove = 0 ∧ (length l ≤ m)%nat ∨ toremove = removed + Z.of_nat m ∧ (0 < m)%nat).

Lemma more_step t r v l m : more t r (v :: l) m → ∃ m', m = S m' ∧ if negb (t =? 0) && (r + 1 =? t) then m' = 0%nat else more t (r + 1) l m'.
Proof using Type.
  intros (Hr & Hm). destruct m as [|m]; [cbn in Hm; lia|]. exists m. split; [done|]. destruct (_ && _) eqn:Ed.
  - apply andb_true_iff in Ed as [Et%negb_true_iff%Z.eqb_neq Er%Z.eqb_eq]. lia.
  - split; [lia|]. apply andb_false_iff in Ed as [Ed%negb_false_iff%Z.eqb_eq|Ed%Z.eqb_neq]; destruct Hm as [[? Hm]|[? Hm]]; cbn in *; [left; lia|lia|left; lia|right; lia].
Qed.
Lemma more_skip t r v l m : more t r (v :: l) m → more t r l m.
Proof using Type. intros (Hr & [[? Hm]|Hm]); (split; [done|]); [left; cbn in *; lia|by right]. Qed.

Lemma rem_fwd x t l : ∀ fuel pre h o li r m, fwd_at h o (pre ++ l) (length pre) li → list_rel h o (pre ++ l) → arg_for o x → 11 + weight (pre ++ l) < 2 ^ 31 →
  more t r l m → (S (length l) < fuel)%nat →
  ∃ h' o', rem_loop be junk memcmp buf fuel h o li x t r = Some (h', o', r + (zlen l - zlen (rem_first m (obj_string x) l))) ∧ in_zl o' = in_zl o ∧ list_rel h' o' (pre ++ rem_first m (obj_string x) l).
Proof using Memcmp0 Hbuf.
  induction l as [|v l IH]; intros [|fuel] pre h o li r m Hli Ho Hx Hw Hm Hfu; cbn [length] in Hfu; try lia; cbn [rem_loop].
  - cbn [rem_first]. replace (r + (zlen [] - zlen [])) with r by lia. rewrite app_nil_r in *. destruct (next_fwd_end be memcmp buf h o pre li Hli) as (li' & [-> |(e & -> & Hn & He & Hz)]); cbn [mbind option_bind]; [by exists h, o|].
    destruct Hx as [_ Hs]. destruct (Hs Hz) as [s ->]. rewrite He. cbn [mbind option_bind]. destruct fuel as [|fuel]; [lia|]. cbn [rem_loop]. rewrite Hn. cbn [mbind option_bind]. by exists h, o.
  - destruct (next_fwd be h o _ _ li Hli) as (li' & e & -> & He & Hli'); [rewrite length_app; cbn; lia|]. cbn [mbind option_bind].
    assert ((pre ++ v :: l) !! length pre = Some v) as Hv by by rewrite list_lookup_middle. rewrite (equal_spec be memcmp buf Hbuf h o _ _ e v x He Hv Hx). cbn [mbind option_bind rem_first]. case_bool_decide as Ev.
    + rewrite decide_True by done. destruct (fwd_for _ _ _ _ _ Hli') as [Hfor Htow].
      destruct (list_delete_spec be junk h o _ _ e li' He) as (h1 & o1 & li1 & -> & Hz1 & H1 & Hli1); [rewrite length_app; cbn; lia|done|done|]. rewrite Htow in Hli1. cbn [mbind option_bind]. rewrite list.delete_middle in H1, Hli1.
      apply more_step in Hm as (m' & -> & Hm). rewrite zlen_cons. destruct (negb (t =? 0) && (r + 1 =? t)).
      * subst m'. rewrite rem_first_0. exists h1, o1. split; [|done]. do 2 f_equal. lia.
      * destruct (IH fuel pre h1 o1 li1 (r + 1) m' Hli1 H1) as (h2 & o2 & -> & Hz2 & H2); [by eapply arg_for_same|rewrite weight_app in *; cbn [weight] in *; pose proof (zlen_nonneg v); lia|done|lia|].
        exists h2, o2. split; [do 2 f_equal; lia|]. split; [congruence|done].
    + rewrite decide_False by done. specialize (IH fuel (pre ++ [v]) h o li' r m). rewrite <- !(assoc_L (++)) in IH. cbn [app] in IH. rewrite length_app, Nat.add_1_r in IH.
      destruct IH as (h2 & o2 & -> & Hz2 & H2); try done; [by eapply more_skip|lia|]. exists h2, o2. split; [do 2 f_equal; rewrite !zlen_cons; lia|]. done.
Qed.
Lemma rem_bwd x t l : ∀ fuel post h o li r m, bwd_at h o (reverse l ++ post) (length l) li → list_rel h o (reverse l ++ post) → arg_for o x → 11 + weight (reverse l ++ post) < 2 ^ 31 →
  more t r l m → (length l < fuel)%nat →
  ∃ h' o', rem_loop be junk memcmp buf fuel h o li x t r = Some (h', o', r + (zlen l - zlen (rem_first m (obj_string x) l))) ∧ in_zl o' = in_zl o ∧ list_rel h' o' (reverse (rem_first m (obj_string x) l) ++ post).
Proof using Memcmp0 Hbuf.
  induction l as [|v l IH]; intros [|fuel] post h o li r m Hli Ho Hx Hw Hm Hfu; cbn [length] in Hfu; try lia; cbn [rem_loop].
  - cbn [rem_first]. replace (r + (zlen [] - zlen [])) with r by lia. rewrite (next_bwd_end be h o _ li Hli). cbn [mbind option_bind]. by exists h, o.
  - cbn [length] in Hli. rewrite reverse_cons, <- (assoc_L (++)) in *. cbn [app] in *. destruct (next_bwd be h o _ _ li Hli) as (li' & e & -> & He & Hli'). cbn [mbind option_bind]. assert (length l = length (reverse l)) as El by by rewrite length_reverse.
    assert ((reverse l ++ v :: post) !! length l = Some v) as Hv by (rewrite El; by rewrite list_lookup_middle). rewrite (equal_spec be memcmp buf Hbuf h o _ _ e v x He Hv Hx). cbn [mbind option_bind rem_first]. case_bool_decide as Ev.
    + rewrite decide_True by done. destruct (bwd_for _ _ _ _ _ Hli') as [Hfor Htow].
      destruct (list_delete_spec be junk h o _ _ e li' He) as (h1 & o1 & li1 & -> & Hz1 & H1 & Hli1); [rewrite length_app, <- El; cbn; lia|done|done|]. rewrite Htow in Hli1. cbn [mbind option_bind].
      assert (delete (length l) (reverse l ++ v :: post) = reverse l ++ post) as Edel by (rewrite El; apply list.delete_middle). rewrite Edel in H1, Hli1.
      apply more_step in Hm as (m' & -> & Hm). rewrite zlen_cons. destruct (negb (t =? 0) && (r + 1 =? t)).
      * subst m'. rewrite rem_first_0. exists h1, o1. split; [|done]. do 2 f_equal. lia.
      * destruct (IH fuel post h1 o1 li1 (r + 1) m' Hli1 H1) as (h2 & o2 & -> & Hz2 & H2); [by eapply arg_for_same|rewrite weight_app in *; cbn [weight] in *; pose proof (zlen_nonneg v); lia|done|lia|].
        exists h2, o2. split; [do 2 f_equal; lia|]. split; [congruence|done].
    + rewrite decide_False by done. destruct (IH fuel (v :: post) h o li' r m) as (h2 & o2 & -> & Hz2 & H2); try done; [by eapply more_skip|lia|].
      exists h2, o2. split; [do 2 f_equal; rewrite !zlen_cons; lia|]. rewrite reverse_cons, <- (assoc_L (++)). done.
Qed.
Lemma lrem_spec B h o vs n a fuel : lkey B h o vs → lcmd_ok (LRem n a) → B < 2 ^ 31 → B ≤ Z.of_nat fuel →
  ∃ h' o', lremCommand be junk memcmp buf fuel h o n a = Some (h', o', list_reply vs (LRem n a)) ∧ lkey B h' o' (list_after vs (LRem n a)).
Proof using Memcmp0 Hbuf.
  intros Ho [Ha Hn] HB Hfu. pose proof (lkey_bound _ _ _ _ Ho) as Hw. pose proof (weight_len vs) as Hwl. unfold lremCommand. change (getLongLongFromObject (Some (ObjStr ?x))) with (to_int x).
  set (after := list_after vs (LRem n a)). cbn [list_reply]. fold after. destruct (to_int n) as [t|] eqn:Et; [|unfold after; cbn [list_after]; rewrite Et; by exists h, o]. destruct (encode_arg a Ha) as [Hok Es].
  assert (after = if t <? 0 then rem_last (Z.to_nat (- t)) a vs else rem_first (if t =? 0 then length vs else Z.to_nat t) a vs) as Eafter by (unfold after; cbn [list_after]; rewrite Et; by destruct (t <? 0), (t =? 0)).
  assert (zlen after ≤ zlen vs ∧ weight after ≤ weight vs) as [Hl' Hw'].
  { rewrite Eafter. destruct (t <? 0); [|apply rem_first_le]. unfold rem_last. rewrite zlen_reverse, weight_reverse. pose proof (rem_first_le (Z.to_nat (- t)) a (reverse vs)) as Hle. by rewrite zlen_reverse, weight_reverse in Hle. }
  destruct o as [o|]; [|destruct Ho as [-> ?]; rewrite Eafter; exists h, None; split; [by destruct (t <? 0)|]; split; [by destruct (t <? 0)|done]]. destruct Ho as [(H1 & H2 & H3) Hne].
  assert (∃ x, match o with ListZl _ => s ← getDecodedObject (replicate 32 0) (tryObjectEncoding a); Some (ObjStr s) | ListLl _ => Some (tryObjectEncoding a) end = Some x ∧ arg_for o x ∧ obj_string x = a) as (x & -> & Hx & Ex).
  { destruct o as [zl|l]; [|eexists; split; [done|]; split; [by split|done]]. rewrite decoded_ok by by destruct (tryObjectEncoding a). rewrite Es. exists (ObjStr a). split; [done|]. split; [|done]. split; [done|]. by eexists. }
  cbn [mbind option_bind].
  assert (∃ h2 o2, (if t <? 0 then if t =? - 2 ^ 63 then None else li ← listTypeInitIterator be h o (-1) false; rem_loop be junk memcmp buf fuel h o li x (- t) 0
    else li ← listTypeInitIterator be h o 0 true; rem_loop be junk memcmp buf fuel h o li x t 0) = Some (h2, o2, zlen vs - zlen after) ∧ in_zl o2 = in_zl o ∧ list_rel h2 o2 after) as (h2 & o2 & -> & Hz2 & H2').
  { rewrite Eafter. destruct (Z.ltb_spec t 0).
    - rewrite (proj2 (Z.eqb_neq _ _)) by congruence. destruct (init_bwd be h o vs H1) as (li & -> & Hli). cbn [mbind option_bind].
      destruct (rem_bwd x (- t) (reverse vs) fuel [] h o li 0 (Z.to_nat (- t))) as (h2 & o2 & -> & Hz2 & H2'); rewrite ?reverse_involutive, ?app_nil_r, ?length_reverse; try done; [lia|split; [done|]; right; lia|unfold zlen in *; lia|].
      exists h2, o2. rewrite app_nil_r, Ex, zlen_reverse in *. unfold rem_last. rewrite zlen_reverse, Z.add_0_l. done.
    - destruct (init_fwd be h o vs H1) as (li & -> & Hli). cbn [mbind option_bind].
      destruct (rem_fwd x t vs fuel [] h o li 0 (if t =? 0 then length vs else Z.to_nat t)) as (h2 & o2 & -> & Hz2 & H2'); cbn [app length] in *; try done; [lia|split; [done|]; destruct (Z.eqb_spec t 0); [by left|right; lia]|unfold zlen in *; lia|].
      exists h2, o2. rewrite Ex, Z.add_0_l in *. done. }
  cbn [mbind option_bind]. destruct (finish B h2 o2 after (RInt (zlen vs - zlen after))) as (o3 & -> & Ho3); [|by exists h2, o3]. split; [done|]. split; [|lia]. intros Hz. rewrite Hz2 in Hz. specialize (H2 Hz). lia.
Qed.

(** ** Sequences of commands *)

Definition run_lcmd (fuel : nat) h (o : option listobj) (op : lcmd) : option (heap * option listobj * reply) :=
  match op with
  | LPush args => lpushCommand be junk max_entries max_value h o args
  | RPush args => rpushCommand be junk max_entries max_value h o args
  | LPushx v => lpushxCommand be junk memcmp buf max_entries max_value fuel h o v
  | RPushx v => rpushxCommand be junk memcmp buf max_entries max_value fuel h o v
  | LInsert place pivot v => linsertCommand be junk memcmp buf max_entries max_value fuel h o place pivot v
  | LLen => llenCommand be h o
  | LIndexC i => lindexCommand be h o i
  | LSet i v => lsetCommand be junk max_value h o i v
  | LPop => lpopCommand be junk h o
  | RPop => rpopCommand be junk h o
  | LRange i j => lrangeCommand be h o i j
  | LTrim i j => ltrimCommand be junk h o i j
  | LRem n v => lremCommand be junk memcmp buf fuel h o n v
  end.
Fixpoint run_lcmds (fuel : nat) h (o : option listobj) (ops : list lcmd) : option (heap * option listobj * list reply) :=
  match ops with
  | [] => Some (h, o, [])
  | op :: ops => '(h, o, r) ← run_lcmd fuel h o op; '(h, o, rs) ← run_lcmds fuel h o ops; Some (h, o, r :: rs)
  end.

Lemma lcmd_cost_nonneg op : 0 ≤ lcmd_cost op.
Proof using Type. destruct op as [args|args|v|v|pl p v| |i|i v| | |i j|i j|n v]; cbn; try apply weight_nonneg; try lia; pose proof (zlen_nonneg v); lia. Qed.
Lemma lcmds_cost_nonneg ops : 0 ≤ lcmds_cost ops.
Proof using Type. induction ops as [|op ops IH]; cbn; [done|]. pose proof (lcmd_cost_nonneg op). lia. Qed.

Lemma run_lcmd_spec B h o vs op fuel : lkey B h o vs → lcmd_ok op → B + lcmd_cost op < 2 ^ 31 → B ≤ Z.of_nat fuel →
  ∃ h' o', run_lcmd fuel h o op = Some (h', o', list_reply vs op) ∧ lkey (B + lcmd_cost op) h' o' (list_after vs op).
Proof using Hmax Hent Memcmp0 Hbuf.
  intros Ho Hok HB Hfu. destruct op as [args|args|v|v|pl p v| |i|i v| | |i j|i j|n v]; cbn [run_lcmd lcmd_cost] in *; rewrite ?Z.add_0_r in *.
  - apply (push_spec B h o vs args true Ho Hok HB).
  - apply (push_spec B h o vs args false Ho Hok HB).
  - apply (pushx_spec B h o vs v false fuel memcmp buf Ho Hok HB).
  - apply (pushx_spec B h o vs v true fuel memcmp buf Ho Hok HB).
  - destruct Hok. by apply linsert_spec.
  - destruct (llen_spec B h o vs Ho) as (o' & E & Ho'). by exists h, o'.
  - exists h, o. split; [by eapply lindex_spec|done].
  - by apply lset_spec.
  - destruct (pop_spec B h o vs true Ho HB) as (h' & o' & E & Ho'). exists h', o'. split; [done|]. by destruct vs.
  - destruct (pop_spec B h o vs false Ho HB) as (h' & o' & E & Ho'). exists h', o'. split; [done|]. cbn [list_after]. rewrite delete_take_drop in Ho'. cbn [end_rank] in Ho'. by rewrite (drop_ge vs (S _)), app_nil_r in Ho' by lia.
  - destruct (lrange_spec B h o vs i j Ho HB) as (o' & E & Ho'). by exists h, o'.
  - by apply ltrim_spec.
  - by apply lrem_spec.
Qed.
Lemma run_lcmds_spec fuel ops : ∀ B h o vs, lkey B h o vs → Forall lcmd_ok ops → B + lcmds_cost ops < 2 ^ 31 → B + lcmds_cost ops ≤ Z.of_nat fuel →
  ∃ h' o', run_lcmds fuel h o ops = Some (h', o', (spec_lcmds vs ops).2) ∧ lkey (B + lcmds_cost ops) h' o' (spec_lcmds vs ops).1.
Proof using Hmax Hent Memcmp0 Hbuf.
  induction ops as [|op ops IH]; intros B h o vs Ho Hok HB Hfu; cbn [run_lcmds spec_lcmds lcmds_cost] in *; [exists h, o; by rewrite Z.add_0_r|].
  apply Forall_cons in Hok as [Hop Hok]. pose proof (lcmd_cost_nonneg op). pose proof (lcmds_cost_nonneg ops). destruct (run_lcmd_spec B h o vs op fuel Ho Hop) as (h1 & o1 & -> & H1); [lia..|]. cbn [mbind option_bind].
  destruct (IH _ h1 o1 _ H1 Hok) as (h2 & o2 & -> & H2); [lia..|]. cbn [mbind option_bind]. destruct (spec_lcmds (list_after vs op) ops) as [vs' rs]. exists h2, o2. split; [done|]. by rewrite Z.add_assoc.
Qed.

(** C11. Lists implement lists of strings: every sequence of LPUSH, RPUSH, LPUSHX,
    RPUSHX, LINSERT, LLEN, LINDEX, LSET, LPOP, RPOP, LRANGE, LTRIM and LREM on a key
    that does not exist at first is executed without a failed assertion, an access
    outside of a ziplist or a dangling node, with the replies of a list of strings,
    and leaves an object that holds exactly these strings, or no object if there are
    none; a ziplist has at most [list_max_ziplist_entries] entries. The restrictions:
    [list_max_ziplist_value] is at most 240 (64 by default; with more than 250 LINSERT
    can leave the ziplist, see [linsert_loses_bytes]); the indices of LINDEX and LSET
    are above -2^31 and below 2^31 (otherwise the encoding shows in the reply, see
    [lindex_truncates]); the number of LREM is not -2^63; strings have at most 512 MB
    and all of them together less than 2^31 bytes. *)
Theorem list_refines_strings h ops fuel :
  Forall lcmd_ok ops → 11 + lcmds_cost ops < 2 ^ 31 → 11 + lcmds_cost ops ≤ Z.of_nat fuel →
  ∃ h' o, run_lcmds fuel h None ops = Some (h', o, (spec_lcmds [] ops).2) ∧ lkey (11 + lcmds_cost ops) h' o (spec_lcmds [] ops).1.
Proof using Hmax Hent Memcmp0 Hbuf. intros Hok HB Hfu. by apply run_lcmds_spec. Qed.
End spec.

(** ** Executions *)

Local Notation run := (run_lcmds false (λ _, 0) 4 64 memcmp_diff (replicate 128 0) 1000).
Definition list_demo : list lcmd :=
  [RPush [str "a"; str "b"; str "12"]; LPush [str "b"]; LInsert (str "BEFORE") (str "12") (str "c"); LInsert (str "after") (str "zz") (str "d"); LRange (str "0") (str "-1");
   LIndexC (str "-2"); LSet (str "1") (str "b"); LRem (str "-2") (str "b"); LPushx (str "x"); RPushx (str "x"); LLen; LTrim (str "1") (str "-2"); LRange (str "-100") (str "100");
   LRem (str "0") (str "12"); RPop; LPop; LPop; LLen].
Lemma list_refines_strings_witness : ∃ h' o,
  run ∅ None list_demo = Some (h', o, (spec_lcmds [] list_demo).2) ∧ lkey 4 (11 + lcmds_cost list_demo) h' o (spec_lcmds [] list_demo).1.
Proof.
  refine (list_refines_strings false (λ _, 0) 4 64 _ _ memcmp_diff (replicate 128 0) _ ∅ list_demo 1000 _ _ _);
    [lia|lia|vm_compute; discriminate|by_decision|vm_compute; reflexivity|vm_compute; discriminate].
Defined.
Example list_demo_replies : snd <$> run ∅ None (take 9 list_demo) =
  Some [RInt 3; RInt 4; RInt 5; RInt (-1); RMulti (RBulk <$> [str "b"; str "a"; str "b"; str "c"; str "12"]); RBulk (str "c"); ROk; RInt 2; RInt 4].
Proof. vm_compute. reflexivity. Qed.

(** C36. LINDEX passes its 64-bit index as an [int] to [ziplistIndex]: for 2^32 it
    replies with the first element if the list is a ziplist, and with nil for the
    same elements in a linked list. *)
Theorem lindex_truncates : let i := str "4294967296" in
  (∃ h o, run_lcmds false (λ _, 0) 4 64 memcmp_diff (replicate 128 0) 1000 ∅ None [RPush [str "a"; str "b"]; LIndexC i] = Some (h, o, [RInt 2; RBulk (str "a")])) ∧
  (∃ h o, run_lcmds false (λ _, 0) 1 64 memcmp_diff (replicate 128 0) 1000 ∅ None [RPush [str "a"; str "b"]; LIndexC i] = Some (h, o, [RInt 2; RNullBulk])).
Proof. split; do 2 eexists; vm_compute; reflexivity. Qed.

(** With [list_max_ziplist_value] above 250, LINSERT reaches the insertion of a
    ziplist that gets smaller, which loses the end of the block: there is no result,
    although every command is of the kind above. *)
Theorem linsert_loses_bytes :
  let ops := [RPush [replicate 251 97; replicate 248 97; str "z"]; LPop; LInsert (str "before") (str "z") (str "1")] in
  Forall lcmd_ok ops ∧
  (∃ h o rs, run_lcmds false (λ _, 0) 512 300 memcmp_diff (replicate 128 0) 1000 ∅ None (take 2 ops) = Some (h, o, rs)) ∧
  run_lcmds false (λ _, 0) 512 300 memcmp_diff (replicate 128 0) 1000 ∅ None ops = None.
Proof. split_and!; [by_decision|do 3 eexists; vm_compute; reflexivity|vm_compute; reflexivity]. Qed.
