(* ===== verification/Multi.v ===== *)
(** * Multi: transactions and the execution of commands (redis-3.0.0/src/multi.c,
    redis.c)

    [processCommand] finds the command, checks the number of arguments and either
    queues the command or calls it.  The configuration is one without password,
    cluster and memory limit; clients that subscribe to channels are not modelled.  The events of a server are connections, requests
    and keys found by the active expire cycle. *)

From stdpp Require Import gmap.
From S2P Require Import Prelude Sds Keyspace Commands.

(** ** The command table: name, command, arity, [REDIS_CMD_READONLY]

    The 40 commands that are modelled, on strings, keys, expires, databases and
    transactions; a request with the name of another command of redis.c is not
    modelled (here it has the reply of a command that does not exist). *)

Definition redisCommandTable : list (string * command * Z * bool) :=
  [("get", CGet, 2, true); ("set", CSet, -3, false); ("setnx", CSetnx, 3, false); ("setex", CSetex, 4, false);
   ("psetex", CPsetex, 4, false); ("append", CAppend, 3, false); ("strlen", CStrlen, 2, true); ("del", CDel, -2, false);
   ("exists", CExists, 2, true); ("setrange", CSetrange, 4, false); ("getrange", CGetrange, 4, true);
   ("substr", CGetrange, 4, true); ("incr", CIncr, 2, false); ("decr", CDecr, 2, false); ("mget", CMget, -2, true);
   ("incrby", CIncrby, 3, false); ("decrby", CDecrby, 3, false); ("getset", CGetset, 3, false); ("mset", CMset, -3, false);
   ("msetnx", CMsetnx, -3, false); ("select", CSelect, 2, true); ("move", CMove, 3, false); ("rename", CRename, 3, false);
   ("renamenx", CRenamenx, 3, false); ("expire", CExpire, 3, false); ("expireat", CExpireat, 3, false);
   ("pexpire", CPexpire, 3, false); ("pexpireat", CPexpireat, 3, false); ("dbsize", CDbsize, 1, true); ("type", CType, 2, true);
   ("multi", CMulti, 1, true); ("exec", CExec, 1, false); ("discard", CDiscard, 1, true); ("flushdb", CFlushdb, 1, false);
   ("flushall", CFlushall, 1, false); ("ttl", CTtl, 2, true); ("pttl", CPttl, 2, true); ("persist", CPersist, 2, false);
   ("watch", CWatch, -2, true); ("unwatch", CUnwatch, 1, true)].

(** The dictionary of commands does not regard the case. *)
Fixpoint lookup_in (table : list (string * command * Z * bool)) (name : list Z) : option (command * Z * bool) :=
  match table with
  | [] => None
  | (n, cmd, arity, ro) :: table =>
      if bool_decide (str n = tolower <$> name) then Some (cmd, arity, ro) else lookup_in table name
  end.
Definition lookupCommand (name : list Z) : option (command * Z * bool) := lookup_in redisCommandTable name.

Definition readonly (cmd : command) : bool :=
  existsb (λ '(_, c, _, ro), bool_decide (c = cmd) && ro) redisCommandTable.

(** ** Transactions (multi.c) *)

Definition queueMultiCommand (c : Z) (cmd : command) : M unit :=
  cl ← get_client c;
  put_client c (set_mstate cl (c_mstate cl ++ [mkMultiCmd cmd (c_argv cl)])).

Definition discardTransaction (c : Z) : M unit :=
  cl ← get_client c;
  put_client c (set_flags (set_mstate cl []) false false false);;
  unwatchAllKeys c.

Definition flagTransaction (c : Z) : M unit :=
  cl ← get_client c;
  put_client c (set_flags cl (f_multi cl) (f_dirty_cas cl) (f_multi cl || f_dirty_exec cl)).

Definition multiCommand (c : Z) : M reply :=
  cl ← get_client c;
  if f_multi cl then ret (RError ENestedMulti) else
  put_client c (set_flags cl true (f_dirty_cas cl) (f_dirty_exec cl));; ret ROk.

Definition discardCommand (c : Z) : M reply :=
  cl ← get_client c;
  if negb (f_multi cl) then ret (RError EDiscardWithoutMulti) else discardTransaction c;; ret ROk.

Definition watchCommand (c : Z) : M reply :=
  cl ← get_client c;
  if f_multi cl then ret (RError EWatchInMulti) else
  foreach (tail (c_argv cl)) (watchForKey c);; ret ROk.

Definition unwatchCommand (c : Z) : M reply :=
  unwatchAllKeys c;;
  cl ← get_client c;
  put_client c (set_flags cl (f_multi cl) false (f_dirty_exec cl));; ret ROk.

Section clock.
Context (clock : nat → Z).

(** ** Calling commands (redis.c) *)

(** [cmd->proc]; EXEC is below. *)
Definition proc (cmd : command) (c : Z) : M reply :=
  match cmd with
  | CGet => getCommand clock c | CSet => setCommand clock c | CSetnx => setnxCommand clock c
  | CSetex => setexCommand clock c | CPsetex => psetexCommand clock c | CAppend => appendCommand clock c
  | CStrlen => strlenCommand clock c | CDel => delCommand clock c | CExists => existsCommand clock c
  | CSetrange => setrangeCommand clock c | CGetrange => getrangeCommand clock c
  | CIncr => incrCommand clock c | CDecr => decrCommand clock c | CMget => mgetCommand clock c
  | CIncrby => incrbyCommand clock c | CDecrby => decrbyCommand clock c | CGetset => getsetCommand clock c
  | CMset => msetCommand clock c | CMsetnx => msetnxCommand clock c | CSelect => selectCommand c
  | CMove => moveCommand clock c | CRename => renameCommand clock c | CRenamenx => renamenxCommand clock c
  | CExpire => expireCommand clock c | CExpireat => expireatCommand clock c
  | CPexpire => pexpireCommand clock c | CPexpireat => pexpireatCommand clock c
  | CDbsize => dbsizeCommand c | CType => typeCommand clock c | CMulti => multiCommand c | CDiscard => discardCommand c
  | CFlushdb => flushdbCommand c | CFlushall => flushallCommand c
  | CTtl => ttlCommand clock c | CPttl => pttlCommand clock c | CPersist => persistCommand c
  | CWatch => watchCommand c | CUnwatch => unwatchCommand c
  | CExec => fail
  end.

(** What changed the dataset is propagated, with the arguments as the command left
    them. *)
Definition call_with (p : Z → M reply) (c : Z) : M reply :=
  s ← get;
  let dirty0 := dirty s in
  r ← p c;
  s ← get;
  cl ← get_client c;
  (if dirty0 <? dirty s then propagate (c_db cl) (c_argv cl) else ret tt);;
  ret r.

Definition execCommandPropagateMulti (c : Z) : M unit :=
  cl ← get_client c; propagate (c_db cl) [str "MULTI"].

Fixpoint exec_loop (c : Z) (cmds : list multiCmd) (must_propagate : bool) : M (list reply * bool) :=
  match cmds with
  | [] => ret ([], must_propagate)
  | mc :: cmds =>
      cl ← get_client c;
      put_client c (set_argv cl (mc_argv mc));;
      (if negb must_propagate && negb (readonly (mc_cmd mc)) then execCommandPropagateMulti c else ret tt);;
      r ← call_with (proc (mc_cmd mc)) c;
      '(l, must_propagate) ← exec_loop c cmds (must_propagate || negb (readonly (mc_cmd mc)));
      ret (r :: l, must_propagate)
  end.

Definition execCommand (c : Z) : M reply :=
  cl ← get_client c;
  if negb (f_multi cl) then ret (RError EExecWithoutMulti) else
  if f_dirty_cas cl || f_dirty_exec cl then
    discardTransaction c;;
    ret (if f_dirty_exec cl then RError EExecAbort else RNullMulti)
  else
    unwatchAllKeys c;;
    let orig_argv := c_argv cl in
    '(replies, must_propagate) ← exec_loop c (c_mstate cl) false;
    cl ← get_client c;
    put_client c (set_argv cl orig_argv);;
    discardTransaction c;;
    (if (must_propagate : bool) then add_dirty 1 else ret tt);;
    ret (RMulti replies).

Definition call (cmd : command) (c : Z) : M reply :=
  call_with (match cmd with CExec => execCommand | _ => proc cmd end) c.

Definition queued (cmd : command) : bool := match cmd with CExec | CDiscard | CMulti | CWatch => false | _ => true end.

(** [REDIS_CMD_WRITE] *)
Definition writes (cmd : command) : bool := negb (readonly cmd) && negb (bool_decide (cmd = CExec)).

(** The checks between the number of arguments and the execution: the error, and
    whether the transaction is flagged. *)
Definition denied (cf : config) (cmd : command) : option (bool * error) :=
  if cf_disk_error cf && negb (cf_masterhost cf) && writes cmd then Some (true, EMisconf)
  else if negb (cf_masterhost cf) && writes cmd && cf_few_slaves cf then Some (true, ENoReplicas)
  else if cf_masterhost cf && cf_slave_ro cf && writes cmd then Some (false, EReadOnly)
  else if cf_masterhost cf && cf_stale cf then Some (true, EMasterDown)
  else if cf_loading cf && negb (bool_decide (cmd = CSelect)) then Some (false, ELoading)
  else if cf_lua_timedout cf then Some (true, ESlowScript)
  else None.

(** [None]: the connection is closed after QUIT. *)
Definition processCommand (c : Z) : M (option reply) :=
  cl ← get_client c;
  match c_argv cl with
  | [] => fail
  | name :: _ =>
      if bool_decide (str "quit" = tolower <$> name) then ret None else
      match lookupCommand name with
      | None => flagTransaction c;; ret (Some (RError EUnknown))
      | Some (cmd, arity, ro) =>
          if ((0 <? arity) && negb (arity =? zlen (c_argv cl))) || (zlen (c_argv cl) <? - arity) then
            flagTransaction c;; ret (Some (RError EArity))
          else
          s ← get;
          match denied (conf s) cmd with
          | Some (flag, e) => (if (flag : bool) then flagTransaction c else ret tt);; ret (Some (RError e))
          | None =>
          if f_multi cl && queued cmd then queueMultiCommand c cmd;; ret (Some RQueued)
          else r ← call cmd c; ret (Some r)
          end
      end
  end.

(** ** Events *)

Definition createClient (c : Z) : M unit := put_client c (mkClient 0 [] false false false [] []).
Definition freeClient (c : Z) : M unit :=
  unwatchAllKeys c;; s ← get; put_clients (delete c (clients s)).

End clock.

Inductive event :=
  | EConnect (c : Z)
  | EClose (c : Z)
  | ERequest (c : Z) (argv : list (list Z))
  | EExpireKey (i : nat) (k : list Z) (now : Z).

(** One event; [clock]: the readings of the clock in it. *)
Definition step (clock : nat → Z) (ev : event) : M (option reply) :=
  match ev with
  | EConnect c => createClient c;; ret None
  | EClose c => freeClient c;; ret None
  | ERequest c argv => cl ← get_client c; put_client c (set_argv cl argv);; processCommand clock c
  | EExpireKey i k now => activeExpireCycleTryExpire i k now;; ret None
  end.

(** A server without clients and keys *)
Definition initial (dbnum : nat) (cf : config) : server := mkServer (replicate dbnum (mkDb ∅ ∅ ∅)) ∅ 0 cf None [] 0.
