(* ===== verification/KeyspaceFacts.v ===== *)
(** * KeyspaceFacts: the invariant of the server and the functions that keep it

    [wp m Q s]: [m] runs from [s] without a failed assertion and without undefined
    behaviour, and ends in [Q].  [Inv] is the invariant of the server: expires
    belong to keys that exist, values are well formed, the lists of watching clients
    and the lists of watched keys of the clients agree.  [Inv] also follows the keys
    that one client watches, from a state [s0] on: unless the client was told, they
    are what they were, or have expired. *)

From stdpp Require Import gmap.
From S2P Require Import Prelude NumConv Objects Strto Keyspace.

(** ** Weakest preconditions *)

Definition wp {A} (m : M A) (Q : A → server → Prop) (s : server) : Prop :=
  match m s with Some (a, s') => Q a s' | None => False end.

Lemma wp_bind {A B} (m : M A) (f : A → M B) Q s : wp m (λ a s', wp (f a) Q s') s → wp (m ≫= f) Q s.
Proof. unfold wp, mbind, M_bind. by destruct (m s) as [[a s']|]. Qed.
Lemma wp_assoc {A B D} (m : M A) (f : A → M B) (g : B → M D) Q s : wp ((m ≫= f) ≫= g) Q s → wp (m ≫= λ a, f a ≫= g) Q s.
Proof. unfold wp, mbind, M_bind. by destruct (m s) as [[a s']|]. Qed.
Lemma wp_ret {A} (a : A) Q s : Q a s → wp (ret a) Q s.
Proof. done. Qed.
Lemma wp_mono {A} (m : M A) (Q Q' : A → server → Prop) s : wp m Q s → (∀ a s', Q a s' → Q' a s') → wp m Q' s.
Proof. unfold wp. destruct (m s) as [[a s']|]; [|done]. auto. Qed.
Lemma wp_get (Q : server → server → Prop) s : Q s s → wp get Q s.
Proof. done. Qed.
Lemma wp_assert (b : bool) (Q : unit → server → Prop) s : b = true → Q tt s → wp (assert b) Q s.
Proof. intros ->. done. Qed.
Lemma wp_ll v (Q : Z → server → Prop) s : in_s 64 v → Q v s → wp (ll v) Q s.
Proof. intros Hv HQ. unfold ll. apply wp_bind, wp_assert; [by apply bool_decide_true|done]. Qed.
Lemma wp_get_db i db (Q : redisDb → server → Prop) s : dbs s !! i = Some db → Q db s → wp (get_db i) Q s.
Proof. intros E HQ. unfold wp, get_db. by rewrite E. Qed.
Lemma wp_get_client c cl (Q : client → server → Prop) s : clients s !! c = Some cl → Q cl s → wp (get_client c) Q s.
Proof. intros E HQ. unfold wp, get_client. by rewrite E. Qed.
Lemma wp_foreach {A} (P : list A → server → Prop) (f : A → M unit) (Q : unit → server → Prop) l s :
  P l s → (∀ x l s, P (x :: l) s → wp (f x) (λ _ s', P l s') s) → (∀ s, P [] s → Q tt s) → wp (foreach l f) Q s.
Proof.
  revert s. induction l as [|x l IH]; intros s Hs Hf HQ; [by apply HQ|]. cbn [foreach].
  apply wp_bind. eapply wp_mono; [by apply Hf|]. intros a s' Hs'. by apply IH.
Qed.

(** ** What commands work on *)

(** Expire times, and integers that are arguments, stay far from the limits. *)
Definition time_limit : Z := 2 ^ 52.
Definition arg_ok (a : list Z) : Prop :=
  zlen a ≤ 512 * 1024 * 1024 ∧ (∀ v, getLongLongFromObject (Some (ObjStr a)) = Some v → - time_limit ≤ v ≤ time_limit).
Definition clock_ok (clock : nat → Z) : Prop := ∀ n, 0 ≤ clock n ≤ time_limit.
Definition when_ok (when : Z) : Prop := - 1001 * time_limit ≤ when ≤ 1001 * time_limit.
Definition robj_ok (o : robj) : Prop := match o with StringObj o => obj_ok o | OtherObj type _ => type ≠ REDIS_STRING end.

(** The number of arguments each command reads *)
Definition argc_ok (cmd : command) (n : nat) : Prop :=
  match cmd with
  | CMulti | CExec | CDiscard | CFlushdb | CFlushall | CDbsize | CUnwatch => (1 ≤ n)%nat
  | CGet | CStrlen | CExists | CIncr | CDecr | CSelect | CType | CTtl | CPttl | CPersist => n = 2%nat
  | CSetnx | CAppend | CIncrby | CDecrby | CGetset | CMove | CRename | CRenamenx | CExpire | CExpireat | CPexpire | CPexpireat => n = 3%nat
  | CSetex | CPsetex | CSetrange | CGetrange => n = 4%nat
  | CDel | CMget | CWatch => (2 ≤ n)%nat
  | CSet | CMset | CMsetnx => (3 ≤ n)%nat
  end.
Definition is_queued (cmd : command) : Prop :=
  match cmd with CExec | CDiscard | CMulti | CWatch => False | _ => True end.
(** The commands that do not tell the watching clients *)
Definition silent (cmd : command) : bool := match cmd with CMove | CPersist => true | _ => false end.
(** [strict]: those commands do not occur. *)
Definition queue_ok (strict : bool) (mc : multiCmd) : Prop :=
  is_queued (mc_cmd mc) ∧ argc_ok (mc_cmd mc) (length (mc_argv mc)) ∧ Forall arg_ok (mc_argv mc) ∧
  (strict = true → silent (mc_cmd mc) = false).

Record db_wf (db : redisDb) : Prop := {
  wf_values : ∀ k o, db_dict db !! k = Some o → robj_ok o;
  wf_expires : ∀ k when, db_expires db !! k = Some when → is_Some (db_dict db !! k) ∧ when_ok when
}.

Record wf (strict : bool) (s : server) : Prop := {
  wf_lua : lua_time s = None;
  wf_db : ∀ i db, dbs s !! i = Some db → db_wf db;
  wf_client_db : ∀ c cl, clients s !! c = Some cl → (c_db cl < length (dbs s))%nat;
  wf_client_queue : ∀ c cl, clients s !! c = Some cl → Forall (queue_ok strict) (c_mstate cl);
  wf_watch_nodup : ∀ c cl, clients s !! c = Some cl → NoDup (c_watched_keys cl);
  wf_watch_db : ∀ c cl i k, clients s !! c = Some cl → (i, k) ∈ c_watched_keys cl → (i < length (dbs s))%nat;
  wf_watchers : ∀ i db k l, dbs s !! i = Some db → db_watched_keys db !! k = Some l → NoDup l ∧ l ≠ [];
  wf_watch : ∀ i db k c, dbs s !! i = Some db →
    c ∈ default [] (db_watched_keys db !! k) ↔ ∃ cl, clients s !! c = Some cl ∧ (i, k) ∈ c_watched_keys cl
}.

(** A key of a database: its value and its expire time *)
Definition dict_of (s : server) (i : nat) : gmap (list Z) robj := default ∅ (db_dict <$> dbs s !! i).
Definition expires_of (s : server) (i : nat) : gmap (list Z) Z := default ∅ (db_expires <$> dbs s !! i).
Definition entry (s : server) (i : nat) (k : list Z) : option robj * option Z := (dict_of s i !! k, expires_of s i !! k).

(** The key is what it was in [s0], or was removed after its expire time. *)
Definition kept (s0 : server) (tmax : Z) (s : server) (i : nat) (k : list Z) : Prop :=
  entry s i k = entry s0 i k ∨
  (entry s i k = (None, None) ∧ ∃ when, expires_of s0 i !! k = Some when ∧ when < tmax).

(** The client [w] still watches the keys it watched in [s0], and maybe others; unless
    it was told, those out of [X] are kept. *)
Definition watching (w : Z) (s0 : server) (tmax : Z) (X : gset (nat * list Z)) (s : server) : Prop :=
  ∃ cl0 cl, clients s0 !! w = Some cl0 ∧ clients s !! w = Some cl ∧ c_watched_keys cl0 ⊆ c_watched_keys cl ∧
    (f_dirty_cas cl = false → f_dirty_cas cl0 = false ∧
      ∀ i k, (i, k) ∈ c_watched_keys cl0 → (i, k) ∉ X → kept s0 tmax s i k).

(** What the invariant is about: the client [watcher] and the state [start] from
    which on its keys are followed (if [track]), the number of databases, the
    clients, and the readings of the clock, which are not after [tmax]. *)
Class Setting := mkSetting {
  track : bool;
  watcher : Z;
  start : server;
  tmax : Z;
  dbnum : nat;
  members : gset Z;
  clock : nat → Z;
  clock_readings : clock_ok clock;
  clock_tmax : ∀ m, clock m ≤ tmax
}.

Section inv.
Context `{ST : Setting}.
Local Notation w := watcher.
Local Notation s0 := start.
Local Notation n := dbnum.
Local Notation C := members.
Local Notation watching := (watching watcher start tmax).

Record Inv (X : gset (nat * list Z)) (s : server) : Prop := mkInv {
  inv_wf : wf track s;
  inv_dbs : length (dbs s) = n;
  inv_clients : dom (clients s) = C;
  inv_watching : track = true → watching X s
}.

Lemma inv_db X s i : Inv X s → (i < n)%nat → ∃ db, dbs s !! i = Some db ∧ db_wf db.
Proof.
  intros HI Hi. destruct (lookup_lt_is_Some_2 (dbs s) i) as [db E]; [by rewrite (inv_dbs _ _ HI)|].
  exists db. split; [done|]. by eapply wf_db; [apply HI|].
Qed.
Lemma inv_client X s c : Inv X s → c ∈ C → ∃ cl, clients s !! c = Some cl.
Proof. intros HI Hc. rewrite <- (inv_clients _ _ HI) in Hc. by apply elem_of_dom in Hc as [cl ?]; exists cl. Qed.
Lemma inv_in_clients X s c cl : Inv X s → clients s !! c = Some cl → c ∈ C.
Proof. intros HI Hc. rewrite <- (inv_clients _ _ HI). apply elem_of_dom. by exists cl. Qed.

Lemma inv_client_ok X s c cl : Inv X s → clients s !! c = Some cl → (c_db cl < n)%nat ∧ Forall (queue_ok track) (c_mstate cl).
Proof.
  intros HI E. split; [|by eapply wf_client_queue; [apply HI|]].
  rewrite <- (inv_dbs _ _ HI). by eapply wf_client_db; [apply HI|].
Qed.

(** ** Changes of the state *)

Lemma wf_put_db s i db db' s' : wf track s → dbs s !! i = Some db → db_wf db' → db_watched_keys db' = db_watched_keys db →
  dbs s' = <[i := db']> (dbs s) → clients s' = clients s → lua_time s' = lua_time s → wf track s'.
Proof.
  intros Hwf E Hdb Hw Ed Ec El.
  assert (∀ j dj, dbs s' !! j = Some dj → ∃ dj', dbs s !! j = Some dj' ∧ db_watched_keys dj = db_watched_keys dj') as Hlk.
  { intros j dj. rewrite Ed. intros [(<- & <- & _)|(Hne & ?)]%list_lookup_insert_Some; [by exists db|by exists dj]. }
  split; rewrite ?Ec, ?El, ?Ed, ?length_insert; try apply Hwf.
  - intros j dj [(<- & <- & _)|(Hne & ?)]%list_lookup_insert_Some; [done|]. by eapply wf_db.
  - intros j dj k l Hj. rewrite <- Ed in Hj. apply Hlk in Hj as (dj' & Hj & ->). by eapply wf_watchers.
  - intros j dj k c Hj. rewrite <- Ed in Hj. apply Hlk in Hj as (dj' & Hj & ->). by eapply wf_watch.
Qed.

Lemma wf_put_client s c cl cl' s' : wf track s → clients s !! c = Some cl →
  c_watched_keys cl' = c_watched_keys cl → (c_db cl' < length (dbs s))%nat → Forall (queue_ok track) (c_mstate cl') →
  dbs s' = dbs s → clients s' = <[c := cl']> (clients s) → lua_time s' = lua_time s → wf track s'.
Proof.
  intros Hwf E Hw Hdb Hq Ed Ec El.
  assert (∀ c1 cl1, clients s' !! c1 = Some cl1 → ∃ cl2, clients s !! c1 = Some cl2 ∧ c_watched_keys cl1 = c_watched_keys cl2) as Hlk.
  { intros c1 cl1. rewrite Ec. intros [(<- & <-)|(Hne & ?)]%lookup_insert_Some; [by exists cl|by exists cl1]. }
  split; rewrite ?Ed, ?El; try apply Hwf.
  - intros c1 cl1. rewrite Ec. intros [(<- & <-)|(Hne & ?)]%lookup_insert_Some; [done|by eapply wf_client_db].
  - intros c1 cl1. rewrite Ec. intros [(<- & <-)|(Hne & ?)]%lookup_insert_Some; [done|by eapply wf_client_queue].
  - intros c1 cl1 (cl2 & H2 & ->)%Hlk. by eapply wf_watch_nodup.
  - intros c1 cl1 i k (cl2 & H2 & ->)%Hlk. by eapply wf_watch_db.
  - intros i db k c1 Hi. rewrite (wf_watch track s Hwf i db k c1 Hi). split; intros (cl1 & H1 & Hin).
    + rewrite Ec. destruct (decide (c1 = c)) as [-> |Hne]; [|exists cl1; by rewrite lookup_insert_ne].
      exists cl'. rewrite lookup_insert_eq. simplify_eq. by rewrite Hw.
    + apply Hlk in H1 as (cl2 & H2 & E2). exists cl2. by rewrite <- E2.
Qed.

Lemma inv_weaken X Y s : Inv X s → X ⊆ Y → Inv Y s.
Proof.
  intros [Hwf Hn HC HW] HXY. split; try done. intros Ht. destruct (HW Ht) as (cl0 & cl & H0 & H & E & Hk).
  exists cl0, cl. split_and!; try done. intros Hd. destruct (Hk Hd) as [? Hk']. split; [done|].
  intros i k Hin HX. apply Hk'; [done|]. set_solver.
Qed.

(** Keys out of [Y] are the same in both states. *)
Definition same_keys (Y : gset (nat * list Z)) (s s' : server) : Prop :=
  ∀ j k, (j, k) ∉ Y → entry s' j k = entry s j k.

Lemma entry_put s s' i db' j k : dbs s' = <[i := db']> (dbs s) → (i < length (dbs s))%nat →
  entry s' j k = if decide (j = i) then (db_dict db' !! k, db_expires db' !! k) else entry s j k.
Proof.
  intros E Hi. unfold entry, dict_of, expires_of. rewrite E. destruct (decide (j = i)) as [-> |Hne].
  - by rewrite list_lookup_insert_eq.
  - by rewrite list_lookup_insert_ne.
Qed.
Lemma entry_db s i db k : dbs s !! i = Some db → entry s i k = (db_dict db !! k, db_expires db !! k).
Proof. intros E. unfold entry, dict_of, expires_of. by rewrite E. Qed.
Lemma dict_of_db s i db : dbs s !! i = Some db → dict_of s i = db_dict db.
Proof. intros E. unfold dict_of. by rewrite E. Qed.
Lemma expires_of_db s i db : dbs s !! i = Some db → expires_of s i = db_expires db.
Proof. intros E. unfold expires_of. by rewrite E. Qed.

Lemma watching_same X Y s s' : clients s' = clients s → same_keys Y s s' → watching X s → watching (X ∪ Y) s'.
Proof.
  intros Ec HY (cl0 & cl & H0 & H & E & Hk). exists cl0, cl. rewrite Ec. split_and!; try done.
  intros Hd. destruct (Hk Hd) as [? Hk']. split; [done|]. intros i k Hin HX.
  unfold kept. rewrite (HY i k) by set_solver. apply Hk'; [done|]. set_solver.
Qed.
Lemma watching_client X s s' c cl cl' : clients s !! c = Some cl → c_watched_keys cl' = c_watched_keys cl →
  (f_dirty_cas cl' = false → f_dirty_cas cl = false) →
  dbs s' = dbs s → clients s' = <[c := cl']> (clients s) → watching X s → watching X s'.
Proof.
  intros Hc Ew Hf Ed Ec (cl0 & clw & H0 & H & E & Hk).
  assert (∀ i k, entry s' i k = entry s i k) as Een by (intros; unfold entry, dict_of, expires_of; by rewrite Ed).
  exists cl0, (if decide (w = c) then cl' else clw). split; [done|]. rewrite Ec.
  destruct (decide (w = c)) as [<- |Hne].
  - rewrite lookup_insert_eq. simplify_eq. split_and!; [done|by rewrite Ew|]. intros Hd. destruct (Hk (Hf Hd)) as [? Hk'].
    split; [done|]. intros. unfold kept. rewrite Een. by apply Hk'.
  - rewrite lookup_insert_ne by done. split_and!; try done. intros Hd. destruct (Hk Hd) as [? Hk'].
    split; [done|]. intros. unfold kept. rewrite Een. by apply Hk'.
Qed.

(** A change of one database at the keys [Y] *)
Lemma wp_put_db X Y s i db db' (Q : unit → server → Prop) :
  Inv X s → dbs s !! i = Some db → db_wf db' → db_watched_keys db' = db_watched_keys db →
  (∀ k, (i, k) ∉ Y → db_dict db' !! k = db_dict db !! k ∧ db_expires db' !! k = db_expires db !! k) →
  (∀ s', Inv (X ∪ Y) s' → same_keys Y s s' → dbs s' !! i = Some db' → clients s' = clients s → Q tt s') →
  wp (put_db i db') Q s.
Proof.
  intros [Hwf Hn HC HW] E Hdb Hw HY HQ. unfold wp, put_db. set (s' := mkServer _ _ _ _ _ _ _).
  pose proof (lookup_lt_Some _ _ _ E) as Hi.
  assert (same_keys Y s s') as Hsame.
  { intros j k Hk. rewrite (entry_put s s' i db') by done. destruct (decide (j = i)) as [-> |Hne]; [|done].
    destruct (HY k Hk) as [-> ->]. by rewrite (entry_db s i db). }
  apply HQ; [|done|by apply list_lookup_insert_eq|done].
  split; [by eapply wf_put_db|by cbn; rewrite length_insert|done|]. intros Ht. by apply (watching_same X Y s); [..|apply HW].
Qed.

(** A change of one client that it cannot see *)
Lemma wp_put_client X s c cl cl' (Q : unit → server → Prop) :
  Inv X s → clients s !! c = Some cl → c_watched_keys cl' = c_watched_keys cl → (c_db cl' < n)%nat →
  Forall (queue_ok track) (c_mstate cl') → (f_dirty_cas cl' = false → f_dirty_cas cl = false) →
  (∀ s', Inv X s' → dbs s' = dbs s → clients s' = <[c := cl']> (clients s) → Q tt s') →
  wp (put_client c cl') Q s.
Proof.
  intros [Hwf Hn HC HW] E Hw Hdb Hq Hf HQ. unfold wp, put_client. apply HQ; [|done..].
  split; [eapply wf_put_client; try done; by rewrite Hn|done| |].
  - cbn. rewrite dom_insert_L. assert (c ∈ dom (clients s)) by (apply elem_of_dom; by exists cl). set_solver.
  - intros Ht. eapply watching_client; try done. by apply HW.
Qed.

(** What does not touch databases and clients *)
Lemma inv_same X s s' : Inv X s → dbs s' = dbs s → clients s' = clients s → lua_time s' = lua_time s → Inv X s'.
Proof.
  intros [Hwf Hn HC HW] Ed Ec El. split; rewrite ?Ed, ?Ec; try done.
  - by split; rewrite ?Ed, ?Ec, ?El; apply Hwf.
  - intros Ht. destruct (HW Ht) as (cl0 & cl & H0 & H & E & Hk). exists cl0, cl. rewrite Ec. split_and!; try done.
    intros Hd. destruct (Hk Hd) as [? Hk']. split; [done|]. intros i k Hin HX.
    assert (entry s' i k = entry s i k) as Ee by (unfold entry, dict_of, expires_of; by rewrite Ed).
    unfold kept. rewrite Ee. by apply Hk'.
Qed.
Lemma inv_unchanged X s s' Y : Inv X s → Inv Y s' → clients s' = clients s → (∀ i k, entry s' i k = entry s i k) → Inv X s'.
Proof.
  intros HI HI' Ec Een. split; try apply HI'. intros Ht. destruct (inv_watching _ _ HI Ht) as (cl0 & cl & H0 & H & E & Hk).
  exists cl0, cl. rewrite Ec. split_and!; try done. intros Hd. destruct (Hk Hd) as [? Hk']. split; [done|].
  intros i k Hin HX. unfold kept. rewrite Een. by apply Hk'.
Qed.
Lemma wp_propagate X s i argv (Q : unit → server → Prop) :
  Inv X s → (∀ s', Inv X s' → dbs s' = dbs s → clients s' = clients s → Q tt s') → wp (propagate i argv) Q s.
Proof. intros HI HQ. apply HQ; [|done..]. by eapply inv_same. Qed.
Lemma wp_add_dirty X s d (Q : unit → server → Prop) :
  Inv X s → (∀ s', Inv X s' → dbs s' = dbs s → clients s' = clients s → Q tt s') → wp (add_dirty d) Q s.
Proof. intros HI HQ. apply HQ; [|done..]. by eapply inv_same. Qed.

Lemma same_keys_refl Y s s' : dbs s' = dbs s → same_keys Y s s'.
Proof. intros E j k _. unfold entry, dict_of, expires_of. by rewrite E. Qed.
Lemma same_keys_trans Y s1 s2 s3 : same_keys Y s1 s2 → same_keys Y s2 s3 → same_keys Y s1 s3.
Proof. intros H12 H23 j k Hk. by rewrite H23, H12. Qed.
Lemma same_keys_dict Y s s' i k : same_keys Y s s' → (i, k) ∉ Y → dict_of s' i !! k = dict_of s i !! k.
Proof. intros HY Hk. specialize (HY i k Hk). unfold entry in HY. congruence. Qed.
Lemma dict_of_same s s' i : dbs s' = dbs s → dict_of s' i = dict_of s i.
Proof. intros E. unfold dict_of. by rewrite E. Qed.

(** ** Keys *)

Lemma wp_lookupKey X s i k (Q : option robj → server → Prop) :
  Inv X s → (i < n)%nat → Q (dict_of s i !! k) s → wp (lookupKey i k) Q s.
Proof.
  intros HI Hi HQ. destruct (inv_db X s i HI Hi) as (db & E & Hdb).
  apply wp_bind, (wp_get_db i db); [done|]. apply wp_ret. by rewrite <- (dict_of_db s i db).
Qed.
Lemma dict_ok X s i k o : Inv X s → dict_of s i !! k = Some o → robj_ok o.
Proof.
  intros HI Hk. unfold dict_of in Hk. destruct (dbs s !! i) as [db|] eqn:E; cbn in Hk; [|by rewrite lookup_empty in Hk].
  eapply wf_values; [|done]. by eapply wf_db; [apply HI|].
Qed.

(** A new value; the key is in the dictionary, or has no expire. *)
Lemma wp_put_value X s i k db val (Q : unit → server → Prop) :
  Inv X s → dbs s !! i = Some db → robj_ok val →
  (∀ s', Inv (X ∪ {[(i, k)]}) s' → same_keys {[(i, k)]} s s' → dict_of s' i !! k = Some val → clients s' = clients s → Q tt s') →
  wp (put_db i (set_dict db (<[k := val]> (db_dict db)))) Q s.
Proof.
  intros HI E Hv HQ. assert (db_wf db) as [Hvs Hes] by (eapply wf_db; [apply HI|done]).
  apply (wp_put_db X {[(i, k)]} s i db); try done.
  - split; cbn.
    + intros k' o [(<- & <-)|(Hne & ?)]%lookup_insert_Some; [done|by eapply Hvs].
    + intros k' when (Hk' & ?)%Hes. split; [|done]. destruct (decide (k' = k)) as [-> |Hne]; [rewrite lookup_insert_eq|rewrite lookup_insert_ne by done]; done.
  - intros k' Hk'. cbn. rewrite lookup_insert_ne by set_solver. done.
  - intros s' HI' Hs Es Ec. apply HQ; try done. rewrite (dict_of_db s' i _ Es). apply lookup_insert_eq.
Qed.
Lemma wp_dbAdd X s i k val (Q : unit → server → Prop) :
  Inv X s → (i < n)%nat → dict_of s i !! k = None → robj_ok val →
  (∀ s', Inv (X ∪ {[(i, k)]}) s' → same_keys {[(i, k)]} s s' → dict_of s' i !! k = Some val → clients s' = clients s → Q tt s') →
  wp (dbAdd i k val) Q s.
Proof.
  intros HI Hi Hk Hv HQ. destruct (inv_db X s i HI Hi) as (db & E & Hdb).
  apply wp_bind, (wp_get_db i db); [done|]. rewrite (dict_of_db s i db E) in Hk.
  apply wp_bind, wp_assert; [by apply bool_decide_true|]. by apply (wp_put_value X).
Qed.
Lemma wp_dbOverwrite X s i k val (Q : unit → server → Prop) :
  Inv X s → (i < n)%nat → is_Some (dict_of s i !! k) → robj_ok val →
  (∀ s', Inv (X ∪ {[(i, k)]}) s' → same_keys {[(i, k)]} s s' → dict_of s' i !! k = Some val → clients s' = clients s → Q tt s') →
  wp (dbOverwrite i k val) Q s.
Proof.
  intros HI Hi Hk Hv HQ. destruct (inv_db X s i HI Hi) as (db & E & Hdb).
  apply wp_bind, (wp_get_db i db); [done|]. rewrite (dict_of_db s i db E) in Hk.
  apply wp_bind, wp_assert; [by apply bool_decide_true|]. by apply (wp_put_value X).
Qed.

Lemma wp_dbDelete X s i k (Q : bool → server → Prop) :
  Inv X s → (i < n)%nat →
  (∀ s', Inv (X ∪ {[(i, k)]}) s' → same_keys {[(i, k)]} s s' → entry s' i k = (None, None) → clients s' = clients s →
    Q (bool_decide (is_Some (dict_of s i !! k))) s') →
  wp (dbDelete i k) Q s.
Proof.
  intros HI Hi HQ. destruct (inv_db X s i HI Hi) as (db & E & [Hvs Hes]).
  apply wp_bind, (wp_get_db i db); [done|]. rewrite (dict_of_db s i db E) in HQ.
  assert ((if bool_decide (db_expires db = ∅) then db_expires db else delete k (db_expires db)) = delete k (db_expires db)) as ->.
  { clear HQ. case_bool_decide as Ee; [|done]. by rewrite Ee, delete_empty. }
  apply wp_bind, (wp_put_db X {[(i, k)]} s i db); try done.
  - split; cbn.
    + intros k' o (? & ?)%lookup_delete_Some. by eapply Hvs.
    + intros k' when (? & (? & ?)%Hes)%lookup_delete_Some. by rewrite lookup_delete_ne.
  - intros k' Hk'. cbn. by rewrite !lookup_delete_ne by set_solver.
  - intros s' HI' Hs Es Ec. apply wp_ret, HQ; try done. rewrite (entry_db s' i _ k Es). cbn. by rewrite !lookup_delete_eq.
Qed.

Lemma wp_put_expires X s i k db e (Q : unit → server → Prop) :
  Inv X s → dbs s !! i = Some db → db_wf (set_expires db e) → (∀ k', k' ≠ k → e !! k' = db_expires db !! k') →
  (∀ s', Inv (X ∪ {[(i, k)]}) s' → same_keys {[(i, k)]} s s' → dict_of s' i !! k = dict_of s i !! k → clients s' = clients s → Q tt s') →
  wp (put_db i (set_expires db e)) Q s.
Proof.
  intros HI E Hdb He HQ. apply (wp_put_db X {[(i, k)]} s i db); try done.
  - intros k' Hk'. cbn. by rewrite He by set_solver.
  - intros s' HI' Hs Es Ec. apply HQ; try done. by rewrite (dict_of_db s' i _ Es), (dict_of_db s i db E).
Qed.
Lemma wp_setExpire X s i k when (Q : unit → server → Prop) :
  Inv X s → (i < n)%nat → is_Some (dict_of s i !! k) → when_ok when →
  (∀ s', Inv (X ∪ {[(i, k)]}) s' → same_keys {[(i, k)]} s s' → dict_of s' i !! k = dict_of s i !! k → clients s' = clients s → Q tt s') →
  wp (setExpire i k when) Q s.
Proof.
  intros HI Hi Hk Hw HQ. destruct (inv_db X s i HI Hi) as (db & E & [Hvs Hes]).
  apply wp_bind, (wp_get_db i db); [done|]. pose proof Hk as Hk'. rewrite (dict_of_db s i db E) in Hk.
  apply wp_bind, wp_assert; [by apply bool_decide_true|]. eapply wp_put_expires; try done.
  - split; cbn; [done|]. intros k1 w1 [(<- & <-)|(? & ?)]%lookup_insert_Some; [done|by eapply Hes].
  - intros k1 Hk1. by rewrite lookup_insert_ne.
Qed.
Lemma wp_removeExpire X s i k (Q : bool → server → Prop) :
  Inv X s → (i < n)%nat → is_Some (dict_of s i !! k) →
  (∀ s', Inv (X ∪ {[(i, k)]}) s' → same_keys {[(i, k)]} s s' → dict_of s' i !! k = dict_of s i !! k → clients s' = clients s →
    Q (bool_decide (is_Some (expires_of s i !! k))) s') →
  wp (removeExpire i k) Q s.
Proof.
  intros HI Hi Hk HQ. destruct (inv_db X s i HI Hi) as (db & E & [Hvs Hes]).
  apply wp_bind, (wp_get_db i db); [done|]. rewrite (dict_of_db s i db E) in Hk.
  apply wp_bind, wp_assert; [by apply bool_decide_true|]. apply wp_bind. eapply wp_put_expires; try done.
  - split; cbn; [done|]. intros k1 w1 (? & ?)%lookup_delete_Some. by eapply Hes.
  - intros k1 Hk1. by rewrite lookup_delete_ne.
  - intros s' HI' Hs Hd Ec. apply wp_ret. rewrite <- (expires_of_db s i db E). by apply HQ.
Qed.
Lemma wp_getExpire X s i k (Q : Z → server → Prop) :
  Inv X s → (i < n)%nat → Q (match expires_of s i !! k with Some when => when | None => -1 end) s → wp (getExpire i k) Q s.
Proof.
  intros HI Hi HQ. destruct (inv_db X s i HI Hi) as (db & E & [Hvs Hes]).
  apply wp_bind, (wp_get_db i db); [done|]. rewrite (expires_of_db s i db E) in HQ.
  destruct (db_expires db !! k) as [when|] eqn:Ek; [|done]. apply wp_bind, wp_assert; [|done].
  apply bool_decide_true. by eapply Hes.
Qed.
Lemma expires_ok X s i k when : Inv X s → expires_of s i !! k = Some when → when_ok when.
Proof.
  intros HI Hk. unfold expires_of in Hk. destruct (dbs s !! i) as [db|] eqn:E; cbn in Hk; [|by rewrite lookup_empty in Hk].
  eapply wf_expires; [|done]. by eapply wf_db; [apply HI|].
Qed.

(** ** Signals *)

Definition told (s : server) : Prop := ∃ cl, clients s !! w = Some cl ∧ f_dirty_cas cl = true.

Lemma watching_told X Y s : watching X s → told s → watching Y s.
Proof.
  intros (cl0 & cl & H0 & H & E & Hk) (cl' & H' & Hd). simplify_eq. exists cl0, cl. split_and!; try done. congruence.
Qed.

Lemma wp_dirty_cas X s c (Q : unit → server → Prop) :
  Inv X s → c ∈ C → (∀ s', Inv X s' → dbs s' = dbs s → (told s ∨ w = c → told s') → Q tt s') →
  wp (cl ← get_client c; put_client c (dirty_cas cl)) Q s.
Proof.
  intros HI Hc HQ. destruct (inv_client X s c HI Hc) as (cl & E). apply wp_bind, (wp_get_client c cl); [done|].
  apply (wp_put_client X s c cl); try done.
  - apply (inv_client_ok X s c cl HI E).
  - apply (inv_client_ok X s c cl HI E).
  - intros s2 HI2 Ed2 Ec2. apply HQ; [done..|]. unfold told. rewrite Ec2.
    destruct (decide (w = c)) as [E1|Hne]; [intros _; rewrite E1, lookup_insert_eq; by eexists|].
    rewrite lookup_insert_ne by done. by intros [?|?].
Qed.

(** If the client watches the key, it was told. *)
Definition noticed (i : nat) (k : list Z) (s : server) : Prop :=
  track = true → ∀ cl0, clients s0 !! w = Some cl0 → (i, k) ∈ c_watched_keys cl0 → told s.

Lemma inv_noticed X i k s : Inv (X ∪ {[(i, k)]}) s → noticed i k s → Inv X s.
Proof.
  intros HI Hnot. split; try apply HI. intros Htr. pose proof (inv_watching _ _ HI Htr) as HW.
  pose proof HW as (cl0 & cl & H0 & H & E & Hk).
  destruct (decide ((i, k) ∈ c_watched_keys cl0)) as [Hin|Hnin]; [by eapply watching_told; [|eapply Hnot]|].
  exists cl0, cl. split_and!; try done. intros Hd. destruct (Hk Hd) as [? Hk']. split; [done|].
  intros i1 k1 Hin1 HX. apply Hk'; [done|]. assert ((i1, k1) ≠ (i, k)); [congruence|set_solver].
Qed.
Lemma noticed_same i k s s' : clients s' = clients s → noticed i k s → noticed i k s'.
Proof. intros E Hn Htr cl0 H0 Hin. unfold told. rewrite E. by eapply Hn. Qed.

Lemma wp_signalModifiedKey X s i k (Q : unit → server → Prop) :
  Inv X s → (i < n)%nat → (∀ s', Inv (X ∖ {[(i, k)]}) s' → dbs s' = dbs s → noticed i k s' → Q tt s') →
  wp (signalModifiedKey i k) Q s.
Proof.
  intros HI Hi HQ. destruct (inv_db X s i HI Hi) as (db & E & Hdb). apply wp_bind, (wp_get_db i db); [done|].
  pose proof (λ c, wf_watch track s (inv_wf _ _ HI) i db k c E) as Hwatch.
  assert (∀ s', (w ∈ default [] (db_watched_keys db !! k) → told s') → noticed i k s') as Hnot.
  { intros s' Ht Htr cl0 H0 Hin. apply Ht, Hwatch.
    destruct (inv_watching _ _ HI Htr) as (cl0' & clw & H0' & Hclw & Ew & _). exists clw. split; [done|].
    apply Ew. congruence. }
  assert (∀ s', Inv X s' → dbs s' = dbs s → (w ∈ default [] (db_watched_keys db !! k) → told s') → Q tt s') as Hend.
  { intros s' HI' Ed Ht. apply HQ; [|done|by apply Hnot]. apply (inv_noticed _ i k); [|by apply Hnot].
    eapply inv_weaken; [done|]. intros x Hx. destruct (decide (x = (i, k))); set_solver. }
  clear HQ.
  destruct (db_watched_keys db !! k) as [l|]; cbn in Hend, Hwatch.
  2: { apply wp_ret, Hend; try done. by intros ?%elem_of_nil. }
  apply (wp_foreach (λ r s1, Inv X s1 ∧ dbs s1 = dbs s ∧ (w ∈ l → w ∈ r ∨ told s1) ∧ ∀ c, c ∈ r → c ∈ C)).
  - split_and!; try done; [by left|]. intros c (cl & Hcl & _)%Hwatch. by eapply inv_in_clients.
  - intros c r s1 (HI1 & Ed & Ht & Hr). apply (wp_dirty_cas X); [done|apply Hr; set_solver|].
    intros s2 HI2 Ed2 Ht2. split_and!; [done|congruence| |intros; apply Hr; set_solver].
    intros Hin. destruct (Ht Hin) as [[Hw|Hw]%elem_of_cons|Hw]; auto.
  - intros s1 (HI1 & Ed & Ht & _). apply Hend; try done. intros Hin. by destruct (Ht Hin) as [?%elem_of_nil|].
Qed.

(** ** Expiration *)

(** The removal of a key after its expire time; a watching client may not be told. *)
Lemma inv_expired X s s' i k when : Inv X s → expires_of s i !! k = Some when → when < tmax →
  Inv (X ∪ {[(i, k)]}) s' → same_keys {[(i, k)]} s s' → entry s' i k = (None, None) → clients s' = clients s → Inv X s'.
Proof.
  intros HI Hk Hw HI' Hsame Hgone Ec. split; try apply HI'. intros Ht.
  destruct (inv_watching _ _ HI Ht) as (cl0 & cl & H0 & H & E & Hkept). exists cl0, cl. rewrite Ec. split_and!; try done.
  intros Hd. destruct (Hkept Hd) as [? Hk']. split; [done|]. intros i1 k1 Hin HX. specialize (Hk' i1 k1 Hin HX).
  destruct (decide ((i1, k1) = (i, k))) as [[= -> ->]|Hne].
  - right. split; [done|]. destruct Hk' as [He|[He Hwhen]]; [|done]. exists when. split; [|done].
    unfold entry in He. congruence.
  - unfold kept. rewrite (Hsame i1 k1) by set_solver. done.
Qed.

Lemma wp_expire_key X s i k when (Q : bool → server → Prop) : Inv X s → (i < n)%nat →
  expires_of s i !! k = Some when → when < tmax →
  (∀ b s', Inv X s' → same_keys {[(i, k)]} s s' → clients s' = clients s → Q b s') →
  wp (propagateExpire i k;; dbDelete i k) Q s.
Proof.
  intros HI Hi Hk Hw HQ. apply wp_bind, (wp_propagate X); [done|]. intros s1 HI1 Ed1 Ec1.
  apply (wp_dbDelete X); [done..|]. intros s2 HI2 Hs2 Hg2 Ec2.
  assert (same_keys {[(i, k)]} s s2) by (eapply same_keys_trans; [by apply same_keys_refl|done]).
  apply HQ; [|done|congruence]. eapply (inv_expired X s); try done; congruence.
Qed.

Lemma wp_activeExpireCycleTryExpire X s i k now (Q : bool → server → Prop) : Inv X s → (i < n)%nat → now ≤ tmax →
  (∀ b s', Inv X s' → same_keys {[(i, k)]} s s' → clients s' = clients s → Q b s') →
  wp (activeExpireCycleTryExpire i k now) Q s.
Proof.
  intros HI Hi Hnow HQ. destruct (inv_db X s i HI Hi) as (db & E & _). apply wp_bind, (wp_get_db i db); [done|].
  assert (same_keys {[(i, k)]} s s) by by apply same_keys_refl.
  destruct (db_expires db !! k) as [t|] eqn:Et; [|by apply wp_ret, HQ]. rewrite <- (expires_of_db s i db E) in Et.
  destruct (Z.ltb_spec t now); [|by apply wp_ret, HQ].
  apply wp_assoc, wp_bind, (wp_expire_key X s i k t); try done; [lia|]. intros. by apply wp_ret, HQ.
Qed.

Lemma wp_mstime X s (Q : Z → server → Prop) : Inv X s →
  (∀ now s', Inv X s' → dbs s' = dbs s → clients s' = clients s → 0 ≤ now ≤ time_limit → now ≤ tmax → Q now s') →
  wp (mstime clock) Q s.
Proof.
  intros HI HQ. unfold wp, mstime. apply HQ; try done; [by eapply inv_same|apply clock_readings|apply clock_tmax].
Qed.

Lemma wp_expireIfNeeded X s i k (Q : bool → server → Prop) : Inv X s → (i < n)%nat →
  (∀ b s', Inv X s' → same_keys {[(i, k)]} s s' → clients s' = clients s → Q b s') →
  wp (expireIfNeeded clock i k) Q s.
Proof.
  intros HI Hi HQ. apply wp_bind, (wp_getExpire X); [done..|].
  assert (same_keys {[(i, k)]} s s) by by apply same_keys_refl.
  destruct (expires_of s i !! k) as [when|] eqn:Ek; [|by apply wp_ret, HQ].
  destruct (Z.ltb_spec when 0); [by apply wp_ret, HQ|]. apply wp_bind, wp_get.
  destruct (loading s); [by apply wp_ret, HQ|]. rewrite (wf_lua track s (inv_wf _ _ HI)).
  apply wp_bind, (wp_mstime X); [done|]. intros now s1 HI1 Ed Ec Hnow Hmax.
  assert (same_keys {[(i, k)]} s s1) as Hs1 by by apply same_keys_refl.
  destruct (masterhost s); [by apply wp_ret, HQ|].
  destruct (Z.leb_spec now when); [by apply wp_ret, HQ|].
  apply (wp_expire_key X s1 i k when Q); try done; [by unfold expires_of in *; rewrite Ed|lia|].
  intros b s2 HI2 Hs2 Ec2. apply HQ; [done| |congruence]. by eapply same_keys_trans.
Qed.

Lemma wp_lookupKeyWrite X s i k (Q : option robj → server → Prop) : Inv X s → (i < n)%nat →
  (∀ s', Inv X s' → same_keys {[(i, k)]} s s' → clients s' = clients s → Q (dict_of s' i !! k) s') →
  wp (lookupKeyWrite clock i k) Q s.
Proof.
  intros HI Hi HQ. apply wp_bind, (wp_expireIfNeeded X); [done..|]. intros b s' HI' Hs' Ec.
  apply (wp_lookupKey X); [done..|]. by apply HQ.
Qed.
Lemma wp_lookupKeyRead X s i k (Q : option robj → server → Prop) : Inv X s → (i < n)%nat →
  (∀ s', Inv X s' → same_keys {[(i, k)]} s s' → clients s' = clients s → Q (dict_of s' i !! k) s') →
  wp (lookupKeyRead clock i k) Q s.
Proof. apply wp_lookupKeyWrite. Qed.

Lemma wp_setKey X s i k val (Q : unit → server → Prop) : Inv X s → (i < n)%nat → robj_ok val →
  (∀ s', Inv X s' → same_keys {[(i, k)]} s s' → dict_of s' i !! k = Some val → noticed i k s' → Q tt s') →
  wp (setKey clock i k val) Q s.
Proof.
  intros HI Hi Hv HQ. apply wp_bind, (wp_lookupKeyWrite X); [done..|]. intros s1 HI1 Hs1 _.
  apply wp_bind. apply wp_mono with (Q := λ _ s2, Inv (X ∪ {[(i, k)]}) s2 ∧ same_keys {[(i, k)]} s1 s2 ∧ dict_of s2 i !! k = Some val).
  { destruct (dict_of s1 i !! k) as [o|] eqn:Ek.
    - by apply (wp_dbOverwrite X).
    - by apply (wp_dbAdd X). }
  intros _ s2 (HI2 & Hs2 & Ek). apply wp_bind, (wp_removeExpire (X ∪ {[(i, k)]})); [done..|]. intros s3 HI3 Hs3 Ek3 _.
  apply (wp_signalModifiedKey (X ∪ {[(i, k)]} ∪ {[(i, k)]})); [done..|]. intros s4 HI4 Ed4 Hn4. apply HQ; [| | |done].
  - eapply inv_weaken; [done|]. set_solver.
  - apply (same_keys_trans _ _ s1); [done|]. apply (same_keys_trans _ _ s2); [done|].
    apply (same_keys_trans _ _ s3); [done|]. by apply same_keys_refl.
  - rewrite (dict_of_same s3 s4) by done. congruence.
Qed.

End inv.
