(* ===== verification/CommandsSafe.v ===== *)
(** * CommandsSafe: the commands keep the invariant

    Every command, on arguments of the right number and size, runs to its end from
    every state that satisfies the invariant, and keeps it; the clients that watch
    a key are told when it changes. *)

From stdpp Require Import gmap.
From S2P Require Import Prelude NumConv Objects Strto Keyspace KeyspaceFacts Commands.

Section safe.
Context `{ST : Setting}.

Lemma wp_with_args c cl f (Q : reply → server → Prop) s :
  clients s !! c = Some cl → wp (f (c_db cl) (c_argv cl)) Q s → wp (with_args c f) Q s.
Proof. intros E HQ. by apply wp_bind, (wp_get_client c cl). Qed.

Lemma wp_addReplyBulk o (Q : reply → server → Prop) s : obj_ok o → (∀ r, Q r s) → wp (addReplyBulk o) Q s.
Proof.
  intros Ho HQ. unfold addReplyBulk. destruct (getDecodedObject_spec (replicate 32 0) o Ho eq_refl) as (t & -> & _). apply HQ.
Qed.
Lemma wp_getLL o f (Q : reply → server → Prop) s :
  Q (RError ENotInteger) s → (∀ v, getLongLongFromObject o = Some v → wp (f v) Q s) → wp (getLongLongFromObjectOrReply o f) Q s.
Proof. intros HE HQ. unfold getLongLongFromObjectOrReply. destruct (getLongLongFromObject o) as [v|]; [by apply HQ|done]. Qed.

Lemma tryObjectEncoding_ok a : arg_ok a → obj_ok (tryObjectEncoding a).
Proof.
  intros [Ha _]. unfold tryObjectEncoding. case_if; [|done]. destruct (string2l a) as [v|] eqn:E; [|done]. cbn.
  unfold string2l in E. destruct (string2ll a) as [v'|]; [|done]. cbn [mbind option_bind] in E.
  destruct (_ || _); simplify_eq. by apply wraps_range.
Qed.

Lemma wp_to_ms unit v (Q : Z → server → Prop) s : - time_limit ≤ v ≤ time_limit →
  (∀ ms, - 1000 * time_limit ≤ ms ≤ 1000 * time_limit → Q ms s) → wp (to_ms unit v) Q s.
Proof.
  unfold time_limit. intros Hv HQ. destruct unit; cbn [to_ms]; [apply wp_ll|apply wp_ret]; try apply HQ; unfold in_s; lia.
Qed.

(** ** SET and its variants *)

Definition safe (m : M reply) (s : server) : Prop := wp m (λ _ s', Inv ∅ s') s.

Lemma modified_safe X i k r s : Inv X s → (i < dbnum)%nat → X ⊆ {[(i, k)]} → safe (modified i k r) s.
Proof.
  intros HI Hi HX. apply wp_bind, (wp_signalModifiedKey X); [done..|]. intros s1 HI1 _ _.
  apply wp_bind, (wp_add_dirty ∅); [|by intros; apply wp_ret].
  eapply inv_weaken; [done|]. set_solver.
Qed.

Lemma lookup_if_safe (b : bool) i k (f : option robj → bool) s : Inv ∅ s → (i < dbnum)%nat →
  wp (if b then o ← lookupKeyWrite clock i k; ret (f o) else ret false) (λ _ s', Inv ∅ s') s.
Proof. intros HI Hi. destruct b; [|done]. apply wp_bind, (wp_lookupKeyWrite ∅); [done..|]. by intros; apply wp_ret. Qed.

Lemma set_if_safe i nx xx k val ms ok_reply abort_reply s :
  Inv ∅ s → (i < dbnum)%nat → robj_ok val → from_option (λ ms, - 1000 * time_limit ≤ ms ≤ 1000 * time_limit) True ms →
  safe (set_if clock i nx xx k val ms ok_reply abort_reply) s.
Proof.
  intros HI Hi Hv Hms. apply wp_bind. eapply wp_mono; [by apply lookup_if_safe|]. intros b1 s1 HI1.
  apply wp_bind. eapply (wp_mono _ (λ _ s', Inv ∅ s')); [destruct b1; [done|by apply lookup_if_safe]|]. intros b2 s2 HI2.
  destruct b2; [done|]. apply wp_bind, (wp_setKey ∅); [done..|]. intros s3 HI3 _ Hk3 Hn3.
  apply wp_bind, (wp_add_dirty ∅); [done|]. intros s4 HI4 Ed4 Ec4. apply wp_bind.
  destruct ms as [ms|]; cbn in Hms; [|by apply wp_ret, wp_ret].
  apply wp_bind, (wp_mstime ∅); [done|]. intros now s5 HI5 Ed5 Ec5 Hnow _. unfold time_limit in *.
  apply wp_bind, wp_ll; [unfold in_s; lia|]. apply (wp_setExpire ∅); try done.
  - rewrite (dict_of_same s4 s5), (dict_of_same s3 s4), Hk3 by done. by eexists.
  - unfold when_ok, time_limit. lia.
  - intros s6 HI6 _ _ Ec6. apply wp_ret. eapply inv_noticed; [done|]. eapply noticed_same; [|done]. congruence.
Qed.

Lemma setGenericCommand_safe i nx xx k val e unit ok_reply abort_reply s :
  Inv ∅ s → (i < dbnum)%nat → robj_ok val → from_option arg_ok True e →
  safe (setGenericCommand clock i nx xx k val e unit ok_reply abort_reply) s.
Proof.
  intros HI Hi Hv He. destruct e as [e|]; cbn [setGenericCommand]; [|by apply set_if_safe].
  apply wp_getLL; [done|]. intros v Hev. apply He in Hev. case_if; [done|].
  apply wp_bind, wp_to_ms; [done|]. intros ms Hms. by apply set_if_safe.
Qed.

(** A command with its arguments *)
Definition command_safe (p : Z → M reply) (argc : nat → Prop) : Prop :=
  ∀ c cl s, Inv ∅ s → clients s !! c = Some cl → argc (length (c_argv cl)) → Forall arg_ok (c_argv cl) → safe (p c) s.

Lemma set_options_ok m args nx xx e unit nx' xx' e' unit' : (length args ≤ m)%nat → Forall arg_ok args → from_option arg_ok True e →
  set_options args nx xx e unit = Some (nx', xx', e', unit') → from_option arg_ok True e'.
Proof.
  revert args nx xx e unit. induction m as [|m IH]; intros args nx xx e unit Hm Ha He.
  all: destruct args as [|a args]; [by intros [= _ _ <- _]|cbn in Hm].
  1: lia.
  apply Forall_cons in Ha as [_ Ha]. cbn [set_options]. case_if; [apply IH; (done || lia)|]. case_if; [apply IH; (done || lia)|].
  destruct args as [|next args]; [done|]. apply Forall_cons in Ha as [Hn Ha]. cbn in Hm.
  case_if; [apply IH; (done || lia)|]. case_if; [apply IH; (done || lia)|done].
Qed.

Ltac open_command :=
  intros c cl s HI Hc Hargc Hargs; apply (wp_with_args c cl); [done|];
  pose proof (proj1 (inv_client_ok _ _ _ _ HI Hc)) as Hi; clear Hc;
  destruct (c_argv cl) as [|a0 [|a1 [|a2 [|a3 [|a4 args]]]]]; cbn in Hargc; try lia;
  repeat match goal with H : Forall arg_ok (_ :: _) |- _ => apply Forall_cons in H as [? H] end.

Lemma setCommand_safe : command_safe (setCommand clock) (λ m, (3 ≤ m)%nat).
Proof.
  assert (∀ i k v args s, Inv ∅ s → (i < dbnum)%nat → arg_ok v → Forall arg_ok args →
    safe (match set_options args false false None UNIT_SECONDS with
          | None => ret (RError ESyntax)
          | Some (nx, xx, expire, unit) => setGenericCommand clock i nx xx k (StringObj (tryObjectEncoding v)) expire unit ROk RNullBulk
          end) s) as Hset.
  { intros i k v args s HI Hi Hv Ha. destruct (set_options args _ _ _ _) as [[[[nx xx] e] unit]|] eqn:E; [|done].
    apply setGenericCommand_safe; try done; [by apply tryObjectEncoding_ok|].
    by apply (set_options_ok (length args) args) in E. }
  open_command; apply Hset; try done; by repeat (apply Forall_cons_2; [done|]).
Qed.
Lemma setnxCommand_safe : command_safe (setnxCommand clock) (λ m, m = 3%nat).
Proof. open_command. apply setGenericCommand_safe; try done. by apply tryObjectEncoding_ok. Qed.
Lemma setex_safe unit : command_safe (setex clock unit) (λ m, m = 4%nat).
Proof. open_command. apply setGenericCommand_safe; try done. by apply tryObjectEncoding_ok. Qed.

(** ** Other commands on strings *)

Lemma dict_string_ok X s i k o : Inv X s → dict_of s i !! k = Some (StringObj o) → obj_ok o.
Proof. intros HI E. apply (dict_ok X s i k (StringObj o) HI E). Qed.

Lemma getGenericCommand_safe i k s : Inv ∅ s → (i < dbnum)%nat → wp (getGenericCommand clock i k) (λ _ s', Inv ∅ s') s.
Proof.
  intros HI Hi. apply wp_bind, (wp_lookupKeyRead ∅); [done..|]. intros s1 HI1 _ _.
  destruct (dict_of s1 i !! k) as [[o|t b]|] eqn:Ek; [|done..].
  apply wp_bind, wp_addReplyBulk; [by eapply dict_string_ok|]. intros r. by apply wp_ret.
Qed.
Lemma getCommand_safe : command_safe (getCommand clock) (λ m, m = 2%nat).
Proof. open_command. apply wp_bind. eapply wp_mono; [by apply getGenericCommand_safe|]. by intros [b r] s1 HI1. Qed.
Lemma getsetCommand_safe : command_safe (getsetCommand clock) (λ m, m = 3%nat).
Proof.
  open_command. apply wp_bind. eapply wp_mono; [by apply getGenericCommand_safe|]. intros [b r] s1 HI1.
  destruct b; [|done]. apply wp_bind, (wp_setKey ∅); [done..|by apply tryObjectEncoding_ok|]. intros s2 HI2 _ _ _.
  apply wp_bind, (wp_add_dirty ∅); [done|]. by intros s3 HI3 _ _.
Qed.

Lemma stringObjectLen_ok o : obj_ok o →
  ∃ m, stringObjectLen (replicate 32 0) o = Some m ∧ 0 ≤ m ≤ 512 * 1024 * 1024 ∧ ∀ t, obj_bytes o t → zlen t = m.
Proof.
  intros Ho. destruct o as [t|v].
  - exists (zlen t). cbn in Ho. pose proof (zlen_nonneg t). split_and!; [done|lia|lia|by intros ? ->].
  - destruct (ll2string_room (replicate 32 0) 32 v Ho) as (t & Hd & Hl & Hr); [done|]. exists (zlen t).
    cbn [stringObjectLen]. rewrite Hr. pose proof (zlen_nonneg t). split_and!; [done|lia|lia|].
    intros t' Ht'. by rewrite (decimal_unique t' t v).
Qed.
Lemma strlenCommand_safe : command_safe (strlenCommand clock) (λ m, m = 2%nat).
Proof.
  open_command. apply wp_bind, (wp_lookupKeyRead ∅); [done..|]. intros s1 HI1 _ _.
  destruct (dict_of s1 _ !! a1) as [[o|t b]|] eqn:Ek; [|done..].
  destruct (stringObjectLen_ok o) as (m & -> & _); [by eapply dict_string_ok|done].
Qed.

Lemma wp_unshare i k o s (Q : list Z → server → Prop) :
  Inv ∅ s → (i < dbnum)%nat → dict_of s i !! k = Some (StringObj o) →
  (∀ t s', Inv {[(i, k)]} s' → is_Some (dict_of s' i !! k) → obj_bytes o t → zlen t ≤ 512 * 1024 * 1024 → Q t s') →
  wp (dbUnshareStringValue i k (StringObj o)) Q s.
Proof.
  intros HI Hi Hk HQ. pose proof (dict_string_ok _ _ _ _ _ HI Hk) as Ho. unfold dbUnshareStringValue.
  destruct (getDecodedObject_spec (replicate 32 0) o Ho eq_refl) as (t & Et & Hb). rewrite Et.
  assert (zlen t ≤ 512 * 1024 * 1024) as Hl.
  { destruct (object_bytes_spec (replicate 128 0) o Ho) as [_ Hl]; [done|]. unfold obj_string in Hl. by rewrite Et in Hl. }
  apply wp_bind, (wp_dbOverwrite ∅); try done. intros s1 HI1 _ Hk1 _. apply wp_ret, HQ; try done.
  eapply inv_weaken; [done|]. set_solver.
Qed.

Lemma length_set_range t offset v : 0 ≤ offset → zlen (set_range t offset v) = Z.max (zlen t) (offset + zlen v).
Proof. intros Ho. unfold set_range. len. Qed.
Lemma write_range_safe X i k t offset v s : Inv X s → (i < dbnum)%nat → X ⊆ {[(i, k)]} → is_Some (dict_of s i !! k) →
  zlen t ≤ 512 * 1024 * 1024 → 0 ≤ offset → offset + zlen v ≤ 512 * 1024 * 1024 → safe (write_range i k t offset v) s.
Proof.
  intros HI Hi HX Hk Ht Ho Hl. apply wp_bind, wp_assert; [by apply Z.leb_le|].
  apply wp_bind, (wp_dbOverwrite X); try done; [cbn; rewrite length_set_range by done; lia|]. intros s1 HI1 _ _ _.
  eapply modified_safe; [done..|]. set_solver.
Qed.
Lemma setrangeCommand_safe : command_safe (setrangeCommand clock) (λ m, m = 4%nat).
Proof.
  open_command. apply wp_getLL; [done|]. intros offset Hoff. pose proof (zlen_nonneg a3) as Hz.
  assert (- time_limit ≤ offset ≤ time_limit ∧ zlen a3 ≤ 512 * 1024 * 1024) as [Hlim Hv] by (unfold arg_ok in *; naive_solver).
  destruct (Z.ltb_spec offset 0); [done|]. cbv zeta. unfold time_limit in Hlim.
  rewrite (wraps_wrapu_id 64) by (unfold in_s; lia).
  apply wp_bind, (wp_lookupKeyWrite ∅); [done..|]. intros s1 HI1 _ _.
  destruct (dict_of s1 _ !! a1) as [[o|t b]|] eqn:Ek; [|done|].
  - destruct (stringObjectLen_ok o) as (m & -> & _); [by eapply dict_string_ok|]. case_if; [done|].
    unfold checkStringLength. case_if; [done|]. apply wp_bind, wp_unshare; try done. intros t s2 HI2 Hk2 _ Ht.
    by eapply write_range_safe.
  - case_if; [done|]. unfold checkStringLength. case_if; [done|].
    apply wp_bind, (wp_dbAdd ∅); try done. intros s2 HI2 _ Hk2 _. eapply write_range_safe; try done. set_solver.
Qed.

Lemma getrangeCommand_safe : command_safe (getrangeCommand clock) (λ m, m = 4%nat).
Proof.
  open_command. apply wp_getLL; [done|]. intros start Hs. apply wp_getLL; [done|]. intros end_ He.
  assert (- time_limit ≤ start ≤ time_limit ∧ - time_limit ≤ end_ ≤ time_limit) as [Hs' He'] by (unfold arg_ok in *; naive_solver).
  unfold time_limit in *. apply wp_bind, (wp_lookupKeyRead ∅); [done..|]. intros s1 HI1 _ _.
  destruct (dict_of s1 _ !! a1) as [[o|t b]|] eqn:Ek; [|done..].
  destruct (getDecodedObject_spec (replicate 32 0) o) as (t & Et & _); [by eapply dict_string_ok|done|]. rewrite Et.
  assert (zlen t ≤ 512 * 1024 * 1024) as Hl.
  { destruct (object_bytes_spec (replicate 128 0) o) as [_ Hl]; [by eapply dict_string_ok|done|]. unfold obj_string in Hl. by rewrite Et in Hl. }
  pose proof (zlen_nonneg t). cbv zeta.
  assert (i64 (u64 (zlen t + start)) = zlen t + start) as -> by (apply (wraps_wrapu_id 64); unfold in_s; lia).
  assert (i64 (u64 (zlen t + end_)) = zlen t + end_) as -> by (apply (wraps_wrapu_id 64); unfold in_s; lia).
  assert (i64 (u64 (zlen t - 1)) = zlen t - 1) as -> by (apply (wraps_wrapu_id 64); unfold in_s; lia).
  case_if; [done|].
  match goal with |- context [load t ?a ?b] => destruct (load_is_Some t a b) as [r ->]; [..|done] end.
  all: repeat case_if; lia.
Qed.

Lemma mget_loop_safe i keys s : Inv ∅ s → (i < dbnum)%nat → wp (mget_loop clock i keys) (λ _ s', Inv ∅ s') s.
Proof.
  intros HI Hi. revert s HI. induction keys as [|k keys IH]; intros s HI; [done|]. cbn [mget_loop].
  apply wp_bind, (wp_lookupKeyRead ∅); [done..|]. intros s1 HI1 _ _. apply wp_bind.
  assert (∀ r : reply, wp (l ← mget_loop clock i keys; ret (r :: l)) (λ _ s', Inv ∅ s') s1) as Hrest.
  { intros r. apply wp_bind. eapply wp_mono; [by apply IH|]. done. }
  destruct (dict_of s1 i !! k) as [[o|t b]|] eqn:Ek; [|apply wp_ret, Hrest..].
  apply wp_addReplyBulk; [by eapply dict_string_ok|apply Hrest].
Qed.
Lemma mgetCommand_safe : command_safe (mgetCommand clock) (λ m, (2 ≤ m)%nat).
Proof. open_command; apply wp_bind; (eapply wp_mono; [by apply mget_loop_safe|done]). Qed.

Lemma pairs_ok args : Forall arg_ok args → Forall (λ kv, arg_ok kv.2) (pairs args).
Proof.
  assert (∀ m args, (length args ≤ m)%nat → Forall arg_ok args → Forall (λ kv, arg_ok kv.2) (pairs args)) as H; [|by eapply H].
  intros m. clear args. induction m as [|m IH]; intros [|k [|v args]] Hm Ha; cbn in Hm; try lia; try constructor.
  - by apply Forall_cons in Ha as [_ [? _]%Forall_cons].
  - apply IH; [lia|]. by apply Forall_cons in Ha as [_ [_ ?]%Forall_cons].
Qed.
Lemma busykeys_safe i kvs s : Inv ∅ s → (i < dbnum)%nat → wp (busykeys clock i kvs) (λ _ s', Inv ∅ s') s.
Proof.
  intros HI Hi. revert s HI. induction kvs as [|[k v] kvs IH]; intros s HI; [done|]. cbn [busykeys].
  apply wp_bind, (wp_lookupKeyWrite ∅); [done..|]. intros s1 HI1 _ _. apply wp_bind. eapply wp_mono; [by apply IH|]. done.
Qed.
Lemma msetGenericCommand_safe nx : command_safe (msetGenericCommand clock nx) (λ m, (3 ≤ m)%nat).
Proof.
  intros c cl s HI Hc Hargc Hargs. apply (wp_with_args c cl); [done|].
  pose proof (proj1 (inv_client_ok _ _ _ _ HI Hc)) as Hi. case_if; [done|]. cbv zeta. apply wp_bind.
  assert (Forall (λ kv, arg_ok kv.2) (pairs (tail (c_argv cl)))) as Hkv by (apply pairs_ok; destruct Hargs; done).
  eapply (wp_mono _ (λ _ s', Inv ∅ s')); [destruct nx; [by apply busykeys_safe|done]|]. intros b s1 HI1.
  destruct b; [done|]. apply wp_bind, (wp_foreach (λ l s', Inv ∅ s' ∧ Forall (λ kv, arg_ok kv.2) l)); [done| |].
  - intros [k v] l s2 (HI2 & [Hv Hl]%Forall_cons). apply (wp_setKey ∅); try done. by apply tryObjectEncoding_ok.
  - intros s2 (HI2 & _). apply wp_bind, (wp_add_dirty ∅); [done|]. by intros.
Qed.

Lemma incrDecrCommand_safe i k incr s : Inv ∅ s → (i < dbnum)%nat → in_s 64 incr → safe (incrDecrCommand clock i k incr) s.
Proof.
  intros HI Hi Hincr. apply wp_bind, (wp_lookupKeyWrite ∅); [done..|]. intros s1 HI1 _ _.
  assert (∀ o oldvalue, in_s 64 oldvalue → dict_of s1 i !! k = o → safe (
    if ((incr <? 0) && (oldvalue <? 0) && (incr <? LLONG_MIN - oldvalue)) || ((0 <? incr) && (0 <? oldvalue) && (LLONG_MAX - oldvalue <? incr))
    then ret (RError EOverflow) else
    value ← ll (oldvalue + incr);
    (match o with Some _ => dbOverwrite i k (StringObj (ObjInt value)) | None => dbAdd i k (StringObj (ObjInt value)) end);;
    modified i k (RInt value)) s1) as Hmain.
  { intros o oldvalue Hold Ho. destruct (_ || _) eqn:Hov; [done|]. unfold in_s, LLONG_MIN, LLONG_MAX in *.
    apply wp_bind, wp_ll; [unfold in_s; lia|]. apply wp_bind. destruct o as [o|].
    - apply (wp_dbOverwrite ∅); try done; [cbn; unfold in_s; lia|]. intros. eapply modified_safe; try done. set_solver.
    - apply (wp_dbAdd ∅); try done; [cbn; unfold in_s; lia|]. intros. eapply modified_safe; try done. set_solver. }
  destruct (dict_of s1 i !! k) as [[o|t b]|] eqn:Ek; [|done|].
  all: apply wp_getLL; [done|]; intros v Hv; refine (Hmain _ v _ eq_refl); apply getLongLongFromObject_range in Hv; try done.
  cbn. by eapply dict_string_ok.
Qed.
Lemma incr_by_safe m : in_s 64 m → command_safe (incr_by clock m) (λ m, m = 2%nat).
Proof. intros Hm. open_command. by apply incrDecrCommand_safe. Qed.
Lemma incrbyCommand_safe : command_safe (incrbyCommand clock) (λ m, m = 3%nat).
Proof.
  open_command. apply wp_getLL; [done|]. intros v Hv. apply incrDecrCommand_safe; try done.
  unfold arg_ok, time_limit, in_s in *. assert (- 2 ^ 52 ≤ v ≤ 2 ^ 52) by naive_solver. lia.
Qed.
Lemma decrbyCommand_safe : command_safe (decrbyCommand clock) (λ m, m = 3%nat).
Proof.
  open_command. apply wp_getLL; [done|]. intros v Hv.
  unfold arg_ok, time_limit in *. assert (- 2 ^ 52 ≤ v ≤ 2 ^ 52) by naive_solver.
  apply wp_bind, wp_ll; [unfold in_s; lia|]. apply incrDecrCommand_safe; try done. unfold in_s. lia.
Qed.

Lemma appendCommand_safe : command_safe (appendCommand clock) (λ m, m = 3%nat).
Proof.
  open_command. apply wp_bind, (wp_lookupKeyWrite ∅); [done..|]. intros s1 HI1 _ _.
  assert (obj_ok (tryObjectEncoding a2)) as Ho by by apply tryObjectEncoding_ok.
  destruct (dict_of s1 _ !! a1) as [[o|t b]|] eqn:Ek; [|done|].
  - destruct (stringObjectLen_ok o) as (m & -> & Hr & Hm); [by eapply dict_string_ok|].
    unfold checkStringLength. case_if; [done|]. apply wp_bind, wp_unshare; try done. intros t s2 HI2 Hk2 Hb Ht.
    apply wp_bind, (wp_dbOverwrite {[(c_db cl, a1)]}); try done; [|intros; eapply modified_safe; try done; set_solver].
    cbn. rewrite zlen_app. rewrite (Hm t Hb). lia.
  - apply wp_bind, (wp_dbAdd ∅); try done. intros s2 HI2 _ _ _.
    destruct (stringObjectLen_ok _ Ho) as (m & -> & _). eapply modified_safe; try done. set_solver.
Qed.

(** ** Flushing *)

(** The keys the client watches in the database (in all of them) do not exist,
    unless it was told. *)
Definition quiet (dbid : option nat) (s : server) : Prop :=
  track = true → ∀ cl0, clients start !! watcher = Some cl0 →
  told s ∨ ∀ i k, (i, k) ∈ c_watched_keys cl0 → (∀ j, dbid = Some j → i = j) → dict_of s i !! k = None.

Definition touch_if (f : nat * list Z → bool) (cl : client) : client := if existsb f (c_watched_keys cl) then dirty_cas cl else cl.
Lemma touch_if_same f cl : c_watched_keys (touch_if f cl) = c_watched_keys cl ∧ c_db (touch_if f cl) = c_db cl ∧
  c_mstate (touch_if f cl) = c_mstate cl ∧ (f_dirty_cas (touch_if f cl) = false → f_dirty_cas cl = false ∧ existsb f (c_watched_keys cl) = false).
Proof. unfold touch_if. by destruct (existsb f (c_watched_keys cl)). Qed.

Lemma inv_touch_if X f s s' : Inv X s → dbs s' = dbs s → clients s' = touch_if f <$> clients s → lua_time s' = lua_time s → Inv X s'.
Proof.
  intros [Hwf Hn HC HW] Ed Ec El.
  assert (∀ c cl', clients s' !! c = Some cl' → ∃ cl, clients s !! c = Some cl ∧ cl' = touch_if f cl) as Hlk.
  { intros c cl'. rewrite Ec, lookup_fmap. intros (cl & -> & ->)%fmap_Some. by exists cl. }
  split; [split; rewrite ?Ed, ?El; try apply Hwf| | |].
  - intros c cl' (cl & H & ->)%Hlk. destruct (touch_if_same f cl) as (_ & -> & _). by eapply wf_client_db.
  - intros c cl' (cl & H & ->)%Hlk. destruct (touch_if_same f cl) as (_ & _ & -> & _). by eapply wf_client_queue.
  - intros c cl' (cl & H & ->)%Hlk. destruct (touch_if_same f cl) as (-> & _). by eapply wf_watch_nodup.
  - intros c cl' i k (cl & H & ->)%Hlk. destruct (touch_if_same f cl) as (-> & _). by eapply wf_watch_db.
  - intros i db k c Hi. rewrite (wf_watch track s Hwf i db k c Hi). split.
    + intros (cl & H & Hin). exists (touch_if f cl). rewrite Ec, lookup_fmap, H. by destruct (touch_if_same f cl) as (-> & _).
    + intros (cl' & (cl & H & ->)%Hlk & Hin). destruct (touch_if_same f cl) as (E & _). rewrite E in Hin. by exists cl.
  - by rewrite Ed.
  - by rewrite Ec, dom_fmap_L.
  - intros Ht. destruct (HW Ht) as (cl0 & cl & H0 & H & E & Hk). exists cl0, (touch_if f cl).
    destruct (touch_if_same f cl) as (Ew & _ & _ & Hd). rewrite Ec, lookup_fmap, H, Ew. split_and!; try done.
    intros Hd'. destruct (Hk (proj1 (Hd Hd'))) as [? Hk']. split; [done|]. intros i k Hin HX.
    unfold kept, entry, dict_of, expires_of. rewrite Ed. by apply Hk'.
Qed.

Lemma wp_signalFlushedDb X dbid s (Q : unit → server → Prop) :
  Inv X s → (∀ s', Inv X s' → dbs s' = dbs s → quiet dbid s' → Q tt s') → wp (signalFlushedDb dbid) Q s.
Proof.
  intros HI HQ. apply wp_bind, wp_get. cbv zeta. set (touched := λ '(i, k), _). set (s' := mkServer (dbs s) (touch_if touched <$> clients s) (dirty s) (conf s) (lua_time s) (propagated s) (reads s)).
  apply (HQ s'); [by eapply (inv_touch_if X touched s)|done|].
  intros Htr cl0 H0. destruct (inv_watching _ _ HI Htr) as (cl0' & cl & H0' & H & E & _).
  assert (cl0' = cl0) as -> by congruence. unfold told. cbn [clients s']. rewrite lookup_fmap, H. cbn.
  destruct (f_dirty_cas (touch_if touched cl)) eqn:Ed; [left; by eexists|right].
  apply touch_if_same in Ed as [_ Ex]. intros i k Hin%E Hid.
  destruct (dict_of s' i !! k) as [o|] eqn:Ek; [|done]. exfalso. rewrite <- not_true_iff_false in Ex. apply Ex.
  apply existsb_exists. exists (i, k). rewrite <- list_elem_of_In. split; [done|]. unfold touched.
  apply andb_true_intro. split; [destruct dbid as [j|]; [apply bool_decide_true, Hid|]; done|].
  apply bool_decide_true. unfold dict_of in Ek. cbn in Ek. destruct (dbs s !! i) as [db|]; [|by cbn in Ek; rewrite lookup_empty in Ek].
  cbn in Ek |- *. by rewrite Ek.
Qed.

Lemma wp_clear_db dbid i s (Q : unit → server → Prop) :
  Inv ∅ s → (i < dbnum)%nat → quiet dbid s → (∀ j, dbid = Some j → i = j) →
  (∀ s', Inv ∅ s' → quiet dbid s' → Q tt s') → wp (clear_db i) Q s.
Proof.
  intros HI Hi Hq Hid HQ. destruct (inv_db ∅ s i HI Hi) as (db & E & Hdb). apply wp_bind, (wp_get_db i db); [done|].
  set (Y := set_map (λ k, (i, k)) (dom (db_dict db) ∪ dom (db_expires db)) : gset (nat * list Z)).
  apply (wp_put_db ∅ Y s i db); try done.
  - intros k Hk. cbn. rewrite !lookup_empty.
    assert (k ∉ dom (db_dict db) ∪ dom (db_expires db)) as [H1 H2]%not_elem_of_union by (intros ?; apply Hk, elem_of_map; by exists k).
    apply not_elem_of_dom in H1, H2. by rewrite H1, H2.
  - intros s' HI' Hs' Ei' Ec. assert (∀ j k, dict_of s j !! k = None → dict_of s' j !! k = None) as Hmono.
    { intros j k Hk. destruct (decide (j = i)) as [-> |Hne]; [rewrite (dict_of_db _ _ _ Ei'); apply lookup_empty|].
      rewrite (same_keys_dict Y s s'); [done..|]. intros (? & [= ? ?] & ?)%elem_of_map. done. }
    assert (quiet dbid s') as Hq'.
    { intros Htr cl0 H0. destruct (Hq Htr cl0 H0) as [Ht|Hnone]; [left; unfold told; by rewrite Ec|right]. auto. }
    apply HQ; [|done]. split; try apply HI'. intros Htr. pose proof (inv_watching _ _ HI Htr) as HW.
    pose proof HW as (cl0 & cl & H0 & H & Ew & Hk). destruct (Hq Htr cl0 H0) as [Ht|Hnone].
    { eapply watching_told; [by apply (inv_watching _ _ HI' Htr)|]. unfold told. by rewrite Ec. }
    exists cl0, cl. rewrite Ec. split_and!; try done. intros Hd. destruct (Hk Hd) as [? Hk']. split; [done|].
    intros j k Hin HX. destruct (decide (j = i)) as [-> |Hne].
    + assert (entry s' i k = entry s i k) as Een; [|unfold kept; rewrite Een; by apply Hk'].
      pose proof (Hnone i k Hin Hid) as Hdn. rewrite (dict_of_db _ _ _ E) in Hdn.
      rewrite (entry_db _ _ _ _ E), (entry_db _ _ _ _ Ei'), Hdn. cbn. rewrite !lookup_empty.
      destruct (db_expires db !! k) as [when|] eqn:Ee; [|done]. apply (wf_expires db Hdb) in Ee as [[? ?] _]. congruence.
    + unfold kept. rewrite (Hs' j k); [by apply Hk'|]. by intros (? & [= ? ?] & ?)%elem_of_map.
Qed.

Lemma flushdbCommand_safe : command_safe flushdbCommand (λ m, (1 ≤ m)%nat).
Proof.
  intros c cl s HI Hc _ _. apply (wp_with_args c cl); [done|]. pose proof (proj1 (inv_client_ok _ _ _ _ HI Hc)) as Hi.
  destruct (inv_db ∅ s _ HI Hi) as (db & E & _). apply wp_bind, (wp_get_db _ db); [done|].
  apply wp_bind, (wp_add_dirty ∅); [done|]. intros s1 HI1 _ _. apply wp_bind, (wp_signalFlushedDb ∅); [done|].
  intros s2 HI2 _ Hq. apply wp_bind, (wp_clear_db (Some (c_db cl))); try done. by intros j [= ->].
Qed.
Lemma flushallCommand_safe : command_safe flushallCommand (λ m, (1 ≤ m)%nat).
Proof.
  intros c cl s HI Hc _ _. apply wp_bind, (wp_signalFlushedDb ∅); [done|]. intros s1 HI1 _ Hq.
  apply wp_bind. apply wp_bind, wp_get. rewrite (inv_dbs _ _ HI1).
  apply wp_bind, (wp_foreach (λ l s', Inv ∅ s' ∧ quiet None s' ∧ Forall (λ i, (i < dbnum)%nat) l)).
  - split_and!; try done. apply list.Forall_forall. intros i Hi%elem_of_seq. lia.
  - intros i l s2 (HI2 & Hq2 & [Hi Hl]%Forall_cons). by apply (wp_clear_db None).
  - intros s2 (HI2 & _ & _). apply wp_ret. apply wp_bind, (wp_add_dirty ∅); [done|]. intros s3 HI3 _ _.
    apply wp_bind, (wp_add_dirty ∅); [done|]. by intros.
Qed.

(** ** Commands on keys *)

Lemma del_loop_safe i keys s : Inv ∅ s → (i < dbnum)%nat → wp (del_loop clock i keys) (λ _ s', Inv ∅ s') s.
Proof.
  intros HI Hi. revert s HI. induction keys as [|k keys IH]; intros s HI; [done|]. cbn [del_loop].
  apply wp_bind, (wp_expireIfNeeded ∅); [done..|]. intros b s1 HI1 _ _.
  apply wp_bind, (wp_dbDelete ∅); [done..|]. intros s2 HI2 Hs2 Hg2 Ec2. apply wp_bind.
  apply (wp_mono _ (λ _ s', Inv ∅ s')); [|intros _ s3 HI3; apply wp_bind; eapply wp_mono; [by apply IH|done]].
  case_bool_decide as Hk.
  - apply wp_bind, (wp_signalModifiedKey (∅ ∪ {[(i, k)]})); [done..|]. intros s3 HI3 _ _.
    apply (wp_add_dirty ∅); [|done]. eapply inv_weaken; [done|]. set_solver.
  - apply wp_ret. destruct (dict_of s1 i !! k) as [o|] eqn:Ek; [by destruct Hk|].
    assert (entry s2 i k = entry s1 i k) as Een.
    { rewrite Hg2. unfold entry. rewrite Ek. destruct (expires_of s1 i !! k) as [when|] eqn:Ee; [|done].
      destruct (inv_db ∅ s1 i HI1 Hi) as (db & E & Hdb). rewrite (expires_of_db _ _ _ E) in Ee.
      rewrite (dict_of_db _ _ _ E) in Ek. apply (wf_expires db Hdb) in Ee as [[? ?] _]. congruence. }
    eapply (inv_unchanged ∅ s1 s2); [done..|]. intros j k'. destruct (decide ((j, k') = (i, k))) as [[= -> ->]|Hne]; [done|].
    apply Hs2. set_solver.
Qed.
Lemma delCommand_safe : command_safe (delCommand clock) (λ m, (2 ≤ m)%nat).
Proof. open_command; apply wp_bind; (eapply wp_mono; [by apply del_loop_safe|done]). Qed.

Lemma existsCommand_safe : command_safe (existsCommand clock) (λ m, m = 2%nat).
Proof.
  open_command. apply wp_bind, (wp_expireIfNeeded ∅); [done..|]. intros b s1 HI1 _ _.
  destruct (inv_db ∅ s1 _ HI1 Hi) as (db & E & _). apply wp_bind. by apply wp_bind, (wp_get_db _ db).
Qed.
Lemma dbsizeCommand_safe : command_safe dbsizeCommand (λ m, (1 ≤ m)%nat).
Proof.
  intros c cl s HI Hc _ _. apply (wp_with_args c cl); [done|]. pose proof (proj1 (inv_client_ok _ _ _ _ HI Hc)) as Hi.
  destruct (inv_db ∅ s _ HI Hi) as (db & E & _). by apply wp_bind, (wp_get_db _ db).
Qed.
Lemma typeCommand_safe : command_safe (typeCommand clock) (λ m, m = 2%nat).
Proof. open_command. apply wp_bind, (wp_lookupKeyRead ∅); [done..|]. by intros. Qed.

Lemma wp_selectDb X c id cl s (Q : bool → server → Prop) : Inv X s → clients s !! c = Some cl →
  (∀ b s' cl', Inv X s' → dbs s' = dbs s → clients s' !! c = Some cl' → Q b s') → wp (selectDb c id) Q s.
Proof.
  intros HI Hc HQ. apply wp_bind, wp_get. apply wp_bind, (wp_get_client c cl); [done|].
  destruct ((id <? 0) || (zlen (dbs s) <=? id)) eqn:Eid; [by eapply (wp_ret false), HQ|].
  apply wp_bind, (wp_put_client X s c cl); try done.
  - cbn. rewrite <- (inv_dbs _ _ HI). unfold zlen in Eid. lia.
  - apply (inv_client_ok _ _ _ _ HI Hc).
  - intros s' HI' Ed Ec. eapply wp_ret, HQ; [done..|]. by rewrite Ec, lookup_insert_eq.
Qed.
Lemma selectCommand_safe : command_safe selectCommand (λ m, m = 2%nat).
Proof.
  intros c cl s HI Hc Hargc Hargs. apply (wp_with_args c cl); [done|].
  destruct (c_argv cl) as [|a0 [|a1 [|a2 args]]]; try done. destruct (getLongLongFromObject _) as [id|]; [|done].
  apply wp_bind, (wp_selectDb ∅ c _ cl); [done..|]. by intros.
Qed.

Lemma rename_to_safe X i src dst o expire r s : Inv X s → (i < dbnum)%nat → X ⊆ {[(i, src); (i, dst)]} → src ≠ dst →
  dict_of s i !! dst = None → robj_ok o → when_ok expire → safe (rename_to i src dst o expire r) s.
Proof.
  intros HI Hi HX Hne Hd Ho He. apply wp_bind, (wp_dbAdd X); [done..|]. intros s1 HI1 _ Hk1 _. apply wp_bind.
  apply (wp_mono _ (λ _ s', Inv {[(i, src); (i, dst)]} s')).
  { case_if; [apply wp_ret; eapply inv_weaken; [done|set_solver]|].
    apply (wp_setExpire (X ∪ {[(i, dst)]})); try done. intros s2 HI2 _ _ _. eapply inv_weaken; [done|]. set_solver. }
  intros _ s2 HI2. apply wp_bind, (wp_dbDelete {[(i, src); (i, dst)]}); [done..|]. intros s3 HI3 _ _ _.
  apply wp_bind, (wp_signalModifiedKey ({[(i, src); (i, dst)]} ∪ {[(i, src)]})); [done..|]. intros s4 HI4 _ _.
  eapply modified_safe; [done..|]. set_solver.
Qed.
Lemma when_ok_expire X s i k : Inv X s → when_ok (match expires_of s i !! k with Some when => when | None => -1 end).
Proof.
  intros HI. destruct (expires_of s i !! k) as [when|] eqn:E; [by eapply expires_ok|]. unfold when_ok, time_limit. lia.
Qed.
Lemma renameGenericCommand_safe nx : command_safe (renameGenericCommand clock nx) (λ m, m = 3%nat).
Proof.
  open_command. destruct (bool_decide (a1 = a2)) eqn:Ene; [done|]. apply bool_decide_eq_false in Ene.
  apply wp_bind, (wp_lookupKeyWrite ∅); [done..|]. intros s1 HI1 _ _.
  destruct (dict_of s1 _ !! a1) as [o|] eqn:Ek; [|done]. pose proof (dict_ok _ _ _ _ _ HI1 Ek) as Ho.
  apply wp_bind, (wp_getExpire ∅); [done..|]. pose proof (when_ok_expire ∅ s1 (c_db cl) a1 HI1) as Hw.
  apply wp_bind, (wp_lookupKeyWrite ∅); [done..|]. intros s2 HI2 _ _. cbv zeta.
  destruct (dict_of s2 _ !! a2) as [d|] eqn:Ed; [|eapply rename_to_safe; try done; set_solver].
  destruct nx; [done|]. apply wp_bind, (wp_dbDelete ∅); [done..|]. intros s3 HI3 _ Hg3 _.
  eapply rename_to_safe; try done; [set_solver|]. unfold entry in Hg3. congruence.
Qed.

(** MOVE and PERSIST do not tell the clients that watch the key: the invariant is
    kept if none is followed. *)
Lemma inv_untracked X Y s : track = false → Inv X s → Inv Y s.
Proof. intros Ht [Hwf Hn HC HW]. split; try done. congruence. Qed.

Lemma moveCommand_safe : track = false → command_safe (moveCommand clock) (λ m, m = 3%nat).
Proof.
  intros Ht c cl s HI Hc Hargc Hargs. apply (wp_with_args c cl); [done|]. pose proof (proj1 (inv_client_ok _ _ _ _ HI Hc)) as Hi.
  destruct (c_argv cl) as [|a0 [|k [|a2 [|a3 args]]]]; try done.
  destruct (getLongLongFromObject _) as [id|]; [|done]. case_if; [done|].
  apply wp_bind, (wp_selectDb ∅ c _ cl); [done..|]. intros b s1 cl1 HI1 _ Hc1. destruct b; cbn [negb]; [|done].
  apply wp_bind, (wp_get_client c cl1); [done|]. cbv zeta. pose proof (proj1 (inv_client_ok _ _ _ _ HI1 Hc1)) as Hi1.
  apply wp_bind, (wp_selectDb ∅ c _ cl1); [done..|]. intros b2 s2 cl2 HI2 _ Hc2.
  destruct (bool_decide (c_db cl = c_db cl1)) eqn:Ene; [done|]. apply bool_decide_eq_false in Ene.
  apply wp_bind, (wp_lookupKeyWrite ∅); [done..|]. intros s3 HI3 _ _.
  destruct (dict_of s3 _ !! k) as [o|] eqn:Ek; [|done]. pose proof (dict_ok _ _ _ _ _ HI3 Ek) as Ho.
  apply wp_bind, (wp_lookupKeyWrite ∅); [done..|]. intros s4 HI4 _ _.
  destruct (dict_of s4 _ !! k) as [d|] eqn:Ed; [done|].
  apply wp_bind, (wp_dbAdd ∅); [done..|]. intros s5 HI5 _ _ _. apply wp_bind. eapply wp_dbDelete; [done..|]. intros s6 HI6 _ _ _.
  apply wp_bind. eapply wp_add_dirty; [done|]. intros s7 HI7 _ _. apply wp_ret. by eapply inv_untracked.
Qed.
Lemma persistCommand_safe : track = false → command_safe persistCommand (λ m, m = 2%nat).
Proof.
  intros Ht. open_command. destruct (inv_db ∅ s _ HI Hi) as (db & E & _). apply wp_bind, (wp_get_db _ db); [done|].
  destruct (db_dict db !! a1) as [o|] eqn:Ek; [|done]. apply wp_bind, (wp_removeExpire ∅); try done.
  { rewrite (dict_of_db _ _ _ E), Ek. by eexists. }
  intros s1 HI1 _ _ _. apply (inv_untracked _ ∅) in HI1; [|done]. case_if; [|done].
  apply wp_bind, (wp_add_dirty ∅); [done|]. by intros.
Qed.

(** ** Expire times *)

Lemma expireGenericCommand_safe basetime unit : 0 ≤ basetime ≤ time_limit → command_safe (expireGenericCommand clock basetime unit) (λ m, m = 3%nat).
Proof.
  intros Hb c cl s HI Hc Hargc Hargs. apply (wp_with_args c cl); [done|]. pose proof (proj1 (inv_client_ok _ _ _ _ HI Hc)) as Hi.
  destruct (c_argv cl) as [|a0 [|k [|a2 [|a3 args]]]]; try done. apply wp_getLL; [done|]. intros v Hv.
  assert (- time_limit ≤ v ≤ time_limit) as Hv' by (repeat (apply Forall_cons in Hargs as [? Hargs]); unfold arg_ok in *; naive_solver).
  apply wp_bind, wp_to_ms; [done|]. intros ms Hms. apply wp_bind, wp_ll; [unfold in_s, time_limit in *; lia|].
  apply wp_bind, (wp_lookupKeyRead ∅); [done..|]. intros s1 HI1 _ Ec1.
  destruct (dict_of s1 _ !! k) as [o|] eqn:Ek; [|done].
  apply wp_bind, (wp_mstime ∅); [done|]. intros now s2 HI2 Ed2 Ec2 Hnow _. apply wp_bind, wp_get.
  assert (is_Some (dict_of s2 (c_db cl) !! k)) as Hk2 by (rewrite (dict_of_same s1 s2), Ek by done; by eexists).
  case_if.
  - apply wp_bind, (wp_dbDelete ∅); [done..|]. intros s3 HI3 _ _ Ec3.
    apply wp_bind, wp_assert; [by apply bool_decide_true|]. apply wp_bind. eapply wp_add_dirty; [done|]. intros s4 HI4 _ Ec4.
    assert (clients s4 !! c = Some cl) as Hc4 by congruence.
    apply wp_bind, (wp_get_client c cl); [done|]. apply wp_bind. eapply (wp_put_client _ s4 c cl); [done..| | |].
    + apply (inv_client_ok _ _ _ _ HI4 Hc4).
    + done.
    + intros s5 HI5 _ _. apply wp_bind. eapply wp_signalModifiedKey; [done..|]. intros s6 HI6 _ _. apply wp_ret.
      eapply inv_weaken; [done|]. set_solver.
  - apply wp_bind, (wp_setExpire ∅); try done; [unfold when_ok, time_limit in *; lia|]. intros s3 HI3 _ _ _.
    eapply modified_safe; [done..|]. set_solver.
Qed.
Lemma wp_command_after_mstime (p : Z → Z → M reply) argc :
  (∀ now, 0 ≤ now ≤ time_limit → command_safe (p now) argc) → command_safe (λ c, now ← mstime clock; p now c) argc.
Proof.
  intros Hp c cl s HI Hc Hargc Hargs. apply wp_bind, (wp_mstime ∅); [done|]. intros now s1 HI1 _ Ec Hnow _.
  eapply Hp; try done. by rewrite Ec.
Qed.
Lemma expire_now_safe unit : command_safe (λ c, now ← mstime clock; expireGenericCommand clock now unit c) (λ m, m = 3%nat).
Proof. apply wp_command_after_mstime. intros now Hnow. by apply expireGenericCommand_safe. Qed.

Lemma ttlGenericCommand_safe output_ms : command_safe (ttlGenericCommand clock output_ms) (λ m, m = 2%nat).
Proof.
  open_command. apply wp_bind, (wp_lookupKeyRead ∅); [done..|]. intros s1 HI1 _ _.
  destruct (dict_of s1 _ !! a1) as [o|] eqn:Ek; [|done]. apply wp_bind, (wp_getExpire ∅); [done..|].
  generalize (when_ok_expire ∅ s1 (c_db cl) a1 HI1). generalize (match expires_of s1 (c_db cl) !! a1 with Some when => when | None => -1 end).
  intros e Hw.
  apply wp_bind. case_if; [by apply wp_ret, wp_ret|]. apply wp_bind, (wp_mstime ∅); [done|]. intros now s2 HI2 _ _ Hnow _.
  apply wp_bind, wp_ll; [unfold when_ok, time_limit, in_s in *; lia|]. by apply wp_ret, wp_ret.
Qed.

End safe.
