(* ===== verification/MultiSpec.v ===== *)
(** * MultiSpec: transactions and the whole server

    The functions of multi.c keep the invariant, and so does the execution of every
    request.  The last section has the properties of the server: no reachable state
    and no request make an assertion fail, and a transaction whose watched keys were
    changed is not executed. *)

From stdpp Require Import gmap.
From S2P Require Import Prelude Objects Strto Sds Keyspace KeyspaceFacts Commands CommandsSafe Multi.

(** ** Watching *)

Lemma del_node_spec c l : NoDup l → c ∈ l → ∃ l', del_node c l = Some l' ∧ NoDup l' ∧ ∀ x, x ∈ l' ↔ x ∈ l ∧ x ≠ c.
Proof.
  induction l as [|y l IH]; intros Hnd Hin; [by apply elem_of_nil in Hin|]. apply NoDup_cons in Hnd as [Hy Hnd]. cbn [del_node].
  destruct (Z.eqb_spec y c) as [-> |Hne].
  - exists l. split_and!; try done. intros x. rewrite elem_of_cons. split; [|tauto]. intros Hx. split; [by right|]. by intros ->.
  - destruct IH as (l' & -> & Hnd' & Hl'); [done|set_solver|]. exists (y :: l'). split; [done|]. split.
    + apply NoDup_cons. rewrite Hl'. by split; [intros [? _]|].
    + intros x. rewrite !elem_of_cons, Hl'. split; [|tauto]. intros [-> |?]; [split; [by left|done]|tauto].
Qed.

Section multi.
Context `{ST : Setting}.

(** Commands that end the watch of their client do not run for the client whose keys
    are followed. *)
Definition not_watcher (c : Z) : Prop := track = true → c ≠ watcher.

Lemma inv_rewatch X s s' i db c cl wk cl' : Inv X s → dbs s !! i = Some db → clients s !! c = Some cl →
  (track = true → c = watcher → c_watched_keys cl ⊆ c_watched_keys cl' ∧ f_dirty_cas cl' = f_dirty_cas cl) →
  dbs s' = <[i := set_watched db wk]> (dbs s) → clients s' = <[c := cl']> (clients s) → lua_time s' = lua_time s →
  c_db cl' = c_db cl → c_mstate cl' = c_mstate cl → NoDup (c_watched_keys cl') →
  (∀ k l, wk !! k = Some l → NoDup l ∧ l ≠ []) →
  (∀ k c1, c1 ∈ default [] (wk !! k) ↔ (c1 ≠ c ∧ c1 ∈ default [] (db_watched_keys db !! k)) ∨ (c1 = c ∧ (i, k) ∈ c_watched_keys cl')) →
  (∀ j k, j ≠ i → (j, k) ∈ c_watched_keys cl' ↔ (j, k) ∈ c_watched_keys cl) →
  Inv X s'.
Proof.
  intros HI E Hc Hnw Ed Ec El Edb Emst Hnd Hwk Hin Hother. pose proof HI as [Hwf Hn HC HW].
  pose proof (lookup_lt_Some _ _ _ E) as Hi.
  assert (∀ j dj, dbs s' !! j = Some dj → j ≠ i → dbs s !! j = Some dj) as Hne.
  { intros j dj. rewrite Ed. intros [(<- & _)|(? & ?)]%list_lookup_insert_Some ?; done. }
  split; [split| | |].
  - rewrite El. apply Hwf.
  - intros j dj. rewrite Ed. intros [(<- & <- & _)|(? & ?)]%list_lookup_insert_Some; [|by eapply wf_db].
    destruct (wf_db track s Hwf i db E) as [Hv He]. by split.
  - intros c1 cl1. rewrite Ec, Ed, length_insert. intros [(<- & <-)|(? & ?)]%lookup_insert_Some; [rewrite Edb|]; by eapply wf_client_db.
  - intros c1 cl1. rewrite Ec. intros [(<- & <-)|(? & ?)]%lookup_insert_Some; [rewrite Emst|]; by eapply wf_client_queue.
  - intros c1 cl1. rewrite Ec. intros [(<- & <-)|(? & ?)]%lookup_insert_Some; [done|]. by eapply wf_watch_nodup.
  - intros c1 cl1 j k. rewrite Ec, Ed, length_insert. intros [(<- & <-)|(? & ?)]%lookup_insert_Some Hk; [|by eapply wf_watch_db].
    destruct (decide (j = i)) as [-> |Hji]; [done|]. apply Hother in Hk; [|done]. by eapply wf_watch_db.
  - intros j dj k l. rewrite Ed. intros [(<- & <- & _)|(? & ?)]%list_lookup_insert_Some; [apply Hwk|by eapply wf_watchers].
  - intros j dj k c1 Hj. rewrite Ec. destruct (decide (j = i)) as [-> |Hji].
    + rewrite Ed, list_lookup_insert_eq in Hj by done. simplify_eq. cbn. rewrite Hin, (wf_watch track s Hwf i db k c1 E).
      destruct (decide (c1 = c)) as [-> |Hcc]; [rewrite lookup_insert_eq|rewrite lookup_insert_ne by done]; naive_solver.
    + rewrite (wf_watch track s Hwf j dj k c1 (Hne j dj Hj Hji)).
      destruct (decide (c1 = c)) as [-> |Hcc]; [rewrite lookup_insert_eq|by rewrite lookup_insert_ne].
      specialize (Hother j k Hji). naive_solver.
  - by rewrite Ed, length_insert.
  - rewrite Ec, dom_insert_L, HC. pose proof (inv_in_clients _ _ _ _ HI Hc). set_solver.
  - intros Ht. destruct (HW Ht) as (cl0 & clw & H0 & H & Ew & Hk). set (clw' := if decide (c = watcher) then cl' else clw).
    assert (f_dirty_cas clw' = f_dirty_cas clw ∧ <[c := cl']> (clients s) !! watcher = Some clw' ∧
      c_watched_keys cl0 ⊆ c_watched_keys clw') as (Ef & El' & Hsub).
    { unfold clw'. destruct (decide (c = watcher)) as [Ecw|Hcw]; [|by rewrite lookup_insert_ne]. destruct (Hnw Ht Ecw) as [Hsub Ef].
      simplify_eq. rewrite lookup_insert_eq. split_and!; try done. set_solver. }
    exists cl0, clw'. split; [done|]. rewrite Ec.
    split; [done|]. split; [done|]. rewrite Ef. intros Hd. destruct (Hk Hd) as [? Hk']. split; [done|].
    intros j k Hjk HX. assert (entry s' j k = entry s j k) as Een; [|unfold kept; rewrite Een; by apply Hk'].
    rewrite (entry_put s s' i (set_watched db wk)) by done. destruct (decide (j = i)) as [-> |]; [|done]. by rewrite (entry_db s i db).
Qed.

Lemma wp_watchForKey X c k cl s (Q : unit → server → Prop) : Inv X s → clients s !! c = Some cl →
  (∀ s' cl', Inv X s' → clients s' !! c = Some cl' → Q tt s') → wp (watchForKey c k) Q s.
Proof.
  intros HI Hc HQ. apply wp_bind, (wp_get_client c cl); [done|]. case_bool_decide as Hin; [by eapply wp_ret, HQ|].
  pose proof (proj1 (inv_client_ok _ _ _ _ HI Hc)) as Hi. destruct (inv_db X s _ HI Hi) as (db & E & _).
  apply wp_bind, (wp_get_db _ db); [done|]. cbv zeta. unfold wp, mbind, M_bind, put_db, put_client. cbn.
  set (wk := <[k := _]> _). set (cl' := set_client_watched _ _).
  eapply HQ; [|by apply lookup_insert_eq].
  assert (c ∉ default [] (db_watched_keys db !! k)) as Hnin.
  { rewrite (wf_watch track s (inv_wf _ _ HI) _ db k c E). intros (cl1 & H1 & H2). congruence. }
  eapply (inv_rewatch X s _ (c_db cl) db c cl wk cl'); try done.
  - intros _ _. cbn. split; [set_solver|done].
  - cbn. apply NoDup_app. split_and!; [by eapply wf_watch_nodup; [apply HI|]| |apply NoDup_singleton]. set_solver.
  - intros k' l. unfold wk. intros [(<- & <-)|(? & ?)]%lookup_insert_Some; [|by eapply wf_watchers; [apply HI|..]].
    split; [|by destruct (default [] _)]. apply NoDup_app. split_and!; [|set_solver|apply NoDup_singleton].
    destruct (db_watched_keys db !! k) as [l|] eqn:El; [|constructor]. by eapply wf_watchers; [apply HI|..].
  - intros k' c1. cbn. unfold wk. destruct (decide (k' = k)) as [-> |Hne].
    + rewrite lookup_insert_eq. cbn. rewrite !elem_of_app, !list_elem_of_singleton.
      destruct (decide (c1 = c)) as [-> |]; naive_solver.
    + rewrite lookup_insert_ne by done. rewrite elem_of_app, list_elem_of_singleton.
      pose proof (wf_watch track s (inv_wf _ _ HI) _ db k' c1 E) as Hw. destruct (decide (c1 = c)) as [-> |]; naive_solver.
  - intros j k' Hj. cbn. rewrite elem_of_app, list_elem_of_singleton. naive_solver.
Qed.

Lemma wp_unwatch_key X c i k l cl s (Q : unit → server → Prop) : Inv X s → clients s !! c = Some cl → not_watcher c →
  c_watched_keys cl = (i, k) :: l →
  (∀ s', Inv X s' → clients s' !! c = Some (set_client_watched cl l) → Q tt s') → wp (unwatch_key c (i, k)) Q s.
Proof.
  intros HI Hc Hnw El HQ. assert ((i, k) ∈ c_watched_keys cl) as Hin by (rewrite El; set_solver).
  pose proof (wf_watch_nodup track s (inv_wf _ _ HI) c cl Hc) as Hnd. rewrite El in Hnd. apply NoDup_cons in Hnd as [Hnin Hnd].
  assert ((i < dbnum)%nat) as Hi by (rewrite <- (inv_dbs _ _ HI); by eapply wf_watch_db; [apply HI|..]).
  destruct (inv_db X s _ HI Hi) as (db & E & _). apply wp_bind, (wp_get_db _ db); [done|].
  pose proof (λ k c, wf_watch track s (inv_wf _ _ HI) i db k c E) as Hw. pose proof (proj2 (Hw k c) (ex_intro _ cl (conj Hc Hin))) as Hcin.
  destruct (db_watched_keys db !! k) as [cs|] eqn:Ecs; cbn in Hcin; [|by apply elem_of_nil in Hcin].
  destruct (wf_watchers track s (inv_wf _ _ HI) i db k cs E Ecs) as [Hcs _].
  destruct (del_node_spec c cs Hcs Hcin) as (cs' & -> & Hcs' & Hmem).
  set (wk := if bool_decide (cs' = []) then delete k (db_watched_keys db) else <[k := cs']> (db_watched_keys db)).
  assert (∀ k', default [] (wk !! k') = if decide (k' = k) then cs' else default [] (db_watched_keys db !! k')) as Ewk.
  { intros k'. unfold wk. case_bool_decide as Ee; destruct (decide (k' = k)) as [-> |Hne];
      rewrite ?lookup_delete_eq, ?lookup_insert_eq, ?lookup_delete_ne, ?lookup_insert_ne by done; done. }
  unfold wp, mbind, M_bind, put_db, get_client, put_client. cbn. rewrite Hc. cbn. rewrite El. cbn [tail].
  apply HQ; [|by apply lookup_insert_eq].
  eapply (inv_rewatch X s _ i db c cl wk (set_client_watched cl l)); try done.
  - intros Ht ->. by destruct (Hnw Ht).
  - intros k' l'. unfold wk. case_bool_decide as Ee.
    + intros (? & ?)%lookup_delete_Some. by eapply wf_watchers; [apply HI|..].
    + intros [(<- & <-)|(? & ?)]%lookup_insert_Some; [done|]. by eapply wf_watchers; [apply HI|..].
  - intros k' c1. rewrite Ewk. cbn [c_watched_keys set_client_watched].
    destruct (decide (k' = k)) as [-> |Hne]; [rewrite Hmem, Ecs; cbn; naive_solver|].
    destruct (decide (c1 = c)) as [-> |]; [|clear -n; tauto]. rewrite Hw. split.
    + intros (cl1 & H1 & H2). assert (cl1 = cl) as -> by congruence. right. split; [done|].
      rewrite El in H2. apply elem_of_cons in H2 as [[= ?]|?]; done.
    + intros [[? _]|[_ Hk']]; [done|]. exists cl. split; [done|]. rewrite El. by right.
  - intros j k' Hj. cbn. rewrite El, elem_of_cons. naive_solver.
Qed.

Lemma wp_unwatchAllKeys X c cl s (Q : unit → server → Prop) : Inv X s → clients s !! c = Some cl → not_watcher c →
  (∀ s', Inv X s' → clients s' !! c = Some (set_client_watched cl []) → Q tt s') → wp (unwatchAllKeys c) Q s.
Proof.
  intros HI Hc Hnw HQ. apply wp_bind, (wp_get_client c cl); [done|].
  apply (wp_foreach (λ l s', Inv X s' ∧ clients s' !! c = Some (set_client_watched cl l))).
  - split; [done|]. by destruct cl.
  - intros [i k] l s1 (HI1 & Hc1). by eapply wp_unwatch_key.
  - intros s1 (HI1 & Hc1). by apply HQ.
Qed.

(** ** The commands of multi.c *)

Lemma wp_put_other X s c cl cl' (Q : unit → server → Prop) :
  Inv X s → clients s !! c = Some cl → not_watcher c → c_watched_keys cl' = c_watched_keys cl → (c_db cl' < dbnum)%nat →
  Forall (queue_ok track) (c_mstate cl') →
  (∀ s', Inv X s' → dbs s' = dbs s → clients s' = <[c := cl']> (clients s) → Q tt s') → wp (put_client c cl') Q s.
Proof.
  intros HI Hc Hnw Ew Hdb Hq HQ. unfold wp, put_client. set (s' := mkServer _ _ _ _ _ _ _). apply (HQ s'); [|done..].
  pose proof HI as [Hwf Hn HC HW]. split; [by eapply wf_put_client; try done; rewrite Hn|done| |].
  - cbn. rewrite dom_insert_L, HC. pose proof (inv_in_clients _ _ _ _ HI Hc). set_solver.
  - intros Ht. destruct (HW Ht) as (cl0 & clw & H0 & H & E & Hk). exists cl0, clw. cbn [clients s'].
    rewrite lookup_insert_ne by by apply Hnw. split_and!; try done.
Qed.

Lemma discardTransaction_safe c cl s (Q : unit → server → Prop) : Inv ∅ s → clients s !! c = Some cl → not_watcher c →
  (∀ s' cl', Inv ∅ s' → clients s' !! c = Some cl' → Q tt s') → wp (discardTransaction c) Q s.
Proof.
  intros HI Hc Hnw HQ. apply wp_bind, (wp_get_client c cl); [done|].
  apply wp_bind, (wp_put_other ∅ s c cl); try done; [apply (inv_client_ok _ _ _ _ HI Hc)|].
  intros s1 HI1 _ Ec. eapply (wp_unwatchAllKeys ∅); [done|by rewrite Ec, lookup_insert_eq|done|]. intros. by eapply HQ.
Qed.
Lemma flagTransaction_safe c cl s (Q : unit → server → Prop) : Inv ∅ s → clients s !! c = Some cl →
  (∀ s', Inv ∅ s' → Q tt s') → wp (flagTransaction c) Q s.
Proof.
  intros HI Hc HQ. apply wp_bind, (wp_get_client c cl); [done|]. destruct (inv_client_ok _ _ _ _ HI Hc).
  apply (wp_put_client ∅ s c cl); try done. intros. by apply HQ.
Qed.
Lemma queueMultiCommand_safe c cmd cl s (Q : unit → server → Prop) : Inv ∅ s → clients s !! c = Some cl →
  queue_ok track (mkMultiCmd cmd (c_argv cl)) → (∀ s', Inv ∅ s' → Q tt s') → wp (queueMultiCommand c cmd) Q s.
Proof.
  intros HI Hc Hq HQ. apply wp_bind, (wp_get_client c cl); [done|]. destruct (inv_client_ok _ _ _ _ HI Hc).
  apply (wp_put_client ∅ s c cl); try done; [|by intros; apply HQ]. cbn. apply Forall_app. split; [done|]. by apply Forall_singleton.
Qed.
Lemma multiCommand_safe c cl s : Inv ∅ s → clients s !! c = Some cl → safe (multiCommand c) s.
Proof.
  intros HI Hc. apply wp_bind, (wp_get_client c cl); [done|]. case_if; [done|]. destruct (inv_client_ok _ _ _ _ HI Hc).
  apply wp_bind, (wp_put_client ∅ s c cl); try done.
Qed.
Lemma discardCommand_safe c cl s : Inv ∅ s → clients s !! c = Some cl → not_watcher c → safe (discardCommand c) s.
Proof.
  intros HI Hc Hnw. apply wp_bind, (wp_get_client c cl); [done|]. case_if; [done|].
  by apply wp_bind, (discardTransaction_safe c cl).
Qed.
Lemma watchCommand_safe c cl s : Inv ∅ s → clients s !! c = Some cl → safe (watchCommand c) s.
Proof.
  intros HI Hc. apply wp_bind, (wp_get_client c cl); [done|]. case_if; [done|].
  apply wp_bind, (wp_foreach (λ _ s', Inv ∅ s' ∧ ∃ cl', clients s' !! c = Some cl')); [by split; [|exists cl]| |by intros s1 [? _]].
  intros k l s1 (HI1 & cl1 & Hc1). eapply wp_watchForKey; try done. intros s2 cl2 HI2 Hc2. split; [done|]. by exists cl2.
Qed.
Lemma unwatchCommand_safe c cl s : Inv ∅ s → clients s !! c = Some cl → not_watcher c → safe (unwatchCommand c) s.
Proof.
  intros HI Hc Hnw. apply wp_bind, (wp_unwatchAllKeys ∅ c cl); [done..|]. intros s1 HI1 Hc1.
  apply wp_bind. eapply wp_get_client; [done|]. destruct (inv_client_ok _ _ _ _ HI1 Hc1).
  apply wp_bind. eapply (wp_put_other ∅); try done.
Qed.

(** ** Calls *)

Definition unwatches (cmd : command) : bool := match cmd with CUnwatch | CDiscard | CExec => true | _ => false end.
Definition allowed (cmd : command) (c : Z) : Prop := track = true → silent cmd = false ∧ (unwatches cmd = true → c ≠ watcher).

Lemma proc_safe cmd c cl s : Inv ∅ s → clients s !! c = Some cl → argc_ok cmd (length (c_argv cl)) → Forall arg_ok (c_argv cl) →
  cmd ≠ CExec → allowed cmd c → safe (proc clock cmd c) s.
Proof.
  intros HI Hc Hargc Hargs Hne Hal.
  assert (unwatches cmd = true → not_watcher c) as Hnw by (intros Hr Ht; by apply (proj2 (Hal Ht))).
  assert (silent cmd = true → track = false) as Hsil.
  { intros Hs. apply not_true_is_false. intros Ht. destruct (Hal Ht) as [? _]. congruence. }
  assert (0 ≤ 0 ≤ time_limit) as Hz by done.
  destruct cmd; try done.
  - exact (getCommand_safe c cl s HI Hc Hargc Hargs).
  - exact (setCommand_safe c cl s HI Hc Hargc Hargs).
  - exact (setnxCommand_safe c cl s HI Hc Hargc Hargs).
  - exact (setex_safe UNIT_SECONDS c cl s HI Hc Hargc Hargs).
  - exact (setex_safe UNIT_MILLISECONDS c cl s HI Hc Hargc Hargs).
  - exact (appendCommand_safe c cl s HI Hc Hargc Hargs).
  - exact (strlenCommand_safe c cl s HI Hc Hargc Hargs).
  - exact (delCommand_safe c cl s HI Hc Hargc Hargs).
  - exact (existsCommand_safe c cl s HI Hc Hargc Hargs).
  - exact (setrangeCommand_safe c cl s HI Hc Hargc Hargs).
  - exact (getrangeCommand_safe c cl s HI Hc Hargc Hargs).
  - exact (incr_by_safe 1 ltac:(done) c cl s HI Hc Hargc Hargs).
  - exact (incr_by_safe (-1) ltac:(done) c cl s HI Hc Hargc Hargs).
  - exact (mgetCommand_safe c cl s HI Hc Hargc Hargs).
  - exact (incrbyCommand_safe c cl s HI Hc Hargc Hargs).
  - exact (decrbyCommand_safe c cl s HI Hc Hargc Hargs).
  - exact (getsetCommand_safe c cl s HI Hc Hargc Hargs).
  - exact (msetGenericCommand_safe false c cl s HI Hc Hargc Hargs).
  - exact (msetGenericCommand_safe true c cl s HI Hc Hargc Hargs).
  - exact (selectCommand_safe c cl s HI Hc Hargc Hargs).
  - exact (moveCommand_safe (Hsil eq_refl) c cl s HI Hc Hargc Hargs).
  - exact (renameGenericCommand_safe false c cl s HI Hc Hargc Hargs).
  - exact (renameGenericCommand_safe true c cl s HI Hc Hargc Hargs).
  - exact (expire_now_safe UNIT_SECONDS c cl s HI Hc Hargc Hargs).
  - exact (expireGenericCommand_safe 0 UNIT_SECONDS Hz c cl s HI Hc Hargc Hargs).
  - exact (expire_now_safe UNIT_MILLISECONDS c cl s HI Hc Hargc Hargs).
  - exact (expireGenericCommand_safe 0 UNIT_MILLISECONDS Hz c cl s HI Hc Hargc Hargs).
  - exact (dbsizeCommand_safe c cl s HI Hc Hargc Hargs).
  - exact (typeCommand_safe c cl s HI Hc Hargc Hargs).
  - exact (multiCommand_safe c cl s HI Hc).
  - exact (discardCommand_safe c cl s HI Hc (Hnw eq_refl)).
  - exact (flushdbCommand_safe c cl s HI Hc Hargc Hargs).
  - exact (flushallCommand_safe c cl s HI Hc Hargc Hargs).
  - exact (ttlGenericCommand_safe false c cl s HI Hc Hargc Hargs).
  - exact (ttlGenericCommand_safe true c cl s HI Hc Hargc Hargs).
  - exact (persistCommand_safe (Hsil eq_refl) c cl s HI Hc Hargc Hargs).
  - exact (watchCommand_safe c cl s HI Hc).
  - exact (unwatchCommand_safe c cl s HI Hc (Hnw eq_refl)).
Qed.

Lemma call_with_safe (p : Z → M reply) c s : c ∈ members → safe (p c) s → safe (call_with p c) s.
Proof.
  intros Hc Hp. apply wp_bind, wp_get. cbv zeta. apply wp_bind. eapply wp_mono; [done|]. intros r s1 HI1.
  apply wp_bind, wp_get. destruct (inv_client ∅ s1 c HI1 Hc) as (cl & E). apply wp_bind, (wp_get_client c cl); [done|].
  apply wp_bind. case_if; [|by apply wp_ret, wp_ret]. apply (wp_propagate ∅); [done|]. intros. by apply wp_ret.
Qed.

Lemma exec_loop_safe c cmds mp s : Inv ∅ s → c ∈ members → not_watcher c → Forall (queue_ok track) cmds →
  wp (exec_loop clock c cmds mp) (λ _ s', Inv ∅ s') s.
Proof.
  intros HI Hc Hnw Hq. revert mp s HI. induction Hq as [|mc cmds (Hmq & Hargc & Hargs & Hsil) Hq IH]; intros mp s HI; [done|].
  cbn [exec_loop]. destruct (inv_client ∅ s c HI Hc) as (cl & E). apply wp_bind, (wp_get_client c cl); [done|].
  destruct (inv_client_ok _ _ _ _ HI E) as [Hdb Hms].
  apply wp_bind, (wp_put_client ∅ s c cl); try done. intros s1 HI1 _ Ec1.
  assert (clients s1 !! c = Some (set_argv cl (mc_argv mc))) as E1 by by rewrite Ec1, lookup_insert_eq.
  apply wp_bind. apply (wp_mono _ (λ _ s', Inv ∅ s' ∧ clients s' = clients s1)).
  { case_if; [|done]. apply wp_bind. eapply wp_get_client; [done|]. by apply (wp_propagate ∅). }
  intros _ s2 (HI2 & Ec2). apply wp_bind. eapply wp_mono.
  { apply call_with_safe; [done|]. eapply (proc_safe (mc_cmd mc) c (set_argv cl (mc_argv mc))); try done; [by rewrite Ec2| |].
    - intros Em. by rewrite Em in Hmq.
    - intros Ht. split; [by apply Hsil|]. intros _. by apply Hnw. }
  intros r s3 HI3. apply wp_bind. eapply wp_mono; [by apply IH|]. by intros [l mp'] s4 HI4.
Qed.

Lemma execCommand_safe c cl s : Inv ∅ s → clients s !! c = Some cl → not_watcher c → safe (execCommand clock c) s.
Proof.
  intros HI Hc Hnw. pose proof (inv_in_clients _ _ _ _ HI Hc) as Hm. apply wp_bind, (wp_get_client c cl); [done|].
  case_if; [done|]. case_if; [by apply wp_bind, (discardTransaction_safe c cl)|].
  apply wp_bind, (wp_unwatchAllKeys ∅ c cl); [done..|]. intros s1 HI1 Hc1. cbv zeta. apply wp_bind. eapply wp_mono.
  { apply exec_loop_safe; try done. apply (inv_client_ok _ _ _ _ HI Hc). }
  intros [l mp] s2 HI2. destruct (inv_client ∅ s2 c HI2 Hm) as (cl2 & E2). apply wp_bind, (wp_get_client c cl2); [done|].
  destruct (inv_client_ok _ _ _ _ HI2 E2). apply wp_bind, (wp_put_client ∅ s2 c cl2); try done. intros s3 HI3 _ Ec3.
  apply wp_bind. eapply discardTransaction_safe; [done|by rewrite Ec3, lookup_insert_eq|done|]. intros s4 cl4 HI4 _.
  apply wp_bind. case_if; [|by apply wp_ret, wp_ret]. apply (wp_add_dirty ∅); [done|]. intros. by apply wp_ret.
Qed.

(** ** Requests *)

Lemma lookup_in_table table name cmd arity ro : lookup_in table name = Some (cmd, arity, ro) → ∃ n, (n, cmd, arity, ro) ∈ table.
Proof.
  induction table as [|[[[n c] a] r] table IH]; [done|]. cbn [lookup_in]. case_bool_decide.
  - intros [= <- <- <-]. exists n. by left.
  - intros (n' & Hn')%IH. exists n'. by right.
Qed.
Lemma lookupCommand_argc name cmd arity ro (argv : list (list Z)) : lookupCommand name = Some (cmd, arity, ro) →
  ((0 <? arity) && negb (arity =? zlen argv)) || (zlen argv <? - arity) = false → argc_ok cmd (length argv).
Proof.
  intros (n & Hn)%lookup_in_table. unfold zlen. revert Hn. generalize (length argv). intros m Hin.
  assert (Forall (λ '(_, cmd, arity, _), ((0 <? arity) && negb (arity =? Z.of_nat m)) || (Z.of_nat m <? - arity) = false → argc_ok cmd m)
    redisCommandTable) as Hall; [|rewrite list.Forall_forall in Hall; exact (Hall _ Hin)].
  clear. unfold redisCommandTable. repeat (apply Forall_cons_2; [cbv beta iota; cbn [argc_ok]; lia|]). apply Forall_nil_2.
Qed.

Lemma call_safe cmd c cl s : Inv ∅ s → clients s !! c = Some cl → argc_ok cmd (length (c_argv cl)) → Forall arg_ok (c_argv cl) →
  allowed cmd c → safe (call clock cmd c) s.
Proof.
  intros HI Hc Hargc Hargs Hal. apply call_with_safe; [by eapply inv_in_clients|].
  destruct (decide (cmd = CExec)) as [-> |Hne].
  - apply (execCommand_safe c cl); try done. intros Ht. by apply (proj2 (Hal Ht)).
  - destruct cmd; try done; by apply (proc_safe _ c cl).
Qed.

Lemma processCommand_safe c cl s : Inv ∅ s → clients s !! c = Some cl → c_argv cl ≠ [] → Forall arg_ok (c_argv cl) →
  (∀ name cmd arity ro, head (c_argv cl) = Some name → lookupCommand name = Some (cmd, arity, ro) →
    track = true → silent cmd = false ∧ (c = watcher → unwatches cmd = true → f_multi cl && queued cmd = true)) →
  wp (processCommand clock c) (λ _ s', Inv ∅ s') s.
Proof.
  intros HI Hc Hne Hargs Hal. apply wp_bind, (wp_get_client c cl); [done|].
  destruct (c_argv cl) as [|name args] eqn:Ea; [done|]. case_bool_decide; [done|].
  destruct (lookupCommand name) as [[[cmd arity] ro]|] eqn:El.
  2: { apply wp_bind, (flagTransaction_safe c cl); [done..|]. by intros. }
  destruct (_ || _) eqn:Earity; [apply wp_bind, (flagTransaction_safe c cl); [done..|]; by intros|].
  apply (lookupCommand_argc name cmd arity ro) in Earity; [|done]. rewrite <- Ea in Earity, Hargs.
  specialize (Hal name cmd arity ro eq_refl El). apply wp_bind, wp_get.
  destruct (denied (conf s) cmd) as [[flag e]|].
  { apply wp_bind. destruct flag; [apply (flagTransaction_safe c cl); [done..|]; by intros|by apply wp_ret]. }
  destruct (f_multi cl && queued cmd) eqn:Eq.
  - apply wp_bind, (queueMultiCommand_safe c cmd cl); [done..| |by intros]. split_and!; try done; [|by intros [? _]%Hal].
    apply andb_prop in Eq as [_ Eq]. by destruct cmd.
  - apply wp_bind. apply (wp_mono _ (λ _ s', Inv ∅ s')); [|by intros]. eapply call_safe; try done. intros Ht.
    destruct (Hal Ht) as [? Hw]. split; [done|]. intros Hr ->. by specialize (Hw eq_refl Hr).
Qed.

End multi.
