(* ===== verification/ServerSpec.v ===== *)
(** * ServerSpec: properties of the server that executes requests

    No reachable state and no request make an assertion fail, and a transaction
    whose watched keys were changed is not executed.  The commands that break this
    are shown with executions. *)

From stdpp Require Import gmap.
From S2P Require Import Prelude Objects Strto Sds Keyspace KeyspaceFacts Commands CommandsSafe Multi MultiSpec.

(** ** Events *)

Record ok (strict : bool) (w : Z) (s0 : server) (tmax : Z) (s : server) : Prop := {
  ok_wf : wf strict s;
  ok_dbs : dbs s ≠ [];
  ok_watching : strict = true → watching w s0 tmax ∅ s
}.

(** [strict]: the keys of the client [w] are followed; the request is not one with
    which it stops to watch, and not one that is known not to tell it. *)
Definition request_ok (strict : bool) (w c : Z) (argv : list (list Z)) : Prop :=
  argv ≠ [] ∧ Forall arg_ok argv ∧
  (strict = true → ∀ name cmd arity ro, head argv = Some name → lookupCommand name = Some (cmd, arity, ro) →
    silent cmd = false ∧ (c = w → unwatches cmd = false)).
Definition event_ok (strict : bool) (w tmax : Z) (s : server) (ev : event) : Prop :=
  match ev with
  | EConnect c => clients s !! c = None
  | EClose c => is_Some (clients s !! c) ∧ (strict = true → c ≠ w)
  | ERequest c argv => is_Some (clients s !! c) ∧ request_ok strict w c argv
  | EExpireKey i k now => (i < length (dbs s))%nat ∧ now ≤ tmax
  end.

Section step.
Context (strict : bool) (w : Z) (s0 : server) (tmax : Z) (clock : nat → Z) (Hclock : clock_ok clock) (Htmax : ∀ m, clock m ≤ tmax).

Definition setting_of (s : server) : Setting :=
  mkSetting strict w s0 tmax (length (dbs s)) (dom (clients s)) clock Hclock Htmax.

Lemma ok_inv s : ok strict w s0 tmax s → Inv (ST := setting_of s) ∅ s.
Proof. intros [Hwf Hd Hw]. by split. Qed.
Lemma inv_ok s s' : dbs s ≠ [] → Inv (ST := setting_of s) ∅ s' → ok strict w s0 tmax s'.
Proof. intros Hd [Hwf Hn HC HW]. split; try done. cbn in Hn. intros E. by rewrite E in Hn; destruct (dbs s). Qed.

Lemma connect_ok c s : ok strict w s0 tmax s → clients s !! c = None → wp (createClient c) (λ _ s', ok strict w s0 tmax s') s.
Proof.
  intros [Hwf Hd Hw] Hc. unfold wp, createClient, put_client. set (cl := mkClient _ _ _ _ _ _ _).
  assert (∀ c1 cl1, <[c := cl]> (clients s) !! c1 = Some cl1 → cl1 = cl ∨ clients s !! c1 = Some cl1) as Hlk.
  { intros c1 cl1 [(<- & <-)|(? & ?)]%lookup_insert_Some; [by left|by right]. }
  split; [split|done|]; cbn [dbs clients lua_time].
  - apply Hwf.
  - apply Hwf.
  - intros c1 cl1 [-> |?]%Hlk; [|by eapply wf_client_db]. cbn. destruct (dbs s); [done|cbn; lia].
  - intros c1 cl1 [-> |?]%Hlk; [constructor|by eapply wf_client_queue].
  - intros c1 cl1 [-> |?]%Hlk; [constructor|by eapply wf_watch_nodup].
  - intros c1 cl1 i k [-> |?]%Hlk; [by intros ?%elem_of_nil|by eapply wf_watch_db].
  - apply Hwf.
  - intros i db k c1 Hi. rewrite (wf_watch strict s Hwf i db k c1 Hi). split; intros (cl1 & H1 & Hin).
    + exists cl1. split; [|done]. rewrite lookup_insert_ne; [done|]. intros ->. congruence.
    + apply Hlk in H1 as [-> |?]; [by apply elem_of_nil in Hin|by exists cl1].
  - intros Ht. destruct (Hw Ht) as (cl0 & clw & H0 & H & E & Hk). exists cl0, clw. cbn [clients].
    rewrite lookup_insert_ne by congruence. by split_and!.
Qed.

Lemma close_ok c s : ok strict w s0 tmax s → is_Some (clients s !! c) → (strict = true → c ≠ w) →
  wp (freeClient c) (λ _ s', ok strict w s0 tmax s') s.
Proof using Hclock Htmax.
  intros Hok [cl Hc] Hnw. pose (ST := setting_of s). pose proof (ok_inv s Hok) as HI.
  apply wp_bind, (wp_unwatchAllKeys ∅ c cl); [done..|]. intros s1 HI1 Hc1. apply wp_bind, wp_get.
  unfold wp, put_clients. apply (inv_ok s s1) in HI1; [|apply Hok]. destruct HI1 as [Hwf Hd Hw].
  assert (∀ c1 cl1, delete c (clients s1) !! c1 = Some cl1 → clients s1 !! c1 = Some cl1) as Hlk by by intros c1 cl1 [? ?]%lookup_delete_Some.
  split; [split|done|]; cbn [dbs clients lua_time]; try apply Hwf.
  - intros c1 cl1 ?%Hlk. by eapply wf_client_db.
  - intros c1 cl1 ?%Hlk. by eapply wf_client_queue.
  - intros c1 cl1 ?%Hlk. by eapply wf_watch_nodup.
  - intros c1 cl1 i k ?%Hlk. by eapply wf_watch_db.
  - intros i db k c1 Hi. rewrite (wf_watch strict s1 Hwf i db k c1 Hi). split; intros (cl1 & H1 & Hin).
    + exists cl1. split; [|done]. rewrite lookup_delete_ne; [done|]. intros ->. simplify_eq. by apply elem_of_nil in Hin.
    + exists cl1. by split; [apply Hlk|].
  - intros Ht. destruct (Hw Ht) as (cl0 & clw & H0 & H & E & Hk). exists cl0, clw. cbn [clients].
    rewrite lookup_delete_ne by by apply Hnw. by split_and!.
Qed.

Lemma request_step_ok c argv s : ok strict w s0 tmax s → is_Some (clients s !! c) → request_ok strict w c argv →
  wp (step clock (ERequest c argv)) (λ _ s', ok strict w s0 tmax s') s.
Proof using Hclock Htmax.
  intros Hok [cl Hc] (Hne & Hargs & Hal). pose (ST := setting_of s). pose proof (ok_inv s Hok) as HI.
  apply wp_bind, (wp_get_client c cl); [done|]. destruct (inv_client_ok _ _ _ _ HI Hc).
  apply wp_bind, (wp_put_client ∅ s c cl); try done. intros s1 HI1 _ Ec1.
  eapply wp_mono; [|intros r s2; apply inv_ok, Hok].
  apply (processCommand_safe c (set_argv cl argv) s1 HI1); [by rewrite Ec1, lookup_insert_eq|exact Hne|exact Hargs|].
  intros name cmd arity ro Hname Hcmd Ht. destruct (Hal Ht name cmd arity ro Hname Hcmd) as [? Hw]. split; [done|].
  intros ->. rewrite (Hw eq_refl). done.
Qed.

Lemma step_ok ev s : ok strict w s0 tmax s → event_ok strict w tmax s ev → wp (step clock ev) (λ _ s', ok strict w s0 tmax s') s.
Proof using Hclock Htmax.
  intros Hok Hev. destruct ev as [c|c|c argv|i k now]; cbn [event_ok] in Hev.
  - apply wp_bind. eapply wp_mono; [by apply connect_ok|]. done.
  - apply wp_bind. destruct Hev. eapply wp_mono; [by apply close_ok|]. done.
  - destruct Hev. by apply request_step_ok.
  - destruct Hev as [Hi Hnow]. pose (ST := setting_of s). apply wp_bind, (wp_activeExpireCycleTryExpire ∅); [by apply ok_inv|done..|].
    intros b s' HI' _ _. apply wp_ret. by apply (inv_ok s); [apply Hok|].
Qed.

End step.

#[global] Instance arg_ok_dec a : Decision (arg_ok a).
Proof.
  destruct (decide (zlen a ≤ 512 * 1024 * 1024 ∧
    match getLongLongFromObject (Some (ObjStr a)) with Some v => bool_decide (- time_limit ≤ v ≤ time_limit) | None => true end = true)) as [H|H].
  - left. destruct H as [Hl Hv]. split; [done|]. intros v Ev. rewrite Ev in Hv. by apply bool_decide_eq_true in Hv.
  - right. intros [Hl Hv]. apply H. split; [done|]. destruct (getLongLongFromObject _) as [v|]; [|done]. by apply bool_decide_eq_true, Hv.
Defined.

(** A master in good order *)
Definition master : config := mkConfig false false true false false false false.

(** ** Reachable states *)

Inductive reachable : server → Prop :=
  | reachable_initial n cf : (0 < n)%nat → reachable (initial n cf)
  | reachable_step s clock ev r s' : reachable s → clock_ok clock → event_ok false 0 time_limit s ev →
      step clock ev s = Some (r, s') → reachable s'.

Lemma initial_wf strict n cf : (0 < n)%nat → wf strict (initial n cf).
Proof.
  intros Hn. split; cbn [dbs clients lua_time initial]; try (intros *; rewrite lookup_empty; done); try done.
  - intros i db [-> _]%lookup_replicate. split; cbn; intros *; by rewrite lookup_empty.
  - intros i db k l' [-> _]%lookup_replicate. cbn. by rewrite lookup_empty.
  - intros i db k c [-> _]%lookup_replicate. cbn. rewrite lookup_empty. split; [by intros ?%elem_of_nil|].
    intros (cl & H & _). by rewrite lookup_empty in H.
Qed.
Lemma clock_ok_limit clock : clock_ok clock → ∀ m, clock m ≤ time_limit.
Proof. intros H m. apply H. Qed.
Lemma reachable_ok s : reachable s → ok false 0 s time_limit s.
Proof.
  intros Hr. cut (∀ s0, ok false 0 s0 time_limit s); [auto|]. induction Hr as [n cf Hn|s clock ev r s' Hr IH Hclock Hev Hstep]; intros s0.
  - split; [by apply initial_wf| |done]. cbn. by destruct n; [lia|].
  - pose proof (step_ok false 0 s0 time_limit clock Hclock (clock_ok_limit clock Hclock) ev s (IH s0) Hev) as H.
    unfold wp in H. by rewrite Hstep in H.
Qed.

(** C3. The server never fails an assertion of the keyspace, of the expires or of
    the watched keys: in every state reached from the start by connections,
    disconnections, requests of any clients (transactions included) with whatever
    readings of the clock, and by the expire cycle, every further event is handled,
    as long as integers that are arguments are far from the limits of their type;
    and the invariant of the keyspace holds in every such state: expires belong to
    existing keys, and the lists of watching clients agree with the clients. *)
Theorem server_safe s clock ev :
  reachable s → clock_ok clock → event_ok false 0 time_limit s ev →
  wf false s ∧ ∃ r s', step clock ev s = Some (r, s') ∧ wf false s'.
Proof.
  intros Hr Hclock Hev. pose proof (reachable_ok s Hr) as Hok. split; [apply Hok|].
  pose proof (step_ok false 0 s time_limit clock Hclock (clock_ok_limit clock Hclock) ev s Hok Hev) as H.
  unfold wp in H. destruct (step clock ev s) as [[r s']|]; [|done]. exists r, s'. split; [done|apply H].
Qed.
(** ** Watched keys *)

(** Events after which the client [w] still watches its keys: it may watch more of
    them, but no EXEC, DISCARD or UNWATCH of it, and no disconnection, is between *)
Inductive events (w tmax : Z) : server → server → Prop :=
  | events_none s : events w tmax s s
  | events_more s1 s2 clock ev r s3 : events w tmax s1 s2 → clock_ok clock → (∀ m, clock m ≤ tmax) →
      event_ok true w tmax s2 ev → step clock ev s2 = Some (r, s3) → events w tmax s1 s3.

Lemma events_ok w tmax s0 s cl0 : wf true s0 → dbs s0 ≠ [] → clients s0 !! w = Some cl0 →
  events w tmax s0 s → ok true w s0 tmax s.
Proof.
  intros Hwf Hd Hw He. induction He as [s|s1 s2 clock ev r s3 He IH Hclock Hmax Hev Hstep].
  - split; try done. intros _. exists cl0, cl0. split_and!; try done. intros Hc. split; [done|]. intros i k _ _. by left.
  - pose proof (step_ok true w s1 tmax clock Hclock Hmax ev s2 (IH Hwf Hd Hw) Hev) as H. unfold wp in H. by rewrite Hstep in H.
Qed.

(** EXEC executes the commands only if the client was not told. *)
Lemma exec_not_told clock w cl s r s' : clients s !! w = Some cl →
  step clock (ERequest w [str "EXEC"]) s = Some (Some (RMulti r), s') → f_dirty_cas cl = false.
Proof.
  intros Hc Hstep. destruct (f_dirty_cas cl) eqn:Ed; [|done]. exfalso. revert Hstep.
  unfold step, mbind, M_bind, get_client, put_client. rewrite Hc. cbn [mbind option_bind].
  unfold processCommand, mbind, M_bind, get_client, get. cbn [clients]. rewrite lookup_insert_eq. cbn [mbind option_bind set_argv c_argv].
  change (bool_decide (str "quit" = tolower <$> str "EXEC")) with false. change (lookupCommand (str "EXEC")) with (Some (CExec, 1, false)).
  cbv iota beta. change ((0 <? 1) && negb (1 =? zlen [str "EXEC"]) || (zlen [str "EXEC"] <? - (1))) with false.
  cbn [conf]. destruct (denied (conf s) CExec) as [[flag e]|].
  { destruct flag; unfold flagTransaction, mbind, M_bind, get_client, put_client, ret, mret, M_ret; cbn; [rewrite lookup_insert_eq; cbn|]; done. }
  cbn [queued]. rewrite andb_false_r.
  unfold call, call_with, execCommand, mbind, M_bind, get, get_client. cbn [clients]. rewrite lookup_insert_eq. cbn [mbind option_bind set_argv f_multi f_dirty_cas f_dirty_exec dirty].
  destruct (f_multi cl); cbn [negb].
  - rewrite Ed. cbn [orb]. destruct (discardTransaction w _) as [[[] s1]|]; [|done].
    unfold ret, mret, M_ret, propagate. destruct (clients s1 !! w) as [cl1|]; cbn; [|done]. by destruct (_ <? _), (f_dirty_exec cl).
  - unfold ret, mret, M_ret. cbn [clients dirty]. rewrite lookup_insert_eq, Z.ltb_irrefl. done.
Qed.

(** C8. Transactions are optimistic: when EXEC executes the commands that a client
    has queued, every key that the client watched in an earlier state [s0] has the
    value and the expire time it had in [s0], or was removed after its expire time;
    whatever happened between [s0] and EXEC: requests of the other clients, in
    transactions or without, expirations, connections, and requests of the client
    itself, which may WATCH further keys.  Excluded are MOVE and PERSIST, which do
    not tell the watching clients (nobody calls them after [s0] and no transaction
    that is open in [s0] has queued them), and, for the client itself, what ends its
    watch: UNWATCH, DISCARD, another EXEC and a disconnection. *)
Theorem watch_atomic w tmax s0 cl0 s clock replies s' i k :
  reachable s0 →
  (∀ c cl mc, clients s0 !! c = Some cl → mc ∈ c_mstate cl → silent (mc_cmd mc) = false) →
  clients s0 !! w = Some cl0 → (i, k) ∈ c_watched_keys cl0 →
  events w tmax s0 s →
  step clock (ERequest w [str "EXEC"]) s = Some (Some (RMulti replies), s') →
  kept s0 tmax s i k.
Proof.
  intros Hr Hq Hw Hin He Hexec. pose proof (reachable_ok s0 Hr) as [Hwf Hd _].
  assert (wf true s0) as Hwf'.
  { split; try apply Hwf. intros c cl Hcl. pose proof (wf_client_queue _ _ Hwf c cl Hcl) as Hqs.
    rewrite list.Forall_forall in Hqs |- *. intros mc Hmc. destruct (Hqs mc Hmc) as (? & ? & ? & _). split_and!; try done.
    intros _. by eapply Hq. }
  destruct (events_ok w tmax s0 s cl0 Hwf' Hd Hw He) as [_ _ HW].
  destruct (HW eq_refl) as (cl0' & cl & H0 & Hcl & E & Hk). assert (cl0' = cl0) as -> by congruence.
  destruct (Hk (exec_not_told clock w cl s replies s' Hcl Hexec)) as [_ Hkept]. apply Hkept; [done|]. set_solver.
Qed.

(** ** Executions *)

Definition request_okb (strict : bool) (w c : Z) (argv : list (list Z)) : bool :=
  bool_decide (argv ≠ []) && bool_decide (Forall arg_ok argv) &&
  (negb strict ||
   match head argv ≫= lookupCommand with
   | Some (cmd, _, _) => negb (silent cmd) && (negb (c =? w) || negb (unwatches cmd))
   | None => true
   end).
Definition event_okb (strict : bool) (w tmax : Z) (s : server) (ev : event) : bool :=
  match ev with
  | EConnect c => bool_decide (clients s !! c = None)
  | EClose c => bool_decide (is_Some (clients s !! c)) && (negb strict || negb (c =? w))
  | ERequest c argv => bool_decide (is_Some (clients s !! c)) && request_okb strict w c argv
  | EExpireKey i k now => bool_decide (i < length (dbs s))%nat && (now <=? tmax)
  end.
Lemma event_okb_ok strict w tmax s ev : event_okb strict w tmax s ev = true → event_ok strict w tmax s ev.
Proof.
  destruct ev as [c|c|c argv|i k now]; cbn [event_okb event_ok]; intros H.
  - by apply bool_decide_eq_true in H.
  - apply andb_prop in H as [H1%bool_decide_eq_true H2]. split; [done|]. intros ->. cbn in H2. lia.
  - apply andb_prop in H as [H1%bool_decide_eq_true H2]. split; [done|]. unfold request_okb in H2.
    apply andb_prop in H2 as [[H2%bool_decide_eq_true H3%bool_decide_eq_true]%andb_prop H4]. split_and!; try done.
    intros -> name cmd arity ro Hn Hcmd. rewrite Hn in H4. cbn [mbind option_bind negb orb] in H4. rewrite Hcmd in H4.
    destruct (silent cmd), (unwatches cmd); cbn in H4; try done; split; try done; lia.
  - apply andb_prop in H as [H1%bool_decide_eq_true H2]. lia.
Qed.

(** Events with the times at which they happen *)
Fixpoint run (strict : bool) (w tmax : Z) (l : list (Z * event)) (s : server) : option (list (option reply) * server) :=
  match l with
  | [] => Some ([], s)
  | (t, ev) :: l =>
      if (0 <=? t) && (t <=? tmax) && (tmax <=? time_limit) && event_okb strict w tmax s ev then
        '(r, s) ← step (λ _, t) ev s; '(rs, s) ← run strict w tmax l s; Some (r :: rs, s)
      else None
  end.
Definition final (strict : bool) (w tmax : Z) (l : list (Z * event)) (s : server) : server :=
  from_option snd s (run strict w tmax l s).

Lemma run_cons strict w tmax t ev l s rs s' : run strict w tmax ((t, ev) :: l) s = Some (rs, s') →
  ∃ r s1 rs1, clock_ok (λ _, t) ∧ t ≤ tmax ∧ event_ok strict w tmax s ev ∧ step (λ _, t) ev s = Some (r, s1) ∧ run strict w tmax l s1 = Some (rs1, s').
Proof.
  cbn [run]. destruct (_ && _) eqn:E; [|done]. apply andb_prop in E as [E Hev%event_okb_ok].
  destruct (step (λ _, t) ev s) as [[r s1]|]; [|done]. cbn [mbind option_bind].
  destruct (run strict w tmax l s1) as [[rs1 s2]|] eqn:Er; [|done]. cbn. intros [= <- <-].
  exists r, s1, rs1. split_and!; try done; [|lia]. intros m. lia.
Qed.
Lemma run_reachable l s rs s' : run false 0 time_limit l s = Some (rs, s') → reachable s → reachable s'.
Proof.
  revert s rs. induction l as [|[t ev] l IH]; intros s rs.
  - by intros [= _ <-].
  - intros (r & s1 & rs1 & Hc & _ & Hev & Hst & Hrun)%run_cons Hs. eapply IH; [done|]. by eapply reachable_step.
Qed.
Lemma run_events w tmax l s0 s rs s' : events w tmax s0 s → run true w tmax l s = Some (rs, s') → events w tmax s0 s'.
Proof.
  revert s rs. induction l as [|[t ev] l IH]; intros s rs Hs.
  - by intros [= _ <-].
  - intros (r & s1 & rs1 & Hc & Ht & Hev & Hst & Hrun)%run_cons. eapply IH; [|done]. by eapply events_more.
Qed.

Definition req (c : Z) (argv : list string) : event := ERequest c (str <$> argv).
(** Client 1 watches the key [k] that expires at time 600; client 2 connects. *)
Definition demo_start : list (Z * event) :=
  [(100, EConnect 1); (100, EConnect 2); (100, req 1 ["PSETEX"; "k"; "500"; "12"]%string); (110, req 1 ["watch"; "k"]%string)].
Definition demo0 : server := final false 0 time_limit demo_start (initial 2 master).
Definition demo_work : list (Z * event) :=
  [(120, req 2 ["SET"; "other"; "x"]%string); (125, req 1 ["WATCH"; "other"]%string); (130, req 1 ["MULTI"]%string); (130, req 1 ["INCR"; "k"]%string); (140, req 2 ["GET"; "k"]%string)].
Definition demo2 : server := final false 0 time_limit demo_work demo0.
Definition demo1 : server := final true 1 1000 demo_work demo0.

Lemma demo0_reachable : reachable demo0.
Proof.
  apply (run_reachable demo_start (initial 2 master) [None; None; Some ROk; Some ROk]).
  - vm_compute. reflexivity.
  - by apply reachable_initial; lia.
Qed.

(** Client 1 calls EXEC with a queued INCR, a watched key and an expire time. *)
Lemma server_safe_witness : wf false demo2 ∧ ∃ r s', step (λ _, 150) (req 1 ["EXEC"]%string) demo2 = Some (r, s') ∧ wf false s'.
Proof.
  refine (server_safe demo2 (λ _, 150) (req 1 ["EXEC"]%string) _ _ _).
  - apply (run_reachable demo_work demo0 [Some ROk; Some ROk; Some ROk; Some RQueued; Some (RBulk (str "12"))]); [vm_compute; reflexivity|exact demo0_reachable].
  - intros m. by_decision.
  - apply event_okb_ok. vm_compute. reflexivity.
Defined.

Lemma watch_atomic_witness : kept demo0 1000 demo1 0 (str "k").
Proof.
  refine (watch_atomic 1 1000 demo0 (mkClient 0 [str "watch"; str "k"] false false false [] [(0%nat, str "k")]) demo1 (λ _, 150) [RInt 13]
    (from_option snd demo1 (step (λ _, 150) (ERequest 1 [str "EXEC"]) demo1)) 0 (str "k") demo0_reachable _ _ _ _ _).
  - intros c cl mc Hcl Hmc. assert (map_Forall (λ _ cl, c_mstate cl = []) (clients demo0)) as Hall by by_decision.
    rewrite (Hall c cl Hcl) in Hmc. destruct (not_elem_of_nil mc Hmc).
  - vm_compute. reflexivity.
  - by left.
  - apply (run_events 1 1000 demo_work demo0 demo0 [Some ROk; Some ROk; Some ROk; Some RQueued; Some (RBulk (str "12"))]); [constructor|].
    vm_compute. reflexivity.
  - vm_compute. reflexivity.
Defined.

(** ** Where the code falls short *)

Definition replies_of (l : list (Z * event)) : option (list (option reply)) :=
  fst <$> run false 0 time_limit l (initial 2 master).

(** C34. MOVE and PERSIST change a key without telling the clients that watch it:
    the transaction of client 1 is executed although client 2 has moved the key
    away (or made it persistent) after client 1 began to watch it.  MOVE also
    drops the expire time of the key. *)
Theorem watch_missed :
  replies_of (demo_start ++ [(120, req 2 ["MOVE"; "k"; "1"]%string); (130, req 1 ["MULTI"]%string); (130, req 1 ["GET"; "k"]%string);
    (140, req 1 ["EXEC"]%string)])
  = Some [None; None; Some ROk; Some ROk; Some (RInt 1); Some ROk; Some RQueued; Some (RMulti [RNullBulk])] ∧
  replies_of (demo_start ++ [(120, req 2 ["PERSIST"; "k"]%string); (130, req 1 ["MULTI"]%string); (130, req 1 ["PTTL"; "k"]%string);
    (140, req 1 ["EXEC"]%string)])
  = Some [None; None; Some ROk; Some ROk; Some (RInt 1); Some ROk; Some RQueued; Some (RMulti [RInt (-1)])] ∧
  replies_of (demo_start ++ [(120, req 2 ["PTTL"; "k"]%string); (120, req 2 ["MOVE"; "k"; "1"]%string); (120, req 2 ["SELECT"; "1"]%string);
    (120, req 2 ["PTTL"; "k"]%string)])
  = Some [None; None; Some ROk; Some ROk; Some (RInt 480); Some (RInt 1); Some ROk; Some (RInt (-1))].
Proof. split_and!; vm_compute; reflexivity. Qed.

(** C33. PERSIST does not look at the time: a key whose expire time has passed, for
    which [lookupKeyRead] (with which GET and the other commands that read look their
    keys up) finds nothing and removes it, is kept for ever by PERSIST, with its value
    and without an expire time. *)
Theorem persist_resurrects clock s c cl name k db o when :
  clients s !! c = Some cl → c_argv cl = [name; k] → dbs s !! c_db cl = Some db →
  db_dict db !! k = Some o → db_expires db !! k = Some when → 0 ≤ when < clock (reads s) →
  loading s = false → masterhost s = false → lua_time s = None →
  (∃ s', lookupKeyRead clock (c_db cl) k s = Some (None, s')) ∧
  (∃ s', persistCommand c s = Some (RInt 1, s') ∧ entry s' (c_db cl) k = (Some o, None)).
Proof.
  intros Hc Ha E Ho Hw Ht Hl Hm Hlua. split.
  - unfold lookupKeyRead, expireIfNeeded, getExpire, get_db, lookupKey, mbind, M_bind. rewrite E. cbn [mbind option_bind]. rewrite Hw.
    rewrite bool_decide_true by (rewrite Ho; by eexists). cbn [assert]. unfold mbind, M_bind, ret, mret, M_ret, get. cbn.
    replace (when <? 0) with false by lia. rewrite Hl, Hlua. cbn. rewrite Hm.
    replace (clock (reads s) <=? when) with false by lia. cbn. unfold dbDelete, get_db, mbind, M_bind. cbn. rewrite E. cbn.
    rewrite list_lookup_insert_eq by by eapply lookup_lt_Some. cbn. rewrite lookup_delete_eq. by eexists.
  - unfold persistCommand, with_args, get_client, removeExpire, get_db, mbind, M_bind. rewrite Hc. cbn [mbind option_bind]. rewrite Ha.
    rewrite E. cbn [mbind option_bind]. rewrite Ho. unfold mbind, M_bind. rewrite E. cbn [mbind option_bind].
    rewrite bool_decide_true by (rewrite Ho; by eexists). cbn.
    rewrite bool_decide_true by (rewrite Hw; by eexists). eexists. split; [done|].
    erewrite entry_db; [|by apply list_lookup_insert_eq; eapply lookup_lt_Some]. cbn. by rewrite lookup_delete_eq, Ho.
Qed.
Lemma persist_resurrects_witness :
  entry demo0 0 (str "k") = (Some (StringObj (ObjInt 12)), Some 600) ∧
  ∃ s', persistCommand 2 (mkServer (dbs demo0) (<[2 := mkClient 0 [str "PERSIST"; str "k"] false false false [] []]> ∅) 0 master None [] 0)
        = Some (RInt 1, s') ∧ entry s' 0 (str "k") = (Some (StringObj (ObjInt 12)), None).
Proof.
  split; [vm_compute; reflexivity|].
  refine (proj2 (persist_resurrects (λ _, 700) _ 2 (mkClient 0 [str "PERSIST"; str "k"] false false false [] []) (str "PERSIST") (str "k")
    (default (mkDb ∅ ∅ ∅) (dbs demo0 !! 0%nat)) (StringObj (ObjInt 12)) 600 _ _ _ _ _ _ _ _ _)); vm_compute; split || reflexivity; done.
Defined.

