(* ===== verification/ExpireSpec.v ===== *)
(** * ExpireSpec: expiration is lazy, and most commands cannot tell

    The server removes an expired key when a command meets it, or when the expire
    cycle finds it; until then the key is in the dictionaries.  The specification
    has one finite map from keys to values and expire times, from which every key is
    removed as soon as its time has passed.  All commands but PERSIST, DBSIZE and
    MULTI give the same replies on both. *)

From stdpp Require Import gmap.
From S2P Require Import Prelude NumConv Objects Strto Sds Keyspace KeyspaceFacts Commands CommandsSafe Multi MultiSpec ServerSpec.

(** ** Results of functions that return *)

Definition pwp {A} (m : M A) (Q : A → server → Prop) (s : server) : Prop := ∀ a s', m s = Some (a, s') → Q a s'.

Lemma pwp_bind {A B} (m : M A) (f : A → M B) Q s : pwp m (λ a s', pwp (f a) Q s') s → pwp (m ≫= f) Q s.
Proof.
  intros H b s' E. unfold mbind, M_bind in E. destruct (m s) as [[a s1]|] eqn:Em; [|done]. by eapply H.
Qed.
Lemma pwp_ret {A} (a : A) (Q : A → server → Prop) s : Q a s → pwp (ret a) Q s.
Proof. intros H b s' [= <- <-]. done. Qed.
Lemma pwp_fail {A} (Q : A → server → Prop) s : pwp fail Q s.
Proof. done. Qed.
Lemma pwp_get (Q : server → server → Prop) s : Q s s → pwp get Q s.
Proof. intros H a s' [= <- <-]. done. Qed.
Lemma pwp_assert (b : bool) (Q : unit → server → Prop) s : (b = true → Q tt s) → pwp (assert b) Q s.
Proof. intros H a s'. unfold assert. destruct b; [|done]. intros [= <- <-]. auto. Qed.
Lemma pwp_ll v (Q : Z → server → Prop) s : Q v s → pwp (ll v) Q s.
Proof. intros H. apply pwp_bind, pwp_assert. intros _. by apply pwp_ret. Qed.
Lemma pwp_mono {A} (m : M A) (Q Q' : A → server → Prop) s : pwp m Q s → (∀ a s', Q a s' → Q' a s') → pwp m Q' s.
Proof. intros H HQ a s' E. by apply HQ, H. Qed.
Lemma pwp_get_client c (Q : client → server → Prop) s : (∀ cl, clients s !! c = Some cl → Q cl s) → pwp (get_client c) Q s.
Proof. intros H cl s' E. unfold get_client in E. destruct (clients s !! c) as [cl'|]; [|done]. injection E as <- <-. by apply H. Qed.
Lemma pwp_foreach {A} (P : list A → server → Prop) (f : A → M unit) (Q : unit → server → Prop) l s :
  P l s → (∀ x l s, P (x :: l) s → pwp (f x) (λ _ s', P l s') s) → (∀ s, P [] s → Q tt s) → pwp (foreach l f) Q s.
Proof.
  revert s. induction l as [|x l IH]; intros s Hs Hf HQ; [by apply pwp_ret, HQ|]. cbn [foreach].
  apply pwp_bind. eapply pwp_mono; [by apply Hf|]. intros a s' Hs'. by apply IH.
Qed.

(** ** The keys that have not expired *)

Notation view := (gmap (list Z) (robj * option Z)).

Definition expired (t : Z) (when : option Z) : bool :=
  match when with Some w => w <? t | None => false end.
Definition live (t : Z) (db : redisDb) : view :=
  map_imap (λ k o, let when := db_expires db !! k in if expired t when then None else Some (o, when)) (db_dict db).
(** Time passes. *)
Definition purge (t : Z) (v : view) : view := filter (λ '(_, (_, when)), expired t when = false) v.

Lemma lookup_live t db k :
  live t db !! k = (o ← db_dict db !! k; if expired t (db_expires db !! k) then None else Some (o, db_expires db !! k)).
Proof. unfold live. by rewrite map_lookup_imap. Qed.

(** ** The specification of the commands *)

Definition string_at (v : view) (k : list Z) (none : reply) (f : enc_obj → option Z → reply * view) : reply * view :=
  match v !! k with
  | None => (none, v)
  | Some (OtherObj _ _, _) => (RError EWrongType, v)
  | Some (StringObj o, e) => f o e
  end.
Definition with_int (a : list Z) (v : view) (f : Z → reply * view) : reply * view :=
  match getLongLongFromObject (Some (ObjStr a)) with None => (RError ENotInteger, v) | Some n => f n end.

Definition spec_get (k : list Z) (v : view) : reply * view := string_at v k RNullBulk (λ o _, (RBulk (obj_string o), v)).
Definition spec_strlen (k : list Z) (v : view) : reply * view := string_at v k (RInt 0) (λ o _, (RInt (zlen (obj_string o)), v)).

Definition ms_of (unit : unit_) (n : Z) : Z := match unit with UNIT_SECONDS => n * 1000 | UNIT_MILLISECONDS => n end.
Definition spec_set (t : Z) (nx xx : bool) (k : list Z) (val : robj) (ms : option Z) (ok_reply abort_reply : reply) (v : view) : reply * view :=
  if (nx && bool_decide (is_Some (v !! k))) || (xx && bool_decide (v !! k = None)) then (abort_reply, v)
  else (ok_reply, <[k := (val, Z.add t <$> ms)]> v).
Definition spec_set_generic (t : Z) (nx xx : bool) (k : list Z) (val : robj) (expire : option (list Z)) (unit : unit_) (ok_reply abort_reply : reply) (v : view) : reply * view :=
  match expire with
  | None => spec_set t nx xx k val None ok_reply abort_reply v
  | Some e => with_int e v (λ n, if n <=? 0 then (RError EInvalidExpire, v) else spec_set t nx xx k val (Some (ms_of unit n)) ok_reply abort_reply v)
  end.
Definition string_val (a : list Z) : robj := StringObj (tryObjectEncoding a).

Definition spec_getset (k a : list Z) (v : view) : reply * view :=
  match spec_get k v with
  | (RError e, v) => (RError e, v)
  | (r, v) => (r, <[k := (string_val a, None)]> v)
  end.
Definition spec_mget (keys : list (list Z)) (v : view) : reply * view :=
  (RMulti ((λ k, match v !! k with Some (StringObj o, _) => RBulk (obj_string o) | _ => RNullBulk end) <$> keys), v).
Definition put_all (kvs : list (list Z * list Z)) (v : view) : view := foldl (λ v '(k, a), <[k := (string_val a, None)]> v) v kvs.
Definition spec_mset (nx : bool) (argv : list (list Z)) (v : view) : reply * view :=
  if zlen argv mod 2 =? 0 then (RError EMsetArgs, v) else
  let kvs := pairs (tail argv) in
  if nx && existsb (λ '(k, _), bool_decide (is_Some (v !! k))) kvs then (RInt 0, v) else (if nx then RInt 1 else ROk, put_all kvs v).

(** The expire time stays. *)
Definition spec_incr (k : list Z) (incr : Z) (v : view) : reply * view :=
  let add (o : option enc_obj) (e : option Z) :=
    match getLongLongFromObject o with
    | None => (RError ENotInteger, v)
    | Some n => if (LLONG_MIN <=? n + incr) && (n + incr <=? LLONG_MAX) then (RInt (n + incr), <[k := (StringObj (ObjInt (n + incr)), e)]> v)
                else (RError EOverflow, v)
    end in
  match v !! k with
  | None => add None None
  | Some (OtherObj _ _, _) => (RError EWrongType, v)
  | Some (StringObj o, e) => add (Some o) e
  end.
Definition spec_append (k a : list Z) (v : view) : reply * view :=
  match v !! k with
  | None => (RInt (zlen a), <[k := (string_val a, None)]> v)
  | Some (OtherObj _ _, _) => (RError EWrongType, v)
  | Some (StringObj o, e) =>
      let b := obj_string o ++ a in
      if checkStringLength (zlen b) then (RError ETooBig, v) else (RInt (zlen b), <[k := (StringObj (ObjStr b), e)]> v)
  end.
Definition spec_setrange (k off a : list Z) (v : view) : reply * view :=
  with_int off v (λ offset,
    if offset <? 0 then (RError EOffset, v) else
    let write (b : list Z) (e : option Z) :=
      if zlen a =? 0 then (RInt (zlen b), v) else
      if checkStringLength (offset + zlen a) then (RError ETooBig, v)
      else (RInt (Z.max (zlen b) (offset + zlen a)), <[k := (StringObj (ObjStr (set_range b offset a)), e)]> v) in
    match v !! k with
    | None => write [] None
    | Some (OtherObj _ _, _) => (RError EWrongType, v)
    | Some (StringObj o, e) => write (obj_string o) e
    end).
(** The bytes from [a] to [b], counted from the end if negative *)
Definition substring (s : list Z) (a b : Z) : list Z :=
  let from := Z.max 0 (if a <? 0 then zlen s + a else a) in
  let to := Z.min (zlen s - 1) (Z.max 0 (if b <? 0 then zlen s + b else b)) in
  take (Z.to_nat (to - from + 1)) (drop (Z.to_nat from) s).
Definition spec_getrange (k a b : list Z) (v : view) : reply * view :=
  with_int a v (λ m, with_int b v (λ n, string_at v k (RBulk []) (λ o _, (RBulk (substring (obj_string o) m n), v)))).

Fixpoint spec_del (keys : list (list Z)) (v : view) : Z * view :=
  match keys with
  | [] => (0, v)
  | k :: keys => let '(n, v') := spec_del keys (delete k v) in (Z.b2z (bool_decide (is_Some (v !! k))) + n, v')
  end.
Definition spec_exists (k : list Z) (v : view) : reply * view := (RInt (Z.b2z (bool_decide (is_Some (v !! k)))), v).
Definition spec_type (k : list Z) (v : view) : reply * view :=
  (RStatus (match v !! k with None => "none" | Some (o, _) => type_name (robj_type o) end), v).
Definition spec_rename (nx : bool) (src dst : list Z) (v : view) : reply * view :=
  if bool_decide (src = dst) then (RError ESameObject, v) else
  match v !! src with
  | None => (RError ENoKey, v)
  | Some (o, e) =>
      if nx && bool_decide (is_Some (v !! dst)) then (RInt 0, v)
      else (if nx then RInt 1 else ROk, delete src (<[dst := (o, e)]> v))
  end.
Definition spec_expire (t basetime : Z) (unit : unit_) (k a : list Z) (v : view) : reply * view :=
  with_int a v (λ n,
    let when := ms_of unit n + basetime in
    match v !! k with
    | None => (RInt 0, v)
    | Some (o, _) => (RInt 1, if when <=? t then delete k v else <[k := (o, Some when)]> v)
    end).
Definition spec_ttl (t : Z) (output_ms : bool) (k : list Z) (v : view) : reply * view :=
  (match v !! k with
   | None => RInt (-2)
   | Some (_, e) =>
       match e with
       | None => RInt (-1)
       | Some w => let ttl := Z.max 0 (w - t) in RInt (if output_ms then ttl else (ttl + 500) / 1000)
       end
   end, v).

(** The commands that work on the keys of one database; [None]: others *)
Definition spec_command (t : Z) (cmd : command) (argv : list (list Z)) (v : view) : option (reply * view) :=
  match cmd, argv with
  | CGet, [_; k] => Some (spec_get k v)
  | CSet, _ :: k :: a :: opts =>
      Some (match set_options opts false false None UNIT_SECONDS with
            | None => (RError ESyntax, v)
            | Some (nx, xx, expire, unit) => spec_set_generic t nx xx k (string_val a) expire unit ROk RNullBulk v
            end)
  | CSetnx, [_; k; a] => Some (spec_set t true false k (string_val a) None (RInt 1) (RInt 0) v)
  | CSetex, [_; k; e; a] => Some (spec_set_generic t false false k (string_val a) (Some e) UNIT_SECONDS ROk RNullBulk v)
  | CPsetex, [_; k; e; a] => Some (spec_set_generic t false false k (string_val a) (Some e) UNIT_MILLISECONDS ROk RNullBulk v)
  | CGetset, [_; k; a] => Some (spec_getset k a v)
  | CAppend, [_; k; a] => Some (spec_append k a v)
  | CStrlen, [_; k] => Some (spec_strlen k v)
  | CSetrange, [_; k; off; a] => Some (spec_setrange k off a v)
  | CGetrange, [_; k; a; b] => Some (spec_getrange k a b v)
  | CIncr, [_; k] => Some (spec_incr k 1 v)
  | CDecr, [_; k] => Some (spec_incr k (-1) v)
  | CIncrby, [_; k; a] => Some (with_int a v (λ n, spec_incr k n v))
  | CDecrby, [_; k; a] => Some (with_int a v (λ n, spec_incr k (- n) v))
  | CMget, _ :: keys => Some (spec_mget keys v)
  | CMset, _ => Some (spec_mset false argv v)
  | CMsetnx, _ => Some (spec_mset true argv v)
  | CDel, _ :: keys => Some (RInt (spec_del keys v).1, (spec_del keys v).2)
  | CExists, [_; k] => Some (spec_exists k v)
  | CType, [_; k] => Some (spec_type k v)
  | CRename, [_; src; dst] => Some (spec_rename false src dst v)
  | CRenamenx, [_; src; dst] => Some (spec_rename true src dst v)
  | CExpire, [_; k; a] => Some (spec_expire t t UNIT_SECONDS k a v)
  | CExpireat, [_; k; a] => Some (spec_expire t 0 UNIT_SECONDS k a v)
  | CPexpire, [_; k; a] => Some (spec_expire t t UNIT_MILLISECONDS k a v)
  | CPexpireat, [_; k; a] => Some (spec_expire t 0 UNIT_MILLISECONDS k a v)
  | CTtl, [_; k] => Some (spec_ttl t false k v)
  | CPttl, [_; k] => Some (spec_ttl t true k v)
  | CFlushdb, _ => Some (ROk, ∅)
  | _, _ => None
  end.

Definition c_view (cl : client) : nat * bool := (c_db cl, f_multi cl).

Section sim.
Context (t : Z) (i : nat) (s0 : server).
Local Notation clk := (λ _ : nat, t).

(** The database [i] shows the keys [v] at the time [t]; the keys [K] have been
    looked up, and are not in the dictionaries if they have expired. *)
Record St (v : view) (K : list (list Z)) (s : server) : Prop := {
  st_db : ∃ db, dbs s !! i = Some db ∧ live t db = v ∧ (∀ k, k ∈ K → expired t (db_expires db !! k) = false) ∧
    (∀ k w, db_expires db !! k = Some w → 0 ≤ w ∧ is_Some (db_dict db !! k));
  st_other : length (dbs s) = length (dbs s0) ∧ ∀ j, j ≠ i → dbs s !! j = dbs s0 !! j;
  st_conf : conf s = conf s0;
  st_lua : lua_time s = lua_time s0;
  st_clients : c_view <$> clients s = c_view <$> clients s0
}.

Lemma st_weaken v K K' s : St v K s → K' ⊆ K → St v K' s.
Proof.
  intros [(db & E & Hl & HK & Hw) Ho Hc Hlua Hcl] HK'. split; try done. exists db. split_and!; try done. intros k Hk. by apply HK, HK'.
Qed.
Lemma st_same v K s s' : St v K s → dbs s' = dbs s → conf s' = conf s → lua_time s' = lua_time s → c_view <$> clients s' = c_view <$> clients s → St v K s'.
Proof. intros [Hdb Ho Hc Hl Hcl] E1 E2 E3 E4. split; rewrite ?E1, ?E2, ?E3, ?E4; done. Qed.

(** What a key that was looked up has in the dictionaries *)
Lemma st_entry v K s k db : St v K s → k ∈ K → dbs s !! i = Some db →
  db_dict db !! k = fst <$> v !! k ∧ db_expires db !! k = (v !! k ≫= snd).
Proof.
  intros [(db' & E & <- & HK & Hw) _ _ _ _] Hk Edb. assert (db' = db) as -> by congruence. rewrite lookup_live, (HK k Hk).
  destruct (db_dict db !! k) as [o|] eqn:Ed; cbn; [done|]. split; [done|].
  destruct (db_expires db !! k) as [w|] eqn:Ee; [|done]. destruct (Hw k w Ee) as [_ [? ?]]. congruence.
Qed.

Lemma st_alive v K s k o e : St v K s → v !! k = Some (o, e) → expired t e = false ∧ ∀ w, e = Some w → 0 ≤ w.
Proof using Type.
  intros [(db & E & <- & HK & Hw) _ _ _ _]. rewrite lookup_live. destruct (db_dict db !! k); cbn; [|done].
  destruct (expired t (db_expires db !! k)) eqn:He; [done|]. intros [= _ <-]. split; [done|]. intros w E1. by destruct (Hw k w E1).
Qed.

Lemma st_when v K s k db w : St v K s → dbs s !! i = Some db → db_expires db !! k = Some w → 0 ≤ w.
Proof using Type. intros [(db' & E & _ & _ & Hw) _ _ _ _] Edb Ee. assert (db' = db) as -> by congruence. by destruct (Hw k w Ee). Qed.
Lemma pwp_get_db s (Q : redisDb → server → Prop) :
  (∀ db, dbs s !! i = Some db → Q db s) → pwp (get_db i) Q s.
Proof. intros H db s' E. unfold get_db in E. destruct (dbs s !! i) as [db'|]; [|done]. injection E as <- <-. by apply H. Qed.

(** A change of the key [k] *)
Lemma pwp_put_key v K s db db' k o e (Q : unit → server → Prop) :
  St v K s → dbs s !! i = Some db → k ∈ K → (∀ w, e = Some w → 0 ≤ w ∧ is_Some o) → expired t e = false →
  db_dict db' !! k = o → db_expires db' !! k = e →
  (∀ k', k' ≠ k → db_dict db' !! k' = db_dict db !! k' ∧ db_expires db' !! k' = db_expires db !! k') →
  (∀ s', St (match o with Some o => <[k := (o, e)]> v | None => delete k v end) K s' → Q tt s') →
  pwp (put_db i db') Q s.
Proof.
  intros [(db0 & E & Hl & HK & Hw) [Hlen Ho] Hc Hlua Hcl] Edb Hk Hoe He Ho' He' Hother HQ a s' [= <- <-]. assert (db0 = db) as -> by congruence.
  apply HQ. split; try done; [|cbn; split; [by rewrite length_insert|intros j Hj; by rewrite list_lookup_insert_ne, Ho]]. exists db'. cbn. split_and!.
  - apply list_lookup_insert_eq. by eapply lookup_lt_Some.
  - apply map_eq. intros k'. rewrite lookup_live. destruct (decide (k' = k)) as [-> |Hne].
    + rewrite Ho', He', He. destruct o as [o|]; cbn; [by rewrite lookup_insert_eq|by rewrite lookup_delete_eq].
    + destruct (Hother k' Hne) as [-> ->]. rewrite <- lookup_live, Hl. destruct o; by rewrite ?lookup_insert_ne, ?lookup_delete_ne.
  - intros k' Hk'. destruct (decide (k' = k)) as [-> |Hne]; [by rewrite He'|]. destruct (Hother k' Hne) as [_ ->]. by apply HK.
  - intros k' w. destruct (decide (k' = k)) as [-> |Hne]; [rewrite He', Ho'; apply Hoe|]. destruct (Hother k' Hne) as [-> ->]. apply Hw.
Qed.

Lemma pwp_dbAdd v K s k val (Q : unit → server → Prop) : St v K s → k ∈ K →
  (∀ s', v !! k = None → St (<[k := (val, None)]> v) K s' → Q tt s') → pwp (dbAdd i k val) Q s.
Proof.
  intros HS Hk HQ. apply pwp_bind, pwp_get_db. intros db E. destruct (st_entry v K s k db HS Hk E) as [Ed Ee].
  apply pwp_bind, pwp_assert. intros Hn%bool_decide_eq_true. rewrite Hn in Ed.
  assert (v !! k = None) as Hv by by destruct (v !! k). rewrite Hv in Ee.
  apply (pwp_put_key v K s db _ k (Some val) None); try done; cbn; [apply lookup_insert_eq| |by intros; apply HQ].
  intros k' Hne. by rewrite lookup_insert_ne.
Qed.
Lemma pwp_dbOverwrite v K s k val (Q : unit → server → Prop) : St v K s → k ∈ K →
  (∀ s' o e, v !! k = Some (o, e) → St (<[k := (val, e)]> v) K s' → Q tt s') → pwp (dbOverwrite i k val) Q s.
Proof.
  intros HS Hk HQ. apply pwp_bind, pwp_get_db. intros db E. destruct (st_entry v K s k db HS Hk E) as [Ed Ee].
  apply pwp_bind, pwp_assert. intros [o0 Hn]%bool_decide_eq_true. rewrite Hn in Ed.
  destruct (v !! k) as [[o e]|] eqn:Hv; [|done]. cbn in Ee.
  destruct (st_alive v K s k o e HS Hv) as [He Hw].
  apply (pwp_put_key v K s db _ k (Some val) e); try done; cbn; [by intros; split; [apply Hw|]|apply lookup_insert_eq| |by intros; eapply HQ].
  intros k' Hne. by rewrite lookup_insert_ne.
Qed.
Lemma pwp_dbDelete v K s k (Q : bool → server → Prop) : St v K s → k ∈ K →
  (∀ s', St (delete k v) K s' → Q (bool_decide (is_Some (v !! k))) s') → pwp (dbDelete i k) Q s.
Proof.
  intros HS Hk HQ. apply pwp_bind, pwp_get_db. intros db E. destruct (st_entry v K s k db HS Hk E) as [Ed Ee].
  assert ((if bool_decide (db_expires db = ∅) then db_expires db else delete k (db_expires db)) = delete k (db_expires db)) as ->.
  { clear HQ. case_bool_decide as E0; [|done]. by rewrite E0, delete_empty. }
  apply pwp_bind. apply (pwp_put_key v K s db _ k None None); try done; cbn; try apply lookup_delete_eq.
  - intros k' Hne. by rewrite !lookup_delete_ne.
  - intros s' HS'. apply pwp_ret. rewrite Ed. replace (bool_decide (is_Some (fst <$> v !! k))) with (bool_decide (is_Some (v !! k))); [by apply HQ|].
    apply bool_decide_ext. by rewrite fmap_is_Some.
Qed.
Lemma pwp_removeExpire v K s k (Q : bool → server → Prop) : St v K s → k ∈ K →
  (∀ s' o e, v !! k = Some (o, e) → St (<[k := (o, None)]> v) K s' → Q (bool_decide (is_Some e)) s') → pwp (removeExpire i k) Q s.
Proof.
  intros HS Hk HQ. apply pwp_bind, pwp_get_db. intros db E. destruct (st_entry v K s k db HS Hk E) as [Ed Ee].
  apply pwp_bind, pwp_assert. intros [o0 Hn]%bool_decide_eq_true. rewrite Hn in Ed.
  destruct (v !! k) as [[o e]|] eqn:Hv; [|done]. cbn in Ed, Ee. apply pwp_bind.
  apply (pwp_put_key v K s db _ k (Some o) None); try done; cbn; [congruence|apply lookup_delete_eq| |].
  - intros k' Hne. by rewrite lookup_delete_ne.
  - intros s' HS'. apply pwp_ret. rewrite Ee. by eapply HQ.
Qed.
Lemma pwp_setExpire v K s k w (Q : unit → server → Prop) : St v K s → k ∈ K → 0 ≤ w → expired t (Some w) = false →
  (∀ s' o e, v !! k = Some (o, e) → St (<[k := (o, Some w)]> v) K s' → Q tt s') → pwp (setExpire i k w) Q s.
Proof.
  intros HS Hk H0 Hw HQ. apply pwp_bind, pwp_get_db. intros db E. destruct (st_entry v K s k db HS Hk E) as [Ed Ee].
  apply pwp_bind, pwp_assert. intros [o0 Hn]%bool_decide_eq_true. rewrite Hn in Ed.
  destruct (v !! k) as [[o e]|] eqn:Hv; [|done]. cbn in Ed.
  apply (pwp_put_key v K s db _ k (Some o) (Some w)); try done; cbn; [by intros ? [= <-]|congruence|apply lookup_insert_eq| |by intros; eapply HQ].
  intros k' Hne. by rewrite lookup_insert_ne.
Qed.
Lemma pwp_getExpire v K s k (Q : Z → server → Prop) : St v K s → k ∈ K →
  Q (match v !! k ≫= snd with Some w => w | None => -1 end) s → pwp (getExpire i k) Q s.
Proof.
  intros HS Hk HQ. apply pwp_bind, pwp_get_db. intros db E. destruct (st_entry v K s k db HS Hk E) as [Ed Ee]. rewrite Ee.
  destruct (v !! k ≫= snd) as [w|]; [|by apply pwp_ret]. apply pwp_bind, pwp_assert. intros _. by apply pwp_ret.
Qed.
Lemma pwp_lookupKey v K s k (Q : option robj → server → Prop) : St v K s → k ∈ K → Q (fst <$> v !! k) s → pwp (lookupKey i k) Q s.
Proof.
  intros HS Hk HQ. apply pwp_bind, pwp_get_db. intros db E. destruct (st_entry v K s k db HS Hk E) as [Ed Ee].
  apply pwp_ret. by rewrite Ed.
Qed.

(** ** What does not change the keys *)

Lemma pwp_add_dirty v K s d (Q : unit → server → Prop) : St v K s → (∀ s', St v K s' → Q tt s') → pwp (add_dirty d) Q s.
Proof. intros HS HQ a s' [= <- <-]. apply HQ. by eapply st_same. Qed.
Lemma pwp_propagate v K s j a (Q : unit → server → Prop) : St v K s → (∀ s', St v K s' → Q tt s') → pwp (propagate j a) Q s.
Proof. intros HS HQ b s' [= <- <-]. apply HQ. by eapply st_same. Qed.
Lemma pwp_mstime v K s (Q : Z → server → Prop) : St v K s → (∀ s', St v K s' → Q t s') → pwp (mstime clk) Q s.
Proof. intros HS HQ b s' [= <- <-]. apply HQ. by eapply st_same. Qed.
Lemma pwp_put_client v K s c cl cl' (Q : unit → server → Prop) : St v K s → clients s !! c = Some cl → c_view cl' = c_view cl →
  (∀ s', St v K s' → clients s' = <[c := cl']> (clients s) → Q tt s') → pwp (put_client c cl') Q s.
Proof.
  intros HS Hc Hdb HQ b s' [= <- <-]. apply HQ; [|done]. eapply st_same; try done. cbn. rewrite fmap_insert, Hdb.
  apply insert_id. by rewrite lookup_fmap, Hc.
Qed.
Lemma pwp_signalModifiedKey v K s k (Q : unit → server → Prop) : St v K s → (∀ s', St v K s' → Q tt s') → pwp (signalModifiedKey i k) Q s.
Proof.
  intros HS HQ. apply pwp_bind, pwp_get_db. intros db _. destruct (db_watched_keys db !! k) as [l|]; [|by apply pwp_ret, HQ].
  apply (pwp_foreach (λ _ s', St v K s')); [done| |done]. intros c r s1 HS1. apply pwp_bind, pwp_get_client. intros cl Hc.
  by eapply pwp_put_client.
Qed.

(** ** Lookups *)

Hypothesis Hmaster : 0 ≤ t ∧ cf_masterhost (conf s0) = false ∧ cf_loading (conf s0) = false ∧ lua_time s0 = None.

(** The removal of an expired key changes nothing that can be seen. *)
Lemma pwp_expire_dbDelete v K s k db w (Q : bool → server → Prop) : St v K s → dbs s !! i = Some db →
  db_expires db !! k = Some w → expired t (Some w) = true → (∀ b s', St v (k :: K) s' → Q b s') → pwp (dbDelete i k) Q s.
Proof using Type.
  intros HS E Ee Hw HQ. apply pwp_bind. intros db1 s1 E1. unfold get_db in E1. rewrite E in E1. injection E1 as <- <-.
  assert ((if bool_decide (db_expires db = ∅) then db_expires db else delete k (db_expires db)) = delete k (db_expires db)) as ->.
  { case_bool_decide as E0; [|done]. by rewrite E0, delete_empty. }
  apply pwp_bind. intros [] s1 [= <-]. apply pwp_ret, HQ. destruct HS as [(db' & E' & Hl & HK & Hwf) [Hlen Ho] Hc Hlua Hcl].
  assert (db' = db) as -> by congruence. split; try done; [|cbn; split; [by rewrite length_insert|intros j Hj; by rewrite list_lookup_insert_ne, Ho]]. eexists. cbn. split_and!.
  - apply list_lookup_insert_eq. by eapply lookup_lt_Some.
  - rewrite <- Hl. apply map_eq. intros k'. rewrite !lookup_live. cbn. destruct (decide (k' = k)) as [-> |Hne].
    + rewrite !lookup_delete_eq, Ee, Hw. by destruct (db_dict db !! k).
    + by rewrite !lookup_delete_ne.
  - intros k' Hk'. cbn. destruct (decide (k' = k)) as [-> |Hne]; [by rewrite lookup_delete_eq|]. rewrite lookup_delete_ne by done.
    apply HK. by apply elem_of_cons in Hk' as [?|?].
  - intros k' w'. cbn. destruct (decide (k' = k)) as [-> |Hne]; [by rewrite lookup_delete_eq|]. rewrite !lookup_delete_ne by done. apply Hwf.
Qed.

Lemma st_fresh v K s k db : St v K s → dbs s !! i = Some db → expired t (db_expires db !! k) = false → St v (k :: K) s.
Proof using Type.
  intros [(db' & E' & Hl & HK & Hwf) Ho Hc Hlua Hcl] E He. assert (db' = db) as -> by congruence. split; try done.
  exists db. split_and!; try done. intros k' [-> |Hk']%elem_of_cons; [done|by apply HK].
Qed.

Lemma pwp_expireIfNeeded v K s k (Q : bool → server → Prop) : St v K s → (∀ b s', St v (k :: K) s' → Q b s') →
  pwp (expireIfNeeded clk i k) Q s.
Proof using Hmaster.
  intros HS HQ. destruct Hmaster as (Ht0 & Hm & Hl & Hlua). apply pwp_bind. apply pwp_bind, pwp_get_db. intros db E.
  destruct (db_expires db !! k) as [w|] eqn:Ee; [|by apply pwp_ret, pwp_ret, HQ, (st_fresh v K s k db); [..|rewrite Ee]].
  apply pwp_bind, pwp_assert. intros _. apply pwp_ret. destruct (Z.ltb_spec w 0) as [Hw|Hw].
  { pose proof (st_when v K s k db w HS E Ee). lia. }
  apply pwp_bind, pwp_get. unfold loading, masterhost. rewrite (st_conf _ _ _ HS), Hl, Hm, (st_lua _ _ _ HS), Hlua.
  apply pwp_bind. intros now s1 [= <- <-]. set (s1 := mkServer _ _ _ _ _ _ _).
  assert (St v K s1) as HS1 by by eapply st_same.
  destruct (Z.leb_spec t w) as [Ht|Ht].
  { apply pwp_ret, HQ, (st_fresh v K s1 k db); try done. rewrite Ee. cbn. lia. }
  apply pwp_bind. intros [] s2 [= <-]. set (s2 := mkServer _ _ _ _ _ _ _). assert (St v K s2) as HS2 by by eapply st_same.
  eapply (pwp_expire_dbDelete v K s2 k db w); try done. cbn. lia.
Qed.
Lemma pwp_lookupKeyWrite v K s k (Q : option robj → server → Prop) : St v K s →
  (∀ s', St v (k :: K) s' → Q (fst <$> v !! k) s') → pwp (lookupKeyWrite clk i k) Q s.
Proof using Hmaster.
  intros HS HQ. apply pwp_bind, (pwp_expireIfNeeded v K); [done|]. intros b s' HS'. eapply pwp_lookupKey; [done|by left|]. by apply HQ.
Qed.
Lemma pwp_lookupKeyRead v K s k (Q : option robj → server → Prop) : St v K s →
  (∀ s', St v (k :: K) s' → Q (fst <$> v !! k) s') → pwp (lookupKeyRead clk i k) Q s.
Proof using Hmaster. apply pwp_lookupKeyWrite. Qed.

Lemma pwp_setKey v K s k val (Q : unit → server → Prop) : St v K s →
  (∀ s', St (<[k := (val, None)]> v) (k :: K) s' → Q tt s') → pwp (setKey clk i k val) Q s.
Proof using Hmaster.
  intros HS HQ. apply pwp_bind, (pwp_lookupKeyWrite v K); [done|]. intros s1 HS1. apply pwp_bind.
  apply (pwp_mono _ (λ _ s2, ∃ e, St (<[k := (val, e)]> v) (k :: K) s2)).
  { destruct (v !! k) as [[o e]|] eqn:Hv; cbn.
    - eapply pwp_dbOverwrite; [done|by left|]. intros s2 o' e' _ HS2. by exists e'.
    - eapply pwp_dbAdd; [done|by left|]. intros s2 _ HS2. by exists None. }
  intros _ s2 (e & HS2). apply pwp_bind. eapply pwp_removeExpire; [done|by left|]. intros s3 o' e' Hv HS3.
  rewrite lookup_insert_eq in Hv. injection Hv as <- <-. rewrite insert_insert_eq in HS3. by eapply pwp_signalModifiedKey.
Qed.

(** ** The commands *)

Definition post (p : reply * view) (r : reply) (s' : server) : Prop := r = p.1 ∧ ∃ K, St p.2 K s'.
Definition view_ok (v : view) : Prop := ∀ k o e, v !! k = Some (StringObj o, e) → obj_ok o.

Lemma pwp_post v K s r : St v K s → pwp (ret r) (post (r, v)) s.
Proof using Type. intros HS. apply pwp_ret. split; [done|by exists K]. Qed.

Lemma decoded o x : getDecodedObject (replicate 32 0) o = Some x → obj_string o = x.
Proof using Type. unfold obj_string. by intros ->. Qed.
Lemma length_string o m : obj_ok o → stringObjectLen (replicate 32 0) o = Some m → m = zlen (obj_string o).
Proof using Type.
  intros Ho Hm. destruct (stringObjectLen_ok o Ho) as (m' & Hm' & _ & Hb). rewrite Hm in Hm'. injection Hm' as <-. symmetry. apply Hb.
  destruct (getDecodedObject_spec (replicate 32 0) o Ho eq_refl) as (x & Hx & Hbx). by rewrite (decoded o x Hx).
Qed.

Lemma pwp_modified v K s k r : St v K s → pwp (modified i k r) (post (r, v)) s.
Proof using Type.
  intros HS. apply pwp_bind, (pwp_signalModifiedKey v K); [done|]. intros s1 HS1.
  apply pwp_bind, (pwp_add_dirty v K); [done|]. intros s2 HS2. by eapply pwp_post.
Qed.
Lemma pwp_addReplyBulk v K s o : St v K s → pwp (addReplyBulk o) (λ r s', r = RBulk (obj_string o) ∧ s' = s) s.
Proof using Type.
  intros HS. unfold addReplyBulk. destruct (getDecodedObject _ o) as [x|] eqn:E; [|apply pwp_fail]. apply pwp_ret. by rewrite (decoded o x E).
Qed.

Lemma pwp_lookup_if (b : bool) v K s k (f : option robj → bool) (Q : bool → server → Prop) : St v K s →
  (∀ s' K', St v K' s' → Q (b && f (fst <$> v !! k)) s') →
  pwp (if b then o ← lookupKeyWrite clk i k; ret (f o) else ret false) Q s.
Proof using Hmaster.
  intros HS HQ. destruct b; [|by eapply pwp_ret, HQ]. apply pwp_bind, (pwp_lookupKeyWrite v K); [done|]. intros s' HS'. by eapply pwp_ret, HQ.
Qed.
Lemma pwp_set_if nx xx v K s k val ms ok_reply abort_reply : St v K s → from_option (Z.le 0) True ms →
  pwp (set_if clk i nx xx k val ms ok_reply abort_reply) (post (spec_set t nx xx k val ms ok_reply abort_reply v)) s.
Proof using Hmaster.
  intros HS Hms. apply pwp_bind, (pwp_lookup_if nx v K s k (λ o, bool_decide (is_Some o))); [done|]. intros s1 K1 HS1.
  apply pwp_bind. eapply (pwp_mono _ (λ b s', b = (nx && bool_decide (is_Some (v !! k))) || (xx && bool_decide (v !! k = None)) ∧ ∃ K', St v K' s')).
  { replace (bool_decide (is_Some (fst <$> v !! k))) with (bool_decide (is_Some (v !! k))) by (apply bool_decide_ext; by rewrite fmap_is_Some).
    destruct (nx && _); [apply pwp_ret; eauto|]. apply (pwp_lookup_if xx v K1 s1 k (λ o, bool_decide (o = None))); [done|]. intros s' K' HS'.
    cbn. split; [|by exists K']. f_equal. apply bool_decide_ext. by destruct (v !! k). }
  intros b s2 (-> & K2 & HS2). unfold spec_set. destruct (_ || _); [by eapply pwp_post|].
  apply pwp_bind, (pwp_setKey v K2); [done|]. intros s3 HS3. apply pwp_bind. eapply pwp_add_dirty; [done|]. intros s4 HS4.
  apply pwp_bind. destruct ms as [ms|]; cbn [from_option fmap option_fmap option_map] in *; [|by eapply pwp_ret, pwp_post].
  apply pwp_bind. eapply pwp_mstime; [done|]. intros s5 HS5. apply pwp_bind, pwp_ll.
  destruct Hmaster as [Ht0 _]. eapply pwp_setExpire; [done|by left|lia|cbn; lia|]. intros s6 o e Hv HS6. rewrite lookup_insert_eq in Hv. injection Hv as <- <-.
  rewrite insert_insert_eq in HS6. by eapply pwp_post.
Qed.
Lemma pwp_getLL v K s a f p : St v K s → (∀ n, pwp (f n) (post (p n)) s) →
  pwp (getLongLongFromObjectOrReply (Some (ObjStr a)) f) (post (with_int a v p)) s.
Proof using Type.
  intros HS Hf. unfold getLongLongFromObjectOrReply, with_int. destruct (getLongLongFromObject _) as [n|]; [apply Hf|by eapply pwp_post].
Qed.
Lemma pwp_to_ms unit n (Q : Z → server → Prop) s : Q (ms_of unit n) s → pwp (to_ms unit n) Q s.
Proof using Type. intros HQ. destruct unit; [by apply pwp_ll|by apply pwp_ret]. Qed.
Lemma pwp_setGenericCommand nx xx v K s k val e unit ok_reply abort_reply : St v K s →
  pwp (setGenericCommand clk i nx xx k val e unit ok_reply abort_reply) (post (spec_set_generic t nx xx k val e unit ok_reply abort_reply v)) s.
Proof using Hmaster.
  intros HS. destruct e as [e|]; cbn [setGenericCommand spec_set_generic]; [|by eapply pwp_set_if].
  eapply pwp_getLL; [done|]. intros n. destruct (Z.leb_spec n 0) as [Hn|Hn]; [by eapply pwp_post|].
  apply pwp_bind, pwp_to_ms. eapply pwp_set_if; [done|]. cbn. destruct unit; cbn; lia.
Qed.

Lemma pwp_getGenericCommand v K s k : St v K s →
  pwp (getGenericCommand clk i k) (λ '(b, r) s', r = (spec_get k v).1 ∧ (b = false ↔ ∃ e, r = RError e) ∧ ∃ K', St v K' s') s.
Proof using Hmaster.
  intros HS. apply pwp_bind, (pwp_lookupKeyRead v K); [done|]. intros s1 HS1. unfold spec_get, string_at.
  destruct (v !! k) as [[[o|ty b] e]|]; cbn.
  - apply pwp_bind. eapply pwp_mono; [by eapply pwp_addReplyBulk|]. intros r s2 [-> ->]. apply pwp_ret. split_and!; [done| |eauto].
    split; [done|by intros [? ?]].
  - apply pwp_ret. split_and!; eauto. split; eauto.
  - apply pwp_ret. split_and!; eauto. split; [done|by intros [? ?]].
Qed.
Lemma spec_get_view k v : (spec_get k v).2 = v.
Proof using Type. unfold spec_get, string_at. by destruct (v !! k) as [[[]]|]. Qed.
Lemma pwp_get_key v K s k : St v K s → pwp ('(_, r) ← getGenericCommand clk i k; ret r) (post (spec_get k v)) s.
Proof using Hmaster.
  intros HS. apply pwp_bind. eapply pwp_mono; [by eapply pwp_getGenericCommand|]. intros [b r] s1 (-> & _ & K1 & HS1).
  apply pwp_ret. split; [done|]. rewrite spec_get_view. by exists K1.
Qed.
Lemma pwp_getset v K s k a : St v K s →
  pwp ('(ok, r) ← getGenericCommand clk i k;
       if (ok : bool) then setKey clk i k (string_val a);; add_dirty 1;; ret r else ret r) (post (spec_getset k a v)) s.
Proof using Hmaster.
  intros HS. apply pwp_bind. eapply pwp_mono; [by eapply pwp_getGenericCommand|]. intros [b r] s1 (-> & Hb & K1 & HS1).
  unfold spec_getset. pose proof (spec_get_view k v) as Hv. destruct (spec_get k v) as [r v']. cbn in Hv. subst v'. cbn [fst] in *. destruct b.
  - assert (match r with RError e => (RError e, v) | _ => (r, <[k := (string_val a, None)]> v) end = (r, <[k := (string_val a, None)]> v)) as E.
    { destruct r; try done. destruct Hb as [_ Hb]. discriminate Hb. eauto. }
    replace (match r with RError e => _ | _ => _ end) with (r, <[k := (string_val a, None)]> v) by (by destruct r).
    apply pwp_bind, (pwp_setKey v K1); [done|]. intros s2 HS2. apply pwp_bind. eapply pwp_add_dirty; [done|]. intros s3 HS3. by eapply pwp_post.
  - destruct Hb as [Hb _]. destruct Hb as [e ->]; [done|]. by eapply pwp_post.
Qed.

Lemma pwp_strlen v K s k : St v K s → view_ok v →
  pwp (o ← lookupKeyRead clk i k;
       match o with
       | None => ret (RInt 0)
       | Some (OtherObj _ _) => ret (RError EWrongType)
       | Some (StringObj o) => match stringObjectLen (replicate 32 0) o with Some n => ret (RInt n) | None => fail end
       end) (post (spec_strlen k v)) s.
Proof using Hmaster.
  intros HS Hv. apply pwp_bind, (pwp_lookupKeyRead v K); [done|]. intros s1 HS1. unfold spec_strlen, string_at.
  destruct (v !! k) as [[[o|ty b] e]|] eqn:Ek; cbn [fmap option_fmap option_map fst]; [|by eapply pwp_post..].
  destruct (stringObjectLen _ o) as [m|] eqn:Em; [|apply pwp_fail]. rewrite (length_string o m (Hv k o e Ek) Em). by eapply pwp_post.
Qed.

Lemma pwp_incrDecrCommand v K s k incr : St v K s → pwp (incrDecrCommand clk i k incr) (post (spec_incr k incr v)) s.
Proof using Hmaster.
  intros HS. apply pwp_bind, (pwp_lookupKeyWrite v K); [done|]. intros s1 HS1. unfold spec_incr.
  destruct (v !! k) as [[[o|ty b] e]|] eqn:Ek; cbn [fmap option_fmap option_map fst]; [|by eapply pwp_post|].
  all: unfold getLongLongFromObjectOrReply; destruct (getLongLongFromObject _) as [n|]; [|by eapply pwp_post].
  all: destruct (_ || _) eqn:Hov; [replace ((LLONG_MIN <=? n + incr) && (n + incr <=? LLONG_MAX)) with false by (unfold LLONG_MIN, LLONG_MAX in *; lia); by eapply pwp_post|].
  all: apply pwp_bind, pwp_bind, pwp_assert; intros Hr%bool_decide_eq_true; apply pwp_ret; unfold in_s in Hr.
  all: replace ((LLONG_MIN <=? n + incr) && (n + incr <=? LLONG_MAX)) with true by (unfold LLONG_MIN, LLONG_MAX in *; lia).
  all: apply pwp_bind.
  - eapply pwp_dbOverwrite; [done|by left|]. intros s2 o' e' Ek' HS2. rewrite Ek in Ek'. injection Ek' as <- <-. by eapply pwp_modified.
  - eapply pwp_dbAdd; [done|by left|]. intros s2 _ HS2. by eapply pwp_modified.
Qed.

Lemma pwp_unshare v K s k o e (Q : list Z → server → Prop) : St v K s → k ∈ K → v !! k = Some (StringObj o, e) →
  (∀ s', St (<[k := (StringObj (ObjStr (obj_string o)), e)]> v) K s' → Q (obj_string o) s') →
  pwp (dbUnshareStringValue i k (StringObj o)) Q s.
Proof using Type.
  intros HS Hk Ek HQ. unfold dbUnshareStringValue. destruct (getDecodedObject _ o) as [x|] eqn:E; [|apply pwp_fail].
  rewrite <- (decoded o x E). apply pwp_bind. eapply pwp_dbOverwrite; [done..|]. intros s' o' e' Ek' HS'. rewrite Ek in Ek'. injection Ek' as <- <-.
  by apply pwp_ret, HQ.
Qed.
Lemma pwp_replace v K s k o e x (m : M reply) p : St (<[k := (o, e)]> v) K s → k ∈ K →
  (∀ s', St (<[k := (x, e)]> v) K s' → pwp m (post p) s') → pwp (dbOverwrite i k x;; m) (post p) s.
Proof using Type.
  intros HS Hk HQ. apply pwp_bind. eapply pwp_dbOverwrite; [done..|]. intros s' o' e' Ek' HS'. rewrite lookup_insert_eq in Ek'.
  injection Ek' as <- <-. rewrite insert_insert_eq in HS'. by apply HQ.
Qed.
Lemma length_encoded a m : stringObjectLen (replicate 32 0) (tryObjectEncoding a) = Some m → m = zlen a.
Proof using Type.
  unfold tryObjectEncoding. destruct (_ <=? _); [|by intros [= <-]]. destruct (string2l a) as [w|] eqn:E; [|by intros [= <-]].
  unfold string2l in E. destruct (string2ll a) as [w'|] eqn:E'; [|done]. apply string2ll_spec in E' as [Hd Hr]. cbn in E.
  destruct (_ || _); [done|]. injection E as <-. assert (i64 w' = w') as -> by by apply wraps_small.
  intros Hm. rewrite (length_string (ObjInt w') m Hr Hm). f_equal. apply (decimal_unique _ _ w'); [by apply obj_string_decimal|done].
Qed.
Lemma pwp_append v K s k a : St v K s → view_ok v →
  pwp (o ← lookupKeyWrite clk i k;
      match o with
      | None =>
          dbAdd i k (StringObj (tryObjectEncoding a));;
          match stringObjectLen (replicate 32 0) (tryObjectEncoding a) with Some totlen => modified i k (RInt totlen) | None => fail end
      | Some (OtherObj _ _) => ret (RError EWrongType)
      | Some (StringObj o) =>
          match stringObjectLen (replicate 32 0) o with
          | None => fail
          | Some olen =>
              if checkStringLength (olen + zlen a) then ret (RError ETooBig) else
              s ← dbUnshareStringValue i k (StringObj o);
              dbOverwrite i k (StringObj (ObjStr (s ++ a)));;
              modified i k (RInt (zlen (s ++ a)))
          end
      end) (post (spec_append k a v)) s.
Proof using Hmaster.
  intros HS Hv. apply pwp_bind, (pwp_lookupKeyWrite v K); [done|]. intros s1 HS1. unfold spec_append.
  destruct (v !! k) as [[[o|ty b] e]|] eqn:Ek; cbn [fmap option_fmap option_map fst]; [|by eapply pwp_post|].
  - destruct (stringObjectLen _ o) as [m|] eqn:Em; [|apply pwp_fail]. rewrite (length_string o m (Hv k o e Ek) Em).
    rewrite zlen_app. destruct (checkStringLength _); [by eapply pwp_post|]. apply pwp_bind. eapply pwp_unshare; [done|by left|done|].
    intros s2 HS2. eapply pwp_replace; [done|by left|]. intros s3 HS3. rewrite zlen_app. by eapply pwp_modified.
  - apply pwp_bind. eapply pwp_dbAdd; [done|by left|]. intros s2 _ HS2. destruct (stringObjectLen _ _) as [m|] eqn:Em; [|apply pwp_fail].
    rewrite (length_encoded a m Em). by eapply pwp_modified.
Qed.

Lemma pwp_write_range v K s k o e x offset a : St (<[k := (o, e)]> v) K s → k ∈ K → 0 ≤ offset →
  pwp (write_range i k x offset a)
    (post (if checkStringLength (offset + zlen a) then (RError ETooBig, v)
           else (RInt (Z.max (zlen x) (offset + zlen a)), <[k := (StringObj (ObjStr (set_range x offset a)), e)]> v))) s.
Proof using Type.
  intros HS Hk Hoff. apply pwp_bind, pwp_assert. intros Hle. unfold checkStringLength. rewrite (proj2 (Z.ltb_ge _ _)) by lia.
  eapply pwp_replace; [done..|]. intros s1 HS1. rewrite length_set_range by done. by eapply pwp_modified.
Qed.
Lemma range_check offset (a : list Z) : 0 ≤ offset → checkStringLength (i64 (u64 (offset + zlen a))) = true → checkStringLength (offset + zlen a) = true.
Proof using Type.
  intros Ho. unfold checkStringLength. pose proof (zlen_nonneg a). intros H1. destruct (Z.ltb_spec (512 * 1024 * 1024) (offset + zlen a)) as [|Hle]; [done|].
  assert (i64 (u64 (offset + zlen a)) = offset + zlen a) as E by (apply (wraps_wrapu_id 64); unfold in_s; lia). lia.
Qed.
Lemma pwp_setrange v K s k off a : St v K s → view_ok v →
  pwp (getLongLongFromObjectOrReply (Some (ObjStr off)) (λ offset,
        if offset <? 0 then ret (RError EOffset) else
        let size := i64 (u64 (offset + zlen a)) in
        o ← lookupKeyWrite clk i k;
        match o with
        | None =>
            if zlen a =? 0 then ret (RInt 0) else
            if checkStringLength size then ret (RError ETooBig) else
            dbAdd i k (StringObj (ObjStr []));; write_range i k [] offset a
        | Some (OtherObj _ _) => ret (RError EWrongType)
        | Some (StringObj o) =>
            match stringObjectLen (replicate 32 0) o with
            | None => fail
            | Some olen =>
                if zlen a =? 0 then ret (RInt olen) else
                if checkStringLength size then ret (RError ETooBig) else
                s ← dbUnshareStringValue i k (StringObj o); write_range i k s offset a
            end
        end)) (post (spec_setrange k off a v)) s.
Proof using Hmaster.
  intros HS Hv. eapply pwp_getLL; [done|]. intros offset. destruct (Z.ltb_spec offset 0) as [Hn|Hn]; [by eapply pwp_post|]. cbv zeta.
  apply pwp_bind, (pwp_lookupKeyWrite v K); [done|]. intros s1 HS1.
  pose proof (range_check offset a Hn) as Hc.
  destruct (v !! k) as [[[o|ty b] e]|] eqn:Ek; cbn [fmap option_fmap option_map fst]; [|by eapply pwp_post|].
  - destruct (stringObjectLen _ o) as [m|] eqn:Em; [|apply pwp_fail]. rewrite (length_string o m (Hv k o e Ek) Em).
    destruct (zlen a =? 0); [by eapply pwp_post|]. destruct (checkStringLength (i64 _)); [rewrite Hc by done; by eapply pwp_post|].
    apply pwp_bind. eapply pwp_unshare; [done|by left|done|]. intros s2 HS2. eapply pwp_write_range; [done|by left|done].
  - destruct (zlen a =? 0); [by eapply pwp_post|]. destruct (checkStringLength (i64 _)); [rewrite Hc by done; by eapply pwp_post|].
    apply pwp_bind. eapply pwp_dbAdd; [done|by left|]. intros s2 _ HS2. eapply pwp_write_range; [done|by left|done].
Qed.

(** The code clamps the bounds step by step. *)
Lemma substring_load x a b : in_s 64 a → in_s 64 b → zlen x ≤ 512 * 1024 * 1024 →
  let start := if a <? 0 then i64 (u64 (zlen x + a)) else a in
  let end_ := if b <? 0 then i64 (u64 (zlen x + b)) else b in
  let start := if start <? 0 then 0 else start in
  let end_ := if end_ <? 0 then 0 else end_ in
  let end_ := if zlen x <=? end_ then i64 (u64 (zlen x - 1)) else end_ in
  if (end_ <? start) || (zlen x =? 0) then substring x a b = [] else load x start (end_ - start + 1) = Some (substring x a b).
Proof using Type.
  unfold in_s. intros Ha Hb Hl. pose proof (zlen_nonneg x). cbv zeta.
  assert (a < 0 → i64 (u64 (zlen x + a)) = zlen x + a) as Ea by (intros; apply (wraps_wrapu_id 64); unfold in_s; lia).
  assert (b < 0 → i64 (u64 (zlen x + b)) = zlen x + b) as Eb by (intros; apply (wraps_wrapu_id 64); unfold in_s; lia).
  assert (i64 (u64 (zlen x - 1)) = zlen x - 1) as -> by (apply (wraps_wrapu_id 64); unfold in_s; lia).
  replace (if a <? 0 then i64 (u64 (zlen x + a)) else a) with (if a <? 0 then zlen x + a else a) by (destruct (Z.ltb_spec a 0); [by rewrite Ea|done]).
  replace (if b <? 0 then i64 (u64 (zlen x + b)) else b) with (if b <? 0 then zlen x + b else b) by (destruct (Z.ltb_spec b 0); [by rewrite Eb|done]).
  unfold substring. set (a' := if a <? 0 then _ else _). set (b' := if b <? 0 then _ else _).
  assert ((if a' <? 0 then 0 else a') = Z.max 0 a') as -> by (destruct (Z.ltb_spec a' 0); lia).
  assert ((if zlen x <=? (if b' <? 0 then 0 else b') then zlen x - 1 else if b' <? 0 then 0 else b') = Z.min (zlen x - 1) (Z.max 0 b')) as ->
    by (destruct (Z.ltb_spec b' 0); match goal with |- context [?p <=? ?q] => destruct (Z.leb_spec p q) end; lia).
  set (from := Z.max 0 a'). set (to := Z.min _ _). assert (0 ≤ from) as Hf by lia. assert (to ≤ zlen x - 1) as Ht by lia. clearbody from to.
  destruct (_ || _) eqn:E.
  - replace (Z.to_nat (to - from + 1)) with 0%nat by lia. done.
  - unfold load. by rewrite bool_decide_true by lia.
Qed.
Lemma int_range a n : getLongLongFromObject (Some (ObjStr a)) = Some n → in_s 64 n.
Proof using Type.
  cbn. destruct (strtoll_total a) as (w & c & r & -> & Hw). by case_if; [|intros [= <-]].
Qed.
Lemma pwp_getrange v K s k a b : St v K s → view_ok v →
  pwp (getLongLongFromObjectOrReply (Some (ObjStr a)) (λ start,
       getLongLongFromObjectOrReply (Some (ObjStr b)) (λ end_,
        o ← lookupKeyRead clk i k;
        match o with
        | None => ret (RBulk [])
        | Some (OtherObj _ _) => ret (RError EWrongType)
        | Some (StringObj o) =>
            match getDecodedObject (replicate 32 0) o with
            | None => fail
            | Some s =>
                let strlen := zlen s in
                let start := if start <? 0 then i64 (u64 (strlen + start)) else start in
                let end_ := if end_ <? 0 then i64 (u64 (strlen + end_)) else end_ in
                let start := if start <? 0 then 0 else start in
                let end_ := if end_ <? 0 then 0 else end_ in
                let end_ := if strlen <=? end_ then i64 (u64 (strlen - 1)) else end_ in
                if (end_ <? start) || (strlen =? 0) then ret (RBulk [])
                else match load s start (end_ - start + 1) with Some s => ret (RBulk s) | None => fail end
            end
        end))) (post (spec_getrange k a b v)) s.
Proof using Hmaster.
  intros HS Hv. unfold spec_getrange, with_int, getLongLongFromObjectOrReply.
  destruct (getLongLongFromObject (Some (ObjStr a))) as [m|] eqn:Em; [|by eapply pwp_post].
  destruct (getLongLongFromObject (Some (ObjStr b))) as [n|] eqn:En; [|by eapply pwp_post].
  apply pwp_bind, (pwp_lookupKeyRead v K); [done|]. intros s1 HS1. unfold string_at.
  destruct (v !! k) as [[[o|ty y] e]|] eqn:Ek; cbn [fmap option_fmap option_map fst]; [|by eapply pwp_post..].
  destruct (getDecodedObject _ o) as [x|] eqn:E; [|apply pwp_fail]. rewrite (decoded o x E).
  destruct (object_bytes_spec (replicate 128 0) o (Hv k o e Ek)) as [_ Hl]; [done|]. rewrite (decoded o x E) in Hl.
  pose proof (substring_load x m n (int_range a m Em) (int_range b n En) Hl) as Hsub. cbv zeta in Hsub |- *. destruct (_ || _).
  - rewrite Hsub. by eapply pwp_post.
  - rewrite Hsub. by eapply pwp_post.
Qed.
Lemma pwp_mget_loop v K s keys : St v K s →
  pwp (mget_loop clk i keys) (λ l s', l = (λ k, match v !! k with Some (StringObj o, _) => RBulk (obj_string o) | _ => RNullBulk end) <$> keys ∧ ∃ K', St v K' s') s.
Proof using Hmaster.
  revert K s. induction keys as [|k keys IH]; intros K s HS; [apply pwp_ret; by eauto|]. cbn [mget_loop].
  apply pwp_bind, (pwp_lookupKeyRead v K); [done|]. intros s1 HS1. apply pwp_bind.
  apply (pwp_mono _ (λ r s', r = (match v !! k with Some (StringObj o, _) => RBulk (obj_string o) | _ => RNullBulk end) ∧ s' = s1)).
  { destruct (v !! k) as [[[o|ty b] e]|]; cbn; [by eapply pwp_addReplyBulk|by apply pwp_ret..]. }
  intros r s2 [-> ->]. apply pwp_bind. eapply pwp_mono; [by eapply IH|]. intros l s3 [-> HS3]. by apply pwp_ret.
Qed.

Lemma pwp_busykeys v K s kvs : St v K s →
  pwp (busykeys clk i kvs) (λ b s', b = existsb (λ '(k, _), bool_decide (is_Some (v !! k))) kvs ∧ ∃ K', St v K' s') s.
Proof using Hmaster.
  revert K s. induction kvs as [|[k a] kvs IH]; intros K s HS; [apply pwp_ret; by eauto|]. cbn [busykeys existsb].
  apply pwp_bind, (pwp_lookupKeyWrite v K); [done|]. intros s1 HS1. apply pwp_bind. eapply pwp_mono; [by eapply IH|].
  intros b s2 [-> HS2]. apply pwp_ret. split; [|done]. f_equal. apply bool_decide_ext. by rewrite fmap_is_Some.
Qed.
Lemma pwp_put_all v K s kvs (Q : unit → server → Prop) : St v K s → (∀ K' s', St (put_all kvs v) K' s' → Q tt s') →
  pwp (foreach kvs (λ '(k, a), setKey clk i k (StringObj (tryObjectEncoding a)))) Q s.
Proof using Hmaster.
  revert v K s. induction kvs as [|[k a] kvs IH]; intros v K s HS HQ; [by eapply pwp_ret, HQ|]. cbn [foreach].
  apply pwp_bind, (pwp_setKey v K); [done|]. intros s1 HS1. by eapply IH.
Qed.
Lemma pwp_mset (nx : bool) v K s (argv : list (list Z)) : St v K s →
  pwp (if (zlen argv) mod 2 =? 0 then ret (RError EMsetArgs) else
      let kvs := pairs (tail argv) in
      busy ← (if nx then busykeys clk i kvs else ret false);
      if (busy : bool) then ret (RInt 0) else
      foreach kvs (λ '(k, v), setKey clk i k (StringObj (tryObjectEncoding v)));;
      add_dirty ((zlen argv - 1) / 2);;
      ret (if nx then RInt 1 else ROk)) (post (spec_mset nx argv v)) s.
Proof using Hmaster.
  intros HS. unfold spec_mset. destruct (_ =? 0); [by eapply pwp_post|]. cbv zeta. set (kvs := pairs (tail argv)). apply pwp_bind.
  apply (pwp_mono _ (λ b s', b = nx && existsb (λ '(k, _), bool_decide (is_Some (v !! k))) kvs ∧ ∃ K', St v K' s')).
  { destruct nx; [by eapply pwp_busykeys|apply pwp_ret; by eauto]. }
  intros b s1 (-> & K1 & HS1). destruct (nx && _); [by eapply pwp_post|].
  apply pwp_bind. eapply pwp_put_all; [done|]. intros K2 s2 HS2. apply pwp_bind. eapply pwp_add_dirty; [done|]. intros s3 HS3. by eapply pwp_post.
Qed.

Lemma pwp_del_loop v K s keys : St v K s → pwp (del_loop clk i keys) (λ n s', n = (spec_del keys v).1 ∧ ∃ K', St (spec_del keys v).2 K' s') s.
Proof using Hmaster.
  revert v K s. induction keys as [|k keys IH]; intros v K s HS; [apply pwp_ret; by eauto|]. cbn [del_loop spec_del].
  apply pwp_bind, (pwp_expireIfNeeded v K); [done|]. intros _ s1 HS1. apply pwp_bind. eapply pwp_dbDelete; [done|by left|]. intros s2 HS2.
  apply pwp_bind, (pwp_mono _ (λ _ s', St (delete k v) (k :: K) s')).
  { destruct (bool_decide _); [|by apply pwp_ret]. apply pwp_bind. eapply pwp_signalModifiedKey; [done|]. intros s3 HS3. by eapply pwp_add_dirty. }
  intros _ s3 HS3. apply pwp_bind. eapply pwp_mono; [by eapply IH|]. intros n s4 (-> & HS4). apply pwp_ret.
  by destruct (spec_del keys (delete k v)) as [n v'].
Qed.
Lemma pwp_exists v K s k : St v K s →
  pwp (expireIfNeeded clk i k;; b ← dbExists i k; ret (RInt (Z.b2z b))) (post (spec_exists k v)) s.
Proof using Hmaster.
  intros HS. apply pwp_bind, (pwp_expireIfNeeded v K); [done|]. intros _ s1 HS1. apply pwp_bind, pwp_bind, pwp_get_db. intros db E.
  destruct (st_entry v _ s1 k db HS1) as [-> _]; [by left|done|]. apply pwp_ret. unfold spec_exists.
  replace (bool_decide (is_Some (v !! k))) with (bool_decide (is_Some (fst <$> v !! k))); [by eapply pwp_post|].
  apply bool_decide_ext. by rewrite fmap_is_Some.
Qed.
Lemma pwp_type v K s k : St v K s →
  pwp (o ← lookupKeyRead clk i k; ret (RStatus (match o with None => "none" | Some o => type_name (robj_type o) end))) (post (spec_type k v)) s.
Proof using Hmaster.
  intros HS. apply pwp_bind, (pwp_lookupKeyRead v K); [done|]. intros s1 HS1. unfold spec_type.
  destruct (v !! k) as [[o e]|]; by eapply pwp_post.
Qed.

Lemma pwp_rename_to v K s src dst o e expire r : St v K s → src ∈ K → dst ∈ K → expired t e = false → (∀ w, e = Some w → 0 ≤ w) →
  expire = match e with Some w => w | None => -1 end →
  pwp (rename_to i src dst o expire r) (post (r, delete src (<[dst := (o, e)]> v))) s.
Proof using Type.
  intros HS Hs Hd He Hw ->. apply pwp_bind. eapply pwp_dbAdd; [done..|]. intros s1 _ HS1. apply pwp_bind.
  apply (pwp_mono _ (λ _ s', St (<[dst := (o, e)]> v) K s')).
  { destruct e as [w|]; [|by apply pwp_ret]. specialize (Hw w eq_refl). rewrite (proj2 (Z.eqb_neq w (-1))) by lia.
    eapply pwp_setExpire; [done..|]. intros s2 o' e' Hv HS2. rewrite lookup_insert_eq in Hv. injection Hv as <- <-. by rewrite insert_insert_eq in HS2. }
  intros _ s2 HS2. apply pwp_bind. eapply pwp_dbDelete; [done..|]. intros s3 HS3. apply pwp_bind. eapply pwp_signalModifiedKey; [done|]. intros s4 HS4.
  by apply (pwp_modified _ K).
Qed.
Lemma pwp_rename (nx : bool) v K s src dst : St v K s →
  pwp (if bool_decide (src = dst) then ret (RError ESameObject) else
      o ← lookupKeyWrite clk i src;
      match o with
      | None => ret (RError ENoKey)
      | Some o =>
          expire ← getExpire i src;
          d ← lookupKeyWrite clk i dst;
          let r := if nx then RInt 1 else ROk in
          match d with
          | Some _ => if nx then ret (RInt 0) else dbDelete i dst;; rename_to i src dst o expire r
          | None => rename_to i src dst o expire r
          end
      end) (post (spec_rename nx src dst v)) s.
Proof using Hmaster.
  intros HS. unfold spec_rename. destruct (bool_decide (src = dst)) eqn:Hne; [by eapply pwp_post|]. apply bool_decide_eq_false in Hne.
  apply pwp_bind, (pwp_lookupKeyWrite v K); [done|]. intros s1 HS1.
  destruct (v !! src) as [[o e]|] eqn:Es; cbn [fmap option_fmap option_map fst]; [|by eapply pwp_post].
  destruct (st_alive v _ s1 src o e HS1 Es) as [He Hw]. apply pwp_bind. eapply pwp_getExpire; [done|by left|]. rewrite Es. cbn [mbind option_bind snd].
  apply pwp_bind. eapply pwp_lookupKeyWrite; [done|]. intros s2 HS2. cbv zeta.
  destruct (v !! dst) as [[od ed]|] eqn:Ed; cbn [fmap option_fmap option_map fst].
  - rewrite bool_decide_true by done. destruct nx; cbn [andb]; [by eapply pwp_post|]. apply pwp_bind. eapply pwp_dbDelete; [done|by left|].
    intros s3 HS3. rewrite <- (insert_delete_eq v dst). eapply pwp_rename_to; try done; by repeat constructor.
  - rewrite bool_decide_false by by intros [? ?]. rewrite andb_false_r. eapply pwp_rename_to; try done; by repeat constructor.
Qed.

Lemma pwp_expire basetime unit v K s c k (a : list Z) : St v K s →
  pwp (getLongLongFromObjectOrReply (Some (ObjStr a)) (λ when,
        when ← to_ms unit when;
        when ← ll (when + basetime);
        o ← lookupKeyRead clk i k;
        match o with
        | None => ret (RInt 0)
        | Some _ =>
            now ← mstime clk;
            s ← get;
            if (when <=? now) && negb (loading s) && negb (masterhost s) then
              b ← dbDelete i k;
              assert b;;
              add_dirty 1;;
              cl ← get_client c;
              put_client c (set_argv cl (del_argv k));;
              signalModifiedKey i k;;
              ret (RInt 1)
            else
              setExpire i k when;;
              modified i k (RInt 1)
        end)) (post (spec_expire t basetime unit k a v)) s.
Proof using Hmaster.
  intros HS. destruct Hmaster as (Ht0 & Hm & Hl & Hlua). eapply pwp_getLL; [done|]. intros n. apply pwp_bind, pwp_to_ms. apply pwp_bind, pwp_ll. cbv zeta.
  set (when := ms_of unit n + basetime). apply pwp_bind, (pwp_lookupKeyRead v K); [done|]. intros s1 HS1.
  destruct (v !! k) as [[o e]|] eqn:Ek; cbn [fmap option_fmap option_map fst]; [|by eapply pwp_post].
  apply pwp_bind. eapply pwp_mstime; [done|]. intros s2 HS2. apply pwp_bind, pwp_get. unfold loading, masterhost. rewrite (st_conf _ _ _ HS2), Hl, Hm.
  cbn [negb]. rewrite !andb_true_r. destruct (Z.leb_spec when t) as [Hw|Hw].
  - apply pwp_bind. eapply pwp_dbDelete; [done|by left|]. intros s3 HS3. apply pwp_bind, pwp_assert. intros _. apply pwp_bind.
    eapply pwp_add_dirty; [done|]. intros s4 HS4. apply pwp_bind, pwp_get_client. intros cl Hc. apply pwp_bind. eapply pwp_put_client; [done..|].
    intros s5 HS5 _. apply pwp_bind. eapply pwp_signalModifiedKey; [done|]. intros s6 HS6. by eapply pwp_post.
  - apply pwp_bind. eapply pwp_setExpire; [done|by left|lia|cbn; lia|]. intros s3 o' e' Ek' HS3. rewrite Ek in Ek'. injection Ek' as <- <-. by eapply pwp_modified.
Qed.
Lemma pwp_ttl (output_ms : bool) v K s k : St v K s →
  pwp (o ← lookupKeyRead clk i k;
      match o with
      | None => ret (RInt (-2))
      | Some _ =>
          expire ← getExpire i k;
          ttl ← (if expire =? -1 then ret (-1) else
                 now ← mstime clk; ttl ← ll (expire - now); ret (if ttl <? 0 then 0 else ttl));
          ret (RInt (if ttl =? -1 then -1 else if output_ms then ttl else (ttl + 500) / 1000))
      end) (post (spec_ttl t output_ms k v)) s.
Proof using Hmaster.
  intros HS. apply pwp_bind, (pwp_lookupKeyRead v K); [done|]. intros s1 HS1. unfold spec_ttl.
  destruct (v !! k) as [[o e]|] eqn:Ek; cbn [fmap option_fmap option_map fst]; [|by eapply pwp_post].
  apply pwp_bind. eapply pwp_getExpire; [done|by left|]. rewrite Ek. cbn [mbind option_bind snd]. apply pwp_bind.
  destruct e as [w|]; [|by eapply pwp_ret, pwp_post].
  destruct (st_alive v _ s1 k o (Some w) HS1 Ek) as [_ Hw]. specialize (Hw w eq_refl). rewrite (proj2 (Z.eqb_neq w (-1))) by lia.
  apply pwp_bind. eapply pwp_mstime; [done|]. intros s2 HS2. apply pwp_bind, pwp_ll, pwp_ret.
  replace (if w - t <? 0 then 0 else w - t) with (Z.max 0 (w - t)) by (destruct (Z.ltb_spec (w - t) 0); lia).
  rewrite (proj2 (Z.eqb_neq _ (-1))) by lia. by eapply pwp_post.
Qed.
Lemma pwp_flushdb v K s : St v K s →
  pwp (db ← get_db i; add_dirty (Z.of_nat (size (db_dict db)));; signalFlushedDb (Some i);; clear_db i;; ret ROk) (post (ROk, ∅)) s.
Proof using Type.
  intros HS. apply pwp_bind, pwp_get_db. intros db _. apply pwp_bind. eapply pwp_add_dirty; [done|]. intros s1 HS1. apply pwp_bind.
  apply (pwp_mono _ (λ _ s', St v K s')).
  { apply pwp_bind, pwp_get. intros [] s2 [= <-]. eapply st_same; [done..|]. cbn. rewrite <- map_fmap_compose.
    apply map_fmap_ext. intros c cl _. cbn. by destruct (existsb _ _). }
  intros _ s2 HS2. apply pwp_bind, pwp_bind, pwp_get_db. intros db2 E2. intros [] s3 [= <-]. apply pwp_post with (K := []).
  destruct HS2 as [_ [Hlen Ho] Hc Hl Hcl]. split; try done; [|cbn; split; [by rewrite length_insert|intros j Hj; by rewrite list_lookup_insert_ne, Ho]]. eexists. cbn. split_and!.
  - apply list_lookup_insert_eq. by eapply lookup_lt_Some.
  - apply map_eq. intros k. rewrite lookup_live. cbn. by rewrite !lookup_empty.
  - by intros k ?%elem_of_nil.
  - intros k w. cbn. by rewrite lookup_empty.
Qed.

Lemma pwp_with_args c cl f p s : clients s !! c = Some cl → c_db cl = i → pwp (f i (c_argv cl)) (post p) s → pwp (with_args c f) (post p) s.
Proof using Type. intros Hc Hi Hf. apply pwp_bind, pwp_get_client. intros cl' Hc'. rewrite Hc in Hc'. injection Hc' as <-. by rewrite Hi. Qed.
Lemma pwp_expire_now unit v K s c cl x k a : St v K s → clients s !! c = Some cl → c_db cl = i → c_argv cl = [x; k; a] →
  pwp (now ← mstime clk; expireGenericCommand clk now unit c) (post (spec_expire t t unit k a v)) s.
Proof using Hmaster.
  intros HS Hc Hi Ha. apply pwp_bind. intros now s1 [= <- <-]. eapply pwp_with_args; [done..|]. rewrite Ha. eapply pwp_expire. by eapply st_same.
Qed.

(** Every command has the replies of its specification. *)
Lemma proc_sim cmd c cl v K s p : St v K s → view_ok v → clients s !! c = Some cl → c_db cl = i →
  spec_command t cmd (c_argv cl) v = Some p → pwp (proc clk cmd c) (post p) s.
Proof using Hmaster.
  intros HS Hv Hc Hi Hp.
  assert (∀ f : nat → list (list Z) → M reply, pwp (f i (c_argv cl)) (post p) s → pwp (with_args c f) (post p) s) as Hargs by (intros f; by apply pwp_with_args).
  destruct cmd; cbn [spec_command] in Hp; try discriminate Hp; cbn [proc].
  all: try (apply Some_inj in Hp as <-; eapply Hargs; first [eapply (pwp_mset false); exact HS|eapply (pwp_mset true); exact HS|eapply pwp_flushdb; exact HS]).
  all: try (eapply Hargs; clear Hargs).
  all: destruct (c_argv cl) as [|x0 [|x1 [|x2 [|x3 [|x4 l]]]]] eqn:Ha; try discriminate Hp; apply Some_inj in Hp as <-; cbv beta iota.
  all: try (first [eapply pwp_get_key|eapply pwp_setGenericCommand|eapply pwp_getset|eapply pwp_append|eapply pwp_strlen|eapply pwp_setrange|eapply pwp_getrange
    |eapply pwp_incrDecrCommand|eapply pwp_exists|eapply pwp_type|eapply (pwp_rename false)|eapply (pwp_rename true)|eapply pwp_expire|eapply (pwp_ttl false)|eapply (pwp_ttl true)|eapply pwp_expire_now]; eassumption).
  all: try match goal with |- context [set_options ?l] => destruct (set_options l false false None UNIT_SECONDS) as [[[[? ?] ?] ?]|]; [eapply pwp_setGenericCommand|eapply pwp_post]; exact HS end.
  all: try (apply pwp_bind; eapply pwp_mono; [by eapply pwp_mget_loop|]; intros r s1 (-> & K1 & HS1); by eapply pwp_post).
  all: try (eapply pwp_getLL; [exact HS|]; intros n; try (apply pwp_bind, pwp_ll); eapply pwp_incrDecrCommand; exact HS).
  1: eapply (pwp_set_if true false); [exact HS|exact I].
  all: apply pwp_bind; eapply pwp_mono; [by eapply pwp_del_loop|]; intros r s1 (-> & K1 & HS1); by eapply pwp_post.
Qed.

End sim.

(** ** Time *)

Lemma lookup_purge t v k o e : purge t v !! k = Some (o, e) ↔ v !! k = Some (o, e) ∧ expired t e = false.
Proof. unfold purge. by rewrite map_lookup_filter_Some. Qed.
Lemma purge_eq t v v' : (∀ k o e, expired t e = false → v !! k = Some (o, e) ↔ v' !! k = Some (o, e)) → purge t v = purge t v'.
Proof. intros H. apply map_eq. intros k. apply option_eq. intros [o e]. rewrite !lookup_purge. naive_solver. Qed.
Lemma expired_later t t' e : t ≤ t' → expired t' e = false → expired t e = false.
Proof. destruct e as [w|]; cbn; [lia|done]. Qed.
Lemma purge_live t db : purge t (live t db) = live t db.
Proof.
  apply map_eq. intros k. apply option_eq. intros [o e]. rewrite lookup_purge, lookup_live.
  destruct (db_dict db !! k); cbn; [|naive_solver]. destruct (expired t (db_expires db !! k)) eqn:E; naive_solver.
Qed.
Lemma purge_later t t' v : t ≤ t' → purge t' (purge t v) = purge t' v.
Proof.
  intros Ht. apply purge_eq. intros k o e He. rewrite lookup_purge. pose proof (expired_later t t' e Ht He). naive_solver.
Qed.
Lemma live_later t t' db : t ≤ t' → live t' db = purge t' (live t db).
Proof.
  intros Ht. rewrite <- purge_live. apply purge_eq. intros k o e He. rewrite !lookup_live. destruct (db_dict db !! k); cbn; [|done].
  destruct (expired t' (db_expires db !! k)) eqn:E', (expired t (db_expires db !! k)) eqn:E; try done.
  - split; [done|]. intros [= _ <-]. congruence.
  - pose proof (expired_later t t' _ Ht E'). congruence.
Qed.

(** ** The specification of the server *)

(** The keys of each database, and the database each client has selected *)
Record specServer := mkSpec { sp_views : list view; sp_clients : gmap Z nat }.

(** MOVE drops the expire time. *)
Definition spec_move (t : Z) (i : nat) (v : view) (k n : list Z) (a : specServer) : reply * specServer :=
  match getLongLongFromObject (Some (ObjStr n)) with
  | None => (RError EOutOfRange, a)
  | Some id =>
      if (id <? 0) || (2 ^ 31 - 1 <? id) then (RError EOutOfRange, a) else
      match sp_views a !! Z.to_nat id with
      | None => (RError EOutOfRange, a)
      | Some w =>
          if bool_decide (i = Z.to_nat id) then (RError ESameObject, a) else
          match purge t v !! k, purge t w !! k with
          | Some (o, _), None =>
              (RInt 1, mkSpec (<[i := delete k (purge t v)]> (<[Z.to_nat id := <[k := (o, None)]> (purge t w)]> (sp_views a))) (sp_clients a))
          | _, _ => (RInt 0, a)
          end
      end
  end.
(** Watching, and the ends of transactions that are not open, do not touch the keys. *)
Definition session (cmd : command) : option reply :=
  match cmd with
  | CWatch | CUnwatch => Some ROk
  | CExec => Some (RError EExecWithoutMulti)
  | CDiscard => Some (RError EDiscardWithoutMulti)
  | _ => None
  end.
Definition spec_execute (t c : Z) (cmd : command) (argv : list (list Z)) (a : specServer) : option (reply * specServer) :=
  i ← sp_clients a !! c;
  v ← sp_views a !! i;
  match cmd, argv with
  | CSelect, [_; n] =>
      match getLongLongFromObject (Some (ObjStr n)) with
      | Some id => if (0 <=? i32 id) && (i32 id <? zlen (sp_views a)) then Some (ROk, mkSpec (sp_views a) (<[c := Z.to_nat (i32 id)]> (sp_clients a)))
                   else Some (RError EInvalidDb, a)
      | None => Some (RError EInvalidDb, a)
      end
  | CFlushall, _ => Some (ROk, mkSpec ((λ _, ∅) <$> sp_views a) (sp_clients a))
  | CMove, [_; k; n] => Some (spec_move t i v k n a)
  | (CWatch | CUnwatch | CExec | CDiscard), _ => r ← session cmd; Some (r, a)
  | _, _ => '(r, v) ← spec_command t cmd argv (purge t v); Some (r, mkSpec (<[i := v]> (sp_views a)) (sp_clients a))
  end.
Definition spec_step (t : Z) (ev : event) (a : specServer) : option (option reply * specServer) :=
  match ev with
  | EConnect c => if bool_decide (sp_clients a !! c = None) then Some (None, mkSpec (sp_views a) (<[c := 0%nat]> (sp_clients a))) else None
  | EClose c => if bool_decide (is_Some (sp_clients a !! c)) then Some (None, mkSpec (sp_views a) (delete c (sp_clients a))) else None
  | EExpireKey i k now => if bool_decide (i < length (sp_views a))%nat && (now <=? t) then Some (None, a) else None
  | ERequest c [] => None
  | ERequest c ((name :: _) as argv) =>
      if bool_decide (sp_clients a !! c = None) then None else
      if bool_decide (str "quit" = tolower <$> name) then Some (None, a) else
      match lookupCommand name with
      | None => Some (Some (RError EUnknown), a)
      | Some (cmd, arity, _) =>
          if ((0 <? arity) && negb (arity =? zlen argv)) || (zlen argv <? - arity) then Some (Some (RError EArity), a)
          else '(r, a) ← spec_execute t c cmd argv a; Some (Some r, a)
      end
  end.

(** Events at their times *)
Fixpoint spec_run (l : list (Z * event)) (a : specServer) : option (list (option reply) * specServer) :=
  match l with
  | [] => Some ([], a)
  | (t, ev) :: l => '(r, a) ← spec_step t ev a; '(rs, a) ← spec_run l a; Some (r :: rs, a)
  end.
Fixpoint play (l : list (Z * event)) (s : server) : option (list (option reply) * server) :=
  match l with
  | [] => Some ([], s)
  | (t, ev) :: l => '(r, s) ← step (λ _, t) ev s; '(rs, s) ← play l s; Some (r :: rs, s)
  end.

(** ** The simulation *)

Definition shows (t : Z) (db : redisDb) (v : view) : Prop := live t db = purge t v ∧ ∀ k w, db_expires db !! k = Some w → 0 ≤ w.
Record Sim (t : Z) (s : server) (a : specServer) : Prop := {
  sim_conf : conf s = master;
  sim_views : Forall2 (shows t) (dbs s) (sp_views a);
  sim_clients : c_view <$> clients s = (λ i, (i, false)) <$> sp_clients a
}.

Lemma sim_later t t' s a : t ≤ t' → Sim t s a → Sim t' s a.
Proof.
  intros Ht [Hc Hv Hcl]. split; try done. eapply Forall2_impl; [done|]. intros db v [Hl Hw]. split; [|done].
  by rewrite (live_later t t' db Ht), Hl, purge_later.
Qed.

(** What the commands on a database leave *)
Lemma st_dbs t i s0 v K s : St t i s0 v K s → (i < length (dbs s0))%nat →
  ∃ db, dbs s = <[i := db]> (dbs s0) ∧ shows t db v.
Proof.
  intros [(db & E & Hl & HK & Hw) [Hlen Ho] _ _ _] Hi. exists db. split.
  - apply list_eq. intros j. destruct (decide (j = i)) as [-> |Hne]; [by rewrite list_lookup_insert_eq|]. by rewrite list_lookup_insert_ne, Ho.
  - split; [|intros k w Hkw; by destruct (Hw k w Hkw)]. by rewrite <- Hl, purge_live.
Qed.

Lemma pwp_call_with (p : Z → M reply) c s (Q : reply → server → Prop) :
  pwp (p c) Q s → (∀ r s' l, Q r s' → Q r (mkServer (dbs s') (clients s') (dirty s') (conf s') (lua_time s') l (reads s'))) → pwp (call_with p c) Q s.
Proof.
  intros Hp HQ. apply pwp_bind, pwp_get, pwp_bind. eapply pwp_mono; [done|]. intros r s1 H1. apply pwp_bind, pwp_get, pwp_bind, pwp_get_client.
  intros cl _. apply pwp_bind. destruct (_ <? _); [|by apply pwp_ret, pwp_ret]. intros [] s2 [= <-]. by apply pwp_ret, HQ.
Qed.

Definition good (s : server) : Prop := lua_time s = None ∧ ∀ i db, dbs s !! i = Some db → db_wf db.

Lemma sim_same t s s' a : Sim t s a → dbs s' = dbs s → conf s' = conf s → c_view <$> clients s' = c_view <$> clients s → Sim t s' a.
Proof. intros [Hc Hv Hcl] E1 E2 E3. split; rewrite ?E1, ?E2, ?E3; done. Qed.
Lemma sim_client t s a c cl : Sim t s a → clients s !! c = Some cl → sp_clients a !! c = Some (c_db cl) ∧ f_multi cl = false.
Proof.
  intros [_ _ Hcl] Hc. assert ((c_view <$> clients s) !! c = Some (c_view cl)) as H by by rewrite lookup_fmap, Hc.
  rewrite Hcl, lookup_fmap in H. destruct (sp_clients a !! c) as [i|]; cbn in H; [|done]. by injection H as -> <-.
Qed.
Lemma sim_put_client t s a c cl cl' i : Sim t s a → clients s !! c = Some cl → c_view cl' = (i, false) →
  Sim t (mkServer (dbs s) (<[c := cl']> (clients s)) (dirty s) (conf s) (lua_time s) (propagated s) (reads s)) (mkSpec (sp_views a) (<[c := i]> (sp_clients a))).
Proof. intros [Hc Hv Hcl] Ec Ev. split; try done. cbn. by rewrite !fmap_insert, Hcl, Ev. Qed.

(** The state in which a command on the keys of a database begins *)
Lemma sim_st t s a i v : Sim t s a → good s → sp_views a !! i = Some v → St t i s (purge t v) [] s ∧ view_ok (purge t v).
Proof.
  intros [Hc Hv Hcl] [Hlua Hwf] Ev. destruct (Forall2_lookup_r _ _ _ _ _ Hv Ev) as (db & Edb & Hl & Hw). pose proof (Hwf i db Edb) as [Hval Hexp]. split.
  - split; try done. exists db. split_and!; try done; [by intros k ?%elem_of_nil|]. intros k w Hkw. split; [by eapply Hw|]. by destruct (Hexp k w Hkw).
  - intros k o e. rewrite <- Hl, lookup_live. destruct (db_dict db !! k) as [o'|] eqn:Ed; cbn; [|done].
    destruct (expired _ _); [done|]. intros [= -> _]. exact (Hval k (StringObj o) Ed).
Qed.
Lemma st_sim t s a i v K s' : Sim t s a → (i < length (dbs s))%nat → St t i s v K s' → Sim t s' (mkSpec (<[i := v]> (sp_views a)) (sp_clients a)).
Proof.
  intros [Hc Hv Hcl] Hi HS. destruct (st_dbs t i s v K s' HS Hi) as (db & Ed & Hs). destruct HS as [_ _ Hc' _ Hcl']. split; cbn [sp_views sp_clients].
  - by rewrite Hc'.
  - rewrite Ed. by apply Forall2_insert.
  - by rewrite Hcl'.
Qed.

(** ** Commands on several databases *)

Definition follows (t : Z) (p : reply * specServer) (r : reply) (s' : server) : Prop := r = p.1 ∧ Sim t s' p.2.

(** The lists of watched keys do not show. *)
Lemma sim_watched t s a i db wk : Sim t s a → dbs s !! i = Some db →
  Sim t (mkServer (<[i := set_watched db wk]> (dbs s)) (clients s) (dirty s) (conf s) (lua_time s) (propagated s) (reads s)) a.
Proof.
  intros [Hc Hv Hcl] Hdb. split; try done. cbn. destruct (Forall2_lookup_l _ _ _ _ _ Hv Hdb) as (v & Ev & Hs).
  rewrite <- (list_insert_id (sp_views a) i v Ev). by apply Forall2_insert.
Qed.
Lemma sim_same_client t s a c cl cl' : Sim t s a → clients s !! c = Some cl → c_view cl' = c_view cl →
  Sim t (mkServer (dbs s) (<[c := cl']> (clients s)) (dirty s) (conf s) (lua_time s) (propagated s) (reads s)) a.
Proof. intros HS Hc Ev. eapply sim_same; [done..|]. cbn. rewrite fmap_insert, Ev. apply insert_id. by rewrite lookup_fmap, Hc. Qed.
Lemma unwatch_sim t c s a (Q : unit → server → Prop) : Sim t s a → (∀ s', Sim t s' a → Q tt s') → pwp (unwatchAllKeys c) Q s.
Proof.
  intros HS HQ. apply pwp_bind, pwp_get_client. intros cl _. apply (pwp_foreach (λ _ s', Sim t s' a)); [done| |done].
  intros [i k] l s1 HS1. apply pwp_bind, pwp_get_db. intros db Hdb. destruct (db_watched_keys db !! k) as [l1|]; [|apply pwp_fail].
  destruct (del_node c l1) as [l2|]; [|apply pwp_fail]. apply pwp_bind. intros [] s2 [= <-].
  match goal with |- context [set_watched db ?wk] => pose proof (sim_watched t s1 a i db wk HS1 Hdb) as HS2 end.
  apply pwp_bind, pwp_get_client. intros cl2 Hc2 [] s3 [= <-]. by apply (sim_same_client t _ a c cl2 _ HS2).
Qed.
Lemma watch_sim t c k s a : Sim t s a → pwp (watchForKey c k) (λ _ s', Sim t s' a) s.
Proof.
  intros HS. apply pwp_bind, pwp_get_client. intros cl Hc. case_bool_decide; [by apply pwp_ret|]. apply pwp_bind, pwp_get_db. intros db Hdb.
  cbv zeta. apply pwp_bind. intros [] s1 [= <-].
  match goal with |- context [set_watched db ?wk] => pose proof (sim_watched t s a (c_db cl) db wk HS Hdb) as HS1 end.
  intros [] s2 [= <-]. by apply (sim_same_client t _ a c cl _ HS1).
Qed.
Lemma session_sim t s a c cl cmd r : Sim t s a → clients s !! c = Some cl → session cmd = Some r →
  pwp (match cmd with CExec => execCommand (λ _, t) | _ => proc (λ _, t) cmd end c) (follows t (r, a)) s.
Proof.
  intros HS Hc Hr. destruct (sim_client t s a c cl HS Hc) as [_ Hm].
  destruct cmd; try done; apply Some_inj in Hr as <-; cbn [proc].
  1, 2: apply pwp_bind, pwp_get_client; intros cl' Hc'; assert (cl' = cl) as -> by congruence; rewrite Hm; by apply pwp_ret.
  - apply pwp_bind, pwp_get_client. intros cl' Hc'. assert (cl' = cl) as -> by congruence. rewrite Hm. apply pwp_bind.
    apply (pwp_foreach (λ _ s', Sim t s' a)); [done| |by intros; apply pwp_ret]. intros k l s1 HS1. by apply watch_sim.
  - apply pwp_bind. eapply unwatch_sim; [done|]. intros s1 HS1. apply pwp_bind, pwp_get_client. intros cl1 Hc1. apply pwp_bind.
    intros [] s2 [= <-]. apply pwp_ret. split; [done|]. by apply (sim_same_client t _ a c cl1 _ HS1).
Qed.


Lemma select_sim t s a c cl p : Sim t s a → clients s !! c = Some cl → spec_execute t c CSelect (c_argv cl) a = Some p →
  pwp (selectCommand c) (follows t p) s.
Proof.
  intros HS Hc. destruct (sim_client t s a c cl HS Hc) as [Ha Hm]. unfold spec_execute. rewrite Ha. cbn [mbind option_bind].
  destruct (sp_views a !! c_db cl) as [v|]; [|done]. cbn [mbind option_bind].
  destruct (c_argv cl) as [|x0 [|x1 [|x2 l]]] eqn:Eargv; try done. intros Hp.
  apply pwp_bind, pwp_get_client. intros cl' Hc'. rewrite Hc in Hc'. injection Hc' as <-. rewrite Eargv.
  destruct (getLongLongFromObject _) as [id|]; [|injection Hp as <-; by apply pwp_ret].
  apply pwp_bind, pwp_bind, pwp_get, pwp_bind, pwp_get_client. intros cl' Hc'. rewrite Hc in Hc'. injection Hc' as <-.
  assert (zlen (dbs s) = zlen (sp_views a)) as -> by (unfold zlen; f_equal; eapply Forall2_length, HS).
  destruct ((i32 id <? 0) || (zlen (sp_views a) <=? i32 id)) eqn:Er.
  - replace ((0 <=? i32 id) && (i32 id <? zlen (sp_views a))) with false in Hp by lia. injection Hp as <-. by apply pwp_ret, pwp_ret.
  - replace ((0 <=? i32 id) && (i32 id <? zlen (sp_views a))) with true in Hp by lia. apply Some_inj in Hp as <-.
    apply pwp_bind. intros [] s1 [= <-]. apply pwp_ret, pwp_ret. split; [done|]. eapply sim_put_client; [done..|]. unfold c_view. cbn. by rewrite Hm.
Qed.

Lemma pwp_emptyDb (Q : Z → server → Prop) s :
  (∀ n s', conf s' = conf s → clients s' = clients s → length (dbs s') = length (dbs s) →
    (∀ j db, dbs s' !! j = Some db → db_dict db = ∅ ∧ db_expires db = ∅) → Q n s') → pwp emptyDb Q s.
Proof.
  intros HQ. apply pwp_bind, pwp_get, pwp_bind.
  apply (pwp_foreach (λ l s', conf s' = conf s ∧ clients s' = clients s ∧ length (dbs s') = length (dbs s) ∧
    (∀ j db, dbs s' !! j = Some db → j ∉ l → db_dict db = ∅ ∧ db_expires db = ∅))).
  - split_and!; try done. intros j db Hj%lookup_lt_Some Hn. destruct Hn. apply elem_of_seq. lia.
  - intros j l s1 (E1 & E2 & E3 & E4). apply pwp_bind, pwp_get_db. intros db Hdb. intros [] s2 [= <-]. split_and!; try done; cbn.
    + by rewrite length_insert.
    + intros j' db' [(-> & <- & _)|(Hne & Hj')]%list_lookup_insert_Some Hl; [done|]. apply (E4 j'); [done|]. set_solver.
  - intros s1 (E1 & E2 & E3 & E4). apply pwp_ret, HQ; try done. intros j db Hj. apply (E4 j); [done|]. apply not_elem_of_nil.
Qed.
Lemma flushall_sim t s a c : Sim t s a → pwp (flushallCommand c) (follows t (ROk, mkSpec ((λ _, ∅) <$> sp_views a) (sp_clients a))) s.
Proof.
  intros HS. apply pwp_bind, (pwp_mono _ (λ _ s', Sim t s' a)).
  { apply pwp_bind, pwp_get. intros [] s1 [= <-]. eapply sim_same; [done..|]. cbn. rewrite <- map_fmap_compose.
    apply map_fmap_ext. intros c' cl _. cbn. by destruct (existsb _ _). }
  intros _ s1 HS1. apply pwp_bind, pwp_emptyDb. intros n s2 E1 E2 E3 E4. destruct HS1 as [Hc Hv Hcl].
  apply pwp_bind. intros [] s3 [= <-]. apply pwp_bind. intros [] s4 [= <-]. apply pwp_ret. split; [done|]. split; cbn.
  - congruence.
  - apply Forall2_fmap_r, Forall2_same_length_lookup. split; [by rewrite E3; eapply Forall2_length|]. intros j db v Hj _.
    destruct (E4 j db Hj) as [Ed Ee]. split.
    + apply map_eq. intros k. rewrite lookup_live, Ed. done.
    + intros k w. by rewrite Ee.
  - by rewrite E2.
Qed.

Lemma st_restart t i s0 v K s s' : St t i s0 v K s → dbs s' !! i = dbs s !! i → St t i s' v K s'.
Proof. intros [Hdb _ _ _ _] E. split; try done. by rewrite E. Qed.
(** A view without its expired keys shows the same. *)
Lemma sim_purged t s a i v : sp_views a !! i = Some v → Sim t s (mkSpec (<[i := purge t v]> (sp_views a)) (sp_clients a)) → Sim t s a.
Proof.
  intros Ev [Hc Hv Hcl]. split; try done. cbn [sp_views] in Hv.
  apply Forall2_same_length_lookup. pose proof (Forall2_length _ _ _ Hv) as Hlen. rewrite length_insert in Hlen. split; [done|].
  intros j db' v' Hj Hv'. destruct (Forall2_lookup_l _ _ _ _ _ Hv Hj) as (v1 & Hv1 & Hs).
  apply list_lookup_insert_Some in Hv1 as [(-> & <- & _)|(Hne & Hv1)]; [|assert (v1 = v') as <- by congruence; exact Hs].
  assert (v' = v) as -> by congruence. destruct Hs as [Hl Hs]. split; [|done]. by rewrite Hl, purge_later.
Qed.

(** The keys of MOVE, once the other database is known *)
Lemma move_keys_sim t s a i j v w k : 0 ≤ t → Sim t s a → good s → sp_views a !! i = Some v → sp_views a !! j = Some w → i ≠ j →
  pwp (o ← lookupKeyWrite (λ _, t) i k;
       match o with
       | None => ret (RInt 0)
       | Some o =>
           d ← lookupKeyWrite (λ _, t) j k;
           match d with Some _ => ret (RInt 0) | None => dbAdd j k o;; dbDelete i k;; add_dirty 1;; ret (RInt 1) end
       end)
    (follows t (match purge t v !! k, purge t w !! k with
                | Some (o, _), None => (RInt 1, mkSpec (<[i := delete k (purge t v)]> (<[j := <[k := (o, None)]> (purge t w)]> (sp_views a))) (sp_clients a))
                | _, _ => (RInt 0, a)
                end)) s.
Proof.
  intros Ht HS [Hlua Hwf] Ei Ej Hne. destruct (sim_st t s a i v HS (conj Hlua Hwf) Ei) as [Hi _]. destruct (sim_st t s a j w HS (conj Hlua Hwf) Ej) as [Hj _].
  pose proof (sim_conf _ _ _ HS) as Hconf. assert ((i < length (dbs s))%nat) as Hil by (erewrite Forall2_length by apply HS; by eapply lookup_lt_Some).
  assert ((j < length (dbs s))%nat) as Hjl by (erewrite Forall2_length by apply HS; by eapply lookup_lt_Some).
  apply pwp_bind, (pwp_lookupKeyWrite t i s) with (v := purge t v) (K := []); [by rewrite Hconf|done|]. intros s1 Hi1.
  pose proof (sim_purged t s1 a i v Ei (st_sim t s a i _ _ s1 HS Hil Hi1)) as HS1.
  destruct (purge t v !! k) as [[o e]|] eqn:Ek; cbn [fmap option_fmap option_map fst]; [|by apply pwp_ret].
  pose proof Hi1 as [_ [Hlen1 Ho1] Hc1 Hlua1 _]. apply (st_restart t j _ _ _ _ s1) in Hj; [|by apply Ho1].
  apply pwp_bind, (pwp_lookupKeyWrite t j s1) with (v := purge t w) (K := []); [by rewrite Hc1, Hconf, Hlua1|done|]. intros s2 Hj2.
  pose proof (sim_purged t s2 a j w Ej (st_sim t s1 a j _ _ s2 HS1 ltac:(lia) Hj2)) as HS2.
  destruct (purge t w !! k) as [[o' e']|] eqn:Ek'; cbn [fmap option_fmap option_map fst]; [by apply pwp_ret|].
  apply pwp_bind. eapply (pwp_dbAdd t j s1); [done|by left|]. intros s3 _ Hj3. pose proof (st_sim t s1 a j _ _ s3 HS1 ltac:(lia) Hj3) as HS3.
  pose proof Hj3 as [_ [Hlen3 Ho3] _ _ _]. apply (st_restart t i _ _ _ _ s3) in Hi1; [|by apply Ho3].
  apply pwp_bind. eapply (pwp_dbDelete t i s3); [done|by left|]. intros s4 Hi4. apply pwp_bind. eapply (pwp_add_dirty t i s3); [done|].
  intros s5 Hi5. apply pwp_ret. split; [done|]. exact (st_sim t s3 _ i _ _ s5 HS3 ltac:(lia) Hi5).
Qed.
Lemma move_sim t s a c cl p : 0 ≤ t → Sim t s a → good s → clients s !! c = Some cl → spec_execute t c CMove (c_argv cl) a = Some p →
  pwp (moveCommand (λ _, t) c) (follows t p) s.
Proof.
  intros Ht HS Hg Hc. destruct (sim_client t s a c cl HS Hc) as [Ha Hm]. unfold spec_execute. rewrite Ha. cbn [mbind option_bind].
  destruct (sp_views a !! c_db cl) as [v|] eqn:Ev; [|done]. cbn [mbind option_bind].
  destruct (c_argv cl) as [|x0 [|k [|n [|x3 l]]]] eqn:Eargv; try done. intros Hp%Some_inj. unfold spec_move in Hp.
  apply pwp_bind, pwp_get_client. intros cl' Hc1. assert (cl' = cl) as -> by congruence. clear Hc1. rewrite Eargv.
  destruct (getLongLongFromObject _) as [id|]; [|subst p; by apply pwp_ret].
  assert (zlen (dbs s) = zlen (sp_views a)) as Elen by (unfold zlen; f_equal; eapply Forall2_length, HS).
  pose proof (lookup_lt_Some _ _ _ Ev) as Hil.
  destruct ((id <? - 2 ^ 31) || (2 ^ 31 - 1 <? id)) eqn:Er.
  { replace ((id <? 0) || (2 ^ 31 - 1 <? id)) with true in Hp by lia. subst p. by apply pwp_ret. }
  apply pwp_bind, pwp_bind, pwp_get, pwp_bind, pwp_get_client. intros cl' Hc'. assert (cl' = cl) as -> by congruence. rewrite Elen.
  destruct ((id <? 0) || (zlen (sp_views a) <=? id)) eqn:Es.
  { apply pwp_ret. cbn [negb]. apply pwp_ret. destruct (Z.ltb_spec id 0); [by subst p|]. cbn [orb] in Hp, Es. destruct (_ <? _); [by subst p|].
    rewrite lookup_ge_None_2 in Hp; [by subst p|]. unfold zlen in Es. lia. }
  replace ((id <? 0) || (2 ^ 31 - 1 <? id)) with false in Hp by lia.
  destruct (lookup_lt_is_Some_2 (sp_views a) (Z.to_nat id)) as [w Ew]; [unfold zlen in Es; lia|]. rewrite Ew in Hp.
  apply pwp_bind. intros [] s1 [= <-]. apply pwp_ret. cbn [negb]. apply pwp_bind, pwp_get_client. cbn [clients]. intros cl1 Hc1.
  rewrite lookup_insert_eq in Hc1. apply Some_inj in Hc1 as <-. cbv zeta. cbn [set_db c_db].
  apply pwp_bind, pwp_bind, pwp_get, pwp_bind, pwp_get_client. cbn [clients dbs]. intros cl1 Hc1. rewrite lookup_insert_eq in Hc1. apply Some_inj in Hc1 as <-.
  rewrite Elen. replace ((Z.of_nat (c_db cl) <? 0) || (zlen (sp_views a) <=? Z.of_nat (c_db cl))) with false by (unfold zlen; lia).
  apply pwp_bind. intros [] s1 [= <-]. apply pwp_ret. cbn [dbs clients dirty conf lua_time propagated reads]. rewrite insert_insert_eq.
  set (cl1 := set_db _ _). assert (c_view cl1 = c_view cl) as Ecl by by unfold c_view; cbn; rewrite Nat2Z.id.
  pose proof (sim_same_client t s a c cl cl1 HS Hc Ecl) as HS1. destruct (bool_decide (c_db cl = Z.to_nat id)) eqn:Eij; [subst p; by apply pwp_ret|].
  apply bool_decide_eq_false in Eij. subst p. by apply move_keys_sim.
Qed.

(** ** Requests *)

Lemma execute_sim t c cmd cl s a p : 0 ≤ t → Sim t s a → good s → clients s !! c = Some cl →
  spec_execute t c cmd (c_argv cl) a = Some p → pwp (call (λ _, t) cmd c) (follows t p) s.
Proof.
  intros Ht HS Hg Hc Hp. assert (∀ q, (∀ r s' l, follows t q r s' → follows t q r (mkServer (dbs s') (clients s') (dirty s') (conf s') (lua_time s') l (reads s')))) as Hprop.
  { intros q r s' l [-> HS']. split; [done|]. by eapply sim_same. }
  apply pwp_call_with; [|apply Hprop]. destruct (decide (cmd = CSelect)) as [-> |Hn1]; [by eapply select_sim|].
  destruct (decide (cmd = CMove)) as [-> |Hn2]; [by eapply move_sim|].
  destruct (sim_client t s a c cl HS Hc) as [Ha Hm]. unfold spec_execute in Hp. rewrite Ha in Hp. cbn [mbind option_bind] in Hp.
  destruct (sp_views a !! c_db cl) as [v|] eqn:Ev; [|done]. cbn [mbind option_bind] in Hp.
  destruct (decide (cmd = CFlushall)) as [-> |Hn3]; [apply Some_inj in Hp as <-; by apply flushall_sim|].
  destruct (session cmd) as [r0|] eqn:Es.
  { assert (p = (r0, a)) as -> by (destruct cmd; try done; apply Some_inj in Es as <-; by apply Some_inj in Hp as <-). by eapply session_sim. }
  assert (∃ r v', spec_command t cmd (c_argv cl) (purge t v) = Some (r, v') ∧ p = (r, mkSpec (<[c_db cl := v']> (sp_views a)) (sp_clients a))) as (r & v' & Hr & ->).
  { destruct cmd; try done; destruct (spec_command _ _ _ _) as [[r v']|]; try discriminate Hp; apply Some_inj in Hp as <-; by exists r, v'. }
  destruct (sim_st t s a _ v HS Hg Ev) as [HSt Hok].
  assert (pwp (proc (λ _, t) cmd c) (post t (c_db cl) s (r, v')) s) as Hpr.
  { eapply proc_sim; try done. destruct Hg. split; [done|]. rewrite (sim_conf _ _ _ HS). done. }
  assert (cmd ≠ CExec) as Hx by (intros ->; done).
  replace (match cmd with CExec => execCommand (λ _, t) | _ => proc (λ _, t) cmd end) with (proc (λ _, t) cmd) by (by destruct cmd).
  eapply pwp_mono; [exact Hpr|]. intros r' s' [-> [K HS']]. split; [done|]. eapply st_sim; [done| |done].
  erewrite Forall2_length by apply HS. by eapply lookup_lt_Some.
Qed.

Definition follows' (t : Z) (p : option reply * specServer) (r : option reply) (s' : server) : Prop := r = p.1 ∧ Sim t s' p.2.

Lemma denied_master cmd : denied master cmd = None.
Proof. unfold denied. cbn. by rewrite !andb_false_r. Qed.
Lemma sim_flag t s a c e p : Sim t s a → p = (Some (RError e), a) → pwp (flagTransaction c;; ret (Some (RError e))) (follows' t p) s.
Proof.
  intros HS ->. apply pwp_bind, pwp_bind, pwp_get_client. intros cl Hc. intros [] s1 [= <-]. apply pwp_ret. split; [done|].
  eapply sim_same; [done..|]. cbn. rewrite fmap_insert. apply insert_id. by rewrite lookup_fmap, Hc.
Qed.
Lemma request_sim t c argv s a p : 0 ≤ t → Sim t s a → good s → spec_step t (ERequest c argv) a = Some p →
  pwp (step (λ _, t) (ERequest c argv)) (follows' t p) s.
Proof.
  intros Ht HS Hg Hp. destruct argv as [|name args]; [done|]. cbn [spec_step] in Hp. set (argv := name :: args) in *.
  apply pwp_bind, pwp_get_client. intros cl0 Hc0. destruct (sim_client t s a c cl0 HS Hc0) as [Ha Hm]. rewrite bool_decide_false in Hp by by rewrite Ha.
  apply pwp_bind. intros [] s1 [= <-]. set (s1 := mkServer _ _ _ _ _ _ _).
  assert (Sim t s1 a) as HS1.
  { eapply sim_same; [done..|]. cbn. rewrite fmap_insert. apply insert_id. by rewrite lookup_fmap, Hc0. }
  assert (clients s1 !! c = Some (set_argv cl0 argv)) as Hc1 by apply lookup_insert_eq. assert (good s1) as Hg1 by done.
  clearbody s1. apply pwp_bind, pwp_get_client. intros cl Hc. rewrite Hc1 in Hc. injection Hc as <-. cbn [set_argv c_argv]. unfold argv at 1.
  destruct (bool_decide _); [apply Some_inj in Hp as <-; by apply pwp_ret|].
  destruct (lookupCommand name) as [[[cmd arity] ro]|]; [|apply Some_inj in Hp as <-; by eapply sim_flag].
  destruct (_ || _); [apply Some_inj in Hp as <-; by eapply sim_flag|].
  apply pwp_bind, pwp_get. rewrite (sim_conf _ _ _ HS1), denied_master. cbn [f_multi set_argv]. rewrite Hm. cbn [andb].
  destruct (spec_execute t c cmd argv a) as [[r a']|] eqn:Ep; [|done]. apply Some_inj in Hp as <-.
  apply pwp_bind. eapply pwp_mono; [by eapply (execute_sim t c cmd _ s1 a (r, a') Ht HS1 Hg1 Hc1)|]. intros r' s' [-> HS']. by apply pwp_ret.
Qed.

(** ** The other events *)

Lemma connect_sim t c s a p : Sim t s a → spec_step t (EConnect c) a = Some p → pwp (step (λ _, t) (EConnect c)) (follows' t p) s.
Proof.
  intros [Hc Hv Hcl]. cbn [spec_step]. destruct (bool_decide _); [|done]. intros [= <-]. apply pwp_bind. intros [] s1 [= <-]. apply pwp_ret. split; [done|].
  split; try done. cbn. by rewrite !fmap_insert, Hcl.
Qed.
Lemma close_sim t c s a p : Sim t s a → spec_step t (EClose c) a = Some p → pwp (step (λ _, t) (EClose c)) (follows' t p) s.
Proof.
  intros HS. cbn [spec_step]. destruct (bool_decide _); [|done]. intros [= <-]. apply pwp_bind, pwp_bind. eapply unwatch_sim; [done|].
  intros s1 [Hc Hv Hcl]. apply pwp_bind, pwp_get. intros [] s2 [= <-]. apply pwp_ret. split; [done|]. split; try done. cbn. by rewrite !fmap_delete, Hcl.
Qed.
(** The expire cycle only removes what does not show. *)
Lemma expire_sim t i k now s a p : Sim t s a → good s → spec_step t (EExpireKey i k now) a = Some p →
  pwp (step (λ _, t) (EExpireKey i k now)) (follows' t p) s.
Proof.
  intros HS Hg. cbn [spec_step]. destruct (_ && _) eqn:E; [|done]. intros [= <-]. apply andb_prop in E as [Hi%bool_decide_eq_true Hnow].
  destruct (lookup_lt_is_Some_2 _ _ Hi) as [v Ev]. apply pwp_bind, pwp_bind, pwp_get_db. intros db Hdb.
  destruct (db_expires db !! k) as [w|] eqn:Ee; [|by apply pwp_ret, pwp_ret]. destruct (Z.ltb_spec w now) as [Hw|Hw]; [|by apply pwp_ret, pwp_ret].
  destruct (sim_st t s a i v HS Hg Ev) as [HSt _]. apply pwp_bind. intros [] s1 [= <-]. apply pwp_bind.
  eapply (pwp_expire_dbDelete t i s (purge t v) []); [by eapply st_same|done..|cbn; lia|]. intros b s2 HSt2. apply pwp_ret, pwp_ret. split; [done|].
  apply (st_sim t s a) in HSt2; [|done|by eapply lookup_lt_Some]. by eapply sim_purged.
Qed.

(** ** Executions *)

Definition args_ok (ev : event) : Prop := match ev with ERequest _ argv => Forall arg_ok argv | _ => True end.

Lemma spec_event_ok t ev s a p : 0 ≤ t ≤ time_limit → Sim t s a → args_ok ev → spec_step t ev a = Some p → event_ok false 0 time_limit s ev.
Proof.
  intros Ht [Hc Hv Hcl] Hargs. assert (∀ c, is_Some (clients s !! c) ↔ is_Some (sp_clients a !! c)) as Hin.
  { intros c. rewrite <- (fmap_is_Some c_view), <- lookup_fmap, Hcl, lookup_fmap, fmap_is_Some. done. }
  destruct ev as [c|c|c argv|i k now]; cbn [spec_step event_ok].
  - destruct (bool_decide _) eqn:E; [|done]. apply bool_decide_eq_true in E. intros _. apply eq_None_not_Some. rewrite Hin, E. by intros [? ?].
  - destruct (bool_decide _) eqn:E; [|done]. apply bool_decide_eq_true in E. intros _. split; [by apply Hin|done].
  - destruct argv as [|name args]; [done|]. destruct (bool_decide _) eqn:E; [done|]. apply bool_decide_eq_false in E. intros _.
    split; [apply Hin; by apply not_eq_None_Some|]. split_and!; done.
  - destruct (_ && _) eqn:E; [|done]. apply andb_prop in E as [E%bool_decide_eq_true E']. intros _. rewrite (Forall2_length _ _ _ Hv). split; [done|lia].
Qed.

Lemma step_sim t ev s a p : 0 ≤ t ≤ time_limit → ok false 0 s time_limit s → Sim t s a → args_ok ev → spec_step t ev a = Some p →
  ∃ s', step (λ _, t) ev s = Some (p.1, s') ∧ ok false 0 s' time_limit s' ∧ Sim t s' p.2.
Proof.
  intros Ht Hok HS Hargs Hp. assert (good s) as Hg by (destruct Hok as [Hwf _ _]; split; apply Hwf).
  assert (pwp (step (λ _, t) ev) (follows' t p) s) as Hpwp.
  { destruct ev; [by eapply connect_sim|by eapply close_sim| |by eapply expire_sim]. eapply request_sim; try done. lia. }
  assert (∀ m : nat, t ≤ time_limit) as Hlim by (intros; lia).
  pose proof (step_ok false 0 s time_limit (λ _, t) (λ _, Ht) Hlim ev s Hok (spec_event_ok t ev s a p Ht HS Hargs Hp)) as Hwp.
  unfold wp in Hwp. destruct (step (λ _, t) ev s) as [[r s']|] eqn:E; [|done]. destruct (Hpwp r s' E) as [-> HS']. exists s'. split_and!; try done.
  destruct Hwp as [? ? _]. by split.
Qed.
Lemma play_sim t0 l s a rs a' : ok false 0 s time_limit s → Sim t0 s a → Sorted Z.le (t0 :: l.*1) →
  Forall (λ '(t, ev), 0 ≤ t ≤ time_limit ∧ args_ok ev) l → spec_run l a = Some (rs, a') →
  ∃ s', play l s = Some (rs, s') ∧ ∃ t1, Sim t1 s' a' ∧ Forall (λ t, t ≤ t1) (t0 :: l.*1) ∧ t1 ∈ t0 :: l.*1.
Proof.
  revert t0 s a rs. induction l as [|[t ev] l IH]; intros t0 s a rs Hok HS Hsort Hl Hrun.
  - injection Hrun as <- <-. exists s. split; [done|]. exists t0. split_and!; [done| |by left]. by repeat constructor.
  - cbn [spec_run] in Hrun. destruct (spec_step t ev a) as [p|] eqn:Ep; [|done]. cbn [mbind option_bind] in Hrun.
    apply Forall_cons in Hl as [[Ht Hargs] Hl]. cbn in Hsort. apply Sorted_inv in Hsort as [Hsort Hhd]. apply HdRel_inv in Hhd.
    apply (sim_later t0 t) in HS; [|done]. destruct (step_sim t ev s a p Ht Hok HS Hargs Ep) as (s1 & Hst & Hok1 & HS1).
    destruct p as [r a1]. cbn in Hst, HS1. destruct (spec_run l a1) as [[rs1 a2]|] eqn:Er; [|done]. injection Hrun as <- <-.
    destruct (IH t s1 a1 rs1 Hok1 HS1 Hsort Hl Er) as (s2 & Hp & t1 & HS2 & Hall & Hin). exists s2. cbn [play]. rewrite Hst. cbn [mbind option_bind].
    rewrite Hp. split; [done|]. exists t1. split_and!; [done| |by right]. constructor; [|exact Hall]. apply Forall_inv in Hall. lia.
Qed.

Lemma initial_sim n : (0 < n)%nat → ok false 0 (initial n master) time_limit (initial n master) ∧ Sim 0 (initial n master) (mkSpec (replicate n ∅) ∅).
Proof.
  intros Hn. split; [split; [by apply initial_wf|by destruct n; [lia|]|done]|]. split; cbn.
  - done.
  - apply Forall2_same_length_lookup. split; [by rewrite !length_replicate|]. intros i db v [-> _]%lookup_replicate [-> _]%lookup_replicate. by split.
  - done.
Qed.

(** ** The executions covered *)

(** PERSIST and DBSIZE do see keys that have expired; MULTI opens a transaction. *)
Definition covered (cmd : command) : bool := match cmd with CPersist | CDbsize | CMulti => false | _ => true end.
(** Clients are connected when they send requests, requests are not empty, and the
    expire cycle works on a database that exists, at a time that is not later. *)
Fixpoint valid (n : nat) (C : gset Z) (l : list (Z * event)) : bool :=
  match l with
  | [] => true
  | (_, EConnect c) :: l => bool_decide (c ∉ C) && valid n ({[c]} ∪ C) l
  | (_, EClose c) :: l => bool_decide (c ∈ C) && valid n (C ∖ {[c]}) l
  | (_, ERequest c argv) :: l =>
      bool_decide (c ∈ C) &&
      match argv with
      | [] => false
      | name :: _ => match lookupCommand name with Some (cmd, _, _) => covered cmd | None => true end
      end && valid n C l
  | (t, EExpireKey i k now) :: l => bool_decide (i < n)%nat && (now <=? t) && valid n C l
  end.

Record spec_wf (n : nat) (C : gset Z) (a : specServer) : Prop := {
  spec_len : length (sp_views a) = n;
  spec_dom : dom (sp_clients a) = C;
  spec_db c i : sp_clients a !! c = Some i → (i < n)%nat
}.
Lemma spec_command_total t cmd argv v : argc_ok cmd (length argv) → covered cmd = true → session cmd = None →
  cmd ≠ CSelect → cmd ≠ CMove → cmd ≠ CFlushall → is_Some (spec_command t cmd argv v).
Proof.
  intros Hargc Hcov Hses ? ? ?. destruct argv as [|x0 [|x1 [|x2 [|x3 [|x4 l]]]]]; destruct cmd; try done; cbn [argc_ok length] in Hargc; try lia.
Qed.
Lemma spec_move_wf t i v k m n C a : spec_wf n C a → spec_wf n C (spec_move t i v k m a).2.
Proof.
  intros Ha. unfold spec_move. repeat case_match; try done. destruct Ha as [Hlen Hdom Hdb]. split; cbn; [by rewrite !length_insert|done..].
Qed.
Lemma spec_execute_total t c cmd argv n C a : spec_wf n C a → c ∈ C → argc_ok cmd (length argv) → covered cmd = true →
  ∃ r a', spec_execute t c cmd argv a = Some (r, a') ∧ spec_wf n C a'.
Proof.
  intros Ha Hc Hargc Hcov. pose proof Ha as [Hlen Hdom Hdb]. rewrite <- Hdom in Hc. apply elem_of_dom in Hc as [i Hi].
  destruct (lookup_lt_is_Some_2 (sp_views a) i) as [v Hv]; [rewrite Hlen; by eapply Hdb|].
  assert (∀ v', spec_wf n C (mkSpec (<[i := v']> (sp_views a)) (sp_clients a))) as Hput by by intros v'; split; cbn; [rewrite length_insert|..].
  unfold spec_execute. rewrite Hi. cbn [mbind option_bind]. rewrite Hv. cbn [mbind option_bind].
  destruct (session cmd) as [r|] eqn:Es; [exists r, a; split; [|done]; by destruct cmd|].
  destruct (decide (cmd = CFlushall)) as [-> |Hf]; [eexists _, _; split; [done|]; by split; cbn; [rewrite length_fmap|..]|].
  destruct (decide (cmd = CSelect)) as [-> |Hs].
  { cbn [argc_ok] in Hargc. destruct argv as [|x0 [|x1 [|x2 l]]]; try done. destruct (getLongLongFromObject _) as [id|]; [|by eexists _, _].
    destruct (_ && _) eqn:E; [|by eexists _, _]. eexists _, _. split; [done|]. split; cbn; [done| |].
    - rewrite dom_insert_L, Hdom. apply elem_of_dom_2 in Hi. set_solver.
    - intros c' i' [(<- & <-)|(? & ?)]%lookup_insert_Some; [unfold zlen in E; lia|by eapply Hdb]. }
  destruct (decide (cmd = CMove)) as [-> |Hm].
  { cbn [argc_ok] in Hargc. destruct argv as [|x0 [|x1 [|x2 [|x3 l]]]]; try done. destruct (spec_move _ _ _ _ _ _) as [r a'] eqn:E. exists r, a'. split; [done|].
    change a' with (r, a').2. rewrite <- E. by apply spec_move_wf. }
  destruct (spec_command_total t cmd argv (purge t v) Hargc Hcov Es Hs Hm Hf) as [[r v'] E]. exists r, (mkSpec (<[i := v']> (sp_views a)) (sp_clients a)).
  split; [|done]. rewrite E. by destruct cmd.
Qed.
Lemma spec_request_total t c argv n C a l : spec_wf n C a → valid n C ((t, ERequest c argv) :: l) = true →
  ∃ r a', spec_step t (ERequest c argv) a = Some (r, a') ∧ spec_wf n C a'.
Proof.
  intros Ha. cbn [valid]. intros [[Hc%bool_decide_eq_true Hcov]%andb_prop _]%andb_prop. destruct argv as [|name args]; [done|]. cbn [spec_step].
  rewrite bool_decide_false by (rewrite <- (spec_dom n C a Ha) in Hc; by apply elem_of_dom, not_eq_None_Some in Hc).
  destruct (bool_decide _); [by eexists _, _|]. destruct (lookupCommand name) as [[[cmd arity] ro]|] eqn:El; [|by eexists _, _].
  destruct (_ || _) eqn:Ea; [by eexists _, _|]. apply (lookupCommand_argc name cmd arity ro) in Ea; [|done].
  destruct (spec_execute_total t c cmd (name :: args) n C a Ha Hc Ea Hcov) as (r & a' & E & Ha'). rewrite E. by eexists _, _.
Qed.
Lemma spec_run_total n C l a : (0 < n)%nat → spec_wf n C a → valid n C l = true → ∃ rs a', spec_run l a = Some (rs, a').
Proof.
  intros Hn. revert C a. induction l as [|[t ev] l IH]; intros C a Ha Hl; [by eexists _, _|].
  assert (∃ r a1 C1, spec_step t ev a = Some (r, a1) ∧ spec_wf n C1 a1 ∧ valid n C1 l = true) as (r & a1 & C1 & E & Ha1 & Hl1).
  { pose proof Ha as [Hlen Hdom Hdb]. destruct ev as [c|c|c argv|i k now].
    - cbn [valid] in Hl. apply andb_prop in Hl as [Hc%bool_decide_eq_true Hl]. cbn [spec_step]. rewrite <- Hdom, not_elem_of_dom in Hc. rewrite Hc.
      eexists _, _, _. split; [done|]. split; [|exact Hl]. split; cbn; [done|by rewrite dom_insert_L, Hdom|].
      intros c' i [(<- & <-)|(? & ?)]%lookup_insert_Some; [done|by eapply Hdb].
    - cbn [valid] in Hl. apply andb_prop in Hl as [Hc%bool_decide_eq_true Hl]. cbn [spec_step]. rewrite <- Hdom, elem_of_dom in Hc. rewrite bool_decide_true by done.
      eexists _, _, _. split; [done|]. split; [|exact Hl]. split; cbn; [done|by rewrite dom_delete_L, Hdom|].
      intros c' i [? ?]%lookup_delete_Some. by eapply Hdb.
    - destruct (spec_request_total t c argv n C a l Ha Hl) as (r & a' & E & Ha'). exists r, a', C. split_and!; try done.
      cbn [valid] in Hl. by apply andb_prop in Hl as [_ Hl].
    - cbn [valid] in Hl. apply andb_prop in Hl as [[Hi%bool_decide_eq_true Hnow]%andb_prop Hl]. cbn [spec_step].
      rewrite bool_decide_true, Hnow by lia. by exists None, a, C. }
  destruct (IH C1 a1 Ha1 Hl1) as (rs & a' & Er). cbn [spec_run]. rewrite E. cbn [mbind option_bind]. rewrite Er. by eexists _, _.
Qed.

(** C4. Lazy expiration cannot be observed by the commands that look their keys up.
    The server removes an expired key when a command meets it or when the expire
    cycle picks it; the specification is a server from which every key disappears as
    soon as its time has passed.  On every sequence of connections, requests,
    disconnections and steps of the expire cycle, at times that do not decrease, the
    specification has replies, and the server returns with the same replies; and at
    every later time the keys that have not expired are those of the specification.
    The requests may be any of those of the command table (GET, SET, SETNX, SETEX,
    PSETEX, APPEND, STRLEN, DEL, EXISTS, SETRANGE, GETRANGE, INCR, DECR, INCRBY,
    DECRBY, MGET, GETSET, MSET, MSETNX, SELECT, MOVE, RENAME, RENAMENX, EXPIRE,
    EXPIREAT, PEXPIRE, PEXPIREAT, TYPE, TTL, PTTL, FLUSHDB, FLUSHALL, WATCH, UNWATCH,
    EXEC and DISCARD without MULTI) except for three: PERSIST, which brings back an
    expired key, DBSIZE, which counts the expired keys that are still there, and
    MULTI: transactions are not covered.  The server is a master that is not loading,
    the clock reads the same time during one event, and integers that are arguments
    are far from the limits of their type. *)
Theorem lazy_expiration n l :
  (0 < n)%nat → Sorted Z.le (0 :: l.*1) → Forall (λ '(t, ev), 0 ≤ t ≤ time_limit ∧ args_ok ev) l → valid n ∅ l = true →
  ∃ rs a s, spec_run l (mkSpec (replicate n ∅) ∅) = Some (rs, a) ∧ play l (initial n master) = Some (rs, s) ∧
    ∀ t, Forall (λ '(t', _), t' ≤ t) l → 0 ≤ t → live t <$> dbs s = purge t <$> sp_views a.
Proof.
  intros Hn Hsort Hl Hval. destruct (initial_sim n Hn) as [Hok HS]. destruct (spec_run_total n ∅ l (mkSpec (replicate n ∅) ∅) Hn) as (rs & a & Hrun); [|done|].
  { split; cbn; [by rewrite length_replicate|by rewrite dom_empty_L|done]. }
  destruct (play_sim 0 l _ _ rs a Hok HS Hsort Hl Hrun) as (s & Hp & t1 & HS1 & _ & Hin).
  exists rs, a, s. split_and!; try done. intros t Hall Ht. apply (sim_later t1 t) in HS1 as [_ Hv _].
  - clear -Hv. induction Hv as [|db v dbs vs [Hl _] _ IH]; [done|]. cbn. by rewrite Hl, IH.
  - apply elem_of_cons in Hin as [-> |([t' ev] & -> & Hin)%list_elem_of_fmap]; [done|].
    rewrite list.Forall_forall in Hall. apply (Hall (t', ev) Hin).
Qed.
Definition lazy_demo : list (Z * event) :=
  [(100, EConnect 1); (100, EConnect 2); (100, req 1 ["PSETEX"; "k"; "500"; "12"]%string); (110, req 2 ["INCRBY"; "k"; "30"]%string);
   (120, req 1 ["SELECT"; "1"]%string); (120, req 1 ["MSET"; "a"; "1"; "b"; "2"]%string); (130, req 1 ["EXPIRE"; "a"; "1"]%string);
   (140, req 2 ["WATCH"; "k"]%string);
   (600, req 2 ["RENAME"; "k"; "m"]%string); (600, req 2 ["PTTL"; "m"]%string); (601, req 2 ["APPEND"; "m"; "x"]%string);
   (1140, req 2 ["MOVE"; "m"; "1"]%string); (1200, req 1 ["MOVE"; "a"; "0"]%string);
   (1200, EExpireKey 1 (str "a") 1150); (1200, req 1 ["DEL"; "a"; "b"; "c"]%string); (1300, req 1 ["MGET"; "k"; "m"]%string)].
Definition lazy_replies : list (option reply) :=
  [None; None; Some ROk; Some (RInt 42); Some ROk; Some ROk; Some (RInt 1); Some ROk; Some ROk; Some (RInt 0); Some (RInt 1); Some (RInt 1);
   Some (RInt 0); None; Some (RInt 1); Some (RMulti [RNullBulk; RBulk (str "x")])].
Example lazy_demo_replies : fst <$> play lazy_demo (initial 2 master) = Some lazy_replies.
Proof. vm_compute. reflexivity. Qed.
Lemma lazy_expiration_witness : ∃ rs a s, spec_run lazy_demo (mkSpec (replicate 2 ∅) ∅) = Some (rs, a) ∧ play lazy_demo (initial 2 master) = Some (rs, s) ∧
  ∀ t, Forall (λ '(t', _), t' ≤ t) lazy_demo → 0 ≤ t → live t <$> dbs s = purge t <$> sp_views a.
Proof.
  refine (lazy_expiration 2 lazy_demo _ _ _ _).
  - lia.
  - cbn. repeat first [apply Sorted_nil|apply Sorted_cons|apply HdRel_nil|apply HdRel_cons]; lia.
  - repeat (apply Forall_cons; split); [..|constructor]; (split; [unfold time_limit; lia|]); first [exact I|by_decision].
  - vm_compute. reflexivity.
Defined.
(** The commands left out do see expired keys. *)
Example expired_seen :
  fst <$> play [(100, EConnect 1); (100, req 1 ["PSETEX"; "k"; "500"; "12"]%string); (700, req 1 ["DBSIZE"]%string); (700, req 1 ["PERSIST"; "k"]%string);
    (700, req 1 ["GET"; "k"]%string)] (initial 1 master)
  = Some [None; Some ROk; Some (RInt 1); Some (RInt 1); Some (RBulk (str "12"))].
Proof. vm_compute. reflexivity. Qed.
