(* ===== verification/Mrg.v ===== *)
(** * Mrg: the random number generator of the graphs (graph500/generator)

    The multiple recursive generator of splittable_mrg.c over the arithmetic modulo
    2^31 - 1 of mod_arith_64bit.h (the default, [FAST_64BIT_ARITHMETIC]), with the
    matrices that skip ahead.  [None] is a failed assertion or a read outside of the
    table.  [uint_fast32_t] has 64 bits (x86-64). *)

From Stdlib Require Import Uint63.
From S2P Require Import Prelude MrgTable.

Local Open Scope Z_scope.

(** [assert] *)
Definition assert_ (b : bool) : option () := if b then Some () else None.
Definition M31 : Z := 0x7FFFFFFF.
(** [a <= 0x7FFFFFFE] *)
Definition in31 (a : Z) : bool := a <=? 0x7FFFFFFE.

(** ** mod_arith_64bit.h *)

Definition mod_add (a b : Z) : option Z := _ ← assert_ (in31 a); _ ← assert_ (in31 b); Some (u64 (a + b) mod M31).
Definition mod_mul (a b : Z) : option Z := _ ← assert_ (in31 a); _ ← assert_ (in31 b); Some (u64 (a * b) mod M31).
Definition mod_mac (sum a b : Z) : option Z :=
  _ ← assert_ (in31 sum); _ ← assert_ (in31 a); _ ← assert_ (in31 b); Some (u64 (u64 (a * b) + sum) mod M31).
Definition mod_mac2 (sum a b c d : Z) : option Z :=
  _ ← assert_ (in31 sum); _ ← assert_ (in31 a); _ ← assert_ (in31 b); _ ← assert_ (in31 c); _ ← assert_ (in31 d);
  Some (u64 (u64 (u64 (a * b) + u64 (c * d)) + sum) mod M31).
Definition mod_mac3 (sum a b c d e f : Z) : option Z :=
  _ ← assert_ (in31 sum); _ ← assert_ (in31 a); _ ← assert_ (in31 b); _ ← assert_ (in31 c); _ ← assert_ (in31 d); _ ← assert_ (in31 e); _ ← assert_ (in31 f);
  Some (u64 (u64 (u64 (u64 (a * b) + u64 (c * d)) + u64 (e * f)) + sum) mod M31).
Definition mod_mac4 (sum a b c d e f g h : Z) : option Z :=
  _ ← assert_ (in31 sum); _ ← assert_ (in31 a); _ ← assert_ (in31 b); _ ← assert_ (in31 c); _ ← assert_ (in31 d); _ ← assert_ (in31 e); _ ← assert_ (in31 f);
  _ ← assert_ (in31 g); _ ← assert_ (in31 h);
  Some (u64 (u64 (u64 (u64 (u64 (a * b) + u64 (c * d)) + u64 (e * f)) + u64 (g * h)) + sum) mod M31).
Definition mod_mul_x (a : Z) : option Z := mod_mul a 107374182.
Definition mod_mul_y (a : Z) : option Z := mod_mul a 104480.
Definition mod_mac_y (sum a : Z) : option Z := mod_mac sum a 104480.

(** ** splittable_mrg.c *)

Record mrg_state := mkSt { z1 : Z; z2 : Z; z3 : Z; z4 : Z; z5 : Z }.
Record mrg_transition_matrix := mkMat { ms : Z; mt : Z; mu : Z; mv : Z; mw : Z; ma : Z; mb : Z; mc : Z; md : Z }.

Definition matrix_of (r : row9) : mrg_transition_matrix :=
  match r with R s t u v w a b c d => mkMat (to_Z s) (to_Z t) (to_Z u) (to_Z v) (to_Z w) (to_Z a) (to_Z b) (to_Z c) (to_Z d) end.
(** [&mrg_skip_matrices[byte_index][val]] *)
Definition mrg_skip_matrices (byte_index val : Z) : option mrg_transition_matrix :=
  if (byte_index <? 0) || (val <? 0) then None else
  rows ← nth_error mrg_skip_rows (Z.to_nat byte_index); r ← nth_error rows (Z.to_nat val); Some (matrix_of r).

Definition mrg_apply_transition (mat : mrg_transition_matrix) (st : mrg_state) : option mrg_state :=
  p1 ← mod_mul (md mat) (z1 st); q1 ← mod_mac4 0 (ms mat) (z2 st) (ma mat) (z3 st) (mb mat) (z4 st) (mc mat) (z5 st); o1 ← mod_mac_y p1 q1;
  p2 ← mod_mac2 0 (mc mat) (z1 st) (mw mat) (z2 st); q2 ← mod_mac3 0 (ms mat) (z3 st) (ma mat) (z4 st) (mb mat) (z5 st); o2 ← mod_mac_y p2 q2;
  p3 ← mod_mac3 0 (mb mat) (z1 st) (mv mat) (z2 st) (mw mat) (z3 st); q3 ← mod_mac2 0 (ms mat) (z4 st) (ma mat) (z5 st); o3 ← mod_mac_y p3 q3;
  p4 ← mod_mac4 0 (ma mat) (z1 st) (mu mat) (z2 st) (mv mat) (z3 st) (mw mat) (z4 st); q4 ← mod_mul (ms mat) (z5 st); o4 ← mod_mac_y p4 q4;
  p5 ← mod_mac3 0 (ms mat) (z1 st) (mt mat) (z2 st) (mu mat) (z3 st); o5 ← mod_mac2 p5 (mv mat) (z4 st) (mw mat) (z5 st);
  Some (mkSt o1 o2 o3 o4 o5).
Definition mrg_step (mat : mrg_transition_matrix) (state : mrg_state) : option mrg_state := mrg_apply_transition mat state.

Definition mrg_orig_step (state : mrg_state) : option mrg_state :=
  p ← mod_mul_x (z1 state); new_elt ← mod_mac_y p (z5 state);
  Some (mkSt new_elt (z1 state) (z2 state) (z3 state) (z4 state)).

(** [for (byte_index = ...; exponent; ++byte_index, exponent >>= 8)]; a 64-bit
    exponent has 8 bytes. *)
Fixpoint skip_loop (fuel : nat) (byte_index exponent : Z) (state : mrg_state) : option mrg_state :=
  if exponent =? 0 then Some state else
  match fuel with
  | O => None
  | S fuel =>
      let val := Z.land exponent 0xFF in
      state ← (if val =? 0 then Some state else mat ← mrg_skip_matrices byte_index val; mrg_step mat state);
      skip_loop fuel (byte_index + 1) (Z.shiftr exponent 8) state
  end.
Definition mrg_skip (state : mrg_state) (exponent_high exponent_middle exponent_low : Z) : option mrg_state :=
  state ← skip_loop 8 0 exponent_low state;
  state ← skip_loop 8 8 exponent_middle state;
  skip_loop 8 16 exponent_high state.

Definition mrg_get_uint_orig (state : mrg_state) : option (mrg_state * Z) := state ← mrg_orig_step state; Some (state, z1 state).
Definition mrg_seed (seed : list Z) : option mrg_state :=
  match seed with s0 :: s1 :: s2 :: s3 :: s4 :: _ => Some (mkSt s0 s1 s2 s3 s4) | _ => None end.

(** utils.c *)
Definition make_mrg_seed (userseed1 userseed2 : Z) : list Z :=
  [u32 (u32 (Z.land userseed1 0x3FFFFFFF) + 1);
   u32 (u32 (Z.land (Z.shiftr userseed1 30) 0x3FFFFFFF) + 1);
   u32 (u32 (Z.land userseed2 0x3FFFFFFF) + 1);
   u32 (u32 (Z.land (Z.shiftr userseed2 30) 0x3FFFFFFF) + 1);
   u32 (u32 (u32 (u64 (Z.shiftl (Z.shiftr userseed2 60) 4)) + u32 (Z.shiftr userseed1 60)) + 1)].

(** ** The program that writes the table (splittable_mrg.c, [DUMP_TRANSITION_TABLE]) *)

(** The matrix of [s], [t], [u], [v], [w], with the cached fields *)
Definition mrg_update_cache (s t u v w : Z) : option mrg_transition_matrix :=
  p ← mod_mul_x s; a ← mod_add p t;
  p ← mod_mul_x a; b ← mod_add p u;
  p ← mod_mul_x b; c ← mod_add p v;
  p ← mod_mul_x c; d ← mod_add p w;
  Some (mkMat s t u v w a b c d).
Definition mrg_make_identity : option mrg_transition_matrix := mrg_update_cache 0 0 0 0 1.
Definition mrg_make_A : option mrg_transition_matrix := mrg_update_cache 0 0 0 1 0.
Definition mrg_multiply (m n : mrg_transition_matrix) : option mrg_transition_matrix :=
  p ← mod_mul (ms m) (md n); p ← mod_mac p (mt m) (mc n); p ← mod_mac p (mu m) (mb n); p ← mod_mac p (mv m) (ma n); rs ← mod_mac p (mw m) (ms n);
  p ← mod_mul (ms m) (ms n); p ← mod_mul_y p; p ← mod_mac p (mt m) (mw n); p ← mod_mac p (mu m) (mv n); p ← mod_mac p (mv m) (mu n); rt ← mod_mac p (mw m) (mt n);
  p ← mod_mul (ms m) (ma n); p ← mod_mac p (mt m) (ms n); p ← mod_mul_y p; p ← mod_mac p (mu m) (mw n); p ← mod_mac p (mv m) (mv n); ru ← mod_mac p (mw m) (mu n);
  p ← mod_mul (ms m) (mb n); p ← mod_mac p (mt m) (ma n); p ← mod_mac p (mu m) (ms n); p ← mod_mul_y p; p ← mod_mac p (mv m) (mw n); rv ← mod_mac p (mw m) (mv n);
  p ← mod_mul (ms m) (mc n); p ← mod_mac p (mt m) (mb n); p ← mod_mac p (mu m) (ma n); p ← mod_mac p (mv m) (ms n); p ← mod_mul_y p; rw ← mod_mac p (mw m) (mw n);
  mrg_update_cache rs rt ru rv rw.
(** [while (exponent > 0)]: an [unsigned int] is halved at most 32 times. *)
Fixpoint power_loop (fuel : nat) (current_power_of_2 : mrg_transition_matrix) (exponent : Z) (result : mrg_transition_matrix) : option mrg_transition_matrix :=
  if exponent <=? 0 then Some result else
  match fuel with
  | O => None
  | S fuel =>
      result ← (if exponent mod 2 =? 1 then mrg_multiply result current_power_of_2 else Some result);
      current_power_of_2 ← mrg_multiply current_power_of_2 current_power_of_2;
      power_loop fuel current_power_of_2 (exponent / 2) result
  end.
Definition mrg_power (m : mrg_transition_matrix) (exponent : Z) : option mrg_transition_matrix :=
  result ← mrg_make_identity; power_loop 32 m exponent result.
(** [transitions[i]] of [dump_mrg_powers], and the matrix it writes for byte [i] and
    value [j] *)
Fixpoint transitions (i : nat) : option mrg_transition_matrix :=
  match i with O => mrg_make_A | S i => m ← transitions i; mrg_power m 256 end.
Definition dump_mrg_powers (i : nat) (j : Z) : option mrg_transition_matrix :=
  if j =? 0 then mrg_make_identity else
  m ← transitions i; if j =? 1 then Some m else mrg_power m j.
