(* ===== verification/Mod32.v ===== *)
(** * Mod32: arithmetic modulo 2^31 - 1 for 32-bit machines (graph500/generator/mod_arith_32bit.h)

    The variant without 64-bit remainders; [uint_fast32_t] and [int_fast32_t] have 32
    bits.  [None] is a failed assertion or a signed overflow. *)

From S2P Require Import Prelude Mrg.

Local Open Scope Z_scope.

(** [(x >= 0x7FFFFFFF) ? (x - 0x7FFFFFFF) : x] *)
Definition reduce (x : Z) : Z := if M31 <=? x then u32 (x - M31) else x.
Definition mod_add (a b : Z) : option Z := _ ← assert_ (in31 a); _ ← assert_ (in31 b); Some (reduce (u32 (a + b))).
Definition fold_ (temp : Z) : Z := reduce (u32 (u32 (Z.land temp M31) + u32 (Z.shiftr temp 31))).
Definition mod_mul (a b : Z) : option Z := _ ← assert_ (in31 a); _ ← assert_ (in31 b); Some (fold_ (u64 (a * b))).
Definition mod_mac (sum a b : Z) : option Z :=
  _ ← assert_ (in31 sum); _ ← assert_ (in31 a); _ ← assert_ (in31 b); Some (fold_ (u64 (u64 (a * b) + sum))).
Definition mod_mac2 (sum a b c d : Z) : option Z :=
  _ ← assert_ (in31 sum); _ ← assert_ (in31 a); _ ← assert_ (in31 b); _ ← assert_ (in31 c); _ ← assert_ (in31 d);
  r ← mod_mac sum a b; mod_mac r c d.
Definition mod_mac3 (sum a b c d e f : Z) : option Z :=
  _ ← assert_ (in31 sum); _ ← assert_ (in31 a); _ ← assert_ (in31 b); _ ← assert_ (in31 c); _ ← assert_ (in31 d); _ ← assert_ (in31 e); _ ← assert_ (in31 f);
  r ← mod_mac sum a b; mod_mac2 r c d e f.
Definition mod_mac4 (sum a b c d e f g h : Z) : option Z :=
  _ ← assert_ (in31 sum); _ ← assert_ (in31 a); _ ← assert_ (in31 b); _ ← assert_ (in31 c); _ ← assert_ (in31 d); _ ← assert_ (in31 e); _ ← assert_ (in31 f);
  _ ← assert_ (in31 g); _ ← assert_ (in31 h);
  r ← mod_mac2 sum a b c d; mod_mac2 r e f g h.
(** An [int_fast32_t] of 32 bits: overflow is undefined. *)
Definition int32 (x : Z) : option Z := if (- 2 ^ 31 <=? x) && (x <? 2 ^ 31) then Some x else None.
(** Multiplication by a constant [m] with [q] and [r] the quotient and remainder of the
    modulus by it *)
Definition mul_const (m q r a : Z) : option Z :=
  let result := Z.quot (i32 a) q in
  rq ← int32 (result * q);
  d ← int32 (i32 a - rq);
  md ← int32 (m * d);
  rr ← int32 (result * r);
  result ← int32 (md - rr);
  result ← int32 (result + (if result <? 0 then M31 else 0));
  chk ← mod_mul a m;
  _ ← assert_ (u32 result =? chk);
  Some (u32 result).
Definition mod_mul_x (a : Z) : option Z := mul_const 107374182 20 7 a.
Definition mod_mul_y (a : Z) : option Z := mul_const 104480 20554 1727 a.
Definition mod_mac_y (sum a : Z) : option Z :=
  r ← mod_mul_y a;
  result ← mod_add sum r;
  chk ← mod_mac sum a 104480;
  _ ← assert_ (result =? chk);
  Some result.
