(* ===== verification/MrgSpec.v ===== *)
(** * MrgSpec: skipping ahead is the iteration of steps

    The matrices of the table are powers of the transition matrix, so that
    [mrg_skip] by a 192-bit exponent gives the state after that number of steps.
    A matrix is determined by its last row, a linear form on states: the other
    components of a state are the last ones of the following states.  The table is
    checked by computation with machine integers. *)

From Stdlib Require Import Uint63 Znumtheory.
From S2P Require Import Prelude MrgTable Mod32 Mrg.

Local Open Scope Z_scope.

(** ** Arithmetic modulo 2^31 - 1 *)

Definition lt31 (a : Z) : Prop := 0 ≤ a < 0x7FFFFFFF.
Lemma lt31_mod a : lt31 (a mod M31).
Proof. apply Z.mod_pos_bound. done. Qed.
Lemma lt31_prod a b : lt31 a → lt31 b → 0 ≤ a * b ≤ 0x7FFFFFFE * 0x7FFFFFFE.
Proof. unfold lt31. nia. Qed.
Lemma in31_ok {A} a (k : () → option A) : lt31 a → (assert_ (in31 a) ≫= k) = k ().
Proof. unfold lt31, assert_, in31. intros H. rewrite (proj2 (Z.leb_le _ _)) by lia. done. Qed.
Create HintDb lt31.
#[local] Hint Resolve lt31_mod : lt31.
Ltac solve31 := first [assumption | apply lt31_mod | unfold lt31; lia].
Ltac asserts := repeat rewrite in31_ok by solve31.
Ltac nowrap := repeat match goal with |- context [u64 ?e] => rewrite (wrapu_small 64 e) by (unfold in_u; lia) end.

Lemma mod_mul_eq a b : lt31 a → lt31 b → mod_mul a b = Some ((a * b) mod M31).
Proof. intros Ha Hb. unfold mod_mul. asserts. pose proof (lt31_prod a b Ha Hb). by nowrap. Qed.
Lemma mod_add_eq a b : lt31 a → lt31 b → mod_add a b = Some ((a + b) mod M31).
Proof. intros Ha Hb. unfold mod_add. asserts. unfold lt31 in *. by nowrap. Qed.
Lemma mod_mac_eq s a b : lt31 s → lt31 a → lt31 b → mod_mac s a b = Some ((a * b + s) mod M31).
Proof. intros Hs Ha Hb. unfold mod_mac. asserts. pose proof (lt31_prod a b Ha Hb). unfold lt31 in Hs. by nowrap. Qed.
Lemma mod_mac2_eq s a b c d : lt31 s → lt31 a → lt31 b → lt31 c → lt31 d → mod_mac2 s a b c d = Some ((a * b + c * d + s) mod M31).
Proof. intros Hs Ha Hb Hc Hd. unfold mod_mac2. asserts. pose proof (lt31_prod a b Ha Hb). pose proof (lt31_prod c d Hc Hd). unfold lt31 in Hs. by nowrap. Qed.
Lemma mod_mac3_eq s a b c d e f : lt31 s → lt31 a → lt31 b → lt31 c → lt31 d → lt31 e → lt31 f →
  mod_mac3 s a b c d e f = Some ((a * b + c * d + e * f + s) mod M31).
Proof.
  intros Hs Ha Hb Hc Hd He Hf. unfold mod_mac3. asserts. pose proof (lt31_prod a b Ha Hb). pose proof (lt31_prod c d Hc Hd). pose proof (lt31_prod e f He Hf). unfold lt31 in Hs. by nowrap.
Qed.
Lemma mod_mac4_eq s a b c d e f g h : lt31 s → lt31 a → lt31 b → lt31 c → lt31 d → lt31 e → lt31 f → lt31 g → lt31 h →
  mod_mac4 s a b c d e f g h = Some ((a * b + c * d + e * f + g * h + s) mod M31).
Proof.
  intros Hs Ha Hb Hc Hd He Hf Hg Hh. unfold mod_mac4. asserts. pose proof (lt31_prod a b Ha Hb). pose proof (lt31_prod c d Hc Hd). pose proof (lt31_prod e f He Hf).
  pose proof (lt31_prod g h Hg Hh). unfold lt31 in Hs. by nowrap.
Qed.
Ltac mods := repeat (first
  [ rewrite mod_mac4_eq by solve31 | rewrite mod_mac3_eq by solve31 | rewrite mod_mac2_eq by solve31 | rewrite mod_mac_eq by solve31
  | rewrite mod_mul_eq by solve31 | rewrite mod_add_eq by solve31 ]; cbn [mbind option_bind]).

(** Congruence, under which the moduli inside of an expression can be dropped *)
Definition eqm31 (a b : Z) : Prop := a mod M31 = b mod M31.
#[local] Instance eqm31_equiv : Equivalence eqm31.
Proof. split; [done|by intros ? ?|intros a b c; unfold eqm31; congruence]. Qed.
#[local] Instance eqm31_add : Proper (eqm31 ==> eqm31 ==> eqm31) Z.add.
Proof. intros a a' Ha b b' Hb. unfold eqm31 in *. by rewrite (Z.add_mod a), (Z.add_mod a'), Ha, Hb by done. Qed.
#[local] Instance eqm31_mul : Proper (eqm31 ==> eqm31 ==> eqm31) Z.mul.
Proof. intros a a' Ha b b' Hb. unfold eqm31 in *. by rewrite (Z.mul_mod a), (Z.mul_mod a'), Ha, Hb by done. Qed.
Lemma mod_eqm a : eqm31 (a mod M31) a.
Proof. unfold eqm31. by rewrite Z.mod_mod. Qed.
Lemma eqm_mod a b : eqm31 a b → a mod M31 = b mod M31.
Proof. done. Qed.
Ltac congr := apply eqm_mod; repeat setoid_rewrite mod_eqm.

(** ** States and steps *)

Definition st_ok (st : mrg_state) : Prop := lt31 (z1 st) ∧ lt31 (z2 st) ∧ lt31 (z3 st) ∧ lt31 (z4 st) ∧ lt31 (z5 st).
(** One step on the numbers *)
Definition next_state (st : mrg_state) : mrg_state := mkSt ((107374182 * z1 st + 104480 * z5 st) mod M31) (z1 st) (z2 st) (z3 st) (z4 st).
Definition after (n : N) (st : mrg_state) : mrg_state := N.iter n next_state st.

Lemma next_ok st : st_ok st → st_ok (next_state st).
Proof. intros (H1 & H2 & H3 & H4 & H5). split_and!; cbn [next_state z1 z2 z3 z4 z5]; try done. apply lt31_mod. Qed.
Lemma after_ok n st : st_ok st → st_ok (after n st).
Proof. intros H. unfold after. apply N.iter_invariant; [|done]. intros; by apply next_ok. Qed.
Lemma after_add n m st : after (n + m) st = after n (after m st).
Proof. unfold after. apply N.iter_add. Qed.
Lemma after_succ n st : after (N.succ n) st = next_state (after n st).
Proof. unfold after. apply N.iter_succ. Qed.
Lemma after_next n st : after n (next_state st) = next_state (after n st).
Proof. unfold after. apply N.iter_swap. Qed.
Lemma orig_step_eq st : st_ok st → mrg_orig_step st = Some (next_state st).
Proof.
  intros (H1 & H2 & H3 & H4 & H5). unfold mrg_orig_step, mod_mul_x, mod_mac_y. mods. unfold next_state. do 2 f_equal. congr. unfold eqm31. f_equal. lia.
Qed.

(** ** Linear forms *)

Definition form (m : mrg_transition_matrix) (st : mrg_state) : Z := (ms m * z1 st + mt m * z2 st + mu m * z3 st + mv m * z4 st + mw m * z5 st) mod M31.
Record mat_ok (m : mrg_transition_matrix) : Prop := {
  mk_s : lt31 (ms m); mk_t : lt31 (mt m); mk_u : lt31 (mu m); mk_v : lt31 (mv m); mk_w : lt31 (mw m);
  mk_a : ma m = (107374182 * ms m + mt m) mod M31; mk_b : mb m = (107374182 * ma m + mu m) mod M31;
  mk_c : mc m = (107374182 * mb m + mv m) mod M31; mk_d : md m = (107374182 * mc m + mw m) mod M31
}.
(** A transition gives the form on the state and on the next four. *)
Lemma apply_forms m st : mat_ok m → st_ok st → mrg_apply_transition m st =
  Some (mkSt (form m (next_state (next_state (next_state (next_state st))))) (form m (next_state (next_state (next_state st))))
    (form m (next_state (next_state st))) (form m (next_state st)) (form m st)).
Proof.
  intros [Hs Ht Hu Hv Hw Ea Eb Ec Ed] (H1 & H2 & H3 & H4 & H5). assert (lt31 (ma m) ∧ lt31 (mb m) ∧ lt31 (mc m) ∧ lt31 (md m)) as (Ha & Hb & Hc & Hd) by (rewrite Ed, Ec, Eb, Ea; split_and!; apply lt31_mod).
  unfold mrg_apply_transition, mod_mac_y. mods.
  assert (eqm31 (ma m) (107374182 * ms m + mt m)) as Ca by (rewrite Ea; apply mod_eqm). assert (eqm31 (mb m) (107374182 * ma m + mu m)) as Cb by (rewrite Eb; apply mod_eqm).
  assert (eqm31 (mc m) (107374182 * mb m + mv m)) as Cc by (rewrite Ec; apply mod_eqm). assert (eqm31 (md m) (107374182 * mc m + mw m)) as Cd by (rewrite Ed; apply mod_eqm).
  clear Ea Eb Ec Ed. unfold form, next_state. cbn [z1 z2 z3 z4 z5]. do 2 f_equal; congr; rewrite ?Cd, ?Cc, ?Cb, ?Ca; unfold eqm31; f_equal; ring.
Qed.

(** The matrix [m] advances a state by [n] steps. *)
Definition advances (m : mrg_transition_matrix) (n : N) : Prop := mat_ok m ∧ ∀ st, st_ok st → form m st = z5 (after n st).
Lemma advances_apply m n st : advances m n → st_ok st → mrg_apply_transition m st = Some (after n st).
Proof.
  intros [Hm Hf] Hst. pose proof (next_ok _ Hst) as H1. pose proof (next_ok _ H1) as H2. pose proof (next_ok _ H2) as H3. pose proof (next_ok _ H3) as H4.
  rewrite apply_forms by done. rewrite !Hf by done. rewrite !after_next. by destruct (after n st).
Qed.
(** The form of a product *)
Definition product (m n r : mrg_transition_matrix) : Prop :=
  eqm31 (ms r) (ms m * md n + mt m * mc n + mu m * mb n + mv m * ma n + mw m * ms n) ∧
  eqm31 (mt r) (104480 * (ms m * ms n) + mt m * mw n + mu m * mv n + mv m * mu n + mw m * mt n) ∧
  eqm31 (mu r) (104480 * (ms m * ma n) + 104480 * (mt m * ms n) + mu m * mw n + mv m * mv n + mw m * mu n) ∧
  eqm31 (mv r) (104480 * (ms m * mb n) + 104480 * (mt m * ma n) + 104480 * (mu m * ms n) + mv m * mw n + mw m * mv n) ∧
  eqm31 (mw r) (104480 * (ms m * mc n) + 104480 * (mt m * mb n) + 104480 * (mu m * ma n) + 104480 * (mv m * ms n) + mw m * mw n).
Lemma cache_eqm m : mat_ok m → eqm31 (ma m) (107374182 * ms m + mt m) ∧ eqm31 (mb m) (107374182 * ma m + mu m) ∧
  eqm31 (mc m) (107374182 * mb m + mv m) ∧ eqm31 (md m) (107374182 * mc m + mw m).
Proof. intros [_ _ _ _ _ Ea Eb Ec Ed]. split_and!; [rewrite Ea|rewrite Eb|rewrite Ec|rewrite Ed]; apply mod_eqm. Qed.
Lemma advances_product m n r i j : advances m i → advances n j → mat_ok r → product m n r → advances r (i + j).
Proof.
  intros [Hm Hfm] [Hn Hfn] Hr (Es & Et & Eu & Ev & Ew). split; [done|]. intros st Hst. rewrite after_add, <- Hfm by by apply after_ok.
  pose proof (advances_apply n j st (conj Hn Hfn) Hst) as Ha. rewrite apply_forms in Ha by done. injection Ha as <-. destruct (cache_eqm n Hn) as (Ca & Cb & Cc & Cd).
  unfold form, next_state. cbn [z1 z2 z3 z4 z5]. congr. rewrite Es, Et, Eu, Ev, Ew, ?Cd, ?Cc, ?Cb, ?Ca. unfold eqm31. f_equal. ring.
Qed.

(** ** The table *)

Local Open Scope uint63_scope.
Definition p31 : int := 0x7FFFFFFF.
Definition mulm (a b : int) : int := (a * b) mod p31.
Definition sum2 (a b : int) : int := (a + b) mod p31.
Definition sum5 (a b c d e : int) : int := (a + b + c + d + e) mod p31.
Definition mul9 (m n : row9) : row9 :=
  match m, n with R s t u v w _ _ _ _, R s' t' u' v' w' a b c d =>
    let y x := mulm 104480 x in
    let s3 := sum5 (mulm s d) (mulm t c) (mulm u b) (mulm v a) (mulm w s') in
    let t3 := sum5 (y (mulm s s')) (mulm t w') (mulm u v') (mulm v u') (mulm w t') in
    let u3 := sum5 (y (mulm s a)) (y (mulm t s')) (mulm u w') (mulm v v') (mulm w u') in
    let v3 := sum5 (y (mulm s b)) (y (mulm t a)) (y (mulm u s')) (mulm v w') (mulm w v') in
    let w3 := sum5 (y (mulm s c)) (y (mulm t b)) (y (mulm u a)) (y (mulm v s')) (mulm w w') in
    let a3 := sum2 (mulm 107374182 s3) t3 in
    let b3 := sum2 (mulm 107374182 a3) u3 in
    let c3 := sum2 (mulm 107374182 b3) v3 in
    let d3 := sum2 (mulm 107374182 c3) w3 in
    R s3 t3 u3 v3 w3 a3 b3 c3 d3
  end.
Definition eqb9 (m n : row9) : bool :=
  match m, n with R s t u v w a b c d, R s' t' u' v' w' a' b' c' d' =>
    (s =? s') && (t =? t') && (u =? u') && (v =? v') && (w =? w') && (a =? a') && (b =? b') && (c =? c') && (d =? d')
  end.
(** Each matrix is the product of the one before and [base]; the last one *)
Fixpoint powers (base cur : row9) (l : list row9) : option row9 :=
  match l with [] => Some cur | r :: l => if eqb9 r (mul9 cur base) then powers base r l else None end.
Definition id9 : row9 := R 0 0 0 0 1 0 0 0 1.
Fixpoint check_rows (base : row9) (rows : list (list row9)) : bool :=
  match rows with
  | [] => true
  | row :: rows =>
      match row with
      | r0 :: r1 :: _ =>
          eqb9 r0 id9 && eqb9 r1 base &&
          match powers base id9 (tl row) with Some last => check_rows (mul9 last base) rows | None => false end && (length row =? 256)%nat
      | _ => false
      end
  end.
Definition base9 : row9 := R 0 0 0 1 0 0 0 1 107374182.
Lemma rows_checked : check_rows base9 mrg_skip_rows = true.
Proof. vm_compute. reflexivity. Qed.
Local Open Scope Z_scope.

Definition i31 (a : int) : Prop := to_Z a < 0x7FFFFFFF.
Lemma i31_lt a : i31 a → lt31 (to_Z a).
Proof. intros H. pose proof (to_Z_bounded a). split; [lia|exact H]. Qed.
Lemma wB_big : 2 ^ 62 < wB.
Proof. reflexivity. Qed.
Lemma mulm_spec a b : i31 a → i31 b → to_Z (mulm a b) = (to_Z a * to_Z b) mod M31.
Proof.
  intros Ha%i31_lt Hb%i31_lt. unfold mulm. rewrite mod_spec, mul_spec. change (to_Z p31) with M31. pose proof (lt31_prod _ _ Ha Hb). pose proof wB_big. rewrite (Z.mod_small _ wB) by lia. done.
Qed.
Lemma mod31 a : i31 (a mod p31)%uint63.
Proof. unfold i31. rewrite mod_spec. change (to_Z p31) with M31. apply Z.mod_pos_bound. done. Qed.
Lemma sum2_spec a b : i31 a → i31 b → to_Z (sum2 a b) = (to_Z a + to_Z b) mod M31.
Proof.
  intros Ha%i31_lt Hb%i31_lt. unfold sum2. rewrite mod_spec, add_spec. change (to_Z p31) with M31. pose proof wB_big. unfold lt31 in *. rewrite (Z.mod_small _ wB) by lia. done.
Qed.
Lemma sum5_spec a b c d e : i31 a → i31 b → i31 c → i31 d → i31 e → to_Z (sum5 a b c d e) = (to_Z a + to_Z b + to_Z c + to_Z d + to_Z e) mod M31.
Proof.
  intros Ha%i31_lt Hb%i31_lt Hc%i31_lt Hd%i31_lt He%i31_lt. unfold sum5. rewrite mod_spec, !add_spec. change (to_Z p31) with M31. pose proof wB_big. unfold lt31 in *.
  rewrite (Z.mod_small (to_Z a + to_Z b) wB) by lia. rewrite (Z.mod_small (to_Z a + to_Z b + to_Z c) wB) by lia. rewrite (Z.mod_small (to_Z a + to_Z b + to_Z c + to_Z d) wB) by lia. rewrite (Z.mod_small _ wB) by lia. done.
Qed.
Definition row_ok (r : row9) : Prop := match r with R s t u v w a b c d => i31 s ∧ i31 t ∧ i31 u ∧ i31 v ∧ i31 w ∧ i31 a ∧ i31 b ∧ i31 c ∧ i31 d end.
Lemma mat_row r : mat_ok (matrix_of r) → row_ok r.
Proof.
  destruct r as [s t u v w a b c d]. intros [Hs Ht Hu Hv Hw Ea Eb Ec Ed]. cbn [matrix_of ms mt mu mv mw ma mb mc md] in *. unfold row_ok, i31.
  split_and!; try apply Hs; try apply Ht; try apply Hu; try apply Hv; try apply Hw; [rewrite Ea|rewrite Eb|rewrite Ec|rewrite Ed]; apply lt31_mod.
Qed.
Lemma i31_x : i31 107374182.
Proof. vm_compute. reflexivity. Qed.
Lemma i31_y : i31 104480.
Proof. vm_compute. reflexivity. Qed.
Lemma mulm_ok a b : i31 (mulm a b).
Proof. apply mod31. Qed.
Lemma sum2_ok a b : i31 (sum2 a b).
Proof. apply mod31. Qed.
Lemma sum5_ok a b c d e : i31 (sum5 a b c d e).
Proof. apply mod31. Qed.
Ltac ints := solve [assumption | apply mulm_ok | apply sum2_ok | apply sum5_ok | exact i31_x | exact i31_y].
#[local] Opaque mulm sum2 sum5.
Lemma mul9_product m n : row_ok m → row_ok n → mat_ok (matrix_of (mul9 m n)) ∧ product (matrix_of m) (matrix_of n) (matrix_of (mul9 m n)).
Proof.
  destruct m as [s t u v w a b c d], n as [s' t' u' v' w' a' b' c' d']. intros (Hs & Ht & Hu & Hv & Hw & _) (Hs' & Ht' & Hu' & Hv' & Hw' & Ha' & Hb' & Hc' & Hd'). cbn [mul9 matrix_of].
  match goal with |- context [mkMat (to_Z ?x1) (to_Z ?x2) (to_Z ?x3) (to_Z ?x4) (to_Z ?x5)] => set (s3 := x1); set (t3 := x2); set (u3 := x3); set (v3 := x4); set (w3 := x5) end.
  assert (i31 s3 ∧ i31 t3 ∧ i31 u3 ∧ i31 v3 ∧ i31 w3) as (H1 & H2 & H3 & H4 & H5) by (split_and!; apply sum5_ok). split.
  - split; cbn [ms mt mu mv mw ma mb mc md]; try (apply i31_lt; assumption); rewrite sum2_spec by ints; rewrite mulm_spec by ints; change (to_Z 107374182) with 107374182; congr; reflexivity.
  - unfold product. cbn [ms mt mu mv mw ma mb mc md]. unfold s3, t3, u3, v3, w3. rewrite !sum5_spec by ints. rewrite !mulm_spec by ints.
    change (to_Z 104480) with 104480. split_and!; repeat setoid_rewrite mod_eqm; reflexivity.
Qed.
Lemma eqb9_eq m n : eqb9 m n = true → m = n.
Proof.
  destruct m, n. cbn [eqb9]. intros H. repeat (apply andb_true_iff in H as [H ?]).
  repeat match goal with H : PrimInt63.eqb _ _ = true |- _ => apply Uint63.eqb_spec in H end. by subst.
Qed.
Lemma advances_mul9 m n i j : advances (matrix_of m) i → advances (matrix_of n) j → advances (matrix_of (mul9 m n)) (i + j).
Proof. intros Hm Hn. destruct (mul9_product m n (mat_row _ (proj1 Hm)) (mat_row _ (proj1 Hn))) as [Hok Hp]. by eapply advances_product. Qed.
Lemma advances_id : advances (matrix_of id9) 0.
Proof.
  split; [by split|]. intros st (_ & _ & _ & _ & H5). unfold form. cbn [matrix_of id9 ms mt mu mv mw]. change (to_Z 0) with 0. change (to_Z 1) with 1.
  change (after 0 st) with st. rewrite Z.mod_small; [lia|]. unfold lt31, M31 in *. lia.
Qed.
Lemma advances_base : advances (matrix_of base9) 1.
Proof.
  split; [by split|]. intros st (_ & _ & _ & H4 & _). unfold form. cbn [matrix_of base9 ms mt mu mv mw]. change (to_Z 0) with 0. change (to_Z 1) with 1.
  change (after 1 st) with (next_state st). cbn [next_state z5]. rewrite Z.mod_small; [lia|]. unfold lt31, M31 in *. lia.
Qed.

Lemma powers_spec base k l : ∀ cur j last, advances (matrix_of base) k → advances (matrix_of cur) (j * k) → powers base cur l = Some last →
  (∀ i r, nth_error l i = Some r → advances (matrix_of r) ((j + 1 + N.of_nat i) * k)) ∧ advances (matrix_of last) ((j + N.of_nat (length l)) * k).
Proof.
  induction l as [|r l IH]; intros cur j last Hb Hc H; cbn [powers] in H.
  - injection H as <-. split; [by intros [|i]|]. by rewrite N.add_0_r.
  - destruct (eqb9 r (mul9 cur base)) eqn:E; [|done]. apply eqb9_eq in E. assert (advances (matrix_of r) ((j + 1) * k)) as Hr by (rewrite E, N.mul_add_distr_r, N.mul_1_l; by apply advances_mul9).
    destruct (IH r (j + 1)%N last Hb Hr H) as [Hn Hl]. split.
    + intros [|i] r' Hi; cbn [nth_error] in Hi; [injection Hi as <-; by rewrite N.add_0_r|]. specialize (Hn i r' Hi). by replace (j + 1 + N.of_nat (S i))%N with (j + 1 + 1 + N.of_nat i)%N by lia.
    + cbn [length]. by replace (j + N.of_nat (S (length l)))%N with (j + 1 + N.of_nat (length l))%N by lia.
Qed.
Lemma check_rows_spec rows : ∀ base k, advances (matrix_of base) k → check_rows base rows = true →
  ∀ i row, nth_error rows i = Some row → length row = 256%nat ∧ ∀ j r, nth_error row j = Some r → advances (matrix_of r) (N.of_nat j * (256 ^ N.of_nat i * k)).
Proof.
  induction rows as [|row rows IH]; intros base k Hb H i row' Hi; [by destruct i|]. cbn [check_rows] in H. destruct row as [|r0 [|r1 row]]; try done.
  apply andb_true_iff in H as [H El%Nat.eqb_eq]. apply andb_true_iff in H as [H Hp]. apply andb_true_iff in H as [E0%eqb9_eq _]. destruct (powers base id9 (tl (r0 :: r1 :: row))) as [last|] eqn:Ep; [|done].
  assert (advances (matrix_of id9) (0 * k)) as Hid by apply advances_id. destruct (powers_spec base k _ id9 0 last Hb Hid Ep) as [Hn Hl]. destruct i as [|i]; cbn [nth_error] in Hi.
  - injection Hi as <-. split; [done|]. intros [|j] r Hj; cbn [nth_error] in Hj; [injection Hj as <-; rewrite E0; apply advances_id|]. specialize (Hn j r Hj). change (256 ^ N.of_nat 0)%N with 1%N. rewrite N.mul_1_l.
    by replace (N.of_nat (S j)) with (0 + 1 + N.of_nat j)%N by lia.
  - destruct (IH _ (256 * k)%N (ltac:(replace (256 * k)%N with ((0 + N.of_nat (length (tl (r0 :: r1 :: row)))) * k + k)%N by (cbn [tl length] in *; nia); by apply advances_mul9)) Hp i row' Hi) as [H1 H2].
    split; [done|]. intros j r Hj. specialize (H2 j r Hj). replace (256 ^ N.of_nat (S i) * k)%N with (256 ^ N.of_nat i * (256 * k))%N; [done|]. rewrite Nat2N.inj_succ, N.pow_succ_r'. lia.
Qed.
Lemma table_spec i j : 0 ≤ i < 24 → 0 ≤ j < 256 → ∃ m, mrg_skip_matrices i j = Some m ∧ advances m (Z.to_N (j * 256 ^ i)).
Proof.
  intros Hi Hj. unfold mrg_skip_matrices. rewrite (proj2 (Z.ltb_ge i 0)), (proj2 (Z.ltb_ge j 0)) by lia. cbn [orb].
  destruct (nth_error mrg_skip_rows (Z.to_nat i)) as [row|] eqn:Er; [|apply nth_error_None in Er; change (length mrg_skip_rows) with 24%nat in Er; lia].
  destruct (check_rows_spec _ _ 1 advances_base rows_checked _ _ Er) as [El Hr]. cbn [mbind option_bind].
  destruct (nth_error row (Z.to_nat j)) as [r|] eqn:Ej; [|apply nth_error_None in Ej; lia]. cbn [mbind option_bind]. eexists. split; [done|]. specialize (Hr _ _ Ej).
  rewrite N.mul_1_r in Hr. replace (Z.to_N (j * 256 ^ i)) with (N.of_nat (Z.to_nat j) * 256 ^ N.of_nat (Z.to_nat i))%N; [done|].
  rewrite Z2N.inj_mul, Z2N.inj_pow by lia. by rewrite !Z_nat_N.
Qed.

(** ** Skipping *)

Lemma skip_loop_spec fuel : ∀ b e st, st_ok st → 0 ≤ b → b + Z.of_nat fuel ≤ 24 → 0 ≤ e < 256 ^ Z.of_nat fuel →
  skip_loop fuel b e st = Some (after (Z.to_N (e * 256 ^ b)) st).
Proof.
  induction fuel as [|fuel IH]; intros b e st Hst Hb Hf He; cbn [skip_loop].
  - change (256 ^ Z.of_nat 0) with 1 in He. by replace e with 0 by lia.
  - destruct (Z.eqb_spec e 0) as [-> |Hne]; [done|]. change (Z.land e 0xFF) with (Z.land e (Z.ones 8)). rewrite Z.land_ones by lia. rewrite Z.shiftr_div_pow2 by lia. change (2 ^ 8) with 256.
    pose proof (Z.mod_pos_bound e 256 ltac:(lia)) as Hm. pose proof (Z.div_mod e 256 ltac:(lia)) as Ed. rewrite Nat2Z.inj_succ, Z.pow_succ_r in He by lia. pose proof (Z.pow_pos_nonneg 256 b ltac:(lia) Hb) as Hp.
    assert (0 ≤ e / 256 < 256 ^ Z.of_nat fuel) as Hq by (split; [apply Z.div_pos; lia|apply Z.div_lt_upper_bound; lia]).
    assert (Z.to_N (e * 256 ^ b) = Z.to_N (e / 256 * 256 ^ (b + 1)) + Z.to_N (e mod 256 * 256 ^ b))%N as ->.
    { rewrite <- Z2N.inj_add by (rewrite ?Z.pow_add_r by lia; nia). f_equal. rewrite Z.pow_add_r by lia. change (256 ^ 1) with 256. rewrite Ed at 1. ring. }
    rewrite after_add. destruct (Z.eqb_spec (e mod 256) 0) as [E0|E0]; cbn [mbind option_bind].
    + rewrite E0. change (after (Z.to_N (0 * 256 ^ b)) st) with st. apply IH; try done; lia.
    + destruct (table_spec b (e mod 256)) as (m & -> & Ha); [lia|lia|]. cbn [mbind option_bind]. unfold mrg_step. rewrite (advances_apply m _ st Ha Hst). cbn [mbind option_bind]. apply IH; try lia. by apply after_ok.
Qed.
Lemma mrg_skip_spec st hi mid lo : st_ok st → 0 ≤ hi < 2 ^ 64 → 0 ≤ mid < 2 ^ 64 → 0 ≤ lo < 2 ^ 64 →
  mrg_skip st hi mid lo = Some (after (Z.to_N (hi * 2 ^ 128 + mid * 2 ^ 64 + lo)) st).
Proof.
  intros Hst Hh Hm Hl. unfold mrg_skip. change (2 ^ 64) with (256 ^ Z.of_nat 8) in Hh, Hm, Hl. rewrite skip_loop_spec by (done || lia). cbn [mbind option_bind]. rewrite skip_loop_spec by (by apply after_ok || lia). cbn [mbind option_bind].
  rewrite skip_loop_spec by ((do 2 apply after_ok; exact Hst) || lia). f_equal. rewrite <- !after_add. f_equal. change (2 ^ 64) with (256 ^ 8). change (2 ^ 128) with (256 ^ 16). change (256 ^ 0) with 1.
  rewrite <- !Z2N.inj_add by lia. f_equal. lia.
Qed.

(** [n] steps of the generator *)
Definition orig_steps (n : N) (st : mrg_state) : option mrg_state := N.iter n (λ o, o ≫= mrg_orig_step) (Some st).
Lemma orig_steps_after n st : st_ok st → orig_steps n st = Some (after n st).
Proof.
  intros Hst. unfold orig_steps. induction n as [|n IH] using N.peano_ind; [done|]. rewrite N.iter_succ, IH. cbn [mbind option_bind]. rewrite orig_step_eq by by apply after_ok. by rewrite after_succ.
Qed.

(** C12. Skipping ahead by a 192-bit number of steps, with the matrices of the table,
    gives the state that this number of single steps gives, for all states and
    exponents, without a failed assertion or a read outside of the table; the state
    stays in the range of the modulus. *)
Theorem mrg_skip_correct st hi mid lo : st_ok st → 0 ≤ hi < 2 ^ 64 → 0 ≤ mid < 2 ^ 64 → 0 ≤ lo < 2 ^ 64 →
  ∃ st', mrg_skip st hi mid lo = Some st' ∧ orig_steps (Z.to_N (hi * 2 ^ 128 + mid * 2 ^ 64 + lo)) st = Some st' ∧ st_ok st'.
Proof.
  intros Hst Hh Hm Hl. eexists. split; [by apply mrg_skip_spec|]. split; [by apply orig_steps_after|by apply after_ok].
Qed.
Lemma mrg_skip_correct_witness : ∃ st',
  mrg_skip (mkSt 1 2 3 4 5) 50 7 0 = Some st' ∧ orig_steps (Z.to_N (50 * 2 ^ 128 + 7 * 2 ^ 64 + 0)) (mkSt 1 2 3 4 5) = Some st' ∧ st_ok st'.
Proof. apply (mrg_skip_correct (mkSt 1 2 3 4 5) 50 7 0); [unfold st_ok, lt31; cbn [z1 z2 z3 z4 z5]; lia|lia|lia|lia]. Defined.
Example mrg_skip_1000 : mrg_skip (mkSt 1 2 3 4 5) 0 0 1000 = orig_steps 1000 (mkSt 1 2 3 4 5).
Proof. vm_compute. reflexivity. Qed.

(** ** The arithmetic for 32 bits *)

Lemma fold_eq t : 0 ≤ t ≤ 0x3FFFFFFE80000002 → Mod32.fold_ t = t mod M31.
Proof.
  intros Ht. unfold Mod32.fold_, Mod32.reduce. change (Z.land t M31) with (Z.land t (Z.ones 31)). rewrite Z.land_ones, Z.shiftr_div_pow2 by lia. pose proof (Z.mod_pos_bound t (2 ^ 31) ltac:(lia)) as Hm.
  pose proof (Z.div_mod t (2 ^ 31) ltac:(lia)) as Ed. set (l := t mod 2 ^ 31) in *. set (q := t / 2 ^ 31) in *. assert (0 ≤ q ≤ 0x7FFFFFFD) as Hq by lia.
  rewrite !(wrapu_small 32) by (unfold in_u; rewrite ?(wrapu_small 32) by (unfold in_u; lia); lia). apply Z.mod_unique with (q := if M31 <=? l + q then q + 1 else q); destruct (Z.leb_spec M31 (l + q)); unfold M31 in *;
    rewrite ?(wrapu_small 32) by (unfold in_u; lia); lia.
Qed.
Lemma int32_ok {A} x (k : Z → option A) : - 2 ^ 31 ≤ x < 2 ^ 31 → (Mod32.int32 x ≫= k) = k x.
Proof. intros H. unfold Mod32.int32. rewrite (proj2 (Z.leb_le _ _)), (proj2 (Z.ltb_lt _ _)) by lia. done. Qed.
Lemma mul32_eq a b : lt31 a → lt31 b → Mod32.mod_mul a b = Some ((a * b) mod M31).
Proof. intros Ha Hb. unfold Mod32.mod_mul. asserts. pose proof (lt31_prod a b Ha Hb). nowrap. rewrite fold_eq by lia. done. Qed.
Lemma mac32_eq s a b : lt31 s → lt31 a → lt31 b → Mod32.mod_mac s a b = Some ((a * b + s) mod M31).
Proof. intros Hs Ha Hb. unfold Mod32.mod_mac. asserts. pose proof (lt31_prod a b Ha Hb). unfold lt31 in Hs. nowrap. rewrite fold_eq by lia. done. Qed.
Lemma add32_eq a b : lt31 a → lt31 b → Mod32.mod_add a b = Some ((a + b) mod M31).
Proof.
  intros Ha Hb. unfold Mod32.mod_add. asserts. unfold lt31 in *. rewrite (wrapu_small 32) by (unfold in_u; lia). f_equal. unfold Mod32.reduce, M31.
  destruct (Z.leb_spec 0x7FFFFFFF (a + b)); [rewrite (wrapu_small 32) by (unfold in_u; lia); apply (Z.mod_unique _ _ 1); lia|rewrite Z.mod_small; lia].
Qed.
Lemma mul_const_eq m q r a : 0 < m → 1 < q → 0 ≤ r → m * q + r = M31 → m * (q - 1) < 2 ^ 31 → r < q → lt31 a → Mod32.mul_const m q r a = Some ((a * m) mod M31).
Proof.
  intros Hm Hq Hr E Hmq Hrq Ha. unfold Mod32.mul_const. pose proof Ha as Ha'. unfold lt31 in Ha'. rewrite (wraps_small 32) by (unfold in_s; lia). rewrite Z.quot_div_nonneg by lia.
  pose proof (Z.div_mod a q ltac:(lia)) as Ed. pose proof (Z.mod_pos_bound a q ltac:(lia)) as Hb. assert (0 ≤ a / q) as Hd by (apply Z.div_pos; lia). set (k := a / q) in *. set (e := a mod q) in *. cbv zeta.
  assert (0 ≤ k * r ≤ k * q) as Hkr by nia. assert (0 ≤ m * e ≤ m * (q - 1)) as Hme by nia. rewrite int32_ok by lia. replace (a - k * q) with e by lia. rewrite int32_ok by lia. rewrite int32_ok by lia. rewrite int32_ok by lia. rewrite int32_ok by lia.
  rewrite int32_ok by (unfold M31; case_if; lia). assert (2 * m ≤ m * q) as H2m by nia. assert (lt31 m) as Hml by (unfold lt31, M31 in *; lia). rewrite mul32_eq by done. cbn [mbind option_bind].
  assert ((a * m) mod M31 = m * e - k * r + (if m * e - k * r <? 0 then M31 else 0)) as ->.
  { symmetry. apply Z.mod_unique with (q := k - (if m * e - k * r <? 0 then 1 else 0)); unfold M31 in *; destruct (Z.ltb_spec (m * e - k * r) 0); nia. }
  rewrite (wrapu_small 32) by (unfold in_u, M31; case_if; lia). by rewrite Z.eqb_refl.
Qed.

(** The arithmetic for 32-bit machines computes the same as the one with 64-bit
    remainders on all residues: no assertion fails, no intermediate result leaves 32
    (signed or unsigned) bits where it must not, and the fast multiplications by the
    two constants are right. *)
Theorem mod_arith_equivalent s a b c d e f g h : lt31 s → lt31 a → lt31 b → lt31 c → lt31 d → lt31 e → lt31 f → lt31 g → lt31 h →
  Mod32.mod_add a b = mod_add a b ∧ Mod32.mod_mul a b = mod_mul a b ∧ Mod32.mod_mac s a b = mod_mac s a b ∧ Mod32.mod_mac2 s a b c d = mod_mac2 s a b c d ∧
  Mod32.mod_mac3 s a b c d e f = mod_mac3 s a b c d e f ∧ Mod32.mod_mac4 s a b c d e f g h = mod_mac4 s a b c d e f g h ∧
  Mod32.mod_mul_x a = mod_mul_x a ∧ Mod32.mod_mul_y a = mod_mul_y a ∧ Mod32.mod_mac_y s a = mod_mac_y s a ∧ is_Some (mod_mac4 s a b c d e f g h).
Proof.
  intros Hs Ha Hb Hc Hd He Hf Hg Hh.
  assert (∀ s a b c d, lt31 s → lt31 a → lt31 b → lt31 c → lt31 d → Mod32.mod_mac2 s a b c d = Some ((a * b + c * d + s) mod M31)) as H2.
  { intros. unfold Mod32.mod_mac2. asserts. rewrite mac32_eq by done. cbn [mbind option_bind]. rewrite mac32_eq by solve31. f_equal. congr. unfold eqm31. f_equal. lia. }
  split; [rewrite mod_add_eq by done; by apply add32_eq|]. split; [rewrite mod_mul_eq by done; by apply mul32_eq|]. split; [rewrite mod_mac_eq by done; by apply mac32_eq|].
  split; [rewrite mod_mac2_eq by done; by apply H2|]. split; [|split].
  - unfold Mod32.mod_mac3. asserts. rewrite mac32_eq by done. cbn [mbind option_bind]. rewrite H2, mod_mac3_eq by solve31. f_equal. congr. unfold eqm31. f_equal. lia.
  - unfold Mod32.mod_mac4. asserts. rewrite H2 by done. cbn [mbind option_bind]. rewrite H2, mod_mac4_eq by solve31. f_equal. congr. unfold eqm31. f_equal. lia.
  - assert (∀ a, lt31 a → Mod32.mod_mul_y a = Some ((a * 104480) mod M31)) as Hy by (intros; by apply mul_const_eq).
    split; [unfold mod_mul_x; rewrite mod_mul_eq by solve31; by apply mul_const_eq|]. split; [unfold mod_mul_y; rewrite mod_mul_eq by solve31; by apply Hy|].
    split; [|rewrite mod_mac4_eq by done; by eexists]. unfold Mod32.mod_mac_y, mod_mac_y. rewrite Hy by done. cbn [mbind option_bind]. rewrite add32_eq by solve31. cbn [mbind option_bind]. rewrite mac32_eq, mod_mac_eq by solve31. cbn [mbind option_bind].
    replace ((s + (a * 104480) mod M31) mod M31) with ((a * 104480 + s) mod M31) by (congr; unfold eqm31; f_equal; lia). by rewrite Z.eqb_refl.
Qed.
Lemma mod_arith_equivalent_witness : Mod32.mod_mac4 1 2 3 4 5 6 7 0x7FFFFFFE 0x7FFFFFFE = mod_mac4 1 2 3 4 5 6 7 0x7FFFFFFE 0x7FFFFFFE.
Proof. eapply (mod_arith_equivalent 1 2 3 4 5 6 7 0x7FFFFFFE 0x7FFFFFFE); unfold lt31; lia. Defined.

(** ** The program that writes the table *)

Lemma update_cache_spec s t u v w : lt31 s → lt31 t → lt31 u → lt31 v → lt31 w →
  ∃ m, mrg_update_cache s t u v w = Some m ∧ mat_ok m ∧ ms m = s ∧ mt m = t ∧ mu m = u ∧ mv m = v ∧ mw m = w.
Proof.
  intros Hs Ht Hu Hv Hw. unfold mrg_update_cache, mod_mul_x. mods. eexists. split; [done|]. split; [|done]. split; cbn [ms mt mu mv mw ma mb mc md]; try done; congr; unfold eqm31; f_equal; lia.
Qed.
Lemma cache_lt m : mat_ok m → lt31 (ma m) ∧ lt31 (mb m) ∧ lt31 (mc m) ∧ lt31 (md m).
Proof. intros [_ _ _ _ _ Ea Eb Ec Ed]. split_and!; [rewrite Ea|rewrite Eb|rewrite Ec|rewrite Ed]; apply lt31_mod. Qed.
Lemma multiply_spec m n i j : advances m i → advances n j → ∃ r, mrg_multiply m n = Some r ∧ advances r (i + j).
Proof.
  intros Hm Hn. pose proof (proj1 Hm) as [Hs Ht Hu Hv Hw _ _ _ _]. pose proof (proj1 Hn) as [Hs' Ht' Hu' Hv' Hw' _ _ _ _]. destruct (cache_lt n (proj1 Hn)) as (Ha & Hb & Hc & Hd).
  unfold mrg_multiply, mod_mul_y. mods. match goal with |- ∃ _, mrg_update_cache ?s ?t ?u ?v ?w = _ ∧ _ => destruct (update_cache_spec s t u v w) as (r & E & Hr & Es & Et & Eu & Ev & Ew); try apply lt31_mod end.
  exists r. split; [done|]. apply (advances_product m n r i j Hm Hn Hr). unfold product. rewrite Es, Et, Eu, Ev, Ew. split_and!; repeat setoid_rewrite mod_eqm; unfold eqm31; f_equal; ring.
Qed.
Lemma power_loop_spec fuel : ∀ cur e res i k, advances cur i → advances res k → 0 ≤ e < 2 ^ Z.of_nat fuel →
  ∃ r, power_loop fuel cur e res = Some r ∧ advances r (k + Z.to_N e * i).
Proof.
  induction fuel as [|fuel IH]; intros cur e res i k Hc Hr He; cbn [power_loop].
  - change (2 ^ Z.of_nat 0) with 1 in He. replace e with 0 by lia. exists res. split; [done|]. change (Z.to_N 0) with 0%N. by rewrite N.mul_0_l, N.add_0_r.
  - destruct (Z.leb_spec e 0) as [H0|H0]; [replace e with 0 by lia; exists res; split; [done|]; change (Z.to_N 0) with 0%N; by rewrite N.mul_0_l, N.add_0_r|].
    rewrite Nat2Z.inj_succ, Z.pow_succ_r in He by lia. pose proof (Z.div_mod e 2 ltac:(lia)) as Ed. pose proof (Z.mod_pos_bound e 2 ltac:(lia)) as Hb.
    assert (∃ res', (if e mod 2 =? 1 then mrg_multiply res cur else Some res) = Some res' ∧ advances res' (k + Z.to_N (e mod 2) * i)) as (res' & -> & Hres).
    { destruct (Z.eqb_spec (e mod 2) 1) as [E|E]; [rewrite E; change (Z.to_N 1) with 1%N; rewrite N.mul_1_l; by apply multiply_spec|]. replace (e mod 2) with 0 by lia. exists res. split; [done|]. change (Z.to_N 0) with 0%N. by rewrite N.mul_0_l, N.add_0_r. }
    cbn [mbind option_bind]. destruct (multiply_spec cur cur i i Hc Hc) as (cur' & -> & Hcur). cbn [mbind option_bind].
    destruct (IH cur' (e / 2) res' _ _ Hcur Hres) as (r & -> & Ha); [lia|]. exists r. split; [done|].
    replace (k + Z.to_N e * i)%N with (k + Z.to_N (e mod 2) * i + Z.to_N (e / 2) * (i + i))%N; [done|]. assert (Z.to_N e = Z.to_N (e mod 2) + 2 * Z.to_N (e / 2))%N as -> by lia. lia.
Qed.
Lemma identity_spec : ∃ m, mrg_make_identity = Some m ∧ advances m 0.
Proof. eexists. split; [reflexivity|]. exact advances_id. Qed.
Lemma power_spec m i e : advances m i → 0 ≤ e < 2 ^ 32 → ∃ r, mrg_power m e = Some r ∧ advances r (Z.to_N e * i).
Proof. intros Hm He. unfold mrg_power. destruct identity_spec as (m0 & -> & H0). cbn [mbind option_bind]. apply (power_loop_spec 32 m e m0 i 0 Hm H0). done. Qed.
Lemma transitions_spec i : ∃ m, transitions i = Some m ∧ advances m (256 ^ N.of_nat i).
Proof.
  induction i as [|i (m & E & Hm)]; cbn [transitions]; [eexists; split; [reflexivity|exact advances_base]|]. rewrite E. cbn [mbind option_bind]. destruct (power_spec m _ 256 Hm) as (r & Er & Hr); [lia|].
  exists r. split; [done|]. by rewrite Nat2N.inj_succ, N.pow_succ_r'.
Qed.
(** A matrix is determined by the steps it makes. *)
Lemma mod31_small a : lt31 a → a mod M31 = a.
Proof. intros H. apply Z.mod_small. exact H. Qed.
Lemma form_unit m : mat_ok m → form m (mkSt 1 0 0 0 0) = ms m ∧ form m (mkSt 0 1 0 0 0) = mt m ∧ form m (mkSt 0 0 1 0 0) = mu m ∧ form m (mkSt 0 0 0 1 0) = mv m ∧ form m (mkSt 0 0 0 0 1) = mw m.
Proof. intros [Hs Ht Hu Hv Hw _ _ _ _]. unfold form. cbn [z1 z2 z3 z4 z5]. rewrite !Z.mul_0_r, !Z.mul_1_r, ?Z.add_0_l, ?Z.add_0_r, !mod31_small by done. done. Qed.
Lemma advances_unique m m' n : advances m n → advances m' n → m = m'.
Proof.
  intros [Hm Hf] [Hm' Hf']. assert (∀ st, st_ok st → form m st = form m' st) as E by (intros st Hst; by rewrite Hf, Hf').
  destruct (form_unit m Hm) as (E1 & E2 & E3 & E4 & E5). destruct (form_unit m' Hm') as (F1 & F2 & F3 & F4 & F5).
  assert (ms m = ms m' ∧ mt m = mt m' ∧ mu m = mu m' ∧ mv m = mv m' ∧ mw m = mw m') as (e1 & e2 & e3 & e4 & e5).
  { rewrite <- E1, <- E2, <- E3, <- E4, <- E5, <- F1, <- F2, <- F3, <- F4, <- F5. split_and!; apply E; unfold st_ok, lt31; cbn [z1 z2 z3 z4 z5]; lia. }
  destruct Hm as [_ _ _ _ _ Ga Gb Gc Gd], Hm' as [_ _ _ _ _ Ga' Gb' Gc' Gd']. destruct m as [s1 t1 u1 v1 w1 a1 b1 c1 d1], m' as [s2 t2 u2 v2 w2 a2 b2 c2 d2]. cbn [ms mt mu mv mw ma mb mc md] in *. congruence.
Qed.

(** C37. The table of the repository is the one that the program in splittable_mrg.c
    writes: the matrix for byte [i] and value [j] is the one computed by repeated
    squaring, for all 24 * 256 entries. *)
Theorem table_generated i j : 0 ≤ i < 24 → 0 ≤ j < 256 → ∃ m, mrg_skip_matrices i j = Some m ∧ dump_mrg_powers (Z.to_nat i) j = Some m.
Proof.
  intros Hi Hj. destruct (table_spec i j Hi Hj) as (m & Em & Hm). exists m. split; [done|]. destruct (transitions_spec (Z.to_nat i)) as (b & Eb & Hb).
  assert (∃ m', dump_mrg_powers (Z.to_nat i) j = Some m' ∧ advances m' (Z.to_N j * 256 ^ N.of_nat (Z.to_nat i))) as (m' & -> & Hm').
  { unfold dump_mrg_powers. destruct (Z.eqb_spec j 0) as [-> |H0]; [exact identity_spec|]. rewrite Eb. cbn [mbind option_bind]. destruct (Z.eqb_spec j 1) as [-> |H1]; [exists b; split; [done|]; change (Z.to_N 1) with 1%N; by rewrite N.mul_1_l|].
    apply power_spec; [done|lia]. }
  f_equal. apply (advances_unique m' m (Z.to_N (j * 256 ^ i))); [|done]. rewrite Z2N.inj_mul, Z2N.inj_pow by lia. by rewrite Z_nat_N in Hm'.
Qed.
Lemma table_generated_witness : ∃ m, mrg_skip_matrices 23 255 = Some m ∧ dump_mrg_powers (Z.to_nat 23) 255 = Some m.
Proof. apply (table_generated 23 255); lia. Defined.
