(* ===== verification/Kronecker.v ===== *)
(** * Kronecker: the generator of edges (graph500/generator/graph_generator.c)

    Edges are drawn by descending into the quadrants of the adjacency matrix with the
    random generator; the numbers of the vertices are scrambled.  [None] is a failed
    assertion, a shift by too many bits, or a loop that runs out of fuel. *)

From S2P Require Import Prelude Mrg.

Local Open Scope Z_scope.

Definition INITIATOR_A_NUMERATOR : Z := 5700.
Definition INITIATOR_BC_NUMERATOR : Z := 1900.
Definition INITIATOR_DENOMINATOR : Z := 10000.

(** ** Four-way choice *)

(** [static const uint32_t limit] *)
Definition limit : Z := 0x7FFFFFFF mod INITIATOR_DENOMINATOR.
(** [do { ... } while (val < limit)] *)
Fixpoint redraw (fuel : nat) (st : mrg_state) : option (mrg_state * Z) :=
  match fuel with
  | O => None
  | S fuel => '(st, val) ← mrg_get_uint_orig st; if u32 val <? limit then redraw fuel st else Some (st, u32 val)
  end.
(** [SPK_NOISE_LEVEL] is 0. *)
Definition generate_4way_bernoulli (fuel : nat) (st : mrg_state) : option (mrg_state * Z) :=
  '(st, val) ← mrg_get_uint_orig st;
  '(st, val) ← (if u32 val <? limit then redraw fuel st else Some (st, u32 val));
  let val := val mod INITIATOR_DENOMINATOR in
  if val <? INITIATOR_BC_NUMERATOR then Some (st, 1) else
  let val := u32 (val - INITIATOR_BC_NUMERATOR) in
  if val <? INITIATOR_BC_NUMERATOR then Some (st, 2) else
  let val := u32 (val - INITIATOR_BC_NUMERATOR) in
  if val <? INITIATOR_A_NUMERATOR then Some (st, 0) else Some (st, 3).

(** ** Scrambling *)

(** [__builtin_bswap64], [__builtin_bswap32]: [n] bytes in reverse *)
Fixpoint bswap (n : nat) (x acc : Z) : Z :=
  match n with O => acc | S n => bswap n (Z.shiftr x 8) (Z.lor (Z.shiftl acc 8) (Z.land x 0xFF)) end.
(** [((x >> k) & mask) | ((x & mask) << k)] on [w] bits *)
Definition swap_bits (w k mask x : Z) : Z := Z.lor (Z.land (Z.shiftr x k) mask) (wrapu w (Z.shiftl (Z.land x mask) k)).
(** The 64-bit code, with and without the builtin *)
Definition bitreverse (x : Z) : Z :=
  let x := bswap 8 x 0 in
  let x := swap_bits 64 4 0x0F0F0F0F0F0F0F0F x in
  let x := swap_bits 64 2 0x3333333333333333 x in
  swap_bits 64 1 0x5555555555555555 x.
Definition bitreverse_64 (x : Z) : Z :=
  let x := Z.lor (Z.shiftr x 32) (u64 (Z.shiftl x 32)) in
  let x := swap_bits 64 16 0x0000FFFF0000FFFF x in
  let x := swap_bits 64 8 0x00FF00FF00FF00FF x in
  let x := swap_bits 64 4 0x0F0F0F0F0F0F0F0F x in
  let x := swap_bits 64 2 0x3333333333333333 x in
  swap_bits 64 1 0x5555555555555555 x.
(** The 32-bit code, without the builtin *)
Definition bitreverse_half (h : Z) : Z :=
  let h := Z.lor (Z.shiftr h 16) (u32 (Z.shiftl h 16)) in
  let h := swap_bits 32 8 0x00FF00FF h in
  let h := swap_bits 32 4 0x0F0F0F0F h in
  let h := swap_bits 32 2 0x33333333 h in
  swap_bits 32 1 0x55555555 h.
Definition bitreverse_32 (x : Z) : Z :=
  let h := bitreverse_half (u32 (Z.shiftr x 32)) in
  let l := bitreverse_half (u32 (Z.land x 0xFFFFFFFF)) in
  Z.lor (u64 (Z.shiftl l 32)) h.

(** A shift of a 64-bit number; too many bits are undefined. *)
Definition shr64 (x k : Z) : option Z := if (0 <=? k) && (k <? 64) then Some (Z.shiftr x k) else None.
Definition scramble (v0 lgN val0 val1 : Z) : option Z :=
  let v := u64 (u64 v0 + u64 (val0 + val1)) in
  let v := u64 (v * Z.lor val0 0x4519840211493211) in
  v ← shr64 (bitreverse v) (64 - lgN);
  r ← shr64 v lgN; _ ← assert_ (r =? 0);
  let v := u64 (v * Z.lor val1 0x3050852102C843A5) in
  v ← shr64 (bitreverse v) (64 - lgN);
  r ← shr64 v lgN; _ ← assert_ (r =? 0);
  Some (wraps 64 v).

(** ** Edges (graph_generator.h, [GENERATOR_USE_PACKED_EDGE_TYPE]) *)

Record packed_edge := mkEdge { v0_low : Z; v1_low : Z; high : Z }.
Definition get_v0_from_edge (p : packed_edge) : Z := Z.lor (v0_low p) (wraps 64 (Z.shiftl (wraps 16 (Z.land (high p) 0xFFFF)) 32)).
Definition get_v1_from_edge (p : packed_edge) : Z := Z.lor (v1_low p) (wraps 64 (Z.shiftl (wraps 16 (Z.shiftr (high p) 16)) 32)).
Definition write_edge (v0 v1 : Z) : packed_edge :=
  mkEdge (u32 v0) (u32 v1) (u32 (Z.lor (Z.land (Z.shiftr v0 32) 0xFFFF) (wraps 64 (Z.shiftl (Z.land (Z.shiftr v1 32) 0xFFFF) 16)))).

(** [while (nverts > 1)]; [level] is only used for noise. *)
Fixpoint edge_loop (fuel : nat) (nverts : Z) (st : mrg_state) (base_src base_tgt : Z) : option (mrg_state * Z * Z) :=
  if nverts <=? 1 then Some (st, base_src, base_tgt) else
  match fuel with
  | O => None
  | S fuel =>
      '(st, square) ← generate_4way_bernoulli 8 st;
      let src_offset := square / 2 in
      let tgt_offset := square mod 2 in
      _ ← assert_ (base_src <=? base_tgt);
      let '(src_offset, tgt_offset) :=
        if (base_src =? base_tgt) && (tgt_offset <? src_offset) then (tgt_offset, src_offset) else (src_offset, tgt_offset) in
      let nverts := nverts / 2 in
      edge_loop fuel nverts st (base_src + nverts * src_offset) (base_tgt + nverts * tgt_offset)
  end.
Definition make_one_edge (nverts lgN : Z) (st : mrg_state) (val0 val1 : Z) : option (mrg_state * packed_edge) :=
  '(st, base_src, base_tgt) ← edge_loop 63 nverts st 0 0;
  v0 ← scramble base_src lgN val0 val1;
  v1 ← scramble base_tgt lgN val0 val1;
  Some (st, write_edge v0 v1).

(** The two numbers for scrambling *)
Definition scramble_values (state : mrg_state) : option (Z * Z) :=
  st ← mrg_skip state 50 7 0;
  '(st, r) ← mrg_get_uint_orig st; let val0 := u64 (r * 0xFFFFFFFF) in
  '(st, r) ← mrg_get_uint_orig st; let val0 := u64 (val0 + r) in
  '(st, r) ← mrg_get_uint_orig st; let val1 := u64 (r * 0xFFFFFFFF) in
  '(st, r) ← mrg_get_uint_orig st; let val1 := u64 (val1 + r) in
  Some (val0, val1).
(** [for (ei = start_edge; ei < end_edge; ++ei)], [n] rounds *)
Fixpoint range_loop (n : nat) (ei : Z) (state : mrg_state) (nverts logN val0 val1 : Z) : option (list packed_edge) :=
  match n with
  | O => Some []
  | S n =>
      st ← mrg_skip state 0 (u64 ei) 0;
      '(_, e) ← make_one_edge nverts logN st val0 val1;
      es ← range_loop n (ei + 1) state nverts logN val0 val1;
      Some (e :: es)
  end.
Definition generate_kronecker_range (seed : list Z) (logN start_edge end_edge : Z) : option (list packed_edge) :=
  state ← mrg_seed seed;
  if (logN <? 0) || (62 <? logN) then None else
  let nverts := Z.shiftl 1 logN in
  '(val0, val1) ← scramble_values state;
  range_loop (Z.to_nat (end_edge - start_edge)) start_edge state nverts logN val0 val1.
