(* ===== verification/KroneckerSpec.v ===== *)
(** * KroneckerSpec: the generator of edges

    Bit reversal, the permutation of the vertices, termination of the draws, and the
    edges of a range. *)

From S2P Require Import Prelude DictHash Mrg MrgSpec Kronecker.

Local Open Scope Z_scope.

(** ** Reversal of bits *)

(** The bit [i] of [y] is the bit [i xor k] of [x], for [w = 2^n] bits. *)
Definition moves (n k : Z) (x y : Z) : Prop := (∀ i, 0 ≤ i < 2 ^ n → Z.testbit y i = Z.testbit x (Z.lxor i k)) ∧ in_u (2 ^ n) y.
Lemma moves_trans n k k' x y z : 0 ≤ n → in_u n k → in_u n k' → moves n k x y → moves n k' y z → moves n (Z.lxor k k') x z.
Proof.
  intros Hn Hk Hk' [H1 _] [H2 Hz]. split; [|done]. intros i Hi. rewrite H2 by done. rewrite H1 by by apply lxor_range. by rewrite (Z.lxor_comm k k'), Z.lxor_assoc.
Qed.
Lemma moves_unique n k x y z : 0 ≤ 2 ^ n → moves n k x y → moves n k x z → y = z.
Proof.
  intros Hn [H1 Hy] [H2 Hz]. apply Z.bits_inj'. intros i Hi. destruct (Z.lt_ge_cases i (2 ^ n)); [by rewrite H1, H2 by lia|]. by rewrite !(in_u_testbit (2 ^ n)) by (done || lia).
Qed.

(** Does the mask fit for exchanging blocks of [k] bits? *)
Definition mask_ok (w k mask i : Z) : bool :=
  if Z.testbit mask i then (Z.lxor i k =? i + k) && (i + k <? w) && negb ((k <=? i) && Z.testbit mask (i - k))
  else (k <=? i) && Z.testbit mask (i - k) && (Z.lxor i k =? i - k).
Lemma swap_bits_moves n k mask x : 0 ≤ n → 0 ≤ k → in_u (2 ^ n) x → 0 ≤ mask → forallb (mask_ok (2 ^ n) k mask) (Z.of_nat <$> seq 0 (Z.to_nat (2 ^ n))) = true →
  moves n k x (swap_bits (2 ^ n) k mask x).
Proof.
  intros Hn Hk Hx Hm Hf. assert (0 ≤ 2 ^ n) as Hw by (apply Z.pow_nonneg; lia). split.
  - intros i Hi. assert (mask_ok (2 ^ n) k mask i = true) as Hi'.
    { rewrite forallb_forall in Hf. apply Hf. apply list_elem_of_In, list_elem_of_fmap. exists (Z.to_nat i). split; [lia|]. apply elem_of_seq. lia. }
    unfold swap_bits. rewrite Z.lor_spec, Z.land_spec, Z.shiftr_spec, wrapu_testbit, Z.shiftl_spec, Z.land_spec by lia. rewrite (proj2 (Z.ltb_lt i (2 ^ n))) by lia. rewrite andb_true_l. unfold mask_ok in Hi'.
    destruct (Z.testbit mask i) eqn:Em.
    + rewrite andb_true_r. apply andb_true_iff in Hi' as [Hi' Hne%negb_true_iff]. apply andb_true_iff in Hi' as [->%Z.eqb_eq _]. apply andb_false_iff in Hne as [Hlt%Z.leb_gt|Hb].
      * rewrite (Z.testbit_neg_r x (i - k)) by lia. cbn [andb]. by rewrite orb_false_r.
      * rewrite Hb, andb_false_r, orb_false_r. done.
    + rewrite andb_false_r. cbn [orb]. apply andb_true_iff in Hi' as [Hi' ->%Z.eqb_eq]. apply andb_true_iff in Hi' as [_ ->]. by rewrite andb_true_r.
  - apply in_u_bits; [done|]. intros j Hj. unfold swap_bits. rewrite Z.lor_spec, Z.land_spec, Z.shiftr_spec, wrapu_testbit by lia. rewrite (in_u_testbit (2 ^ n) x) by (done || lia). by rewrite (proj2 (Z.ltb_ge j (2 ^ n))) by lia.
Qed.
(** The two halves are exchanged without masks. *)
Lemma swap_halves n x : 1 ≤ n → in_u (2 ^ n) x → moves n (2 ^ (n - 1)) x (Z.lor (Z.shiftr x (2 ^ (n - 1))) (wrapu (2 ^ n) (Z.shiftl x (2 ^ (n - 1))))).
Proof.
  intros Hn Hx. assert (2 ^ n = 2 * 2 ^ (n - 1)) as E by (rewrite <- Z.pow_succ_r by lia; f_equal; lia). pose proof (Z.pow_pos_nonneg 2 (n - 1) ltac:(lia) ltac:(lia)) as Hp. set (h := 2 ^ (n - 1)) in *.
  assert (∀ i, 0 ≤ i < h → Z.lxor i h = i + h) as Hlo.
  { intros i Hi. symmetry. apply Z.add_nocarry_lxor. apply Z.bits_inj'. intros j Hj. rewrite Z.land_spec, Z.bits_0. unfold h. rewrite Z.pow2_bits_eqb by lia. destruct (Z.eqb_spec (n - 1) j) as [<- |]; [|apply andb_false_r].
    by rewrite (in_u_testbit (n - 1)) by (done || lia). }
  split; [|apply in_u_bits; [lia|]; intros j Hj; rewrite Z.lor_spec, Z.shiftr_spec, wrapu_testbit by lia; rewrite (in_u_testbit (2 ^ n) x) by (done || lia); by rewrite (proj2 (Z.ltb_ge j (2 ^ n))) by lia].
  intros i Hi. rewrite Z.lor_spec, Z.shiftr_spec, wrapu_testbit, Z.shiftl_spec by lia. rewrite (proj2 (Z.ltb_lt i (2 ^ n))) by lia. rewrite andb_true_l. destruct (Z.lt_ge_cases i h).
  - rewrite Hlo by lia. rewrite (Z.testbit_neg_r x (i - h)) by lia. apply orb_false_r.
  - rewrite (in_u_testbit (2 ^ n) x (i + h)) by (done || lia). rewrite orb_false_l. f_equal. replace i with ((i - h) + h) at 2 by lia. rewrite <- Hlo by lia. by rewrite Z.lxor_assoc, Z.lxor_nilpotent, Z.lxor_0_r.
Qed.

(** Bytes in reverse *)
Lemma bswap_bits n : ∀ x acc i, 0 ≤ i → Z.testbit (bswap n x acc) i =
  if i <? 8 * Z.of_nat n then Z.testbit x (8 * (Z.of_nat n - 1 - i / 8) + i mod 8) else Z.testbit acc (i - 8 * Z.of_nat n).
Proof.
  induction n as [|n IH]; intros x acc i Hi; cbn [bswap].
  - rewrite (proj2 (Z.ltb_ge _ _)) by lia. f_equal. lia.
  - rewrite IH by done. pose proof (Z.div_mod i 8 ltac:(lia)) as Ed. pose proof (Z.mod_pos_bound i 8 ltac:(lia)) as Hm. destruct (Z.ltb_spec i (8 * Z.of_nat n)).
    + rewrite (proj2 (Z.ltb_lt i (8 * Z.of_nat (S n)))) by lia. rewrite Z.shiftr_spec by lia. f_equal. lia.
    + rewrite Z.lor_spec, Z.shiftl_spec by lia. change 0xFF with (Z.ones 8). rewrite Z.land_ones by lia. destruct (Z.ltb_spec i (8 * Z.of_nat (S n))).
      * rewrite (Z.testbit_neg_r acc) by lia. rewrite orb_false_l, Z.mod_pow2_bits_low by lia. f_equal. lia.
      * rewrite Z.mod_pow2_bits_high by lia. rewrite orb_false_r. f_equal. lia.
Qed.
Lemma bswap_moves x : moves 6 56 x (bswap 8 x 0).
Proof.
  split.
  - intros i Hi. rewrite bswap_bits by lia. rewrite (proj2 (Z.ltb_lt _ _)) by lia. f_equal. change (2 ^ 6) with 64 in Hi.
    assert (forallb (λ i, Z.lxor i 56 =? 8 * (Z.of_nat 8 - 1 - i / 8) + i mod 8) (Z.of_nat <$> seq 0 64) = true) as Hf by (vm_compute; reflexivity).
    rewrite forallb_forall in Hf. symmetry. apply Z.eqb_eq, Hf. apply list_elem_of_In, list_elem_of_fmap. exists (Z.to_nat i). split; [lia|]. apply elem_of_seq. lia.
  - apply in_u_bits; [lia|]. intros j Hj. rewrite bswap_bits by lia. change (2 ^ 6) with 64 in Hj. rewrite (proj2 (Z.ltb_ge _ _)) by lia. apply Z.bits_0.
Qed.

Lemma moves_then n k k' x y (f : Z → Z) : 0 ≤ n → in_u n k → in_u n k' → moves n k x y → (in_u (2 ^ n) y → moves n k' y (f y)) → moves n (Z.lxor k k') x (f y).
Proof. intros Hn Hk Hk' Hy Hf. eapply moves_trans; [done..|]. apply Hf, Hy. Qed.
Ltac stage := apply moves_then; [lia|done|done| |intros; apply swap_bits_moves; [lia|lia|done|lia|vm_compute; reflexivity]].
Lemma bitreverse_moves x : in_u 64 x → moves 6 63 x (bitreverse x).
Proof.
  intros Hx. unfold bitreverse. change 63 with (Z.lxor (Z.lxor (Z.lxor 56 4) 2) 1). change 64 with (2 ^ 6) in *. do 3 stage. apply bswap_moves.
Qed.
Lemma bitreverse_64_moves x : in_u 64 x → moves 6 63 x (bitreverse_64 x).
Proof.
  intros Hx. unfold bitreverse_64. change 63 with (Z.lxor (Z.lxor (Z.lxor (Z.lxor (Z.lxor 32 16) 8) 4) 2) 1). change 64 with (2 ^ 6) in *. do 5 stage. by apply (swap_halves 6).
Qed.
Lemma half_moves x : in_u 32 x → moves 5 31 x (bitreverse_half x).
Proof.
  intros Hx. unfold bitreverse_half. change 31 with (Z.lxor (Z.lxor (Z.lxor (Z.lxor 16 8) 4) 2) 1). change 32 with (2 ^ 5) in *. do 4 stage. by apply (swap_halves 5).
Qed.
Lemma lxor_63 i : 0 ≤ i < 64 → Z.lxor i 63 = 63 - i.
Proof.
  intros Hi. assert (forallb (λ i, Z.lxor i 63 =? 63 - i) (Z.of_nat <$> seq 0 64) = true) as Hf by (vm_compute; reflexivity).
  rewrite forallb_forall in Hf. apply Z.eqb_eq, Hf. apply list_elem_of_In, list_elem_of_fmap. exists (Z.to_nat i). split; [lia|]. apply elem_of_seq. lia.
Qed.
Lemma bitreverse_32_moves x : in_u 64 x → moves 6 63 x (bitreverse_32 x).
Proof.
  intros Hx. unfold bitreverse_32. change 0xFFFFFFFF with (Z.ones 32). rewrite Z.land_ones by lia. change (x mod 2 ^ 32) with (wrapu 32 x). rewrite (wrapu_small 32 (wrapu 32 x)) by (apply wrapu_range; lia).
  pose proof (half_moves _ (wrapu_range 32 (Z.shiftr x 32) ltac:(lia))) as [Hh Rh]. pose proof (half_moves _ (wrapu_range 32 x ltac:(lia))) as [Hl Rl]. change (2 ^ 5) with 32 in *. change (2 ^ 6) with 64.
  assert (∀ i, 0 ≤ i < 32 → Z.lxor i 31 = 31 - i) as E31.
  { intros i Hi. assert (forallb (λ i, Z.lxor i 31 =? 31 - i) (Z.of_nat <$> seq 0 32) = true) as Hf by (vm_compute; reflexivity).
    rewrite forallb_forall in Hf. apply Z.eqb_eq, Hf. apply list_elem_of_In, list_elem_of_fmap. exists (Z.to_nat i). split; [lia|]. apply elem_of_seq. lia. }
  split; change (2 ^ 6) with 64 in *.
  - intros i Hi. rewrite lxor_63 by done. rewrite Z.lor_spec, wrapu_testbit, Z.shiftl_spec by lia. rewrite (proj2 (Z.ltb_lt i 64)) by lia. rewrite andb_true_l. destruct (Z.lt_ge_cases i 32).
    + rewrite (Z.testbit_neg_r _ (i - 32)) by lia. rewrite Hh, E31 by lia. rewrite wrapu_testbit, Z.shiftr_spec by lia. rewrite (proj2 (Z.ltb_lt (31 - i) 32)) by lia. cbn [orb andb]. f_equal. lia.
    + rewrite (in_u_testbit 32 (bitreverse_half (wrapu 32 (Z.shiftr x 32)))) by (done || lia). rewrite orb_false_r, Hl, E31 by lia. rewrite wrapu_testbit by lia. rewrite (proj2 (Z.ltb_lt _ 32)) by lia. cbn [andb]. f_equal. lia.
  - apply in_u_bits; [lia|]. intros j Hj. rewrite Z.lor_spec, wrapu_testbit by lia. rewrite (proj2 (Z.ltb_ge j 64)) by lia. by rewrite (in_u_testbit 32 (bitreverse_half (wrapu 32 (Z.shiftr x 32)))) by (done || lia).
Qed.

(** All variants of [bitreverse] (64-bit code with and without the byte swap of
    the compiler, 32-bit code) compute the same number, whose bit [i] is the bit
    [63 - i] of the argument. *)
Theorem bitreverse_correct x : in_u 64 x →
  bitreverse_64 x = bitreverse x ∧ bitreverse_32 x = bitreverse x ∧ in_u 64 (bitreverse x) ∧ ∀ i, 0 ≤ i < 64 → Z.testbit (bitreverse x) i = Z.testbit x (63 - i).
Proof.
  intros Hx. pose proof (bitreverse_moves x Hx) as Hb. split; [apply (moves_unique 6 63 x); [lia|by apply bitreverse_64_moves|done]|]. split; [apply (moves_unique 6 63 x); [lia|by apply bitreverse_32_moves|done]|].
  destruct Hb as [Hb Hr]. split; [done|]. intros i Hi. rewrite Hb by done. by rewrite lxor_63.
Qed.
Lemma bitreverse_correct_witness : bitreverse_64 1 = bitreverse 1 ∧ bitreverse 1 = 2 ^ 63.
Proof. split; [apply (bitreverse_correct 1)|]; by_decision || (vm_compute; reflexivity). Defined.

(** ** Scrambling *)

(** The low [n] bits in reverse *)
Definition rev_low (n v : Z) : Z := Z.shiftr (bitreverse v) (64 - n).
Lemma rev_low_bits n v i : 1 ≤ n ≤ 63 → in_u 64 v → 0 ≤ i < n → Z.testbit (rev_low n v) i = Z.testbit v (n - 1 - i).
Proof.
  intros Hn Hv Hi. unfold rev_low. rewrite Z.shiftr_spec by lia. destruct (bitreverse_moves v Hv) as [Hb _]. rewrite Hb, lxor_63 by (change (2 ^ 6) with 64; lia). f_equal. lia.
Qed.
Lemma rev_low_range n v : 1 ≤ n ≤ 63 → in_u 64 v → in_u n (rev_low n v).
Proof.
  intros Hn Hv. apply in_u_bits; [lia|]. intros j Hj. unfold rev_low. rewrite Z.shiftr_spec by lia. apply (in_u_testbit 64); [|lia]. apply (bitreverse_moves v Hv).
Qed.
Lemma rev_low_inj n v v' : 1 ≤ n ≤ 63 → in_u 64 v → in_u 64 v' → rev_low n v = rev_low n v' → v mod 2 ^ n = v' mod 2 ^ n.
Proof.
  intros Hn Hv Hv' E. apply Z.bits_inj'. intros i Hi. destruct (Z.lt_ge_cases i n); [|by rewrite !Z.mod_pow2_bits_high by lia].
  rewrite !Z.mod_pow2_bits_low by lia. replace i with (n - 1 - (n - 1 - i)) by lia. rewrite <- (rev_low_bits n v), <- (rev_low_bits n v') by (done || lia). by rewrite E.
Qed.
(** One round of the scrambling *)
Definition mix (n c o v : Z) : Z := rev_low n (u64 ((v + c) * o)).
Lemma mix_range n c o v : 1 ≤ n ≤ 63 → in_u n (mix n c o v).
Proof. intros Hn. apply rev_low_range; [done|]. apply wrapu_range. lia. Qed.
Lemma mod_pow_le a n : 0 ≤ n ≤ 64 → u64 a mod 2 ^ n = a mod 2 ^ n.
Proof.
  intros Hn. apply Z.bits_inj'. intros i Hi. destruct (Z.lt_ge_cases i n); [|by rewrite !Z.mod_pow2_bits_high by lia]. rewrite !Z.mod_pow2_bits_low by lia. rewrite wrapu_testbit by lia. by rewrite (proj2 (Z.ltb_lt i 64)) by lia.
Qed.
Lemma mix_inj n c o v v' : 1 ≤ n ≤ 63 → Z.Odd o → in_u n v → in_u n v' → mix n c o v = mix n c o v' → v = v'.
Proof.
  intros Hn Ho Hv Hv' E. apply rev_low_inj in E; [|done|apply wrapu_range; lia..]. rewrite !mod_pow_le in E by lia.
  assert (2 ^ n | (v - v') * o) as Hd.
  { apply Z.mod_divide; [lia|]. replace ((v - v') * o) with ((v + c) * o - (v' + c) * o) by ring. rewrite Zminus_mod, E, Z.sub_diag. apply Z.mod_0_l. lia. }
  rewrite Z.mul_comm in Hd. apply Znumtheory.Gauss in Hd.
  - destruct Hd as [q Hq]. unfold in_u in *. assert (q = 0) by nia. nia.
  - apply Znumtheory.rel_prime_sym, Zpow_facts.rel_prime_Zpower_r; [lia|]. apply Znumtheory.rel_prime_iff_coprime, Z.coprime_Bezout. destruct Ho as [k ->]. exists 1, (- k). lia.
Qed.
Lemma odd_lor a c : Z.testbit c 0 = true → Z.Odd (Z.lor a c).
Proof. intros Hc. apply Z.odd_spec. rewrite <- Z.bit0_odd, Z.lor_spec, Hc. apply orb_true_r. Qed.
Lemma scramble_mix v n val0 val1 : 1 ≤ n ≤ 63 → scramble v n val0 val1 = Some (mix n 0 (Z.lor val1 0x3050852102C843A5) (mix n (val0 + val1) (Z.lor val0 0x4519840211493211) v)).
Proof.
  intros Hn. unfold scramble, shr64. rewrite (proj2 (Z.leb_le 0 (64 - n))), (proj2 (Z.ltb_lt (64 - n) 64)), (proj2 (Z.leb_le 0 n)), (proj2 (Z.ltb_lt n 64)) by lia. cbn [andb mbind option_bind].
  assert (u64 (u64 (u64 v + u64 (val0 + val1)) * Z.lor val0 0x4519840211493211) = u64 ((v + (val0 + val1)) * Z.lor val0 0x4519840211493211)) as ->.
  { unfold wrapu. rewrite <- (Zplus_mod v (val0 + val1)). by rewrite Zmult_mod_idemp_l. }
  fold (rev_low n (u64 ((v + (val0 + val1)) * Z.lor val0 0x4519840211493211))). fold (mix n (val0 + val1) (Z.lor val0 0x4519840211493211) v). set (w := mix n _ _ v).
  assert (∀ x, in_u n x → Z.shiftr x n = 0) as Hs by (intros x Hx; rewrite Z.shiftr_div_pow2 by lia; by apply Z.div_small).
  rewrite (Hs w) by by apply mix_range. cbn [Z.eqb assert_ mbind option_bind]. assert (Z.shiftr (bitreverse (u64 (w * Z.lor val1 0x3050852102C843A5))) (64 - n) = mix n 0 (Z.lor val1 0x3050852102C843A5) w) as -> by (unfold mix, rev_low; by rewrite Z.add_0_r).
  pose proof (mix_range n 0 (Z.lor val1 0x3050852102C843A5) w Hn) as Hr. rewrite (Hs _ Hr). cbn [Z.eqb assert_ mbind option_bind]. f_equal. apply wraps_small; [lia|]. unfold in_u, in_s in *. pose proof (Z.pow_le_mono_r 2 n 63). lia.
Qed.

(** Scrambling the vertices is a permutation of the numbers below [2^lgN], for
    all random values; its assertions hold. *)
Theorem scramble_permutation lgN val0 val1 : 1 ≤ lgN ≤ 63 →
  ∃ f, (∀ v, scramble v lgN val0 val1 = Some (f v)) ∧ f <$> seqZ 0 (2 ^ lgN) ≡ₚ seqZ 0 (2 ^ lgN).
Proof.
  intros Hn. eexists. split; [intros v; by apply scramble_mix|]. apply submseteq_length_Permutation; [|by rewrite length_fmap]. apply NoDup_submseteq.
  - apply NoDup_fmap_2_strong; [|apply NoDup_seqZ]. intros v v' Hv%elem_of_seqZ Hv'%elem_of_seqZ E. apply mix_inj in E; [|done|by apply odd_lor|by apply mix_range..]. apply mix_inj in E; [done|done|by apply odd_lor|unfold in_u; lia..].
  - intros w (v & -> & _)%list_elem_of_fmap. apply elem_of_seqZ. by apply mix_range.
Qed.
Lemma scramble_permutation_witness : ∃ f, (∀ v, scramble v 3 12345 67890 = Some (f v)) ∧ f <$> seqZ 0 (2 ^ 3) ≡ₚ seqZ 0 (2 ^ 3).
Proof. apply (scramble_permutation 3 12345 67890). lia. Defined.
Example scramble_8 : (λ v, scramble v 3 12345 67890) <$> seqZ 0 8 = Some <$> [2; 7; 6; 5; 4; 0; 1; 3].
Proof. vm_compute. reflexivity. Qed.

(** ** Draws *)

Definition st_zero : mrg_state := mkSt 0 0 0 0 0.
(** A state from which numbers can be drawn *)
Definition st_live (st : mrg_state) : Prop := st_ok st ∧ st ≠ st_zero.
Lemma next_zero st : st_ok st → next_state st = st_zero → st = st_zero.
Proof.
  destruct st as [a b c d e]. intros (_ & _ & _ & _ & He) E. cbn [z5] in He. unfold next_state, st_zero in *. cbn [z1 z2 z3 z4 z5] in E. injection E as E -> -> -> ->. f_equal.
  rewrite Z.mul_0_r, Z.add_0_l in E. transitivity ((1840344978 * (104480 * e)) mod M31); [|by rewrite <- Zmult_mod_idemp_r, E].
  replace (1840344978 * (104480 * e)) with (e + 89537 * e * M31) by (unfold M31; ring). rewrite Z.mod_add by done. symmetry. apply Z.mod_small. exact He.
Qed.
Lemma next_live st : st_live st → st_live (next_state st).
Proof. intros [H1 H2]. split; [by apply next_ok|]. intros E. by apply H2, next_zero. Qed.
Lemma after_live n st : st_live st → st_live (after n st).
Proof. intros H. unfold after. apply N.iter_invariant; [|done]. intros; by apply next_live. Qed.
(** Small numbers are not followed by a small number, unless they are 0. *)
Lemma small_next st : st_ok st → z1 st < limit → z5 st < limit → z1 (next_state st) < limit → z1 st = 0 ∧ z5 st = 0.
Proof.
  intros (H1 & _ & _ & _ & H5) Ha He. cbn [next_state z1]. change limit with 3647 in *. unfold lt31 in *. set (a := z1 st) in *. set (e := z5 st) in *. clearbody a e.
  pose proof (Z.div_mod (107374182 * a + 104480 * e) M31 ltac:(done)) as Ed. pose proof (Z.mod_pos_bound (107374182 * a + 104480 * e) M31 ltac:(done)) as Hm. unfold M31 in *.
  set (m := (107374182 * a + 104480 * e) mod 0x7FFFFFFF) in *. set (k := (107374182 * a + 104480 * e) / 0x7FFFFFFF) in *. clearbody m k. intros Hlt.
  pose proof (Z.div_mod a 20 ltac:(lia)) as Ea. pose proof (Z.mod_pos_bound a 20 ltac:(lia)) as Hr. set (q := a / 20) in *. set (r := a mod 20) in *. clearbody q r. assert (0 ≤ q ≤ 182) as Hq by lia.
  assert (107374182 * r - 7 * q + 104480 * e - 0x7FFFFFFF * (k - q) = m) as E by lia. assert (k - q = 0 ∨ k - q = 1) as [Ek|Ek] by lia; rewrite Ek in E; [lia|].
  assert (r = 17 ∨ r = 18 ∨ r = 19) as [-> |[-> | ->]] by lia; lia.
Qed.
(** Of nine numbers one is not small. *)
Lemma nine_draws st : st_live st → ¬ (∀ k, (1 ≤ k ≤ 9)%N → z1 (after k st) < limit).
Proof.
  intros Hst Hall. assert (∀ k, st_ok (after k st)) as Hok by (intros k; apply after_ok, Hst).
  assert (∀ k, (5 ≤ k ≤ 8)%N → z1 (after k st) = 0 ∧ z1 (after (k - 4) st) = 0) as H0.
  { intros k Hk. assert (z5 (after k st) = z1 (after (k - 4) st)) as E5.
    { replace k with (4 + (k - 4))%N at 1 by lia. rewrite after_add. by destruct (after (k - 4) st). }
    rewrite <- E5. apply small_next; [done|apply Hall; lia|rewrite E5; apply Hall; lia|]. rewrite <- after_succ. apply Hall. lia. }
  destruct (after_live 5 st Hst) as [_ Hnz]. apply Hnz. destruct (H0 5%N ltac:(lia)) as [E5 E1]. destruct (H0 6%N ltac:(lia)) as [_ E2]. destruct (H0 7%N ltac:(lia)) as [_ E3]. destruct (H0 8%N ltac:(lia)) as [_ E4].
  change (5 - 4)%N with 1%N in E1. change (6 - 4)%N with 2%N in E2. change (7 - 4)%N with 3%N in E3. change (8 - 4)%N with 4%N in E4.
  pose proof (after_succ 4 st) as S5. pose proof (after_succ 3 st) as S4. pose proof (after_succ 2 st) as S3. pose proof (after_succ 1 st) as S2.
  change (N.succ 4) with 5%N in S5. change (N.succ 3) with 4%N in S4. change (N.succ 2) with 3%N in S3. change (N.succ 1) with 2%N in S2.
  assert (z2 (after 5 st) = 0 ∧ z3 (after 5 st) = 0 ∧ z4 (after 5 st) = 0 ∧ z5 (after 5 st) = 0) as (F2 & F3 & F4 & F5).
  { rewrite S5. cbn [next_state z2 z3 z4 z5]. split; [done|]. rewrite S4. cbn [next_state z2 z3 z4]. split; [done|]. rewrite S3. cbn [next_state z2 z3]. split; [done|]. by rewrite S2. }
  destruct (after 5 st) as [n5 n4 n3 n2 n1]. cbn [z1 z2 z3 z4 z5] in *. unfold st_zero. by subst.
Qed.
Lemma get_uint_eq st : st_ok st → mrg_get_uint_orig st = Some (next_state st, z1 (next_state st)).
Proof. intros H. unfold mrg_get_uint_orig. by rewrite orig_step_eq. Qed.
Lemma u32_draw st : st_ok st → u32 (z1 st) = z1 st.
Proof. intros (H & _). unfold lt31 in H. apply wrapu_small. unfold in_u. lia. Qed.
(** [redraw] ends with the first of the next numbers that is not small. *)
Lemma redraw_spec st fuel : ∀ i, st_live st → (∀ k, (1 ≤ k ≤ i)%N → z1 (after k st) < limit) → (i + N.of_nat fuel = 9)%N →
  ∃ st', redraw fuel (after i st) = Some (st', z1 st') ∧ st_live st' ∧ limit ≤ z1 st'.
Proof.
  induction fuel as [|fuel IH]; intros i Hst Hs Hi.
  - exfalso. apply (nine_draws st Hst). intros k Hk. apply Hs. lia.
  - cbn [redraw]. rewrite get_uint_eq by apply after_ok, Hst. cbn [mbind option_bind]. rewrite <- after_succ. rewrite u32_draw by apply after_ok, Hst. destruct (Z.ltb_spec (z1 (after (N.succ i) st)) limit).
    + apply IH; [done| |lia]. intros k Hk. destruct (decide (k = N.succ i)) as [-> |]; [done|]. apply Hs. lia.
    + eexists. split; [done|]. split; [by apply after_live|done].
Qed.

Lemma bernoulli_spec st : st_live st → ∃ st' square, generate_4way_bernoulli 8 st = Some (st', square) ∧ 0 ≤ square < 4 ∧ st_live st'.
Proof.
  intros Hst. unfold generate_4way_bernoulli. rewrite get_uint_eq by apply Hst. cbn [mbind option_bind]. pose proof (next_live st Hst) as Hn. rewrite u32_draw by apply Hn.
  assert (∃ st1, (if z1 (next_state st) <? limit then redraw 8 (next_state st) else Some (next_state st, z1 (next_state st))) = Some (st1, z1 st1) ∧ st_live st1) as (st1 & -> & H1).
  { destruct (Z.ltb_spec (z1 (next_state st)) limit); [|by eexists]. destruct (redraw_spec st 8 1 Hst) as (st1 & E & H1 & _); [|done|by exists st1]. intros k Hk. by replace k with 1%N by lia. }
  cbn [mbind option_bind]. cbv zeta. destruct (_ <? _); [by eexists _, _|]. destruct (_ <? _); [by eexists _, _|]. destruct (_ <? _); by eexists _, _.
Qed.

(** C19. The choice of a quadrant ends: from every state that is not zero, after at most
    nine numbers, one of the four quadrants is returned and the state is not zero.
    (The loop for an unbiased choice has no bound in the code; the zero state, which
    seeds exclude, would make it run forever.) *)
Theorem bernoulli_terminates st : st_live st →
  ∃ st' square, generate_4way_bernoulli 8 st = Some (st', square) ∧ 0 ≤ square < 4 ∧ st_live st'.
Proof. apply bernoulli_spec. Qed.
Lemma bernoulli_terminates_witness : ∃ st' square, generate_4way_bernoulli 8 (mkSt 1 2 3 4 5) = Some (st', square) ∧ 0 ≤ square < 4 ∧ st_live st'.
Proof. apply bernoulli_terminates. split; [unfold st_ok, lt31; cbn [z1 z2 z3 z4 z5]; lia|discriminate]. Defined.
Example bernoulli_zero : generate_4way_bernoulli 1000 st_zero = None.
Proof. vm_compute. reflexivity. Qed.

(** ** Edges *)

(** The round trip of the packed edges of 48-bit vertices *)
Lemma pack_low v : 0 ≤ v < 2 ^ 47 → Z.lor (u32 v) (wraps 64 (Z.shiftl (wraps 16 (Z.land (Z.shiftr v 32) 0xFFFF)) 32)) = v.
Proof.
  intros Hv. change 0xFFFF with (Z.ones 16). rewrite Z.land_ones, Z.shiftr_div_pow2 by lia. assert (0 ≤ v / 2 ^ 32 < 2 ^ 15) as Hd by (split; [apply Z.div_pos; lia|apply Z.div_lt_upper_bound; lia]).
  rewrite (Z.mod_small (v / 2 ^ 32)) by lia. rewrite (wraps_small 16) by (unfold in_s; lia). rewrite (wraps_small 64) by (rewrite ?Z.shiftl_mul_pow2 by lia; unfold in_s; lia).
  pose proof (Z.div_mod v (2 ^ 32) ltac:(lia)). rewrite lor_shift by (lia || apply wrapu_range; lia). unfold wrapu. lia.
Qed.
Lemma edge_roundtrip v0 v1 : 0 ≤ v0 < 2 ^ 47 → 0 ≤ v1 < 2 ^ 47 → get_v0_from_edge (write_edge v0 v1) = v0 ∧ get_v1_from_edge (write_edge v0 v1) = v1.
Proof.
  intros H0 H1. unfold get_v0_from_edge, get_v1_from_edge, write_edge. cbn [v0_low v1_low high]. assert (∀ v, 0 ≤ v < 2 ^ 47 → 0 ≤ Z.land (Z.shiftr v 32) 0xFFFF < 2 ^ 16) as Hr.
  { intros v Hv. change 0xFFFF with (Z.ones 16). rewrite Z.land_ones by lia. apply Z.mod_pos_bound. lia. }
  pose proof (Hr v0 H0) as R0. pose proof (Hr v1 H1) as R1. set (a := Z.land (Z.shiftr v0 32) 0xFFFF) in *. set (b := Z.land (Z.shiftr v1 32) 0xFFFF) in *.
  assert (wraps 64 (Z.shiftl b 16) = Z.shiftl b 16) as -> by (apply wraps_small; [lia|]; rewrite Z.shiftl_mul_pow2 by lia; unfold in_s; lia). rewrite lor_shift by (done || lia).
  rewrite (wrapu_small 32 (a + b * 2 ^ 16)) by (unfold in_u; lia).
  assert (Z.land (a + b * 2 ^ 16) 0xFFFF = a) as -> by (change 0xFFFF with (Z.ones 16); rewrite Z.land_ones by lia; rewrite Z.mod_add by lia; by apply Z.mod_small).
  assert (Z.shiftr (a + b * 2 ^ 16) 16 = b) as -> by (rewrite Z.shiftr_div_pow2 by lia; rewrite Z.div_add by lia; rewrite Z.div_small by lia; lia). split; by apply pack_low.
Qed.

Lemma edge_loop_spec L n : ∀ fuel st src tgt, (n ≤ fuel)%nat → st_live st → 0 ≤ src → (src = tgt ∨ src + 2 ^ Z.of_nat n ≤ tgt) → tgt + 2 ^ Z.of_nat n ≤ 2 ^ L →
  ∃ st' src' tgt', edge_loop fuel (2 ^ Z.of_nat n) st src tgt = Some (st', src', tgt') ∧ st_live st' ∧ 0 ≤ src' ≤ tgt' ∧ tgt' < 2 ^ L.
Proof.
  induction n as [|n IH]; intros fuel st src tgt Hf Hst Hs Hst' Ht.
  - change (2 ^ Z.of_nat 0) with 1 in *. exists st, src, tgt. split; [by destruct fuel|]. split; [done|]. lia.
  - destruct fuel as [|fuel]; [lia|]. rewrite Nat2Z.inj_succ, Z.pow_succ_r in * by lia. pose proof (Z.pow_pos_nonneg 2 (Z.of_nat n) ltac:(lia) ltac:(lia)) as Hp. set (h := 2 ^ Z.of_nat n) in *.
    cbn [edge_loop]. rewrite (proj2 (Z.leb_gt (2 * h) 1)) by lia. destruct (bernoulli_spec st Hst) as (st1 & sq & -> & Hsq & H1). cbn [mbind option_bind].
    rewrite (proj2 (Z.leb_le src tgt)) by lia. cbn [assert_ mbind option_bind]. replace (2 * h / 2) with h by (rewrite Z.mul_comm, Z.div_mul; lia).
    assert (sq = 0 ∨ sq = 1 ∨ sq = 2 ∨ sq = 3) as Hcases by lia. set (a := sq / 2). set (b := sq mod 2).
    assert ((a = 0 ∨ a = 1) ∧ (b = 0 ∨ b = 1)) as [Ha Hb] by (unfold a, b; destruct Hcases as [-> |[-> |[-> | ->]]]; vm_compute; auto). clearbody a b.
    destruct (Z.eqb_spec src tgt) as [Ee|Ee], (Z.ltb_spec b a) as [El|El]; cbn [andb]; destruct Ha as [-> | ->], Hb as [-> | ->]; try lia; rewrite ?Z.mul_0_r, ?Z.mul_1_r, ?Z.add_0_r; apply IH; (done || lia).
Qed.
(** The vertices of an edge are below [2^logN]. *)
Definition edge_in (logN : Z) (e : packed_edge) : Prop := 0 ≤ get_v0_from_edge e < 2 ^ logN ∧ 0 ≤ get_v1_from_edge e < 2 ^ logN.
Lemma make_one_edge_spec logN st val0 val1 : 1 ≤ logN ≤ 47 → st_live st → ∃ st' e, make_one_edge (2 ^ logN) logN st val0 val1 = Some (st', e) ∧ edge_in logN e.
Proof.
  intros Hn Hst. unfold make_one_edge. replace (2 ^ logN) with (2 ^ Z.of_nat (Z.to_nat logN)) by (f_equal; lia).
  destruct (edge_loop_spec logN (Z.to_nat logN) 63 st 0 0) as (st' & src & tgt & -> & Hst' & Hs & Ht); [lia|done|lia|by left|rewrite Z2Nat.id by lia; lia|]. cbn [mbind option_bind].
  rewrite !scramble_mix by lia. cbn [mbind option_bind]. eexists _, _. split; [done|]. pose proof (Z.pow_le_mono_r 2 logN 47 ltac:(lia) ltac:(lia)) as Hp. unfold edge_in.
  pose proof (λ c o v, mix_range logN c o v ltac:(lia)) as Hm. unfold in_u in Hm. pose proof (Hm 0 (Z.lor val1 0x3050852102C843A5)) as Hm'. match goal with |- context [write_edge ?a ?b] => destruct (edge_roundtrip a b) as [-> ->] end; [| |split; apply Hm'];
    match goal with |- 0 ≤ mix _ _ _ ?v < _ => pose proof (Hm' v); lia end.
Qed.

Lemma skip_live st hi mid lo : st_live st → in_u 64 hi → in_u 64 mid → in_u 64 lo → ∃ st', mrg_skip st hi mid lo = Some st' ∧ st_live st'.
Proof. intros Hst Hh Hm Hl. rewrite mrg_skip_spec by (done || apply Hst). eexists. split; [done|]. by apply after_live. Qed.
Lemma scramble_values_spec st : st_live st → ∃ val0 val1, scramble_values st = Some (val0, val1).
Proof.
  intros Hst. unfold scramble_values. destruct (skip_live st 50 7 0 Hst) as (s0 & -> & [H0 _]); [by_decision..|]. cbn [mbind option_bind].
  pose proof (next_ok _ H0) as H1. pose proof (next_ok _ H1) as H2. pose proof (next_ok _ H2) as H3. rewrite (get_uint_eq s0) by done. cbn [mbind option_bind]. rewrite (get_uint_eq (next_state s0)) by done. cbn [mbind option_bind].
  rewrite (get_uint_eq (next_state (next_state s0))) by done. cbn [mbind option_bind]. rewrite (get_uint_eq (next_state (next_state (next_state s0)))) by done. cbn [mbind option_bind]. by eexists _, _.
Qed.
Lemma range_loop_spec logN st val0 val1 n : ∀ ei, 1 ≤ logN ≤ 47 → st_live st →
  ∃ es, range_loop n ei st (2 ^ logN) logN val0 val1 = Some es ∧ length es = n ∧ Forall (edge_in logN) es.
Proof.
  induction n as [|n IH]; intros ei Hn Hst; cbn [range_loop]; [by exists []|]. destruct (skip_live st 0 (u64 ei) 0 Hst) as (st1 & -> & H1); [by_decision|apply wrapu_range; lia|by_decision|]. cbn [mbind option_bind].
  destruct (make_one_edge_spec logN st1 val0 val1 Hn H1) as (st2 & e & -> & He). cbn [mbind option_bind]. destruct (IH (ei + 1) Hn Hst) as (es & -> & Hl & Hes). cbn [mbind option_bind].
  exists (e :: es). split; [done|]. split; [by cbn; rewrite Hl|by constructor].
Qed.
Lemma range_loop_app logN st val0 val1 n m : ∀ ei, range_loop (n + m) ei st (2 ^ logN) logN val0 val1 =
  (es ← range_loop n ei st (2 ^ logN) logN val0 val1; fs ← range_loop m (ei + Z.of_nat n) st (2 ^ logN) logN val0 val1; Some (es ++ fs)).
Proof.
  induction n as [|n IH]; intros ei; cbn [range_loop Nat.add].
  - rewrite Z.add_0_r. cbn [mbind option_bind]. by destruct (range_loop m ei st _ _ _ _).
  - destruct (mrg_skip st 0 (u64 ei) 0) as [st1|]; [|done]. cbn [mbind option_bind]. destruct (make_one_edge _ _ st1 _ _) as [[st2 e]|]; [|done]. cbn [mbind option_bind]. rewrite IH.
    replace (ei + 1 + Z.of_nat n) with (ei + Z.of_nat (S n)) by lia. destruct (range_loop n (ei + 1) _ _ _ _ _); [|done]. cbn [mbind option_bind]. by destruct (range_loop m _ _ _ _ _ _).
Qed.

(** The seeds of the generator *)
Definition seed_ok (seed : list Z) : Prop := ∃ st, mrg_seed seed = Some st ∧ st_live st.
Lemma make_seed_ok u1 u2 : in_u 64 u1 → in_u 64 u2 → seed_ok (make_mrg_seed u1 u2).
Proof.
  intros H1 H2. unfold make_mrg_seed. change 0x3FFFFFFF with (Z.ones 30). rewrite !Z.land_ones, !Z.shiftr_div_pow2, Z.shiftl_mul_pow2 by lia.
  assert (∀ x, 0 ≤ x mod 2 ^ 30 < 2 ^ 30) as Hm by (intros x; apply Z.mod_pos_bound; lia). assert (∀ x, in_u 64 x → 0 ≤ x / 2 ^ 60 < 16) as Hq by (intros x Hx; unfold in_u in Hx; split; [apply Z.div_pos; lia|apply Z.div_lt_upper_bound; lia]).
  pose proof (Hq u1 H1) as Q1. pose proof (Hq u2 H2) as Q2. assert (∀ x, 0 ≤ x < 2 ^ 31 → u32 x = x) as Hu by (intros x Hx; apply wrapu_small; unfold in_u; lia).
  pose proof (Hm u1) as M1. pose proof (Hm (u1 / 2 ^ 30)) as M2. pose proof (Hm u2) as M3. pose proof (Hm (u2 / 2 ^ 30)) as M4. rewrite (wrapu_small 64) by (unfold in_u; lia).
  rewrite !(Hu (_ mod _)) by lia. rewrite (Hu (u1 / 2 ^ 60)), (Hu (u2 / 2 ^ 60 * 2 ^ 4)) by lia. rewrite (Hu (_ + u1 / 2 ^ 60)) by lia. rewrite !Hu by lia.
  eexists. split; [reflexivity|]. split; [unfold st_ok, lt31; cbn [z1 z2 z3 z4 z5]; lia|]. unfold st_zero. intros [= ? ? ? ? ?]. lia.
Qed.

(** C13. Every graph is generated: from any seeds of the user, for up to 2^47 vertices, each
    edge has vertices below [2^logN], no assertion fails and no draw runs forever, and
    the edges do not depend on how their range is split between processes. *)
Theorem make_graph_correct logN start middle end_ u1 u2 : 1 ≤ logN ≤ 47 → in_u 64 u1 → in_u 64 u2 → 0 ≤ start ≤ middle → middle ≤ end_ →
  let generate := generate_kronecker_range (make_mrg_seed u1 u2) logN in
  ∃ es1 es2, generate start middle = Some es1 ∧ generate middle end_ = Some es2 ∧ generate start end_ = Some (es1 ++ es2) ∧
    zlen es1 = middle - start ∧ zlen es2 = end_ - middle ∧ Forall (edge_in logN) (es1 ++ es2).
Proof.
  intros Hn H1 H2 Hs Hm generate. unfold generate, generate_kronecker_range. destruct (make_seed_ok u1 u2 H1 H2) as (st & -> & Hst). cbn [mbind option_bind].
  rewrite (proj2 (Z.ltb_ge logN 0)), (proj2 (Z.ltb_ge 62 logN)) by lia. cbn [orb]. rewrite Z.shiftl_mul_pow2, Z.mul_1_l by lia. destruct (scramble_values_spec st Hst) as (val0 & val1 & ->). cbn [mbind option_bind].
  destruct (range_loop_spec logN st val0 val1 (Z.to_nat (middle - start)) start Hn Hst) as (es1 & E1 & L1 & F1). destruct (range_loop_spec logN st val0 val1 (Z.to_nat (end_ - middle)) middle Hn Hst) as (es2 & E2 & L2 & F2).
  exists es1, es2. split; [done|]. split; [done|]. split.
  - replace (Z.to_nat (end_ - start)) with (Z.to_nat (middle - start) + Z.to_nat (end_ - middle))%nat by lia. rewrite range_loop_app, E1. cbn [mbind option_bind]. replace (start + Z.of_nat (Z.to_nat (middle - start))) with middle by lia. by rewrite E2.
  - unfold zlen. rewrite L1, L2. split; [lia|]. split; [lia|]. by apply Forall_app.
Qed.
Lemma make_graph_correct_witness : let generate := generate_kronecker_range (make_mrg_seed 2 3) 4 in
  ∃ es1 es2, generate 0 3 = Some es1 ∧ generate 3 8 = Some es2 ∧ generate 0 8 = Some (es1 ++ es2) ∧ zlen es1 = 3 - 0 ∧ zlen es2 = 8 - 3 ∧ Forall (edge_in 4) (es1 ++ es2).
Proof. apply (make_graph_correct 4 0 3 8 2 3); [lia|by_decision|by_decision|lia|lia]. Defined.
Example make_graph_demo : option_map (map (λ e, (get_v0_from_edge e, get_v1_from_edge e))) (generate_kronecker_range (make_mrg_seed 2 3) 4 0 5) = Some [(15, 3); (15, 12); (7, 12); (15, 15); (15, 15)].
Proof. vm_compute. reflexivity. Qed.
