(* ===== verification/Csr.v ===== *)
(** * Csr: the distributed graph (graph500/src/csr_reference.c, common.h, bitmap_reference.h)

    The vertices are distributed over [num_pes] processes, cyclically.  Each process
    holds the rows of its vertices in compressed form, with six bytes for a
    neighbour; it is built in two passes over the edges, in which the processes send
    each other active messages.  The layer of messages (aml.c over MPI) delivers each
    message once before a barrier, in any order: the passes are functions of that
    order.  [None] is an access outside of an array.  Hosts are little endian. *)

From S2P Require Import Prelude Endian.

Local Open Scope Z_scope.

(** [a[i]] and [a[i] = x] *)
Definition aget {A} (a : list A) (i : Z) : option A := if i <? 0 then None else a !! Z.to_nat i.
Definition aset {A} (a : list A) (i : Z) (x : A) : option (list A) := _ ← aget a i; Some (<[Z.to_nat i := x]> a).

(** A signed 32-bit integer: overflow is undefined. *)
Definition int_ (x : Z) : option Z := if (- 2 ^ 31 <=? x) && (x <? 2 ^ 31) then Some x else None.

Section csr.
Context (num_pes : Z).

(** ** Distribution of the vertices (common.h) *)

(** The variants for any number of processes, which the Makefile selects
    ([PROCS_PER_NODE_NOT_POWER_OF_TWO]); the operands are not negative. *)
Definition VERTEX_OWNER (v : Z) : Z := v mod num_pes.
Definition VERTEX_LOCAL (v : Z) : Z := v / num_pes.
Definition VERTEX_TO_GLOBAL (r i : Z) : Z := i * num_pes + r.

(** ** Bitmap (bitmap_reference.h) *)

Definition SET_VISITEDLOC (visited : list Z) (v : Z) : option (list Z) :=
  w ← aget visited (Z.shiftr v 6); aset visited (Z.shiftr v 6) (Z.lor w (u64 (Z.shiftl 1 (Z.land v 63)))).
Definition TEST_VISITEDLOC (visited : list Z) (v : Z) : option bool :=
  w ← aget visited (Z.shiftr v 6); Some (negb (Z.land w (u64 (Z.shiftl 1 (Z.land v 63))) =? 0)).

(** ** Rows (csr_reference.h) *)

Definition BYTES_PER_VERTEX : Z := 6.
(** The product is one of [int], as [a] is. *)
Definition SETCOLUMN (column : list Z) (a b : Z) : option (list Z) :=
  off ← int_ (BYTES_PER_VERTEX * a);
  store column off (take (Z.to_nat BYTES_PER_VERTEX) (to_mem false 8 b)).
(** Eight bytes are read, and the upper two masked. *)
Definition column_at (column : list Z) (off : Z) : option Z :=
  bs ← load column off 8; Some (Z.land (of_mem false bs) (Z.shiftr 0xffffffffffffffff (64 - 8 * BYTES_PER_VERTEX))).
(** The offset has the type of the index: [unsigned int], [int] or [long]. *)
Definition COLUMN (column : list Z) (i : Z) : option Z := column_at column (u32 (BYTES_PER_VERTEX * i)).
Definition COLUMN_int (column : list Z) (i : Z) : option Z := off ← int_ (BYTES_PER_VERTEX * i); column_at column off.
Definition COLUMN_long (column : list Z) (i : Z) : option Z := column_at column (BYTES_PER_VERTEX * i).

Record oned_csr_graph := mkCsr { nlocalverts : Z; nglobalverts : Z; nlocaledges : Z; rowstarts : list Z; column : list Z }.

(** ** Construction *)

(** The messages of an edge: half edges (the vertex and the neighbour, for
    [nverts_known]) and full edges *)
Definition edge_sends (e : Z * Z) : list (Z * Z) := let '(v0, v1) := e in if v0 =? v1 then [] else [(v0, v1); (v1, v0)].
Definition sends (edges : list (Z * Z)) : list (Z * Z) := edges ≫= edge_sends.

Definition halfedgehndl (degrees : list Z) (vloc : Z) : option (list Z) := d ← aget degrees vloc; d ← int_ (d + 1); aset degrees vloc d.
Definition fulledgehndl (st : list Z * list Z) (vloc gtgt : Z) : option (list Z * list Z) :=
  let '(degrees, column) := st in
  d ← aget degrees vloc;
  d1 ← int_ (d + 1);
  degrees ← aset degrees vloc d1;
  column ← SETCOLUMN column d gtgt;
  Some (degrees, column).
(** The deliveries to one process, in the given order *)
Definition first_pass (degrees : list Z) (msgs : list (Z * Z)) : option (list Z) :=
  foldl (λ d m, d ≫= λ d, halfedgehndl d (i32 (VERTEX_LOCAL m.1))) (Some degrees) msgs.
Definition second_pass (st : list Z * list Z) (msgs : list (Z * Z)) : option (list Z * list Z) :=
  foldl (λ st m, st ≫= λ st, fulledgehndl st (i32 (VERTEX_LOCAL m.1)) m.2) (Some st) msgs.
(** [if(tgt>=nverts_known) nverts_known=tgt+1], and the maximum over the processes *)
Definition nverts_known (edges : list (Z * Z)) : Z := foldl (λ n m, if n <=? m.2 then m.2 + 1 else n) 0 (sends edges).

(** [for (i = 0; i < nlocalverts; ++i)]: the rows start where the ones before end. *)
Fixpoint rowstarts_loop (n : nat) (i start : Z) (degrees : list Z) : option (list Z * list Z) :=
  match n with
  | O => Some ([start], degrees)
  | S n =>
      d ← aget degrees i;
      degrees ← aset degrees i start;
      '(starts, degrees) ← rowstarts_loop n (i + 1) (u32 (start + d)) degrees;
      Some (start :: starts, degrees)
  end.

(** The process [rank]: [order1] and [order2] are the messages it receives in the two
    passes, [junk] the bytes of [xmalloc]. *)
Definition convert_graph_to_oned_csr (junk : nat → Z) (rank nglobaledges : Z) (edges : list (Z * Z)) (order1 order2 : list (Z * Z)) : option oned_csr_graph :=
  let nvert := nglobaledges / 2 / num_pes + 1 in
  degrees ← first_pass (replicate (Z.to_nat nvert) 0) order1;
  let nglobalverts := nverts_known edges + 1 in
  let nlocalverts := VERTEX_LOCAL (nglobalverts + num_pes - 1 - rank) in
  '(rowstarts, degrees) ← rowstarts_loop (Z.to_nat nlocalverts) 0 0 degrees;
  nlocaledges ← aget rowstarts nlocalverts;
  let colalloc := (BYTES_PER_VERTEX * nlocaledges + 4095) / 4096 * 4096 in
  '(_, column) ← second_pass (degrees, junk <$> seq 0 (Z.to_nat colalloc)) order2;
  Some (mkCsr nlocalverts nglobalverts nlocaledges rowstarts column).

(** [for (j = rowstarts[i]; j < rowstarts[i+1]; j++)]: the neighbours of the local
    vertex [i] *)
Definition row_of (COLUMN : list Z → Z → option Z) (g : oned_csr_graph) (i : Z) : option (list Z) :=
  s ← aget (rowstarts g) i;
  e ← aget (rowstarts g) (i + 1);
  mapM (COLUMN (column g)) (seqZ s (e - s)).
Definition row : oned_csr_graph → Z → option (list Z) := row_of COLUMN.

(** The vertex has no edge: [rowstarts] is read at its index, on the process that owns
    it. *)
Definition isisolated (g : oned_csr_graph) (my_pe v : Z) : option bool :=
  if my_pe =? VERTEX_OWNER v then
    s ← aget (rowstarts g) (VERTEX_LOCAL v); e ← aget (rowstarts g) (VERTEX_LOCAL v + 1); Some (s =? e)
  else Some false.

End csr.
