(* ===== verification/CsrSpec.v ===== *)
(** * CsrSpec: the rows of the distributed graph

    For every order in which the messages of the two passes arrive, the row of a
    vertex holds its neighbours. *)

From S2P Require Import Prelude Endian Csr.

Local Open Scope Z_scope.

(** ** Arrays *)

Lemma aget_nat {A} (a : list A) (i : Z) : 0 ≤ i → aget a i = a !! Z.to_nat i.
Proof. intros Hi. unfold aget. by rewrite (proj2 (Z.ltb_ge i 0)). Qed.
Lemma aget_lt {A} (a : list A) (i : Z) x : aget a i = Some x → 0 ≤ i < zlen a.
Proof. unfold aget. destruct (Z.ltb_spec i 0); [done|]. intros E%lookup_lt_Some. unfold zlen. lia. Qed.
Lemma aget_some {A} (a : list A) (i : Z) : 0 ≤ i < zlen a → ∃ x, aget a i = Some x.
Proof. intros Hi. rewrite aget_nat by lia. apply lookup_lt_is_Some_2. unfold zlen in Hi. lia. Qed.
Lemma aset_spec {A} (a : list A) (i : Z) x : 0 ≤ i < zlen a → ∃ a', aset a i x = Some a' ∧ zlen a' = zlen a ∧ ∀ j, aget a' j = if decide (j = i) then Some x else aget a j.
Proof.
  intros Hi. destruct (aget_some a i Hi) as [y Hy]. unfold aset. rewrite Hy. cbn [mbind option_bind]. eexists. split; [done|]. unfold zlen in *. split; [by rewrite length_insert|]. intros j. unfold aget.
  destruct (decide (j = i)) as [-> |Hne].
  - rewrite (proj2 (Z.ltb_ge i 0)) by lia. apply list_lookup_insert_eq. lia.
  - destruct (Z.ltb_spec j 0); [done|]. apply list_lookup_insert_ne. lia.
Qed.
Lemma int_ok x {A} (k : Z → option A) : - 2 ^ 31 ≤ x < 2 ^ 31 → (int_ x ≫= k) = k x.
Proof. intros H. unfold int_. by rewrite (proj2 (Z.leb_le _ _)), (proj2 (Z.ltb_lt _ _)) by lia. Qed.

(** ** Columns of six bytes *)

Definition byte_of (b t : Z) : Z := Z.land (Z.shiftr b (t * 8)) (Z.ones 8).
Definition slot (col : list Z) (k b : Z) : Prop := ∀ t, 0 ≤ t < 6 → aget col (6 * k + t) = Some (byte_of b t).
Lemma store_get m off bs m' : store m off bs = Some m' → zlen m' = zlen m ∧ ∀ j, aget m' j = if decide (off ≤ j < off + zlen bs) then aget bs (j - off) else aget m j.
Proof.
  unfold store. case_bool_decide as H; [|done]. intros [= <-]. unfold zlen in *. split; [rewrite !length_app, length_take, length_drop; lia|]. intros j. unfold aget. destruct (decide (off ≤ j < off + Z.of_nat (length bs))) as [Hj|Hj].
  - rewrite (proj2 (Z.ltb_ge j 0)), (proj2 (Z.ltb_ge (j - off) 0)) by lia. rewrite lookup_app_r by (rewrite length_take; lia). rewrite length_take, Nat.min_l by lia. rewrite lookup_app_l by lia. f_equal. lia.
  - destruct (Z.ltb_spec j 0); [done|]. destruct (Z.lt_ge_cases j off).
    + rewrite lookup_app_l by (rewrite length_take; lia). apply lookup_take_lt. lia.
    + rewrite lookup_app_r by (rewrite length_take; lia). rewrite length_take, Nat.min_l by lia. rewrite lookup_app_r by lia. rewrite lookup_drop. f_equal. lia.
Qed.
Lemma take6_get b t : 0 ≤ t < 6 → aget (take (Z.to_nat BYTES_PER_VERTEX) (to_mem false 8 b)) t = Some (byte_of b t).
Proof.
  intros Ht. rewrite aget_nat by lia. change (Z.to_nat BYTES_PER_VERTEX) with 6%nat. rewrite lookup_take_lt by lia. unfold to_mem. apply Z_to_little_endian_lookup_Some; [lia..|]. split; [lia|]. unfold byte_of. f_equal. by rewrite Z2Nat.id by lia.
Qed.
Lemma zlen_take6 b : zlen (take (Z.to_nat BYTES_PER_VERTEX) (to_mem false 8 b)) = 6.
Proof. unfold zlen. rewrite length_take. pose proof (length_Z_to_little_endian 8 8 b ltac:(lia)) as H. unfold to_mem. change (Z.to_nat BYTES_PER_VERTEX) with 6%nat. lia. Qed.
Lemma byte_of_range b t : 0 ≤ byte_of b t < 2 ^ 8.
Proof. unfold byte_of. rewrite Z.land_ones by lia. apply Z.mod_pos_bound. lia. Qed.
Lemma setcolumn_spec col a b : 0 ≤ a → 6 * a < 2 ^ 31 → 6 * a + 6 ≤ zlen col → bytes_ok col →
  ∃ col', SETCOLUMN col a b = Some col' ∧ zlen col' = zlen col ∧ bytes_ok col' ∧ slot col' a b ∧ ∀ k v, k ≠ a → slot col k v → slot col' k v.
Proof.
  intros Ha Ho Hl Hb. unfold SETCOLUMN. rewrite int_ok by (unfold BYTES_PER_VERTEX; lia). assert (is_Some (store col (BYTES_PER_VERTEX * a) (take (Z.to_nat BYTES_PER_VERTEX) (to_mem false 8 b)))) as [col' E] by (apply store_is_Some; rewrite ?zlen_take6; unfold BYTES_PER_VERTEX; lia).
  destruct (store_get _ _ _ _ E) as [El Eg]. rewrite zlen_take6 in Eg. change (BYTES_PER_VERTEX * a) with (6 * a) in Eg. exists col'. split; [done|]. split; [done|]. split; [|split].
  - apply Forall_lookup. intros i x Hx. specialize (Eg (Z.of_nat i)). rewrite aget_nat, Nat2Z.id, Hx in Eg by lia. symmetry in Eg. destruct (decide _) as [Hd|Hd].
    + rewrite take6_get in Eg by lia. injection Eg as <-. apply byte_of_range.
    + rewrite aget_nat, Nat2Z.id in Eg by lia. unfold bytes_ok in Hb. rewrite Forall_lookup in Hb. by eapply Hb.
  - intros t Ht. rewrite Eg, decide_True by lia. replace (6 * a + t - 6 * a) with t by lia. by apply take6_get.
  - intros k v Hk Hs t Ht. rewrite Eg, decide_False by lia. by apply Hs.
Qed.
Lemma column_slot col k b : 0 ≤ k → 6 * k < 2 ^ 31 → 6 * k + 8 ≤ zlen col → bytes_ok col → slot col k b → 0 ≤ b < 2 ^ 48 → COLUMN col k = Some b ∧ COLUMN_int col k = Some b ∧ COLUMN_long col k = Some b.
Proof.
  intros Hk Ho Hl Hb Hs Hv. unfold COLUMN, COLUMN_int, COLUMN_long. rewrite (wrapu_small 32) by (unfold in_u, BYTES_PER_VERTEX; lia). rewrite int_ok by (unfold BYTES_PER_VERTEX; lia). enough (column_at col (BYTES_PER_VERTEX * k) = Some b) by done. unfold column_at, load. rewrite bool_decide_true by (unfold BYTES_PER_VERTEX; lia). cbn [mbind option_bind]. f_equal. change (Z.shiftr 0xffffffffffffffff (64 - 8 * BYTES_PER_VERTEX)) with (Z.ones 48).
  set (bs := take (Z.to_nat 8) (drop (Z.to_nat (BYTES_PER_VERTEX * k)) col)). apply Z.bits_inj'. intros i Hi. rewrite Z.land_spec. destruct (Z.lt_ge_cases i 48) as [H48|H48].
  - rewrite Z.ones_spec_low, andb_true_r by lia. pose proof (Z.div_mod i 8 ltac:(lia)) as Ed. pose proof (Z.mod_pos_bound i 8 ltac:(lia)) as Hm. assert (0 ≤ i / 8 < 6) as Hd by lia.
    assert (bs !! Z.to_nat (i / 8) = Some (byte_of b (i / 8))) as E.
    { unfold bs. rewrite lookup_take_lt by lia. rewrite lookup_drop. specialize (Hs (i / 8) Hd). rewrite aget_nat in Hs by lia. rewrite <- Hs. f_equal. unfold BYTES_PER_VERTEX. lia. }
    unfold of_mem. rewrite (little_endian_to_Z_spec 8 bs i (byte_of b (i / 8)) Hi ltac:(lia)); [|apply Forall_take, Forall_drop; exact Hb|exact E].
    unfold byte_of. rewrite Z.land_spec, Z.shiftr_spec, Z.ones_spec_low, andb_true_r by lia. f_equal. lia.
  - rewrite Z.ones_spec_high, andb_false_r by lia. symmetry. apply (in_u_testbit 48); [exact Hv|lia].
Qed.

(** ** The neighbours *)

Definition neighbours (edges : list (Z * Z)) (v : Z) : list Z := snd <$> filter (λ m, m.1 = v) (sends edges).
Definition edges_ok (edges : list (Z * Z)) : Prop := Forall (λ e, 0 ≤ e.1 < 2 ^ 48 ∧ 0 ≤ e.2 < 2 ^ 48) edges.
Lemma sends_elem edges m : m ∈ sends edges ↔ ∃ e, e ∈ edges ∧ m ∈ edge_sends e.
Proof. unfold sends. rewrite list_elem_of_bind. naive_solver. Qed.
Lemma sends_swap edges a b : (a, b) ∈ sends edges → (b, a) ∈ sends edges.
Proof.
  rewrite !sends_elem. intros ([v0 v1] & He & Hm). exists (v0, v1). split; [done|]. unfold edge_sends in *. destruct (v0 =? v1); [by apply not_elem_of_nil in Hm|]. rewrite !elem_of_cons, elem_of_nil in *. naive_solver.
Qed.
Lemma sends_ok edges : edges_ok edges → Forall (λ m, 0 ≤ m.1 < 2 ^ 48 ∧ 0 ≤ m.2 < 2 ^ 48) (sends edges).
Proof.
  intros H. apply Forall_forall. intros [a b] ([v0 v1] & He & Hm)%sends_elem. unfold edges_ok in H. rewrite Forall_forall in H. specialize (H _ He). cbn in *. destruct (v0 =? v1); [by apply not_elem_of_nil in Hm|].
  rewrite !elem_of_cons, elem_of_nil in Hm. destruct Hm as [[= -> ->]|[[= -> ->]|[]]]; tauto.
Qed.
Lemma known_fold l : ∀ n, n ≤ foldl (λ n m, if n <=? m.2 then m.2 + 1 else n) n l ∧ ∀ m : Z * Z, m ∈ l → m.2 < foldl (λ n m, if n <=? m.2 then m.2 + 1 else n) n l.
Proof.
  induction l as [|x l IH]; intros n; cbn [foldl]; [split; [done|]; by intros m ?%not_elem_of_nil|]. destruct (IH (if n <=? x.2 then x.2 + 1 else n)) as [H1 H2]. split; [destruct (Z.leb_spec n x.2); lia|].
  intros m [-> |Hm]%elem_of_cons; [destruct (Z.leb_spec n x.2); lia|by apply H2].
Qed.
Lemma sends_known edges m : m ∈ sends edges → m.1 < nverts_known edges.
Proof. destruct m as [a b]. intros Hm%sends_swap. apply (proj2 (known_fold _ 0) (b, a) Hm). Qed.

Lemma room_for n : 0 < n → n mod 2048 ≠ 0 → 6 * n + 2 ≤ (BYTES_PER_VERTEX * n + 4095) / 4096 * 4096.
Proof. intros Hn Hm. unfold BYTES_PER_VERTEX. Z.to_euclidean_division_equations. lia. Qed.
Lemma alloc_ge n : 0 ≤ n → 6 * n ≤ (BYTES_PER_VERTEX * n + 4095) / 4096 * 4096.
Proof. intros Hn. unfold BYTES_PER_VERTEX. Z.to_euclidean_division_equations. lia. Qed.

(** ** Counting messages *)

Section spec.
Context (num_pes : Z) (Hnum : 0 < num_pes < 2 ^ 31).

Local Notation VERTEX_LOCAL := (VERTEX_LOCAL num_pes).
Local Notation VERTEX_OWNER := (VERTEX_OWNER num_pes).
Implicit Types (msgs : list (Z * Z)) (i : Z).

(** The messages for the local vertex [i], their targets, and the number of messages
    for the vertices before it *)
Definition msgs_of msgs i : list (Z * Z) := filter (λ m, VERTEX_LOCAL m.1 = i) msgs.
Definition targets msgs i : list Z := snd <$> msgs_of msgs i.
Definition before msgs i : Z := zlen (filter (λ m, VERTEX_LOCAL m.1 < i) msgs).

Lemma zlen_targets msgs i : zlen (targets msgs i) = zlen (msgs_of msgs i).
Proof. unfold targets, zlen. by rewrite length_fmap. Qed.
Lemma before_succ msgs i : before msgs (i + 1) = before msgs i + zlen (targets msgs i).
Proof using Type.
  rewrite zlen_targets. unfold before, msgs_of. induction msgs as [|m msgs IH]; [done|]. rewrite !filter_cons. unfold zlen in *.
  destruct (decide (VERTEX_LOCAL m.1 < i + 1)), (decide (VERTEX_LOCAL m.1 < i)), (decide (VERTEX_LOCAL m.1 = i)); cbn [length]; lia.
Qed.
Lemma before_mono msgs i j : i ≤ j → before msgs i ≤ before msgs j.
Proof using Type.
  intros Hij. unfold before, zlen. induction msgs as [|m msgs IH]; [done|]. rewrite !filter_cons. destruct (decide (VERTEX_LOCAL m.1 < i)), (decide (VERTEX_LOCAL m.1 < j)); cbn [length]; lia.
Qed.
Lemma before_0 msgs : Forall (λ m, 0 ≤ VERTEX_LOCAL m.1) msgs → before msgs 0 = 0.
Proof using Type. intros H. unfold before, zlen. induction H as [|m msgs Hm _ IH]; [done|]. rewrite filter_cons, decide_False by lia. done. Qed.
Lemma before_all msgs n : Forall (λ m, VERTEX_LOCAL m.1 < n) msgs → before msgs n = zlen msgs.
Proof using Type. intros H. unfold before, zlen in *. induction H as [|m msgs Hm _ IH]; [done|]. rewrite filter_cons, decide_True by lia. cbn [length]. lia. Qed.
Lemma before_perm msgs msgs' i : msgs ≡ₚ msgs' → before msgs i = before msgs' i.
Proof using Type. intros H. unfold before, zlen. by rewrite H. Qed.
Lemma targets_app l l' i : targets (l ++ l') i = targets l i ++ targets l' i.
Proof using Type. unfold targets, msgs_of. by rewrite filter_app, fmap_app. Qed.
Lemma targets_one (m : Z * Z) i : targets [m] i = if decide (VERTEX_LOCAL m.1 = i) then [m.2] else [].
Proof using Type. unfold targets, msgs_of. rewrite filter_cons, filter_nil. by destruct (decide _). Qed.

(** ** The passes *)

Lemma first_pass_spec n msgs : ∀ D, Forall (λ m, 0 ≤ VERTEX_LOCAL m.1 < n) msgs → zlen D = n → n < 2 ^ 31 →
  (∀ i d, aget D i = Some d → 0 ≤ d ∧ d + zlen msgs < 2 ^ 31) →
  ∃ D', first_pass num_pes D msgs = Some D' ∧ zlen D' = n ∧ ∀ i d, aget D i = Some d → aget D' i = Some (d + zlen (targets msgs i)).
Proof using Type.
  unfold first_pass. induction msgs as [|m msgs IH]; intros D Hm HD Hn Hd; cbn [foldl].
  - exists D. split; [done|]. split; [done|]. intros i d ->. f_equal. change (zlen (targets [] i)) with 0. lia.
  - apply Forall_cons in Hm as [Hl Hm]. cbn [mbind option_bind]. rewrite (wraps_small 32) by (unfold in_s; lia). unfold halfedgehndl. destruct (aget_some D (VERTEX_LOCAL m.1)) as [d Ed]; [lia|]. rewrite Ed. cbn [mbind option_bind].
    pose proof (Hd _ _ Ed) as Hb. rewrite zlen_cons in Hb. pose proof (zlen_nonneg msgs). rewrite int_ok by lia. destruct (aset_spec D (VERTEX_LOCAL m.1) (d + 1)) as (D1 & -> & L1 & G1); [lia|].
    destruct (IH D1 Hm) as (D' & E' & L' & G'); [lia|done| |].
    + intros i e He. rewrite G1 in He. destruct (decide (i = VERTEX_LOCAL m.1)); [injection He as <-; lia|]. specialize (Hd _ _ He). rewrite zlen_cons in Hd. lia.
    + exists D'. split; [done|]. split; [done|]. intros i e He. change (m :: msgs) with ([m] ++ msgs). rewrite targets_app, targets_one, zlen_app. specialize (G1 i). destruct (decide (i = VERTEX_LOCAL m.1)) as [-> |Hne].
      * rewrite (G' _ _ G1), decide_True by done. f_equal. rewrite Ed in He. injection He as ->. unfold zlen. cbn [length]. lia.
      * rewrite He in G1. rewrite (G' _ _ G1), decide_False by done. done.
Qed.
Lemma rowstarts_loop_spec msgs n : ∀ i D, 0 ≤ i → zlen msgs < 2 ^ 31 → before msgs (i + Z.of_nat n) ≤ zlen msgs → i + Z.of_nat n ≤ zlen D → (∀ j, i ≤ j < i + Z.of_nat n → aget D j = Some (zlen (targets msgs j))) →
  ∃ D', rowstarts_loop n i (before msgs i) D = Some (before msgs <$> seqZ i (Z.of_nat n + 1), D') ∧ zlen D' = zlen D ∧
    ∀ j, aget D' j = if decide (i ≤ j < i + Z.of_nat n) then Some (before msgs j) else aget D j.
Proof using Type.
  induction n as [|n IH]; intros i D Hi Hz Hb Hl HD; cbn [rowstarts_loop].
  - exists D. split; [by rewrite (seqZ_cons i) by lia|]. split; [done|]. intros j. by rewrite decide_False by lia.
  - rewrite HD by lia. cbn [mbind option_bind]. destruct (aset_spec D i (before msgs i)) as (D1 & -> & L1 & G1); [lia|]. cbn [mbind option_bind]. rewrite <- before_succ.
    pose proof (before_mono msgs (i + 1) (i + Z.of_nat (S n)) ltac:(lia)). pose proof (zlen_nonneg (filter (λ m, VERTEX_LOCAL m.1 < i + 1) msgs)) as H0. change (0 ≤ before msgs (i + 1)) in H0. rewrite (wrapu_small 32) by (unfold in_u; lia).
    destruct (IH (i + 1) D1) as (D' & -> & L' & G'); [lia|done|by replace (i + 1 + Z.of_nat n) with (i + Z.of_nat (S n)) by lia|lia| |].
    + intros j Hj. rewrite G1, decide_False by lia. apply HD. lia.
    + cbn [mbind option_bind]. exists D'. split; [|split; [lia|]].
      * rewrite (seqZ_cons i) by lia. cbn [fmap list_fmap]. by replace (Z.pred (Z.of_nat (S n) + 1)) with (Z.of_nat n + 1) by lia.
      * intros j. rewrite G'. destruct (decide (i + 1 ≤ j < i + 1 + Z.of_nat n)); [by rewrite decide_True by lia|]. rewrite G1. destruct (decide (j = i)) as [-> |]; [by rewrite decide_True by lia|by rewrite decide_False by lia].
Qed.

(** The second pass: after the messages [done], the next free place of each row and
    the places that are filled *)
Record filled msgs (n : Z) (done : list (Z * Z)) (D col : list Z) : Prop := {
  fl_next : ∀ i, 0 ≤ i < n → aget D i = Some (before msgs i + zlen (targets done i));
  fl_slots : ∀ i k t, 0 ≤ i < n → aget (targets done i) k = Some t → slot col (before msgs i + k) t;
  fl_bytes : bytes_ok col
}.
Lemma targets_prefix l l' i : zlen (targets l i) ≤ zlen (targets (l ++ l') i).
Proof using Type. rewrite targets_app, zlen_app. pose proof (zlen_nonneg (targets l' i)). lia. Qed.
Lemma before_disjoint msgs i i' k k' : 0 ≤ k < zlen (targets msgs i) → 0 ≤ k' < zlen (targets msgs i') → i ≠ i' → before msgs i + k ≠ before msgs i' + k'.
Proof using Type.
  intros Hk Hk' Hne. pose proof (before_succ msgs i). pose proof (before_succ msgs i'). destruct (Z.lt_ge_cases i i').
  - pose proof (before_mono msgs (i + 1) i' ltac:(lia)). lia.
  - pose proof (before_mono msgs (i' + 1) i ltac:(lia)). lia.
Qed.
Lemma second_pass_spec msgs n rest : ∀ done D col, msgs = done ++ rest → Forall (λ m, 0 ≤ VERTEX_LOCAL m.1 < n) msgs → n ≤ zlen D → n < 2 ^ 31 → 6 * zlen msgs < 2 ^ 31 → 6 * zlen msgs ≤ zlen col → filled msgs n done D col →
  ∃ D' col', second_pass num_pes (D, col) rest = Some (D', col') ∧ zlen col' = zlen col ∧ filled msgs n msgs D' col'.
Proof using Type.
  unfold second_pass. induction rest as [|m rest IH]; intros done D col E Hm HD Hn Hz Hc HF; cbn [foldl].
  - exists D, col. split; [reflexivity|]. split; [reflexivity|]. rewrite app_nil_r in E. by subst.
  - destruct HF as [Hnext Hslots Hbytes]. assert (0 ≤ VERTEX_LOCAL m.1 < n) as Hl by (rewrite E in Hm; apply Forall_app in Hm as [_ [Hl _]%Forall_cons]; exact Hl). set (i := VERTEX_LOCAL m.1) in *.
    cbn [mbind option_bind]. fold i. rewrite (wraps_small 32) by (unfold in_s; lia). cbn [fulledgehndl]. rewrite Hnext by lia. cbn [mbind option_bind].
    assert (targets msgs i = targets done i ++ m.2 :: targets rest i) as Et by (rewrite E, (cons_middle m done rest), !targets_app, targets_one, decide_True by reflexivity; reflexivity).
    assert (zlen (targets done i) < zlen (targets msgs i)) as Hlt by (rewrite Et, zlen_app, zlen_cons; pose proof (zlen_nonneg (targets rest i)); lia).
    pose proof (before_succ msgs i) as Hs. pose proof (before_mono msgs (i + 1) n ltac:(lia)) as Hmn. assert (before msgs n = zlen msgs) as Ha by (apply before_all; eapply Forall_impl; [exact Hm|]; cbn; lia).
    pose proof (zlen_nonneg (targets done i)) as H0. pose proof (zlen_nonneg (filter (λ m, VERTEX_LOCAL m.1 < i) msgs)) as H1. change (0 ≤ before msgs i) in H1. set (d := before msgs i + zlen (targets done i)) in *.
    rewrite int_ok by lia. destruct (aset_spec D i (d + 1)) as (D1 & -> & L1 & G1); [lia|]. cbn [mbind option_bind]. destruct (setcolumn_spec col d m.2) as (col1 & -> & Lc & Hb1 & Hs1 & Hk1); [lia|lia|lia|exact Hbytes|]. cbn [mbind option_bind].
    destruct (IH (done ++ [m]) D1 col1) as (D' & col' & E' & L' & HF'); [rewrite <- (assoc_L (++)); exact E|exact Hm|lia|exact Hn|exact Hz|lia| |].
    + split; [| |exact Hb1].
      * intros j Hj. rewrite G1, targets_app, targets_one, zlen_app. fold i. destruct (decide (j = i)) as [-> |Hne]; [rewrite decide_True by reflexivity|rewrite decide_False by congruence; rewrite Hnext by lia]; f_equal; unfold d, zlen; cbn [length]; lia.
      * intros j k t Hj Hk. rewrite targets_app, targets_one in Hk. fold i in Hk. pose proof (aget_lt _ _ _ Hk) as Hkl. assert (∀ k', 0 ≤ k' < zlen (targets done j) → before msgs j + k' ≠ d) as Hne.
        { intros k' Hk'. destruct (decide (j = i)) as [-> |Hji]; [unfold d; lia|]. apply before_disjoint; [|lia|exact Hji]. pose proof (targets_prefix done (m :: rest) j) as Hp. rewrite <- E in Hp. lia. }
        destruct (Z.lt_ge_cases k (zlen (targets done j))) as [Hlo|Hhi].
        -- apply Hk1; [apply Hne; lia|]. apply Hslots; [lia|]. rewrite aget_nat in Hk |- * by lia. by rewrite lookup_app_l in Hk by (unfold zlen in *; lia).
        -- rewrite zlen_app in Hkl. destruct (decide (i = j)) as [<- |Hji]; [|unfold zlen in Hkl; cbn [length] in Hkl; unfold zlen in *; lia]. assert (k = zlen (targets done i)) as -> by (unfold zlen in *; cbn [length] in Hkl; lia).
           rewrite aget_nat, lookup_app_r in Hk by (unfold zlen in *; lia). replace (Z.to_nat (zlen (targets done i)) - length (targets done i))%nat with 0%nat in Hk by (unfold zlen; lia). injection Hk as <-. exact Hs1.
    + exists D', col'. split; [exact E'|]. split; [lia|exact HF'].
Qed.

(** ** The distribution of the vertices *)

Lemma owner_range v : 0 ≤ VERTEX_OWNER v < num_pes.
Proof using Hnum. apply Z.mod_pos_bound. lia. Qed.
Lemma to_global v : VERTEX_TO_GLOBAL num_pes (VERTEX_OWNER v) (VERTEX_LOCAL v) = v.
Proof using Hnum. unfold VERTEX_TO_GLOBAL, Csr.VERTEX_OWNER, Csr.VERTEX_LOCAL. pose proof (Z.div_mod v num_pes ltac:(lia)). lia. Qed.
Lemma same_vertex v v' : VERTEX_OWNER v = VERTEX_OWNER v' → VERTEX_LOCAL v = VERTEX_LOCAL v' → v = v'.
Proof using Hnum. intros E1 E2. rewrite <- (to_global v), <- (to_global v'). congruence. Qed.
Lemma local_bound v ng rank : VERTEX_OWNER v = rank → 0 ≤ v < ng → 0 ≤ VERTEX_LOCAL v < VERTEX_LOCAL (ng + num_pes - 1 - rank).
Proof using Hnum.
  intros <- Hv. unfold Csr.VERTEX_OWNER, Csr.VERTEX_LOCAL. split; [apply Z.div_pos; lia|]. pose proof (Z.div_mod v num_pes ltac:(lia)).
  apply Z.lt_le_trans with (v / num_pes + 1); [lia|]. apply Z.div_le_lower_bound; lia.
Qed.

(** What a process is given: it receives the messages for its vertices, in any order;
    the array of degrees is large enough for its vertices (this depends on the number
    of edges); it has less than 2^31 of them, and the offsets of the neighbours are
    in the range of [int]. *)
Record csr_input (rank nglobaledges : Z) (edges order1 order2 : list (Z * Z)) : Prop := {
  ci_edges : edges_ok edges;
  ci_rank : 0 ≤ rank < num_pes;
  ci_order1 : order1 ≡ₚ filter (λ m, VERTEX_OWNER m.1 = rank) (sends edges);
  ci_order2 : order2 ≡ₚ filter (λ m, VERTEX_OWNER m.1 = rank) (sends edges);
  ci_room : VERTEX_LOCAL (nverts_known edges + 1 + num_pes - 1 - rank) ≤ nglobaledges / 2 / num_pes + 1;
  ci_small : nglobaledges / 2 / num_pes + 1 < 2 ^ 31 ∧ 6 * zlen order2 < 2 ^ 31
}.

(** What is built, with [n] local vertices *)
Record csr_built (rank : Z) (edges msgs : list (Z * Z)) (g : oned_csr_graph) : Prop := {
  cb_global : nglobalverts g = nverts_known edges + 1;
  cb_local : nlocalverts g = VERTEX_LOCAL (nglobalverts g + num_pes - 1 - rank);
  cb_edges : nlocaledges g = zlen msgs;
  cb_small : 6 * zlen msgs < 2 ^ 31;
  cb_starts : rowstarts g = before msgs <$> seqZ 0 (nlocalverts g + 1);
  cb_column : zlen (column g) = (BYTES_PER_VERTEX * zlen msgs + 4095) / 4096 * 4096;
  cb_range : Forall (λ m, 0 ≤ VERTEX_LOCAL m.1 < nlocalverts g ∧ 0 ≤ m.2 < 2 ^ 48) msgs;
  cb_filled : ∃ D, filled msgs (nlocalverts g) msgs D (column g)
}.
Lemma order_range rank edges order : edges_ok edges → order ≡ₚ filter (λ m, VERTEX_OWNER m.1 = rank) (sends edges) →
  Forall (λ m, 0 ≤ VERTEX_LOCAL m.1 < VERTEX_LOCAL (nverts_known edges + 1 + num_pes - 1 - rank) ∧ 0 ≤ m.2 < 2 ^ 48) order.
Proof using Hnum.
  intros He Ho. rewrite Ho. apply Forall_forall. intros m [Hr Hm]%list_elem_of_filter. pose proof (sends_ok edges He) as Hs. rewrite Forall_forall in Hs. destruct (Hs m Hm) as [H1 H2]. split; [|done]. apply local_bound; [done|].
  pose proof (sends_known edges m Hm). lia.
Qed.
Lemma convert_spec junk rank nglobaledges edges order1 order2 : csr_input rank nglobaledges edges order1 order2 → (∀ k, byte_ok (junk k)) →
  ∃ g, convert_graph_to_oned_csr num_pes junk rank nglobaledges edges order1 order2 = Some g ∧ csr_built rank edges order2 g.
Proof using Hnum.
  intros [He Hr H1 H2 Hroom [Hs1 Hs2]] Hj. unfold convert_graph_to_oned_csr. set (nvert := nglobaledges / 2 / num_pes + 1) in *. set (n := VERTEX_LOCAL (nverts_known edges + 1 + num_pes - 1 - rank)) in *.
  pose proof (order_range rank edges order1 He H1) as R1. pose proof (order_range rank edges order2 He H2) as R2. fold n in R1, R2. assert (order1 ≡ₚ order2) as Hp by by rewrite H1, H2.
  assert (zlen order1 = zlen order2) as Hz by (unfold zlen; by rewrite Hp).
  assert (0 ≤ n) as Hn. { unfold n, Csr.VERTEX_LOCAL. apply Z.div_pos; [|lia]. pose proof (proj1 (known_fold (sends edges) 0)). unfold nverts_known. lia. }
  assert (zlen (replicate (Z.to_nat nvert) 0) = nvert) as Lr by (unfold zlen; rewrite length_replicate; lia).
  destruct (first_pass_spec nvert order1 (replicate (Z.to_nat nvert) 0)) as (D & -> & LD & GD); [eapply Forall_impl; [exact R1|]; cbn; lia|done|done| |].
  { intros i d Hd. pose proof (aget_lt _ _ _ Hd). rewrite aget_nat in Hd by lia. apply lookup_replicate in Hd as [-> _]. lia. }
  cbn [mbind option_bind]. fold n. assert (∀ j, 0 ≤ j < n → aget D j = Some (zlen (targets order2 j))) as GD'.
  { intros j Hj'. rewrite (GD j 0); [|rewrite aget_nat, lookup_replicate by lia; split; [done|lia]]. f_equal. rewrite Z.add_0_l, !zlen_targets. unfold msgs_of, zlen. by rewrite Hp. }
  assert (before order2 n = zlen order2) as Hall by (apply before_all; eapply Forall_impl; [exact R2|]; cbn; lia).
  destruct (rowstarts_loop_spec order2 (Z.to_nat n) 0 D) as (D1 & E1 & L1 & G1); [lia|lia|rewrite Z.add_0_l, Z2Nat.id by lia; lia|lia|intros j Hj'; apply GD'; lia|].
  rewrite before_0 in E1 by (eapply Forall_impl; [exact R2|]; cbn; lia). rewrite E1. cbn [mbind option_bind]. rewrite Z2Nat.id by lia.
  assert (aget (before order2 <$> seqZ 0 (n + 1)) n = Some (zlen order2)) as ->.
  { rewrite aget_nat, list_lookup_fmap, lookup_seqZ_lt by lia. cbn [fmap option_fmap option_map]. rewrite Z2Nat.id, Z.add_0_l by lia. by f_equal. }
  cbn [mbind option_bind]. pose proof (zlen_nonneg order2) as H0. pose proof (alloc_ge (zlen order2) H0) as Hal. set (al := (BYTES_PER_VERTEX * zlen order2 + 4095) / 4096 * 4096) in *.
  destruct (second_pass_spec order2 n order2 [] D1 (junk <$> seq 0 (Z.to_nat al))) as (D' & col & -> & Lc & HF); [done|eapply Forall_impl; [exact R2|]; cbn; lia|lia|lia|done|unfold zlen in *; rewrite length_fmap, length_seq; lia| |].
  - split.
    + intros i Hi. rewrite G1, decide_True by lia. f_equal. change (zlen (targets [] i)) with 0. lia.
    + intros i k t _ Hk. apply aget_lt in Hk. change (zlen (targets [] i)) with 0 in Hk. lia.
    + apply Forall_fmap, Forall_forall. intros k _. apply Hj.
  - cbn [mbind option_bind]. eexists. split; [done|]. split; cbn [nglobalverts nlocalverts nlocaledges rowstarts column]; try done; [|by exists D'].
    rewrite Lc. unfold zlen in *. rewrite length_fmap, length_seq. lia.
Qed.

(** The rows of the graph that is built *)
Lemma row_targets rank edges msgs g i : csr_built rank edges msgs g → 0 ≤ i < nlocalverts g → (zlen msgs = 0 ∨ zlen msgs mod 2048 ≠ 0) → row g i = Some (targets msgs i) ∧ row_of COLUMN_int g i = Some (targets msgs i) ∧ row_of COLUMN_long g i = Some (targets msgs i).
Proof using Hnum.
  intros [_ _ _ Hsm Es Ec Hr (D & HF)] Hi Hm. unfold row, row_of. assert (∀ k, 0 ≤ k ≤ nlocalverts g → aget (rowstarts g) k = Some (before msgs k)) as Hs.
  { intros k Hk. rewrite Es, aget_nat, list_lookup_fmap, lookup_seqZ_lt by lia. cbn [fmap option_fmap option_map]. by rewrite Z2Nat.id, Z.add_0_l by lia. }
  rewrite !Hs by lia. cbn [mbind option_bind]. rewrite before_succ. replace (before msgs i + zlen (targets msgs i) - before msgs i) with (zlen (targets msgs i)) by lia.
  assert (∀ k j t, seqZ (before msgs i) (zlen (targets msgs i)) !! k = Some j → targets msgs i !! k = Some t → COLUMN (column g) j = Some t ∧ COLUMN_int (column g) j = Some t ∧ COLUMN_long (column g) j = Some t) as Hall.
  { intros k j t Hj Ht. apply lookup_seqZ in Hj as [-> Hk].
    assert (before msgs (i + 1) ≤ zlen msgs) as Hb. { rewrite <- (before_all msgs (nlocalverts g)); [apply before_mono; lia|]. eapply Forall_impl; [exact Hr|]. cbn. lia. }
    pose proof (before_succ msgs i) as Hsu. pose proof (zlen_nonneg (filter (λ m, VERTEX_LOCAL m.1 < i) msgs)) as H0. change (0 ≤ before msgs i) in H0.
    assert (0 < zlen msgs) as Hpos by lia. destruct Hm as [?|Hm]; [lia|]. pose proof (room_for _ Hpos Hm) as Hroom. apply column_slot; [lia|lia|rewrite Ec; lia|apply HF| |].
    - apply (fl_slots _ _ _ _ _ HF); [lia|]. rewrite aget_nat by lia. by rewrite Nat2Z.id.
    - unfold targets in Ht. rewrite list_lookup_fmap in Ht. destruct (msgs_of msgs i !! k) as [m|] eqn:Em; [|done]. injection Ht as <-. apply list_elem_of_lookup_2, list_elem_of_filter in Em as [_ Hm']. rewrite Forall_forall in Hr. apply Hr, Hm'. }
  split_and!; apply mapM_Some, Forall2_same_length_lookup; (split; [rewrite length_seqZ; unfold zlen; lia|]); intros k j t Hj Ht; by destruct (Hall k j t Hj Ht) as (? & ? & ?).
Qed.
End spec.

(** ** Results *)

Lemma targets_neighbours num_pes rank edges order v : 0 < num_pes < 2 ^ 31 → order ≡ₚ filter (λ m, VERTEX_OWNER num_pes m.1 = rank) (sends edges) → VERTEX_OWNER num_pes v = rank →
  targets num_pes order (VERTEX_LOCAL num_pes v) ≡ₚ neighbours edges v.
Proof.
  intros Hnum Ho Hv. unfold targets, msgs_of, neighbours. rewrite Ho, list_filter_filter. apply fmap_Permutation. rewrite (list_filter_iff _ (λ m, m.1 = v)); [done|]. intros m. split; [|intros ->; done].
  intros [E1 E2]. apply (same_vertex num_pes Hnum); congruence.
Qed.

(** C18. The compressed rows of a process hold the neighbours of its vertices, each as
    often as there are edges to it, in whatever order the messages of the two passes
    arrive, on any number of processes and for up to 2^48 vertices; no array is
    accessed outside of its bounds. The restrictions ([csr_input]): the number of
    messages of the process is not a positive multiple of 2048 ([column_overread]);
    the array of degrees, whose size is computed from the number of edges, is large
    enough ([csr_overflow]); it has less than 2^31 elements, and the offsets of the
    neighbours are in the range of [int] (six times their number is below 2^31). *)
Theorem csr_correct num_pes junk rank nglobaledges edges order1 order2 : 0 < num_pes < 2 ^ 31 → csr_input num_pes rank nglobaledges edges order1 order2 → (∀ k, byte_ok (junk k)) →
  zlen order2 = 0 ∨ zlen order2 mod 2048 ≠ 0 →
  ∃ g, convert_graph_to_oned_csr num_pes junk rank nglobaledges edges order1 order2 = Some g ∧ nglobalverts g = nverts_known edges + 1 ∧
    ∀ v, VERTEX_OWNER num_pes v = rank → 0 ≤ v < nglobalverts g → ∃ ns, row g (VERTEX_LOCAL num_pes v) = Some ns ∧ ns ≡ₚ neighbours edges v.
Proof.
  intros Hnum Hin Hj Hm. destruct (convert_spec num_pes Hnum junk rank nglobaledges edges order1 order2 Hin Hj) as (g & E & Hg). exists g. split; [done|]. split; [apply Hg|]. intros v Hv Hr. eexists. split.
  - eapply row_targets; [done..|rewrite (cb_local _ _ _ _ _ Hg); by apply local_bound|done].
  - by apply (targets_neighbours num_pes rank); [|apply Hin|].
Qed.
Definition csr_demo : list (Z * Z) := [(0, 3); (2, 0); (1, 1); (0, 2); (3, 2)].
Lemma csr_correct_witness : ∃ g, convert_graph_to_oned_csr 3 (λ _, 0) 0 9 csr_demo [(0, 3); (3, 0); (0, 2); (0, 2); (3, 2)] [(3, 2); (0, 2); (0, 3); (3, 0); (0, 2)] = Some g ∧ nglobalverts g = nverts_known csr_demo + 1 ∧
  ∀ v, VERTEX_OWNER 3 v = 0 → 0 ≤ v < nglobalverts g → ∃ ns, row g (VERTEX_LOCAL 3 v) = Some ns ∧ ns ≡ₚ neighbours csr_demo v.
Proof.
  apply (csr_correct 3 (λ _, 0) 0 9 csr_demo); [lia| |done|right; vm_compute; discriminate].
  split; [unfold edges_ok; forall_list|lia|by_decision|by_decision|vm_compute; discriminate|split; vm_compute; reflexivity].
Defined.
Example csr_demo_row : (g ← convert_graph_to_oned_csr 3 (λ _, 0) 0 9 csr_demo [(0, 3); (3, 0); (0, 2); (0, 2); (3, 2)] [(3, 2); (0, 2); (0, 3); (3, 0); (0, 2)]; row g 1) = Some [2; 0].
Proof. vm_compute. reflexivity. Qed.

(** C38. A neighbour is read with eight bytes, two more than it has: if the number of
    neighbours of a process is a multiple of 2048, the block of the columns has no bytes
    to spare, and the last neighbour cannot be read inside of it. *)
Theorem column_overread num_pes rank edges msgs g : csr_built num_pes rank edges msgs g → 0 < nlocaledges g → nlocaledges g mod 2048 = 0 → COLUMN (column g) (nlocaledges g - 1) = None.
Proof.
  intros [_ _ Ee Hsm _ Ec _ _] Hp Hm. rewrite Ee in *. unfold COLUMN, column_at, load. rewrite (wrapu_small 32) by (unfold in_u, BYTES_PER_VERTEX; lia). rewrite bool_decide_false; [done|]. rewrite Ec. unfold BYTES_PER_VERTEX. Z.to_euclidean_division_equations. lia.
Qed.

Lemma column_overread_witness : let edges := replicate 1024 (0, 1) in
  ∃ g, convert_graph_to_oned_csr 1 (λ _, 0) 0 16384 edges (sends edges) (sends edges) = Some g ∧ COLUMN (column g) (nlocaledges g - 1) = None.
Proof.
  intros edges. assert (filter (λ m, VERTEX_OWNER 1 m.1 = 0) (sends edges) = sends edges) as Ef by (vm_compute; reflexivity).
  destruct (convert_spec 1 ltac:(lia) (λ _, 0) 0 16384 edges (sends edges) (sends edges)) as (g & E & Hg).
  - split; [apply Forall_replicate; cbn; lia|lia|by rewrite Ef|by rewrite Ef|vm_compute; discriminate|split; vm_compute; reflexivity].
  - done.
  - exists g. split; [done|]. apply (column_overread 1 0 edges (sends edges) g Hg); rewrite (cb_edges _ _ _ _ _ Hg); vm_compute; reflexivity.
Defined.

(** C39. With one edge for each vertex ([edgefactor] 1) the array of degrees is too small
    for the vertices; looking for a root reads the starts of the rows outside of the
    array for a vertex above the last one that has an edge; and the offset of a
    neighbour is computed with [int]s, which overflows for the neighbour 357913942 of
    a process. *)
Theorem csr_overflow :
  let edges := [(0, 1); (1, 2); (2, 3); (0, 3)] in
  convert_graph_to_oned_csr 1 (λ _, 0) 0 (zlen edges) edges (sends edges) (sends edges) = None ∧
  (∃ g, convert_graph_to_oned_csr 1 (λ _, 0) 0 128 [(0, 1)] [(0, 1); (1, 0)] [(0, 1); (1, 0)] = Some g ∧ isisolated 1 g 0 1 = Some false ∧ isisolated 1 g 0 7 = None) ∧
  ∀ column, fulledgehndl ([357913942], column) 0 1 = None.
Proof. split; [vm_compute; reflexivity|]. split; [|reflexivity]. eexists. split; [vm_compute; reflexivity|]. split; vm_compute; reflexivity. Qed.
