(* ===== verification/Bfs.v ===== *)
(** * Bfs: breadth-first search with active messages (graph500/src/bfs_reference.c)

    Each process sends visits for the neighbours of the vertices in its queue; a
    handler at the owner of a vertex marks it, stores its predecessor and puts it into
    the queue of the next level.  The processes run as a transition system: between two
    barriers each process sends the visits of its loop one after the other, and any
    message that was sent and not delivered may be handled next.  The handlers only
    change the bitmap, the second queue and the predecessors, which the sending loop
    does not read.  [None] is an access outside of an array. *)

From S2P Require Import Prelude Csr.

Local Open Scope Z_scope.

Section bfs.
Context (num_pes : Z).

(** The state of a process *)
Record pe := mkPe { graph : oned_csr_graph; q1 : list Z; qc : Z; q2 : list Z; q2c : Z; visited : list Z; pred : list Z }.
Record visitmsg := mkMsg { from : Z; to : Z; vloc : Z; vfrom : Z }.

(** ** The handler *)

Definition visithndl (p : pe) (m : visitmsg) : option pe :=
  b ← TEST_VISITEDLOC (visited p) (vloc m);
  if (b : bool) then Some p else
  visited' ← SET_VISITEDLOC (visited p) (vloc m);
  q2' ← aset (q2 p) (q2c p) (vloc m);
  pred' ← aset (pred p) (vloc m) (VERTEX_TO_GLOBAL num_pes (from m) (vfrom m));
  Some (mkPe (graph p) (q1 p) (qc p) q2' (q2c p + 1) visited' pred').

(** ** The sending loop *)

Definition send_visit (rank glob from : Z) : visitmsg := mkMsg rank (VERTEX_OWNER num_pes glob) (i32 (VERTEX_LOCAL num_pes glob)) from.
(** [for(i=0;i<qc;i++) for(j=...)]: the visits that a process sends in a level *)
Definition row_sends (rank : Z) (p : pe) (v : Z) : option (list visitmsg) :=
  ns ← row (graph p) v; Some (map (λ glob, send_visit rank glob v) ns).
Definition level_sends (rank : Z) (p : pe) : option (list visitmsg) :=
  mss ← mapM (row_sends rank p) (take (Z.to_nat (qc p)) (q1 p)); Some (concat mss).
(** [qc=q2c;int *tmp=q1;q1=q2;q2=tmp; ... q2c=0;] *)
Definition swap_queues (p : pe) : pe := mkPe (graph p) (q2 p) (q2c p) (q1 p) 0 (visited p) (pred p).

(** ** The system *)

(** The processes, the visits each of them has still to send in this level, and the
    messages on their way *)
Record conf := mkConf { pes : list pe; todo : list (list visitmsg); net : list visitmsg }.
(** The level starts *)
Definition begin_level (ps : list pe) : option conf :=
  t ← mapM (λ rp : Z * pe, level_sends rp.1 rp.2) (zip (seqZ 0 (zlen ps)) ps);
  Some (mkConf ps t []).
(** All is sent and delivered: the barrier is passed. *)
Definition quiet (c : conf) : bool := forallb (λ ms, match ms with [] => true | _ => false end) (todo c) && match net c with [] => true | _ => false end.
(** [aml_long_allsum(&sum)] *)
Definition new_sum (c : conf) : Z := foldr Z.add 0 (q2c <$> pes c).

Inductive step : conf → conf → Prop :=
  | step_send c r m ms : todo c !! r = Some (m :: ms) → step c (mkConf (pes c) (<[r := ms]> (todo c)) (net c ++ [m]))
  | step_deliver c l1 m l2 p p' : net c = l1 ++ m :: l2 → aget (pes c) (to m) = Some p → visithndl p m = Some p' →
      step c (mkConf (<[Z.to_nat (to m) := p']> (pes c)) (todo c) (l1 ++ l2))
  | step_level c c' : quiet c = true → new_sum c ≠ 0 → begin_level (swap_queues <$> pes c) = Some c' → step c c'.
(** [while(sum)] ends. *)
Definition final (c : conf) : bool := quiet c && (new_sum c =? 0).

(** ** Start and end of a search *)

Definition clean_pred (p : pe) : pe := mkPe (graph p) (q1 p) (qc p) (q2 p) (q2c p) (visited p) (replicate (Z.to_nat (nlocalverts (graph p))) (-1)).
(** The arrays of [make_graph_data_structure] *)
Definition make_graph_data_structure (g : oned_csr_graph) : pe :=
  let n := Z.to_nat (nlocalverts g) in
  mkPe g (replicate n 0) 0 (replicate n 0) 0 (replicate (Z.to_nat ((nlocalverts g + 64 - 1) / 64)) 0) (replicate n (-1)).
(** [run_bfs] up to the loop *)
Definition start_pe (root rank : Z) (p : pe) : option pe :=
  let p := mkPe (graph p) (q1 p) 0 (q2 p) 0 (replicate (length (visited p)) 0) (pred p) in
  if VERTEX_OWNER num_pes root =? rank then
    pred' ← aset (pred p) (VERTEX_LOCAL num_pes root) root;
    visited' ← SET_VISITEDLOC (visited p) (VERTEX_LOCAL num_pes root);
    q1' ← aset (q1 p) 0 (VERTEX_LOCAL num_pes root);
    Some (mkPe (graph p) q1' 1 (q2 p) 0 visited' pred')
  else Some p.
Definition run_bfs (root : Z) (ps : list pe) : option conf :=
  ps ← mapM (λ rp : Z * pe, start_pe root rp.1 rp.2) (zip (seqZ 0 (zlen ps)) ps);
  begin_level ps.

(** [clean_pred(pred); run_bfs(root, pred);] of main.c *)
Definition search (root : Z) (ps : list pe) : option conf := run_bfs root (clean_pred <$> ps).

(** The predecessor that a search has found for a vertex *)
Definition pred_of (c : conf) (v : Z) : option Z := p ← aget (pes c) (VERTEX_OWNER num_pes v); aget (pred p) (VERTEX_LOCAL num_pes v).

(** ** A schedule *)

(** One of the executions: everything is sent first, and delivered in order. *)
Definition deliver (ps : option (list pe)) (m : visitmsg) : option (list pe) :=
  ps ← ps; p ← aget ps (to m); p' ← visithndl p m; aset ps (to m) p'.
Fixpoint run_levels (fuel : nat) (c : conf) : option conf :=
  match fuel with
  | O => None
  | S fuel =>
      ps ← foldl deliver (Some (pes c)) (concat (todo c));
      let c := mkConf ps (replicate (length (todo c)) []) [] in
      if new_sum c =? 0 then Some c else c ← begin_level (swap_queues <$> ps); run_levels fuel c
  end.

End bfs.
