(* ===== verification/BfsSpec.v ===== *)
(** * BfsSpec: the search finds shortest paths, in every execution

    The state of the processes represents sets of vertices: visited, in the queue of
    this level and of the next one, and the predecessors.  An invariant of the
    transition system relates them to the distances from the root; it holds for every
    interleaving of sends and deliveries. *)

From stdpp Require Import gmap relations.
From S2P Require Import Prelude Csr CsrSpec Bfs.

Local Open Scope Z_scope.

(** ** The bitmap *)

Lemma land_pow w k : 0 ≤ k < 64 → negb (Z.land w (u64 (Z.shiftl 1 k)) =? 0) = Z.testbit w k.
Proof.
  intros Hk. rewrite Z.shiftl_mul_pow2, Z.mul_1_l by lia. rewrite (wrapu_small 64) by (unfold in_u; split; [apply Z.pow_nonneg; lia|apply Z.pow_lt_mono_r; lia]).
  destruct (Z.testbit w k) eqn:E.
  - apply negb_true_iff, Z.eqb_neq. intros H. apply (f_equal (λ x, Z.testbit x k)) in H. rewrite Z.land_spec, E, Z.pow2_bits_true, Z.bits_0 in H by lia. done.
  - apply negb_false_iff, Z.eqb_eq. apply Z.bits_inj'. intros j Hj. rewrite Z.land_spec, Z.bits_0, Z.pow2_bits_eqb by lia. destruct (Z.eqb_spec k j) as [<- |]; [by rewrite E|apply andb_false_r].
Qed.
Lemma bit_index i j : 0 ≤ i → 0 ≤ j → Z.shiftr i 6 = Z.shiftr j 6 → Z.land i 63 = Z.land j 63 → i = j.
Proof. intros Hi Hj. change 63 with (Z.ones 6). rewrite !Z.shiftr_div_pow2, !Z.land_ones by lia. intros E1 E2. pose proof (Z.div_mod i (2 ^ 6) ltac:(lia)). pose proof (Z.div_mod j (2 ^ 6) ltac:(lia)). lia. Qed.
Lemma bit_range i n : 0 ≤ i < n → 0 ≤ Z.shiftr i 6 < (n + 64 - 1) / 64 ∧ 0 ≤ Z.land i 63 < 64.
Proof. intros Hi. change 63 with (Z.ones 6). rewrite Z.shiftr_div_pow2, Z.land_ones by lia. change (2 ^ 6) with 64. Z.to_euclidean_division_equations. lia. Qed.
Lemma test_spec bm i n : zlen bm = (n + 64 - 1) / 64 → 0 ≤ i < n → ∃ w, aget bm (Z.shiftr i 6) = Some w ∧ TEST_VISITEDLOC bm i = Some (Z.testbit w (Z.land i 63)).
Proof.
  intros Hl Hi. destruct (bit_range i n Hi) as [H1 H2]. destruct (aget_some bm (Z.shiftr i 6)) as [w Hw]; [lia|]. exists w. split; [done|]. unfold TEST_VISITEDLOC. rewrite Hw. cbn [mbind option_bind]. by rewrite land_pow.
Qed.
Lemma set_spec bm i n : zlen bm = (n + 64 - 1) / 64 → 0 ≤ i < n → ∃ bm', SET_VISITEDLOC bm i = Some bm' ∧ zlen bm' = zlen bm ∧
  ∀ j, 0 ≤ j < n → TEST_VISITEDLOC bm' j = if decide (j = i) then Some true else TEST_VISITEDLOC bm j.
Proof.
  intros Hl Hi. destruct (bit_range i n Hi) as [H1 H2]. destruct (test_spec bm i n Hl Hi) as (w & Hw & _). unfold SET_VISITEDLOC. rewrite Hw. cbn [mbind option_bind].
  destruct (aset_spec bm (Z.shiftr i 6) (Z.lor w (u64 (Z.shiftl 1 (Z.land i 63))))) as (bm' & -> & L' & G'); [lia|]. exists bm'. split; [done|]. split; [done|]. intros j Hj.
  destruct (bit_range j n Hj) as [H3 H4]. destruct (test_spec bm j n Hl Hj) as (w' & Hw' & Ht). unfold TEST_VISITEDLOC at 1. rewrite G'.
  assert (∀ x, Z.testbit (Z.lor w (u64 (Z.shiftl 1 (Z.land i 63)))) x = Z.testbit w x || (x =? Z.land i 63)) as Hb.
  { intros x. rewrite Z.lor_spec. f_equal. rewrite Z.shiftl_mul_pow2, Z.mul_1_l by lia. rewrite (wrapu_small 64) by (unfold in_u; split; [apply Z.pow_nonneg; lia|apply Z.pow_lt_mono_r; lia]).
    destruct (Z.lt_ge_cases x 0); [rewrite Z.testbit_neg_r by lia; symmetry; apply Z.eqb_neq; lia|]. rewrite Z.pow2_bits_eqb by lia. apply Z.eqb_sym. }
  destruct (decide (Z.shiftr j 6 = Z.shiftr i 6)) as [Es|Es]; cbn [mbind option_bind].
  - rewrite land_pow, Hb by lia. rewrite Es, Hw in Hw'. injection Hw' as <-. destruct (decide (j = i)) as [-> |Hne]; [by rewrite Z.eqb_refl, orb_true_r|]. rewrite (proj2 (Z.eqb_neq _ _)) by (intros El; apply Hne; by apply bit_index; [lia|lia|..]).
    by rewrite orb_false_r.
  - rewrite decide_False by congruence. unfold TEST_VISITEDLOC. by rewrite Hw'.
Qed.

Section spec.
Context (num_pes : Z) (Hnum : 0 < num_pes < 2 ^ 31).

Local Notation OWNER := (VERTEX_OWNER num_pes).
Local Notation LOCAL := (VERTEX_LOCAL num_pes).
Local Notation GLOBAL := (VERTEX_TO_GLOBAL num_pes).

(** ** The graph *)

(** The graphs of the processes hold the adjacency lists [adj] of [N] vertices. *)
Record graphs (gs : list oned_csr_graph) (N : Z) (adj : Z → list Z) : Prop := {
  gr_len : zlen gs = num_pes;
  gr_local : ∀ r g, aget gs r = Some g → nlocalverts g = LOCAL (N + num_pes - 1 - r) ∧ nlocalverts g < 2 ^ 31;
  gr_row : ∀ v, 0 ≤ v < N → ∀ g, aget gs (OWNER v) = Some g → row g (LOCAL v) = Some (adj v) ∧ row_of COLUMN_int g (LOCAL v) = Some (adj v) ∧ row_of COLUMN_long g (LOCAL v) = Some (adj v);
  gr_adj : ∀ v w, 0 ≤ v < N → w ∈ adj v → 0 ≤ w < N
}.
Context (gs : list oned_csr_graph) (N : Z) (adj : Z → list Z) (HG : graphs gs N adj).
Definition valid (v : Z) : Prop := 0 ≤ v < N.

Lemma valid_local v : valid v → ∃ g, aget gs (OWNER v) = Some g ∧ 0 ≤ LOCAL v < nlocalverts g.
Proof using Hnum HG.
  intros Hv. destruct (aget_some gs (OWNER v)) as [g Hg]; [rewrite (gr_len _ _ _ HG); by apply owner_range|]. exists g. split; [done|]. rewrite (proj1 (gr_local _ _ _ HG _ _ Hg)). by apply local_bound.
Qed.
Lemma global_owner r i : 0 ≤ r < num_pes → 0 ≤ i → OWNER (GLOBAL r i) = r ∧ LOCAL (GLOBAL r i) = i.
Proof using Hnum.
  intros Hr Hi. unfold VERTEX_OWNER, VERTEX_LOCAL, VERTEX_TO_GLOBAL. split.
  - rewrite Z.add_comm, Z.mod_add by lia. by apply Z.mod_small.
  - rewrite Z.add_comm, Z.div_add by lia. rewrite Z.div_small by lia. lia.
Qed.
Lemma global_valid r g i : aget gs r = Some g → 0 ≤ i < nlocalverts g → valid (GLOBAL r i) ∧ OWNER (GLOBAL r i) = r ∧ LOCAL (GLOBAL r i) = i.
Proof using Hnum HG.
  intros Hg Hi. pose proof (aget_lt _ _ _ Hg) as Hr. rewrite (gr_len _ _ _ HG) in Hr. split; [|by apply global_owner; lia]. rewrite (proj1 (gr_local _ _ _ HG _ _ Hg)) in Hi. unfold valid, VERTEX_TO_GLOBAL.
  unfold VERTEX_LOCAL in Hi. assert (0 < num_pes) as Hp by lia. split; [nia|].
  pose proof (Z.mul_div_le (N + num_pes - 1 - r) (num_pes) Hp). nia.
Qed.

(** Paths from the root, and distances *)
Fixpoint reach (root : Z) (n : nat) (v : Z) : Prop :=
  match n with O => v = root | S n => ∃ u, reach root n u ∧ v ∈ adj u end.
Definition dist (root : Z) (n : nat) (v : Z) : Prop := reach root n v ∧ ∀ k, (k < n)%nat → ¬ reach root k v.
Lemma reach_valid root n v : valid root → reach root n v → valid v.
Proof using HG. intros Hr. revert v. induction n as [|n IH]; intros v; cbn [reach]; [by intros ->|]. intros (u & Hu & Hv). by apply (gr_adj _ _ _ HG u); [apply IH|]. Qed.
(** The neighbour on a shortest path *)
Lemma dist_step root n v : dist root (S n) v → ∃ u, dist root n u ∧ v ∈ adj u.
Proof using Type. intros [(u & Hu & Hv) Hmin]. exists u. split; [|done]. split; [done|]. intros k Hk Hr. apply (Hmin (S k)); [lia|]. by exists u. Qed.

(** ** What the processes represent *)

(** The queue [q] with [c] entries holds the local vertices of the set [X]. *)
Record queue_rel (r n : Z) (q : list Z) (c : Z) (X : gset Z) : Prop := {
  qr_len : zlen q = n;
  qr_count : 0 ≤ c ≤ n;
  qr_nodup : NoDup (take (Z.to_nat c) q);
  qr_elem : ∀ i, i ∈ take (Z.to_nat c) q ↔ 0 ≤ i < n ∧ GLOBAL r i ∈ X
}.
Record pe_rel (r : Z) (g : oned_csr_graph) (p : pe) (V F X : gset Z) (P : gmap Z Z) : Prop := {
  pr_graph : graph p = g;
  pr_q1 : queue_rel r (nlocalverts g) (q1 p) (qc p) F;
  pr_q2 : queue_rel r (nlocalverts g) (q2 p) (q2c p) X;
  pr_bitmap : zlen (visited p) = (nlocalverts g + 64 - 1) / 64;
  pr_visited : ∀ i, 0 ≤ i < nlocalverts g → TEST_VISITEDLOC (visited p) i = Some (bool_decide (GLOBAL r i ∈ V));
  pr_predlen : zlen (pred p) = nlocalverts g;
  pr_pred : ∀ i, 0 ≤ i < nlocalverts g → aget (pred p) i = Some (default (-1) (P !! GLOBAL r i))
}.
Definition sys_rel (ps : list pe) (V F X : gset Z) (P : gmap Z Z) : Prop :=
  zlen ps = zlen gs ∧ ∀ r g, aget gs r = Some g → ∃ p, aget ps r = Some p ∧ pe_rel r g p V F X P.

(** A new entry of a queue *)
Lemma queue_full r n q c X : queue_rel r n q c X → c = n → ∀ i, 0 ≤ i < n → GLOBAL r i ∈ X.
Proof using Type.
  intros [Hl Hc Hnd He] -> i Hi. apply He. rewrite take_ge in * by (unfold zlen in Hl; lia).
  assert (q ⊆+ seqZ 0 n) as Hsub by (apply NoDup_submseteq; [done|]; intros j Hj%He; apply elem_of_seqZ; lia).
  apply submseteq_length_Permutation in Hsub; [|rewrite length_seqZ; unfold zlen in Hl; lia]. rewrite Hsub. apply elem_of_seqZ. lia.
Qed.
Lemma queue_push r n q c X i : queue_rel r n q c X → 0 ≤ r < num_pes → 0 ≤ i < n → GLOBAL r i ∉ X →
  ∃ q', aset q c i = Some q' ∧ queue_rel r n q' (c + 1) (X ∪ {[GLOBAL r i]}).
Proof using Hnum.
  intros Hq Hr Hi Hx. pose proof Hq as [Hl Hc Hnd He]. assert (c ≠ n) as Hne by (intros E; apply Hx; by eapply queue_full). destruct (aset_spec q c i) as (q' & E & L' & _); [lia|]. exists q'. split; [done|].
  assert (take (Z.to_nat (c + 1)) q' = take (Z.to_nat c) q ++ [i]) as Et.
  { unfold aset in E. destruct (aget q c); [|done]. injection E as <-. replace (Z.to_nat (c + 1)) with (S (Z.to_nat c)) by lia. rewrite (take_S_r _ _ i) by (apply list_lookup_insert_eq; unfold zlen in Hl; lia).
    f_equal. apply take_insert_ge. lia. }
  split; [lia|lia| |].
  - rewrite Et. apply NoDup_app. split; [done|]. split; [|apply NoDup_singleton]. intros j Hj ->%list_elem_of_singleton. by apply Hx, He.
  - intros j. rewrite Et, elem_of_app, list_elem_of_singleton, He, elem_of_union, elem_of_singleton. split.
    + intros [[H1 H2]| ->]; [tauto|]. split; [done|]. by right.
    + intros [Hj [H2|H2]]; [by left|]. right. destruct (global_owner r i) as [_ E1]; [done|lia|]. destruct (global_owner r j) as [_ E2]; [done|lia|]. congruence.
Qed.
(** The effect of a message that visits [v] from [u] *)
Definition visits (m : visitmsg) (u v : Z) : Prop := m = mkMsg (OWNER u) (OWNER v) (LOCAL v) (LOCAL u).
Lemma other_local r r' i i' : 0 ≤ r < num_pes → 0 ≤ r' < num_pes → 0 ≤ i → 0 ≤ i' → GLOBAL r i = GLOBAL r' i' → r = r' ∧ i = i'.
Proof using Hnum. intros H1 H2 H3 H4 E. destruct (global_owner r i H1 H3) as [E1 E2]. destruct (global_owner r' i' H2 H4) as [E3 E4]. rewrite E in E1, E2. split; congruence. Qed.
Lemma handler_spec g p V F X P m u v : pe_rel (OWNER v) g p V F X P → aget gs (OWNER v) = Some g → valid v → visits m u v → X ⊆ V →
  ∃ p', visithndl num_pes p m = Some p' ∧
    if decide (v ∈ V) then p' = p else pe_rel (OWNER v) g p' (V ∪ {[v]}) F (X ∪ {[v]}) (<[v := u]> P).
Proof using Hnum HG.
  intros [Eg H1 H2 Hbl Hv Hpl Hpr] Hg Hval -> HX. destruct (valid_local v Hval) as (g' & Hg' & Hl). rewrite Hg in Hg'. injection Hg' as <-. pose proof (owner_range num_pes Hnum v) as Hr. pose proof (to_global num_pes Hnum v) as Ev.
  unfold visithndl. cbn [vloc from vfrom]. rewrite Hv by done. rewrite Ev. cbn [mbind option_bind]. destruct (decide (v ∈ V)) as [Hin|Hin]; [rewrite bool_decide_true by done; by exists p|]. rewrite bool_decide_false by done.
  destruct (set_spec (visited p) (LOCAL v) (nlocalverts g) Hbl Hl) as (bm & -> & Lb & Tb). cbn [mbind option_bind].
  destruct (queue_push _ _ _ _ _ (LOCAL v) H2 Hr Hl) as (q' & -> & Hq'); [rewrite Ev; set_solver|]. cbn [mbind option_bind]. destruct (aset_spec (pred p) (LOCAL v) (GLOBAL (OWNER u) (LOCAL u))) as (pr & -> & Lp & Gp); [lia|]. cbn [mbind option_bind].
  rewrite (to_global num_pes Hnum u) in Gp. rewrite Ev in Hq'. eexists. split; [done|].
  assert (∀ i, 0 ≤ i → i ≠ LOCAL v → GLOBAL (OWNER v) i ≠ v) as Hne by (intros i Hi Hne E; apply Hne; rewrite <- Ev in E at 2; apply other_local in E; [tauto|done|done|lia|lia]).
  split; cbn [graph q1 qc q2 q2c visited pred]; try done; [lia| |lia|].
  - intros i Hi. rewrite Tb by done. destruct (decide (i = LOCAL v)) as [-> |Hi'].
    + rewrite Ev. by rewrite bool_decide_true by set_solver.
    + rewrite Hv by done. f_equal. apply bool_decide_ext. specialize (Hne i ltac:(lia) Hi'). set_solver.
  - intros i Hi. rewrite Gp. destruct (decide (i = LOCAL v)) as [-> |Hi'].
    + rewrite Ev. by rewrite lookup_insert_eq.
    + rewrite Hpr by done. by rewrite lookup_insert_ne by (apply not_eq_sym, Hne; [lia|done]).
Qed.
Lemma pe_rel_other r g p V F X P u v : pe_rel r g p V F X P → aget gs r = Some g → valid v → r ≠ OWNER v → pe_rel r g p (V ∪ {[v]}) F (X ∪ {[v]}) (<[v := u]> P).
Proof using Hnum HG.
  intros [Eg H1 H2 Hbl Hv Hpl Hpr] Hg Hval Hr. assert (∀ i, 0 ≤ i < nlocalverts g → GLOBAL r i ≠ v) as Hne by (intros i Hi E; destruct (global_valid r g i Hg Hi) as (_ & Eo & _); congruence).
  split; try done.
  - destruct H2 as [Hl Hc Hnd He]. split; try done. intros i. rewrite He. split; [set_solver|]. intros [Hi Hx]. split; [done|]. specialize (Hne i Hi). set_solver.
  - intros i Hi. rewrite Hv by done. f_equal. apply bool_decide_ext. specialize (Hne i Hi). set_solver.
  - intros i Hi. rewrite Hpr by done. by rewrite lookup_insert_ne by (apply not_eq_sym, Hne, Hi).
Qed.
Lemma sys_deliver ps V F X P m u v : sys_rel ps V F X P → valid v → visits m u v → X ⊆ V →
  ∃ p p', aget ps (to m) = Some p ∧ visithndl num_pes p m = Some p' ∧
    if decide (v ∈ V) then sys_rel (<[Z.to_nat (to m) := p']> ps) V F X P else sys_rel (<[Z.to_nat (to m) := p']> ps) (V ∪ {[v]}) F (X ∪ {[v]}) (<[v := u]> P).
Proof using Hnum HG.
  intros [Hl Hs] Hval Hm HX. destruct (valid_local v Hval) as (g & Hg & Hloc). destruct (Hs _ _ Hg) as (p & Hp & Hrel). destruct (handler_spec g p V F X P m u v Hrel Hg Hval Hm HX) as (p' & E & Hp').
  assert (to m = OWNER v) as Eto by by rewrite Hm. rewrite Eto. exists p, p'. split; [done|]. split; [done|].
  assert (∀ V' X' P', pe_rel (OWNER v) g p' V' F X' P' → (∀ r g p, aget gs r = Some g → r ≠ OWNER v → pe_rel r g p V F X P → pe_rel r g p V' F X' P') → sys_rel (<[Z.to_nat (OWNER v) := p']> ps) V' F X' P') as Hsys.
  { intros V' X' P' Hn Ho. split; [unfold zlen in *; by rewrite length_insert|]. intros r g' Hg'. pose proof (aget_lt _ _ _ Hp) as Hlt. destruct (decide (r = OWNER v)) as [-> |Hne].
    - rewrite Hg in Hg'. injection Hg' as <-. exists p'. split; [|done]. rewrite aget_nat by lia. apply list_lookup_insert_eq. unfold zlen in Hlt. lia.
    - destruct (Hs _ _ Hg') as (q & Hq & Hqr). exists q. split; [|by apply Ho]. pose proof (aget_lt _ _ _ Hg'). rewrite aget_nat in Hq |- * by lia. rewrite list_lookup_insert_ne by lia. done. }
  destruct (decide (v ∈ V)) as [Hin|Hin].
  - apply Hsys; [by subst p'|done].
  - apply Hsys; [done|]. intros r g' q Hg' Hne Hq. by apply pe_rel_other.
Qed.

(** ** A level *)

Lemma row_sends_spec r g p V F X P i : pe_rel r g p V F X P → aget gs r = Some g → 0 ≤ i < nlocalverts g →
  row_sends num_pes r p i = Some (map (λ v, send_visit num_pes r v i) (adj (GLOBAL r i))).
Proof using Hnum HG.
  intros Hp Hg Hi. unfold row_sends. rewrite (pr_graph _ _ _ _ _ _ _ Hp). destruct (global_valid r g i Hg Hi) as (Hv & Eo & El). rewrite <- El at 1. rewrite (proj1 (gr_row _ _ _ HG _ Hv g ltac:(by rewrite Eo))). done.
Qed.
Lemma send_visits r g i v : aget gs r = Some g → 0 ≤ i < nlocalverts g → valid v → visits (send_visit num_pes r v i) (GLOBAL r i) v.
Proof using Hnum HG.
  intros Hg Hi Hv. destruct (global_valid r g i Hg Hi) as (_ & Eo & El). unfold visits, send_visit. rewrite Eo, El. f_equal. destruct (valid_local v Hv) as (g' & Hg' & Hl). pose proof (proj2 (gr_local _ _ _ HG _ _ Hg')).
  apply wraps_small; [lia|]. unfold in_s. lia.
Qed.
Lemma level_sends_spec r g p V F X P : pe_rel r g p V F X P → aget gs r = Some g →
  ∃ ms, level_sends num_pes r p = Some ms ∧ ∀ m, m ∈ ms ↔ ∃ u v, u ∈ F ∧ valid u ∧ OWNER u = r ∧ v ∈ adj u ∧ visits m u v.
Proof using Hnum HG.
  intros Hp Hg. unfold level_sends. pose proof (pr_q1 _ _ _ _ _ _ _ Hp) as [_ _ _ He]. set (l := take (Z.to_nat (qc p)) (q1 p)) in *.
  assert (mapM (row_sends num_pes r p) l = Some (map (λ i, map (λ v, send_visit num_pes r v i) (adj (GLOBAL r i))) l)) as ->.
  { apply mapM_Some. apply Forall2_fmap_r, Forall_Forall2_diag, Forall_forall. intros i [Hi _]%He. by eapply row_sends_spec. }
  cbn [mbind option_bind]. eexists. split; [done|]. intros m. rewrite list_elem_of_In, in_concat. split.
  - intros (x & Hx & Hm). apply in_map_iff in Hx as (i & <- & Hi). apply list_elem_of_In, He in Hi as [Hi HF]. apply in_map_iff in Hm as (v & <- & Hv). apply list_elem_of_In in Hv. destruct (global_valid r g i Hg Hi) as (Hu & Eo & _).
    exists (GLOBAL r i), v. split; [done|]. split; [done|]. split; [done|]. split; [done|]. eapply send_visits; [done..|]. by eapply (gr_adj _ _ _ HG).
  - intros (u & v & HF & Hu & Eo & Hv & Hm). destruct (valid_local u Hu) as (g' & Hg' & Hl). rewrite Eo, Hg in Hg'. injection Hg' as <-. assert (GLOBAL r (LOCAL u) = u) as Eu by (rewrite <- Eo; by apply to_global).
    eexists. split; [apply in_map_iff; exists (LOCAL u); split; [reflexivity|]; apply list_elem_of_In, He; by rewrite Eu|]. rewrite Eu. apply in_map_iff. exists v. split; [|by apply list_elem_of_In].
    assert (visits (send_visit num_pes r v (LOCAL u)) u v) as Hs by (rewrite <- Eu at 2; eapply send_visits; [done..|]; by eapply (gr_adj _ _ _ HG)). unfold visits in *. congruence.
Qed.
Lemma sys_lookup ps V F X P r p : sys_rel ps V F X P → aget ps r = Some p → ∃ g, aget gs r = Some g ∧ pe_rel r g p V F X P.
Proof using Type.
  intros [Hl Hs] Hp. destruct (aget_some gs r) as [g Hg]; [pose proof (aget_lt _ _ _ Hp); lia|]. exists g. split; [done|]. destruct (Hs r g Hg) as (q & Hq & Hr). congruence.
Qed.
Lemma begin_level_spec ps V F X P : sys_rel ps V F X P → (∀ v, v ∈ F → valid v) →
  ∃ t, begin_level num_pes ps = Some (mkConf ps t []) ∧ ∀ m, m ∈ concat t ↔ ∃ u v, u ∈ F ∧ v ∈ adj u ∧ visits m u v.
Proof using Hnum HG.
  intros Hs HF. unfold begin_level. set (l := zip (seqZ 0 (zlen ps)) ps).
  assert (∀ k rp, l !! k = Some rp → rp.1 = Z.of_nat k ∧ ps !! k = Some rp.2) as Hl.
  { intros k rp Hk. apply lookup_zip_with_Some in Hk as (x & y & -> & Hx & Hy). apply lookup_seqZ in Hx as [-> _]. split; [cbn; lia|done]. }
  assert (is_Some (mapM (λ rp : Z * pe, level_sends num_pes rp.1 rp.2) l)) as [t Ht].
  { apply mapM_is_Some_2, Forall_lookup. intros k rp Hk. destruct (Hl k rp Hk) as [Er Ep]. destruct (sys_lookup ps V F X P rp.1 rp.2 Hs) as (g & Hg & Hp); [rewrite aget_nat by lia; by rewrite Er, Nat2Z.id|].
    destruct (level_sends_spec rp.1 g rp.2 V F X P Hp Hg) as (ms & E & _). cbn. rewrite E. by eexists. }
  rewrite Ht. cbn [mbind option_bind]. exists t. split; [done|]. apply mapM_Some in Ht. intros m. rewrite list_elem_of_In, in_concat. split.
  - intros (ms & Hms & Hm). apply list_elem_of_In, list_elem_of_lookup in Hms as [k Hk]. destruct (Forall2_lookup_r _ _ _ _ _ Ht Hk) as (rp & Hrp & E). destruct (Hl k rp Hrp) as [Er Ep].
    destruct (sys_lookup ps V F X P rp.1 rp.2 Hs) as (g & Hg & Hp); [rewrite aget_nat by lia; by rewrite Er, Nat2Z.id|]. destruct (level_sends_spec rp.1 g rp.2 V F X P Hp Hg) as (ms' & E' & Hms). rewrite E in E'. injection E' as <-.
    apply list_elem_of_In in Hm. destruct (proj1 (Hms m) Hm) as (u & v & H1 & _ & _ & H2 & H3). exists u, v. done.
  - intros (u & v & Hu & Hv & Hm). destruct (valid_local u (HF u Hu)) as (g & Hg & _). destruct Hs as [Hlen Hs]. destruct (Hs _ _ Hg) as (p & Hp & Hrel). destruct (level_sends_spec _ g p V F X P Hrel Hg) as (ms & E & Hms).
    pose proof (aget_lt _ _ _ Hp) as Hlt. assert (l !! Z.to_nat (OWNER u) = Some (OWNER u, p)) as Hk.
    { unfold l. apply lookup_zip_with_Some. exists (OWNER u), p. split; [done|]. split; [apply lookup_seqZ; lia|]. rewrite aget_nat in Hp by lia. done. }
    destruct (Forall2_lookup_l _ _ _ _ _ Ht Hk) as (ms' & Hk' & E'). cbn in E'. rewrite E in E'. injection E' as <-. exists ms. split; [apply list_elem_of_In; by eapply list_elem_of_lookup_2|]. apply list_elem_of_In, Hms. exists u, v. split_and!; auto.
Qed.

(** The next queues are empty if and only if there is no new vertex. *)
Lemma sum_nonneg l : Forall (λ x, 0 ≤ x) l → 0 ≤ foldr Z.add 0 l.
Proof using Type. induction 1; cbn; lia. Qed.
Lemma sum_zero l : Forall (λ x, 0 ≤ x) l → foldr Z.add 0 l = 0 → Forall (λ x, x = 0) l.
Proof using Type. induction 1 as [|x l Hx Hl IH]; cbn; [done|]. intros E. pose proof (sum_nonneg l Hl). constructor; [lia|apply IH; lia]. Qed.
Lemma new_sum_spec c V F X P : sys_rel (pes c) V F X P → (∀ v, v ∈ X → valid v) → new_sum c = 0 ↔ X = ∅.
Proof using Hnum HG.
  intros Hs HX. assert (∀ k p, pes c !! k = Some p → ∃ r g, aget gs r = Some g ∧ pe_rel r g p V F X P) as Hall.
  { intros k p Hp. destruct (sys_lookup _ _ _ _ _ (Z.of_nat k) p Hs) as (g & Hg & Hr); [rewrite aget_nat by lia; by rewrite Nat2Z.id|]. by exists (Z.of_nat k), g. }
  unfold new_sum. split.
  - intros E. apply sum_zero in E; [|apply Forall_fmap, Forall_lookup; intros k p Hp; destruct (Hall k p Hp) as (r & g & _ & Hr); cbn; pose proof (qr_count _ _ _ _ _ (pr_q2 _ _ _ _ _ _ _ Hr)); lia]. apply Forall_fmap in E. apply set_eq. intros v. split; [|set_solver]. intros Hv. exfalso.
    destruct (valid_local v (HX v Hv)) as (g & Hg & Hl). destruct Hs as [_ Hs]. destruct (Hs _ _ Hg) as (p & Hp & Hr). pose proof (aget_lt _ _ _ Hp). rewrite aget_nat in Hp by lia. rewrite Forall_lookup in E. specialize (E _ _ Hp). cbn in E.
    pose proof (pr_q2 _ _ _ _ _ _ _ Hr) as [_ _ _ He]. rewrite E in He. change (Z.to_nat 0) with 0%nat in He. rewrite take_0 in He. apply (not_elem_of_nil (LOCAL v)), He. split; [done|]. by rewrite to_global.
  - intros ->. assert (Forall (λ x, x = 0) (q2c <$> pes c)) as Hz.
    { apply Forall_fmap, Forall_lookup. intros k p Hp. destruct (Hall k p Hp) as (r & g & _ & Hr). pose proof (pr_q2 _ _ _ _ _ _ _ Hr) as [Hl Hc _ He]. cbn. destruct (take (Z.to_nat (q2c p)) (q2 p)) as [|i l] eqn:Et.
      - apply (f_equal length) in Et. rewrite length_take in Et. unfold zlen in Hl. cbn in Et. lia.
      - exfalso. destruct (proj1 (He i)) as [_ Hin]; [by left|]. set_solver. }
    induction Hz as [|x l -> _ IH]; [done|]. cbn. lia.
Qed.
Lemma swap_rel ps V F X P : sys_rel ps V F X P → sys_rel (swap_queues <$> ps) V X ∅ P.
Proof using Hnum HG.
  intros [Hl Hs]. split; [unfold zlen in *; by rewrite length_fmap|]. intros r g Hg. destruct (Hs r g Hg) as (p & Hp & [Eg H1 H2 Hbl Hv Hpl Hpr]). exists (swap_queues p). split.
  - pose proof (aget_lt _ _ _ Hp). rewrite aget_nat in Hp |- * by lia. by rewrite list_lookup_fmap, Hp.
  - split; cbn [swap_queues graph q1 qc q2 q2c visited pred]; try done. destruct H1 as [L1 C1 N1 E1]. split; [done|lia|change (Z.to_nat 0) with 0%nat; rewrite take_0; constructor|]. intros i. change (Z.to_nat 0) with 0%nat. rewrite take_0, elem_of_nil. set_solver.
Qed.

(** ** The invariant *)

(** The messages that are still to be handled in this level *)
Definition pending (c : conf) : list visitmsg := concat (todo c) ++ net c.
(** [u] is a predecessor of [v] on a shortest path. *)
Definition tree (root v u : Z) : Prop := (v = root ∧ u = root) ∨ ∃ k, dist root k u ∧ dist root (S k) v ∧ v ∈ adj u.

Record inv (root : Z) (d : nat) (c : conf) (V F X : gset Z) (P : gmap Z Z) : Prop := {
  i_sys : sys_rel (pes c) V F X P;
  i_front : ∀ v, v ∈ F ↔ dist root d v;
  i_visited : ∀ v, v ∈ V ↔ (∃ k, (k ≤ d)%nat ∧ reach root k v) ∨ v ∈ X;
  i_next : ∀ v, v ∈ X → dist root (S d) v;
  i_msgs : ∀ m, m ∈ pending c → ∃ u v, dist root d u ∧ v ∈ adj u ∧ visits m u v;
  i_todo : ∀ v, dist root (S d) v → v ∈ X ∨ ∃ u m, m ∈ pending c ∧ visits m u v;
  i_tree : ∀ v, v ∈ V → ∃ u, P !! v = Some u ∧ tree root v u;
  i_none : ∀ v, v ∉ V → P !! v = None
}.

Section run.
Context (root : Z) (Hroot : valid root).

Lemma dist_valid n v : dist root n v → valid v.
Proof using HG Hroot. intros [H _]. by eapply reach_valid. Qed.
Lemma dist_new n k v : (k ≤ n)%nat → reach root k v → ¬ dist root (S n) v.
Proof using Hnum. intros Hk Hr [_ H]. apply (H k); [lia|done]. Qed.
Lemma visits_inj m u v u' v' : visits m u v → visits m u' v' → v = v'.
Proof using Hnum. unfold visits. intros -> [= _ E1 E2 _]. rewrite <- (to_global num_pes Hnum v), <- (to_global num_pes Hnum v'). congruence. Qed.

Lemma send_pending c r m ms x : todo c !! r = Some (m :: ms) → x ∈ concat (<[r := ms]> (todo c)) ++ net c ++ [m] ↔ x ∈ pending c.
Proof using Hnum.
  intros Hr. unfold pending. rewrite <- (take_drop_middle _ _ _ Hr) at 2. rewrite insert_take_drop by by eapply lookup_lt_Some.
  rewrite !concat_app. cbn [concat]. rewrite !elem_of_app, !elem_of_cons, elem_of_nil. tauto.
Qed.
Lemma inv_send d c V F X P r m ms : inv root d c V F X P → todo c !! r = Some (m :: ms) → inv root d (mkConf (pes c) (<[r := ms]> (todo c)) (net c ++ [m])) V F X P.
Proof using Hnum.
  intros [H1 H2 H3 H4 H5 H6 H7 H8] Hr. split; try done; unfold pending; cbn [todo net].
  - intros x. rewrite (send_pending c r m ms x Hr). apply H5.
  - intros v Hv. destruct (H6 v Hv) as [H|(u & x & Hx & Hm)]; [by left|]. right. exists u, x. split; [|done]. by apply send_pending.
Qed.

(** A delivered message either visits a vertex that is known, or a new one. *)
Lemma inv_deliver d c V F X P l1 m l2 : inv root d c V F X P → net c = l1 ++ m :: l2 →
  ∃ p p' V' X' P', aget (pes c) (to m) = Some p ∧ visithndl num_pes p m = Some p' ∧ V' ∖ X' = V ∖ X ∧
    inv root d (mkConf (<[Z.to_nat (to m) := p']> (pes c)) (todo c) (l1 ++ l2)) V' F X' P'.
Proof using Hnum HG Hroot.
  intros [H1 H2 H3 H4 H5 H6 H7 H8] En. assert (∀ x, x ∈ pending c ↔ x = m ∨ x ∈ concat (todo c) ++ l1 ++ l2) as Hp by (intros x; unfold pending; rewrite En, !elem_of_app, elem_of_cons; tauto).
  destruct (H5 m) as (u & v & Hu & Hv & Hm); [apply Hp; by left|]. assert (valid v) as Hval by (eapply (gr_adj _ _ _ HG); [by eapply dist_valid|done]).
  assert (X ⊆ V) as HX by (intros x Hx; apply H3; by right). destruct (sys_deliver (pes c) V F X P m u v H1 Hval Hm HX) as (p & p' & Ep & Eh & Hs).
  assert (∀ w, dist root (S d) w → w ∈ X ∨ w = v ∨ ∃ u m, m ∈ concat (todo c) ++ l1 ++ l2 ∧ visits m u w) as Htodo.
  { intros w Hw. destruct (H6 w Hw) as [H|(u' & x & [-> |Hx]%Hp & Hm')]; [by left| |right; right; by exists u', x]. right; left. by eapply visits_inj. }
  assert (∀ x, x ∈ concat (todo c) ++ l1 ++ l2 → ∃ u v, dist root d u ∧ v ∈ adj u ∧ visits x u v) as Hmsgs by (intros x Hx; apply H5, Hp; by right).
  exists p, p'. destruct (decide (v ∈ V)) as [Hin|Hin].
  - exists V, X, P. split; [done|]. split; [done|]. split; [done|]. split; try done; unfold pending; cbn [todo net]. intros w Hw. destruct (Htodo w Hw) as [H|[-> |H]]; [by left| |by right].
    left. apply H3 in Hin as [(k & Hk & Hr)|Hin]; [|done]. by destruct (dist_new d k v Hk Hr).
  - assert (dist root (S d) v) as Hd by (split; [exists u; split; [apply Hu|done]|]; intros k Hk Hr; apply Hin, H3; left; exists k; split; [lia|done]).
    exists (V ∪ {[v]}), (X ∪ {[v]}), (<[v := u]> P). split; [done|]. split; [done|]. split; [set_solver|]. split; try done; unfold pending; cbn [todo net].
    + intros w. rewrite elem_of_union, elem_of_union, H3. tauto.
    + intros w [Hw| ->%elem_of_singleton]%elem_of_union; [by apply H4|done].
    + intros w Hw. destruct (Htodo w Hw) as [H|[-> |H]]; [left; set_solver|left; set_solver|by right].
    + intros w [Hw| ->%elem_of_singleton]%elem_of_union.
      * rewrite lookup_insert_ne by (intros ->; done). by apply H7.
      * exists u. split; [apply lookup_insert_eq|]. right. by exists d.
    + intros w Hw. rewrite lookup_insert_ne by set_solver. apply H8. set_solver.
Qed.

Lemma quiet_spec c : quiet c = true → pending c = [].
Proof using Hnum.
  unfold quiet, pending. rewrite andb_true_iff, forallb_forall. intros [H1 H2]. destruct (net c); [|done]. rewrite app_nil_r. induction (todo c) as [|ms l IH]; [done|]. cbn [concat].
  pose proof (H1 ms (or_introl eq_refl)) as Hm. destruct ms; [|done]. apply IH. intros x Hx. apply H1. by right.
Qed.
Lemma inv_valid d c V F X P v : inv root d c V F X P → v ∈ X → valid v.
Proof using HG Hroot. intros H Hv. eapply dist_valid, i_next; done. Qed.
(** At the barrier the queue holds the vertices of the next distance. *)
Lemma inv_level d c V F X P : inv root d c V F X P → quiet c = true →
  ∃ c', begin_level num_pes (swap_queues <$> pes c) = Some c' ∧ inv root (S d) c' V X ∅ P.
Proof using Hnum HG Hroot.
  intros H Hq. pose proof H as [H1 H2 H3 H4 H5 H6 H7 H8]. apply swap_rel in H1. destruct (begin_level_spec _ _ _ _ _ H1) as (t & Et & Ht); [intros v; by eapply inv_valid|]. eexists. split; [exact Et|].
  assert (∀ v, v ∈ X ↔ dist root (S d) v) as HX by (intros v; split; [apply H4|]; intros Hv; destruct (H6 v Hv) as [?|(u & m & Hm & _)]; [done|]; rewrite (quiet_spec c Hq) in Hm; by apply elem_of_nil in Hm).
  split; try done; unfold pending; cbn [pes todo net].
  - intros v. split.
    + intros [(k & Hk & Hr)|Hx]%H3; left; [exists k; split; [lia|done]|]. exists (S d). split; [done|]. by apply HX.
    + intros [(k & Hk & Hr)|?]; [|set_solver]. destruct (decide (v ∈ V)) as [Hv|Hv]; [done|]. exfalso. assert (¬ ∃ k, (k ≤ d)%nat ∧ reach root k v) as Hn by (intros Hk'; apply Hv, H3; by left).
      assert (k = S d) as -> by (destruct (decide (k = S d)); [done|]; exfalso; apply Hn; exists k; split; [lia|done]). apply Hv, H3. right. apply HX. split; [done|]. intros j Hj Hr'. apply Hn. exists j. split; [lia|done].
  - intros m. rewrite app_nil_r, Ht. intros (u & v & Hu & Hv & Hm). exists u, v. split; [by apply HX|done].
  - intros v Hv. right. destruct (dist_step _ _ _ Hv) as (u & Hu & Ha). exists u, (mkMsg (OWNER u) (OWNER v) (LOCAL v) (LOCAL u)). split; [|done]. rewrite app_nil_r, Ht. exists u, v. split; [by apply HX|done].
Qed.

Lemma inv_step d c c' V F X P : inv root d c V F X P → step num_pes c c' →
  ∃ d' V' F' X' P', inv root d' c' V' F' X' P' ∧
    ((V' ∖ X' = V ∖ X ∧ (2 * length (concat (todo c')) + length (net c') < 2 * length (concat (todo c)) + length (net c))%nat) ∨ (X' = ∅ ∧ X ≠ ∅ ∧ V' = V)).
Proof using Hnum HG Hroot.
  intros H Hs. destruct Hs as [c r m ms Hr|c l1 m l2 p p' En Ep Eh|c c' Hq Hn Eb].
  - exists d, V, F, X, P. split; [by apply inv_send|]. left. split; [done|]. cbn [todo net]. rewrite <- (take_drop_middle _ _ _ Hr) at 2. rewrite insert_take_drop by by eapply lookup_lt_Some.
    rewrite !concat_app, !length_app. cbn [concat length app]. rewrite !length_app. cbn. lia.
  - destruct (inv_deliver d c V F X P l1 m l2 H En) as (q & q' & V' & X' & P' & Ep' & Eh' & EV & H'). rewrite Ep in Ep'. injection Ep' as <-. rewrite Eh in Eh'. injection Eh' as <-. exists d, V', F, X', P'. split; [done|]. left. split; [done|].
    cbn [todo net]. rewrite En, !length_app. cbn [length]. lia.
  - destruct (inv_level d c V F X P H Hq) as (c2 & Eb' & H'). rewrite Eb in Eb'. injection Eb' as <-. exists (S d), V, X, ∅, P. split; [done|]. right. split; [done|]. split; [|done].
    intros ->. apply Hn. eapply new_sum_spec; [apply (i_sys _ _ _ _ _ _ _ H)|set_solver|done].
Qed.

(** ** Progress and termination *)

(** No access of a handler or of the loop is outside of an array. *)
Definition safe (c : conf) : Prop :=
  (∀ m, m ∈ net c → ∃ p p', aget (pes c) (to m) = Some p ∧ visithndl num_pes p m = Some p') ∧
  (quiet c = true → is_Some (begin_level num_pes (swap_queues <$> pes c))).
Lemma inv_safe d c V F X P : inv root d c V F X P → safe c.
Proof using Hnum HG Hroot.
  intros H. split.
  - intros m (l1 & l2 & E)%list_elem_of_split. destruct (inv_deliver d c V F X P l1 m l2 H E) as (p & p' & V' & X' & P' & H1 & H2 & _). by exists p, p'.
  - intros Hq. destruct (inv_level d c V F X P H Hq) as (c' & E & _). by exists c'.
Qed.
Lemma not_quiet c : quiet c = false → (∃ r m ms, todo c !! r = Some (m :: ms)) ∨ ∃ m l, net c = m :: l.
Proof using Type.
  unfold quiet. rewrite andb_false_iff. intros [H|H]; [left|right; destruct (net c) as [|m l]; [done|by exists m, l]].
  induction (todo c) as [|[|m ms] t IH]; cbn in H; [done| |by exists 0%nat, m, ms]. destruct (IH H) as (r & m & ms & E). by exists (S r), m, ms.
Qed.
Lemma inv_progress d c V F X P : inv root d c V F X P → final c = false → ∃ c', step num_pes c c'.
Proof using Hnum HG Hroot.
  intros H Hf. destruct (inv_safe d c V F X P H) as [S1 S2]. destruct (quiet c) eqn:Hq.
  - destruct (S2 eq_refl) as [c' E]. exists c'. apply step_level; [done| |done]. unfold final in Hf. rewrite Hq in Hf. by apply Z.eqb_neq.
  - destruct (not_quiet c Hq) as [(r & m & ms & E)|(m & l & E)]; [eexists; by eapply step_send|]. destruct (S1 m) as (p & p' & E1 & E2); [rewrite E; by left|]. eexists. by eapply (step_deliver num_pes c []).
Qed.

(** Each level visits vertices that were not visited before it. *)
Lemma inv_terminates n : ∀ k d c V F X P, inv root d c V F X P → size (list_to_set (seqZ 0 N) ∖ (V ∖ X)) = n → (2 * length (concat (todo c)) + length (net c))%nat = k → sn (step num_pes) c.
Proof using Hnum HG Hroot.
  induction n as [n IHn] using lt_wf_ind. induction k as [k IHk] using lt_wf_ind. intros d c V F X P H Hn Hk. constructor. intros c' Hs.
  destruct (inv_step d c c' V F X P H Hs) as (d' & V' & F' & X' & P' & H' & [[EV Hlt]|(EX & HX & EV)]).
  - eapply (IHk (2 * length (concat (todo c')) + length (net c'))%nat); [lia|exact H'|by rewrite EV|done].
  - eapply (IHn (size (list_to_set (seqZ 0 N) ∖ (V' ∖ X')))); [|exact H'|done|done]. rewrite EX, EV, <- Hn. apply subset_size. apply set_choose_L in HX as [v Hv].
    assert (v ∈ V) as HvV by (apply (i_visited _ _ _ _ _ _ _ H); by right). assert (v ∈ (list_to_set (seqZ 0 N) : gset Z)) as Hu by (apply elem_of_list_to_set, elem_of_seqZ; pose proof (inv_valid _ _ _ _ _ _ _ H Hv) as Hval; unfold valid in Hval; lia).
    split; [set_solver|]. intros Hsub. specialize (Hsub v). set_solver.
Qed.

(** ** The end of a search *)

(** The predecessors [pr] are a tree of shortest paths from the root: its own
    predecessor is itself, and each other vertex that can be reached is a neighbour of
    its predecessor, which is nearer to the root by one; the others have none. *)
Definition shortest_paths (pr : Z → option Z) : Prop := ∀ v, valid v →
  (∃ n u, dist root n v ∧ pr v = Some u ∧ match n with O => u = root | S k => dist root k u ∧ v ∈ adj u end) ∨ ((∀ n, ¬ reach root n v) ∧ pr v = Some (-1)).
Lemma all_reached d V : (∀ v, v ∈ V ↔ ∃ k, (k ≤ d)%nat ∧ reach root k v) → (∀ v, ¬ dist root (S d) v) → ∀ n v, reach root n v → v ∈ (V : gset Z).
Proof using Type.
  intros HV Hno n. induction n as [|n IH]; intros v; cbn [reach]; [intros ->; apply HV; exists 0%nat; split; [lia|done]|]. intros (u & Hu & Ha). apply IH, HV in Hu as (k & Hk & Hu).
  destruct (decide (v ∈ V)) as [|Hv]; [done|]. exfalso. assert (∀ j, (j ≤ d)%nat → ¬ reach root j v) as Hn by (intros j Hj Hr; apply Hv, HV; by exists j).
  assert (k = d) as -> by (destruct (decide (k = d)); [done|]; exfalso; apply (Hn (S k)); [lia|by exists u]). apply (Hno v). split; [by exists u|]. intros j Hj. apply Hn. lia.
Qed.
Lemma pred_of_spec d c V F X P v : inv root d c V F X P → valid v → pred_of num_pes c v = Some (default (-1) (P !! v)).
Proof using Hnum HG.
  intros H Hv. destruct (valid_local v Hv) as (g & Hg & Hl). destruct (i_sys _ _ _ _ _ _ _ H) as [_ Hs]. destruct (Hs _ _ Hg) as (p & Hp & Hr). unfold pred_of. rewrite Hp. cbn [mbind option_bind]. rewrite (pr_pred _ _ _ _ _ _ _ Hr) by done. by rewrite to_global.
Qed.
Lemma inv_final d c V F X P : inv root d c V F X P → final c = true → shortest_paths (pred_of num_pes c).
Proof using Hnum HG Hroot.
  intros H Hf v Hv. rewrite (pred_of_spec d c V F X P v H Hv). pose proof H as [H1 H2 H3 H4 H5 H6 H7 H8]. unfold final in Hf. apply andb_true_iff in Hf as [Hq Hs%Z.eqb_eq].
  assert (X = ∅) as -> by (eapply new_sum_spec; [exact H1| |exact Hs]; intros w; by eapply inv_valid).
  assert (∀ w, w ∈ V ↔ ∃ k, (k ≤ d)%nat ∧ reach root k w) as HV by (intros w; rewrite H3; set_solver).
  assert (∀ w, ¬ dist root (S d) w) as Hno by (intros w Hw; destruct (H6 w Hw) as [?|(u & m & Hm & _)]; [set_solver|]; rewrite (quiet_spec c Hq) in Hm; by apply elem_of_nil in Hm).
  destruct (decide (v ∈ V)) as [Hin|Hin].
  - left. destruct (H7 v Hin) as (u & Eu & [[-> ->]|(k & Hk & Hd & Ha)]); rewrite Eu.
    + exists 0%nat, root. split; [|done]. split; [done|]. intros j Hj. lia.
    + by exists (S k), u.
  - right. split; [|by rewrite (H8 v Hin)]. intros n Hr. apply Hin. by eapply all_reached.
Qed.

(** ** The start of a search *)

(** The arrays of a process have the sizes of [make_graph_data_structure]. *)
Record ready (g : oned_csr_graph) (p : pe) : Prop := {
  rd_graph : graph p = g;
  rd_q1 : zlen (q1 p) = nlocalverts g;
  rd_q2 : zlen (q2 p) = nlocalverts g;
  rd_visited : zlen (visited p) = (nlocalverts g + 64 - 1) / 64
}.
Lemma local_nonneg r g : aget gs r = Some g → 0 ≤ nlocalverts g.
Proof using Hnum HG Hroot.
  intros Hg. rewrite (proj1 (gr_local _ _ _ HG _ _ Hg)). pose proof (aget_lt _ _ _ Hg) as Hr. rewrite (gr_len _ _ _ HG) in Hr. unfold VERTEX_LOCAL. unfold valid in Hroot. apply Z.div_pos; lia.
Qed.
Lemma made_ready r g : aget gs r = Some g → ready g (make_graph_data_structure g).
Proof using Hnum HG Hroot.
  intros Hg. pose proof (local_nonneg r g Hg). assert (0 ≤ (nlocalverts g + 64 - 1) / 64) by (apply Z.div_pos; lia). split; unfold zlen; cbn [make_graph_data_structure graph q1 q2 visited]; rewrite ?length_replicate; try done; lia.
Qed.
Lemma clean_test n i : 0 ≤ i < n → TEST_VISITEDLOC (replicate (Z.to_nat ((n + 64 - 1) / 64)) 0) i = Some false.
Proof using Type.
  intros Hi. destruct (bit_range i n Hi) as [H1 H2]. unfold TEST_VISITEDLOC. assert (aget (replicate (Z.to_nat ((n + 64 - 1) / 64)) 0) (Z.shiftr i 6) = Some 0) as -> by (rewrite aget_nat by lia; apply lookup_replicate; split; [done|lia]). done.
Qed.
Lemma replicate_get (n x i : Z) : 0 ≤ i < n → aget (replicate (Z.to_nat n) x) i = Some x.
Proof using Type. intros Hi. rewrite aget_nat by lia. apply lookup_replicate. split; [done|lia]. Qed.
Lemma queue_empty r n q : zlen q = n → 0 ≤ n → queue_rel r n q 0 ∅.
Proof using Type. intros Hl Hn. split; [done|lia|constructor|]. intros i. cbn. rewrite elem_of_nil, elem_of_empty. clear. tauto. Qed.
(** Before the root is visited *)
Lemma clean_rel r g p : aget gs r = Some g → ready g p →
  pe_rel r g (mkPe (graph p) (q1 p) 0 (q2 p) 0 (replicate (length (visited p)) 0) (replicate (Z.to_nat (nlocalverts g)) (-1))) ∅ ∅ ∅ ∅.
Proof using Hnum HG Hroot.
  intros Hg [H1 H2 H3 H4]. pose proof (local_nonneg r g Hg) as Hn. split; cbn [graph q1 qc q2 q2c visited pred]; [done|by apply queue_empty|by apply queue_empty| | | |].
  - unfold zlen in *. by rewrite length_replicate.
  - intros i Hi. replace (length (visited p)) with (Z.to_nat ((nlocalverts g + 64 - 1) / 64)) by (unfold zlen in H4; lia). rewrite clean_test by done. done.
  - unfold zlen. rewrite length_replicate. lia.
  - intros i Hi. by apply replicate_get.
Qed.
Lemma start_spec r g p : aget gs r = Some g → ready g p →
  ∃ p', start_pe num_pes root r (clean_pred p) = Some p' ∧ pe_rel r g p' {[root]} {[root]} ∅ {[root := root]}.
Proof using Hnum HG Hroot.
  intros Hg Hp. destruct (clean_rel r g p Hg Hp) as [Eg H1 H2 Hbl Hv Hpl Hpr]. unfold start_pe, clean_pred. pose proof (rd_graph _ _ Hp) as E. cbn [graph q1 qc q2 q2c visited pred] in *. rewrite E in *. pose proof (aget_lt _ _ _ Hg) as Hr. rewrite (gr_len _ _ _ HG) in Hr.
  pose proof (to_global num_pes Hnum root) as Ev. destruct (Z.eqb_spec (OWNER root) r) as [<- |Hne].
  - destruct (valid_local root Hroot) as (g' & Hg' & Hl). rewrite Hg in Hg'. injection Hg' as <-. destruct (aset_spec _ (LOCAL root) root (ltac:(rewrite Hpl; exact Hl) : 0 ≤ LOCAL root < zlen (replicate (Z.to_nat (nlocalverts g)) (-1)))) as (pr & -> & Lp & Gp). cbn [mbind option_bind].
    destruct (set_spec _ (LOCAL root) (nlocalverts g) Hbl Hl) as (bm & -> & Lb & Tb). cbn [mbind option_bind]. destruct (queue_push _ _ _ _ _ (LOCAL root) H1 Hr Hl) as (q' & -> & Hq'); [set_solver|]. cbn [mbind option_bind]. rewrite Ev, (left_id_L ∅ (∪)) in Hq'.
    eexists. split; [done|]. assert (∀ i, 0 ≤ i → i ≠ LOCAL root → GLOBAL (OWNER root) i ≠ root) as Hne by (intros i Hi Hne E'; apply Hne; rewrite <- Ev in E' at 2; apply other_local in E'; [tauto|done|done|lia|lia]).
    split; cbn [graph q1 qc q2 q2c visited pred]; try done; [lia| |lia|].
    + intros i Hi. rewrite Tb by done. destruct (decide (i = LOCAL root)) as [-> |Hi']; [rewrite Ev; by rewrite bool_decide_true by set_solver|]. rewrite Hv by done. specialize (Hne i ltac:(lia) Hi'). rewrite !bool_decide_false by set_solver. done.
    + intros i Hi. rewrite Gp. destruct (decide (i = LOCAL root)) as [-> |Hi']; [rewrite Ev; by rewrite lookup_singleton_eq|]. rewrite Hpr by done. by rewrite lookup_singleton_ne by (apply not_eq_sym, Hne; [lia|done]).
  - eexists. split; [done|]. assert (∀ i, 0 ≤ i < nlocalverts g → GLOBAL r i ≠ root) as Hn by (intros i Hi E'; destruct (global_valid r g i Hg Hi) as (_ & Eo & _); congruence).
    split; cbn [graph q1 qc q2 q2c visited pred]; try done.
    + destruct H1 as [L1 C1 N1 E1]. split; try done. intros i. cbn. rewrite elem_of_nil. split; [done|]. intros [Hi Hx]. specialize (Hn i Hi). set_solver.
    + intros i Hi. rewrite Hv by done. specialize (Hn i Hi). rewrite !bool_decide_false by set_solver. done.
    + intros i Hi. rewrite Hpr by done. by rewrite lookup_singleton_ne by (apply not_eq_sym, Hn, Hi).
Qed.

(** The processes are ready: so they are after [make_graph_data_structure], and after a
    search. *)
Definition all_ready (ps : list pe) : Prop := Forall2 ready gs ps.
Lemma inv_ready d c V F X P : inv root d c V F X P → all_ready (pes c).
Proof using Type.
  intros H. destruct (i_sys _ _ _ _ _ _ _ H) as [Hl Hs]. apply Forall2_same_length_lookup. split; [unfold zlen in Hl; lia|]. intros k g p Hg Hp. destruct (Hs (Z.of_nat k) g) as (p' & Hp' & [Eg H1 H2 Hbl _ _ _]); [rewrite aget_nat, Nat2Z.id by lia; done|].
  rewrite aget_nat, Nat2Z.id in Hp' by lia. rewrite Hp in Hp'. injection Hp' as <-. split; [done|apply H1|apply H2|done].
Qed.
Lemma search_inv ps : all_ready ps → ∃ c V F X P, search num_pes root ps = Some c ∧ inv root 0 c V F X P.
Proof using Hnum HG Hroot.
  intros Hps. pose proof (Forall2_length _ _ _ Hps) as Hl. unfold search, run_bfs. set (l := zip _ _).
  assert (∀ k rp, l !! k = Some rp → ∃ g p, rp = (Z.of_nat k, clean_pred p) ∧ gs !! k = Some g ∧ ready g p) as Hzip.
  { intros k rp Hk. apply lookup_zip_with_Some in Hk as (x & y & -> & Hx & Hy). apply lookup_seqZ in Hx as [-> _]. rewrite list_lookup_fmap in Hy. destruct (ps !! k) as [p|] eqn:Ep; [|done]. injection Hy as <-. destruct (Forall2_lookup_r _ _ _ _ _ Hps Ep) as (g & Hg & Hr). by exists g, p. }
  assert (is_Some (mapM (λ rp : Z * pe, start_pe num_pes root rp.1 rp.2) l)) as [qs Hq].
  { apply mapM_is_Some_2, Forall_lookup. intros k rp Hk. destruct (Hzip k rp Hk) as (g & p & -> & Hg & Hr). destruct (start_spec (Z.of_nat k) g p) as (p' & E & _); [rewrite aget_nat, Nat2Z.id by lia; done|done|]. cbn. rewrite E. by eexists. }
  rewrite Hq. cbn [mbind option_bind]. apply mapM_Some in Hq. assert (length l = length gs) as Ll by (unfold l; rewrite length_zip_with, length_seqZ; unfold zlen; rewrite length_fmap; lia).
  assert (sys_rel qs {[root]} {[root]} ∅ {[root := root]}) as Hs.
  { split; [unfold zlen; apply Forall2_length in Hq; lia|]. intros r g Hg. pose proof (aget_lt _ _ _ Hg) as Hr. rewrite aget_nat in Hg by lia. destruct (lookup_lt_is_Some_2 l (Z.to_nat r)) as [rp Hrp]; [unfold zlen in Hr; lia|].
    destruct (Forall2_lookup_l _ _ _ _ _ Hq Hrp) as (p' & Hp' & E). destruct (Hzip _ _ Hrp) as (g' & p & -> & Hg' & Hrd). rewrite Hg in Hg'. injection Hg' as <-. cbn in E. rewrite Z2Nat.id in E by lia.
    exists p'. rewrite !aget_nat by lia. split; [done|]. destruct (start_spec r g p) as (p'' & E' & Hrel); [by rewrite aget_nat by lia|done|]. rewrite E in E'. injection E' as <-. done. }
  destruct (begin_level_spec _ _ _ _ _ Hs) as (t & Et & Ht); [intros v ->%elem_of_singleton; done|]. rewrite Et. exists (mkConf qs t []), {[root]}, {[root]}, ∅, {[root := root]}. split; [done|]. assert (∀ v, dist root 0 v ↔ v = root) as Hd by (intros v; split; [intros [H _]; exact H|intros ->; split; [done|]; intros k Hk; lia]).
  split; unfold pending; cbn [pes todo net]; [done| | | | | | |].
  - intros v. rewrite elem_of_singleton. by rewrite Hd.
  - intros v. rewrite elem_of_singleton. split; [intros ->; left; exists 0%nat; split; [lia|done]|]. intros [(k & Hk & Hr)|?]; [|set_solver]. assert (k = 0%nat) as -> by lia. exact Hr.
  - set_solver.
  - intros m. rewrite app_nil_r, Ht. intros (u & v & ->%elem_of_singleton & Hv & Hm). exists root, v. split; [by apply Hd|done].
  - intros v Hv. right. destruct (dist_step _ _ _ Hv) as (u & ->%Hd & Ha). exists root, (mkMsg (OWNER root) (OWNER v) (LOCAL v) (LOCAL root)). split; [|done]. rewrite app_nil_r, Ht. exists root, v. split; [set_solver|done].
  - intros v ->%elem_of_singleton. exists root. split; [apply lookup_singleton_eq|]. by left.
  - intros v Hv. apply lookup_singleton_ne. set_solver.
Qed.

(** Every execution keeps the invariant. *)
Lemma inv_steps c c' : rtc (step num_pes) c c' → (∃ d V F X P, inv root d c V F X P) → ∃ d V F X P, inv root d c' V F X P.
Proof using Hnum HG Hroot.
  induction 1 as [|c1 c2 c3 Hs _ IH]; [done|]. intros (d & V & F & X & P & H). apply IH. destruct (inv_step d c1 c2 V F X P H Hs) as (d' & V' & F' & X' & P' & H' & _). by exists d', V', F', X', P'.
Qed.
Lemma search_correct ps : all_ready ps → ∃ c0, search num_pes root ps = Some c0 ∧ sn (step num_pes) c0 ∧
  ∀ c, rtc (step num_pes) c0 c → safe c ∧ (final c = false → ∃ c', step num_pes c c') ∧ all_ready (pes c) ∧ (final c = true → shortest_paths (pred_of num_pes c)).
Proof using Hnum HG Hroot.
  intros Hps. destruct (search_inv ps Hps) as (c0 & V & F & X & P & E & H). exists c0. split; [done|]. split; [by eapply inv_terminates|]. intros c Hs. apply inv_steps in Hs as (d' & V' & F' & X' & P' & H'); [|by exists 0%nat, V, F, X, P].
  split; [by eapply inv_safe|]. split; [by eapply inv_progress|]. split; [by eapply inv_ready|by eapply inv_final].
Qed.
End run.
End spec.

(** ** Results *)

(** Paths depend on the sets of neighbours only. *)
Lemma reach_ext adj adj' root n : (∀ v w, w ∈ adj v ↔ w ∈ adj' v) → ∀ v, reach adj root n v ↔ reach adj' root n v.
Proof. intros H. induction n as [|n IH]; intros v; cbn [reach]; [done|]. by setoid_rewrite IH; setoid_rewrite H. Qed.
Lemma dist_ext adj adj' root n v : (∀ v w, w ∈ adj v ↔ w ∈ adj' v) → dist adj root n v ↔ dist adj' root n v.
Proof. intros H. unfold dist. by setoid_rewrite (reach_ext adj adj' root _ H). Qed.
Lemma shortest_paths_ext N adj adj' root pr : (∀ v w, w ∈ adj v ↔ w ∈ adj' v) → shortest_paths N adj root pr → shortest_paths N adj' root pr.
Proof.
  intros H Hs v Hv. destruct (Hs v Hv) as [(n & u & Hd & Hp & Hm)|[Hn Hp]].
  - left. exists n, u. split; [by apply (dist_ext adj)|]. split; [done|]. destruct n; [done|]. destruct Hm as [H1 H2]. split; [by apply (dist_ext adj)|by apply H].
  - right. split; [|done]. intros n Hr. apply (Hn n). by apply (reach_ext adj adj').
Qed.
(** The graphs that the processes have built *)
Lemma built_graphs num_pes edges (order : Z → list (Z * Z)) gs : 0 < num_pes < 2 ^ 31 → edges_ok edges → zlen gs = num_pes →
  (∀ r g, aget gs r = Some g → csr_built num_pes r edges (order r) g ∧ nlocalverts g < 2 ^ 31 ∧ (zlen (order r) = 0 ∨ zlen (order r) mod 2048 ≠ 0)) →
  (∀ r, 0 ≤ r < num_pes → order r ≡ₚ filter (λ m, VERTEX_OWNER num_pes m.1 = r) (sends edges)) →
  graphs num_pes gs (nverts_known edges + 1) (λ v, targets num_pes (order (VERTEX_OWNER num_pes v)) (VERTEX_LOCAL num_pes v)).
Proof.
  intros Hnum He Hl Hb Ho. split; [done| | |].
  - intros r g Hg. destruct (Hb r g Hg) as (Hc & Hn & _). split; [|done]. rewrite (cb_local _ _ _ _ _ Hc). by rewrite (cb_global _ _ _ _ _ Hc).
  - intros v Hv g Hg. destruct (Hb _ g Hg) as (Hc & Hn & Hm). eapply (row_targets num_pes Hnum); [exact Hc| |done]. rewrite (cb_local _ _ _ _ _ Hc), (cb_global _ _ _ _ _ Hc). by apply local_bound.
  - intros v w Hv Hw. rewrite (targets_neighbours num_pes _ edges _ v Hnum (Ho _ (owner_range num_pes Hnum v)) eq_refl) in Hw. apply list_elem_of_fmap in Hw as ([a b] & -> & [_ Hm]%list_elem_of_filter). apply sends_swap in Hm.
    pose proof (sends_known _ _ Hm) as Hk. pose proof (sends_ok edges He) as Hs. rewrite Forall_forall in Hs. specialize (Hs _ Hm). cbn in *. lia.
Qed.
(** What the processes do with the edges: [order1 r] and [order2 r] are the messages of
    the process [r] in the order in which they arrive. *)
Record bfs_input (num_pes nglobaledges : Z) (edges : list (Z * Z)) (junk : Z → nat → Z) (order1 order2 : Z → list (Z * Z)) : Prop := {
  bi_num_pes : 0 < num_pes < 2 ^ 31;
  bi_csr : ∀ r, 0 ≤ r < num_pes → csr_input num_pes r nglobaledges edges (order1 r) (order2 r);
  bi_junk : ∀ r k, byte_ok (junk r k);
  bi_overread : ∀ r, 0 ≤ r < num_pes → zlen (order2 r) = 0 ∨ zlen (order2 r) mod 2048 ≠ 0
}.
Definition build_graphs (num_pes nglobaledges : Z) (edges : list (Z * Z)) (junk : Z → nat → Z) (order1 order2 : Z → list (Z * Z)) : option (list oned_csr_graph) :=
  mapM (λ r, convert_graph_to_oned_csr num_pes (junk r) r nglobaledges edges (order1 r) (order2 r)) (seqZ 0 (num_pes)).
Lemma build_spec num_pes nglobaledges edges junk order1 order2 : bfs_input num_pes nglobaledges edges junk order1 order2 →
  ∃ gs, build_graphs num_pes nglobaledges edges junk order1 order2 = Some gs ∧
    graphs num_pes gs (nverts_known edges + 1) (λ v, targets num_pes (order2 (VERTEX_OWNER num_pes v)) (VERTEX_LOCAL num_pes v)).
Proof.
  intros [Hnum Hc Hj Hm].
  assert (is_Some (build_graphs num_pes nglobaledges edges junk order1 order2)) as [gs E].
  { apply mapM_is_Some_2, Forall_forall. intros r Hr%elem_of_seqZ. destruct (convert_spec num_pes Hnum (junk r) r nglobaledges edges (order1 r) (order2 r)) as (g & E & _); [apply Hc; lia|apply Hj|]. cbn. rewrite E. by eexists. }
  exists gs. split; [done|]. apply mapM_Some in E. assert (zlen gs = num_pes) as Hl by (apply Forall2_length in E; rewrite length_seqZ in E; unfold zlen; lia).
  apply built_graphs; [done|apply (ci_edges _ _ _ _ _ _ (Hc 0 ltac:(lia)))|done| |intros r Hr; by apply (ci_order2 _ _ _ _ _ _ (Hc r Hr))].
  intros r g Hg. pose proof (aget_lt _ _ _ Hg) as Hr. rewrite Hl in Hr. destruct (convert_spec num_pes Hnum (junk r) r nglobaledges edges (order1 r) (order2 r)) as (g' & E' & Hb); [by apply Hc|apply Hj|].
  rewrite aget_nat in Hg by lia. destruct (Forall2_lookup_r _ _ _ _ _ E Hg) as (x & Hx & Ex). apply lookup_seqZ in Hx as [-> _]. rewrite Z.add_0_l, Z2Nat.id in Ex by lia. rewrite E' in Ex. injection Ex as <-.
  split; [done|]. split; [|by apply Hm]. destruct (Hc r Hr) as [_ _ _ _ Hroom [Hs _]]. rewrite (cb_local _ _ _ _ _ Hb), (cb_global _ _ _ _ _ Hb). lia.
Qed.

(** C5. A search, from the list of edges on, on any number of processes: for every
    order in which the messages of the construction arrive, the processes build their
    graphs and can start a search from any root; whatever the interleaving of sends
    and handlers then is, no array is accessed outside of its bounds, the processes
    are never stuck before the end, there is no infinite execution, and at the end the
    predecessors are a tree of shortest paths: the predecessor of the root is the
    root, each vertex that can be reached is a neighbour of its predecessor, which is
    one step nearer to the root, and the others have -1. The processes are then ready
    for the next search. The restrictions ([bfs_input]): vertices below 2^48,
    neighbour offsets and numbers of local vertices in the range of [int], an array of
    degrees, whose size the code computes from the number of edges, that is large
    enough ([csr_overflow] without), and for no process a number of neighbours that is
    a positive multiple of 2048 ([column_overread] with). *)
Theorem bfs_correct num_pes nglobaledges edges junk order1 order2 root : bfs_input num_pes nglobaledges edges junk order1 order2 → 0 ≤ root ≤ nverts_known edges →
  ∃ gs, build_graphs num_pes nglobaledges edges junk order1 order2 = Some gs ∧ all_ready gs (make_graph_data_structure <$> gs) ∧
  ∀ ps, all_ready gs ps → ∃ c0, search num_pes root ps = Some c0 ∧ sn (step num_pes) c0 ∧
    ∀ c, rtc (step num_pes) c0 c → safe num_pes c ∧ (final c = false → ∃ c', step num_pes c c') ∧ all_ready gs (pes c) ∧
      (final c = true → shortest_paths (nverts_known edges + 1) (neighbours edges) root (pred_of num_pes c)).
Proof.
  intros Hin Hroot. pose proof Hin as [Hnum Hc _ _]. destruct (build_spec num_pes nglobaledges edges junk order1 order2 Hin) as (gs & E & HG). exists gs. split; [done|]. assert (valid (nverts_known edges + 1) root) as Hv by (unfold valid; lia). split.
  - apply Forall2_fmap_r, Forall_Forall2_diag, Forall_lookup. intros k g Hg. eapply (made_ready num_pes Hnum gs _ _ HG root Hv (Z.of_nat k)). by rewrite aget_nat, Nat2Z.id by lia.
  - intros ps Hps. destruct (search_correct num_pes Hnum gs _ _ HG root Hv ps Hps) as (c0 & Es & Ht & Hall). exists c0. split; [done|]. split; [done|]. intros c Hr. destruct (Hall c Hr) as (H1 & H2 & H3 & H4). split; [done|]. split; [done|]. split; [done|]. intros Hf.
    eapply shortest_paths_ext; [|by apply H4]. intros v w. cbn. pose proof (owner_range num_pes Hnum v) as Ho. by rewrite (targets_neighbours num_pes _ edges _ v Hnum (ci_order2 _ _ _ _ _ _ (Hc _ Ho)) eq_refl).
Qed.
(** The edges of [csr_demo] on three processes *)
Definition bfs_order (r : Z) : list (Z * Z) := filter (λ m, VERTEX_OWNER 3 m.1 = r) (sends csr_demo).
Lemma bfs_demo_input : bfs_input 3 9 csr_demo (λ _ _, 0) bfs_order bfs_order.
Proof.
  split; [lia| |done|].
  - intros r Hr. assert (r = 0 ∨ r = 1 ∨ r = 2) as [-> |[-> | ->]] by lia; (split; [unfold edges_ok, csr_demo; forall_list|lia|done|done|vm_compute; discriminate|split; vm_compute; reflexivity]).
  - intros r Hr. assert (r = 0 ∨ r = 1 ∨ r = 2) as [-> |[-> | ->]] by lia; first [right; vm_compute; discriminate|left; vm_compute; reflexivity].
Qed.
Lemma bfs_correct_witness : ∃ gs, build_graphs 3 9 csr_demo (λ _ _, 0) bfs_order bfs_order = Some gs ∧ all_ready gs (make_graph_data_structure <$> gs) ∧
  ∀ ps, all_ready gs ps → ∃ c0, search 3 3 ps = Some c0 ∧ sn (step 3) c0 ∧
    ∀ c, rtc (step 3) c0 c → safe 3 c ∧ (final c = false → ∃ c', step 3 c c') ∧ all_ready gs (pes c) ∧ (final c = true → shortest_paths (nverts_known csr_demo + 1) (neighbours csr_demo) 3 (pred_of 3 c)).
Proof. apply (bfs_correct 3 9 csr_demo (λ _ _, 0) bfs_order bfs_order 3); [exact bfs_demo_input|split; vm_compute; discriminate]. Defined.

(** ** The schedule of [run_levels] is an execution *)

Section schedule.
Context (num_pes : Z).

Lemma send_row ps done m ms rest n : rtc (step num_pes) (mkConf ps (done ++ (m ++ ms) :: rest) n) (mkConf ps (done ++ ms :: rest) (n ++ m)).
Proof using Type.
  revert n. induction m as [|x m IH]; intros n; [by rewrite app_nil_r|]. eapply rtc_l; [apply (step_send num_pes _ (length done) x (m ++ ms)); cbn [todo]; by rewrite list_lookup_middle|].
  cbn [pes todo net]. rewrite insert_app_r_alt, Nat.sub_diag by lia. cbn. change (x :: m) with ([x] ++ m). rewrite (assoc_L (++)). apply IH.
Qed.
Lemma send_all ps done rest : ∀ n, rtc (step num_pes) (mkConf ps (done ++ rest) n) (mkConf ps (done ++ replicate (length rest) []) (n ++ concat rest)).
Proof using Type.
  revert done. induction rest as [|ms rest IH]; intros done n; cbn [length replicate concat]; [by rewrite !app_nil_r|]. etrans; [rewrite <- (app_nil_r ms) at 1; apply send_row|].
  rewrite (cons_middle [] done rest), (cons_middle [] done (replicate (length rest) [])), !(assoc_L (++)). apply IH.
Qed.
Lemma deliver_none ms : foldl (deliver num_pes) None ms = None.
Proof using Type. induction ms as [|m ms IH]; [done|]. exact IH. Qed.
Lemma deliver_all t ms : ∀ ps ps', foldl (deliver num_pes) (Some ps) ms = Some ps' → rtc (step num_pes) (mkConf ps t ms) (mkConf ps' t []).
Proof using Type.
  induction ms as [|m ms IH]; intros ps ps' E; cbn [foldl] in E; [by injection E as ->|]. destruct (deliver num_pes (Some ps) m) as [ps1|] eqn:Ed; [|by rewrite deliver_none in E]. unfold deliver in Ed. cbn [mbind option_bind] in Ed.
  destruct (aget ps (to m)) as [p|] eqn:Ep; [|done]. cbn [mbind option_bind] in Ed. destruct (visithndl num_pes p m) as [p'|] eqn:Eh; [|done]. cbn [mbind option_bind] in Ed. unfold aset in Ed. rewrite Ep in Ed. cbn [mbind option_bind] in Ed. injection Ed as <-.
  eapply rtc_l; [by eapply (step_deliver num_pes _ [])|]. by apply IH.
Qed.
Lemma replicate_quiet ps k : quiet (mkConf ps (replicate k []) []) = true.
Proof using Type. unfold quiet. cbn [todo net]. rewrite andb_true_r. by induction k. Qed.
Lemma begin_net ps c : begin_level num_pes ps = Some c → net c = [].
Proof using Type. unfold begin_level. destruct (mapM _ _); [|done]. by intros [= <-]. Qed.
Lemma run_levels_execution fuel : ∀ c c', net c = [] → run_levels num_pes fuel c = Some c' → rtc (step num_pes) c c' ∧ final c' = true.
Proof using Type.
  induction fuel as [|fuel IH]; intros [ps t n] c' Hn E; cbn [run_levels pes todo net] in *; [done|]. subst n. destruct (foldl _ _ _) as [ps'|] eqn:Ed; [|done]. cbn [mbind option_bind] in E.
  set (c1 := mkConf ps' (replicate (length t) []) []) in *. assert (rtc (step num_pes) (mkConf ps t []) c1) as Hs by (etrans; [apply (send_all ps [] t [])|]; by apply deliver_all).
  pose proof (replicate_quiet ps' (length t) : quiet c1 = true) as Hq. destruct (Z.eqb_spec (new_sum c1) 0) as [Hz|Hz].
  - injection E as <-. split; [done|]. unfold final. by rewrite Hq, Hz.
  - destruct (begin_level num_pes (swap_queues <$> ps')) as [c2|] eqn:Eb; [|done]. destruct (IH c2 c') as [H1 H2]; [by eapply begin_net|exact E|]. split; [|done]. etrans; [exact Hs|]. eapply rtc_l; [by apply step_level|done].
Qed.
End schedule.

Example bfs_demo_run : (gs ← build_graphs 3 9 csr_demo (λ _ _, 0) bfs_order bfs_order; c ← search 3 3 (make_graph_data_structure <$> gs); c ← run_levels 3 10 c; mapM (pred_of 3 c) [0; 1; 2; 3; 4]) = Some [3; -1; 3; 3; -1].
Proof. vm_compute. reflexivity. Qed.
