(* ===== verification/Validate.v ===== *)
(** * Validate: the check of a search (graph500/src/validate.c)

    [validate_result] for breadth-first search, as graph500_reference_bfs is built: the
    rows of the search are used again and there are no weights.  The messages of a
    phase are delivered in any order ([sched]) before its barrier.  All the floats are
    integers here, so that a float is its value.  [None] is an access outside of an
    array, or fuel that is used up. *)

From S2P Require Import Prelude Csr Bfs.

Local Open Scope Z_scope.

(** ** Floats that are integers *)

(** Infinity is the value 2^128, above all others. *)
Definition FLT_MAX : Z := (2 ^ 24 - 1) * 2 ^ 104.
(** Rounding to 24 bits, to the nearest, ties to even *)
Definition round32 (x : Z) : Z :=
  if Z.abs x <=? 2 ^ 24 then x else
  let m := 2 ^ (Z.log2 (Z.abs x) - 23) in
  let q := Z.abs x / m in
  let r := Z.abs x mod m in
  let q := if (2 * r <? m) || ((2 * r =? m) && Z.even q) then q else q + 1 in
  Z.sgn x * Z.min (q * m) (2 ^ 128).
Definition fadd (x y : Z) : Z := round32 (x + y).

Section validate.
Context (num_pes : Z).

Local Notation OWNER := (VERTEX_OWNER num_pes).
Local Notation LOCAL := (VERTEX_LOCAL num_pes).
Local Notation GLOBAL := (VERTEX_TO_GLOBAL num_pes).

(** The variables of a process; the arrays have [nlocalverts] entries. *)
Record vpe := mkVpe { vgraph : oned_csr_graph; globpred : list Z; globdist : list Z; confirmed : list Z; newvisits : Z; nedges_traversed : Z; val_errors : Z }.
Definition set_dist d p := mkVpe (vgraph p) (globpred p) d (confirmed p) (newvisits p) (nedges_traversed p) (val_errors p).
Definition set_confirmed c p := mkVpe (vgraph p) (globpred p) (globdist p) c (newvisits p) (nedges_traversed p) (val_errors p).
Definition set_visits n p := mkVpe (vgraph p) (globpred p) (globdist p) (confirmed p) n (nedges_traversed p) (val_errors p).
Definition set_nedges n p := mkVpe (vgraph p) (globpred p) (globdist p) (confirmed p) (newvisits p) n (val_errors p).
Definition set_errors n p := mkVpe (vgraph p) (globpred p) (globdist p) (confirmed p) (newvisits p) (nedges_traversed p) n.
Definition add_errors n p := set_errors (val_errors p + n) p.

(** All processes do the same; [aml_long_allsum]; the messages are handled in the given
    order. *)
Definition each (f : Z → vpe → option vpe) (ps : list vpe) : option (list vpe) := mapM (λ rp : Z * vpe, f rp.1 rp.2) (zip (seqZ 0 (zlen ps)) ps).
Definition allsum (f : vpe → Z) (ps : list vpe) : Z := foldr Z.add 0 (f <$> ps).
Definition deliver_to {M} (dest : M → Z) (hndl : vpe → M → option vpe) (ps : option (list vpe)) (m : M) : option (list vpe) :=
  ps ← ps; p ← aget ps (dest m); p' ← hndl p m; aset ps (dest m) p'.
(** The number of entries with a property, [for (i = 0; i < nlocalverts; ++i) if(...)] *)
Definition count_if (b : Z → Z → bool) (xs ys : list Z) : Z := zlen (filter (λ xy, b xy.1 xy.2 = true) (zip xs ys)).

(** ** Depths *)

Definition frompredhndl (prevlevel : Z) (p : vpe) (m : visitmsg) : option vpe :=
  let predfrom := GLOBAL (from m) (vfrom m) in
  a ← aget (globpred p) (vloc m);
  if negb (a =? predfrom) then Some p else
  d ← aget (globdist p) (vloc m);
  if negb (d =? FLT_MAX) then Some p else
  dist ← aset (globdist p) (vloc m) (fadd prevlevel 1);
  Some (set_visits (newvisits p + 1) (set_dist dist p)).
Definition send_frompred (rank vfrom src : Z) : visitmsg := mkMsg rank (OWNER src) (i32 (LOCAL src)) vfrom.
(** [dist[i]=FLT_MAX; if(pred[i]==-1) dist[i]=-1.0; if(pred[i]==root) dist[i]=1.0;] *)
Definition first_dist (root a : Z) : Z := if a =? root then 1 else if a =? -1 then -1 else FLT_MAX.
Definition depth_start (root rank : Z) (p : vpe) : option vpe :=
  let dist := first_dist root <$> globpred p in
  dist ← (if rank =? OWNER root then aset dist (LOCAL root) 0 else Some dist);
  Some (set_dist dist p).
Definition depth_row (rank prevlevel : Z) (p : vpe) (i : Z) : option (list visitmsg) :=
  d ← aget (globdist p) i;
  if d =? prevlevel then (ns ← row_of COLUMN_int (vgraph p) i; Some (map (send_frompred rank i) ns)) else Some [].
Definition depth_sends (prevlevel rank : Z) (p : vpe) : option (list visitmsg) :=
  mss ← mapM (depth_row rank prevlevel p) (seqZ 0 (nlocalverts (vgraph p))); Some (concat mss).
Definition all_sends {M} (sends : Z → vpe → option (list M)) (ps : list vpe) : option (list M) :=
  mss ← mapM (λ rp : Z * vpe, sends rp.1 rp.2) (zip (seqZ 0 (zlen ps)) ps); Some (concat mss).
(** [while(newvisits!=0)]: the handlers write the next level, which the loop of the
    senders does not look for, as long as adding one changes a float. *)
Fixpoint depth_loop (sched : nat → list visitmsg → list visitmsg) (fuel : nat) (prevlevel : Z) (ps : list vpe) : option (list vpe) :=
  match fuel with
  | O => None
  | S fuel =>
      let prevlevel := fadd prevlevel 1 in
      if 2 ^ 24 <=? prevlevel then None else
      let ps := set_visits 0 <$> ps in
      ms ← all_sends (depth_sends prevlevel) ps;
      ps ← foldl (deliver_to to (frompredhndl prevlevel)) (Some ps) (sched fuel ms);
      if allsum newvisits ps =? 0 then Some ps else depth_loop sched fuel prevlevel ps
  end.
Definition makedepthmapforbfs (sched : nat → list visitmsg → list visitmsg) (fuel : nat) (root : Z) (ps : list vpe) : option (list vpe) :=
  ps ← each (depth_start root) ps; depth_loop sched fuel 0 ps.

(** ** Edges *)

Record edgedist := mkEdge { efrom : Z; eto : Z; evfrom : Z; evloc : Z; predfrom : Z; distfrom : Z }.
Definition sendedgepreddist (rank : Z) (p : vpe) (v glob : Z) : option edgedist :=
  a ← aget (globpred p) v; d ← aget (globdist p) v; Some (mkEdge rank (OWNER glob) v (u32 (LOCAL glob)) a d).
Definition edge_row (rank : Z) (p : vpe) (v : Z) : option (list edgedist) := ns ← row_of COLUMN (vgraph p) v; mapM (sendedgepreddist rank p v) ns.
Definition edge_msgs (rank : Z) (p : vpe) : option (list edgedist) := mss ← mapM (edge_row rank p) (seqZ 0 (nlocalverts (vgraph p))); Some (concat mss).

Definition edgepreddisthndl (p : vpe) (m : edgedist) : option vpe :=
  let v1loc := evloc m in
  let v1 := GLOBAL (eto m) v1loc in
  let v0 := GLOBAL (efrom m) (evfrom m) in
  predv1 ← aget (globpred p) v1loc;
  let predv0 := predfrom m in
  let w := 1 in
  let distv0 := distfrom m in
  distv1 ← aget (globdist p) v1loc;
  if (predv0 =? -1) && (predv1 =? -1) then Some p else
  let p := if v0 <? v1 then set_nedges (nedges_traversed p + 1) p else p in
  if (predv0 =? -1) || (predv1 =? -1) then Some (add_errors 1 p) else
  p ← (if (predv1 =? v0) && (distv1 =? fadd distv0 w) then c ← aset (confirmed p) v1loc 1; Some (set_confirmed c p) else Some p);
  if (fadd distv0 w <? distv1) || (fadd distv1 w <? distv0) then Some (add_errors 1 p) else Some p.

(** ** Validation *)

(** [maxvertex], over all processes *)
Definition maxvertex (ps : list vpe) : Z :=
  foldl (λ m rp, foldl (λ m i, if m <? GLOBAL rp.1 i then GLOBAL rp.1 i else m) m (seqZ 0 (nlocalverts (vgraph rp.2)))) 0 (zip (seqZ 0 (zlen ps)) ps).
Definition pred_errors (maxv : Z) (p : vpe) : Z := count_if (λ a _, (negb (a =? -1) && (a <? 0)) || (maxv <? a)) (globpred p) (globpred p).
Definition dist_errors (p : vpe) : Z :=
  count_if (λ _ d, negb (d =? -1) && (d <? 0)) (globpred p) (globdist p) +
  count_if (λ a d, ((a =? -1) && negb (d =? -1)) || (negb (a =? -1) && (d =? -1))) (globpred p) (globdist p).
Definition root_check (root rank : Z) (p : vpe) : option vpe :=
  if rank =? OWNER root then
    a ← aget (globpred p) (LOCAL root);
    d ← aget (globdist p) (LOCAL root);
    if negb (a =? root) || negb (d =? 0) then Some (add_errors 1 p) else
    c ← aset (confirmed p) (LOCAL root) 1; Some (set_confirmed c p)
  else Some p.
Definition unconfirmed (p : vpe) : Z := count_if (λ c a, (c =? 0) && negb (a =? -1)) (confirmed p) (globpred p).

(** The result, and the variables afterwards: the number of errors is kept for the next
    validation. *)
Definition validate_result (sched : nat → list visitmsg → list visitmsg) (sched' : list edgedist → list edgedist) (fuel : nat) (root : Z) (nedges_in : option Z) (ps : list vpe) : option (bool * list vpe) :=
  let maxv := maxvertex ps in
  let ps := (λ p, add_errors (pred_errors maxv p) (set_confirmed (replicate (Z.to_nat (nlocalverts (vgraph p))) 0) p)) <$> ps in
  let errors := allsum val_errors ps in
  let ps := set_errors errors <$> ps in
  if 0 <? errors then Some (false, ps) else
  ps ← makedepthmapforbfs sched fuel root ps;
  let ps := (λ p, add_errors (dist_errors p) p) <$> ps in
  ps ← each (root_check root) ps;
  let ps := set_nedges 0 <$> ps in
  ms ← all_sends edge_msgs ps;
  ps ← foldl (deliver_to eto edgepreddisthndl) (Some ps) (sched' ms);
  let ps := (λ p, add_errors (unconfirmed p) p) <$> ps in
  let errors := allsum val_errors ps in
  let total := allsum nedges_traversed ps in
  let errors := match nedges_in with Some n => if negb (n =? total) then errors + 1 else errors | None => errors end in
  Some (negb (0 <? errors), (λ p, set_errors errors (set_nedges total p)) <$> ps).

(** ** Around it *)

(** [get_edge_count_for_teps] of bfs_reference.c *)
Definition teps_row (rank : Z) (p : pe) (i : Z) : option Z :=
  a ← aget (pred p) i;
  if a =? -1 then Some 0 else
  ns ← row_of COLUMN_long (graph p) i; Some (zlen (filter (λ w, (w <=? GLOBAL rank i) = true) ns)).
Definition get_edge_count_for_teps (ps : list pe) : option Z :=
  ns ← mapM (λ rp : Z * pe, ls ← mapM (teps_row rp.1 rp.2) (seqZ 0 (nlocalverts (graph rp.2))); Some (foldr Z.add 0 ls)) (zip (seqZ 0 (zlen ps)) ps);
  Some (foldr Z.add 0 ns).
(** The validation of a search: [shortest] are the distances, not yet set. *)
Definition validate_pe (shortest : list Z) (p : pe) : vpe := mkVpe (graph p) (pred p) shortest [] 0 0 0.

End validate.
