(* ===== verification/ValidateSpec.v ===== *)
(** * ValidateSpec: what the validation of a search accepts

    Validation ends for all predecessors, without an access outside of an array.  It
    accepts the tree of every search; what it accepts is a tree of shortest paths for
    the vertices that can be reached from the root, but other vertices may have
    predecessors too ([validate_accepts_detached]). *)

From stdpp Require Import gmap relations.
From S2P Require Import Prelude Csr CsrSpec Bfs BfsSpec Validate.

Local Open Scope Z_scope.

(** ** Floats *)

Lemma fadd_small x : 0 ≤ x < 2 ^ 24 → fadd x 1 = x + 1.
Proof. intros Hx. unfold fadd, round32. by rewrite (proj2 (Z.leb_le _ _)) by lia. Qed.
Lemma fadd_max : fadd FLT_MAX 1 = FLT_MAX.
Proof. vm_compute. reflexivity. Qed.
Lemma max_large : 2 ^ 24 < FLT_MAX.
Proof. vm_compute. reflexivity. Qed.

(** ** Processes *)

Lemma zip_lookup {A} (ps : list A) k rp : zip (seqZ 0 (zlen ps)) ps !! k = Some rp ↔ rp.1 = Z.of_nat k ∧ ps !! k = Some rp.2.
Proof.
  rewrite lookup_zip_with_Some. split.
  - intros (x & y & -> & Hx & Hy). apply lookup_seqZ in Hx as [-> _]. split; [cbn; lia|done].
  - destruct rp as [r p]. cbn. intros [-> Hp]. exists (Z.of_nat k), p. split; [done|]. split; [|done]. apply lookup_seqZ. apply lookup_lt_Some in Hp. unfold zlen. lia.
Qed.
Lemma zip_aget {A} (ps : list A) k r p : zip (seqZ 0 (zlen ps)) ps !! k = Some (r, p) → aget ps r = Some p.
Proof. intros [E Hp]%zip_lookup. cbn in *. subst r. by rewrite aget_nat, Nat2Z.id by lia. Qed.
Lemma each_spec f ps : (∀ r p, aget ps r = Some p → is_Some (f r p)) → ∃ ps', each f ps = Some ps' ∧ zlen ps' = zlen ps ∧ ∀ r p, aget ps r = Some p → ∃ p', aget ps' r = Some p' ∧ f r p = Some p'.
Proof.
  intros Hf. unfold each. set (l := zip _ _). assert (is_Some (mapM (λ rp : Z * vpe, f rp.1 rp.2) l)) as [ps' E].
  { apply mapM_is_Some_2, Forall_lookup. intros k [r p] Hk. apply Hf. by eapply zip_aget. }
  exists ps'. split; [done|]. apply mapM_Some in E. assert (length l = length ps) as Hl by (unfold l; rewrite length_zip_with, length_seqZ; unfold zlen; lia). split; [unfold zlen; apply Forall2_length in E; lia|].
  intros r p Hp. pose proof (aget_lt _ _ _ Hp) as Hr. rewrite aget_nat in Hp by lia. assert (l !! Z.to_nat r = Some (r, p)) as Hk by (apply zip_lookup; cbn; split; [lia|done]). destruct (Forall2_lookup_l _ _ _ _ _ E Hk) as (p' & Hp' & Ef). exists p'. by rewrite aget_nat by lia.
Qed.
Lemma each_back f ps : (∀ r p, aget ps r = Some p → is_Some (f r p)) → ∃ ps', each f ps = Some ps' ∧ zlen ps' = zlen ps ∧ ∀ r p', aget ps' r = Some p' → ∃ p, aget ps r = Some p ∧ f r p = Some p'.
Proof.
  intros Hf. destruct (each_spec f ps Hf) as (ps' & E & L & H). exists ps'. split; [done|]. split; [done|]. intros r p' Hp'. destruct (aget_some ps r) as [p Hp]; [pose proof (aget_lt _ _ _ Hp'); lia|]. exists p. split; [done|]. destruct (H r p Hp) as (q & Hq & Ef). congruence.
Qed.
Lemma list_get_eq {A} (l l' : list A) : zlen l = zlen l' → (∀ r x, aget l r = Some x → aget l' r = Some x) → l = l'.
Proof.
  intros Hl H. apply list_eq_same_length with (length l); [unfold zlen in Hl; lia|done|]. intros i x y _ Hx Hy. specialize (H (Z.of_nat i) x). rewrite !aget_nat, !Nat2Z.id in H by lia. specialize (H Hx). congruence.
Qed.
Lemma mapM_pointwise {A B} (f : A → option B) (g : A → B) l : (∀ x, x ∈ l → f x = Some (g x)) → mapM f l = Some (g <$> l).
Proof. intros H. apply mapM_Some, Forall2_fmap_r, Forall_Forall2_diag, Forall_forall. exact H. Qed.
Lemma zip_mapM {A B} (f : Z → A → option B) (g : Z → B) ps : (∀ r p, aget ps r = Some p → f r p = Some (g r)) → mapM (λ rp : Z * A, f rp.1 rp.2) (zip (seqZ 0 (zlen ps)) ps) = Some (g <$> seqZ 0 (zlen ps)).
Proof.
  intros Hs. set (l := zip _ _). rewrite (mapM_pointwise _ (λ rp, g rp.1) l).
  - f_equal. transitivity (g <$> (fst <$> l)); [by rewrite <- list_fmap_compose|]. f_equal. apply fst_zip. rewrite length_seqZ. unfold zlen. lia.
  - intros [r p] [k Hk]%list_elem_of_lookup. apply Hs. by eapply zip_aget.
Qed.
Lemma all_sends_spec {M} (sends : Z → vpe → option (list M)) (L : Z → list M) ps : (∀ r p, aget ps r = Some p → sends r p = Some (L r)) → all_sends sends ps = Some (concat (L <$> seqZ 0 (zlen ps))).
Proof. intros Hs. unfold all_sends. by rewrite (zip_mapM sends L ps Hs). Qed.

(** Sums *)
Lemma allsum_cons f p ps : allsum f (p :: ps) = f p + allsum f ps.
Proof. reflexivity. Qed.
Lemma allsum_insert f ps k p p' : ps !! k = Some p → allsum f (<[k := p']> ps) = allsum f ps - f p + f p'.
Proof.
  revert k. induction ps as [|q ps IH]; intros [|k] Hk; [done|done| |].
  - injection Hk as ->. change (<[0%nat := p']> (p :: ps)) with (p' :: ps). rewrite !allsum_cons. lia.
  - change (<[S k := p']> (q :: ps)) with (q :: <[k := p']> ps). rewrite !allsum_cons, (IH k Hk). lia.
Qed.
Lemma allsum_add (f g : vpe → Z) (h : vpe → vpe) (ps : list vpe) : (∀ p, f (h p) = f p + g p) → allsum f (h <$> ps) = allsum f ps + allsum g ps.
Proof. intros H. induction ps as [|p ps IH]; [done|]. rewrite fmap_cons, !allsum_cons, H, IH. lia. Qed.
Lemma allsum_same (f : vpe → Z) (h : vpe → vpe) (ps : list vpe) : (∀ p, f (h p) = f p) → allsum f (h <$> ps) = allsum f ps.
Proof. intros H. induction ps as [|p ps IH]; [done|]. by rewrite fmap_cons, !allsum_cons, H, IH. Qed.
Lemma allsum_const (f : vpe → Z) (h : vpe → vpe) c (ps : list vpe) : (∀ p, f (h p) = c) → allsum f (h <$> ps) = c * zlen ps.
Proof. intros H. induction ps as [|p ps IH]; [unfold allsum, zlen; cbn; lia|]. rewrite fmap_cons, !allsum_cons, zlen_cons, H, IH. lia. Qed.
Lemma allsum_zero f ps : (∀ p, p ∈ ps → 0 ≤ f p) → 0 ≤ allsum f ps ∧ (allsum f ps = 0 ↔ ∀ p, p ∈ ps → f p = 0).
Proof.
  induction ps as [|p ps IH]; intros H.
  - split; [unfold allsum; cbn; lia|]. split; [|done]. intros _ p Hp. by apply elem_of_nil in Hp.
  - destruct IH as [H1 H2]; [intros q Hq; apply H; by right|]. pose proof (H p ltac:(by left)) as Hp. rewrite allsum_cons. split; [lia|]. split.
    + intros E q [-> |Hq]%elem_of_cons; [lia|]. apply H2; [lia|done].
    + intros Ha. rewrite (Ha p) by by left. rewrite (proj2 H2); [done|]. intros q Hq. apply Ha. by right.
Qed.
Lemma allsum_plus (f g : vpe → Z) ps : allsum (λ p, f p + g p) ps = allsum f ps + allsum g ps.
Proof. induction ps as [|p ps IH]; [done|]. rewrite !allsum_cons, IH. lia. Qed.
Lemma count_if_zero b xs ys : 0 ≤ count_if b xs ys ∧ (count_if b xs ys = 0 ↔ ∀ k x y, xs !! k = Some x → ys !! k = Some y → b x y = false).
Proof.
  unfold count_if. split; [apply zlen_nonneg|]. split.
  - intros E k x y Hx Hy. destruct (b x y) eqn:Eb; [|done]. assert ((x, y) ∈ filter (λ xy, b xy.1 xy.2 = true) (zip xs ys)) as Hin.
    { apply list_elem_of_filter. split; [done|]. apply (list_elem_of_lookup_2 _ k). apply lookup_zip_with_Some. by exists x, y. }
    destruct (filter _ _); [by apply elem_of_nil in Hin|]. unfold zlen in E. cbn in E. lia.
  - intros H. destruct (filter _ _) as [|[x y] l] eqn:E; [done|]. assert ((x, y) ∈ filter (λ xy, b xy.1 xy.2 = true) (zip xs ys)) as Hin by (rewrite E; by left).
    apply list_elem_of_filter in Hin as [Hb [k Hk]%list_elem_of_lookup]. cbn in Hb. apply lookup_zip_with_Some in Hk as (x' & y' & [= -> ->] & Hx & Hy). rewrite (H k x' y' Hx Hy) in Hb. done.
Qed.

(** Delivery keeps an invariant on what has been delivered. *)
Lemma deliver_fold {A M} (msg : A → M) (dest : M → Z) (hndl : vpe → M → option vpe) (R : list A → list vpe → Prop) l : ∀ done ps, R done ps →
  (∀ done a ps, a ∈ l → R done ps → ∃ p p', aget ps (dest (msg a)) = Some p ∧ hndl p (msg a) = Some p' ∧ R (done ++ [a]) (<[Z.to_nat (dest (msg a)) := p']> ps)) →
  ∃ ps', foldl (deliver_to dest hndl) (Some ps) (msg <$> l) = Some ps' ∧ R (done ++ l) ps'.
Proof.
  induction l as [|a l IH]; intros done ps HR Hstep; cbn [foldl fmap list_fmap]; [exists ps; by rewrite app_nil_r|].
  destruct (Hstep done a ps ltac:(by left) HR) as (p & p' & Ep & Eh & HR'). unfold deliver_to at 2. cbn [mbind option_bind]. rewrite Ep. cbn [mbind option_bind]. rewrite Eh. cbn [mbind option_bind]. unfold aset. rewrite Ep. cbn [mbind option_bind].
  destruct (IH (done ++ [a]) _ HR') as (ps' & E & H); [intros done' b qs Hb; apply Hstep; by right|]. exists ps'. split; [exact E|]. by rewrite <- (assoc_L (++)) in H.
Qed.

Section spec.
Context (num_pes : Z) (Hnum : 0 < num_pes < 2 ^ 31) (gs : list oned_csr_graph) (N : Z) (adj : Z → list Z) (HG : graphs num_pes gs N adj).

Local Notation OWNER := (VERTEX_OWNER num_pes).
Local Notation LOCAL := (VERTEX_LOCAL num_pes).
Local Notation GLOBAL := (VERTEX_TO_GLOBAL num_pes).
Local Notation valid := (valid N).

(** ** What the processes represent *)

(** An array with the values [F] of the local vertices *)
Definition arr (r n : Z) (a : list Z) (F : Z → Z) : Prop := zlen a = n ∧ ∀ i, 0 ≤ i < n → aget a i = Some (F (GLOBAL r i)).
Definition array_of (f : vpe → list Z) (ps : list vpe) (F : Z → Z) : Prop := ∀ r p, aget ps r = Some p → arr r (nlocalverts (vgraph p)) (f p) F.
Definition shape (ps : list vpe) : Prop := zlen ps = zlen gs ∧ ∀ r p, aget ps r = Some p → aget gs r = Some (vgraph p).
(** The predecessors, the distances, and the vertices that are confirmed *)
Definition vsys (ps : list vpe) (P D C : Z → Z) : Prop := shape ps ∧ array_of globpred ps P ∧ array_of globdist ps D ∧ array_of confirmed ps C.

Lemma vertex_pe ps v : shape ps → valid v → ∃ p, aget ps (OWNER v) = Some p ∧ 0 ≤ LOCAL v < nlocalverts (vgraph p) ∧ 0 ≤ OWNER v.
Proof using Hnum HG.
  intros [Hl Hs] Hv. destruct (valid_local num_pes Hnum gs N adj HG v Hv) as (g & Hg & Hloc). destruct (aget_some ps (OWNER v)) as [p Hp]; [pose proof (aget_lt _ _ _ Hg); lia|]. exists p. split; [done|]. pose proof (Hs _ _ Hp) as E. rewrite Hg in E. injection E as ->. split; [done|]. by apply owner_range.
Qed.
Lemma array_vertex f ps F p v : array_of f ps F → aget ps (OWNER v) = Some p → 0 ≤ LOCAL v < nlocalverts (vgraph p) → aget (f p) (LOCAL v) = Some (F v).
Proof using Hnum. intros Ha Hp Hl. rewrite (proj2 (Ha _ _ Hp) _ Hl). by rewrite to_global. Qed.
Lemma pe_vertex ps r p i : shape ps → aget ps r = Some p → 0 ≤ i < nlocalverts (vgraph p) → valid (GLOBAL r i) ∧ OWNER (GLOBAL r i) = r ∧ LOCAL (GLOBAL r i) = i.
Proof using Hnum HG. intros [_ Hs] Hp Hi. eapply (global_valid num_pes Hnum gs N adj HG); [by apply Hs|done]. Qed.

(** A process changes. *)
Lemma insert_get (ps : list vpe) r p p' : aget ps r = Some p → ∀ r', aget (<[Z.to_nat r := p']> ps) r' = if decide (r' = r) then Some p' else aget ps r'.
Proof using Type.
  intros Hp r'. pose proof (aget_lt _ _ _ Hp) as Hr. unfold zlen in Hr. destruct (decide (r' = r)) as [-> |Hne].
  - rewrite aget_nat by lia. apply list_lookup_insert_eq. lia.
  - unfold aget. destruct (Z.ltb_spec r' 0); [done|]. apply list_lookup_insert_ne. lia.
Qed.
Lemma shape_insert ps r p p' : shape ps → aget ps r = Some p → vgraph p' = vgraph p → shape (<[Z.to_nat r := p']> ps).
Proof using Type.
  intros [Hl Hs] Hp E. split; [unfold zlen in *; by rewrite length_insert|]. intros r' q. rewrite (insert_get ps r p p' Hp). case_decide; [|apply Hs]. intros [= <-]. subst r'. rewrite E. by apply Hs.
Qed.
Lemma array_keep f ps F r p p' : array_of f ps F → aget ps r = Some p → vgraph p' = vgraph p → f p' = f p → array_of f (<[Z.to_nat r := p']> ps) F.
Proof using Type.
  intros Ha Hp Eg Ef r' q. rewrite (insert_get ps r p p' Hp). case_decide; [|apply Ha]. intros [= <-]. subst r'. rewrite Eg, Ef. by apply Ha.
Qed.
Definition upd (F : Z → Z) (v x : Z) (w : Z) : Z := if decide (w = v) then x else F w.
Lemma array_set f ps F p p' v x a : shape ps → array_of f ps F → valid v → aget ps (OWNER v) = Some p → vgraph p' = vgraph p → aset (f p) (LOCAL v) x = Some a → f p' = a → array_of f (<[Z.to_nat (OWNER v) := p']> ps) (upd F v x).
Proof using Hnum HG.
  intros Hsh Ha Hv Hp Eg Es Ef r' q. rewrite (insert_get ps _ p p' Hp). destruct (decide (r' = OWNER v)) as [-> |Hne].
  - intros [= <-]. destruct (Ha _ _ Hp) as [Hl Hi]. destruct (vertex_pe ps v Hsh Hv) as (p2 & Hp2 & Hloc & _). rewrite Hp in Hp2. injection Hp2 as <-. destruct (aset_spec (f p) (LOCAL v) x) as (a' & E & L & G); [lia|]. rewrite Es in E. injection E as <-.
    rewrite Eg, Ef. split; [lia|]. intros i Hir. rewrite G. unfold upd. destruct (pe_vertex ps (OWNER v) p i Hsh Hp Hir) as (_ & _ & El). destruct (decide (i = LOCAL v)) as [-> |Hni].
    + rewrite to_global by done. by rewrite decide_True.
    + rewrite decide_False by (intros E; apply Hni; by rewrite <- El, E). by apply Hi.
  - intros Hq. destruct (Ha _ _ Hq) as [Hl Hi]. split; [done|]. intros i Hir. rewrite Hi by done. unfold upd. destruct (pe_vertex ps r' q i Hsh Hq Hir) as (_ & Eo & _). rewrite decide_False by (intros E; apply Hne; by rewrite <- Eo, E). done.
Qed.
Lemma array_ext f ps F F' : shape ps → array_of f ps F → (∀ v, valid v → F v = F' v) → array_of f ps F'.
Proof using Hnum HG.
  intros Hsh Ha HF r p Hp. destruct (Ha r p Hp) as [Hl Hi]. split; [done|]. intros i Hir. rewrite Hi by done. f_equal. apply HF. by destruct (pe_vertex ps r p i Hsh Hp Hir).
Qed.
(** All processes change. *)
Lemma fmap_get (h : vpe → vpe) ps r p : aget (h <$> ps) r = Some p → ∃ q, aget ps r = Some q ∧ p = h q.
Proof using Type. unfold aget. destruct (r <? 0); [done|]. rewrite list_lookup_fmap. destruct (ps !! _) as [q|]; [|done]. intros [= <-]. by exists q. Qed.
Lemma shape_fmap h ps : shape ps → (∀ p, vgraph (h p) = vgraph p) → shape (h <$> ps).
Proof using Type. intros [Hl Hs] Hh. split; [unfold zlen in *; by rewrite length_fmap|]. intros r p (q & Hq & ->)%fmap_get. rewrite Hh. by apply Hs. Qed.
Lemma array_fmap f h ps F : array_of f ps F → (∀ p, vgraph (h p) = vgraph p) → (∀ p, f (h p) = f p) → array_of f (h <$> ps) F.
Proof using Type. intros Ha Hh Hf r p (q & Hq & ->)%fmap_get. rewrite Hh, Hf. by apply Ha. Qed.
Lemma vsys_fmap h ps P D C : vsys ps P D C → (∀ p, vgraph (h p) = vgraph p ∧ globpred (h p) = globpred p ∧ globdist (h p) = globdist p ∧ confirmed (h p) = confirmed p) → vsys (h <$> ps) P D C.
Proof using Type. intros (H1 & H2 & H3 & H4) Hh. split_and!; [apply shape_fmap|apply array_fmap..]; try done; intros p; by destruct (Hh p) as (? & ? & ? & ?). Qed.

(** Errors that are counted over all vertices *)
Lemma count_sys b f1 f2 ps F1 F2 : shape ps → array_of f1 ps F1 → array_of f2 ps F2 →
  0 ≤ allsum (λ p, count_if b (f1 p) (f2 p)) ps ∧ (allsum (λ p, count_if b (f1 p) (f2 p)) ps = 0 ↔ ∀ v, valid v → b (F1 v) (F2 v) = false).
Proof using Hnum HG.
  intros Hsh H1 H2. destruct (allsum_zero (λ p, count_if b (f1 p) (f2 p)) ps) as [Hn Hz]; [intros p _; apply count_if_zero|]. split; [done|]. rewrite Hz. split.
  - intros H v Hv. destruct (vertex_pe ps v Hsh Hv) as (p & Hp & Hl & Ho). assert (p ∈ ps) as Hin by (rewrite aget_nat in Hp by done; by eapply list_elem_of_lookup_2). pose proof (proj1 (proj2 (count_if_zero b (f1 p) (f2 p))) (H p Hin)) as Hb.
    pose proof (array_vertex f1 ps F1 p v H1 Hp Hl) as E1. pose proof (array_vertex f2 ps F2 p v H2 Hp Hl) as E2. rewrite aget_nat in E1, E2 by lia. by apply (Hb (Z.to_nat (LOCAL v))).
  - intros H p [k Hk]%list_elem_of_lookup. apply count_if_zero. intros i x y Hx Hy. assert (aget ps (Z.of_nat k) = Some p) as Hp by (by rewrite aget_nat, Nat2Z.id by lia).
    destruct (H1 _ _ Hp) as [L1 G1]. destruct (H2 _ _ Hp) as [L2 G2]. pose proof (lookup_lt_Some _ _ _ Hx) as Hlt. assert (0 ≤ Z.of_nat i < nlocalverts (vgraph p)) as Hi by (unfold zlen in L1; lia).
    specialize (G1 _ Hi). specialize (G2 _ Hi). rewrite aget_nat, Nat2Z.id, Hx in G1 by lia. rewrite aget_nat, Nat2Z.id, Hy in G2 by lia. injection G1 as ->. injection G2 as ->. apply H. by destruct (pe_vertex ps _ p _ Hsh Hp Hi).
Qed.

(** ** Messages *)

Definition nloc (r : Z) : Z := LOCAL (N + num_pes - 1 - r).
(** Messages of all processes, for each of their vertices: [f u] are those of [u]. *)
Definition per_vertex {M} (f : Z → list M) : list M := concat ((λ r, concat ((λ i, f (GLOBAL r i)) <$> seqZ 0 (nloc r))) <$> seqZ 0 (num_pes)).
Lemma shape_nloc ps r p : shape ps → aget ps r = Some p → nlocalverts (vgraph p) = nloc r.
Proof using Hnum HG. intros [_ Hs] Hp. apply (gr_local _ _ _ _ HG). by apply Hs. Qed.
Lemma sends_per_vertex {M} (sends : Z → vpe → option (list M)) (one : Z → vpe → Z → option (list M)) (f : Z → list M) ps : shape ps →
  (∀ r p, sends r p = (mss ← mapM (one r p) (seqZ 0 (nlocalverts (vgraph p))); Some (concat mss))) →
  (∀ r p i, aget ps r = Some p → 0 ≤ i < nlocalverts (vgraph p) → one r p i = Some (f (GLOBAL r i))) →
  all_sends sends ps = Some (per_vertex f).
Proof using Hnum HG.
  intros Hsh Hs Ho. unfold per_vertex. rewrite (all_sends_spec sends (λ r, concat ((λ i, f (GLOBAL r i)) <$> seqZ 0 (nloc r)))).
  - do 4 f_equal. destruct Hsh as [Hl _]. rewrite Hl. apply (gr_len _ _ _ _ HG).
  - intros r p Hp. rewrite Hs. rewrite (mapM_pointwise _ (λ i, f (GLOBAL r i))); [|intros i Hi%elem_of_seqZ; apply Ho; [done|lia]]. cbn [mbind option_bind]. by rewrite (shape_nloc ps r p Hsh Hp).
Qed.
Lemma nloc_valid r i : 0 ≤ r < num_pes → 0 ≤ i < nloc r → valid (GLOBAL r i) ∧ OWNER (GLOBAL r i) = r ∧ LOCAL (GLOBAL r i) = i.
Proof using Hnum HG.
  intros Hr Hi. destruct (aget_some gs r) as [g Hg]; [by rewrite (gr_len _ _ _ _ HG)|]. apply (global_valid num_pes Hnum gs N adj HG r g i Hg). by rewrite (proj1 (gr_local _ _ _ _ HG _ _ Hg)).
Qed.
Lemma elem_per_vertex {M} (f : Z → list M) m : m ∈ per_vertex f ↔ ∃ u, valid u ∧ m ∈ f u.
Proof using Hnum HG.
  unfold per_vertex. rewrite list_elem_of_In, in_concat. setoid_rewrite <- list_elem_of_In. split.
  - intros (x & (r & -> & Hr%elem_of_seqZ)%list_elem_of_fmap & Hm). apply list_elem_of_In, in_concat in Hm as (y & Hy & Hm). apply list_elem_of_In in Hy, Hm. apply list_elem_of_fmap in Hy as (i & -> & Hi%elem_of_seqZ). exists (GLOBAL r i). split; [|done]. apply nloc_valid; lia.
  - intros (u & Hu & Hm). eexists. split; [apply list_elem_of_fmap; exists (OWNER u); split; [reflexivity|]; apply elem_of_seqZ; pose proof (owner_range num_pes Hnum u); lia|].
    apply list_elem_of_In, in_concat. exists (f u). split; [|by apply list_elem_of_In]. apply list_elem_of_In, list_elem_of_fmap. exists (LOCAL u). split; [by rewrite to_global|]. apply elem_of_seqZ. pose proof (local_bound num_pes Hnum u N (OWNER u) eq_refl Hu) as Hl. unfold nloc. lia.
Qed.

(** ** Depths *)

Lemma depth_msgs ps P D C k : vsys ps P D C → ∃ ms, all_sends (depth_sends num_pes k) ps = Some ms ∧ ∀ m, m ∈ ms ↔ ∃ u w, valid u ∧ D u = k ∧ w ∈ adj u ∧ visits num_pes m u w.
Proof using Hnum HG.
  intros (Hsh & _ & HD & _). eexists. split.
  - apply (sends_per_vertex _ (λ r p, depth_row num_pes r k p) (λ u, if D u =? k then map (λ w, mkMsg (OWNER u) (OWNER w) (LOCAL w) (LOCAL u)) (adj u) else []) ps Hsh); [done|].
    intros r p i Hp Hi. unfold depth_row. rewrite (proj2 (HD r p Hp) i Hi). cbn [mbind option_bind]. destruct (_ =? _); [|done]. destruct (pe_vertex ps r p i Hsh Hp Hi) as (Hv & Eo & El).
    destruct (gr_row _ _ _ _ HG (GLOBAL r i) Hv (vgraph p)) as (_ & Er & _); [rewrite Eo; by apply Hsh|]. rewrite El in Er. rewrite Er. cbn [mbind option_bind]. f_equal. apply map_ext_in. intros w Hw%list_elem_of_In. pose proof (gr_adj _ _ _ _ HG _ _ Hv Hw) as Hw'.
    assert (visits num_pes (send_visit num_pes r w i) (GLOBAL r i) w) as Hs by (eapply (send_visits num_pes Hnum gs N adj HG); [by apply Hsh|done|done]). unfold visits in Hs. rewrite Eo, El in Hs |- *. exact Hs.
  - intros m. rewrite elem_per_vertex. split.
    + intros (u & Hu & Hm). destruct (Z.eqb_spec (D u) k) as [E|]; [|by apply elem_of_nil in Hm]. apply list_elem_of_In, in_map_iff in Hm as (w & <- & Hw%list_elem_of_In). by exists u, w.
    + intros (u & w & Hu & E & Hw & Hm). exists u. split; [done|]. rewrite (proj2 (Z.eqb_eq _ _) E). apply list_elem_of_In, in_map_iff. exists w. split; [by symmetry|]. by apply list_elem_of_In.
Qed.

(** The vertices that a list of messages reaches *)
Definition hit (P D : Z → Z) (ms : list visitmsg) (v : Z) : Prop := valid v ∧ D v = FLT_MAX ∧ ∃ m, m ∈ ms ∧ visits num_pes m (P v) v.
Lemma visits_inj2 m u v u' v' : visits num_pes m u v → visits num_pes m u' v' → u = u' ∧ v = v'.
Proof using Hnum. unfold visits. intros -> [= E1 E2 E3 E4]. rewrite <- (to_global num_pes Hnum u), <- (to_global num_pes Hnum v), <- (to_global num_pes Hnum u'), <- (to_global num_pes Hnum v'). split; congruence. Qed.
Record depth_inv (P D C : Z → Z) (k e : Z) (ms : list visitmsg) (ps : list vpe) : Prop := {
  di_sys : ∃ D', vsys ps P D' C ∧ ∀ v, valid v → (hit P D ms v ∧ D' v = k + 1) ∨ (¬ hit P D ms v ∧ D' v = D v);
  di_sum : 0 ≤ allsum newvisits ps ∧ (allsum newvisits ps = 0 ↔ ∀ v, ¬ hit P D ms v);
  di_errors : allsum val_errors ps = e
}.
Lemma hit_snoc P D ms m u w v : visits num_pes m u w → valid w → hit P D (ms ++ [m]) v ↔ hit P D ms v ∨ (v = w ∧ D w = FLT_MAX ∧ P w = u).
Proof using Hnum.
  intros Hm Hw. unfold hit. split.
  - intros (Hv & HD & x & Hx & Hvis). apply elem_of_app in Hx as [Hx|Hx]; [left; split; [done|]; split; [done|by exists x]|]. right. apply elem_of_cons in Hx as [-> |Hx]; [|by apply elem_of_nil in Hx]. destruct (visits_inj2 _ _ _ _ _ Hm Hvis) as [-> ->]. done.
  - intros [(Hv & HD & x & Hx & Hvis)|(-> & HD & <-)].
    + split; [done|]. split; [done|]. exists x. split; [apply elem_of_app; by left|done].
    + split; [done|]. split; [done|]. exists m. split; [apply elem_of_app; right; by left|done].
Qed.
Lemma depth_inv_same P D C k e ms m ps : depth_inv P D C k e ms ps → (∀ v, hit P D (ms ++ [m]) v ↔ hit P D ms v) → depth_inv P D C k e (ms ++ [m]) ps.
Proof using Type.
  intros [(D' & HD & HD') [H1 H2] H3] He. split; [|split; [done|]|done].
  - exists D'. split; [done|]. intros v Hv. rewrite He. by apply HD'.
  - rewrite H2. by setoid_rewrite He.
Qed.
Lemma depth_deliver P D C k e ms m u w ps : 0 ≤ k < 2 ^ 24 → depth_inv P D C k e ms ps → visits num_pes m u w → valid w →
  ∃ p p', aget ps (to m) = Some p ∧ frompredhndl num_pes k p m = Some p' ∧ depth_inv P D C k e (ms ++ [m]) (<[Z.to_nat (to m) := p']> ps).
Proof using Hnum HG.
  intros Hk HI Hm Hw. pose proof HI as [(D' & HS & HD') [Hs0 Hs] He]. pose proof HS as (Hsh & HP & HDa & HC). destruct (vertex_pe ps w Hsh Hw) as (p & Hp & Hl & Ho). pose proof (hit_snoc P D ms m u w) as Hsn.
  rewrite Hm. cbn [to]. exists p. unfold frompredhndl. cbn [vloc from vfrom]. rewrite (array_vertex _ _ _ _ _ HP Hp Hl), (to_global num_pes Hnum u). cbn [mbind option_bind]. rewrite <- Hm.
  assert (<[Z.to_nat (OWNER w) := p]> ps = ps) as Eid by (apply list_insert_id; rewrite aget_nat in Hp by done; done). destruct (Z.eqb_spec (P w) u) as [Eu|Eu]; cbn [negb].
  2:{ exists p. split; [done|]. split; [done|]. rewrite Eid. apply depth_inv_same; [done|]. intros v. rewrite (Hsn v Hm Hw). clear -Eu. tauto. }
  rewrite (array_vertex _ _ _ _ _ HDa Hp Hl). cbn [mbind option_bind]. pose proof max_large as Hmax. destruct (HD' w Hw) as [[Hh E]|[Hh E]].
  - rewrite (proj2 (Z.eqb_neq (D' w) FLT_MAX)) by lia. cbn [negb]. exists p. split; [done|]. split; [done|]. rewrite Eid. apply depth_inv_same; [done|]. intros v. rewrite (Hsn v Hm Hw). split; [|by left]. intros [?|(-> & _)]; done.
  - rewrite E. destruct (Z.eqb_spec (D w) FLT_MAX) as [Emax|Emax]; cbn [negb].
    2:{ exists p. split; [done|]. split; [done|]. rewrite Eid. apply depth_inv_same; [done|]. intros v. rewrite (Hsn v Hm Hw). clear -Emax. tauto. }
    destruct (aset_spec (globdist p) (LOCAL w) (fadd k 1)) as (a & Ea & _); [rewrite (proj1 (HDa _ _ Hp)); lia|]. rewrite Ea. cbn [mbind option_bind]. eexists. split; [done|]. split; [done|]. set (p' := set_visits _ _).
    assert (ps !! Z.to_nat (OWNER w) = Some p) as Hk' by (rewrite aget_nat in Hp by done; done). split.
    + exists (upd D' w (k + 1)). split.
      * split_and!; [by eapply shape_insert|by eapply array_keep| |by eapply array_keep]. rewrite <- (fadd_small k) by lia. by eapply (array_set globdist).
      * intros v Hv. rewrite (Hsn v Hm Hw). unfold upd. destruct (decide (v = w)) as [-> |Hne]; [left; split; [right; done|done]|]. destruct (HD' v Hv) as [[Hh' E']|[Hh' E']]; [left; split; [by left|done]|right]. split; [|done]. intros [?|[? _]]; done.
    + rewrite (allsum_insert newvisits ps _ p p' Hk'). cbn [p' set_visits set_dist newvisits]. split; [lia|]. split; [lia|]. intros Hno. exfalso. apply (Hno w). apply (Hsn w Hm Hw). by right.
    + rewrite (allsum_insert val_errors ps _ p p' Hk'). cbn [p' set_visits set_dist val_errors]. lia.
Qed.

(** One level: the vertices whose predecessor is at depth [k] and has an edge to them *)
Definition reached (P D : Z → Z) (k v : Z) : Prop := valid v ∧ D v = FLT_MAX ∧ valid (P v) ∧ D (P v) = k ∧ v ∈ adj (P v).
Definition level (P D : Z → Z) (k : Z) (D' : Z → Z) : Prop := ∀ v, valid v → (reached P D k v ∧ D' v = k + 1) ∨ (¬ reached P D k v ∧ D' v = D v).
Lemma depth_round (sched : nat → list visitmsg → list visitmsg) fuel ps P D C k : vsys ps P D C → 0 ≤ k < 2 ^ 24 → (∀ n l, sched n l ≡ₚ l) →
  ∃ ms ps' D', all_sends (depth_sends num_pes k) (set_visits 0 <$> ps) = Some ms ∧ foldl (deliver_to to (frompredhndl num_pes k)) (Some (set_visits 0 <$> ps)) (sched fuel ms) = Some ps' ∧
    vsys ps' P D' C ∧ level P D k D' ∧ (allsum newvisits ps' = 0 ↔ ∀ v, ¬ reached P D k v) ∧ allsum val_errors ps' = allsum val_errors ps.
Proof using Hnum HG.
  intros HS Hk Hsched. assert (vsys (set_visits 0 <$> ps) P D C) as HS0 by (by apply vsys_fmap). destruct (depth_msgs _ P D C k HS0) as (ms & Ems & Hms).
  destruct (deliver_fold id to (frompredhndl num_pes k) (depth_inv P D C k (allsum val_errors ps)) (sched fuel ms) [] (set_visits 0 <$> ps)) as (ps' & E & [(D' & HS' & HD') [_ Hz] He]).
  - assert (∀ v, ¬ hit P D [] v) as Hno by (intros v (_ & _ & m & Hm & _); by apply elem_of_nil in Hm). split.
    + exists D. split; [done|]. intros v Hv. right. split; [apply Hno|done].
    + rewrite (allsum_const newvisits (set_visits 0) 0 ps) by done. split; [lia|]. split; [done|lia].
    + by apply allsum_same.
  - intros done m qs Hm HI. rewrite (Hsched fuel ms) in Hm. apply Hms in Hm as (u & w & Hu & _ & Hw & Hm). eapply depth_deliver; [done|done|exact Hm|]. by eapply (gr_adj _ _ _ _ HG).
  - rewrite list_fmap_id in E. cbn [app] in HD', Hz. assert (∀ v, hit P D (sched fuel ms) v ↔ reached P D k v) as Hr.
    { intros v. unfold hit, reached. setoid_rewrite (Hsched fuel ms). setoid_rewrite Hms. split.
      - intros (Hv & HD & m & (u & w & Hu & Ek & Hw & Hm) & Hm'). destruct (visits_inj2 _ _ _ _ _ Hm Hm') as [-> ->]. done.
      - intros (Hv & HD & Hp & Ek & Ha). split; [done|]. split; [done|]. eexists. split; [|reflexivity]. by exists (P v), v. }
    exists ms, ps', D'. split; [done|]. split; [done|]. split; [done|]. split; [|split; [|done]].
    + intros v Hv. rewrite <- Hr. by apply HD'.
    + rewrite Hz. by setoid_rewrite Hr.
Qed.

Definition undecided (D : Z → Z) : nat := length (filter (λ v, D v = FLT_MAX) (seqZ 0 N)).
Lemma filter_fewer (p q : Z → Prop) `{!∀ x, Decision (p x), !∀ x, Decision (q x)} l : (∀ x, x ∈ l → p x → q x) → (∃ x, x ∈ l ∧ q x ∧ ¬ p x) → (length (filter p l) < length (filter q l))%nat.
Proof using Type.
  intros Hpq. assert (∀ l, (∀ x, x ∈ l → p x → q x) → (length (filter p l) ≤ length (filter q l))%nat) as Hle.
  { clear. intros l. induction l as [|x l IH]; intros Hpq; [done|]. rewrite !filter_cons. specialize (IH (λ y Hy, Hpq y (list_elem_of_further _ _ _ Hy))). destruct (decide (p x)) as [Hp|Hp]; destruct (decide (q x)) as [Hq|Hq]; cbn; try lia. exfalso. apply Hq, Hpq; [by left|done]. }
  intros (x & Hx & Hq & Hp). apply list_elem_of_split in Hx as (l1 & l2 & ->). rewrite !filter_app, !filter_cons, !length_app. rewrite decide_False, decide_True by done. cbn.
  pose proof (Hle l1 (λ y Hy, Hpq y ltac:(apply elem_of_app; by left))). pose proof (Hle l2 (λ y Hy, Hpq y ltac:(apply elem_of_app; right; by right))). lia.
Qed.
Lemma level_fewer P D k D' : 0 ≤ k < 2 ^ 24 → level P D k D' → (∃ v, reached P D k v) → (undecided D' < undecided D)%nat.
Proof using Type.
  intros Hk HL (v & Hv). pose proof max_large as Hmax. apply filter_fewer.
  - intros x Hx%elem_of_seqZ E. destruct (HL x) as [[_ E']|[_ E']]; [unfold BfsSpec.valid; lia|lia|congruence].
  - exists v. pose proof Hv as (Hval & HD & _). unfold BfsSpec.valid in Hval. split; [apply elem_of_seqZ; lia|]. split; [done|]. destruct (HL v Hval) as [[_ E']|[Hn _]]; [lia|done].
Qed.
Lemma depth_loop_spec (sched : nat → list visitmsg → list visitmsg) (J : Z → (Z → Z) → Prop) P C : (∀ n l, sched n l ≡ₚ l) →
  (∀ k D D', 0 ≤ k → k + 1 < 2 ^ 24 → J k D → level P D (k + 1) D' → J (k + 1) D') →
  ∀ fuel k D ps, vsys ps P D C → 0 ≤ k → k + 1 + Z.of_nat (undecided D) < 2 ^ 24 → (undecided D < fuel)%nat → J k D →
  ∃ ps' k' D', depth_loop num_pes sched fuel k ps = Some ps' ∧ vsys ps' P D' C ∧ 0 ≤ k' ∧ k' + 1 < 2 ^ 24 ∧ J k' D' ∧ (∀ v, ¬ reached P D' (k' + 1) v) ∧ allsum val_errors ps' = allsum val_errors ps.
Proof using Hnum HG.
  intros Hsched HJ fuel. induction fuel as [|fuel IH]; intros k D ps HS Hk Hb Hf HJk; [lia|]. cbn [depth_loop]. rewrite fadd_small by lia. rewrite (proj2 (Z.leb_gt _ _)) by lia.
  destruct (depth_round sched fuel ps P D C (k + 1) HS ltac:(lia) Hsched) as (ms & ps' & D' & -> & E & HS' & HL & Hz & He). cbn [mbind option_bind]. rewrite E. cbn [mbind option_bind].
  destruct (Z.eqb_spec (allsum newvisits ps') 0) as [Hn|Hn].
  - pose proof (proj1 Hz Hn) as Hno. exists ps', k, D. split; [done|]. split; [|split; [done|]; split; [lia|done]]. destruct HS' as (H1 & H2 & H3 & H4). split_and!; try done. eapply array_ext; [done|done|]. intros v Hv. destruct (HL v Hv) as [[Hr _]|[_ ?]]; [by destruct (Hno v)|done].
  - assert (∃ v, reached P D (k + 1) v) as Hex.
    { destruct (decide (Exists (λ v, D v = FLT_MAX ∧ 0 ≤ P v < N ∧ D (P v) = k + 1 ∧ v ∈ adj (P v)) (seqZ 0 N))) as [(v & Hv%elem_of_seqZ & H1 & H2 & H3 & H4)%Exists_exists|Hno]; [exists v; unfold reached, BfsSpec.valid; split_and!; try done; lia|].
      exfalso. apply Hn. apply (proj2 Hz). intros v (Hv & H1 & H2 & H3 & H4). apply Hno, Exists_exists. exists v. unfold BfsSpec.valid in *. split; [apply elem_of_seqZ; lia|]. done. }
    pose proof (level_fewer P D (k + 1) D' ltac:(lia) HL Hex) as Hlt. destruct (IH (k + 1) D' ps' HS') as (ps2 & k' & D2 & E2 & H1 & H2 & H3 & H4 & H5 & H6); [lia|lia|lia|by apply (HJ k D D'); [lia|lia|..]|].
    exists ps2, k', D2. split_and!; try done. congruence.
Qed.

(** The distances at the start *)
Definition dist0 (root : Z) (P : Z → Z) (v : Z) : Z := if decide (v = root) then 0 else first_dist root (P v).
Lemma depth_start_spec root ps P C : valid root → shape ps → array_of globpred ps P → array_of confirmed ps C →
  ∃ ps', each (depth_start num_pes root) ps = Some ps' ∧ vsys ps' P (dist0 root P) C ∧ allsum val_errors ps' = allsum val_errors ps.
Proof using Hnum HG.
  intros Hroot Hsh HP HC. assert (∀ r p, aget ps r = Some p → ∃ a, depth_start num_pes root r p = Some (set_dist a p) ∧ arr r (nlocalverts (vgraph p)) a (dist0 root P)) as Hone.
  { intros r p Hp. unfold depth_start. destruct (HP r p Hp) as [Hl Hi]. assert (∀ i, 0 ≤ i < nlocalverts (vgraph p) → aget (first_dist root <$> globpred p) i = Some (first_dist root (P (GLOBAL r i)))) as Hm by (intros i Hir; specialize (Hi i Hir); rewrite aget_nat in Hi |- * by lia; by rewrite list_lookup_fmap, Hi).
    assert (zlen (first_dist root <$> globpred p) = nlocalverts (vgraph p)) as Hlm by (unfold zlen in *; by rewrite length_fmap). destruct (Z.eqb_spec r (OWNER root)) as [-> |Hne].
    - destruct (vertex_pe ps root Hsh Hroot) as (p2 & Hp2 & Hloc & _). rewrite Hp in Hp2. injection Hp2 as <-. destruct (aset_spec (first_dist root <$> globpred p) (LOCAL root) 0) as (a & -> & La & Ga); [lia|]. cbn [mbind option_bind]. exists a. split; [done|]. split; [lia|].
      intros i Hir. rewrite Ga. destruct (pe_vertex ps _ p i Hsh Hp Hir) as (_ & _ & El). unfold dist0. destruct (decide (i = LOCAL root)) as [-> |Hni]; [by rewrite to_global, decide_True by done|]. rewrite decide_False by (intros E; apply Hni; by rewrite <- El, E). by apply Hm.
    - cbn [mbind option_bind]. eexists. split; [done|]. split; [done|]. intros i Hir. rewrite Hm by done. destruct (pe_vertex ps _ p i Hsh Hp Hir) as (_ & Eo & _). unfold dist0. rewrite decide_False by (intros E; apply Hne; by rewrite <- Eo, E). done. }
  destruct (each_back (depth_start num_pes root) ps) as (ps' & E & Hl & Hb); [intros r p Hp; destruct (Hone r p Hp) as (a & E & _); by eexists|]. exists ps'. split; [done|].
  assert (∀ r p', aget ps' r = Some p' → ∃ p a, aget ps r = Some p ∧ p' = set_dist a p ∧ arr r (nlocalverts (vgraph p)) a (dist0 root P)) as Hb' by (intros r p' Hp'; destruct (Hb r p' Hp') as (p & Hp & Ef); destruct (Hone r p Hp) as (a & Ea & Ha); exists p, a; split_and!; [done|congruence|done]).
  split; [split_and!|].
  - destruct Hsh as [Hsl Hs]. split; [lia|]. intros r p' (p & a & Hp & -> & _)%Hb'. exact (Hs r p Hp).
  - intros r p' (p & a & Hp & -> & _)%Hb'. exact (HP r p Hp).
  - intros r p' (p & a & Hp & -> & Ha)%Hb'. done.
  - intros r p' (p & a & Hp & -> & _)%Hb'. exact (HC r p Hp).
  - unfold allsum. f_equal. symmetry. apply list_get_eq; [unfold zlen in *; rewrite !length_fmap; lia|]. intros r x Hx. pose proof (aget_lt _ _ _ Hx) as Hr. rewrite aget_nat in Hx |- * by lia. rewrite list_lookup_fmap in Hx |- *. unfold zlen in Hr. rewrite length_fmap in Hr.
    destruct (lookup_lt_is_Some_2 ps' (Z.to_nat r)) as [p' Hp']; [unfold zlen in Hl; lia|]. rewrite Hp'. destruct (Hb' r p') as (p & a & Hp & -> & _); [by rewrite aget_nat by lia|]. rewrite aget_nat in Hp by lia. rewrite Hp in Hx. done.
Qed.

(** ** The root *)

Lemma root_check_spec root ps P D C : valid root → vsys ps P D C → ∃ ps', each (root_check num_pes root) ps = Some ps' ∧
  ((P root = root ∧ D root = 0 ∧ vsys ps' P D (upd C root 1) ∧ allsum val_errors ps' = allsum val_errors ps) ∨
   (¬ (P root = root ∧ D root = 0) ∧ vsys ps' P D C ∧ allsum val_errors ps' = allsum val_errors ps + 1)).
Proof using Hnum HG.
  intros Hroot HS. pose proof HS as (Hsh & HP & HD & HC). destruct (vertex_pe ps root Hsh Hroot) as (p & Hp & Hl & Ho). pose proof (array_vertex _ _ _ _ _ HP Hp Hl) as EP. pose proof (array_vertex _ _ _ _ _ HD Hp Hl) as ED.
  assert (ps !! Z.to_nat (OWNER root) = Some p) as Hk by (rewrite aget_nat in Hp by done; done). destruct (aset_spec (confirmed p) (LOCAL root) 1) as (a & Ea & _); [rewrite (proj1 (HC _ _ Hp)); lia|].
  assert (∀ p', root_check num_pes root (OWNER root) p = Some p' → each (root_check num_pes root) ps = Some (<[Z.to_nat (OWNER root) := p']> ps)) as Heach.
  { intros p' Ep'. assert (∀ r q, r ≠ OWNER root → root_check num_pes root r q = Some q) as Hne by (intros r q Hr; unfold root_check; by rewrite (proj2 (Z.eqb_neq _ _) Hr)).
    destruct (each_back (root_check num_pes root) ps) as (ps' & E & Hlen & Hb); [intros r q Hq; destruct (decide (r = OWNER root)) as [-> |Hr]; [rewrite Hp in Hq; injection Hq as <-; by eexists|rewrite Hne by done; by eexists]|].
    rewrite E. f_equal. apply list_get_eq; [unfold zlen in *; by rewrite length_insert|]. intros r q Hq. rewrite (insert_get ps _ p p' Hp). destruct (Hb r q Hq) as (q0 & Hq0 & Ef). destruct (decide (r = OWNER root)) as [-> |Hr]; [congruence|]. rewrite Hne in Ef by done. congruence. }
  unfold root_check at 1 in Heach. rewrite Z.eqb_refl, EP, ED in Heach. cbn [mbind option_bind] in Heach. destruct (negb (P root =? root) || negb (D root =? 0)) eqn:Eb.
  - eexists. split; [by apply Heach|]. right. split; [intros [E1 E2]; rewrite E1, E2, Z.eqb_refl in Eb; done|]. split; [|rewrite (allsum_insert _ _ _ p) by done; cbn; lia]. split_and!; [by eapply shape_insert|by eapply array_keep..].
  - rewrite Ea in Heach. cbn [mbind option_bind] in Heach. eexists. split; [by apply Heach|]. left. apply orb_false_iff in Eb as [E1%negb_false_iff%Z.eqb_eq E2%negb_false_iff%Z.eqb_eq]. split; [done|]. split; [done|]. split; [|rewrite (allsum_insert _ _ _ p) by done; cbn; lia].
    split_and!; [by eapply shape_insert|by eapply array_keep|by eapply array_keep|]. by eapply (array_set confirmed).
Qed.

(** ** Edges *)

Definition arcs : list (Z * Z) := per_vertex (λ u, (u,.) <$> adj u).
Definition emsg (P D : Z → Z) (a : Z * Z) : edgedist := mkEdge (OWNER a.1) (OWNER a.2) (LOCAL a.1) (LOCAL a.2) (P a.1) (D a.1).
Lemma elem_arcs a : a ∈ arcs ↔ valid a.1 ∧ a.2 ∈ adj a.1.
Proof using Hnum HG.
  unfold arcs. rewrite elem_per_vertex. split.
  - intros (u & Hu & (w & -> & Hw)%list_elem_of_fmap). done.
  - intros [Hu Hw]. exists a.1. split; [done|]. apply list_elem_of_fmap. exists a.2. split; [by destruct a|done].
Qed.
Lemma per_vertex_fmap {A B} (h : A → B) (f : Z → list A) : h <$> per_vertex f = per_vertex (λ u, h <$> f u).
Proof using Type.
  unfold per_vertex. etrans; [apply concat_map|]. f_equal. etrans; [symmetry; apply list_fmap_compose|]. apply list_fmap_ext. intros _ r _. unfold compose. etrans; [apply concat_map|]. f_equal. symmetry. apply list_fmap_compose.
Qed.
Lemma local_small w : valid w → 0 ≤ LOCAL w < 2 ^ 31.
Proof using Hnum HG. intros Hw. destruct (valid_local num_pes Hnum gs N adj HG w Hw) as (g & Hg & Hl). pose proof (proj2 (gr_local _ _ _ _ HG _ _ Hg)). lia. Qed.
Lemma edge_msgs_spec ps P D C : vsys ps P D C → all_sends (edge_msgs num_pes) ps = Some (emsg P D <$> arcs).
Proof using Hnum HG.
  intros (Hsh & HP & HD & _). unfold arcs. rewrite per_vertex_fmap. apply (sends_per_vertex _ (λ r p, edge_row num_pes r p)); [done|done|]. intros r p i Hp Hi. unfold edge_row. destruct (pe_vertex ps r p i Hsh Hp Hi) as (Hv & Eo & El).
  destruct (gr_row _ _ _ _ HG (GLOBAL r i) Hv (vgraph p)) as (Er & _); [rewrite Eo; by apply Hsh|]. rewrite El in Er. unfold row in Er. rewrite Er. cbn [mbind option_bind]. rewrite <- list_fmap_compose. apply mapM_pointwise. intros w Hw. pose proof (local_small w (gr_adj _ _ _ _ HG _ _ Hv Hw)) as Hsm.
  unfold sendedgepreddist. rewrite (proj2 (HP r p Hp) i Hi), (proj2 (HD r p Hp) i Hi). cbn [mbind option_bind]. unfold emsg, compose. cbn [fst snd]. rewrite Eo, El. by rewrite (wrapu_small 32) by (unfold in_u; lia).
Qed.

Section handler.
Context (P D C : Z → Z).
Definition skipped (a : Z * Z) : bool := (P a.1 =? -1) && (P a.2 =? -1).
Definition mixed (a : Z * Z) : bool := (P a.1 =? -1) || (P a.2 =? -1).
Definition counted (a : Z * Z) : bool := negb (skipped a) && (a.1 <? a.2).
Definition confirms (a : Z * Z) : bool := negb (mixed a) && ((P a.2 =? a.1) && (D a.2 =? fadd (D a.1) 1)).
Definition bad (a : Z * Z) : bool := negb (skipped a) && (mixed a || ((fadd (D a.1) 1 <? D a.2) || (fadd (D a.2) 1 <? D a.1))).
Definition tally (b : Z * Z → bool) (l : list (Z * Z)) : Z := zlen (filter (λ a, b a = true) l).
Lemma tally_snoc b l a : tally b (l ++ [a]) = tally b l + (if b a then 1 else 0).
Proof using Type. unfold tally. rewrite filter_app, zlen_app, filter_cons, filter_nil. destruct (b a); [by rewrite decide_True|]. by rewrite decide_False. Qed.
Record edge_inv (e : Z) (l : list (Z * Z)) (ps : list vpe) : Prop := {
  ei_sys : ∃ C', vsys ps P D C' ∧ ∀ v, valid v → C' v ≠ 0 ↔ C v ≠ 0 ∨ ∃ a, a ∈ l ∧ a.2 = v ∧ confirms a = true;
  ei_errors : allsum val_errors ps = e + tally bad l;
  ei_nedges : allsum nedges_traversed ps = tally counted l
}.
(** The effect of the handler, by its cases *)
Lemma handler_cases p a : aget (globpred p) (LOCAL a.2) = Some (P a.2) → aget (globdist p) (LOCAL a.2) = Some (D a.2) → (∃ c, aset (confirmed p) (LOCAL a.2) 1 = Some c) →
  ∃ p', edgepreddisthndl num_pes p (emsg P D a) = Some p' ∧ vgraph p' = vgraph p ∧ globpred p' = globpred p ∧ globdist p' = globdist p ∧
    (if confirms a then aset (confirmed p) (LOCAL a.2) 1 = Some (confirmed p') else confirmed p' = confirmed p) ∧
    val_errors p' = val_errors p + (if bad a then 1 else 0) ∧ nedges_traversed p' = nedges_traversed p + (if counted a then 1 else 0).
Proof using Hnum.
  intros Hx HD [c Hc]. unfold edgepreddisthndl, confirms, bad, counted. cbn [evloc eto efrom evfrom predfrom distfrom emsg]. rewrite Hx, HD, !(to_global num_pes Hnum). cbn [mbind option_bind]. fold (skipped a). fold (mixed a).
  destruct (skipped a) eqn:Es; [|destruct (mixed a) eqn:Em]; cbn [negb andb orb].
  - assert (mixed a = true) as -> by (unfold skipped in Es; unfold mixed; by apply andb_true_iff in Es as [-> _]). cbn. eexists. split; [done|]. split_and!; try done; lia.
  - eexists. split; [done|]. destruct (a.1 <? a.2); cbn; split_and!; try done; lia.
  - destruct ((P a.2 =? a.1) && (D a.2 =? fadd (D a.1) 1)); destruct (a.1 <? a.2); cbn [confirmed set_nedges]; rewrite ?Hc; cbn [mbind option_bind];
      destruct ((fadd (D a.1) 1 <? D a.2) || (fadd (D a.2) 1 <? D a.1)); (eexists; split; [done|]); cbn; split_and!; try done; lia.
Qed.
Lemma edge_deliver e l a ps : edge_inv e l ps → valid a.2 → ∃ p p', aget ps (eto (emsg P D a)) = Some p ∧ edgepreddisthndl num_pes p (emsg P D a) = Some p' ∧ edge_inv e (l ++ [a]) (<[Z.to_nat (eto (emsg P D a)) := p']> ps).
Proof using Hnum HG.
  intros [(C' & HS & HC') He Hn] Hv. pose proof HS as (Hsh & HP & HD & HC). destruct (vertex_pe ps a.2 Hsh Hv) as (p & Hp & Hl & Ho). destruct (aset_spec (confirmed p) (LOCAL a.2) 1) as (c & Ec & _); [rewrite (proj1 (HC _ _ Hp)); lia|].
  destruct (handler_cases p a) as (p' & E & E1 & E2 & E3 & E4 & E5 & E6); [by eapply (array_vertex globpred)|by eapply (array_vertex globdist)|by exists c|]. exists p, p'. split; [done|]. split; [done|]. cbn [eto emsg].
  assert (ps !! Z.to_nat (OWNER a.2) = Some p) as Hk by (rewrite aget_nat in Hp by done; done). split.
  - assert (∀ v, (∃ b, b ∈ l ++ [a] ∧ b.2 = v ∧ confirms b = true) ↔ (∃ b, b ∈ l ∧ b.2 = v ∧ confirms b = true) ∨ (a.2 = v ∧ confirms a = true)) as Hex.
    { intros v. split.
      - intros (b & Hb & H1 & H2). apply elem_of_app in Hb as [Hb|Hb]; [left; by exists b|]. right. apply elem_of_cons in Hb as [-> |Hb]; [done|by apply elem_of_nil in Hb].
      - intros [(b & Hb & H)|H]; [exists b; split; [apply elem_of_app; by left|done]|]. exists a. split; [apply elem_of_app; right; by left|done]. }
    destruct (confirms a) eqn:Ef.
    + exists (upd C' a.2 1). split; [split_and!; [by eapply shape_insert|by eapply array_keep|by eapply array_keep|by eapply (array_set confirmed)]|].
      intros v Hval. rewrite Hex. unfold upd. destruct (decide (v = a.2)) as [-> |Hne]; [split; [intros _; right; by right|lia]|]. rewrite (HC' v Hval). split; [intros [?|?]; [by left|right; by left]|]. intros [?|[?|[? _]]]; [by left|by right|congruence].
    + exists C'. split; [split_and!; [by eapply shape_insert|by eapply array_keep..]|]. intros v Hval. rewrite Hex, (HC' v Hval). split; [intros [?|?]; [by left|right; by left]|]. intros [?|[?|[_ ?]]]; [by left|by right|done].
  - rewrite (allsum_insert _ _ _ p p' Hk), tally_snoc. lia.
  - rewrite (allsum_insert _ _ _ p p' Hk), tally_snoc. lia.
Qed.
Lemma edge_phase (sched : list edgedist → list edgedist) ps : (∀ l, sched l ≡ₚ l) → vsys ps P D C → allsum nedges_traversed ps = 0 →
  ∃ ms ps' C', all_sends (edge_msgs num_pes) ps = Some ms ∧ foldl (deliver_to eto (edgepreddisthndl num_pes)) (Some ps) (sched ms) = Some ps' ∧ vsys ps' P D C' ∧
    (∀ v, valid v → C' v ≠ 0 ↔ C v ≠ 0 ∨ ∃ a, a ∈ arcs ∧ a.2 = v ∧ confirms a = true) ∧
    allsum val_errors ps' = allsum val_errors ps + tally bad arcs ∧ allsum nedges_traversed ps' = tally counted arcs.
Proof using Hnum HG.
  intros Hsched HS Hn. exists (emsg P D <$> arcs). destruct (Permutation_map_inv _ _ (Hsched (emsg P D <$> arcs))) as (l & El & Hl). apply Permutation_sym in Hl.
  destruct (deliver_fold (emsg P D) eto (edgepreddisthndl num_pes) (edge_inv (allsum val_errors ps)) l [] ps) as (ps' & E & [(C' & HS' & HC') He Hn']).
  - split; [exists C; split; [done|]|change (tally bad []) with 0; lia|done]. intros v _. split; [by left|]. intros [?|(a & Ha & _)]; [done|by apply elem_of_nil in Ha].
  - intros done a qs Ha HI. apply edge_deliver; [done|]. rewrite Hl in Ha. apply elem_arcs in Ha as [H1 H2]. by eapply (gr_adj _ _ _ _ HG).
  - cbn [app] in *. exists ps', C'. split; [by eapply edge_msgs_spec|]. change (map (emsg P D) l) with (emsg P D <$> l) in El. split; [etrans; [|exact E]; f_equal; exact El|]. split; [done|]. split; [intros v Hv; rewrite (HC' v Hv); by setoid_rewrite Hl|].
    assert (∀ b, tally b l = tally b arcs) as Ht by (intros b; unfold tally, zlen; by rewrite Hl). by rewrite <- !Ht.
Qed.
End handler.

(** ** The result *)

(** What is checked, of the predecessors [P] and the depths [D] *)
Record accepted (root : Z) (nedges_in : option Z) (P D : Z → Z) : Prop := {
  ac_dist : ∀ v, valid v → (D v = -1 ∨ 0 ≤ D v) ∧ (P v = -1 ↔ D v = -1);
  ac_root : P root = root ∧ D root = 0;
  ac_edges : ∀ a, a ∈ arcs → bad P D a = false;
  ac_confirmed : ∀ v, valid v → P v ≠ -1 → v = root ∨ ∃ a, a ∈ arcs ∧ a.2 = v ∧ confirms P D a = true;
  ac_nedges : match nedges_in with Some n => n = tally (counted P) arcs | None => True end
}.
Lemma tally_zero b l : 0 ≤ tally b l ∧ (tally b l = 0 ↔ ∀ a, a ∈ l → b a = false).
Proof using Type.
  unfold tally. split; [apply zlen_nonneg|]. split.
  - intros E a Ha. destruct (b a) eqn:Eb; [|done]. assert (a ∈ filter (λ a, b a = true) l) as Hin by by apply list_elem_of_filter. destruct (filter _ _) as [|x l0]; [by apply elem_of_nil in Hin|]. rewrite zlen_cons in E. pose proof (zlen_nonneg l0). lia.
  - intros H. destruct (filter _ _) as [|a l'] eqn:E; [done|]. assert (a ∈ filter (λ a, b a = true) l) as [Hb Ha]%list_elem_of_filter by (rewrite E; by left). by rewrite (H a Ha) in Hb.
Qed.
Lemma dist_errors_spec ps P D C : vsys ps P D C → 0 ≤ allsum dist_errors ps ∧ (allsum dist_errors ps = 0 ↔ ∀ v, valid v → (D v = -1 ∨ 0 ≤ D v) ∧ (P v = -1 ↔ D v = -1)).
Proof using Hnum HG.
  intros (Hsh & HP & HD & _). unfold dist_errors. rewrite allsum_plus. destruct (count_sys (λ _ d, negb (d =? -1) && (d <? 0)) globpred globdist ps P D Hsh HP HD) as [H1 H2].
  destruct (count_sys (λ a d, ((a =? -1) && negb (d =? -1)) || (negb (a =? -1) && (d =? -1))) globpred globdist ps P D Hsh HP HD) as [H3 H4]. split; [lia|]. split.
  - intros E v Hv. pose proof (proj1 H2 ltac:(lia) v Hv) as E1. pose proof (proj1 H4 ltac:(lia) v Hv) as E2. clear -E1 E2. destruct (Z.eqb_spec (D v) (-1)); destruct (Z.ltb_spec (D v) 0); destruct (Z.eqb_spec (P v) (-1)); cbn in *; try done; split; lia.
  - intros H. rewrite (proj2 H2), (proj2 H4); [done|..]; intros v Hv; specialize (H v Hv); clear -H; destruct (Z.eqb_spec (D v) (-1)); destruct (Z.ltb_spec (D v) 0); destruct (Z.eqb_spec (P v) (-1)); cbn in *; try done; lia.
Qed.
Lemma unconfirmed_spec ps P D C : vsys ps P D C → 0 ≤ allsum unconfirmed ps ∧ (allsum unconfirmed ps = 0 ↔ ∀ v, valid v → P v ≠ -1 → C v ≠ 0).
Proof using Hnum HG.
  intros (Hsh & HP & _ & HC). unfold unconfirmed. destruct (count_sys (λ c a, (c =? 0) && negb (a =? -1)) confirmed globpred ps C P Hsh HC HP) as [H1 H2]. split; [done|]. rewrite H2. split; intros H v Hv; specialize (H v Hv).
  - clear -H. destruct (Z.eqb_spec (C v) 0); destruct (Z.eqb_spec (P v) (-1)); cbn in H; done.
  - clear -H. destruct (Z.eqb_spec (C v) 0); destruct (Z.eqb_spec (P v) (-1)); cbn; [done| |done|done]. exfalso. by apply H.
Qed.
Lemma undecided_le D : 0 ≤ N → Z.of_nat (undecided D) ≤ N.
Proof using Type. intros HN. unfold undecided. pose proof (length_filter (λ v, D v = FLT_MAX) (seqZ 0 N)) as H. rewrite length_seqZ in H. lia. Qed.

(** From the depths on: the checks, and the sum of the errors *)
Definition check_phase (sched' : list edgedist → list edgedist) (root : Z) (nedges_in : option Z) (ps : list vpe) : option (bool * list vpe) :=
  let ps := (λ p, add_errors (dist_errors p) p) <$> ps in
  ps ← each (root_check num_pes root) ps;
  let ps := set_nedges 0 <$> ps in
  ms ← all_sends (edge_msgs num_pes) ps;
  ps ← foldl (deliver_to eto (edgepreddisthndl num_pes)) (Some ps) (sched' ms);
  let ps := (λ p, add_errors (unconfirmed p) p) <$> ps in
  let errors := allsum val_errors ps in
  let total := allsum nedges_traversed ps in
  let errors := match nedges_in with Some n => if negb (n =? total) then errors + 1 else errors | None => errors end in
  Some (negb (0 <? errors), (λ p, set_errors errors (set_nedges total p)) <$> ps).
Lemma check_phase_spec sched' root nedges_in ps P D : (∀ l, sched' l ≡ₚ l) → valid root → vsys ps P D (λ _, 0) → allsum val_errors ps = 0 →
  ∃ b ps' C, check_phase sched' root nedges_in ps = Some (b, ps') ∧ vsys ps' P D C ∧ (b = true ↔ accepted root nedges_in P D).
Proof using Hnum HG.
  intros Hsched Hroot HS He. destruct (dist_errors_spec ps P D _ HS) as [Hd0 Hd]. unfold check_phase. set (ps1 := (λ p, add_errors (dist_errors p) p) <$> ps).
  assert (vsys ps1 P D (λ _, 0)) as HS1 by by apply vsys_fmap. assert (allsum val_errors ps1 = allsum dist_errors ps) as He1 by (unfold ps1; rewrite (allsum_add val_errors dist_errors) by done; lia).
  destruct (root_check_spec root ps1 P D _ Hroot HS1) as (ps2 & -> & Hr). cbn [mbind option_bind]. set (ok := P root = root ∧ D root = 0).
  assert (∃ C2 e2, vsys ps2 P D C2 ∧ allsum val_errors ps2 = allsum val_errors ps1 + e2 ∧ ((ok ∧ e2 = 0 ∧ C2 = upd (λ _, 0) root 1) ∨ (¬ ok ∧ e2 = 1))) as (C2 & e2 & HS2 & He2 & Hok).
  { destruct Hr as [(H1 & H2 & H3 & H4)|(H1 & H2 & H3)]; [exists (upd (λ _, 0) root 1), 0|exists (λ _, 0), 1]; (split; [done|]; split; [lia|]); [left|right]; done. }
  clear Hr. destruct (edge_phase P D C2 sched' (set_nedges 0 <$> ps2) Hsched) as (ms & ps3 & C3 & -> & E3 & HS3 & HC3 & He3 & Hn3); [by apply vsys_fmap|by rewrite (allsum_const _ _ 0)|]. cbn [mbind option_bind]. rewrite E3. cbn [mbind option_bind].
  rewrite (allsum_same val_errors (set_nedges 0)) in He3 by done. destruct (unconfirmed_spec ps3 P D C3 HS3) as [Hu0 Hu]. destruct (tally_zero (bad P D) arcs) as [Hb0 Hb]. set (ps4 := (λ p, add_errors (unconfirmed p) p) <$> ps3).
  assert (allsum val_errors ps4 = allsum dist_errors ps + e2 + tally (bad P D) arcs + allsum unconfirmed ps3) as He4 by (unfold ps4; rewrite (allsum_add val_errors unconfirmed) by done; lia).
  assert (allsum nedges_traversed ps4 = tally (counted P) arcs) as Hn4 by (unfold ps4; by rewrite allsum_same). rewrite He4, Hn4. eexists _, _, C3. split; [reflexivity|]. split; [apply vsys_fmap; [|done]; by apply vsys_fmap|].
  set (e5 := match nedges_in with Some n => if negb (n =? tally (counted P) arcs) then 1 else 0 | None => 0 end).
  assert (e5 = 0 ↔ match nedges_in with Some n => n = tally (counted P) arcs | None => True end) as Hn5 by (unfold e5; destruct nedges_in as [n|]; [|done]; destruct (Z.eqb_spec n (tally (counted P) arcs)); done). assert (0 ≤ e5) as Hn50 by (unfold e5; destruct nedges_in; [|done]; by destruct (negb _)).
  assert ((match nedges_in with Some n => if negb (n =? tally (counted P) arcs) then allsum dist_errors ps + e2 + tally (bad P D) arcs + allsum unconfirmed ps3 + 1 else allsum dist_errors ps + e2 + tally (bad P D) arcs + allsum unconfirmed ps3 | None => allsum dist_errors ps + e2 + tally (bad P D) arcs + allsum unconfirmed ps3 end)
    = allsum dist_errors ps + e2 + tally (bad P D) arcs + allsum unconfirmed ps3 + e5) as -> by (unfold e5; destruct nedges_in; [destruct (negb _)|]; lia).
  rewrite negb_true_iff, Z.ltb_ge. split.
  - intros Hle. assert (0 ≤ e2) as He20 by (clear -Hok; destruct Hok as [(_ & -> & _)|(_ & ->)]; lia). destruct Hok as [(Hroot' & -> & ->)|(_ & ->)]; [|lia]. split; [apply Hd; lia|done|apply Hb; lia| |apply Hn5; lia].
    intros v Hv HPv. pose proof (proj1 Hu ltac:(lia) v Hv HPv) as Hc. apply (HC3 v Hv) in Hc as [Hc|?]; [|by right]. left. unfold upd in Hc. by case_decide.
  - intros [H1 H2 H3 H4 H5]. rewrite (proj2 Hd H1), (proj2 Hb H3), (proj2 Hn5 H5). destruct Hok as [(_ & -> & ->)|(Hno & _)]; [|done]. rewrite (proj2 Hu); [done|]. intros v Hv HPv. apply (HC3 v Hv). destruct (H4 v Hv HPv) as [-> |?]; [left|by right]. unfold upd. by rewrite decide_True.
Qed.
Lemma pred_errors_nonneg maxv p : 0 ≤ pred_errors maxv p.
Proof using Type. apply count_if_zero. Qed.
Lemma validate_spec (sched : nat → list visitmsg → list visitmsg) sched' fuel root nedges_in ps P (J : Z → (Z → Z) → Prop) : (∀ n l, sched n l ≡ₚ l) → (∀ l, sched' l ≡ₚ l) → valid root → N + 1 < 2 ^ 24 → N < Z.of_nat fuel →
  shape ps → array_of globpred ps P → allsum val_errors ps = 0 →
  J 0 (dist0 root P) → (∀ k D D', 0 ≤ k → k + 1 < 2 ^ 24 → J k D → level P D (k + 1) D' → J (k + 1) D') →
  let e := allsum (pred_errors (maxvertex num_pes ps)) ps in
  ∃ b ps', validate_result num_pes sched sched' fuel root nedges_in ps = Some (b, ps') ∧
    ((0 < e ∧ b = false) ∨ (e = 0 ∧ ∃ k D C, vsys ps' P D C ∧ 0 ≤ k ∧ k + 1 < 2 ^ 24 ∧ J k D ∧ (∀ v, ¬ reached P D (k + 1) v) ∧ (b = true ↔ accepted root nedges_in P D))).
Proof using Hnum HG.
  intros Hsched Hsched' Hroot HN Hfuel Hsh HP Hz HJ0 HJ e. unfold validate_result. set (maxv := maxvertex num_pes ps) in *. set (h := λ p, add_errors (pred_errors maxv p) (set_confirmed (replicate (Z.to_nat (nlocalverts (vgraph p))) 0) p)).
  assert (allsum val_errors (h <$> ps) = e) as -> by (rewrite (allsum_add val_errors (pred_errors maxv)) by done; lia). assert (0 ≤ e) as He0 by (apply allsum_zero; intros p _; apply pred_errors_nonneg).
  destruct (Z.ltb_spec 0 e) as [He|He]; [eexists _, _; split; [done|]; by left|]. set (ps0 := set_errors e <$> (h <$> ps)). assert (e = 0) as E0 by lia.
  assert (shape ps0) as Hsh0 by (apply shape_fmap; [by apply shape_fmap|done]). assert (array_of globpred ps0 P) as HP0 by (apply array_fmap; [by apply array_fmap|done|done]).
  assert (array_of confirmed ps0 (λ _, 0)) as HC0.
  { intros r p (p1 & (p2 & Hp2 & ->)%fmap_get & ->)%fmap_get. cbn. pose proof (proj1 (HP r p2 Hp2)) as Hl. split; [unfold zlen in *; rewrite length_replicate; lia|]. intros i Hi. by apply replicate_get. }
  assert (allsum val_errors ps0 = 0) as Hz0 by (unfold ps0; rewrite (allsum_const _ _ e) by done; lia).
  destruct (depth_start_spec root ps0 P _ Hroot Hsh0 HP0 HC0) as (ps1 & E1 & HS1 & He1). unfold makedepthmapforbfs. rewrite E1. cbn [mbind option_bind]. pose proof (undecided_le (dist0 root P)) as Hu. unfold BfsSpec.valid in Hroot.
  destruct (depth_loop_spec sched J P (λ _, 0) Hsched HJ fuel 0 (dist0 root P) ps1 HS1) as (ps2 & k & D & E2 & HS2 & Hk & Hk' & HJk & Hno & He2); [lia|lia|lia|done|]. rewrite E2. cbn [mbind option_bind].
  destruct (check_phase_spec sched' root nedges_in ps2 P D Hsched') as (b & ps' & C & E & HS' & Hb); [done|done|lia|]. exists b, ps'. split; [exact E|]. right. split; [done|]. by exists k, D, C.
Qed.

(** ** What is accepted *)

Context (Hsym : ∀ u v, v ∈ adj u → u ∈ adj v).

(** The depths are small, or not decided. *)
Definition depths_ok (k : Z) (D : Z → Z) : Prop := ∀ v, valid v → D v = FLT_MAX ∨ -1 ≤ D v ≤ k + 1.
Lemma depths_start root P : depths_ok 0 (dist0 root P).
Proof using Type. intros v _. unfold dist0, first_dist. case_decide; [lia|]. destruct (_ =? _); [lia|]. destruct (_ =? _); [lia|by left]. Qed.
Lemma depths_level P k D D' : 0 ≤ k → depths_ok k D → level P D (k + 1) D' → depths_ok (k + 1) D'.
Proof using Type. intros Hk HD HL v Hv. destruct (HL v Hv) as [[_ E]|[_ E]]; [lia|]. destruct (HD v Hv); [left; congruence|lia]. Qed.

Lemma bad_false P D a : bad P D a = false → (P a.1 = -1 ∧ P a.2 = -1) ∨ (P a.1 ≠ -1 ∧ P a.2 ≠ -1 ∧ D a.2 ≤ fadd (D a.1) 1 ∧ D a.1 ≤ fadd (D a.2) 1).
Proof using Type.
  unfold bad, skipped, mixed. destruct (Z.eqb_spec (P a.1) (-1)); destruct (Z.eqb_spec (P a.2) (-1)); cbn; try done; [by left|]. intros [H1%Z.ltb_ge H2%Z.ltb_ge]%orb_false_iff. right. done.
Qed.
Lemma confirms_true P D a : confirms P D a = true → P a.1 ≠ -1 ∧ P a.2 = a.1 ∧ D a.2 = fadd (D a.1) 1.
Proof using Type.
  unfold confirms, mixed. destruct (Z.eqb_spec (P a.1) (-1)); [done|]. destruct (Z.eqb_spec (P a.2) (-1)); [done|]. cbn. intros [H1%Z.eqb_eq H2%Z.eqb_eq]%andb_true_iff. done.
Qed.

Section sound.
Context (root : Z) (Hroot : valid root) (nin : option Z) (P D : Z → Z) (HA : accepted root nin P D) (k : Z) (Hk : 0 ≤ k) (Hk' : k + 1 < 2 ^ 24) (HD : depths_ok k D).

(** The depth is the length of a path along the predecessors. *)
Lemma depth_reach n : Z.of_nat n ≤ k + 1 → ∀ v, valid v → D v = Z.of_nat n → reach adj root n v ∧ P v ≠ -1 ∧ match n with O => v = root | S m => valid (P v) ∧ v ∈ adj (P v) ∧ D (P v) = Z.of_nat m end.
Proof using Hnum HG HA HD Hk Hk'.
  induction n as [|n IH]; intros Hn v Hv E; (assert (P v ≠ -1) as HP by (intros E'; apply (ac_dist _ _ _ _ HA v Hv) in E'; lia)).
  - destruct (ac_confirmed _ _ _ _ HA v Hv HP) as [-> |(a & [Ha1 Ha2]%elem_arcs & <- & Hc)]; [done|]. exfalso. apply confirms_true in Hc as (HP1 & _ & Ec). pose proof (ac_dist _ _ _ _ HA a.1 Ha1) as [Hd Hd']. destruct (HD a.1 Ha1) as [Em|Hr]; [rewrite Em, fadd_max in Ec; pose proof max_large; lia|].
    assert (D a.1 ≠ -1) by (intros E'; by apply HP1, Hd'). rewrite fadd_small in Ec by lia. lia.
  - destruct (ac_confirmed _ _ _ _ HA v Hv HP) as [-> |(a & [Ha1 Ha2]%elem_arcs & <- & Hc)]; [rewrite (proj2 (ac_root _ _ _ _ HA)) in E; lia|]. apply confirms_true in Hc as (HP1 & EP & Ec). pose proof (ac_dist _ _ _ _ HA a.1 Ha1) as [Hd Hd']. pose proof (HD a.2 Hv) as Hr2. pose proof max_large as Hmax.
    destruct (HD a.1 Ha1) as [Em|Hr]; [exfalso; rewrite Em, fadd_max in Ec; lia|]. assert (D a.1 ≠ -1) by (intros E'; by apply HP1, Hd'). rewrite fadd_small in Ec by lia. destruct (IH ltac:(lia) a.1 Ha1) as (H1 & _); [lia|].
    split; [exists a.1; done|]. split; [done|]. rewrite EP. split; [done|]. split; [done|lia].
Qed.
(** A vertex that can be reached has a depth of at most the distance. *)
Lemma reach_depth n : ∀ v, reach adj root n v → P v ≠ -1 ∧ 0 ≤ D v ≤ k + 1 ∧ D v ≤ Z.of_nat n.
Proof using Hnum HG HA HD Hk Hk' Hroot.
  induction n as [|n IH]; intros v; cbn [reach].
  - intros ->. destruct (ac_root _ _ _ _ HA) as [E1 E2]. rewrite E1, E2. unfold BfsSpec.valid in Hroot. lia.
  - intros (u & Hu & Ha). pose proof (reach_valid num_pes gs N adj HG root n u Hroot Hu) as Hvu. pose proof (gr_adj _ _ _ _ HG u v Hvu Ha) as Hv. destruct (IH u Hu) as (HPu & HDu & Hle).
    destruct (bad_false P D (u, v)) as [[E _]|(_ & HPv & H1 & _)]; [apply (ac_edges _ _ _ _ HA), elem_arcs; done|done|]. cbn in HPv, H1. split; [done|]. rewrite fadd_small in H1 by lia. pose proof (ac_dist _ _ _ _ HA v Hv) as [Hd Hd']. assert (D v ≠ -1) by (intros E'; by apply HPv, Hd').
    pose proof max_large as Hmax. destruct (HD v Hv) as [Em|Hr]; lia.
Qed.
Lemma depth_dist n v : dist adj root n v → D v = Z.of_nat n.
Proof using Hnum HG HA HD Hk Hk' Hroot.
  intros [Hr Hmin]. destruct (reach_depth n v Hr) as (_ & H1 & H2). pose proof (reach_valid num_pes gs N adj HG root n v Hroot Hr) as Hv. destruct (depth_reach (Z.to_nat (D v)) ltac:(lia) v Hv) as (Hr' & _); [lia|].
  destruct (decide (Z.to_nat (D v) < n)%nat) as [Hlt|]; [by destruct (Hmin _ Hlt)|lia].
Qed.
Lemma depth_exact n v : Z.of_nat n ≤ k + 1 → valid v → D v = Z.of_nat n → dist adj root n v.
Proof using Hnum HG HA HD Hk Hk' Hroot.
  intros Hn Hv E. destruct (depth_reach n Hn v Hv E) as (Hr & _). split; [done|]. intros j Hj Hrj. destruct (reach_depth j v Hrj) as (_ & _ & Hle). lia.
Qed.
Lemma accepted_sound v : valid v →
  (∃ n, dist adj root n v ∧ match n with O => P v = root | S m => dist adj root m (P v) ∧ v ∈ adj (P v) end) ∨
  ((∀ n, ¬ reach adj root n v) ∧ ((P v = -1 ∧ D v = -1) ∨ (P v ≠ -1 ∧ D v = FLT_MAX))).
Proof using Hnum HG HA HD Hk Hk' Hroot.
  intros Hv. pose proof (ac_dist _ _ _ _ HA v Hv) as [Hd Hd']. destruct (HD v Hv) as [Em|Hr]; [|destruct Hd as [Hd|Hd]].
  - pose proof max_large as Hmax. right. split; [|right; split; [|done]; intros E; apply Hd' in E; lia]. intros n Hn. destruct (reach_depth n v Hn) as (_ & ? & _). lia.
  - right. split; [|left; split; [by apply Hd'|done]]. intros n Hn. destruct (reach_depth n v Hn) as (_ & ? & _). lia.
  - left. exists (Z.to_nat (D v)). assert (D v = Z.of_nat (Z.to_nat (D v))) as E by lia. split; [apply depth_exact; [lia|done|done]|]. destruct (depth_reach (Z.to_nat (D v)) ltac:(lia) v Hv E) as (_ & HP & Hm). destruct (Z.to_nat (D v)) as [|m] eqn:En; [subst v; apply HA|]. destruct Hm as (Hpv & Ha & Em). split; [apply depth_exact; [lia|done|done]|done].
Qed.
End sound.

(** ** A tree of shortest paths is accepted *)

Section complete.
Context (root : Z) (Hroot : valid root) (P : Z → Z).
Context (HT : ∀ v, valid v → (∃ n, dist adj root n v ∧ match n with O => P v = root | S m => dist adj root m (P v) ∧ v ∈ adj (P v) end) ∨ ((∀ n, ¬ reach adj root n v) ∧ P v = -1)).

Lemma dist_unique n m v : dist adj root n v → dist adj root m v → n = m.
Proof using Type. intros [H1 H2] [H3 H4]. destruct (decide (n < m)%nat) as [H|]; [by destruct (H4 n H)|]. destruct (decide (m < n)%nat) as [H|]; [by destruct (H2 m H)|]. lia. Qed.
Lemma tree_step n v : dist adj root (S n) v → valid v ∧ valid (P v) ∧ dist adj root n (P v) ∧ v ∈ adj (P v).
Proof using Hnum HG Hroot HT.
  intros Hd. pose proof (reach_valid num_pes gs N adj HG root _ v Hroot (proj1 Hd)) as Hv. destruct (HT v Hv) as [(m & Hm & H)|[Hn _]]; [|by destruct (Hn _ (proj1 Hd))]. rewrite (dist_unique m (S n) v Hm Hd) in H. destruct H as [H1 H2].
  split; [done|]. split; [exact (reach_valid num_pes gs N adj HG root n _ Hroot (proj1 H1))|]. done.
Qed.
Lemma dist_root v : dist adj root 0 v ↔ v = root.
Proof using Type. split; [by intros [H _]|]. intros ->. split; [done|]. intros j Hj. lia. Qed.
Lemma dist_not_root n : ¬ dist adj root (S n) root.
Proof using Type. intros [_ H]. apply (H 0%nat); [lia|done]. Qed.
Lemma tree_root : P root = root.
Proof using Hroot HT. destruct (HT root Hroot) as [(n & Hn & H)|[Hn _]]; [|by destruct (Hn 0%nat)]. by rewrite (dist_unique n 0 root Hn (proj2 (dist_root root) eq_refl)) in H. Qed.

(** Up to depth [k + 1] the depths are the distances. *)
Definition depths_exact (k : Z) (D : Z → Z) : Prop := ∀ v, valid v → (∀ n, dist adj root n v → D v = if decide (Z.of_nat n ≤ k + 1) then Z.of_nat n else FLT_MAX) ∧ ((∀ n, ¬ reach adj root n v) → D v = -1).
Lemma exact_start : depths_exact 0 (dist0 root P).
Proof using Hnum HG Hroot HT.
  intros v Hv. pose proof Hroot as Hr0. unfold BfsSpec.valid in Hr0. unfold dist0, first_dist. split.
  - intros n Hd. destruct n as [|n].
    + apply dist_root in Hd as ->. by rewrite !decide_True by lia.
    + assert (v ≠ root) as Hne by (intros ->; by apply (dist_not_root n)). rewrite (decide_False (P := v = root)) by done. destruct (tree_step n v Hd) as (_ & Hpv & Hp & _). unfold BfsSpec.valid in Hpv. destruct n as [|n].
      * apply dist_root in Hp as ->. by rewrite Z.eqb_refl, decide_True by lia.
      * rewrite (proj2 (Z.eqb_neq (P v) root)), (proj2 (Z.eqb_neq (P v) (-1))); [by rewrite decide_False by lia|lia|]. intros E. rewrite E in Hp. by apply (dist_not_root n).
  - intros Hn. destruct (HT v Hv) as [(n & Hd & _)|[_ E]]; [by destruct (Hn n (proj1 Hd))|]. rewrite decide_False by (intros ->; by apply (Hn 0%nat)). rewrite E. rewrite (proj2 (Z.eqb_neq (-1) root)) by lia. done.
Qed.
Lemma exact_level k D D' : 0 ≤ k → k + 1 < 2 ^ 24 → depths_exact k D → level P D (k + 1) D' → depths_exact (k + 1) D'.
Proof using Hnum HG Hroot HT.
  intros Hk Hk' HD HL v Hv. pose proof max_large as Hmax. destruct (HD v Hv) as [H1 H2]. split.
  - intros n Hd. specialize (H1 n Hd). destruct (HL v Hv) as [[(_ & Em & Hpv & Ep & Ha) E]|[Hno E]]; rewrite E.
    + destruct (decide (Z.of_nat n ≤ k + 1)); [lia|]. destruct n as [|n]; [lia|]. destruct (tree_step n v Hd) as (_ & Hpv' & Hp & _). rewrite (proj1 (HD _ Hpv') n Hp) in Ep. destruct (decide (Z.of_nat n ≤ k + 1)); [|lia]. rewrite decide_True by lia. lia.
    + rewrite H1. destruct (decide (Z.of_nat n ≤ k + 1)) as [Hle|Hgt]; [by rewrite decide_True by lia|]. rewrite decide_False; [done|]. intros Hle. apply Hno. destruct n as [|n]; [lia|]. destruct (tree_step n v Hd) as (_ & Hpv & Hp & Ha). split; [done|]. split; [done|]. split; [done|]. split; [|done].
      rewrite (proj1 (HD _ Hpv) n Hp), decide_True by lia. lia.
  - intros Hn. specialize (H2 Hn). destruct (HL v Hv) as [[(_ & Em & _) _]|[_ E]]; [lia|congruence].
Qed.
(** At the end all are decided. *)
Lemma exact_end k D : 0 ≤ k → depths_exact k D → (∀ v, ¬ reached P D (k + 1) v) → ∀ n v, dist adj root n v → Z.of_nat n ≤ k + 1 ∧ D v = Z.of_nat n.
Proof using Hnum HG Hroot HT.
  intros Hk HD Hno n v Hd. assert (Z.of_nat n ≤ k + 1) as Hle.
  { revert v Hd. induction n as [|n IH]; intros v Hd; [lia|]. destruct (tree_step n v Hd) as (Hv & Hpv & Hp & Ha). specialize (IH _ Hp). destruct (decide (Z.of_nat (S n) ≤ k + 1)) as [|Hgt]; [done|]. exfalso. apply (Hno v). split; [done|].
    rewrite (proj1 (HD v Hv) _ Hd), decide_False by done. split; [done|]. split; [done|]. split; [|done]. rewrite (proj1 (HD _ Hpv) n Hp), decide_True by done. lia. }
  split; [done|]. pose proof (reach_valid num_pes gs N adj HG root n v Hroot (proj1 Hd)) as Hv. by rewrite (proj1 (HD v Hv) n Hd), decide_True by done.
Qed.
Lemma dist_edge n u v : dist adj root n u → v ∈ adj u → ∃ m, dist adj root m v ∧ (m ≤ S n)%nat.
Proof using HG Hroot HT.
  intros Hd Ha. assert (reach adj root (S n) v) as Hr by (exists u; split; [apply Hd|done]). pose proof (reach_valid num_pes gs N adj HG root _ v Hroot Hr) as Hv. destruct (HT v Hv) as [(m & Hm & _)|[Hn _]]; [|by destruct (Hn _ Hr)].
  exists m. split; [done|]. destruct (decide (S n < m)%nat) as [Hlt|]; [by destruct (proj2 Hm _ Hlt)|lia].
Qed.
Lemma tree_pred v : valid v → (∃ n, dist adj root n v ∧ valid (P v)) ∨ ((∀ n, ¬ reach adj root n v) ∧ P v = -1).
Proof using Hnum HG Hroot HT. intros Hv. destruct (HT v Hv) as [([|n] & Hn & H)|?]; [left; exists 0%nat; by rewrite H|left; exists (S n); split; [done|]; by destruct (tree_step n v Hn) as (_ & ? & _)|by right]. Qed.
Lemma tree_accepted k D nin : 0 ≤ k → k + 1 < 2 ^ 24 → depths_exact k D → (∀ v, ¬ reached P D (k + 1) v) → match nin with Some n => n = tally (counted P) arcs | None => True end → accepted root nin P D.
Proof using Hnum HG Hroot HT Hsym.
  intros Hk Hk' HD Hno Hn. pose proof (exact_end k D Hk HD Hno) as He. split; [| | | |done].
  - intros v Hv. destruct (tree_pred v Hv) as [(n & Hd & Hp)|[Hr E]]; [destruct (He n v Hd); unfold BfsSpec.valid in Hp; lia|]. rewrite (proj2 (HD v Hv) Hr). lia.
  - split; [apply tree_root|]. by destruct (He 0%nat root (proj2 (dist_root root) eq_refl)).
  - intros a [Hu Ha]%elem_arcs. pose proof (gr_adj _ _ _ _ HG _ _ Hu Ha) as Hv. unfold bad, skipped, mixed. destruct (tree_pred a.1 Hu) as [(n & Hdu & Hpu)|[Hru Eu]]; destruct (tree_pred a.2 Hv) as [(m & Hdv & Hpv)|[Hrv Ev]].
    + unfold BfsSpec.valid in Hpu, Hpv. rewrite (proj2 (Z.eqb_neq (P a.1) (-1))), (proj2 (Z.eqb_neq (P a.2) (-1))) by lia. cbn. destruct (He _ _ Hdu) as [H1 ->]. destruct (He _ _ Hdv) as [H2 ->]. rewrite !fadd_small by lia.
      destruct (dist_edge n _ _ Hdu Ha) as (m' & Hm' & Hle). destruct (dist_edge m _ _ Hdv (Hsym _ _ Ha)) as (n' & Hn' & Hle'). rewrite (dist_unique _ _ _ Hdv Hm') in *. rewrite (dist_unique _ _ _ Hdu Hn') in *. apply orb_false_iff. split; apply Z.ltb_ge; lia.
    + destruct (dist_edge n _ _ Hdu Ha) as (m' & Hm' & _). by destruct (Hrv m' (proj1 Hm')).
    + destruct (dist_edge m _ _ Hdv (Hsym _ _ Ha)) as (m' & Hm' & _). by destruct (Hru m' (proj1 Hm')).
    + by rewrite Eu, Ev.
  - intros v Hv HP. destruct (HT v Hv) as [([|n] & Hd & H)|[_ ?]]; [left; exact (proj1 (dist_root v) Hd)|right|done]. destruct (tree_step n v Hd) as (_ & Hpv & Hp & Ha). exists (P v, v). split; [by apply elem_arcs|]. split; [done|].
    unfold confirms, mixed. cbn. destruct (tree_pred _ Hpv) as [(m & _ & Hpp)|[Hr _]]; [|by destruct (Hr n (proj1 Hp))]. unfold BfsSpec.valid in Hpv, Hpp. rewrite (proj2 (Z.eqb_neq (P (P v)) (-1))), (proj2 (Z.eqb_neq (P v) (-1))), Z.eqb_refl by lia. cbn.
    destruct (He _ _ Hd) as [H1 ->]. destruct (He _ _ Hp) as [H2 ->]. rewrite fadd_small by lia. apply Z.eqb_eq. lia.
Qed.
End complete.

(** ** Predecessors in range *)

Lemma max_fold {A} (f : A → Z) l : ∀ m, m ≤ foldl (λ m i, if m <? f i then f i else m) m l ∧ ∀ i, i ∈ l → f i ≤ foldl (λ m i, if m <? f i then f i else m) m l.
Proof using Type.
  induction l as [|x l IH]; intros m; cbn [foldl]; [split; [lia|]; intros i Hi; by apply elem_of_nil in Hi|]. destruct (IH (if m <? f x then f x else m)) as [H1 H2]. split; [destruct (Z.ltb_spec m (f x)); lia|].
  intros i [-> |Hi]%elem_of_cons; [destruct (Z.ltb_spec m (f x)); lia|by apply H2].
Qed.
Lemma maxvertex_ge ps v : shape ps → valid v → v ≤ maxvertex num_pes ps.
Proof using Hnum HG.
  intros Hsh Hv. destruct (vertex_pe ps v Hsh Hv) as (p & Hp & Hl & Ho). unfold maxvertex. assert ((OWNER v, p) ∈ zip (seqZ 0 (zlen ps)) ps) as Hin by (apply (list_elem_of_lookup_2 _ (Z.to_nat (OWNER v))), zip_lookup; cbn; rewrite aget_nat in Hp by done; split; [lia|done]).
  assert (∀ l m, m ≤ foldl (λ m (rp : Z * vpe), foldl (λ m i, if m <? GLOBAL rp.1 i then GLOBAL rp.1 i else m) m (seqZ 0 (nlocalverts (vgraph rp.2)))) m l) as Hmono.
  { clear. intros l. induction l as [|rp l IH]; intros m; cbn [foldl]; [done|]. etrans; [|apply IH]. apply max_fold. }
  revert Hin. generalize (zip (seqZ 0 (zlen ps)) ps) as l. intros l Hin. apply list_elem_of_split in Hin as (l1 & l2 & ->). rewrite foldl_app. cbn [foldl]. etrans; [|apply Hmono]. cbn [fst snd].
  rewrite <- (to_global num_pes Hnum v) at 1. apply (max_fold (GLOBAL (OWNER v))). apply elem_of_seqZ. lia.
Qed.
Lemma pred_errors_zero ps P : shape ps → array_of globpred ps P → (∀ v, valid v → P v = -1 ∨ valid (P v)) → allsum (pred_errors (maxvertex num_pes ps)) ps = 0.
Proof using Hnum HG.
  intros Hsh HP Hr. unfold pred_errors. apply (count_sys (λ a _, (negb (a =? -1) && (a <? 0)) || (maxvertex num_pes ps <? a)) globpred globpred ps P P Hsh HP HP). intros v Hv. destruct (Hr v Hv) as [-> |Hp].
  - apply orb_false_iff. split; [done|]. apply Z.ltb_ge. pose proof (maxvertex_ge ps v Hsh Hv). unfold BfsSpec.valid in Hv. lia.
  - pose proof (maxvertex_ge ps _ Hsh Hp) as Hm. unfold BfsSpec.valid in Hp. apply orb_false_iff. split; [apply andb_false_iff; right|]; apply Z.ltb_ge; lia.
Qed.

(** ** The number of edges *)

Lemma tally_app b l l' : tally b (l ++ l') = tally b l + tally b l'.
Proof using Type. unfold tally. by rewrite filter_app, zlen_app. Qed.
Lemma tally_concat b ls : tally b (concat ls) = foldr Z.add 0 (tally b <$> ls).
Proof using Type. induction ls as [|l ls IH]; [done|]. cbn [concat]. rewrite tally_app, IH. done. Qed.
Lemma tally_fmap b (f : Z * Z → Z * Z) l : tally b (f <$> l) = tally (λ a, b (f a)) l.
Proof using Type. unfold tally. induction l as [|a l IH]; [done|]. rewrite fmap_cons, !filter_cons. destruct (decide _); [rewrite !zlen_cons|]; by rewrite IH. Qed.
Lemma tally_ext b b' l : (∀ a, a ∈ l → b a = b' a) → tally b l = tally b' l.
Proof using Type.
  unfold tally. induction l as [|a l IH]; intros H; [done|]. rewrite !filter_cons. rewrite (H a) by by left. destruct (decide _); [rewrite !zlen_cons|]; rewrite IH; try done; intros x Hx; apply H; by right.
Qed.
Definition teps_arc (P : Z → Z) (a : Z * Z) : bool := negb (P a.1 =? -1) && (a.2 <=? a.1).
Lemma teps_spec (ps : list pe) P : zlen ps = zlen gs → (∀ r p, aget ps r = Some p → aget gs r = Some (graph p) ∧ ∀ i, 0 ≤ i < nlocalverts (graph p) → aget (pred p) i = Some (P (GLOBAL r i))) →
  get_edge_count_for_teps num_pes ps = Some (tally (teps_arc P) arcs).
Proof using Hnum HG.
  intros Hl Hps. unfold get_edge_count_for_teps. set (t := λ u, tally (teps_arc P) ((u,.) <$> adj u)). rewrite (zip_mapM (λ r p, ls ← mapM (teps_row num_pes r p) (seqZ 0 (nlocalverts (graph p))); Some (foldr Z.add 0 ls)) (λ r, foldr Z.add 0 ((λ i, t (GLOBAL r i)) <$> seqZ 0 (nloc r)))).
  - cbn [mbind option_bind]. f_equal. unfold arcs, per_vertex. rewrite tally_concat, <- list_fmap_compose, Hl, (gr_len _ _ _ _ HG). f_equal. apply list_fmap_ext. intros _ r _. unfold compose. rewrite tally_concat, <- list_fmap_compose. done.
  - intros r p Hp. destruct (Hps r p Hp) as [Hg Hpred]. assert (nlocalverts (graph p) = nloc r) as En by (apply (gr_local _ _ _ _ HG _ _ Hg)). rewrite (mapM_pointwise _ (λ i, t (GLOBAL r i))); [cbn [mbind option_bind]; by rewrite En|]. intros i Hi%elem_of_seqZ.
    assert (0 ≤ i < nlocalverts (graph p)) as Hi' by lia. unfold teps_row. rewrite (Hpred i Hi'). cbn [mbind option_bind]. destruct (global_valid num_pes Hnum gs N adj HG r _ i Hg Hi') as (Hv & Eo & El). destruct (gr_row _ _ _ _ HG (GLOBAL r i) Hv (graph p)) as (_ & _ & Er); [by rewrite Eo|].
    rewrite El in Er. rewrite Er. cbn [mbind option_bind]. unfold t, tally, teps_arc. set (u := GLOBAL r i). destruct (P u =? -1) eqn:EP; f_equal.
    + induction (adj u) as [|w l IH]; [done|]. rewrite fmap_cons, filter_cons. cbn [fst snd]. rewrite EP. cbn. done.
    + induction (adj u) as [|w l IH]; [done|]. rewrite fmap_cons, !filter_cons. cbn [fst snd]. rewrite EP. cbn [negb andb]. destruct (decide _); [rewrite !zlen_cons|]; by rewrite IH.
Qed.
(** Each edge is counted at its larger end by one and at the message from its smaller end
    by the other. *)
Lemma teps_counted P D root nin : accepted root nin P D → arcs ≡ₚ prod_swap <$> arcs → (∀ u, u ∉ adj u) → tally (teps_arc P) arcs = tally (counted P) arcs.
Proof using Hnum HG.
  intros HA Hs Hirr. transitivity (tally (teps_arc P) (prod_swap <$> arcs)); [unfold tally, zlen; by rewrite <- Hs|]. rewrite tally_fmap. apply tally_ext. intros [u w] Ha. pose proof (ac_edges _ _ _ _ HA _ Ha) as Hb. apply bad_false in Hb. apply elem_arcs in Ha as [_ Hw]. cbn in *.
  assert (u ≠ w) as Hne by (intros ->; by apply (Hirr w)). unfold teps_arc, counted, skipped. cbn. destruct Hb as [[-> ->]|(H1 & H2 & _)]; [done|]. rewrite (proj2 (Z.eqb_neq _ _) H1), (proj2 (Z.eqb_neq _ _) H2). cbn. destruct (Z.leb_spec u w); destruct (Z.ltb_spec u w); try done; lia.
Qed.
End spec.
