(* ===== verification/ValidateResults.v ===== *)
(** * ValidateResults: the validation of the searches in the graph of the edges

    The results of [ValidateSpec] for the graphs that the processes build from the list
    of the edges, and for the predecessors that a search gives. *)

From stdpp Require Import gmap relations.
From S2P Require Import Prelude Csr CsrSpec Bfs BfsSpec Validate ValidateSpec.

Local Open Scope Z_scope.

(** ** The arcs are the messages of the edges *)

Lemma concat_perm {A B} (f g : A → list B) l : (∀ x, x ∈ l → f x ≡ₚ g x) → concat (f <$> l) ≡ₚ concat (g <$> l).
Proof. induction l as [|x l IH]; intros H; [done|]. rewrite !fmap_cons. cbn [concat]. rewrite (H x) by by left. rewrite IH; [done|]. intros y Hy. apply H. by right. Qed.
Lemma concat_bind {A B C} (f : B → list C) (g : A → list B) l : concat (f <$> (l ≫= g)) = concat ((λ x, concat (f <$> g x)) <$> l).
Proof. induction l as [|x l IH]; [done|]. rewrite bind_cons, fmap_app, concat_app, IH. done. Qed.
(** A list is the rearrangement by keys of its elements. *)
Lemma filter_key (S : list (Z * Z)) u U : u ∉ U → filter (λ m, m.1 = u) S ++ filter (λ m, m.1 ∈ U) S ≡ₚ filter (λ m, m.1 ∈ u :: U) S.
Proof.
  intros Hu. induction S as [|m S IH]; [done|]. rewrite !filter_cons. destruct (decide (m.1 = u)) as [E|E].
  - rewrite (decide_False (P := m.1 ∈ U)) by by rewrite E. rewrite decide_True by (rewrite E; by left). cbn. by rewrite IH.
  - destruct (decide (m.1 ∈ U)) as [Hin|Hin].
    + rewrite decide_True by by right. by rewrite <- Permutation_middle, IH.
    + rewrite decide_False by (rewrite elem_of_cons; tauto). exact IH.
Qed.
Lemma group_by_key (S : list (Z * Z)) U : NoDup U → concat ((λ u, filter (λ m, m.1 = u) S) <$> U) ≡ₚ filter (λ m, m.1 ∈ U) S.
Proof.
  induction 1 as [|u U Hu HU IH]; [cbn; induction S as [|m S IH]; [done|]; rewrite filter_cons, decide_False by apply not_elem_of_nil; done|]. rewrite fmap_cons. cbn [concat]. rewrite IH. by apply filter_key.
Qed.
Lemma neighbours_filter edges u : (u,.) <$> neighbours edges u = filter (λ m, m.1 = u) (sends edges).
Proof.
  unfold neighbours. rewrite <- list_fmap_compose. induction (sends edges) as [|[a b] l IH]; [done|]. rewrite filter_cons. destruct (decide _) as [E|E]; [|done]. rewrite fmap_cons, IH. cbn in E. by subst a.
Qed.
Lemma sends_swapped edges : sends edges ≡ₚ prod_swap <$> sends edges.
Proof.
  unfold sends. induction edges as [|[a b] edges IH]; [done|]. rewrite bind_cons, fmap_app, <- IH. apply Permutation_app_tail. unfold edge_sends. destruct (a =? b); [done|]. apply perm_swap.
Qed.

Section arcs.
Context (num_pes : Z) (Hnum : 0 < num_pes < 2 ^ 31) (gs : list oned_csr_graph) (N : Z) (adj : Z → list Z) (HG : graphs num_pes gs N adj) (edges : list (Z * Z)).
Context (Hadj : ∀ v, valid N v → adj v ≡ₚ neighbours edges v) (Hin : ∀ m, m ∈ sends edges → valid N m.1).

Definition vertices : list Z := seqZ 0 (num_pes) ≫= λ r, VERTEX_TO_GLOBAL num_pes r <$> seqZ 0 (nloc num_pes N r).
Lemma per_vertex_list {M} (f : Z → list M) : per_vertex num_pes N f = concat (f <$> vertices).
Proof using Type. unfold per_vertex, vertices. rewrite concat_bind. f_equal. apply list_fmap_ext. intros _ r _. by rewrite <- list_fmap_compose. Qed.
Lemma elem_vertices u : u ∈ vertices ↔ valid N u.
Proof using Hnum HG.
  pose proof (elem_per_vertex num_pes Hnum gs N adj HG (λ u, [u]) u) as H. rewrite per_vertex_list in H. assert (∀ l : list Z, concat ((λ u, [u]) <$> l) = l) as E by (clear; intros l; induction l as [|x l IH]; [done|]; rewrite fmap_cons; cbn [concat app]; by rewrite IH).
  rewrite E in H. rewrite H. split; [intros (v & Hv & ->%list_elem_of_singleton); done|]. intros Hu. exists u. split; [done|by left].
Qed.
Lemma vertices_nodup : NoDup vertices.
Proof using Hnum HG.
  apply NoDup_bind.
  - intros r r' v Hr%elem_of_seqZ Hr'%elem_of_seqZ (i & -> & Hi%elem_of_seqZ)%list_elem_of_fmap (i' & E & Hi'%elem_of_seqZ)%list_elem_of_fmap. apply (other_local num_pes Hnum) in E; lia.
  - intros r Hr%elem_of_seqZ. apply NoDup_fmap_2_strong; [|apply NoDup_seqZ]. intros i i' Hi%elem_of_seqZ Hi'%elem_of_seqZ E. apply (other_local num_pes Hnum) in E; lia.
  - apply NoDup_seqZ.
Qed.
Lemma arcs_sends : arcs num_pes N adj ≡ₚ sends edges.
Proof using Hnum HG Hadj Hin.
  unfold arcs. rewrite per_vertex_list. rewrite (concat_perm _ (λ u, filter (λ m, m.1 = u) (sends edges))).
  - rewrite group_by_key by apply vertices_nodup. rewrite filter_all; [done|]. apply Forall_forall. intros m Hm. by apply elem_vertices, Hin.
  - intros u Hu%elem_vertices. by rewrite (Hadj u Hu), neighbours_filter.
Qed.
Lemma arcs_swapped : arcs num_pes N adj ≡ₚ prod_swap <$> arcs num_pes N adj.
Proof using Hnum HG Hadj Hin. rewrite arcs_sends. apply sends_swapped. Qed.
End arcs.

(** ** Results *)

Definition vpred_of (num_pes : Z) (ps : list vpe) (v : Z) : option Z := p ← aget ps (VERTEX_OWNER num_pes v); aget (globpred p) (VERTEX_LOCAL num_pes v).
Definition vdist_of (num_pes : Z) (ps : list vpe) (v : Z) : option Z := p ← aget ps (VERTEX_OWNER num_pes v); aget (globdist p) (VERTEX_LOCAL num_pes v).

(** What holds of the graphs that are built *)
Section built.
Context (num_pes nglobaledges : Z) (edges : list (Z * Z)) (junk : Z → nat → Z) (order1 order2 : Z → list (Z * Z)) (Hbi : bfs_input num_pes nglobaledges edges junk order1 order2).
Context (gs : list oned_csr_graph) (Hgs : build_graphs num_pes nglobaledges edges junk order1 order2 = Some gs).
Local Notation N := (nverts_known edges + 1).
Definition rows (v : Z) : list Z := targets num_pes (order2 (VERTEX_OWNER num_pes v)) (VERTEX_LOCAL num_pes v).

Lemma rows_graphs : graphs num_pes gs N rows.
Proof using Hbi Hgs. destruct (build_spec num_pes nglobaledges edges junk order1 order2 Hbi) as (gs' & E & HG). rewrite Hgs in E. injection E as <-. exact HG. Qed.
Lemma rows_neighbours v : rows v ≡ₚ neighbours edges v.
Proof using Hbi. pose proof (bi_num_pes _ _ _ _ _ _ Hbi) as Hnum. apply (targets_neighbours num_pes (VERTEX_OWNER num_pes v) edges); [done| |done]. apply (ci_order2 _ _ _ _ _ _ (bi_csr _ _ _ _ _ _ Hbi _ (owner_range num_pes Hnum v))). Qed.
Lemma neighbours_sends u v : v ∈ neighbours edges u ↔ (u, v) ∈ sends edges.
Proof using Type.
  unfold neighbours. rewrite list_elem_of_fmap. split; [intros ([a b] & -> & [E Hm]%list_elem_of_filter); cbn in *; by subst|]. intros Hm. exists (u, v). split; [done|]. by apply list_elem_of_filter.
Qed.
Lemma rows_sym u v : v ∈ rows u → u ∈ rows v.
Proof using Hbi. rewrite !rows_neighbours, !neighbours_sends. apply sends_swap. Qed.
Lemma rows_irrefl u : u ∉ rows u.
Proof using Hbi. rewrite rows_neighbours, neighbours_sends, sends_elem. intros ([a b] & _ & He). unfold edge_sends in He. destruct (Z.eqb_spec a b); [by apply elem_of_nil in He|]. apply elem_of_cons in He as [[= -> ->]|He]; [done|]. apply list_elem_of_singleton in He as [= -> ->]. done. Qed.
Lemma sends_valid m : m ∈ sends edges → valid N m.1.
Proof using Hbi.
  intros Hm. pose proof (bi_num_pes _ _ _ _ _ _ Hbi) as Hp. pose proof (sends_ok edges (ci_edges _ _ _ _ _ _ (bi_csr _ _ _ _ _ _ Hbi 0 ltac:(lia)))) as Ho. rewrite Forall_forall in Ho. destruct (Ho m Hm) as [H1 _]. pose proof (sends_known edges m Hm). unfold valid. lia.
Qed.
Lemma rows_swapped : arcs num_pes N rows ≡ₚ prod_swap <$> arcs num_pes N rows.
Proof using Hbi Hgs. apply (arcs_swapped num_pes (bi_num_pes _ _ _ _ _ _ Hbi) gs N rows rows_graphs edges); [intros v _; apply rows_neighbours|apply sends_valid]. Qed.

(** The processes that validate *)
Definition validating (g : oned_csr_graph) (p : vpe) : Prop := vgraph p = g ∧ zlen (globpred p) = nlocalverts g ∧ val_errors p = 0.
Lemma validating_arrays ps : Forall2 validating gs ps → shape gs ps ∧ array_of num_pes globpred ps (λ v, default 0 (vpred_of num_pes ps v)) ∧ allsum val_errors ps = 0.
Proof using Hbi Hgs.
  intros HF. pose proof (Forall2_length _ _ _ HF) as Hl. assert (∀ r p, aget ps r = Some p → aget gs r = Some (vgraph p) ∧ zlen (globpred p) = nlocalverts (vgraph p) ∧ val_errors p = 0) as Hp.
  { intros r p Hp. pose proof (aget_lt _ _ _ Hp) as Hr. rewrite aget_nat in Hp by lia. rewrite aget_nat by lia. destruct (Forall2_lookup_r _ _ _ _ _ HF Hp) as (g & Hg & <- & H1 & H2). done. }
  assert (shape gs ps) as Hsh by (split; [unfold zlen; lia|]; intros r p Hr; by apply Hp). split; [done|]. split.
  - intros r p Hr. split; [exact (proj1 (proj2 (Hp r p Hr)))|]. intros i Hi. destruct (pe_vertex num_pes (bi_num_pes _ _ _ _ _ _ Hbi) gs N rows rows_graphs ps r p i Hsh Hr Hi) as (_ & Eo & El). unfold vpred_of. rewrite Eo, El, Hr. cbn [mbind option_bind].
    destruct (aget_some (globpred p) i) as [x Hx]; [destruct (Hp r p Hr) as (_ & E & _); lia|]. by rewrite Hx.
  - destruct (allsum_zero val_errors ps) as [_ Hz]; [|apply Hz]; intros p [k Hk]%list_elem_of_lookup; (destruct (Hp (Z.of_nat k) p) as (_ & _ & E); [by rewrite aget_nat, Nat2Z.id by lia|lia]).
Qed.

(** ** Validation in the graph of the edges *)

Context (sched : nat → list visitmsg → list visitmsg) (sched' : list edgedist → list edgedist) (Hs : ∀ n l, sched n l ≡ₚ l) (Hs' : ∀ l, sched' l ≡ₚ l).
Context (fuel : nat) (root : Z) (Hroot : 0 ≤ root ≤ nverts_known edges) (HN : nverts_known edges + 2 < 2 ^ 24) (Hfuel : nverts_known edges + 1 < Z.of_nat fuel).

Lemma built_sound nedges_in ps : Forall2 validating gs ps → ∃ b ps', validate_result num_pes sched sched' fuel root nedges_in ps = Some (b, ps') ∧
  (b = true → ∀ v, 0 ≤ v ≤ nverts_known edges →
    (∃ n u, dist (neighbours edges) root n v ∧ vpred_of num_pes ps v = Some u ∧ match n with O => u = root | S m => dist (neighbours edges) root m u ∧ v ∈ neighbours edges u end) ∨
    ((∀ n, ¬ reach (neighbours edges) root n v) ∧ (vpred_of num_pes ps v = Some (-1) ∨ vdist_of num_pes ps' v = Some FLT_MAX))).
Proof using Hbi Hgs Hs Hs' Hroot HN Hfuel.
  intros HF. pose proof (bi_num_pes _ _ _ _ _ _ Hbi) as Hnum. pose proof rows_graphs as HG. destruct (validating_arrays ps HF) as (Hsh & HP & Hz). set (P := λ v, default 0 (vpred_of num_pes ps v)) in *. assert (valid N root) as Hr by (unfold valid; lia).
  destruct (validate_spec num_pes Hnum gs N rows HG sched sched' fuel root nedges_in ps P (depths_ok N) Hs Hs' Hr) as (b & ps' & E & H); [lia|lia|done|done|done|apply depths_start|intros k D D' H1 _; by apply depths_level|].
  exists b, ps'. split; [done|]. intros ->. destruct H as [[_ ?]|(_ & k & D & C & HS & Hk & Hk' & HD & _ & HA)]; [done|]. pose proof (proj1 HA eq_refl) as HA'. intros v Hv. assert (valid N v) as Hval by (unfold valid; lia).
  assert (∀ u w, w ∈ rows u ↔ w ∈ neighbours edges u) as Hext by (intros u w; by rewrite rows_neighbours).
  destruct (vertex_pe num_pes Hnum gs N rows HG ps v Hsh Hval) as (p & Hp & Hl & _). assert (vpred_of num_pes ps v = Some (P v)) as EP by (unfold P, vpred_of; rewrite Hp; cbn [mbind option_bind]; destruct (aget_some (globpred p) (VERTEX_LOCAL num_pes v)) as [x ->]; [rewrite (proj1 (HP _ _ Hp)); lia|done]).
  rewrite EP. destruct (accepted_sound num_pes Hnum gs N rows HG root Hr nedges_in P D HA' k Hk Hk' HD v Hval) as [(n & Hd & Hm)|[Hn Hm]].
  - left. exists n, (P v). split; [by apply (dist_ext rows)|]. split; [done|]. destruct n; [done|]. destruct Hm as [H1 H2]. split; [by apply (dist_ext rows)|by apply Hext].
  - right. split; [intros n Hn'; apply (Hn n); by apply (reach_ext rows (neighbours edges))|]. destruct Hm as [[-> _]|[_ ED]]; [by left|right]. destruct HS as (Hsh' & _ & HDa & _). destruct (vertex_pe num_pes Hnum gs N rows HG ps' v Hsh' Hval) as (p' & Hp' & Hl' & _).
    unfold vdist_of. rewrite Hp'. cbn [mbind option_bind]. by rewrite (array_vertex num_pes Hnum _ _ _ _ _ HDa Hp' Hl'), ED.
Qed.
Lemma built_complete ps c0 c shortest : all_ready gs ps → search num_pes root ps = Some c0 → rtc (step num_pes) c0 c → final c = true →
  ∃ n ps', get_edge_count_for_teps num_pes (pes c) = Some n ∧ validate_result num_pes sched sched' fuel root (Some n) ((λ p, validate_pe (shortest p) p) <$> pes c) = Some (true, ps').
Proof using Hbi Hgs Hs Hs' Hroot HN Hfuel.
  intros Hps Es Hrun Hf. pose proof (bi_num_pes _ _ _ _ _ _ Hbi) as Hnum. pose proof rows_graphs as HG. assert (valid N root) as Hr by (unfold valid; lia).
  destruct (search_inv num_pes Hnum gs N rows HG root Hr ps Hps) as (c1 & V0 & F0 & X0 & P0 & E1 & HI). rewrite Es in E1. injection E1 as <-. destruct (inv_steps num_pes Hnum gs N rows HG root Hr c0 c Hrun) as (d & V & F & X & Pm & HIc); [by exists 0%nat, V0, F0, X0, P0|]. clear HI.
  set (P := λ v, default (-1) (Pm !! v)). pose proof (i_sys _ _ _ _ _ _ _ _ _ _ HIc) as Hsys. pose proof (proj1 Hsys) as Hlen.
  assert (∀ r p, aget (pes c) r = Some p → aget gs r = Some (graph p) ∧ zlen (pred p) = nlocalverts (graph p) ∧ ∀ i, 0 ≤ i < nlocalverts (graph p) → aget (pred p) i = Some (P (VERTEX_TO_GLOBAL num_pes r i))) as Hpes.
  { intros r p Hp. destruct (sys_lookup _ _ _ _ _ _ _ _ _ Hsys Hp) as (g & Hg & [Eg _ _ _ _ Hpl Hpr]). rewrite Eg. split; [done|]. split; [done|exact Hpr]. }
  set (qs := (λ p, validate_pe (shortest p) p) <$> pes c). assert (∀ r q, aget qs r = Some q → ∃ p, aget (pes c) r = Some p ∧ q = validate_pe (shortest p) p) as Hq.
  { intros r q. unfold qs, aget. destruct (r <? 0); [done|]. rewrite list_lookup_fmap. destruct (pes c !! _) as [p|]; [|done]. intros [= <-]. by exists p. }
  assert (shape gs qs) as Hsh by (split; [unfold qs, zlen in *; by rewrite length_fmap|]; intros r q (p & Hp & ->)%Hq; apply (Hpes r p Hp)). assert (array_of num_pes globpred qs P) as HP by (intros r q (p & Hp & ->)%Hq; split; apply (Hpes r p Hp)).
  assert (allsum val_errors qs = 0) as Hz by (destruct (allsum_zero val_errors qs) as [_ Hz]; [|apply Hz]; intros q (p & -> & _)%list_elem_of_fmap; cbn; lia).
  pose proof (inv_final num_pes Hnum gs N rows HG root Hr d c V F X Pm HIc Hf) as Hsp.
  assert (∀ v, valid N v → (∃ n, dist rows root n v ∧ match n with O => P v = root | S m => dist rows root m (P v) ∧ v ∈ rows (P v) end) ∨ ((∀ n, ¬ reach rows root n v) ∧ P v = -1)) as HT.
  { intros v Hv. pose proof (pred_of_spec num_pes Hnum gs N rows HG root d c V F X Pm v HIc Hv) as Ep. destruct (Hsp v Hv) as [(n & u & Hd & Hp & Hm)|[Hn Hp]]; rewrite Ep in Hp; injection Hp as Eu; fold (P v) in Eu; [left; exists n; split; [done|]; by rewrite Eu|by right]. }
  exists (tally (teps_arc P) (arcs num_pes N rows)). destruct (validate_spec num_pes Hnum gs N rows HG sched sched' fuel root (Some (tally (teps_arc P) (arcs num_pes N rows))) qs P (depths_exact N rows root) Hs Hs' Hr) as (b & ps' & E & H);
    [lia|lia|done|done|done|by eapply (exact_start num_pes Hnum gs)|by eapply (exact_level num_pes Hnum gs)|].
  exists ps'. split; [apply (teps_spec num_pes Hnum gs N rows HG); [done|]; intros r p Hp; destruct (Hpes r p Hp) as (H1 & _ & H2); done|].
  assert (allsum (pred_errors (maxvertex num_pes qs)) qs = 0) as He.
  { apply (pred_errors_zero num_pes Hnum gs N rows HG qs P Hsh HP). intros v Hv. destruct (tree_pred num_pes Hnum gs N rows HG root Hr P HT v Hv) as [(n & _ & ?)|[_ ?]]; [by right|by left]. }
  fold qs. rewrite E. do 2 f_equal. destruct H as [[? _]|(_ & k & D & C & _ & Hk & Hk' & HD & Hno & HA)]; [lia|]. apply HA.
  pose proof (tree_accepted num_pes Hnum gs N rows HG rows_sym root Hr P HT k D None Hk Hk' HD Hno I) as HA0. apply (tree_accepted num_pes Hnum gs N rows HG rows_sym root Hr P HT k D _ Hk Hk' HD Hno).
  by apply (teps_counted num_pes Hnum gs N rows HG P D root None HA0 rows_swapped rows_irrefl).
Qed.
End built.

(** C6. Validation of any predecessors, on any number of processes, ends without an
    access outside of an array, in whatever order the messages arrive; if they are
    accepted, then for each vertex that can be reached from the root they give a
    predecessor on a shortest path, and a vertex that cannot be reached has no
    predecessor, unless its depth has stayed at FLT_MAX ([validate_accepts_detached]).
    The graph is one of [bfs_correct], with its restrictions ([bfs_input]: no array of
    degrees that is too small and no positive multiple of 2048 neighbours in a
    process, where the code leaves its arrays); it has fewer than 2^24 - 1 vertices,
    so that depths are exact as floats, and no errors have been counted by validations
    before. *)
Theorem validate_sound num_pes nglobaledges edges junk order1 order2 gs sched sched' fuel root nedges_in ps :
  bfs_input num_pes nglobaledges edges junk order1 order2 → build_graphs num_pes nglobaledges edges junk order1 order2 = Some gs →
  (∀ n l, sched n l ≡ₚ l) → (∀ l, sched' l ≡ₚ l) → 0 ≤ root ≤ nverts_known edges → nverts_known edges + 2 < 2 ^ 24 → nverts_known edges + 1 < Z.of_nat fuel → Forall2 validating gs ps →
  ∃ b ps', validate_result num_pes sched sched' fuel root nedges_in ps = Some (b, ps') ∧
  (b = true → ∀ v, 0 ≤ v ≤ nverts_known edges →
    (∃ n u, dist (neighbours edges) root n v ∧ vpred_of num_pes ps v = Some u ∧ match n with O => u = root | S m => dist (neighbours edges) root m u ∧ v ∈ neighbours edges u end) ∨
    ((∀ n, ¬ reach (neighbours edges) root n v) ∧ (vpred_of num_pes ps v = Some (-1) ∨ vdist_of num_pes ps' v = Some FLT_MAX))).
Proof. intros. by eapply built_sound. Qed.

(** The graphs of [csr_demo] on three processes, and predecessors for the root 3 *)
Definition demo_graphs : list oned_csr_graph := default [] (build_graphs 3 9 csr_demo (λ _ _, 0) bfs_order bfs_order).
Definition demo_preds : list vpe := zip_with (λ g pr, mkVpe g pr [] [] 0 0 0) demo_graphs [[3; 3]; [-1; -1]; [3]].
Lemma demo_built : build_graphs 3 9 csr_demo (λ _ _, 0) bfs_order bfs_order = Some demo_graphs.
Proof. vm_compute. reflexivity. Qed.
Lemma validate_sound_witness : ∃ b ps', validate_result 3 (λ _ l, l) (λ l, l) 10 3 None demo_preds = Some (b, ps') ∧
  (b = true → ∀ v, 0 ≤ v ≤ nverts_known csr_demo →
    (∃ n u, dist (neighbours csr_demo) 3 n v ∧ vpred_of 3 demo_preds v = Some u ∧ match n with O => u = 3 | S m => dist (neighbours csr_demo) 3 m u ∧ v ∈ neighbours csr_demo u end) ∨
    ((∀ n, ¬ reach (neighbours csr_demo) 3 n v) ∧ (vpred_of 3 demo_preds v = Some (-1) ∨ vdist_of 3 ps' v = Some FLT_MAX))).
Proof.
  apply (validate_sound 3 9 csr_demo (λ _ _, 0) bfs_order bfs_order demo_graphs); [exact bfs_demo_input|exact demo_built|done|done|split; vm_compute; discriminate|vm_compute; reflexivity|vm_compute; reflexivity|].
  repeat constructor.
Defined.
Example demo_accepted : fst <$> validate_result 3 (λ _ l, rev l) (λ l, rev l) 10 3 (Some 4) demo_preds = Some true.
Proof. vm_compute. reflexivity. Qed.

(** C7. The result of every search is accepted, on any number of processes: at the end
    of any execution of a search the validation of its predecessors, with the number
    of edges that is counted for the statistics, returns 1, in whatever order its
    messages arrive. The graph is one of [bfs_correct], with its restrictions
    ([bfs_input]: no array of degrees that is too small and no positive multiple of
    2048 neighbours in a process); it has fewer than 2^24 - 1 vertices, so that depths
    are exact as floats. *)
Theorem validate_complete num_pes nglobaledges edges junk order1 order2 gs sched sched' fuel root ps c0 c shortest :
  bfs_input num_pes nglobaledges edges junk order1 order2 → build_graphs num_pes nglobaledges edges junk order1 order2 = Some gs →
  (∀ n l, sched n l ≡ₚ l) → (∀ l, sched' l ≡ₚ l) → 0 ≤ root ≤ nverts_known edges → nverts_known edges + 2 < 2 ^ 24 → nverts_known edges + 1 < Z.of_nat fuel →
  all_ready gs ps → search num_pes root ps = Some c0 → rtc (step num_pes) c0 c → final c = true →
  ∃ n ps', get_edge_count_for_teps num_pes (pes c) = Some n ∧ validate_result num_pes sched sched' fuel root (Some n) ((λ p, validate_pe (shortest p) p) <$> pes c) = Some (true, ps').
Proof. intros. by eapply (built_complete num_pes nglobaledges edges junk order1 order2). Qed.
Definition demo_run : option conf := c ← search 3 3 (make_graph_data_structure <$> demo_graphs); run_levels 3 10 c.
Lemma validate_complete_witness : ∃ c0 c n ps', search 3 3 (make_graph_data_structure <$> demo_graphs) = Some c0 ∧ demo_run = Some c ∧
  get_edge_count_for_teps 3 (pes c) = Some n ∧ validate_result 3 (λ _ l, l) (λ l, rev l) 10 3 (Some n) ((λ p, validate_pe [] p) <$> pes c) = Some (true, ps').
Proof.
  destruct (search 3 3 (make_graph_data_structure <$> demo_graphs)) as [c0|] eqn:E0; [|exfalso; vm_compute in E0; discriminate]. destruct (run_levels 3 10 c0) as [c|] eqn:E1; [|exfalso].
  2:{ assert (demo_run ≠ None) as Hd by (vm_compute; discriminate). apply Hd. unfold demo_run. rewrite E0. exact E1. }
  assert (net c0 = []) as En by (unfold search, run_bfs in E0; destruct (mapM _ _) in E0; [|discriminate]; by eapply begin_net). destruct (run_levels_execution 3 10 c0 c En E1) as [Hrun Hf].
  destruct (validate_complete 3 9 csr_demo (λ _ _, 0) bfs_order bfs_order demo_graphs (λ _ l, l) (λ l, rev l) 10 3 (make_graph_data_structure <$> demo_graphs) c0 c (λ _, [])) as (n & ps' & H1 & H2);
    [exact bfs_demo_input|exact demo_built|done|intros l; symmetry; apply Permutation_rev|split; vm_compute; discriminate|vm_compute; reflexivity|vm_compute; reflexivity| |exact E0|exact Hrun|exact Hf|].
  - repeat constructor.
  - exists c0, c, n, ps'. split; [reflexivity|]. split; [unfold demo_run; rewrite E0; exact E1|]. split; [exact H1|exact H2].
Defined.

(** C40. Predecessors are accepted although two vertices that cannot be reached from the
    root have each other as predecessors: their depths stay at FLT_MAX, which is its own
    successor as a float, so that the check of the edge confirms them. *)
Theorem validate_accepts_detached : let edges := [(0, 1); (2, 3)] in
  ∃ g n ps', convert_graph_to_oned_csr 1 (λ _, 0) 0 64 edges (sends edges) (sends edges) = Some g ∧
    let p := mkPe g [] 0 [] 0 [] [0; 0; 3; 2; -1] in
    get_edge_count_for_teps 1 [p] = Some n ∧ validate_result 1 (λ _ l, l) (λ l, l) 10 0 (Some n) [validate_pe [] p] = Some (true, ps') ∧ ∀ k, ¬ reach (neighbours edges) 0 k 2.
Proof.
  intros edges. eexists _, _, _. split; [vm_compute; reflexivity|]. split; [vm_compute; reflexivity|]. split; [vm_compute; reflexivity|].
  assert (∀ k v, reach (neighbours edges) 0 k v → v = 0 ∨ v = 1) as H.
  { intros k. induction k as [|k IH]; intros v; cbn [reach]; [by left|]. intros (u & [-> | ->]%IH & Hv).
    - change (neighbours edges 0) with [1] in Hv. apply list_elem_of_singleton in Hv. by right.
    - change (neighbours edges 1) with [0] in Hv. apply list_elem_of_singleton in Hv. by left. }
  intros k Hk. destruct (H k 2 Hk); lia.
Qed.
